(* ===== verification/_CoqProject ===== *)
-Q . S2P
Prelude.v
GoStd.v
Users.v
Filter.v
MemDB.v
MemTeam.v
MemOrg.v
MemUser.v
UsersDB.v
MemInv.v
MemSafety.v
Sample.v
MemDelete.v
MemOrgSpec.v
MemUserSpec.v
Sessions.v
UsersServer.v
ServerSpec.v
MemLawful.v
UsersClient.v
Calendar.v
Formats.v
Duration.v
Trial.v
Enforcer.v
BillingSpec.v
Entitlement.v
EntitlementSpec.v
MemBilling.v
Api.v
ApiTeam.v
ApiOrg.v
ApiUser.v
ApiAdmin.v
ApiRoutes.v
MemTeamSpec.v
ApiSpec.v
Http.v
Encoding.v
Middleware.v
Caching.v
CachingSpec.v
Rounding.v
Balance.v
BalanceSpec.v
Authfe.v
AuthfeSpec.v
Decorators.v
DecoratorsSpec.v
Ledger.v
Aggregator.v
LedgerSpec.v
AggregatorSpec.v
LedgerDecorators.v
Zuora.v
ZuoraSpec.v
Report.v
ReportSpec.v
Uploader.v
UploaderSpec.v
BillingApi.v
BillingAdmin.v
BillingPeriods.v
BillingApiSpec.v
BillingVerify.v
Json.v
Notification.v
NotifyDB.v
NotifyRender.v
NotifyManager.v
NotifySender.v
NotifySpec.v
NotifyTables.v
NotifyManagerSpec.v
NotifySenderSpec.v
Postgres.v
PostgresDB.v
PostgresSpec.v
ApiTeamSpec.v
PostgresLawful.v
