(* ===== verification/Prelude.v ===== *)
(** * The services of Weave Cloud: a verification development

    The repository is a set of Go services around one database of users, teams and
    organizations (an organization is what the product calls an instance).  The users service
    owns that database and answers the other services over gRPC; the billing enforcer and the
    webhook of the Google Cloud Marketplace change it through that server; every request
    that reaches the product is authorized against it.  The billing services keep usage in a database
    of their own and bill it through Zuora; the notification services turn events of the product
    into messages for the receivers of an instance.

    ** How the files correspond to the code

    - this file: the outcome of a Go call (returned, returned an error, panicked, blocked on a
      mutex the goroutine holds, ran out of the model's fuel), a state monad over it with its
      notations, Hoare-style rules for it, and lemmas on maps and lists;
    - [GoStd]: the parts of the language and its standard library the code uses (package strings
      on ASCII text, sorting, instants and durations of package time, 64-bit words);
    - [Users]: users/*.go, the records of users.pb.go, their errors and methods;
    - [Filter]: users/db/filter, the list filters, their matchers and query parsers;
    - [MemDB], [MemTeam], [MemOrg], [MemUser]: users/db/memory, the in-memory database: one
      record for the struct, one definition for each method, with the mutex as a field, the
      pointers the maps share as references into a heap of organizations and of GCP accounts,
      and the effects an operation leaves behind when it fails half-way;
    - [UsersDB]: users/db/db.go, the interface as a type of calls, a class of implementations
      and the instance for the in-memory database;
    - [Postgres], [PostgresDB]: users/db/postgres with the constraints of users/db/migrations: tables, connections and transactions,
      the conditions of the list filters in the three-valued logic of SQL, and the statements of each method, with the
      connection it goes through;
    - [Sessions]: users/sessions/store.go;
    - [UsersServer]: users/grpc and users/api/permissions.go, over any instance of the interface,
      with the rules of common/orgs;
    - [UsersClient]: the interceptor between the server and its clients;
    - [Calendar], [Duration]: common/time; [Trial]: billing-api/trial, in binary64;
    - [Enforcer]: billing-enforcer/job; [Entitlement]: gcp-launcher-webhook with the client of
      the procurement API (common/gcp/procurement, common/jsonclient.go);
    - [Api], [ApiTeam], [ApiOrg], [ApiUser], [ApiAdmin], [ApiRoutes]: users/api, the
      HTTP handlers of the users service, with authentication in [Api] and the pages of the service and
      the dispatch of a request to its handler in [ApiRoutes] ([ServeHTTP]); common/render and common/validation;
    - [Http]: what handlers use of net/http and of the router; [Middleware], [Caching]:
      users/client, the middleware that authenticates and authorizes requests in other services, and the
      caches between them and the users service;
    - [Rounding], [Balance]: authfe/balance, consistent hashing with bounded loads, in binary64;
    - [Authfe]: authfe, the edge proxy: events, proxies, the kinds of routes and the table of routes;
    - [Decorators]: users/db/timed.go and traced.go, and the database that MustNew makes with them;
    - [Ledger]: billing-api/db, the interface and the in-memory database of usage, uploads and
      post-trial invoices; [LedgerDecorators]: its timed.go and traced.go; [Aggregator]:
      billing-aggregator/job, over that interface;
    - [Formats]: dates and CSV records as text; [Zuora], [Report]: common/zuora, the payment
      errors and the client (every request as a value, the network as a function with a state), and the usage
      report; [Uploader]: billing-uploader/job, its two jobs and its two uploaders;
    - [Encoding]: base64, query strings, dates and decimal floats as text; [BillingApi], [BillingAdmin]:
      billing-api/routes and billing-api/api, accounts, payments, usage, invoices, the administration
      pages, the gRPC server and the table of routes; [BillingPeriods], [BillingVerify]: the periods
      that are billed and the verification of invoices, with their theorems;
    - [Json]: values, texts and the parser of encoding/json; [Notification], [NotifyDB], [NotifyRender],
      [NotifyManager]: notification-eventmanager, its messages, its PostgreSQL database, the rendering of events, the
      handlers and routes; [NotifySender]: notification-sender, the loop over the queue and the senders.

    ** What is proved

    - [MemInv], [MemSafety]: the invariant of the in-memory database (each map is
      keyed by the identifier of its values, organizations belong to teams, accounts are
      indexed by their external id, ...) holds in every state that calls of the interface
      reach from an empty database; no call blocks on its own mutex, and each gives it back;
    - [MemDelete], [MemOrgSpec], [MemUserSpec]: the functional behaviour of the operations with
      several cases, errors and partial effects included, among them that an organization
      created after a deletion can replace a live one;
    - [ServerSpec] states as a class ([LawfulDB]) what the server relies on in a database, and
      what the server then promises: which organization a look-up returns and that the
      requested action is authorized exactly when the flags and roles allow it, how
      organizations divide into billable, on trial and delinquent, that a weekly report is not
      sent twice in a week; [MemLawful] shows that the in-memory database is such a database;
    - [PostgresSpec]: whatever statements fail, the unique indexes and references of the PostgreSQL tables hold after every
      call, no transaction stays open and none waits for another connection of its own goroutine; a call that fails
      has changed nothing if it is one statement or one transaction, and five calls are neither; [PostgresLawful]: the
      condition of a filter selects what its matcher selects, the PostgreSQL database is one the server may rely on
      (the class lets a database keep instants at its own resolution, [stored]), and the server does not tell two such
      databases apart that show the same;
    - [Sessions]: a cookie that was set is read back until it expires;
    - [BillingSpec], [EntitlementSpec]: what the enforcer and the marketplace webhook do to the
      database and to the mail sent, against a second interface ([BillingDB]) that
      [MemBilling] discharges;
    - [Calendar]: billing cycles and their intervals cover a period without gap or overlap;
      [Duration]: conversions of usage and where they overflow; [Trial]: the floating-point
      computation of days against the exact one;
    - [ApiSpec]: a request to the users API only changes the database as far as the session, the
      token or the permissions of its sender allow ([requests_are_authorized]); [ApiTeamSpec]: the
      team handlers leave an administrator in a team that has one, on top of [MemTeamSpec] (calls that only
      read, and the team operations);
    - [CachingSpec]: an answer of the caching client is one the service gave for the same
      question not longer ago than the lifetime of the entry;
    - [BalanceSpec]: the balancer finds an endpoint in one turn of the ring, the same key goes to the same
      endpoint, updates follow service discovery, and a run in which it loops for ever;
    - [AuthfeSpec]: a request the edge proxy forwards carries the organization the users service
      gave for the credentials that came with it, whatever headers the client sent;
    - [DecoratorsSpec]: the decorated database answers as the one inside it, whatever runs on it;
    - [LedgerSpec] states as a class ([LawfulLedger]) what the billing jobs rely on in their
      database and shows that the in-memory one keeps to it; [AggregatorSpec]: the aggregator
      brings the stored usage up to what BigQuery reports and counts nothing twice;
    - [ZuoraSpec]: the payment status of an account, and that an upload of usage ends;
      [ReportSpec]: the lines of a report add up to the usage it was made from, cycle by cycle;
      [UploaderSpec]: usage is linked to an upload exactly when the upload succeeded, and an
      invoice is forgotten only when there is nothing left to collect;
    - [BillingPeriods]: the billing period holds the day it is computed for, and the months of the usage
      report; [BillingApiSpec]: accounts and payment methods only change with the permission to
      update the billing, the link of an invoice leads to the file, and nothing is served without the code of
      the link; [BillingVerify]: what an invoice that was called valid agrees with, and the estimate
      on the first day after a trial;
    - [NotifySpec]: the transactions of the notification database against functions on its tables; [NotifyTables]:
      its foreign keys, the synchronization of event types, and concurrent initializations; [NotifyManagerSpec]: which
      receivers an event is put into the queue for; [NotifySenderSpec]: a message leaves the queue when it was handled,
      an alert is read by the senders as it was rendered, and the sender stops;
    - [Sample]: the state the witnesses run on.

    ** Fuel and bounds

    Some loops are not structural.  [GenerateOrganizationExternalID] and
    [generateTeamExternalID], in memory and in PostgreSQL, and the probe tokens of the latter, draw identifiers
    until one is free: fuel is an argument, every theorem holds for any, and [GenerateOrganizationExternalID_spec] says that the call returns
    as soon as the fuel exceeds the number of used identifiers drawn before a free one.
    [MonthlyIntervalsWithinRange] has one round for each day of the period and two more; each
    round but the first and last advances by a month, and the theorem says that fuel is enough.
    [Balance.Get] walks the ring of the balancer; it is given one turn, which is enough
    whenever loads are not negative, and any amount is too little in the run where they are.
    The batches of the aggregator have one round for each record, and a round takes one at least.
    The months of the usage report have one round for each month, which [months_spec] says is enough.  The
    pages of usage that the verification of an invoice reads are as many as Zuora gives: fuel is an
    argument, and the theorem holds for any.
    The batches of notifications have one round for each notification; the links of a text are looked for
    as often as it has characters; the sender of notifications runs for as many rounds as it is given, and
    [sender_stops] says how many are enough once its context is cancelled, with ten tries for each request to OpsGenie.
    Instants are nanoseconds in UTC as unbounded integers, durations saturate as in package
    time, amounts of usage wrap at 64 bits.

    ** Parameters

    Code that is not in the repository is an argument: the password hash, random
    identifiers and tokens and the clock (fields of the environment), securecookie, the
    decoding of JSON messages, the e-mail provider, the assembly of weekly reports, what
    HTTP servers reply, the claims of the login provider, the HTML sanitizer, SHA-1 and the parsing of JWTs,
    SHA-256, the control API of Google, the LRU caches (a class with laws), HMAC, the signature of GitHub, the CSRF tokens, the
    addresses of a round robin, the Markdown renderer and the HTML templates of notifications, the parsers of UUIDs, URLs and
    addresses, the rate limiter, the metadata of flux events, what PostgreSQL keeps of an instant and of a JSON text, and
    the orders that clients give for lists.

    ** Not modelled

    The PostgreSQL server itself (its statements are functions on the tables that may fail, one at a time; a statement
    of one connection waits for any transaction of another that has written), the database of the billing API in PostgreSQL,
    HTML and e-mail templates, OAuth, web sockets, metrics, the copying of streams by reverse proxies, clients of cloud providers, and the services that only move messages
    between those.  Map iteration order, which Go leaves open, is an argument of the operations
    that iterate, and so is what sort.Slice makes of a comparison that is not an order ([GoOrders],
    [GroupOrder]).

    ** Plan

    Next: the collections of common, the queues of the marketing package, the synchronization of users. *)
From Stdlib Require Import ZArith Lia Ascii String Sorting.Sorted.
From stdpp Require Import base tactics option gmap strings list pretty.

#[global] Open Scope Z_scope.

(** * Outcomes and the state monad

    A Go call either returns, returns a non-nil error, panics (nil pointer
    dereference, nil map write), blocks for ever on a mutex its own goroutine
    already holds, or, for the loops the code bounds by nothing, has used all
    the fuel the model gives it. *)

Inductive outcome (E A : Type) : Type :=
  | Ret (a : A)
  | Err (e : E)
  | Panic
  | Deadlock
  | OutOfFuel.
Arguments Ret {E A} a.
Arguments Err {E A} e.
Arguments Panic {E A}.
Arguments Deadlock {E A}.
Arguments OutOfFuel {E A}.

Definition M (S E A : Type) : Type := S -> outcome E A * S.

Section monad.
Context {S E : Type}.

Definition ret {A} (a : A) : M S E A := fun s => (Ret a, s).
Definition throw {A} (e : E) : M S E A := fun s => (Err e, s).
Definition panic {A} : M S E A := fun s => (Panic, s).
Definition out_of_fuel {A} : M S E A := fun s => (OutOfFuel, s).

Definition bind {A B} (m : M S E A) (k : A -> M S E B) : M S E B := fun s =>
  match m s with
  | (Ret a, s') => k a s'
  | (Err e, s') => (Err e, s')
  | (Panic, s') => (Panic, s')
  | (Deadlock, s') => (Deadlock, s')
  | (OutOfFuel, s') => (OutOfFuel, s')
  end.

(** [x, err := m(); ...]: the error becomes a value the code inspects. *)
Definition try {A} (m : M S E A) : M S E (E + A) := fun s =>
  match m s with
  | (Ret a, s') => (Ret (inr a), s')
  | (Err e, s') => (Ret (inl e), s')
  | (Panic, s') => (Panic, s')
  | (Deadlock, s') => (Deadlock, s')
  | (OutOfFuel, s') => (OutOfFuel, s')
  end.

Definition get : M S E S := fun s => (Ret s, s).
Definition gets {A} (f : S -> A) : M S E A := fun s => (Ret (f s), s).
Definition modify (f : S -> S) : M S E unit := fun s => (Ret tt, f s).

(** The value behind a pointer that must not be nil. *)
Definition deref {A} (p : option A) : M S E A :=
  match p with Some a => ret a | None => panic end.

Definition or_else {A} (p : option A) (e : E) : M S E A :=
  match p with Some a => ret a | None => throw e end.

(** A [for] loop whose body may return early with an error. *)
Fixpoint for_each {A} (l : list A) (body : A -> M S E unit) : M S E unit :=
  match l with
  | [] => ret tt
  | x :: l' => bind (body x) (fun _ => for_each l' body)
  end.

(** A loop that threads a value through the elements. *)
Fixpoint fold_m {A B} (f : B -> A -> M S E B) (l : list A) (b : B) : M S E B :=
  match l with
  | [] => ret b
  | x :: l' => bind (f b x) (fold_m f l')
  end.

End monad.

Declare Scope go_scope.
Delimit Scope go_scope with go.
Notation "'do' x <- m ; k" := (bind m (fun x => k))
  (at level 10, x name, m at level 100, k at level 200) : go_scope.
Notation "'do' ' p <- m ; k" := (bind m (fun p => k))
  (at level 10, p pattern, m at level 100, k at level 200) : go_scope.
Notation "m ;;; k" := (bind m (fun _ => k))
  (at level 199, right associativity) : go_scope.
#[global] Open Scope go_scope.

Definition is_ret {E A} (o : outcome E A) : bool :=
  match o with Ret _ => true | _ => false end.

(** The call came back, with a value or with an error. *)
Definition definite {E A} (o : outcome E A) : Prop :=
  match o with Ret _ | Err _ => True | _ => False end.

(** Running one monadic step in a larger state. *)
Definition zoom {S T E A} (get : T -> S) (put : S -> T -> T) (m : M S E A) : M T E A :=
  fun t => let '(o, s) := m (get t) in (o, put s t).

(** * Hoare-style reasoning *)

(** Closes the goals about one primitive step, by computation. *)
Ltac done_step := repeat intro; simpl in *; auto.

Section hoare.
Context {S E : Type}.

(** [hoare P m Q]: from a state in [P], the outcome and final state of [m] are in [Q]. *)
Definition hoare {A} (P : S -> Prop) (m : M S E A) (Q : outcome E A -> S -> Prop) : Prop :=
  forall s, P s -> Q (m s).1 (m s).2.

(** Whatever the outcome, [I] still holds at the end. *)
Definition preserves {A} (I : S -> Prop) (m : M S E A) : Prop :=
  forall s, I s -> I (m s).2.

(** The code never writes the state. *)
Definition reader {A} (m : M S E A) : Prop := forall s, (m s).2 = s.

Lemma preserves_ret {A} I (a : A) : preserves I (ret a).
Proof. done_step. Qed.

Lemma preserves_throw {A} I e : preserves I (throw e : M S E A).
Proof. done_step. Qed.

Lemma preserves_panic {A} I : preserves I (panic : M S E A).
Proof. done_step. Qed.

Lemma preserves_out_of_fuel {A} I : preserves I (out_of_fuel : M S E A).
Proof. done_step. Qed.

Lemma preserves_bind {A B} I (m : M S E A) (k : A -> M S E B) :
  preserves I m -> (forall a, preserves I (k a)) -> preserves I (bind m k).
Proof.
  intros Hm Hk s Hs. unfold bind. specialize (Hm s Hs).
  destruct (m s) as [[] s']; simpl in *; try done. by apply Hk.
Qed.

Lemma preserves_try {A} I (m : M S E A) : preserves I m -> preserves I (try m).
Proof.
  intros Hm s Hs. unfold try. specialize (Hm s Hs). by destruct (m s) as [[] s'].
Qed.

Lemma preserves_gets {A} I (f : S -> A) : preserves I (gets f).
Proof. done_step. Qed.

Lemma preserves_get I : preserves I (@get S E).
Proof. done_step. Qed.

Lemma preserves_modify I (f : S -> S) : (forall s, I s -> I (f s)) -> preserves I (modify (E:=E) f).
Proof. intros Hf s Hs. by apply Hf. Qed.

Lemma preserves_deref {A} I (p : option A) : preserves I (deref p : M S E A).
Proof. destruct p; done_step. Qed.

Lemma preserves_or_else {A} I (p : option A) e : preserves I (or_else p e : M S E A).
Proof. destruct p; done_step. Qed.

Lemma preserves_for_each {A} I (l : list A) (body : A -> M S E unit) :
  (forall x, preserves I (body x)) -> preserves I (for_each l body).
Proof.
  intros Hb. induction l as [|x l IH]; simpl; [apply preserves_ret|].
  by apply preserves_bind.
Qed.

Lemma preserves_fold_m {A B} I (f : B -> A -> M S E B) (l : list A) b :
  (forall b x, preserves I (f b x)) -> preserves I (fold_m f l b).
Proof.
  intros Hf. revert b. induction l as [|x l IH]; intros b; simpl; [apply preserves_ret|].
  by apply preserves_bind.
Qed.

Lemma reader_fold_m {A B} (f : B -> A -> M S E B) (l : list A) b :
  (forall b x s, (f b x s).2 = s) -> forall s, (fold_m f l b s).2 = s.
Proof.
  intros Hf. revert b. induction l as [|x l IH]; intros b s; simpl; [done|].
  unfold bind. specialize (Hf b x s).
  destruct (f b x s) as [[] s']; simpl in *; subst; auto.
Qed.

Lemma preserves_reader {A} I (m : M S E A) : reader m -> preserves I m.
Proof. intros Hr s Hs. by rewrite Hr. Qed.

Lemma reader_ret {A} (a : A) : reader (ret a).
Proof. done_step. Qed.
Lemma reader_throw {A} e : reader (throw e : M S E A).
Proof. done_step. Qed.
Lemma reader_gets {A} (f : S -> A) : reader (gets f).
Proof. done_step. Qed.
Lemma reader_deref {A} (p : option A) : reader (deref p : M S E A).
Proof. destruct p; done_step. Qed.
Lemma reader_or_else {A} (p : option A) e : reader (or_else p e : M S E A).
Proof. destruct p; done_step. Qed.
Lemma reader_bind {A B} (m : M S E A) (k : A -> M S E B) :
  reader m -> (forall a, reader (k a)) -> reader (bind m k).
Proof.
  intros Hm Hk s. unfold bind. specialize (Hm s).
  destruct (m s) as [[] s']; simpl in *; subst; try done. by rewrite Hk.
Qed.

Lemma hoare_bind {A B} (P : S -> Prop) (m : M S E A) (k : A -> M S E B) (Q : outcome E A -> S -> Prop) (R : outcome E B -> S -> Prop) :
  hoare P m Q ->
  (forall a, hoare (Q (Ret a)) (k a) R) ->
  (forall s e, Q (Err e) s -> R (Err e) s) ->
  (forall s, Q Panic s -> R Panic s) ->
  (forall s, Q Deadlock s -> R Deadlock s) ->
  (forall s, Q OutOfFuel s -> R OutOfFuel s) ->
  hoare P (bind m k) R.
Proof.
  intros Hm Hk He Hp Hd Ho s Hs. unfold bind. specialize (Hm s Hs).
  destruct (m s) as [[] s']; simpl in *; eauto. by apply Hk.
Qed.

Lemma bind_Ret {A B} (m : M S E A) (k : A -> M S E B) s a s' :
  m s = (Ret a, s') -> bind m k s = k a s'.
Proof. intros Hm. unfold bind. by rewrite Hm. Qed.

Lemma bind_Err {A B} (m : M S E A) (k : A -> M S E B) s e s' :
  m s = (Err e, s') -> bind m k s = (Err e, s').
Proof. intros Hm. unfold bind. by rewrite Hm. Qed.

Lemma bind_inv_Ret {A B} (m : M S E A) (k : A -> M S E B) s b s'' :
  bind m k s = (Ret b, s'') -> exists a s', m s = (Ret a, s') /\ k a s' = (Ret b, s'').
Proof. unfold bind. destruct (m s) as [[] s']; naive_solver. Qed.

End hoare.

(** Symbolic execution of a sequence, one call at a time: [I] is any predicate of the
    final state. *)
Section keeps.
Context {S E : Type}.

Lemma keeps_bind {A B} (I : S -> Prop) (m : M S E A) (k : A -> M S E B) s :
  I (m s).2 ->
  (forall a s', m s = (Ret a, s') -> I s' -> I (k a s').2) ->
  I (bind m k s).2.
Proof.
  intros Hm Hk. unfold bind. destruct (m s) as [[] s'] eqn:Hs; simpl in *; eauto.
Qed.

Lemma keeps_bind_reader {A B} (I : S -> Prop) (m : M S E A) (k : A -> M S E B) s :
  reader m -> I s ->
  (forall a, m s = (Ret a, s) -> I (k a s).2) ->
  I (bind m k s).2.
Proof.
  intros Hr Hs Hk. apply keeps_bind; [by rewrite Hr|].
  intros a s' Hm _. pose proof (Hr s) as Hs'. rewrite Hm in Hs'. simpl in Hs'. subst. eauto.
Qed.

Lemma reader_try {A} (m : M S E A) : reader m -> reader (try m).
Proof.
  intros Hm s. unfold try. specialize (Hm s). by destruct (m s) as [[] s'].
Qed.

Lemma try_inl {A} (m : M S E A) s e s' : try m s = (Ret (inl e), s') <-> m s = (Err e, s').
Proof. unfold try. destruct (m s) as [[] ?]; naive_solver. Qed.

Lemma try_inr {A} (m : M S E A) s a s' : try m s = (Ret (inr a), s') <-> m s = (Ret a, s').
Proof. unfold try. destruct (m s) as [[] ?]; naive_solver. Qed.

Lemma or_else_Ret {A} (p : option A) (e : E) (s : S) a s' :
  or_else p e s = (Ret a, s') <-> p = Some a /\ s' = s.
Proof. destruct p; simpl; unfold ret, throw; naive_solver. Qed.

Lemma deref_Ret {A} (p : option A) (s : S) a s' :
  (deref p : M S E A) s = (Ret a, s') <-> p = Some a /\ s' = s.
Proof. destruct p; simpl; unfold ret, panic; naive_solver. Qed.

End keeps.

Create HintDb go.
Create HintDb go_lock.
#[export] Hint Resolve preserves_ret preserves_throw preserves_panic preserves_out_of_fuel
  preserves_bind preserves_try preserves_gets preserves_get preserves_deref preserves_or_else
  preserves_for_each preserves_fold_m : go.
#[export] Hint Resolve reader_ret reader_throw reader_gets reader_deref reader_or_else reader_bind reader_try : go.

(** A loop that appends one element per round and leaves the state alone. *)
Lemma fold_m_append {S E A B} (f : list B -> A -> M S E (list B)) (g : A -> B) (l : list A) acc s :
  (forall x b, x ∈ l -> f b x s = (Ret (b ++ [g x]), s)) ->
  fold_m f l acc s = (Ret (acc ++ (g <$> l)), s).
Proof.
  revert acc. induction l as [|x l IH]; intros acc Hf; simpl; [by rewrite app_nil_r|].
  rewrite (bind_Ret _ _ _ _ _ (Hf x acc (list_elem_of_here _ _))).
  rewrite IH; [by rewrite <- app_assoc|]. intros y b Hy. apply Hf. by right.
Qed.

(** A loop that adds keys to a set. *)
Lemma foldl_keys {A} (f : gmap string unit -> A -> gmap string unit) (P : A -> string -> Prop) (l : list A) acc id :
  (forall b x, is_Some (f b x !! id) <-> is_Some (b !! id) \/ P x id) ->
  is_Some (foldl f acc l !! id) <-> is_Some (acc !! id) \/ exists x, x ∈ l /\ P x id.
Proof.
  intros Hf. revert acc. induction l as [|x l IH]; intros acc; simpl.
  - split; [by left|]. intros [?|(x & Hx & _)]; [done|]. by apply not_elem_of_nil in Hx.
  - rewrite IH, Hf. setoid_rewrite elem_of_cons. naive_solver.
Qed.

(** * Mutexes

    [sync.Mutex] is not reentrant: locking it twice on one goroutine blocks for
    ever. A method that starts with [d.mtx.Lock(); defer d.mtx.Unlock()] is
    [locked body]; the deferred unlock also runs when the body panics. *)

Class HasMutex (S : Type) := {
  mtx_held : S -> bool;
  set_mtx : bool -> S -> S;
  mtx_held_set : forall b s, mtx_held (set_mtx b s) = b;
}.

Section mutex.
Context {S E : Type} `{HasMutex S}.

Definition locked {A} (body : M S E A) : M S E A := fun s =>
  if mtx_held s then (Deadlock, s)
  else let '(o, s') := body (set_mtx true s) in
       match o with
       | Deadlock => (Deadlock, s')
       | OutOfFuel => (OutOfFuel, s')
       | _ => (o, set_mtx false s')
       end.

(** Code that never touches the mutex (it runs with the lock held or not). *)
Definition lock_free {A} (m : M S E A) : Prop := forall s,
  (m s).1 <> Deadlock /\ mtx_held (m s).2 = mtx_held s.

(** Code that, started unlocked, never blocks on the mutex and leaves it unlocked. *)
Definition lock_safe {A} (m : M S E A) : Prop := forall s,
  mtx_held s = false ->
  (m s).1 <> Deadlock /\ ((m s).1 <> OutOfFuel -> mtx_held (m s).2 = false).

Lemma lock_free_safe {A} (m : M S E A) : lock_free m -> lock_safe m.
Proof. intros Hm s Hs. destruct (Hm s) as [? ->]. auto. Qed.

Lemma lock_safe_locked {A} (m : M S E A) : lock_free m -> lock_safe (locked m).
Proof.
  intros Hm s Hs. unfold locked. rewrite Hs.
  destruct (Hm (set_mtx true s)) as [Hd _].
  destruct (m (set_mtx true s)) as [[] s']; simpl in *;
    rewrite ?mtx_held_set; (split; [congruence | by intros]).
Qed.

Lemma lock_safe_bind {A B} (m : M S E A) (k : A -> M S E B) :
  lock_safe m -> (forall a, lock_safe (k a)) -> lock_safe (bind m k).
Proof.
  intros Hm Hk s Hs. unfold bind. destruct (Hm s Hs) as [Hd Hu].
  destruct (m s) as [[] s']; simpl in *;
    first [ apply Hk, Hu; discriminate | congruence | split; [discriminate | intros; apply Hu; discriminate] | split; congruence ].
Qed.

Lemma lock_free_bind {A B} (m : M S E A) (k : A -> M S E B) :
  lock_free m -> (forall a, lock_free (k a)) -> lock_free (bind m k).
Proof.
  intros Hm Hk s. unfold bind. destruct (Hm s) as [Hd Hu].
  destruct (m s) as [[a| | | |] s']; simpl in *; try (split; congruence).
  rewrite <- Hu. apply Hk.
Qed.

Lemma lock_free_try {A} (m : M S E A) : lock_free m -> lock_free (try m).
Proof.
  intros Hm s. unfold try. destruct (Hm s) as [Hd Hu].
  destruct (m s) as [[] s']; simpl in *; split; congruence.
Qed.

Lemma lock_safe_try {A} (m : M S E A) : lock_safe m -> lock_safe (try m).
Proof.
  intros Hm s Hs. unfold try. destruct (Hm s Hs) as [Hd Hu].
  destruct (m s) as [[] s']; simpl in *; first [ congruence | split; [discriminate|]; intros; apply Hu; congruence | split; congruence].
Qed.

Lemma lock_free_reader {A} (m : M S E A) : (forall s, (m s).1 <> Deadlock) -> reader m -> lock_free m.
Proof. intros Hd Hr s. split; [apply Hd|]. by rewrite Hr. Qed.

Lemma lock_free_ret {A} (a : A) : lock_free (ret a).
Proof. done_step. Qed.
Lemma lock_free_throw {A} e : lock_free (throw e : M S E A).
Proof. done_step. Qed.
Lemma lock_free_panic {A} : lock_free (panic : M S E A).
Proof. done_step. Qed.
Lemma lock_free_out_of_fuel {A} : lock_free (out_of_fuel : M S E A).
Proof. done_step. Qed.
Lemma lock_free_gets {A} (f : S -> A) : lock_free (gets f).
Proof. done_step. Qed.
Lemma lock_free_deref {A} (p : option A) : lock_free (deref p : M S E A).
Proof. destruct p; done_step. Qed.
Lemma lock_free_or_else {A} (p : option A) e : lock_free (or_else p e : M S E A).
Proof. destruct p; done_step. Qed.
Lemma lock_free_modify (f : S -> S) :
  (forall s, mtx_held (f s) = mtx_held s) -> lock_free (modify (E:=E) f).
Proof. intros Hf s. split; [done | apply Hf]. Qed.
Lemma lock_free_for_each {A} (l : list A) (body : A -> M S E unit) :
  (forall x, lock_free (body x)) -> lock_free (for_each l body).
Proof.
  intros Hb. induction l as [|x l IH]; simpl; [apply lock_free_ret|].
  by apply lock_free_bind.
Qed.
Lemma lock_free_fold_m {A B} (f : B -> A -> M S E B) (l : list A) b :
  (forall b x, lock_free (f b x)) -> lock_free (fold_m f l b).
Proof.
  intros Hf. revert b. induction l as [|x l IH]; intros b; simpl; [apply lock_free_ret|].
  by apply lock_free_bind.
Qed.
Lemma lock_safe_for_each {A} (l : list A) (body : A -> M S E unit) :
  (forall x, lock_safe (body x)) -> lock_safe (for_each l body).
Proof.
  intros Hb. induction l as [|x l IH]; simpl; [apply lock_free_safe, lock_free_ret|].
  by apply lock_safe_bind.
Qed.

Lemma preserves_locked {A} I (m : M S E A) :
  (forall b s, I s -> I (set_mtx b s)) -> preserves I m -> preserves I (locked m).
Proof.
  intros Hset Hm s Hs. unfold locked. destruct (mtx_held s); [done|].
  specialize (Hm (set_mtx true s) (Hset _ _ Hs)).
  destruct (m (set_mtx true s)) as [[] s']; simpl in *; auto.
Qed.

(** What a locked body returns is what it returns under the lock. *)
Lemma locked_eq {A} (m : M S E A) s o s' :
  mtx_held s = false -> m (set_mtx true s) = (o, s') -> o <> Deadlock -> o <> OutOfFuel ->
  locked m s = (o, set_mtx false s').
Proof. intros Hs Hm ? ?. unfold locked. rewrite Hs, Hm. by destruct o. Qed.

End mutex.

#[export] Hint Resolve lock_free_ret lock_free_throw lock_free_panic lock_free_out_of_fuel
  lock_free_gets lock_free_deref lock_free_or_else lock_free_bind lock_free_try
  lock_free_for_each lock_free_fold_m : go.
#[export] Hint Resolve lock_safe_locked lock_safe_bind lock_safe_try lock_safe_for_each : go_lock.

(** * Go maps: [for k, v := range m]

    Go leaves the order of a map iteration unspecified. Code that ranges over a
    map is stated for an arbitrary enumeration of its entries; every theorem
    holds for each of them. *)

Class GoRange := {
  go_range : forall {V : Type}, gmap string V -> list (string * V);
  go_range_perm : forall V (m : gmap string V), go_range m ≡ₚ map_to_list m;
}.

(** The enumeration the examples are run with. *)
Definition list_range : GoRange :=
  {| go_range := fun V m => map_to_list m; go_range_perm := fun V m => reflexivity _ |}.

Section range.
Context `{GoRange} {V : Type}.
Implicit Types (m : gmap string V) (f : V -> bool).

Lemma elem_of_go_range m k v : (k, v) ∈ go_range m <-> m !! k = Some v.
Proof. rewrite go_range_perm. apply elem_of_map_to_list. Qed.

Lemma NoDup_go_range_keys m : NoDup (go_range m).*1.
Proof. rewrite go_range_perm. apply NoDup_fst_map_to_list. Qed.

(** [for k, v := range m { if f(v) { return k, v } }] *)
Definition first_entry f m : option (string * V) :=
  List.find (fun kv => f kv.2) (go_range m).

(** [for _, v := range m { if f(v) { return v } }] *)
Definition first_match f m : option V := snd <$> first_entry f m.

Lemma first_entry_Some f m k v :
  first_entry f m = Some (k, v) -> m !! k = Some v /\ f v = true.
Proof.
  intros [Hin Hf]%List.find_some. apply list_elem_of_In, elem_of_go_range in Hin. done.
Qed.

Lemma first_entry_None f m :
  first_entry f m = None <-> forall k v, m !! k = Some v -> f v = false.
Proof.
  unfold first_entry. split.
  - intros Hn k v Hv. apply elem_of_go_range, list_elem_of_In in Hv.
    apply (List.find_none _ _ Hn _ Hv).
  - intros Hall. destruct (List.find (fun kv => f kv.2) (go_range m)) as [[k v]|] eqn:Hf; [|done].
    apply List.find_some in Hf as [Hin Hv].
    apply list_elem_of_In, elem_of_go_range in Hin. simpl in Hv.
    by rewrite (Hall _ _ Hin) in Hv.
Qed.

(** When one key only holds matching values, the iteration order does not matter. *)
Lemma first_entry_unique f m k v :
  m !! k = Some v -> f v = true ->
  (forall k' v', m !! k' = Some v' -> f v' = true -> k' = k) ->
  first_entry f m = Some (k, v).
Proof.
  intros Hk Hf Hu. destruct (first_entry f m) as [[k' v']|] eqn:Hm.
  - apply first_entry_Some in Hm as [Hk' Hf'].
    pose proof (Hu k' v' Hk' Hf') as ->. congruence.
  - rewrite first_entry_None in Hm. by rewrite (Hm _ _ Hk) in Hf.
Qed.

(** [for _, v := range m { if f(v) { vs = append(vs, v) } }] *)
Definition select f m : list V :=
  snd <$> List.filter (fun kv => f kv.2) (go_range m).

Lemma first_match_Some f m v :
  first_match f m = Some v -> exists k, m !! k = Some v /\ f v = true.
Proof.
  unfold first_match. intros ([k v'] & [? ?]%first_entry_Some & ->)%fmap_Some. by exists k.
Qed.

Lemma first_match_None f m :
  first_match f m = None <-> forall k v, m !! k = Some v -> f v = false.
Proof. unfold first_match. rewrite fmap_None. apply first_entry_None. Qed.

(** When at most one entry matches, the iteration order does not matter. *)
Lemma first_match_unique f m k v :
  m !! k = Some v -> f v = true ->
  (forall k' v', m !! k' = Some v' -> f v' = true -> v' = v) ->
  first_match f m = Some v.
Proof.
  intros Hk Hf Hu. destruct (first_match f m) as [v'|] eqn:Hm.
  - apply first_match_Some in Hm as (k' & ? & ?). by rewrite (Hu k' v').
  - rewrite first_match_None in Hm. by rewrite (Hm _ _ Hk) in Hf.
Qed.

Lemma elem_of_select f m v :
  v ∈ select f m <-> exists k, m !! k = Some v /\ f v = true.
Proof.
  unfold select. rewrite list_elem_of_fmap. split.
  - intros ([k v'] & -> & Hin). apply list_elem_of_In, List.filter_In in Hin as [Hin Hf].
    apply list_elem_of_In, elem_of_go_range in Hin. by exists k.
  - intros (k & Hk & Hf). exists (k, v). split; [done|].
    apply list_elem_of_In, List.filter_In. split; [|done].
    by apply list_elem_of_In, elem_of_go_range.
Qed.

End range.
