(* ===== verification/GoStd.v ===== *)
(** The part of the Go language and its standard library the modelled code uses:
    package [strings] (on ASCII text), [sort.Sort] and [sort.Ints], instants and
    durations of package [time], and unsigned 64-bit arithmetic. *)
From Stdlib Require Import ZArith Lia Ascii String Sorting.Sorted.
From stdpp Require Import base tactics option gmap strings list pretty.
From S2P Require Import Prelude.

(** * Package strings *)

Module strings.

Definition between (lo hi : nat) (c : ascii) : bool :=
  (lo <=? nat_of_ascii c)%nat && (nat_of_ascii c <=? hi)%nat.
Definition is_upper := between 65 90.
Definition is_lower := between 97 122.
Definition is_digit := between 48 57.

Definition lower_char (c : ascii) : ascii :=
  if is_upper c then ascii_of_nat (nat_of_ascii c + 32) else c.
Definition upper_char (c : ascii) : ascii :=
  if is_lower c then ascii_of_nat (nat_of_ascii c - 32) else c.

Fixpoint map (f : ascii -> ascii) (s : string) : string :=
  match s with
  | EmptyString => EmptyString
  | String c s' => String (f c) (map f s')
  end.

Fixpoint all (f : ascii -> bool) (s : string) : bool :=
  match s with
  | EmptyString => true
  | String c s' => f c && all f s'
  end.

(** [strings.ToLower] *)
Definition ToLower (s : string) : string := map lower_char s.

(** [strings.HasPrefix(s, prefix)] *)
Definition HasPrefix (s prefix : string) : bool := String.prefix prefix s.

Fixpoint drop (n : nat) (s : string) : string :=
  match n, s with
  | O, _ => s
  | S n', String _ s' => drop n' s'
  | _, EmptyString => EmptyString
  end.

(** [strings.TrimPrefix(s, prefix)] *)
Definition TrimPrefix (s prefix : string) : string :=
  if HasPrefix s prefix then drop (String.length prefix) s else s.

(** [strings.Contains(s, substr)] *)
Fixpoint Contains (s substr : string) : bool :=
  String.prefix substr s ||
  match s with
  | EmptyString => false
  | String _ s' => Contains s' substr
  end.

(** [strings.HasSuffix(s, suffix)] *)
Fixpoint HasSuffix (s suffix : string) : bool :=
  bool_decide (s = suffix) || match s with EmptyString => false | String _ s' => HasSuffix s' suffix end.

(** [strings.Fields]: the maximal runs of non-space characters. *)
Definition is_space (c : ascii) : bool :=
  (nat_of_ascii c =? 32)%nat || between 9 13 c.

(** [strings.TrimSpace(s)] *)
Fixpoint trim_left (s : string) : string :=
  match s with
  | EmptyString => EmptyString
  | String c s' => if is_space c then trim_left s' else s
  end.
Fixpoint trim_right (s : string) : string :=
  match s with
  | EmptyString => EmptyString
  | String c s' =>
      match trim_right s' with
      | EmptyString => if is_space c then EmptyString else String c EmptyString
      | r => String c r
      end
  end.
Definition TrimSpace (s : string) : string := trim_right (trim_left s).

Definition flush (word : string) (l : list string) : list string :=
  match word with EmptyString => l | _ => word :: l end.

Fixpoint fields_from (word s : string) : list string :=
  match s with
  | EmptyString => flush word []
  | String c s' =>
      if is_space c then flush word (fields_from EmptyString s')
      else fields_from (word +:+ String c EmptyString) s'
  end.

Definition Fields (s : string) : list string := fields_from EmptyString s.

(** [strings.SplitN(s, sep, 2)] for a one-character separator that occurs in [s]:
    what stands before its first occurrence and what stands after it. *)
Fixpoint cut (sep : ascii) (s : string) : option (string * string) :=
  match s with
  | EmptyString => None
  | String c s' =>
      if Ascii.eqb c sep then Some (EmptyString, s')
      else (fun '(a, b) => (String c a, b)) <$> cut sep s'
  end.

(** [strings.Split(s, sep)] for a one-character separator. *)
Fixpoint split_from (word : string) (sep : ascii) (s : string) : list string :=
  match s with
  | EmptyString => [word]
  | String c s' =>
      if Ascii.eqb c sep then word :: split_from EmptyString sep s'
      else split_from (word +:+ String c EmptyString) sep s'
  end.

Definition Split (s : string) (sep : ascii) : list string := split_from EmptyString sep s.

(** [strings.Join(l, sep)] *)
Fixpoint Join (l : list string) (sep : string) : string :=
  match l with
  | [] => EmptyString
  | [s] => s
  | s :: l' => s +:+ sep +:+ Join l' sep
  end.

(** [strings.Replace(s, old, new, -1)] for single characters. *)
Definition ReplaceChar (old new : ascii) (s : string) : string :=
  map (fun c => if Ascii.eqb c old then new else c) s.

(** [strings.Title]: letters that begin words are mapped to upper case; letters,
    digits and underscores do not separate words. *)
Definition is_separator (c : ascii) : bool :=
  negb (is_upper c || is_lower c || is_digit c || Ascii.eqb c "_"%char).

Fixpoint title_from (prev : ascii) (s : string) : string :=
  match s with
  | EmptyString => EmptyString
  | String c s' =>
      String (if is_separator prev then upper_char c else c) (title_from c s')
  end.

Definition Title (s : string) : string := title_from " "%char s.

Lemma map_idemp (f : ascii -> ascii) s :
  (forall c, f (f c) = f c) -> map f (map f s) = map f s.
Proof. intros Hf. induction s; simpl; congruence. Qed.

Lemma lower_char_idemp c : lower_char (lower_char c) = lower_char c.
Proof. destruct c as [[] [] [] [] [] [] [] []]; vm_compute; reflexivity. Qed.

Lemma ToLower_idemp s : ToLower (ToLower s) = ToLower s.
Proof. apply map_idemp, lower_char_idemp. Qed.

Lemma prefix_app p s : String.prefix p (p +:+ s) = true.
Proof. induction p as [|c p IH]; simpl; [by destruct s|]. by destruct (ascii_dec c c) as [_|[]]. Qed.

Lemma prefix_inv p s : String.prefix p s = true -> exists t, s = p +:+ t.
Proof.
  revert s. induction p as [|c p IH]; simpl; intros s Hp; [by exists s|].
  destruct s as [|c' s]; [discriminate|]. simpl in Hp. destruct (ascii_dec c c') as [->|]; [|discriminate].
  destruct (IH s Hp) as [t ->]. by exists t.
Qed.

Lemma TrimPrefix_spec p t : TrimPrefix (p +:+ t) p = t.
Proof.
  unfold TrimPrefix, HasPrefix. rewrite prefix_app.
  induction p as [|c p IH]; simpl; [by destruct t|done].
Qed.

Lemma Contains_spec s sub : Contains s sub = true <-> exists a b, s = a +:+ sub +:+ b.
Proof.
  split.
  - induction s as [|c s IH]; cbn [Contains]; intros [Hp|Hc]%orb_true_iff.
    + apply prefix_inv in Hp as [t ->]. by exists EmptyString, t.
    + done.
    + apply prefix_inv in Hp as [t Ht]. exists EmptyString, t. by rewrite Ht.
    + destruct (IH Hc) as (a & b & ->). by exists (String c a), b.
  - intros (a & b & ->). induction a as [|c a IH].
    + change (EmptyString +:+ sub +:+ b) with (sub +:+ b).
      pose proof (prefix_app sub b) as Hp.
      destruct (sub +:+ b) as [|c s]; cbn [Contains]; by rewrite Hp.
    + change (String c a +:+ sub +:+ b) with (String c (a +:+ sub +:+ b)).
      cbn [Contains]. rewrite IH. apply orb_true_r.
Qed.

Lemma cut_Some sep s a b :
  cut sep s = Some (a, b) -> s = a +:+ String sep b.
Proof.
  revert a b. induction s as [|c s IH]; simpl; [done|]. intros a b.
  destruct (Ascii.eqb_spec c sep) as [->|Hc].
  - intros [= <- <-]. done.
  - destruct (cut sep s) as [[a' b']|]; simpl; [|done]. intros [= <- <-].
    by rewrite (IH a' b' eq_refl).
Qed.

Lemma cut_app sep a b :
  all (fun c => negb (Ascii.eqb c sep)) a = true -> cut sep (a +:+ String sep b) = Some (a, b).
Proof.
  induction a as [|c a IH]; simpl.
  - by rewrite Ascii.eqb_refl.
  - intros [Hc Ha]%andb_true_iff. destruct (Ascii.eqb c sep); [done|].
    by rewrite (IH Ha).
Qed.

End strings.

(** * Package strconv *)

Module strconv.

Definition digit (c : ascii) : Z := Z.of_nat (nat_of_ascii c) - 48.

Fixpoint parse_digits (acc : Z) (s : string) : option Z :=
  match s with
  | EmptyString => Some acc
  | String c s' => if strings.is_digit c then parse_digits (10 * acc + digit c) s' else None
  end.

(** [strconv.ParseInt(s, 10, bits)]: the value, and whether there is no error; out of range,
    the value is the nearest bound. *)
Definition ParseInt (bits : Z) (s : string) : Z * bool :=
  let '(negative, ds) := match s with
    | String c s' => if Ascii.eqb c "-"%char then (true, s') else if Ascii.eqb c "+"%char then (false, s') else (false, s)
    | EmptyString => (false, EmptyString) end in
  if decide (ds = EmptyString) then (0, false)
  else match parse_digits 0 ds with
       | None => (0, false)
       | Some n =>
           let v := if negative then - n else n in
           if v <? - 2^(bits - 1) then (- 2^(bits - 1), false)
           else if 2^(bits - 1) <=? v then (2^(bits - 1) - 1, false)
           else (v, true)
       end.

(** [strconv.Atoi] on a 64-bit machine: the number, or what is wrong with the text. *)
Definition Atoi (s : string) : string + Z :=
  let '(v, ok) := ParseInt 64 s in
  if ok : bool then inr v else inl (if v =? 0 then "invalid syntax" else "value out of range").

Example parsed : ParseInt 32 "-12" = (-12, true) /\ ParseInt 32 "99999999999" = (2147483647, false)
  /\ ParseInt 32 "1x" = (0, false) /\ ParseInt 32 "+7" = (7, true).
Proof. vm_compute. repeat split. Qed.

End strconv.

(** * Package net/url *)

Module url.

Definition hex (n : nat) : ascii := ascii_of_nat (if (n <? 10)%nat then 48 + n else 55 + n).

(** [url.QueryEscape] *)
Definition unreserved (c : ascii) : bool :=
  strings.is_lower c || strings.is_upper c || strings.is_digit c
  || existsb (Ascii.eqb c) ["-"%char; "_"%char; "."%char; "~"%char].
Definition escape (c : ascii) : string :=
  if unreserved c then String c EmptyString
  else if Ascii.eqb c " "%char then "+"
  else String "%" (String (hex (nat_of_ascii c / 16)) (String (hex (nat_of_ascii c mod 16)) EmptyString)).
Fixpoint QueryEscape (s : string) : string :=
  match s with EmptyString => EmptyString | String c s' => escape c +:+ QueryEscape s' end.

Example escaped : QueryEscape "account=E-1 ~%" = "account%3DE-1+~%25".
Proof. reflexivity. Qed.

End url.

(** * Package sort *)

Module sort.

(** [sort.Sort] on slices short enough for its insertion sort, which is stable;
    what the theorems use of it, a sorted permutation of its input, holds of every
    sort. *)
Section sort.
Context {A : Type} (Less : A -> A -> bool).

Fixpoint insert (x : A) (l : list A) : list A :=
  match l with
  | [] => [x]
  | y :: l' => if Less x y then x :: y :: l' else y :: insert x l'
  end.

Definition Sort (l : list A) : list A := foldl (fun acc x => insert x acc) [] l.

Lemma insert_perm x l : insert x l ≡ₚ x :: l.
Proof.
  induction l as [|y l IH]; simpl; [done|]. destruct (Less x y); [done|].
  rewrite IH. apply Permutation_swap.
Qed.

Lemma Sort_perm l : Sort l ≡ₚ l.
Proof.
  unfold Sort. change l with ([] ++ l) at 2. generalize (@nil A) as acc.
  induction l as [|x l IH]; intros acc; simpl; [by rewrite app_nil_r|].
  rewrite IH, insert_perm. simpl. apply Permutation_middle.
Qed.

Lemma elem_of_Sort x l : x ∈ Sort l <-> x ∈ l.
Proof. by rewrite Sort_perm. Qed.

Context (Less_asym : forall x y, Less x y = true -> Less y x = false).
Context (Less_ntrans : forall x y z, Less y x = false -> Less z y = false -> Less z x = false).

Lemma insert_sorted x l :
  StronglySorted (fun a b => Less b a = false) l ->
  StronglySorted (fun a b => Less b a = false) (insert x l).
Proof using Less_asym Less_ntrans.
  induction 1 as [|y l Hl IH Hy]; simpl; [repeat constructor|].
  destruct (Less x y) eqn:Hxy.
  - constructor; [by constructor|]. constructor; [by apply Less_asym|].
    eapply Forall_impl; [exact Hy|]. simpl. intros z Hz.
    eapply Less_ntrans; [|exact Hz]. by apply Less_asym.
  - constructor; [done|]. rewrite insert_perm. by constructor.
Qed.

Lemma Sort_sorted l : StronglySorted (fun a b => Less b a = false) (Sort l).
Proof using Less_asym Less_ntrans.
  unfold Sort. assert (H0 : StronglySorted (fun a b => Less b a = false) (@nil A)) by constructor.
  revert H0. generalize (@nil A) as acc.
  induction l as [|x l IH]; intros acc Hacc; simpl; [done|]. by apply IH, insert_sorted.
Qed.

End sort.

(** Sorting by descending instants: [Less(i, j) = key(i).After(key(j))]. *)
Definition ByDescending {A} (key : A -> Z) : list A -> list A :=
  Sort (fun a b => key b <? key a).

Lemma ByDescending_sorted {A} (key : A -> Z) l :
  StronglySorted (fun a b => key b <= key a) (ByDescending key l).
Proof.
  eapply StronglySorted_ind with (P := fun l => StronglySorted _ l);
    [constructor | | apply (Sort_sorted (fun a b => key b <? key a)); intros *; lia].
  intros a l' _ IH Ha. constructor; [done|].
  eapply Forall_impl; [exact Ha|]. simpl. intros x. lia.
Qed.

Lemma ByDescending_perm {A} (key : A -> Z) l : ByDescending key l ≡ₚ l.
Proof. apply Sort_perm. Qed.

Lemma elem_of_ByDescending {A} (key : A -> Z) x l : x ∈ ByDescending key l <-> x ∈ l.
Proof. apply elem_of_Sort. Qed.

End sort.

(** * Package time

    A [time.Time] is the number of nanoseconds since the zero time (January 1,
    year 1, 00:00:00 UTC); every instant the code stores is in UTC. *)

Module time.

Definition Time := Z.

Definition IsZero (t : Time) : bool := t =? 0.
Definition After (t u : Time) : bool := u <? t.
Definition Before (t u : Time) : bool := t <? u.

(** [time.Duration]: a signed 64-bit number of nanoseconds. *)
Definition Duration := Z.
Definition minDuration : Duration := -2^63.
Definition maxDuration : Duration := 2^63 - 1.

Definition Second : Duration := 1000000000.
Definition Minute : Duration := 60 * Second.
Definition Hour : Duration := 60 * Minute.

Definition Add (t : Time) (d : Duration) : Time := t + d.

(** [t.Sub(u)] saturates at the ends of the range of durations. *)
Definition Sub (t u : Time) : Duration := Z.max minDuration (Z.min maxDuration (t - u)).

(** [t.Truncate(d)]: rounded down to a multiple of [d] since the zero time. *)
Definition Truncate (t : Time) (d : Duration) : Time := if d <=? 0 then t else t - t mod d.

(** [t.AddDate(0, 0, n)] in UTC. *)
Definition AddDays (t : Time) (n : Z) : Time := t + n * (24 * Hour).

Lemma Sub_pos t u : 0 < Sub t u <-> u < t.
Proof. unfold Sub, minDuration, maxDuration. lia. Qed.

Lemma Sub_le_iff t u d :
  minDuration <= d < maxDuration -> (Sub t u <= d <-> t - u <= d).
Proof. unfold Sub, minDuration, maxDuration. lia. Qed.

End time.

(** * 64-bit integers *)

(** The value of an [int64] or a [time.Duration] that was computed as [x]. *)
Definition i64_wrap (x : Z) : Z := (x + 2^63) mod 2^64 - 2^63.

Definition u64_mod : Z := 2^64.
Definition u64_wrap (x : Z) : Z := x mod u64_mod.
Definition is_u64 (x : Z) : Prop := 0 <= x < u64_mod.

Lemma u64_wrap_range x : is_u64 (u64_wrap x).
Proof. apply Z.mod_pos_bound. done. Qed.

Lemma u64_wrap_small x : is_u64 x -> u64_wrap x = x.
Proof. apply Z.mod_small. Qed.
