(* ===== verification/Users.v ===== *)
(** The data of the users service (users/*.go and the records of users.pb.go), its
    errors, and the methods the hand-written files add to the generated records. *)
From Stdlib Require Import ZArith Lia Ascii String.
From stdpp Require Import base tactics option gmap strings list.
From S2P Require Import Prelude GoStd.

(** * Errors (users/errors.go) *)

(** The named error values of the service are compared by identity in the code, so
    each is a constructor; [ErrMsg] is an error made by [errors.New] or
    [fmt.Errorf] that nothing compares. *)
Inductive error : Type :=
  | ErrForbidden
  | ErrNotFound
  | ErrInvalidAuthenticationData
  | ErrOrgTokenIsTaken
  | ErrLoginNotFound
  | ErrProviderParameters
  | ValidationError (s : string)
  | MalformedInputError (s : string)
  | AlreadyAttachedError (ID Email : string)
  | InstanceDeniedError (text id reason : string)
  | PqError (Code Message : string)
  | GRPCError (code : Z) (body : string)
  | ErrMsg (s : string).

#[export] Instance error_eq_dec : EqDecision error.
Proof. solve_decision. Defined.

Definition ErrEmailIsTaken := ValidationError "email is already taken".
Definition ErrEmailIsInvalid := ValidationError "email is not valid".
Definition ErrOrgExternalIDIsTaken := ValidationError "ID is already taken".
Definition ErrOrgExternalIDCannotBeBlank := ValidationError "ID cannot be blank".
Definition ErrOrgExternalIDFormat :=
  ValidationError "ID can only contain letters, numbers, hyphen, and underscore".
Definition ErrOrgNameCannotBeBlank := ValidationError "name cannot be blank".
Definition ErrOrgPlatformInvalid := ValidationError "platform is invalid".
Definition ErrOrgEnvironmentInvalid := ValidationError "environment is invalid".
Definition ErrOrgPlatformRequired := ValidationError "platform is required with environment".
Definition ErrOrgEnvironmentRequired := ValidationError "environment is required with platform".
Definition ErrOrgTrialExpiresInvalid := ValidationError "trial has no expiration set".

(** [fmt.Sprintf(format, arg)] for a format with at most one verb, [%v]. *)
Fixpoint sprintf_v (format arg : string) : string :=
  match format with
  | EmptyString => EmptyString
  | String c rest =>
      match rest with
      | String c' rest' =>
          if Ascii.eqb c "%"%char && Ascii.eqb c' "v"%char then arg +:+ rest'
          else String c (sprintf_v rest arg)
      | EmptyString => format
      end
  end.

(** [NewInstanceDeniedErrorFactory(text)] *)
Definition NewInstanceDeniedErrorFactory (text : string) : string -> string -> error :=
  fun id reason => InstanceDeniedError text id reason.

Definition ErrInstanceDataAccessDenied :=
  NewInstanceDeniedErrorFactory "access to data from %v instance is prohibited".
Definition ErrInstanceDataUploadDenied :=
  NewInstanceDeniedErrorFactory "uploading new data to %v instance is prohibited".

(** [(e *InstanceDeniedError) Error()] *)
Definition InstanceDeniedError_Error (text id reason : string) : string :=
  let t := sprintf_v text id in
  let r := if decide (reason = EmptyString)
           then "go to https://cloud.weave.works/" +:+ id +:+ "/org/billing"
           else reason in
  t +:+ ": " +:+ r.

(** [(e *InstanceDeniedError) Status()] *)
Definition InstanceDeniedError_Status (reason : string) : Z :=
  if decide (reason = EmptyString) then 402 else 403.

(** [render.ErrorStatusCode] (users/render/errors.go) *)
Definition ErrorStatusCode (err : error) : Z :=
  match err with
  | ErrForbidden => 403
  | ErrNotFound => 404
  | ErrInvalidAuthenticationData | ErrLoginNotFound => 401
  | ErrProviderParameters => 422
  | MalformedInputError _ | ValidationError _ | AlreadyAttachedError _ _ => 400
  | InstanceDeniedError _ _ reason => InstanceDeniedError_Status reason
  | _ => 500
  end.

(** * Records *)

(** Sets one field of a record, given its eta-expansion. *)
Ltac set_field eta proj v r :=
  let e := eval cbv beta delta [eta] in (eta _ r) in
  match eval pattern proj in e with
  | ?g _ => let t := eval cbv beta in (g v) in exact t
  end.

Record GoogleCloudPlatform : Type := mkGCP {
  g_ID : string;
  g_ExternalAccountID : string;
  g_Activated : bool;
  g_CreatedAt : time.Time;
  g_ConsumerID : string;
  g_SubscriptionName : string;
  g_SubscriptionLevel : string;
  g_SubscriptionStatus : string;
}.

(** [users.Organization] (users.pb.go). [G] is what stands for the GCP pointer: the
    account itself in a loaded record, its address in a record of the store. *)
Record OrganizationOf (G : Type) : Type := mkOrganization {
  o_ID : string;
  o_ExternalID : string;
  o_Name : string;
  o_ProbeToken : string;
  o_CreatedAt : time.Time;
  o_FeatureFlags : list string;
  o_RefuseDataAccess : bool;
  o_RefuseDataUpload : bool;
  o_FirstSeenConnectedAt : option time.Time;
  o_Platform : string;
  o_Environment : string;
  o_TrialExpiresAt : time.Time;
  o_ZuoraAccountNumber : string;
  o_ZuoraAccountCreatedAt : option time.Time;
  o_TrialPendingExpiryNotifiedAt : option time.Time;
  o_TrialExpiredNotifiedAt : option time.Time;
  o_GCP : option G;
  o_TeamID : string;
  o_TeamExternalID : string;
  o_DeletedAt : time.Time;
  o_Cleanup : bool;
  o_FirstSeenFluxConnectedAt : option time.Time;
  o_FirstSeenNetConnectedAt : option time.Time;
  o_FirstSeenPromConnectedAt : option time.Time;
  o_FirstSeenScopeConnectedAt : option time.Time;
  o_RefuseDataReason : string;
  o_LastSentWeeklyReportAt : option time.Time;
  o_PlatformVersion : string;
  o_DeletedBy : string;
}.
Arguments mkOrganization {G}.
Arguments o_ID {G} _.
Arguments o_ExternalID {G} _.
Arguments o_Name {G} _.
Arguments o_ProbeToken {G} _.
Arguments o_CreatedAt {G} _.
Arguments o_FeatureFlags {G} _.
Arguments o_RefuseDataAccess {G} _.
Arguments o_RefuseDataUpload {G} _.
Arguments o_FirstSeenConnectedAt {G} _.
Arguments o_Platform {G} _.
Arguments o_Environment {G} _.
Arguments o_TrialExpiresAt {G} _.
Arguments o_ZuoraAccountNumber {G} _.
Arguments o_ZuoraAccountCreatedAt {G} _.
Arguments o_TrialPendingExpiryNotifiedAt {G} _.
Arguments o_TrialExpiredNotifiedAt {G} _.
Arguments o_GCP {G} _.
Arguments o_TeamID {G} _.
Arguments o_TeamExternalID {G} _.
Arguments o_DeletedAt {G} _.
Arguments o_Cleanup {G} _.
Arguments o_FirstSeenFluxConnectedAt {G} _.
Arguments o_FirstSeenNetConnectedAt {G} _.
Arguments o_FirstSeenPromConnectedAt {G} _.
Arguments o_FirstSeenScopeConnectedAt {G} _.
Arguments o_RefuseDataReason {G} _.
Arguments o_LastSentWeeklyReportAt {G} _.
Arguments o_PlatformVersion {G} _.
Arguments o_DeletedBy {G} _.

Definition eta_org {G} (o : OrganizationOf G) : OrganizationOf G :=
    mkOrganization (o_ID o) (o_ExternalID o) (o_Name o) (o_ProbeToken o) (o_CreatedAt o)
    (o_FeatureFlags o) (o_RefuseDataAccess o) (o_RefuseDataUpload o) (o_FirstSeenConnectedAt o)
    (o_Platform o) (o_Environment o) (o_TrialExpiresAt o) (o_ZuoraAccountNumber o)
    (o_ZuoraAccountCreatedAt o) (o_TrialPendingExpiryNotifiedAt o) (o_TrialExpiredNotifiedAt o)
    (o_GCP o) (o_TeamID o) (o_TeamExternalID o) (o_DeletedAt o) (o_Cleanup o)
    (o_FirstSeenFluxConnectedAt o) (o_FirstSeenNetConnectedAt o) (o_FirstSeenPromConnectedAt o)
    (o_FirstSeenScopeConnectedAt o) (o_RefuseDataReason o) (o_LastSentWeeklyReportAt o)
    (o_PlatformVersion o) (o_DeletedBy o).

Definition set_ExternalID {G} (v : string) (o : OrganizationOf G) : OrganizationOf G :=
  ltac:(set_field @eta_org (o_ExternalID o) v o).
Definition set_Name {G} (v : string) (o : OrganizationOf G) : OrganizationOf G :=
  ltac:(set_field @eta_org (o_Name o) v o).
Definition set_ProbeToken {G} (v : string) (o : OrganizationOf G) : OrganizationOf G :=
  ltac:(set_field @eta_org (o_ProbeToken o) v o).
Definition set_FeatureFlags {G} (v : list string) (o : OrganizationOf G) : OrganizationOf G :=
  ltac:(set_field @eta_org (o_FeatureFlags o) v o).
Definition set_RefuseDataAccess {G} (v : bool) (o : OrganizationOf G) : OrganizationOf G :=
  ltac:(set_field @eta_org (o_RefuseDataAccess o) v o).
Definition set_RefuseDataUpload {G} (v : bool) (o : OrganizationOf G) : OrganizationOf G :=
  ltac:(set_field @eta_org (o_RefuseDataUpload o) v o).
Definition set_FirstSeenConnectedAt {G} (v : option time.Time) (o : OrganizationOf G) : OrganizationOf G :=
  ltac:(set_field @eta_org (o_FirstSeenConnectedAt o) v o).
Definition set_Platform {G} (v : string) (o : OrganizationOf G) : OrganizationOf G :=
  ltac:(set_field @eta_org (o_Platform o) v o).
Definition set_Environment {G} (v : string) (o : OrganizationOf G) : OrganizationOf G :=
  ltac:(set_field @eta_org (o_Environment o) v o).
Definition set_TrialExpiresAt {G} (v : time.Time) (o : OrganizationOf G) : OrganizationOf G :=
  ltac:(set_field @eta_org (o_TrialExpiresAt o) v o).
Definition set_ZuoraAccountNumber {G} (v : string) (o : OrganizationOf G) : OrganizationOf G :=
  ltac:(set_field @eta_org (o_ZuoraAccountNumber o) v o).
Definition set_ZuoraAccountCreatedAt {G} (v : option time.Time) (o : OrganizationOf G) : OrganizationOf G :=
  ltac:(set_field @eta_org (o_ZuoraAccountCreatedAt o) v o).
Definition set_TrialPendingExpiryNotifiedAt {G} (v : option time.Time) (o : OrganizationOf G) : OrganizationOf G :=
  ltac:(set_field @eta_org (o_TrialPendingExpiryNotifiedAt o) v o).
Definition set_TrialExpiredNotifiedAt {G} (v : option time.Time) (o : OrganizationOf G) : OrganizationOf G :=
  ltac:(set_field @eta_org (o_TrialExpiredNotifiedAt o) v o).
Definition set_GCP {G} (v : option G) (o : OrganizationOf G) : OrganizationOf G :=
  ltac:(set_field @eta_org (o_GCP o) v o).
Definition set_TeamID {G} (v : string) (o : OrganizationOf G) : OrganizationOf G :=
  ltac:(set_field @eta_org (o_TeamID o) v o).
Definition set_TeamExternalID {G} (v : string) (o : OrganizationOf G) : OrganizationOf G :=
  ltac:(set_field @eta_org (o_TeamExternalID o) v o).
Definition set_Cleanup {G} (v : bool) (o : OrganizationOf G) : OrganizationOf G :=
  ltac:(set_field @eta_org (o_Cleanup o) v o).
Definition set_FirstSeenFluxConnectedAt {G} (v : option time.Time) (o : OrganizationOf G) : OrganizationOf G :=
  ltac:(set_field @eta_org (o_FirstSeenFluxConnectedAt o) v o).
Definition set_FirstSeenNetConnectedAt {G} (v : option time.Time) (o : OrganizationOf G) : OrganizationOf G :=
  ltac:(set_field @eta_org (o_FirstSeenNetConnectedAt o) v o).
Definition set_FirstSeenPromConnectedAt {G} (v : option time.Time) (o : OrganizationOf G) : OrganizationOf G :=
  ltac:(set_field @eta_org (o_FirstSeenPromConnectedAt o) v o).
Definition set_FirstSeenScopeConnectedAt {G} (v : option time.Time) (o : OrganizationOf G) : OrganizationOf G :=
  ltac:(set_field @eta_org (o_FirstSeenScopeConnectedAt o) v o).
Definition set_RefuseDataReason {G} (v : string) (o : OrganizationOf G) : OrganizationOf G :=
  ltac:(set_field @eta_org (o_RefuseDataReason o) v o).
Definition set_LastSentWeeklyReportAt {G} (v : option time.Time) (o : OrganizationOf G) : OrganizationOf G :=
  ltac:(set_field @eta_org (o_LastSentWeeklyReportAt o) v o).
Definition set_PlatformVersion {G} (v : string) (o : OrganizationOf G) : OrganizationOf G :=
  ltac:(set_field @eta_org (o_PlatformVersion o) v o).

Definition map_GCP {G H} (f : option G -> option H) (o : OrganizationOf G) : OrganizationOf H :=
  mkOrganization (o_ID o) (o_ExternalID o) (o_Name o) (o_ProbeToken o) (o_CreatedAt o)
    (o_FeatureFlags o) (o_RefuseDataAccess o) (o_RefuseDataUpload o) (o_FirstSeenConnectedAt o)
    (o_Platform o) (o_Environment o) (o_TrialExpiresAt o) (o_ZuoraAccountNumber o)
    (o_ZuoraAccountCreatedAt o) (o_TrialPendingExpiryNotifiedAt o) (o_TrialExpiredNotifiedAt o)
    (f (o_GCP o)) (o_TeamID o) (o_TeamExternalID o) (o_DeletedAt o) (o_Cleanup o)
    (o_FirstSeenFluxConnectedAt o) (o_FirstSeenNetConnectedAt o) (o_FirstSeenPromConnectedAt o)
    (o_FirstSeenScopeConnectedAt o) (o_RefuseDataReason o) (o_LastSentWeeklyReportAt o)
    (o_PlatformVersion o) (o_DeletedBy o).

Definition Organization : Type := OrganizationOf GoogleCloudPlatform.

Record User : Type := mkUser {
  u_ID : string;
  u_Email : string;
  u_Token : string;
  u_TokenCreatedAt : time.Time;
  u_FirstLoginAt : time.Time;
  u_CreatedAt : time.Time;
  u_Admin : bool;
  u_LastLoginAt : time.Time;
  u_Company : string;
  u_Name : string;
  u_FirstName : string;
  u_LastName : string;
}.

Record UserUpdate : Type := mkUserUpdate {
  uu_Name : string;
  uu_FirstName : string;
  uu_LastName : string;
  uu_Company : string;
}.

Record Team : Type := mkTeam {
  t_ID : string;
  t_Name : string;
  t_ExternalID : string;
  t_ZuoraAccountNumber : string;
  t_ZuoraAccountCreatedAt : option time.Time;
  t_TrialExpiresAt : time.Time;
  t_TrialPendingExpiryNotifiedAt : option time.Time;
  t_TrialExpiredNotifiedAt : option time.Time;
  t_CreatedAt : time.Time;
  t_DeletedAt : option time.Time;
}.

Record Role : Type := mkRole { r_ID : string; r_Name : string; r_Description : string }.
Record Permission : Type := mkPermission { p_ID : string; p_Name : string; p_Description : string }.

Record Webhook : Type := mkWebhook {
  w_ID : string;
  w_OrganizationID : string;
  w_IntegrationType : string;
  w_SecretID : string;
  w_SecretSigningKey : string;
  w_CreatedAt : time.Time;
  w_DeletedAt : option time.Time;
  w_FirstSeenAt : option time.Time;
}.

(** [login.Login] (users/login/login.go); the session is the raw JSON text. *)
Record Login : Type := mkLogin {
  l_UserID : string;
  l_Provider : string;
  l_ProviderID : string;
  l_Session : string;
  l_CreatedAt : time.Time;
}.

(** [users.TeamMembership] and [users.UserWithRole] *)
Record TeamMembership : Type := mkTeamMembership { tm_UserID : string; tm_TeamID : string; tm_RoleID : string }.
Record UserWithRole : Type := mkUserWithRole { ur_User : User; ur_Role : Role }.

(** [users.OrgWriteView]: a nil field does not update the organization. *)
Record OrgWriteView : Type := mkOrgWriteView {
  ow_Name : option string;
  ow_Platform : option string;
  ow_Environment : option string;
  ow_TrialExpiresAt : option time.Time;
  ow_TeamExternalID : option string;
  ow_TeamName : option string;
  ow_TrialPendingExpiryNotifiedAt : option time.Time;
  ow_TrialExpiredNotifiedAt : option time.Time;
}.

Definition empty_OrgWriteView : OrgWriteView := mkOrgWriteView None None None None None None None None.

(** * Organizations (users/organization.go) *)

Definition TrialExtensionDuration : time.Duration := 7 * 24 * time.Hour.
Definition TrialRefuseDataUploadAfter : time.Duration := 7 * 24 * time.Hour.

Definition platforms : list (string * list string) :=
  [ ("kubernetes", ["minikube"; "eks"; "gke"; "generic"]);
    ("docker", ["mac"; "linux"; "windows"; "cloud"; "ee"; "swarm"]);
    ("ecs", ["aws"]);
    ("dcos", ["mesosphere"]) ].

(** [platforms[p]] and whether the key is there; a missing key gives the nil map. *)
Definition platform_environments (p : string) : option (list string) :=
  snd <$> List.find (fun pe => bool_decide (pe.1 = p)) platforms.

(** [orgExternalIDRegex]: [\A[a-zA-Z0-9_-]+\z] *)
Definition org_id_char (c : ascii) : bool :=
  strings.is_lower c || strings.is_upper c || strings.is_digit c
  || Ascii.eqb c "_"%char || Ascii.eqb c "-"%char.
Definition orgExternalIDRegex_MatchString (s : string) : bool :=
  negb (bool_decide (s = EmptyString)) && strings.all org_id_char s.

Section organization.
Context {G : Type}.
Implicit Types o : OrganizationOf G.

(** [(o *Organization) Deleted()] *)
Definition o_Deleted o : bool := negb (time.IsZero (o_DeletedAt o)).

(** [(o *Organization) InTrialPeriod(now)] *)
Definition InTrialPeriod o (now : time.Time) : bool := time.After (o_TrialExpiresAt o) now.

(** [(o *Organization) Valid()]: the first violated rule, if any. *)
Definition Valid o : option error :=
  if decide (o_ExternalID o = EmptyString) then Some ErrOrgExternalIDCannotBeBlank
  else if negb (orgExternalIDRegex_MatchString (o_ExternalID o)) then Some ErrOrgExternalIDFormat
  else if decide (o_Name o = EmptyString) then Some ErrOrgNameCannotBeBlank
  else if bool_decide (o_Platform o = EmptyString) && negb (bool_decide (o_Environment o = EmptyString))
  then Some ErrOrgPlatformRequired
  else if bool_decide (o_Environment o = EmptyString) && negb (bool_decide (o_Platform o = EmptyString))
  then Some ErrOrgEnvironmentRequired
  else
    let environments := platform_environments (o_Platform o) in
    if negb (bool_decide (o_Platform o = EmptyString)) && negb (bool_decide (is_Some environments))
    then Some ErrOrgPlatformInvalid
    else if negb (bool_decide (o_Environment o = EmptyString))
            && negb (bool_decide (o_Environment o ∈ default [] environments))
    then Some ErrOrgEnvironmentInvalid
    else if time.IsZero (o_TrialExpiresAt o) then Some ErrOrgTrialExpiresInvalid
    else None.

(** [(o *Organization) HasFeatureFlag(needle)] *)
Definition o_HasFeatureFlag o (needle : string) : bool :=
  existsb (fun f => bool_decide (f = needle)) (o_FeatureFlags o).

(** [(o *Organization) BillingProvider()] *)
Definition BillingProvider o : string :=
  match o_GCP o with Some _ => "gcp" | None => "zuora" end.

(** [(o *Organization) IsOnboarded()] *)
Definition IsOnboarded o : bool := bool_decide (is_Some (o_FirstSeenConnectedAt o)).

End organization.

(** [DefaultOrganizationName(externalID)] *)
Definition DefaultOrganizationName (externalID : string) : string :=
  strings.Title (strings.ReplaceChar "-"%char " "%char externalID).

(** [DefaultTeamName(orgExternalID)] *)
Definition DefaultTeamName (orgExternalID : string) : string :=
  sprintf_v "%v Team" (DefaultOrganizationName orgExternalID).

(** * Users and teams (users/user.go, users/team.go) *)

Definition AdminRoleID : string := "admin".
Definition EditorRoleID : string := "editor".
Definition ViewerRoleID : string := "viewer".
Definition DefaultRoleID : string := ViewerRoleID.
Definition TrialDuration : time.Duration := 14 * 24 * time.Hour.

(** [(u *User) TrialExpiresAt()] *)
Definition u_TrialExpiresAt (u : User) : time.Time := time.Add (u_CreatedAt u) TrialDuration.

(** [(t *Team) Deleted()] *)
Definition t_Deleted (t : Team) : bool :=
  match t_DeletedAt t with None => false | Some d => negb (time.IsZero d) end.

Section compare_token.
(** [bcrypt.CompareHashAndPassword(hash, password) == nil] *)
Variable bcrypt_compare : string -> string -> bool.

(** [(u *User) CompareToken(other)] at the time [now]; [u] may be nil. *)
Definition CompareToken (u : option User) (other : string) (now : time.Time) : bool :=
  let token := match u with Some u => u_Token u | None => EmptyString end in
  let tokenCreatedAt := match u with Some u => u_TokenCreatedAt u | None => 0 end in
  if negb (bcrypt_compare token other) then false
  else time.Sub now tokenCreatedAt <=? 72 * time.Hour.
End compare_token.

(** * Feature flags (common/featureflag) *)

Module featureflag.

Definition Billing : string := "billing".
Definition NoBilling : string := "no-billing".
Definition WeaveworksInternal : string := "weaveworks-internal".
Definition WeeklyReportable : string := "weekly-reportable".

(** [GetFeatureFlagValue(flagID, haystack)] *)
Fixpoint GetFeatureFlagValue (flagID : string) (haystack : list string) : string * bool :=
  match haystack with
  | [] => (EmptyString, false)
  | has :: rest =>
      let prefix := flagID +:+ ":" in
      if decide (flagID = has) then (EmptyString, true)
      else if strings.HasPrefix has prefix then (strings.TrimPrefix has prefix, true)
      else GetFeatureFlagValue flagID rest
  end.

Definition has_flag (f : string) (haystack : list string) : bool :=
  existsb (fun has => bool_decide (f = has) || strings.HasPrefix has (f +:+ ":")) haystack.

(** [HasFeatureAllFlags(needles, haystack)] *)
Definition HasFeatureAllFlags (needles haystack : list string) : bool :=
  forallb (fun f => has_flag f haystack) needles.

End featureflag.

(** * Summaries (users/summary_entry.go) *)

Record SummaryEntry : Type := mkSummaryEntry {
  s_TeamExternalID : string;
  s_TeamName : string;
  s_OrgID : string;
  s_OrgExternalID : string;
  s_OrgName : string;
  s_Emails : list string;
  s_OrgCreatedAt : time.Time;
  s_FirstSeenConnectedAt : option time.Time;
  s_Platform : string;
  s_Environment : string;
  s_TrialExpiresAt : time.Time;
  s_TrialPendingExpiryNotifiedAt : option time.Time;
  s_TrialExpiredNotifiedAt : option time.Time;
  s_BillingEnabled : bool;
  s_RefuseDataAccess : bool;
  s_RefuseDataUpload : bool;
  s_ZuoraAccountNumber : string;
  s_ZuoraAccountCreatedAt : option time.Time;
  s_GCPAccountExternalID : string;
  s_GCPAccountCreatedAt : time.Time;
  s_GCPAccountSubscriptionLevel : string;
  s_GCPAccountSubscriptionStatus : string;
}.

Definition emails (us : list User) : list string := u_Email <$> us.

(** [NewSummaryEntry(org, team, users)] *)
Definition NewSummaryEntry (org : Organization) (team : Team) (us : list User) : SummaryEntry :=
  {| s_TeamExternalID := t_ExternalID team;
     s_TeamName := t_Name team;
     s_OrgID := o_ID org;
     s_OrgExternalID := o_ExternalID org;
     s_OrgName := o_Name org;
     s_Emails := emails us;
     s_OrgCreatedAt := o_CreatedAt org;
     s_FirstSeenConnectedAt := o_FirstSeenConnectedAt org;
     s_Platform := o_Platform org;
     s_Environment := o_Environment org;
     s_TrialExpiresAt := o_TrialExpiresAt org;
     s_TrialPendingExpiryNotifiedAt := o_TrialPendingExpiryNotifiedAt org;
     s_TrialExpiredNotifiedAt := o_TrialExpiredNotifiedAt org;
     s_BillingEnabled := o_HasFeatureFlag org featureflag.Billing;
     s_RefuseDataAccess := o_RefuseDataAccess org;
     s_RefuseDataUpload := o_RefuseDataUpload org;
     s_ZuoraAccountNumber := o_ZuoraAccountNumber org;
     s_ZuoraAccountCreatedAt := o_ZuoraAccountCreatedAt org;
     s_GCPAccountExternalID := match o_GCP org with Some g => g_ExternalAccountID g | None => EmptyString end;
     s_GCPAccountCreatedAt := match o_GCP org with Some g => g_CreatedAt g | None => 0 end;
     s_GCPAccountSubscriptionLevel := match o_GCP org with Some g => g_SubscriptionLevel g | None => EmptyString end;
     s_GCPAccountSubscriptionStatus := match o_GCP org with Some g => g_SubscriptionStatus g | None => EmptyString end |}.

(** [sort.Sort(SummaryEntriesByCreatedAt(entries))] *)
Definition SummaryEntriesByCreatedAt (l : list SummaryEntry) : list SummaryEntry :=
  sort.ByDescending s_OrgCreatedAt l.
