(* ===== verification/Filter.v ===== *)
(** Database filters (users/db/filter): the filters as data, the condition each
    hands to the query builder, the in-memory matchers, and the parsers of the
    admin interface's query strings. *)
From Stdlib Require Import ZArith Lia Ascii String.
From stdpp Require Import base tactics option gmap strings list pretty.
From S2P Require Import Prelude GoStd Users.

Module filter.

(** * Filters

    The Go type [Filter] is an interface; its implementations are the
    constructors. *)
Inductive Filter : Type :=
  | AndFilter (fs : list Filter)
  | OrFilter (fs : list Filter)
  (* organization.go *)
  | ZuoraAccount (z : bool)
  | GCP (g : bool)
  | GCPSubscription (g : bool)
  | TrialExpiredBy (t : time.Time)
  | TrialActiveAt (t : time.Time)
  | LastSentWeeklyReportBefore (t : time.Time)
  | SeenPromConnected (s : bool)
  | HasFeatureFlag (f : string)
  | ID (i : string)
  | ExternalID (e : string)
  | SearchName (s : string)
  | ProbeToken (t : string)
  | PlatformVersion (v : string)
  (* user.go *)
  | UsersByID (ids : list string)
  | SearchEmail (s : string)
  | LoggedInSince (t : time.Time)
  | NotLoggedInSince (t : time.Time)
  | Admin (a : bool)
  (* team.go *)
  | TeamID (i : string)
  | TeamExternalID (e : string)
  | TeamName (n : string).

Definition And (fs : list Filter) : Filter := AndFilter fs.
Definition Or (fs : list Filter) : Filter := OrFilter fs.
Definition All : Filter := And [].

(** Induction that reaches the filters inside [AndFilter] and [OrFilter]. *)
Section induction.
Variable P : Filter -> Prop.
Hypothesis P_and : forall fs, Forall P fs -> P (AndFilter fs).
Hypothesis P_or : forall fs, Forall P fs -> P (OrFilter fs).
Hypothesis P_leaf : forall f, (forall fs, f <> AndFilter fs) -> (forall fs, f <> OrFilter fs) -> P f.

Fixpoint Filter_nested_ind (f : Filter) : P f :=
  let fix go (fs : list Filter) : Forall P fs :=
    match fs with
    | [] => Forall_nil_2 P
    | f :: fs' => Forall_cons_2 P f fs' (Filter_nested_ind f) (go fs')
    end in
  match f with
  | AndFilter fs => P_and fs (go fs)
  | OrFilter fs => P_or fs (go fs)
  | _ => ltac:(apply P_leaf; intros; discriminate)
  end.
End induction.

(** The state of an active GCP entitlement, [procurement.Active]. *)
Definition procurement_Active : string := "ENTITLEMENT_ACTIVE".

(** * Matching

    Inside [AndFilter] and [OrFilter] the code asserts that each element has the
    interface it needs ([f.(Organization)], [f.(User)], [f.(Team)]); a failed
    assertion panics, which is [None] here. *)
Section loops.
Variable matches : Filter -> option bool.

Fixpoint and_loop (fs : list Filter) : option bool :=
  match fs with
  | [] => Some true
  | f :: fs' =>
      match matches f with
      | None => None
      | Some false => Some false
      | Some true => and_loop fs'
      end
  end.

Fixpoint or_loop (fs : list Filter) : option bool :=
  match fs with
  | [] => Some false
  | f :: fs' =>
      match matches f with
      | None => None
      | Some true => Some true
      | Some false => or_loop fs'
      end
  end.
End loops.

Definition is_nil {A} (p : option A) : bool := match p with None => true | Some _ => false end.
Definition empty_str (s : string) : bool := bool_decide (s = EmptyString).

(** [active] of [GCPSubscription.MatchesOrg] *)
Definition gcp_active (o : Organization) : bool :=
  match o_GCP o with
  | None => false
  | Some g => g_Activated g && bool_decide (g_SubscriptionStatus g = procurement_Active)
  end.

Fixpoint MatchesOrg (f : Filter) (o : Organization) {struct f} : option bool :=
  match f with
  | AndFilter fs => and_loop (fun f => MatchesOrg f o) fs
  | OrFilter fs => or_loop (fun f => MatchesOrg f o) fs
  | ZuoraAccount z =>
      Some (if z then negb (empty_str (o_ZuoraAccountNumber o)) else empty_str (o_ZuoraAccountNumber o))
  | GCP g => Some (if g then negb (is_nil (o_GCP o)) else is_nil (o_GCP o))
  | GCPSubscription g => Some (if g then gcp_active o else negb (gcp_active o))
  | TrialExpiredBy t => Some (time.Before (o_TrialExpiresAt o) t)
  | TrialActiveAt t => Some (time.After (o_TrialExpiresAt o) t)
  | LastSentWeeklyReportBefore t =>
      Some (match o_LastSentWeeklyReportAt o with None => true | Some r => time.Before r t end)
  | SeenPromConnected s =>
      Some (if s then negb (is_nil (o_FirstSeenPromConnectedAt o))
            else is_nil (o_FirstSeenPromConnectedAt o))
  | HasFeatureFlag ff => Some (o_HasFeatureFlag o ff)
  | ID i => Some (bool_decide (o_ID o = i))
  | ExternalID e => Some (bool_decide (o_ExternalID o = e))
  | SearchName s => Some (strings.Contains (o_Name o) s)
  | ProbeToken t => Some (strings.Contains (o_ProbeToken o) t)
  | PlatformVersion v => Some (strings.Contains (o_PlatformVersion o) v)
  | _ => None
  end.

Fixpoint MatchesUser (f : Filter) (u : User) {struct f} : option bool :=
  match f with
  | AndFilter fs => and_loop (fun f => MatchesUser f u) fs
  | OrFilter fs => or_loop (fun f => MatchesUser f u) fs
  | UsersByID ids => Some (existsb (fun id => bool_decide (id = u_ID u)) ids)
  | SearchEmail s => Some (strings.Contains (u_Email u) s)
  | LoggedInSince t => Some (time.After (u_LastLoginAt u) t)
  | NotLoggedInSince t => Some (time.After t (u_LastLoginAt u))
  | Admin a => Some (Bool.eqb (u_Admin u) a)
  | _ => None
  end.

Fixpoint MatchesTeam (f : Filter) (t : Team) {struct f} : option bool :=
  match f with
  | AndFilter fs => and_loop (fun f => MatchesTeam f t) fs
  | OrFilter fs => or_loop (fun f => MatchesTeam f t) fs
  | TeamID i => Some (bool_decide (t_ID t = i))
  | TeamExternalID e => Some (bool_decide (t_ExternalID t = e))
  | TeamName n => Some (strings.Contains (t_Name t) n)
  | _ => None
  end.

(** * Conditions handed to the query builder

    The values of package squirrel the [Where] methods build, as data. *)
Inductive arg : Type := ANil | ABool (b : bool) | AString (s : string) | AStrings (l : list string) | ATime (t : time.Time).

Inductive Sqlizer : Type :=
  | SqlAnd (l : list Sqlizer)
  | SqlOr (l : list Sqlizer)
  | SqlEq (column : string) (v : arg)
  | SqlNotEq (column : string) (v : arg)
  | SqlLt (column : string) (v : arg)
  | SqlLtOrEq (column : string) (v : arg)
  | SqlGt (column : string) (v : arg)
  | SqlExpr (sql : string) (args : list arg).

Definition like_lower (s : string) : arg := AString ("%" +:+ strings.ToLower s +:+ "%").

Fixpoint Where (f : Filter) : Sqlizer :=
  match f with
  | AndFilter fs => SqlAnd (List.map Where fs)
  | OrFilter fs => SqlOr (List.map Where fs)
  | ZuoraAccount true => SqlExpr "organizations.zuora_account_number IS NOT NULL" []
  | ZuoraAccount false => SqlEq "organizations.zuora_account_number" ANil
  | GCP true => SqlNotEq "gcp_account_id" ANil
  | GCP false => SqlEq "gcp_account_id" ANil
  | GCPSubscription true =>
      SqlExpr "gcp_accounts.activated AND gcp_accounts.subscription_status = ?" [AString procurement_Active]
  | GCPSubscription false =>
      SqlExpr "gcp_accounts.activated = false OR gcp_accounts.subscription_status <> ?" [AString procurement_Active]
  | TrialExpiredBy t => SqlLt "organizations.trial_expires_at" (ATime t)
  | TrialActiveAt t => SqlGt "organizations.trial_expires_at" (ATime t)
  | LastSentWeeklyReportBefore t =>
      SqlOr [ SqlEq "organizations.last_sent_weekly_report_at" ANil;
              SqlLt "organizations.last_sent_weekly_report_at" (ATime t) ]
  | SeenPromConnected true => SqlNotEq "first_seen_prom_connected_at" ANil
  | SeenPromConnected false => SqlEq "first_seen_prom_connected_at" ANil
  | HasFeatureFlag ff => SqlExpr "?=ANY(organizations.feature_flags)" [AString ff]
  | ID i => SqlEq "organizations.id" (AString i)
  | ExternalID e => SqlEq "organizations.external_id" (AString e)
  | SearchName s => SqlExpr "lower(organizations.name) LIKE ?" [like_lower s]
  | ProbeToken t => SqlExpr "organizations.probe_token = ?" [AString t]
  | PlatformVersion v =>
      SqlExpr "organizations.platform_version LIKE ?" [AString ("%" +:+ v +:+ "%")]
  | UsersByID ids => SqlEq "users.id" (AStrings ids)
  | SearchEmail s => SqlExpr "lower(users.email) LIKE ?" [like_lower s]
  | LoggedInSince t => SqlGt "last_login_at" (ATime t)
  | NotLoggedInSince t => SqlLtOrEq "last_login_at" (ATime t)
  | Admin a => SqlEq "users.admin" (ABool a)
  | TeamID i => SqlEq "teams.id" (AString i)
  | TeamExternalID e => SqlEq "teams.external_id" (AString e)
  | TeamName n => SqlExpr "lower(teams.name) LIKE ?" [like_lower n]
  end.

(** * Query strings (filter.go)

    Each parser folds over the fields of the query, collecting filters and the
    words of the search. *)
Definition queryFilterDelim : ascii := ":"%char.

Definition step : Type := list Filter * list string.

Definition parse_with (field : string -> string -> string -> step -> step)
    (search_filter : string -> Filter) (qs : string) : Filter :=
  let '(filters, search) :=
    foldl (fun acc p =>
      match strings.cut queryFilterDelim p with
      | Some (k, v) => field p k v acc
      | None => (acc.1, acc.2 ++ [p])
      end) ([], []) (strings.Fields qs) in
  And (match search with
       | [] => filters
       | _ => filters ++ [search_filter (strings.Join search " ")]
       end).

Definition add_filter (f : Filter) (acc : step) : step := (acc.1 ++ [f], acc.2).
Definition add_search (p : string) (acc : step) : step := (acc.1, acc.2 ++ [p]).

Definition org_field (p k v : string) (acc : step) : step :=
  if decide (k = "feature") then add_filter (HasFeatureFlag v) acc
  else if decide (k = "has") then
    if decide (v = "zuora") then add_filter (ZuoraAccount true) acc
    else if decide (v = "gcp") then add_filter (GCP true) acc
    else acc
  else if decide (k = "!has") then
    if decide (v = "zuora") then add_filter (ZuoraAccount false) acc
    else if decide (v = "gcp") then add_filter (GCP false) acc
    else acc
  else if decide (k = "id") then add_filter (ID v) acc
  else if decide (k = "instance" \/ k = "external") then add_filter (ExternalID v) acc
  else if decide (k = "token") then add_filter (ProbeToken v) acc
  else if decide (k = "version") then add_filter (PlatformVersion v) acc
  else add_search p acc.

Definition ParseOrgQuery : string -> Filter := parse_with org_field SearchName.

Definition user_field (p k v : string) (acc : step) : step :=
  if decide (k = "id") then add_filter (UsersByID (strings.Split v ","%char)) acc
  else if decide (k = "is") then
    if decide (v = "admin") then add_filter (Admin true) acc else acc
  else add_search p acc.

Definition ParseUserQuery : string -> Filter := parse_with user_field SearchEmail.

Definition team_field (p k v : string) (acc : step) : step :=
  if decide (k = "id") then add_filter (TeamID v) acc
  else if decide (k = "team" \/ k = "external") then add_filter (TeamExternalID v) acc
  else add_search p acc.

Definition ParseTeamQuery : string -> Filter := parse_with team_field TeamName.

(** * Typing: which filters have which interface, at every depth *)

Fixpoint wf_with (leaf : Filter -> bool) (f : Filter) : bool :=
  match f with
  | AndFilter fs | OrFilter fs => forallb (wf_with leaf) fs
  | f => leaf f
  end.

Definition org_leaf (f : Filter) : bool :=
  match f with
  | ZuoraAccount _ | GCP _ | GCPSubscription _ | TrialExpiredBy _ | TrialActiveAt _
  | LastSentWeeklyReportBefore _ | SeenPromConnected _ | HasFeatureFlag _ | ID _
  | ExternalID _ | SearchName _ | ProbeToken _ | PlatformVersion _ => true
  | _ => false
  end.
Definition user_leaf (f : Filter) : bool :=
  match f with
  | UsersByID _ | SearchEmail _ | LoggedInSince _ | NotLoggedInSince _ | Admin _ => true
  | _ => false
  end.
Definition team_leaf (f : Filter) : bool :=
  match f with TeamID _ | TeamExternalID _ | TeamName _ => true | _ => false end.

Definition org_filter := wf_with org_leaf.
Definition user_filter := wf_with user_leaf.
Definition team_filter := wf_with team_leaf.

(** A matcher that only answers, on the elements of the list. *)
Lemma loops_total (m : Filter -> option bool) fs :
  Forall (fun f => is_Some (m f)) fs ->
  and_loop m fs = Some (forallb (fun f => default false (m f)) fs) /\
  or_loop m fs = Some (existsb (fun f => default false (m f)) fs).
Proof.
  induction 1 as [|f fs [b Hb] _ [IHa IHo]]; simpl; [done|].
  rewrite Hb. destruct b; simpl; by rewrite ?IHa, ?IHo.
Qed.

Lemma wf_children leaf fs (Q : Filter -> Prop) :
  Forall (fun f => wf_with leaf f = true -> Q f) fs -> forallb (wf_with leaf) fs = true -> Forall Q fs.
Proof.
  induction 1; simpl; intros Hwf; [constructor|].
  apply andb_true_iff in Hwf as [? ?]. constructor; auto.
Qed.

(** The three matchers are alike: they loop over [AndFilter] and [OrFilter], and
    answer on the leaves of their interface. *)
Lemma matcher_total (leaf : Filter -> bool) (m : Filter -> option bool) :
  (forall fs, m (AndFilter fs) = and_loop m fs) ->
  (forall fs, m (OrFilter fs) = or_loop m fs) ->
  (forall f, leaf f = true -> is_Some (m f)) ->
  forall f, wf_with leaf f = true -> is_Some (m f).
Proof.
  intros Hand Hor Hleaf f.
  induction f as [fs IH|fs IH|f Ha Ho] using Filter_nested_ind; intros Hwf.
  - rewrite Hand. eexists. apply loops_total, (wf_children _ _ _ IH Hwf).
  - rewrite Hor. eexists. apply loops_total, (wf_children _ _ _ IH Hwf).
  - apply Hleaf. destruct f; try done; [by destruct (Ha fs)|by destruct (Ho fs)].
Qed.

Lemma MatchesOrg_total o f : org_filter f = true -> is_Some (MatchesOrg f o).
Proof. apply (matcher_total org_leaf (fun f => MatchesOrg f o)); try done. by intros []. Qed.

Lemma MatchesUser_total u f : user_filter f = true -> is_Some (MatchesUser f u).
Proof. apply (matcher_total user_leaf (fun f => MatchesUser f u)); try done. by intros []. Qed.

Lemma MatchesTeam_total t f : team_filter f = true -> is_Some (MatchesTeam f t).
Proof. apply (matcher_total team_leaf (fun f => MatchesTeam f t)); try done. by intros []. Qed.

(** What a well-typed filter means. *)
Definition sat_org (f : Filter) (o : Organization) : Prop := MatchesOrg f o = Some true.

Lemma and_loop_true m fs : and_loop m fs = Some true <-> Forall (fun f => m f = Some true) fs.
Proof.
  induction fs as [|f fs IH]; simpl; [by split; [constructor|]|].
  rewrite Forall_cons, <- IH. destruct (m f) as [[]|]; naive_solver.
Qed.

Lemma sat_and fs o : sat_org (And fs) o <-> Forall (fun f => sat_org f o) fs.
Proof. apply and_loop_true. Qed.

Lemma or_loop_true m fs :
  Forall (fun f => is_Some (m f)) fs -> (or_loop m fs = Some true <-> Exists (fun f => m f = Some true) fs).
Proof.
  induction 1 as [|f fs [b Hb] _ IH]; simpl; [by rewrite Exists_nil|].
  rewrite Exists_cons, <- IH, Hb. destruct b; naive_solver.
Qed.

Lemma sat_or fs o :
  forallb org_filter fs = true -> (sat_org (Or fs) o <-> Exists (fun f => sat_org f o) fs).
Proof.
  intros Hwf. apply or_loop_true. rewrite forallb_forall in Hwf. apply Forall_forall.
  intros f Hf%list_elem_of_In. by apply MatchesOrg_total, Hwf.
Qed.

(** * Filters that mean the same in every database

    The conditions in SQL and the matchers agree on these, up to the resolution of the instants: they differ on
    names and tokens, which SQL compares with another operator, on a subscription that is not active, and on a
    disjunction without a text. *)

Definition is_empty {A} (l : list A) : bool := match l with [] => true | _ => false end.
Fixpoint empty_text (f : Filter) : bool :=
  match f with AndFilter fs | OrFilter fs => forallb empty_text fs | _ => false end.
Fixpoint portable (f : Filter) : bool :=
  match f with
  | AndFilter fs => forallb portable fs
  | OrFilter fs => forallb portable fs && negb (is_empty fs) && forallb (fun f => negb (empty_text f)) fs
  | ZuoraAccount _ | GCP _ | GCPSubscription true | TrialExpiredBy _ | TrialActiveAt _ | LastSentWeeklyReportBefore _
  | SeenPromConnected _ | HasFeatureFlag _ | ID _ | ExternalID _ => true
  | _ => false
  end.

(** The filter with its instants as a database keeps them. *)
Fixpoint at_resolution (kept : time.Time -> time.Time) (f : Filter) : Filter :=
  match f with
  | AndFilter fs => AndFilter (List.map (at_resolution kept) fs)
  | OrFilter fs => OrFilter (List.map (at_resolution kept) fs)
  | TrialExpiredBy t => TrialExpiredBy (kept t)
  | TrialActiveAt t => TrialActiveAt (kept t)
  | LastSentWeeklyReportBefore t => LastSentWeeklyReportBefore (kept t)
  | f => f
  end.

Lemma portable_children fs :
  Forall (fun f => portable f = true -> org_filter f = true) fs -> forallb portable fs = true -> forallb org_filter fs = true.
Proof.
  rewrite !forallb_forall, Forall_forall. intros IH Hp f Hf. apply IH; [by apply list_elem_of_In|by apply Hp].
Qed.
Lemma portable_org f : portable f = true -> org_filter f = true.
Proof.
  induction f as [fs IH|fs IH|f Ha Ho] using Filter_nested_ind; intros Hp.
  - by apply portable_children.
  - simpl in Hp. apply andb_true_iff in Hp as [[Hp _]%andb_true_iff _]. by apply portable_children.
  - destruct f; try done; [by destruct (Ha fs)|by destruct (Ho fs)].
Qed.
Lemma map_same {A} (f : A -> A) (l : list A) : Forall (fun x => f x = x) l -> List.map f l = l.
Proof. induction 1; simpl; [done|]. by f_equal. Qed.
Lemma at_resolution_exact f : at_resolution (fun t => t) f = f.
Proof.
  induction f as [fs IH|fs IH|f Ha Ho] using Filter_nested_ind; simpl; [f_equal; by apply map_same..|].
  destruct f; try done; [by destruct (Ha fs)|by destruct (Ho fs)].
Qed.
(** * Pages (pagination.go) *)

Definition ResultsPerPage : Z := 30.
Definition ParsePageValue (pageStr : string) : Z :=
  let page := (strconv.ParseInt 32 pageStr).1 in
  if page <=? 0 then 1 else page.

(** A page is a positive 32-bit number whatever the request says. *)
Lemma ParsePageValue_range s : 1 <= ParsePageValue s < 2^31.
Proof.
  unfold ParsePageValue, strconv.ParseInt.
  set (p := match s with EmptyString => _ | String _ _ => _ end). destruct p as [neg ds].
  case_decide; [done|]. destruct (strconv.parse_digits 0 ds) as [n|]; [|done].
  cbv zeta. generalize (if neg then - n else n). intros v. change (- 2 ^ (32 - 1)) with (-2147483648).
  change (2 ^ (32 - 1)) with 2147483648. change (2 ^ 31) with 2147483648.
  destruct (Z.ltb_spec v (-2147483648)); [done|]. destruct (Z.leb_spec 2147483648 v); [done|]. simpl fst.
  destruct (Z.leb_spec v 0); [done|]. lia.
Qed.

End filter.
