(* ===== verification/MemDB.v ===== *)
(** The in-memory users database (users/db/memory): its state, the sources of
    non-determinism it reads, and the look-ups the operations share. *)
From Stdlib Require Import ZArith Lia Ascii String.
From stdpp Require Import base tactics option gmap strings list pretty.
From S2P Require Import Prelude GoStd Users Filter.

(** * The environment

    What the code reads from outside at its n-th request: the clock, the random
    external ids of [externalids.Generate] and the tokens of [tokens.Generate]
    ([None] when the system's random source fails). *)
Record Env : Type := mkEnv {
  clock : nat -> time.Time;
  gen_id : nat -> string;
  gen_token : nat -> option string;
  ticks : nat;
}.

Definition tick (e : Env) : Env := mkEnv (clock e) (gen_id e) (gen_token e) (S (ticks e)).

(** * The store

    Each map of pointers owns its objects, so it maps keys to the objects
    themselves, except for GCP accounts: an account is shared between [gcpAccounts]
    and the organizations attached to it, so it lives in [gcp_heap] and both hold
    its address. *)
Abbreviation loc := nat (only parsing).
Abbreviation OrgCell := (OrganizationOf loc).

Record DB : Type := mkDB {
  users : gmap string User;
  organizations : gmap string OrgCell;
  deletedOrganizations : gmap string OrgCell;
  logins : gmap string Login;
  gcpAccounts : gmap string loc;
  gcp_heap : gmap loc GoogleCloudPlatform;
  teams : gmap string Team;
  teamMemberships : gmap string (gmap string string);
  roles : gmap string Role;
  permissions : gmap string Permission;
  rolesPermissions : gmap string (list string);
  webhooks : gmap string (list Webhook);
  passwordHashingCost : Z;
  mtx : bool;
  env : Env;
}.

Definition eta_db (d : DB) : DB :=
  mkDB (users d) (organizations d) (deletedOrganizations d) (logins d) (gcpAccounts d)
    (gcp_heap d) (teams d) (teamMemberships d) (roles d) (permissions d) (rolesPermissions d)
    (webhooks d) (passwordHashingCost d) (mtx d) (env d).

Ltac set_db proj v d :=
  let e := eval cbv beta delta [eta_db] in (eta_db d) in
  match eval pattern proj in e with
  | ?g _ => let t := eval cbv beta in (g v) in exact t
  end.

Definition set_users (v : gmap string User) (d : DB) : DB := ltac:(set_db (users d) v d).
Definition set_organizations (v : gmap string OrgCell) (d : DB) : DB := ltac:(set_db (organizations d) v d).
Definition set_deletedOrganizations (v : gmap string OrgCell) (d : DB) : DB := ltac:(set_db (deletedOrganizations d) v d).
Definition set_logins (v : gmap string Login) (d : DB) : DB := ltac:(set_db (logins d) v d).
Definition set_gcpAccounts (v : gmap string loc) (d : DB) : DB := ltac:(set_db (gcpAccounts d) v d).
Definition set_gcp_heap (v : gmap loc GoogleCloudPlatform) (d : DB) : DB := ltac:(set_db (gcp_heap d) v d).
Definition set_teams (v : gmap string Team) (d : DB) : DB := ltac:(set_db (teams d) v d).
Definition set_teamMemberships (v : gmap string (gmap string string)) (d : DB) : DB := ltac:(set_db (teamMemberships d) v d).
Definition set_webhooks (v : gmap string (list Webhook)) (d : DB) : DB := ltac:(set_db (webhooks d) v d).
Definition set_mutex (v : bool) (d : DB) : DB := ltac:(set_db (mtx d) v d).
Definition set_env (v : Env) (d : DB) : DB := ltac:(set_db (env d) v d).

#[export] Instance DB_HasMutex : HasMutex DB :=
  {| mtx_held := mtx; set_mtx := set_mutex; mtx_held_set := fun _ _ => eq_refl |}.

Abbreviation Op := (M DB error).

(** * Reading the environment *)

Definition read_env {A} (f : Env -> nat -> A) : Op A := fun d =>
  (Ret (f (env d) (ticks (env d))), set_env (tick (env d)) d).

(** [time.Now()] *)
Definition Now : Op time.Time := read_env clock.

(** [externalids.Generate()] *)
Definition externalids_Generate : Op string := read_env gen_id.

(** [tokens.Generate()] *)
Definition tokens_Generate : Op string :=
  do t <- read_env gen_token;
  or_else t (ErrMsg "crypto/rand: read error").

(** * A new database *)

Definition permission_names : list (string * string) :=
  [ ("team.member.invite", "Team.member.invite"); ("instance.delete", "Instance.delete");
    ("instance.billing.update", "Instance.billing.update");
    ("alert.settings.update", "Alert.settings.update"); ("team.member.update", "Team.member.update");
    ("team.member.remove", "Team.member.remove"); ("team.members.view", "Team.members.view");
    ("instance.transfer", "Instance.transfer"); ("notebook.create", "Notebook.create");
    ("notebook.update", "Notebook.update"); ("notebook.delete", "Notebook.delete");
    ("scope.host.exec", "Scope.host.exec"); ("scope.container.exec", "Scope.container.exec");
    ("scope.container.attach.out", "Scope.container.attach.out");
    ("scope.replicas.update", "Scope.replicas.update");
    ("scope.pod.logs.view", "Scope.pod.logs.view"); ("scope.pod.delete", "Scope.pod.delete");
    ("flux.image.deploy", "Flux.image.deploy"); ("flux.policy.update", "Flux.policy.update");
    ("notification.settings.update", "Notification.settings.update");
    ("instance.token.view", "Instance.token.view");
    ("instance.webhook.create", "Instance.webhook.create");
    ("instance.webhook.delete", "Instance.webhook.delete");
    ("scope.container.attach.in", "Scope.container.attach.in");
    ("scope.container.pause", "Scope.container.pause");
    ("scope.container.restart", "Scope.container.restart");
    ("scope.container.stop", "Scope.container.stop") ].

Definition default_permissions : gmap string Permission :=
  list_to_map ((fun '(id, name) => (id, mkPermission id name "derp")) <$> permission_names).

Definition admin_permissions : list string :=
  [ "team.member.invite"; "instance.delete"; "instance.billing.update"; "alert.settings.update";
    "team.member.update"; "team.member.remove"; "team.members.view"; "instance.transfer";
    "notebook.create"; "notebook.update"; "notebook.delete"; "scope.host.exec";
    "scope.container.exec"; "scope.container.attach.out"; "scope.replicas.update";
    "scope.pod.delete"; "scope.pod.logs.view"; "flux.image.deploy"; "flux.policy.update";
    "notification.settings.update"; "instance.token.view"; "instance.webhook.create";
    "instance.webhook.delete"; "scope.container.attach.in"; "scope.container.pause";
    "scope.container.restart"; "scope.container.stop" ].
Definition editor_permissions : list string :=
  [ "alert.settings.update"; "team.members.view"; "notebook.create"; "notebook.update";
    "notebook.delete"; "scope.container.attach.out"; "scope.replicas.update"; "scope.pod.delete";
    "flux.image.deploy"; "flux.policy.update"; "scope.pod.logs.view"; "scope.container.pause";
    "scope.container.restart"; "scope.container.stop"; "instance.webhook.create";
    "instance.webhook.delete" ].
Definition viewer_permissions : list string := [ "team.members.view"; "scope.pod.logs.view" ].

Definition default_roles : gmap string Role :=
  list_to_map
    [ ("admin", mkRole "admin" "Admin" "Can add/remove team members, update billing info, delete and move instances");
      ("editor", mkRole "editor" "Editor" "Can update deployments, change configuration, delete pods, edit notebooks and perform other editing actions");
      ("viewer", mkRole "viewer" "Viewer" "Has a read-only view of the cluster") ].
Definition default_rolesPermissions : gmap string (list string) :=
  list_to_map
    [ ("admin", admin_permissions); ("editor", editor_permissions); ("viewer", viewer_permissions) ].

(** [New(_, _, passwordHashingCost)] *)
Definition New (cost : Z) (e : Env) : DB :=
  {| users := ∅; organizations := ∅; deletedOrganizations := ∅; logins := ∅;
     gcpAccounts := ∅; gcp_heap := ∅; teams := ∅; teamMemberships := ∅;
     roles := default_roles; permissions := default_permissions;
     rolesPermissions := default_rolesPermissions;
     webhooks := ∅; passwordHashingCost := cost; mtx := false; env := e |}.

(** * Pointers *)

(** The organization a pointer shows: its GCP pointer is followed. *)
Definition load_org (d : DB) (o : OrgCell) : Organization :=
  map_GCP (fun p => p ≫= fun l => gcp_heap d !! l) o.

Definition loaded (o : OrgCell) : Op Organization := gets (fun d => load_org d o).

Definition loaded_all (l : list OrgCell) : Op (list Organization) :=
  gets (fun d => load_org d <$> l).

(** * Look-ups shared by the operations *)

Section lookups.
Context `{GoRange}.

Definition same_id (a b : string) : bool := bool_decide (strings.ToLower a = strings.ToLower b).

(** [findOrganizationByExternalID]; the pointer it returns is the key of the
    organization and the organization. *)
Definition findOrganizationByExternalID (externalID : string) : Op (string * OrgCell) :=
  do os <- gets organizations;
  or_else (first_entry (fun o => same_id (o_ExternalID o) externalID) os) ErrNotFound.

(** [organizationExists] *)
Definition organizationExists (externalID : string) (includeDeleted : bool) : Op bool :=
  do r <- try (findOrganizationByExternalID externalID);
  match r with
  | inl err =>
      if decide (err = ErrNotFound) then
        do deleted <- gets deletedOrganizations;
        ret (includeDeleted &&
             bool_decide (is_Some (first_entry (fun o => same_id (o_ExternalID o) externalID) deleted)))
      else throw err
  | inr _ => ret true
  end.

(** [findUserByID] *)
Definition findUserByID (id : string) : Op User :=
  do us <- gets users;
  or_else (us !! id) ErrNotFound.

(** [findUserByEmail] *)
Definition findUserByEmail (email : string) : Op User :=
  do us <- gets users;
  or_else (first_match (fun u => bool_decide (u_Email u = email)) us) ErrNotFound.

(** [findUserByLogin] *)
Definition findUserByLogin (provider providerID : string) : Op User :=
  do ls <- gets logins;
  match first_match (fun l => bool_decide (l_Provider l = provider) && bool_decide (l_ProviderID l = providerID)) ls with
  | Some l => findUserByID (l_UserID l)
  | None => throw ErrNotFound
  end.

(** [changeOrg]: runs [toWrap] on the organization under the lock. [toWrap] mutates
    the object and may return an error; the mutation stays. The result is the object
    after the change, which closures of the callers capture. *)
Definition changeOrg (externalID : string) (toWrap : OrgCell -> OrgCell * option error) : Op OrgCell :=
  locked (
    do ' (k, o) <- findOrganizationByExternalID externalID;
    let '(o', err) := toWrap o in
    modify (fun d => set_organizations (<[k := o']> (organizations d)) d) ;;;
    match err with Some e => throw e | None => ret o' end).

End lookups.

Lemma reader_findOrganizationByExternalID `{GoRange} e : reader (findOrganizationByExternalID e).
Proof. unfold findOrganizationByExternalID. auto with go. Qed.
