(* ===== verification/MemTeam.v ===== *)
(** Teams, roles and permissions of the in-memory users database
    (users/db/memory/team.go, role.go, permission.go). *)
From Stdlib Require Import ZArith Lia Ascii String.
From stdpp Require Import base tactics option gmap strings list pretty.
From S2P Require Import Prelude GoStd Users Filter MemDB.

Section team.
Context `{GoRange} (fuel : nat).

(** [sort.Sort(teamsByCreatedAt(teams))], [sort.Sort(usersByCreatedAt(us))] *)
Definition teamsByCreatedAt : list Team -> list Team := sort.ByDescending t_CreatedAt.
Definition usersByCreatedAt : list User -> list User := sort.ByDescending u_CreatedAt.

Definition memberships_of (d : DB) (userID : string) : gmap string string :=
  default ∅ (teamMemberships d !! userID).

(** [ListTeamsForUserID]: a team id without a team gives a nil pointer. *)
Definition ListTeamsForUserID (userID : string) : Op (list (option Team)) :=
  locked (gets (fun d => (fun '(teamID, _) => teams d !! teamID) <$> go_range (memberships_of d userID))).

(** [ListTeams] *)
Definition ListTeams : Op (list Team) :=
  locked (gets (fun d => teamsByCreatedAt ((go_range (teams d)).*2))).

(** [ListAllTeams]; the type assertions of [MatchesTeam] may panic. *)
Definition ListAllTeams (f : filter.Filter) : Op (list Team) :=
  locked (
    do ts <- gets teams;
    do l <- fold_m (fun acc '(_, team) =>
              do b <- deref (filter.MatchesTeam f team);
              ret (if b then acc ++ [team] else acc)) (go_range ts) [];
    ret (teamsByCreatedAt l)).

(** [listTeamUsersWithRoles] *)
Definition listTeamUsersWithRoles (teamID : string) : Op (list UserWithRole) :=
  do tm <- gets teamMemberships;
  do rs <- gets roles;
  do ' (us, found) <- fold_m (fun '(us, found) '(m, teamRoles) =>
      match teamRoles !! teamID with
      | Some rID =>
          do u <- findUserByID m;
          ret (us ++ [u], <[m := rs !! rID]> found)
      | None => ret (us, found)
      end) (go_range tm) ([], ∅ : gmap string (option Role));
  fold_m (fun acc u =>
      do r <- deref (default None (found !! u_ID u));
      ret (acc ++ [mkUserWithRole u r])) (usersByCreatedAt us) [].

(** [ListTeamUsersWithRoles] *)
Definition ListTeamUsersWithRoles (teamID : string) : Op (list UserWithRole) :=
  locked (listTeamUsersWithRoles teamID).

(** [listTeamUsers] *)
Definition listTeamUsers (teamID : string) (excludeNewUsers : bool) : Op (list User) :=
  do tm <- gets teamMemberships;
  do us <- fold_m (fun us '(m, teamRoles) =>
      match teamRoles !! teamID with
      | Some _ =>
          do u <- findUserByID m;
          ret (if excludeNewUsers && time.IsZero (u_FirstLoginAt u) then us else us ++ [u])
      | None => ret us
      end) (go_range tm) [];
  ret (usersByCreatedAt us).

(** [ListTeamUsers] *)
Definition ListTeamUsers (teamID : string) : Op (list User) := locked (listTeamUsers teamID false).

(** [ListTeamMemberships] *)
Definition ListTeamMemberships : Op (list TeamMembership) :=
  locked (gets (fun d =>
    '(userID, membership) ← go_range (teamMemberships d);
    (fun '(teamID, roleID) => mkTeamMembership userID teamID roleID) <$> go_range membership)).

(** [generateTeamExternalID]: [used] is reset as soon as one team has another id. *)
Fixpoint generateTeamExternalID_loop (n : nat) : Op string :=
  match n with
  | O => out_of_fuel
  | S n' =>
      do externalID <- externalids_Generate;
      do ts <- gets teams;
      if decide (size ts = O) then ret externalID
      else if existsb (fun kt => negb (bool_decide (t_ExternalID kt.2 = externalID))) (go_range ts)
           then ret externalID
           else generateTeamExternalID_loop n'
  end.
Definition generateTeamExternalID : Op string := generateTeamExternalID_loop fuel.

(** [CreateTeam]: the id is the number of teams. *)
Definition CreateTeam (name : string) : Op Team :=
  if decide (name = EmptyString) then throw (ErrMsg "team name cannot be blank")
  else
    do now <- Now;
    do n <- gets (fun d => size (teams d));
    do externalID <- generateTeamExternalID;
    let t := {| t_ID := pretty n; t_Name := name; t_ExternalID := externalID;
                t_ZuoraAccountNumber := EmptyString; t_ZuoraAccountCreatedAt := None;
                t_TrialExpiresAt := time.Add now TrialDuration;
                t_TrialPendingExpiryNotifiedAt := None; t_TrialExpiredNotifiedAt := None;
                t_CreatedAt := 0; t_DeletedAt := None |} in
    modify (fun d => set_teams (<[t_ID t := t]> (teams d)) d) ;;;
    ret t.

(** [AddUserToTeam]: a user who already has a role keeps it. *)
Definition AddUserToTeam (userID teamID roleID : string) : Op unit :=
  do teamRoles <- gets (fun d => memberships_of d userID);
  if decide (is_Some (teamRoles !! teamID)) then ret tt
  else modify (fun d => set_teamMemberships (<[userID := <[teamID := roleID]> teamRoles]> (teamMemberships d)) d).

(** [CreateTeamAsUser] *)
Definition CreateTeamAsUser (name userID : string) : Op Team :=
  do team <- CreateTeam name;
  AddUserToTeam userID (t_ID team) AdminRoleID ;;;
  ret team.

(** [DeleteTeam] *)
Definition DeleteTeam (teamID : string) : Op unit :=
  do os <- gets organizations;
  if existsb (fun ko => bool_decide (o_TeamID ko.2 = teamID)) (go_range os) then throw ErrForbidden
  else
    modify (fun d => set_teamMemberships (delete teamID <$> teamMemberships d) d) ;;;
    modify (fun d => set_teams (delete teamID (teams d)) d).

(** [GetUserRoleInTeam]: the role pointer is nil for a role id that does not exist. *)
Definition GetUserRoleInTeam (userID teamID : string) : Op (option Role) :=
  do roleID <- gets (fun d => memberships_of d userID !! teamID);
  do roleID <- or_else roleID ErrNotFound;
  gets (fun d => roles d !! roleID).

(** [UpdateUserRoleInTeam] *)
Definition UpdateUserRoleInTeam (userID teamID roleID : string) : Op unit :=
  do teamRoles <- gets (fun d => memberships_of d userID);
  if decide (is_Some (teamRoles !! teamID)) then
    modify (fun d => set_teamMemberships (<[userID := <[teamID := roleID]> teamRoles]> (teamMemberships d)) d)
  else throw ErrNotFound.

(** [getTeamUserIsPartOf] *)
Definition getTeamUserIsPartOf (userID teamExternalID : string) : Op (option Team) :=
  if decide (teamExternalID = EmptyString) then throw (ErrMsg "teamExternalID must be provided")
  else
    do ts <- gets teams;
    match first_match (fun t => bool_decide (t_ExternalID t = teamExternalID)) ts with
    | None => throw (ErrMsg ("team does not exist: " +:+ teamExternalID))
    | Some team =>
        do teamRoles <- gets (fun d => memberships_of d userID);
        if decide (is_Some (teamRoles !! t_ID team)) then ret (ts !! t_ID team)
        else throw ErrNotFound
    end.

(** [ensureUserIsPartOfTeamByName]: the first team of the user with that name; a
    membership of a team that is not there is a nil dereference. *)
Fixpoint find_team_by_name (ts : gmap string Team) (teamName : string) (ids : list string) : Op (option Team) :=
  match ids with
  | [] => ret None
  | id :: ids' =>
      do team <- deref (ts !! id);
      if decide (strings.ToLower teamName = strings.ToLower (t_Name team)) then ret (Some team)
      else find_team_by_name ts teamName ids'
  end.

Definition ensureUserIsPartOfTeamByName (userID teamName : string) : Op Team :=
  if decide (teamName = EmptyString) then throw (ErrMsg "teamName must be provided")
  else
    do ts <- gets teams;
    do teamRoles <- gets (fun d => memberships_of d userID);
    do found <- find_team_by_name ts teamName ((go_range teamRoles).*1);
    match found with
    | Some team => ret team
    | None => CreateTeamAsUser teamName userID
    end.

(** [RemoveUserFromTeam]: deleting from a nil map is a no-op. *)
Definition RemoveUserFromTeam (userID teamID : string) : Op unit :=
  modify (fun d => set_teamMemberships (alter (delete teamID) userID (teamMemberships d)) d).

(** [FindTeamByExternalID], [FindTeamByInternalID] (organization.go) *)
Definition FindTeamByExternalID (externalID : string) : Op Team :=
  do ts <- gets teams;
  or_else (first_match (fun t => bool_decide (t_ExternalID t = externalID)) ts) ErrNotFound.

Definition FindTeamByInternalID (internalID : string) : Op Team :=
  do ts <- gets teams;
  or_else (first_match (fun t => bool_decide (t_ID t = internalID)) ts) ErrNotFound.

(** [ListRoles] (role.go) *)
Definition ListRoles : Op (list Role) := locked (gets (fun d => (go_range (roles d)).*2)).

(** [ListPermissionsForRoleID] (permission.go); an unknown permission id gives a nil
    pointer. *)
Definition ListPermissionsForRoleID (roleID : string) : Op (list (option Permission)) :=
  locked (gets (fun d =>
    match rolesPermissions d !! roleID with
    | None => []
    | Some ids => (fun id => permissions d !! id) <$> ids
    end)).

End team.
