(* ===== verification/MemOrg.v ===== *)
(** Organizations of the in-memory users database
    (users/db/memory/organization.go). *)
From Stdlib Require Import ZArith Lia Ascii String.
From stdpp Require Import base tactics option gmap strings list pretty.
From S2P Require Import Prelude GoStd Users Filter MemDB MemTeam.

Section organization.
Context `{GoRange} (fuel : nat).

(** [sort.Sort(organizationsByCreatedAt(orgs))] *)
Definition organizationsByCreatedAt : list OrgCell -> list OrgCell := sort.ByDescending o_CreatedAt.

(** Of the pair [x, err]: the pointer [x], and whether [err] is neither nil nor
    [ErrNotFound]. *)
Definition ptr {A} (r : error + A) : option A := match r with inr a => Some a | inl _ => None end.
Definition other_error {A} (r : error + A) : bool :=
  match r with inl err => negb (bool_decide (err = ErrNotFound)) | inr _ => false end.

(** [RemoveUserFromOrganization]: [ErrNotFound] does not return early, so [o] and [u]
    may be nil where they are dereferenced. *)
Definition RemoveUserFromOrganization (orgExternalID email : string) : Op unit :=
  locked (
    do o <- try (findOrganizationByExternalID orgExternalID);
    if other_error o then ret tt else
    do u <- try (findUserByEmail email);
    if other_error u then ret tt else
    do u <- deref (ptr u);
    do ms <- gets (fun d => memberships_of d (u_ID u));
    do newTeams <- fold_m (fun acc '(teamID, roleID) =>
        do ' (_, o) <- deref (ptr o);
        ret (if decide (teamID = o_TeamID o) then acc else <[teamID := roleID]> acc))
      (go_range ms) ∅;
    modify (fun d => set_teamMemberships (<[u_ID u := newTeams]> (teamMemberships d)) d)).

(** [userIsMemberOf], [UserIsMemberOf] *)
Definition userIsMemberOf (userID orgExternalID : string) : Op bool :=
  do r <- try (findOrganizationByExternalID orgExternalID);
  match r with
  | inl err => if decide (err = ErrNotFound) then ret false else throw err
  | inr (_, o) => gets (fun d => bool_decide (is_Some (memberships_of d userID !! o_TeamID o)))
  end.
Definition UserIsMemberOf (userID orgExternalID : string) : Op bool :=
  locked (userIsMemberOf userID orgExternalID).

(** [if f.MatchesOrg( *org) { orgs = append(orgs, org) }] over a map *)
Definition matching_orgs (f : filter.Filter) (acc : list OrgCell) (os : gmap string OrgCell) : Op (list OrgCell) :=
  fold_m (fun acc '(_, org) =>
      do o <- loaded org;
      do b <- deref (filter.MatchesOrg f o);
      ret (if b then acc ++ [org] else acc)) (go_range os) acc.

(** [ListOrganizations]; the page is ignored. *)
Definition ListOrganizations (f : filter.Filter) (page : Z) : Op (list Organization) :=
  locked (
    do os <- gets organizations;
    do l <- matching_orgs f [] os;
    loaded_all (organizationsByCreatedAt l)).

(** [ListAllOrganizations]; the order and the page are ignored. *)
Definition ListAllOrganizations (f : filter.Filter) (orderBy : string) (page : Z) : Op (list Organization) :=
  locked (
    do os <- gets organizations;
    do l <- matching_orgs f [] os;
    do ds <- gets deletedOrganizations;
    do l <- matching_orgs f l ds;
    loaded_all (organizationsByCreatedAt l)).

(** [ListOrganizationsInTeam] *)
Definition ListOrganizationsInTeam (teamID : string) : Op (list Organization) :=
  locked (
    do os <- gets organizations;
    loaded_all (organizationsByCreatedAt (select (fun o => bool_decide (o_TeamID o = teamID)) os))).

(** [listOrganizationUsers], [ListOrganizationUsers] *)
Definition listOrganizationUsers (orgExternalID : string) (includeDeletedOrgs excludeNewUsers : bool) : Op (list User) :=
  do ' (_, o) <- findOrganizationByExternalID orgExternalID;
  if o_Deleted o && negb includeDeletedOrgs then ret []
  else
    do teamUsers <- listTeamUsers (o_TeamID o) excludeNewUsers;
    ret (usersByCreatedAt ([] ++ teamUsers)).
Definition ListOrganizationUsers (orgExternalID : string) (includeDeletedOrgs excludeNewUsers : bool) : Op (list User) :=
  locked (listOrganizationUsers orgExternalID includeDeletedOrgs excludeNewUsers).

(** [listOrganizationsForUserIDs]: first the ids of the organizations of the users'
    teams, then the organizations of those ids. *)
Definition add_team_orgs (teamID : string) (os : gmap string OrgCell) (acc : gmap string unit) : gmap string unit :=
  foldl (fun acc '(_, o) => if decide (o_TeamID o = teamID) then <[o_ID o := tt]> acc else acc) acc (go_range os).

Definition org_ids_of_users (d : DB) (userIDs : list string) (includeDeletedOrgs : bool) : gmap string unit :=
  foldl (fun acc userID =>
    foldl (fun acc '(teamID, _) =>
      let acc := add_team_orgs teamID (organizations d) acc in
      if includeDeletedOrgs then add_team_orgs teamID (deletedOrganizations d) acc else acc)
      acc (go_range (memberships_of d userID))) ∅ userIDs.

Definition listOrganizationsForUserIDs (userIDs : list string) (includeDeletedOrgs : bool) (orderBy : string) : Op (list Organization) :=
  locked (
    do orgIDs <- gets (fun d => org_ids_of_users d userIDs includeDeletedOrgs);
    do d <- get;
    do orgs <- fold_m (fun acc '(orgID, _) =>
        let o := match organizations d !! orgID with
                 | Some o => Some o
                 | None => if includeDeletedOrgs then deletedOrganizations d !! orgID else None
                 end in
        do o <- or_else o ErrNotFound;
        ret (acc ++ [o])) (go_range orgIDs) [];
    loaded_all (organizationsByCreatedAt orgs)).

Definition ListOrganizationsForUserIDs (userIDs : list string) : Op (list Organization) :=
  listOrganizationsForUserIDs userIDs false EmptyString.
Definition ListAllOrganizationsForUserIDs (orderBy : string) (userIDs : list string) : Op (list Organization) :=
  listOrganizationsForUserIDs userIDs true orderBy.

(** [GenerateOrganizationExternalID]: draws ids until one is free. *)
Fixpoint generate_external_id (n : nat) : Op string :=
  match n with
  | O => out_of_fuel
  | S n' =>
      do externalID <- externalids_Generate;
      do used <- organizationExists externalID true;
      if used : bool then generate_external_id n' else ret externalID
  end.
Definition GenerateOrganizationExternalID : Op string := locked (generate_external_id fuel).

Definition organizationMaxLength : nat := 100.
Definition errorOrgNameLengthConstraint : error :=
  PqError "22001" ("value too long for type character varying(" +:+ pretty organizationMaxLength +:+ ")").

(** [FindUncleanedOrgIDs]: it looks through the live organizations only. *)
Definition FindUncleanedOrgIDs : Op (list string) :=
  locked (
    do os <- gets organizations;
    ret (o_ID <$> select (fun o => negb (o_Cleanup o) && (o_Deleted o || o_RefuseDataUpload o)) os)).

Definition find_org (p : OrgCell -> bool) : Op Organization :=
  do os <- gets organizations;
  do o <- or_else (first_match p os) ErrNotFound;
  loaded o.

(** [FindOrganizationByProbeToken] *)
Definition FindOrganizationByProbeToken (probeToken : string) : Op Organization :=
  locked (find_org (fun o => bool_decide (o_ProbeToken o = probeToken))).

(** [FindOrganizationByID]: by external id, case-sensitively. *)
Definition FindOrganizationByID (externalID : string) : Op Organization :=
  locked (find_org (fun o => bool_decide (o_ExternalID o = externalID))).

(** [FindOrganizationByGCPExternalAccountID]; it takes no lock. *)
Definition FindOrganizationByGCPExternalAccountID (externalAccountID : string) : Op Organization :=
  do d <- get;
  find_org (fun o => match o_GCP (load_org d o) with
                     | Some g => bool_decide (g_ExternalAccountID g = externalAccountID)
                     | None => false end).

(** [FindOrganizationByInternalID] *)
Definition FindOrganizationByInternalID (internalID : string) : Op Organization :=
  locked (find_org (fun o => bool_decide (o_ID o = internalID))).

(** [UpdateOrganization]: the fields are set first and validated afterwards. *)
Definition ZeroTimeIsNil (t : time.Time) : option time.Time := if time.IsZero t then None else Some t.

Definition when_some {A} (v : option A) (f : A -> OrgCell -> OrgCell) (o : OrgCell) : OrgCell :=
  match v with Some a => f a o | None => o end.

Definition apply_update (update : OrgWriteView) (o : OrgCell) : OrgCell :=
  let o := when_some (ow_Name update) set_Name o in
  let o := when_some (ow_Platform update) set_Platform o in
  let o := when_some (ow_Environment update) set_Environment o in
  let o := when_some (ow_TrialExpiresAt update) set_TrialExpiresAt o in
  let o := when_some (ow_TrialExpiredNotifiedAt update) (fun t => set_TrialExpiredNotifiedAt (ZeroTimeIsNil t)) o in
  when_some (ow_TrialPendingExpiryNotifiedAt update) (fun t => set_TrialPendingExpiryNotifiedAt (ZeroTimeIsNil t)) o.

Definition UpdateOrganization (externalID : string) (update : OrgWriteView) : Op Organization :=
  if match ow_Name update with Some n => (organizationMaxLength <? String.length n)%nat | None => false end
  then throw errorOrgNameLengthConstraint
  else
    do o <- changeOrg externalID (fun o => let o := apply_update update o in (o, Valid o));
    loaded o.

(** [MoveOrganizationToTeam] *)
Definition MoveOrganizationToTeam (externalID teamExternalID teamName userID : string) : Op unit :=
  do team <- (if decide (teamName = EmptyString) then FindTeamByExternalID teamExternalID
              else CreateTeamAsUser fuel teamName userID);
  changeOrg externalID (fun o => (set_TeamExternalID (t_ExternalID team) (set_TeamID (t_ID team) o), None)) ;;;
  ret tt.

(** [OrganizationExists], [ExternalIDUsed] *)
Definition OrganizationExists (externalID : string) : Op bool := locked (organizationExists externalID false).
Definition ExternalIDUsed (externalID : string) : Op bool := locked (organizationExists externalID true).

(** [GetOrganizationName] *)
Definition GetOrganizationName (externalID : string) : Op string :=
  locked (
    do ' (_, o) <- findOrganizationByExternalID externalID;
    ret (o_Name o)).

(** [DeleteOrganization]: the record moves to [deletedOrganizations]. *)
Definition DeleteOrganization (externalID actingID : string) : Op unit :=
  locked (
    do r <- try (findOrganizationByExternalID externalID);
    match r with
    | inl err => if decide (err = ErrNotFound) then ret tt else throw err
    | inr (_, o) =>
        modify (fun d => set_deletedOrganizations (<[o_ID o := o]> (deletedOrganizations d)) d) ;;;
        modify (fun d => set_organizations (delete (o_ID o) (organizations d)) d)
    end).

(** The operations that set fields of one organization. *)
Definition setOrg (externalID : string) (f : OrgCell -> OrgCell) : Op unit :=
  changeOrg externalID (fun o => (f o, None)) ;;; ret tt.

Definition AddFeatureFlag (externalID featureFlag : string) : Op unit :=
  setOrg externalID (fun o => set_FeatureFlags (o_FeatureFlags o ++ [featureFlag]) o).
Definition SetFeatureFlags (externalID : string) (featureFlags : list string) : Op unit :=
  setOrg externalID (set_FeatureFlags featureFlags).
Definition SetOrganizationCleanup (internalID : string) (value : bool) : Op unit :=
  do org <- FindOrganizationByInternalID internalID;
  setOrg (o_ExternalID org) (set_Cleanup value).
Definition SetOrganizationRefuseDataAccess (externalID : string) (value : bool) : Op unit :=
  setOrg externalID (set_RefuseDataAccess value).
Definition SetOrganizationRefuseDataUpload (externalID : string) (value : bool) : Op unit :=
  setOrg externalID (set_RefuseDataUpload value).
Definition SetOrganizationRefuseDataReason (externalID reason : string) : Op unit :=
  setOrg externalID (set_RefuseDataReason reason).
Definition SetOrganizationFirstSeenConnectedAt (externalID : string) (value : option time.Time) : Op unit :=
  setOrg externalID (set_FirstSeenConnectedAt value).
Definition SetOrganizationFirstSeenFluxConnectedAt (externalID : string) (value : option time.Time) : Op unit :=
  setOrg externalID (set_FirstSeenFluxConnectedAt value).
Definition SetOrganizationFirstSeenNetConnectedAt (externalID : string) (value : option time.Time) : Op unit :=
  setOrg externalID (set_FirstSeenNetConnectedAt value).
Definition SetOrganizationFirstSeenPromConnectedAt (externalID : string) (value : option time.Time) : Op unit :=
  setOrg externalID (set_FirstSeenPromConnectedAt value).
Definition SetOrganizationFirstSeenScopeConnectedAt (externalID : string) (value : option time.Time) : Op unit :=
  setOrg externalID (set_FirstSeenScopeConnectedAt value).
Definition SetOrganizationZuoraAccount (externalID number : string) (createdAt : option time.Time) : Op unit :=
  setOrg externalID (fun o => set_ZuoraAccountCreatedAt createdAt (set_ZuoraAccountNumber number o)).
Definition SetOrganizationPlatformVersion (externalID platformVersion : string) : Op unit :=
  setOrg externalID (set_PlatformVersion platformVersion).
Definition SetLastSentWeeklyReportAt (externalID : string) (sentAt : option time.Time) : Op unit :=
  setOrg externalID (set_LastSentWeeklyReportAt sentAt).

(** [FindGCP] *)
Definition gcp_at (externalAccountID : string) : Op (loc * GoogleCloudPlatform) :=
  do d <- get;
  do l <- or_else (gcpAccounts d !! externalAccountID) ErrNotFound;
  do g <- deref (gcp_heap d !! l);
  ret (l, g).
Definition FindGCP (externalAccountID : string) : Op GoogleCloudPlatform :=
  locked (do ' (_, g) <- gcp_at externalAccountID; ret g).

(** [UpdateGCP]: through the pointer, so that every organization attached to the
    account sees it. *)
Definition UpdateGCP (externalAccountID consumerID subscriptionName subscriptionLevel subscriptionStatus : string) : Op unit :=
  locked (
    do ' (l, g) <- gcp_at externalAccountID;
    let g' := {| g_ID := g_ID g; g_ExternalAccountID := externalAccountID; g_Activated := true;
                 g_CreatedAt := g_CreatedAt g; g_ConsumerID := consumerID;
                 g_SubscriptionName := subscriptionName; g_SubscriptionLevel := subscriptionLevel;
                 g_SubscriptionStatus := subscriptionStatus |} in
    modify (fun d => set_gcp_heap (<[l := g']> (gcp_heap d)) d) ;;;
    modify (fun d => set_gcpAccounts (<[externalAccountID := l]> (gcpAccounts d)) d)).

(** [SetOrganizationGCP] *)
Definition SetOrganizationGCP (externalID externalAccountID : string) : Op unit :=
  locked (
    do ' (k, o) <- findOrganizationByExternalID externalID;
    if decide (is_Some (o_GCP o)) then throw (ErrMsg "organization already has a GCP account")
    else
      do account <- gets (fun d => gcpAccounts d !! externalAccountID);
      do now <- Now;
      let o := set_GCP account o in
      let o := set_Platform "kubernetes" o in
      let o := set_Environment "gke" o in
      let o := set_TrialExpiresAt now o in
      let o := if o_HasFeatureFlag o featureflag.Billing then o
               else set_FeatureFlags (o_FeatureFlags o ++ [featureflag.Billing]) o in
      modify (fun d => set_organizations (<[k := o]> (organizations d)) d)).

(** [CreateOrganizationWithTeam]: [find_token] is the loop that looks for a probe
    token no live organization has. *)
Fixpoint find_token (n : nat) (token : string) : Op string :=
  match n with
  | O => out_of_fuel
  | S n' =>
      do t <- (if decide (token = EmptyString) then tokens_Generate else ret token);
      do os <- gets organizations;
      if decide (is_Some (first_entry (fun org => bool_decide (o_ProbeToken org = t)) os)) then
        if decide (token = EmptyString) then find_token n' token else throw ErrOrgTokenIsTaken
      else ret t
  end.

Definition new_org (id externalID name : string) (now trialExpiresAt : time.Time) (team : Team) : OrgCell :=
  {| o_ID := id; o_ExternalID := externalID; o_Name := name; o_ProbeToken := EmptyString;
     o_CreatedAt := now; o_FeatureFlags := []; o_RefuseDataAccess := false;
     o_RefuseDataUpload := false; o_FirstSeenConnectedAt := None; o_Platform := EmptyString;
     o_Environment := EmptyString; o_TrialExpiresAt := trialExpiresAt;
     o_ZuoraAccountNumber := EmptyString; o_ZuoraAccountCreatedAt := None;
     o_TrialPendingExpiryNotifiedAt := None; o_TrialExpiredNotifiedAt := None; o_GCP := None;
     o_TeamID := t_ID team; o_TeamExternalID := t_ExternalID team; o_DeletedAt := 0;
     o_Cleanup := false; o_FirstSeenFluxConnectedAt := None; o_FirstSeenNetConnectedAt := None;
     o_FirstSeenPromConnectedAt := None; o_FirstSeenScopeConnectedAt := None;
     o_RefuseDataReason := EmptyString; o_LastSentWeeklyReportAt := None;
     o_PlatformVersion := EmptyString; o_DeletedBy := EmptyString |}.

Definition CreateOrganizationWithTeam (ownerID externalID name token teamExternalID teamName : string)
    (trialExpiresAt : time.Time) : Op OrgCell :=
  locked (
    findUserByID ownerID ;;;
    if (organizationMaxLength <? String.length name)%nat then throw errorOrgNameLengthConstraint
    else
      do now <- Now;
      do team <- (if negb (bool_decide (teamExternalID = EmptyString)) then getTeamUserIsPartOf ownerID teamExternalID
                  else if negb (bool_decide (teamName = EmptyString)) then
                    do t <- ensureUserIsPartOfTeamByName fuel ownerID teamName; ret (Some t)
                  else ret None);
      do id <- gets (fun d => pretty (size (organizations d)));
      do team <- deref team;
      let o := new_org id externalID name now trialExpiresAt team in
      match Valid o with
      | Some err => throw err
      | None =>
          do exists_ <- organizationExists externalID true;
          if exists_ : bool then throw ErrOrgExternalIDIsTaken
          else
            do t <- find_token fuel token;
            let o := set_ProbeToken t o in
            modify (fun d => set_organizations (<[o_ID o := o]> (organizations d)) d) ;;;
            ret o
      end).

(** [createGCP] *)
Definition createGCP (externalAccountID : string) : Op loc :=
  locked (
    do d <- get;
    if decide (is_Some (gcpAccounts d !! externalAccountID))
    then throw (ErrMsg "account is already in use, reactivate subscription in the launcher")
    else
      let l := size (gcp_heap d) in
      let gcp := {| g_ID := pretty (size (gcpAccounts d)); g_ExternalAccountID := externalAccountID;
                    g_Activated := false; g_CreatedAt := 0; g_ConsumerID := EmptyString;
                    g_SubscriptionName := EmptyString; g_SubscriptionLevel := EmptyString;
                    g_SubscriptionStatus := EmptyString |} in
      modify (fun d => set_gcp_heap (<[l := gcp]> (gcp_heap d)) d) ;;;
      modify (fun d => set_gcpAccounts (<[externalAccountID := l]> (gcpAccounts d)) d) ;;;
      ret l).

(** [CreateOrganizationWithGCP]; [org.GCP = gcp] writes through the pointer of the
    new organization, which the store holds under [org.ID]. *)
Definition CreateOrganizationWithGCP (ownerID externalAccountID : string) (trialExpiresAt : time.Time) : Op Organization :=
  do externalID <- GenerateOrganizationExternalID;
  do org <- CreateOrganizationWithTeam ownerID externalID (DefaultOrganizationName externalID)
              EmptyString EmptyString (DefaultTeamName externalID) trialExpiresAt;
  do gcp <- createGCP externalAccountID;
  SetOrganizationGCP externalID externalAccountID ;;;
  do os <- gets organizations;
  do org <- deref (os !! o_ID org);
  let org := set_GCP (Some gcp) org in
  modify (fun d => set_organizations (<[o_ID org := org]> (organizations d)) d) ;;;
  loaded org.

(** [GetSummary] *)
Definition GetSummary : Op (list SummaryEntry) :=
  locked (
    do os <- gets organizations;
    do entries <- fold_m (fun acc '(_, org) =>
        do team <- gets (fun d => teams d !! o_TeamID org);
        do orgUsers <- listOrganizationUsers (o_ExternalID org) false false;
        do o <- loaded org;
        do team <- deref team;
        ret (acc ++ [NewSummaryEntry o team orgUsers])) (go_range os) [];
    ret (SummaryEntriesByCreatedAt entries)).

End organization.
