(* ===== verification/MemUser.v ===== *)
(** Users, logins and webhooks of the in-memory users database
    (users/db/memory/user.go, webhook.go). *)
From Stdlib Require Import ZArith Lia Ascii String.
From stdpp Require Import base tactics option gmap strings list pretty.
From S2P Require Import Prelude GoStd Users Filter MemDB MemTeam MemOrg.

(** Integration types (common/constants/webhooks) *)
Definition GithubPushIntegrationType : string := "github.push".

Section user.
Context `{GoRange} (fuel : nat).
(** [bcrypt.GenerateFromPassword(token, cost)] *)
Variable bcrypt_generate : string -> Z -> error + string.

Definition put_user (id : string) (u : User) (d : DB) : DB := set_users (<[id := u]> (users d)) d.

(** [createUser]: the id is the number of users. *)
Definition createUser (email : string) (details : option UserUpdate) : Op User :=
  do n <- gets (fun d => size (users d));
  do now <- Now;
  let u := {| u_ID := pretty n; u_Email := strings.ToLower email; u_Token := EmptyString;
              u_TokenCreatedAt := 0; u_FirstLoginAt := 0; u_CreatedAt := now; u_Admin := false;
              u_LastLoginAt := 0;
              u_Company := match details with Some x => uu_Company x | None => EmptyString end;
              u_Name := match details with Some x => uu_Name x | None => EmptyString end;
              u_FirstName := match details with Some x => uu_FirstName x | None => EmptyString end;
              u_LastName := match details with Some x => uu_LastName x | None => EmptyString end |} in
  modify (put_user (u_ID u) u) ;;;
  ret u.

(** [CreateUser] *)
Definition CreateUser (email : string) (details : option UserUpdate) : Op User :=
  locked (createUser email details).

(** [UpdateUser]: an assignment to a field of a missing user panics; with nothing to
    assign, the missing user is returned as a nil pointer. *)
Definition assign_user (userID value : string) (f : string -> User -> User) : Op unit :=
  if decide (value = EmptyString) then ret tt
  else
    do us <- gets users;
    do u <- deref (us !! userID);
    modify (put_user userID (f value u)).

Definition set_u_Name (v : string) (u : User) : User :=
  mkUser (u_ID u) (u_Email u) (u_Token u) (u_TokenCreatedAt u) (u_FirstLoginAt u) (u_CreatedAt u)
    (u_Admin u) (u_LastLoginAt u) (u_Company u) v (u_FirstName u) (u_LastName u).
Definition set_u_FirstName (v : string) (u : User) : User :=
  mkUser (u_ID u) (u_Email u) (u_Token u) (u_TokenCreatedAt u) (u_FirstLoginAt u) (u_CreatedAt u)
    (u_Admin u) (u_LastLoginAt u) (u_Company u) (u_Name u) v (u_LastName u).
Definition set_u_LastName (v : string) (u : User) : User :=
  mkUser (u_ID u) (u_Email u) (u_Token u) (u_TokenCreatedAt u) (u_FirstLoginAt u) (u_CreatedAt u)
    (u_Admin u) (u_LastLoginAt u) (u_Company u) (u_Name u) (u_FirstName u) v.
Definition set_u_Company (v : string) (u : User) : User :=
  mkUser (u_ID u) (u_Email u) (u_Token u) (u_TokenCreatedAt u) (u_FirstLoginAt u) (u_CreatedAt u)
    (u_Admin u) (u_LastLoginAt u) v (u_Name u) (u_FirstName u) (u_LastName u).
Definition set_u_Admin (v : bool) (u : User) : User :=
  mkUser (u_ID u) (u_Email u) (u_Token u) (u_TokenCreatedAt u) (u_FirstLoginAt u) (u_CreatedAt u)
    v (u_LastLoginAt u) (u_Company u) (u_Name u) (u_FirstName u) (u_LastName u).
Definition set_u_Token (v : string) (at_ : time.Time) (u : User) : User :=
  mkUser (u_ID u) (u_Email u) v at_ (u_FirstLoginAt u) (u_CreatedAt u)
    (u_Admin u) (u_LastLoginAt u) (u_Company u) (u_Name u) (u_FirstName u) (u_LastName u).
Definition set_u_Login (first last : time.Time) (u : User) : User :=
  mkUser (u_ID u) (u_Email u) (u_Token u) (u_TokenCreatedAt u) first (u_CreatedAt u)
    (u_Admin u) last (u_Company u) (u_Name u) (u_FirstName u) (u_LastName u).

Definition UpdateUser (userID : string) (update : UserUpdate) : Op (option User) :=
  locked (
    assign_user userID (uu_Name update) set_u_Name ;;;
    assign_user userID (uu_FirstName update) set_u_FirstName ;;;
    assign_user userID (uu_LastName update) set_u_LastName ;;;
    assign_user userID (uu_Company update) set_u_Company ;;;
    gets (fun d => users d !! userID)).

(** [DeleteUser]: [count_members] counts the members of the user's teams. *)
Definition incr (team : string) (members : gmap string nat) : gmap string nat :=
  <[team := S (default O (members !! team))]> members.

Definition count_members (d : DB) (userID : string) : gmap string nat :=
  foldl (fun members '(_, membership) =>
    foldl (fun members '(team, _) =>
      if decide (is_Some (memberships_of d userID !! team)) then incr team members else members)
      members (go_range membership)) ∅ (go_range (teamMemberships d)).

(** The body of the loop over [d.organizations]; an organization the loop has not
    reached yet is skipped when a previous round removed it. *)
Definition delete_org_of_team (team actingID : string) (k : string) : Op unit :=
  do os <- gets organizations;
  match os !! k with
  | None => ret tt
  | Some org =>
      if decide (o_TeamID org = team) then DeleteOrganization (o_ExternalID org) actingID else ret tt
  end.

Definition delete_sole_member_team (actingID : string) (tc : string * nat) : Op unit :=
  let '(team, count) := tc in
  if decide (count = 1%nat) then
    do os <- gets organizations;
    for_each ((go_range os).*1) (delete_org_of_team team actingID) ;;;
    DeleteTeam team
  else ret tt.

Definition DeleteUser (userID actingID : string) : Op unit :=
  do members <- gets (fun d => count_members d userID);
  for_each (go_range members) (delete_sole_member_team actingID) ;;;
  modify (fun d => set_teamMemberships (delete userID (teamMemberships d)) d) ;;;
  modify (fun d => set_users (delete userID (users d)) d).

(** [AddLoginToUser] *)
Definition AddLoginToUser (userID provider providerID session : string) : Op unit :=
  locked (
    findUserByID userID ;;;
    do existing <- try (findUserByLogin provider providerID);
    match existing with
    | inr e =>
        if decide (u_ID e <> userID) then throw (AlreadyAttachedError (u_ID e) (u_Email e)) else ret tt
    | inl _ => ret tt
    end ;;;
    do now <- Now;
    let l := {| l_UserID := userID; l_Provider := provider; l_ProviderID := providerID;
                l_Session := session; l_CreatedAt := now |} in
    modify (fun d => set_logins (<[provider +:+ "-" +:+ providerID := l]> (logins d)) d)).

(** [GetLogin]; it takes no lock. *)
Definition GetLogin (provider providerID : string) : Op Login :=
  do ls <- gets logins;
  or_else (first_match (fun l => bool_decide (l_Provider l = provider) && bool_decide (l_ProviderID l = providerID)) ls)
    ErrNotFound.

(** [DetachLoginFromUser] *)
Definition DetachLoginFromUser (userID provider : string) : Op unit :=
  locked (
    do r <- try (findUserByID userID);
    match r with
    | inl err => if decide (err = ErrNotFound) then ret tt else throw err
    | inr _ =>
        modify (fun d => set_logins
          (filter (fun kv : string * Login => l_UserID kv.2 <> userID \/ l_Provider kv.2 <> provider) (logins d)) d)
    end).

(** [InviteUserToTeam] *)
Definition InviteUserToTeam (email teamExternalID roleID : string) : Op (User * bool) :=
  locked (
    do team <- FindTeamByExternalID teamExternalID;
    do r <- try (findUserByEmail email);
    do ' (u, created) <- match r with
      | inr u => ret (u, false)
      | inl err => if decide (err = ErrNotFound) then do u <- createUser email None; ret (u, true)
                   else throw err
      end;
    do ms <- gets (fun d => memberships_of d (u_ID u));
    modify (fun d => set_teamMemberships (<[u_ID u := <[t_ID team := roleID]> ms]> (teamMemberships d)) d) ;;;
    ret (u, created)).

(** [FindUserByID], [FindUserByEmail], [FindUserByLogin] *)
Definition FindUserByID (id : string) : Op User := locked (findUserByID id).
Definition FindUserByEmail (email : string) : Op User := locked (findUserByEmail email).
Definition FindUserByLogin (provider providerID : string) : Op User := locked (findUserByLogin provider providerID).

(** [ListUsers]; the page is ignored. *)
Definition ListUsers (f : filter.Filter) (page : Z) : Op (list User) :=
  locked (
    do us <- gets users;
    do l <- fold_m (fun acc '(_, u) =>
        do b <- deref (filter.MatchesUser f u);
        ret (if b then acc ++ [u] else acc)) (go_range us) [];
    ret (usersByCreatedAt l)).

(** [ListLoginsForUserIDs] *)
Definition ListLoginsForUserIDs (userIDs : list string) : Op (list Login) :=
  locked (gets (fun d => select (fun l => bool_decide (l_UserID l ∈ userIDs)) (logins d))).

Definition change_user (id : string) (f : User -> User) : Op unit :=
  do us <- gets users;
  do u <- or_else (us !! id) ErrNotFound;
  modify (put_user id (f u)).

(** [SetUserAdmin] *)
Definition SetUserAdmin (id : string) (value : bool) : Op unit :=
  locked (change_user id (set_u_Admin value)).

(** [SetUserToken]: an empty token is stored as such, any other one hashed. *)
Definition SetUserToken (id token : string) : Op unit :=
  locked (
    do hashed <- (if decide (token = EmptyString) then ret EmptyString
                  else do cost <- gets passwordHashingCost;
                       match bcrypt_generate token cost with
                       | inr h => ret h
                       | inl err => throw err
                       end);
    do us <- gets users;
    do u <- or_else (us !! id) ErrNotFound;
    do now <- Now;
    modify (put_user id (set_u_Token hashed now u))).

(** [SetUserLastLoginAt] *)
Definition SetUserLastLoginAt (id : string) : Op unit :=
  locked (
    do us <- gets users;
    do u <- or_else (us !! id) ErrNotFound;
    do now <- Now;
    let first := if time.IsZero (u_FirstLoginAt u) then now else u_FirstLoginAt u in
    modify (put_user id (set_u_Login first now u))).

(** * Webhooks (webhook.go) *)

Definition webhooks_of (d : DB) (orgExternalID : string) : list Webhook :=
  default [] (webhooks d !! orgExternalID).

(** [ListOrganizationWebhooks]; it takes no lock. *)
Definition ListOrganizationWebhooks (orgExternalID : string) : Op (list Webhook) :=
  gets (fun d => webhooks_of d orgExternalID).

(** [CreateOrganizationWebhook]: only GitHub webhooks get a signing key; the id is
    the number of users. *)
Definition CreateOrganizationWebhook (orgExternalID integrationType : string) : Op Webhook :=
  locked (
    do secretID <- tokens_Generate;
    do secretSigningKey <- (if decide (integrationType = GithubPushIntegrationType)
                            then tokens_Generate else ret EmptyString);
    do ' (_, o) <- findOrganizationByExternalID orgExternalID;
    do n <- gets (fun d => size (users d));
    do now <- Now;
    let w := {| w_ID := pretty n; w_OrganizationID := o_ID o; w_IntegrationType := integrationType;
                w_SecretID := secretID; w_SecretSigningKey := secretSigningKey;
                w_CreatedAt := now; w_DeletedAt := None; w_FirstSeenAt := None |} in
    modify (fun d => set_webhooks (<[orgExternalID := webhooks_of d orgExternalID ++ [w]]> (webhooks d)) d) ;;;
    ret w).

(** [DeleteOrganizationWebhook]: the first webhook with that secret id is cut out of
    the slice. *)
Fixpoint cut_webhook (secretID : string) (l : list Webhook) : option (list Webhook) :=
  match l with
  | [] => None
  | w :: l' => if decide (w_SecretID w = secretID) then Some l'
               else cons w <$> cut_webhook secretID l'
  end.

Definition DeleteOrganizationWebhook (orgExternalID secretID : string) : Op unit :=
  locked (
    do orgWebhooks <- gets (fun d => webhooks_of d orgExternalID);
    match cut_webhook secretID orgWebhooks with
    | Some l => modify (fun d => set_webhooks (<[orgExternalID := l]> (webhooks d)) d)
    | None => ret tt
    end).

Definition has_secret (secretID : string) (w : Webhook) : bool := bool_decide (w_SecretID w = secretID).

(** The first slice of the map that holds the secret id, under its key. *)
Definition webhook_entry (d : DB) (secretID : string) : option (string * list Webhook) :=
  first_entry (existsb (has_secret secretID)) (webhooks d).

(** [FindOrganizationWebhookBySecretID]; it takes no lock, and its error is not
    [ErrNotFound]. *)
Definition FindOrganizationWebhookBySecretID (secretID : string) : Op Webhook :=
  do d <- get;
  or_else (match webhook_entry d secretID with
           | Some (_, ws) => List.find (has_secret secretID) ws
           | None => None end) (ErrMsg "webhook not found").

(** [SetOrganizationWebhookFirstSeenAt] *)
Definition set_w_FirstSeenAt (t : time.Time) (w : Webhook) : Webhook :=
  mkWebhook (w_ID w) (w_OrganizationID w) (w_IntegrationType w) (w_SecretID w) (w_SecretSigningKey w)
    (w_CreatedAt w) (w_DeletedAt w) (Some t).

Fixpoint stamp_webhook (secretID : string) (t : time.Time) (l : list Webhook) : list Webhook :=
  match l with
  | [] => []
  | w :: l' => if has_secret secretID w then set_w_FirstSeenAt t w :: l'
               else w :: stamp_webhook secretID t l'
  end.

Definition SetOrganizationWebhookFirstSeenAt (secretID : string) : Op time.Time :=
  locked (
    do d <- get;
    match webhook_entry d secretID with
    | Some (k, ws) =>
        do now <- Now;
        modify (fun d => set_webhooks (<[k := stamp_webhook secretID now ws]> (webhooks d)) d) ;;;
        ret now
    | None => throw (ErrMsg "Not found")
    end).

End user.
