(* ===== verification/UsersDB.v ===== *)
(** The interface of the users databases (users/db/db.go) as a type of calls, what an
    implementation of it is, and the in-memory implementation. *)
From Stdlib Require Import ZArith Lia Ascii String.
From stdpp Require Import base tactics option gmap strings list pretty.
From S2P Require Import Prelude GoStd Users Filter MemDB MemTeam MemOrg MemUser.

(** * The calls of the interface

    One constructor per method of [DB], indexed by what the method returns besides the
    error. A pointer result is an [option] where an implementation may return nil
    without an error. *)
Inductive DBCall : Type -> Type :=
  | CallCreateUser (email : string) (details : option UserUpdate) : DBCall User
  | CallUpdateUser (userID : string) (update : UserUpdate) : DBCall (option User)
  | CallDeleteUser (userID actingID : string) : DBCall unit
  | CallFindUserByID (id : string) : DBCall User
  | CallFindUserByEmail (email : string) : DBCall User
  | CallFindUserByLogin (provider id : string) : DBCall User
  | CallUserIsMemberOf (userID orgExternalID : string) : DBCall bool
  | CallAddLoginToUser (userID provider id session : string) : DBCall unit
  | CallGetLogin (provider id : string) : DBCall Login
  | CallDetachLoginFromUser (userID provider : string) : DBCall unit
  | CallInviteUserToTeam (email teamExternalID roleID : string) : DBCall (User * bool)
  | CallRemoveUserFromOrganization (orgExternalID email : string) : DBCall unit
  | CallRemoveUserFromTeam (userID teamID : string) : DBCall unit
  | CallListUsers (f : filter.Filter) (page : Z) : DBCall (list User)
  | CallListOrganizations (f : filter.Filter) (page : Z) : DBCall (list Organization)
  | CallListAllOrganizations (f : filter.Filter) (orderBy : string) (page : Z) : DBCall (list Organization)
  | CallListOrganizationUsers (orgExternalID : string) (includeDeletedOrgs excludeNewUsers : bool) : DBCall (list User)
  | CallListOrganizationsInTeam (teamID : string) : DBCall (list Organization)
  | CallListOrganizationsForUserIDs (userIDs : list string) : DBCall (list Organization)
  | CallListAllOrganizationsForUserIDs (orderBy : string) (userIDs : list string) : DBCall (list Organization)
  | CallListLoginsForUserIDs (userIDs : list string) : DBCall (list Login)
  | CallSetUserAdmin (id : string) (value : bool) : DBCall unit
  | CallSetUserToken (id token : string) : DBCall unit
  | CallSetUserLastLoginAt (id : string) : DBCall unit
  | CallGenerateOrganizationExternalID : DBCall string
  | CallFindUncleanedOrgIDs : DBCall (list string)
  | CallFindOrganizationByProbeToken (probeToken : string) : DBCall Organization
  | CallFindOrganizationByID (externalID : string) : DBCall Organization
  | CallFindOrganizationByGCPExternalAccountID (externalAccountID : string) : DBCall Organization
  | CallFindOrganizationByInternalID (internalID : string) : DBCall Organization
  | CallUpdateOrganization (externalID : string) (update : OrgWriteView) : DBCall Organization
  | CallOrganizationExists (externalID : string) : DBCall bool
  | CallExternalIDUsed (externalID : string) : DBCall bool
  | CallGetOrganizationName (externalID : string) : DBCall string
  | CallDeleteOrganization (externalID actingID : string) : DBCall unit
  | CallAddFeatureFlag (externalID featureFlag : string) : DBCall unit
  | CallSetOrganizationCleanup (internalID : string) (value : bool) : DBCall unit
  | CallSetFeatureFlags (externalID : string) (featureFlags : list string) : DBCall unit
  | CallSetOrganizationRefuseDataAccess (externalID : string) (value : bool) : DBCall unit
  | CallSetOrganizationRefuseDataUpload (externalID : string) (value : bool) : DBCall unit
  | CallSetOrganizationRefuseDataReason (externalID reason : string) : DBCall unit
  | CallSetOrganizationFirstSeenConnectedAt (externalID : string) (value : option time.Time) : DBCall unit
  | CallSetOrganizationFirstSeenFluxConnectedAt (externalID : string) (value : option time.Time) : DBCall unit
  | CallSetOrganizationFirstSeenNetConnectedAt (externalID : string) (value : option time.Time) : DBCall unit
  | CallSetOrganizationFirstSeenPromConnectedAt (externalID : string) (value : option time.Time) : DBCall unit
  | CallSetOrganizationFirstSeenScopeConnectedAt (externalID : string) (value : option time.Time) : DBCall unit
  | CallSetOrganizationZuoraAccount (externalID number : string) (createdAt : option time.Time) : DBCall unit
  | CallSetOrganizationPlatformVersion (externalID platformVersion : string) : DBCall unit
  | CallSetLastSentWeeklyReportAt (externalID : string) (sentAt : option time.Time) : DBCall unit
  | CallMoveOrganizationToTeam (externalID teamExternalID teamName userID : string) : DBCall unit
  | CallCreateOrganizationWithGCP (ownerID externalAccountID : string) (trialExpiresAt : time.Time) : DBCall Organization
  | CallFindGCP (externalAccountID : string) : DBCall GoogleCloudPlatform
  | CallUpdateGCP (externalAccountID consumerID subscriptionName subscriptionLevel subscriptionStatus : string) : DBCall unit
  | CallSetOrganizationGCP (externalID externalAccountID : string) : DBCall unit
  | CallListTeams (page : Z) : DBCall (list Team)
  | CallListAllTeams (f : filter.Filter) (orderBy : string) (page : Z) : DBCall (list Team)
  | CallListTeamsForUserID (userID : string) : DBCall (list (option Team))
  | CallListTeamUsersWithRoles (teamID : string) : DBCall (list UserWithRole)
  | CallListTeamUsers (teamID : string) : DBCall (list User)
  | CallListRoles : DBCall (list Role)
  | CallListPermissionsForRoleID (roleID : string) : DBCall (list (option Permission))
  | CallGetUserRoleInTeam (userID teamID : string) : DBCall (option Role)
  | CallUpdateUserRoleInTeam (userID teamID roleID : string) : DBCall unit
  | CallFindTeamByExternalID (externalID : string) : DBCall Team
  | CallFindTeamByInternalID (internalID : string) : DBCall Team
  | CallCreateTeam (name : string) : DBCall Team
  | CallAddUserToTeam (userID teamID roleID : string) : DBCall unit
  | CallDeleteTeam (teamID : string) : DBCall unit
  | CallCreateOrganizationWithTeam (ownerID externalID name token teamExternalID teamName : string)
      (trialExpiresAt : time.Time) : DBCall Organization
  | CallListOrganizationWebhooks (orgExternalID : string) : DBCall (list Webhook)
  | CallCreateOrganizationWebhook (orgExternalID integrationType : string) : DBCall Webhook
  | CallDeleteOrganizationWebhook (orgExternalID secretID : string) : DBCall unit
  | CallFindOrganizationWebhookBySecretID (secretID : string) : DBCall Webhook
  | CallSetOrganizationWebhookFirstSeenAt (secretID : string) : DBCall time.Time
  | CallGetSummary : DBCall (list SummaryEntry)
  | CallListTeamMemberships : DBCall (list TeamMembership).

(** An implementation with states [S]. *)
Class DBImpl (S : Type) := call : forall {A}, DBCall A -> M S error A.

(** * The in-memory implementation *)

Section memory.
Context `{GoRange} (fuel : nat) (bcrypt_generate : string -> Z -> error + string).

Definition memory : DBImpl DB := fun A c =>
  match c in DBCall A return Op A with
  | CallCreateUser email details => CreateUser email details
  | CallUpdateUser userID update => UpdateUser userID update
  | CallDeleteUser userID actingID => DeleteUser userID actingID
  | CallFindUserByID id => FindUserByID id
  | CallFindUserByEmail email => FindUserByEmail email
  | CallFindUserByLogin provider id => FindUserByLogin provider id
  | CallUserIsMemberOf userID orgExternalID => UserIsMemberOf userID orgExternalID
  | CallAddLoginToUser userID provider id session => AddLoginToUser userID provider id session
  | CallGetLogin provider id => GetLogin provider id
  | CallDetachLoginFromUser userID provider => DetachLoginFromUser userID provider
  | CallInviteUserToTeam email teamExternalID roleID => InviteUserToTeam email teamExternalID roleID
  | CallRemoveUserFromOrganization orgExternalID email => RemoveUserFromOrganization orgExternalID email
  | CallRemoveUserFromTeam userID teamID => RemoveUserFromTeam userID teamID
  | CallListUsers f page => ListUsers f page
  | CallListOrganizations f page => ListOrganizations f page
  | CallListAllOrganizations f orderBy page => ListAllOrganizations f orderBy page
  | CallListOrganizationUsers orgExternalID deleted new => ListOrganizationUsers orgExternalID deleted new
  | CallListOrganizationsInTeam teamID => ListOrganizationsInTeam teamID
  | CallListOrganizationsForUserIDs userIDs => ListOrganizationsForUserIDs userIDs
  | CallListAllOrganizationsForUserIDs orderBy userIDs => ListAllOrganizationsForUserIDs orderBy userIDs
  | CallListLoginsForUserIDs userIDs => ListLoginsForUserIDs userIDs
  | CallSetUserAdmin id value => SetUserAdmin id value
  | CallSetUserToken id token => SetUserToken bcrypt_generate id token
  | CallSetUserLastLoginAt id => SetUserLastLoginAt id
  | CallGenerateOrganizationExternalID => GenerateOrganizationExternalID fuel
  | CallFindUncleanedOrgIDs => FindUncleanedOrgIDs
  | CallFindOrganizationByProbeToken probeToken => FindOrganizationByProbeToken probeToken
  | CallFindOrganizationByID externalID => FindOrganizationByID externalID
  | CallFindOrganizationByGCPExternalAccountID a => FindOrganizationByGCPExternalAccountID a
  | CallFindOrganizationByInternalID internalID => FindOrganizationByInternalID internalID
  | CallUpdateOrganization externalID update => UpdateOrganization externalID update
  | CallOrganizationExists externalID => OrganizationExists externalID
  | CallExternalIDUsed externalID => ExternalIDUsed externalID
  | CallGetOrganizationName externalID => GetOrganizationName externalID
  | CallDeleteOrganization externalID actingID => DeleteOrganization externalID actingID
  | CallAddFeatureFlag externalID featureFlag => AddFeatureFlag externalID featureFlag
  | CallSetOrganizationCleanup internalID value => SetOrganizationCleanup internalID value
  | CallSetFeatureFlags externalID featureFlags => SetFeatureFlags externalID featureFlags
  | CallSetOrganizationRefuseDataAccess externalID value => SetOrganizationRefuseDataAccess externalID value
  | CallSetOrganizationRefuseDataUpload externalID value => SetOrganizationRefuseDataUpload externalID value
  | CallSetOrganizationRefuseDataReason externalID reason => SetOrganizationRefuseDataReason externalID reason
  | CallSetOrganizationFirstSeenConnectedAt externalID value => SetOrganizationFirstSeenConnectedAt externalID value
  | CallSetOrganizationFirstSeenFluxConnectedAt externalID value => SetOrganizationFirstSeenFluxConnectedAt externalID value
  | CallSetOrganizationFirstSeenNetConnectedAt externalID value => SetOrganizationFirstSeenNetConnectedAt externalID value
  | CallSetOrganizationFirstSeenPromConnectedAt externalID value => SetOrganizationFirstSeenPromConnectedAt externalID value
  | CallSetOrganizationFirstSeenScopeConnectedAt externalID value => SetOrganizationFirstSeenScopeConnectedAt externalID value
  | CallSetOrganizationZuoraAccount externalID number createdAt => SetOrganizationZuoraAccount externalID number createdAt
  | CallSetOrganizationPlatformVersion externalID v => SetOrganizationPlatformVersion externalID v
  | CallSetLastSentWeeklyReportAt externalID sentAt => SetLastSentWeeklyReportAt externalID sentAt
  | CallMoveOrganizationToTeam externalID te tn userID => MoveOrganizationToTeam fuel externalID te tn userID
  | CallCreateOrganizationWithGCP ownerID a expires => CreateOrganizationWithGCP fuel ownerID a expires
  | CallFindGCP a => FindGCP a
  | CallUpdateGCP a consumerID name level status => UpdateGCP a consumerID name level status
  | CallSetOrganizationGCP externalID a => SetOrganizationGCP externalID a
  | CallListTeams _ => ListTeams
  | CallListAllTeams f _ _ => ListAllTeams f
  | CallListTeamsForUserID userID => ListTeamsForUserID userID
  | CallListTeamUsersWithRoles teamID => ListTeamUsersWithRoles teamID
  | CallListTeamUsers teamID => ListTeamUsers teamID
  | CallListRoles => ListRoles
  | CallListPermissionsForRoleID roleID => ListPermissionsForRoleID roleID
  | CallGetUserRoleInTeam userID teamID => GetUserRoleInTeam userID teamID
  | CallUpdateUserRoleInTeam userID teamID roleID => UpdateUserRoleInTeam userID teamID roleID
  | CallFindTeamByExternalID externalID => FindTeamByExternalID externalID
  | CallFindTeamByInternalID internalID => FindTeamByInternalID internalID
  | CallCreateTeam name => CreateTeam fuel name
  | CallAddUserToTeam userID teamID roleID => AddUserToTeam userID teamID roleID
  | CallDeleteTeam teamID => DeleteTeam teamID
  | CallCreateOrganizationWithTeam ownerID externalID name token te tn expires =>
      do o <- CreateOrganizationWithTeam fuel ownerID externalID name token te tn expires; loaded o
  | CallListOrganizationWebhooks orgExternalID => ListOrganizationWebhooks orgExternalID
  | CallCreateOrganizationWebhook orgExternalID t => CreateOrganizationWebhook orgExternalID t
  | CallDeleteOrganizationWebhook orgExternalID secretID => DeleteOrganizationWebhook orgExternalID secretID
  | CallFindOrganizationWebhookBySecretID secretID => FindOrganizationWebhookBySecretID secretID
  | CallSetOrganizationWebhookFirstSeenAt secretID => SetOrganizationWebhookFirstSeenAt secretID
  | CallGetSummary => GetSummary
  | CallListTeamMemberships => ListTeamMemberships
  end.

(** Calls one after the other, by any clients. *)
Inductive step : DB -> DB -> Prop :=
  | step_call A (c : DBCall A) d : step d (memory A c d).2.

End memory.
