(* ===== verification/MemInv.v ===== *)
(** The invariant of the in-memory users database, and that every operation keeps
    it. *)
From Stdlib Require Import ZArith Lia Ascii String.
From stdpp Require Import base tactics option gmap strings list pretty.
From S2P Require Import Prelude GoStd Users Filter MemDB MemTeam MemOrg MemUser.

(** * The invariant *)

Definition keyed {V} (id : V -> string) (m : gmap string V) : Prop :=
  map_Forall (fun k v => id v = k) m.

(** No two organizations of the two maps share an external id, whatever the case. *)
Definition unique_ids (os ds : gmap string OrgCell) : Prop :=
  (forall k1 k2 o1 o2, os !! k1 = Some o1 -> os !! k2 = Some o2 ->
     same_id (o_ExternalID o1) (o_ExternalID o2) = true -> k1 = k2) /\
  (forall k1 k2 o1 o2, ds !! k1 = Some o1 -> ds !! k2 = Some o2 ->
     same_id (o_ExternalID o1) (o_ExternalID o2) = true -> k1 = k2) /\
  (forall k1 k2 o1 o2, os !! k1 = Some o1 -> ds !! k2 = Some o2 ->
     same_id (o_ExternalID o1) (o_ExternalID o2) = false).

Definition unique_tokens (os : gmap string OrgCell) : Prop :=
  forall k1 k2 o1 o2, os !! k1 = Some o1 -> os !! k2 = Some o2 ->
    o_ProbeToken o1 = o_ProbeToken o2 -> k1 = k2.

Definition teams_exist (os : gmap string OrgCell) (ts : gmap string Team) : Prop :=
  map_Forall (fun _ o => is_Some (ts !! o_TeamID o)) os.

Definition gcp_valid (h : gmap loc GoogleCloudPlatform) (os : gmap string OrgCell) : Prop :=
  map_Forall (fun _ o => forall l, o_GCP o = Some l -> is_Some (h !! l)) os.

Definition heap_dense (h : gmap loc GoogleCloudPlatform) : Prop :=
  forall l, is_Some (h !! l) <-> (l < size h)%nat.

(** Accounts are found under their external ids, and only there. *)
Definition accounts_valid (h : gmap loc GoogleCloudPlatform) (acc : gmap string loc) : Prop :=
  map_Forall (fun a l => exists g, h !! l = Some g /\ g_ExternalAccountID g = a) acc /\
  map_Forall (fun l g => acc !! g_ExternalAccountID g = Some l) h.

Definition orgs_inv (d : DB) : Prop :=
  keyed o_ID (organizations d) /\ keyed o_ID (deletedOrganizations d) /\
  unique_ids (organizations d) (deletedOrganizations d) /\
  unique_tokens (organizations d) /\
  teams_exist (organizations d) (teams d).

Definition gcp_inv (d : DB) : Prop :=
  gcp_valid (gcp_heap d) (organizations d) /\ gcp_valid (gcp_heap d) (deletedOrganizations d) /\
  heap_dense (gcp_heap d) /\ accounts_valid (gcp_heap d) (gcpAccounts d).

(** The key [AddLoginToUser] stores a login under. *)
Definition login_key (l : Login) : string := l_Provider l +:+ "-" +:+ l_ProviderID l.

(** Roles and permissions are those [New] puts there. *)
Definition catalogue (d : DB) : Prop :=
  roles d = default_roles /\ permissions d = default_permissions /\
  rolesPermissions d = default_rolesPermissions.

Definition users_inv (d : DB) : Prop :=
  keyed u_ID (users d) /\ keyed login_key (logins d) /\ catalogue d.

Definition Inv (d : DB) : Prop :=
  users_inv d /\ keyed t_ID (teams d) /\ orgs_inv d /\ gcp_inv d.

(** * The primitive changes *)

Lemma same_id_refl a : same_id a a = true.
Proof. by apply bool_decide_eq_true_2. Qed.

Lemma same_id_sym a b : same_id a b = same_id b a.
Proof. unfold same_id. apply bool_decide_ext. naive_solver. Qed.

Lemma same_id_trans a b c : same_id a b = true -> same_id b c = true -> same_id a c = true.
Proof. unfold same_id. rewrite !bool_decide_eq_true. congruence. Qed.

Lemma keyed_insert {V} (id : V -> string) m v : keyed id m -> keyed id (<[id v := v]> m).
Proof. intros Hm. by apply map_Forall_insert_2. Qed.

Lemma keyed_update {V} (id : V -> string) m k v :
  keyed id m -> id v = k -> keyed id (<[k := v]> m).
Proof. intros Hm <-. by apply keyed_insert. Qed.

Lemma keyed_delete {V} (id : V -> string) m k : keyed id m -> keyed id (delete k m).
Proof. apply map_Forall_delete. Qed.

(** An update that keeps what identifies an organization. *)
Definition same_identity (o o' : OrgCell) : Prop :=
  o_ID o' = o_ID o /\ o_ExternalID o' = o_ExternalID o /\ o_ProbeToken o' = o_ProbeToken o.

Lemma lookup_insert_inv {V} (m : gmap string V) k v k' v' :
  <[k := v]> m !! k' = Some v' -> (k = k' /\ v' = v) \/ (k <> k' /\ m !! k' = Some v').
Proof.
  destruct (decide (k = k')) as [->|]; [rewrite lookup_insert_eq | rewrite lookup_insert_ne by done];
    naive_solver.
Qed.

Lemma unique_ids_update os ds k o o' :
  unique_ids os ds -> os !! k = Some o -> same_identity o o' -> unique_ids (<[k := o']> os) ds.
Proof.
  intros (H1 & H2 & H3) Hk (_ & He & _). split; [|split; [done|]].
  - intros k1 k2 o1 o2 [[-> ->]|[? Ho1]]%lookup_insert_inv [[-> ->]|[? Ho2]]%lookup_insert_inv Hs;
      rewrite ?He in Hs; eauto.
  - intros k1 k2 o1 o2 [[-> ->]|[? Ho1]]%lookup_insert_inv Ho2; rewrite ?He; eauto.
Qed.

Lemma unique_tokens_update os k o o' :
  unique_tokens os -> os !! k = Some o -> same_identity o o' -> unique_tokens (<[k := o']> os).
Proof.
  intros H1 Hk (_ & _ & Ht).
  intros k1 k2 o1 o2 [[-> ->]|[? Ho1]]%lookup_insert_inv [[-> ->]|[? Ho2]]%lookup_insert_inv Hs;
    rewrite ?Ht in Hs; eauto.
Qed.

(** Replacing one live organization in place. *)
Lemma Inv_update_org d k o o' :
  Inv d -> organizations d !! k = Some o -> same_identity o o' ->
  is_Some (teams d !! o_TeamID o') ->
  (forall l, o_GCP o' = Some l -> is_Some (gcp_heap d !! l)) ->
  Inv (set_organizations (<[k := o']> (organizations d)) d).
Proof.
  intros (Hu & Ht & (Ho & Hd & Hi & Hk & Hr) & (Hg1 & Hg2 & Hh & Ha)) Hko Hid Hteam Hgcp.
  split; [done|]. split; [done|]. split; [split_and!|split_and!]; simpl; try done.
  - apply keyed_update; [done|]. destruct Hid as (-> & _). by apply Ho.
  - by eapply unique_ids_update.
  - by eapply unique_tokens_update.
  - by apply map_Forall_insert_2.
  - by apply map_Forall_insert_2.
Qed.

(** Adding a live organization whose external id and token nobody has; it may replace
    an organization with the same key. *)
Lemma Inv_insert_org d o :
  Inv d ->
  (forall k o', organizations d !! k = Some o' -> same_id (o_ExternalID o') (o_ExternalID o) = false) ->
  (forall k o', deletedOrganizations d !! k = Some o' -> same_id (o_ExternalID o') (o_ExternalID o) = false) ->
  (forall k o', organizations d !! k = Some o' -> o_ProbeToken o' <> o_ProbeToken o) ->
  is_Some (teams d !! o_TeamID o) -> o_GCP o = None ->
  Inv (set_organizations (<[o_ID o := o]> (organizations d)) d).
Proof.
  intros (Hu & Ht & (Ho & Hd & (Hi1 & Hi2 & Hi3) & Hk & Hr) & (Hg1 & Hg2 & Hh & Ha)) Hn1 Hn2 Hn3 Hteam Hgcp.
  split; [done|]. split; [done|]. split; [split_and!|split_and!]; simpl; try done.
  - by apply keyed_insert.
  - split; [|split; [done|]].
    + intros k1 k2 o1 o2 [[? ->]|[? Ho1]]%lookup_insert_inv [[? ->]|[? Ho2]]%lookup_insert_inv Hs;
        [congruence | | | by eauto].
      * rewrite same_id_sym, (Hn1 _ _ Ho2) in Hs. done.
      * rewrite (Hn1 _ _ Ho1) in Hs. done.
    + intros k1 k2 o1 o2 [[? ->]|[? Ho1]]%lookup_insert_inv Ho2; [rewrite same_id_sym|]; eauto.
  - intros k1 k2 o1 o2 [[? ->]|[? Ho1]]%lookup_insert_inv [[? ->]|[? Ho2]]%lookup_insert_inv Hs;
      [congruence | | | by eauto]; exfalso.
    + by apply (Hn3 _ _ Ho2).
    + by apply (Hn3 _ _ Ho1).
  - by apply map_Forall_insert_2.
  - apply map_Forall_insert_2; [|done]. intros l. rewrite Hgcp. done.
Qed.

(** Moving a live organization to the deleted ones. *)
Definition move_to_deleted (o : OrgCell) (d : DB) : DB :=
  set_organizations (delete (o_ID o) (organizations d))
    (set_deletedOrganizations (<[o_ID o := o]> (deletedOrganizations d)) d).

Lemma Inv_move_to_deleted d k o :
  Inv d -> organizations d !! k = Some o -> Inv (move_to_deleted o d).
Proof.
  intros (Hu & Ht & (Ho & Hd & (Hi1 & Hi2 & Hi3) & Hk & Hr) & (Hg1 & Hg2 & Hh & Ha)) Hko.
  pose proof (Ho _ _ Hko) as Hid. simpl in Hid. subst k.
  split; [done|]. split; [done|]. split; [split_and!|split_and!]; simpl; try done.
  - by apply keyed_delete.
  - by apply keyed_insert.
  - split; [|split].
    + intros k1 k2 o1 o2 [? Ho1]%lookup_delete_Some [? Ho2]%lookup_delete_Some. eauto.
    + intros k1 k2 o1 o2 [[? ->]|[? Ho1]]%lookup_insert_inv [[? ->]|[? Ho2]]%lookup_insert_inv Hs;
        [congruence | | | by eauto].
      * rewrite (Hi3 _ _ _ _ Hko Ho2) in Hs. done.
      * rewrite same_id_sym, (Hi3 _ _ _ _ Hko Ho1) in Hs. done.
    + intros k1 k2 o1 o2 [? Ho1]%lookup_delete_Some [[? ->]|[? Ho2]]%lookup_insert_inv; [|by eauto].
      apply not_true_iff_false. intros Hs. by pose proof (Hi1 _ _ _ _ Ho1 Hko Hs).
  - intros k1 k2 o1 o2 [? Ho1]%lookup_delete_Some [? Ho2]%lookup_delete_Some. eauto.
  - by apply map_Forall_delete.
  - by apply map_Forall_delete.
  - apply map_Forall_insert_2; [|done]. by apply (Hg1 _ _ Hko).
Qed.

Lemma Inv_insert_team d t : Inv d -> Inv (set_teams (<[t_ID t := t]> (teams d)) d).
Proof.
  intros (Hu & Ht & (Ho & Hd & Hi & Hk & Hr) & Hg).
  split; [done|]. split; [by apply keyed_insert|]. split; [|done]. split_and!; try done. simpl.
  intros k o Hko. destruct (decide (t_ID t = o_TeamID o)) as [->|];
    [by rewrite lookup_insert_eq | rewrite lookup_insert_ne by done; by apply (Hr k)].
Qed.

Lemma Inv_delete_team d teamID :
  Inv d -> (forall k o, organizations d !! k = Some o -> o_TeamID o <> teamID) ->
  Inv (set_teams (delete teamID (teams d)) d).
Proof.
  intros (Hu & Ht & (Ho & Hd & Hi & Hk & Hr) & Hg) Hno.
  split; [done|]. split; [by apply keyed_delete|]. split; [|done]. split_and!; try done. simpl.
  intros k o Hko. rewrite lookup_delete_ne by (intros ->; by apply (Hno k o)). by apply (Hr k).
Qed.

Lemma Inv_put_user d u : Inv d -> Inv (put_user (u_ID u) u d).
Proof. intros ([Hu Hl] & Hrest). split; [split; [by apply keyed_insert | done] | done]. Qed.

Lemma Inv_delete_user d id : Inv d -> Inv (set_users (delete id (users d)) d).
Proof. intros ([Hu Hl] & Hrest). split; [split; [by apply keyed_delete | done] | done]. Qed.

Lemma Inv_put_login d l : Inv d -> Inv (set_logins (<[login_key l := l]> (logins d)) d).
Proof. intros ((Hu & Hl & Hc) & Hrest). split; [split_and!; [done | by apply keyed_insert | done..] | done]. Qed.

Lemma Inv_filter_logins d (P : string * Login -> Prop) `{!forall x, Decision (P x)} :
  Inv d -> Inv (set_logins (filter P (logins d)) d).
Proof.
  intros ((Hu & Hl & Hc) & Hrest). split; [split; [done|split; [|done]] | done].
  intros k l [Hk _]%map_lookup_filter_Some. by apply Hl.
Qed.

(** A new GCP account at the next address. *)
Lemma Inv_alloc_gcp d g :
  Inv d -> gcpAccounts d !! g_ExternalAccountID g = None ->
  Inv (set_gcpAccounts (<[g_ExternalAccountID g := size (gcp_heap d)]> (gcpAccounts d))
        (set_gcp_heap (<[size (gcp_heap d) := g]> (gcp_heap d)) d)).
Proof.
  intros (Hu & Ht & Ho & (Hg1 & Hg2 & Hh & (Ha & Hc))) Hnew. split_and!; try apply Ho; try done.
  assert (Hfresh : gcp_heap d !! size (gcp_heap d) = None).
  { apply eq_None_not_Some. intros Hs%Hh. lia. }
  assert (Hgrow : forall l, is_Some (gcp_heap d !! l) -> is_Some (<[size (gcp_heap d) := g]> (gcp_heap d) !! l)).
  { intros l. destruct (decide (size (gcp_heap d) = l)) as [->|];
      [by rewrite lookup_insert_eq | by rewrite lookup_insert_ne]. }
  unfold gcp_inv, accounts_valid. split_and!; simpl.
  - intros k o Hk l Hl. by apply Hgrow, (Hg1 _ _ Hk).
  - intros k o Hk l Hl. by apply Hgrow, (Hg2 _ _ Hk).
  - intros l. rewrite map_size_insert_None by done.
    destruct (decide (size (gcp_heap d) = l)) as [->|].
    + rewrite lookup_insert_eq. split; [lia|by intros _].
    + rewrite lookup_insert_ne by done. rewrite (Hh l). lia.
  - apply map_Forall_insert_2; [exists g; by rewrite lookup_insert_eq|].
    intros a l Hl. destruct (Ha _ _ Hl) as (g' & Hg' & He). exists g'. split; [|done].
    rewrite lookup_insert_ne; [done|]. intros Heq. subst l. congruence.
  - apply map_Forall_insert_2; [by rewrite lookup_insert_eq|]. intros l g' Hl.
    rewrite lookup_insert_ne; [by apply Hc|]. intros Heq. rewrite Heq, (Hc _ _ Hl) in Hnew. done.
Qed.

(** A change of an account through its address; the account keeps its external id. *)
Lemma Inv_update_gcp d a l g g' :
  Inv d -> gcp_heap d !! l = Some g -> gcpAccounts d !! a = Some l ->
  g_ExternalAccountID g' = g_ExternalAccountID g ->
  Inv (set_gcpAccounts (<[a := l]> (gcpAccounts d)) (set_gcp_heap (<[l := g']> (gcp_heap d)) d)).
Proof.
  intros (Hu & Ht & Ho & (Hg1 & Hg2 & Hh & (Ha & Hc))) Hl Hacc He.
  assert (Hdom : forall l', is_Some (<[l := g']> (gcp_heap d) !! l') <-> is_Some (gcp_heap d !! l')).
  { intros l'. destruct (decide (l = l')) as [->|];
      [rewrite lookup_insert_eq, Hl; split; by eexists | by rewrite lookup_insert_ne]. }
  split_and!; try apply Ho; try done. unfold gcp_inv, accounts_valid. split_and!; simpl.
  - intros k o Hk l' Hl'. by apply Hdom, (Hg1 _ _ Hk).
  - intros k o Hk l' Hl'. by apply Hdom, (Hg2 _ _ Hk).
  - intros l'. rewrite Hdom, map_size_insert_Some by (by eexists). apply Hh.
  - rewrite (insert_id (gcpAccounts d)) by done. intros a' l' Hl'.
    destruct (Ha _ _ Hl') as (g0 & Hg0 & He0). destruct (decide (l = l')) as [<-|].
    + exists g'. rewrite lookup_insert_eq. split; [done|]. congruence.
    + exists g0. by rewrite lookup_insert_ne.
  - rewrite (insert_id (gcpAccounts d)) by done. apply map_Forall_insert_2; [|exact Hc].
    rewrite He. by apply Hc.
Qed.

Lemma Inv_New cost e : Inv (New cost e).
Proof.
  split; [split_and!; [apply map_Forall_empty..|done|done|done]|]. split; [apply map_Forall_empty|].
  unfold orgs_inv, gcp_inv, accounts_valid, unique_ids, unique_tokens.
  split_and!; try apply map_Forall_empty; try (intros ? ? ? ? H; simpl in H; by rewrite lookup_empty in H).
  intros l. simpl. rewrite lookup_empty, map_size_empty. split; [by intros []|lia].
Qed.

(** * Every operation keeps the invariant *)

(** The parts of the state the invariant does not speak about. *)
Lemma Inv_set_mutex b d : Inv d -> Inv (set_mtx b d).
Proof. done. Qed.
Lemma Inv_set_env e d : Inv d -> Inv (set_env e d).
Proof. done. Qed.
Lemma Inv_set_memberships v d : Inv d -> Inv (set_teamMemberships v d).
Proof. done. Qed.
Lemma Inv_set_webhooks v d : Inv d -> Inv (set_webhooks v d).
Proof. done. Qed.
Create HintDb inv.
#[export] Hint Resolve Inv_set_mutex Inv_set_env Inv_set_memberships Inv_put_login Inv_filter_logins
  Inv_set_webhooks Inv_insert_team Inv_put_user Inv_delete_user : inv.

Section keeps_inv.
Context `{GoRange}.

(** [read_env] is the only access to the environment. *)
Lemma preserves_read_env {A} (f : Env -> nat -> A) : preserves Inv (read_env f).
Proof. intros d Hd. exact Hd. Qed.

Lemma preserves_tokens_Generate : preserves Inv tokens_Generate.
Proof. unfold tokens_Generate. auto using preserves_read_env with go. Qed.

Lemma preserves_locked_Inv {A} (m : Op A) : preserves Inv m -> preserves Inv (locked m).
Proof. apply preserves_locked. auto with inv. Qed.

Lemma find_ext_Ret e d k o d' :
  findOrganizationByExternalID e d = (Ret (k, o), d') ->
  d' = d /\ organizations d !! k = Some o /\ same_id (o_ExternalID o) e = true.
Proof.
  unfold findOrganizationByExternalID, gets, bind. simpl.
  intros [[Hk Hs]%first_entry_Some ->]%or_else_Ret. done.
Qed.

Lemma find_ext_Err e d err d' :
  findOrganizationByExternalID e d = (Err err, d') ->
  d' = d /\ err = ErrNotFound /\
  forall k o, organizations d !! k = Some o -> same_id (o_ExternalID o) e = false.
Proof.
  unfold findOrganizationByExternalID, gets, bind. simpl.
  destruct (first_entry _ _) eqn:Hf; unfold or_else, ret, throw; [done|].
  intros [= <- <-]. split; [done|]. split; [done|]. by apply first_entry_None.
Qed.

Lemma find_ext_cases e d :
  (exists k o, findOrganizationByExternalID e d = (Ret (k, o), d)) \/
  findOrganizationByExternalID e d = (Err ErrNotFound, d).
Proof.
  unfold findOrganizationByExternalID, gets, bind. simpl.
  destruct (first_entry _ _) as [[k o]|]; [left; by exists k, o | by right].
Qed.

Lemma reader_organizationExists e b : reader (organizationExists e b).
Proof.
  intros d. unfold organizationExists, bind, try.
  by destruct (find_ext_cases e d) as [(k & o & ->)| ->].
Qed.

Lemma organizationExists_eq e b d :
  organizationExists e b d =
  (Ret (bool_decide (is_Some (first_entry (fun o => same_id (o_ExternalID o) e) (organizations d)))
     || b && bool_decide (is_Some (first_entry (fun o => same_id (o_ExternalID o) e) (deletedOrganizations d)))), d).
Proof.
  unfold organizationExists, findOrganizationByExternalID, bind, try, gets, ret. simpl.
  by destruct (first_entry (fun o => same_id (o_ExternalID o) e) (organizations d)) as [p|].
Qed.

Lemma organizationExists_false e d :
  organizationExists e true d = (Ret false, d) ->
  (forall k o, organizations d !! k = Some o -> same_id (o_ExternalID o) e = false) /\
  (forall k o, deletedOrganizations d !! k = Some o -> same_id (o_ExternalID o) e = false).
Proof.
  rewrite organizationExists_eq. intros [= [Ho Hd]%orb_false_iff]. simpl in Hd.
  rewrite bool_decide_eq_false, <- eq_None_not_Some in Ho, Hd.
  rewrite first_entry_None in Ho, Hd. done.
Qed.

(** Changes of one organization that keep who it is. *)
Definition keeps_org (f : OrgCell -> OrgCell * option error) : Prop := forall o,
  same_identity o (f o).1 /\ o_TeamID (f o).1 = o_TeamID o /\ o_GCP (f o).1 = o_GCP o.

Lemma Inv_org_team d k o : Inv d -> organizations d !! k = Some o -> is_Some (teams d !! o_TeamID o).
Proof. intros (_ & _ & (_ & _ & _ & _ & Hr) & _) Hk. by apply (Hr k). Qed.

Lemma Inv_org_gcp d k o l :
  Inv d -> organizations d !! k = Some o -> o_GCP o = Some l -> is_Some (gcp_heap d !! l).
Proof. intros (_ & _ & _ & (Hg & _)) Hk. by apply (Hg k). Qed.

Lemma changeOrg_Inv e f d :
  Inv d ->
  (forall k o, organizations d !! k = Some o ->
     same_identity o (f o).1 /\ is_Some (teams d !! o_TeamID (f o).1) /\
     (forall l, o_GCP (f o).1 = Some l -> is_Some (gcp_heap d !! l))) ->
  Inv (changeOrg e f d).2.
Proof.
  intros Hd Hf. unfold changeOrg.
  assert (Hbody : Inv ((do ' (k, o) <- findOrganizationByExternalID e;
    let '(o', err) := f o in
    modify (fun d => set_organizations (<[k := o']> (organizations d)) d) ;;;
    match err with Some e => throw e | None => ret o' end) (set_mtx true d)).2).
  { apply keeps_bind_reader; [apply reader_findOrganizationByExternalID|done|].
    intros [k o] (_ & Hk & _)%find_ext_Ret. simpl in Hk.
    destruct (Hf k o Hk) as (Hid & Ht & Hg). destruct (f o) as [o' err]. simpl in *.
    unfold bind, modify. simpl.
    assert (Inv (set_organizations (<[k := o']> (organizations d)) (set_mutex true d)))
      by by eapply (Inv_update_org (set_mutex true d)).
    by destruct err. }
  unfold locked. destruct (mtx_held d); [done|].
  match goal with |- context [?m (set_mtx true d)] => destruct (m (set_mtx true d)) as [[] d'] end;
    exact Hbody.
Qed.

Lemma preserves_changeOrg e f : keeps_org f -> preserves Inv (changeOrg e f).
Proof.
  intros Hf d Hd. apply changeOrg_Inv; [done|]. intros k o Hk.
  destruct (Hf o) as (Hid & Ht & Hg). rewrite Ht, Hg. split; [done|].
  split; [by eapply Inv_org_team | by eauto using Inv_org_gcp].
Qed.

Lemma preserves_setOrg e f : keeps_org (fun o => (f o, None)) -> preserves Inv (setOrg e f).
Proof. intros Hf. unfold setOrg. auto using preserves_changeOrg with go. Qed.

Lemma keeps_apply_update update : keeps_org (fun o => let o := apply_update update o in (o, Valid o)).
Proof.
  intros o. unfold apply_update. destruct update as [[] [] [] [] ? ? [] []]; split_and!; done.
Qed.

Lemma preserves_FindTeamByExternalID e : preserves Inv (FindTeamByExternalID e).
Proof. unfold FindTeamByExternalID. auto with go. Qed.

Lemma preserves_generateTeamExternalID n : preserves Inv (generateTeamExternalID_loop n).
Proof.
  induction n as [|n IH]; simpl; [apply preserves_out_of_fuel|].
  apply preserves_bind; [apply preserves_read_env|]. intros ext.
  apply preserves_bind; [apply preserves_gets|]. intros ts.
  repeat case_match; auto with go.
Qed.

Lemma preserves_AddUserToTeam u t r : preserves Inv (AddUserToTeam u t r).
Proof.
  unfold AddUserToTeam. apply preserves_bind; [apply preserves_gets|]. intros ms.
  case_match; [apply preserves_ret|]. apply preserves_modify. auto with inv.
Qed.

Lemma preserves_CreateTeam fuel name : preserves Inv (CreateTeam fuel name).
Proof.
  unfold CreateTeam. case_match; [apply preserves_throw|].
  apply preserves_bind; [apply preserves_read_env|]. intros now.
  apply preserves_bind; [apply preserves_gets|]. intros size.
  apply preserves_bind; [apply preserves_generateTeamExternalID|]. intros ext.
  apply preserves_bind; [|intros; apply preserves_ret].
  apply preserves_modify. intros d Hd. by apply (Inv_insert_team d (mkTeam _ _ _ _ _ _ _ _ _ _)).
Qed.

Lemma preserves_CreateTeamAsUser fuel name u : preserves Inv (CreateTeamAsUser fuel name u).
Proof.
  unfold CreateTeamAsUser. eauto using preserves_CreateTeam, preserves_AddUserToTeam with go.
Qed.

Lemma existsb_team_false os teamID :
  existsb (fun ko : string * OrgCell => bool_decide (o_TeamID ko.2 = teamID)) (go_range os) = false ->
  forall k o, os !! k = Some o -> o_TeamID o <> teamID.
Proof.
  intros Hn k o Hk%elem_of_go_range%list_elem_of_In Ht.
  apply not_true_iff_false in Hn. apply Hn, existsb_exists. exists (k, o). split; [done|].
  by apply bool_decide_eq_true_2.
Qed.

Lemma preserves_DeleteTeam t : preserves Inv (DeleteTeam t).
Proof.
  intros d Hd. unfold DeleteTeam, bind, gets. simpl.
  destruct (existsb _ _) eqn:He; [done|]. simpl.
  pose proof (existsb_team_false _ _ He) as Hno.
  apply (Inv_delete_team (set_teamMemberships (delete t <$> teamMemberships d) d)); done.
Qed.

Lemma preserves_findUserByID id : preserves Inv (findUserByID id).
Proof. unfold findUserByID. auto with go. Qed.

Lemma preserves_findUserByEmail e : preserves Inv (findUserByEmail e).
Proof. unfold findUserByEmail. auto with go. Qed.

Lemma preserves_find_team_by_name ts n l : preserves Inv (find_team_by_name ts n l).
Proof.
  induction l as [|id l IH]; simpl; [apply preserves_ret|].
  apply preserves_bind; [apply preserves_deref|]. intros t. case_match; auto with go.
Qed.

Lemma preserves_ensureUserIsPartOfTeamByName fuel u n :
  preserves Inv (ensureUserIsPartOfTeamByName fuel u n).
Proof.
  unfold ensureUserIsPartOfTeamByName. case_match; [apply preserves_throw|].
  repeat (apply preserves_bind; [auto using preserves_find_team_by_name with go|intros]).
  case_match; auto using preserves_CreateTeamAsUser with go.
Qed.

End keeps_inv.
