(* ===== verification/MemSafety.v ===== *)
(** Every operation of the in-memory users database keeps its invariant and uses its mutex properly: the database as
    a transition system, in which no call of the interface blocks on a mutex it holds itself, and each gives it back. *)
From Stdlib Require Import ZArith Lia Ascii String.
From stdpp Require Import base tactics option gmap strings list pretty relations.
From S2P Require Import Prelude GoStd Users Filter MemDB MemTeam MemOrg MemUser UsersDB MemInv.

Lemma preserves_Now : preserves Inv Now.
Proof. apply preserves_read_env. Qed.

Create HintDb inv_op.
#[export] Hint Resolve preserves_Now : inv_op.
#[export] Hint Resolve preserves_findUserByID preserves_findUserByEmail
  preserves_FindTeamByExternalID preserves_tokens_Generate preserves_AddUserToTeam
  preserves_CreateTeam preserves_CreateTeamAsUser preserves_DeleteTeam
  preserves_ensureUserIsPartOfTeamByName preserves_read_env : inv_op.

(** Walks through an operation call by call. *)
Ltac keep_inv :=
  repeat first
    [ solve [auto with inv_op]
    | apply preserves_setOrg; intros ?; solve [repeat split]
    | apply preserves_locked_Inv
    | apply preserves_bind; [|intros ?]
    | apply preserves_fold_m; intros ? ?
    | apply preserves_for_each; intros ?
    | apply preserves_try
    | apply preserves_ret | apply preserves_throw | apply preserves_panic
    | apply preserves_gets | apply preserves_get | apply preserves_deref | apply preserves_or_else
    | apply preserves_modify; solve [auto with inv]
    | case_match ].

(** Opens the operation the goal is about. *)
Ltac open_op :=
  match goal with
  | |- _ ?m =>
      let rec head t := lazymatch t with ?f _ => head f | _ => t end in
      let h := head m in unfold h
  end.

Section safety.
Context `{GoRange} (fuel : nat) (bcrypt_generate : string -> Z -> error + string).

Lemma preserves_find_ext e : preserves Inv (findOrganizationByExternalID e).
Proof. apply preserves_reader, reader_findOrganizationByExternalID. Qed.
Lemma preserves_organizationExists e b : preserves Inv (organizationExists e b).
Proof. apply preserves_reader, reader_organizationExists. Qed.
#[local] Hint Resolve preserves_find_ext preserves_organizationExists : inv_op.

(** ** Look-ups and listings *)

Lemma preserves_findUserByLogin p i : preserves Inv (findUserByLogin p i).
Proof. unfold findUserByLogin. keep_inv. Qed.
Lemma preserves_listTeamUsers t b : preserves Inv (listTeamUsers t b).
Proof. unfold listTeamUsers. keep_inv. Qed.
Lemma preserves_listTeamUsersWithRoles t : preserves Inv (listTeamUsersWithRoles t).
Proof. unfold listTeamUsersWithRoles. keep_inv. Qed.
Lemma preserves_listOrganizationUsers e a b : preserves Inv (listOrganizationUsers e a b).
Proof. unfold listOrganizationUsers. pose proof preserves_listTeamUsers. keep_inv; auto. Qed.
Lemma preserves_loaded o : preserves Inv (loaded o).
Proof. apply preserves_gets. Qed.
Lemma preserves_loaded_all l : preserves Inv (loaded_all l).
Proof. apply preserves_gets. Qed.
#[local] Hint Resolve preserves_findUserByLogin preserves_listTeamUsers
  preserves_listTeamUsersWithRoles preserves_listOrganizationUsers preserves_loaded
  preserves_loaded_all : inv_op.
Lemma preserves_matching_orgs f acc os : preserves Inv (matching_orgs f acc os).
Proof. unfold matching_orgs. keep_inv. Qed.
Lemma preserves_generate_external_id n : preserves Inv (generate_external_id n).
Proof.
  induction n as [|n IH]; simpl; [apply preserves_out_of_fuel|].
  apply preserves_bind; [apply preserves_read_env|intros e].
  apply preserves_bind; [apply preserves_organizationExists|].
  intros []; [exact IH|apply preserves_ret].
Qed.
Lemma preserves_find_org p : preserves Inv (find_org p).
Proof. unfold find_org. keep_inv. Qed.
Lemma preserves_gcp_at a : preserves Inv (gcp_at a).
Proof. unfold gcp_at. keep_inv. Qed.
#[local] Hint Resolve preserves_matching_orgs preserves_generate_external_id preserves_find_org
  preserves_gcp_at : inv_op.

(** ** Changes *)

Lemma preserves_put_found id (f : User -> User) :
  (forall u, u_ID (f u) = u_ID u) ->
  forall d u, Inv d -> users d !! id = Some u -> Inv (put_user id (f u) d).
Proof.
  intros Hf d u Hd Hu. destruct Hd as ([Hk Hl] & Hrest). pose proof (Hk _ _ Hu) as Hid. simpl in Hid.
  rewrite <- Hid, <- (Hf u). by apply Inv_put_user.
Qed.

Lemma preserves_change_user id f :
  (forall u, u_ID (f u) = u_ID u) -> preserves Inv (change_user id f).
Proof.
  intros Hf d Hd. unfold change_user, bind, gets. simpl.
  destruct (users d !! id) as [u|] eqn:Hu; simpl; [|done]. by apply preserves_put_found.
Qed.

Lemma preserves_assign_user id v f :
  (forall u, u_ID (f v u) = u_ID u) -> preserves Inv (assign_user id v f).
Proof.
  intros Hf. unfold assign_user. case_match; [apply preserves_ret|].
  intros d Hd. unfold bind, gets. simpl.
  destruct (users d !! id) as [u|] eqn:Hu; simpl; [|done]. by apply (preserves_put_found id (f v)).
Qed.

Lemma preserves_createUser email details : preserves Inv (createUser email details).
Proof.
  unfold createUser. apply preserves_bind; [apply preserves_gets|intros n].
  apply preserves_bind; [apply preserves_read_env|intros now].
  apply preserves_bind; [|intros; apply preserves_ret].
  apply preserves_modify. intros d Hd. by apply Inv_put_user.
Qed.

#[local] Hint Resolve preserves_createUser : inv_op.

Lemma preserves_DeleteOrganization e a : preserves Inv (DeleteOrganization e a).
Proof.
  apply preserves_locked_Inv. intros d Hd.
  apply keeps_bind_reader; [apply reader_try, reader_findOrganizationByExternalID|done|].
  intros [err|[k o]] Hr; [by case_decide|].
  apply try_inr, find_ext_Ret in Hr as (_ & Hk & _).
  unfold bind, modify. simpl. by eapply Inv_move_to_deleted.
Qed.

Lemma preserves_UpdateOrganization e u : preserves Inv (UpdateOrganization e u).
Proof.
  unfold UpdateOrganization. case_match; [apply preserves_throw|].
  apply preserves_bind; [apply preserves_changeOrg, keeps_apply_update | intros; apply preserves_gets].
Qed.

Lemma FindTeamByExternalID_Ret e d t d' :
  Inv d -> FindTeamByExternalID e d = (Ret t, d') -> d' = d /\ teams d !! t_ID t = Some t.
Proof.
  intros (_ & Hk & _). unfold FindTeamByExternalID, bind, gets. simpl.
  intros [(k & Hkt & _)%first_match_Some ->]%or_else_Ret. split; [done|].
  pose proof (Hk _ _ Hkt) as Hid. simpl in Hid. by rewrite Hid.
Qed.

Lemma CreateTeam_Ret name d t d' :
  CreateTeam fuel name d = (Ret t, d') -> teams d' !! t_ID t = Some t /\ t_Name t = name.
Proof.
  unfold CreateTeam. case_decide; [done|].
  intros (now & d1 & _ & H1)%bind_inv_Ret. apply bind_inv_Ret in H1 as (n & d2 & _ & H2).
  apply bind_inv_Ret in H2 as (ext & d3 & _ & H3).
  unfold bind, modify, ret in H3. simpl in H3. simplify_eq. simpl. by rewrite lookup_insert_eq.
Qed.

Lemma AddUserToTeam_teams u t r d : teams (AddUserToTeam u t r d).2 = teams d.
Proof. unfold AddUserToTeam, bind, gets. simpl. by case_decide. Qed.

Lemma AddUserToTeam_Ret u t r d : (AddUserToTeam u t r d).1 = Ret tt.
Proof. unfold AddUserToTeam, bind, gets. simpl. by case_decide. Qed.

Lemma CreateTeamAsUser_Ret name u d t d' :
  CreateTeamAsUser fuel name u d = (Ret t, d') -> teams d' !! t_ID t = Some t /\ t_Name t = name.
Proof.
  unfold CreateTeamAsUser. intros (t' & d1 & Ht & H1)%bind_inv_Ret.
  apply bind_inv_Ret in H1 as ([] & d2 & Ha & [= <- <-]).
  apply CreateTeam_Ret in Ht as [Ht ?].
  pose proof (AddUserToTeam_teams u (t_ID t') AdminRoleID d1) as Hts. rewrite Ha in Hts.
  simpl in Hts. by rewrite Hts.
Qed.

Lemma preserves_MoveOrganizationToTeam e te tn u :
  preserves Inv (MoveOrganizationToTeam fuel e te tn u).
Proof.
  intros d Hd. unfold MoveOrganizationToTeam.
  apply keeps_bind; [case_decide; [by apply preserves_FindTeamByExternalID | by apply preserves_CreateTeamAsUser]|].
  intros t d1 Ht Hd1.
  assert (Hteam : teams d1 !! t_ID t = Some t).
  { case_decide; [by apply FindTeamByExternalID_Ret in Ht as [-> ?] | by apply CreateTeamAsUser_Ret in Ht as [? _]]. }
  apply keeps_bind; [|intros ? ? _ Hi; exact Hi].
  apply changeOrg_Inv; [done|]. intros k o Hk. simpl. rewrite Hteam.
  split; [done|]. split; [by eexists|]. by eauto using Inv_org_gcp.
Qed.

Lemma gcp_at_Ret a d l g d' :
  gcp_at a d = (Ret (l, g), d') -> d' = d /\ gcpAccounts d !! a = Some l /\ gcp_heap d !! l = Some g.
Proof.
  unfold gcp_at, bind, get. simpl.
  destruct (gcpAccounts d !! a) as [l'|]; simpl; [|done].
  destruct (gcp_heap d !! l') as [g'|] eqn:Hg; simpl; [|done]. intros [= <- <- <-]. done.
Qed.

Lemma reader_gcp_at a : reader (gcp_at a).
Proof. unfold gcp_at. apply reader_bind; [by intros ?|]. intros d. auto with go. Qed.

Lemma preserves_UpdateGCP a c n lv st : preserves Inv (UpdateGCP a c n lv st).
Proof.
  apply preserves_locked_Inv. intros d Hd.
  apply keeps_bind_reader; [apply reader_gcp_at|done|].
  intros [l g] (_ & Ha & Hg)%gcp_at_Ret. unfold bind, modify. simpl.
  eapply (Inv_update_gcp d a l g); try done. simpl.
  destruct Hd as (_ & _ & _ & (_ & _ & _ & Hacc & _)). destruct (Hacc _ _ Ha) as (g' & ? & ?). congruence.
Qed.

Lemma preserves_createGCP a : preserves Inv (createGCP a).
Proof.
  apply preserves_locked_Inv. intros d Hd. unfold bind, get. simpl.
  case_decide as Hnew; [done|]. simpl.
  apply (Inv_alloc_gcp d (mkGCP (pretty (size (gcpAccounts d))) a false 0 EmptyString EmptyString EmptyString EmptyString) Hd).
  simpl. by apply eq_None_not_Some.
Qed.

Lemma preserves_SetOrganizationGCP e a : preserves Inv (SetOrganizationGCP e a).
Proof.
  apply preserves_locked_Inv. intros d Hd.
  apply keeps_bind_reader; [apply reader_findOrganizationByExternalID|done|].
  intros [k o] (_ & Hk & _)%find_ext_Ret. case_decide; [done|].
  unfold bind, gets, Now, read_env, modify. simpl.
  eapply (Inv_update_org (set_env _ d) k o); try done.
  - by case_match.
  - case_match; simpl; by eapply (Inv_org_team d).
  - intros l Hl. assert (Hl' : gcpAccounts d !! a = Some l) by by case_match.
    destruct Hd as (_ & _ & _ & (_ & _ & _ & Hacc & _)). destruct (Hacc _ _ Hl') as (g & Hg & _). by exists g.
Qed.

(** *** Creating an organization *)

Lemma getTeamUserIsPartOf_Ret u e d t d' :
  Inv d -> getTeamUserIsPartOf u e d = (Ret (Some t), d') -> d' = d /\ teams d !! t_ID t = Some t.
Proof.
  intros (_ & Hk & _). unfold getTeamUserIsPartOf. case_decide; [done|].
  unfold bind, gets. simpl.
  destruct (first_match (fun t0 => bool_decide (t_ExternalID t0 = e)) (teams d)) as [t0|] eqn:Hm; [|done].
  case_decide; [|done]. intros [= Ht <-]. split; [done|].
  pose proof (Hk _ _ Ht) as Hid. simpl in Hid. by rewrite Hid.
Qed.

Lemma reader_getTeamUserIsPartOf u e : reader (getTeamUserIsPartOf u e).
Proof.
  unfold getTeamUserIsPartOf. case_decide; [auto with go|].
  apply reader_bind; [auto with go|]. intros ts. case_match; [|auto with go].
  apply reader_bind; [auto with go|]. intros ms. case_decide; auto with go.
Qed.

Lemma reader_find_team_by_name ts n l : reader (find_team_by_name ts n l).
Proof.
  induction l as [|id l IH]; simpl; [auto with go|].
  apply reader_bind; [auto with go|]. intros t. case_decide; auto with go.
Qed.

Lemma find_team_by_name_Ret ts n l d t d' :
  find_team_by_name ts n l d = (Ret (Some t), d') ->
  exists id, id ∈ l /\ ts !! id = Some t /\ strings.ToLower n = strings.ToLower (t_Name t).
Proof.
  induction l as [|id l IH]; simpl; [done|].
  intros (t0 & d1 & [Ht0 ->]%deref_Ret & H1)%bind_inv_Ret. case_decide.
  - unfold ret in H1. simplify_eq. exists id. split; [by left|done].
  - destruct (IH H1) as (id' & ? & ?). exists id'. split; [by right|done].
Qed.

Lemma ensureUserIsPartOfTeamByName_Ret u n d t d' :
  Inv d -> ensureUserIsPartOfTeamByName fuel u n d = (Ret t, d') -> teams d' !! t_ID t = Some t.
Proof.
  intros (_ & Hk & _). unfold ensureUserIsPartOfTeamByName. case_decide; [done|].
  unfold gets, bind at 1. simpl. unfold bind at 1. simpl.
  intros (found & d1 & Hf & H1)%bind_inv_Ret.
  pose proof (reader_find_team_by_name (teams d) n (go_range (memberships_of d u)).*1 d) as Hr.
  rewrite Hf in Hr. simpl in Hr. subst d1.
  destruct found as [t0|].
  - unfold ret in H1. simplify_eq. apply find_team_by_name_Ret in Hf as (id & _ & Ht & _).
    pose proof (Hk _ _ Ht) as Hid. simpl in Hid. by rewrite Hid.
  - by apply CreateTeamAsUser_Ret in H1 as [? _].
Qed.

Lemma find_token_Ret n token d t d' :
  find_token n token d = (Ret t, d') ->
  (exists e, d' = set_env e d) /\
  (forall k o, organizations d !! k = Some o -> o_ProbeToken o <> t) /\
  (token <> EmptyString -> t = token).
Proof.
  revert d. induction n as [|n IH]; intros d; simpl; [done|].
  intros (t0 & d1 & Ht & H1)%bind_inv_Ret.
  assert (Hd1 : exists e, d1 = set_env e d).
  { case_decide; [|unfold ret in Ht; simplify_eq; exists (env d1); by destruct d1].
    unfold tokens_Generate in Ht. apply bind_inv_Ret in Ht as (v & d2 & [= _ <-] & [_ ->]%or_else_Ret).
    by eexists. }
  assert (Ht0 : token <> EmptyString -> t0 = token).
  { intros Hne. rewrite decide_False in Ht by done. unfold ret in Ht. congruence. }
  destruct Hd1 as [e ->]. unfold bind, gets in H1. simpl in H1.
  match type of H1 with context [decide (is_Some ?x)] => destruct (decide (is_Some x)) as [Hused|Hused] end.
  - destruct (decide (token = EmptyString)) as [Hemp|]; [|done]. apply IH in H1 as ([e' ->] & Hno & _).
    split; [by exists e'|]. split; [exact Hno|]. by intros [].
  - unfold ret in H1. injection H1 as <- <-. split; [by exists e|]. split; [|done].
    intros k o Hk Heq. apply Hused.
    destruct (first_entry (fun org => bool_decide (o_ProbeToken org = t0)) (organizations d)) eqn:Hf; [by eexists|].
    rewrite first_entry_None in Hf. specialize (Hf _ _ Hk).
    by rewrite bool_decide_eq_false in Hf.
Qed.

Lemma find_token_env n token d : exists e, (find_token n token d).2 = set_env e d.
Proof.
  revert d. induction n as [|n IH]; intros d; simpl; [exists (env d); by destruct d|].
  assert (Hd1 : exists e, ((if decide (token = EmptyString) then tokens_Generate else ret token) d).2 = set_env e d).
  { case_decide; [|exists (env d); by destruct d].
    unfold tokens_Generate, bind, read_env. simpl. eexists. by destruct (gen_token (env d) _). }
  unfold bind at 1. destruct Hd1 as [e He].
  destruct ((if decide (token = EmptyString) then tokens_Generate else ret token) d) as [[t| | | |] d1];
    simpl in He; subst d1; try by exists e.
  unfold bind, gets. simpl. case_decide; [case_decide|]; [|by exists e|by exists e].
  destruct (IH (set_env e d)) as [e' He']. rewrite He'. by exists e'.
Qed.

Lemma preserves_CreateOrganizationWithTeam u e n tok te tn exp :
  preserves Inv (CreateOrganizationWithTeam fuel u e n tok te tn exp).
Proof.
  apply preserves_locked_Inv, preserves_bind; [apply preserves_findUserByID|intros _].
  case_match; [apply preserves_throw|]. apply preserves_bind; [apply preserves_read_env|intros now].
  intros d Hd. apply keeps_bind.
  { case_match; [by rewrite reader_getTeamUserIsPartOf|].
    case_match; [|done]. apply preserves_bind; [apply preserves_ensureUserIsPartOfTeamByName| |done].
    intros ?. apply preserves_ret. }
  intros [team|] d1 Hteam Hd1; [|done].
  assert (Ht : teams d1 !! t_ID team = Some team).
  { case_match; [by apply getTeamUserIsPartOf_Ret in Hteam as [-> ?]|].
    case_match; [|done].
    apply bind_inv_Ret in Hteam as (t & d2 & Ht & [= -> ->]).
    by apply ensureUserIsPartOfTeamByName_Ret in Ht. }
  clear Hteam d Hd. unfold gets, deref, bind at 1. simpl. unfold bind at 1, ret at 1. 
  cbv zeta. case_match; [done|].
  apply keeps_bind_reader; [apply reader_organizationExists|done|].
  intros used Hused. destruct used; [done|]. apply organizationExists_false in Hused as [Hlive Hdead].
  destruct (find_token_env fuel tok d1) as [env' Henv].
  apply keeps_bind; [by rewrite Henv|]. intros t d2 ([e' ->] & Hfree & _)%find_token_Ret Hd2.
  apply (Inv_insert_org (set_env e' d1) (set_ProbeToken t (new_org _ e n now exp team)));
    simpl; try done.
Qed.

(** The organization that is returned is the one the store holds. *)
Lemma CreateOrganizationWithTeam_stored u e n tok te tn exp d o d' :
  CreateOrganizationWithTeam fuel u e n tok te tn exp d = (Ret o, d') ->
  organizations d' !! o_ID o = Some o.
Proof.
  unfold CreateOrganizationWithTeam, locked. destruct (mtx_held d); [done|].
  match goal with |- context [let '(_, _) := ?m ?s in _] => destruct (m s) as [[o'| | | |] d1] eqn:Hm end;
    try done. intros [= <- <-].
  apply bind_inv_Ret in Hm as (_ & d2 & _ & Hm). case_match; [done|].
  apply bind_inv_Ret in Hm as (now & d3 & _ & Hm). apply bind_inv_Ret in Hm as (team & d4 & _ & Hm).
  apply bind_inv_Ret in Hm as (id & d5 & _ & Hm). apply bind_inv_Ret in Hm as (t & d6 & _ & Hm).
  cbv zeta in Hm. case_match; [done|]. apply bind_inv_Ret in Hm as (used & d7 & _ & Hm).
  destruct used; [done|]. apply bind_inv_Ret in Hm as (tk & d8 & _ & Hm).
  unfold bind, modify, ret in Hm. injection Hm as <- <-. simpl. by rewrite lookup_insert_eq.
Qed.

(** A call leaves the GCP accounts and their addresses alone. *)
Definition gcp_frame (l : loc) (d : DB) : Prop := is_Some (gcp_heap d !! l).

Lemma createGCP_Ret a d l d' : createGCP a d = (Ret l, d') -> gcp_frame l d'.
Proof.
  unfold createGCP, locked. destruct (mtx_held d); [done|].
  unfold bind, get. simpl. case_decide; [done|]. simpl. intros [= <- <-].
  unfold gcp_frame. simpl. by rewrite lookup_insert_eq.
Qed.

Lemma SetOrganizationGCP_frame e a l : preserves (gcp_frame l) (SetOrganizationGCP e a).
Proof.
  apply preserves_locked; [done|].
  apply preserves_bind; [apply preserves_reader, reader_findOrganizationByExternalID|intros [k o]].
  case_decide; [apply preserves_throw|]. apply preserves_bind; [apply preserves_gets|intros acc].
  apply preserves_bind; [intros d Hd; exact Hd|intros now]. by apply preserves_modify.
Qed.

Lemma preserves_CreateOrganizationWithGCP u a exp :
  preserves Inv (CreateOrganizationWithGCP fuel u a exp).
Proof.
  apply preserves_bind; [apply preserves_locked_Inv, preserves_generate_external_id|intros e].
  intros d Hd. apply keeps_bind; [by apply preserves_CreateOrganizationWithTeam|].
  intros org d1 _ Hd1. apply keeps_bind; [by apply preserves_createGCP|].
  intros l d2 Hl%createGCP_Ret Hd2.
  apply keeps_bind; [by apply preserves_SetOrganizationGCP|]. intros [] d3 Hset Hd3.
  assert (Hl3 : gcp_frame l d3).
  { pose proof (SetOrganizationGCP_frame e a l d2 Hl) as Hf. by rewrite Hset in Hf. }
  apply keeps_bind_reader; [auto with go|done|]. intros os [= <-].
  apply keeps_bind_reader; [auto with go|done|]. intros org' [Horg _]%deref_Ret. simpl.
  pose proof Hd3 as (_ & _ & (Hkey & _) & _). pose proof (Hkey _ _ Horg) as Hid. simpl in Hid.
  rewrite Hid. apply (Inv_update_org d3 (o_ID org) org'); try done.
  - exact (Inv_org_team d3 _ org' Hd3 Horg).
  - intros l' [= <-]. exact Hl3.
Qed.

(** ** Users and webhooks *)

Lemma preserves_delete_org_of_team t a k : preserves Inv (delete_org_of_team t a k).
Proof.
  unfold delete_org_of_team. apply preserves_bind; [apply preserves_gets|intros os].
  case_match; [|apply preserves_ret].
  case_decide; [apply preserves_DeleteOrganization|apply preserves_ret].
Qed.

Lemma preserves_DeleteUser u a : preserves Inv (DeleteUser u a).
Proof.
  unfold DeleteUser. apply preserves_bind; [apply preserves_gets|intros members].
  apply preserves_bind.
  - apply preserves_for_each. intros [team count]. unfold delete_sole_member_team.
    case_decide; [|apply preserves_ret]. apply preserves_bind; [apply preserves_gets|intros os].
    apply preserves_bind; [|intros; apply preserves_DeleteTeam].
    apply preserves_for_each. intros k. apply preserves_delete_org_of_team.
  - intros []. apply preserves_bind; [|intros]; apply preserves_modify; auto with inv.
Qed.

Lemma preserves_InviteUserToTeam email te r : preserves Inv (InviteUserToTeam email te r).
Proof.
  unfold InviteUserToTeam. keep_inv.
Qed.

Lemma preserves_UpdateUser id update : preserves Inv (UpdateUser id update).
Proof.
  unfold UpdateUser. apply preserves_locked_Inv.
  repeat (apply preserves_bind; [by apply preserves_assign_user|intros]). apply preserves_gets.
Qed.

Lemma preserves_SetUserToken id t : preserves Inv (SetUserToken bcrypt_generate id t).
Proof.
  apply preserves_locked_Inv, preserves_bind.
  - case_decide; [apply preserves_ret|]. apply preserves_bind; [apply preserves_gets|intros c].
    case_match; auto with go.
  - intros h d Hd. apply keeps_bind_reader; [auto with go|done|]. intros us [= <-].
    apply keeps_bind_reader; [auto with go|done|]. intros u [Hu _]%or_else_Ret.
    unfold bind, Now, read_env. simpl. by apply (preserves_put_found id (set_u_Token h _)).
Qed.

Lemma preserves_SetUserLastLoginAt id : preserves Inv (SetUserLastLoginAt id).
Proof.
  apply preserves_locked_Inv. intros d Hd.
  apply keeps_bind_reader; [auto with go|done|]. intros us [= <-].
  apply keeps_bind_reader; [auto with go|done|]. intros u [Hu _]%or_else_Ret.
  unfold bind, Now, read_env. simpl. by apply (preserves_put_found id (set_u_Login _ _)).
Qed.


#[local] Hint Resolve preserves_CreateOrganizationWithTeam preserves_CreateOrganizationWithGCP
  preserves_DeleteUser preserves_InviteUserToTeam preserves_UpdateUser preserves_SetUserToken
  preserves_SetUserLastLoginAt preserves_DeleteOrganization preserves_UpdateOrganization
  preserves_MoveOrganizationToTeam preserves_UpdateGCP preserves_SetOrganizationGCP : inv_op.

Lemma preserves_unlocked_webhooks f : preserves Inv (modify (E:=error) (fun d => set_webhooks (f d) d)).
Proof. by apply preserves_modify. Qed.

Lemma preserves_AddLoginToUser u p i s : preserves Inv (AddLoginToUser u p i s).
Proof.
  apply preserves_locked_Inv, preserves_bind; [apply preserves_findUserByID|intros _].
  apply preserves_bind; [apply preserves_try, preserves_findUserByLogin|intros e].
  apply preserves_bind; [repeat case_match; auto with go|intros _].
  apply preserves_bind; [apply preserves_Now|intros now]. apply preserves_modify.
  intros d Hd. by apply (Inv_put_login d (mkLogin u p i s now)).
Qed.
#[local] Hint Resolve preserves_AddLoginToUser : inv_op.

Lemma preserves_SetUserAdmin id v : preserves Inv (SetUserAdmin id v).
Proof. by apply preserves_locked_Inv, preserves_change_user. Qed.

Lemma preserves_find_org_by_account a : preserves Inv (FindOrganizationByGCPExternalAccountID a).
Proof. unfold FindOrganizationByGCPExternalAccountID. keep_inv. Qed.
#[local] Hint Resolve preserves_SetUserAdmin preserves_unlocked_webhooks preserves_find_org_by_account : inv_op.

(** Every call of the interface keeps the invariant. *)
Lemma memory_preserves A (c : DBCall A) : preserves Inv (memory fuel bcrypt_generate A c).
Proof.
  destruct c; cbn [memory];
    first [solve [auto with inv_op] | open_op; first [solve [keep_inv] | open_op; solve [keep_inv]]].
Qed.

(** ** Reachable states *)

Lemma reachable_Inv cost e d :
  rtc (step fuel bcrypt_generate) (New cost e) d -> Inv d.
Proof.
  intros Hr. eapply rtc_ind_r with (P := Inv) (3 := Hr); [apply Inv_New|].
  intros d1 d2 _ [A c d'] Hd. by apply memory_preserves.
Qed.

End safety.

Create HintDb locks.

(** Walks through an operation call by call: what runs under the lock must not touch
    the mutex. *)
Ltac lock_walk :=
  repeat first
    [ solve [auto with locks]
    | apply lock_safe_locked
    | apply lock_free_bind; [|intros ?]
    | apply lock_safe_bind; [|intros ?]
    | apply lock_free_fold_m; intros ? ?
    | apply lock_free_for_each; intros ?
    | apply lock_safe_for_each; intros ?
    | apply lock_free_try | apply lock_safe_try
    | apply lock_free_ret | apply lock_free_throw | apply lock_free_panic
    | apply lock_free_gets | apply lock_free_deref | apply lock_free_or_else
    | apply lock_free_out_of_fuel
    | apply lock_free_modify; done
    | progress case_match
    | apply lock_free_safe ].

Section locks.
Context `{GoRange} (fuel : nat) (bcrypt_generate : string -> Z -> error + string).

Lemma lock_free_read_env {A} (f : Env -> nat -> A) : lock_free (read_env f).
Proof. done. Qed.
Lemma lock_free_get : lock_free (@get DB error).
Proof. done. Qed.
#[local] Hint Resolve lock_free_read_env lock_free_get : locks.

Lemma lock_free_Now : lock_free Now.
Proof. done. Qed.
Lemma lock_free_externalids : lock_free externalids_Generate.
Proof. done. Qed.
Lemma lock_free_tokens : lock_free tokens_Generate.
Proof. unfold tokens_Generate. lock_walk. Qed.
Lemma lock_free_find_ext e : lock_free (findOrganizationByExternalID e).
Proof. unfold findOrganizationByExternalID. lock_walk. Qed.
Lemma lock_free_findUserByID i : lock_free (findUserByID i).
Proof. unfold findUserByID. lock_walk. Qed.
#[local] Hint Resolve lock_free_Now lock_free_externalids lock_free_tokens lock_free_find_ext
  lock_free_findUserByID : locks.
Lemma lock_free_exists e b : lock_free (organizationExists e b).
Proof. unfold organizationExists. lock_walk. Qed.
Lemma lock_free_loaded o : lock_free (loaded o).
Proof. unfold loaded. lock_walk. Qed.
Lemma lock_free_loaded_all l : lock_free (loaded_all l).
Proof. unfold loaded_all. lock_walk. Qed.
Lemma lock_free_gcp_at a : lock_free (gcp_at a).
Proof. unfold gcp_at. lock_walk. Qed.
#[local] Hint Resolve lock_free_exists lock_free_loaded lock_free_loaded_all lock_free_gcp_at : locks.

(** The loops *)

Lemma lock_free_generate_team n : lock_free (generateTeamExternalID_loop n).
Proof. induction n; simpl; lock_walk. Qed.
Lemma lock_free_generate_org n : lock_free (generate_external_id n).
Proof.
  induction n as [|n IH]; simpl; [lock_walk|].
  apply lock_free_bind; [lock_walk|intros e]. apply lock_free_bind; [lock_walk|].
  intros []; [exact IH|lock_walk].
Qed.
Lemma lock_free_find_token n t : lock_free (find_token n t).
Proof. induction n; simpl; lock_walk. Qed.
Lemma lock_free_find_team ts n l : lock_free (find_team_by_name ts n l).
Proof. induction l; simpl; lock_walk. Qed.
#[local] Hint Resolve lock_free_generate_team lock_free_generate_org lock_free_find_token
  lock_free_find_team : locks.

(** What the locked methods share *)

Lemma lock_free_CreateTeam n : lock_free (CreateTeam fuel n).
Proof. unfold CreateTeam, generateTeamExternalID. lock_walk. Qed.
Lemma lock_free_AddUserToTeam u t r : lock_free (AddUserToTeam u t r).
Proof. unfold AddUserToTeam. lock_walk. Qed.
#[local] Hint Resolve lock_free_CreateTeam lock_free_AddUserToTeam : locks.
Lemma lock_free_CreateTeamAsUser n u : lock_free (CreateTeamAsUser fuel n u).
Proof. unfold CreateTeamAsUser. lock_walk. Qed.
#[local] Hint Resolve lock_free_CreateTeamAsUser : locks.
Lemma lock_free_ensure u n : lock_free (ensureUserIsPartOfTeamByName fuel u n).
Proof. unfold ensureUserIsPartOfTeamByName. lock_walk. Qed.
Lemma lock_free_listTeamUsers t b : lock_free (listTeamUsers t b).
Proof. unfold listTeamUsers. lock_walk. Qed.
#[local] Hint Resolve lock_free_ensure lock_free_listTeamUsers : locks.
Lemma lock_free_listOrganizationUsers e a b : lock_free (listOrganizationUsers e a b).
Proof. unfold listOrganizationUsers. lock_walk. Qed.
Lemma lock_free_createUser e u : lock_free (createUser e u).
Proof. unfold createUser. lock_walk. Qed.
Lemma lock_free_assign_user i v f : lock_free (assign_user i v f).
Proof. unfold assign_user. lock_walk. Qed.
Lemma lock_free_DeleteTeam t : lock_free (DeleteTeam t).
Proof. unfold DeleteTeam. lock_walk. Qed.
#[local] Hint Resolve lock_free_listOrganizationUsers lock_free_createUser lock_free_assign_user
  lock_free_DeleteTeam : locks.
Lemma lock_safe_changeOrg e f : lock_safe (changeOrg e f).
Proof. unfold changeOrg. lock_walk. Qed.
#[local] Hint Resolve lock_safe_changeOrg : locks.
Lemma lock_safe_setOrg e f : lock_safe (setOrg e f).
Proof. unfold setOrg. lock_walk. Qed.
Lemma lock_safe_DeleteOrganization e a : lock_safe (DeleteOrganization e a).
Proof. unfold DeleteOrganization. lock_walk. Qed.
#[local] Hint Resolve lock_safe_setOrg lock_safe_DeleteOrganization : locks.

Lemma lock_safe_delete_org_of_team t a k : lock_safe (delete_org_of_team t a k).
Proof.
  unfold delete_org_of_team. apply lock_safe_bind; [apply lock_free_safe; lock_walk|intros os].
  case_match; [case_decide|]; auto using lock_free_safe, lock_free_ret with locks.
Qed.
#[local] Hint Resolve lock_safe_delete_org_of_team : locks.
Lemma lock_safe_delete_team a tc : lock_safe (delete_sole_member_team a tc).
Proof.
  destruct tc as [t n]. unfold delete_sole_member_team.
  case_decide; [|apply lock_free_safe, lock_free_ret].
  apply lock_safe_bind; [apply lock_free_safe, lock_free_gets|intros os].
  apply lock_safe_bind; [|intros []; apply lock_free_safe, lock_free_DeleteTeam].
  apply lock_safe_for_each. auto with locks.
Qed.
Lemma lock_safe_DeleteUser u a : lock_safe (DeleteUser u a).
Proof.
  unfold DeleteUser. apply lock_safe_bind; [apply lock_free_safe, lock_free_gets|intros m].
  apply lock_safe_bind; [apply lock_safe_for_each; intros; apply lock_safe_delete_team|].
  intros []. apply lock_free_safe. lock_walk.
Qed.
#[local] Hint Resolve lock_safe_DeleteUser : locks.

Lemma lock_safe_CreateOrganizationWithTeam u e n t te tn x :
  lock_safe (CreateOrganizationWithTeam fuel u e n t te tn x).
Proof.
  unfold CreateOrganizationWithTeam, getTeamUserIsPartOf. apply lock_safe_locked. lock_walk.
Qed.
Lemma lock_safe_GenerateExternalID : lock_safe (GenerateOrganizationExternalID fuel).
Proof. unfold GenerateOrganizationExternalID. lock_walk. Qed.
Lemma lock_safe_createGCP a : lock_safe (createGCP a).
Proof. unfold createGCP. lock_walk. Qed.
Lemma lock_safe_SetOrganizationGCP e a : lock_safe (SetOrganizationGCP e a).
Proof. unfold SetOrganizationGCP. lock_walk. Qed.
#[local] Hint Resolve lock_safe_CreateOrganizationWithTeam lock_safe_GenerateExternalID
  lock_safe_createGCP lock_safe_SetOrganizationGCP : locks.

Lemma lock_safe_CreateOrganizationWithGCP u a x : lock_safe (CreateOrganizationWithGCP fuel u a x).
Proof.
  unfold CreateOrganizationWithGCP.
  repeat (apply lock_safe_bind; [first [solve [auto with locks] | apply lock_free_safe; lock_walk]|intros ?]).
  apply lock_free_safe; lock_walk.
Qed.
#[local] Hint Resolve lock_safe_CreateOrganizationWithGCP : locks.

Lemma memory_lock_safe A (c : DBCall A) : lock_safe (memory fuel bcrypt_generate A c).
Proof.
  destruct c; cbn [memory];
    first [solve [auto with locks] | open_op; first [solve [lock_walk] | open_op; solve [lock_walk]] |
           apply lock_safe_bind; [auto with locks | intros; apply lock_free_safe, lock_free_loaded]].
Qed.

End locks.
