(* ===== verification/Sample.v ===== *)
(** A concrete run of the in-memory users database, on which the theorems are tried. *)
From Stdlib Require Import ZArith Lia Ascii String.
From stdpp Require Import base tactics option gmap strings list pretty relations.
From S2P Require Import Prelude GoStd Users Filter MemDB MemTeam MemOrg MemUser UsersDB MemInv MemSafety.

Module sample.

#[export] Instance range : GoRange := list_range.

(** A clock that advances by one second at each reading, and counters for the random
    sources. *)
Definition env0 : Env :=
  {| clock := fun n => time.Hour + Z.of_nat n * time.Second;
     gen_id := fun n => "quiet-river-" +:+ pretty n;
     gen_token := fun n => Some ("token" +:+ pretty n);
     ticks := 0 |}.

Definition hash : string -> Z -> error + string := fun t _ => inr ("hash:" +:+ t).
Definition fuel : nat := 5.

Definition run {A} (c : DBCall A) (d : DB) : DB := (memory fuel hash A c d).2.

Definition d0 : DB := New 14 env0.

(** Two users: the first has an organization of its own and one in a team both are in. *)
Definition d1 : DB := run (CallCreateUser "Ada@Example.org" None) d0.
Definition d2 : DB :=
  run (CallCreateOrganizationWithTeam "0" "own-org-01" "Own" EmptyString EmptyString "Solo Team" 5) d1.
Definition d3 : DB :=
  run (CallCreateOrganizationWithTeam "0" "shared-org-02" "Shared" EmptyString EmptyString "Both Team" 5) d2.
Definition both : string := from_option t_ExternalID EmptyString (teams d3 !! "1").
Definition d4 : DB := run (CallInviteUserToTeam "bob@example.org" both "editor") d3.

(** A third organization, of the launcher. *)
Definition d5 : DB := run (CallCreateOrganizationWithGCP "0" "E-ACCOUNT" 5) d4.
Definition d : DB := d5.

Lemma step_run A (c : DBCall A) x : step fuel hash x (run c x).
Proof. constructor. Qed.

Lemma reachable : rtc (step fuel hash) d0 d.
Proof.
  apply (rtc_l _ d0 d1), (rtc_l _ d1 d2), (rtc_l _ d2 d3), (rtc_l _ d3 d4), (rtc_l _ d4 d5), rtc_refl;
    unfold d1, d2, d3, d4, d5; apply step_run.
Qed.

Lemma inv : Inv d.
Proof. exact (reachable_Inv _ _ _ _ _ reachable). Qed.

Lemma unlocked : mtx d = false.
Proof. vm_compute. reflexivity. Qed.

End sample.
