(* ===== verification/MemDelete.v ===== *)
(** Deleting organizations and users of the in-memory users database: the state each
    leaves behind. *)
From Stdlib Require Import ZArith Lia Ascii String.
From stdpp Require Import base tactics option gmap strings list pretty.
From S2P Require Import Prelude GoStd Users Filter MemDB MemTeam MemOrg MemUser UsersDB MemInv MemSafety Sample.

(** * The teams a user is the only member of *)

Definition sole_member (d : DB) (userID team : string) : Prop :=
  is_Some (memberships_of d userID !! team) /\
  forall u', u' <> userID -> memberships_of d u' !! team = None.

(** What is left when the teams in [P] go away: their organizations are moved, the
    memberships are cut. *)
Definition purge (P : string -> Prop) `{!forall t, Decision (P t)} (d : DB) : DB :=
  set_organizations (filter (fun kv : string * OrgCell => ~ P (o_TeamID kv.2)) (organizations d))
    (set_deletedOrganizations
       (filter (fun kv : string * OrgCell => P (o_TeamID kv.2)) (organizations d) ∪ deletedOrganizations d)
       (set_teamMemberships
          ((fun m : gmap string string => filter (fun kv : string * string => ~ P kv.1) m) <$> teamMemberships d)
          (set_teams (filter (fun kv : string * Team => ~ P kv.1) (teams d)) d))).

(** Computes the fields of a database, and nothing else. *)
Ltac fields :=
  cbv beta iota delta
    [purge set_organizations set_deletedOrganizations set_teams set_teamMemberships
     users organizations deletedOrganizations logins gcpAccounts gcp_heap teams teamMemberships
     roles permissions rolesPermissions webhooks passwordHashingCost mtx env].

Section delete.
Context `{GoRange}.

(** ** One organization *)

Lemma find_ext_found d k o e :
  Inv d -> organizations d !! k = Some o -> same_id (o_ExternalID o) e = true ->
  findOrganizationByExternalID e d = (Ret (k, o), d).
Proof.
  intros (_ & _ & (_ & _ & (Hu & _) & _) & _) Hk He.
  unfold findOrganizationByExternalID, bind, gets. simpl.
  rewrite (first_entry_unique _ _ k o); try done.
  intros k' o' Hk' He'. eapply Hu; [done..|].
  apply same_id_trans with e; [done|]. by rewrite same_id_sym.
Qed.

Lemma set_mutex_id d b : mtx d = b -> set_mutex b d = d.
Proof. intros <-. by destruct d. Qed.

Lemma DeleteOrganization_run d k o e a :
  Inv d -> mtx d = false -> organizations d !! k = Some o -> same_id (o_ExternalID o) e = true ->
  DeleteOrganization e a d = (Ret tt, move_to_deleted o d).
Proof.
  intros Hd Hm Hk He. unfold DeleteOrganization, locked. simpl. rewrite Hm.
  unfold bind at 1, try. rewrite (find_ext_found _ k o); [|done..].
  unfold bind, modify. simpl. f_equal. destruct d; simpl in *. by subst.
Qed.

(** ** The organizations of a team *)

Definition move_keys (team : string) (ks : list string) (d : DB) : DB :=
  set_organizations (filter (fun kv : string * OrgCell => ~ (kv.1 ∈ ks /\ o_TeamID kv.2 = team)) (organizations d))
    (set_deletedOrganizations
       (filter (fun kv : string * OrgCell => kv.1 ∈ ks /\ o_TeamID kv.2 = team) (organizations d) ∪ deletedOrganizations d) d).

Lemma lookup_filter_case {V} (P : string * V -> Prop) `{!forall x, Decision (P x)} (m : gmap string V) k :
  filter P m !! k = match m !! k with Some v => if decide (P (k, v)) then Some v else None | None => None end.
Proof.
  rewrite map_lookup_filter. destruct (m !! k) as [v|]; simpl; [|done].
  unfold guard. by case_decide.
Qed.

(** Closes a goal about what filtered maps hold under a key, by cases. *)
Ltac by_cases :=
  repeat match goal with
    | |- context [?m !! ?k] => is_var m; destruct (m !! k) eqn:?; simplify_eq/=
    end;
  repeat case_decide; set_unfold; naive_solver.

Ltac by_lookup :=
  let k := fresh "k" in
  apply map_eq; intros k;
  repeat first [rewrite lookup_union | rewrite lookup_filter_case | rewrite lookup_fmap];
  by_cases.

Lemma move_keys_nil team d : move_keys team [] d = d.
Proof. destruct d. unfold move_keys, set_organizations, set_deletedOrganizations. simpl. f_equal; by_lookup. Qed.

Lemma move_keys_cons team k ks d :
  move_keys team (k :: ks) d = move_keys team ks (move_keys team [k] d).
Proof. destruct d. unfold move_keys, set_organizations, set_deletedOrganizations. simpl. f_equal; by_lookup. Qed.

Lemma move_to_deleted_eq team d k o :
  organizations d !! k = Some o -> o_ID o = k -> o_TeamID o = team ->
  move_to_deleted o d = move_keys team [k] d.
Proof.
  intros Hk Hid Ht. destruct d as [us os ds].
  unfold move_to_deleted, move_keys, set_organizations, set_deletedOrganizations. simpl in *.
  rewrite Hid. f_equal; apply map_eq; intros k'; rewrite ?lookup_union, ?lookup_filter_case;
    (destruct (decide (k = k')) as [<-|]; [rewrite ?lookup_insert_eq, ?lookup_delete_eq |
      rewrite ?lookup_insert_ne, ?lookup_delete_ne by done]); by_cases.
Qed.

Lemma move_keys_noop team d k :
  (forall o, organizations d !! k = Some o -> o_TeamID o <> team) -> move_keys team [k] d = d.
Proof.
  intros Hno. destruct d as [us os ds].
  unfold move_keys, set_organizations, set_deletedOrganizations. simpl in *. f_equal; by_lookup.
Qed.

Lemma delete_org_of_team_run d team a k :
  Inv d -> mtx d = false -> delete_org_of_team team a k d = (Ret tt, move_keys team [k] d).
Proof.
  intros Hd Hm. unfold delete_org_of_team, bind, gets. simpl.
  destruct (organizations d !! k) as [o|] eqn:Hk.
  - case_decide as Ht.
    + rewrite (DeleteOrganization_run _ k o); [|done..|apply same_id_refl].
      f_equal. apply move_to_deleted_eq; [done| |done].
      destruct Hd as (_ & _ & (Hkey & _) & _). by apply Hkey.
    + rewrite move_keys_noop; [done|]. intros o' Ho'. by simplify_eq.
  - rewrite move_keys_noop; [done|]. intros o' Ho'. by simplify_eq.
Qed.

Lemma delete_orgs_of_team_run ks d team a :
  Inv d -> mtx d = false ->
  for_each ks (delete_org_of_team team a) d = (Ret tt, move_keys team ks d).
Proof.
  revert d. induction ks as [|k ks IH]; intros d Hd Hm; simpl; [by rewrite move_keys_nil|].
  pose proof (preserves_delete_org_of_team team a k d Hd) as Hd'.
  unfold bind. rewrite delete_org_of_team_run in Hd' |- * by done. simpl in Hd'.
  rewrite IH by done. by rewrite <- move_keys_cons.
Qed.

(** ** One team *)

Lemma DeleteTeam_run d team :
  (forall k o, organizations d !! k = Some o -> o_TeamID o <> team) ->
  DeleteTeam team d =
  (Ret tt, set_teams (delete team (teams d)) (set_teamMemberships (delete team <$> teamMemberships d) d)).
Proof.
  intros Hno. unfold DeleteTeam, bind, gets, modify. simpl.
  destruct (existsb _ _) eqn:He; [|done].
  apply existsb_exists in He as ([k o] & Hin & Ht).
  apply list_elem_of_In, elem_of_go_range in Hin. apply bool_decide_eq_true in Ht.
  by destruct (Hno _ _ Hin).
Qed.

Lemma delete_key {V} (m : gmap string V) team :
  delete team m = filter (fun kv : string * V => kv.1 <> team) m.
Proof.
  apply map_eq. intros k. rewrite lookup_filter_case.
  destruct (decide (team = k)) as [->|];
    [rewrite lookup_delete_eq | rewrite lookup_delete_ne by done]; by_cases.
Qed.

Lemma purge_of_move_keys team ks d :
  (forall k o, organizations d !! k = Some o -> k ∈ ks) ->
  set_teams (delete team (teams (move_keys team ks d)))
    (set_teamMemberships (delete team <$> teamMemberships (move_keys team ks d)) (move_keys team ks d))
  = purge (fun t => t = team) d.
Proof.
  destruct d as [us os ds ls acc heap ts ms].
  unfold purge, move_keys, set_organizations, set_deletedOrganizations, set_teams, set_teamMemberships.
  simpl. intros Hall. f_equal.
  - apply map_filter_ext. intros k o Ho. specialize (Hall _ _ Ho). simpl. tauto.
  - f_equal. apply map_filter_ext. intros k o Ho. specialize (Hall _ _ Ho). simpl. tauto.
  - apply delete_key.
  - apply map_fmap_ext. intros u m _. apply delete_key.
Qed.

Lemma delete_team_run d team a :
  Inv d -> mtx d = false ->
  delete_sole_member_team a (team, 1%nat) d = (Ret tt, purge (fun t => t = team) d).
Proof.
  intros Hd Hm. unfold delete_sole_member_team. rewrite decide_True by done.
  unfold bind at 1, gets. unfold bind. rewrite delete_orgs_of_team_run by done.
  assert (Hall : forall k o, organizations d !! k = Some o -> k ∈ (go_range (organizations d)).*1).
  { intros k o Hk. apply list_elem_of_fmap. exists (k, o). split; [done|]. by apply elem_of_go_range. }
  rewrite DeleteTeam_run; [by rewrite purge_of_move_keys|].
  intros k o [Hk Hn]%map_lookup_filter_Some Ht. apply Hn. split; [exact (Hall _ _ Hk)|exact Ht].
Qed.

(** ** All of them *)

Lemma purge_compose (P Q R : string -> Prop) `{!forall t, Decision (P t), !forall t, Decision (Q t), !forall t, Decision (R t)} d :
  (forall t, R t <-> P t \/ Q t) -> purge Q (purge P d) = purge R d.
Proof.
  intros HR. destruct d as [us os ds ls acc heap ts ms].
  fields. f_equal.
  - rewrite map_filter_filter. apply map_filter_ext. intros k o _. simpl. rewrite HR. tauto.
  - apply map_eq. intros k. rewrite !lookup_union, !lookup_filter_case.
    destruct (os !! k) as [o|]; [|by destruct (ds !! k)]. simpl. specialize (HR (o_TeamID o)).
    destruct (ds !! k); repeat case_decide; first [done | tauto].
  - rewrite map_filter_filter. apply map_filter_ext. intros k t _. simpl. rewrite HR. tauto.
  - rewrite <- map_fmap_compose. apply map_fmap_ext. intros u m _. simpl.
    rewrite map_filter_filter. apply map_filter_ext. intros k r _. simpl. rewrite HR. tauto.
Qed.

Lemma purge_nothing (P : string -> Prop) `{!forall t, Decision (P t)} d :
  (forall t, ~ P t) -> purge P d = d.
Proof.
  intros HP. destruct d as [us os ds ls acc heap ts ms].
  fields. f_equal.
  - apply map_filter_id. intros k o _. apply HP.
  - apply map_eq. intros k. rewrite lookup_union, lookup_filter_case.
    destruct (os !! k) as [o|]; [rewrite decide_False by apply HP|]; by destruct (ds !! k).
  - apply map_filter_id. intros k o _. apply HP.
  - rewrite <- (map_fmap_id ms) at 2. apply map_fmap_ext. intros u m _.
    apply map_filter_id. intros k o _. apply HP.
Qed.

Lemma delete_teams_run l d a :
  Inv d -> mtx d = false ->
  for_each l (delete_sole_member_team a) d = (Ret tt, purge (fun t => (t, 1%nat) ∈ l) d).
Proof.
  revert d. induction l as [|[t n] l IH]; intros d Hd Hm; cbn [for_each].
  - rewrite purge_nothing by set_solver. done.
  - unfold bind. destruct (decide (n = 1%nat)) as [->|Hn].
    + assert (Hd' : Inv (delete_sole_member_team a (t, 1%nat) d).2).
      { unfold delete_sole_member_team. rewrite decide_True by done.
        apply preserves_bind; [apply preserves_gets| |done]. intros os.
        apply preserves_bind; [|intros; apply preserves_DeleteTeam].
        apply preserves_for_each. intros k. apply preserves_delete_org_of_team. }
      rewrite delete_team_run in Hd' |- * by done. rewrite IH by done.
      f_equal. apply purge_compose. set_solver.
    + replace (delete_sole_member_team a (t, n) d) with (Ret (E:=error) tt, d)
        by (unfold delete_sole_member_team; by rewrite decide_False).
      rewrite IH by done. f_equal.
      rewrite <- (purge_nothing (fun _ => False) d) at 1 by tauto. apply purge_compose. set_solver.
Qed.

(** ** Counting the members *)

(** One user's memberships each count once for the teams in [mine]. *)
Lemma count_membership (mine : gmap string string) l acc t :
  NoDup l.*1 ->
  default O (foldl (fun members '(team, _) =>
      if decide (is_Some (mine !! team)) then incr team members else members) acc
    (l : list (string * string)) !! t)
  = (default O (acc !! t) + (if decide (is_Some (mine !! t) /\ t ∈ l.*1) then 1 else 0))%nat.
Proof.
  revert acc. induction l as [|[t' r] l IH]; intros acc Hnd; simpl.
  - rewrite decide_False by set_solver. lia.
  - apply NoDup_cons in Hnd as [Hnin Hnd]. rewrite IH by done. clear IH.
    destruct (decide (t' = t)) as [->|Hne].
    + rewrite (decide_False (P := is_Some (mine !! t) /\ t ∈ l.*1)) by tauto.
      case_decide; [unfold incr; rewrite lookup_insert_eq; rewrite decide_True by set_solver; simpl; lia
                   | rewrite decide_False by tauto; lia].
    + replace (default O ((if decide (is_Some (mine !! t')) then incr t' acc else acc) !! t))
        with (default O (acc !! t)) by (case_decide; [unfold incr; by rewrite lookup_insert_ne|done]).
      f_equal. apply decide_ext. set_solver.
Qed.

Definition members_in (t : string) (l : list (string * gmap string string)) : list (string * gmap string string) :=
  filter (fun um => is_Some (um.2 !! t)) l.

Lemma count_members_fold (mine : gmap string string) l acc t :
  default O (foldl (fun members '(_, membership) =>
      foldl (fun members '(team, _) =>
        if decide (is_Some (mine !! team)) then incr team members else members)
      members (go_range membership)) acc (l : list (string * gmap string string)) !! t)
  = (default O (acc !! t) + if decide (is_Some (mine !! t)) then length (members_in t l) else 0)%nat.
Proof.
  revert acc. induction l as [|[u m] l IH]; intros acc; simpl.
  - case_decide; simpl; lia.
  - rewrite IH, count_membership by apply NoDup_go_range_keys. clear IH.
    unfold members_in. rewrite filter_cons. simpl.
    assert (Hin : t ∈ (go_range m).*1 <-> is_Some (m !! t)).
    { rewrite list_elem_of_fmap. split.
      - intros ([? r] & -> & Hr%elem_of_go_range). by exists r.
      - intros [r Hr]. exists (t, r). split; [done|]. by apply elem_of_go_range. }
    repeat case_decide; simpl; try lia; tauto.
Qed.

Lemma count_members_one d u t :
  (t, 1%nat) ∈ go_range (count_members d u) <-> sole_member d u t.
Proof.
  rewrite elem_of_go_range.
  transitivity (default O (count_members d u !! t) = 1%nat).
  { destruct (count_members d u !! t) as [n|]; simpl; split; congruence. }
  unfold count_members. rewrite count_members_fold, lookup_empty. simpl. unfold sole_member.
  assert (Hmem : forall u' m, (u', m) ∈ members_in t (go_range (teamMemberships d)) <->
            teamMemberships d !! u' = Some m /\ is_Some (m !! t)).
  { intros u' m. unfold members_in. rewrite list_elem_of_filter, elem_of_go_range. simpl. tauto. }
  assert (Hnd : NoDup (members_in t (go_range (teamMemberships d))).*1).
  { unfold members_in. apply (sublist_NoDup _ _ (NoDup_go_range_keys (teamMemberships d))), fmap_sublist, sublist_filter. }
  revert Hmem Hnd. generalize (members_in t (go_range (teamMemberships d))). intros l Hmem Hnd.
  case_decide as Hmine; [|naive_solver].
  assert (Hu : (u, memberships_of d u) ∈ l).
  { apply Hmem. unfold memberships_of in *. destruct (teamMemberships d !! u) as [m|]; [done|].
    simpl in Hmine. rewrite lookup_empty in Hmine. by destruct Hmine. }
  split.
  - destruct l as [|x [|]]; try done. intros _. split; [done|]. intros u' Hne.
    apply eq_None_not_Some. intros Hs. apply list_elem_of_singleton in Hu. subst x.
    unfold memberships_of in Hs at 1. destruct (teamMemberships d !! u') as [m|] eqn:Hm; simpl in Hs.
    + assert (Hin : (u', m) ∈ [(u, memberships_of d u)]) by by apply Hmem.
      apply list_elem_of_singleton in Hin. congruence.
    + rewrite lookup_empty in Hs. by destruct Hs.
  - intros [_ Hno]. destruct l as [|[u1 m1] [|[u2 m2] l]]; [by apply not_elem_of_nil in Hu|done|].
    assert (Hall : forall u' m, (u', m) ∈ (u1, m1) :: (u2, m2) :: l -> u' = u).
    { intros u' m [Hm Hs]%Hmem. destruct (decide (u' = u)) as [|Hne]; [done|].
      specialize (Hno u' Hne). unfold memberships_of in Hno. rewrite Hm in Hno. simpl in Hno.
      rewrite Hno in Hs. by destruct Hs. }
    rewrite (Hall u1 m1), (Hall u2 m2) in Hnd by set_solver. simpl in Hnd.
    apply NoDup_cons in Hnd as [Hnin _]. set_solver.
Qed.

(** ** The whole of [DeleteUser] *)

Lemma DeleteUser_run d u a :
  Inv d -> mtx d = false ->
  let d1 := purge (fun t => (t, 1%nat) ∈ go_range (count_members d u)) d in
  DeleteUser u a d =
  (Ret tt, set_users (delete u (users d1)) (set_teamMemberships (delete u (teamMemberships d1)) d1)).
Proof.
  intros Hd Hm. unfold DeleteUser. unfold bind at 1, gets. unfold bind.
  by rewrite delete_teams_run.
Qed.

Lemma memberships_of_purge (P : string -> Prop) `{!forall t, Decision (P t)} d u t :
  memberships_of (purge P d) u !! t = if decide (P t) then None else memberships_of d u !! t.
Proof.
  unfold memberships_of.
  change (teamMemberships (purge P d)) with
    ((fun m : gmap string string => filter (fun kv : string * string => ~ P kv.1) m) <$> teamMemberships d).
  rewrite lookup_fmap. destruct (teamMemberships d !! u) as [m|]; simpl.
  - rewrite lookup_filter_case. simpl. destruct (m !! t); repeat case_decide; done || tauto.
  - rewrite lookup_empty. by case_decide.
Qed.

Lemma memberships_of_delete_user us u u' d :
  memberships_of (set_users us (set_teamMemberships (delete u (teamMemberships d)) d)) u' =
  if decide (u' = u) then ∅ else memberships_of d u'.
Proof.
  unfold memberships_of. simpl. case_decide as Hu; [subst u'; by rewrite lookup_delete_eq|].
  by rewrite lookup_delete_ne.
Qed.

Section purge_fields.
Context (P : string -> Prop) `{!forall t, Decision (P t)} (d : DB).

Lemma teams_purge t : teams (purge P d) !! t = if decide (P t) then None else teams d !! t.
Proof.
  change (teams (purge P d)) with (filter (fun kv : string * Team => ~ P kv.1) (teams d)).
  rewrite lookup_filter_case. simpl. destruct (teams d !! t); repeat case_decide; done || tauto.
Qed.

Lemma organizations_purge k :
  organizations (purge P d) !! k =
  match organizations d !! k with Some o => if decide (P (o_TeamID o)) then None else Some o | None => None end.
Proof.
  change (organizations (purge P d)) with
    (filter (fun kv : string * OrgCell => ~ P (o_TeamID kv.2)) (organizations d)).
  rewrite lookup_filter_case. simpl. destruct (organizations d !! k) as [o|]; simpl; repeat case_decide; done || tauto.
Qed.

Lemma deletedOrganizations_purge k :
  deletedOrganizations (purge P d) !! k =
  match organizations d !! k with
  | Some o => if decide (P (o_TeamID o)) then Some o else deletedOrganizations d !! k
  | None => deletedOrganizations d !! k
  end.
Proof.
  change (deletedOrganizations (purge P d)) with
    (filter (fun kv : string * OrgCell => P (o_TeamID kv.2)) (organizations d) ∪ deletedOrganizations d).
  rewrite lookup_union, lookup_filter_case. simpl.
  destruct (organizations d !! k), (deletedOrganizations d !! k); repeat case_decide; done.
Qed.

End purge_fields.

(** C3: [DeleteUser] always succeeds on a store that satisfies the invariant, in any
    iteration order: the user and all memberships of the user are gone; a team the user was
    the only member of goes away, and its organizations, and only those, move to the deleted
    ones; every other team, organization and membership is untouched. *)
Theorem DeleteUser_spec d u a :
  Inv d -> mtx d = false ->
  exists d', DeleteUser u a d = (Ret tt, d') /\
    users d' = delete u (users d) /\
    (forall u' t, memberships_of d' u' !! t = if decide (u' = u) then None else memberships_of d u' !! t) /\
    (forall t, sole_member d u t -> teams d' !! t = None) /\
    (forall t, ~ sole_member d u t -> teams d' !! t = teams d !! t) /\
    (forall k o, organizations d !! k = Some o -> sole_member d u (o_TeamID o) ->
       organizations d' !! k = None /\ deletedOrganizations d' !! k = Some o) /\
    (forall k o, organizations d !! k = Some o -> ~ sole_member d u (o_TeamID o) ->
       organizations d' !! k = Some o /\ deletedOrganizations d' !! k = deletedOrganizations d !! k) /\
    (forall k, organizations d !! k = None ->
       organizations d' !! k = None /\ deletedOrganizations d' !! k = deletedOrganizations d !! k).
Proof.
  intros Hd Hm. pose proof (DeleteUser_run d u a Hd Hm) as Hrun. cbv zeta in Hrun.
  eexists. split; [exact Hrun|]. clear Hrun.
  split; [done|]. split.
  { intros u' t. rewrite memberships_of_delete_user. case_decide; [apply lookup_empty|].
    rewrite memberships_of_purge. case_decide as Hs; [|done].
    apply count_members_one in Hs as [_ Hno]. by rewrite Hno. }
  setoid_rewrite <- count_members_one. cbn [set_users set_teamMemberships teams organizations deletedOrganizations].
  setoid_rewrite teams_purge. setoid_rewrite organizations_purge. setoid_rewrite deletedOrganizations_purge.
  split_and!.
  - intros t Hs. by rewrite decide_True.
  - intros t Hs. by rewrite decide_False.
  - intros k o -> Hs. by rewrite !decide_True.
  - intros k o -> Hs. by rewrite !decide_False.
  - by intros k ->.
Qed.

End delete.

Import sample.

Lemma DeleteUser_spec_witness :
  Inv sample.d /\ mtx sample.d = false /\
  exists d', DeleteUser "0" "0" sample.d = (Ret tt, d') /\ users d' = delete "0" (users sample.d).
Proof.
  split; [exact sample.inv|]. split; [exact sample.unlocked|].
  destruct (DeleteUser_spec sample.d "0" "0" sample.inv sample.unlocked) as (d' & Hrun & Hu & _).
  exists d'. split; [exact Hrun | exact Hu].
Defined.
