(* ===== verification/MemOrgSpec.v ===== *)
(** What the organization operations of the in-memory users database do. *)
From Stdlib Require Import ZArith Lia Ascii String Sorting.Sorted.
From stdpp Require Import base tactics option gmap strings list pretty relations.
From S2P Require Import Prelude GoStd Users Filter MemDB MemTeam MemOrg MemUser UsersDB MemInv MemSafety MemDelete Sample.

(** * Reading the result of a locked operation *)

Section run.
Context {A : Type}.

Lemma locked_Ret (m : Op A) d a d' :
  locked m d = (Ret a, d') -> exists d1, m (set_mutex true d) = (Ret a, d1) /\ d' = set_mutex false d1 /\ mtx d = false.
Proof.
  unfold locked. simpl. destruct (mtx d); [done|].
  destruct (m (set_mutex true d)) as [[] d1] eqn:Hm; intros [= <- <-]; by exists d1.
Qed.

Lemma locked_run (m : Op A) d o d1 :
  mtx d = false -> m (set_mutex true d) = (o, d1) -> o <> Deadlock -> o <> OutOfFuel ->
  locked m d = (o, set_mutex false d1).
Proof. exact (locked_eq m d o d1). Qed.

(** An operation that only reads. *)
Lemma locked_reads (m : Op A) d o :
  mtx d = false -> m (set_mutex true d) = (o, set_mutex true d) -> o <> Deadlock -> o <> OutOfFuel ->
  locked m d = (o, d).
Proof.
  intros Hm Hr ? ?. rewrite (locked_run m d o (set_mutex true d)) by done.
  f_equal. destruct d; simpl in *. by subst.
Qed.

End run.

Section interface.
Context `{GoRange} (fuel : nat) (bcrypt_generate : string -> Z -> error + string).

(** * The invariant and the mutex *)

(** C4: every state the database can reach from an empty one, by any sequence of calls of
    the interface, by any clients, for any iteration order of its maps and any clock and
    random source, satisfies the store invariant. *)
Theorem reachable_invariant cost e d :
  rtc (step fuel bcrypt_generate) (New cost e) d -> Inv d.
Proof. apply reachable_Inv. Qed.

(** C5: no call of the interface blocks on the mutex its own goroutine holds, and every call
    that ends, by a return, an error or a panic, leaves the mutex free. *)
Theorem mutex_discipline A (c : DBCall A) d :
  mtx d = false ->
  (memory fuel bcrypt_generate A c d).1 <> Deadlock /\
  ((memory fuel bcrypt_generate A c d).1 <> OutOfFuel ->
   mtx (memory fuel bcrypt_generate A c d).2 = false).
Proof. apply (memory_lock_safe fuel bcrypt_generate A c d). Qed.

End interface.

Section organization.
Context `{GoRange} (fuel : nat).

(** * Creating an organization *)

(** What creating a team on the way leaves alone. *)
Definition same_orgs (d d' : DB) : Prop :=
  organizations d' = organizations d /\ deletedOrganizations d' = deletedOrganizations d.

Lemma generateTeamExternalID_orgs n d d0 :
  same_orgs d0 d -> same_orgs d0 (generateTeamExternalID_loop n d).2.
Proof.
  revert d. induction n as [|n IH]; intros d Hd; [done|]. simpl.
  unfold externalids_Generate, read_env, gets. unfold bind. simpl.
  repeat (case_match; [exact Hd|]). by apply IH.
Qed.

Lemma CreateTeam_orgs name d : same_orgs d (CreateTeam fuel name d).2.
Proof.
  unfold CreateTeam. case_decide; [done|]. unfold Now, read_env, gets, bind at 1. simpl.
  unfold bind at 1. simpl. apply keeps_bind; [by apply generateTeamExternalID_orgs|].
  by intros ext d1 _ Hd1.
Qed.

Lemma AddUserToTeam_orgs u t r d : same_orgs d (AddUserToTeam u t r d).2.
Proof. unfold AddUserToTeam, bind, gets. simpl. by case_decide. Qed.

Lemma AddUserToTeam_member u t r d : is_Some (memberships_of (AddUserToTeam u t r d).2 u !! t).
Proof.
  unfold AddUserToTeam, bind, gets. simpl. case_decide as Ht; [done|].
  unfold memberships_of. simpl. rewrite lookup_insert_eq. simpl. rewrite lookup_insert_eq. by eexists.
Qed.

Lemma CreateTeamAsUser_orgs name u d : same_orgs d (CreateTeamAsUser fuel name u d).2.
Proof.
  unfold CreateTeamAsUser. apply keeps_bind; [apply CreateTeam_orgs|].
  intros t d1 _ [Ho1 Hd1]. unfold bind.
  pose proof (AddUserToTeam_orgs u (t_ID t) AdminRoleID d1) as [Ho2 Hd2].
  destruct (AddUserToTeam u (t_ID t) AdminRoleID d1) as [[] d2]; simpl in *; split; congruence.
Qed.

Lemma CreateTeamAsUser_member name u d t d' :
  CreateTeamAsUser fuel name u d = (Ret t, d') -> is_Some (memberships_of d' u !! t_ID t).
Proof.
  unfold CreateTeamAsUser. intros (t' & d1 & _ & H1)%bind_inv_Ret.
  apply bind_inv_Ret in H1 as ([] & d2 & Ha & [= <- <-]).
  pose proof (AddUserToTeam_member u (t_ID t') AdminRoleID d1) as Hm. by rewrite Ha in Hm.
Qed.

(** The team an organization is created in. *)
Definition team_of_call (u te tn : string) (d' : DB) (t : Team) : Prop :=
  teams d' !! t_ID t = Some t /\ is_Some (memberships_of d' u !! t_ID t) /\
  (te <> EmptyString -> t_ExternalID t = te) /\
  (te = EmptyString -> strings.ToLower tn = strings.ToLower (t_Name t)).

Lemma getTeamUserIsPartOf_spec u te tn d t d' :
  Inv d -> te <> EmptyString -> getTeamUserIsPartOf u te d = (Ret (Some t), d') ->
  d' = d /\ team_of_call u te tn d t.
Proof.
  intros Hd Hte Hrun. pose proof (getTeamUserIsPartOf_Ret _ _ _ _ _ Hd Hrun) as [-> Ht].
  split; [done|]. split; [done|]. unfold getTeamUserIsPartOf in Hrun. rewrite decide_False in Hrun by done.
  unfold bind, gets in Hrun. simpl in Hrun.
  destruct (first_match (fun t0 => bool_decide (t_ExternalID t0 = te)) (teams d)) as [t0|] eqn:Hm; [|done].
  apply first_match_Some in Hm as (k & Hk & He%bool_decide_eq_true).
  case_decide as Hmem; [|done]. destruct Hd as (_ & Hkey & _).
  pose proof (Hkey _ _ Hk) as Hid. simpl in Hid. injection Hrun as Hrun.
  assert (t0 = t) as -> by (rewrite Hid in Hrun; congruence). naive_solver.
Qed.

Lemma ensureUserIsPartOfTeamByName_spec u tn d t d' :
  Inv d -> ensureUserIsPartOfTeamByName fuel u tn d = (Ret t, d') ->
  same_orgs d d' /\ team_of_call u EmptyString tn d' t.
Proof.
  intros Hd Hrun. pose proof (ensureUserIsPartOfTeamByName_Ret _ _ _ _ _ _ Hd Hrun) as Ht.
  unfold ensureUserIsPartOfTeamByName in Hrun. case_decide; [done|].
  unfold gets, bind at 1 in Hrun. simpl in Hrun. unfold bind at 1 in Hrun. simpl in Hrun.
  apply bind_inv_Ret in Hrun as (found & d1 & Hf & H1).
  pose proof (reader_find_team_by_name (teams d) tn (go_range (memberships_of d u)).*1 d) as Hr.
  rewrite Hf in Hr. simpl in Hr. subst d1. destruct found as [t0|].
  - unfold ret in H1. simplify_eq. split; [done|]. split; [done|].
    apply find_team_by_name_Ret in Hf as (id & Hin & Hid & Hn).
    destruct Hd as (_ & Hkey & _). pose proof (Hkey _ _ Hid) as Hk. simpl in Hk. subst id.
    apply list_elem_of_fmap in Hin as ([? r] & -> & Hin%elem_of_go_range). split_and!; [by exists r|done|done].
  - split; [pose proof (CreateTeamAsUser_orgs tn u d) as Ho; by rewrite H1 in Ho|].
    split; [done|]. split; [by eapply CreateTeamAsUser_member|]. split; [done|]. intros _.
    by apply CreateTeamAsUser_Ret in H1 as [_ ->].
Qed.

Lemma Valid_set_ProbeToken t (o : OrgCell) : Valid (set_ProbeToken t o) = Valid o.
Proof. done. Qed.

(** C10: when [CreateOrganizationWithTeam] succeeds, the owner exists, the organization it
    returns is the one stored under its id, is valid, has the given id, name and expiry, an
    external id no live or deleted organization had, whatever the case, and a probe token no
    live organization had (the given one, when one is given); it is in a team the owner is a
    member of, which has the given external id, or else the given name whatever the case.
    All other entries of the two organization maps are unchanged. *)
Theorem CreateOrganizationWithTeam_spec u e n tok te tn exp d o d' :
  Inv d -> CreateOrganizationWithTeam fuel u e n tok te tn exp d = (Ret o, d') ->
  is_Some (users d !! u) /\
  Valid o = None /\ o_ExternalID o = e /\ o_Name o = n /\ o_TrialExpiresAt o = exp /\ o_GCP o = None /\
  organizations d' = <[o_ID o := o]> (organizations d) /\
  deletedOrganizations d' = deletedOrganizations d /\
  (forall k o', organizations d !! k = Some o' \/ deletedOrganizations d !! k = Some o' ->
     same_id (o_ExternalID o') e = false) /\
  (forall k o', organizations d !! k = Some o' -> o_ProbeToken o' <> o_ProbeToken o) /\
  (tok <> EmptyString -> o_ProbeToken o = tok) /\
  exists team, team_of_call u te tn d' team /\
    o_TeamID o = t_ID team /\ o_TeamExternalID o = t_ExternalID team.
Proof.
  intros Hd Hrun. unfold CreateOrganizationWithTeam in Hrun.
  apply locked_Ret in Hrun as (d1 & Hrun & -> & Hmtx).
  apply bind_inv_Ret in Hrun as (usr & d2 & Hu & Hrun).
  unfold findUserByID, bind, gets in Hu. simpl in Hu. apply or_else_Ret in Hu as [Hu ->].
  case_match; [done|]. apply bind_inv_Ret in Hrun as (now & d3 & [= _ <-] & Hrun).
  apply bind_inv_Ret in Hrun as (team & d4 & Hteam & Hrun).
  apply bind_inv_Ret in Hrun as (id & d5 & [= <- <-] & Hrun).
  apply bind_inv_Ret in Hrun as (t & d6 & [-> ->]%deref_Ret & Hrun).
  cbv zeta in Hrun. destruct (Valid (new_org _ e n now exp t)) eqn:Hvalid; [done|].
  apply bind_inv_Ret in Hrun as (used & d7 & Hused & Hrun). destruct used; [done|].
  pose proof (reader_organizationExists e true d4) as Hr. rewrite Hused in Hr. simpl in Hr. subst d7.
  apply organizationExists_false in Hused as [Hlive Hdead].
  apply bind_inv_Ret in Hrun as (tk & d8 & Htok & Hrun).
  apply find_token_Ret in Htok as ([env' ->] & Hfree & Htk).
  unfold bind, modify, ret in Hrun. injection Hrun as <- <-.
  match type of Hteam with _ ?s = _ => assert (Hs : same_orgs s d4 /\ team_of_call u te tn d4 t) end.
  { case_match; [apply getTeamUserIsPartOf_spec with (tn := tn) in Hteam; [|done|by apply negb_true_iff, bool_decide_eq_false in H1] |].
    - destruct Hteam as [-> ?]. done.
    - apply negb_false_iff, bool_decide_eq_true in H1. subst te. case_match; [|done].
      apply bind_inv_Ret in Hteam as (t' & d9 & Ht & [= -> ->]).
      by apply ensureUserIsPartOfTeamByName_spec in Ht. }
  destruct Hs as [[Ho Hdel] Hteam']. simpl in Ho, Hdel. rewrite Ho in Hlive, Hfree. rewrite Hdel in Hdead.
  split; [by eexists|]. split; [done|]. split_and!; simpl; try done; try congruence.
  - intros k o' [Hk|Hk]; eauto.
  - exists t. done.
Qed.

(** * Changing and deleting an organization *)

Lemma changeOrg_run e f d k o :
  Inv d -> mtx d = false -> organizations d !! k = Some o -> same_id (o_ExternalID o) e = true ->
  changeOrg e f d =
  (match (f o).2 with Some err => Err err | None => Ret (f o).1 end,
   set_organizations (<[k := (f o).1]> (organizations d)) d).
Proof.
  intros Hd Hm Hk He. unfold changeOrg, locked. simpl. rewrite Hm.
  unfold bind at 1. rewrite (find_ext_found (set_mutex true d) k o) by done.
  destruct (f o) as [o' [err|]]; unfold bind, modify; simpl; f_equal; destruct d; simpl in *; by subst.
Qed.

Lemma find_ext_missing e d :
  (forall k o, organizations d !! k = Some o -> same_id (o_ExternalID o) e = false) ->
  findOrganizationByExternalID e d = (Err ErrNotFound, d).
Proof.
  intros Hno. destruct (find_ext_cases e d) as [(k & o & Hf)|]; [|done].
  apply find_ext_Ret in Hf as (_ & Hk & He). by rewrite (Hno _ _ Hk) in He.
Qed.

Lemma changeOrg_missing e f d :
  mtx d = false -> (forall k o, organizations d !! k = Some o -> same_id (o_ExternalID o) e = false) ->
  changeOrg e f d = (Err ErrNotFound, d).
Proof.
  intros Hm Hno. apply locked_reads; try done. by rewrite (bind_Err _ _ _ _ _ (find_ext_missing _ (set_mutex true d) Hno)).
Qed.

(** [UpdateOrganization] on every branch. A name that is too long changes nothing; an
    unknown external id is [ErrNotFound]; otherwise exactly the fields present in the update
    are written to the organization with that external id, whatever its case, no other
    organization changes, and the result is the updated organization if it is valid. If it
    is not, the error of [Valid] is returned, and the invalid update stays in the store. *)
Theorem UpdateOrganization_spec e update d :
  Inv d -> mtx d = false ->
  let too_long := match ow_Name update with Some n => (organizationMaxLength <? String.length n)%nat | None => false end in
  (too_long = true -> UpdateOrganization e update d = (Err errorOrgNameLengthConstraint, d)) /\
  (too_long = false ->
   (forall k o, organizations d !! k = Some o -> same_id (o_ExternalID o) e = false) ->
   UpdateOrganization e update d = (Err ErrNotFound, d)) /\
  (too_long = false -> forall k o, organizations d !! k = Some o -> same_id (o_ExternalID o) e = true ->
   let o' := apply_update update o in
   UpdateOrganization e update d =
   (match Valid o' with Some err => Err err | None => Ret (load_org d o') end,
    set_organizations (<[k := o']> (organizations d)) d)).
Proof.
  intros Hd Hm too_long. unfold UpdateOrganization. fold too_long. clearbody too_long. split_and!.
  - by intros ->.
  - intros -> Hno. unfold bind. by rewrite changeOrg_missing.
  - intros -> k o Hk He. cbv zeta. unfold bind. rewrite (changeOrg_run _ _ _ k o) by done. simpl.
    by destruct (Valid (apply_update update o)).
Qed.

(** Deleting an organization that exists moves its record to the deleted ones: afterwards
    no organization with that external id exists, the id still counts as used (so that
    [CreateOrganizationWithTeam] refuses it), and every other organization is untouched.
    Deleting one that does not exist succeeds and changes nothing. *)
Theorem DeleteOrganization_spec e a d :
  Inv d -> mtx d = false ->
  (forall k o, organizations d !! k = Some o -> same_id (o_ExternalID o) e = true ->
   exists d', DeleteOrganization e a d = (Ret tt, d') /\
     organizations d' = delete k (organizations d) /\
     deletedOrganizations d' = <[k := o]> (deletedOrganizations d) /\
     OrganizationExists e d' = (Ret false, d') /\
     ExternalIDUsed e d' = (Ret true, d')) /\
  ((forall k o, organizations d !! k = Some o -> same_id (o_ExternalID o) e = false) ->
   DeleteOrganization e a d = (Ret tt, d)).
Proof.
  intros Hd Hm. split.
  - intros k o Hk He. pose proof Hd as (_ & _ & (Hkey & _ & (Hu & _) & _) & _).
    pose proof (Hkey _ _ Hk) as Hid. simpl in Hid.
    exists (move_to_deleted o d). rewrite (DeleteOrganization_run _ k o) by done.
    assert (Hlive : forall k' o', delete k (organizations d) !! k' = Some o' -> same_id (o_ExternalID o') e = false).
    { intros k' o' [Hne Hk']%lookup_delete_Some. apply not_true_iff_false. intros He'. apply Hne.
      apply (Hu k k' o o' Hk Hk'). apply same_id_trans with e; [done|]. by rewrite same_id_sym. }
    unfold OrganizationExists, ExternalIDUsed. split; [done|].
    unfold move_to_deleted. simpl. rewrite Hid. split; [done|]. split; [done|].
    split; apply locked_reads; try done; rewrite organizationExists_eq; simpl;
      rewrite (proj2 (first_entry_None _ _) Hlive); [done|].
    destruct (first_entry (fun o0 => same_id (o_ExternalID o0) e) (<[k:=o]> (deletedOrganizations d))) eqn:Hf; [done|].
    rewrite first_entry_None in Hf. specialize (Hf k o). rewrite lookup_insert_eq, He in Hf. by specialize (Hf eq_refl).
  - intros Hno. apply locked_reads; try done. unfold bind at 1, try.
    by rewrite (find_ext_missing _ (set_mutex true d) Hno).
Qed.

(** * Finding an organization *)

(** A probe token identifies at most one live organization:
    [FindOrganizationByProbeToken] returns the organization with that token when there is
    one, in any iteration order, and [ErrNotFound] otherwise. *)
Theorem FindOrganizationByProbeToken_spec t d :
  Inv d -> mtx d = false ->
  (forall k o, organizations d !! k = Some o -> o_ProbeToken o = t ->
   FindOrganizationByProbeToken t d = (Ret (load_org d o), d)) /\
  ((forall k o, organizations d !! k = Some o -> o_ProbeToken o <> t) ->
   FindOrganizationByProbeToken t d = (Err ErrNotFound, d)).
Proof.
  intros Hd Hm. pose proof Hd as (_ & _ & (_ & _ & _ & Htok & _) & _).
  unfold FindOrganizationByProbeToken, find_org. split.
  - intros k o Hk Ht. apply locked_reads; try done. unfold gets, bind at 1. simpl.
    rewrite (first_match_unique _ _ k o); [done|done|by apply bool_decide_eq_true|].
    intros k' o' Hk' Ht'%bool_decide_eq_true. assert (k' = k) as -> by (apply (Htok _ _ o' o); congruence). congruence.
  - intros Hno. apply locked_reads; try done. unfold gets, bind at 1. simpl.
    rewrite (proj2 (first_match_None _ _)); [done|]. intros k o Hk. apply bool_decide_eq_false. by eapply Hno.
Qed.

(** * Generating an external id *)

(** No live or deleted organization has this external id. *)
Definition id_free (d : DB) (e : string) : Prop :=
  forall k o, organizations d !! k = Some o \/ deletedOrganizations d !! k = Some o ->
    same_id (o_ExternalID o) e = false.

Lemma organizationExists_free e d b :
  organizationExists e true d = (Ret b, d) -> b = false <-> id_free d e.
Proof.
  intros Hrun. split.
  - intros ->. apply organizationExists_false in Hrun as [Hl Hd]. intros k o [Hk|Hk]; eauto.
  - intros Hfree. rewrite organizationExists_eq in Hrun. injection Hrun as <-.
    rewrite (proj2 (first_entry_None _ (organizations d))) by (intros; eapply Hfree; eauto).
    rewrite (proj2 (first_entry_None _ (deletedOrganizations d))) by (intros; eapply Hfree; eauto).
    done.
Qed.

Lemma id_free_compute e d : (organizationExists e true d).1 = Ret false -> id_free d e.
Proof.
  rewrite organizationExists_eq. simpl. intros [= Hb]. apply (organizationExists_free e d false); [|done].
  rewrite organizationExists_eq. simpl. by rewrite Hb.
Qed.

(** The [m]-th id the random source will give. *)
Definition draw (d : DB) (m : nat) : string := gen_id (env d) (ticks (env d) + m).

Lemma generate_external_id_run n m d :
  (m < n)%nat -> id_free d (draw d m) -> (forall i, (i < m)%nat -> ~ id_free d (draw d i)) ->
  exists e, generate_external_id n d = (Ret (draw d m), set_env e d).
Proof.
  revert m d. induction n as [|n IH]; intros m d Hm Hfree Hused; [lia|]. simpl.
  unfold externalids_Generate, read_env. unfold bind at 1. simpl.
  set (d1 := set_env (tick (env d)) d).
  assert (Hext : gen_id (env d) (ticks (env d)) = draw d 0) by (unfold draw; f_equal; lia).
  pose proof (organizationExists_eq (draw d 0) true d1) as Hrun. rewrite <- Hext in Hrun.
  unfold bind. rewrite Hrun. apply organizationExists_free in Hrun.
  destruct m as [|m].
  - rewrite (proj2 Hrun) by (by rewrite Hext). rewrite Hext. by eexists.
  - match goal with |- context [if ?b then _ else _] => destruct b eqn:Hb end.
    + edestruct (IH m d1) as [e He]; [lia| |intros i Hi|].
      * replace (draw d1 m) with (draw d (S m)) by (unfold draw; simpl; f_equal; lia). exact Hfree.
      * replace (draw d1 i) with (draw d (S i)) by (unfold draw; simpl; f_equal; lia).
        apply (Hused (S i)). lia.
      * exists e. rewrite He. unfold draw. simpl. do 2 f_equal; f_equal; lia.
    + exfalso. apply (Hused O); [lia|]. rewrite <- Hext. by apply Hrun.
Qed.

(** When one of the next [fuel] ids of the random source is free,
    [GenerateOrganizationExternalID] ends and returns the first of them that is: an id no
    live or deleted organization has, whatever the case. *)
Theorem GenerateOrganizationExternalID_spec m d :
  mtx d = false -> (m < fuel)%nat -> id_free d (draw d m) ->
  (forall i, (i < m)%nat -> ~ id_free d (draw d i)) ->
  exists e, GenerateOrganizationExternalID fuel d = (Ret (draw d m), set_env e d).
Proof.
  intros Hm Hlt Hfree Hused.
  destruct (generate_external_id_run fuel m (set_mutex true d) Hlt Hfree Hused) as [e He].
  exists e. unfold GenerateOrganizationExternalID.
  rewrite (locked_run _ _ _ _ Hm He) by done. f_equal. destruct d; simpl in *. by subst.
Qed.

(** * GCP accounts *)

Lemma UpdateGCP_run a consumer name level status d l g :
  mtx d = false -> gcpAccounts d !! a = Some l -> gcp_heap d !! l = Some g ->
  let g' := mkGCP (g_ID g) a true (g_CreatedAt g) consumer name level status in
  exists d', UpdateGCP a consumer name level status d = (Ret tt, d') /\
    organizations d' = organizations d /\ deletedOrganizations d' = deletedOrganizations d /\
    FindGCP a d' = (Ret g', d') /\
    forall o, load_org d' o = if decide (o_GCP o = Some l) then set_GCP (Some g') (load_org d o) else load_org d o.
Proof.
  intros Hm Ha Hl g'. eexists. split.
  { apply locked_run; [done| |done|done]. unfold gcp_at, bind, get. simpl. rewrite Ha. simpl. by rewrite Hl. }
  fold g'. split; [done|]. split; [done|]. split.
  - apply locked_reads; try done. unfold gcp_at, bind, get. simpl. rewrite lookup_insert_eq. simpl.
    by rewrite lookup_insert_eq.
  - intros o. unfold load_org, map_GCP. simpl. case_decide as Ho.
    + rewrite Ho. simpl. rewrite lookup_insert_eq. by destruct o.
    + f_equal. destruct (o_GCP o) as [l'|] eqn:Hp; [|done]. simpl. rewrite lookup_insert_ne; [done|congruence].
Qed.

(** [UpdateGCP] activates the account and writes its subscription through the pointer
    the organizations share: every organization, live or deleted, attached to the account
    shows the new values at once, and those attached to another account or to none are
    unchanged. *)
Theorem UpdateGCP_shared a consumer name level status d l g :
  mtx d = false -> gcpAccounts d !! a = Some l -> gcp_heap d !! l = Some g ->
  let g' := mkGCP (g_ID g) a true (g_CreatedAt g) consumer name level status in
  exists d', UpdateGCP a consumer name level status d = (Ret tt, d') /\
    organizations d' = organizations d /\ deletedOrganizations d' = deletedOrganizations d /\
    FindGCP a d' = (Ret g', d') /\
    forall o, load_org d' o = if decide (o_GCP o = Some l) then set_GCP (Some g') (load_org d o) else load_org d o.
Proof. apply UpdateGCP_run. Qed.

(** * The organizations a user can reach *)

(** One of the users is a member of the team of the organization. *)
Definition reachable_by (d : DB) (userIDs : list string) (o : OrgCell) : Prop :=
  exists u, u ∈ userIDs /\ is_Some (memberships_of d u !! o_TeamID o).

Lemma add_team_orgs_spec t os acc id :
  is_Some (add_team_orgs t os acc !! id) <->
  is_Some (acc !! id) \/ exists k o, os !! k = Some o /\ o_TeamID o = t /\ o_ID o = id.
Proof.
  unfold add_team_orgs.
  rewrite (foldl_keys _ (fun (ko : string * OrgCell) id => o_TeamID ko.2 = t /\ o_ID ko.2 = id)).
  - apply or_iff_compat_l. split.
    + intros ([k o] & Hk%elem_of_go_range & ?). by exists k, o.
    + intros (k & o & Hk & ?). exists (k, o). by rewrite elem_of_go_range.
  - intros b [k o]. simpl. case_decide; [|naive_solver].
    destruct (decide (o_ID o = id)) as [->|]; [rewrite lookup_insert_eq; naive_solver |
      rewrite lookup_insert_ne by done; naive_solver].
Qed.

Lemma org_ids_of_users_spec d us id :
  is_Some (org_ids_of_users d us false !! id) <->
  exists k o, organizations d !! k = Some o /\ o_ID o = id /\ reachable_by d us o.
Proof.
  unfold org_ids_of_users, reachable_by.
  rewrite (foldl_keys _ (fun u id => exists k o, organizations d !! k = Some o /\ o_ID o = id /\
                                     is_Some (memberships_of d u !! o_TeamID o))).
  - rewrite lookup_empty. split; [intros [[? ?]|?]; [done|naive_solver] | naive_solver].
  - intros b u. rewrite (foldl_keys _ (fun (tr : string * string) id =>
      exists k o, organizations d !! k = Some o /\ o_TeamID o = tr.1 /\ o_ID o = id)).
    + apply or_iff_compat_l. split.
      * intros ([t r] & Ht%elem_of_go_range & k & o & Hk & Hot & <-). exists k, o.
        simpl in Hot. subst t. split_and!; [done..|by exists r].
      * intros (k & o & Hk & <- & [r Hr]). exists (o_TeamID o, r). rewrite elem_of_go_range. naive_solver.
    + intros b' [t r]. apply add_team_orgs_spec.
Qed.

Lemma fetch_orgs d ids :
  (forall id, is_Some (ids !! id) -> is_Some (organizations d !! id)) ->
  exists l,
    fold_m (fun acc '(orgID, _) =>
        do o <- or_else (match organizations d !! orgID with Some o => Some o | None => None end) ErrNotFound;
        ret (acc ++ [o])) (go_range ids) [] d = (Ret (E:=error) l, d) /\
    (Some <$> l) = (fun iu : string * unit => organizations d !! iu.1) <$> go_range ids.
Proof.
  intros Hids.
  assert (Hin : forall x, x ∈ go_range ids -> is_Some (organizations d !! x.1)).
  { intros [id []] Hx%elem_of_go_range. apply Hids. by eexists. }
  revert Hin. generalize (go_range ids). clear Hids ids.
  assert (Hgen : forall l acc, (forall x : string * unit, x ∈ l -> is_Some (organizations d !! x.1)) ->
    exists r, fold_m (fun acc '(orgID, _) =>
        do o <- or_else (match organizations d !! orgID with Some o => Some o | None => None end) ErrNotFound;
        ret (acc ++ [o])) l acc d = (Ret (E:=error) (acc ++ r), d) /\
      (Some <$> r) = (fun iu : string * unit => organizations d !! iu.1) <$> l);
    [|intros l Hl; by apply (Hgen l [])].
  induction l as [|[id []] l IH]; intros acc Hin; [exists []; by rewrite app_nil_r|].
  destruct (Hin (id, ())) as [o Ho]; [by left|]. simpl in Ho.
  destruct (IH (acc ++ [o])) as (r & Hr & Hmap); [intros x Hx; apply Hin; by right|].
  exists (o :: r). split; [|rewrite !fmap_cons, Hmap; simpl; by rewrite Ho].
  cbn [fold_m]. rewrite (bind_Ret _ _ d (acc ++ [o]) d) by (simpl; unfold bind; by rewrite Ho).
  rewrite Hr. by rewrite <- app_assoc.
Qed.

Lemma fmap_load_sorted d l :
  StronglySorted (fun a b => o_CreatedAt b <= o_CreatedAt a) l ->
  StronglySorted (fun a b => o_CreatedAt b <= o_CreatedAt a) (load_org d <$> l).
Proof.
  induction 1 as [|o l Hs IH Ha]; simpl; constructor; [done|].
  apply List.Forall_map. eapply List.Forall_impl; [|exact Ha]. done.
Qed.

Lemma ListOrganizationsForUserIDs_run us d :
  Inv d -> mtx d = false ->
  exists l, ListOrganizationsForUserIDs us d = (Ret l, d) /\
    (forall o, o ∈ l <-> exists k c, organizations d !! k = Some c /\ reachable_by d us c /\ o = load_org d c) /\
    NoDup (o_ID <$> l) /\
    StronglySorted (fun a b => o_CreatedAt b <= o_CreatedAt a) l.
Proof.
  intros Hd Hm. pose proof Hd as (_ & _ & (Hkey & _) & _).
  set (d1 := set_mutex true d). set (ids := org_ids_of_users d1 us false).
  assert (Hids : forall id, is_Some (ids !! id) <->
            exists o, organizations d !! id = Some o /\ reachable_by d us o).
  { intros id. unfold ids. rewrite org_ids_of_users_spec. split.
    - intros (k & o & Hk & <- & Hr). exists o. pose proof (Hkey _ _ Hk) as Hid. simpl in Hid. by rewrite Hid.
    - intros (o & Ho & Hr). exists id, o. split_and!; [done|by apply (Hkey _ _ Ho)|done]. }
  destruct (fetch_orgs d1 ids) as (l & Hrun & Hl).
  { intros id (o & Ho & _)%Hids. by exists o. }
  assert (Hmem : forall o, o ∈ l <-> exists k, organizations d !! k = Some o /\ reachable_by d us o).
  { intros o. transitivity (Some o ∈ Some <$> l); [rewrite list_elem_of_fmap; naive_solver|].
    rewrite Hl, list_elem_of_fmap. split.
    - intros ([id []] & Ho & Hin%elem_of_go_range). simpl in Ho. exists id. split; [done|].
      assert (Hs : is_Some (ids !! id)) by by eexists. apply Hids in Hs as (o' & Ho' & Hr).
      change (organizations d1) with (organizations d) in Ho. congruence.
    - intros (id & Ho & Hr). assert (Hs : is_Some (ids !! id)) by (apply Hids; by exists o).
      destruct Hs as [[] Hs]. exists (id, ()). by rewrite elem_of_go_range. }
  assert (Hnd : NoDup (o_ID <$> l)).
  { apply (NoDup_fmap_1 Some). rewrite <- list_fmap_compose.
    replace ((Some ∘ o_ID) <$> l) with (fmap o_ID <$> (Some <$> l)) by by rewrite <- list_fmap_compose.
    rewrite Hl, <- list_fmap_compose. replace (_ <$> go_range ids) with (Some <$> (go_range ids).*1).
    { apply NoDup_fmap_2; [apply _|]. apply NoDup_go_range_keys. }
    rewrite <- list_fmap_compose. apply list_fmap_ext. intros i [id []] Hi. simpl.
    assert (Hs : is_Some (ids !! id)) by (eexists; apply elem_of_go_range; by eapply list_elem_of_lookup_2).
    apply Hids in Hs as (o & Ho & _). change (organizations d1) with (organizations d).
    rewrite Ho. simpl. f_equal. symmetry. by apply (Hkey _ _ Ho). }
  exists (load_org d <$> organizationsByCreatedAt l). split_and!.
  - apply locked_reads; try done. unfold bind at 1, gets. fold d1 ids.
    unfold bind at 1, get. unfold bind.
    match goal with |- context [fold_m ?f ?x ?b ?s] =>
      replace (fold_m f x b s) with (Ret (E:=error) l, d1) by (symmetry; exact Hrun) end.
    done.
  - intros o. rewrite list_elem_of_fmap. unfold organizationsByCreatedAt.
    setoid_rewrite sort.elem_of_ByDescending. setoid_rewrite Hmem. naive_solver.
  - rewrite <- list_fmap_compose. unfold organizationsByCreatedAt.
    rewrite (sort.ByDescending_perm o_CreatedAt l). done.
  - apply fmap_load_sorted, sort.ByDescending_sorted.
Qed.

(** [ListOrganizationsForUserIDs] returns, without changing the store, every live
    organization of a team one of the users is a member of, nothing else, each once, the most
    recently created first. *)
Theorem ListOrganizationsForUserIDs_spec us d :
  Inv d -> mtx d = false ->
  exists l, ListOrganizationsForUserIDs us d = (Ret l, d) /\
    (forall o, o ∈ l <-> exists k c, organizations d !! k = Some c /\ reachable_by d us c /\ o = load_org d c) /\
    NoDup (o_ID <$> l) /\
    StronglySorted (fun a b => o_CreatedAt b <= o_CreatedAt a) l.
Proof. apply ListOrganizationsForUserIDs_run. Qed.

End organization.

(** * The theorems at a concrete state *)

Import sample.

Lemma reachable_invariant_witness : rtc (step fuel hash) (New 14 env0) sample.d /\ Inv sample.d.
Proof. split; [exact reachable | exact (reachable_invariant fuel hash 14 env0 sample.d reachable)]. Defined.

Lemma mutex_discipline_witness :
  mtx sample.d = false /\ mtx (memory fuel hash _ (CallDeleteUser "0" "0") sample.d).2 = false.
Proof.
  split; [exact unlocked|].
  apply (mutex_discipline fuel hash _ (CallDeleteUser "0" "0") sample.d unlocked). vm_compute. discriminate.
Defined.

Definition created : outcome error OrgCell * DB :=
  CreateOrganizationWithTeam fuel "0" "new-org-77" "New" "tok" both EmptyString 9 sample.d.

Lemma CreateOrganizationWithTeam_spec_witness :
  exists o, created.1 = Ret o /\ o_ExternalID o = "new-org-77" /\ o_ProbeToken o = "tok" /\ o_TeamID o = "1".
Proof.
  destruct created as [[o| | | |] d'] eqn:Hrun;
    try (exfalso; apply (f_equal (fun r => is_ret r.1)) in Hrun; vm_compute in Hrun; discriminate).
  exists o. split; [done|]. unfold created in Hrun.
  pose proof (CreateOrganizationWithTeam_spec fuel "0" "new-org-77" "New" "tok" both EmptyString 9 sample.d o d'
    inv Hrun) as (_ & _ & He & _ & _ & _ & _ & _ & _ & _ & Ht & _).
  split; [exact He|]. split; [apply Ht; discriminate|].
  apply (f_equal (fun r => match r.1 with Ret o => o_TeamID o | _ => EmptyString end)) in Hrun.
  simpl in Hrun. rewrite <- Hrun. vm_compute. reflexivity.
Defined.

Definition rename (n : string) : OrgWriteView := mkOrgWriteView (Some n) None None None None None None None.
Definition own : OrgCell := default (new_org "" "" "" 0 0 (mkTeam "" "" "" "" None 0 None None 0 None)) (organizations sample.d !! "0").

Lemma own_stored : organizations sample.d !! "0" = Some own.
Proof. vm_compute. reflexivity. Qed.

Lemma UpdateOrganization_spec_witness :
  (UpdateOrganization "OWN-org-01" (rename EmptyString) sample.d).1 = Err ErrOrgNameCannotBeBlank.
Proof.
  destruct (UpdateOrganization_spec "OWN-org-01" (rename EmptyString) sample.d inv unlocked) as (_ & _ & Hok).
  rewrite (Hok eq_refl "0" own own_stored eq_refl). vm_compute. reflexivity.
Defined.

Lemma DeleteOrganization_spec_witness :
  exists d', DeleteOrganization "Own-Org-01" "0" sample.d = (Ret tt, d') /\ ExternalIDUsed "Own-Org-01" d' = (Ret true, d').
Proof.
  destruct (DeleteOrganization_spec "Own-Org-01" "0" sample.d inv unlocked) as [Hok _].
  destruct (Hok "0" own own_stored eq_refl) as (d' & Hrun & _ & _ & _ & Hused).
  exists d'. split; [exact Hrun | exact Hused].
Defined.

Lemma FindOrganizationByProbeToken_spec_witness :
  FindOrganizationByProbeToken "token4" sample.d = (Ret (load_org sample.d own), sample.d).
Proof.
  apply (FindOrganizationByProbeToken_spec "token4" sample.d inv unlocked) with "0"; [exact own_stored|reflexivity].
Defined.

Definition taken_env : Env := mkEnv (clock env0) (fun n => if (n <? 2)%nat then "own-org-01" else "free-id-00") (gen_token env0) 0.

Definition busy : DB := set_env taken_env sample.d.

Lemma GenerateOrganizationExternalID_spec_witness :
  exists e, GenerateOrganizationExternalID fuel busy = (Ret "free-id-00", set_env e busy).
Proof.
  assert (Hused : forall i, (i < 2)%nat -> ~ id_free busy (draw busy i)).
  { intros i Hi Hfree. specialize (Hfree "0" own (or_introl own_stored)).
    destruct i as [|[|i]]; [vm_compute in Hfree; discriminate Hfree|vm_compute in Hfree; discriminate Hfree|lia]. }
  assert (Hfree : id_free busy (draw busy 2)) by (apply id_free_compute; vm_compute; reflexivity).
  assert (Hm : mtx busy = false) by (vm_compute; reflexivity).
  destruct (GenerateOrganizationExternalID_spec fuel 2 busy Hm ltac:(unfold fuel; lia) Hfree Hused) as [e He].
  exists e. rewrite He. replace (draw busy 2) with "free-id-00" by (vm_compute; reflexivity). reflexivity.
Defined.

Definition account : GoogleCloudPlatform := default (mkGCP "" "" false 0 "" "" "" "") (gcp_heap sample.d !! 0%nat).

Lemma UpdateGCP_shared_witness :
  exists d', UpdateGCP "E-ACCOUNT" "c" "s" "enterprise" "ACTIVE" sample.d = (Ret tt, d') /\
    FindGCP "E-ACCOUNT" d' =
    (Ret (mkGCP (g_ID account) "E-ACCOUNT" true (g_CreatedAt account) "c" "s" "enterprise" "ACTIVE"), d').
Proof.
  destruct (UpdateGCP_shared "E-ACCOUNT" "c" "s" "enterprise" "ACTIVE" sample.d 0%nat account unlocked
    ltac:(vm_compute; reflexivity) ltac:(vm_compute; reflexivity)) as (d' & Hrun & _ & _ & Hfind & _).
  exists d'. split; [exact Hrun | exact Hfind].
Defined.

Lemma ListOrganizationsForUserIDs_spec_witness :
  exists l, ListOrganizationsForUserIDs ["1"] sample.d = (Ret l, sample.d) /\
    StronglySorted (fun a b => o_CreatedAt b <= o_CreatedAt a) l.
Proof.
  destruct (ListOrganizationsForUserIDs_spec ["1"] sample.d inv unlocked) as (l & Hrun & _ & _ & Hs).
  exists l. split; [exact Hrun | exact Hs].
Defined.

(** Ids are numbers of entries, so that after a deletion a new organization can take
    the id of a live one: here the organization that was created last is lost. *)
Theorem create_after_delete_overwrites :
  let d1 := run (CallDeleteOrganization "own-org-01" "0") sample.d in
  let d2 := run (CallCreateOrganizationWithTeam "0" "next-org-04" "Next" EmptyString both EmptyString 9) d1 in
  is_ret (memory fuel hash _ (CallFindOrganizationByID "quiet-river-10") d1).1 = true /\
  (memory fuel hash _ (CallFindOrganizationByID "quiet-river-10") d2).1 = Err ErrNotFound.
Proof. vm_compute. split; reflexivity. Qed.
