(* ===== verification/MemUserSpec.v ===== *)
(** What the user operations of the in-memory users database do. *)
From Stdlib Require Import ZArith Lia Ascii String Sorting.Sorted.
From stdpp Require Import base tactics option gmap strings list pretty relations.
From S2P Require Import Prelude GoStd Users Filter MemDB MemTeam MemOrg MemUser UsersDB MemInv MemSafety Sample MemDelete MemOrgSpec.

Section user.
Context `{GoRange}.

(** * Logins *)

Lemma reader_findUserByID id : reader (findUserByID id).
Proof. unfold findUserByID. auto with go. Qed.

Lemma reader_findUserByEmail e : reader (findUserByEmail e).
Proof. unfold findUserByEmail. auto with go. Qed.

Lemma reader_findUserByLogin p i : reader (findUserByLogin p i).
Proof.
  unfold findUserByLogin. apply reader_bind; [auto with go|]. intros ls.
  case_match; [apply reader_findUserByID | auto with go].
Qed.

Lemma findUserByLogin_stored d p i l u :
  Inv d -> logins d !! login_key l = Some l -> l_Provider l = p -> l_ProviderID l = i ->
  users d !! l_UserID l = Some u -> findUserByLogin p i d = (Ret u, d).
Proof.
  intros Hd Hl <- <- Hu. pose proof Hd as ((_ & Hkey & _) & _).
  unfold findUserByLogin, bind, gets. simpl.
  rewrite (first_match_unique _ _ (login_key l) l); [unfold findUserByID, bind, gets; simpl; by rewrite Hu|done| |].
  - by rewrite !bool_decide_eq_true_2.
  - intros k' l' Hk' [Hp%bool_decide_eq_true Hi%bool_decide_eq_true]%andb_true_iff.
    pose proof (Hkey _ _ Hk') as Hk. simpl in Hk. subst k'.
    assert (He : login_key l' = login_key l) by (unfold login_key; congruence). rewrite He in Hk'. congruence.
Qed.

Definition attach (l : Login) (d : DB) : DB :=
  set_logins (<[login_key l := l]> (logins d)) (set_env (tick (env d)) d).

(** [AddLoginToUser] when the login is that of [owner] already. *)
Lemma AddLoginToUser_known u p i s d x owner :
  mtx d = false -> users d !! u = Some x ->
  (forall b, findUserByLogin p i (set_mutex b d) = (Ret owner, set_mutex b d)) ->
  AddLoginToUser u p i s d =
  if decide (u_ID owner <> u) then (Err (AlreadyAttachedError (u_ID owner) (u_Email owner)), d)
  else (Ret tt, attach (mkLogin u p i s (clock (env d) (ticks (env d)))) d).
Proof.
  intros Hm Hu Hfind. unfold AddLoginToUser, locked. simpl. rewrite Hm.
  rewrite (bind_Ret (findUserByID u) _ _ x (set_mutex true d)) by (unfold findUserByID, bind, gets; simpl; by rewrite Hu).
  rewrite (bind_Ret _ _ _ (inr owner) (set_mutex true d)) by (unfold try; by rewrite Hfind).
  unfold bind. case_decide; simpl; f_equal; destruct d; simpl in *; by subst.
Qed.

Lemma AddLoginToUser_Ret u p i s d d1 :
  AddLoginToUser u p i s d = (Ret tt, d1) ->
  is_Some (users d !! u) /\ mtx d = false /\ d1 = attach (mkLogin u p i s (clock (env d) (ticks (env d)))) d.
Proof.
  intros (d0 & Hrun & -> & Hm)%locked_Ret.
  apply bind_inv_Ret in Hrun as (usr & d2 & Hu & Hrun).
  unfold findUserByID, bind, gets in Hu. simpl in Hu. apply or_else_Ret in Hu as [Hu ->].
  apply bind_inv_Ret in Hrun as (e & d2 & He & Hrun).
  assert (d2 = set_mutex true d) as ->.
  { pose proof (reader_try _ (reader_findUserByLogin p i) (set_mutex true d)) as Hr. by rewrite He in Hr. }
  apply bind_inv_Ret in Hrun as ([] & d2 & Hchk & Hrun).
  assert (d2 = set_mutex true d) as -> by (repeat case_match; unfold throw, ret in Hchk; congruence).
  unfold bind, Now, read_env, modify in Hrun. simpl in Hrun. injection Hrun as <-.
  split; [by eexists|]. split; [done|]. destruct d; simpl in *. by subst.
Qed.

(** [AddLoginToUser] is idempotent: after a call that succeeds, the login belongs to the
    user and finds them, and the same call again succeeds and changes nothing but the session
    and the creation time of that one login; no other user can take it over. *)
Theorem AddLoginToUser_idempotent u p i s d d1 :
  Inv d -> AddLoginToUser u p i s d = (Ret tt, d1) ->
  (exists usr, users d1 !! u = Some usr /\ FindUserByLogin p i d1 = (Ret usr, d1)) /\
  (forall s', exists l d2, AddLoginToUser u p i s' d1 = (Ret tt, d2) /\
     logins d2 = <[login_key l := l]> (logins d1) /\ l_UserID l = u /\ l_Provider l = p /\ l_ProviderID l = i /\
     users d2 = users d1 /\ organizations d2 = organizations d1) /\
  (forall u' s', u' <> u -> is_Some (users d1 !! u') -> exists e, (AddLoginToUser u' p i s' d1).1 = Err e).
Proof.
  intros Hd Hrun.
  assert (Hd1 : Inv d1) by (pose proof (preserves_AddLoginToUser u p i s d Hd) as Hi; by rewrite Hrun in Hi).
  apply AddLoginToUser_Ret in Hrun as ([usr Hu] & Hm & ->).
  set (l := mkLogin u p i s _) in *. set (d1 := attach l d) in *.
  pose proof Hd as ([Hkey _] & _). pose proof (Hkey _ _ Hu) as Hid. simpl in Hid.
  assert (Hfind : forall b, findUserByLogin p i (set_mutex b d1) = (Ret usr, set_mutex b d1)).
  { intros b. apply (findUserByLogin_stored _ p i l usr); [exact Hd1| |done|done|exact Hu].
    simpl. by rewrite lookup_insert_eq. }
  split; [|split].
  - exists usr. split; [exact Hu|]. apply locked_reads; [exact Hm|apply Hfind|done|done].
  - intros s'. rewrite (AddLoginToUser_known u p i s' d1 usr usr) by done. rewrite decide_False by tauto.
    eexists _, _. split; [done|]. done.
  - intros u' s' Hne [usr' Hu'].
    rewrite (AddLoginToUser_known u' p i s' d1 usr' usr) by done. rewrite decide_True by congruence.
    by eexists.
Qed.

(** * Memberships *)

Lemma FindTeamByExternalID_spec te d t d' :
  Inv d -> FindTeamByExternalID te d = (Ret t, d') ->
  d' = d /\ teams d !! t_ID t = Some t /\ t_ExternalID t = te.
Proof.
  intros Hd Hrun. pose proof (FindTeamByExternalID_Ret _ _ _ _ Hd Hrun) as [-> Ht]. split_and!; [done..|].
  unfold FindTeamByExternalID, bind, gets in Hrun. simpl in Hrun.
  by apply or_else_Ret in Hrun as [(k & _ & He%bool_decide_eq_true)%first_match_Some _].
Qed.

Lemma memberships_of_insert d u ms u' :
  memberships_of (set_teamMemberships (<[u := ms]> (teamMemberships d)) d) u' =
  if decide (u' = u) then ms else memberships_of d u'.
Proof.
  unfold memberships_of. simpl. case_decide as Hu; [subst; by rewrite lookup_insert_eq|].
  by rewrite lookup_insert_ne.
Qed.

(** What [InviteUserToTeam] makes of the user: the one with that address, or a new one. *)
Definition invited (email : string) (u : User) (created : bool) (d d' : DB) : Prop :=
  users d' !! u_ID u = Some u /\
  (created = false -> u_Email u = email /\ users d' = users d) /\
  (created = true -> u_Email u = strings.ToLower email /\ users d' = <[u_ID u := u]> (users d) /\
     forall k x, users d !! k = Some x -> u_Email x <> email).

Definition find_or_create (email : string) : Op (User * bool) :=
  do r <- try (findUserByEmail email);
  match r with
  | inr u => ret (u, false)
  | inl err => if decide (err = ErrNotFound) then do u <- createUser email None; ret (u, true) else throw err
  end.

Lemma find_or_create_Ret email d u created d' :
  Inv d -> find_or_create email d = (Ret (u, created), d') ->
  invited email u created d d' /\ teamMemberships d' = teamMemberships d /\ teams d' = teams d.
Proof.
  intros ([Hkey _] & _) (r & d1 & Hr & Hrun)%bind_inv_Ret.
  pose proof (reader_try _ (reader_findUserByEmail email) d) as Hd1. rewrite Hr in Hd1. simpl in Hd1. subst d1.
  destruct r as [err|x].
  - case_decide as He; [|done]. apply bind_inv_Ret in Hrun as (x & d2 & Hc & [= <- <- <-]).
    unfold createUser, gets, Now, read_env, modify, ret, bind in Hc. simpl in Hc. injection Hc as <- <-.
    split; [|done]. split; [simpl; by rewrite lookup_insert_eq|]. split; [done|]. intros _. split_and!; [done..|].
    apply (proj1 (try_inl _ _ _ _)) in Hr. unfold findUserByEmail, bind, gets, or_else in Hr. simpl in Hr.
    destruct (first_match (fun u0 => bool_decide (u_Email u0 = email)) (users d)) eqn:Hf; [done|].
    intros k x Hk He'. rewrite first_match_None in Hf. specialize (Hf _ _ Hk). by rewrite bool_decide_eq_false in Hf.
  - injection Hrun as <- <- <-. apply (proj1 (try_inr _ _ _ _)) in Hr.
    unfold findUserByEmail, bind, gets in Hr. simpl in Hr.
    apply or_else_Ret in Hr as [(k & Hk & He%bool_decide_eq_true)%first_match_Some _].
    pose proof (Hkey _ _ Hk) as Hid. simpl in Hid. split; [|done]. unfold invited. by rewrite Hid.
Qed.

(** When [InviteUserToTeam] succeeds, the user with that address, created (with the
    address in lower case) if there was none, has the given role in the team with that
    external id, and every other membership is unchanged; when no team has that external id,
    it is [ErrNotFound] and nobody is created. *)
Theorem InviteUserToTeam_spec email te r d :
  Inv d -> mtx d = false ->
  (forall u created d', InviteUserToTeam email te r d = (Ret (u, created), d') ->
     exists t, teams d' !! t_ID t = Some t /\ t_ExternalID t = te /\
       invited email u created d d' /\
       forall u' t', memberships_of d' u' !! t' =
         if decide (u' = u_ID u /\ t' = t_ID t) then Some r else memberships_of d u' !! t') /\
  ((forall k t, teams d !! k = Some t -> t_ExternalID t <> te) ->
   InviteUserToTeam email te r d = (Err ErrNotFound, d)).
Proof.
  intros Hd Hm. split.
  - intros u created d' (d1 & Hrun & -> & _)%locked_Ret.
    apply bind_inv_Ret in Hrun as (t & d2 & Ht & Hrun).
    apply FindTeamByExternalID_spec in Ht as (-> & Ht & He); [|exact Hd].
    set (s := set_mutex true d) in *.
    assert (Hrun' : exists x d3, find_or_create email s = (Ret x, d3) /\
       bind (E:=error) (gets (fun d => memberships_of d (u_ID x.1))) (fun ms =>
         modify (fun d => set_teamMemberships (<[u_ID x.1 := <[t_ID t := r]> ms]> (teamMemberships d)) d) ;;;
         ret x) d3 = (Ret (u, created), d1)).
    { apply bind_inv_Ret in Hrun as (r0 & d3 & Hr & Hrun).
      apply bind_inv_Ret in Hrun as ([x b] & d4 & Hx & Hrun). exists (x, b), d4. split; [|done].
      unfold find_or_create. by rewrite (bind_Ret _ _ _ _ _ Hr). }
    destruct Hrun' as ([x b] & d3 & Hx & Hlast). apply find_or_create_Ret in Hx as (Hinv & Hms & Hts); [|exact Hd].
    unfold bind, gets, modify, ret in Hlast. simpl in Hlast. injection Hlast as <- <- <-.
    exists t. simpl. rewrite Hts. split; [exact Ht|]. split; [done|]. split; [exact Hinv|].
    intros u' t'.
    change (memberships_of (set_mutex false ?x) u') with (memberships_of x u'). rewrite memberships_of_insert.
    assert (Hmem : forall v, memberships_of d3 v = memberships_of d v) by (intros v; unfold memberships_of; by rewrite Hms).
    rewrite !Hmem. destruct (decide (u' = u_ID x)) as [->|Hne];
      [|by rewrite decide_False by tauto].
    destruct (decide (t' = t_ID t)) as [->|Hnt];
      [rewrite decide_True by done; by rewrite lookup_insert_eq|].
    rewrite decide_False by tauto. by rewrite lookup_insert_ne.
  - intros Hno. apply locked_reads; try done. unfold FindTeamByExternalID. unfold bind at 1. unfold bind at 1. simpl.
    rewrite (proj2 (first_match_None _ _)); [done|]. intros k t Hk. apply bool_decide_eq_false. by eapply Hno.
Qed.

Lemma drop_team d (team : option (string * OrgCell)) o l acc :
  snd <$> team = Some o ->
  fold_m (S := DB) (E := error) (fun acc '(teamID, roleID) =>
      do ' (_, o) <- deref team;
      ret (if decide (teamID = o_TeamID o) then acc else <[teamID := roleID]> acc)) l acc d
  = (Ret (foldl (fun (acc : gmap string string) '(teamID, roleID) =>
      if decide (teamID = o_TeamID o) then acc else <[teamID := roleID]> acc) acc l), d).
Proof.
  destruct team as [[k o']|]; [|done]. simpl. intros [= ->]. revert acc.
  induction l as [|[t r] l IH]; intros acc; [done|]. simpl. unfold bind. simpl. apply IH.
Qed.

Lemma foldl_drop_team (ms : gmap string string) team t :
  foldl (fun (acc : gmap string string) '(teamID, roleID) =>
    if decide (teamID = team) then acc else <[teamID := roleID]> acc) ∅ (go_range ms) !! t
  = if decide (t = team) then None else ms !! t.
Proof.
  assert (Hgen : forall l acc, NoDup l.*1 ->
    foldl (fun (acc : gmap string string) '(teamID, roleID) =>
      if decide (teamID = team) then acc else <[teamID := roleID]> acc) acc l !! t
    = if decide (t = team) then acc !! t else match (list_to_map l : gmap string string) !! t with Some r => Some r | None => acc !! t end).
  { induction l as [|[t0 r0] l IH]; intros acc Hnd; simpl; [rewrite lookup_empty; by case_decide|].
    apply NoDup_cons in Hnd as [Hnin Hnd]. rewrite IH by done. apply not_elem_of_list_to_map in Hnin. simpl in Hnin.
    destruct (decide (t = t0)) as [->|Hne].
    - rewrite lookup_insert_eq, Hnin. by repeat (case_decide; try rewrite lookup_insert_eq).
    - rewrite lookup_insert_ne by done. repeat case_decide; subst; try rewrite lookup_insert_ne by done; done. }
  rewrite Hgen by apply NoDup_go_range_keys. rewrite lookup_empty. case_decide; [done|].
  rewrite (list_to_map_proper (go_range ms) (map_to_list ms)) by (first [apply NoDup_go_range_keys | apply go_range_perm]).
  rewrite list_to_map_to_list. by destruct (ms !! t).
Qed.

(** The state [RemoveUserFromOrganization] leaves when the user is found. *)
Definition out_of_team (u team : string) (d : DB) : DB :=
  set_teamMemberships
    (<[u := foldl (fun (acc : gmap string string) '(teamID, roleID) =>
       if decide (teamID = team) then acc else <[teamID := roleID]> acc) ∅ (go_range (memberships_of d u))]>
     (teamMemberships d)) d.

Lemma memberships_of_out_of_team u team d u' t :
  memberships_of (out_of_team u team d) u' !! t =
  if decide (u' = u /\ t = team) then None else memberships_of d u' !! t.
Proof.
  unfold out_of_team. rewrite memberships_of_insert.
  destruct (decide (u' = u)) as [->|]; [|by rewrite decide_False by tauto].
  rewrite foldl_drop_team. repeat case_decide; tauto || done.
Qed.

Lemma findUserByEmail_unique email d uid u :
  users d !! uid = Some u -> u_Email u = email ->
  (forall k' u', users d !! k' = Some u' -> u_Email u' = email -> u' = u) ->
  findUserByEmail email d = (Ret u, d).
Proof.
  intros Hu He Huniq. unfold findUserByEmail, bind, gets. simpl.
  rewrite (first_match_unique _ _ uid u); [done|done|by apply bool_decide_eq_true|].
  intros k' u' Hk' He'%bool_decide_eq_true. by eapply Huniq.
Qed.

Lemma findUserByEmail_missing email d :
  (forall k u, users d !! k = Some u -> u_Email u <> email) ->
  findUserByEmail email d = (Err ErrNotFound, d).
Proof.
  intros Hno. unfold findUserByEmail, bind, gets. simpl.
  rewrite (proj2 (first_match_None _ _)); [done|].
  intros k u Hk. apply bool_decide_eq_false. by eapply Hno.
Qed.

Lemma RemoveUserFromOrganization_run e email d k o u :
  mtx d = false ->
  findOrganizationByExternalID e (set_mutex true d) = (Ret (k, o), set_mutex true d) ->
  findUserByEmail email (set_mutex true d) = (Ret u, set_mutex true d) ->
  RemoveUserFromOrganization e email d = (Ret tt, out_of_team (u_ID u) (o_TeamID o) d).
Proof.
  intros Hm Ho Hu. unfold RemoveUserFromOrganization, locked. simpl. rewrite Hm.
  rewrite (bind_Ret _ _ _ (inr (k, o)) (set_mutex true d)) by (unfold try; by rewrite Ho). simpl.
  rewrite (bind_Ret _ _ _ (inr u) (set_mutex true d)) by (unfold try; by rewrite Hu). simpl.
  unfold bind at 1. simpl. unfold bind at 1, gets. unfold bind at 1.
  rewrite (drop_team (set_mutex true d) (Some (k, o)) o) by done.
  unfold modify. simpl. f_equal. destruct d; simpl in *. by subst.
Qed.

(** [RemoveUserFromOrganization] takes the user with that address out of the team of
    the organization, so out of every organization of that team, and changes no other
    membership. The interface says an unknown user is a success; the code panics. *)
Theorem RemoveUserFromOrganization_spec e email d :
  Inv d -> mtx d = false ->
  (forall k o uid u, organizations d !! k = Some o -> same_id (o_ExternalID o) e = true ->
     users d !! uid = Some u -> u_Email u = email ->
     (forall k' u', users d !! k' = Some u' -> u_Email u' = email -> u' = u) ->
   exists d', RemoveUserFromOrganization e email d = (Ret tt, d') /\
     (forall u' t, memberships_of d' u' !! t =
        if decide (u' = u_ID u /\ t = o_TeamID o) then None else memberships_of d u' !! t) /\
     (forall k' o', organizations d' !! k' = Some o' -> o_TeamID o' = o_TeamID o ->
        UserIsMemberOf (u_ID u) (o_ExternalID o') d' = (Ret false, d'))) /\
  ((forall k u, users d !! k = Some u -> u_Email u <> email) ->
   (RemoveUserFromOrganization e email d).1 = Panic).
Proof.
  intros Hd Hm. split.
  - intros k o uid u Hk He Hu Hemail Huniq. exists (out_of_team (u_ID u) (o_TeamID o) d).
    split; [|split].
    + eapply (RemoveUserFromOrganization_run e email d k o u); [done|by apply find_ext_found|].
      by eapply findUserByEmail_unique.
    + intros u' t. apply memberships_of_out_of_team.
    + intros k' o' Hk' Ht. apply locked_reads; try done. unfold userIsMemberOf.
      set (d' := set_mutex true _).
      rewrite (bind_Ret _ _ _ (inr (k', o')) d').
      * pose proof (memberships_of_out_of_team (u_ID u) (o_TeamID o) d (u_ID u) (o_TeamID o')) as Hno.
        rewrite decide_True in Hno by done. unfold gets, d', memberships_of in *. simpl in *. by rewrite Hno.
      * unfold try. rewrite (find_ext_found d' k' o'); [done|exact Hd|done|apply same_id_refl].
  - intros Hno. unfold RemoveUserFromOrganization, locked. simpl. rewrite Hm.
    set (s := set_mutex true d).
    assert (Ho : exists r, try (findOrganizationByExternalID e) s = (Ret r, s) /\ other_error r = false).
    { unfold try. destruct (find_ext_cases e s) as [(k & o & ->)| ->]; by eexists. }
    destruct Ho as (r & Ho & Hr). rewrite (bind_Ret _ _ _ _ _ Ho), Hr.
    rewrite (bind_Ret _ _ _ (inl ErrNotFound) s) by (unfold try; by rewrite findUserByEmail_missing).
    done.
Qed.

End user.

(** * The theorems at a concrete state *)

Import sample.

Definition attached : DB := (AddLoginToUser "0" "github" "17" "{}" sample.d).2.

Lemma AddLoginToUser_idempotent_witness :
  AddLoginToUser "0" "github" "17" "{}" sample.d = (Ret tt, attached) /\
  exists l d2, AddLoginToUser "0" "github" "17" "new" attached = (Ret tt, d2) /\ logins d2 = <[login_key l := l]> (logins attached).
Proof.
  assert (Hrun : AddLoginToUser "0" "github" "17" "{}" sample.d = (Ret tt, attached)).
  { rewrite (surjective_pairing (AddLoginToUser "0" "github" "17" "{}" sample.d)). unfold attached. f_equal. }
  split; [exact Hrun|].
  destruct (AddLoginToUser_idempotent "0" "github" "17" "{}" sample.d attached inv Hrun) as (_ & Hagain & _).
  destruct (Hagain "new") as (l & d2 & H2 & Hl & _). exists l, d2. split; [exact H2|exact Hl].
Defined.

Lemma InviteUserToTeam_spec_witness :
  InviteUserToTeam "eve@example.org" "no such team" "viewer" sample.d = (Err ErrNotFound, sample.d).
Proof.
  apply (InviteUserToTeam_spec "eve@example.org" "no such team" "viewer" sample.d inv unlocked).
  assert (Hall : map_Forall (fun _ t => t_ExternalID t <> "no such team") (teams sample.d))
    by (apply (bool_decide_eq_true_1 _); vm_compute; reflexivity).
  exact Hall.
Defined.

Definition bob : User := default (mkUser "" "" "" 0 0 0 false 0 "" "" "" "") (users sample.d !! "1").
Definition shared : OrgCell := default own (organizations sample.d !! "1").

Lemma RemoveUserFromOrganization_spec_witness :
  exists d', RemoveUserFromOrganization "Shared-Org-02" "bob@example.org" sample.d = (Ret tt, d') /\
    memberships_of d' "1" !! "1" = None.
Proof.
  destruct (RemoveUserFromOrganization_spec "Shared-Org-02" "bob@example.org" sample.d inv unlocked) as [Hok _].
  destruct (Hok "1" shared "1" bob) as (d' & Hrun & Hmem & _).
  - vm_compute. reflexivity.
  - vm_compute. reflexivity.
  - vm_compute. reflexivity.
  - vm_compute. reflexivity.
  - assert (Hall : map_Forall (fun k u => u_Email u = "bob@example.org" -> k = "1") (users sample.d))
      by (apply (bool_decide_eq_true_1 _); vm_compute; reflexivity).
    intros k u Hk He. pose proof (Hall k u Hk He) as ->. 
    assert (Hb : users sample.d !! "1" = Some bob) by (vm_compute; reflexivity). congruence.
  - exists d'. split; [exact Hrun|]. rewrite Hmem. vm_compute. reflexivity.
Defined.
