(* ===== verification/Sessions.v ===== *)
(** The session store of the users service (users/sessions): session cookies, their
    life time, and the impersonation cookie. *)
From Stdlib Require Import ZArith Lia Ascii String.
From stdpp Require Import base tactics option gmap strings list pretty.
From S2P Require Import Prelude GoStd Users MemDB.

Module sessions.

Definition AuthCookieName : string := "_weave_scope_session".
Definition ImpersonationCookieName : string := "_weave_cloud_impersonation".
Definition SessionDuration : time.Duration := 1440 * time.Hour.

Record Session : Type := mkSession {
  Provider : string;
  LoginID : string;
  UserID : string;
  CreatedAt : time.Time;
  ImpersonatingUserID : string;
}.

(** [(s Session) GetActingUserID()] *)
Definition GetActingUserID (s : Session) : string :=
  if decide (ImpersonatingUserID s <> EmptyString) then ImpersonatingUserID s else UserID s.

(** [http.Cookie] *)
Record Cookie : Type := mkCookie {
  c_Name : string;
  c_Value : string;
  c_Path : string;
  c_HttpOnly : bool;
  c_Expires : time.Time;
  c_MaxAge : Z;
  c_Secure : bool;
  c_Domain : string;
}.

(** Every operation reads the clock through [time.Now]; the [Set-Cookie] headers are
    appended to the response. *)
Record Response : Type := mkResponse { env_of : Env; set_cookies : list Cookie }.
Abbreviation Http := (M Response error).

Definition Now : Http time.Time := fun w =>
  (Ret (clock (env_of w) (ticks (env_of w))), mkResponse (tick (env_of w)) (set_cookies w)).

(** [http.SetCookie(w, c)] *)
Definition SetCookie (c : Cookie) : Http unit :=
  modify (fun w => mkResponse (env_of w) (set_cookies w ++ [c])).

(** [findCookie]; a request is the list of its cookies. *)
Definition findCookie (r : list Cookie) (cookieName : string) : option Cookie :=
  List.find (fun c => bool_decide (c_Name c = cookieName)) r.

(** [Extract] *)
Definition Extract (r : list Cookie) : error + string :=
  match findCookie r AuthCookieName with
  | Some c => inr (c_Value c)
  | None => inl ErrInvalidAuthenticationData
  end.

Section store.
(** [securecookie.SecureCookie]: the encoder of the store and its decoder, which also
    enforces the maximal age; both read the clock. *)
Variables (encoder_Encode : time.Time -> Session -> error + string)
          (encoder_Decode : time.Time -> string -> error + Session).
Variables (secure : bool) (domain : string).

(** [Decode] *)
Definition Decode (encoded : string) : Http Session :=
  do now0 <- Now;
  match encoder_Decode now0 encoded with
  | inl _ => throw ErrInvalidAuthenticationData
  | inr session =>
      if time.IsZero (CreatedAt session) then throw ErrInvalidAuthenticationData
      else
        do now <- Now;
        if SessionDuration <? time.Sub now (CreatedAt session) then throw ErrInvalidAuthenticationData
        else if decide (UserID session = EmptyString) then throw ErrInvalidAuthenticationData
        else ret session
  end.

(** [Get] *)
Definition Get (r : list Cookie) : Http Session :=
  match Extract r with
  | inl err => throw err
  | inr value => Decode value
  end.

(** [Encode] *)
Definition Encode (provider loginID userID impersonatingUserID : string) : Http string :=
  do now <- Now;
  do now0 <- Now;
  match encoder_Encode now0 (mkSession provider loginID userID now impersonatingUserID) with
  | inr v => ret v
  | inl err => throw err
  end.

(** [Cookie]: on an error the cookie has an empty value and is returned with it. *)
Definition Cookie_ (provider loginID userID impersonatingUserID : string) : Http (Cookie * option error) :=
  do value <- try (Encode provider loginID userID impersonatingUserID);
  do now <- Now;
  ret (mkCookie AuthCookieName (match value with inr v => v | inl _ => EmptyString end) "/" true
         (time.Add now SessionDuration) (Z.quot SessionDuration time.Second) secure domain,
       match value with inr _ => None | inl err => Some err end).

(** [applyImpersonationCookie] *)
Definition applyImpersonationCookie (r : list Cookie) (cookieShouldExist : bool) : Http unit :=
  if cookieShouldExist then
    do now <- Now;
    SetCookie (mkCookie ImpersonationCookieName EmptyString "/" true (time.Add now SessionDuration)
                 (Z.quot SessionDuration time.Second) secure EmptyString)
  else
    match findCookie r ImpersonationCookieName with
    | None => ret tt
    | Some _ =>
        do now <- Now;
        SetCookie (mkCookie ImpersonationCookieName EmptyString "/" true (time.Add now (-1 * time.Second))
                     (-1) secure EmptyString)
    end.

(** [Set] *)
Definition Set_ (r : list Cookie) (provider loginID userID impersonatingUserID : string) : Http unit :=
  do ' (cookie, err) <- Cookie_ provider loginID userID impersonatingUserID;
  do impersonationCookieShouldExist <- match err with
    | None => SetCookie cookie ;;; ret (negb (bool_decide (impersonatingUserID = EmptyString)))
    | Some _ => ret false
    end;
  applyImpersonationCookie r impersonationCookieShouldExist ;;;
  match err with None => ret tt | Some e => throw e end.

(** [Clear] *)
Definition Clear (r : list Cookie) : Http unit :=
  do now <- Now;
  SetCookie (mkCookie AuthCookieName EmptyString "/" true (time.Add now (-1 * time.Second)) (-1) secure domain) ;;;
  applyImpersonationCookie r false.

(** * A browser

    What the cookies of a client become when it receives a [Set-Cookie]: a negative
    maximal age deletes the cookie. *)
Definition receive (r : list Cookie) (c : Cookie) : list Cookie :=
  let others := filter (fun c' => c_Name c' <> c_Name c) r in
  if c_MaxAge c <? 0 then others else c :: others.

Definition jar (r : list Cookie) (w : Response) : list Cookie := foldl receive r (set_cookies w).

(** * Properties *)

(** The documented behaviour of [securecookie]: what the store encodes decodes to itself
    until its maximal age, the session duration. *)
Hypothesis encode_decode : forall t0 s v t,
  encoder_Encode t0 s = inr v -> t0 <= t -> t - t0 <= SessionDuration -> encoder_Decode t v = inr s.

Lemma findCookie_receive r c n :
  findCookie (receive r c) n =
  if decide (c_Name c = n) then (if c_MaxAge c <? 0 then None else Some c) else findCookie r n.
Proof.
  unfold findCookie, receive.
  assert (Hf : List.find (fun c' => bool_decide (c_Name c' = n)) (filter (fun c' => c_Name c' <> c_Name c) r)
    = if decide (c_Name c = n) then None else List.find (fun c' => bool_decide (c_Name c' = n)) r).
  { induction r as [|c' r IH]; [by case_decide|]. rewrite filter_cons. simpl.
    destruct (decide (c_Name c' = c_Name c)) as [Heq|Hne].
    - rewrite decide_False, IH by tauto. rewrite Heq. case_decide; [done|]. by rewrite bool_decide_eq_false_2.
    - rewrite decide_True by done. simpl. rewrite IH. case_decide as Hn; [|done].
      rewrite bool_decide_eq_false_2; [done|congruence]. }
  destruct (c_MaxAge c <? 0); simpl; rewrite Hf.
  - by case_decide.
  - case_decide; [by rewrite bool_decide_eq_true_2 | by rewrite bool_decide_eq_false_2].
Qed.

Definition response (e : Env) : Response := mkResponse e [].

(** Cookies other than the session's. *)
Definition others (cs : list Cookie) : Prop := Forall (fun c => c_Name c <> AuthCookieName) cs.

Lemma applyImpersonationCookie_run r b w :
  exists e cs, applyImpersonationCookie r b w = (Ret tt, mkResponse e (set_cookies w ++ cs)) /\ others cs.
Proof.
  unfold applyImpersonationCookie. destruct b; [|case_match].
  - eexists _, [_]. split; [reflexivity|]. constructor; [discriminate|constructor].
  - eexists _, [_]. split; [reflexivity|]. constructor; [discriminate|constructor].
  - exists (env_of w), []. rewrite app_nil_r. split; [by destruct w | constructor].
Qed.

Lemma findCookie_others r cs :
  others cs -> findCookie (foldl receive r cs) AuthCookieName = findCookie r AuthCookieName.
Proof.
  intros Hcs. revert r. induction Hcs as [|c cs Hc Hcs IH]; intros r; simpl; [done|].
  rewrite IH, findCookie_receive. by rewrite decide_False.
Qed.

Lemma findCookie_jar r w c cs :
  set_cookies w = c :: cs -> c_Name c = AuthCookieName -> others cs ->
  findCookie (jar r w) AuthCookieName = if c_MaxAge c <? 0 then None else Some c.
Proof.
  intros Hw Hc Hcs. unfold jar. rewrite Hw. simpl. rewrite findCookie_others by done.
  rewrite findCookie_receive. by rewrite decide_True.
Qed.

Lemma Set_run r provider loginID userID imp e w' :
  Set_ r provider loginID userID imp (response e) = (Ret tt, w') ->
  exists v c cs, encoder_Encode (clock e (S (ticks e))) (mkSession provider loginID userID (clock e (ticks e)) imp) = inr v /\
    set_cookies w' = c :: cs /\ c_Name c = AuthCookieName /\ c_Value c = v /\ 0 <= c_MaxAge c /\ others cs.
Proof.
  intros Hset. unfold Set_, Cookie_, Encode, Now, SetCookie, try, modify, ret, throw in Hset.
  unfold bind in Hset. simpl in Hset.
  destruct (encoder_Encode _ _) as [err|v] eqn:Henc.
  - destruct (applyImpersonationCookie_run r false (mkResponse (tick (tick (tick e))) [])) as (e' & cs & Hrun & _).
    simpl in Hset, Hrun. by rewrite Hrun in Hset.
  - match type of Hset with context [applyImpersonationCookie r ?b ?w] =>
      destruct (applyImpersonationCookie_run r b w) as (e' & cs & Hrun & Hcs) end.
    rewrite Hrun in Hset. injection Hset as <-. exists v. eexists _, cs. split; [done|].
    simpl. split; [reflexivity|]. by split_and!.
Qed.

Lemma Clear_run r e w' :
  Clear r (response e) = (Ret tt, w') ->
  exists c cs, set_cookies w' = c :: cs /\ c_Name c = AuthCookieName /\ c_MaxAge c = -1 /\ others cs.
Proof.
  unfold Clear.
  set (c := fun now => mkCookie AuthCookieName EmptyString "/" true (time.Add now (-1 * time.Second)) (-1) secure domain).
  destruct (applyImpersonationCookie_run r false (mkResponse (tick e) [c (clock e (ticks e))])) as (e' & cs & Hrun & Hcs).
  intros Hclear. change (applyImpersonationCookie r false (mkResponse (tick e) [c (clock e (ticks e))]) = (Ret tt, w')) in Hclear.
  rewrite Hrun in Hclear. injection Hclear as <-. by eexists _, cs.
Qed.

Lemma Decode_run v s e :
  encoder_Decode (clock e (ticks e)) v = inr s -> CreatedAt s <> 0 -> UserID s <> EmptyString ->
  clock e (S (ticks e)) - CreatedAt s <= SessionDuration ->
  (Decode v (response e)).1 = Ret s.
Proof.
  intros Hdec Hc Hu Hage. unfold Decode, Now, response, bind. simpl. rewrite Hdec.
  unfold time.IsZero. destruct (CreatedAt s =? 0) eqn:H0; [apply Z.eqb_eq in H0; done|]. simpl.
  replace (SessionDuration <? time.Sub (clock e (S (ticks e))) (CreatedAt s)) with false.
  - by rewrite decide_False.
  - symmetry. apply Z.ltb_ge, time.Sub_le_iff; [|done]. vm_compute. split; congruence.
Qed.

(** C14: the session that [Set] gives a browser is the one [Get] reads back, with the user
    and the impersonating user, at any later time up to the session duration; and after
    [Clear] there is none. *)
Theorem Set_Get_roundtrip r provider loginID userID imp e w' later :
  userID <> EmptyString -> clock e (ticks e) <> 0 ->
  (forall n, clock e n <= clock e (S n)) ->
  Set_ r provider loginID userID imp (response e) = (Ret tt, w') ->
  clock e (S (ticks e)) <= clock later (ticks later) ->
  clock later (ticks later) <= clock later (S (ticks later)) ->
  clock later (S (ticks later)) <= clock e (ticks e) + SessionDuration ->
  (Get (jar r w') (response later)).1 = Ret (mkSession provider loginID userID (clock e (ticks e)) imp) /\
  (forall w'', Clear (jar r w') (response later) = (Ret tt, w'') ->
     (Get (jar (jar r w') w'') (response later)).1 = Err ErrInvalidAuthenticationData).
Proof.
  intros Hu Hc Hmono Hset Hl1 Hl2 Hl3.
  apply Set_run in Hset as (v & c & cs & Henc & Hw' & Hname & Hval & Hage & Hcs).
  assert (Hjar : findCookie (jar r w') AuthCookieName = Some c).
  { rewrite (findCookie_jar r w' c cs) by done. by destruct (Z.ltb_spec (c_MaxAge c) 0); [lia|]. }
  split.
  - unfold Get, Extract. rewrite Hjar, Hval. apply Decode_run; [|done..|simpl; lia].
    apply encode_decode with (clock e (S (ticks e))); [done|done|]. specialize (Hmono (ticks e)). lia.
  - intros w'' Hclear. apply Clear_run in Hclear as (c' & cs' & Hw'' & Hname' & Hage' & Hcs').
    unfold Get, Extract. rewrite (findCookie_jar _ w'' c' cs') by done. by rewrite Hage'.
Qed.

End store.

(** ** The theorem at a concrete encoder *)

Definition sample_clock : Env := mkEnv (fun n => time.Hour + Z.of_nat n) (fun _ => EmptyString) (fun _ => None) 0.

(** An encoder that writes the session in the value, and a decoder that enforces nothing
    but that it can be read back. *)
#[export] Instance Session_eq_dec : EqDecision Session.
Proof. solve_decision. Defined.

#[export] Instance Session_countable : Countable Session.
Proof.
  apply (inj_countable' (fun s => (Provider s, LoginID s, UserID s, CreatedAt s, ImpersonatingUserID s))
    (fun '(p, l, u, c, i) => mkSession p l u c i)).
  by intros [].
Defined.

Fixpoint bits (p : positive) : string :=
  match p with
  | xH => EmptyString
  | xO p => String "0" (bits p)
  | xI p => String "1" (bits p)
  end.
Fixpoint unbits (s : string) : positive :=
  match s with
  | EmptyString => xH
  | String c s => if decide (c = "0"%char) then xO (unbits s) else xI (unbits s)
  end.

Lemma unbits_bits p : unbits (bits p) = p.
Proof. induction p as [p IH|p IH|]; simpl; by rewrite ?IH. Qed.

Definition plain_Encode (now : time.Time) (s : Session) : error + string := inr (bits (encode s)).
Definition plain_Decode (now : time.Time) (v : string) : error + Session :=
  match decode (unbits v) with Some s => inr s | None => inl (ErrMsg "securecookie: the value is not valid") end.

Lemma plain_encode_decode t0 s v t :
  plain_Encode t0 s = inr v -> t0 <= t -> t - t0 <= SessionDuration -> plain_Decode t v = inr s.
Proof. intros [= <-] _ _. unfold plain_Decode. by rewrite unbits_bits, decode_encode. Qed.

Lemma Set_Get_roundtrip_witness :
  exists w', Set_ plain_Encode false "weave" [] "google" "17" "u1" "root" (response sample_clock) = (Ret tt, w') /\
    (Get plain_Decode (jar [] w') (response (mkEnv (fun n => 2 * time.Hour) (gen_id sample_clock) (gen_token sample_clock) 0))).1 = Ret (mkSession "google" "17" "u1" time.Hour "root").
Proof.
  destruct (Set_ plain_Encode false "weave" [] "google" "17" "u1" "root" (response sample_clock)) as [o w'] eqn:Hset.
  assert (o = Ret tt) as -> by (apply (f_equal fst) in Hset; vm_compute in Hset; congruence).
  exists w'. split; [reflexivity|].
  destruct (Set_Get_roundtrip plain_Encode plain_Decode false "weave" plain_encode_decode [] "google" "17" "u1"
    "root" sample_clock w' (mkEnv (fun n => 2 * time.Hour) (gen_id sample_clock) (gen_token sample_clock) 0)) as [Hget _];
    [discriminate|discriminate|intros n; simpl; lia|exact Hset|discriminate|discriminate|discriminate|].
  exact Hget.
Defined.

End sessions.
