(* ===== verification/UsersServer.v ===== *)
(** The gRPC server of the users service (users/grpc), the permission checks it shares
    with the HTTP API (users/api/permissions.go) and the billing rules on organizations
    (common/orgs), over any implementation of the database interface. *)
From Stdlib Require Import ZArith Lia Ascii String.
From stdpp Require Import base tactics option gmap strings list pretty.
From S2P Require Import Prelude GoStd Users Filter MemDB UsersDB Sessions.

(** * Billing rules (common/orgs/data.go) *)

Module orgs.

Definition RefuseDataAccess : string := "RefuseDataAccess".
Definition RefuseDataUpload : string := "RefuseDataUpload".

(** [DelinquentFilter(now)] *)
Definition DelinquentFilter (now : time.Time) : filter.Filter :=
  filter.And [ filter.ZuoraAccount false; filter.GCP false; filter.TrialExpiredBy now;
               filter.HasFeatureFlag featureflag.Billing ].

(** [isDelinquent], [ShouldRefuseDataAccess], [ShouldRefuseDataUpload]; [None] is a failed
    type assertion inside the filter. *)
Definition isDelinquent (o : Organization) (now : time.Time) : option bool :=
  filter.MatchesOrg (DelinquentFilter now) o.
Definition ShouldRefuseDataAccess (o : Organization) (now : time.Time) : option bool :=
  isDelinquent o now.
Definition ShouldRefuseDataUpload (o : Organization) (now : time.Time) : option bool :=
  match isDelinquent o now with
  | Some b => Some (b && time.Before (time.Add (o_TrialExpiresAt o) TrialRefuseDataUploadAfter) now)
  | None => None
  end.

End orgs.

(** * Requests and responses (users.pb.go) *)

Inductive AuthorizedAction : Type := OTHER | INSTANCE_DATA_ACCESS | INSTANCE_DATA_UPLOAD.
#[export] Instance AuthorizedAction_eq_dec : EqDecision AuthorizedAction.
Proof. solve_decision. Defined.

(** The oneof of [GetOrganizationRequest] and its getters. *)
Inductive OrganizationRef : Type :=
  | RefNone
  | RefExternalID (s : string)
  | RefGCPExternalAccountID (s : string)
  | RefInternalID (s : string).
Definition GetExternalID (r : OrganizationRef) : string := match r with RefExternalID s => s | _ => EmptyString end.
Definition GetGCPExternalAccountID (r : OrganizationRef) : string :=
  match r with RefGCPExternalAccountID s => s | _ => EmptyString end.
Definition GetInternalID (r : OrganizationRef) : string := match r with RefInternalID s => s | _ => EmptyString end.

Record LookupOrgResponse : Type := mkLookupOrgResponse {
  lo_OrganizationID : string; lo_UserID : string; lo_FeatureFlags : list string }.
Record LookupUsingTokenResponse : Type := mkLookupUsingTokenResponse {
  lt_OrganizationID : string; lt_FeatureFlags : list string }.

(** * What the server hands to its emailer and its marketing queues *)

Inductive Mail (Report : Type) : Type :=
  | TrialPendingExpiryEmail (members : list User) (orgExternalID orgName : string) (expiresAt : time.Time)
  | TrialExpiredEmail (members : list User) (orgExternalID orgName : string)
  | RefuseDataUploadEmail (members : list User) (orgExternalID orgName : string)
  | WeeklyReportEmail (members : list User) (report : Report)
  | TrialExtendedEmail (members : list User) (orgExternalID orgName : string) (expiresAt : time.Time)
  | GrantAccessToTeamEmail (inviter invited : User) (teamExternalID teamName : string)
  | OrganizationBillingConfigured (email orgExternalID orgName : string).
Arguments TrialPendingExpiryEmail {Report}.
Arguments TrialExpiredEmail {Report}.
Arguments RefuseDataUploadEmail {Report}.
Arguments WeeklyReportEmail {Report}.
Arguments TrialExtendedEmail {Report}.
Arguments GrantAccessToTeamEmail {Report}.
Arguments OrganizationBillingConfigured {Report}.

(** The state a request runs in: the database's, the mail handed over so far, the clock. *)
Record Server (S Report : Type) : Type := mkServer {
  srv_db : S;
  outbox : list (Mail Report);
  srv_clock : nat -> time.Time;
  srv_ticks : nat;
}.
Arguments mkServer {S Report}.
Arguments srv_db {S Report}.
Arguments outbox {S Report}.
Arguments srv_clock {S Report}.
Arguments srv_ticks {S Report}.

Definition set_srv_db {S R} (d : S) (s : Server S R) : Server S R :=
  mkServer d (outbox s) (srv_clock s) (srv_ticks s).

Section server.
Context {S Report : Type} `{DBImpl S}.
(** The emailer (an interface in the code), the report generator (it queries Prometheus)
    and the session decoder. *)
Variable emailer : Mail Report -> option error.
Variable GenerateReport : Organization -> time.Time -> error + Report.
Variable sessions_Decode : string -> error + sessions.Session.
(** [forceFeatureFlags] *)
Variable forceFeatureFlags : list string.

Abbreviation Srv := (M (Server S Report) error).

(** A call of the database. *)
Definition db {A} (c : DBCall A) : Srv A := zoom srv_db set_srv_db (call c).

Definition srv_Now : Srv time.Time := fun s =>
  (Ret (srv_clock s (srv_ticks s)), mkServer (srv_db s) (outbox s) (srv_clock s) (Datatypes.S (srv_ticks s))).

(** Hands a mail to the emailer; mail it accepts is in the outbox. *)
Definition send (m : Mail Report) : Srv unit := fun s =>
  match emailer m with
  | Some err => (Err err, s)
  | None => (Ret tt, mkServer (srv_db s) (outbox s ++ [m]) (srv_clock s) (srv_ticks s))
  end.

(** The marketing queues never fail. *)
Definition enqueue (m : Mail Report) : Srv unit :=
  modify (fun s => mkServer (srv_db s) (outbox s ++ [m]) (srv_clock s) (srv_ticks s)).

Definition lift_sum {A} (r : error + A) : Srv A :=
  match r with inl e => throw e | inr a => ret a end.

(** [if err == users.ErrNotFound { err = e }] *)
Definition not_found_as {A} (e : error) (m : Srv A) : Srv A :=
  do r <- try m;
  match r with
  | inl err => throw (if decide (err = ErrNotFound) then e else err)
  | inr a => ret a
  end.

(** ** Permissions (users/api/permissions.go) *)

(** [requirePermission]: the role and the permissions are pointers. *)
Fixpoint has_permission (permissionID : string) (l : list (option Permission)) : Srv bool :=
  match l with
  | [] => ret false
  | p :: l' =>
      do p <- deref p;
      if decide (p_ID p = permissionID) then ret true else has_permission permissionID l'
  end.

Definition requirePermission (userID teamID permissionID : string) : Srv unit :=
  do role <- not_found_as ErrForbidden (db (CallGetUserRoleInTeam userID teamID));
  do role <- deref role;
  do permissions <- db (CallListPermissionsForRoleID (r_ID role));
  do b <- has_permission permissionID permissions;
  if b : bool then ret tt else throw ErrForbidden.

(** [api.RequireTeamMemberPermissionTo], [api.RequireOrgMemberPermissionTo] *)
Definition api_RequireTeamMemberPermissionTo (userID teamExternalID permissionID : string) : Srv unit :=
  do team <- db (CallFindTeamByExternalID teamExternalID);
  requirePermission userID (t_ID team) permissionID.
Definition api_RequireOrgMemberPermissionTo (userID orgExternalID permissionID : string) : Srv unit :=
  do org <- db (CallFindOrganizationByID orgExternalID);
  requirePermission userID (o_TeamID org) permissionID.

(** ** Authentication (users/grpc/lookup.go) *)

(** [authorizeAction] *)
Definition authorizeAction (action : AuthorizedAction) (org : Organization) : option error :=
  match action with
  | INSTANCE_DATA_ACCESS =>
      if o_RefuseDataAccess org
      then Some (ErrInstanceDataAccessDenied (o_ExternalID org) (o_RefuseDataReason org)) else None
  | INSTANCE_DATA_UPLOAD =>
      if o_RefuseDataUpload org
      then Some (ErrInstanceDataUploadDenied (o_ExternalID org) (o_RefuseDataReason org)) else None
  | OTHER => None
  end.

Definition check (e : option error) : Srv unit :=
  match e with Some err => throw err | None => ret tt end.

(** [LookupOrg] *)
Fixpoint lookup_org_loop (orgExternalID userID : string) (authorizeFor : AuthorizedAction)
    (organizations : list Organization) : Srv LookupOrgResponse :=
  match organizations with
  | [] => throw ErrInvalidAuthenticationData
  | org :: rest =>
      if decide (strings.ToLower (o_ExternalID org) = strings.ToLower orgExternalID) then
        check (authorizeAction authorizeFor org) ;;;
        ret (mkLookupOrgResponse (o_ID org) userID (o_FeatureFlags org))
      else lookup_org_loop orgExternalID userID authorizeFor rest
  end.

Definition LookupOrg (cookie orgExternalID : string) (authorizeFor : AuthorizedAction) : Srv LookupOrgResponse :=
  do session <- lift_sum (sessions_Decode cookie);
  do organizations <- not_found_as ErrInvalidAuthenticationData
                        (db (CallListOrganizationsForUserIDs [sessions.UserID session]));
  lookup_org_loop orgExternalID (sessions.UserID session) authorizeFor organizations.

(** [LookupAdmin] *)
Definition LookupAdmin (cookie : string) : Srv string :=
  do session <- lift_sum (sessions_Decode cookie);
  do u <- not_found_as ErrInvalidAuthenticationData (db (CallFindUserByID (sessions.UserID session)));
  if u_Admin u then ret (u_ID u) else throw ErrInvalidAuthenticationData.

(** [LookupUsingToken] *)
Definition LookupUsingToken (token : string) (authorizeFor : AuthorizedAction) : Srv LookupUsingTokenResponse :=
  do o <- not_found_as ErrInvalidAuthenticationData (db (CallFindOrganizationByProbeToken token));
  check (authorizeAction authorizeFor o) ;;;
  ret (mkLookupUsingTokenResponse (o_ID o) (o_FeatureFlags o)).

(** [LookupUser] *)
Definition LookupUser (cookie : string) : Srv string :=
  do session <- lift_sum (sessions_Decode cookie);
  ret (sessions.UserID session).

(** ** Organizations *)

(** [GetOrganizations] *)
Definition GetOrganizations (query : string) (includeDeleted : bool) (pageNumber : Z) : Srv (list Organization) :=
  let fs := if decide (query = EmptyString) then [] else [filter.ExternalID query] in
  if includeDeleted then db (CallListAllOrganizations (filter.And fs) EmptyString pageNumber)
  else db (CallListOrganizations (filter.And fs) pageNumber).

Definition billable (now : time.Time) : filter.Filter :=
  filter.And [ filter.Or [filter.ZuoraAccount true; filter.GCPSubscription true];
               filter.TrialExpiredBy now; filter.HasFeatureFlag featureflag.Billing ].
Definition on_trial (now : time.Time) : filter.Filter :=
  filter.And [ filter.GCP false; filter.TrialActiveAt now; filter.HasFeatureFlag featureflag.Billing ].

(** [GetBillableOrganizations], [GetTrialOrganizations], [GetDelinquentOrganizations] *)
Definition GetBillableOrganizations (now : time.Time) : Srv (list Organization) :=
  db (CallListOrganizations (billable now) 0).
Definition GetTrialOrganizations (now : time.Time) : Srv (list Organization) :=
  db (CallListOrganizations (on_trial now) 0).
Definition GetDelinquentOrganizations (now : time.Time) : Srv (list Organization) :=
  db (CallListOrganizations (orgs.DelinquentFilter now) 0).

(** [GetOrganization]: fourteen fields of the organization are copied. *)
Definition copy_of (o : Organization) : Organization :=
  {| o_ID := o_ID o; o_ExternalID := o_ExternalID o; o_Name := o_Name o; o_ProbeToken := o_ProbeToken o;
     o_CreatedAt := o_CreatedAt o; o_FeatureFlags := o_FeatureFlags o;
     o_RefuseDataAccess := o_RefuseDataAccess o; o_RefuseDataUpload := o_RefuseDataUpload o;
     o_FirstSeenConnectedAt := o_FirstSeenConnectedAt o; o_Platform := o_Platform o;
     o_Environment := o_Environment o; o_TrialExpiresAt := o_TrialExpiresAt o;
     o_ZuoraAccountNumber := o_ZuoraAccountNumber o; o_ZuoraAccountCreatedAt := o_ZuoraAccountCreatedAt o;
     o_TrialPendingExpiryNotifiedAt := None; o_TrialExpiredNotifiedAt := None; o_GCP := None;
     o_TeamID := EmptyString; o_TeamExternalID := EmptyString; o_DeletedAt := 0; o_Cleanup := false;
     o_FirstSeenFluxConnectedAt := None; o_FirstSeenNetConnectedAt := None;
     o_FirstSeenPromConnectedAt := None; o_FirstSeenScopeConnectedAt := None;
     o_RefuseDataReason := EmptyString; o_LastSentWeeklyReportAt := None;
     o_PlatformVersion := EmptyString; o_DeletedBy := EmptyString |}.

Definition GetOrganization (req : OrganizationRef) : Srv Organization :=
  do organization <-
    (if negb (bool_decide (GetExternalID req = EmptyString)) then db (CallFindOrganizationByID (GetExternalID req))
     else if negb (bool_decide (GetGCPExternalAccountID req = EmptyString)) then
       db (CallFindOrganizationByGCPExternalAccountID (GetGCPExternalAccountID req))
     else if negb (bool_decide (GetInternalID req = EmptyString)) then
       db (CallFindOrganizationByInternalID (GetInternalID req))
     else throw (ErrMsg "ID not set"));
  ret (copy_of organization).

(** [SetOrganizationFlag] *)
Definition SetOrganizationFlag (externalID flag : string) (value : bool) : Srv unit :=
  if decide (flag = orgs.RefuseDataAccess) then db (CallSetOrganizationRefuseDataAccess externalID value)
  else if decide (flag = orgs.RefuseDataUpload) then db (CallSetOrganizationRefuseDataUpload externalID value)
  else throw (ErrMsg ("Invalid flag: " +:+ flag)).

(** [SetOrganizationZuoraAccount] *)
Definition srv_SetOrganizationZuoraAccount (externalID number : string) (createdAt : option time.Time) : Srv unit :=
  do createdAt <- match createdAt with None => srv_Now | Some t => ret t end;
  db (CallSetOrganizationZuoraAccount externalID number (Some createdAt)).

(** [GetUser]: the id and the address. *)
Definition GetUser (userID : string) : Srv User :=
  do user <- db (CallFindUserByID userID);
  ret (mkUser (u_ID user) (u_Email user) EmptyString 0 0 0 false 0 EmptyString EmptyString EmptyString EmptyString).

(** ** Notifications *)

(** [NotifyTrialPendingExpiry] *)
Definition NotifyTrialPendingExpiry (externalID : string) : Srv unit :=
  do org <- db (CallFindOrganizationByID externalID);
  do members <- db (CallListOrganizationUsers externalID false true);
  send (TrialPendingExpiryEmail members externalID (o_Name org) (o_TrialExpiresAt org)) ;;;
  do now <- srv_Now;
  db (CallUpdateOrganization externalID (mkOrgWriteView None None None None None None (Some now) None)) ;;;
  ret tt.

(** [NotifyTrialExpired] *)
Definition NotifyTrialExpired (externalID : string) : Srv unit :=
  do org <- db (CallFindOrganizationByID externalID);
  do members <- db (CallListOrganizationUsers externalID false true);
  send (TrialExpiredEmail members externalID (o_Name org)) ;;;
  do now <- srv_Now;
  db (CallUpdateOrganization externalID (mkOrgWriteView None None None None None None None (Some now))) ;;;
  ret tt.

(** [NotifyRefuseDataUpload] *)
Definition NotifyRefuseDataUpload (externalID : string) : Srv unit :=
  do org <- db (CallFindOrganizationByID externalID);
  do members <- db (CallListOrganizationUsers externalID false true);
  send (RefuseDataUploadEmail members externalID (o_Name org)).

(** [InformOrganizationBillingConfigured] *)
Definition InformOrganizationBillingConfigured (externalID : string) : Srv unit :=
  do org <- db (CallFindOrganizationByID externalID);
  do members <- db (CallListOrganizationUsers externalID false true);
  for_each members (fun member =>
    enqueue (OrganizationBillingConfigured (u_Email member) (o_ExternalID org) (o_Name org))).

(** ** Weekly reports *)

(** [featureFlagIsForced] *)
Definition featureFlagIsForced (flag : string) : bool :=
  existsb (fun f => bool_decide (f = flag)) forceFeatureFlags.

Definition endOfSameDayLastWeek (now : time.Time) : time.Time :=
  time.AddDays (time.Truncate now (24 * time.Hour)) (-6).

Definition ready_for_report (now : time.Time) : filter.Filter :=
  filter.And ([ filter.LastSentWeeklyReportBefore (endOfSameDayLastWeek now); filter.SeenPromConnected true ]
    ++ if featureFlagIsForced featureflag.WeeklyReportable then []
       else [ filter.HasFeatureFlag featureflag.WeeklyReportable ]).

(** [GetOrganizationsReadyForWeeklyReport] *)
Definition GetOrganizationsReadyForWeeklyReport (now : time.Time) : Srv (list Organization) :=
  db (CallListOrganizations (ready_for_report now) 0).

(** [SendOutWeeklyReport] *)
Definition SendOutWeeklyReport (externalID : string) (now : time.Time) : Srv unit :=
  do org <- db (CallFindOrganizationByID externalID);
  do weeklyReport <- lift_sum (GenerateReport org now);
  do members <- db (CallListOrganizationUsers (o_ExternalID org) false true);
  send (WeeklyReportEmail members weeklyReport) ;;;
  db (CallSetLastSentWeeklyReportAt externalID (Some now)).

(** ** The rest of the service *)

(** [GetGCP], [UpdateGCP], [GetSummary] *)
Definition GetGCP (externalAccountID : string) : Srv GoogleCloudPlatform := db (CallFindGCP externalAccountID).
Definition srv_UpdateGCP (g : GoogleCloudPlatform) : Srv unit :=
  db (CallUpdateGCP (g_ExternalAccountID g) (g_ConsumerID g) (g_SubscriptionName g) (g_SubscriptionLevel g) (g_SubscriptionStatus g)).
Definition srv_GetSummary : Srv (list SummaryEntry) := db CallGetSummary.

(** [RequireTeamMemberPermissionTo]; the request names the team by one of two ids. *)
Definition RequireTeamMemberPermissionTo (userID teamExternalID teamInternalID permissionID : string) : Srv unit :=
  do teamExternalID <-
    (if decide (teamExternalID = EmptyString) then
       do team <- db (CallFindTeamByInternalID teamInternalID); ret (t_ExternalID team)
     else ret teamExternalID);
  api_RequireTeamMemberPermissionTo userID teamExternalID permissionID.

(** [RequireOrgMemberPermissionTo] *)
Definition RequireOrgMemberPermissionTo (userID orgExternalID orgInternalID permissionID : string) : Srv unit :=
  do orgExternalID <-
    (if decide (orgExternalID = EmptyString) then
       do org <- db (CallFindOrganizationByInternalID orgInternalID); ret (o_ExternalID org)
     else ret orgExternalID);
  api_RequireOrgMemberPermissionTo userID orgExternalID permissionID.

(** ** Webhooks (users/grpc/webhooks.go) *)

(** [LookupOrganizationWebhookUsingSecretID] *)
Definition LookupOrganizationWebhookUsingSecretID (secretID : string) : Srv Webhook :=
  do webhook <- not_found_as (GRPCError 404 "Webhook does not exist.") (db (CallFindOrganizationWebhookBySecretID secretID));
  do org <- db (CallFindOrganizationByInternalID (w_OrganizationID webhook));
  check (authorizeAction INSTANCE_DATA_UPLOAD org) ;;;
  ret webhook.

(** [SetOrganizationWebhookFirstSeenAt] *)
Definition srv_SetOrganizationWebhookFirstSeenAt (secretID : string) : Srv time.Time :=
  db (CallSetOrganizationWebhookFirstSeenAt secretID).

End server.
