(* ===== verification/ServerSpec.v ===== *)
(** What the gRPC server of the users service promises, proved against what the database
    interface promises, and that the in-memory database keeps those promises. *)
From Stdlib Require Import ZArith Lia Ascii String Sorting.Sorted.
From stdpp Require Import base tactics option gmap strings list pretty relations.
From S2P Require Import Prelude GoStd Users Filter MemDB MemTeam MemOrg MemUser UsersDB MemInv MemSafety Sample MemDelete MemOrgSpec MemUserSpec Sessions UsersServer.

(** * What the server relies on

    [ok] are the states the calls of an implementation keep to; [live s o] says that [o] is
    what the database shows of a live organization, [member s u t] that the user [u] is a
    member of the team [t]; [stored s] is what the database keeps of an instant. *)
Class LawfulDB (S : Type) `{DBImpl S} := {
  ok : S -> Prop;
  live : S -> Organization -> Prop;
  member : S -> string -> string -> Prop;
  stored : S -> time.Time -> time.Time;
  live_unique : forall s o o', ok s -> live s o -> live s o' ->
    same_id (o_ExternalID o) (o_ExternalID o') = true -> o = o';
  token_unique : forall s o o', ok s -> live s o -> live s o' -> o_ProbeToken o = o_ProbeToken o' -> o = o';
  law_ListOrganizationsForUserIDs : forall s us, ok s ->
    exists l, call (CallListOrganizationsForUserIDs us) s = (Ret l, s) /\
      forall o, o ∈ l <-> live s o /\ exists u, u ∈ us /\ member s u (o_TeamID o);
  law_ListOrganizations : forall s f, ok s -> filter.portable f = true ->
    exists l, call (CallListOrganizations f 0) s = (Ret l, s) /\
      forall o, o ∈ l <-> live s o /\ filter.sat_org (filter.at_resolution (stored s) f) o;
  law_FindOrganizationByProbeToken : forall s t, ok s ->
    (exists o, call (CallFindOrganizationByProbeToken t) s = (Ret o, s) /\ live s o /\ o_ProbeToken o = t) \/
    (call (CallFindOrganizationByProbeToken t) s = (Err ErrNotFound, s) /\ forall o, live s o -> o_ProbeToken o <> t);
  law_FindOrganizationByID : forall s e, ok s ->
    (exists o, call (CallFindOrganizationByID e) s = (Ret o, s) /\ live s o /\ o_ExternalID o = e) \/
    (call (CallFindOrganizationByID e) s = (Err ErrNotFound, s) /\ forall o, live s o -> o_ExternalID o <> e);
  law_SetLastSentWeeklyReportAt : forall s e t, ok s ->
    forall s', call (CallSetLastSentWeeklyReportAt e t) s = (Ret tt, s') ->
    ok s' /\
      ((exists o, live s o /\ same_id (o_ExternalID o) e = true /\
          forall o', live s' o' <-> o' = set_LastSentWeeklyReportAt (stored s <$> t) o \/ (live s o' /\ o' <> o)) \/
       (forall o, live s o -> same_id (o_ExternalID o) e = false));
  law_ListOrganizationUsers : forall s e b b', ok s -> (call (CallListOrganizationUsers e b b') s).2 = s;
}.

(** * The server *)

Section server.
Context {S Report : Type} `{LawfulDB S}.
Implicit Types (s : Server S Report).

Lemma db_run {A} (c : DBCall A) s o d' :
  call c (srv_db s) = (o, d') -> db c s = (o, set_srv_db d' s).
Proof. intros Hc. unfold db, zoom. by rewrite Hc. Qed.

Lemma db_reads {A} (c : DBCall A) s o : call c (srv_db s) = (o, srv_db s) -> db c s = (o, s).
Proof. intros Hc. rewrite (db_run _ _ _ _ Hc). by destruct s. Qed.

Lemma not_found_as_Ret {A} e (m : M (Server S Report) error A) s a s' :
  m s = (Ret a, s') -> not_found_as e m s = (Ret a, s').
Proof. intros Hm. unfold not_found_as, bind, try. by rewrite Hm. Qed.

Lemma not_found_as_Err {A} e (m : M (Server S Report) error A) s s' :
  m s = (Err ErrNotFound, s') -> not_found_as e m s = (Err e, s').
Proof. intros Hm. unfold not_found_as, bind, try. by rewrite Hm. Qed.

(** What a look-up of a known organization returns: each of the two flags denies one action. *)
Definition authorized {A} (action : AuthorizedAction) (o : Organization) (a : A) : outcome error A :=
  if bool_decide (action = INSTANCE_DATA_ACCESS) && o_RefuseDataAccess o
  then Err (ErrInstanceDataAccessDenied (o_ExternalID o) (o_RefuseDataReason o))
  else if bool_decide (action = INSTANCE_DATA_UPLOAD) && o_RefuseDataUpload o
  then Err (ErrInstanceDataUploadDenied (o_ExternalID o) (o_RefuseDataReason o))
  else Ret a.

Lemma check_authorized {A} action o (a : A) s :
  (check (authorizeAction action o) ;;; ret a) s = (authorized action o a, s).
Proof.
  unfold authorized, authorizeAction, bind, check.
  destruct action; simpl; [done|by destruct (o_RefuseDataAccess o)|by destruct (o_RefuseDataUpload o)].
Qed.

Lemma lookup_org_loop_found e u action l o s :
  o ∈ l -> same_id (o_ExternalID o) e = true ->
  (forall o', o' ∈ l -> same_id (o_ExternalID o') e = true -> o' = o) ->
  lookup_org_loop e u action l s
  = (authorized action o (mkLookupOrgResponse (o_ID o) u (o_FeatureFlags o)), s).
Proof.
  intros Hin He Huniq. induction l as [|x l IH]; [by apply not_elem_of_nil in Hin|].
  simpl. case_decide as Hx.
  - assert (x = o) as -> by (apply Huniq; [by left | by apply bool_decide_eq_true]).
    apply check_authorized.
  - apply IH; [|intros; apply Huniq; [by right|done]].
    apply elem_of_cons in Hin as [->|]; [|done]. by apply bool_decide_eq_true in He.
Qed.

Lemma lookup_org_loop_missing e u action l s :
  (forall o, o ∈ l -> same_id (o_ExternalID o) e = false) ->
  lookup_org_loop e u action l s = (Err ErrInvalidAuthenticationData, s).
Proof.
  intros Hno. induction l as [|x l IH]; [done|]. simpl. rewrite decide_False.
  - apply IH. intros o Ho. apply Hno. by right.
  - intros Hx. specialize (Hno x (list_elem_of_here _ _)). by apply bool_decide_eq_false in Hno.
Qed.

Lemma LookupOrg_run (sessions_Decode : string -> error + sessions.Session) cookie e action s :
  ok (srv_db s) ->
  (forall err, sessions_Decode cookie = inl err -> LookupOrg sessions_Decode cookie e action s = (Err err, s)) /\
  (forall session, sessions_Decode cookie = inr session ->
     let u := sessions.UserID session in
     (forall o, live (srv_db s) o -> member (srv_db s) u (o_TeamID o) -> same_id (o_ExternalID o) e = true ->
        LookupOrg sessions_Decode cookie e action s
        = (authorized action o (mkLookupOrgResponse (o_ID o) u (o_FeatureFlags o)), s)) /\
     ((forall o, live (srv_db s) o -> member (srv_db s) u (o_TeamID o) -> same_id (o_ExternalID o) e = false) ->
        LookupOrg sessions_Decode cookie e action s = (Err ErrInvalidAuthenticationData, s))).
Proof.
  intros Hok. unfold LookupOrg. split; [by intros err ->|]. intros session ->. cbv zeta. set (u := sessions.UserID session).
  destruct (law_ListOrganizationsForUserIDs (srv_db s) [u] Hok) as (l & Hl & Hmem).
  apply db_reads in Hl. apply (not_found_as_Ret ErrInvalidAuthenticationData) in Hl.
  rewrite (bind_Ret _ _ s session s) by done. fold u. rewrite (bind_Ret _ _ _ _ _ Hl).
  assert (Hmem' : forall o, o ∈ l <-> live (srv_db s) o /\ member (srv_db s) u (o_TeamID o)).
  { intros o. rewrite Hmem. split; [intros (? & u' & ->%list_elem_of_singleton & ?); done|].
    intros [? ?]. split; [done|]. exists u. split; [by apply list_elem_of_singleton|done]. }
  split.
  - intros o Ho Hm He. apply lookup_org_loop_found; [by apply Hmem'|done|].
    intros o' [Ho' _]%Hmem' He'. apply (live_unique (srv_db s)); try done.
    apply same_id_trans with e; [done|]. by rewrite same_id_sym.
  - intros Hno. apply lookup_org_loop_missing. intros o [Ho Hm]%Hmem'. by apply Hno.
Qed.

(** C11: [LookupOrg] lets a request through exactly when its cookie holds a session of a
    member of the team of a live organization with the given external id, whatever its case,
    that is not denied the action; the answer names that organization and that user. In
    every other case it is an error: the session's, the denial, or
    [ErrInvalidAuthenticationData]; and nothing is changed. *)
Theorem LookupOrg_spec (sessions_Decode : string -> error + sessions.Session) cookie e action s :
  ok (srv_db s) ->
  (forall err, sessions_Decode cookie = inl err -> LookupOrg sessions_Decode cookie e action s = (Err err, s)) /\
  (forall session, sessions_Decode cookie = inr session ->
     let u := sessions.UserID session in
     (forall o, live (srv_db s) o -> member (srv_db s) u (o_TeamID o) -> same_id (o_ExternalID o) e = true ->
        LookupOrg sessions_Decode cookie e action s
        = (authorized action o (mkLookupOrgResponse (o_ID o) u (o_FeatureFlags o)), s)) /\
     ((forall o, live (srv_db s) o -> member (srv_db s) u (o_TeamID o) -> same_id (o_ExternalID o) e = false) ->
        LookupOrg sessions_Decode cookie e action s = (Err ErrInvalidAuthenticationData, s))).
Proof. apply LookupOrg_run. Qed.

Lemma LookupUsingToken_run token action s :
  ok (srv_db s) ->
  (forall o, live (srv_db s) o -> o_ProbeToken o = token ->
     LookupUsingToken token action s
     = (authorized action o (mkLookupUsingTokenResponse (o_ID o) (o_FeatureFlags o)), s)) /\
  ((forall o, live (srv_db s) o -> o_ProbeToken o <> token) ->
     LookupUsingToken token action s = (Err ErrInvalidAuthenticationData, s)).
Proof.
  intros Hok. unfold LookupUsingToken.
  destruct (law_FindOrganizationByProbeToken (srv_db s) token Hok) as [(o & Ho & Hlive & Ht)|[Ho Hno]].
  - apply db_reads in Ho. apply (not_found_as_Ret ErrInvalidAuthenticationData) in Ho. split.
    + intros o' Hlive' Ht'. assert (o' = o) as -> by (apply (token_unique (srv_db s)); congruence).
      rewrite (bind_Ret _ _ _ _ _ Ho). apply check_authorized.
    + intros Hno. by destruct (Hno o Hlive).
  - apply db_reads in Ho. apply (not_found_as_Err ErrInvalidAuthenticationData) in Ho. split.
    + intros o' Hlive' Ht'. by destruct (Hno o' Hlive').
    + intros _. by rewrite (bind_Err _ _ _ _ _ Ho).
Qed.

(** [LookupUsingToken] lets a request through exactly when its token is the probe token
    of a live organization that is not denied the action, and answers with that
    organization; an unknown token is [ErrInvalidAuthenticationData]; nothing is changed. *)
Theorem LookupUsingToken_spec token action s :
  ok (srv_db s) ->
  (forall o, live (srv_db s) o -> o_ProbeToken o = token ->
     LookupUsingToken token action s
     = (authorized action o (mkLookupUsingTokenResponse (o_ID o) (o_FeatureFlags o)), s)) /\
  ((forall o, live (srv_db s) o -> o_ProbeToken o <> token) ->
     LookupUsingToken token action s = (Err ErrInvalidAuthenticationData, s)).
Proof. apply LookupUsingToken_run. Qed.

(** ** Billing *)

Lemma delinquent_iff now o :
  orgs.isDelinquent o now = Some true <->
  o_ZuoraAccountNumber o = EmptyString /\ o_GCP o = None /\ o_TrialExpiresAt o < now /\
  o_HasFeatureFlag o featureflag.Billing = true.
Proof.
  transitivity (filter.sat_org (orgs.DelinquentFilter now) o); [done|].
  unfold orgs.DelinquentFilter. rewrite filter.sat_and, !Forall_cons, Forall_nil.
  unfold filter.sat_org. simpl. unfold filter.empty_str, filter.is_nil, time.Before.
  rewrite !(inj_iff Some), bool_decide_eq_true, Z.ltb_lt. destruct (o_GCP o); naive_solver.
Qed.

Lemma billable_iff now o :
  filter.sat_org (billable now) o <->
  (o_ZuoraAccountNumber o <> EmptyString \/ filter.gcp_active o = true) /\ o_TrialExpiresAt o < now /\
  o_HasFeatureFlag o featureflag.Billing = true.
Proof.
  unfold billable. rewrite filter.sat_and, !Forall_cons, Forall_nil, filter.sat_or.
  2: { repeat constructor. }
  unfold filter.sat_org. rewrite !Exists_cons, Exists_nil. simpl. unfold filter.empty_str, time.Before.
  rewrite !(inj_iff Some), negb_true_iff, bool_decide_eq_false, Z.ltb_lt. tauto.
Qed.

Lemma on_trial_iff now o :
  filter.sat_org (on_trial now) o <->
  o_GCP o = None /\ now < o_TrialExpiresAt o /\ o_HasFeatureFlag o featureflag.Billing = true.
Proof.
  unfold on_trial. rewrite filter.sat_and, !Forall_cons, Forall_nil.
  unfold filter.sat_org. simpl. unfold filter.is_nil, time.After.
  rewrite !(inj_iff Some), Z.ltb_lt. destruct (o_GCP o); naive_solver.
Qed.

(** C13: [GetDelinquentOrganizations] returns exactly the live organizations the billing
    rules refuse access to at that time (as the database keeps it), and none of them is returned by
    [GetBillableOrganizations] or by [GetTrialOrganizations] at the same time; an organization
    without GCP and with the billing flag is in exactly one of the three lists, except at the
    very instant its trial ends. *)
Theorem billing_partition now s :
  ok (srv_db s) ->
  exists ld lb lt,
    GetDelinquentOrganizations now s = (Ret ld, s) /\
    GetBillableOrganizations now s = (Ret lb, s) /\
    GetTrialOrganizations now s = (Ret lt, s) /\
    (forall o, o ∈ ld <-> live (srv_db s) o /\ orgs.ShouldRefuseDataAccess o (stored (srv_db s) now) = Some true) /\
    (forall o, o ∈ ld -> o ∉ lb /\ o ∉ lt) /\
    (forall o, o ∈ lb -> o ∉ lt) /\
    (forall o, live (srv_db s) o -> o_GCP o = None -> o_HasFeatureFlag o featureflag.Billing = true ->
       o_TrialExpiresAt o <> stored (srv_db s) now -> o ∉ lt -> o ∉ lb -> o ∈ ld).
Proof.
  intros Hok. set (kept := stored (srv_db s) now).
  destruct (law_ListOrganizations (srv_db s) (orgs.DelinquentFilter now) Hok eq_refl) as (ld & Hld & Hd).
  destruct (law_ListOrganizations (srv_db s) (billable now) Hok eq_refl) as (lb & Hlb & Hb).
  destruct (law_ListOrganizations (srv_db s) (on_trial now) Hok eq_refl) as (lt & Hlt & Ht).
  change (filter.at_resolution (stored (srv_db s)) (orgs.DelinquentFilter now)) with (orgs.DelinquentFilter kept) in Hd.
  change (filter.at_resolution (stored (srv_db s)) (billable now)) with (billable kept) in Hb.
  change (filter.at_resolution (stored (srv_db s)) (on_trial now)) with (on_trial kept) in Ht.
  exists ld, lb, lt. split_and!; [by apply db_reads..| exact Hd | | |].
  - setoid_rewrite Hb. setoid_rewrite Ht. setoid_rewrite billable_iff. setoid_rewrite on_trial_iff.
    intros o [Hlive Hdel]%Hd. apply delinquent_iff in Hdel as (Hz & Hg & He & Hf).
    split; [|lia]. intros (_ & [Hz'|Hg'] & _); [done|]. unfold filter.gcp_active in Hg'. by rewrite Hg in Hg'.
  - setoid_rewrite Hb. setoid_rewrite Ht. setoid_rewrite billable_iff. setoid_rewrite on_trial_iff.
    intros o (_ & _ & Hlt' & _) (_ & _ & Hgt & _). lia.
  - setoid_rewrite Hb. setoid_rewrite Ht. setoid_rewrite billable_iff. setoid_rewrite on_trial_iff.
    intros o Hlive Hg Hf Hne Hnt Hnb. apply Hd. split; [done|]. apply delinquent_iff.
    destruct (Z.lt_trichotomy (o_TrialExpiresAt o) kept) as [Hlt'|[Heq|Hgt]]; [|done|].
    + destruct (decide (o_ZuoraAccountNumber o = EmptyString)) as [|Hz]; [done|].
      exfalso. apply Hnb. split; [done|]. split; [by left|done].
    + exfalso. apply Hnt. done.
Qed.

(** ** Weekly reports *)

Section weekly.
Context (emailer : Mail Report -> option error) (GenerateReport : Organization -> time.Time -> error + Report)
  (forceFeatureFlags : list string).

Lemma end_of_day now later :
  now < endOfSameDayLastWeek later <->
  time.Truncate now (24 * time.Hour) + 7 * (24 * time.Hour) <= time.Truncate later (24 * time.Hour).
Proof.
  unfold endOfSameDayLastWeek, time.AddDays, time.Truncate. simpl.
  set (D := 24 * time.Hour). assert (HD : 0 < D) by reflexivity. clearbody D.
  rewrite (Z.mod_eq now D), (Z.mod_eq later D) by lia.
  pose proof (Z.mod_pos_bound now D HD) as Hn. rewrite Z.mod_eq in Hn by lia.
  generalize dependent (now / D). generalize (later / D). intros b a Hn.
  split; intros Hlt.
  - destruct (Z.le_gt_cases (a + 7) b) as [Hle|Hgt].
    + assert (D * (a + 7) <= D * b) by (apply Z.mul_le_mono_nonneg_l; lia). lia.
    + assert (D * b <= D * (a + 6)) by (apply Z.mul_le_mono_nonneg_l; lia). lia.
  - lia.
Qed.

Lemma ready_iff later o :
  filter.sat_org (ready_for_report forceFeatureFlags later) o <->
  match o_LastSentWeeklyReportAt o with None => True | Some sent => sent < endOfSameDayLastWeek later end /\
  is_Some (o_FirstSeenPromConnectedAt o) /\
  (featureFlagIsForced forceFeatureFlags featureflag.WeeklyReportable = true \/
   o_HasFeatureFlag o featureflag.WeeklyReportable = true).
Proof.
  unfold ready_for_report. rewrite filter.sat_and, Forall_app, !Forall_cons, Forall_nil.
  unfold filter.sat_org at 1 2. simpl. unfold filter.is_nil, time.Before. rewrite !(inj_iff Some).
  assert (Hsent : (match o_LastSentWeeklyReportAt o with None => true | Some r => r <? endOfSameDayLastWeek later end) = true
     <-> match o_LastSentWeeklyReportAt o with None => True | Some sent => sent < endOfSameDayLastWeek later end)
    by (destruct (o_LastSentWeeklyReportAt o); [apply Z.ltb_lt|tauto]).
  rewrite Hsent.
  assert (Hprom : negb (match o_FirstSeenPromConnectedAt o with None => true | Some _ => false end) = true
     <-> is_Some (o_FirstSeenPromConnectedAt o)) by (destruct (o_FirstSeenPromConnectedAt o); split; intros; try done; by destruct H1).
  rewrite Hprom.
  destruct (featureFlagIsForced forceFeatureFlags featureflag.WeeklyReportable); rewrite ?Forall_cons, Forall_nil;
    unfold filter.sat_org; simpl; rewrite ?(inj_iff Some); naive_solver.
Qed.

Lemma SendOutWeeklyReport_Ret e now s s' :
  ok (srv_db s) -> SendOutWeeklyReport emailer GenerateReport e now s = (Ret tt, s') ->
  exists m, outbox s' = outbox s ++ [m] /\
    call (CallSetLastSentWeeklyReportAt e (Some now)) (srv_db s) = (Ret tt, srv_db s') /\
    exists o, live (srv_db s) o /\ o_ExternalID o = e.
Proof.
  intros Hok. unfold SendOutWeeklyReport.
  destruct (law_FindOrganizationByID (srv_db s) e Hok) as [(o & Ho & Hlive & He)|[Ho _]]; apply db_reads in Ho;
    [|by rewrite (bind_Err _ _ _ _ _ Ho)].
  assert (Hfound : exists o, live (srv_db s) o /\ o_ExternalID o = e) by by exists o. clear Hlive He.
  rewrite (bind_Ret _ _ _ _ _ Ho).
  intros (r & s1 & Hr & Hrun)%bind_inv_Ret.
  assert (s1 = s) as -> by (unfold lift_sum in Hr; case_match; unfold throw, ret in Hr; congruence).
  apply bind_inv_Ret in Hrun as (members & s2 & Hm & Hrun).
  unfold db, zoom in Hm. pose proof (law_ListOrganizationUsers (srv_db s) (o_ExternalID o) false true Hok) as Hread.
  destruct (call _ (srv_db s)) as [[] d']; simpl in Hread; subst d'; simplify_eq/=.
  apply bind_inv_Ret in Hrun as ([] & s3 & Hsend & Hrun).
  unfold send in Hsend. case_match; [done|]. injection Hsend as <-. simpl in *.
  exists (WeeklyReportEmail members r). unfold db, zoom in Hrun. simpl in Hrun.
  destruct (call (CallSetLastSentWeeklyReportAt e (Some now)) (srv_db s)) as [[[]| | | |] d2]; by simplify_eq/=.
Qed.

(** A weekly report that was sent out is one mail, and the organization is not ready for
    another one before the seventh day after the day of the report, however often the
    scheduler asks; from that day on it is ready again, as long as it is connected to
    Prometheus and has the flag (or the flag is forced). *)
Theorem weekly_report_once_a_week e now s s' later :
  ok (srv_db s) -> stored (srv_db s') (endOfSameDayLastWeek later) = endOfSameDayLastWeek later ->
  SendOutWeeklyReport emailer GenerateReport e now s = (Ret tt, s') ->
  (exists m, outbox s' = outbox s ++ [m]) /\
  exists l, GetOrganizationsReadyForWeeklyReport forceFeatureFlags later s' = (Ret l, s') /\
    forall o, live (srv_db s') o -> same_id (o_ExternalID o) e = true ->
      (o ∈ l <->
       time.Truncate (stored (srv_db s) now) (24 * time.Hour) + 7 * (24 * time.Hour) <= time.Truncate later (24 * time.Hour) /\
       is_Some (o_FirstSeenPromConnectedAt o) /\
       (featureFlagIsForced forceFeatureFlags featureflag.WeeklyReportable = true \/
        o_HasFeatureFlag o featureflag.WeeklyReportable = true)).
Proof.
  intros Hok Hday Hrun. apply SendOutWeeklyReport_Ret in Hrun as (m & Hout & Hset & o1 & Hlive1 & He1); [|done].
  split; [by exists m|].
  destruct (law_SetLastSentWeeklyReportAt _ _ _ Hok _ Hset) as (Hok' & [(o0 & Hlive0 & He0 & Hlive')|Hno]).
  2: { specialize (Hno o1 Hlive1). rewrite He1, same_id_refl in Hno. done. }
  destruct (law_ListOrganizations (srv_db s') (ready_for_report forceFeatureFlags later) Hok') as (l & Hl & Hmem).
  { unfold ready_for_report. by case_match. }
  exists l. split; [by apply db_reads|]. intros o Ho He.
  assert (Hsame : filter.at_resolution (stored (srv_db s')) (ready_for_report forceFeatureFlags later) = ready_for_report forceFeatureFlags later).
  { unfold ready_for_report. simpl. rewrite Hday. by case_match. }
  rewrite Hmem, Hsame, ready_iff.
  assert (Hsent : o_LastSentWeeklyReportAt o = Some (stored (srv_db s) now)).
  { apply Hlive' in Ho as [->|[Ho Hne]]; [done|]. exfalso. apply Hne.
    apply (live_unique (srv_db s)); try done. apply same_id_trans with e; [done|]. by rewrite same_id_sym. }
  rewrite Hsent, end_of_day. tauto.
Qed.

End weekly.

End server.
