(* ===== verification/MemLawful.v ===== *)
(** The in-memory database keeps what the server relies on, so that the server's theorems
    hold of the two together; and the permission checks over the in-memory database. *)
From Stdlib Require Import ZArith Lia Ascii String Sorting.Sorted.
From stdpp Require Import base tactics option gmap strings list pretty relations.
From S2P Require Import Prelude GoStd Users Filter MemDB MemTeam MemOrg MemUser UsersDB MemInv MemSafety Sample MemDelete MemOrgSpec MemUserSpec Sessions UsersServer ServerSpec.

(** * Code that reads and always ends *)

Section quiet.
Context {S E : Type}.

Definition quiet {A} (m : M S E A) : Prop := forall s, (m s).2 = s /\ definite (m s).1.

Lemma quiet_ret {A} (a : A) : quiet (ret a).
Proof. done. Qed.
Lemma quiet_gets {A} (f : S -> A) : quiet (gets f).
Proof. done. Qed.
Lemma quiet_or_else {A} (p : option A) e : quiet (or_else p e : M S E A).
Proof. by destruct p. Qed.
Lemma quiet_bind {A B} (m : M S E A) (k : A -> M S E B) :
  quiet m -> (forall a, quiet (k a)) -> quiet (bind m k).
Proof.
  intros Hm Hk s. unfold bind. destruct (Hm s) as (Hs & Hd).
  destruct (m s) as [[] s']; simpl in *; subst; try done. apply Hk.
Qed.
Lemma quiet_fold_m {A B} (f : B -> A -> M S E B) (l : list A) b :
  (forall b x, quiet (f b x)) -> quiet (fold_m f l b).
Proof.
  intros Hf. revert b. induction l as [|x l IH]; intros b; simpl; [apply quiet_ret|]. by apply quiet_bind.
Qed.

Lemma locked_quiet `{HasMutex S} {A} (m : M S E A) s :
  (forall s, set_mtx (mtx_held s) s = s) -> (forall b b' s, set_mtx b (set_mtx b' s) = set_mtx b s) ->
  quiet m -> mtx_held s = false -> (locked m s).2 = s /\ definite (locked m s).1.
Proof.
  intros Hid Hset Hm Hs. unfold locked. rewrite Hs. destruct (Hm (set_mtx true s)) as (Hr & Hd).
  destruct (m (set_mtx true s)) as [[] s']; simpl in *; subst; try done; (split; [|done]); rewrite Hset, <- Hs; apply Hid.
Qed.

End quiet.

Section lawful.
Context `{GoRange} (fuel : nat) (bcrypt_generate : string -> Z -> error + string).

Lemma quiet_listOrganizationUsers e a b : quiet (listOrganizationUsers e a b).
Proof.
  unfold listOrganizationUsers, findOrganizationByExternalID.
  apply quiet_bind; [apply quiet_bind; [apply quiet_gets|intros; apply quiet_or_else]|].
  intros [k o]. case_match; [apply quiet_ret|]. apply quiet_bind; [|intros; apply quiet_ret].
  unfold listTeamUsers. apply quiet_bind; [apply quiet_gets|]. intros tm.
  apply quiet_bind; [|intros; apply quiet_ret]. apply quiet_fold_m. intros us [m roles].
  case_match; [|apply quiet_ret]. apply quiet_bind; [|intros; apply quiet_ret].
  unfold findUserByID. apply quiet_bind; [apply quiet_gets|intros; apply quiet_or_else].
Qed.

(** * Listing with a filter *)

#[export] Instance sat_org_dec f o : Decision (filter.sat_org f o).
Proof. unfold filter.sat_org. apply _. Defined.

Lemma matching_orgs_run f l acc d :
  filter.org_filter f = true ->
  fold_m (fun (acc : list OrgCell) '(_, org) =>
      do o <- loaded org;
      do b <- deref (filter.MatchesOrg f o);
      ret (if b then acc ++ [org] else acc)) (l : list (string * OrgCell)) acc d
  = (Ret (acc ++ (snd <$> List.filter (fun ko => bool_decide (filter.sat_org f (load_org d ko.2))) l)), d).
Proof.
  intros Hf. revert acc. induction l as [|[k o] l IH]; intros acc; simpl; [by rewrite app_nil_r|].
  destruct (filter.MatchesOrg_total (load_org d o) f Hf) as [b Hb].
  unfold bind at 1. unfold bind at 1. simpl. unfold bind at 1. rewrite Hb. simpl. rewrite IH.
  destruct b.
  - rewrite bool_decide_eq_true_2 by exact Hb. simpl. by rewrite <- app_assoc.
  - rewrite bool_decide_eq_false_2; [done|]. unfold filter.sat_org. congruence.
Qed.

Lemma ListOrganizations_run f page d :
  Inv d -> mtx d = false -> filter.org_filter f = true ->
  exists l, ListOrganizations f page d = (Ret l, d) /\
    forall o, o ∈ l <-> (exists k c, organizations d !! k = Some c /\ o = load_org d c) /\ filter.sat_org f o.
Proof.
  intros Hd Hm Hf. eexists. split.
  { apply locked_reads; [done| |done|done]. unfold bind at 1, gets. unfold bind at 1. unfold matching_orgs.
    rewrite matching_orgs_run by done. reflexivity. }
  intros o. rewrite list_elem_of_fmap. unfold organizationsByCreatedAt. simpl.
  setoid_rewrite sort.elem_of_ByDescending. setoid_rewrite list_elem_of_fmap. split.
  - intros (c & -> & [k c'] & -> & Hin). apply list_elem_of_In, List.filter_In in Hin as [Hin Hs].
    apply list_elem_of_In, elem_of_go_range in Hin. apply bool_decide_eq_true in Hs.
    split; [by exists k, c'|done].
  - intros ((k & c & Hk & ->) & Hs). exists c. split; [done|]. exists (k, c). split; [done|].
    apply list_elem_of_In, List.filter_In. split; [by apply list_elem_of_In, elem_of_go_range|].
    by apply bool_decide_eq_true.
Qed.

Lemma FindOrganizationByID_run e d :
  mtx d = false ->
  (exists k c, FindOrganizationByID e d = (Ret (load_org d c), d) /\ organizations d !! k = Some c /\ o_ExternalID c = e) \/
  (FindOrganizationByID e d = (Err ErrNotFound, d) /\ forall k c, organizations d !! k = Some c -> o_ExternalID c <> e).
Proof.
  intros Hm. unfold FindOrganizationByID, find_org.
  destruct (first_match (fun o => bool_decide (o_ExternalID o = e)) (organizations d)) as [c|] eqn:Hf.
  - left. apply first_match_Some in Hf as Hs. destruct Hs as (k & Hk & He%bool_decide_eq_true).
    exists k, c. split; [|done]. apply locked_reads; [done| |done|done].
    unfold gets, bind at 1. simpl. by rewrite Hf.
  - right. split.
    + apply locked_reads; [done| |done|done]. unfold gets, bind at 1. simpl. by rewrite Hf.
    + intros k c Hk He. rewrite first_match_None in Hf. specialize (Hf _ _ Hk). by rewrite bool_decide_eq_false in Hf.
Qed.

Lemma ListOrganizationUsers_quiet e b b' d : mtx d = false ->
  (ListOrganizationUsers e b b' d).2 = d /\ definite (ListOrganizationUsers e b b' d).1.
Proof. intros Hm. apply locked_quiet; [by intros []|done|apply quiet_listOrganizationUsers|done]. Qed.

(** * The instance *)

Definition memory_live (d : DB) (o : Organization) : Prop :=
  exists k c, organizations d !! k = Some c /\ o = load_org d c.

Lemma memory_live_id d k c k' c' : Inv d -> organizations d !! k = Some c -> organizations d !! k' = Some c' ->
  load_org d c' = load_org d c -> k' = k.
Proof.
  intros (_ & _ & (Hkey & _) & _) Hk Hk' Heq%(f_equal o_ID).
  pose proof (Hkey _ _ Hk) as H1. pose proof (Hkey _ _ Hk') as H2. simpl in *. congruence.
Qed.

(** Changing a live organization in place, found by its external id. *)
Lemma memory_update d k c c' o2 o' :
  Inv d -> organizations d !! k = Some c -> load_org d c' = o2 ->
  let d' := set_organizations (<[k := c']> (organizations d)) d in
  memory_live d' o' <-> o' = o2 \/ (memory_live d o' /\ o' <> load_org d c).
Proof.
  intros Hd Hk <- d'. unfold memory_live, d'. simpl. split.
  - intros (k' & x & [[<- ->]|[Hne Hk']]%lookup_insert_inv & ->); [by left|]. right. split; [by exists k', x|].
    intros Heq. apply Hne. symmetry. by apply (memory_live_id d k c k' x).
  - intros [->|[(k' & x & Hk' & ->) Hne]].
    + exists k, c'. by rewrite lookup_insert_eq.
    + exists k', x. rewrite lookup_insert_ne; [done|]. intros <-. congruence.
Qed.

Lemma memory_SetLastSent d e t d' :
  Inv d -> mtx d = false -> SetLastSentWeeklyReportAt e t d = (Ret tt, d') ->
  (Inv d' /\ mtx d' = false) /\ exists o, memory_live d o /\ same_id (o_ExternalID o) e = true /\
    forall o', memory_live d' o' <-> o' = set_LastSentWeeklyReportAt t o \/ (memory_live d o' /\ o' <> o).
Proof.
  intros Hd Hm Hrun.
  assert (Hd' : Inv d').
  { pose proof (memory_preserves fuel bcrypt_generate _ (CallSetLastSentWeeklyReportAt e t) d Hd) as Hi.
    simpl in Hi. by rewrite Hrun in Hi. }
  unfold SetLastSentWeeklyReportAt, setOrg in Hrun.
  destruct (find_ext_cases e d) as [(k & c & Hf)|Hf].
  - apply find_ext_Ret in Hf as (_ & Hk & He).
    unfold bind in Hrun. rewrite (changeOrg_run _ _ _ k c) in Hrun by done. simpl in Hrun. injection Hrun as <-.
    split; [done|]. exists (load_org d c). split; [by exists k, c|]. split; [done|].
    intros o'. by apply memory_update.
  - apply find_ext_Err in Hf as (_ & _ & Hno). unfold bind in Hrun. by rewrite changeOrg_missing in Hrun.
Qed.

#[export, program] Instance memory_lawful : @LawfulDB DB (memory fuel bcrypt_generate) := {|
  ok d := Inv d /\ mtx d = false;
  live := memory_live;
  member d u t := is_Some (memberships_of d u !! t);
  stored _ t := t;
|}.
Next Obligation.
  intros d o o' [(_ & _ & (_ & _ & (Hu & _) & _) & _) _] (k & c & Hk & ->) (k' & c' & Hk' & ->) He.
  pose proof (Hu _ _ _ _ Hk Hk' He) as <-. congruence.
Qed.
Next Obligation.
  intros d o o' [(_ & _ & (_ & _ & _ & Ht & _) & _) _] (k & c & Hk & ->) (k' & c' & Hk' & ->) He.
  pose proof (Ht _ _ _ _ Hk Hk' He) as <-. congruence.
Qed.
Next Obligation.
  intros d us [Hd Hm]. destruct (ListOrganizationsForUserIDs_run us d Hd Hm) as (l & Hl & Hmem & _).
  exists l. split; [exact Hl|]. intros o. rewrite Hmem. unfold reachable_by. split.
  - intros (k & c & Hk & Hr & ->). split; [by exists k, c|exact Hr].
  - intros ((k & c & Hk & ->) & Hr). by exists k, c.
Qed.
Next Obligation. intros d f [Hd Hm] Hf. rewrite filter.at_resolution_exact. by apply ListOrganizations_run, filter.portable_org. Qed.
Next Obligation.
  intros d t [Hd Hm]. cbn [call memory]. unfold call, memory, FindOrganizationByProbeToken, find_org.
  destruct (first_match (fun o => bool_decide (o_ProbeToken o = t)) (organizations d)) as [c|] eqn:Hf.
  - left. apply first_match_Some in Hf as Hs. destruct Hs as (k & Hk & He%bool_decide_eq_true).
    exists (load_org d c). split; [|split; [by exists k, c|exact He]]. apply locked_reads; [done| |done|done].
    unfold bind, gets. simpl. by rewrite Hf.
  - right. split.
    + apply locked_reads; [done| |done|done]. unfold bind, gets. simpl. by rewrite Hf.
    + intros o (k & c & Hk & ->) He. rewrite first_match_None in Hf. specialize (Hf _ _ Hk).
      by rewrite bool_decide_eq_false in Hf.
Qed.
Next Obligation.
  intros d e [Hd Hm]. destruct (FindOrganizationByID_run e d Hm) as [(k & c & Hf & Hk & He)|[Hf Hno]].
  - left. exists (load_org d c). split; [exact Hf|]. split; [by exists k, c|exact He].
  - right. split; [exact Hf|]. intros o (k & c & Hk & ->). by apply (Hno k c).
Qed.
Next Obligation.
  intros d e t [Hd Hm] d' Hrun. destruct (memory_SetLastSent d e t d' Hd Hm Hrun) as (Hok & o & Hl & He & Hlive).
  split; [done|]. left. exists o. rewrite option_fmap_id. done.
Qed.
Next Obligation.
  intros d e b b' [Hd Hm]. by apply ListOrganizationUsers_quiet.
Qed.

End lawful.

(** * Permissions *)

Section permissions.
Context `{GoRange} (fuel : nat) (bcrypt_generate : string -> Z -> error + string) {Report : Type}.
#[local] Instance memory_db : DBImpl DB := memory fuel bcrypt_generate.
Implicit Types (s : Server DB Report).

(** The permissions of a role, [None] for a role that does not exist. *)
Definition granted (roleID : string) : option (list string) := default_rolesPermissions !! roleID.

(** A list of permission ids that all exist. *)
Definition known (ids : list string) : Prop :=
  Forall (fun id => p_ID <$> default_permissions !! id = Some id) ids.

Lemma granted_known roleID ids :
  granted roleID = Some ids -> known ids /\ exists r, default_roles !! roleID = Some r /\ r_ID r = roleID.
Proof.
  unfold granted. intros Hg. apply elem_of_list_to_map_2 in Hg.
  repeat (apply elem_of_cons in Hg as [[= -> ->]|Hg];
    [split; [apply (bool_decide_eq_true_1 _); vm_compute; reflexivity | by eexists]|]).
  by apply not_elem_of_nil in Hg.
Qed.

Lemma granted_None roleID : granted roleID = None -> default_roles !! roleID = None.
Proof.
  unfold granted. intros Hg%not_elem_of_list_to_map_2. apply not_elem_of_list_to_map_1. exact Hg.
Qed.

Lemma has_permission_run p ids s :
  known ids ->
  has_permission p ((fun id => default_permissions !! id) <$> ids) s
  = (Ret (E:=error) (bool_decide (p ∈ ids)), s).
Proof.
  induction 1 as [|id ids Hid _ IH]; [done|]. rewrite fmap_cons. cbn [has_permission].
  destruct (default_permissions !! id) as [x|]; [|done]. injection Hid as Hid.
  unfold bind at 1. simpl. destruct (decide (p_ID x = p)) as [Hp|Hp].
  - rewrite bool_decide_eq_true_2; [done|]. rewrite <- Hp, Hid. by left.
  - rewrite IH. do 2 f_equal. apply bool_decide_ext. rewrite elem_of_cons. split; [by right|].
    intros [->|]; [|done]. by destruct Hp.
Qed.

(** What a user who has this role, or none, in a team may do. *)
Definition decision (role : option string) (p : string) : outcome error unit :=
  match role with
  | None => Err ErrForbidden
  | Some roleID =>
      match granted roleID with
      | Some ids => if decide (p ∈ ids) then Ret tt else Err ErrForbidden
      | None => Panic
      end
  end.

Lemma requirePermission_run u t p s :
  Inv (srv_db s) -> mtx (srv_db s) = false ->
  requirePermission u t p s = (decision (memberships_of (srv_db s) u !! t) p, s).
Proof.
  intros ((_ & _ & Hroles & Hperms & Hrp) & _) Hm. set (d := srv_db s) in *.
  unfold requirePermission, decision.
  destruct (memberships_of d u !! t) as [rid|] eqn:Hmem.
  - assert (Hrole : db (CallGetUserRoleInTeam u t) s = (Ret (default_roles !! rid), s)).
    { apply (db_reads (S:=DB)). cbn. unfold GetUserRoleInTeam, bind, gets. fold d. rewrite Hmem. cbn.
      by rewrite Hroles. }
    rewrite (bind_Ret _ _ _ _ _ (not_found_as_Ret ErrForbidden _ _ _ _ Hrole)).
    destruct (granted rid) as [ids|] eqn:Hg.
    + destruct (granted_known _ _ Hg) as (Hk & r & Hr & Hid). rewrite Hr.
      rewrite (bind_Ret _ _ s r s) by done. rewrite Hid.
      assert (Hlist : db (CallListPermissionsForRoleID rid) s
        = (Ret ((fun id => default_permissions !! id) <$> ids), s)).
      { apply (db_reads (S:=DB)). apply locked_reads; [done| |done|done]. unfold gets. fold d. cbn.
        rewrite Hrp. change (default_rolesPermissions !! rid) with (granted rid). by rewrite Hg, Hperms. }
      rewrite (bind_Ret _ _ _ _ _ Hlist). rewrite (bind_Ret _ _ _ _ _ (has_permission_run _ _ _ Hk)).
      case_decide; [by rewrite bool_decide_eq_true_2|by rewrite bool_decide_eq_false_2].
    + by rewrite (granted_None _ Hg).
  - assert (Hrole : db (CallGetUserRoleInTeam u t) s = (Err ErrNotFound, s)).
    { apply (db_reads (S:=DB)). cbn. unfold GetUserRoleInTeam, bind, gets. fold d. by rewrite Hmem. }
    by rewrite (bind_Err _ _ _ _ _ (not_found_as_Err ErrForbidden _ _ _ Hrole)).
Qed.

(** C12: a member of an organization's team may do exactly what the permissions of the
    member's role list; everybody else is [ErrForbidden], an unknown organization is
    [ErrNotFound], and the check changes nothing. A membership whose role does not exist makes
    the check panic (the role is dereferenced), it never lets the request through. *)
Theorem RequireOrgMemberPermissionTo_spec u e p s :
  Inv (srv_db s) -> mtx (srv_db s) = false ->
  (forall k c, organizations (srv_db s) !! k = Some c -> o_ExternalID c = e -> e <> EmptyString ->
     RequireOrgMemberPermissionTo u e EmptyString p s
     = (decision (memberships_of (srv_db s) u !! o_TeamID c) p, s)) /\
  (e <> EmptyString -> (forall k c, organizations (srv_db s) !! k = Some c -> o_ExternalID c <> e) ->
     RequireOrgMemberPermissionTo u e EmptyString p s = (Err ErrNotFound, s)).
Proof.
  intros Hd Hm. unfold RequireOrgMemberPermissionTo, api_RequireOrgMemberPermissionTo. split.
  - intros k c Hk He Hne. rewrite decide_False by done. rewrite (bind_Ret _ _ s e s) by done.
    destruct (FindOrganizationByID_run e (srv_db s) Hm) as [(k' & c' & Hf & Hk' & He')|[_ Hno]];
      [|by destruct (Hno k c)].
    assert (c' = c) as ->.
    { pose proof Hd as (_ & _ & (_ & _ & (Hu & _) & _) & _).
      assert (k' = k) as -> by (apply (Hu _ _ _ _ Hk' Hk); apply bool_decide_eq_true; congruence). congruence. }
    rewrite (bind_Ret _ _ s (load_org (srv_db s) c) s) by (by apply (db_reads (S:=DB))).
    by apply requirePermission_run.
  - intros Hne Hno. rewrite decide_False by done. rewrite (bind_Ret _ _ s e s) by done.
    destruct (FindOrganizationByID_run e (srv_db s) Hm) as [(k' & c' & _ & Hk' & He')|[Hf _]]; [by destruct (Hno k' c')|].
    rewrite (bind_Err _ _ s ErrNotFound s) by (by apply (db_reads (S:=DB))). done.
Qed.

End permissions.

(** * The server's theorems at a concrete state *)

Import sample.

Definition no_mail (m : Mail string) : option error := None.
Definition reports (o : Organization) (now : time.Time) : error + string := inr "report".
Definition cookies (c : string) : error + sessions.Session :=
  if decide (c = "ada") then inr (sessions.mkSession "google" "17" "0" 1 EmptyString)
  else inl ErrInvalidAuthenticationData.
#[local] Instance sample_db : DBImpl DB := memory fuel hash.
#[local] Instance sample_lawful : LawfulDB DB := memory_lawful fuel hash.
Definition server : Server DB string := mkServer sample.d [] (fun _ => 9) 0.

Lemma server_ok : ok (srv_db server).
Proof. exact (conj inv unlocked). Qed.

Lemma own_live : live (srv_db server) (load_org sample.d own).
Proof. exists "0", own. split; [exact own_stored|reflexivity]. Qed.

Lemma LookupOrg_spec_witness :
  (LookupOrg cookies "ada" "Own-Org-01" INSTANCE_DATA_UPLOAD server).1
  = Ret (mkLookupOrgResponse "0" "0" []).
Proof.
  destruct (LookupOrg_spec cookies "ada" "Own-Org-01" INSTANCE_DATA_UPLOAD server server_ok) as [_ Hin].
  destruct (Hin (sessions.mkSession "google" "17" "0" 1 EmptyString) eq_refl) as [Hok _].
  rewrite (Hok (load_org sample.d own) own_live).
  - vm_compute. reflexivity.
  - vm_compute. by eexists.
  - vm_compute. reflexivity.
Defined.

Lemma LookupUsingToken_spec_witness :
  LookupUsingToken "nobody's" OTHER server = (Err ErrInvalidAuthenticationData, server).
Proof.
  apply (LookupUsingToken_spec "nobody's" OTHER server server_ok).
  intros o (k & c & Hk & ->).
  assert (Hall : map_Forall (fun _ c => o_ProbeToken c <> "nobody's") (organizations sample.d))
    by (apply (bool_decide_eq_true_1 _); vm_compute; reflexivity).
  exact (Hall k c Hk).
Defined.

Lemma billing_partition_witness :
  exists ld, GetDelinquentOrganizations 100 server = (Ret ld, server) /\ length ld = 0%nat.
Proof.
  destruct (billing_partition 100 server server_ok) as (ld & lb & lt & Hd & _).
  exists ld. split; [exact Hd|]. apply (f_equal fst) in Hd. vm_compute in Hd. injection Hd as <-. reflexivity.
Defined.

Definition reported : Server DB string := (SendOutWeeklyReport no_mail reports "own-org-01" 20 server).2.

Lemma weekly_report_once_a_week_witness :
  length (outbox reported) = 1%nat /\
  exists l, GetOrganizationsReadyForWeeklyReport [featureflag.WeeklyReportable] 30 reported = (Ret l, reported).
Proof.
  assert (Hrun : SendOutWeeklyReport no_mail reports "own-org-01" 20 server = (Ret tt, reported)).
  { rewrite (surjective_pairing (SendOutWeeklyReport no_mail reports "own-org-01" 20 server)). unfold reported.
    f_equal. }
  destruct (weekly_report_once_a_week no_mail reports [featureflag.WeeklyReportable] "own-org-01" 20 server reported 30
    server_ok eq_refl Hrun) as [_ (l & Hl & _)].
  split; [vm_compute; reflexivity|]. exists l. exact Hl.
Defined.

Lemma RequireOrgMemberPermissionTo_spec_witness :
  (RequireOrgMemberPermissionTo "1" "shared-org-02" EmptyString "instance.delete" server).1 = Err ErrForbidden.
Proof.
  assert (Hs : organizations (srv_db server) !! "1" = Some shared) by (vm_compute; reflexivity).
  assert (He : o_ExternalID shared = "shared-org-02") by (vm_compute; reflexivity).
  pose proof (proj1 (RequireOrgMemberPermissionTo_spec fuel hash "1" "shared-org-02" "instance.delete" server inv unlocked)
    "1" shared Hs He ltac:(discriminate)) as Hrun.
  etransitivity; [exact (f_equal fst Hrun)|]. vm_compute. reflexivity.
Defined.
