(* ===== verification/UsersClient.v ===== *)
(** The users service as its clients see it: the text of its errors, and the interceptor that
    turns the error of a handler into a gRPC status (users/render/errors.go,
    common/grpc/errors.go). *)
From Stdlib Require Import ZArith Lia Ascii String.
From stdpp Require Import base tactics strings list pretty.
From S2P Require Import Prelude GoStd Users UsersDB Sessions UsersServer.

(** * Package strconv and package fmt *)

(** [%q] of a string whose bytes outside ASCII are printable UTF-8. *)
Module quote.

Definition hex_digit (n : nat) : ascii :=
  ascii_of_nat (if (n <? 10)%nat then 48 + n else 87 + n).

Definition char (c : ascii) : string :=
  let n := nat_of_ascii c in
  if (n =? 34)%nat || (n =? 92)%nat then String "\" (String c EmptyString)
  else if (n =? 7)%nat then "\a" else if (n =? 8)%nat then "\b" else if (n =? 12)%nat then "\f"
  else if (n =? 10)%nat then "\n" else if (n =? 13)%nat then "\r" else if (n =? 9)%nat then "\t"
  else if (n =? 11)%nat then "\v"
  else if (n <? 32)%nat || (n =? 127)%nat
       then String "\" (String "x" (String (hex_digit (n / 16)) (String (hex_digit (n mod 16)) EmptyString)))
  else String c EmptyString.

Fixpoint body (s : string) : string :=
  match s with EmptyString => EmptyString | String c s' => char c +:+ body s' end.

Definition mark : string := String (ascii_of_nat 34) EmptyString.
Definition Quote (s : string) : string := mark +:+ body s +:+ mark.

End quote.

(** [fmt.Sprintf(text)] without arguments: every verb of the text is missing its operand. *)
Module format.

(** Flags, width and precision, which come before a verb. *)
Definition is_option (c : ascii) : bool :=
  let n := nat_of_ascii c in
  (n =? 43)%nat || (n =? 45)%nat || (n =? 35)%nat || (n =? 32)%nat || (n =? 46)%nat || strings.is_digit c.

Fixpoint Sprintf_none (verb : bool) (s : string) : string :=
  match s with
  | EmptyString => if verb then "%!(NOVERB)" else EmptyString
  | String c s' =>
      if verb then
        if is_option c then Sprintf_none true s'
        else if (nat_of_ascii c =? 37)%nat then String c (Sprintf_none false s')
        else ("%!" +:+ String c "(MISSING)") +:+ Sprintf_none false s'
      else if (nat_of_ascii c =? 37)%nat then Sprintf_none true s'
      else String c (Sprintf_none false s')
  end.
Definition Sprintf (s : string) : string := Sprintf_none false s.

End format.

(** * Errors *)

(** [err.Error()] *)
Definition Error (e : error) : string :=
  match e with
  | ErrForbidden => "forbidden"
  | ErrNotFound => "not found"
  | ErrInvalidAuthenticationData => "invalid authentication data"
  | ErrOrgTokenIsTaken => "token already taken"
  | ErrLoginNotFound => "no login for this user"
  | ErrProviderParameters => "must pass provider and userID"
  | ValidationError s | MalformedInputError s | ErrMsg s => s
  | AlreadyAttachedError _ email => "Login is already attached to " +:+ quote.Quote email
  | InstanceDeniedError text id reason => InstanceDeniedError_Error text id reason
  | PqError _ message => "pq: " +:+ message
  | GRPCError code body => "rpc error: code = Code(" +:+ pretty code +:+ ") desc = " +:+ body
  end.

(** [errors.Wrap(err, message)] *)
Definition Wrap (err : error) (message : string) : error := ErrMsg (message +:+ ": " +:+ Error err).

(** [IsGRPCStatusErrorCode] (common/grpc/errors.go) *)
Definition IsGRPCStatusErrorCode (err : error) (code : Z) : bool :=
  match err with GRPCError c _ => code =? c | _ => false end.

(** [GRPCErrorInterceptor]: the text of the error is the format of the message. A handler that
    panics or never returns is one here too. *)
Definition GRPCErrorInterceptor {S A} (handler : M S error A) : M S error A :=
  do r <- try handler;
  match r with
  | inl err => throw (GRPCError (ErrorStatusCode err) (format.Sprintf (Error err)))
  | inr resp => ret resp
  end.

Lemma Interceptor_Ret {S A} (m : M S error A) s a s' :
  m s = (Ret a, s') -> GRPCErrorInterceptor m s = (Ret a, s').
Proof. intros Hm. unfold GRPCErrorInterceptor, bind, try. by rewrite Hm. Qed.

Lemma Interceptor_Err {S A} (m : M S error A) s err s' :
  m s = (Err err, s') ->
  GRPCErrorInterceptor m s = (Err (GRPCError (ErrorStatusCode err) (format.Sprintf (Error err))), s').
Proof. intros Hm. unfold GRPCErrorInterceptor, bind, try. by rewrite Hm. Qed.

(** The status code a client sees says which kind of error the handler returned. *)
Lemma Interceptor_not_found {S A} (m : M S error A) s err s' :
  m s = (Err err, s') -> GRPCErrorInterceptor m s = (Err (GRPCError 404 (format.Sprintf "not found")), s') -> err = ErrNotFound.
Proof.
  intros Hm. rewrite (Interceptor_Err _ _ _ _ Hm). intros [= Hcode _].
  destruct err as [| | | | | | | | |text id reason| | |]; try done.
  simpl in Hcode. unfold InstanceDeniedError_Status in Hcode. by case_decide.
Qed.
