(* ===== verification/Calendar.v ===== *)
(** Calendar arithmetic (common/time/time.go) over the proleptic Gregorian calendar of Go's
    package time, in UTC: the days of a month, the start of a billing cycle, and the division
    of a period into monthly intervals. *)
From Stdlib Require Import ZArith Lia Ascii String List Sorting.Sorted.
From stdpp Require Import base tactics strings list.
From S2P Require Import Prelude GoStd Users.

(** * Package time: dates

    A [Time] counts nanoseconds from 1 January of year 1, 00:00 UTC, and [day_number] days
    from there. *)
Module civil.

Definition Day : Z := 24 * time.Hour.

Definition isLeap (year : Z) : bool := (year mod 4 =? 0) && (negb (year mod 100 =? 0) || (year mod 400 =? 0)).

(** Days before the months of a year that is not a leap year. *)
Definition daysBefore (m : Z) : Z :=
  nth (Z.to_nat m) [0; 31; 59; 90; 120; 151; 181; 212; 243; 273; 304; 334; 365] 0.

Definition days_before_year (year : Z) : Z :=
  let y := year - 1 in 365 * y + y / 4 - y / 100 + y / 400.

(** The day of [time.Date(year, month, day, 0, 0, 0, 0, time.UTC)]: the month is brought
    into its range first; the day may be any number. *)
Definition day_number (year month day : Z) : Z :=
  let m := month - 1 in
  let year := year + m / 12 in
  let m := m mod 12 in
  days_before_year year + daysBefore m + (if isLeap year && (2 <=? m) then 1 else 0) + (day - 1).

Definition Date (year month day : Z) : time.Time := day_number year month day * Day.

(** [absDate]: year, month and day of a day. *)
Definition daysPer400Years : Z := 365 * 400 + 97.
Definition daysPer100Years : Z := 365 * 100 + 24.
Definition daysPer4Years : Z := 365 * 4 + 1.

Definition month_of (yday : Z) : Z * Z :=
  let month := yday / 31 in
  let stop := daysBefore (month + 1) in
  if stop <=? yday then (month + 2, yday - stop + 1) else (month + 1, yday - daysBefore month + 1).

Definition year_day (d : Z) : Z * Z :=
  let n := d / daysPer400Years in
  let y := 400 * n in let d := d - daysPer400Years * n in
  let n := d / daysPer100Years in let n := n - Z.shiftr n 2 in
  let y := y + 100 * n in let d := d - daysPer100Years * n in
  let n := d / daysPer4Years in
  let y := y + 4 * n in let d := d - daysPer4Years * n in
  let n := d / 365 in let n := n - Z.shiftr n 2 in
  let y := y + n in let yday := d - 365 * n in
  (y + 1, yday).

Definition month_day (leap : bool) (yday : Z) : Z * Z :=
  if leap then
    if 31 + 29 - 1 <? yday then month_of (yday - 1)
    else if yday =? 31 + 29 - 1 then (2, 29)
    else month_of yday
  else month_of yday.

Definition absDate (d : Z) : Z * (Z * Z) :=
  let '(year, yday) := year_day d in (year, month_day (isLeap year) yday).

Definition Year (t : time.Time) : Z := (absDate (t / Day)).1.
Definition Month (t : time.Time) : Z := (absDate (t / Day)).2.1.
Definition DayOf (t : time.Time) : Z := (absDate (t / Day)).2.2.

(** ** The two directions are inverse *)

Definition days_in (year month : Z) : Z :=
  daysBefore month - daysBefore (month - 1) + (if isLeap year && (month =? 2) then 1 else 0).

Definition valid_date (year month day : Z) : bool :=
  (1 <=? month) && (month <=? 12) && (1 <=? day) && (day <=? days_in year month).

(** [P] holds of the [n] numbers from [z] on. *)
Fixpoint all_from (P : Z -> bool) (n : nat) (z : Z) : bool :=
  match n with O => true | S n' => P z && all_from P n' (z + 1) end.

Lemma all_from_spec P n z k : all_from P n z = true -> z <= k < z + Z.of_nat n -> P k = true.
Proof.
  revert z. induction n as [|n IH]; intros z; simpl; [lia|].
  intros [Hz Hn]%andb_prop Hk. destruct (Z.eq_dec k z) as [->|]; [done|]. apply (IH (z + 1)); [done|lia].
Qed.

Lemma isLeap_shift y k : isLeap (y + 400 * k) = isLeap y.
Proof.
  unfold isLeap.
  replace (y + 400 * k) with (y + (100 * k) * 4) at 1 by ring. rewrite Z.mod_add by done.
  replace (y + 400 * k) with (y + (4 * k) * 100) at 1 by ring. rewrite Z.mod_add by done.
  replace (y + 400 * k) with (y + k * 400) at 1 by ring. by rewrite Z.mod_add by done.
Qed.

Lemma days_in_shift y k m : days_in (y + 400 * k) m = days_in y m.
Proof. unfold days_in. by rewrite isLeap_shift. Qed.

Lemma days_before_year_shift y k : days_before_year (y + 400 * k) = days_before_year y + daysPer400Years * k.
Proof.
  unfold days_before_year, daysPer400Years. cbv zeta.
  replace (y + 400 * k - 1) with (y - 1 + (100 * k) * 4) at 2 by ring.
  replace (y + 400 * k - 1) with (y - 1 + (4 * k) * 100) at 2 by ring.
  replace (y + 400 * k - 1) with (y - 1 + k * 400) at 2 by ring.
  rewrite !Z.div_add by done. ring.
Qed.

Lemma day_number_shift y k m d : day_number (y + 400 * k) m d = day_number y m d + daysPer400Years * k.
Proof.
  unfold day_number. cbv zeta. replace (y + 400 * k + (m - 1) / 12) with (y + (m - 1) / 12 + 400 * k) by ring.
  rewrite days_before_year_shift, isLeap_shift. ring.
Qed.

Lemma year_day_shift n k : year_day (n + daysPer400Years * k) = ((year_day n).1 + 400 * k, (year_day n).2).
Proof.
  unfold year_day. rewrite (Z.mul_comm daysPer400Years k), Z.div_add by done. cbv zeta.
  replace (n + k * daysPer400Years - daysPer400Years * (n / daysPer400Years + k))
    with (n - daysPer400Years * (n / daysPer400Years)) by ring.
  simpl. f_equal. ring.
Qed.

Lemma absDate_shift n k : absDate (n + daysPer400Years * k) = ((absDate n).1 + 400 * k, (absDate n).2).
Proof. unfold absDate. rewrite year_day_shift. destruct (year_day n). simpl. by rewrite isLeap_shift. Qed.

Lemma valid_date_iff y m d : valid_date y m d = true <-> 1 <= m <= 12 /\ 1 <= d <= days_in y m.
Proof. unfold valid_date. rewrite !andb_true_iff, !Z.leb_le. tauto. Qed.

Lemma valid_date_shift y k m d : valid_date (y + 400 * k) m d = valid_date y m d.
Proof. unfold valid_date. by rewrite days_in_shift. Qed.

(** One goal for each month of the year. *)
Ltac month_cases m :=
  let H := fresh in
  assert (H : m = 1 \/ m = 2 \/ m = 3 \/ m = 4 \/ m = 5 \/ m = 6 \/ m = 7 \/ m = 8 \/ m = 9 \/ m = 10
    \/ m = 11 \/ m = 12) by lia; clear -H; decompose [or] H; clear H; subst m.

Lemma days_in_range y m : 1 <= m <= 12 -> 28 <= days_in y m <= 31.
Proof. intros Hm. unfold days_in. month_cases m; try done; by destruct (isLeap y). Qed.

(** ** Months *)

(** The month after a month. *)
Definition next_month (year month : Z) : Z * Z := if month =? 12 then (year + 1, 1) else (year, month + 1).

Lemma day_number_in_month y m d : day_number y m d = day_number y m 1 + (d - 1).
Proof. unfold day_number. lia. Qed.

Lemma day_number_thirteen y d : day_number y 13 d = day_number (y + 1) 1 d.
Proof.
  unfold day_number. cbv zeta. change ((13 - 1) / 12) with 1. change ((13 - 1) mod 12) with 0.
  change ((1 - 1) / 12) with 0. change ((1 - 1) mod 12) with 0. by rewrite (Z.add_0_r (y + 1)).
Qed.

Lemma day_number_fourteen y d : day_number y 14 d = day_number (y + 1) 2 d.
Proof.
  unfold day_number. cbv zeta. change ((14 - 1) / 12) with 1. change ((14 - 1) mod 12) with 1.
  change ((2 - 1) / 12) with 0. change ((2 - 1) mod 12) with 1. by rewrite (Z.add_0_r (y + 1)).
Qed.

Lemma div_step y k : 0 < k -> y / k = (y - 1) / k + (if y mod k =? 0 then 1 else 0).
Proof.
  intros Hk. pose proof (Z.div_mod y k ltac:(lia)). pose proof (Z.mod_pos_bound y k Hk).
  destruct (Z.eqb_spec (y mod k) 0).
  - assert ((y - 1) / k = y / k - 1); [|lia]. symmetry. apply (Z.div_unique_pos _ _ _ (k - 1)); lia.
  - assert ((y - 1) / k = y / k); [|lia]. symmetry. apply (Z.div_unique_pos _ _ _ (y mod k - 1)); lia.
Qed.

Lemma days_before_year_step y : days_before_year (y + 1) = days_before_year y + 365 + (if isLeap y then 1 else 0).
Proof.
  unfold days_before_year, isLeap. cbv zeta. replace (y + 1 - 1) with y by ring.
  rewrite (div_step y 4), (div_step y 100), (div_step y 400) by done.
  assert (H100 : y mod 100 = 0 -> y mod 4 = 0).
  { intros [q ->]%Z.mod_divide; [|done]. apply Z.mod_divide; [done|]. exists (q * 25). ring. }
  assert (H400 : y mod 400 = 0 -> y mod 100 = 0).
  { intros [q ->]%Z.mod_divide; [|done]. apply Z.mod_divide; [done|]. exists (q * 4). ring. }
  destruct (Z.eqb_spec (y mod 4) 0), (Z.eqb_spec (y mod 100) 0), (Z.eqb_spec (y mod 400) 0); simpl; lia.
Qed.

Lemma day_number_valid y m d : 1 <= m <= 12 ->
  day_number y m d
  = days_before_year y + daysBefore (m - 1) + (if isLeap y && (2 <=? m - 1) then 1 else 0) + (d - 1).
Proof.
  intros Hm. unfold day_number. cbv zeta. rewrite Z.div_small, Z.mod_small by lia. by rewrite (Z.add_0_r y).
Qed.

Lemma next_month_valid y m : 1 <= m <= 12 -> 1 <= (next_month y m).2 <= 12.
Proof. intros Hm. unfold next_month. destruct (Z.eqb_spec m 12); simpl; lia. Qed.

Lemma day_number_next y m d : 1 <= m <= 12 ->
  day_number (next_month y m).1 (next_month y m).2 d = day_number y m 1 + days_in y m + (d - 1).
Proof.
  intros Hm. rewrite !day_number_valid by (done || by apply next_month_valid). unfold next_month, days_in.
  month_cases m; simpl; rewrite ?andb_false_r, ?andb_true_r, ?days_before_year_step;
    unfold daysBefore; simpl; destruct (isLeap y); simpl; lia.
Qed.

(** [time.Date] and the package's users write the month after December as 13. *)
Lemma day_number_succ y m d : 1 <= m <= 12 ->
  day_number y (m + 1) d = day_number (next_month y m).1 (next_month y m).2 d.
Proof.
  intros Hm. unfold next_month. destruct (Z.eqb_spec m 12) as [->|]; simpl; [|done].
  apply day_number_thirteen.
Qed.

(** ** From a date to its day and back *)

(** The clipped quotient [absDate] takes of centuries and of years. *)
Lemma clipped_quotient d k a r :
  d = k * a + r -> 0 <= a <= 3 -> 0 < k -> 0 <= r < k \/ (a = 3 /\ r = k) ->
  d / k - Z.shiftr (d / k) 2 = a.
Proof.
  intros -> Ha Hk [Hr|[-> ->]].
  - rewrite <- (Z.div_unique_pos _ _ a r) by lia.
    assert (a = 0 \/ a = 1 \/ a = 2 \/ a = 3) as H by lia. by decompose [or] H; subst.
  - rewrite <- (Z.div_unique_pos (k * 3 + k) k 4 0) by lia. done.
Qed.

Lemma year_day_parts a b c yday : 0 <= a <= 3 -> 0 <= b <= 24 -> 0 <= c <= 3 ->
  0 <= yday < 365 \/ (yday = 365 /\ c = 3 /\ (b <> 24 \/ a = 3)) ->
  year_day (36524 * a + 1461 * b + 365 * c + yday) = (100 * a + 4 * b + c + 1, yday).
Proof.
  intros Ha Hb Hc Hy. unfold year_day. cbv zeta.
  set (d := 36524 * a + 1461 * b + 365 * c + yday).
  assert (Hd : 0 <= d < daysPer400Years) by (unfold daysPer400Years; lia). rewrite (Z.div_small d) by done.
  replace (d - daysPer400Years * 0) with d by ring.
  rewrite (clipped_quotient d daysPer100Years a (1461 * b + 365 * c + yday)) by (unfold daysPer100Years, d in *; lia).
  replace (d - daysPer100Years * a) with (1461 * b + 365 * c + yday) by (unfold d, daysPer100Years; lia).
  rewrite <- (Z.div_unique_pos _ daysPer4Years b (365 * c + yday)) by (unfold daysPer4Years; lia).
  replace (1461 * b + 365 * c + yday - daysPer4Years * b) with (365 * c + yday) by (unfold daysPer4Years; lia).
  rewrite (clipped_quotient (365 * c + yday) 365 c yday) by lia.
  f_equal; lia.
Qed.

(** The 400 years of a cycle. *)
Definition year_ok (y : Z) : bool :=
  let a := y / 100 in let b := (y - 100 * a) / 4 in let c := y - 100 * a - 4 * b in
  eqb (isLeap (y + 1)) ((c =? 3) && (negb (b =? 24) || (a =? 3)))
  && (days_before_year (y + 1) =? 36524 * a + 1461 * b + 365 * c).

Lemma one_cycle_of_years : all_from year_ok 400 0 = true.
Proof. vm_compute. reflexivity. Qed.

Lemma year_day_of_cycle y yday : 1 <= y <= 400 -> 0 <= yday < 365 + (if isLeap y then 1 else 0) ->
  year_day (days_before_year y + yday) = (y, yday).
Proof.
  intros Hy Hyd. pose proof (all_from_spec _ _ _ (y - 1) one_cycle_of_years ltac:(lia)) as Hok.
  unfold year_ok in Hok. rewrite Z.sub_add in Hok.
  set (a := (y - 1) / 100) in *. set (b := (y - 1 - 100 * a) / 4) in *. set (c := y - 1 - 100 * a - 4 * b) in *.
  apply andb_prop in Hok as [Hleap%eqb_prop Hdays%Z.eqb_eq]. rewrite Hdays.
  pose proof (Z.div_mod (y - 1) 100 ltac:(done)). pose proof (Z.mod_pos_bound (y - 1) 100 ltac:(done)).
  pose proof (Z.div_mod (y - 1 - 100 * a) 4 ltac:(done)). pose proof (Z.mod_pos_bound (y - 1 - 100 * a) 4 ltac:(done)).
  fold a in H. fold b in H1. rewrite year_day_parts; [f_equal; lia|lia|lia|lia|].
  destruct (Z.eqb_spec c 3), (Z.eqb_spec b 24), (Z.eqb_spec a 3); simpl in Hleap; rewrite Hleap in Hyd; lia.
Qed.

(** The days of a year, leap or not. *)
Definition day_of_year (leap : bool) (m d : Z) : Z :=
  daysBefore (m - 1) + (if leap && (2 <=? m - 1) then 1 else 0) + (d - 1).

Definition month_ok (leap : bool) (m d : Z) : bool :=
  bool_decide (month_day leap (day_of_year leap m d) = (m, d))
  || (daysBefore m - daysBefore (m - 1) + (if leap && (m =? 2) then 1 else 0) <? d).

Lemma one_year_of_days leap : all_from (fun m => all_from (month_ok leap m) 31 1) 12 1 = true.
Proof. destruct leap; vm_compute; reflexivity. Qed.

Lemma month_day_of_year y m d : 1 <= m <= 12 -> 1 <= d <= days_in y m ->
  month_day (isLeap y) (day_of_year (isLeap y) m d) = (m, d).
Proof.
  intros Hm Hd. pose proof (days_in_range y m Hm) as Hr. assert (Hd' : 1 <= d < 1 + Z.of_nat 31) by lia.
  pose proof (all_from_spec _ _ _ m (one_year_of_days (isLeap y)) ltac:(lia)) as H1.
  pose proof (all_from_spec _ _ _ d H1 Hd') as H2. unfold month_ok in H2.
  apply orb_prop in H2 as [H2|H2%Z.ltb_lt]; [exact (bool_decide_eq_true_1 _ H2)|].
  unfold days_in in Hd. lia.
Qed.

Lemma day_of_year_range y m d : 1 <= m <= 12 -> 1 <= d <= days_in y m ->
  0 <= day_of_year (isLeap y) m d < 365 + (if isLeap y then 1 else 0).
Proof.
  unfold days_in, day_of_year. intros Hm Hd. revert Hd. month_cases m; unfold daysBefore; simpl;
    destruct (isLeap y); simpl; lia.
Qed.

Lemma year_in_cycle y : exists y0 k, y = y0 + 400 * k /\ 1 <= y0 <= 400.
Proof.
  exists ((y - 1) mod 400 + 1), ((y - 1) / 400).
  pose proof (Z.div_mod (y - 1) 400 ltac:(done)). pose proof (Z.mod_pos_bound (y - 1) 400). lia.
Qed.

Lemma absDate_date y m d : valid_date y m d = true -> absDate (day_number y m d) = (y, (m, d)).
Proof.
  intros Hv. destruct (year_in_cycle y) as (y0 & k & -> & Hy).
  rewrite valid_date_shift in Hv. rewrite day_number_shift, absDate_shift.
  pose proof Hv as [Hm Hd]%valid_date_iff. rewrite day_number_valid by done.
  assert (Hyd : days_before_year y0 + daysBefore (m - 1) + (if isLeap y0 && (2 <=? m - 1) then 1 else 0) + (d - 1)
    = days_before_year y0 + day_of_year (isLeap y0) m d) by (unfold day_of_year; lia).
  unfold absDate. rewrite Hyd, year_day_of_cycle by (done || by apply day_of_year_range).
  by rewrite month_day_of_year.
Qed.

Lemma absDate_in_month y m d : 1 <= m <= 12 -> 1 <= d <= days_in y m -> absDate (day_number y m d) = (y, (m, d)).
Proof. intros. apply absDate_date. by apply valid_date_iff. Qed.

(** Every day has a date: the day after a date has one, and cycles repeat. *)
Lemma date_exists_pos n : 0 <= n -> exists y m d, 1 <= m <= 12 /\ 1 <= d <= days_in y m /\ day_number y m d = n.
Proof.
  revert n. apply natlike_ind; [by exists 1, 1, 1|]. intros n _ (y & m & d & Hm & Hd & <-).
  destruct (Z_lt_ge_dec d (days_in y m)) as [Hlt|Hge].
  - exists y, m, (d + 1). split; [done|]. split; [lia|].
    rewrite (day_number_in_month y m d), (day_number_in_month y m (d + 1)). lia.
  - exists (next_month y m).1, (next_month y m).2, 1. pose proof (next_month_valid y m Hm) as Hm'.
    pose proof (days_in_range (next_month y m).1 _ Hm'). split; [done|]. split; [lia|].
    rewrite day_number_next, (day_number_in_month y m d) by done. lia.
Qed.

Lemma date_exists n : exists y m d, 1 <= m <= 12 /\ 1 <= d <= days_in y m /\ day_number y m d = n.
Proof.
  pose proof (Z.div_mod n daysPer400Years ltac:(done)) as Hn.
  destruct (date_exists_pos (n mod daysPer400Years)) as (y & m & d & Hm & Hd & Hr); [by apply Z.mod_pos_bound|].
  exists (y + 400 * (n / daysPer400Years)), m, d. rewrite days_in_shift, day_number_shift. split; [done|]. split; [done|]. lia.
Qed.

(** The fields of a time on a given day. *)
Lemma fields_of_day t y m d : 1 <= m <= 12 -> 1 <= d <= days_in y m -> t / Day = day_number y m d ->
  Year t = y /\ Month t = m /\ DayOf t = d.
Proof. intros Hm Hd Ht. unfold Year, Month, DayOf. rewrite Ht, absDate_in_month by done. done. Qed.

Lemma date_of_time t : exists y m d,
  Year t = y /\ Month t = m /\ DayOf t = d /\
  1 <= m <= 12 /\ 1 <= d <= days_in y m /\ t / Day = day_number y m d.
Proof.
  destruct (date_exists (t / Day)) as (y & m & d & Hm & Hd & Ht). exists y, m, d.
  destruct (fields_of_day t y m d) as (Hy & Hmo & Hda); [done|done|done|]. done.
Qed.

Lemma Date_div y m d : Date y m d / Day = day_number y m d.
Proof. unfold Date. by rewrite Z.div_mul. Qed.

End civil.

#[global] Opaque civil.absDate civil.day_number civil.days_in.

(** * common/time/time.go *)
Module common_time.

(** [Interval] *)
Record Interval : Type := mkInterval { From : time.Time; To : time.Time }.

(** [DaysIn] *)
Definition DaysIn (m year : Z) : Z := civil.DayOf (civil.Date year (m + 1) 0).

(** [BeginningOfNextDay], [BeginningOfMonth], [BeginningOfNextMonth], [JustBefore], [EndOfMonth] *)
Definition BeginningOfNextDay (t : time.Time) : time.Time :=
  civil.Date (civil.Year t) (civil.Month t) (civil.DayOf t + 1).
Definition BeginningOfMonth (t : time.Time) : time.Time := civil.Date (civil.Year t) (civil.Month t) 1.
Definition BeginningOfNextMonth (t : time.Time) : time.Time := civil.Date (civil.Year t) (civil.Month t + 1) 1.
Definition JustBefore (t : time.Time) : time.Time := time.Add t (-1).
Definition EndOfMonth (t : time.Time) : time.Time := JustBefore (BeginningOfNextMonth t).

(** [MinTime], [MaxTime], [InTimeRange] *)
Definition MinTime (lhs rhs : time.Time) : time.Time := if time.Before lhs rhs then lhs else rhs.
Definition MaxTime (lhs rhs : time.Time) : time.Time := if time.Before lhs rhs then rhs else lhs.
Definition InTimeRange (start stop t : time.Time) : bool := negb (time.After start t) && time.Before t stop.

(** [IsEndOfMonth] *)
Definition IsEndOfMonth (t : time.Time) : bool := DaysIn (civil.Month t) (civil.Year t) =? civil.DayOf t.

(** [NextCycleStart]; the minimum is taken of two small integers converted to [float64],
    which holds them exactly. *)
Definition NextCycleStart (reference : time.Time) (cycleDay : Z) : time.Time :=
  let month := if (civil.DayOf reference <? cycleDay) && negb (IsEndOfMonth reference)
               then civil.Month reference else civil.Month reference + 1 in
  let daysInMonth := DaysIn month (civil.Year reference) in
  let day := Z.min daysInMonth cycleDay in
  civil.Date (civil.Year reference) month day.

(** [EndOfCycle] *)
Definition EndOfCycle (t : time.Time) (cycleDay : Z) : time.Time := JustBefore (NextCycleStart t cycleDay).

(** [MonthlyIntervalsWithinRange]; the loop is given one round for each day of the period
    and two more. *)
Fixpoint intervals_loop (fuel : nat) (to : time.Time) (cycleDay : Z) (start : time.Time)
    (intervals : list Interval) : outcome error (list Interval) :=
  if time.Before start to then
    match fuel with
    | O => OutOfFuel
    | S fuel =>
        let stop := MinTime (NextCycleStart start cycleDay) to in
        intervals_loop fuel to cycleDay stop (intervals ++ [mkInterval start stop])
    end
  else Ret intervals.

Definition MonthlyIntervalsWithinRange (from to : time.Time) (cycleDay : Z) : outcome error (list Interval) :=
  if negb (time.Before from to) then Err (ErrMsg "from must be lower than to")
  else if (cycleDay <? 1) || (31 <? cycleDay) then Err (ErrMsg "day must be within [1, 31]")
  else intervals_loop (Z.to_nat ((to - from) / civil.Day + 2)) to cycleDay from [].

(** ** Billing cycles *)

(** A cycle starts at midnight of the cycle day, or of the last day of a month that is too short. *)
Definition cycle_start (cycleDay : Z) (t : time.Time) : Prop :=
  t mod civil.Day = 0 /\
  civil.DayOf t = Z.min cycleDay (civil.days_in (civil.Year t) (civil.Month t)).

Lemma DaysIn_month m y : 1 <= m <= 12 -> DaysIn m y = civil.days_in y m.
Proof.
  intros Hm. pose proof (civil.days_in_range y m Hm). unfold DaysIn.
  apply (civil.fields_of_day _ y m); [done|lia|].
  rewrite civil.Date_div, civil.day_number_succ, civil.day_number_next by done.
  rewrite (civil.day_number_in_month y m (civil.days_in y m)). lia.
Qed.

Lemma DaysIn_thirteen y : DaysIn 13 y = civil.days_in (y + 1) 1.
Proof.
  rewrite <- DaysIn_month by lia. unfold DaysIn, civil.Date. do 2 f_equal. apply civil.day_number_fourteen.
Qed.

Lemma DaysIn_succ y m : 1 <= m <= 12 ->
  DaysIn (m + 1) y = civil.days_in (civil.next_month y m).1 (civil.next_month y m).2.
Proof.
  intros Hm. unfold civil.next_month. destruct (Z.eqb_spec m 12) as [->|]; simpl.
  - apply DaysIn_thirteen.
  - apply DaysIn_month. lia.
Qed.

(** The day a cycle starts on in a month. *)
Definition cycle_day (c y m : Z) : Z := Z.min (civil.days_in y m) c.

Lemma cycle_day_range c y m : 1 <= c -> 1 <= m <= 12 -> 1 <= cycle_day c y m <= civil.days_in y m.
Proof. intros Hc Hm. pose proof (civil.days_in_range y m Hm). unfold cycle_day. lia. Qed.

Lemma cycle_start_Date c y m : 1 <= c -> 1 <= m <= 12 -> cycle_start c (civil.Date y m (cycle_day c y m)).
Proof.
  intros Hc Hm. split; [by apply Z.mod_mul|].
  destruct (civil.fields_of_day (civil.Date y m (cycle_day c y m)) y m (cycle_day c y m)) as (-> & -> & ->);
    [done|by apply cycle_day_range|apply civil.Date_div|]. unfold cycle_day. lia.
Qed.

(** A cycle that starts on a day of a month starts on the cycle day of that month. *)
Lemma cycle_start_in_month c t y m d : 1 <= m <= 12 -> 1 <= d <= civil.days_in y m ->
  t / civil.Day = civil.day_number y m d -> cycle_start c t -> d = cycle_day c y m.
Proof.
  intros Hm Hd Ht [_ Hc]. destruct (civil.fields_of_day t y m d) as (Hy & Hmo & Hda); try done.
  rewrite Hy, Hmo, Hda in Hc. unfold cycle_day. lia.
Qed.

(** The first day a cycle starts on after a day: this month's cycle day when that is still to
    come, next month's otherwise. *)
Definition next_cycle_day (c y m d : Z) : Z :=
  if d <? cycle_day c y m then civil.day_number y m (cycle_day c y m)
  else let '(y', m') := civil.next_month y m in civil.day_number y' m' (cycle_day c y' m').

Lemma NextCycleStart_eq t c y m d : 1 <= c -> 1 <= m <= 12 -> 1 <= d <= civil.days_in y m ->
  civil.Year t = y -> civil.Month t = m -> civil.DayOf t = d ->
  NextCycleStart t c = next_cycle_day c y m d * civil.Day.
Proof.
  intros Hc Hm Hd <- <- Hday. set (y := civil.Year t) in *. set (m := civil.Month t) in *.
  unfold NextCycleStart, next_cycle_day, IsEndOfMonth, civil.Date. fold y m. rewrite Hday, DaysIn_month by done.
  assert (Hcond : (d <? c) && negb (civil.days_in y m =? d) = (d <? cycle_day c y m)).
  { unfold cycle_day. destruct (Z.ltb_spec d c), (Z.eqb_spec (civil.days_in y m) d); simpl;
      symmetry; rewrite ?Z.ltb_lt, ?Z.ltb_ge; lia. }
  rewrite Hcond. f_equal. destruct (d <? cycle_day c y m).
  - rewrite DaysIn_month by done. reflexivity.
  - rewrite DaysIn_succ, civil.day_number_succ by done. by destruct (civil.next_month y m).
Qed.

Lemma next_cycle_day_spec c y m d : 1 <= c -> 1 <= m <= 12 -> 1 <= d <= civil.days_in y m ->
  let next := next_cycle_day c y m d in
  civil.day_number y m d < next /\ cycle_start c (next * civil.Day) /\
  forall u, cycle_start c u -> civil.day_number y m d < u / civil.Day -> next <= u / civil.Day.
Proof.
  intros Hc Hm Hd. pose proof (cycle_day_range c y m Hc Hm) as Hcd. unfold next_cycle_day.
  pose proof (civil.day_number_in_month y m) as Hin.
  destruct (Z.ltb_spec d (cycle_day c y m)) as [Hlt|Hge]; cbv zeta.
  - split; [rewrite (Hin d), (Hin (cycle_day c y m)); lia|].
    split; [by apply cycle_start_Date|]. intros u Hu Hn. apply Z.nlt_ge. intros Hlt'.
    assert (d + (u / civil.Day - civil.day_number y m d) = cycle_day c y m); [|rewrite (Hin d), (Hin (cycle_day c y m)) in *; lia].
    apply (cycle_start_in_month c u); try done; rewrite ?(Hin d), ?(Hin (cycle_day c y m)), ?(Hin (d + _)) in *; lia.
  - pose proof (civil.day_number_next y m) as Hnext. pose proof (civil.next_month_valid y m Hm) as Hm'.
    destruct (civil.next_month y m) as [y' m']. simpl in Hm', Hnext.
    pose proof (cycle_day_range c y' m' Hc Hm') as Hcd'.
    split; [rewrite Hnext, (Hin d) by done; lia|]. split; [by apply cycle_start_Date|].
    intros u Hu Hn. apply Z.nlt_ge. intros Hlt'. rewrite Hnext in Hlt' by done. rewrite (Hin d) in Hn.
    destruct (Z_le_gt_dec (u / civil.Day) (civil.day_number y m (civil.days_in y m))) as [Hle|Hgt];
      rewrite (Hin (civil.days_in y m)) in *.
    + assert (u / civil.Day - civil.day_number y m 1 + 1 = cycle_day c y m); [|lia].
      apply (cycle_start_in_month c u); try done; [lia|]. rewrite (Hin (_ + 1)). lia.
    + assert (u / civil.Day - (civil.day_number y m 1 + civil.days_in y m) + 1 = cycle_day c y' m'); [|lia].
      apply (cycle_start_in_month c u); try done; [lia|]. rewrite Hnext by done. lia.
Qed.

(** The order of midnights is that of their days. *)
Lemma midnight u : u mod civil.Day = 0 -> u = u / civil.Day * civil.Day.
Proof. intros Hu. pose proof (Z.div_mod u civil.Day ltac:(done)). lia. Qed.

Lemma before_midnight t n : t < n * civil.Day <-> t / civil.Day < n.
Proof.
  pose proof (Z.div_mod t civil.Day ltac:(done)). pose proof (Z.mod_pos_bound t civil.Day ltac:(done)).
  assert (0 < civil.Day) by done. nia.
Qed.

Lemma NextCycleStart_run t c : 1 <= c ->
  let next := NextCycleStart t c in
  cycle_start c next /\ t < next /\ forall u, cycle_start c u -> t < u -> next <= u.
Proof.
  intros Hc. destruct (civil.date_of_time t) as (y & m & d & Hy & Hmo & Hday & Hm & Hd & Ht).
  cbv zeta. rewrite (NextCycleStart_eq t c y m d) by done.
  destruct (next_cycle_day_spec c y m d Hc Hm Hd) as (Hlt & Hs & Hleast). rewrite <- Ht in *.
  split; [done|]. split; [by apply before_midnight|]. intros u Hu Hlater.
  pose proof (midnight u (proj1 Hu)) as Heq. rewrite Heq in Hlater.
  apply before_midnight in Hlater. specialize (Hleast u Hu Hlater). rewrite Heq. by apply Z.mul_le_mono_nonneg_r.
Qed.

(** The next cycle of a subscription starts at the first midnight after the reference
    that falls on the cycle day, or on the last day of a month too short to have that day. *)
Theorem NextCycleStart_spec t c :
  1 <= c <= 31 ->
  let next := NextCycleStart t c in
  cycle_start c next /\ t < next /\ forall u, cycle_start c u -> t < u -> next <= u.
Proof. intros [Hc _]. by apply NextCycleStart_run. Qed.

Lemma NextCycleStart_spec_witness :
  NextCycleStart (civil.Date 2016 1 31) 31 = civil.Date 2016 2 29 /\
  cycle_start 31 (NextCycleStart (civil.Date 2016 1 31) 31).
Proof.
  split; [vm_compute; reflexivity|]. apply (NextCycleStart_spec (civil.Date 2016 1 31) 31). lia.
Defined.

(** ** Monthly intervals *)

(** The intervals [l] cut the time from [start] to [to] at the instants [cuts], which are
    the starts of cycles between the two. *)
Definition cut_at_cycles (c : Z) (start to : time.Time) (cuts : list time.Time) (l : list Interval) : Prop :=
  From <$> l = start :: cuts /\ To <$> l = cuts ++ [to] /\
  StronglySorted Z.lt (start :: cuts ++ [to]) /\
  forall u, u ∈ cuts <-> cycle_start c u /\ start < u < to.

Lemma cut_at_cycles_one c start to : 1 <= c -> start < to -> to <= NextCycleStart start c ->
  cut_at_cycles c start to [] [mkInterval start to].
Proof.
  intros Hc Hlt Hle. destruct (NextCycleStart_run start c Hc) as (_ & _ & Hleast).
  split; [done|]. split; [done|]. split; [by repeat constructor|].
  intros u. split; [by intros ?%not_elem_of_nil|]. intros (Hu & H1 & H2). specialize (Hleast u Hu H1). lia.
Qed.

Lemma cut_at_cycles_cons c start to cuts l : 1 <= c -> let next := NextCycleStart start c in
  cut_at_cycles c next to cuts l -> cut_at_cycles c start to (next :: cuts) (mkInterval start next :: l).
Proof.
  intros Hc next (Hf & Ht & Hsort & Hcuts). destruct (NextCycleStart_run start c Hc) as (Hs & Hlater & Hleast).
  fold next in Hs, Hlater, Hleast.
  split; [by rewrite fmap_cons, Hf|]. split; [by rewrite fmap_cons, Ht|].
  assert (Hafter : Forall (Z.lt next) (cuts ++ [to])) by (by apply StronglySorted_inv in Hsort as [_ ?]).
  split.
  - simpl. constructor; [exact Hsort|]. constructor; [done|].
    eapply Forall_impl; [exact Hafter|]. intros x Hx. simpl in Hx. lia.
  - assert (Hto : next < to) by (apply Forall_app in Hafter as [_ Hafter]; by inversion Hafter).
    intros u. rewrite elem_of_cons, Hcuts. split.
    + intros [->|[Hu Hb]]; [done|]. split; [exact Hu|lia].
    + intros (Hu & H1 & H2). specialize (Hleast u Hu H1).
      destruct (Z.eq_dec u next); [by left|right]. split; [exact Hu|lia].
Qed.

Lemma intervals_loop_run c to fuel start acc :
  1 <= c -> start < to -> to / civil.Day - start / civil.Day + 1 <= Z.of_nat fuel ->
  exists cuts l, intervals_loop fuel to c start acc = Ret (acc ++ l) /\ cut_at_cycles c start to cuts l.
Proof.
  intros Hc. revert start acc. induction fuel as [|fuel IH]; intros start acc Hlt Hfuel.
  - pose proof (Z.div_le_mono start to civil.Day ltac:(done)). lia.
  - destruct (NextCycleStart_run start c Hc) as ((Hmid & _) & Hlater & _).
    simpl. unfold time.Before at 1. rewrite (proj2 (Z.ltb_lt _ _) Hlt). unfold MinTime, time.Before.
    destruct (Z.ltb_spec (NextCycleStart start c) to) as [Hn|Hn].
    + rewrite (midnight _ Hmid) in Hlater. apply before_midnight in Hlater.
      destruct (IH (NextCycleStart start c) (acc ++ [mkInterval start (NextCycleStart start c)]) Hn ltac:(lia))
        as (cuts & l & Hrun & Hcut).
      eexists _, _. split; [|by apply cut_at_cycles_cons]. by rewrite Hrun, <- app_assoc.
    + eexists _, _. split; [|by apply cut_at_cycles_one].
      destruct fuel; simpl; unfold time.Before; by rewrite Z.ltb_irrefl.
Qed.

(** The rounds the loop is given are enough. *)
Lemma days_between from to : from < to ->
  to / civil.Day - from / civil.Day + 1 <= Z.of_nat (Z.to_nat ((to - from) / civil.Day + 2)).
Proof.
  intros Hlt. pose proof (Z.div_pos (to - from) civil.Day ltac:(lia) ltac:(done)) as Hpos. rewrite Z2Nat.id by lia.
  pose proof (Z.div_mod to civil.Day ltac:(done)). pose proof (Z.mod_pos_bound to civil.Day ltac:(done)).
  pose proof (Z.div_mod from civil.Day ltac:(done)). pose proof (Z.mod_pos_bound from civil.Day ltac:(done)).
  pose proof (Z.div_mod (to - from) civil.Day ltac:(done)). pose proof (Z.mod_pos_bound (to - from) civil.Day ltac:(done)).
  assert (0 < civil.Day) by done. nia.
Qed.

(** C35: a period is divided into intervals that follow one another without gap or overlap,
    none of them empty, cut exactly at the starts of the billing cycles inside the period;
    the loop always ends. A period that is empty or reversed, and a cycle day that is not a
    day of a month, are errors. *)
Theorem MonthlyIntervals_spec from to c :
  (to <= from -> MonthlyIntervalsWithinRange from to c = Err (ErrMsg "from must be lower than to")) /\
  (from < to -> ~ 1 <= c <= 31 -> MonthlyIntervalsWithinRange from to c = Err (ErrMsg "day must be within [1, 31]")) /\
  (from < to -> 1 <= c <= 31 ->
   exists cuts l, MonthlyIntervalsWithinRange from to c = Ret l /\
     From <$> l = from :: cuts /\ To <$> l = cuts ++ [to] /\
     StronglySorted Z.lt (from :: cuts ++ [to]) /\
     forall u, u ∈ cuts <-> cycle_start c u /\ from < u < to).
Proof.
  unfold MonthlyIntervalsWithinRange, time.Before. split; [|split].
  - intros Hle. by rewrite (proj2 (Z.ltb_ge _ _) Hle).
  - intros Hlt Hc. rewrite (proj2 (Z.ltb_lt _ _) Hlt). simpl.
    destruct (Z.ltb_spec c 1), (Z.ltb_spec 31 c); simpl; (done || lia).
  - intros Hlt Hc. rewrite (proj2 (Z.ltb_lt _ _) Hlt). simpl.
    rewrite (proj2 (Z.ltb_ge c 1)), (proj2 (Z.ltb_ge 31 c)) by lia. simpl.
    destruct (intervals_loop_run c to _ from [] ltac:(lia) Hlt (days_between from to Hlt)) as (cuts & l & Hrun & Hcut).
    by exists cuts, l.
Qed.

Lemma MonthlyIntervals_spec_witness :
  MonthlyIntervalsWithinRange (civil.Date 2017 1 15) (civil.Date 2017 3 10) 31
  = Ret [mkInterval (civil.Date 2017 1 15) (civil.Date 2017 1 31);
         mkInterval (civil.Date 2017 1 31) (civil.Date 2017 2 28);
         mkInterval (civil.Date 2017 2 28) (civil.Date 2017 3 10)] /\
  exists cuts l, MonthlyIntervalsWithinRange (civil.Date 2017 1 15) (civil.Date 2017 3 10) 31 = Ret l /\
    From <$> l = civil.Date 2017 1 15 :: cuts.
Proof.
  split; [vm_compute; reflexivity|].
  destruct (MonthlyIntervals_spec (civil.Date 2017 1 15) (civil.Date 2017 3 10) 31) as (_ & _ & Hok).
  destruct (Hok ltac:(apply Z.ltb_lt; vm_compute; reflexivity) ltac:(lia)) as (cuts & l & Hrun & Hf & _).
  exists cuts, l. split; [exact Hrun|exact Hf].
Defined.

End common_time.
