(* ===== verification/Formats.v ===== *)
(** Text formats of the standard library the services use: dates of package time, the records of
    package encoding/csv. *)
From Stdlib Require Import ZArith Lia Ascii String.
From stdpp Require Import base tactics option gmap strings list pretty.
From S2P Require Import Prelude GoStd Users Calendar.

(** * Dates *)

Definition pad (n : nat) (z : Z) : string :=
  let s := pretty z in String.string_of_list_ascii (repeat "0"%char (n - String.length s)) +:+ s.

(** [t.Format(time.RFC3339)] of an instant in UTC *)
Definition RFC3339 (t : time.Time) : string :=
  let s := (t / time.Second) mod 86400 in
  pad 4 (civil.Year t) +:+ "-" +:+ pad 2 (civil.Month t) +:+ "-" +:+ pad 2 (civil.DayOf t) +:+ "T"
  +:+ pad 2 (s / 3600) +:+ ":" +:+ pad 2 (s / 60 mod 60) +:+ ":" +:+ pad 2 (s mod 60) +:+ "Z".

(** [t.Format(time.RFC3339Nano)]: the fraction of a second without its trailing zeros. *)
Fixpoint strip_zeros (s : string) : string :=
  match s with
  | EmptyString => EmptyString
  | String c s' =>
      match strip_zeros s' with
      | EmptyString => if Ascii.eqb c "0"%char then EmptyString else String c EmptyString
      | r => String c r
      end
  end.
Definition RFC3339Nano (t : time.Time) : string :=
  let s := (t / time.Second) mod 86400 in
  let fraction := strip_zeros (pad 9 (t mod time.Second)) in
  pad 4 (civil.Year t) +:+ "-" +:+ pad 2 (civil.Month t) +:+ "-" +:+ pad 2 (civil.DayOf t) +:+ "T"
  +:+ pad 2 (s / 3600) +:+ ":" +:+ pad 2 (s / 60 mod 60) +:+ ":" +:+ pad 2 (s mod 60)
  +:+ (if decide (fraction = EmptyString) then EmptyString else "." +:+ fraction) +:+ "Z".

(** [t.Format(layout)], for a layout made of the year "2006", the month "01", the day "02" and
    text that stands for itself. *)
Fixpoint FormatDate (layout : string) (t : time.Time) {struct layout} : string :=
  match layout with
  | String "2" (String "0" (String "0" (String "6" l))) => pad 4 (civil.Year t) +:+ FormatDate l t
  | String "0" (String "1" l) => pad 2 (civil.Month t) +:+ FormatDate l t
  | String "0" (String "2" l) => pad 2 (civil.DayOf t) +:+ FormatDate l t
  | String c l => String c (FormatDate l t)
  | EmptyString => EmptyString
  end.

(** [time.Parse("2006-01-02", s)] *)
Definition digits (l : list ascii) : option Z :=
  foldl (fun n c => n ← n; if strings.is_digit c then Some (10 * n + strconv.digit c) else None) (Some 0) l.
Definition ParseDate (s : string) : option time.Time :=
  match String.list_ascii_of_string s with
  | [y1; y2; y3; y4; "-"%char; m1; m2; "-"%char; d1; d2] =>
      y ← digits [y1; y2; y3; y4]; m ← digits [m1; m2]; d ← digits [d1; d2];
      if civil.valid_date y m d then Some (civil.Date y m d) else None
  | _ => None
  end.

Example dates :
  RFC3339 (civil.Date 2018 4 9 + (13 * 3600 + 5 * 60 + 7) * time.Second) = "2018-04-09T13:05:07Z"
  /\ RFC3339Nano (civil.Date 2018 4 9 + 120 * 1000000) = "2018-04-09T00:00:00.12Z"
  /\ FormatDate "01/02/2006" (civil.Date 2018 4 9) = "04/09/2018"
  /\ ParseDate "2018-04-09" = Some (civil.Date 2018 4 9) /\ ParseDate "2018-02-30" = None /\ ParseDate "2018-4-9" = None.
Proof. vm_compute. repeat split. Qed.

(** * CSV *)

Definition quote_char : ascii := ascii_of_nat 34.
Definition newline_char : ascii := ascii_of_nat 10.

(** [(w *csv.Writer) fieldNeedsQuotes] *)
Definition fieldNeedsQuotes (field : string) : bool :=
  match field with
  | EmptyString => false
  | String c _ =>
      bool_decide (field = String (ascii_of_nat 92) ".")
      || existsb (fun c => (Ascii.eqb c ",") || Ascii.eqb c quote_char || Ascii.eqb c (ascii_of_nat 13) || Ascii.eqb c newline_char) (String.list_ascii_of_string field)
      || strings.is_space c
  end.
Fixpoint double_quotes (s : string) : string :=
  match s with
  | EmptyString => EmptyString
  | String c s' => if Ascii.eqb c quote_char then String c (String c (double_quotes s')) else String c (double_quotes s')
  end.
Definition csv_field (field : string) : string :=
  if fieldNeedsQuotes field then String quote_char (double_quotes field +:+ String quote_char EmptyString) else field.

(** [w.Write(record)] *)
Definition csv_record (record : list string) : string :=
  strings.Join (csv_field <$> record) "," +:+ String newline_char EmptyString.
