(* ===== verification/Duration.v ===== *)
(** Billing durations (common/time/duration.go): an unsigned 64-bit amount of seconds,
    minutes, hours or days, and the conversions between the units. *)
From Stdlib Require Import ZArith Lia Ascii String.
From stdpp Require Import base tactics strings pretty.
From S2P Require Import Prelude GoStd Users.

Module duration.

(** [Seconds], [Minutes], [Hours], [Days]: the implementations of the interface [Duration]. *)
Inductive Duration : Type :=
  | Seconds (Amount : Z)
  | Minutes (Amount : Z)
  | Hours (Amount : Z)
  | Days (Amount : Z).

Definition NodeSeconds : string := "node-seconds".
Definition NodeMinutes : string := "node-minutes".
Definition NodeHours : string := "node-hours".
Definition NodeDays : string := "node-days".

(** ** The methods of the four types: an amount [n] of the unit; products wrap around. *)

(** [String] of each: the amount and the unit. *)
Definition sprint (amount : Z) (unit : string) : string := pretty amount +:+ " " +:+ unit.

(** [Seconds] *)
Definition Seconds_GetAmount (n : Z) : Z := n.
Definition Seconds_Unit : string := NodeSeconds.
Definition Seconds_ToSeconds (n : Z) : Duration := Seconds n.
Definition Seconds_ToMinutes (n : Z) : Duration := Minutes (n / 60).
Definition Seconds_ToHours (n : Z) : Duration := Hours (n / 60 / 60).
Definition Seconds_ToDays (n : Z) : Duration := Days (n / 60 / 60 / 24).
Definition Seconds_ToMostReadableUnit (n : Z) : Duration :=
  if n <? 60 then Seconds n else if n <? 60 * 60 then Seconds_ToMinutes n
  else if n <? 60 * 60 * 24 then Seconds_ToHours n else Seconds_ToDays n.
Definition Seconds_String (n : Z) : string := sprint (Seconds_GetAmount n) Seconds_Unit.

(** [Minutes] *)
Definition Minutes_GetAmount (n : Z) : Z := n.
Definition Minutes_Unit : string := NodeMinutes.
Definition Minutes_ToSeconds (n : Z) : Duration := Seconds (u64_wrap (n * 60)).
Definition Minutes_ToMinutes (n : Z) : Duration := Minutes n.
Definition Minutes_ToHours (n : Z) : Duration := Hours (n / 60).
Definition Minutes_ToDays (n : Z) : Duration := Days (n / 60 / 24).
Definition Minutes_ToMostReadableUnit (n : Z) : Duration :=
  if n <? 60 then Minutes n else if n <? 60 * 24 then Minutes_ToHours n else Minutes_ToDays n.
Definition Minutes_String (n : Z) : string := sprint (Minutes_GetAmount n) Minutes_Unit.

(** [Hours] *)
Definition Hours_GetAmount (n : Z) : Z := n.
Definition Hours_Unit : string := NodeHours.
Definition Hours_ToSeconds (n : Z) : Duration := Seconds (u64_wrap (u64_wrap (n * 60) * 60)).
Definition Hours_ToMinutes (n : Z) : Duration := Minutes (u64_wrap (n * 60)).
Definition Hours_ToHours (n : Z) : Duration := Hours n.
Definition Hours_ToDays (n : Z) : Duration := Days (n / 24).
Definition Hours_ToMostReadableUnit (n : Z) : Duration :=
  if n <? 24 then Hours n else Hours_ToDays n.
Definition Hours_String (n : Z) : string := sprint (Hours_GetAmount n) Hours_Unit.

(** [Days] *)
Definition Days_GetAmount (n : Z) : Z := n.
Definition Days_Unit : string := NodeDays.
Definition Days_ToSeconds (n : Z) : Duration := Seconds (u64_wrap (u64_wrap (u64_wrap (n * 60) * 60) * 24)).
Definition Days_ToMinutes (n : Z) : Duration := Minutes (u64_wrap (u64_wrap (n * 60) * 24)).
Definition Days_ToHours (n : Z) : Duration := Hours (u64_wrap (n * 24)).
Definition Days_ToDays (n : Z) : Duration := Days n.
Definition Days_ToMostReadableUnit (n : Z) : Duration :=
  Days n.
Definition Days_String (n : Z) : string := sprint (Days_GetAmount n) Days_Unit.

Arguments Seconds_GetAmount _ /.
Arguments Seconds_ToSeconds _ /.
Arguments Seconds_ToMinutes _ /.
Arguments Seconds_ToHours _ /.
Arguments Seconds_ToDays _ /.
Arguments Seconds_ToMostReadableUnit _ /.
Arguments Minutes_GetAmount _ /.
Arguments Minutes_ToSeconds _ /.
Arguments Minutes_ToMinutes _ /.
Arguments Minutes_ToHours _ /.
Arguments Minutes_ToDays _ /.
Arguments Minutes_ToMostReadableUnit _ /.
Arguments Hours_GetAmount _ /.
Arguments Hours_ToSeconds _ /.
Arguments Hours_ToMinutes _ /.
Arguments Hours_ToHours _ /.
Arguments Hours_ToDays _ /.
Arguments Hours_ToMostReadableUnit _ /.
Arguments Days_GetAmount _ /.
Arguments Days_ToSeconds _ /.
Arguments Days_ToMinutes _ /.
Arguments Days_ToHours _ /.
Arguments Days_ToDays _ /.
Arguments Days_ToMostReadableUnit _ /.

(** ** The interface [Duration]: the method of the type of the value *)

Definition GetAmount (d : Duration) : Z :=
  match d with
  | Seconds n => Seconds_GetAmount n
  | Minutes n => Minutes_GetAmount n
  | Hours n => Hours_GetAmount n
  | Days n => Days_GetAmount n
  end.
Definition ToSeconds (d : Duration) : Duration :=
  match d with
  | Seconds n => Seconds_ToSeconds n
  | Minutes n => Minutes_ToSeconds n
  | Hours n => Hours_ToSeconds n
  | Days n => Days_ToSeconds n
  end.
Definition ToMinutes (d : Duration) : Duration :=
  match d with
  | Seconds n => Seconds_ToMinutes n
  | Minutes n => Minutes_ToMinutes n
  | Hours n => Hours_ToMinutes n
  | Days n => Days_ToMinutes n
  end.
Definition ToHours (d : Duration) : Duration :=
  match d with
  | Seconds n => Seconds_ToHours n
  | Minutes n => Minutes_ToHours n
  | Hours n => Hours_ToHours n
  | Days n => Days_ToHours n
  end.
Definition ToDays (d : Duration) : Duration :=
  match d with
  | Seconds n => Seconds_ToDays n
  | Minutes n => Minutes_ToDays n
  | Hours n => Hours_ToDays n
  | Days n => Days_ToDays n
  end.
Definition ToMostReadableUnit (d : Duration) : Duration :=
  match d with
  | Seconds n => Seconds_ToMostReadableUnit n
  | Minutes n => Minutes_ToMostReadableUnit n
  | Hours n => Hours_ToMostReadableUnit n
  | Days n => Days_ToMostReadableUnit n
  end.
Definition String_ (d : Duration) : string :=
  match d with
  | Seconds n => Seconds_String n
  | Minutes n => Minutes_String n
  | Hours n => Hours_String n
  | Days n => Days_String n
  end.
Definition Unit (d : Duration) : string :=
  match d with Seconds _ => Seconds_Unit | Minutes _ => Minutes_Unit | Hours _ => Hours_Unit | Days _ => Days_Unit end.

(** ** What the conversions do to the length of a duration *)

(** Seconds in one unit, and in a duration, as a number without bound. *)
Definition unit_seconds (d : Duration) : Z :=
  match d with Seconds _ => 1 | Minutes _ => 60 | Hours _ => 3600 | Days _ => 86400 end.
Definition seconds (d : Duration) : Z := GetAmount d * unit_seconds d.

(** The amount is an unsigned 64-bit number. *)
Definition wf (d : Duration) : Prop := is_u64 (GetAmount d).

(** [r] is the conversion [f d] of [d] to the unit of [r]. *)
Inductive conversion (d : Duration) : Duration -> Prop :=
  | to_seconds : conversion d (ToSeconds d)
  | to_minutes : conversion d (ToMinutes d)
  | to_hours : conversion d (ToHours d)
  | to_days : conversion d (ToDays d).

Lemma wrap_mul n a b : 0 <= b -> u64_wrap (u64_wrap (n * a) * b) = u64_wrap (n * (a * b)).
Proof.
  intros Hb. unfold u64_wrap. rewrite Z.mul_mod_idemp_l by done. by rewrite Z.mul_assoc.
Qed.

(** All conversions at once: the amount divided by the ratio of the units when the target is
    the longer one, multiplied by it, modulo 2^64, when it is the shorter one. *)
Lemma conversion_amount d r : conversion d r ->
  (unit_seconds d <= unit_seconds r /\ GetAmount r = GetAmount d / (unit_seconds r / unit_seconds d)
     /\ unit_seconds r = unit_seconds d * (unit_seconds r / unit_seconds d)) \/
  (unit_seconds r < unit_seconds d /\ GetAmount r = u64_wrap (GetAmount d * (unit_seconds d / unit_seconds r))
     /\ unit_seconds d = unit_seconds r * (unit_seconds d / unit_seconds r)).
Proof.
  intros []; destruct d; simpl;
    ((by left; rewrite ?Z.div_div, ?Z.div_1_r by done) || (by right; rewrite ?wrap_mul by done)).
Qed.

Lemma longer_unit a k u : is_u64 a -> 0 < k -> 0 < u ->
  is_u64 (a / k) /\ a / k * (u * k) <= a * u < a / k * (u * k) + u * k.
Proof.
  intros [Ha Hb] Hk Hu. pose proof (Z.div_mod a k ltac:(lia)) as Hdiv. pose proof (Z.mod_pos_bound a k Hk) as Hm.
  pose proof (Z.div_pos a k Ha Hk) as Hp. pose proof (Z.div_le_upper_bound a k a Hk ltac:(nia)) as Hle.
  split; [split; lia|]. set (q := a / k) in *. set (m := a mod k) in *. nia.
Qed.

Lemma shorter_unit a k u : is_u64 a -> 0 < k -> 0 < u ->
  is_u64 (u64_wrap (a * k)) /\ (u64_wrap (a * k) * u = a * (u * k) <-> a * (u * k) < u64_mod * u).
Proof.
  intros [Ha _] Hk Hu. pose proof (u64_wrap_range (a * k)) as Hw. split; [exact Hw|].
  replace (a * (u * k)) with (a * k * u) by ring. rewrite <- Z.mul_lt_mono_pos_r by done. split.
  - intros Heq%Z.mul_reg_r; [|lia]. rewrite <- Heq. apply Hw.
  - intros Hlt. rewrite u64_wrap_small; [done|]. split; [nia|done].
Qed.

Lemma conversion_run d r : wf d -> conversion d r ->
  wf r /\
  (unit_seconds d <= unit_seconds r -> seconds r <= seconds d < seconds r + unit_seconds r) /\
  (unit_seconds r < unit_seconds d -> (seconds r = seconds d <-> seconds d < u64_mod * unit_seconds r)).
Proof.
  intros Hd Hc. unfold wf, seconds in *. assert (0 < unit_seconds r) as Hr by (by destruct r).
  assert (0 < unit_seconds d) as Hu by (by destruct d).
  destruct (conversion_amount d r Hc) as [(Hle & Ha & Hk)|(Hlt & Ha & Hk)];
    [set (k := unit_seconds r / unit_seconds d) in *|set (k := unit_seconds d / unit_seconds r) in *];
    assert (Hkpos : 0 < k) by nia.
  - destruct (longer_unit (GetAmount d) k (unit_seconds d) Hd Hkpos Hu) as [Hw Hs]. rewrite <- Ha in *.
    split; [exact Hw|]. split; [intros _; by rewrite Hk|lia].
  - destruct (shorter_unit (GetAmount d) k (unit_seconds r) Hd Hkpos Hr) as [Hw Hs]. rewrite <- Ha in *.
    split; [exact Hw|]. split; [lia|]. intros _. by rewrite Hk.
Qed.

(** Converting to a longer unit rounds down by less than one unit; converting to a shorter
    one is exact, except that the result is what is left modulo 2^64 of the exact amount; it
    is exact precisely when the amount fits in 64 bits. *)
Theorem conversion_spec d r : wf d -> conversion d r ->
  wf r /\
  (unit_seconds d <= unit_seconds r -> seconds r <= seconds d < seconds r + unit_seconds r) /\
  (unit_seconds r < unit_seconds d -> (seconds r = seconds d <-> seconds d < u64_mod * unit_seconds r)).
Proof. apply conversion_run. Qed.

(** The choice of a unit is a conversion to a unit that is no shorter. *)
Lemma ToMostReadableUnit_conversion d :
  conversion d (ToMostReadableUnit d) /\ unit_seconds d <= unit_seconds (ToMostReadableUnit d).
Proof.
  destruct d as [n|n|n|n]; simpl; repeat case_match; (split; [|done]);
    first [exact (to_seconds _) | exact (to_minutes _) | exact (to_hours _) | exact (to_days _)].
Qed.

(** Splits the comparisons of an amount with the sizes of the units. *)
Ltac most_readable :=
  split_and!; intros; repeat case_match;
  repeat match goal with
  | H : (_ <? _) = true |- _ => apply Z.ltb_lt in H
  | H : (_ <? _) = false |- _ => apply Z.ltb_ge in H
  | x : Duration |- _ => destruct x; simpl in *
  end; try done; try (exfalso; Z.to_euclidean_division_equations; lia); Z.to_euclidean_division_equations; lia.

(** The most readable unit of a duration is the longest one of which there is at least
    one, or the given unit if there is none; nothing overflows, the amount does not grow,
    less than one of the new units is lost, and choosing again changes nothing. *)
Theorem ToMostReadableUnit_spec d : wf d ->
  let r := ToMostReadableUnit d in
  wf r /\ GetAmount r <= GetAmount d /\ seconds r <= seconds d < seconds r + unit_seconds r /\
  (GetAmount r = 0 -> r = d) /\
  (forall n, unit_seconds r < unit_seconds n -> seconds d < unit_seconds n) /\
  ToMostReadableUnit r = r.
Proof.
  intros [Ha Hb] r. destruct (ToMostReadableUnit_conversion d) as [Hc Hu].
  destruct (conversion_run d r (conj Ha Hb) Hc) as (Hw & Hdown & _).
  specialize (Hdown Hu). subst r. split; [exact Hw|].
  assert (Hr : ToMostReadableUnit (ToMostReadableUnit d) = ToMostReadableUnit d /\
    (GetAmount (ToMostReadableUnit d) = 0 -> ToMostReadableUnit d = d) /\
    forall n, unit_seconds (ToMostReadableUnit d) < unit_seconds n -> seconds d < unit_seconds n).
  { destruct d as [n|n|n|n]; unfold seconds; simpl in *; repeat (case_match; simpl in *); most_readable. }
  destruct Hr as (Hi & Hz & Hn). split; [|split; [exact Hdown|split; [exact Hz|split; [exact Hn|exact Hi]]]].
  unfold seconds in Hdown. destruct d as [n|n|n|n]; simpl in *; repeat (case_match; simpl in *); lia.
Qed.

(** One day more than fit in 64 bits of seconds. *)
Lemma conversion_spec_witness :
  ToSeconds (Days 213503982334602) = Seconds 61184 /\
  ~ seconds (ToSeconds (Days 213503982334602)) = seconds (Days 213503982334602).
Proof.
  split; [vm_compute; reflexivity|].
  destruct (conversion_spec (Days 213503982334602) (ToSeconds (Days 213503982334602))) as (_ & _ & Hiff);
    [split; [discriminate|reflexivity]|constructor|].
  intros Heq. apply (proj1 (Hiff eq_refl)) in Heq. discriminate Heq.
Defined.

Lemma ToMostReadableUnit_spec_witness :
  ToMostReadableUnit (Seconds 90061) = Days 1 /\ seconds (ToMostReadableUnit (Seconds 90061)) <= 90061.
Proof.
  split; [reflexivity|].
  destruct (ToMostReadableUnit_spec (Seconds 90061)) as (_ & _ & [Hle _] & _); [split; [discriminate|reflexivity]|].
  exact Hle.
Defined.

End duration.
