(* ===== verification/Trial.v ===== *)
(** The length and the remaining days of a trial (billing-api/trial/trial.go), with the
    binary64 arithmetic the code computes them in. *)
From Stdlib Require Import ZArith Lia Floats.SpecFloat.
From stdpp Require Import base tactics.
From S2P Require Import Prelude GoStd Calendar.

(** * float64 *)

Module float64.

Definition prec : Z := 53.
Definition emax : Z := 1024.

(** [float64(z)], [x + y], [x / y] *)
Definition of_int (z : Z) : spec_float := binary_normalize prec emax z 0 false.
Definition add : spec_float -> spec_float -> spec_float := SFadd prec emax.
Definition div : spec_float -> spec_float -> spec_float := SFdiv prec emax.

(** [math.Ceil] *)
Definition Ceil (x : spec_float) : spec_float :=
  match x with
  | S754_finite s m e =>
      if 0 <=? e then x
      else binary_normalize prec emax (- ((- cond_Zopp s (Zpos m)) / 2 ^ (- e))) 0 s
  | _ => x
  end.

Definition is_zero (x : spec_float) : bool := match x with S754_zero _ => true | _ => false end.
Definition is_nan (x : spec_float) : bool := match x with S754_nan => true | _ => false end.
Definition is_pinf (x : spec_float) : bool := match x with S754_infinity false => true | _ => false end.
Definition signbit (x : spec_float) : bool :=
  match x with S754_zero s | S754_infinity s | S754_finite s _ _ => s | S754_nan => false end.

(** [math.Max] *)
Definition Max (x y : spec_float) : spec_float :=
  if is_pinf x || is_pinf y then S754_infinity false
  else if is_nan x || is_nan y then S754_nan
  else if is_zero x && is_zero y then (if signbit x then y else x)
  else if SFltb y x then x else y.

(** [int(x)]: truncated towards zero; out of range it is the least integer, as on amd64. *)
Definition to_int (x : spec_float) : Z :=
  match x with
  | S754_zero _ => 0
  | S754_finite s m e =>
      let z := cond_Zopp s (if 0 <=? e then Zpos m * 2 ^ e else Zpos m / 2 ^ (- e)) in
      if (- 2 ^ 63 <=? z) && (z <? 2 ^ 63) then z else - 2 ^ 63
  | _ => - 2 ^ 63
  end.

(** ** Orders of magnitude *)

Abbreviation digits m := (Zpos (digits2_pos m)).

Lemma digits_log2 p : digits p = Z.log2 (Zpos p) + 1.
Proof.
  replace (digits2_pos p) with (Pos.size p) by (induction p; simpl; congruence).
  destruct p; simpl; lia.
Qed.

Lemma digits_bounds p : 2 ^ (digits p - 1) <= Zpos p < 2 ^ digits p.
Proof.
  pose proof (Z.log2_spec (Zpos p) ltac:(lia)) as H. rewrite digits_log2. rewrite Z.add_simpl_r. by rewrite Z.add_1_r.
Qed.

Lemma digits_unique p n : 0 < n -> 2 ^ (n - 1) <= Zpos p < 2 ^ n -> digits p = n.
Proof.
  intros Hn Hp. rewrite digits_log2, (Z.log2_unique (Zpos p) (n - 1)); [lia|lia|].
  by replace (Z.succ (n - 1)) with n by lia.
Qed.

(** A bound below or above is a bound of the number of digits. *)
Lemma digits_ge p n : 2 ^ n <= Zpos p -> n < digits p.
Proof.
  intros H. pose proof (digits_bounds p) as [_ Hu]. apply Z.nle_gt. intros Hle.
  pose proof (Z.pow_le_mono_r 2 (digits p) n ltac:(lia) Hle). lia.
Qed.
Lemma digits_le p n : 0 <= n -> Zpos p < 2 ^ n -> digits p <= n.
Proof.
  intros Hn H. pose proof (digits_bounds p) as [Hl _]. apply Z.nlt_ge. intros Hlt.
  pose proof (Z.pow_le_mono_r 2 n (digits p - 1) ltac:(lia) ltac:(lia)). lia.
Qed.

(** A positive number with [lo <= log2 x + 1 <= hi], roughly. *)
Definition between (lo hi : Z) (x : spec_float) : Prop :=
  exists m e, x = S754_finite false m e /\ lo <= digits m + e <= hi.

Lemma between_weaken lo hi lo' hi' x : lo' <= lo -> hi <= hi' -> between lo hi x -> between lo' hi' x.
Proof. intros Hl Hh (m & e & -> & H). exists m, e. split; [done|lia]. Qed.

(** Shifting right keeps the order of magnitude. *)
Definition digits_of (z : Z) : Z := Zdigits2 z.

Lemma digits_of_pos p : digits_of (Zpos p) = digits p.
Proof. done. Qed.

Lemma shr_1_digits mrs : 0 < shr_m mrs -> 1 < digits_of (shr_m mrs) ->
  0 < shr_m (shr_1 mrs) /\ digits_of (shr_m (shr_1 mrs)) = digits_of (shr_m mrs) - 1.
Proof. destruct mrs as [[|[p|p|]|] r s]; simpl; intros; try lia; split; simpl; lia. Qed.

Lemma iter_shr_digits n mrs : 0 < shr_m mrs -> Zpos n < digits_of (shr_m mrs) ->
  0 < shr_m (iter_pos shr_1 n mrs) /\ digits_of (shr_m (iter_pos shr_1 n mrs)) = digits_of (shr_m mrs) - Zpos n.
Proof.
  revert mrs. induction n as [n IH|n IH|]; intros mrs Hpos Hn; simpl.
  - destruct (shr_1_digits mrs) as [H1 H2]; [done|lia|].
    destruct (IH (shr_1 mrs)) as [H3 H4]; [done|lia|]. destruct (IH (iter_pos shr_1 n (shr_1 mrs))); [done|lia|]. lia.
  - destruct (IH mrs) as [H3 H4]; [done|lia|]. destruct (IH (iter_pos shr_1 n mrs)); [done|lia|]. lia.
  - apply shr_1_digits; [done|lia].
Qed.

Lemma shr_digits mrs e n : 0 < shr_m mrs -> n < digits_of (shr_m mrs) ->
  0 < shr_m (shr mrs e n).1 /\ digits_of (shr_m (shr mrs e n).1) + (shr mrs e n).2 = digits_of (shr_m mrs) + e /\
  (shr mrs e n).2 = e + Z.max 0 n.
Proof.
  intros Hpos Hn. destruct n as [|n|n]; simpl; [lia| |lia].
  destruct (iter_shr_digits n mrs Hpos Hn). lia.
Qed.

Lemma shr_record_of_loc_m m l : shr_m (shr_record_of_loc m l) = m.
Proof. by destruct l as [|[]]. Qed.

(** Rounding moves to the next power of two at most. *)
Lemma round_digits z l : 0 < z ->
  0 < round_nearest_even z l /\
  digits_of z <= digits_of (round_nearest_even z l) <= digits_of z + 1.
Proof.
  intros Hz. assert (H : forall z', z' = z \/ z' = z + 1 -> 0 < z' /\ digits_of z <= digits_of z' <= digits_of z + 1).
  { intros z' Hz'. split; [lia|]. destruct z as [|p|p], z' as [|p'|p']; try lia. unfold digits_of, Zdigits2.
    pose proof (digits_bounds p) as [Hl Hu]. split.
    - assert (digits p - 1 < digits p'); [|lia]. apply digits_ge. lia.
    - apply digits_le; [lia|]. rewrite Z.pow_add_r by lia. lia. }
  destruct l as [|[]]; simpl; try (apply H; by left); [case_match|]; apply H; (by left) || by right.
Qed.

Lemma binary_round_aux_between m e l :
  prec <= digits m -> -1021 <= digits m + e <= 1023 ->
  between (digits m + e) (digits m + e + 1) (binary_round_aux prec emax false (Zpos m) e l).
Proof.
  intros Hm HD. unfold binary_round_aux, shr_fexp. set (D := digits m + e) in *.
  set (n1 := fexp prec emax (Zdigits2 (Zpos m) + e) - e).
  assert (Hn1 : n1 = digits m - prec) by (unfold n1, fexp, emin; simpl Zdigits2; unfold prec, emax in *; lia).
  pose proof (shr_digits (shr_record_of_loc (Zpos m) l) e n1) as H1.
  rewrite shr_record_of_loc_m, digits_of_pos in H1.
  destruct H1 as (Hp1 & Hd1 & He1); [lia|unfold prec in *; lia|].
  destruct (shr _ e n1) as [mrs1 e1]. simpl in Hp1, Hd1, He1.
  destruct (round_digits (shr_m mrs1) (loc_of_shr_record mrs1) Hp1) as [Hp2 Hd2].
  set (z := round_nearest_even _ _) in *. set (n2 := fexp prec emax (Zdigits2 z + e1) - e1).
  assert (Hn2 : n2 = digits_of z - prec) by (unfold n2, fexp, emin, digits_of in *; unfold prec, emax in *; lia).
  pose proof (shr_digits (shr_record_of_loc z loc_Exact) e1 n2) as H2. rewrite shr_record_of_loc_m in H2.
  destruct H2 as (Hp3 & Hd3 & He3); [done|unfold prec in *; lia|].
  destruct (shr _ e1 n2) as [mrs3 e3]. simpl in Hp3, Hd3, He3.
  destruct (shr_m mrs3) as [|p|p]; try lia. rewrite digits_of_pos in Hd3.
  rewrite (proj2 (Z.leb_le e3 (emax - prec))) by (unfold prec, emax in *; lia).
  exists p, e3. split; [done|]. lia.
Qed.

(** ** Operations on positive numbers *)

Lemma shl_digits d m : digits (Pos.iter xO m d) = digits m + Zpos d.
Proof. induction d as [|d IH] using Pos.peano_ind; [simpl; lia|]. rewrite Pos.iter_succ. simpl. lia. Qed.

Lemma binary_round_between m e : -1021 <= digits m + e <= 1023 ->
  between (digits m + e) (digits m + e + 1) (binary_round prec emax false m e).
Proof.
  intros HD. unfold binary_round, shl_align.
  assert (Hf : fexp prec emax (digits m + e) = digits m + e - prec) by (unfold fexp, emin, prec, emax in *; lia).
  rewrite Hf. destruct (digits m + e - prec - e) as [|d|d] eqn:Hs.
  - apply binary_round_aux_between; lia.
  - apply binary_round_aux_between; lia.
  - pose proof (shl_digits d m) as Hd. eapply between_weaken; [| |apply binary_round_aux_between]; lia.
Qed.

Lemma normalize_between z e s hi : 0 < z -> -1021 <= digits_of z + e <= hi -> hi <= 1023 ->
  between (digits_of z + e) (hi + 1) (binary_normalize prec emax z e s).
Proof.
  intros Hz HD Hhi. destruct z as [|m|m]; try lia. unfold digits_of in *. simpl in *.
  eapply between_weaken; [| |apply binary_round_between]; lia.
Qed.

Lemma digits_of_bounds z n : 0 < z < 2 ^ n -> 0 <= n -> 1 <= digits_of z <= n.
Proof.
  intros [Hz Hn] H0. destruct z as [|p|p]; try lia. unfold digits_of. simpl. split; [lia|]. by apply digits_le.
Qed.

Lemma of_int_between z n : 0 < z < 2 ^ n -> 0 <= n <= 1023 -> between 1 (n + 1) (of_int z).
Proof.
  intros Hz Hn. pose proof (digits_of_bounds z n Hz ltac:(lia)) as Hd.
  eapply between_weaken; [| |apply (normalize_between z 0 false n)]; lia.
Qed.

Lemma shl_align_digits m e e' : e' <= e ->
  exists m', shl_align m e e' = (m', e') /\ digits m' + e' = digits m + e.
Proof.
  intros He. unfold shl_align. destruct (e' - e) as [|d|d] eqn:Hd; try lia.
  - exists m. replace e with e' by lia. done.
  - exists (Pos.iter xO m d). split; [done|]. rewrite shl_digits. lia.
Qed.

Lemma digits_add a b n : digits a <= n -> digits b <= n -> digits a <= digits (a + b) <= n + 1.
Proof.
  intros Ha Hb. pose proof (digits_bounds a) as [Hl1 Hu1]. pose proof (digits_bounds b) as [Hl2 Hu2].
  pose proof (Z.pow_le_mono_r 2 (digits a) n ltac:(lia) ltac:(lia)).
  pose proof (Z.pow_le_mono_r 2 (digits b) n ltac:(lia) ltac:(lia)). split.
  - assert (digits a - 1 < digits (a + b)); [|lia]. apply digits_ge. lia.
  - apply digits_le; [lia|]. rewrite Z.pow_add_r by lia. lia.
Qed.

Lemma add_between lx hx ly hy x y : between lx hx x -> between ly hy y ->
  -1021 <= lx -> hx <= 1000 -> hy <= 1000 -> between lx (Z.max hx hy + 2) (add x y).
Proof.
  intros (m & e & -> & Hx) (m' & e' & -> & Hy) Hlx Hhx Hhy. unfold add, SFadd. cbv zeta.
  destruct (shl_align_digits m e (Z.min e e') ltac:(lia)) as (a & -> & Ha).
  destruct (shl_align_digits m' e' (Z.min e e') ltac:(lia)) as (b & -> & Hb).
  set (z := Z.min e e') in *. cbn [cond_Zopp fst]. rewrite <- Pos2Z.inj_add.
  pose proof (digits_add a b (Z.max hx hy - z) ltac:(lia) ltac:(lia)) as Hs. rewrite <- digits_of_pos in Hs.
  eapply between_weaken; [| |apply (normalize_between (Zpos (a + b)) z false (Z.max hx hy + 1))];
    rewrite ?digits_of_pos in *; lia.
Qed.

(** ** Division *)

Lemma pow_between a p : 0 <= a -> 2 ^ (digits p - 1) * 2 ^ a <= Zpos p * 2 ^ a < 2 ^ digits p * 2 ^ a.
Proof. intros Ha. pose proof (digits_bounds p). pose proof (Z.pow_pos_nonneg 2 a ltac:(lia) Ha). nia. Qed.

(** The quotient of [p * 2^s] by [q]. *)
Lemma div_digits p q s : 0 <= s -> 0 < digits p + s - digits q ->
  exists r, Zpos p * 2 ^ s / Zpos q = Zpos r /\
    digits p + s - digits q <= digits r <= digits p + s - digits q + 1.
Proof.
  intros Hs Hd. set (n := digits p + s - digits q) in *.
  pose proof (pow_between s p Hs) as [Hl Hu]. pose proof (digits_bounds q) as [Hlq Huq].
  rewrite <- Z.pow_add_r in Hl, Hu by lia.
  assert (Hlow : 2 ^ (n - 1) <= Zpos p * 2 ^ s / Zpos q).
  { apply Z.div_le_lower_bound; [lia|].
    replace (digits p - 1 + s) with (digits q + (n - 1)) in Hl by lia. rewrite Z.pow_add_r in Hl by lia.
    pose proof (Z.pow_pos_nonneg 2 (n - 1) ltac:(lia) ltac:(lia)). nia. }
  assert (Hup : Zpos p * 2 ^ s / Zpos q < 2 ^ (n + 1)).
  { apply Z.div_lt_upper_bound; [lia|].
    replace (digits p + s) with (digits q - 1 + (n + 1)) in Hu by lia. rewrite Z.pow_add_r in Hu by lia.
    pose proof (Z.pow_pos_nonneg 2 (n + 1) ltac:(lia) ltac:(lia)). nia. }
  pose proof (Z.pow_pos_nonneg 2 (n - 1) ltac:(lia) ltac:(lia)).
  destruct (Zpos p * 2 ^ s / Zpos q) as [|r|r]; try lia. exists r. split; [done|]. split.
  - assert (n - 1 < digits r); [|lia]. by apply digits_ge.
  - apply digits_le; [lia|done].
Qed.

Lemma div_between lx hx ly hy x y : between lx hx x -> between ly hy y ->
  -900 <= lx - hy -> hx - ly <= 900 -> between (lx - hy) (hx - ly + 2) (div x y).
Proof.
  intros (m & e & -> & Hx) (m' & e' & -> & Hy) Hlo Hhi. unfold div, SFdiv, SFdiv_core_binary. simpl Zdigits2. cbv zeta.
  set (D := digits m + e - (digits m' + e')).
  assert (Hf : fexp prec emax D = D - prec) by (unfold fexp, emin, prec, emax in *; lia). rewrite Hf.
  set (e'' := Z.min (D - prec) (e - e')). set (s := e - e' - e'').
  assert (Hm : match s with Zpos _ => Z.shiftl (Zpos m) s | Z0 => Zpos m | Zneg _ => Z0 end = Zpos m * 2 ^ s).
  { assert (0 <= s) by lia. destruct s; try lia. by rewrite Z.shiftl_mul_pow2. }
  rewrite Hm. destruct (div_digits m m' s) as (r & Hr & Hd); [lia|unfold prec in *; lia|].
  destruct (Z.div_eucl (Zpos m * 2 ^ s) (Zpos m')) as [q rem] eqn:Hq.
  assert (q = Zpos r) as -> by (rewrite <- Hr; unfold Z.div; by rewrite Hq). cbn [xorb].
  eapply between_weaken; [| |apply (binary_round_aux_between r e'')]; unfold prec in *; lia.
Qed.

(** ** Rounding up and conversion to an integer *)

Lemma ceil_positive m e hi : e < 0 -> digits m + e <= hi -> 0 <= hi ->
  0 < - ((- Zpos m) / 2 ^ (- e)) <= 2 ^ hi.
Proof.
  intros He Hd Hhi. pose proof (Z.pow_pos_nonneg 2 (- e) ltac:(lia) ltac:(lia)) as Hp.
  pose proof (digits_bounds m) as [_ Hu]. split.
  - assert ((- Zpos m) / 2 ^ (- e) < 0); [|lia]. apply Z.div_lt_upper_bound; lia.
  - assert (- 2 ^ hi <= (- Zpos m) / 2 ^ (- e)); [|lia]. apply Z.div_le_lower_bound; [done|].
    pose proof (Z.pow_le_mono_r 2 (digits m) (- e + hi) ltac:(lia) ltac:(lia)) as Hle.
    rewrite Z.pow_add_r in Hle by lia. lia.
Qed.

Lemma Ceil_between lo hi x : between lo hi x -> 0 <= hi <= 1000 -> between 1 (hi + 2) (Ceil x).
Proof.
  intros (m & e & -> & Hm) Hhi. simpl. destruct (Z.leb_spec 0 e) as [He|He].
  - exists m, e. split; [done|]. lia.
  - destruct (ceil_positive m e hi He ltac:(lia) ltac:(lia)) as [Hpos Hle].
    eapply between_weaken; [| |apply (normalize_between _ 0 false (hi + 1))]; try lia.
    + pose proof (digits_of_bounds (- (- Zpos m / 2 ^ (- e))) (hi + 1)) as H.
      rewrite Z.pow_add_r in H by lia. lia.
    + pose proof (digits_of_bounds (- (- Zpos m / 2 ^ (- e))) (hi + 1)) as H.
      rewrite Z.pow_add_r in H by lia. lia.
Qed.

Lemma to_int_between hi x : between 1 hi x -> hi <= 62 -> 1 <= to_int x < 2 ^ hi.
Proof.
  intros (m & e & -> & Hm) Hhi. pose proof (digits_bounds m) as [Hl Hu].
  assert (Hz : 1 <= (if 0 <=? e then Zpos m * 2 ^ e else Zpos m / 2 ^ (- e)) < 2 ^ hi).
  { destruct (Z.leb_spec 0 e) as [He|He].
    - pose proof (Z.pow_pos_nonneg 2 e ltac:(lia) He).
      pose proof (Z.pow_le_mono_r 2 (digits m + e) hi ltac:(lia) ltac:(lia)) as Hle.
      rewrite Z.pow_add_r in Hle by lia. nia.
    - pose proof (Z.pow_pos_nonneg 2 (- e) ltac:(lia) ltac:(lia)).
      pose proof (Z.pow_le_mono_r 2 (- e) (digits m - 1) ltac:(lia) ltac:(lia)).
      pose proof (Z.pow_le_mono_r 2 (digits m) (- e + hi) ltac:(lia) ltac:(lia)) as Hle.
      rewrite Z.pow_add_r in Hle by lia. split; [apply Z.div_le_lower_bound; lia|].
      apply Z.div_lt_upper_bound; lia. }
  pose proof (Z.pow_le_mono_r 2 hi 63 ltac:(lia) ltac:(lia)). simpl. set (z := if 0 <=? e then _ else _) in *.
  rewrite (proj2 (Z.leb_le _ _)), (proj2 (Z.ltb_lt _ _)) by lia. exact Hz.
Qed.

Lemma Max_between lo hi x : between lo hi x -> Max x (S754_zero false) = x.
Proof. by intros (m & e & -> & _). Qed.

(** ** Numbers that are not positive *)

Definition nonpos (x : spec_float) : bool :=
  match x with S754_zero _ => true | S754_infinity s | S754_finite s _ _ => s | S754_nan => false end.

Lemma shr_nonneg mrs e n : 0 <= shr_m mrs -> 0 <= shr_m (shr mrs e n).1.
Proof.
  intros Hm. assert (H1 : forall mrs, 0 <= shr_m mrs -> 0 <= shr_m (shr_1 mrs)).
  { intros [[|[p|p|]|] r s]; simpl; lia. }
  destruct n as [|n|n]; simpl; try done. revert mrs Hm. induction n; simpl; auto.
Qed.

Lemma round_nonneg z l : 0 <= z -> 0 <= round_nearest_even z l.
Proof. intros Hz. destruct l as [|[]]; simpl; repeat case_match; lia. Qed.

Lemma binary_round_aux_nonpos z e l : 0 <= z -> nonpos (binary_round_aux prec emax true z e l) = true.
Proof.
  intros Hz. unfold binary_round_aux, shr_fexp. destruct (shr (shr_record_of_loc z l) e _) as [mrs e1] eqn:H1.
  assert (0 <= shr_m mrs) as Hm by (change mrs with (mrs, e1).1; rewrite <- H1; apply shr_nonneg; by rewrite shr_record_of_loc_m).
  destruct (shr (shr_record_of_loc (round_nearest_even _ _) loc_Exact) e1 _) as [mrs2 e2] eqn:H2.
  assert (0 <= shr_m mrs2).
  { change mrs2 with (mrs2, e2).1. rewrite <- H2. apply shr_nonneg. rewrite shr_record_of_loc_m. by apply round_nonneg. }
  destruct (shr_m mrs2); [done| |lia]. by destruct (_ <=? _).
Qed.

Lemma normalize_nonpos z e s : z <= 0 -> nonpos (binary_normalize prec emax z e s) = true.
Proof.
  intros Hz. destruct z as [|p|p]; [done|lia|]. simpl. unfold binary_round. destruct (shl_align _ _ _).
  by apply binary_round_aux_nonpos.
Qed.

Lemma of_int_nonpos z : z <= 0 -> nonpos (of_int z) = true.
Proof. apply normalize_nonpos. Qed.

Lemma div_nonpos lo hi x y : nonpos x = true -> between lo hi y -> nonpos (div x y) = true.
Proof.
  intros Hx (m & e & -> & _). destruct x as [s|s| |s mx ex]; simpl in *; subst; try done. unfold div, SFdiv.
  unfold SFdiv_core_binary. cbv zeta. set (m' := match _ with Z0 => _ | Zpos _ => _ | Zneg _ => _ end).
  assert (Hm' : 0 <= m') by (subst m'; repeat case_match; try lia; apply Z.shiftl_nonneg; lia).
  destruct (Z.div_eucl m' (Zpos m)) as [q r] eqn:Hq. apply binary_round_aux_nonpos.
  assert (q = m' / Zpos m) as -> by (unfold Z.div; by rewrite Hq). apply Z.div_pos; lia.
Qed.

Lemma add_nonpos x y : nonpos x = true -> nonpos y = true -> nonpos (add x y) = true.
Proof.
  intros Hx Hy. destruct x as [[]|[]| |[] mx ex], y as [[]|[]| |[] my ey]; try done.
  unfold add, SFadd. cbv zeta. apply normalize_nonpos. simpl. lia.
Qed.

Lemma Ceil_nonpos x : nonpos x = true -> nonpos (Ceil x) = true.
Proof.
  intros Hx. destruct x as [| | |s m e]; simpl in *; try done. subst. destruct (Z.leb_spec 0 e); [done|].
  apply normalize_nonpos. simpl. pose proof (Z.pow_pos_nonneg 2 (- e) ltac:(lia) ltac:(lia)).
  pose proof (Z.div_pos (Zpos m) (2 ^ (- e)) ltac:(lia) ltac:(lia)). rewrite Z.opp_involutive. lia.
Qed.

Lemma Max_nonpos x : nonpos x = true -> to_int (Max x (S754_zero false)) = 0.
Proof. by destruct x as [[]|[]| |[] m e]. Qed.

End float64.

(** * billing-api/trial/trial.go *)
Module trial.
Import float64.

(** [d.Hours()]: the remainder keeps the sign of the duration. *)
Definition Hours (d : time.Duration) : spec_float :=
  let hour := Z.quot d time.Hour in
  let nsec := Z.rem d time.Hour in
  add (of_int hour) (div (of_int nsec) (of_int (60 * 60 * 1000000000))).

(** [days] *)
Definition days (duration : time.Duration) : Z :=
  to_int (Max (Ceil (div (Hours duration) (of_int 24))) (S754_zero false)).

(** [Remaining], [Length], [Trial], [Info] *)
Definition Remaining (expires now : time.Time) : Z := days (time.Sub expires now).
Definition Length (expires created : time.Time) : Z := days (time.Sub expires created).

Record Trial : Type := mkTrial { t_Length : Z; t_Remaining : Z; t_Start : time.Time; t_End : time.Time }.

Definition Info (expires created now : time.Time) : Trial :=
  {| t_Length := Length expires created; t_Remaining := Remaining expires now;
     t_Start := common_time.MinTime created expires; t_End := expires |}.

Lemma days_positive d : 0 < d <= time.maxDuration -> 1 <= days d < 2 ^ 28.
Proof.
  intros Hd. unfold time.maxDuration in Hd. assert (Hq : Z.quot d time.Hour = d / time.Hour) by (apply Z.quot_div_nonneg; [lia|done]).
  assert (Hr : Z.rem d time.Hour = d mod time.Hour) by (apply Z.rem_mod_nonneg; [lia|done]).
  pose proof (Z.div_mod d time.Hour ltac:(done)) as Hdm. pose proof (Z.mod_pos_bound d time.Hour ltac:(done)) as Hmb.
  pose proof (Z.div_pos d time.Hour ltac:(lia) ltac:(done)) as Hdp.
  assert (Hql : d / time.Hour < 2 ^ 22) by (apply Z.div_lt_upper_bound; [done|unfold time.Hour, time.Minute, time.Second; lia]).
  assert (Hrl : d mod time.Hour < 2 ^ 42) by (unfold time.Hour, time.Minute, time.Second in *; lia).
  assert (Hpos : d / time.Hour = 0 \/ 0 < d / time.Hour) by lia.
  assert (Hhour : between 42 42 (of_int (60 * 60 * 1000000000))) by (do 2 eexists; vm_compute; repeat split; discriminate).
  assert (H24 : between 5 5 (of_int 24)) by (do 2 eexists; vm_compute; repeat split; discriminate).
  assert (Hh : between (-41) 25 (Hours d)).
  { unfold Hours. rewrite Hq, Hr. destruct (Z.eq_dec (d mod time.Hour) 0) as [Hz|Hz].
    - rewrite Hz. change (div (of_int 0) _) with (S754_zero false).
      destruct (of_int_between (d / time.Hour) 22) as (m & e & -> & Hme); [lia|lia|].
      exists m, e. split; [done|lia].
    - assert (Hns : between (-41) 3 (div (of_int (d mod time.Hour)) (of_int (60 * 60 * 1000000000)))).
      { eapply between_weaken; [| |apply (div_between 1 43 42 42)]; try lia; [|done]. apply (of_int_between _ 42); lia. }
      destruct (Z.eq_dec (d / time.Hour) 0) as [Hqz|Hqz].
      + rewrite Hqz. destruct Hns as (m & e & Hme & Hd'). rewrite Hme. exists m, e. split; [done|lia].
      + eapply between_weaken; [| |apply (add_between 1 23 (-41) 3)]; try lia; [|done]. apply (of_int_between _ 22); lia. }
  unfold days. assert (Hc : between 1 26 (Ceil (div (Hours d) (of_int 24)))).
  { eapply between_weaken; [| |apply (Ceil_between (-46) 24)]; try lia.
    eapply between_weaken; [| |apply (div_between (-41) 25 5 5)]; try lia; done. }
  rewrite (Max_between _ _ _ Hc). destruct (to_int_between 26 _ Hc); lia.
Qed.

Lemma days_nonpositive d : d <= 0 -> days d = 0.
Proof.
  intros Hd. unfold days. apply Max_nonpos, Ceil_nonpos, (div_nonpos 5 5); [|do 2 eexists; vm_compute; repeat split; discriminate].
  unfold Hours. apply add_nonpos.
  - apply of_int_nonpos. pose proof (Z.quot_opp_l d time.Hour ltac:(done)).
    pose proof (Z.quot_pos (- d) time.Hour ltac:(lia) ltac:(done)). lia.
  - apply (div_nonpos 42 42); [|do 2 eexists; vm_compute; repeat split; discriminate].
    apply of_int_nonpos. pose proof (Z.rem_opp_l d time.Hour ltac:(done)).
    pose proof (Z.rem_nonneg (- d) time.Hour ltac:(done) ltac:(lia)). lia.
Qed.

Lemma days_zero d : d <= time.maxDuration -> days d = 0 <-> d <= 0.
Proof.
  intros Hd. split; [|apply days_nonpositive]. intros H0. destruct (Z_le_gt_dec d 0); [done|].
  pose proof (days_positive d ltac:(lia)). lia.
Qed.

Lemma whole_days : civil.all_from (fun k => days (k * civil.Day) =? k) 367 0 = true.
Proof. vm_compute. reflexivity. Qed.

(** The floating-point computation of days never shows the wrong side of the end of a
    trial: no days remain exactly from the instant the trial expires on, the length is zero
    exactly when the trial expired before the instance was created, and otherwise it is a
    positive number; a duration of up to a year of whole days is that number of days. The
    start shown is never after the end. *)
Theorem Info_spec expires created now :
  let i := Info expires created now in
  (t_Remaining i = 0 <-> expires <= now) /\ 0 <= t_Remaining i < 2 ^ 28 /\
  (t_Length i = 0 <-> expires <= created) /\ 0 <= t_Length i < 2 ^ 28 /\
  (forall k, 0 <= k <= 366 -> expires = created + k * civil.Day -> t_Length i = k) /\
  (forall k, 0 <= k <= 366 -> expires = now + k * civil.Day -> t_Remaining i = k) /\
  t_Start i = Z.min created expires /\ t_Start i <= t_End i.
Proof.
  assert (Hsub : forall t u, time.Sub t u <= time.maxDuration) by (intros; unfold time.Sub, time.minDuration, time.maxDuration; lia).
  assert (Hsgn : forall t u, time.Sub t u <= 0 <-> t <= u) by (intros; unfold time.Sub, time.minDuration, time.maxDuration; lia).
  assert (Hzero : forall t u, days (time.Sub t u) = 0 <-> t <= u) by (intros; by rewrite days_zero, Hsgn).
  assert (Hrange : forall t u, 0 <= days (time.Sub t u) < 2 ^ 28).
  { intros t u. destruct (Z_le_gt_dec (time.Sub t u) 0) as [H|H]; [by rewrite days_nonpositive|].
    apply Z.gt_lt in H. destruct (days_positive (time.Sub t u) (conj H (Hsub t u))). split; [lia|done]. }
  assert (Hwhole : forall t u k, 0 <= k <= 366 -> t = u + k * civil.Day -> days (time.Sub t u) = k).
  { intros t u k Hk ->. pose proof (civil.all_from_spec _ _ _ k whole_days ltac:(lia)) as H%Z.eqb_eq.
    rewrite <- H at 2. f_equal. unfold time.Sub, time.minDuration, time.maxDuration, civil.Day, time.Hour, time.Minute, time.Second. lia. }
  simpl. unfold Remaining, Length, common_time.MinTime, time.Before.
  split; [apply Hzero|]. split; [apply Hrange|]. split; [apply Hzero|]. split; [apply Hrange|].
  split; [apply Hwhole|]. split; [apply Hwhole|]. destruct (Z.ltb_spec created expires); lia.
Qed.

End trial.
