(* ===== verification/Enforcer.v ===== *)
(** The billing enforcer (billing-enforcer/job/enforce.go): the job that warns the owners of
    trials, and refuses data access and upload to organizations that are delinquent. *)
From Stdlib Require Import ZArith Lia Ascii String.
From stdpp Require Import base tactics option strings list.
From S2P Require Import Prelude GoStd Users Filter UsersDB Sessions UsersServer UsersClient Calendar Trial.

Section enforce.
Context {S Report : Type} `{DBImpl S}.
Variable emailer : Mail Report -> option error.
(** [Config.NotifyPendingExpiryPeriod] *)
Variable NotifyPendingExpiryPeriod : time.Duration.

Abbreviation Job := (M (Server S Report) error).

(** A call of the users service; its error is logged and dropped. *)
Definition attempt {A} (handler : Job A) : Job bool :=
  do r <- try (GRPCErrorInterceptor handler);
  match r with inl _ => ret false | inr _ => ret true end.

(** [errors.Wrap(err, message)] around a call. *)
Definition wrapped {A} (message : string) (handler : Job A) : Job A :=
  do r <- try (GRPCErrorInterceptor handler);
  match r with inl err => throw (Wrap err message) | inr a => ret a end.

(** [NotifyTrialOrganizations] *)
Definition notify_trial_organization (now : time.Time) (org : Organization) : Job unit :=
  if negb (IsOnboarded org) then ret tt
  else if bool_decide (is_Some (o_TrialPendingExpiryNotifiedAt org)) then ret tt
  else
    let expiresIn := time.Sub (o_TrialExpiresAt org) now in
    if NotifyPendingExpiryPeriod <? expiresIn then ret tt
    else if expiresIn <=? 0 then ret tt
    else if negb (bool_decide (o_ZuoraAccountNumber org = EmptyString)) then ret tt
    else attempt (NotifyTrialPendingExpiry emailer (o_ExternalID org)) ;;; ret tt.

Definition NotifyTrialOrganizations (now : time.Time) : Job unit :=
  do resp <- wrapped "failed getting trial organizations" (GetTrialOrganizations now);
  for_each resp (notify_trial_organization now).

(** [refuseDataAccess], [refuseDataUpload]; a failed type assertion in the filter panics. *)
Definition refuseDataAccess (org : Organization) (now : time.Time) : Job unit :=
  if o_RefuseDataAccess org then ret tt
  else
    do should <- deref (orgs.ShouldRefuseDataAccess org now);
    if negb should then ret tt
    else attempt (SetOrganizationFlag (o_ExternalID org) orgs.RefuseDataAccess true) ;;; ret tt.

Definition refuseDataUpload (org : Organization) (now : time.Time) : Job bool :=
  if o_RefuseDataUpload org then ret false
  else
    do should <- deref (orgs.ShouldRefuseDataUpload org now);
    if negb should then ret false
    else attempt (SetOrganizationFlag (o_ExternalID org) orgs.RefuseDataUpload true) ;;; ret true.

(** [ProcessDelinquentOrganizations] *)
Definition process_delinquent_organization (now : time.Time) (org : Organization) : Job unit :=
  if negb (IsOnboarded org) then ret tt
  else
    refuseDataAccess org now ;;;
    do refused <- refuseDataUpload org now;
    (if refused && (0 <? trial.Length (o_TrialExpiresAt org) (o_CreatedAt org))
     then attempt (NotifyRefuseDataUpload emailer (o_ExternalID org)) ;;; ret tt
     else ret tt) ;;;
    if bool_decide (is_Some (o_TrialExpiredNotifiedAt org)) then ret tt
    else attempt (NotifyTrialExpired emailer (o_ExternalID org)) ;;; ret tt.

Definition ProcessDelinquentOrganizations (now : time.Time) : Job unit :=
  do resp <- wrapped "failed getting delinquent organizations" (GetDelinquentOrganizations now);
  for_each resp (process_delinquent_organization now).

(** [Do]: both run, whatever the first returns; their errors are joined. *)
Definition failure (r : error + unit) : list string := match r with inl err => [Error err] | inr _ => [] end.

Definition Do (now : time.Time) : Job unit :=
  do r1 <- try (NotifyTrialOrganizations now);
  do r2 <- try (ProcessDelinquentOrganizations now);
  match failure r1 ++ failure r2 with
  | [] => ret tt
  | errs => throw (ErrMsg (String.concat " / " errs))
  end.

End enforce.
