(* ===== verification/BillingSpec.v ===== *)
(** What billing relies on in the users database, and what the billing enforcer promises: the
    flags it sets, the mail it sends, and that a second run has nothing left to do. *)
From Stdlib Require Import ZArith Lia Ascii String Sorting.Sorted.
From stdpp Require Import base tactics option gmap strings list pretty relations.
From S2P Require Import Prelude GoStd Users Filter MemDB MemTeam MemOrg MemUser UsersDB MemInv MemSafety Sample MemDelete MemOrgSpec MemUserSpec Sessions UsersServer ServerSpec UsersClient Calendar Trial Enforcer.

(** * What billing relies on *)

(** An organization as it looks once its account [a] has become [g]. *)
Definition refresh (a : string) (g : GoogleCloudPlatform) (o : Organization) : Organization :=
  match o_GCP o with
  | Some g0 => if decide (g_ExternalAccountID g0 = a) then set_GCP (Some g) o else o
  | None => o
  end.

Definition notify (pending expired : option time.Time) (o : Organization) : Organization :=
  let o := match expired with Some t => set_TrialExpiredNotifiedAt (ZeroTimeIsNil t) o | None => o end in
  match pending with Some t => set_TrialPendingExpiryNotifiedAt (ZeroTimeIsNil t) o | None => o end.

Definition attached (a : string) (o : Organization) : Prop :=
  exists g, o_GCP o = Some g /\ g_ExternalAccountID g = a.

(** The live organizations of [s'] are those of [s], except that [o] has become [o2]. *)
Definition replaced {S} `{LawfulDB S} (s s' : S) (o o2 : Organization) : Prop :=
  forall o', live s' o' <-> o' = o2 \/ (live s o' /\ o' <> o).

(** [account s a] is the GCP account with external id [a]. *)
Class BillingDB (S : Type) `{LawfulDB S} := {
  account : S -> string -> option GoogleCloudPlatform;
  law_account_live : forall s o g, ok s -> live s o -> o_GCP o = Some g ->
    account s (g_ExternalAccountID g) = Some g;
  law_FindGCP : forall s a, ok s ->
    call (CallFindGCP a) s = (match account s a with Some g => Ret g | None => Err ErrNotFound end, s);
  law_UpdateGCP : forall s a g c n l st, ok s -> account s a = Some g ->
    let g' := mkGCP (g_ID g) a true (g_CreatedAt g) c n l st in
    exists s', call (CallUpdateGCP a c n l st) s = (Ret tt, s') /\ ok s' /\
      (forall a', account s' a' = if decide (a' = a) then Some g' else account s a') /\
      (forall o', live s' o' <-> exists o, live s o /\ o' = refresh a g' o);
  law_FindByGCP : forall s a, ok s ->
    (exists o, call (CallFindOrganizationByGCPExternalAccountID a) s = (Ret o, s) /\ live s o /\ attached a o) \/
    (call (CallFindOrganizationByGCPExternalAccountID a) s = (Err ErrNotFound, s) /\ forall o, live s o -> ~ attached a o);
  law_SetAccess : forall s o v, ok s -> live s o ->
    exists s', call (CallSetOrganizationRefuseDataAccess (o_ExternalID o) v) s = (Ret tt, s') /\ ok s' /\
      replaced s s' o (set_RefuseDataAccess v o) /\ forall a, account s' a = account s a;
  law_SetUpload : forall s o v, ok s -> live s o ->
    exists s', call (CallSetOrganizationRefuseDataUpload (o_ExternalID o) v) s = (Ret tt, s') /\ ok s' /\
      replaced s s' o (set_RefuseDataUpload v o) /\ forall a, account s' a = account s a;
  law_Notified : forall s o p x, ok s -> live s o ->
    exists r s', call (CallUpdateOrganization (o_ExternalID o) (mkOrgWriteView None None None None None None p x)) s = (r, s') /\
      definite r /\ ok s' /\ (s' = s \/ replaced s s' o (notify p x o));
  law_exact : forall s t, ok s -> stored s t = t;
  law_ListOrganizationUsers_ends : forall s e b b', ok s -> definite (call (CallListOrganizationUsers e b b') s).1;
}.

(** * What the enforcer does to an organization *)

(** Only the two flags and the times of the two notices change, and the flags are only set. *)
Record evolves (o o' : Organization) : Prop := {
  evolves_frame : o' = set_RefuseDataAccess (o_RefuseDataAccess o') (set_RefuseDataUpload (o_RefuseDataUpload o')
    (set_TrialPendingExpiryNotifiedAt (o_TrialPendingExpiryNotifiedAt o')
      (set_TrialExpiredNotifiedAt (o_TrialExpiredNotifiedAt o') o)));
  evolves_access : o_RefuseDataAccess o = true -> o_RefuseDataAccess o' = true;
  evolves_upload : o_RefuseDataUpload o = true -> o_RefuseDataUpload o' = true;
}.

Lemma evolves_refl o : evolves o o.
Proof. split; [by destruct o|done|done]. Qed.

Lemma evolves_trans o1 o2 o3 : evolves o1 o2 -> evolves o2 o3 -> evolves o1 o3.
Proof.
  intros [H1 Ha1 Hu1] [H2 Ha2 Hu2]. split; [|auto|auto].
  rewrite H2 at 1. rewrite H1. by destruct o1, o3.
Qed.
#[global] Instance evolves_preorder : PreOrder evolves.
Proof. split; [exact evolves_refl|exact evolves_trans]. Qed.

Lemma evolves_fields o o' : evolves o o' ->
  o_ExternalID o' = o_ExternalID o /\ o_Name o' = o_Name o /\ o_ProbeToken o' = o_ProbeToken o /\
  o_FirstSeenConnectedAt o' = o_FirstSeenConnectedAt o /\ o_TrialExpiresAt o' = o_TrialExpiresAt o /\
  o_CreatedAt o' = o_CreatedAt o /\ o_ZuoraAccountNumber o' = o_ZuoraAccountNumber o /\
  o_GCP o' = o_GCP o /\ o_FeatureFlags o' = o_FeatureFlags o.
Proof. intros [-> _ _]. done. Qed.

Lemma evolves_flags a u p x o :
  (o_RefuseDataAccess o = true -> a = true) -> (o_RefuseDataUpload o = true -> u = true) ->
  evolves o (set_RefuseDataAccess a (set_RefuseDataUpload u
    (set_TrialPendingExpiryNotifiedAt p (set_TrialExpiredNotifiedAt x o)))).
Proof. intros Ha Hu. split; [by destruct o|exact Ha|exact Hu]. Qed.

Lemma evolves_set_access o : evolves o (set_RefuseDataAccess true o).
Proof.
  pose proof (evolves_flags true (o_RefuseDataUpload o) (o_TrialPendingExpiryNotifiedAt o) (o_TrialExpiredNotifiedAt o) o
    (fun _ => eq_refl) (fun H => H)) as H. by destruct o.
Qed.
Lemma evolves_set_upload o : evolves o (set_RefuseDataUpload true o).
Proof.
  pose proof (evolves_flags (o_RefuseDataAccess o) true (o_TrialPendingExpiryNotifiedAt o) (o_TrialExpiredNotifiedAt o) o
    (fun H => H) (fun _ => eq_refl)) as H. by destruct o.
Qed.
Lemma evolves_notify p x o : evolves o (notify p x o).
Proof. destruct p, x; (split; [by destruct o|done|done]). Qed.

(** * What the enforcer does to the service *)

Section enforcer.
Context {S Report : Type} {Hdb : DBImpl S} {Hlaw : LawfulDB S} {Hbill : BillingDB S}.
Implicit Types (s : Server S Report) (d : S).

(** From [d] to [d'] the live organizations evolve, and only those with an external id in [E]. *)
Record grows (E : string -> Prop) (d d' : S) : Prop := {
  grows_ok : ok d';
  grows_fwd : forall o, live d o -> exists o', live d' o' /\ evolves o o' /\ (~ E (o_ExternalID o) -> o' = o);
  grows_bwd : forall o', live d' o' -> exists o, live d o /\ evolves o o';
}.

Lemma grows_refl E d : ok d -> grows E d d.
Proof. intros Hd. split; [done| |]; intros o Ho; by exists o. Qed.

Lemma grows_trans E d1 d2 d3 : grows E d1 d2 -> grows E d2 d3 -> grows E d1 d3.
Proof.
  intros [H1 Hf1 Hb1] [H2 Hf2 Hb2]. split; [done| |].
  - intros o (o2 & Ho2 & He2 & Hs2)%Hf1. destruct (Hf2 o2 Ho2) as (o3 & Ho3 & He3 & Hs3). exists o3.
    split; [done|]. split; [by trans o2|]. intros Hn. pose proof (evolves_fields _ _ He2) as [Hext _].
    rewrite <- (Hs2 Hn). apply Hs3. by rewrite Hext.
  - intros o3 (o2 & Ho2 & He2)%Hb2. destruct (Hb1 o2 Ho2) as (o & Ho & He). exists o. split; [done|]. by trans o2.
Qed.

Lemma same_live_dec d o x : ok d -> live d o -> live d x -> x = o \/ o_ExternalID x <> o_ExternalID o.
Proof.
  intros Hd Ho Hx. destruct (decide (o_ExternalID x = o_ExternalID o)) as [He|]; [left|by right].
  apply (live_unique d); [done..|]. rewrite He. apply same_id_refl.
Qed.

Lemma grows_replaced E d d' o o2 : ok d -> ok d' -> live d o -> replaced d d' o o2 -> evolves o o2 ->
  E (o_ExternalID o) -> grows E d d' /\ live d' o2.
Proof.
  intros Hd Hd' Ho Hrep Hev HE. split; [|apply Hrep; by left]. split; [done| |].
  - intros x Hx. destruct (same_live_dec d o x Hd Ho Hx) as [->|Hne].
    + exists o2. split; [apply Hrep; by left|]. split; [done|]. intros Hn. by destruct Hn.
    + exists x. split; [apply Hrep; right; split; [done|by intros ->]|]. split; [apply evolves_refl|done].
  - intros x [->|[Hx _]]%Hrep; [by exists o|]. exists x. split; [done|apply evolves_refl].
Qed.

(** The same of the whole server, with the mail of a kind [A] that was handed over. *)
Record advances (E : string -> Prop) (A : Mail Report -> Prop) (s s' : Server S Report) : Prop := {
  advances_db : grows E (srv_db s) (srv_db s');
  advances_mail : exists new, outbox s' = outbox s ++ new /\ Forall A new;
}.

Lemma advances_refl E A s : ok (srv_db s) -> advances E A s s.
Proof. intros Hs. split; [by apply grows_refl|]. exists []. by rewrite app_nil_r. Qed.

Lemma advances_trans E A s1 s2 s3 : advances E A s1 s2 -> advances E A s2 s3 -> advances E A s1 s3.
Proof.
  intros [H1 (l1 & Hl1 & HA1)] [H2 (l2 & Hl2 & HA2)]. split; [by apply grows_trans with (srv_db s2)|].
  exists (l1 ++ l2). split; [by rewrite Hl2, Hl1, app_assoc|by apply Forall_app].
Qed.

Lemma advances_ok E A s s' : advances E A s s' -> ok (srv_db s').
Proof. intros [[] _]. done. Qed.

Lemma advances_weaken (E E' : string -> Prop) (A A' : Mail Report -> Prop) s s' :
  (forall e, E e -> E' e) -> (forall m, A m -> A' m) -> advances E A s s' -> advances E' A' s s'.
Proof.
  intros HE HA [[Hok Hf Hb] (l & Hl & HAl)]. split.
  - split; [done| |done]. intros o (o' & Ho' & Hev & Hs)%Hf. exists o'. split; [done|]. split; [done|]. auto.
  - exists l. split; [done|]. by eapply Forall_impl.
Qed.

(** ** Single calls *)

Lemma attempt_Ret {A} (m : M (Server S Report) error A) s a s' : m s = (Ret a, s') -> attempt m s = (Ret true, s').
Proof. intros Hm. unfold attempt, bind, try. by rewrite (Interceptor_Ret _ _ _ _ Hm). Qed.

Lemma attempt_definite {A} (m : M (Server S Report) error A) s r s' :
  m s = (r, s') -> definite r -> exists b, attempt m s = (Ret b, s').
Proof.
  intros Hm Hr. destruct r as [a|err| | |]; try done.
  - exists true. by apply (attempt_Ret m s a).
  - exists false. unfold attempt, bind, try. by rewrite (Interceptor_Err _ _ _ _ Hm).
Qed.

(** The organization a snapshot [o] has become in [s]. *)
Lemma current E A s0 s o : advances E A s0 s -> live (srv_db s0) o ->
  exists o', live (srv_db s) o' /\ evolves o o' /\ o_ExternalID o' = o_ExternalID o.
Proof.
  intros [[_ Hf _] _] Ho. destruct (Hf o Ho) as (o' & Ho' & Hev & _). exists o'. split; [done|]. split; [done|].
  by destruct (evolves_fields _ _ Hev).
Qed.

Lemma set_flag_run (E : string -> Prop) A s o (flag : string) (f : Organization -> Organization) :
  ok (srv_db s) -> live (srv_db s) o -> E (o_ExternalID o) ->
  (flag = orgs.RefuseDataAccess /\ f = set_RefuseDataAccess true) \/ (flag = orgs.RefuseDataUpload /\ f = set_RefuseDataUpload true) ->
  exists s', attempt (SetOrganizationFlag (o_ExternalID o) flag true) s = (Ret true, s') /\
    advances E A s s' /\ live (srv_db s') (f o).
Proof.
  intros Hs Ho HE Hflag.
  assert (Hrun : exists d', SetOrganizationFlag (o_ExternalID o) flag true s = (Ret tt, set_srv_db d' s) /\ ok d' /\
      replaced (srv_db s) d' o (f o)).
  { destruct Hflag as [[-> ->]|[-> ->]].
    - destruct (law_SetAccess (srv_db s) o true Hs Ho) as (d' & Hc & Hok & Hrep & _). exists d'.
      split; [by apply db_run|done].
    - destruct (law_SetUpload (srv_db s) o true Hs Ho) as (d' & Hc & Hok & Hrep & _). exists d'.
      split; [by apply db_run|done]. }
  destruct Hrun as (d' & Hrun & Hok & Hrep). exists (set_srv_db d' s). split; [by apply (attempt_Ret _ _ tt)|].
  destruct (grows_replaced E (srv_db s) d' o (f o) Hs Hok Ho Hrep) as [Hg Hl]; [|done|].
  { destruct Hflag as [[_ ->]|[_ ->]]; [apply evolves_set_access|apply evolves_set_upload]. }
  split; [|exact Hl]. split; [exact Hg|]. exists []. by rewrite app_nil_r.
Qed.

(** The three notices: find the organization, list its members, send one mail; two of them
    then write the time. *)
Lemma db_definite {A} (c : DBCall A) s : definite (call c (srv_db s)).1 -> (call c (srv_db s)).2 = srv_db s ->
  exists r, db c s = (r, s) /\ definite r.
Proof.
  destruct (call c (srv_db s)) as [r d'] eqn:Hc. simpl. intros Hr ->. exists r. split; [by apply db_reads|done].
Qed.

Variable emailer : Mail Report -> option error.

Lemma notice_run (E : string -> Prop) (A : Mail Report -> Prop) s o (mail : Organization -> list User -> Mail Report)
    (rest : M (Server S Report) error unit) :
  ok (srv_db s) -> live (srv_db s) o ->
  (forall us, A (mail o us)) ->
  (forall s1, srv_db s1 = srv_db s -> exists r s', rest s1 = (r, s') /\ definite r /\ advances E A s1 s') ->
  exists r s', (do org <- db (CallFindOrganizationByID (o_ExternalID o));
     do members <- db (CallListOrganizationUsers (o_ExternalID o) false true);
     send emailer (mail org members) ;;; rest) s = (r, s') /\ definite r /\ advances E A s s'.
Proof.
  intros Hs Ho HA Hrest.
  destruct (law_FindOrganizationByID (srv_db s) (o_ExternalID o) Hs) as [(o' & Hf & Ho' & He)|[_ Hno]];
    [|by destruct (Hno o Ho)].
  assert (o' = o) as ->.
  { apply (live_unique (srv_db s)); [done..|]. rewrite He. apply same_id_refl. }
  rewrite (bind_Ret _ _ s o s (db_reads _ _ _ Hf)).
  destruct (db_definite (CallListOrganizationUsers (o_ExternalID o) false true) s) as (r & Hl & Hr);
    [by apply law_ListOrganizationUsers_ends|by apply law_ListOrganizationUsers|].
  destruct r as [us|err| | |]; try done;
    [|exists (Err err), s; split; [by rewrite (bind_Err _ _ _ _ _ Hl)|]; split; [done|by apply advances_refl]].
  rewrite (bind_Ret _ _ _ _ _ Hl). unfold bind, send. destruct (emailer (mail o us)) as [err|].
  - exists (Err err), s. split; [done|]. split; [done|by apply advances_refl].
  - set (s1 := mkServer _ _ _ _). destruct (Hrest s1 eq_refl) as (r & s' & Hr' & Hdef & Hadv).
    exists r, s'. split; [exact Hr'|]. split; [done|].
    apply advances_trans with s1; [|done]. split; [by apply grows_refl|].
    exists [mail o us]. split; [done|]. by constructor.
Qed.

(** Writing the time of a notice. *)
Lemma stamp_run (E : string -> Prop) (A : Mail Report -> Prop) s o (view : time.Time -> OrgWriteView) (p x : time.Time -> option time.Time) :
  ok (srv_db s) -> live (srv_db s) o -> E (o_ExternalID o) ->
  (forall now, view now = mkOrgWriteView None None None None None None (p now) (x now)) ->
  exists r s', (do now <- srv_Now; db (CallUpdateOrganization (o_ExternalID o) (view now)) ;;; ret tt) s = (r, s') /\
    definite r /\ advances E A s s'.
Proof.
  intros Hs Ho HE Hview. unfold bind at 1, srv_Now. set (now := srv_clock s (srv_ticks s)). rewrite Hview.
  set (s1 := mkServer _ _ _ _).
  destruct (law_Notified (srv_db s) o (p now) (x now) Hs Ho) as (r & d' & Hc & Hr & Hok & Hrep).
  assert (Hadv : advances E A s (set_srv_db d' s1)).
  { split; [|by exists []; simpl; rewrite app_nil_r]. simpl.
    destruct Hrep as [->|Hrep]; [by apply grows_refl|].
    eapply (grows_replaced E (srv_db s) d' o); try done. apply evolves_notify. }
  pose proof (db_run (CallUpdateOrganization (o_ExternalID o) _) s1 r d' Hc) as Hrun.
  destruct r as [o2|err| | |]; try done.
  - exists (Ret tt), (set_srv_db d' s1). by rewrite (bind_Ret _ _ _ _ _ Hrun).
  - exists (Err err), (set_srv_db d' s1). by rewrite (bind_Err _ _ _ _ _ Hrun).
Qed.

(** ** The rules of the job *)

Variable period : time.Duration.

Definition delinquent (now : time.Time) (o : Organization) : Prop := orgs.isDelinquent o now = Some true.

(** The trial ended more than [TrialRefuseDataUploadAfter] ago. *)
Definition overdue (now : time.Time) (o : Organization) : Prop :=
  o_TrialExpiresAt o + TrialRefuseDataUploadAfter < now.

(** The trial is about to end, is not paid for, and its owners have not been told. *)
Definition expiring (now : time.Time) (o : Organization) : Prop :=
  IsOnboarded o = true /\ o_TrialPendingExpiryNotifiedAt o = None /\ o_ZuoraAccountNumber o = EmptyString /\
  0 < time.Sub (o_TrialExpiresAt o) now <= period.

(** The mail the job may send about an organization. *)
Definition may_send (now : time.Time) (o : Organization) (m : Mail Report) : Prop :=
  match m with
  | TrialPendingExpiryEmail _ e _ _ => e = o_ExternalID o /\ expiring now o
  | TrialExpiredEmail _ e _ =>
      e = o_ExternalID o /\ delinquent now o /\ IsOnboarded o = true /\ o_TrialExpiredNotifiedAt o = None
  | RefuseDataUploadEmail _ e _ =>
      e = o_ExternalID o /\ delinquent now o /\ IsOnboarded o = true /\ overdue now o /\ o_RefuseDataUpload o = false
  | _ => False
  end.

(** What has become of a delinquent organization. *)
Definition refused (now : time.Time) (o : Organization) (d : S) : Prop :=
  exists o', live d o' /\ evolves o o' /\ o_RefuseDataAccess o' = true /\ (overdue now o -> o_RefuseDataUpload o' = true).

Lemma refused_grows E now o d d' : refused now o d -> grows E d d' -> refused now o d'.
Proof.
  intros (o1 & Ho1 & He1 & Ha & Hu) [_ Hf _]. destruct (Hf o1 Ho1) as (o2 & Ho2 & He2 & _). exists o2.
  split; [done|]. split; [by trans o1|]. destruct He2 as [_ Ha2 Hu2]. auto.
Qed.

Section loops.
Context (E : string -> Prop) (A : Mail Report -> Prop) (now : time.Time).

Lemma refuseDataAccess_run s o o' :
  ok (srv_db s) -> live (srv_db s) o' -> evolves o o' -> E (o_ExternalID o) -> delinquent now o ->
  exists s' o2, refuseDataAccess o now s = (Ret tt, s') /\ advances E A s s' /\
    live (srv_db s') o2 /\ evolves o o2 /\ o_RefuseDataAccess o2 = true.
Proof.
  intros Hs Ho' Hev HE Hdel. destruct (evolves_fields _ _ Hev) as [Hext _]. unfold refuseDataAccess.
  destruct (o_RefuseDataAccess o) eqn:Ha.
  { exists s, o'. split; [done|]. split; [by apply advances_refl|]. split; [done|]. split; [done|]. by apply Hev. }
  unfold orgs.ShouldRefuseDataAccess. rewrite Hdel. simpl.
  destruct (set_flag_run E A s o' orgs.RefuseDataAccess (set_RefuseDataAccess true)) as (s' & Hrun & Hadv & Hl);
    [done|done|by rewrite Hext|by left|].
  exists s', (set_RefuseDataAccess true o'). rewrite Hext in Hrun.
  split; [unfold bind at 1; simpl; by rewrite (bind_Ret _ _ _ _ _ Hrun)|]. split; [done|]. split; [done|].
  split; [|done]. trans o'; [done|apply evolves_set_access].
Qed.

Lemma refuseDataUpload_run s o o' :
  ok (srv_db s) -> live (srv_db s) o' -> evolves o o' -> E (o_ExternalID o) -> delinquent now o ->
  exists b s' o2, refuseDataUpload o now s = (Ret b, s') /\ advances E A s s' /\
    live (srv_db s') o2 /\ evolves o' o2 /\ (overdue now o -> o_RefuseDataUpload o2 = true) /\
    (b = true -> overdue now o /\ o_RefuseDataUpload o = false).
Proof.
  intros Hs Ho' Hev HE Hdel. destruct (evolves_fields _ _ Hev) as [Hext _]. unfold refuseDataUpload.
  destruct (o_RefuseDataUpload o) eqn:Ha.
  { exists false, s, o'. split; [done|]. split; [by apply advances_refl|]. split; [done|]. split; [done|].
    split; [intros _; by apply Hev|done]. }
  unfold orgs.ShouldRefuseDataUpload. rewrite Hdel. simpl. unfold overdue, time.Before, time.Add.
  destruct (Z.ltb_spec (o_TrialExpiresAt o + TrialRefuseDataUploadAfter) now) as [Hover|Hover].
  - destruct (set_flag_run E A s o' orgs.RefuseDataUpload (set_RefuseDataUpload true)) as (s' & Hrun & Hadv & Hl);
      [done|done|by rewrite Hext|by right|].
    exists true, s', (set_RefuseDataUpload true o'). rewrite Hext in Hrun.
    split; [unfold bind at 1; simpl; by rewrite (bind_Ret _ _ _ _ _ Hrun)|]. split; [done|]. split; [done|].
    split; [apply evolves_set_upload|done].
  - exists false, s, o'. split; [done|]. split; [by apply advances_refl|]. split; [done|]. split; [done|].
    split; [lia|done].
Qed.

Lemma attempt_notice {B} (m : M (Server S Report) error B) s r s' :
  m s = (r, s') -> definite r -> (attempt m ;;; ret tt) s = (Ret tt, s').
Proof. intros Hm Hr. destruct (attempt_definite m s r s' Hm Hr) as [b Hb]. by rewrite (bind_Ret _ _ _ _ _ Hb). Qed.

Lemma NotifyRefuseDataUpload_run s o :
  ok (srv_db s) -> live (srv_db s) o -> (forall us n, A (RefuseDataUploadEmail us (o_ExternalID o) n)) ->
  exists r s', NotifyRefuseDataUpload emailer (o_ExternalID o) s = (r, s') /\ definite r /\ advances E A s s'.
Proof.
  intros Hs Ho HA. destruct (notice_run E A s o (fun org us => RefuseDataUploadEmail us (o_ExternalID o) (o_Name org)) (ret tt))
    as (r & s' & Hrun & Hr & Hadv); [done|done|intros us; apply HA| |].
  { intros s1 Hs1. exists (Ret tt), s1. split; [done|]. split; [done|]. apply advances_refl. by rewrite Hs1. }
  destruct r as [[]|err| | |]; try done.
  - exists (Ret tt), s'. split; [|done]. unfold NotifyRefuseDataUpload.
    apply bind_inv_Ret in Hrun as (o1 & s1 & H1 & (us & s2 & H2 & ([] & s3 & H3 & [= <-])%bind_inv_Ret)%bind_inv_Ret).
    by rewrite (bind_Ret _ _ _ _ _ H1), (bind_Ret _ _ _ _ _ H2).
  - exists (Err err), s'. split; [|done]. unfold NotifyRefuseDataUpload. revert Hrun. unfold bind.
    destruct (db _ s) as [[] ?]; try done. destruct (db _ _) as [[] ?]; try done. by destruct (send _ _ _) as [[[]| | | |] ?].
Qed.

Lemma NotifyTrialExpired_run s o :
  ok (srv_db s) -> live (srv_db s) o -> E (o_ExternalID o) -> (forall us n, A (TrialExpiredEmail us (o_ExternalID o) n)) ->
  exists r s', NotifyTrialExpired emailer (o_ExternalID o) s = (r, s') /\ definite r /\ advances E A s s'.
Proof.
  intros Hs Ho HE HA. apply (notice_run E A s o (fun org us => TrialExpiredEmail us (o_ExternalID o) (o_Name org))); try done.
  intros s1 Hs1. apply (stamp_run E A s1 o _ (fun _ => None) Some); rewrite ?Hs1; done.
Qed.

Lemma NotifyTrialPendingExpiry_run s o :
  ok (srv_db s) -> live (srv_db s) o -> E (o_ExternalID o) -> (forall us n t, A (TrialPendingExpiryEmail us (o_ExternalID o) n t)) ->
  exists r s', NotifyTrialPendingExpiry emailer (o_ExternalID o) s = (r, s') /\ definite r /\ advances E A s s'.
Proof.
  intros Hs Ho HE HA.
  apply (notice_run E A s o (fun org us => TrialPendingExpiryEmail us (o_ExternalID o) (o_Name org) (o_TrialExpiresAt org))); try done.
  intros s1 Hs1. apply (stamp_run E A s1 o _ Some (fun _ => None)); rewrite ?Hs1; done.
Qed.

(** The body of the loop over the delinquent organizations, on the snapshot [o]. *)
Lemma process_run s0 s o :
  advances E A s0 s -> live (srv_db s0) o -> delinquent now o ->
  (IsOnboarded o = true -> E (o_ExternalID o)) -> (forall m, may_send now o m -> A m) ->
  exists s', process_delinquent_organization emailer now o s = (Ret tt, s') /\ advances E A s s' /\
    (IsOnboarded o = true -> refused now o (srv_db s')).
Proof.
  intros Hadv0 Ho Hdel HEo HA. pose proof (advances_ok _ _ _ _ Hadv0) as Hs. unfold process_delinquent_organization.
  destruct (IsOnboarded o) eqn:Hon; simpl; [|exists s; split; [done|]; split; [by apply advances_refl|done]].
  specialize (HEo eq_refl). destruct (current E A s0 s o Hadv0 Ho) as (o1 & Ho1 & Hev1 & He1).
  destruct (refuseDataAccess_run s o o1) as (s2 & o2 & Hr2 & Hadv2 & Ho2 & Hev2 & Hacc); try done.
  pose proof (advances_ok _ _ _ _ Hadv2) as Hs2.
  destruct (refuseDataUpload_run s2 o o2) as (b & s3 & o3 & Hr3 & Hadv3 & Ho3 & Hev3 & Hup & Hb); try done.
  pose proof (advances_ok _ _ _ _ Hadv3) as Hs3. assert (Hev : evolves o o3) by (by trans o2).
  pose proof (proj1 (evolves_fields _ _ Hev)) as He3.
  assert (Href : refused now o (srv_db s3)).
  { exists o3. split; [done|]. split; [done|]. split; [by apply Hev3|done]. }
  rewrite (bind_Ret _ _ _ _ _ Hr2), (bind_Ret _ _ _ _ _ Hr3).
  (* the notice about data upload *)
  assert (H4 : exists s4, (if b && (0 <? trial.Length (o_TrialExpiresAt o) (o_CreatedAt o))
      then attempt (NotifyRefuseDataUpload emailer (o_ExternalID o)) ;;; ret tt else ret tt) s3 = (Ret tt, s4) /\ advances E A s3 s4).
  { destruct (b && _) eqn:Hbl; [|exists s3; split; [done|by apply advances_refl]].
    apply andb_prop in Hbl as [-> _]. destruct (Hb eq_refl) as [Hover Hnot].
    destruct (NotifyRefuseDataUpload_run s3 o3 Hs3 Ho3) as (r & s4 & Hr4 & Hdef & Hadv4); [intros us n; apply HA; by rewrite He3|].
    rewrite He3 in Hr4. exists s4. split; [by apply (attempt_notice _ _ r)|done]. }
  destruct H4 as (s4 & Hr4 & Hadv4). rewrite (bind_Ret _ _ _ _ _ Hr4).
  assert (Hadv : advances E A s s4) by (eapply advances_trans; [|eapply advances_trans]; eauto).
  pose proof (refused_grows E now o _ _ Href (advances_db _ _ _ _ Hadv4)) as Href4.
  destruct (o_TrialExpiredNotifiedAt o) eqn:Hnot; [rewrite bool_decide_eq_true_2 by done; by exists s4|].
  rewrite bool_decide_eq_false_2 by (by intros []).
  destruct (current E A s3 s4 o3 Hadv4 Ho3) as (o4 & Ho4 & Hev4 & He4).
  destruct (NotifyTrialExpired_run s4 o4 (advances_ok _ _ _ _ Hadv4) Ho4) as (r & s5 & Hr5 & Hdef & Hadv5);
    [by rewrite He4, He3|intros us n; apply HA; by rewrite He4, He3|].
  rewrite He4, He3 in Hr5. exists s5. split; [by apply (attempt_notice _ _ r)|].
  split; [by eapply advances_trans|]. intros _. by apply (refused_grows E now o (srv_db s4)), (advances_db _ _ _ _ Hadv5).
Qed.

Lemma process_all_run s0 l s :
  advances E A s0 s ->
  (forall o, o ∈ l -> live (srv_db s0) o /\ delinquent now o /\ (IsOnboarded o = true -> E (o_ExternalID o)) /\
     forall m, may_send now o m -> A m) ->
  exists s', for_each l (process_delinquent_organization emailer now) s = (Ret tt, s') /\ advances E A s s' /\
    forall o, o ∈ l -> IsOnboarded o = true -> refused now o (srv_db s').
Proof.
  revert s. induction l as [|o l IH]; intros s Hadv Hl; simpl.
  { exists s. split; [done|]. split; [apply advances_refl; by eapply advances_ok|]. by intros o ?%not_elem_of_nil. }
  destruct (Hl o (list_elem_of_here _ _)) as (Ho & Hdel & HE & HA).
  destruct (process_run s0 s o) as (s1 & Hr1 & Hadv1 & Href); try done. rewrite (bind_Ret _ _ _ _ _ Hr1).
  destruct (IH s1) as (s2 & Hr2 & Hadv2 & Hall); [by eapply advances_trans|intros x Hx; apply Hl; by right|].
  exists s2. split; [done|]. split; [by eapply advances_trans|].
  intros x [->|Hx]%elem_of_cons Hon; [|by apply Hall].
  apply (refused_grows E now o (srv_db s1)); [by apply Href|apply (advances_db _ _ _ _ Hadv2)].
Qed.

(** The body of the loop over the trials. *)
Lemma notify_trial_run s0 s o :
  advances E A s0 s -> live (srv_db s0) o ->
  (expiring now o -> E (o_ExternalID o)) -> (forall m, may_send now o m -> A m) ->
  exists s', notify_trial_organization emailer period now o s = (Ret tt, s') /\ advances E A s s'.
Proof.
  intros Hadv0 Ho HEo HA. pose proof (advances_ok _ _ _ _ Hadv0) as Hs.
  assert (Hskip : exists s', ret tt s = (Ret (E := error) tt, s') /\ advances E A s s') by (exists s; split; [done|by apply advances_refl]).
  unfold notify_trial_organization. destruct (IsOnboarded o) eqn:Hon; simpl; [|done].
  destruct (o_TrialPendingExpiryNotifiedAt o) eqn:Hnot; [by rewrite bool_decide_eq_true_2|].
  rewrite bool_decide_eq_false_2 by (by intros []).
  destruct (Z.ltb_spec period (time.Sub (o_TrialExpiresAt o) now)) as [|Hle]; [done|].
  destruct (Z.leb_spec (time.Sub (o_TrialExpiresAt o) now) 0) as [|Hpos]; [done|].
  destruct (decide (o_ZuoraAccountNumber o = EmptyString)) as [Hz|Hz]; [|by rewrite bool_decide_eq_false_2].
  rewrite bool_decide_eq_true_2 by done. simpl. assert (Hexp : expiring now o) by done.
  destruct (current E A s0 s o Hadv0 Ho) as (o1 & Ho1 & Hev1 & He1).
  destruct (NotifyTrialPendingExpiry_run s o1 Hs Ho1) as (r & s' & Hr & Hdef & Hadv);
    [rewrite He1; by apply HEo|intros us n t; apply HA; by rewrite He1|].
  rewrite He1 in Hr. exists s'. split; [by apply (attempt_notice _ _ r)|done].
Qed.

Lemma notify_all_run s0 l s :
  advances E A s0 s ->
  (forall o, o ∈ l -> live (srv_db s0) o /\ (expiring now o -> E (o_ExternalID o)) /\ forall m, may_send now o m -> A m) ->
  exists s', for_each l (notify_trial_organization emailer period now) s = (Ret tt, s') /\ advances E A s s'.
Proof.
  revert s. induction l as [|o l IH]; intros s Hadv Hl; simpl.
  { exists s. split; [done|]. apply advances_refl. by eapply advances_ok. }
  destruct (Hl o (list_elem_of_here _ _)) as (Ho & HE & HA).
  destruct (notify_trial_run s0 s o) as (s1 & Hr1 & Hadv1); try done. rewrite (bind_Ret _ _ _ _ _ Hr1).
  destruct (IH s1) as (s2 & Hr2 & Hadv2); [by eapply advances_trans|intros x Hx; apply Hl; by right|].
  exists s2. split; [done|]. by eapply advances_trans.
Qed.

End loops.

(** ** The two halves of the job *)

(** The organizations of [d] the two halves are about. *)
Definition ids_of (P : Organization -> Prop) (d : S) (e : string) : Prop :=
  exists o, live d o /\ P o /\ o_ExternalID o = e.

Lemma wrapped_Ret {A} msg (m : M (Server S Report) error A) s a s' : m s = (Ret a, s') -> wrapped msg m s = (Ret a, s').
Proof. intros Hm. unfold wrapped, bind, try. by rewrite (Interceptor_Ret _ _ _ _ Hm). Qed.

Lemma GetDelinquentOrganizations_run now s : ok (srv_db s) -> exists l,
  GetDelinquentOrganizations now s = (Ret l, s) /\ forall o, o ∈ l <-> live (srv_db s) o /\ delinquent now o.
Proof.
  intros Hs. destruct (law_ListOrganizations (srv_db s) (orgs.DelinquentFilter now) Hs eq_refl) as (l & Hl & Hm).
  exists l. split; [by apply db_reads|]. simpl in Hm. rewrite (law_exact (srv_db s) now Hs) in Hm. exact Hm.
Qed.

Lemma GetTrialOrganizations_run now s : ok (srv_db s) -> exists l,
  GetTrialOrganizations now s = (Ret l, s) /\ forall o, o ∈ l <-> live (srv_db s) o /\ filter.sat_org (on_trial now) o.
Proof.
  intros Hs. destruct (law_ListOrganizations (srv_db s) (on_trial now) Hs eq_refl) as (l & Hl & Hm).
  exists l. split; [by apply db_reads|]. simpl in Hm. rewrite (law_exact (srv_db s) now Hs) in Hm. exact Hm.
Qed.

Lemma ProcessDelinquent_run now s : ok (srv_db s) ->
  exists s', ProcessDelinquentOrganizations emailer now s = (Ret tt, s') /\
    advances (ids_of (fun o => delinquent now o /\ IsOnboarded o = true) (srv_db s))
      (fun m => exists o, live (srv_db s) o /\ delinquent now o /\ may_send now o m) s s' /\
    forall o, live (srv_db s) o -> delinquent now o -> IsOnboarded o = true -> refused now o (srv_db s').
Proof.
  intros Hs. destruct (GetDelinquentOrganizations_run now s Hs) as (l & Hl & Hm).
  unfold ProcessDelinquentOrganizations. rewrite (bind_Ret _ _ _ _ _ (wrapped_Ret _ _ _ _ _ Hl)).
  destruct (process_all_run (ids_of (fun o => delinquent now o /\ IsOnboarded o = true) (srv_db s))
    (fun m => exists o, live (srv_db s) o /\ delinquent now o /\ may_send now o m) now s l s) as (s' & Hrun & Hadv & Hall).
  - by apply advances_refl.
  - intros o [Ho Hd]%Hm. split; [done|]. split; [done|]. split; [by exists o|by exists o].
  - exists s'. split; [done|]. split; [done|]. intros o Ho Hd Hon. apply Hall; [|done]. by apply Hm.
Qed.

Lemma NotifyTrial_run now s : ok (srv_db s) ->
  exists s', NotifyTrialOrganizations emailer period now s = (Ret tt, s') /\
    advances (ids_of (expiring now) (srv_db s))
      (fun m => exists o, live (srv_db s) o /\ filter.sat_org (on_trial now) o /\ may_send now o m) s s'.
Proof.
  intros Hs. destruct (GetTrialOrganizations_run now s Hs) as (l & Hl & Hm).
  unfold NotifyTrialOrganizations. rewrite (bind_Ret _ _ _ _ _ (wrapped_Ret _ _ _ _ _ Hl)).
  apply (notify_all_run (ids_of (expiring now) (srv_db s))
    (fun m => exists o, live (srv_db s) o /\ filter.sat_org (on_trial now) o /\ may_send now o m) now s l s).
  - by apply advances_refl.
  - intros o [Ho Ht]%Hm. split; [done|]. split; [by exists o|by exists o].
Qed.

(** C15: processing the delinquent organizations never fails, whatever the emailer does: every
    organization that is delinquent and onboarded ends up with data access refused, and with
    data upload refused when its trial ended more than a week ago; nothing but these flags
    and the times of notices changes, no flag is cleared, every other organization is left
    as it was, and the mail handed over is about delinquent organizations that had not been
    told yet. *)
Theorem ProcessDelinquentOrganizations_spec now s :
  ok (srv_db s) ->
  exists s', ProcessDelinquentOrganizations emailer now s = (Ret tt, s') /\
    (forall o, live (srv_db s) o -> delinquent now o -> IsOnboarded o = true -> refused now o (srv_db s')) /\
    (forall o, live (srv_db s) o -> ~ (delinquent now o /\ IsOnboarded o = true) -> live (srv_db s') o) /\
    (forall o', live (srv_db s') o' -> exists o, live (srv_db s) o /\ evolves o o') /\
    exists new, outbox s' = outbox s ++ new /\
      Forall (fun m => exists o, live (srv_db s) o /\ delinquent now o /\ may_send now o m) new.
Proof.
  intros Hs. destruct (ProcessDelinquent_run now s Hs) as (s' & Hrun & [[Hok Hf Hb] Hmail] & Hall).
  exists s'. split; [done|]. split; [done|]. split; [|done].
  intros o Ho Hn. destruct (Hf o Ho) as (o' & Ho' & _ & Hsame). rewrite <- Hsame; [done|].
  intros (x & Hx & Hp & He). apply Hn. assert (x = o) as ->; [|done].
  apply (live_unique (srv_db s)); [done..|]. rewrite He. apply same_id_refl.
Qed.

(** C16: one run of the whole job: trials about to end are told first, then the delinquent
    organizations are processed; both happen whatever the emailer does, every organization
    that was delinquent and onboarded at the start has been refused at the end, and an
    organization that is neither about to expire nor delinquent is left as it was. *)
Theorem Do_spec now s :
  ok (srv_db s) ->
  exists s1 s', NotifyTrialOrganizations emailer period now s = (Ret tt, s1) /\
    Do emailer period now s = (Ret tt, s') /\
    (exists new, outbox s1 = outbox s ++ new /\
       Forall (fun m => exists o, live (srv_db s) o /\ filter.sat_org (on_trial now) o /\ may_send now o m) new) /\
    (exists new, outbox s' = outbox s1 ++ new /\
       Forall (fun m => exists o, live (srv_db s1) o /\ delinquent now o /\ may_send now o m) new) /\
    (forall o, live (srv_db s) o -> delinquent now o -> IsOnboarded o = true -> refused now o (srv_db s')) /\
    (forall o, live (srv_db s) o -> ~ expiring now o -> ~ (delinquent now o /\ IsOnboarded o = true) -> live (srv_db s') o).
Proof.
  intros Hs. destruct (NotifyTrial_run now s Hs) as (s1 & Hrun1 & [Hg1 Hmail1]).
  destruct (ProcessDelinquent_run now s1 (grows_ok _ _ _ Hg1)) as (s' & Hrun2 & [Hg2 Hmail2] & Hall).
  exists s1, s'. split; [done|]. split.
  { unfold Do, bind, try. rewrite Hrun1. simpl. by rewrite Hrun2. }
  split; [done|]. split; [done|].
  assert (Hdel : forall o o', evolves o o' -> delinquent now o <-> delinquent now o').
  { intros o o' Hev. destruct (evolves_fields _ _ Hev) as (_ & _ & _ & _ & Ht & _ & Hz & Hg & Hf).
    unfold delinquent. rewrite !delinquent_iff. unfold o_HasFeatureFlag. by rewrite Ht, Hz, Hg, Hf. }
  assert (Hon : forall o o', evolves o o' -> IsOnboarded o' = IsOnboarded o).
  { intros o o' Hev. destruct (evolves_fields _ _ Hev) as (_ & _ & _ & Hc & _). unfold IsOnboarded. by rewrite Hc. }
  split.
  - intros o Ho Hd Hb. destruct (grows_fwd _ _ _ Hg1 o Ho) as (o1 & Ho1 & Hev & _).
    destruct (Hall o1 Ho1) as (o2 & Ho2 & Hev2 & Ha & Hu); [by apply (Hdel o)|by rewrite (Hon o)|].
    exists o2. split; [done|]. split; [by trans o1|]. split; [done|]. intros Hover. apply Hu.
    unfold overdue. by destruct (evolves_fields _ _ Hev) as (_ & _ & _ & _ & -> & _).
  - intros o Ho Hne Hnd. destruct (grows_fwd _ _ _ Hg1 o Ho) as (o1 & Ho1 & Hev & Hs1).
    assert (o1 = o) as ->.
    { apply Hs1. intros (x & Hx & Hp & He). apply Hne. assert (x = o) as ->; [|done].
      apply (live_unique (srv_db s)); [done..|]. rewrite He. apply same_id_refl. }
    destruct (grows_fwd _ _ _ Hg2 o Ho1) as (o2 & Ho2 & _ & Hs2). rewrite <- Hs2; [done|].
    intros (x & Hx & Hp & He). apply Hnd. assert (x = o) as ->; [|done].
    apply (live_unique (srv_db s1)); [by apply Hg1|done|done|]. rewrite He. apply same_id_refl.
Qed.

(** ** A second run *)

(** Nothing is left to do about a delinquent organization. *)
Definition settled (now : time.Time) (o : Organization) : Prop :=
  o_RefuseDataAccess o = true /\ (overdue now o -> o_RefuseDataUpload o = true) /\ is_Some (o_TrialExpiredNotifiedAt o).

Lemma process_settled now o s : delinquent now o -> (IsOnboarded o = true -> settled now o) ->
  process_delinquent_organization emailer now o s = (Ret tt, s).
Proof.
  intros Hdel Hset. unfold process_delinquent_organization. destruct (IsOnboarded o); simpl; [|done].
  destruct (Hset eq_refl) as (Ha & Hu & Hn).
  assert (H1 : refuseDataAccess o now s = (Ret tt, s)) by (unfold refuseDataAccess; by rewrite Ha).
  assert (H2 : refuseDataUpload o now s = (Ret false, s)).
  { unfold refuseDataUpload, orgs.ShouldRefuseDataUpload. rewrite Hdel. unfold overdue, time.Before, time.Add in *.
    destruct (o_RefuseDataUpload o); [done|].
    destruct (Z.ltb_spec (o_TrialExpiresAt o + TrialRefuseDataUploadAfter) now) as [Hover|]; [by specialize (Hu Hover)|done]. }
  rewrite (bind_Ret _ _ _ _ _ H1), (bind_Ret _ _ _ _ _ H2). unfold bind, ret. simpl.
  by rewrite bool_decide_eq_true_2.
Qed.

(** The job is idempotent: once every delinquent organization is refused and has been
    told, running it again calls nothing, changes nothing and sends nothing. *)
Theorem ProcessDelinquentOrganizations_idempotent now s :
  ok (srv_db s) ->
  (forall o, live (srv_db s) o -> delinquent now o -> IsOnboarded o = true -> settled now o) ->
  ProcessDelinquentOrganizations emailer now s = (Ret tt, s).
Proof.
  intros Hs Hset. destruct (GetDelinquentOrganizations_run now s Hs) as (l & Hl & Hm).
  unfold ProcessDelinquentOrganizations. rewrite (bind_Ret _ _ _ _ _ (wrapped_Ret _ _ _ _ _ Hl)).
  assert (Hall : forall o, o ∈ l -> delinquent now o /\ (IsOnboarded o = true -> settled now o)).
  { intros o [Ho Hd]%Hm. split; [done|]. by apply Hset. }
  clear Hm Hl. induction l as [|o l IH]; simpl; [done|].
  destruct (Hall o (list_elem_of_here _ _)) as [Hd Hst].
  rewrite (bind_Ret _ _ _ _ _ (process_settled now o s Hd Hst)). apply IH. intros x Hx. apply Hall. by right.
Qed.

End enforcer.
