(* ===== verification/Entitlement.v ===== *)
(** The launcher of the Google Cloud Marketplace: the client of the procurement API
    (common/gcp/procurement/client.go, common/jsonclient.go) and the handler of its Pub/Sub
    messages about entitlements (gcp-launcher-webhook). *)
From Stdlib Require Import ZArith Lia Ascii String.
From stdpp Require Import base tactics option strings list pretty.
From S2P Require Import Prelude GoStd Users UsersDB Sessions UsersServer UsersClient.

(** * The procurement API *)
Module procurement.

(** [EntitlementState] *)
Definition ActivationRequested : string := "ENTITLEMENT_ACTIVATION_REQUESTED".
Definition Active : string := "ENTITLEMENT_ACTIVE".
Definition PendingCancellation : string := "ENTITLEMENT_PENDING_CANCELLATION".
Definition Cancelled : string := "ENTITLEMENT_CANCELLED".
Definition PendingPlanChange : string := "ENTITLEMENT_PENDING_PLAN_CHANGE".
Definition PendingPlanChangeApproval : string := "ENTITLEMENT_PENDING_PLAN_CHANGE_APPROVAL".
Definition Suspended : string := "ENTITLEMENT_SUSPENDED".

(** [Entitlement] *)
Record Entitlement : Type := mkEntitlement {
  Name : string;
  Account : string;
  Provider : string;
  Product : string;
  Plan : string;
  State : string;
  NewPendingPlan : string;
  UpdateTime : time.Time;
  CreateTime : time.Time;
  UsageReportingID : string;
  MessageToUser : string;
}.

(** [(e Entitlement) AccountID()] *)
Definition AccountID (e : Entitlement) : string :=
  match strings.Split (Account e) "/"%char with
  | [_; _; _; id] => id
  | _ => EmptyString
  end.

(** ** HTTP (common/jsonclient.go)

    What comes back from the network: no response, or a status with a body that was decoded
    into a value, with the error of the decoder if there was one. *)
Inductive Reply (A : Type) : Type :=
  | NoResponse (err : string)
  | Response (StatusCode : Z) (decode_err : option string) (body : A).
Arguments NoResponse {A}.
Arguments Response {A}.

Inductive ClientError : Type := HTTPStatusError (Code : Z) | OtherError (text : string).

(** [parseJSON] after [send]: a status that is not a success hides a decoding error. *)
Definition parseJSON {A} (r : Reply A) : option ClientError :=
  match r with
  | NoResponse err => Some (OtherError err)
  | Response status err _ =>
      if (status <? 200) || (299 <? status) then Some (HTTPStatusError status) else OtherError <$> err
  end.

Definition decoded {A} (zero : A) (r : Reply A) : A := match r with NoResponse _ => zero | Response _ _ body => body end.

(** [HTTPStatusError.Error] *)
Definition ClientError_Error (e : ClientError) : string :=
  match e with
  | HTTPStatusError code => "request failed: " +:+ pretty code
  | OtherError text => text
  end.

(** [APIError], the error of the service in the body of a response *)
Record APIError : Type := mkAPIError { api_Code : Z; api_Message : string; api_Status : string }.
Definition APIError_Error (a : APIError) : string :=
  "Procurement API request failed: (" +:+ pretty (api_Code a) +:+ ") " +:+ api_Message a.

Definition zero_entitlement : Entitlement :=
  mkEntitlement EmptyString EmptyString EmptyString EmptyString EmptyString EmptyString EmptyString 0 0 EmptyString EmptyString.

(** ** [Client] *)

(** A request with a body: the URL and the fields of the JSON object. *)
Definition Post : Type := string * list (string * string).

Definition basePath : string := "https://cloudcommerceprocurement.googleapis.com".

Section client.
(** [Config.ProviderID], and the service at the other end. *)
Variable ProviderID : string.
Variable http_get : string -> Reply (option APIError * Entitlement).
Variable http_post : Post -> Reply (option APIError).

(** [url], [ResourceName] *)
Definition url (name method : string) : string :=
  let method := if decide (method = EmptyString) then method else ":" +:+ method in
  basePath +:+ "/v1/" +:+ name +:+ method.
Definition ResourceName (collection id : string) : string :=
  "providers/" +:+ ProviderID +:+ "/" +:+ collection +:+ "/" +:+ id.

(** [Post] with an [ErrorResponse] as destination, and the treatment of its error. *)
Definition post (u : string) (data : list (string * string)) : M (list Post) error unit :=
  modify (fun log => log ++ [(u, data)]) ;;;
  let reply := http_post (u, data) in
  match parseJSON reply with
  | Some err =>
      match decoded None reply with
      | Some apierr => throw (ErrMsg (APIError_Error apierr))
      | None => throw (ErrMsg (ClientError_Error err))
      end
  | None => ret tt
  end.

(** [ApproveAccount], [ApproveEntitlement], [ApprovePlanChangeEntitlement] *)
Definition ApproveAccount (externalAccountID : string) : M (list Post) error unit :=
  post (url (ResourceName "accounts" externalAccountID) "approve") [("approvalName", "signup")].
Definition ApproveEntitlement (name : string) : M (list Post) error unit :=
  post (url name "approve") [].
Definition ApprovePlanChangeEntitlement (name pendingPlanName : string) : M (list Post) error unit :=
  post (url name "approvePlanChange") [("pendingPlanName", pendingPlanName)].

(** [isNotFound] *)
Definition isNotFound (err : ClientError) : bool :=
  match err with HTTPStatusError code => code =? 404 | OtherError _ => false end.

(** [GetEntitlement]: an entitlement that does not exist is a nil pointer, not an error. *)
Definition GetEntitlement (name : string) : M (list Post) error (option Entitlement) :=
  let reply := http_get (url name EmptyString) in
  let '(apierr, ent) := decoded (None, zero_entitlement) reply in
  match parseJSON reply with
  | Some err =>
      if isNotFound err then ret None
      else match apierr with
           | Some apierr => throw (ErrMsg (APIError_Error apierr))
           | None => throw (ErrMsg (ClientError_Error err))
           end
  | None => ret (Some ent)
  end.

(** [ListEntitlements] *)
Variable http_list : string -> Reply (option APIError * list Entitlement).

Definition ListEntitlements (externalAccountID : string) : M (list Post) error (list Entitlement) :=
  let u := url (ResourceName "entitlements" EmptyString) EmptyString +:+ "?filter="
           +:+ GoStd.url.QueryEscape ("account=" +:+ externalAccountID) in
  let reply := http_list u in
  let '(apierr, ents) := decoded (None, []) reply in
  match parseJSON reply with
  | Some err =>
      if isNotFound err then ret []
      else match apierr with
           | Some apierr => throw (ErrMsg (APIError_Error apierr))
           | None => throw (ErrMsg (ClientError_Error err))
           end
  | None => ret ents
  end.

End client.

End procurement.

(** * gcp-launcher-webhook/event/event.go *)
Module event.

Definition CreationRequested : string := "ENTITLEMENT_CREATION_REQUESTED".
Definition Active : string := "ENTITLEMENT_ACTIVE".
Definition PlanChangeRequested : string := "ENTITLEMENT_PLAN_CHANGE_REQUESTED".
Definition PlanChanged : string := "ENTITLEMENT_PLAN_CHANGED".
Definition PlanChangeCancelled : string := "ENTITLEMENT_PLAN_CHANGE_CANCELLED".
Definition Cancelled : string := "ENTITLEMENT_CANCELLED".
Definition PendingCancellation : string := "ENTITLEMENT_PENDING_CANCELLATION".
Definition CancellationReverted : string := "ENTITLEMENT_CANCELLATION_REVERTED".
Definition Deleted : string := "ENTITLEMENT_DELETED".

(** [Payload] *)
Record Payload : Type := mkPayload {
  EventID : string;
  EventType : string;
  Entitlement_ID : string;
  Entitlement_NewPlan : string;
  Account_ID : string;
}.

End event.

(** * gcp-launcher-webhook/entitlement/messagehandler.go *)

(** The service the handler runs in: the users service behind its client, and what was
    posted to the procurement API. *)
Record Hook (S Report : Type) : Type := mkHook { hook_users : Server S Report; hook_posts : list procurement.Post }.
Arguments mkHook {S Report}.
Arguments hook_users {S Report}.
Arguments hook_posts {S Report}.

(** A Pub/Sub message. *)
Record Message : Type := mkMessage { MessageID : string; Data : string }.

Section handler.
Context {S Report : Type} `{DBImpl S}.
Variable ProviderID : string.
Variable http_get : string -> procurement.Reply (option procurement.APIError * procurement.Entitlement).
Variable http_post : procurement.Post -> procurement.Reply (option procurement.APIError).
(** [json.Unmarshal] into a payload *)
Variable Unmarshal : string -> error + event.Payload.

Abbreviation Handler := (M (Hook S Report) error).

Definition users_call {A} (handler : M (Server S Report) error A) : Handler A :=
  zoom hook_users (fun u h => mkHook u (hook_posts h)) (GRPCErrorInterceptor handler).
Definition procurement_call {A} (m : M (list procurement.Post) error A) : Handler A :=
  zoom hook_posts (fun p h => mkHook (hook_users h) p) m.

(** [setWeaveCloudAccessFlagsTo], [enableWeaveCloudAccess], [disableWeaveCloudAccess] *)
Definition setWeaveCloudAccessFlagsTo (externalAccountID : string) (value : bool) : Handler unit :=
  do org <- users_call (GetOrganization (RefGCPExternalAccountID externalAccountID));
  users_call (SetOrganizationFlag (o_ExternalID org) orgs.RefuseDataAccess value) ;;;
  users_call (SetOrganizationFlag (o_ExternalID org) orgs.RefuseDataUpload value).
Definition enableWeaveCloudAccess (externalAccountID : string) : Handler unit :=
  setWeaveCloudAccessFlagsTo externalAccountID false.
Definition disableWeaveCloudAccess (externalAccountID : string) : Handler unit :=
  setWeaveCloudAccessFlagsTo externalAccountID true.

(** [updateGCP] *)
Definition updateGCP (ent : procurement.Entitlement) : Handler unit :=
  users_call (srv_UpdateGCP (mkGCP EmptyString (procurement.AccountID ent) false 0
    (procurement.UsageReportingID ent) (procurement.Name ent) (procurement.Plan ent) (procurement.State ent))).

(** [updateEntitlement], [cancelEntitlement] *)
Definition updateEntitlement (ent : procurement.Entitlement) : Handler unit :=
  updateGCP ent ;;; enableWeaveCloudAccess (procurement.AccountID ent).
Definition cancelEntitlement (ent : procurement.Entitlement) : Handler unit :=
  disableWeaveCloudAccess (procurement.AccountID ent) ;;; updateGCP ent.

(** The [switch] over the type of the event, once the account is known to be activated. *)
Definition dispatch (EventType : string) (ent : procurement.Entitlement) : Handler unit :=
  if decide (EventType = event.CreationRequested) then
    if decide (procurement.State ent = procurement.ActivationRequested)
    then procurement_call (procurement.ApproveEntitlement http_post (procurement.Name ent)) else ret tt
  else if decide (EventType = event.Active) then
    if decide (procurement.State ent = procurement.Active) then updateEntitlement ent else ret tt
  else if decide (EventType = event.PlanChangeRequested) then
    if decide (procurement.State ent = procurement.PendingPlanChangeApproval)
    then procurement_call (procurement.ApprovePlanChangeEntitlement http_post (procurement.Name ent)
           (procurement.NewPendingPlan ent)) else ret tt
  else if decide (EventType = event.PlanChanged) then
    if decide (procurement.State ent = procurement.Active) then updateEntitlement ent else ret tt
  else if decide (EventType = event.PlanChangeCancelled) then ret tt
  else if decide (EventType = event.Cancelled) then
    if decide (procurement.State ent = procurement.Cancelled) then cancelEntitlement ent else ret tt
  else ret tt.

(** [Handle]: returning acknowledges the message, an error has it delivered again. *)
Definition Handle (msg : Message) : Handler unit :=
  if decide (Data msg = EmptyString) then ret tt
  else match Unmarshal (Data msg) with
  | inl err => throw err
  | inr payload =>
      if decide (event.Entitlement_ID payload = EmptyString) then ret tt
      else
        let entitlementName := procurement.ResourceName ProviderID "entitlements" (event.Entitlement_ID payload) in
        do r <- try (procurement_call (procurement.GetEntitlement http_get entitlementName));
        match r with
        | inl err => throw (Wrap err ("error getting entitlement: " +:+ quote.Quote entitlementName))
        | inr None => ret tt
        | inr (Some ent) =>
            let externalAccountID := procurement.AccountID ent in
            do r <- try (users_call (GetGCP externalAccountID));
            match r with
            | inl err =>
                if IsGRPCStatusErrorCode err 404 then ret tt
                else throw (Wrap err ("failed getting account: " +:+ externalAccountID))
            | inr gcp =>
                if negb (g_Activated gcp) then ret tt
                else dispatch (event.EventType payload) ent
            end
        end
  end.

End handler.
