(* ===== verification/EntitlementSpec.v ===== *)
(** What the handler of entitlement messages promises: a cancelled entitlement cuts the
    organization off, an active one restores it, and no other message touches the users
    database. *)
From Stdlib Require Import ZArith Lia Ascii String Sorting.Sorted.
From stdpp Require Import base tactics option gmap strings list pretty relations.
From S2P Require Import Prelude GoStd Users Filter MemDB MemTeam MemOrg MemUser UsersDB MemInv MemSafety Sample MemDelete MemOrgSpec MemUserSpec Sessions UsersServer ServerSpec UsersClient Calendar Trial Enforcer BillingSpec Entitlement.

Section entitlement.
Context {S Report : Type} {Hdb : DBImpl S} {Hlaw : LawfulDB S} {Hbill : BillingDB S}.
Implicit Types (d : S) (h : Hook S Report).

(** The state of the database of a hook, and the hook with another one. *)
Definition hook_db h : S := srv_db (hook_users h).
Definition with_db d h : Hook S Report := mkHook (set_srv_db d (hook_users h)) (hook_posts h).

Lemma with_db_id h : with_db (hook_db h) h = h.
Proof. by destruct h as [[] ?]. Qed.

(** ** Calls of the users service *)

Lemma users_call_run {A} (m : M (Server S Report) error A) h a d' :
  m (hook_users h) = (Ret a, set_srv_db d' (hook_users h)) -> users_call m h = (Ret a, with_db d' h).
Proof. intros Hm. unfold users_call, zoom. by rewrite (Interceptor_Ret _ _ _ _ Hm). Qed.

Lemma users_call_reads {A} (m : M (Server S Report) error A) h a :
  m (hook_users h) = (Ret a, hook_users h) -> users_call m h = (Ret a, h).
Proof. intros Hm. unfold users_call, zoom. rewrite (Interceptor_Ret _ _ _ _ Hm). by destruct h. Qed.

Lemma replaced_trans d d1 d2 o o1 o2 : ok d -> live d o -> o_ExternalID o1 = o_ExternalID o ->
  replaced d d1 o o1 -> replaced d1 d2 o1 o2 -> replaced d d2 o o2.
Proof.
  intros Hd Ho He H1 H2 x. rewrite (H2 x), (H1 x). split.
  - intros [->|[[->|[Hx Hne]] Hne1]]; [by left|done|by right].
  - intros [->|[Hx Hne]]; [by left|]. right. split; [by right|]. intros ->. apply Hne.
    apply (live_unique d); [done..|]. rewrite He. apply same_id_refl.
Qed.

(** Both flags of an organization. *)
Definition set_flags (v : bool) (o : Organization) : Organization := set_RefuseDataUpload v (set_RefuseDataAccess v o).

Lemma setFlags_run h a v : ok (hook_db h) -> a <> EmptyString -> (exists o, live (hook_db h) o /\ attached a o) ->
  exists o d', setWeaveCloudAccessFlagsTo a v h = (Ret tt, with_db d' h) /\ live (hook_db h) o /\ attached a o /\
    ok d' /\ replaced (hook_db h) d' o (set_flags v o) /\ forall a', account d' a' = account (hook_db h) a'.
Proof.
  intros Hd Ha (o0 & Ho0 & Ha0).
  destruct (law_FindByGCP (hook_db h) a Hd) as [(o & Hf & Ho & Hat)|[_ Hno]]; [|by destruct (Hno o0)].
  destruct (law_SetAccess (hook_db h) o v Hd Ho) as (d1 & Hc1 & Hok1 & Hrep1 & Hacc1).
  assert (Ho1 : live d1 (set_RefuseDataAccess v o)) by (apply Hrep1; by left).
  destruct (law_SetUpload d1 (set_RefuseDataAccess v o) v Hok1 Ho1) as (d2 & Hc2 & Hok2 & Hrep2 & Hacc2).
  exists o, d2. split; [|split; [done|split; [done|split; [done|split]]]].
  - unfold setWeaveCloudAccessFlagsTo.
    assert (Hg : GetOrganization (RefGCPExternalAccountID a) (hook_users h) = (Ret (copy_of o), hook_users h)).
    { unfold GetOrganization. simpl. rewrite bool_decide_eq_false_2 by done. simpl.
      rewrite (bind_Ret _ _ _ _ _ (db_reads _ _ _ Hf)). done. }
    rewrite (bind_Ret _ _ _ _ _ (users_call_reads _ _ _ Hg)). simpl o_ExternalID.
    assert (Hs1 : SetOrganizationFlag (o_ExternalID o) orgs.RefuseDataAccess v (hook_users h) = (Ret tt, set_srv_db d1 (hook_users h)))
      by (by apply db_run).
    rewrite (bind_Ret _ _ _ _ _ (users_call_run _ _ _ _ Hs1)).
    assert (Hs2 : SetOrganizationFlag (o_ExternalID o) orgs.RefuseDataUpload v (hook_users (with_db d1 h))
      = (Ret tt, set_srv_db d2 (hook_users (with_db d1 h)))) by (by apply db_run).
    by rewrite (users_call_run _ _ _ _ Hs2).
  - by apply (replaced_trans (hook_db h) d1 d2 o (set_RefuseDataAccess v o)).
  - intros a'. by rewrite Hacc2, Hacc1.
Qed.

(** What the users service has recorded of an entitlement. *)
Definition recorded (g : GoogleCloudPlatform) (ent : procurement.Entitlement) : GoogleCloudPlatform :=
  mkGCP (g_ID g) (procurement.AccountID ent) true (g_CreatedAt g) (procurement.UsageReportingID ent)
    (procurement.Name ent) (procurement.Plan ent) (procurement.State ent).

Lemma updateGCP_run h ent g : let a := procurement.AccountID ent in let g' := recorded g ent in
  ok (hook_db h) -> account (hook_db h) a = Some g ->
  exists d', updateGCP ent h = (Ret tt, with_db d' h) /\ ok d' /\
    (forall a', account d' a' = if decide (a' = a) then Some g' else account (hook_db h) a') /\
    (forall o', live d' o' <-> exists o, live (hook_db h) o /\ o' = refresh a g' o).
Proof.
  intros a g' Hd Hg.
  destruct (law_UpdateGCP (hook_db h) a g (procurement.UsageReportingID ent) (procurement.Name ent) (procurement.Plan ent)
    (procurement.State ent) Hd Hg) as (d' & Hc & Hok & Hacc & Hlive).
  exists d'. split; [|done]. apply users_call_run. unfold srv_UpdateGCP. by apply db_run.
Qed.

(** ** Synchronisation with an entitlement *)

Lemma refresh_attached a g o : g_ExternalAccountID g = a -> attached a (refresh a g o) <-> attached a o.
Proof.
  intros Hg. unfold attached, refresh. destruct (o_GCP o) as [g0|] eqn:Ho; [|by rewrite Ho].
  case_decide as He; [|by rewrite Ho]. simpl. split; intros _; eauto.
Qed.

Lemma refresh_on a g o : attached a o -> refresh a g o = set_GCP (Some g) o.
Proof. intros (g0 & Hg & He). unfold refresh. by rewrite Hg, decide_True. Qed.

Lemma refresh_ext a g o : o_ExternalID (refresh a g o) = o_ExternalID o.
Proof. unfold refresh. destruct (o_GCP o); [by case_decide|done]. Qed.

(** [d'] is [d] with the account [a] replaced by [g'] and with both flags of the organization
    [o] attached to it set to [v]. *)
Definition synced (v : bool) (a : string) (g' : GoogleCloudPlatform) (o : Organization) (d d' : S) : Prop :=
  ok d' /\
  (forall a', account d' a' = if decide (a' = a) then Some g' else account d a') /\
  (forall x, live d' x <-> x = set_GCP (Some g') (set_flags v o) \/ exists x0, live d x0 /\ x0 <> o /\ x = refresh a g' x0).

Lemma refresh_inj d a g x o : ok d -> live d x -> live d o -> refresh a g x = refresh a g o -> x = o.
Proof.
  intros Hd Hx Ho Heq. apply (live_unique d); [done..|].
  apply (f_equal o_ExternalID) in Heq. rewrite !refresh_ext in Heq. rewrite Heq. apply same_id_refl.
Qed.

(** [cancelEntitlement]: the flags first, then the account. *)
Lemma cancelEntitlement_run h ent g : let a := procurement.AccountID ent in
  ok (hook_db h) -> account (hook_db h) a = Some g -> a <> EmptyString -> (exists o, live (hook_db h) o /\ attached a o) ->
  exists o d', cancelEntitlement ent h = (Ret tt, with_db d' h) /\ live (hook_db h) o /\ attached a o /\
    synced true a (recorded g ent) o (hook_db h) d'.
Proof.
  intros a Hd Hg Ha Hex. destruct (setFlags_run h a true Hd Ha Hex) as (o & d1 & Hr1 & Ho & Hat & Hok1 & Hrep & Hacc1).
  destruct (updateGCP_run (with_db d1 h) ent g Hok1) as (d2 & Hr2 & Hok2 & Hacc2 & Hl2); [simpl; by rewrite Hacc1|].
  exists o, d2. split; [unfold cancelEntitlement, disableWeaveCloudAccess; fold a; by rewrite (bind_Ret _ _ _ _ _ Hr1)|].
  split; [done|]. split; [done|]. split; [done|]. split.
  - intros a'. rewrite Hacc2. simpl. by rewrite Hacc1.
  - intros x. rewrite Hl2. simpl. fold a. split.
    + intros (y & [->|[Hy Hne]]%Hrep & ->); [left|by right; exists y].
      apply refresh_on. destruct Hat as (g0 & Hg0 & He0). by exists g0.
    + intros [->|(y & Hy & Hne & ->)].
      * exists (set_flags true o). split; [apply Hrep; by left|]. symmetry. apply refresh_on.
        destruct Hat as (g0 & Hg0 & He0). by exists g0.
      * exists y. split; [apply Hrep; by right|done].
Qed.

(** [updateEntitlement]: the account first, then the flags. *)
Lemma updateEntitlement_run h ent g : let a := procurement.AccountID ent in
  ok (hook_db h) -> account (hook_db h) a = Some g -> a <> EmptyString -> (exists o, live (hook_db h) o /\ attached a o) ->
  exists o d', updateEntitlement ent h = (Ret tt, with_db d' h) /\ live (hook_db h) o /\ attached a o /\
    synced false a (recorded g ent) o (hook_db h) d'.
Proof.
  intros a Hd Hg Ha (o0 & Ho0 & Hat0).
  destruct (updateGCP_run h ent g Hd Hg) as (d1 & Hr1 & Hok1 & Hacc1 & Hl1). fold a in Hacc1, Hl1.
  destruct (setFlags_run (with_db d1 h) a false Hok1 Ha) as (o1 & d2 & Hr2 & Ho1 & Hat1 & Hok2 & Hrep & Hacc2).
  { exists (refresh a (recorded g ent) o0). split; [apply Hl1; by exists o0|by apply refresh_attached]. }
  apply Hl1 in Ho1 as (o & Ho & ->). apply refresh_attached in Hat1; [|done].
  exists o, d2. split; [unfold updateEntitlement, enableWeaveCloudAccess; rewrite (bind_Ret _ _ _ _ _ Hr1); fold a; by rewrite Hr2|].
  split; [done|]. split; [done|]. split; [done|]. split.
  - intros a'. rewrite Hacc2. apply Hacc1.
  - intros x. rewrite (Hrep x). simpl. rewrite (Hl1 x), (refresh_on a _ o Hat1). split.
    + intros [->|[(y & Hy & ->) Hne]]; [by left|right]. exists y. split; [done|]. split; [|done].
      intros ->. by rewrite (refresh_on a _ o Hat1) in Hne.
    + intros [->|(y & Hy & Hne & ->)]; [by left|right]. split; [by exists y|].
      rewrite <- (refresh_on a (recorded g ent) o Hat1). by intros ?%(refresh_inj (hook_db h)).
Qed.

(** ** Messages *)

Variable ProviderID : string.
Variable http_get : string -> procurement.Reply (option procurement.APIError * procurement.Entitlement).
Variable http_post : procurement.Post -> procurement.Reply (option procurement.APIError).
Variable Unmarshal : string -> error + event.Payload.

Abbreviation handle := (Handle ProviderID http_get http_post Unmarshal).

(** What the procurement API says of an entitlement: it exists, it does not, or the call fails. *)
Definition entitlement_of (payload : event.Payload) : outcome error (option procurement.Entitlement) :=
  (procurement.GetEntitlement http_get
     (procurement.ResourceName ProviderID "entitlements" (event.Entitlement_ID payload)) []).1.

Lemma GetEntitlement_run name log : procurement.GetEntitlement http_get name log = ((procurement.GetEntitlement http_get name []).1, log) /\
  definite (procurement.GetEntitlement http_get name []).1.
Proof.
  unfold procurement.GetEntitlement. destruct (procurement.decoded _ _) as [apierr ent]. by repeat case_match.
Qed.

(** The message is about the entitlement [ent] of the activated account [g]. *)
Definition about d (msg : Message) (payload : event.Payload) (ent : procurement.Entitlement) (g : GoogleCloudPlatform) : Prop :=
  Data msg <> EmptyString /\ Unmarshal (Data msg) = inr payload /\ event.Entitlement_ID payload <> EmptyString /\
  entitlement_of payload = Ret (Some ent) /\ account d (procurement.AccountID ent) = Some g /\ g_Activated g = true.

(** The message is one to acknowledge without doing anything. *)
Definition ignored d (msg : Message) : Prop :=
  Data msg = EmptyString \/
  exists payload, Unmarshal (Data msg) = inr payload /\
    (event.Entitlement_ID payload = EmptyString \/ entitlement_of payload = Ret None \/
     exists ent, entitlement_of payload = Ret (Some ent) /\
       match account d (procurement.AccountID ent) with None => True | Some g => g_Activated g = false end).

Lemma try_GetEntitlement h payload :
  try (procurement_call (procurement.GetEntitlement http_get
         (procurement.ResourceName ProviderID "entitlements" (event.Entitlement_ID payload)))) h
  = (match entitlement_of payload with
     | Ret r => Ret (inr r) | Err e => Ret (inl e) | Panic => Panic | Deadlock => Deadlock | OutOfFuel => OutOfFuel
     end, h).
Proof.
  unfold try, procurement_call, zoom, entitlement_of. destruct (GetEntitlement_run
    (procurement.ResourceName ProviderID "entitlements" (event.Entitlement_ID payload)) (hook_posts h)) as [-> _].
  by destruct h, (procurement.GetEntitlement _ _ _).1.
Qed.

Lemma try_GetGCP h a : ok (hook_db h) ->
  try (users_call (GetGCP a)) h
  = (Ret (match account (hook_db h) a with
          | Some g => inr g
          | None => inl (GRPCError 404 (format.Sprintf "not found"))
          end), h).
Proof.
  intros Hd. pose proof (law_FindGCP (hook_db h) a Hd) as Hc. apply db_reads in Hc. unfold try, users_call, zoom.
  unfold GetGCP. destruct (account (hook_db h) a) as [g|].
  - rewrite (Interceptor_Ret _ _ _ _ Hc). by destruct h.
  - rewrite (Interceptor_Err _ _ _ _ Hc). by destruct h.
Qed.

Lemma Handle_about h msg payload ent g : ok (hook_db h) -> about (hook_db h) msg payload ent g ->
  handle msg h = dispatch http_post (event.EventType payload) ent h.
Proof.
  intros Hd (Hdata & Hun & Hid & Hent & Hacc & Hact). unfold Handle. rewrite decide_False by done. rewrite Hun.
  rewrite decide_False by done. unfold bind at 1. rewrite try_GetEntitlement, Hent.
  unfold bind at 1. rewrite try_GetGCP by done. rewrite Hacc. simpl. by rewrite Hact.
Qed.

Lemma Handle_ignored h msg : ok (hook_db h) -> ignored (hook_db h) msg -> handle msg h = (Ret tt, h).
Proof.
  intros Hd Hig. unfold Handle. case_decide as Hdata; [done|].
  destruct Hig as [|(payload & -> & Hig)]; [done|]. case_decide as Hid; [done|].
  destruct Hig as [|[Hnone|(ent & Hent & Hacc)]]; [done| |].
  - unfold bind at 1. by rewrite try_GetEntitlement, Hnone.
  - unfold bind at 1. rewrite try_GetEntitlement, Hent. unfold bind at 1. rewrite try_GetGCP by done.
    destruct (account _ _) as [g|]; [|done]. simpl. by rewrite Hacc.
Qed.

(** The five events that ask for something, with the state the entitlement has to be in. *)
Definition expected_state (EventType : string) : option string :=
  if decide (EventType = event.CreationRequested) then Some procurement.ActivationRequested
  else if decide (EventType = event.PlanChangeRequested) then Some procurement.PendingPlanChangeApproval
  else if decide (EventType = event.Active) then Some procurement.Active
  else if decide (EventType = event.PlanChanged) then Some procurement.Active
  else if decide (EventType = event.Cancelled) then Some procurement.Cancelled
  else None.

Lemma dispatch_unexpected ty ent h : expected_state ty <> Some (procurement.State ent) -> dispatch http_post ty ent h = (Ret tt, h).
Proof.
  intros Hst. unfold dispatch, expected_state in *.
  destruct (decide (ty = event.CreationRequested)) as [->|]; [by rewrite decide_False by (intros Heq; apply Hst; by rewrite Heq)|].
  destruct (decide (ty = event.Active)) as [->|]; [by rewrite decide_False by (intros Heq; apply Hst; by rewrite Heq)|].
  destruct (decide (ty = event.PlanChangeRequested)) as [->|]; [by rewrite decide_False by (intros Heq; apply Hst; by rewrite Heq)|].
  destruct (decide (ty = event.PlanChanged)) as [->|]; [by rewrite decide_False by (intros Heq; apply Hst; by rewrite Heq)|].
  destruct (decide (ty = event.PlanChangeCancelled)) as [->|]; [done|].
  destruct (decide (ty = event.Cancelled)) as [->|]; [by rewrite decide_False by (intros Heq; apply Hst; by rewrite Heq)|done].
Qed.

(** C17: when the marketplace says an entitlement is cancelled, and it is, the organization of
    its account is cut off: both flags are set, the account is recorded as cancelled, and from
    then on a probe with the organization's token may neither read nor upload; no other
    account and no organization of another account changes, and nothing is posted. *)
Theorem Handle_cancels h msg payload ent g : let a := procurement.AccountID ent in
  ok (hook_db h) -> about (hook_db h) msg payload ent g ->
  event.EventType payload = event.Cancelled -> procurement.State ent = procurement.Cancelled ->
  a <> EmptyString -> (exists o, live (hook_db h) o /\ attached a o) ->
  exists o d', handle msg h = (Ret tt, with_db d' h) /\ live (hook_db h) o /\ attached a o /\
    synced true a (recorded g ent) o (hook_db h) d' /\
    (forall r, account d' a = Some r -> g_SubscriptionStatus r = "ENTITLEMENT_CANCELLED") /\
    forall u : Server S Report, srv_db u = d' ->
      LookupUsingToken (o_ProbeToken o) INSTANCE_DATA_UPLOAD u
      = (Err (ErrInstanceDataUploadDenied (o_ExternalID o) (o_RefuseDataReason o)), u) /\
      LookupUsingToken (o_ProbeToken o) INSTANCE_DATA_ACCESS u
      = (Err (ErrInstanceDataAccessDenied (o_ExternalID o) (o_RefuseDataReason o)), u).
Proof.
  intros a Hd Hab Hty Hst Ha Hex. pose proof Hab as (_ & _ & _ & _ & Hacc & _).
  destruct (cancelEntitlement_run h ent g Hd Hacc Ha Hex) as (o & d' & Hrun & Ho & Hat & Hsync).
  exists o, d'. split.
  { rewrite (Handle_about h msg payload ent g) by done. rewrite Hty. unfold dispatch. by rewrite Hst. }
  split; [done|]. split; [done|]. split; [done|]. destruct Hsync as (Hok & Hacc' & Hlive). split.
  { intros r. rewrite Hacc', decide_True by done. intros [= <-]. exact Hst. }
  intros u Hu. assert (Hl : live (srv_db u) (set_GCP (Some (recorded g ent)) (set_flags true o))) by (rewrite Hu; apply Hlive; by left).
  assert (Hoku : ok (srv_db u)) by (by rewrite Hu).
  split; [destruct (LookupUsingToken_run (o_ProbeToken o) INSTANCE_DATA_UPLOAD u Hoku) as [Hf _]
         |destruct (LookupUsingToken_run (o_ProbeToken o) INSTANCE_DATA_ACCESS u Hoku) as [Hf _]];
    exact (Hf _ Hl eq_refl).
Qed.

(** When an entitlement becomes active, or its plan has changed, and it is active, the
    account is recorded as active with its plan, and the organization is let in again: both
    flags are cleared, and a probe with its token may do anything. *)
Theorem Handle_activates h msg payload ent g : let a := procurement.AccountID ent in
  ok (hook_db h) -> about (hook_db h) msg payload ent g ->
  event.EventType payload = event.Active \/ event.EventType payload = event.PlanChanged ->
  procurement.State ent = procurement.Active ->
  a <> EmptyString -> (exists o, live (hook_db h) o /\ attached a o) ->
  exists o d', handle msg h = (Ret tt, with_db d' h) /\ live (hook_db h) o /\ attached a o /\
    synced false a (recorded g ent) o (hook_db h) d' /\
    (forall r, account d' a = Some r -> g_SubscriptionLevel r = procurement.Plan ent /\ g_SubscriptionStatus r = "ENTITLEMENT_ACTIVE") /\
    forall (u : Server S Report) action, srv_db u = d' ->
      LookupUsingToken (o_ProbeToken o) action u = (Ret (mkLookupUsingTokenResponse (o_ID o) (o_FeatureFlags o)), u).
Proof.
  intros a Hd Hab Hty Hst Ha Hex. pose proof Hab as (_ & _ & _ & _ & Hacc & _).
  destruct (updateEntitlement_run h ent g Hd Hacc Ha Hex) as (o & d' & Hrun & Ho & Hat & Hsync).
  exists o, d'. split.
  { rewrite (Handle_about h msg payload ent g) by done. unfold dispatch. rewrite Hst. by destruct Hty as [->| ->]. }
  split; [done|]. split; [done|]. split; [done|]. destruct Hsync as (Hok & Hacc' & Hlive). split.
  { intros r. rewrite Hacc', decide_True by done. intros [= <-]. by split. }
  intros u action Hu. assert (Hl : live (srv_db u) (set_GCP (Some (recorded g ent)) (set_flags false o))) by (rewrite Hu; apply Hlive; by left).
  destruct (LookupUsingToken_run (o_ProbeToken o) action u) as [Hf _]; [by rewrite Hu|].
  rewrite (Hf _ Hl eq_refl). unfold authorized. simpl. by rewrite !andb_false_r.
Qed.

(** Every other message leaves the users database alone. A message that is empty, not
    about an entitlement, or about an entitlement that is gone or whose account has not
    signed up or is not activated, is acknowledged and changes nothing, and so is one whose
    event does not fit the state of the entitlement. A request to approve is answered by one
    post that names the entitlement, and acknowledged only if that succeeds. A message that
    cannot be decoded, or whose entitlement cannot be fetched, is not acknowledged. *)
Theorem Handle_acknowledges h msg : ok (hook_db h) ->
  (ignored (hook_db h) msg -> handle msg h = (Ret tt, h)) /\
  (forall payload ent g, about (hook_db h) msg payload ent g ->
     expected_state (event.EventType payload) <> Some (procurement.State ent) -> handle msg h = (Ret tt, h)) /\
  (forall payload ent g, about (hook_db h) msg payload ent g ->
     event.EventType payload = event.CreationRequested -> procurement.State ent = procurement.ActivationRequested ->
     let p := (procurement.url (procurement.Name ent) "approve", []) in
     exists r, handle msg h = (r, mkHook (hook_users h) (hook_posts h ++ [p])) /\
       (r = Ret tt <-> procurement.parseJSON (http_post p) = None)) /\
  (forall payload ent g, about (hook_db h) msg payload ent g ->
     event.EventType payload = event.PlanChangeRequested -> procurement.State ent = procurement.PendingPlanChangeApproval ->
     let p := (procurement.url (procurement.Name ent) "approvePlanChange", [("pendingPlanName", procurement.NewPendingPlan ent)]) in
     exists r, handle msg h = (r, mkHook (hook_users h) (hook_posts h ++ [p])) /\
       (r = Ret tt <-> procurement.parseJSON (http_post p) = None)) /\
  (forall err, Data msg <> EmptyString -> Unmarshal (Data msg) = inl err -> handle msg h = (Err err, h)) /\
  (forall payload err, Data msg <> EmptyString -> Unmarshal (Data msg) = inr payload ->
     event.Entitlement_ID payload <> EmptyString -> entitlement_of payload = Err err -> exists e, handle msg h = (Err e, h)).
Proof.
  intros Hd. split; [by apply Handle_ignored|]. split.
  { intros payload ent g Hab Hst. rewrite (Handle_about h msg payload ent g) by done. by apply dispatch_unexpected. }
  assert (Hpost : forall u data, exists r, procurement_call (procurement.post http_post u data) h
     = (r, mkHook (hook_users h) (hook_posts h ++ [(u, data)])) /\ (r = Ret tt <-> procurement.parseJSON (http_post (u, data)) = None)).
  { intros u data. unfold procurement_call, zoom, procurement.post, bind, modify.
    destruct (procurement.parseJSON (http_post (u, data))) as [err|].
    - destruct (procurement.decoded None (http_post (u, data))); eexists; by split.
    - eexists; by split. }
  split.
  { intros payload ent g Hab Hty Hst p. rewrite (Handle_about h msg payload ent g) by done.
    unfold dispatch. rewrite Hty, Hst. apply Hpost. }
  split.
  { intros payload ent g Hab Hty Hst p. rewrite (Handle_about h msg payload ent g) by done.
    unfold dispatch. rewrite Hty, Hst. apply Hpost. }
  split.
  - intros err Hdata Hun. unfold Handle. rewrite decide_False by done. by rewrite Hun.
  - intros payload err Hdata Hun Hid Hent. unfold Handle. rewrite decide_False by done. rewrite Hun.
    rewrite decide_False by done. unfold bind at 1. rewrite try_GetEntitlement, Hent. by eexists.
Qed.

End entitlement.
