(* ===== verification/MemBilling.v ===== *)
(** The in-memory database keeps what billing relies on, so that the theorems of the billing
    enforcer and of the marketplace launcher hold of the services together. *)
From Stdlib Require Import ZArith Lia Ascii String Sorting.Sorted.
From stdpp Require Import base tactics option gmap strings list pretty relations.
From S2P Require Import Prelude GoStd Users Filter MemDB MemTeam MemOrg MemUser UsersDB MemInv MemSafety Sample MemDelete MemOrgSpec MemUserSpec Sessions UsersServer ServerSpec MemLawful UsersClient Calendar Trial Enforcer BillingSpec Entitlement EntitlementSpec.

Section billing.
Context `{GoRange} (fuel : nat) (bcrypt_generate : string -> Z -> error + string).

(** * Accounts *)

Definition memory_account (d : DB) (a : string) : option GoogleCloudPlatform :=
  gcpAccounts d !! a ≫= fun l => gcp_heap d !! l.

(** An account and its address. *)
Lemma memory_account_Some d a g : Inv d ->
  memory_account d a = Some g <-> exists l, gcpAccounts d !! a = Some l /\ gcp_heap d !! l = Some g.
Proof. intros _. unfold memory_account. rewrite bind_Some. done. Qed.

Lemma account_id d a l g : Inv d -> gcpAccounts d !! a = Some l -> gcp_heap d !! l = Some g -> g_ExternalAccountID g = a.
Proof. intros (_ & _ & _ & (_ & _ & _ & Ha & _)) Hl Hg. destruct (Ha _ _ Hl) as (g' & ? & ?). congruence. Qed.

Lemma account_address d l g : Inv d -> gcp_heap d !! l = Some g -> gcpAccounts d !! g_ExternalAccountID g = Some l.
Proof. intros (_ & _ & _ & (_ & _ & _ & _ & Hc)) Hg. by apply Hc. Qed.

(** The account of a loaded organization. *)
Lemma load_org_GCP d c g : o_GCP (load_org d c) = Some g <-> exists l, o_GCP c = Some l /\ gcp_heap d !! l = Some g.
Proof. unfold load_org, map_GCP. simpl. by rewrite bind_Some. Qed.

Lemma memory_FindGCP d a : Inv d -> mtx d = false ->
  FindGCP a d = (match memory_account d a with Some g => Ret g | None => Err ErrNotFound end, d).
Proof.
  intros Hd Hm. unfold FindGCP, memory_account. apply locked_reads; [done| | |].
  - unfold gcp_at, bind, get. simpl. destruct (gcpAccounts d !! a) as [l|] eqn:Ha; simpl; [|done].
    destruct Hd as (_ & _ & _ & (_ & _ & _ & Hacc & _)). destruct (Hacc _ _ Ha) as (g & Hg & _). by rewrite Hg.
  - by case_match.
  - by case_match.
Qed.

Lemma memory_UpdateGCP d a g c n lv st : Inv d -> mtx d = false -> memory_account d a = Some g ->
  let g' := mkGCP (g_ID g) a true (g_CreatedAt g) c n lv st in
  exists d', UpdateGCP a c n lv st d = (Ret tt, d') /\ (Inv d' /\ mtx d' = false) /\
    (forall a', memory_account d' a' = if decide (a' = a) then Some g' else memory_account d a') /\
    (forall o', memory_live d' o' <-> exists o, memory_live d o /\ o' = refresh a g' o).
Proof.
  intros Hd Hm Hacc g'. apply memory_account_Some in Hacc as (l & Ha & Hg); [|done].
  destruct (UpdateGCP_run a c n lv st d l g Hm Ha Hg) as (d' & Hrun & Hos & Hds & Hfind & Hload). fold g' in Hfind, Hload.
  assert (Hd' : Inv d').
  { pose proof (memory_preserves fuel bcrypt_generate _ (CallUpdateGCP a c n lv st) d Hd) as Hi.
    unfold memory in Hi. by rewrite Hrun in Hi. }
  assert (Hm' : mtx d' = false /\ gcpAccounts d' = gcpAccounts d /\ gcp_heap d' = <[l := g']> (gcp_heap d)).
  { unfold UpdateGCP, locked in Hrun. simpl in Hrun. rewrite Hm in Hrun. unfold gcp_at, bind, get in Hrun. simpl in Hrun.
    rewrite Ha in Hrun. simpl in Hrun. rewrite Hg in Hrun. simpl in Hrun. injection Hrun as <-. simpl.
    by rewrite (insert_id (gcpAccounts d)). }
  destruct Hm' as (Hm' & Hga & Hheap). exists d'. split; [done|]. split; [done|]. split.
  - intros a'. unfold memory_account. rewrite Hga, Hheap. case_decide as Hne.
    + subst a'. rewrite Ha. simpl. apply lookup_insert_eq.
    + destruct (gcpAccounts d !! a') as [l'|] eqn:Ha'; simpl; [|done]. apply lookup_insert_ne. intros <-.
      apply Hne. rewrite <- (account_id d a' l g); [|done..]. by apply (account_id d a l g).
  - assert (Hsame : forall x, load_org d' x = refresh a g' (load_org d x)).
    { intros x. rewrite Hload. unfold refresh. destruct (o_GCP (load_org d x)) as [g0|] eqn:Hg0.
      - apply load_org_GCP in Hg0 as (l0 & Hl0 & Hh0). rewrite Hl0. pose proof (account_address d l0 g0 Hd Hh0) as Haddr.
        pose proof (account_id d a l g Hd Ha Hg) as Hid.
        destruct (decide (g_ExternalAccountID g0 = a)) as [He|He].
        + rewrite decide_True; [done|]. congruence.
        + rewrite decide_False; [done|]. intros [= ->]. congruence.
      - rewrite decide_False; [done|]. intros Hl0. assert (o_GCP (load_org d x) = Some g); [|congruence].
        apply load_org_GCP. by exists l. }
    intros o'. unfold memory_live. rewrite Hos. split.
    + intros (k & x & Hk & ->). exists (load_org d x). split; [by exists k, x|]. apply Hsame.
    + intros (o & (k & x & Hk & ->) & ->). exists k, x. by rewrite Hsame.
Qed.

Lemma memory_FindByGCP d a :
  (exists o, FindOrganizationByGCPExternalAccountID a d = (Ret o, d) /\ memory_live d o /\ attached a o) \/
  (FindOrganizationByGCPExternalAccountID a d = (Err ErrNotFound, d) /\ forall o, memory_live d o -> ~ attached a o).
Proof.
  unfold FindOrganizationByGCPExternalAccountID, find_org, bind at 1, get.
  set (p := fun o : OrgCell => match o_GCP (load_org d o) with Some g => bool_decide (g_ExternalAccountID g = a) | None => false end).
  assert (Hp : forall c, p c = true <-> attached a (load_org d c)).
  { intros c. unfold p, attached. destruct (o_GCP (load_org d c)) as [g|]; [rewrite bool_decide_eq_true|]; naive_solver. }
  unfold bind, gets. destruct (first_match p (organizations d)) as [c|] eqn:Hf; simpl.
  - apply first_match_Some in Hf as (k & Hk & Hc%Hp). left. exists (load_org d c). split; [done|]. split; [by exists k, c|done].
  - right. split; [unfold p in Hf; simpl in Hf; by rewrite Hf|]. intros o (k & c & Hk & ->) Hat%Hp. rewrite first_match_None in Hf. by rewrite (Hf _ _ Hk) in Hat.
Qed.

(** * Flags and notices *)

Lemma memory_setOrg d o f F : Inv d -> mtx d = false -> memory_live d o -> keeps_org (fun c => (f c, None)) ->
  (forall d c, load_org d (f c) = F (load_org d c)) ->
  exists d', setOrg (o_ExternalID o) f d = (Ret tt, d') /\ (Inv d' /\ mtx d' = false) /\
    (forall x, memory_live d' x <-> x = F o \/ (memory_live d x /\ x <> o)) /\
    forall a, memory_account d' a = memory_account d a.
Proof.
  intros Hd Hm (k & c & Hk & ->) Hkeep HF. unfold setOrg.
  pose proof (preserves_setOrg (o_ExternalID c) f Hkeep d Hd) as Hinv. unfold setOrg in Hinv.
  unfold bind in *. simpl o_ExternalID in *.
  rewrite (changeOrg_run _ _ d k c) in Hinv |- * by (done || apply same_id_refl). simpl in *.
  eexists. split; [done|]. split; [done|]. split; [|done]. intros x. by apply memory_update.
Qed.

Lemma memory_notified d o p x : Inv d -> mtx d = false -> memory_live d o ->
  exists r d', UpdateOrganization (o_ExternalID o) (mkOrgWriteView None None None None None None p x) d = (r, d') /\
    definite r /\ (Inv d' /\ mtx d' = false) /\
    (forall y, memory_live d' y <-> y = notify p x o \/ (memory_live d y /\ y <> o)).
Proof.
  intros Hd Hm (k & c & Hk & ->). set (view := mkOrgWriteView None None None None None None p x).
  pose proof (preserves_UpdateOrganization (o_ExternalID c) view d Hd) as Hinv.
  assert (Hload : load_org d (apply_update view c) = notify p x (load_org d c)).
  { destruct p, x; by destruct c. }
  unfold UpdateOrganization in *. change (ow_Name view) with (@None string) in *. cbv iota zeta in *.
  pose proof (changeOrg_run (o_ExternalID c) (fun o => let o := apply_update view o in (o, Valid o)) d k c Hd Hm Hk
    (same_id_refl _)) as Hrun. cbv zeta in Hrun. cbn [fst snd] in Hrun.
  change (o_ExternalID (load_org d c)) with (o_ExternalID c).
  destruct (Valid (apply_update view c)) as [err|].
  - rewrite (bind_Err _ _ _ _ _ Hrun) in Hinv |- *. do 2 eexists. split; [reflexivity|]. split; [done|]. split; [done|].
    intros y. by apply memory_update.
  - rewrite (bind_Ret _ _ _ _ _ Hrun) in Hinv |- *. do 2 eexists. split; [reflexivity|]. split; [done|]. split; [done|].
    intros y. by apply memory_update.
Qed.

(** * The instance *)

#[export, program] Instance memory_billing : @BillingDB DB (memory fuel bcrypt_generate) (memory_lawful fuel bcrypt_generate) := {|
  account := memory_account;
|}.
Next Obligation.
  intros d o g [Hd _] (k & c & Hk & ->) Hg. apply load_org_GCP in Hg as (l & Hl & Hh).
  apply memory_account_Some; [done|]. exists l. split; [by apply account_address|done].
Qed.
Next Obligation. intros d a [Hd Hm]. by apply memory_FindGCP. Qed.
Next Obligation. intros d a g c n lv st [Hd Hm] Hacc. by apply memory_UpdateGCP. Qed.
Next Obligation. intros d a _. apply memory_FindByGCP. Qed.
Next Obligation. intros d o v [Hd Hm] Ho. by apply (memory_setOrg d o (set_RefuseDataAccess v) (set_RefuseDataAccess v)). Qed.
Next Obligation. intros d o v [Hd Hm] Ho. by apply (memory_setOrg d o (set_RefuseDataUpload v) (set_RefuseDataUpload v)). Qed.
Next Obligation.
  intros d o p x [Hd Hm] Ho. destruct (memory_notified d o p x Hd Hm Ho) as (r & d' & Hrun & Hr & Hd' & Hl).
  exists r, d'. split; [exact Hrun|]. split; [exact Hr|]. split; [exact Hd'|]. right. exact Hl.
Qed.
Next Obligation. by intros d t _. Qed.
Next Obligation. intros d e b b' [Hd Hm]. by apply ListOrganizationUsers_quiet. Qed.

End billing.

(** * The services together *)

Import sample.

Definition unpaid1 : DB := run (CallAddFeatureFlag "own-org-01" "billing") sample.d.
Definition unpaid2 : DB := run (CallSetOrganizationFirstSeenConnectedAt "own-org-01" (Some 3)) unpaid1.
Definition active : DB := run (CallUpdateGCP "E-ACCOUNT" "consumer" "subscription" "standard" "ENTITLEMENT_ACTIVE") unpaid2.

Lemma active_reachable : rtc (step fuel hash) d0 active.
Proof.
  transitivity sample.d; [exact reachable|].
  apply (rtc_l _ sample.d unpaid1), (rtc_l _ unpaid1 unpaid2), (rtc_l _ unpaid2 active), rtc_refl;
    unfold unpaid1, unpaid2, active; apply step_run.
Qed.

Lemma active_inv : Inv active.
Proof. exact (reachable_Inv _ _ _ _ _ active_reachable). Qed.

Lemma active_unlocked : mtx active = false.
Proof. vm_compute. reflexivity. Qed.

#[local] Instance sample_db : DBImpl DB := memory fuel hash.
#[local] Instance sample_lawful : LawfulDB DB := memory_lawful fuel hash.
#[local] Instance sample_billing : BillingDB DB := memory_billing fuel hash.

Definition service : Server DB string := mkServer active [] (fun n => time.Hour + Z.of_nat n) 0.

Lemma service_ok : ok (srv_db service).
Proof. exact (conj active_inv active_unlocked). Qed.

(** ** The enforcer *)

Definition late : time.Time := 8 * 24 * time.Hour.
Definition owing : OrgCell := match organizations active !! "0" with Some c => c | None => own end.

Lemma owing_live : live (srv_db service) (load_org active owing).
Proof.
  assert (H : organizations active !! "0" = Some owing) by (vm_compute; reflexivity).
  exists "0", owing. split; [exact H|reflexivity].
Qed.

Lemma owing_delinquent : delinquent late (load_org active owing) /\ IsOnboarded (load_org active owing) = true.
Proof. split; vm_compute; reflexivity. Qed.

Lemma ProcessDelinquentOrganizations_spec_witness :
  exists s', ProcessDelinquentOrganizations no_mail late service = (Ret tt, s') /\
    refused late (load_org active owing) (srv_db s').
Proof.
  destruct (ProcessDelinquentOrganizations_spec no_mail (3 * 24 * time.Hour) late service service_ok) as (s' & Hrun & Hall & _).
  exists s'. split; [exact Hrun|]. apply Hall; [exact owing_live|exact (proj1 owing_delinquent)|exact (proj2 owing_delinquent)].
Defined.

Lemma Do_spec_witness :
  exists s', Do no_mail (3 * 24 * time.Hour) late service = (Ret tt, s') /\
    refused late (load_org active owing) (srv_db s').
Proof.
  destruct (Do_spec no_mail (3 * 24 * time.Hour) late service service_ok) as (s1 & s' & _ & Hrun & _ & _ & Hall & _).
  exists s'. split; [exact Hrun|]. apply Hall; [exact owing_live|exact (proj1 owing_delinquent)|exact (proj2 owing_delinquent)].
Defined.

(** The service after one run, in which there is nothing left to do. *)
Definition enforced : Server DB string := (ProcessDelinquentOrganizations no_mail late service).2.

Lemma enforced_ok : ok (srv_db enforced).
Proof.
  destruct (ProcessDelinquent_run no_mail (3 * 24 * time.Hour) late service service_ok) as (s' & Hrun & Hadv & _).
  unfold enforced. rewrite Hrun. exact (advances_ok _ _ _ _ Hadv).
Qed.

Definition settled_cell (d : DB) (c : OrgCell) : Prop :=
  let o := load_org d c in
  delinquent late o -> IsOnboarded o = true ->
  o_RefuseDataAccess o = true /\ o_RefuseDataUpload o = true /\ is_Some (o_TrialExpiredNotifiedAt o).

#[local] Instance settled_cell_dec d c : Decision (settled_cell d c).
Proof. unfold settled_cell, delinquent. apply _. Defined.

Lemma enforced_settled : map_Forall (fun _ c => settled_cell (srv_db enforced) c) (organizations (srv_db enforced)).
Proof. apply (bool_decide_eq_true_1 _). vm_compute. reflexivity. Qed.

Lemma ProcessDelinquentOrganizations_idempotent_witness :
  length (outbox enforced) = 1%nat /\ ProcessDelinquentOrganizations no_mail late enforced = (Ret tt, enforced).
Proof.
  split; [vm_compute; reflexivity|].
  apply (ProcessDelinquentOrganizations_idempotent no_mail late enforced enforced_ok).
  intros o (k & c & Hk & ->) Hd Hon. destruct (enforced_settled k c Hk Hd Hon) as (Ha & Hu & Hn).
  split; [exact Ha|]. split; [intros _; exact Hu|exact Hn].
Defined.

(** ** The marketplace *)

Definition launched : OrgCell := match organizations active !! "2" with Some c => c | None => own end.
Definition subscribed : GoogleCloudPlatform :=
  mkGCP "0" "E-ACCOUNT" true 0 "consumer" "subscription" "standard" "ENTITLEMENT_ACTIVE".

Definition marketplace (state : string) (_ : string) : procurement.Reply (option procurement.APIError * procurement.Entitlement) :=
  procurement.Response 200 None (None,
    procurement.mkEntitlement "providers/p/entitlements/7" "providers/p/accounts/E-ACCOUNT" "p" "weave-cloud" "enterprise"
      state EmptyString 0 0 "usage" EmptyString).
Definition approve (_ : procurement.Post) : procurement.Reply (option procurement.APIError) := procurement.Response 200 None None.

(** Messages that hold the type of their event. *)
Definition decode (s : string) : error + event.Payload := inr (event.mkPayload "1" s "7" EmptyString EmptyString).

Definition hook : Hook DB string := mkHook service [].
Definition ent_in (state : string) : procurement.Entitlement :=
  procurement.mkEntitlement "providers/p/entitlements/7" "providers/p/accounts/E-ACCOUNT" "p" "weave-cloud" "enterprise"
    state EmptyString 0 0 "usage" EmptyString.

Lemma message_about ty state : ty <> EmptyString ->
  about "p" (marketplace state) decode active (mkMessage "m" ty) (event.mkPayload "1" ty "7" EmptyString EmptyString)
    (ent_in state) subscribed.
Proof.
  intros Hty. split; [exact Hty|]. split; [reflexivity|]. split; [discriminate|]. split; [reflexivity|].
  split; [vm_compute; reflexivity|reflexivity].
Qed.

Lemma launched_attached : exists o, live (hook_db hook) o /\ attached "E-ACCOUNT" o.
Proof.
  assert (H : organizations active !! "2" = Some launched) by (vm_compute; reflexivity).
  exists (load_org active launched). split; [exists "2", launched; split; [exact H|reflexivity]|].
  exists subscribed. split; [vm_compute; reflexivity|reflexivity].
Qed.

Lemma Handle_cancels_witness :
  exists (o : Organization) d', Handle "p" (marketplace procurement.Cancelled) approve decode (mkMessage "m" event.Cancelled) hook = (Ret tt, with_db d' hook) /\
    forall u : Server DB string, srv_db u = d' ->
      LookupUsingToken (o_ProbeToken o) INSTANCE_DATA_UPLOAD u
      = (Err (ErrInstanceDataUploadDenied (o_ExternalID o) (o_RefuseDataReason o)), u).
Proof.
  destruct (Handle_cancels "p" (marketplace procurement.Cancelled) approve decode hook (mkMessage "m" event.Cancelled)
    (event.mkPayload "1" event.Cancelled "7" EmptyString EmptyString) (ent_in procurement.Cancelled) subscribed
    service_ok (message_about event.Cancelled procurement.Cancelled ltac:(discriminate)) eq_refl eq_refl ltac:(discriminate)
    launched_attached) as (o & d' & Hrun & _ & _ & _ & _ & Hlook).
  exists o, d'. split; [exact Hrun|]. intros u Hu. apply (Hlook u Hu).
Defined.

Lemma Handle_activates_witness :
  exists (o : Organization) d', Handle "p" (marketplace procurement.Active) approve decode (mkMessage "m" event.PlanChanged) hook = (Ret tt, with_db d' hook) /\
    attached "E-ACCOUNT" o /\ forall r, account d' "E-ACCOUNT" = Some r -> g_SubscriptionLevel r = "enterprise".
Proof.
  destruct (Handle_activates "p" (marketplace procurement.Active) approve decode hook (mkMessage "m" event.PlanChanged)
    (event.mkPayload "1" event.PlanChanged "7" EmptyString EmptyString) (ent_in procurement.Active) subscribed
    service_ok (message_about event.PlanChanged procurement.Active ltac:(discriminate)) (or_intror eq_refl) eq_refl ltac:(discriminate)
    launched_attached) as (o & d' & Hrun & _ & Hat & _ & Hplan & _).
  exists o, d'. split; [exact Hrun|]. split; [exact Hat|]. intros r Hr. apply (Hplan r Hr).
Defined.

Lemma Handle_acknowledges_witness :
  Handle "p" (marketplace procurement.Suspended) approve decode (mkMessage "m" event.Active) hook = (Ret tt, hook).
Proof.
  destruct (Handle_acknowledges "p" (marketplace procurement.Suspended) approve decode hook (mkMessage "m" event.Active) service_ok)
    as (_ & Hmis & _).
  apply (Hmis _ _ _ (message_about event.Active procurement.Suspended ltac:(discriminate))). vm_compute. discriminate.
Defined.
