(* ===== verification/Api.v ===== *)
(** The HTTP API of the users service (users/api): what a handler runs in, how it answers,
    and who its caller is (api.go, auth.go, errors.go, common/render/errors.go,
    common/validation, users/tokens). *)
From Stdlib Require Import ZArith Lia Ascii String.
From stdpp Require Import base tactics option gmap strings list pretty.
From S2P Require Import Prelude GoStd Users Filter MemDB UsersDB Sessions UsersServer UsersClient Entitlement.

(** * Permissions (common/permission) *)

Module permission.
Definition InviteTeamMember : string := "team.member.invite".
Definition DeleteInstance : string := "instance.delete".
Definition UpdateBilling : string := "instance.billing.update".
Definition UpdateAlertingSettings : string := "alert.settings.update".
Definition UpdateTeamMemberRole : string := "team.member.update".
Definition RemoveTeamMember : string := "team.member.remove".
Definition ViewTeamMembers : string := "team.members.view".
Definition TransferInstance : string := "instance.transfer".
Definition CreateNotebook : string := "notebook.create".
Definition UpdateNotebook : string := "notebook.update".
Definition DeleteNotebook : string := "notebook.delete".
Definition OpenHostShell : string := "scope.host.exec".
Definition OpenContainerShell : string := "scope.container.exec".
Definition AttachToContainer : string := "scope.container.attach.out".
Definition UpdateReplicaCount : string := "scope.replicas.update".
Definition DeletePod : string := "scope.pod.delete".
Definition DeployImage : string := "flux.image.deploy".
Definition UpdateDeploymentPolicy : string := "flux.policy.update".
Definition UpdateNotificationSettings : string := "notification.settings.update".
Definition ViewToken : string := "instance.token.view".
Definition ViewPodLogs : string := "scope.pod.logs.view".
Definition PauseContainer : string := "scope.container.pause".
Definition RestartContainer : string := "scope.container.restart".
Definition StopContainer : string := "scope.container.stop".
Definition CreateWebhook : string := "instance.webhook.create".
Definition DeleteWebhook : string := "instance.webhook.delete".
End permission.

(** * Validation (common/validation) *)

Module validation.

Definition atom_char (c : ascii) : bool :=
  strings.is_lower c || strings.is_digit c
  || existsb (Ascii.eqb c) (list_ascii_of_string "!#$%&'*+/=?^_`{|}~-").
Definition label_end (c : ascii) : bool := strings.is_lower c || strings.is_digit c.
Definition label_char (c : ascii) : bool := label_end c || Ascii.eqb c "-"%char.

Fixpoint ends_with (p : ascii -> bool) (s : string) : bool :=
  match s with
  | EmptyString => false
  | String c EmptyString => p c
  | String _ s' => ends_with p s'
  end.

(** [[a-z0-9](?:[a-z0-9-]*[a-z0-9])?] *)
Definition is_label (s : string) : bool :=
  match s with
  | EmptyString => false
  | String c _ => label_end c && strings.all label_char s && ends_with label_end s
  end.
Definition is_atom (s : string) : bool := negb (bool_decide (s = EmptyString)) && strings.all atom_char s.

(** [ValidateEmail]: neither part of the pattern has an [@], so that the address is split at
    the first; the domain has at least two labels. *)
Definition ValidateEmail (email : string) : bool :=
  if (254 <? String.length email)%nat then false
  else match strings.cut "@"%char (strings.ToLower email) with
       | None => false
       | Some (local, domain) =>
           let labels := strings.Split domain "."%char in
           forallb is_atom (strings.Split local "."%char) && (2 <=? length labels)%nat && forallb is_label labels
       end.

(** [ValidateName] *)
Definition ValidateName (name : string) : bool := (String.length name <=? 100)%nat.

Example addresses :
  ValidateEmail "Firstname.Lastname@sub.domain-one.com" = true /\ ValidateEmail "a@b" = false
  /\ ValidateEmail "trailing@domain.com " = false /\ ValidateEmail "a..b@domain.com" = false
  /\ ValidateEmail "a@-domain.com" = false /\ ValidateEmail "1234567890@123.123.123.123" = true.
Proof. vm_compute. repeat split. Qed.

End validation.

(** * Tokens (users/tokens) *)

Module tokens.
Definition Prefix : string := "Scope-Probe token=".
Definition BearerPrefix : string := "Bearer ".

(** [ExtractToken]: the [Authorization] header, and what [BasicAuth] makes of it. *)
Definition ExtractToken (authHeader : string) (BasicAuth : option (string * string)) : option string :=
  if strings.HasPrefix authHeader Prefix then Some (strings.TrimPrefix authHeader Prefix)
  else if strings.HasPrefix authHeader BearerPrefix then Some (strings.TrimPrefix authHeader BearerPrefix)
  else snd <$> BasicAuth.
End tokens.

(** * What a handler runs in *)

(** The calls of other services whose answer is at most an error, in the order they are made. *)
Inductive Effect : Type :=
  | InviteUser (email inviter teamName : string)
  | PasswordlessLogin (email : string)
  | UpdateClaims (id name givenName familyName companyName session : string)
  | EnqueueOrgDeletedSync (orgExternalID : string)
  | EnforceWeeklyReporterJob
  | UserUpdated (email firstName lastName company : string)
  | UserCreated (email firstName lastName company : string) (createdAt : time.Time) (params : gmap string string)
  | UserAccess (email : string) (hitAt : time.Time)
  | SetTeamBillingAccountProvider (teamID provider : string).

(** The server with its database, its mail and its clock; the calls made so far; the source of
    random numbers; the cookies of the response. *)
Record Web (S Report : Type) : Type := mkWeb {
  web_srv : Server S Report;
  web_calls : list Effect;
  web_rand : nat -> Z;
  web_draws : nat;
  web_http : sessions.Response;
  web_posts : list procurement.Post;
}.
Arguments mkWeb {S Report}.
Arguments web_srv {S Report}.
Arguments web_calls {S Report}.
Arguments web_rand {S Report}.
Arguments web_draws {S Report}.
Arguments web_http {S Report}.
Arguments web_posts {S Report}.

Definition set_web_srv {S R} (v : Server S R) (w : Web S R) : Web S R :=
  mkWeb v (web_calls w) (web_rand w) (web_draws w) (web_http w) (web_posts w).
Definition set_web_http {S R} (v : sessions.Response) (w : Web S R) : Web S R :=
  mkWeb (web_srv w) (web_calls w) (web_rand w) (web_draws w) v (web_posts w).
Definition set_web_posts {S R} (v : list procurement.Post) (w : Web S R) : Web S R :=
  mkWeb (web_srv w) (web_calls w) (web_rand w) (web_draws w) (web_http w) v.
Definition web_db {S R} (w : Web S R) : S := srv_db (web_srv w).

(** A response: a status without a body, a status with a value rendered as JSON, a
    redirection, an error. *)
Inductive Reply (V : Type) : Type :=
  | Status (code : Z)
  | JSON (code : Z) (view : V)
  | Redirect (code : Z) (url : string)
  | ErrorReply (code : Z) (message : string) (email : option string).
Arguments Status {V}.
Arguments JSON {V}.
Arguments Redirect {V}.
Arguments ErrorReply {V}.

Definition code_of {V} (r : Reply V) : Z :=
  match r with Status c | JSON c _ | Redirect c _ | ErrorReply c _ _ => c end.

(** [Metadata()] *)
Definition Metadata (err : error) : option string :=
  match err with AlreadyAttachedError _ email => Some email | _ => None end.

(** [renderError], [render.Error]: the text of an internal error is not shown. *)
Definition renderError {V} (err : error) : Reply V :=
  let code := ErrorStatusCode err in
  if code =? 500 then ErrorReply code "An internal server error occurred" None
  else ErrorReply code (Error err) (Metadata err).

(** The body of a request: the value it decodes to, or the error of the decoder. *)
Definition Body (A : Type) : Type := string + A.

Section api.
Context {S Report : Type} `{DBImpl S}.
(** What the other services answer. *)
Variable answer : Effect -> option error.
(** The encoder of the session store, its decoder and its configuration. *)
Variables (encoder_Encode : time.Time -> sessions.Session -> error + string)
          (encoder_Decode : time.Time -> string -> error + sessions.Session).
(** [webhookTokens] *)
Variable webhookTokens : list string.

Abbreviation Api := (M (Web S Report) error).

Definition on_srv {A} (m : M (Server S Report) error A) : Api A := zoom web_srv set_web_srv m.
Definition on_http {A} (m : M sessions.Response error A) : Api A := zoom web_http set_web_http m.
Definition on_procurement {A} (m : M (list procurement.Post) error A) : Api A := zoom web_posts set_web_posts m.
Definition adb {A} (c : DBCall A) : Api A := on_srv (db c).

Definition perform (e : Effect) : Api unit :=
  modify (fun w => mkWeb (web_srv w) (web_calls w ++ [e]) (web_rand w) (web_draws w) (web_http w) (web_posts w)) ;;;
  match answer e with Some err => throw err | None => ret tt end.

(** The marketing queues never fail. *)
Definition queue (e : Effect) : Api unit :=
  modify (fun w => mkWeb (web_srv w) (web_calls w ++ [e]) (web_rand w) (web_draws w) (web_http w) (web_posts w)).

(** [rand.Intn(100)] *)
Definition Intn100 : Api Z := fun w =>
  (Ret (web_rand w (web_draws w) mod 100),
   mkWeb (web_srv w) (web_calls w) (web_rand w) (Datatypes.S (web_draws w)) (web_http w) (web_posts w)).

Definition decode {A} (body : Body A) : Api A :=
  match body with inl text => throw (MalformedInputError text) | inr a => ret a end.

(** A handler returns a response or stops at the first error it renders. *)
Definition serve {V} (handler : Api (Reply V)) : Api (Reply V) :=
  do r <- try handler;
  match r with inl err => ret (renderError err) | inr reply => ret reply end.

(** ** Callers (auth.go) *)

(** [cookieAuth], [probeTokenAuth] *)
Definition cookieAuth (cookies : list sessions.Cookie) : Api User :=
  do session <- on_http (sessions.Get encoder_Decode cookies);
  adb (CallFindUserByID (sessions.UserID session)).

Definition probeTokenAuth (authHeader : string) (BasicAuth : option (string * string)) : Api Organization :=
  match tokens.ExtractToken authHeader BasicAuth with
  | None => throw ErrInvalidAuthenticationData
  | Some token => adb (CallFindOrganizationByProbeToken token)
  end.

(** [authenticateUserVia], [authenticateInstanceVia]: the first strategy that recognizes the
    caller; without strategies, the error rendered is nil. *)
Fixpoint authenticateVia {A V} (err : option error) (strategies : list (Api A)) (handler : A -> Api (Reply V)) : Api (Reply V) :=
  match strategies with
  | [] =>
      do err <- deref err;
      ret (renderError (if decide (err = ErrNotFound) then ErrInvalidAuthenticationData else err))
  | s :: rest =>
      do r <- try s;
      match r with
      | inl err => authenticateVia (Some err) rest handler
      | inr auth => handler auth
      end
  end.

(** [authenticateUser], [authenticateProbe], [authenticateWebhook] *)
Definition authenticateUser {V} (handler : User -> Api (Reply V)) (cookies : list sessions.Cookie) : Api (Reply V) :=
  authenticateVia None [cookieAuth cookies] (fun u => serve (handler u)).
Definition authenticateProbe {V} (handler : Organization -> Api (Reply V))
    (authHeader : string) (BasicAuth : option (string * string)) : Api (Reply V) :=
  authenticateVia None [probeTokenAuth authHeader BasicAuth] (fun o => serve (handler o)).
Definition authenticateWebhook {V} (handler : Api (Reply V)) (token : string) : Api (Reply V) :=
  if bool_decide (token ∈ webhookTokens) then serve handler else ret (renderError ErrForbidden).

End api.
