(* ===== verification/ApiTeam.v ===== *)
(** The handlers of the users HTTP API about teams and their members (users/api/team.go). *)
From Stdlib Require Import ZArith Lia Ascii String.
From stdpp Require Import base tactics option gmap strings list pretty.
From S2P Require Import Prelude GoStd Users Filter MemDB UsersDB Sessions UsersServer UsersClient Api.

(** * Views *)

Record TeamView : Type := mkTeamView { tv_ExternalID : string; tv_Name : string; tv_RoleID : string }.
Record PermissionView : Type := mkPermissionView { pv_ID : string; pv_Name : string; pv_Description : string }.
Record RoleView : Type := mkRoleView {
  rv_ID : string; rv_Name : string; rv_Description : string; rv_Permissions : list PermissionView }.
Record InviteUserToTeamResponse : Type := mkInviteUserToTeamResponse { iv_Email : string; iv_RoleID : string }.

Section team.
Context {S Report : Type} `{DBImpl S}.
Variable answer : Effect -> option error.
Variable emailer : Mail Report -> option error.

Abbreviation Api := (M (Web S Report) error).

(** [userCanAccessTeam]: the teams of a user are pointers. *)
Fixpoint find_user_team (teams : list (option Team)) (teamExternalID : string) : Api Team :=
  match teams with
  | [] => throw ErrForbidden
  | t :: rest =>
      do t <- deref t;
      if decide (t_ExternalID t = teamExternalID) then ret t else find_user_team rest teamExternalID
  end.
Definition userCanAccessTeam (currentUser : User) (teamExternalID : string) : Api Team :=
  do teams <- adb (CallListTeamsForUserID (u_ID currentUser));
  find_user_team teams teamExternalID.

Definition RequireTeamPermission (userID teamExternalID permissionID : string) : Api unit :=
  on_srv (api_RequireTeamMemberPermissionTo userID teamExternalID permissionID).

(** [renderPermissions] *)
Fixpoint renderPermissions (permissions : list (option Permission)) : Api (list PermissionView) :=
  match permissions with
  | [] => ret []
  | p :: rest =>
      do p <- deref p;
      do view <- renderPermissions rest;
      ret (mkPermissionView (p_ID p) (p_Name p) (p_Description p) :: view)
  end.

(** [listRoles] *)
Definition listRoles : Api (Reply (list RoleView)) :=
  do roles <- adb CallListRoles;
  do view <- fold_m (fun view role =>
      do permissions <- adb (CallListPermissionsForRoleID (r_ID role));
      do permissions <- renderPermissions permissions;
      ret (view ++ [mkRoleView (r_ID role) (r_Name role) (r_Description role) permissions])) roles [];
  ret (JSON 200 view).

(** [listTeams] *)
Definition listTeams (currentUser : User) : Api (Reply (list TeamView)) :=
  do teams <- adb (CallListTeamsForUserID (u_ID currentUser));
  do view <- fold_m (fun view team =>
      do team <- deref team;
      do role <- adb (CallGetUserRoleInTeam (u_ID currentUser) (t_ID team));
      do role <- deref role;
      ret (view ++ [mkTeamView (t_ExternalID team) (t_Name team) (r_ID role)])) teams [];
  ret (JSON 200 view).

(** [deleteTeam] *)
Definition deleteTeam (currentUser : User) (teamExternalID : string) : Api (Reply unit) :=
  do team <- userCanAccessTeam currentUser teamExternalID;
  adb (CallDeleteTeam (t_ID team)) ;;;
  ret (Status 204).

(** [updateUserRoleInTeam] *)
Definition updateUserRoleInTeam (currentUser : User) (teamExternalID userEmail : string)
    (body : Body string) : Api (Reply unit) :=
  do team <- userCanAccessTeam currentUser teamExternalID;
  do user <- adb (CallFindUserByEmail userEmail);
  do RoleID <- decode body;
  if decide (userEmail = u_Email currentUser) then throw ErrForbidden
  else
    RequireTeamPermission (u_ID currentUser) teamExternalID permission.UpdateTeamMemberRole ;;;
    adb (CallUpdateUserRoleInTeam (u_ID user) (t_ID team) RoleID) ;;;
    ret (Status 204).

(** [listTeamPermissions] *)
Definition listTeamPermissions (currentUser : User) (teamExternalID userEmail : string) : Api (Reply (list PermissionView)) :=
  do team <- userCanAccessTeam currentUser teamExternalID;
  do user <- adb (CallFindUserByEmail userEmail);
  do role <- adb (CallGetUserRoleInTeam (u_ID user) (t_ID team));
  do role <- deref role;
  do permissions <- adb (CallListPermissionsForRoleID (r_ID role));
  do view <- renderPermissions permissions;
  ret (JSON 200 view).

(** [removeUserFromTeam] *)
Definition admins (members : list UserWithRole) : nat :=
  length (filter (fun m => r_ID (ur_Role m) = AdminRoleID) members).

Definition removeUserFromTeam (currentUser : User) (teamExternalID userEmail : string) : Api (Reply unit) :=
  do team <- userCanAccessTeam currentUser teamExternalID;
  do user <- adb (CallFindUserByEmail userEmail);
  do members <- adb (CallListTeamUsersWithRoles (t_ID team));
  if decide (length members = 1%nat) then throw ErrForbidden
  else
    do role <- adb (CallGetUserRoleInTeam (u_ID user) (t_ID team));
    do role <- deref role;
    if decide (r_ID role = AdminRoleID /\ admins members = 1%nat) then throw ErrForbidden
    else
      (if decide (userEmail = u_Email currentUser) then ret tt
       else RequireTeamPermission (u_ID currentUser) teamExternalID permission.RemoveTeamMember) ;;;
      adb (CallRemoveUserFromTeam (u_ID user) (t_ID team)) ;;;
      ret (JSON 200 tt).

(** [inviteUserToTeam]: whatever fails once the invitation is stored is an internal error. *)
Definition send_invitation (currentUser invitee : User) (created : bool) (email teamExternalID teamName : string) : Api unit :=
  if created then perform answer (InviteUser email (u_Email currentUser) teamName)
  else on_srv (send emailer (GrantAccessToTeamEmail currentUser invitee teamExternalID teamName)).

Definition inviteUserToTeam (currentUser : User) (teamExternalID : string)
    (body : Body InviteUserToTeamResponse) : Api (Reply InviteUserToTeamResponse) :=
  do resp <- decode body;
  let email := strings.TrimSpace (iv_Email resp) in
  if decide (email = EmptyString \/ validation.ValidateEmail email = false) then throw ErrEmailIsInvalid
  else
    let roleID := strings.TrimSpace (iv_RoleID resp) in
    let roleID := if decide (roleID = EmptyString) then DefaultRoleID else roleID in
    do team <- userCanAccessTeam currentUser teamExternalID;
    RequireTeamPermission (u_ID currentUser) teamExternalID permission.InviteTeamMember ;;;
    do ' (invitee, created) <- adb (CallInviteUserToTeam email teamExternalID roleID);
    do r <- try (send_invitation currentUser invitee created email teamExternalID (t_Name team));
    match r with
    | inl err => throw (ErrMsg ("cannot send invite email: " +:+ Error err))
    | inr _ => ret (JSON 200 (mkInviteUserToTeamResponse (iv_Email resp) roleID))
    end.

End team.
