(* ===== verification/ApiOrg.v ===== *)
(** The handlers of the users HTTP API about organizations and their webhooks
    (users/api/org.go, webhooks.go), with the random enabler of billing
    (common/featureflag/randomenabler.go). *)
From Stdlib Require Import ZArith Lia Ascii String.
From stdpp Require Import base tactics option gmap strings list pretty.
From S2P Require Import Prelude GoStd Users Filter MemDB MemUser UsersDB Sessions UsersServer UsersClient Api ApiTeam.

(** * Views *)

Record OrgView : Type := mkOrgView {
  ov_User : string;
  ov_ExternalID : string;
  ov_Name : string;
  ov_ProbeToken : string;
  ov_FeatureFlags : list string;
  ov_RefuseDataAccess : bool;
  ov_RefuseDataUpload : bool;
  ov_FirstSeenConnectedAt : option time.Time;
  ov_Platform : string;
  ov_PlatformVersion : string;
  ov_Environment : string;
  ov_TrialExpiresAt : time.Time;
  ov_ZuoraAccountNumber : string;
  ov_ZuoraAccountCreatedAt : option time.Time;
  ov_BillingProvider : string;
  ov_TeamExternalID : string;
  ov_TeamName : string;
}.

Record organizationUserView : Type := mkOrganizationUserView { uv_Email : string; uv_Self : bool; uv_RoleID : string }.
Record orgLookupView : Type := mkOrgLookupView { olv_Name : string; olv_ExternalID : string }.

Definition errTeamIdentifierRequired : error :=
  MalformedInputError "either teamId or teamName needs to be provided but not both".

(** [provider.External] (common/billing/provider) *)
Definition External : string := "external".

(** Integration types (common/constants/webhooks) *)
Definition DockerHubIntegrationType : string := "dockerhub.push".
Definition QuayIntegrationType : string := "quay.push".

Section org.
Context {S Report : Type} `{DBImpl S} `{GoRange}.
Variable answer : Effect -> option error.
Variable emailer : Mail Report -> option error.
Variable forceFeatureFlags : list string.
(** The billing service: the provider of a team's billing account. *)
Variable FindBillingAccountByTeamID : string -> error + string.
(** [RandomEnabler.percentage], and whether the users-sync client is configured. *)
Variable percentage : Z.
Variable usersSyncClient : bool.

Abbreviation Api := (M (Web S Report) error).

Definition RequireOrgPermission (userID orgExternalID permissionID : string) : Api unit :=
  on_srv (api_RequireOrgMemberPermissionTo userID orgExternalID permissionID).

Definition api_Now : Api time.Time := on_srv srv_Now.

(** [IsEnabled] *)
Definition IsEnabled : Api bool := do n <- Intn100; ret (n <? percentage).

(** ** Looking up *)

(** [createOrgView]: the probe token is shown to those who may see it. *)
Definition createOrgView (currentUser : User) (org : Organization) : Api OrgView :=
  do r <- try (RequireOrgPermission (u_ID currentUser) (o_ExternalID org) permission.ViewToken);
  let probeToken := match r with inr _ => o_ProbeToken org | inl _ => EmptyString end in
  ret (mkOrgView (u_Email currentUser) (o_ExternalID org) (o_Name org) probeToken
         (o_FeatureFlags org ++ forceFeatureFlags) (o_RefuseDataAccess org) (o_RefuseDataUpload org)
         (o_FirstSeenConnectedAt org) (o_Platform org) (o_PlatformVersion org) (o_Environment org)
         (o_TrialExpiresAt org) EmptyString None (BillingProvider org) (o_TeamExternalID org) EmptyString).

(** [org] *)
Definition get_org (currentUser : User) (orgExternalID : string) : Api (Reply OrgView) :=
  do organizations <- adb (CallListOrganizationsForUserIDs [u_ID currentUser]);
  match List.find (fun org : Organization => bool_decide (o_ExternalID org = strings.ToLower orgExternalID)) organizations with
  | Some org =>
      do view <- createOrgView currentUser org;
      ret (JSON 200 view)
  | None =>
      do exists_ <- adb (CallOrganizationExists orgExternalID);
      if exists_ : bool then ret (Status 403) else throw ErrNotFound
  end.

(** [generateOrgExternalID] *)
Definition generateOrgExternalID : Api (Reply OrgView) :=
  do externalID <- adb CallGenerateOrganizationExternalID;
  ret (JSON 200 (mkOrgView EmptyString externalID externalID EmptyString [] false false None EmptyString
                   EmptyString EmptyString 0 EmptyString None EmptyString EmptyString EmptyString)).

(** [verifyTeamParams] *)
Definition verifyTeamParams (teamExternalID teamName : string) : option error :=
  if decide ((teamExternalID = EmptyString /\ teamName = EmptyString) \/ (teamExternalID <> EmptyString /\ teamName <> EmptyString))
  then Some errTeamIdentifierRequired else None.

Definition verify (e : option error) : Api unit := match e with Some err => throw err | None => ret tt end.

(** [CreateOrg], [createOrg]: creating organizations is disabled. *)
Definition CreateOrg (view : OrgView) : Api unit :=
  verify (verifyTeamParams (ov_TeamExternalID view) (ov_TeamName view)) ;;;
  throw (ErrMsg "Attaching new clusters has been disabled").

Definition createOrg (body : Body OrgView) : Api (Reply unit) :=
  do view <- decode body;
  do r <- try (CreateOrg view);
  match r with
  | inl err => if decide (err = ErrOrgTokenIsTaken) then ret (Status 500) else throw err
  | inr _ => ret (Status 201)
  end.

(** [userCanAccessOrg] *)
Definition userCanAccessOrg (currentUser : User) (orgExternalID : string) : Api unit :=
  do isMember <- adb (CallUserIsMemberOf (u_ID currentUser) orgExternalID);
  if isMember : bool then ret tt
  else
    do exists_ <- adb (CallOrganizationExists orgExternalID);
    if exists_ : bool then throw ErrForbidden else throw ErrNotFound.

(** ** Restrictions of billing *)

(** [refreshOrganizationRestrictions]: what is added and what is cleared, decided by the
    account of the team, by the enabler, and by the address of the user. *)
Definition Flags : Type := gmap string bool.
Definition flags (l : list string) : Flags := list_to_map ((fun f => (f, true)) <$> l).
Definition flag_set (m : Flags) (f : string) : bool := default false (m !! f).

Definition ignored {A} (m : Api A) : Api unit := do r <- try m; ret tt.

Definition billed_externally (org : Organization) : Api (Flags * Flags) :=
  if decide (o_TeamID org = EmptyString) then ret (∅, ∅)
  else match FindBillingAccountByTeamID (o_TeamID org) with
       | inl err => throw err
       | inr Provider =>
           if decide (Provider = External) then
             (if o_RefuseDataAccess org
              then ignored (adb (CallSetOrganizationRefuseDataAccess (o_ExternalID org) false)) else ret tt) ;;;
             (if o_RefuseDataUpload org
              then ignored (adb (CallSetOrganizationRefuseDataUpload (o_ExternalID org) false)) else ret tt) ;;;
             ret (flags [featureflag.NoBilling], flags [featureflag.Billing])
           else ret (∅, ∅)
       end.

Definition restrictions (currentUser : User) (org : Organization) : Api (Flags * Flags) :=
  do ' (addFlags, clearFlags) <- billed_externally org;
  do ' (addFlags, clearFlags) <-
    (if decide (addFlags = ∅) then
       do enabled <- IsEnabled;
       ret (if enabled : bool then (flags [featureflag.Billing], flags [featureflag.NoBilling]) else (addFlags, clearFlags))
     else ret (addFlags, clearFlags));
  ret (if strings.HasSuffix (u_Email currentUser) "@weave.works"
       then (flags [featureflag.NoBilling; featureflag.WeaveworksInternal], flags [featureflag.Billing])
       else (addFlags, clearFlags)).

Definition new_flags (org : Organization) (addFlags clearFlags : Flags) : list string :=
  filter (fun f => flag_set clearFlags f = false /\ flag_set addFlags f = false) (o_FeatureFlags org)
  ++ (go_range addFlags).*1.

Definition refreshOrganizationRestrictions (currentUser : User) (org : Organization) (now : time.Time) : Api unit :=
  do ' (addFlags, clearFlags) <- restrictions currentUser org;
  do org <-
    (if decide (addFlags = ∅) then ret org
     else
       let ff := new_flags org addFlags clearFlags in
       adb (CallSetFeatureFlags (o_ExternalID org) ff) ;;;
       ret (set_FeatureFlags ff org));
  do access <- deref (orgs.ShouldRefuseDataAccess org now);
  (if access : bool then ignored (adb (CallSetOrganizationRefuseDataAccess (o_ExternalID org) true)) else ret tt) ;;;
  do upload <- deref (orgs.ShouldRefuseDataUpload org now);
  (if upload : bool then ignored (adb (CallSetOrganizationRefuseDataUpload (o_ExternalID org) true)) else ret tt).

(** ** Moving and updating *)

Definition billing_provider (teamID : string) : Api string :=
  match FindBillingAccountByTeamID teamID with inl err => throw err | inr p => ret p end.

(** [MoveOrg] *)
Definition MoveOrg (currentUser : User) (org : Organization) (teamExternalID teamName : string) : Api unit :=
  (if decide (teamExternalID = EmptyString) then ret tt
   else userCanAccessTeam currentUser teamExternalID ;;; ret tt) ;;;
  verify (verifyTeamParams teamExternalID teamName) ;;;
  adb (CallMoveOrganizationToTeam (o_ExternalID org) teamExternalID teamName (u_ID currentUser)) ;;;
  do neworg <- adb (CallFindOrganizationByID (o_ExternalID org));
  do bacc <- billing_provider (o_TeamID org);
  do newbacc <- billing_provider (o_TeamID neworg);
  if decide (bacc = newbacc) then ret tt
  else do now <- api_Now; refreshOrganizationRestrictions currentUser neworg now.

(** [updateOrg] *)
Definition ptostr (p : option string) : string := default EmptyString p.

Definition transfer (currentUser : User) (org : Organization) (newTeamExternalID newTeamName : string) : Api unit :=
  RequireTeamPermission (u_ID currentUser) (o_TeamExternalID org) permission.TransferInstance ;;;
  (if decide (newTeamExternalID = EmptyString) then ret tt
   else RequireTeamPermission (u_ID currentUser) newTeamExternalID permission.TransferInstance) ;;;
  MoveOrg currentUser org newTeamExternalID newTeamName.

Definition updateOrg (currentUser : User) (orgExternalID : string) (body : Body OrgWriteView) : Api (Reply unit) :=
  do update <- decode body;
  userCanAccessOrg currentUser orgExternalID ;;;
  do org <- adb (CallUpdateOrganization orgExternalID update);
  (if decide (ow_TeamExternalID update = None /\ ow_TeamName update = None) then ret tt
   else transfer currentUser org (ptostr (ow_TeamExternalID update)) (ptostr (ow_TeamName update))) ;;;
  ret (Status 204).

(** [deleteOrg]: instances bought on the marketplace are cancelled there. *)
Definition deleteOrg (currentUser : User) (orgExternalID : string) : Api (Reply unit) :=
  do r <- try (adb (CallFindOrganizationByID orgExternalID));
  match r with
  | inl err => if decide (err = ErrNotFound) then ret (Status 404) else throw err
  | inr org =>
      do isMember <- adb (CallUserIsMemberOf (u_ID currentUser) orgExternalID);
      if negb isMember then ret (Status 403)
      else match o_GCP org with
      | Some _ => ret (Status 403)
      | None =>
          RequireOrgPermission (u_ID currentUser) orgExternalID permission.DeleteInstance ;;;
          adb (CallDeleteOrganization orgExternalID (u_ID currentUser)) ;;;
          (if usersSyncClient then ignored (perform answer (EnqueueOrgDeletedSync orgExternalID)) else ret tt) ;;;
          ret (Status 204)
      end
  end.

(** ** Members and permissions *)

(** [listOrgPermissions] *)
Definition listOrgPermissions (currentUser : User) (orgExternalID userEmail : string) : Api (Reply (list PermissionView)) :=
  userCanAccessOrg currentUser orgExternalID ;;;
  do org <- adb (CallFindOrganizationByID orgExternalID);
  do user <- adb (CallFindUserByEmail userEmail);
  do role <- adb (CallGetUserRoleInTeam (u_ID user) (o_TeamID org));
  do role <- deref role;
  do permissions <- adb (CallListPermissionsForRoleID (r_ID role));
  do view <- renderPermissions permissions;
  ret (JSON 200 view).

(** [listOrganizationUsers] *)
Definition index_members (teamMembers : list UserWithRole) : gmap string UserWithRole :=
  foldl (fun index u => <[u_ID (ur_User u) := u]> index) ∅ teamMembers.

Definition user_view (currentUser : User) (index : gmap string UserWithRole) (u : User) : organizationUserView :=
  mkOrganizationUserView (u_Email u) (bool_decide (u_ID u = u_ID currentUser))
    (match index !! u_ID u with Some m => r_ID (ur_Role m) | None => EmptyString end).

Definition api_listOrganizationUsers (currentUser : User) (orgExternalID : string) : Api (Reply (list organizationUserView)) :=
  userCanAccessOrg currentUser orgExternalID ;;;
  do us <- adb (CallListOrganizationUsers orgExternalID false false);
  do org <- adb (CallFindOrganizationByID orgExternalID);
  RequireOrgPermission (u_ID currentUser) orgExternalID permission.ViewTeamMembers ;;;
  do teamMembers <- adb (CallListTeamUsersWithRoles (o_TeamID org));
  ret (JSON 200 (user_view currentUser (index_members teamMembers) <$> us)).

(** ** Feature flags and trials *)

(** [enablingOrgFeatureFlag]: the organization that gains the flag. *)
Definition enablingOrgFeatureFlag (orgExternalID : string) (uniqueFlags : gmap string unit) (flag : string) : Api (option Organization) :=
  if decide (is_Some (uniqueFlags !! flag)) then
    do org <- adb (CallFindOrganizationByID orgExternalID);
    ret (if o_HasFeatureFlag org flag then None else Some org)
  else ret None.

(** [extendOrgTrialPeriod] *)
Definition extendOrgTrialPeriod (org : Organization) (t : time.Time) (sendmail : bool) : Api unit :=
  if negb (time.After (time.Truncate t (24 * time.Hour)) (o_TrialExpiresAt org)) then ret tt
  else
    adb (CallUpdateOrganization (o_ExternalID org) (mkOrgWriteView None None None (Some t) None None None (Some 0))) ;;;
    adb (CallSetOrganizationRefuseDataAccess (o_ExternalID org) false) ;;;
    adb (CallSetOrganizationRefuseDataUpload (o_ExternalID org) false) ;;;
    if sendmail then
      do members <- adb (CallListOrganizationUsers (o_ExternalID org) false false);
      on_srv (send emailer (TrialExtendedEmail members (o_ExternalID org) (o_Name org) t))
    else ret tt.

(** [setOrgFeatureFlags]: the flags without repetitions, sorted. *)
Definition unique (fs : list string) : gmap string unit := foldl (fun m f => <[f := tt]> m) ∅ fs.
Definition sort_Strings (l : list string) : list string := sort.Sort String.ltb l.

Definition setOrgFeatureFlags (orgExternalID : string) (fs : list string) : Api unit :=
  let sortedFlags := sort_Strings (go_range (unique fs)).*1 in
  do enablingBilling <- enablingOrgFeatureFlag orgExternalID (unique fs) featureflag.Billing;
  adb (CallSetFeatureFlags orgExternalID sortedFlags) ;;;
  match enablingBilling with
  | Some org =>
      do now <- api_Now;
      extendOrgTrialPeriod org (time.Add now TrialExtensionDuration) true
  | None => ret tt
  end.

(** ** Handlers for probes *)

(** [orgLookup], [orgPlatformVersionUpdate] *)
Definition orgLookup (org : Organization) : Api (Reply orgLookupView) :=
  ret (JSON 200 (mkOrgLookupView (o_Name org) (o_ExternalID org))).

Definition orgPlatformVersionUpdate (org : Organization) (body : Body string) : Api (Reply unit) :=
  do PlatformVersion <- decode body;
  adb (CallSetOrganizationPlatformVersion (o_ExternalID org) PlatformVersion) ;;;
  ret (Status 204).

(** ** Webhooks (webhooks.go) *)

(** [listOrganizationWebhooks], [createOrganizationWebhook], [deleteOrganizationWebhook] *)
Definition listOrganizationWebhooks (currentUser : User) (orgExternalID : string) : Api (Reply (list Webhook)) :=
  userCanAccessOrg currentUser orgExternalID ;;;
  do webhooks <- adb (CallListOrganizationWebhooks orgExternalID);
  ret (JSON 200 webhooks).

Definition createOrganizationWebhook (currentUser : User) (orgExternalID : string) (body : Body string) : Api (Reply Webhook) :=
  userCanAccessOrg currentUser orgExternalID ;;;
  RequireOrgPermission (u_ID currentUser) orgExternalID permission.CreateWebhook ;;;
  do IntegrationType <- decode body;
  if decide (IntegrationType ∈ [GithubPushIntegrationType; DockerHubIntegrationType; QuayIntegrationType]) then
    do webhook <- adb (CallCreateOrganizationWebhook orgExternalID IntegrationType);
    ret (JSON 201 webhook)
  else throw (MalformedInputError "Invalid integration type").

Definition deleteOrganizationWebhook (currentUser : User) (orgExternalID secretID : string) : Api (Reply unit) :=
  userCanAccessOrg currentUser orgExternalID ;;;
  RequireOrgPermission (u_ID currentUser) orgExternalID permission.DeleteWebhook ;;;
  adb (CallDeleteOrganizationWebhook orgExternalID secretID) ;;;
  ret (Status 204).

End org.
