(* ===== verification/ApiUser.v ===== *)
(** The handlers of the users HTTP API about the caller: profile, logging in and out, and
    subscribing through the Google Cloud Marketplace (users/api/user.go, login.go, gcp.go). *)
From Stdlib Require Import ZArith Lia Ascii String.
From stdpp Require Import base tactics option gmap strings list pretty.
From S2P Require Import Prelude GoStd Users Filter MemDB UsersDB Sessions UsersServer UsersClient Calendar Entitlement Api ApiTeam ApiOrg Formats.

(** * Views *)

Record UserResponse : Type := mkUserResponse {
  usr_Email : string; usr_Name : string; usr_FirstName : string; usr_LastName : string; usr_Company : string }.

(** [login.Claims] (users/login/login.go) *)
Record Claims : Type := mkClaims {
  cl_ID : string; cl_Nickname : string; cl_Email : string; cl_Verified : bool; cl_Name : string;
  cl_GivenName : string; cl_FamilyName : string; cl_CompanyName : string }.

Record attachLoginProviderView : Type := mkAttachView {
  al_FirstLogin : bool; al_UserCreated : bool; al_Attach : bool; al_Email : string;
  al_MunchkinHash : string; al_QueryParams : gmap string string }.

Record EmailLoginRequest : Type := mkEmailLoginRequest { el_Email : string }.
Record EmailLoginResponse : Type := mkEmailLoginResponse { er_Email : string }.

Record publicLookupView : Type := mkPublicLookupView {
  pl_Email : string; pl_Name : string; pl_FirstName : string; pl_LastName : string; pl_Company : string;
  pl_FirstLoginAt : string; pl_Organizations : list OrgView; pl_MunchkinHash : string }.

(** [formatTimestamp] (users/user.go), with [time.RFC3339] for instants in UTC. *)
Definition formatTimestamp (t : time.Time) : string := if time.IsZero t then EmptyString else RFC3339 t.

Example formatted : formatTimestamp (civil.Date 2018 4 9 + (13 * 3600 + 5 * 60 + 7) * time.Second) = "2018-04-09T13:05:07Z".
Proof. vm_compute. reflexivity. Qed.

(** [testingExternalAccountID] *)
Definition testingExternalAccountID : string := "E-8A9F-4E2B-32D7-AC96".
Definition ErrAlreadyActivated : error := ErrMsg "account has already been activated".

(** [validateNames] *)
Definition validateNames (name first last company : string) : option error :=
  if negb (validation.ValidateName name) then Some (ValidationError "Please provide a valid name")
  else if negb (validation.ValidateName first) then Some (ValidationError "Please provide a valid first name")
  else if negb (validation.ValidateName last) then Some (ValidationError "Please provide a valid last name")
  else if negb (validation.ValidateName company) then Some (ValidationError "Please provide a valid company name")
  else None.

(** [getNameFromClaims] *)
Definition getNameFromClaims (claims : Claims) : string * string :=
  if decide (cl_GivenName claims <> EmptyString \/ cl_FamilyName claims <> EmptyString)
  then (cl_GivenName claims, cl_FamilyName claims)
  else match strings.cut " "%char (cl_Name claims) with
       | Some names => names
       | None => (EmptyString, EmptyString)
       end.

Section user.
Context {S Report : Type} `{DBImpl S} `{GoRange}.
Variable answer : Effect -> option error.
Variable forceFeatureFlags : list string.
(** The session store. *)
Variables (encoder_Encode : time.Time -> sessions.Session -> error + string)
          (encoder_Decode : time.Time -> string -> error + sessions.Session)
          (secure : bool) (domain : string).
(** [bluemonday.StrictPolicy().Sanitize] and [hex(sha1(.))]. *)
Variables (stripHTML sha1_hex : string -> string).
Variable marketoMunchkinKey : string.
(** [createAdminUsers], for development only. *)
Variable createAdminUsers : bool.
(** The login provider: where to log in with a connection, and where to log out. *)
Variables (LoginURL : string -> string) (LogoutURL : string).
(** [gcp.ParseJWT]: the account a marketplace token is for. *)
Variable ParseJWT : string -> error + string.
(** The procurement API. *)
Variable ProviderID : string.
Variable http_list : string -> procurement.Reply (option procurement.APIError * list procurement.Entitlement).
Variable http_post : procurement.Post -> procurement.Reply (option procurement.APIError).

Abbreviation Api := (M (Web S Report) error).

Definition Sessions_Get (cookies : list sessions.Cookie) : Api sessions.Session :=
  on_http (sessions.Get encoder_Decode cookies).
Definition Sessions_Set (cookies : list sessions.Cookie) (provider loginID userID impersonatingUserID : string) : Api unit :=
  on_http (sessions.Set_ encoder_Encode secure domain cookies provider loginID userID impersonatingUserID).

(** ** Profile (user.go) *)

(** [getCurrentUser] *)
Definition getCurrentUser (currentUser : User) : Api (Reply UserResponse) :=
  ret (JSON 200 (mkUserResponse (u_Email currentUser) (u_Name currentUser) (u_FirstName currentUser)
                   (u_LastName currentUser) (u_Company currentUser))).

(** [updateUser]: the body decodes to a pointer, nil for [null]. Names are those of the
    claims, which are empty unless the session was opened with an e-mail login. *)
Definition cleaned (s : string) : string := strings.TrimSpace (stripHTML s).

Definition updateUser (cookies : list sessions.Cookie) (currentUser : User) (body : Body (option UserUpdate)) : Api (Reply UserResponse) :=
  do update <- decode body;
  do update <- deref update;
  verify (validateNames (uu_Name update) (uu_FirstName update) (uu_LastName update) (uu_Company update)) ;;;
  do r <- try (Sessions_Get cookies);
  let session := match r with inr s => s | inl _ => sessions.mkSession EmptyString EmptyString EmptyString 0 EmptyString end in
  do l <- adb (CallGetLogin (sessions.Provider session) (sessions.LoginID session));
  let update := mkUserUpdate (cleaned (uu_Name update)) (cleaned (uu_FirstName update))
                  (cleaned (uu_LastName update)) (cleaned (uu_Company update)) in
  let builtin s := if decide (sessions.Provider session = "email") then s else EmptyString in
  perform answer (UpdateClaims (sessions.LoginID session) (builtin (uu_Name update)) (builtin (uu_FirstName update))
                    (builtin (uu_LastName update)) (uu_Company update) (l_Session l)) ;;;
  adb (CallUpdateUser (u_ID currentUser) update) ;;;
  queue (UserUpdated EmptyString (builtin (uu_FirstName update)) (builtin (uu_LastName update)) (uu_Company update)) ;;;
  ret (JSON 200 (mkUserResponse EmptyString (builtin (uu_Name update)) (builtin (uu_FirstName update))
                   (builtin (uu_LastName update)) (uu_Company update))).

(** ** Logging in (login.go) *)

(** [MunchkinHash], [UpdateUserAtLogin] *)
Definition MunchkinHash (email : string) : string := sha1_hex (marketoMunchkinKey +:+ email).
Definition UpdateUserAtLogin (u : User) : Api unit := adb (CallSetUserLastLoginAt (u_ID u)).

(** The search for an existing user: the first attempt that does not answer [ErrNotFound]. *)
Fixpoint first_user (attempts : list (Api User)) : Api (option User) :=
  match attempts with
  | [] => ret None
  | f :: rest =>
      do r <- try f;
      match r with
      | inr u => ret (Some u)
      | inl err => if decide (err = ErrNotFound) then first_user rest else throw ErrInvalidAuthenticationData
      end
  end.

Definition by_session (r : error + sessions.Session) : Api User :=
  match r with
  | inr session => adb (CallFindUserByID (sessions.UserID session))
  | inl err => throw (if decide (err = ErrInvalidAuthenticationData) then ErrNotFound else err)
  end.

Definition by_old_id (providerID id : string) : Api User :=
  match strings.cut "|"%char id with
  | Some (_, oldID) => adb (CallFindUserByLogin providerID oldID)
  | None => throw ErrNotFound
  end.

(** [if err != nil { renderError(ErrInvalidAuthenticationData) }] *)
Definition or_invalid {A} (m : Api A) : Api A :=
  do r <- try m;
  match r with inl _ => throw ErrInvalidAuthenticationData | inr a => ret a end.

Definition create_from_claims (claims : Claims) (extraState : gmap string string) : Api User :=
  let '(givenName, familyName) := getNameFromClaims claims in
  do u <- or_invalid (adb (CallCreateUser (cl_Email claims)
            (Some (mkUserUpdate (cl_Name claims) givenName familyName (cl_CompanyName claims)))));
  queue (UserCreated (u_Email u) (u_FirstName u) (u_LastName u) (u_Company u) (u_CreatedAt u) extraState) ;;;
  ret u.

(** A login attached to another account is moved only when the request forces it. *)
Definition attach_login (u : User) (providerID loginID session : string) (force : bool) : Api unit :=
  do r <- try (adb (CallAddLoginToUser (u_ID u) providerID loginID session));
  match r with
  | inr _ => ret tt
  | inl (AlreadyAttachedError existing email) =>
      if negb force then throw (AlreadyAttachedError existing email)
      else
        or_invalid (adb (CallDetachLoginFromUser existing providerID)) ;;;
        or_invalid (adb (CallAddLoginToUser (u_ID u) providerID loginID session))
  | inl _ => throw ErrInvalidAuthenticationData
  end.

(** [attachLoginProvider]; [login] is what the provider makes of the request. *)
Definition attachLoginProvider (cookies : list sessions.Cookie) (provider : string) (force : bool)
    (login : error + (Claims * string * gmap string string)) : Api (Reply attachLoginProviderView) :=
  match login with
  | inl err => throw err
  | inr (claims, authSession, extraState) =>
      let connectionName := default EmptyString (extraState !! "connection") in
      let extraState := delete "connection" extraState in
      if decide (cl_Email claims = EmptyString \/ validation.ValidateEmail (cl_Email claims) = false)
      then throw ErrInvalidAuthenticationData
      else
        let providerID := if decide (provider = "auth0") then connectionName else provider in
        do session <- try (Sessions_Get cookies);
        do found <- first_user
          [ by_session session;
            adb (CallFindUserByLogin providerID (cl_ID claims));
            by_old_id providerID (cl_ID claims);
            adb (CallFindUserByEmail (cl_Email claims)) ];
        do u <- match found with
                | None => create_from_claims claims extraState
                | Some u => do now <- api_Now; queue (UserAccess (u_Email u) now) ;;; ret u
                end;
        attach_login u providerID (cl_ID claims) authSession force ;;;
        UpdateUserAtLogin u ;;;
        or_invalid (Sessions_Set cookies providerID (cl_ID claims) (u_ID u) EmptyString) ;;;
        ret (JSON 200 (mkAttachView (time.IsZero (u_FirstLoginAt u)) (filter.is_nil found)
               (match session with inr _ => true | inl _ => false end) (cl_Email claims)
               (MunchkinHash (cl_Email claims)) extraState))
  end.

(** [detachLoginProvider] *)
Definition detachLoginProvider (currentUser : User) (provider : string) : Api (Reply unit) :=
  adb (CallDetachLoginFromUser (u_ID currentUser) provider) ;;;
  ret (Status 204).

(** [makeLocalTestUser]; creating its organization fails, as everywhere. *)
Definition makeLocalTestUser (email instanceID instanceName token teamName : string) : Api User :=
  do r <- try (adb (CallFindUserByEmail email));
  match r with
  | inr u => ret u
  | inl _ =>
      do user <- adb (CallCreateUser email (Some (mkUserUpdate "Testy McTestface" "Testy" "McTestface" "Acme Inc.")));
      UpdateUserAtLogin user ;;;
      adb (CallSetUserAdmin (u_ID user) true) ;;;
      do now <- api_Now;
      CreateOrg (mkOrgView EmptyString instanceID instanceName token [] false false None EmptyString EmptyString
                   EmptyString (u_TrialExpiresAt user) EmptyString None EmptyString EmptyString teamName) ;;;
      adb (CallSetOrganizationFirstSeenConnectedAt instanceID (Some now)) ;;;
      ret user
  end.

(** [EmailLogin], [emailLogin] *)
Definition EmailLogin (req : EmailLoginRequest) : Api EmailLoginResponse :=
  if decide (el_Email req = EmptyString) then throw (ValidationError "Email cannot be blank")
  else
    let email := strings.TrimSpace (el_Email req) in
    if negb (validation.ValidateEmail email) then throw (ValidationError "Please provide a valid email")
    else
      do r <- try (perform answer (PasswordlessLogin email));
      match r with
      | inl err => throw (ErrMsg ("Error sending login email: " +:+ Error err))
      | inr _ => ret (mkEmailLoginResponse email)
      end.

Definition emailLogin (cookies : list sessions.Cookie) (body : Body EmailLoginRequest) : Api (Reply EmailLoginResponse) :=
  do input <- decode body;
  if createAdminUsers then
    do u <- makeLocalTestUser (el_Email input) "local-test" "Local Test Instance" "local-test-token" "Local Team";
    try (Sessions_Set cookies "dummy" (el_Email input) (u_ID u) EmptyString) ;;;
    ret (JSON 200 (mkEmailLoginResponse (el_Email input)))
  else
    do resp <- EmailLogin input;
    ret (JSON 200 resp).

(** [verify]: redirects to the login page a caller without a session, or with one of another
    connection than the one asked for. *)
Definition verify_login (cookies : list sessions.Cookie) (connection next code : string) : Api (Reply unit) :=
  let connection := if decide (code <> EmptyString /\ connection = EmptyString) then "email" else connection in
  let '(loginURL, returnURL) :=
    if decide (connection <> EmptyString) then (LoginURL connection, next)
    else if decide (next <> EmptyString) then ("/login?next=" +:+ url.QueryEscape next, next)
    else ("/login", "/") in
  do r <- try (Sessions_Get cookies);
  ret (Redirect 303
    match r with
    | inl _ => loginURL
    | inr session =>
        if decide (sessions.UserID session = EmptyString) then loginURL
        else if decide (connection <> EmptyString /\ connection <> sessions.Provider session) then loginURL
        else returnURL
    end).

(** [logout] *)
Definition logout (cookies : list sessions.Cookie) : Api (Reply unit) :=
  on_http (sessions.Clear secure domain cookies) ;;;
  ret (Redirect 303 LogoutURL).

(** [publicLookup] *)
Definition publicLookup (currentUser : User) : Api (Reply publicLookupView) :=
  do organizations <- adb (CallListOrganizationsForUserIDs [u_ID currentUser]);
  do views <- fold_m (fun views org =>
      do view <- createOrgView forceFeatureFlags currentUser org; ret (views ++ [view])) organizations [];
  ret (JSON 200 (mkPublicLookupView (u_Email currentUser) (u_Name currentUser) (u_FirstName currentUser)
         (u_LastName currentUser) (u_Company currentUser) (formatTimestamp (u_FirstLoginAt currentUser))
         views (MunchkinHash (u_Email currentUser)))).

(** ** The marketplace (gcp.go) *)

(** [GCPSSOLogin], [gcpSSOLogin] *)
Definition GCPSSOLogin (currentUser : User) (externalAccountID : string) : Api Organization :=
  do org <- adb (CallFindOrganizationByGCPExternalAccountID externalAccountID);
  do ok <- adb (CallUserIsMemberOf (u_ID currentUser) (o_ExternalID org));
  if ok : bool then ret org
  else
    adb (CallInviteUserToTeam (u_Email currentUser) (o_TeamExternalID org) DefaultRoleID) ;;;
    ret org.

Definition gcpSSOLogin (currentUser : User) (token : string) : Api (Reply Organization) :=
  match ParseJWT token with
  | inl err => throw err
  | inr Subject => do org <- GCPSSOLogin currentUser Subject; ret (JSON 200 org)
  end.

(** [findTestEntitlement], [getPendingEntitlement]: without any entitlement, the test account
    indexes an empty slice. *)
Definition with_state (s : string) (ents : list procurement.Entitlement) : option procurement.Entitlement :=
  List.find (fun e => bool_decide (procurement.State e = s)) ents.

Definition findTestEntitlement (ents : list procurement.Entitlement) : Api procurement.Entitlement :=
  match with_state procurement.Active ents with Some e => ret e | None => deref (head ents) end.

Definition getPendingEntitlement (externalAccountID : string) : Api procurement.Entitlement :=
  do r <- try (on_procurement (procurement.ListEntitlements ProviderID http_list externalAccountID));
  match r with
  | inl err => throw (Wrap err "cannot list entitlements")
  | inr ents =>
      match with_state procurement.ActivationRequested ents with
      | Some e => ret e
      | None =>
          if decide (externalAccountID = testingExternalAccountID) then findTestEntitlement ents
          else throw (MalformedInputError "no pending entitlement found")
      end
  end.

(** [GCPSubscribe], [gcpSubscribe] *)
Definition find_or_create_org (currentUser : User) (externalAccountID : string) : Api Organization :=
  do r <- try (adb (CallFindOrganizationByGCPExternalAccountID externalAccountID));
  match r with
  | inr org => ret org
  | inl err =>
      if decide (err = ErrNotFound)
      then adb (CallCreateOrganizationWithGCP (u_ID currentUser) externalAccountID (u_TrialExpiresAt currentUser))
      else throw err
  end.

Definition GCPSubscribe (currentUser : User) (externalAccountID : string) : Api Organization :=
  do ent <- getPendingEntitlement externalAccountID;
  do org <- find_or_create_org currentUser externalAccountID;
  (if decide (externalAccountID = testingExternalAccountID) then ret tt
   else
     do gcp <- deref (o_GCP org);
     if g_Activated gcp then throw ErrAlreadyActivated
     else
       on_procurement (procurement.ApproveAccount ProviderID http_post externalAccountID) ;;;
       on_procurement (procurement.ApproveEntitlement http_post (procurement.Name ent))) ;;;
  adb (CallUpdateGCP externalAccountID (procurement.UsageReportingID ent) (procurement.Name ent)
         (procurement.Plan ent) procurement.Active) ;;;
  ret org.

Definition gcpSubscribe (currentUser : User) (token : string) : Api (Reply Organization) :=
  match ParseJWT token with
  | inl err => throw err
  | inr Subject => do org <- GCPSubscribe currentUser Subject; ret (JSON 200 org)
  end.

End user.
