(* ===== verification/ApiAdmin.v ===== *)
(** The admin interface of the users service (users/api/admin.go). HTML pages are the data
    their templates are given. *)
From Stdlib Require Import ZArith Lia Ascii String.
From stdpp Require Import base tactics option gmap strings list pretty.
From S2P Require Import Prelude GoStd Users Filter MemDB UsersDB Sessions UsersServer UsersClient Calendar Entitlement Api ApiTeam ApiOrg ApiUser.

(** * Views *)

Record privateUserView : Type := mkPrivateUserView {
  pu_ID : string; pu_Email : string; pu_CreatedAt : string; pu_FirstLoginAt : string; pu_LastLoginAt : string; pu_Admin : bool }.

(** [list_users.html], in its two uses, or the JSON list *)
Inductive UsersPage : Type :=
  | UsersJSON (us : list privateUserView)
  | UsersHTML (us : list User) (page nextPage : Z)
  | OrgUsersHTML (us : list User) (roles : list Role) (orgExternalID : string).

(** [list_organizations.html], [list_teams.html] *)
Record OrgsPage : Type := mkOrgsPage {
  op_Organizations : list Organization;
  op_OrganizationUsers : gmap string (list User);
  op_MoreUsersCount : gmap string Z;
  op_Page : option Z;
  op_UserEmail : option string }.
Record TeamsPage : Type := mkTeamsPage { tp_Teams : list (Team * string); tp_Page : Z }.

(** * Sorting the lists *)

(** [getSortableColumns] *)
Definition getSortableColumns : list (string * string) :=
  [ ("ID", "organizations.id::int"); ("Name", "organizations.name"); ("Team", "teams.external_id");
    ("CreatedAt", "organizations.created_at");
    ("LastSentWeeklyReportAt", "organizations.last_sent_weekly_report_at");
    ("DeletedAt", "organizations.deleted_at"); ("Platform", "organizations.platform");
    ("PlatformVersion",
     "nullif(string_to_array(substring(organizations.platform_version from '^(??:v)([0-9.]+)'), '.')::int[],'{}')");
    ("TrialRemaining", "organizations.trial_expires_at") ].
Definition column (id : string) : string :=
  match List.find (fun c => bool_decide (c.1 = id)) getSortableColumns with Some c => c.2 | None => EmptyString end.

(** [parseSortParams], [getOrderClause] *)
Definition parseSortParams (sortBy sortAscending : string) : string * bool :=
  (if decide (sortBy <> EmptyString /\ column sortBy <> EmptyString) then sortBy else "CreatedAt",
   negb (bool_decide (sortAscending = EmptyString))).
Definition getOrderClause (sortBy : string) (sortAscending : bool) : string :=
  column sortBy +:+ " " +:+ (if sortAscending then "asc" else "desc") +:+ " nulls last".

(** Whatever a request asks to sort by, what reaches the text of the query is an expression
    of the fixed table of columns followed by one of two directions. *)
Theorem getOrderClause_column sortBy asc :
  exists id col, (id, col) ∈ getSortableColumns /\
    getOrderClause (parseSortParams sortBy asc).1 (parseSortParams sortBy asc).2
    = col +:+ (if decide (asc = EmptyString) then " desc nulls last" else " asc nulls last").
Proof.
  unfold parseSortParams. simpl.
  assert (Hcol : exists id col, (id, col) ∈ getSortableColumns /\
    column (if decide (sortBy <> EmptyString /\ column sortBy <> EmptyString) then sortBy else "CreatedAt") = col).
  { case_decide as Hs; [|exists "CreatedAt"; eexists; split; [by do 3 right; left|reflexivity]].
    destruct Hs as [_ Hs]. unfold column in *.
    destruct (List.find _ getSortableColumns) as [[id col]|] eqn:Hf; [|done].
    apply List.find_some in Hf as [Hin _]. exists id, col. split; [by apply list_elem_of_In|done]. }
  destruct Hcol as (id & col & Hin & Hcol). exists id, col. split; [done|].
  unfold getOrderClause. rewrite Hcol. clear. destruct (decide (asc = EmptyString)) as [->|Ha]; [done|].
  by rewrite bool_decide_eq_false_2.
Qed.

Section admin.
Context {S Report : Type} `{DBImpl S} `{GoRange}.
Variable answer : Effect -> option error.
Variable emailer : Mail Report -> option error.
Variable GenerateReport : Organization -> time.Time -> error + Report.
Variables (encoder_Encode : time.Time -> sessions.Session -> error + string)
          (encoder_Decode : time.Time -> string -> error + sessions.Session)
          (secure : bool) (domain : string).
Variable FindBillingAccountByTeamID : string -> error + string.
(** [a.logins.GetAccessToken] *)
Variable GetAccessToken : string -> error + string.
(** [redirectWithMessage]: the address of the page the request came from, with a message. *)
Variable redirect_to : string -> string.

Abbreviation Api := (M (Web S Report) error).

(** ** Lists *)

(** [adminListUsers] *)
Definition private_view (u : User) : privateUserView :=
  mkPrivateUserView (u_ID u) (u_Email u) (formatTimestamp (u_CreatedAt u)) (formatTimestamp (u_FirstLoginAt u))
    (formatTimestamp (u_LastLoginAt u)) (u_Admin u).

(** [render.Format] *)
Definition Format (Accept : string) : string :=
  match List.find (fun f => bool_decide (Accept = f) || strings.HasPrefix Accept f)
          ["text/html"; "application/json"; "text/plain"] with
  | Some f => f
  | None => "text/html"
  end.

Definition adminListUsers (Accept page query : string) : Api (Reply UsersPage) :=
  let page := filter.ParsePageValue page in
  do us <- adb (CallListUsers (filter.And [filter.ParseUserQuery query]) page);
  ret (JSON 200 (if decide (Format Accept = "application/json") then UsersJSON (private_view <$> us)
                 else UsersHTML us page (page + 1))).

(** [adminListUsersForOrganization] *)
Definition adminListUsersForOrganization (orgID : string) : Api (Reply UsersPage) :=
  do org <- adb (CallFindOrganizationByID orgID);
  do usersRoles <- adb (CallListTeamUsersWithRoles (o_TeamID org));
  ret (JSON 200 (OrgUsersHTML (ur_User <$> usersRoles) (ur_Role <$> usersRoles) orgID)).

(** [GetOrganizationsUsers]: of more than [limit] users, one less is shown. *)
Definition shown (limit : nat) (us : list User) : list User * Z :=
  if (limit <? length us)%nat then (take (limit - 1) us, Z.of_nat (length us - (limit - 1))) else (us, 0).

Definition GetOrganizationsUsers (organizations : list Organization) (limit : nat) : Api (gmap string (list User) * gmap string Z) :=
  fold_m (fun '(orgUsers, moreUsersCount) (org : Organization) =>
      do us <- adb (CallListOrganizationUsers (o_ExternalID org) true false);
      let '(us, more) := shown limit us in
      ret (<[o_ExternalID org := us]> orgUsers, <[o_ExternalID org := more]> moreUsersCount))
    organizations (∅, ∅).

(** [adminListOrganizations], [adminListOrganizationsForUser] *)
Definition adminListOrganizations (page query sortBy sortAscending : string) : Api (Reply OrgsPage) :=
  let page := filter.ParsePageValue page in
  let '(sortBy, sortAscending) := parseSortParams sortBy sortAscending in
  do organizations <- adb (CallListAllOrganizations (filter.ParseOrgQuery query) (getOrderClause sortBy sortAscending) page);
  do ' (orgUsers, moreUsersCount) <- GetOrganizationsUsers organizations 3;
  ret (JSON 200 (mkOrgsPage organizations orgUsers moreUsersCount (Some page) None)).

Definition adminListOrganizationsForUser (userID sortBy sortAscending : string) : Api (Reply OrgsPage) :=
  do user <- adb (CallFindUserByID userID);
  let '(sortBy, sortAscending) := parseSortParams sortBy sortAscending in
  do organizations <- adb (CallListAllOrganizationsForUserIDs (getOrderClause sortBy sortAscending) [userID]);
  do ' (orgUsers, moreUsersCount) <- GetOrganizationsUsers organizations 3;
  ret (JSON 200 (mkOrgsPage organizations orgUsers moreUsersCount None (Some (u_Email user)))).

(** [adminTeamViews], [adminListTeams] *)
Definition adminTeamViews (teams : list Team) : Api (list (Team * string)) :=
  fold_m (fun views t =>
      match FindBillingAccountByTeamID (t_ID t) with
      | inl err => throw (Wrap err "finding billing account info")
      | inr Provider => ret (views ++ [(t, Provider)])
      end) teams [].

Definition adminListTeams (page query : string) : Api (Reply TeamsPage) :=
  let page := filter.ParsePageValue page in
  do teams <- adb (CallListAllTeams (filter.ParseTeamQuery query) EmptyString page);
  do teamViews <- adminTeamViews teams;
  ret (JSON 200 (mkTeamsPage teamViews page)).

(** ** Changing organizations *)

Definition redirectWithMessage {V} (msg : string) : Reply V := Redirect 302 (redirect_to msg).

(** [adminChangeTeamBilling]: any failure is a 404. *)
Definition adminChangeTeamBilling (teamID provider : string) : Api (Reply unit) :=
  do r <- try (perform answer (SetTeamBillingAccountProvider teamID provider));
  match r with
  | inl _ => throw ErrNotFound
  | inr _ => ret (redirectWithMessage ("Updated billing provider to " +:+ quote.Quote provider +:+ " for team " +:+ teamID))
  end.

(** [setOrganizationField], [adminChangeOrgFields] *)
Definition setOrganizationField (orgExternalID field value : string) : Api unit :=
  let deny := bool_decide (value = "on") in
  if decide (field = "FirstSeenConnectedAt") then
    do now <- api_Now;
    adb (CallSetOrganizationFirstSeenConnectedAt orgExternalID (Some now))
  else if decide (field = orgs.RefuseDataAccess) then adb (CallSetOrganizationRefuseDataAccess orgExternalID deny)
  else if decide (field = orgs.RefuseDataUpload) then adb (CallSetOrganizationRefuseDataUpload orgExternalID deny)
  else if decide (field = "RefuseDataReason") then adb (CallSetOrganizationRefuseDataReason orgExternalID value)
  else if decide (field = "FeatureFlags") then setOrgFeatureFlags emailer orgExternalID (strings.Fields value)
  else throw (ValidationError ("Invalid field " +:+ field)).

Definition multi_fields : list string := ["FeatureFlags"; orgs.RefuseDataAccess; orgs.RefuseDataUpload; "RefuseDataReason"].

Definition adminChangeOrgFields (orgExternalID : string) (form : string -> string) : Api (Reply unit) :=
  (if decide (form "field" <> EmptyString) then setOrganizationField orgExternalID (form "field") (form "value")
   else
     do errs <- fold_m (fun errs field =>
         do r <- try (setOrganizationField orgExternalID field (form field));
         ret (match r with inl err => errs ++ [Error err] | inr _ => errs end)) multi_fields [];
     if decide (errs = []) then ret tt else throw (ErrMsg (strings.Join errs "; "))) ;;;
  ret (redirectWithMessage ("Saved config for " +:+ orgExternalID)).

(** [adminTrial]: the number of days is multiplied as a 64-bit duration. *)
Definition adminTrial (orgExternalID remaining email : string) : Api (Reply unit) :=
  match strconv.Atoi remaining with
  | inl reason => throw (ErrMsg ("strconv.Atoi: parsing " +:+ quote.Quote remaining +:+ ": " +:+ reason))
  | inr remaining =>
      do org <- adb (CallFindOrganizationByID orgExternalID);
      do now <- api_Now;
      extendOrgTrialPeriod emailer org (time.Add now (i64_wrap (i64_wrap (remaining * 24) * time.Hour)))
        (bool_decide (email = "on")) ;;;
      ret (redirectWithMessage ("Extended trial to " +:+ pretty remaining +:+ " remaining days for " +:+ orgExternalID))
  end.

(** The user an admin acts as; without a session the handler returns and the response is an
    empty 200. *)
Definition acting (cookies : list sessions.Cookie) (k : sessions.Session -> Api (Reply unit)) : Api (Reply unit) :=
  do r <- try (Sessions_Get encoder_Decode cookies);
  match r with inl _ => ret (Status 200) | inr session => k session end.

(** [adminDeleteOrganization], [adminDeleteUser] *)
Definition adminDeleteOrganization (cookies : list sessions.Cookie) (externalID : string) : Api (Reply unit) :=
  if decide (externalID = EmptyString) then throw ErrNotFound
  else acting cookies (fun session =>
    adb (CallDeleteOrganization externalID (sessions.GetActingUserID session)) ;;;
    ret (redirectWithMessage ("Deleted organization with id " +:+ externalID))).

Definition adminDeleteUser (cookies : list sessions.Cookie) (userID : string) : Api (Reply unit) :=
  if decide (userID = EmptyString) then throw ErrNotFound
  else acting cookies (fun session =>
    adb (CallDeleteUser userID (sessions.GetActingUserID session)) ;;;
    ret (redirectWithMessage ("Deleted user with id " +:+ userID))).

(** [adminBecomeUser] *)
Definition adminBecomeUser (cookies : list sessions.Cookie) (becomeID : string) : Api (Reply unit) :=
  do u <- adb (CallFindUserByID becomeID);
  acting cookies (fun session =>
    or_invalid (Sessions_Set encoder_Encode secure domain cookies (sessions.Provider session) (sessions.LoginID session)
                  (u_ID u) (sessions.GetActingUserID session)) ;;;
    ret (Redirect 302 "/")).

(** [adminRemoveUserFromOrganization] *)
Definition adminRemoveUserFromOrganization (orgExternalID userID : string) : Api (Reply unit) :=
  do members <- adb (CallListOrganizationUsers orgExternalID false false);
  if decide (length members = 1%nat) then throw ErrForbidden
  else
    do user <- adb (CallFindUserByID userID);
    adb (CallRemoveUserFromOrganization orgExternalID (u_Email user)) ;;;
    ret (Redirect 302 ("/admin/users/organizations/" +:+ orgExternalID +:+ "/users")).

(** [MakeUserAdmin], [adminMakeUserAdmin] *)
Definition MakeUserAdmin (userID : string) (admin : bool) : Api unit := adb (CallSetUserAdmin userID admin).

Definition adminMakeUserAdmin (userID admin redirectTo : string) : Api (Reply unit) :=
  MakeUserAdmin userID (bool_decide (admin = "true")) ;;;
  ret (Redirect 302 (if decide (redirectTo = EmptyString) then "/admin/users/users" else redirectTo)).

(** [getSpecificLogin]: logins stored before auth0 are not used. *)
Definition getSpecificLogin (login : string) (logins : list Login) : option string :=
  l_ProviderID <$> List.find (fun l => bool_decide (l_Provider l = login) && strings.Contains (l_ProviderID l) "|") logins.

(** [adminGetUserToken] *)
Definition adminGetUserToken (userIDOrEmail provider : string) : Api (Reply string) :=
  do r <- try (adb (CallFindUserByID userIDOrEmail));
  do user <- match r with
             | inr user => ret user
             | inl err => if decide (err = ErrNotFound) then adb (CallFindUserByEmail userIDOrEmail) else throw err
             end;
  do logins <- adb (CallListLoginsForUserIDs [u_ID user]);
  do l <- or_else (getSpecificLogin provider logins) ErrLoginNotFound;
  match GetAccessToken l with
  | inl err => throw err
  | inr tok => ret (JSON 200 tok)
  end.

(** ** Weekly reports *)

(** [adminWeeklyReportsTriggerJob], [adminWeeklyReportsSendSingle], [adminWeeklyReportsPreview] *)
Definition to_reports : Reply unit := Redirect 302 "/admin/users/weeklyreports".

Definition adminWeeklyReportsTriggerJob : Api (Reply unit) :=
  perform answer EnforceWeeklyReporterJob ;;; ret to_reports.

Definition adminWeeklyReportsSendSingle (OrgExternalID : string) : Api (Reply unit) :=
  do now <- api_Now;
  on_srv (SendOutWeeklyReport emailer GenerateReport OrgExternalID now) ;;;
  ret to_reports.

Definition adminWeeklyReportsPreview (UserEmail OrgExternalID : string) : Api (Reply unit) :=
  do user <- adb (CallFindUserByEmail UserEmail);
  do org <- adb (CallFindOrganizationByID OrgExternalID);
  do now <- api_Now;
  do weeklyReport <- on_srv (lift_sum (GenerateReport org now));
  on_srv (send emailer (WeeklyReportEmail [user] weeklyReport)) ;;;
  ret to_reports.

End admin.
