(* ===== verification/ApiRoutes.v ===== *)
(** The users API over HTTP (users/api): the pages of the service and the trial of an instance, and which handler serves which
    request. *)
From Stdlib Require Import ZArith Lia Ascii String Floats.SpecFloat.
From stdpp Require Import base tactics option gmap strings list.
From S2P Require Import Prelude GoStd Users MemDB UsersDB Sessions UsersServer UsersClient Trial Api ApiTeam ApiOrg Entitlement ApiUser.

(** * What the services report *)

Record fluxStatus : Type := mkFluxStatus { fs_FirstSeen : option time.Time; fs_Connected : bool; fs_Error : string }.
Record scopeStatus : Type := mkScopeStatus { ss_FirstSeen : option time.Time; ss_NumberOfProbes : Z; ss_Error : string }.
Record promStatus : Type := mkPromStatus {
  ps_FirstSeen : option time.Time; ps_APIIngestionRate : spec_float; ps_RuleIngestionRate : spec_float;
  ps_NumSeries : Z; ps_NumberOfMetrics : Z; ps_Error : string }.
Record netStatus : Type := mkNetStatus { ns_FirstSeen : option time.Time; ns_NumberOfPeers : Z; ns_Error : string }.

Record getOrgServiceStatusView : Type := mkStatusView {
  sv_Connected : bool; sv_FirstSeen : option time.Time;
  sv_Flux : fluxStatus; sv_Scope : scopeStatus; sv_Prom : promStatus; sv_Net : netStatus }.

(** [doRequest]: what the reply was decoded into, and the error if there is one. *)
Definition Fetched (A : Type) : Type := A * option string.
Definition text (e : option string) : string := default EmptyString e.

(** The replies the four goroutines of [getServiceStatus] wait for: whether the flux daemon is
    connected; for scope, whether there are probes and how many; the statistics of cortex when
    they are configured, else the number of metrics; the number of peers. *)
Record Replies : Type := mkReplies {
  re_flux : Fetched bool;
  re_hasProbes : Fetched bool;
  re_probes : Fetched Z;
  re_cortex : option (Fetched (spec_float * spec_float * Z));
  re_metrics : Fetched Z;
  re_peers : Fetched Z }.

Definition positive (x : spec_float) : bool :=
  match x with S754_finite false _ _ | S754_infinity false => true | _ => false end.

(** [getServiceStatus] *)
Definition prom_status (r : Replies) : promStatus :=
  match re_cortex r with
  | Some ((api, rule, series), err) =>
      mkPromStatus None api rule series (match err with None => series | Some _ => 0 end) (text err)
  | None =>
      let '(n, err) := re_metrics r in
      mkPromStatus None (S754_zero false) (S754_zero false) 0 (match err with None => n | Some _ => 0 end) (text err)
  end.

Definition getServiceStatus (r : Replies) (sparse : bool) : fluxStatus * scopeStatus * promStatus * netStatus :=
  (mkFluxStatus None (re_flux r).1 (text (re_flux r).2),
   (if sparse then mkScopeStatus None (if (re_hasProbes r).1 then 1 else 0) (text (re_hasProbes r).2)
    else mkScopeStatus None (re_probes r).1 (text (re_probes r).2)),
   prom_status r,
   mkNetStatus None (match (re_peers r).2 with None => (re_peers r).1 | Some _ => 0 end) (text (re_peers r).2)).

(** Without the rates, the number of series tells whether Prometheus is connected. *)
Definition prom_connected (p : promStatus) : bool :=
  if float64.is_zero (ps_APIIngestionRate p) && float64.is_zero (ps_RuleIngestionRate p)
  then 0 <? ps_NumSeries p else positive (ps_APIIngestionRate p).

Section status.
Context {S Report : Type} `{DBImpl S}.

Abbreviation Api := (M (Web S Report) error).

(** [UpdateFirstSeen]: the instant to show, and the error rendered if it cannot be stored. The
    handler goes on after that error; the status of the response is that of the first one. *)
Definition UpdateFirstSeen (connectedNow : bool) (prevSeen : option time.Time) (now : time.Time)
    (updateDB : option time.Time -> DBCall unit) : Api (option time.Time * option error) :=
  if bool_decide (prevSeen = None) && connectedNow then
    do r <- try (adb (updateDB (Some now)));
    match r with
    | inl err => ret (None, Some err)
    | inr _ => ret (Some now, None)
    end
  else ret (prevSeen, None).

Definition first_error (l : list (option error)) : option error := head (omap id l).

(** [getOrgServiceStatus] *)
Definition getOrgServiceStatus (currentUser : User) (orgExternalID : string) (sparse : bool)
    (replies : Replies) : Api (Reply getOrgServiceStatusView) :=
  do exists_ <- adb (CallOrganizationExists orgExternalID);
  if negb exists_ then ret (Status 404)
  else
    do isMember <- adb (CallUserIsMemberOf (u_ID currentUser) orgExternalID);
    if negb isMember then ret (Status 403)
    else
      do org <- adb (CallFindOrganizationByID orgExternalID);
      let '(flux, scope, prom, net) := getServiceStatus replies sparse in
      let fluxConnected := fs_Connected flux in
      let scopeConnected := 0 <? ss_NumberOfProbes scope in
      let promConnected := prom_connected prom in
      let netConnected := 0 <? ns_NumberOfPeers net in
      let anyConnected := fluxConnected || scopeConnected || promConnected || netConnected in
      do now <- api_Now;
      do ' (seen, e1) <- UpdateFirstSeen anyConnected (o_FirstSeenConnectedAt org) now
                           (CallSetOrganizationFirstSeenConnectedAt orgExternalID);
      do ' (fluxSeen, e2) <- UpdateFirstSeen fluxConnected (o_FirstSeenFluxConnectedAt org) now
                           (CallSetOrganizationFirstSeenFluxConnectedAt orgExternalID);
      do ' (netSeen, e3) <- UpdateFirstSeen netConnected (o_FirstSeenNetConnectedAt org) now
                           (CallSetOrganizationFirstSeenNetConnectedAt orgExternalID);
      do ' (promSeen, e4) <- UpdateFirstSeen promConnected (o_FirstSeenPromConnectedAt org) now
                           (CallSetOrganizationFirstSeenPromConnectedAt orgExternalID);
      do ' (scopeSeen, e5) <- UpdateFirstSeen scopeConnected (o_FirstSeenScopeConnectedAt org) now
                           (CallSetOrganizationFirstSeenScopeConnectedAt orgExternalID);
      match first_error [e1; e2; e3; e4; e5] with
      | Some err => ret (renderError err)
      | None =>
          ret (JSON 200 (mkStatusView anyConnected seen
                 (mkFluxStatus fluxSeen (fs_Connected flux) (fs_Error flux))
                 (mkScopeStatus scopeSeen (ss_NumberOfProbes scope) (ss_Error scope))
                 (mkPromStatus promSeen (ps_APIIngestionRate prom) (ps_RuleIngestionRate prom)
                    (ps_NumSeries prom) (ps_NumberOfMetrics prom) (ps_Error prom))
                 (mkNetStatus netSeen (ns_NumberOfPeers net) (ns_Error net))))
      end.

End status.

(** The requests to the routes behind [authenticateUser], by the name of their route; the others
    ([authenticateProbe], the login pages, the pages under [/admin]) are not dispatched here. *)
Inductive Request : Type :=
  | api_users_logins_provider_detach (provider : string)
  | api_users_update (body : Body (option UserUpdate))
  | api_users_user
  | api_users_gcp_subscribe (token : string)
  | api_users_gcp_sso_login (token : string)
  | api_users_lookup
  | api_users_roles
  | api_users_teams
  | api_users_teams_delete (teamExternalID : string)
  | api_users_team_remove_user (teamExternalID userEmail : string)
  | api_users_team_invite_user (teamExternalID : string) (body : Body InviteUserToTeamResponse)
  | api_users_team_update_role (teamExternalID userEmail : string) (body : Body string)
  | api_users_team_permissions (teamExternalID userEmail : string)
  | api_users_generateOrgID
  | api_users_org_create (body : Body OrgView)
  | api_users_org (orgExternalID : string)
  | api_users_org_update (orgExternalID : string) (body : Body OrgWriteView)
  | api_users_org_delete (orgExternalID : string)
  | api_users_org_permissions (orgExternalID userEmail : string)
  | api_users_org_service_status (orgExternalID : string) (sparse : bool) (replies : Replies)
  | api_users_org_users (orgExternalID : string)
  | api_users_webhooks_list (orgExternalID : string)
  | api_users_webhooks_create (orgExternalID : string) (body : Body string)
  | api_users_webhooks_delete (orgExternalID secretID : string).

(** What is rendered. *)
Inductive Content : Type :=
  | NoContent
  | ContentUser (v : UserResponse)
  | ContentOrganization (v : Organization)
  | ContentLookup (v : publicLookupView)
  | ContentRoles (v : list RoleView)
  | ContentTeams (v : list TeamView)
  | ContentInvite (v : InviteUserToTeamResponse)
  | ContentPermissions (v : list PermissionView)
  | ContentOrg (v : OrgView)
  | ContentStatus (v : getOrgServiceStatusView)
  | ContentUsers (v : list organizationUserView)
  | ContentWebhooks (v : list Webhook)
  | ContentWebhook (v : Webhook).

Definition map_reply {V W} (f : V -> W) (r : Reply V) : Reply W :=
  match r with
  | Status c => Status c
  | JSON c v => JSON c (f v)
  | Redirect c u => Redirect c u
  | ErrorReply c m e => ErrorReply c m e
  end.

Lemma code_of_map {V W} (f : V -> W) r : code_of (map_reply f r) = code_of r.
Proof. by destruct r. Qed.

Section routes.
Context {S Report : Type} `{DBImpl S} `{GoRange}.
Variable answer : Effect -> option error.
Variable emailer : Mail Report -> option error.
Variable forceFeatureFlags : list string.
Variable encoder_Decode : time.Time -> string -> error + sessions.Session.
Variable FindBillingAccountByTeamID : string -> error + string.
Variable percentage : Z.
Variable usersSyncClient : bool.
Variables (stripHTML sha1_hex : string -> string).
Variable marketoMunchkinKey : string.
Variable ParseJWT : string -> error + string.
Variable ProviderID : string.
Variable http_list : string -> procurement.Reply (option procurement.APIError * list procurement.Entitlement).
Variable http_post : procurement.Post -> procurement.Reply (option procurement.APIError).

Abbreviation Api := (M (Web S Report) error).

Definition as_ {V} (f : V -> Content) (m : Api (Reply V)) : Api (Reply Content) :=
  do r <- m; ret (map_reply f r).
Definition nothing : unit -> Content := fun _ => NoContent.

(** [RegisterRoutes], the routes behind [authenticateUser] *)
Definition dispatch (cookies : list sessions.Cookie) (currentUser : User) (req : Request) : Api (Reply Content) :=
  match req with
  | api_users_logins_provider_detach provider => as_ nothing (detachLoginProvider currentUser provider)
  | api_users_update body => as_ ContentUser (updateUser answer encoder_Decode stripHTML cookies currentUser body)
  | api_users_user => as_ ContentUser (getCurrentUser currentUser)
  | api_users_gcp_subscribe token =>
      as_ ContentOrganization (gcpSubscribe ParseJWT ProviderID http_list http_post currentUser token)
  | api_users_gcp_sso_login token => as_ ContentOrganization (gcpSSOLogin ParseJWT currentUser token)
  | api_users_lookup => as_ ContentLookup (publicLookup forceFeatureFlags sha1_hex marketoMunchkinKey currentUser)
  | api_users_roles => as_ ContentRoles listRoles
  | api_users_teams => as_ ContentTeams (listTeams currentUser)
  | api_users_teams_delete te => as_ nothing (deleteTeam currentUser te)
  | api_users_team_remove_user te email => as_ nothing (removeUserFromTeam currentUser te email)
  | api_users_team_invite_user te body => as_ ContentInvite (inviteUserToTeam answer emailer currentUser te body)
  | api_users_team_update_role te email body => as_ nothing (updateUserRoleInTeam currentUser te email body)
  | api_users_team_permissions te email => as_ ContentPermissions (listTeamPermissions currentUser te email)
  | api_users_generateOrgID => as_ ContentOrg generateOrgExternalID
  | api_users_org_create body => as_ nothing (createOrg body)
  | api_users_org e => as_ ContentOrg (get_org forceFeatureFlags currentUser e)
  | api_users_org_update e body =>
      as_ nothing (updateOrg FindBillingAccountByTeamID percentage currentUser e body)
  | api_users_org_delete e => as_ nothing (deleteOrg answer usersSyncClient currentUser e)
  | api_users_org_permissions e email => as_ ContentPermissions (listOrgPermissions currentUser e email)
  | api_users_org_service_status e sparse replies => as_ ContentStatus (getOrgServiceStatus currentUser e sparse replies)
  | api_users_org_users e => as_ ContentUsers (api_listOrganizationUsers currentUser e)
  | api_users_webhooks_list e => as_ ContentWebhooks (listOrganizationWebhooks currentUser e)
  | api_users_webhooks_create e body => as_ ContentWebhook (createOrganizationWebhook currentUser e body)
  | api_users_webhooks_delete e s => as_ nothing (deleteOrganizationWebhook currentUser e s)
  end.

Definition ServeHTTP (cookies : list sessions.Cookie) (req : Request) : Api (Reply Content) :=
  authenticateUser encoder_Decode (fun currentUser => dispatch cookies currentUser req) cookies.

End routes.
