(* ===== verification/MemTeamSpec.v ===== *)
(** Calls that only read the in-memory database, and what the team operations do to the memberships. *)
From Stdlib Require Import ZArith Lia Ascii String.
From stdpp Require Import base tactics option gmap strings list pretty.
From S2P Require Import Prelude GoStd Users Filter MemDB MemTeam MemOrg MemUser UsersDB MemInv MemSafety Sample MemDelete MemOrgSpec MemUserSpec UsersServer ServerSpec MemLawful.

(** * Code that reads and never blocks *)

Create HintDb calm.

Section calm.
Context {S E : Type}.

Definition calm {A} (m : M S E A) : Prop := forall s, (m s).2 = s /\ (m s).1 <> Deadlock /\ (m s).1 <> OutOfFuel.

Lemma calm_ret {A} (a : A) : calm (ret a).
Proof. done. Qed.
Lemma calm_throw {A} e : calm (throw e : M S E A).
Proof. done. Qed.
Lemma calm_get : calm (@get S E).
Proof. done. Qed.
Lemma calm_gets {A} (f : S -> A) : calm (gets f).
Proof. done. Qed.
Lemma calm_deref {A} (p : option A) : calm (deref p : M S E A).
Proof. by destruct p. Qed.
Lemma calm_or_else {A} (p : option A) e : calm (or_else p e : M S E A).
Proof. by destruct p. Qed.
Lemma calm_bind {A B} (m : M S E A) (k : A -> M S E B) : calm m -> (forall a, calm (k a)) -> calm (bind m k).
Proof.
  intros Hm Hk s. unfold bind. destruct (Hm s) as (Hs & Hd & Hf).
  destruct (m s) as [[] s']; simpl in *; subst; try done. apply Hk.
Qed.
Lemma calm_try {A} (m : M S E A) : calm m -> calm (try m).
Proof.
  intros Hm s. unfold try. destruct (Hm s) as (Hs & Hd & Hf). by destruct (m s) as [[] s']; simpl in *.
Qed.
Lemma calm_fold_m {A B} (f : B -> A -> M S E B) (l : list A) b : (forall b x, calm (f b x)) -> calm (fold_m f l b).
Proof.
  intros Hf. revert b. induction l as [|x l IH]; intros b; simpl; [apply calm_ret|]. by apply calm_bind.
Qed.

Lemma locked_reading `{HasMutex S} {A} (m : M S E A) s :
  (forall s, set_mtx (mtx_held s) s = s) -> (forall b b' s, set_mtx b (set_mtx b' s) = set_mtx b s) ->
  calm m -> mtx_held s = false -> (locked m s).2 = s.
Proof.
  intros Hid Hset Hm Hs. unfold locked. rewrite Hs. destruct (Hm (set_mtx true s)) as (Hr & Hd & Hf).
  destruct (m (set_mtx true s)) as [[] s']; simpl in *; subst; try done; rewrite Hset, <- Hs; apply Hid.
Qed.

End calm.

#[export] Hint Resolve calm_ret calm_throw calm_get calm_gets calm_deref calm_or_else calm_bind calm_try calm_fold_m : calm.

Ltac calm_step :=
  match goal with
  | |- calm (match ?x with _ => _ end) => destruct x
  | |- calm ((match ?x with _ => _ end) _) => destruct x
  | |- calm (bind _ _) => apply calm_bind; [|intros ?]
  | |- calm (fold_m _ _ _) => apply calm_fold_m; intros ? ?
  | |- calm (try _) => apply calm_try
  end.
Ltac calm_code := repeat first [solve [auto with calm] | progress cbv beta | calm_step].

(** * The reads of the database *)

Definition is_read {A} (c : DBCall A) : bool :=
  match c with
  | CallFindUserByID _ | CallFindUserByEmail _ | CallFindUserByLogin _ _ | CallUserIsMemberOf _ _ | CallGetLogin _ _
  | CallListUsers _ _ | CallListOrganizations _ _ | CallListAllOrganizations _ _ _ | CallListOrganizationUsers _ _ _
  | CallListOrganizationsInTeam _ | CallListOrganizationsForUserIDs _ | CallListAllOrganizationsForUserIDs _ _
  | CallListLoginsForUserIDs _ | CallFindUncleanedOrgIDs | CallFindOrganizationByProbeToken _
  | CallFindOrganizationByID _ | CallFindOrganizationByGCPExternalAccountID _ | CallFindOrganizationByInternalID _
  | CallOrganizationExists _ | CallExternalIDUsed _ | CallGetOrganizationName _ | CallFindGCP _ | CallListTeams _
  | CallListAllTeams _ _ _ | CallListTeamsForUserID _ | CallListTeamUsersWithRoles _ | CallListTeamUsers _ | CallListRoles
  | CallListPermissionsForRoleID _ | CallGetUserRoleInTeam _ _ | CallFindTeamByExternalID _ | CallFindTeamByInternalID _
  | CallListOrganizationWebhooks _ | CallFindOrganizationWebhookBySecretID _ | CallGetSummary | CallListTeamMemberships => true
  | _ => false
  end.

Section reads.
Context `{GoRange} (fuel : nat) (bcrypt_generate : string -> Z -> error + string).

(** What an unlocked database is left with. *)
Definition reading {A} (m : Op A) : Prop := forall d, mtx d = false -> (m d).2 = d.

Lemma reading_locked {A} (m : Op A) : calm m -> reading (locked m).
Proof. intros Hm d Hd. apply locked_reading; [by intros []|done|done|done]. Qed.
Lemma reading_calm {A} (m : Op A) : calm m -> reading m.
Proof. intros Hm d _. apply Hm. Qed.

Lemma calm_findUserByID id : calm (findUserByID id).
Proof. unfold findUserByID. calm_code. Qed.
Lemma calm_findUserByEmail e : calm (findUserByEmail e).
Proof. unfold findUserByEmail. calm_code. Qed.
Lemma calm_find_ext e : calm (findOrganizationByExternalID e).
Proof. unfold findOrganizationByExternalID. calm_code. Qed.
Lemma calm_loaded o : calm (loaded o).
Proof. unfold loaded. calm_code. Qed.
Lemma calm_loaded_all l : calm (loaded_all l).
Proof. unfold loaded_all. calm_code. Qed.
#[local] Hint Resolve calm_findUserByID calm_findUserByEmail calm_find_ext calm_loaded calm_loaded_all : calm.

Lemma calm_organizationExists e b : calm (organizationExists e b).
Proof. unfold organizationExists. calm_code. Qed.
Lemma calm_findUserByLogin p i : calm (findUserByLogin p i).
Proof. unfold findUserByLogin. calm_code. Qed.
Lemma calm_matching_orgs f acc os : calm (matching_orgs f acc os).
Proof. unfold matching_orgs. calm_code. Qed.
Lemma calm_find_org p : calm (find_org p).
Proof. unfold find_org. calm_code. Qed.
Lemma calm_listTeamUsers t b : calm (listTeamUsers t b).
Proof. unfold listTeamUsers. calm_code. Qed.
Lemma calm_listTeamUsersWithRoles t : calm (listTeamUsersWithRoles t).
Proof. unfold listTeamUsersWithRoles. calm_code. Qed.
#[local] Hint Resolve calm_organizationExists calm_findUserByLogin calm_matching_orgs calm_find_org calm_listTeamUsers
  calm_listTeamUsersWithRoles : calm.

Lemma calm_userIsMemberOf u e : calm (userIsMemberOf u e).
Proof. unfold userIsMemberOf. calm_code. Qed.
Lemma calm_listOrganizationUsers e a b : calm (listOrganizationUsers e a b).
Proof. unfold listOrganizationUsers. calm_code. Qed.
Lemma calm_gcp_at a : calm (gcp_at a).
Proof. unfold gcp_at. calm_code. Qed.
#[local] Hint Resolve calm_userIsMemberOf calm_listOrganizationUsers calm_gcp_at : calm.

Ltac reading_code := first [apply reading_locked | apply reading_calm]; calm_code.

Lemma memory_reads A (c : DBCall A) : is_read c = true -> reading (memory fuel bcrypt_generate A c).
Proof.
  intros Hc. destruct c; try discriminate Hc; clear Hc; cbn [memory];
    open_op; first [solve [reading_code] | open_op; first [solve [reading_code] | open_op; solve [reading_code]]].
Qed.

End reads.

Section members.
Context `{GoRange}.
Implicit Types (d : DB).

(** ** The members of a team *)

(** The stored users among the members that a part of the memberships names. *)
Definition stored_users (d : DB) (t : string) (l : list (string * gmap string string)) : list User :=
  omap (fun '(m, tr) => _ ← (tr : gmap string string) !! t; users d !! m) l.

Lemma NoDup_stored d t l : keyed u_ID (users d) -> NoDup l.*1 -> NoDup (u_ID <$> stored_users d t l).
Proof.
  intros Hkey. induction l as [|[m tr] l IH]; [constructor|].
  intros [Hm Hnd]%NoDup_cons. unfold stored_users. simpl. destruct (tr !! t); simpl; [|by apply IH].
  destruct (users d !! m) as [u|] eqn:Hu; [|by apply IH]. simpl. constructor; [|by apply IH].
  pose proof (Hkey _ _ Hu) as Hid. simpl in Hid. rewrite Hid. intros Hin.
  apply list_elem_of_fmap in Hin as (u' & He & Hin).
  apply list_elem_of_omap in Hin as ([m' tr'] & Hin' & (? & _ & Hu')%bind_Some).
  pose proof (Hkey _ _ Hu') as Hid'. simpl in Hid'. apply Hm, list_elem_of_fmap.
  exists (m', tr'). split; [simpl; congruence|done].
Qed.

Lemma users_of_members (R : User -> UserWithRole -> Prop) us l :
  Forall2 (fun u m => ur_User m = u /\ R u m) us l -> (fun m => u_ID (ur_User m)) <$> l = u_ID <$> us.
Proof. induction 1 as [|u m us l [<- _] _ IH]; [done|]. by rewrite !fmap_cons, IH. Qed.

(** The rounds of the loop over the memberships. *)
Lemma members_loop t (rs : gmap string Role) (l : list (string * gmap string string)) d us0 found0 us found d' :
  NoDup l.*1 -> keyed u_ID (users d) ->
  fold_m (fun '(us, found) '(m, teamRoles) =>
      match teamRoles !! t with
      | Some rID =>
          do u <- findUserByID m;
          ret (us ++ [u], <[m := rs !! rID]> found)
      | None => ret (us, found)
      end) l (us0, found0 : gmap string (option Role)) d = (Ret (us, found), d') ->
  d' = d /\
  us = us0 ++ stored_users d t l /\
  (forall m tr rid, (m, tr) ∈ l -> tr !! t = Some rid -> found !! m = Some (rs !! rid) /\ is_Some (users d !! m)) /\
  (forall m, m ∉ l.*1 -> found !! m = found0 !! m).
Proof.
  intros Hnd Hkey. revert us0 found0 Hnd. induction l as [|[m tr] l IH]; intros us0 found0 Hnd; cbn [fold_m].
  - intros [= <- <- <-]. split; [done|]. rewrite app_nil_r. split; [done|]. split; [|done]. intros ? ? ? Hin. inversion Hin.
  - apply NoDup_cons in Hnd as [Hm Hnd]. change (m ∉ l.*1) in Hm. change (NoDup l.*1) in Hnd. intros ((us1 & f1) & d1 & Hr & Hl)%bind_inv_Ret.
    destruct (tr !! t) as [rid|] eqn:Ht.
    + apply bind_inv_Ret in Hr as (u & d2 & Hu & Hr). unfold findUserByID, bind, gets in Hu. simpl in Hu.
      apply or_else_Ret in Hu as [Hu ->]. injection Hr as <- <- <-.
      apply IH in Hl as (-> & -> & Hf & Hout); [|done]. split; [done|]. split.
      { simpl. rewrite Ht. simpl. rewrite Hu. by rewrite <- app_assoc. }
      split.
      * intros m' tr' rid' [[= -> ->]|Hin]%elem_of_cons Ht'; [|by eapply Hf].
        rewrite Ht in Ht'. injection Ht' as <-. rewrite (Hout m Hm), lookup_insert_eq. split; [done|by exists u].
      * intros m' [Hne Hm']%not_elem_of_cons. rewrite (Hout m' Hm'). apply lookup_insert_ne. by intros <-.
    + injection Hr as <- <- <-. apply IH in Hl as (-> & -> & Hf & Hout); [|done]. split; [done|].
      split; [simpl; by rewrite Ht|]. split.
      * intros m' tr' rid' [[= -> ->]|Hin]%elem_of_cons Ht'; [congruence|by eapply Hf].
      * intros m' [_ Hm']%not_elem_of_cons. by apply Hout.
Qed.

(** The loop that gives each member a role. *)
Lemma roles_loop (found : gmap string (option Role)) us d l d' acc :
  (fold_m (fun acc u =>
      do r <- deref (default None (found !! u_ID u));
      ret (acc ++ [mkUserWithRole u r])) us acc : Op (list UserWithRole)) d = (Ret l, d') ->
  d' = d /\ exists l', l = acc ++ l' /\
    Forall2 (fun u m => ur_User m = u /\ default None (found !! u_ID u) = Some (ur_Role m)) us l'.
Proof.
  revert acc. induction us as [|u us IH]; intros acc; cbn [fold_m].
  - intros [= <- <-]. split; [done|]. exists []. by rewrite app_nil_r.
  - intros (acc1 & d1 & (r & d2 & [Hr ->]%deref_Ret & [= <- <-])%bind_inv_Ret & Hl)%bind_inv_Ret.
    apply IH in Hl as (-> & l' & -> & Hall). split; [done|]. exists (mkUserWithRole u r :: l').
    rewrite <- app_assoc. split; [done|]. by constructor.
Qed.

(** A member listed with her role. *)
Definition member_with (d : DB) (t : string) (m : UserWithRole) : Prop := exists rid,
  memberships_of d (u_ID (ur_User m)) !! t = Some rid /\ roles d !! rid = Some (ur_Role m) /\
  users d !! u_ID (ur_User m) = Some (ur_User m).

Lemma listTeamUsersWithRoles_run t d l d' : keyed u_ID (users d) ->
  listTeamUsersWithRoles t d = (Ret l, d') ->
  d' = d /\ (forall m, m ∈ l -> member_with d t m) /\ NoDup ((fun m => u_ID (ur_User m)) <$> l) /\
  (forall id rid, memberships_of d id !! t = Some rid -> exists m, m ∈ l /\ u_ID (ur_User m) = id).
Proof.
  intros Hkey. unfold listTeamUsersWithRoles.
  intros (tm & ? & [= <- <-] & (rs & ? & [= <- <-] & ((us & found) & ? & Hl & Hr)%bind_inv_Ret)%bind_inv_Ret)%bind_inv_Ret.
  apply members_loop in Hl as (-> & -> & Hf & _); [|apply NoDup_go_range_keys|done].
  apply roles_loop in Hr as (-> & l' & -> & Hall). split; [done|].
  change ([] ++ stored_users d t (go_range (teamMemberships d))) with (stored_users d t (go_range (teamMemberships d))) in Hall.
  set (us := stored_users d t (go_range (teamMemberships d))) in *.
  assert (Hus : forall u, u ∈ us -> exists tr rid, teamMemberships d !! u_ID u = Some tr /\ tr !! t = Some rid /\ users d !! u_ID u = Some u).
  { intros u ([m tr] & Hin%elem_of_go_range & (rid & Hrid & Hu)%bind_Some)%list_elem_of_omap.
    pose proof (Hkey _ _ Hu) as Hid. simpl in Hid. subst m. by exists tr, rid. }
  split; [|split].
  - intros m (i & Hi)%list_elem_of_lookup. destruct (Forall2_lookup_r _ _ _ _ _ Hall Hi) as (u & Hu & <- & Hrole).
    apply list_elem_of_lookup_2 in Hu. unfold usersByCreatedAt in Hu. rewrite sort.elem_of_ByDescending in Hu.
    destruct (Hus _ Hu) as (tr & rid & Htr & Hrid & Hin). exists rid.
    destruct (Hf _ _ _ (proj2 (elem_of_go_range _ _ _) Htr) Hrid) as [Hfound _]. rewrite Hfound in Hrole.
    unfold memberships_of. by rewrite Htr.
  - rewrite app_nil_l, (users_of_members _ _ _ Hall). unfold usersByCreatedAt. rewrite sort.ByDescending_perm.
    apply NoDup_stored; [done|]. apply NoDup_go_range_keys.
  - intros id rid Hmem. unfold memberships_of in Hmem. destruct (teamMemberships d !! id) as [tr|] eqn:Htr; simpl in Hmem; [|by rewrite lookup_empty in Hmem].
    destruct (Hf _ _ _ (proj2 (elem_of_go_range _ _ _) Htr) Hmem) as [_ [u Hu]].
    pose proof (Hkey _ _ Hu) as Hid. simpl in Hid.
    assert (Hin : u ∈ usersByCreatedAt us).
    { unfold usersByCreatedAt. rewrite sort.elem_of_ByDescending. apply list_elem_of_omap. exists (id, tr).
      split; [by apply elem_of_go_range|]. simpl. by rewrite Hmem. }
    apply list_elem_of_lookup in Hin as [i Hi]. destruct (Forall2_lookup_l _ _ _ _ _ Hall Hi) as (m & Hm & Hmu & _).
    exists m. split; [by eapply list_elem_of_lookup_2|]. by rewrite Hmu.
Qed.

Lemma ListTeamUsersWithRoles_run t d l d' : Inv d ->
  ListTeamUsersWithRoles t d = (Ret l, d') ->
  d' = d /\ (forall m, m ∈ l -> member_with d t m) /\ NoDup ((fun m => u_ID (ur_User m)) <$> l) /\
  (forall id rid, memberships_of d id !! t = Some rid -> exists m, m ∈ l /\ u_ID (ur_User m) = id).
Proof.
  intros ((Hkey & _) & _) (d1 & Hr & -> & Hm)%locked_Ret.
  apply listTeamUsersWithRoles_run in Hr as (-> & Hl); [|exact Hkey]. split; [|exact Hl].
  destruct d; simpl in *. by subst.
Qed.

(** ** The administrators of a team *)

Definition is_admin (d : DB) (t id : string) : Prop := memberships_of d id !! t = Some AdminRoleID.
Definition has_admin (d : DB) (t : string) : Prop := exists id, is_admin d t id.

Lemma admin_role d rid r : catalogue d -> roles d !! rid = Some r -> r_ID r = AdminRoleID -> rid = AdminRoleID.
Proof.
  intros (-> & _) Hr Hid. assert (Hk : map_Forall (fun k r => k = r_ID r) default_roles) by (apply map_Forall_to_list; vm_compute; repeat constructor).
  rewrite (Hk _ _ Hr). exact Hid.
Qed.

(** Of the roles, only that of an administrator lets its holder change roles. *)
Lemma only_admins_update_roles rid ids :
  granted rid = Some ids -> "team.member.update" ∈ ids -> rid = AdminRoleID.
Proof.
  unfold granted. intros Hg Hin.
  assert (Hk : map_Forall (fun k ids => "team.member.update" ∈ ids -> k = AdminRoleID) default_rolesPermissions).
  { apply (bool_decide_unpack _). vm_compute. exact I. }
  by apply (Hk _ _ Hg).
Qed.

End members.
