(* ===== verification/ApiSpec.v ===== *)
(** What the users HTTP API promises over the in-memory database: a request succeeds, or leaves
    a trace, only for a caller who may make it. *)
From Stdlib Require Import ZArith Lia Ascii String.
From stdpp Require Import base tactics option gmap strings list pretty.
From S2P Require Import Prelude GoStd Users Filter MemDB MemTeam MemOrg MemUser UsersDB MemInv MemSafety MemTeamSpec Sample MemDelete MemOrgSpec MemUserSpec Sessions UsersServer ServerSpec MemLawful UsersClient Entitlement Api ApiTeam ApiOrg ApiUser ApiRoutes.

(** * Who may make a request *)

(** A request is about its caller, about an organization, or about a team; it may need a
    permission besides being a member. *)
Inductive Scope : Type :=
  | Caller
  | OnOrg (orgExternalID : string) (permissionID : option string)
  | OnTeam (teamExternalID : string) (permissionID : option string).

Definition scope (u : User) (req : Request) : Scope :=
  match req with
  | api_users_teams_delete te => OnTeam te None
  | api_users_team_remove_user te email =>
      OnTeam te (if decide (email = u_Email u) then None else Some permission.RemoveTeamMember)
  | api_users_team_invite_user te _ => OnTeam te (Some permission.InviteTeamMember)
  | api_users_team_update_role te _ _ => OnTeam te (Some permission.UpdateTeamMemberRole)
  | api_users_team_permissions te _ => OnTeam te None
  | api_users_org e => OnOrg e None
  | api_users_org_update e _ => OnOrg e None
  | api_users_org_delete e => OnOrg e (Some permission.DeleteInstance)
  | api_users_org_permissions e _ => OnOrg e None
  | api_users_org_service_status e _ _ => OnOrg e None
  | api_users_org_users e => OnOrg e (Some permission.ViewTeamMembers)
  | api_users_webhooks_list e => OnOrg e None
  | api_users_webhooks_create e _ => OnOrg e (Some permission.CreateWebhook)
  | api_users_webhooks_delete e _ => OnOrg e (Some permission.DeleteWebhook)
  | _ => Caller
  end.

(** The role of a user in a team, if any, lets her use the permission. *)
Definition may (d : DB) (userID teamID : string) (p : option string) : Prop :=
  exists role, memberships_of d userID !! teamID = Some role /\
    match p with None => True | Some p => exists ids, granted role = Some ids /\ p ∈ ids end.

Definition allowed (d : DB) (u : User) (s : Scope) : Prop :=
  match s with
  | Caller => True
  | OnOrg e p => exists k c, organizations d !! k = Some c /\ same_id (o_ExternalID c) e = true /\ may d (u_ID u) (o_TeamID c) p
  | OnTeam te p => exists t, teams d !! t_ID t = Some t /\ t_ExternalID t = te /\ may d (u_ID u) (t_ID t) p
  end.

(** The update of an organization names another team, by its external id or by the name of a
    new one: the organization is to be moved there. *)
Definition moves (update : OrgWriteView) : Prop := ~ (ow_TeamExternalID update = None /\ ow_TeamName update = None).

(** The caller may transfer instances out of the team of the organization and, unless a team is
    made for it, into the team it is to be moved to. *)
Definition may_transfer (d : DB) (u : User) (e : string) (update : OrgWriteView) : Prop :=
  exists k c, organizations d !! k = Some c /\ same_id (o_ExternalID c) e = true /\
    allowed d u (OnTeam (o_TeamExternalID c) (Some permission.TransferInstance)) /\
    (ptostr (ow_TeamExternalID update) <> EmptyString ->
     allowed d u (OnTeam (ptostr (ow_TeamExternalID update)) (Some permission.TransferInstance))).

(** The team of every organization. *)
Definition home (o : OrgCell) : string * string := (o_TeamID o, o_TeamExternalID o).
Definition homes (d : DB) : gmap string (string * string) := home <$> organizations d.

(** No two teams have the same external id. *)
Definition unique_team_ids (d : DB) : Prop :=
  forall t t', teams d !! t_ID t = Some t -> teams d !! t_ID t' = Some t' -> t_ExternalID t = t_ExternalID t' -> t_ID t = t_ID t'.

(** * Steps of a handler *)

Section steps.
Context `{GoRange} (fuel : nat) (bcrypt_generate : string -> Z -> error + string) {Report : Type}.
#[local] Instance memory_db : DBImpl DB := memory fuel bcrypt_generate.
Abbreviation Api := (M (Web DB Report) error).
Implicit Types (w : Web DB Report) (u : User).

(** A refusal: a 4xx or 5xx, or no response at all, and nothing was done. *)
Definition guarded {V} (auth : Prop) w (res : outcome error (Reply V) * Web DB Report) : Prop :=
  auth \/ (res.2 = w /\ forall r, res.1 = Ret r -> 400 <= code_of r).

Definition ready w : Prop := Inv (web_db w) /\ mtx (web_db w) = false.

Lemma ErrorStatusCode_range e : 400 <= ErrorStatusCode e <= 500.
Proof. destruct e; simpl; try lia. unfold InstanceDeniedError_Status. case_decide; lia. Qed.

Lemma guarded_bind {A V} auth w (m : Api A) (k : A -> Api (Reply V)) :
  (m w).2 = w -> (forall a, m w = (Ret a, w) -> guarded auth w (k a w)) -> guarded auth w (bind m k w).
Proof.
  intros Hm Hk. unfold bind. destruct (m w) as [[] w'] eqn:Hr; simpl in *; subst; auto; right; by split.
Qed.

Lemma guarded_throw {V} auth w e : guarded (V:=V) auth w (throw e w).
Proof. by right. Qed.
Lemma guarded_ret {V} auth w (r : Reply V) : 400 <= code_of r -> guarded auth w (ret r w).
Proof. intros Hr. right. split; [done|]. intros r' [= <-]. done. Qed.

Lemma guarded_as {V} auth w (f : V -> Content) (m : Api (Reply V)) : guarded auth w (m w) -> guarded auth w (as_ f m w).
Proof.
  intros [Hm|[Hw Hr]]; [by left|]. right. unfold as_, bind. destruct (m w) as [[] w']; simpl in *; subst; try done.
  split; [done|]. intros r' [= <-]. rewrite code_of_map. by apply Hr.
Qed.

Lemma guarded_serve {V} auth w (m : Api (Reply V)) : guarded auth w (m w) -> guarded auth w (serve m w).
Proof.
  intros [Hm|[Hw Hr]]; [by left|]. right. unfold serve, bind, try. destruct (m w) as [[] w']; simpl in *; subst; try done.
  split; [done|]. intros r' [= <-]. unfold renderError. pose proof (ErrorStatusCode_range e). case_match; simpl; lia.
Qed.

(** ** Reading the database *)

Lemma adb_run {A} (c : DBCall A) w o d : call c (web_db w) = (o, d) ->
  adb c w = (o, set_web_srv (set_srv_db d (web_srv w)) w).
Proof.
  intros Hc. unfold adb, on_srv, zoom, db, zoom. unfold web_db in Hc. by rewrite Hc.
Qed.

Lemma adb_read {A} (c : DBCall A) w : is_read c = true -> ready w -> (adb c w).2 = w.
Proof.
  intros Hc [_ Hm]. pose proof (memory_reads fuel bcrypt_generate _ c Hc (web_db w) Hm) as Hr.
  rewrite (adb_run c w (call c (web_db w)).1 (call c (web_db w)).2) by apply surjective_pairing. simpl.
  unfold call, memory_db in *. rewrite Hr. destruct w as [[]]. done.
Qed.

Lemma adb_Ret {A} (c : DBCall A) w a : adb c w = (Ret a, w) -> call c (web_db w) = (Ret a, web_db w).
Proof.
  unfold adb, on_srv, zoom, db, zoom. unfold web_db. destruct (call c (srv_db (web_srv w))) as [o d]. simpl.
  intros [= -> Hw]. apply (f_equal (fun w => srv_db (web_srv w))) in Hw. simpl in Hw. by rewrite Hw.
Qed.

(** ** The checks *)

Lemma requirePermission_may id t p w a w' : ready w ->
  on_srv (requirePermission id t p) w = (Ret a, w') -> w' = w /\ may (web_db w) id t (Some p).
Proof.
  intros [Hd Hm]. unfold on_srv, zoom. rewrite (requirePermission_run fuel bcrypt_generate id t p (web_srv w) Hd Hm).
  intros [= Hdec <-]. split; [by destruct w|]. unfold decision in Hdec. fold (web_db w) in Hdec.
  destruct (memberships_of (web_db w) id !! t) as [role|] eqn:Hrole; [|done]. exists role. split; [done|].
  destruct (granted role) as [ids|]; [|done]. exists ids. split; [done|]. by case_decide.
Qed.

Lemma requirePermission_keeps id t p w : ready w -> (on_srv (requirePermission id t p) w).2 = w.
Proof.
  intros [Hd Hm]. unfold on_srv, zoom. rewrite (requirePermission_run fuel bcrypt_generate id t p (web_srv w) Hd Hm).
  by destruct w.
Qed.

Lemma on_srv_bind {A B} (m : M (Server DB Report) error A) (k : A -> M (Server DB Report) error B) w :
  on_srv (bind m k) w = bind (on_srv m) (fun a => on_srv (k a)) w.
Proof. unfold on_srv, zoom, bind. destruct w as [s calls r n h p]. simpl. by destruct (m s) as [[] s']. Qed.

Lemma RequireOrgPermission_keeps id e p w : ready w -> (RequireOrgPermission id e p w).2 = w.
Proof.
  intros Hw. unfold RequireOrgPermission, api_RequireOrgMemberPermissionTo. rewrite on_srv_bind.
  apply (keeps_bind (fun w' => w' = w)); [by apply (adb_read (CallFindOrganizationByID e))|].
  intros o w' _ ->. by apply requirePermission_keeps.
Qed.

Lemma RequireTeamPermission_keeps id te p w : ready w -> (RequireTeamPermission id te p w).2 = w.
Proof.
  intros Hw. unfold RequireTeamPermission, api_RequireTeamMemberPermissionTo. rewrite on_srv_bind.
  apply (keeps_bind (fun w' => w' = w)); [by apply (adb_read (CallFindTeamByExternalID te))|].
  intros o w' _ ->. by apply requirePermission_keeps.
Qed.

Lemma RequireOrgPermission_allowed u e p w a : ready w ->
  RequireOrgPermission (u_ID u) e p w = (Ret a, w) -> allowed (web_db w) u (OnOrg e (Some p)).
Proof.
  intros Hw. unfold RequireOrgPermission, api_RequireOrgMemberPermissionTo. rewrite on_srv_bind.
  intros (o & w1 & Hf & Hp)%bind_inv_Ret.
  assert (w1 = w) as ->.
  { pose proof (adb_read (CallFindOrganizationByID e) w eq_refl Hw) as Hk. unfold adb in Hk. by rewrite Hf in Hk. }
  apply (adb_Ret (CallFindOrganizationByID e)) in Hf.
  destruct (FindOrganizationByID_run e (web_db w)) as [(k & c & Hf' & Hk & He)|[Hf' _]]; [apply Hw| |].
  - unfold call, memory_db, memory in Hf. rewrite Hf' in Hf. injection Hf as <-.
    apply requirePermission_may in Hp as [_ Hmay]; [|done].
    exists k, c. split; [done|]. split; [|exact Hmay]. rewrite He. apply same_id_refl.
  - unfold call, memory_db, memory in Hf. by rewrite Hf' in Hf.
Qed.

Lemma RequireTeamPermission_allowed u te p w a : ready w ->
  RequireTeamPermission (u_ID u) te p w = (Ret a, w) -> allowed (web_db w) u (OnTeam te (Some p)).
Proof.
  intros Hw. unfold RequireTeamPermission, api_RequireTeamMemberPermissionTo. rewrite on_srv_bind.
  intros (t & w1 & Hf & Hp)%bind_inv_Ret.
  assert (w1 = w) as ->.
  { pose proof (adb_read (CallFindTeamByExternalID te) w eq_refl Hw) as Hk. unfold adb in Hk. by rewrite Hf in Hk. }
  apply (adb_Ret (CallFindTeamByExternalID te)) in Hf. apply FindTeamByExternalID_spec in Hf as (_ & Ht & He); [|apply Hw].
  apply requirePermission_may in Hp as [_ Hmay]; [|done]. by exists t.
Qed.

Lemma allowed_weaken u s s' w : allowed (web_db w) u s ->
  (s = s' \/ (exists e p, s = OnOrg e p /\ s' = OnOrg e None) \/ (exists te p, s = OnTeam te p /\ s' = OnTeam te None)) ->
  allowed (web_db w) u s'.
Proof.
  intros Hs [->|[(e & p & -> & ->)|(te & p & -> & ->)]]; [done|..]; simpl in *; unfold may in *; naive_solver.
Qed.

Lemma find_user_team_keeps l te w : (find_user_team (S:=DB) (Report:=Report) l te w).2 = w.
Proof. induction l as [|[t|] l IH]; simpl; [done| |done]. unfold bind. simpl. by case_decide. Qed.

Lemma find_user_team_Ret l te w t w' :
  find_user_team (S:=DB) (Report:=Report) l te w = (Ret t, w') -> Some t ∈ l /\ t_ExternalID t = te.
Proof.
  induction l as [|[t0|] l IH]; simpl; [done| |done]. unfold bind. simpl. case_decide.
  - intros [= <- _]. split; [left|done].
  - intros [Hin He]%IH. split; [by right|done].
Qed.

Lemma userCanAccessTeam_keeps u te w : ready w -> (userCanAccessTeam u te w).2 = w.
Proof.
  intros Hw. apply (keeps_bind (fun w' => w' = w)); [by apply (adb_read (CallListTeamsForUserID (u_ID u)))|].
  intros ts w' _ ->. apply find_user_team_keeps.
Qed.

Lemma userCanAccessTeam_allowed u te w t : ready w ->
  userCanAccessTeam u te w = (Ret t, w) -> allowed (web_db w) u (OnTeam te None) /\ teams (web_db w) !! t_ID t = Some t /\
  t_ExternalID t = te.
Proof.
  intros Hw. unfold userCanAccessTeam. intros (ts & w1 & Hl & Hf)%bind_inv_Ret.
  assert (w1 = w) as ->.
  { pose proof (adb_read (CallListTeamsForUserID (u_ID u)) w eq_refl Hw) as Hk. by rewrite Hl in Hk. }
  apply adb_Ret in Hl. destruct Hw as [Hd Hm].
  assert (Hts : ts = (fun '(teamID, _) => teams (web_db w) !! teamID) <$> go_range (memberships_of (web_db w) (u_ID u))).
  { unfold call, memory_db, memory, ListTeamsForUserID, locked in Hl. simpl in Hl. rewrite Hm in Hl. by injection Hl as <-. }
  apply find_user_team_Ret in Hf as [Hin He]. rewrite Hts in Hin.
  apply list_elem_of_fmap in Hin as ([teamID role] & Ht & Hmem%elem_of_go_range).
  destruct Hd as (_ & Hkey & _). pose proof (Hkey _ _ (eq_sym Ht)) as Hid. simpl in Hid. subst teamID.
  split; [|done]. exists t. do 2 (split; [done|]). by exists role.
Qed.

Lemma UserIsMemberOf_allowed u e w : ready w ->
  adb (CallUserIsMemberOf (u_ID u) e) w = (Ret true, w) -> allowed (web_db w) u (OnOrg e None).
Proof.
  intros [_ Hm] (d1 & Hrun & _ & _)%adb_Ret%locked_Ret. unfold userIsMemberOf in Hrun.
  apply bind_inv_Ret in Hrun as ([err|[k c]] & d2 & Hf & Hr); [by case_decide|].
  apply try_inr, find_ext_Ret in Hf as (-> & Hk & He). unfold gets in Hr. injection Hr as Hmem%bool_decide_eq_true _.
  destruct Hmem as [role Hrole]. exists k, c. split; [done|]. split; [done|]. by exists role.
Qed.

Lemma userCanAccessOrg_keeps u e w : ready w -> (userCanAccessOrg u e w).2 = w.
Proof.
  intros Hw. apply (keeps_bind (fun w' => w' = w)); [by apply (adb_read (CallUserIsMemberOf (u_ID u) e))|].
  intros [] w' _ ->; [done|].
  apply (keeps_bind (fun w' => w' = w)); [by apply (adb_read (CallOrganizationExists e))|].
  by intros [] w' _ ->.
Qed.

Lemma userCanAccessOrg_allowed u e w a : ready w ->
  userCanAccessOrg u e w = (Ret a, w) -> allowed (web_db w) u (OnOrg e None).
Proof.
  intros Hw. unfold userCanAccessOrg. intros (b & w1 & Hb & Hr)%bind_inv_Ret.
  assert (w1 = w) as ->.
  { pose proof (adb_read (CallUserIsMemberOf (u_ID u) e) w eq_refl Hw) as Hk. by rewrite Hb in Hk. }
  destruct b; [by apply UserIsMemberOf_allowed|].
  apply bind_inv_Ret in Hr as ([] & w2 & _ & Hr); discriminate Hr.
Qed.

(** ** Handlers *)

Lemma read_then {A V} auth w (c : DBCall A) (k : A -> Api (Reply V)) : is_read c = true -> ready w ->
  (forall a, adb c w = (Ret a, w) -> guarded auth w (k a w)) -> guarded auth w (bind (adb c) k w).
Proof. intros Hc Hw. apply guarded_bind. by apply adb_read. Qed.

Lemma try_keeps {A} (m : Api A) w : (m w).2 = w -> (try m w).2 = w.
Proof. unfold try. by destruct (m w) as [[] w']. Qed.

Lemma member_then {V} u e w (k : unit -> Api (Reply V)) auth : ready w ->
  (allowed (web_db w) u (OnOrg e None) -> guarded auth w (k tt w)) -> guarded auth w (bind (userCanAccessOrg u e) k w).
Proof.
  intros Hw Hk. apply guarded_bind; [by apply userCanAccessOrg_keeps|]. intros [] Ha. eauto using userCanAccessOrg_allowed.
Qed.

Lemma teammate_then {V} u te w (k : Team -> Api (Reply V)) auth : ready w ->
  (forall t, allowed (web_db w) u (OnTeam te None) -> guarded auth w (k t w)) -> guarded auth w (bind (userCanAccessTeam u te) k w).
Proof.
  intros Hw Hk. apply guarded_bind; [by apply userCanAccessTeam_keeps|]. intros t Ha.
  apply userCanAccessTeam_allowed in Ha as [Ha _]; auto.
Qed.

Lemma org_permission_then {V} u e p w (k : unit -> Api (Reply V)) : ready w ->
  guarded (allowed (web_db w) u (OnOrg e (Some p))) w (bind (RequireOrgPermission (u_ID u) e p) k w).
Proof.
  intros Hw. apply guarded_bind; [by apply RequireOrgPermission_keeps|]. intros [] Ha. left.
  by eapply RequireOrgPermission_allowed.
Qed.

Lemma team_permission_then {V} u te p w (k : unit -> Api (Reply V)) : ready w ->
  guarded (allowed (web_db w) u (OnTeam te (Some p))) w (bind (RequireTeamPermission (u_ID u) te p) k w).
Proof.
  intros Hw. apply guarded_bind; [by apply RequireTeamPermission_keeps|]. intros [] Ha. left.
  by eapply RequireTeamPermission_allowed.
Qed.

End steps.

(** * Requests *)

Section requests.
Context `{GoRange} (fuel : nat) (bcrypt_generate : string -> Z -> error + string) {Report : Type}.
#[local] Existing Instance memory_db.
#[local] Instance db_of_memory : DBImpl DB := memory_db fuel bcrypt_generate.
Variable answer : Effect -> option error.
Variable emailer : Mail Report -> option error.
Variable forceFeatureFlags : list string.
Variable encoder_Decode : time.Time -> string -> error + sessions.Session.
Variable FindBillingAccountByTeamID : string -> error + string.
Variable percentage : Z.
Variable usersSyncClient : bool.
Variables (stripHTML sha1_hex : string -> string).
Variable marketoMunchkinKey : string.
Variable ParseJWT : string -> error + string.
Variable ProviderID : string.
Variable http_list : string -> procurement.Reply (option procurement.APIError * list procurement.Entitlement).
Variable http_post : procurement.Post -> procurement.Reply (option procurement.APIError).
Abbreviation Api := (M (Web DB Report) error).
Implicit Types (w : Web DB Report) (u : User).

#[local] Notation dispatch := (dispatch (S:=DB) answer emailer forceFeatureFlags encoder_Decode
  FindBillingAccountByTeamID percentage usersSyncClient stripHTML sha1_hex marketoMunchkinKey ParseJWT
  ProviderID http_list http_post).
#[local] Notation ServeHTTP := (ServeHTTP (S:=DB) answer emailer forceFeatureFlags encoder_Decode
  FindBillingAccountByTeamID percentage usersSyncClient stripHTML sha1_hex marketoMunchkinKey ParseJWT
  ProviderID http_list http_post).

Lemma get_org_guarded u e w : ready w ->
  guarded (allowed (web_db w) u (OnOrg e None)) w (get_org forceFeatureFlags u e w).
Proof.
  intros Hw. apply read_then; [done|done|]. intros os Hos.
  destruct (List.find _ os) as [o|] eqn:Hf.
  - left. apply List.find_some in Hf as [Hin%list_elem_of_In He%bool_decide_eq_true].
    apply adb_Ret in Hos. destruct Hw as [Hd Hm].
    destruct (ListOrganizationsForUserIDs_run [u_ID u] _ Hd Hm) as (l & Hl & Hall & _).
    unfold call, db_of_memory, memory_db, memory in Hos. rewrite Hl in Hos. injection Hos as ->.
    apply Hall in Hin as (k & c & Hk & (x & ->%list_elem_of_singleton & [role Hrole]) & ->).
    exists k, c. split; [done|]. split; [|by exists role]. unfold same_id. apply bool_decide_eq_true_2.
    simpl in He. rewrite He. apply strings.ToLower_idemp.
  - apply read_then; [done|done|]. intros [] _; [by apply guarded_ret|apply guarded_throw].
Qed.

Lemma deleteOrg_guarded u e w : ready w ->
  guarded (allowed (web_db w) u (OnOrg e (Some permission.DeleteInstance))) w (deleteOrg answer usersSyncClient u e w).
Proof.
  intros Hw. apply guarded_bind; [apply try_keeps; by apply adb_read|]. intros [err|o] _.
  - case_decide; [by apply guarded_ret|apply guarded_throw].
  - apply read_then; [done|done|]. intros [] _; [|by apply guarded_ret]. simpl.
    destruct (o_GCP o); [by apply guarded_ret|]. by apply org_permission_then.
Qed.

Lemma removeUserFromTeam_guarded u te email w : ready w ->
  guarded (allowed (web_db w) u (scope u (api_users_team_remove_user te email))) w (removeUserFromTeam u te email w).
Proof.
  intros Hw. apply teammate_then; [done|]. intros t Ha. simpl scope.
  apply read_then; [done|done|]. intros x _. apply read_then; [done|done|]. intros ms _.
  destruct (decide (length ms = 1%nat)); [apply guarded_throw|]. apply read_then; [done|done|]. intros r _.
  apply guarded_bind; [by destruct r|]. intros r' _.
  destruct (decide (r_ID r' = AdminRoleID /\ _)); [apply guarded_throw|].
  destruct (decide (email = u_Email u)); [by left|by apply team_permission_then].
Qed.

Lemma updateUserRoleInTeam_guarded u te email body w : ready w ->
  guarded (allowed (web_db w) u (OnTeam te (Some permission.UpdateTeamMemberRole))) w
    (updateUserRoleInTeam u te email body w).
Proof.
  intros Hw. apply teammate_then; [done|]. intros t _. apply read_then; [done|done|]. intros x _.
  apply guarded_bind; [by destruct body|]. intros r _.
  destruct (decide (email = u_Email u)); [apply guarded_throw|]. by apply team_permission_then.
Qed.

Lemma inviteUserToTeam_guarded u te body w : ready w ->
  guarded (allowed (web_db w) u (OnTeam te (Some permission.InviteTeamMember))) w
    (inviteUserToTeam answer emailer u te body w).
Proof.
  intros Hw. apply guarded_bind; [by destruct body|]. intros r _. cbv zeta.
  case_decide; [apply guarded_throw|]. apply teammate_then; [done|]. intros t _. by apply team_permission_then.
Qed.

Lemma updateOrg_guarded u e body w : ready w ->
  guarded (allowed (web_db w) u (OnOrg e None)) w (updateOrg FindBillingAccountByTeamID percentage u e body w).
Proof. intros Hw. apply guarded_bind; [by destruct body|]. intros r _. apply member_then; [done|]. by left. Qed.

(** *** Moving an organization *)

Lemma apply_update_home update o : home (apply_update update o) = home o.
Proof. unfold apply_update, when_some. destruct o. by repeat case_match. Qed.

(** [UpdateOrganization] as a handler sees it: an error, or the organization of that external
    id, and the teams of the organizations are what they were. *)
Lemma api_UpdateOrganization_run e update w : ready w -> exists m,
  let w' := (adb (CallUpdateOrganization e update) w).2 in
  web_db w' = set_organizations m (web_db w) /\ homes (web_db w') = homes (web_db w) /\ ready w' /\
  forall o, (adb (CallUpdateOrganization e update) w).1 = Ret o -> exists k c, organizations (web_db w) !! k = Some c /\
    same_id (o_ExternalID c) e = true /\ o_TeamExternalID c = o_TeamExternalID o.
Proof.
  intros [Hd Hm]. cbv zeta. unfold db_of_memory. destruct (UpdateOrganization_spec e update (web_db w) Hd Hm) as (Hlong & Hno & Hok).
  pose proof (preserves_UpdateOrganization e update (web_db w) Hd) as Hinv.
  destruct (UpdateOrganization e update (web_db w)) as [o d] eqn:Hc.
  rewrite (adb_run fuel bcrypt_generate (CallUpdateOrganization e update) w o d Hc). simpl in *.
  unfold ready. assert (Hweb : web_db (set_web_srv (set_srv_db d (web_srv w)) w) = d) by by destruct w as [[]].
  rewrite Hweb. clear Hweb Hc.
  assert (Hsame : set_organizations (organizations (web_db w)) (web_db w) = web_db w) by by destruct (web_db w).
  destruct (match ow_Name update with Some n => _ | None => false end).
  { injection (Hlong eq_refl) as -> ->. exists (organizations (web_db w)). by rewrite Hsame. }
  destruct (find_ext_cases e (web_db w)) as [(k & c & Hf)|Hf].
  - apply find_ext_Ret in Hf as (_ & Hk & He). injection (Hok eq_refl k c Hk He) as -> ->.
    eexists. split; [reflexivity|]. split; [|split; [by split|]].
    + unfold homes. simpl. rewrite fmap_insert, apply_update_home. apply insert_id. by rewrite lookup_fmap, Hk.
    + intros o Ho. exists k, c. split; [done|]. split; [done|]. pose proof (apply_update_home update c) as Hh.
      destruct (Valid _); [done|]. injection Ho as <-. injection Hh. by destruct (apply_update update c).
  - assert (Hall : forall k o, organizations (web_db w) !! k = Some o -> same_id (o_ExternalID o) e = false).
    { intros k o' Hk. apply not_true_iff_false. intros He. by rewrite (find_ext_found _ k o') in Hf. }
    injection (Hno eq_refl Hall) as -> ->. exists (organizations (web_db w)). by rewrite Hsame.
Qed.

(** Every organization stays in its team, and a move is refused. *)
Definition unmoved {V} (update : OrgWriteView) w (res : outcome error (Reply V) * Web DB Report) : Prop :=
  homes (web_db res.2) = homes (web_db w) /\ (moves update -> forall r, res.1 = Ret r -> 400 <= code_of r).

Lemma unmoved_bind {A V} auth update w0 w (m : Api A) (k : A -> Api (Reply V)) :
  homes (web_db (m w).2) = homes (web_db w0) ->
  (forall a w', m w = (Ret a, w') -> auth \/ unmoved update w0 (k a w')) -> auth \/ unmoved update w0 (bind m k w).
Proof. intros Hm Hk. unfold bind. destruct (m w) as [[] w'] eqn:Hr; simpl in *; auto; right; by split. Qed.

(** A transfer that is not authorised fails and does nothing. *)
Lemma transfer_guarded u org te name w : ready w ->
  (allowed (web_db w) u (OnTeam (o_TeamExternalID org) (Some permission.TransferInstance)) /\
   (te <> EmptyString -> allowed (web_db w) u (OnTeam te (Some permission.TransferInstance)))) \/
  ((transfer FindBillingAccountByTeamID percentage u org te name w).2 = w /\
   forall a, (transfer FindBillingAccountByTeamID percentage u org te name w).1 <> Ret a).
Proof.
  intros Hw. unfold transfer, bind at 1 3.
  pose proof (RequireTeamPermission_keeps fuel bcrypt_generate (u_ID u) (o_TeamExternalID org) permission.TransferInstance w Hw) as Hk.
  destruct (RequireTeamPermission (u_ID u) (o_TeamExternalID org) _ w) as [[[]| | | |] w1] eqn:Hr; simpl in Hk; subst w1;
    try (right; split; [done|intros ?; discriminate]).
  apply (RequireTeamPermission_allowed fuel bcrypt_generate u) in Hr; [|done].
  destruct (decide (te = EmptyString)) as [->|Hte]; [by left|]. unfold bind at 1 2.
  pose proof (RequireTeamPermission_keeps fuel bcrypt_generate (u_ID u) te permission.TransferInstance w Hw) as Hk.
  destruct (RequireTeamPermission (u_ID u) te _ w) as [[[]| | | |] w1] eqn:Hr2; simpl in Hk; subst w1;
    try (right; split; [done|intros ?; discriminate]).
  apply (RequireTeamPermission_allowed fuel bcrypt_generate u) in Hr2; [|done]. by left.
Qed.

Lemma updateOrg_moves u e update w : ready w ->
  (moves update /\ may_transfer (web_db w) u e update) \/
  unmoved update w (updateOrg FindBillingAccountByTeamID percentage u e (inr update) w).
Proof.
  intros Hw. apply unmoved_bind; [done|]. intros x wx [= -> ->].
  pose proof (userCanAccessOrg_keeps fuel bcrypt_generate u e wx Hw) as Hk.
  apply unmoved_bind; [unfold db_of_memory; by rewrite Hk|]. intros [] w0 Hx.
  unfold db_of_memory in Hx. rewrite Hx in Hk. simpl in Hk. subst w0. clear Hx.
  destruct (api_UpdateOrganization_run e x wx Hw) as (m & Hdb & Hhomes & Hw' & Ho). cbv zeta in *.
  apply unmoved_bind; [done|]. intros org w' Hrun. rewrite Hrun in *. simpl in *.
  destruct (Ho org eq_refl) as (k & c & Hc & He & Hteam).
  destruct (decide _) as [Hno|Hmoves]; [by right|].
  destruct (transfer_guarded u org (ptostr (ow_TeamExternalID x)) (ptostr (ow_TeamName x)) w' Hw') as [[Hfrom Hto]|[Hst Herr]].
  - left. split; [done|]. exists k, c. rewrite Hdb in Hfrom, Hto. rewrite Hteam.
    by split_and!.
  - right. unfold bind. destruct (transfer _ _ _ _ _ _ w') as [[] w2]; simpl in *; subst w2; try (by split).
    by destruct (Herr a).
Qed.

Lemma getOrgServiceStatus_guarded u e sparse replies w : ready w ->
  guarded (allowed (web_db w) u (OnOrg e None)) w (getOrgServiceStatus u e sparse replies w).
Proof.
  intros Hw. apply read_then; [done|done|]. intros [] _; [|by apply guarded_ret].
  apply read_then; [done|done|]. intros [] Hb; [|by apply guarded_ret]. left. by apply UserIsMemberOf_allowed in Hb.
Qed.

Lemma listOrganizationUsers_guarded u e w : ready w ->
  guarded (allowed (web_db w) u (OnOrg e (Some permission.ViewTeamMembers))) w (api_listOrganizationUsers u e w).
Proof.
  intros Hw. apply member_then; [done|]. intros _. apply read_then; [done|done|]. intros us _.
  apply read_then; [done|done|]. intros o _. by apply org_permission_then.
Qed.

Lemma dispatch_guarded cookies u req w : ready w ->
  guarded (allowed (web_db w) u (scope u req)) w (dispatch cookies u req w).
Proof.
  intros Hw. destruct req; try (by left); apply guarded_as.
  - apply teammate_then; [done|]. by left.
  - by apply removeUserFromTeam_guarded.
  - by apply inviteUserToTeam_guarded.
  - by apply updateUserRoleInTeam_guarded.
  - apply teammate_then; [done|]. by left.
  - by apply get_org_guarded.
  - by apply updateOrg_guarded.
  - by apply deleteOrg_guarded.
  - apply member_then; [done|]. by left.
  - by apply getOrgServiceStatus_guarded.
  - by apply listOrganizationUsers_guarded.
  - apply member_then; [done|]. by left.
  - apply member_then; [done|]. intros _. by apply org_permission_then.
  - apply member_then; [done|]. intros _. by apply org_permission_then.
Qed.

(** ** Authentication *)

(** The cookies hold a session that decodes to this user's. *)
Definition caller cookies w u : Prop := exists session,
  (sessions.Get encoder_Decode cookies (web_http w)).1 = Ret session /\ u_ID u = sessions.UserID session /\
  users (web_db w) !! u_ID u = Some u.

Lemma Get_cookies cookies h : exists e, (sessions.Get encoder_Decode cookies h).2 = sessions.mkResponse e (sessions.set_cookies h).
Proof.
  unfold sessions.Get. destruct (sessions.Extract cookies) as [err|v]; [by exists (sessions.env_of h); destruct h|].
  unfold sessions.Decode, bind, sessions.Now. simpl. repeat case_match; simpl; by eexists.
Qed.

Lemma FindUserByID_Ret id u w w' : ready w -> adb (CallFindUserByID id) w = (Ret u, w') ->
  w' = w /\ users (web_db w) !! u_ID u = Some u /\ u_ID u = id.
Proof.
  intros Hw Hr. assert (w' = w) as ->.
  { pose proof (adb_read fuel bcrypt_generate (CallFindUserByID id) w eq_refl Hw) as Hk.
    unfold db_of_memory in Hr. by rewrite Hr in Hk. }
  apply adb_Ret in Hr. apply locked_Ret in Hr as (d1 & Hr & _). split; [done|].
  unfold findUserByID, bind, gets in Hr. simpl in Hr. apply or_else_Ret in Hr as [Hu _].
  destruct Hw as [((Hk & _) & _) _]. pose proof (Hk _ _ Hu) as Hid. simpl in Hid. by subst.
Qed.

Lemma cookieAuth_run cookies w : ready w -> exists h,
  (cookieAuth encoder_Decode cookies w).2 = set_web_http h w /\ sessions.set_cookies h = sessions.set_cookies (web_http w) /\
  forall u, (cookieAuth encoder_Decode cookies w).1 = Ret u -> caller cookies w u.
Proof.
  intros Hw. unfold cookieAuth, on_http, zoom, bind. destruct (Get_cookies cookies (web_http w)) as [e He].
  destruct (sessions.Get encoder_Decode cookies (web_http w)) as [o h] eqn:Hg. simpl in He. subst h.
  eexists. destruct o as [s| | | |]; simpl; [|by split; [|split; [|discriminate]]..].
  set (w1 := set_web_http _ w). assert (Hw1 : ready w1) by done. split.
  - apply (adb_read fuel bcrypt_generate (CallFindUserByID (sessions.UserID s)) w1); [done|exact Hw1].
  - split; [done|]. intros u Hu. destruct (adb _ w1) as [o w2] eqn:Hr. simpl in Hu. subst o.
    apply FindUserByID_Ret in Hr as (_ & Hu & Hid); [|done]. exists s. by rewrite Hg.
Qed.

Lemma renderError_refuses {V} e : 400 <= code_of (renderError (V:=V) e).
Proof. unfold renderError. pose proof (ErrorStatusCode_range e). case_match; simpl; lia. Qed.

Lemma ServeHTTP_run cookies req w : ready w -> exists h,
  sessions.set_cookies h = sessions.set_cookies (web_http w) /\
  ((exists u, caller cookies w u /\ ServeHTTP cookies req w = serve (dispatch cookies u req) (set_web_http h w)) \/
   ((ServeHTTP cookies req w).2 = set_web_http h w /\ forall r, (ServeHTTP cookies req w).1 = Ret r -> 400 <= code_of r)).
Proof.
  intros Hw. destruct (cookieAuth_run cookies w Hw) as (h & Hs & Hc & Hu). exists h. split; [done|].
  unfold ApiRoutes.ServeHTTP, authenticateUser, authenticateVia, bind, try.
  destruct (cookieAuth encoder_Decode cookies w) as [[u|err| | |] w1]; simpl in Hs, Hu; subst w1; simpl;
    [|right; split; [done|]; intros r Hr..].
  - left. exists u. by split; [apply Hu|].
  - injection Hr as <-. apply renderError_refuses.
  - discriminate Hr.
  - discriminate Hr.
  - discriminate Hr.
Qed.

Lemma serve_unmoved {V} auth update w (m : Api (Reply V)) :
  auth \/ unmoved update w (m w) -> auth \/ unmoved update w (serve m w).
Proof.
  intros [Ha|[Hh Hr]]; [by left|]. right. unfold serve, bind, try. destruct (m w) as [[] w']; simpl in *; split; simpl; try done.
  intros Hm r' [= <-]. apply renderError_refuses.
Qed.

Lemma as_unmoved {V} auth update w (f : V -> Content) (m : Api (Reply V)) :
  auth \/ unmoved update w (m w) -> auth \/ unmoved update w (as_ f m w).
Proof.
  intros [Ha|[Hh Hr]]; [by left|]. right. unfold as_, bind. destruct (m w) as [[] w']; simpl in *; split; simpl; try done.
  intros Hm r' [= <-]. rewrite code_of_map. by apply Hr.
Qed.

(** C1: over the in-memory database, a request to one of the routes for users ([RegisterRoutes]:
    those behind [authenticateUser]) is carried out only for its caller: either the cookies hold a session of a
    stored user who may make it (any user for what concerns herself, a member of the team of
    the organization, or of the team, for what concerns them, with the permission the route
    asks for in the role she has there), or the response is an error, or none at all after a panic,
    and the database, the mail, the calls of other services and the cookies of the response are
    what they were. The update of an organization takes membership only, but for a move: when its
    body names a team, either the caller has the permission to transfer instances in the team of
    the organization, and in the named one when it is named by its external id, or the response is an
    error, or none, and every organization stays in its team (its other fields may have been updated
    by then); and an update whose body names no team moves none. *)
Theorem requests_are_authorized cookies req w : ready w ->
  let res := ServeHTTP cookies req w in
  ((exists u, caller cookies w u /\ allowed (web_db w) u (scope u req)) \/
   (exists h, res.2 = set_web_http h w /\ sessions.set_cookies h = sessions.set_cookies (web_http w) /\
      forall r, res.1 = Ret r -> 400 <= code_of r)) /\
  (forall e update, req = api_users_org_update e (inr update) ->
   (moves update /\ exists u, caller cookies w u /\ may_transfer (web_db w) u e update) \/
   (homes (web_db res.2) = homes (web_db w) /\ (moves update -> forall r, res.1 = Ret r -> 400 <= code_of r))).
Proof.
  intros Hw. cbv zeta. destruct (ServeHTTP_run cookies req w Hw) as (h & Hc & [(u & Hu & ->)|[Hs Hr]]).
  - split.
    + destruct (guarded_serve _ _ _ (dispatch_guarded cookies u req (set_web_http h w) Hw)) as [Ha|[Hs Hr]];
        [left; by exists u | right; by exists h].
    + intros e update ->.
      destruct (serve_unmoved _ _ _ _ (as_unmoved _ _ _ nothing _ (updateOrg_moves u e update (set_web_http h w) Hw))) as [[Hm Ha]|Ho];
        [left; eauto|by right].
  - split; [by right; exists h|]. intros e update ->. right. by rewrite Hs.
Qed.

End requests.

(** * A concrete server *)

Module sample_api.
Import sample.

(** The session cookie of a user is her id. *)
Definition decode (now : time.Time) (v : string) : error + sessions.Session :=
  inr (sessions.mkSession "google" "17" v now EmptyString).
Definition jar (id : string) : list sessions.Cookie :=
  [sessions.mkCookie sessions.AuthCookieName id "/" true 0 0 false "weave"].
Definition fine (e : Effect) : option error := None.
Definition post_nothing (p : procurement.Post) : procurement.Reply (option procurement.APIError) := (procurement.NoResponse "no network").
Definition list_nothing (u : string) : procurement.Reply (option procurement.APIError * list procurement.Entitlement) := (procurement.NoResponse "no network").
Definition no_account (t : string) : error + string := inr EmptyString.
Definition same (s : string) : string := s.
Definition no_jwt (t : string) : error + string := inl ErrForbidden.
#[local] Instance api_db : DBImpl DB := db_of_memory fuel hash.
Definition web : Web DB string := mkWeb server [] (fun _ => 7) 0 (sessions.mkResponse env0 []) [].
Definition serve_sample (user : string) (req : Request) : outcome error (Reply Content) * Web DB string :=
  ServeHTTP (S:=DB) fine no_mail [] decode no_account 50 true same same EmptyString no_jwt "provider"
    list_nothing post_nothing (jar user) req web.

Lemma web_ready : ready web.
Proof. exact (conj inv unlocked). Qed.

(** The update that moves an organization to a new team. *)
Definition to_new_team : OrgWriteView := mkOrgWriteView None None None None None (Some "New Team") None None.
Definition move : Request := api_users_org_update "shared-org-02" (inr to_new_team).

(** The owner, who is an administrator of the team of both, moves the organization; the other
    member, an editor, is refused. *)
Lemma requests_are_authorized_witness :
  (serve_sample "1" (api_users_org_delete "own-org-01")).1 = Ret (Status 403) /\
  (serve_sample "0" (api_users_org_delete "own-org-01")).1 = Ret (Status 204) /\
  (serve_sample "0" move).1 = Ret (Status 204) /\ homes (web_db (serve_sample "0" move).2) !! "1" = Some ("3", "quiet-river-17") /\
  (serve_sample "1" move).1 = Ret (ErrorReply 403 "forbidden" None) /\
  ((moves to_new_team /\ exists u, caller decode (jar "1") web u /\ may_transfer (web_db web) u "shared-org-02" to_new_team) \/
   (homes (web_db (serve_sample "1" move).2) = homes (web_db web) /\
    (moves to_new_team -> forall r, (serve_sample "1" move).1 = Ret r -> 400 <= code_of r))).
Proof.
  do 5 (split; [vm_compute; reflexivity|]).
  exact (proj2 (requests_are_authorized fuel hash fine no_mail [] decode no_account 50 true same same EmptyString no_jwt "provider"
    list_nothing post_nothing (jar "1") move web web_ready) "shared-org-02" to_new_team eq_refl).
Defined.

End sample_api.
