(* ===== verification/Http.v ===== *)
(** HTTP requests and responses, handlers and middleware, regular expressions and route
    templates: the parts of net/http, net/url, path/filepath and regexp, and of the vendored
    gorilla/mux and weaveworks/common/middleware, that the edge of the system uses. *)
From Stdlib Require Import ZArith Lia Ascii String.
From stdpp Require Import base tactics option gmap strings list pretty.
From S2P Require Import Prelude GoStd Users MemDB Sessions.

(** * Messages *)

Module http.

Abbreviation Header := (gmap string (list string)).

(** [Header.Get]: the first value; [Add], [Set], [Del]. Names are in canonical form. *)
Definition Get (h : Header) (name : string) : string := default EmptyString (head (default [] (h !! name))).
Definition Add (name value : string) (h : Header) : Header := <[name := default [] (h !! name) ++ [value]]> h.
Definition Set_ (name value : string) (h : Header) : Header := <[name := [value]]> h.
Definition Del (name : string) (h : Header) : Header := delete name h.

(** A request: its path as sent ([URL.EscapedPath()]) and decoded ([URL.Path]), the variables
    of its route, what [BasicAuth] makes of it, the organization in its context, the host of its
    remote address, and its body, or the error of reading it. *)
Record Request : Type := mkRequest {
  Method : string;
  Host : string;
  EscapedPath : string;
  Path : string;
  Query : list (string * string);
  RawQuery : string;
  RequestURI : string;
  header : Header;
  cookies : list sessions.Cookie;
  BasicAuth : option (string * string);
  Vars : gmap string string;
  OrgID : option string;
  PostForm : list (string * string);
  RemoteHost : string;
  Body : string + string;
}.

Definition set_header (h : Header) (r : Request) : Request :=
  mkRequest (Method r) (Host r) (EscapedPath r) (Path r) (Query r) (RawQuery r) (RequestURI r) h
    (cookies r) (BasicAuth r) (Vars r) (OrgID r) (PostForm r) (RemoteHost r) (Body r).
Definition set_path (escaped decoded uri : string) (r : Request) : Request :=
  mkRequest (Method r) (Host r) escaped decoded (Query r) (RawQuery r) uri (header r)
    (cookies r) (BasicAuth r) (Vars r) (OrgID r) (PostForm r) (RemoteHost r) (Body r).
Definition set_query (q : list (string * string)) (raw : string) (r : Request) : Request :=
  mkRequest (Method r) (Host r) (EscapedPath r) (Path r) q raw (RequestURI r) (header r)
    (cookies r) (BasicAuth r) (Vars r) (OrgID r) (PostForm r) (RemoteHost r) (Body r).
Definition set_vars (v : gmap string string) (r : Request) : Request :=
  mkRequest (Method r) (Host r) (EscapedPath r) (Path r) (Query r) (RawQuery r) (RequestURI r) (header r)
    (cookies r) (BasicAuth r) v (OrgID r) (PostForm r) (RemoteHost r) (Body r).
Definition set_OrgID (o : option string) (r : Request) : Request :=
  mkRequest (Method r) (Host r) (EscapedPath r) (Path r) (Query r) (RawQuery r) (RequestURI r) (header r)
    (cookies r) (BasicAuth r) (Vars r) o (PostForm r) (RemoteHost r) (Body r).

Definition header_of (name : string) (r : Request) : string := Get (header r) name.
Definition add_header (name value : string) (r : Request) : Request := set_header (Add name value (header r)) r.

(** [r.Cookie(name)], [r.URL.Query().Get(name)], [r.URL.String()] *)
Definition Cookie (name : string) (r : Request) : option string :=
  sessions.c_Value <$> sessions.findCookie (cookies r) name.
Definition values_get (q : list (string * string)) (name : string) : string :=
  from_option snd EmptyString (List.find (fun kv => bool_decide (kv.1 = name)) q).
Definition URL_String (r : Request) : string :=
  EscapedPath r +:+ (if decide (RawQuery r = EmptyString) then EmptyString else "?" +:+ RawQuery r).

Record Response : Type := mkResponse { StatusCode : Z; resp_header : Header; resp_body : string }.

(** [w.WriteHeader(code)], [http.Error(w, text, code)], [http.Redirect] *)
Definition WriteHeader (code : Z) : Response := mkResponse code ∅ EmptyString.
Definition Error (text : string) (code : Z) : Response :=
  mkResponse code ∅ (text +:+ String (ascii_of_nat 10) EmptyString).
Definition Redirect (url : string) (code : Z) : Response := mkResponse code {["Location" := [url]]} EmptyString.

Lemma Get_Set name v h : Get (Set_ name v h) name = v.
Proof. unfold Get, Set_. by rewrite lookup_insert_eq. Qed.
Lemma Get_Set_ne name name' v h : name <> name' -> Get (Set_ name v h) name' = Get h name'.
Proof. intros Hne. unfold Get, Set_. by rewrite lookup_insert_ne. Qed.
Lemma Get_Add_ne name name' v h : name <> name' -> Get (Add name v h) name' = Get h name'.
Proof. intros Hne. unfold Get, Add. by rewrite lookup_insert_ne. Qed.
Lemma Get_Add name v h : Get (Add name v h) name = if bool_decide (default [] (h !! name) = []) then v else Get h name.
Proof. unfold Get, Add. rewrite lookup_insert_eq. simpl. by destruct (default [] (h !! name)). Qed.

End http.

(** * Encoded paths (net/url) *)

Module urlpath.

Definition from_hex (c : ascii) : option nat :=
  let n := nat_of_ascii c in
  if strings.is_digit c then Some (n - 48)%nat
  else if strings.between 97 102 c then Some (n - 87)%nat
  else if strings.between 65 70 c then Some (n - 55)%nat
  else None.

(** [url.PathUnescape] *)
Fixpoint PathUnescape (s : string) : option string :=
  match s with
  | EmptyString => Some EmptyString
  | String c s' =>
      if Ascii.eqb c "%"%char then
        match s' with
        | String a (String b s'') =>
            match from_hex a, from_hex b with
            | Some a, Some b => String (ascii_of_nat (16 * a + b)) <$> PathUnescape s''
            | _, _ => None
            end
        | _ => None
        end
      else String c <$> PathUnescape s'
  end.

Example unescaped : PathUnescape "/a%2fb" = Some "/a/b" /\ PathUnescape "%zz" = None.
Proof. split; reflexivity. Qed.

End urlpath.

(** * Regular expressions *)

Module regexp.

(** The expressions of the code: literal text, a choice of texts, and [.*]. *)
Inductive Rx : Type := Lit (s : string) | OneOf (l : list string) | AnyText.

Definition newline : ascii := ascii_of_nat 10.

(** Matches an expression at the start of a text. *)
Fixpoint match_at (rx : list Rx) (s : string) : bool :=
  match rx with
  | [] => true
  | Lit l :: rx' => strings.HasPrefix s l && match_at rx' (strings.drop (String.length l) s)
  | OneOf ls :: rx' => existsb (fun l => strings.HasPrefix s l && match_at rx' (strings.drop (String.length l) s)) ls
  | AnyText :: rx' =>
      (fix any s := match_at rx' s || match s with
                                      | EmptyString => false
                                      | String c s' => negb (Ascii.eqb c newline) && any s'
                                      end) s
  end.

(** [MatchString]: anywhere in the text. *)
Fixpoint MatchString (rx : list Rx) (s : string) : bool :=
  match_at rx s || match s with EmptyString => false | String _ s' => MatchString rx s' end.

Example matched :
  MatchString [Lit "/api/control/"; AnyText; Lit "/"; AnyText; Lit "/docker_"; OneOf ["pause"; "unpause"]; Lit "_container"]
    "/api/app/x/api/control/p/n/docker_unpause_container" = true
  /\ MatchString [Lit "/api/control/"; AnyText; Lit "/host_exec"] "/api/control/p/host-exec" = false.
Proof. split; vm_compute; reflexivity. Qed.

End regexp.

(** * UTF-8 *)

Module utf8.

Definition in_range (lo hi : Z) (c : ascii) : bool := let n := Z.of_nat (nat_of_ascii c) in (lo <=? n) && (n <=? hi).
Definition tail : ascii -> bool := in_range 128 191.

(** [utf8.Valid] *)
Fixpoint Valid (s : string) : bool :=
  match s with
  | EmptyString => true
  | String a s1 =>
      let n := Z.of_nat (nat_of_ascii a) in
      if n <? 128 then Valid s1
      else match s1 with
      | String b s2 =>
          if (194 <=? n) && (n <=? 223) then tail b && Valid s2
          else match s2 with
          | String c s3 =>
              if (224 <=? n) && (n <=? 239) then
                in_range (if n =? 224 then 160 else 128) (if n =? 237 then 159 else 191) b && tail c && Valid s3
              else match s3 with
              | String d s4 =>
                  (240 <=? n) && (n <=? 244)
                  && in_range (if n =? 240 then 144 else 128) (if n =? 244 then 143 else 191) b
                  && tail c && tail d && Valid s4
              | EmptyString => false
              end
          | EmptyString => false
          end
      | EmptyString => false
      end
  end.

Example valid : Valid "token" = true /\ Valid (String (ascii_of_nat 195) (String (ascii_of_nat 169) EmptyString)) = true
  /\ Valid (String (ascii_of_nat 255) EmptyString) = false.
Proof. vm_compute. repeat split. Qed.

End utf8.

(** * Path names (path/filepath) *)

Module filepath.

(** [filepath.Clean] of a rooted path: the elements kept, the last one first. *)
Definition push (acc : list string) (elem : string) : list string :=
  if decide (elem = EmptyString \/ elem = ".") then acc
  else if decide (elem = "..") then tail acc
  else elem :: acc.
Definition Clean (p : string) : string :=
  "/" +:+ strings.Join (rev (foldl push [] (strings.Split p "/"%char))) "/".

(** [filepath.Join] of rooted paths: empty elements are ignored. *)
Definition Join (a b : string) : string :=
  Clean (strings.Join (filter (fun e => e <> EmptyString) [a; b]) "/").

Example joined : Join "/api/app/{org}" "/" = "/api/app/{org}" /\ Join "" "/x" = "/x" /\ Join "/" "/" = "/"
  /\ Join "/admin" "/users" = "/admin/users".
Proof. vm_compute. repeat split. Qed.

End filepath.

(** * Route templates (gorilla/mux) *)

Module mux.

Inductive Item : Type := TLit (s : string) | TVar (name : string) | TAlt (name : string) (alternatives : list string).

(** [newRouteRegexp]: text, variables, and variables with a choice of values. *)
Definition variable (v : string) : Item :=
  match strings.cut ":"%char v with
  | Some (name, pattern) => TAlt name (strings.Split pattern "|"%char)
  | None => TVar v
  end.
Fixpoint parse_from (n : nat) (tpl : string) : list Item :=
  match n with
  | O => []
  | S n' =>
      match strings.cut "{"%char tpl with
      | None => [TLit tpl]
      | Some (raw, rest) =>
          match strings.cut "}"%char rest with
          | None => []
          | Some (v, rest) => TLit raw :: variable v :: parse_from n' rest
          end
      end
  end.
Definition parse (tpl : string) : list Item := parse_from (S (String.length tpl)) tpl.

(** [[^/]+], which takes as much as it can: in the templates of the code, what follows a
    variable is a slash or nothing. *)
Fixpoint segment (s : string) : string * string :=
  match s with
  | EmptyString => (EmptyString, EmptyString)
  | String c s' =>
      if Ascii.eqb c "/"%char then (EmptyString, s)
      else let '(a, b) := segment s' in (String c a, b)
  end.

(** A whole path, or the start of one: the values of the variables. *)
Fixpoint match_items (prefix : bool) (items : list Item) (vars : gmap string string) (path : string) : option (gmap string string) :=
  match items with
  | [] => if prefix || bool_decide (path = EmptyString) then Some vars else None
  | TLit l :: rest =>
      if strings.HasPrefix path l then match_items prefix rest vars (strings.drop (String.length l) path) else None
  | TVar name :: rest =>
      let '(v, path') := segment path in
      if decide (v = EmptyString) then None else match_items prefix rest (<[name := v]> vars) path'
  | TAlt name alternatives :: rest =>
      (fix try (l : list string) : option (gmap string string) :=
         match l with
         | [] => None
         | v :: l' =>
             match (if strings.HasPrefix path v
                    then match_items prefix rest (<[name := v]> vars) (strings.drop (String.length v) path) else None) with
             | Some vars => Some vars
             | None => try l'
             end
         end) alternatives
  end.
Definition Match (prefix : bool) (tpl path : string) : option (gmap string string) := match_items prefix (parse tpl) ∅ path.

Example matches :
  Match true "/api/app/{orgExternalID}/api/control" "/api/app/foo/api/control/x" = Some {["orgExternalID" := "foo"]}
  /\ Match true "/api/app/{orgExternalID}/api" "/api/app//api" = None
  /\ Match false "/{action:subscribe|login}-via/gcp" "/login-via/gcp" = Some {["action" := "login"]}
  /\ Match false "/demo" "/demo/" = None.
Proof. vm_compute. repeat split. Qed.

End mux.

(** * Handlers *)

Section handlers.
Context {S : Type}.

Definition Handler : Type := http.Request -> M S error http.Response.

(** A middleware wraps a handler; [middleware.Merge] puts the first outermost. *)
Definition Middleware : Type := Handler -> Handler.
Definition Identity : Middleware := fun next => next.
Definition Merge (l : list Middleware) : Middleware := fun next => fold_right (fun m h => m h) next l.

End handlers.
Arguments Handler : clear implicits.
Arguments Middleware : clear implicits.
