(* ===== verification/Encoding.v ===== *)
(** Texts the standard library reads and writes for the billing API: package encoding/base64, the queries of
    package net/url, times of the day, numbers of package fmt. *)
From Stdlib Require Import ZArith Lia Ascii String SpecFloat.
From stdpp Require Import base tactics option gmap strings list pretty.
From S2P Require Import Prelude GoStd Users MemDB Sessions Calendar Trial Formats Http.

Lemma string_app_nil_r (s : string) : s +:+ EmptyString = s.
Proof. induction s as [|c s IH]; [done|]. change (String c (s +:+ EmptyString) = String c s). by rewrite IH. Qed.
Lemma string_app_assoc (a b c : string) : (a +:+ b) +:+ c = a +:+ b +:+ c.
Proof. induction a as [|x a IH]; [done|]. change (String x ((a +:+ b) +:+ c) = String x (a +:+ b +:+ c)). by rewrite IH. Qed.

(** * Base 64 *)

Module base64.

(** [StdEncoding]: the character of a number below 64, and the number of a character. *)
Definition char_of (n : Z) : ascii :=
  ascii_of_nat (Z.to_nat (
    if n <? 26 then 65 + n else if n <? 52 then 71 + n else if n <? 62 then n - 4 else if n =? 62 then 43 else 47)).
Definition value_of (c : ascii) : option Z :=
  let n := Z.of_nat (nat_of_ascii c) in
  if strings.is_upper c then Some (n - 65) else if strings.is_lower c then Some (n - 71)
  else if strings.is_digit c then Some (n + 4) else if n =? 43 then Some 62 else if n =? 47 then Some 63 else None.
Definition StdPadding : ascii := "="%char.

Definition byte (c : ascii) : Z := Z.of_nat (nat_of_ascii c).
Definition of_byte (z : Z) : ascii := ascii_of_nat (Z.to_nat z).

(** [EncodeToString]: three bytes are four characters, what is left is padded. *)
Fixpoint encode (l : list ascii) : list ascii :=
  match l with
  | a :: b :: c :: l =>
      char_of (byte a / 4) :: char_of (byte a mod 4 * 16 + byte b / 16) :: char_of (byte b mod 16 * 4 + byte c / 64) :: char_of (byte c mod 64)
      :: encode l
  | [a; b] => [char_of (byte a / 4); char_of (byte a mod 4 * 16 + byte b / 16); char_of (byte b mod 16 * 4); StdPadding]
  | [a] => [char_of (byte a / 4); char_of (byte a mod 4 * 16); StdPadding; StdPadding]
  | [] => []
  end.
Definition EncodeToString (s : string) : string := String.string_of_list_ascii (encode (String.list_ascii_of_string s)).

(** [DecodeString]: ends of lines are skipped, padding ends the text; the bits of the last
    character that are left over are not looked at. *)
Fixpoint decode (l : list ascii) : option (list ascii) :=
  match l with
  | [] => Some []
  | a :: b :: c :: d :: l =>
      x ← value_of a; y ← value_of b;
      if Ascii.eqb c StdPadding then
        if Ascii.eqb d StdPadding && bool_decide (l = []) then Some [of_byte (x * 4 + y / 16)] else None
      else
        z ← value_of c;
        if Ascii.eqb d StdPadding then
          if bool_decide (l = []) then Some [of_byte (x * 4 + y / 16); of_byte (y mod 16 * 16 + z / 4)] else None
        else
          w ← value_of d;
          rest ← decode l;
          Some (of_byte (x * 4 + y / 16) :: of_byte (y mod 16 * 16 + z / 4) :: of_byte (z mod 4 * 64 + w) :: rest)
  | _ => None
  end.
Definition is_newline (c : ascii) : bool := let n := nat_of_ascii c in (n =? 10)%nat || (n =? 13)%nat.
Definition DecodeString (s : string) : option string :=
  String.string_of_list_ascii <$> decode (List.filter (fun c => negb (is_newline c)) (String.list_ascii_of_string s)).

Example encoded :
  EncodeToString "Man" = "TWFu" /\ EncodeToString "Ma" = "TWE=" /\ EncodeToString "M" = "TQ=="
  /\ DecodeString "TWE=" = Some "Ma" /\ DecodeString "TW" = None /\ DecodeString "TQ==x" = None /\ DecodeString "!!==" = None.
Proof. vm_compute. repeat split. Qed.

Lemma value_char_all : forallb (fun n => bool_decide (value_of (char_of (Z.of_nat n)) = Some (Z.of_nat n))
    && negb (Ascii.eqb (char_of (Z.of_nat n)) StdPadding) && negb (is_newline (char_of (Z.of_nat n)))) (seq 0 64) = true.
Proof. vm_compute. reflexivity. Qed.
Lemma char_of_ok n : 0 <= n < 64 ->
  value_of (char_of n) = Some n /\ Ascii.eqb (char_of n) StdPadding = false /\ is_newline (char_of n) = false.
Proof.
  intros Hn. pose proof (proj1 (forallb_forall _ _) value_char_all (Z.to_nat n)) as H.
  cbv beta in H. rewrite Z2Nat.id in H by lia. specialize (H ltac:(apply in_seq; lia)).
  apply andb_prop in H as [[H1 H2]%andb_prop H3]. apply bool_decide_eq_true in H1.
  by destruct (Ascii.eqb _ _), (is_newline _).
Qed.

Lemma byte_range c : 0 <= byte c < 256.
Proof. unfold byte. pose proof (nat_ascii_bounded c). lia. Qed.
Lemma of_byte_byte c : of_byte (byte c) = c.
Proof. unfold of_byte, byte. rewrite Nat2Z.id. apply ascii_nat_embedding. Qed.

(** Induction three bytes at a time. *)
Lemma triple_ind (P : list ascii -> Prop) :
  P [] -> (forall a, P [a]) -> (forall a b, P [a; b]) -> (forall a b c l, P l -> P (a :: b :: c :: l)) -> forall l, P l.
Proof.
  intros H0 H1 H2 H3. fix IH 1. intros [|a [|b [|c l]]]; [done|apply H1|apply H2|apply H3, IH].
Qed.

(** The six bits of a character, and the bytes they are put together to. *)
Lemma first_six x : 0 <= x < 256 -> 0 <= x / 4 < 64.
Proof. intros. Z.to_euclidean_division_equations; lia. Qed.
Lemma second_six x y : 0 <= x < 256 -> 0 <= y < 256 -> 0 <= x mod 4 * 16 + y / 16 < 64.
Proof. intros. Z.to_euclidean_division_equations; lia. Qed.
Lemma third_six x y : 0 <= x < 256 -> 0 <= y < 256 -> 0 <= x mod 16 * 4 + y / 64 < 64.
Proof. intros. Z.to_euclidean_division_equations; lia. Qed.
Lemma first_byte x y : 0 <= y < 256 -> x / 4 * 4 + (x mod 4 * 16 + y / 16) / 16 = x.
Proof. intros. rewrite Z.div_add_l by lia. Z.to_euclidean_division_equations; lia. Qed.
Lemma second_byte x y z : 0 <= y < 256 -> 0 <= z < 256 -> (x * 16 + y / 16) mod 16 * 16 + (y mod 16 * 4 + z / 64) / 4 = y.
Proof. intros. rewrite Z.div_add_l, (Z.add_comm (x * 16)), Z.mod_add by lia. Z.to_euclidean_division_equations; lia. Qed.
Lemma first_byte0 x : x / 4 * 4 + x mod 4 * 16 / 16 = x.
Proof. rewrite Z.div_mul by lia. Z.to_euclidean_division_equations; lia. Qed.
Lemma second_byte0 x y : 0 <= y < 256 -> (x * 16 + y / 16) mod 16 * 16 + y mod 16 * 4 / 4 = y.
Proof. intros. rewrite Z.div_mul by lia. rewrite (Z.add_comm (x * 16)), Z.mod_add by lia. Z.to_euclidean_division_equations; lia. Qed.
Lemma third_byte x y : 0 <= y < 256 -> (x * 4 + y / 64) mod 4 * 64 + y mod 64 = y.
Proof. intros. rewrite (Z.add_comm (x * 4)), Z.mod_add by lia. Z.to_euclidean_division_equations; lia. Qed.

Lemma decode_encode l : decode (encode l) = Some l.
Proof.
  induction l as [|a|a b|a b c l IH] using triple_ind; [done| | |];
    pose proof (byte_range a) as Ha; try pose proof (byte_range b) as Hb; try pose proof (byte_range c) as Hc; cbn [encode decode].
  - destruct (char_of_ok _ (first_six _ Ha)) as [-> _]. destruct (char_of_ok _ (second_six _ 0 Ha ltac:(lia))) as [Hy _].
    rewrite Z.add_0_r in Hy. rewrite Hy. cbn. by rewrite first_byte0, of_byte_byte.
  - destruct (char_of_ok _ (first_six _ Ha)) as [-> _]. destruct (char_of_ok _ (second_six _ _ Ha Hb)) as [-> _].
    destruct (char_of_ok _ (third_six _ 0 Hb ltac:(lia))) as (Hz & Hp & _). rewrite Z.add_0_r in Hz, Hp. rewrite Hz, Hp. cbn.
    by rewrite first_byte, second_byte0, !of_byte_byte.
  - destruct (char_of_ok _ (first_six _ Ha)) as [-> _]. destruct (char_of_ok _ (second_six _ _ Ha Hb)) as [-> _].
    destruct (char_of_ok _ (third_six _ _ Hb Hc)) as (-> & -> & _).
    destruct (char_of_ok (byte c mod 64) ltac:(apply Z.mod_pos_bound; lia)) as (-> & -> & _). cbn. rewrite IH. cbn.
    by rewrite first_byte, second_byte, third_byte, !of_byte_byte.
Qed.

Lemma encode_no_newline l : List.filter (fun c => negb (is_newline c)) (encode l) = encode l.
Proof.
  induction l as [|a|a b|a b c l IH] using triple_ind; [done| | |];
    pose proof (byte_range a) as Ha; try pose proof (byte_range b) as Hb; try pose proof (byte_range c) as Hc; cbn [encode List.filter].
  - destruct (char_of_ok _ (first_six _ Ha)) as (_ & _ & ->). destruct (char_of_ok _ (second_six _ 0 Ha ltac:(lia))) as (_ & _ & Hy).
    rewrite Z.add_0_r in Hy. by rewrite Hy.
  - destruct (char_of_ok _ (first_six _ Ha)) as (_ & _ & ->). destruct (char_of_ok _ (second_six _ _ Ha Hb)) as (_ & _ & ->).
    destruct (char_of_ok _ (third_six _ 0 Hb ltac:(lia))) as (_ & _ & Hz). rewrite Z.add_0_r in Hz. by rewrite Hz.
  - destruct (char_of_ok _ (first_six _ Ha)) as (_ & _ & ->). destruct (char_of_ok _ (second_six _ _ Ha Hb)) as (_ & _ & ->).
    destruct (char_of_ok _ (third_six _ _ Hb Hc)) as (_ & _ & ->).
    destruct (char_of_ok (byte c mod 64) ltac:(apply Z.mod_pos_bound; lia)) as (_ & _ & ->). cbn. by rewrite IH.
Qed.

(** What was encoded is decoded. *)
Lemma DecodeString_EncodeToString s : DecodeString (EncodeToString s) = Some s.
Proof.
  unfold DecodeString, EncodeToString. rewrite list_ascii_of_string_of_list_ascii, encode_no_newline, decode_encode.
  cbn. by rewrite string_of_list_ascii_of_string.
Qed.
End base64.

(** * Queries *)

Module query.

(** [url.QueryUnescape] *)
Fixpoint QueryUnescape (s : string) : option string :=
  match s with
  | EmptyString => Some EmptyString
  | String c s' =>
      if Ascii.eqb c "%"%char then
        match s' with
        | String a (String b s'') =>
            match urlpath.from_hex a, urlpath.from_hex b with
            | Some a, Some b => String (ascii_of_nat (16 * a + b)) <$> QueryUnescape s''
            | _, _ => None
            end
        | _ => None
        end
      else String (if Ascii.eqb c "+"%char then " "%char else c) <$> QueryUnescape s'
  end.

(** [url.ParseQuery], without the settings that are malformed. *)
Definition setting (kv : string) : list (string * string) :=
  if decide (kv = EmptyString) then []
  else if strings.Contains kv ";" then []
  else
    let '(key, value) := default (kv, EmptyString) (strings.cut "="%char kv) in
    match QueryUnescape key, QueryUnescape value with Some key, Some value => [(key, value)] | _, _ => [] end.
Definition ParseQuery (raw : string) : list (string * string) := kv ← strings.Split raw "&"%char; setting kv.

Example parsed_query : ParseQuery "a=1&b=x%3D+y&&c;=2&%zz=1&d" = [("a", "1"); ("b", "x= y"); ("d", EmptyString)].
Proof. vm_compute. reflexivity. Qed.

Definition all_bytes : list ascii := ascii_of_nat <$> seq 0 256.
Lemma all_bytes_spec c : In c all_bytes.
Proof.
  rewrite <- (ascii_nat_embedding c). apply list_elem_of_In, list_elem_of_fmap_2. apply elem_of_seq. pose proof (nat_ascii_bounded c). lia.
Qed.

Lemma QueryUnescape_escape c s : QueryUnescape (url.escape c +:+ s) = String c <$> QueryUnescape s.
Proof. destruct c as [[] [] [] [] [] [] [] []]; reflexivity. Qed.
Lemma QueryUnescape_QueryEscape s : QueryUnescape (url.QueryEscape s) = Some s.
Proof. induction s as [|c s IH]; [done|]. cbn [url.QueryEscape]. by rewrite QueryUnescape_escape, IH. Qed.

(** The characters that separate the parts of a URL do not occur in what was escaped. *)
Definition plain (c : ascii) : bool :=
  negb (existsb (Ascii.eqb c) ["&"%char; ";"%char; "="%char; "?"%char; "#"%char; "/"%char]).
Lemma escape_all : forallb (fun c => strings.all plain (url.escape c)) all_bytes = true.
Proof. vm_compute. reflexivity. Qed.
Lemma all_app p a b : strings.all p (a +:+ b) = strings.all p a && strings.all p b.
Proof. induction a as [|c a IH]; [done|]. change (String c a +:+ b) with (String c (a +:+ b)). cbn [strings.all]. by rewrite IH, andb_assoc. Qed.
Lemma QueryEscape_plain s : strings.all plain (url.QueryEscape s) = true.
Proof.
  induction s as [|c s IH]; [done|]. cbn [url.QueryEscape]. rewrite all_app, IH, andb_true_r.
  exact (proj1 (forallb_forall _ _) escape_all c (all_bytes_spec c)).
Qed.

Lemma all_impl (p q : ascii -> bool) s : (forall c, p c = true -> q c = true) -> strings.all p s = true -> strings.all q s = true.
Proof. intros Hpq. induction s as [|c s IH]; [done|]. cbn [strings.all]. intros [Hc Hs]%andb_prop. by rewrite Hpq, IH. Qed.
Lemma split_none word sep s : strings.all (fun c => negb (Ascii.eqb c sep)) s = true -> strings.split_from word sep s = [word +:+ s].
Proof.
  revert word. induction s as [|c s IH]; intros word; cbn [strings.all strings.split_from].
  - by rewrite string_app_nil_r.
  - intros [Hc Hs]%andb_prop. destruct (Ascii.eqb c sep); [done|]. by rewrite IH, string_app_assoc.
Qed.
Lemma plain_not s c : In c ["&"%char; ";"%char; "="%char; "?"%char; "#"%char; "/"%char] ->
  strings.all plain s = true -> strings.all (fun x => negb (Ascii.eqb x c)) s = true.
Proof.
  intros Hc. apply all_impl. intros x Hx%Bool.negb_true_iff. destruct (Ascii.eqb_spec x c) as [->|]; [|done].
  exfalso. enough (existsb (Ascii.eqb c) ["&"%char; ";"%char; "="%char; "?"%char; "#"%char; "/"%char] = true) by congruence.
  apply existsb_exists. exists c. by rewrite Ascii.eqb_refl.
Qed.

(** A query of one setting is read back. *)
Lemma ParseQuery_one key value : strings.all plain key = true -> key <> EmptyString -> QueryUnescape key = Some key ->
  ParseQuery (key +:+ "=" +:+ url.QueryEscape value) = [(key, value)].
Proof.
  intros Hk Hne Hu. pose proof (QueryEscape_plain value) as Hv. unfold ParseQuery, strings.Split.
  rewrite split_none.
  2:{ rewrite !all_app. rewrite (plain_not key), (plain_not (url.QueryEscape value)) by (done || by left). done. }
  cbn [mbind list_bind]. rewrite app_nil_r. unfold setting. change (EmptyString +:+ ?s) with s.
  rewrite decide_False by (by destruct key). 
  assert (strings.Contains (key +:+ "=" +:+ url.QueryEscape value) ";" = false) as ->.
  { destruct (strings.Contains _ ";") eqn:He; [|done]. apply strings.Contains_spec in He as (a & b & He).
    assert (Hall : strings.all (fun c => negb (Ascii.eqb c ";"%char)) (key +:+ "=" +:+ url.QueryEscape value) = true).
    { rewrite !all_app. rewrite (plain_not key), (plain_not (url.QueryEscape value)) by (done || right; by left). done. }
    rewrite He, !all_app in Hall. cbn in Hall. by rewrite andb_false_r in Hall. }
  change (key +:+ "=" +:+ url.QueryEscape value) with (key +:+ String "=" (url.QueryEscape value)).
  rewrite strings.cut_app by (apply (plain_not key); [do 2 right; by left|done]). cbn [default from_option id].
  by rewrite Hu, QueryUnescape_QueryEscape.
Qed.
End query.

(** * Paths of requests *)

(** [cleanPath] of the router, and [(u *URL) EscapedPath()] of a path that was set. *)
Definition cleanPath (p : string) : string :=
  if decide (p = EmptyString) then "/"
  else
    let np := filepath.Clean p in
    if strings.HasSuffix p "/" && negb (bool_decide (np = "/")) then np +:+ "/" else np.
Fixpoint escape_path (s : string) : string :=
  match s with
  | EmptyString => EmptyString
  | String c s' =>
      (if url.unreserved c || existsb (Ascii.eqb c) (String.list_ascii_of_string "$&+,/:;=@") then String c EmptyString
       else String "%" (String (url.hex (nat_of_ascii c / 16)) (String (url.hex (nat_of_ascii c mod 16)) EmptyString))) +:+ escape_path s'
  end.

(** * Times of the day *)

(** Digits at the front of a text: two of them, or one or two. *)
Definition take_two (l : list ascii) : option (Z * list ascii) :=
  match l with a :: b :: l => n ← digits [a; b]; Some (n, l) | _ => None end.
Definition take_one_or_two (l : list ascii) : option (Z * list ascii) :=
  match l with
  | a :: b :: l' => if strings.is_digit b then take_two l else n ← digits [a]; Some (n, b :: l')
  | [a] => n ← digits [a]; Some (n, [])
  | [] => None
  end.
Definition take_char (c : ascii) (l : list ascii) : option (list ascii) :=
  match l with x :: l => if Ascii.eqb x c then Some l else None | [] => None end.
Fixpoint skip_spaces (l : list ascii) : list ascii :=
  match l with c :: l' => if Ascii.eqb c " "%char then skip_spaces l' else l | [] => [] end.
Fixpoint take_digits (fuel : nat) (l : list ascii) : list ascii * list ascii :=
  match fuel, l with
  | Datatypes.S fuel, c :: l' => if strings.is_digit c then let '(d, r) := take_digits fuel l' in (c :: d, r) else ([], l)
  | _, _ => ([], l)
  end.

(** [parseNanoseconds]: a point or a comma and digits, of which there are at most [limit]; without
    them the fraction is left out. *)
Definition take_fraction (limit : nat) (l : list ascii) : option (Z * list ascii) :=
  match l with
  | p :: c :: l' =>
      if (Ascii.eqb p "."%char || Ascii.eqb p ","%char) && strings.is_digit c then
        let '(d, rest) := take_digits limit (c :: l') in
        n ← digits d;
        if 10 ^ 9 <=? n then None else Some (n * 10 ^ Z.max 0 (9 - Z.of_nat (length d)), rest)
      else Some (0, l)
  | _ => Some (0, l)
  end.

Definition take_date (l : list ascii) : option (time.Time * list ascii) :=
  match l with
  | y1 :: y2 :: y3 :: y4 :: "-"%char :: m1 :: m2 :: "-"%char :: d1 :: d2 :: rest =>
      t ← ParseDate (String.string_of_list_ascii [y1; y2; y3; y4; "-"%char; m1; m2; "-"%char; d1; d2]); Some (t, rest)
  | _ => None
  end.
Definition take_clock (limit : nat) (l : list ascii) : option (Z * list ascii) :=
  '(h, l) ← take_one_or_two l; l ← take_char ":" l;
  '(m, l) ← take_two l; l ← take_char ":" l;
  '(s, l) ← take_two l; '(n, l) ← take_fraction limit l;
  if (h <? 24) && (m <? 60) && (s <? 60) then Some ((h * 3600 + m * 60 + s) * time.Second + n, l) else None.

(** [time.Parse("2006-01-02 15:04:05", s)]: the space stands for any number of them. *)
Definition ParseDateTime (s : string) : option time.Time :=
  '(day, l) ← take_date (String.list_ascii_of_string s);
  l ← match l with c :: _ => if Ascii.eqb c " "%char then Some (skip_spaces l) else None | [] => Some [] end;
  '(clock, l) ← take_clock (length l) l;
  if bool_decide (l = []) then Some (day + clock) else None.

(** [time.Parse(time.RFC3339Nano, s)] *)
Definition signed_digits (a b : ascii) : option Z :=
  if Ascii.eqb a "-"%char then n ← digits [b]; Some (- n)
  else if Ascii.eqb a "+"%char then digits [b] else digits [a; b].
Definition take_zone (l : list ascii) : option (Z * list ascii) :=
  match l with
  | "Z"%char :: l => Some (0, l)
  | sign :: h1 :: h2 :: ":"%char :: m1 :: m2 :: l =>
      h ← signed_digits h1 h2; m ← signed_digits m1 m2;
      let offset := (h * 60 + m) * 60 in
      if Ascii.eqb sign "+"%char then Some (offset, l) else if Ascii.eqb sign "-"%char then Some (- offset, l) else None
  | _ => None
  end.
Definition ParseRFC3339Nano (s : string) : option time.Time :=
  '(day, l) ← take_date (String.list_ascii_of_string s);
  l ← take_char "T" l;
  '(clock, l) ← take_clock 9 l;
  '(offset, l) ← take_zone l;
  if bool_decide (l = []) then Some (day + clock - offset * time.Second) else None.

Example parsed_times :
  ParseDateTime "2018-04-09 3:05:07" = Some (civil.Date 2018 4 9 + (3 * 3600 + 5 * 60 + 7) * time.Second)
  /\ ParseDateTime "2018-04-09 13:05:07.25" = Some (civil.Date 2018 4 9 + (13 * 3600 + 5 * 60 + 7) * time.Second + 250000000)
  /\ ParseDateTime "2018-04-09T13:05:07" = None /\ ParseDateTime "2018-04-09 24:00:00" = None
  /\ ParseRFC3339Nano "2018-04-09T13:05:07.5+02:00" = Some (civil.Date 2018 4 9 + (11 * 3600 + 5 * 60 + 7) * time.Second + 500000000)
  /\ ParseRFC3339Nano "2018-04-09T13:05:07" = None
  /\ ParseRFC3339Nano (RFC3339Nano (civil.Date 2018 4 9 + 120 * 1000000)) = Some (civil.Date 2018 4 9 + 120 * 1000000).
Proof. vm_compute. repeat split. Qed.

(** * Numbers *)

Definition mul (x y : spec_float) : spec_float := SFmul float64.prec float64.emax x y.
Definition sub (x y : spec_float) : spec_float := SFsub float64.prec float64.emax x y.
(** The number nearest to [p / q]. *)
Definition of_ratio (p q : Z) : spec_float := float64.div (float64.of_int p) (float64.of_int q).

(** The multiple of [10 ^ -n] nearest to [m * 2 ^ e], the even one of two. *)
Definition round_decimal (n : nat) (m e : Z) : Z :=
  let x := m * 10 ^ Z.of_nat n in
  if 0 <=? e then x * 2 ^ e
  else
    let q := x / 2 ^ (- e) in
    let r := 2 * (x mod 2 ^ (- e)) in
    if (2 ^ (- e) <? r) || ((r =? 2 ^ (- e)) && Z.odd q) then q + 1 else q.
(** [fmt.Sprintf("%.nf", x)] *)
Definition FormatFloat (n : nat) (x : spec_float) : string :=
  match x with
  | S754_nan => "NaN"
  | S754_infinity s => if s : bool then "-Inf" else "+Inf"
  | S754_zero s => (if s : bool then "-" else EmptyString) +:+ (if decide (n = O) then "0" else "0." +:+ pad n 0)
  | S754_finite s m e =>
      let d := round_decimal n (Zpos m) e in
      (if s : bool then "-" else EmptyString) +:+ pretty (d / 10 ^ Z.of_nat n)
      +:+ (if decide (n = O) then EmptyString else "." +:+ pad n (d mod 10 ^ Z.of_nat n))
  end.

Example formatted_floats :
  FormatFloat 2 (of_ratio 1 3) = "0.33" /\ FormatFloat 2 (of_ratio 2 3) = "0.67" /\ FormatFloat 0 (of_ratio 5 2) = "2"
  /\ FormatFloat 0 (of_ratio 7 2) = "4" /\ FormatFloat 2 (of_ratio 1 8) = "0.12" /\ FormatFloat 2 (float64.of_int (-3)) = "-3.00"
  /\ FormatFloat 2 (mul (of_ratio 1 100) (float64.of_int 12345)) = "123.45".
Proof. vm_compute. repeat split. Qed.
