(* ===== verification/Middleware.v ===== *)
(** The client of the users service (users/client): the calls of its interface, the client of
    the gRPC server, the middleware that authenticates requests with it, and the middleware
    that adds the token of a user. *)
From Stdlib Require Import ZArith Lia Ascii String.
From stdpp Require Import base tactics option gmap strings list pretty.
From S2P Require Import Prelude GoStd Users MemDB MemUser UsersDB Sessions UsersServer UsersClient Http Api ApiOrg.

(** * The interface (users.pb.go) *)

Inductive ClientCall : Type -> Type :=
  | LookupOrgRequest (Cookie OrgExternalID : string) (AuthorizeFor : AuthorizedAction) : ClientCall LookupOrgResponse
  | LookupUsingTokenRequest (Token : string) (AuthorizeFor : AuthorizedAction) : ClientCall LookupUsingTokenResponse
  | LookupAdminRequest (Cookie : string) : ClientCall string
  | LookupUserRequest (Cookie : string) : ClientCall string
  | GetUserRequest (UserID : string) : ClientCall User
  | GetOrganizationRequest (ID : OrganizationRef) : ClientCall Organization
  | LookupOrganizationWebhookUsingSecretIDRequest (SecretID : string) : ClientCall Webhook
  | SetOrganizationWebhookFirstSeenAtRequest (SecretID : string) : ClientCall time.Time
  | RequireOrgMemberPermissionToRequest (OrgExternalID UserID PermissionID : string) : ClientCall unit.

Definition UsersClient (W : Type) : Type := forall A, ClientCall A -> M W error A.

(** The client of the gRPC server, behind its interceptor. *)
Definition grpc_client {S Report} `{DBImpl S} (sessions_Decode : string -> error + sessions.Session)
    : UsersClient (Server S Report) := fun A c => GRPCErrorInterceptor
  match c in ClientCall A return M (Server S Report) error A with
  | LookupOrgRequest cookie e action => LookupOrg sessions_Decode cookie e action
  | LookupUsingTokenRequest token action => LookupUsingToken token action
  | LookupAdminRequest cookie => LookupAdmin sessions_Decode cookie
  | LookupUserRequest cookie => LookupUser sessions_Decode cookie
  | GetUserRequest id => GetUser id
  | GetOrganizationRequest ref => GetOrganization ref
  | LookupOrganizationWebhookUsingSecretIDRequest secretID => LookupOrganizationWebhookUsingSecretID secretID
  | SetOrganizationWebhookFirstSeenAtRequest secretID => srv_SetOrganizationWebhookFirstSeenAt secretID
  | RequireOrgMemberPermissionToRequest e userID permissionID =>
      RequireOrgMemberPermissionTo userID e EmptyString permissionID
  end.

(** * Middleware *)

(** [user.OrgIDHeaderName], [user.UserIDHeaderName] (weaveworks/common/user) *)
Definition OrgIDHeaderName : string := "X-Scope-OrgID".
Definition UserIDHeaderName : string := "X-Scope-UserID".
Definition WebhooksIntegrationTypeHeader : string := "X-Webhooks-Integration-Type".
Definition GitlabPushIntegrationType : string := "gitlab.push".

Section middleware.
Context {W : Type} (client : UsersClient W).
(** [github.ValidatePayload]: whether the signature of a request is that of its body. *)
Variable ValidatePayload : http.Request -> string -> bool.

Abbreviation H := (M W error).

(** [handleError] *)
Definition handleError (err : error) : http.Response :=
  match err with
  | GRPCError code body =>
      if code =? 401 then http.Error "Unauthorized" 401
      else if (code =? 403) || (code =? 402) || (code =? 404) then http.Error body code
      else http.WriteHeader 401
  | _ => http.WriteHeader 502
  end.

(** A call whose error is the response. *)
Definition asking {A} (c : ClientCall A) (k : A -> H http.Response) : H http.Response :=
  do r <- try (client A c);
  match r with inl err => ret (handleError err) | inr a => k a end.

(** [finishRequest], with [user.InjectOrgIDIntoHTTPRequest]: another organization in the header
    is an error. *)
Definition finishRequest (next : Handler W) (r : http.Request) (orgID : string) : H http.Response :=
  let existing := http.header_of OrgIDHeaderName r in
  if decide (existing <> EmptyString /\ existing <> orgID) then ret (handleError (ErrMsg "different org ID already present"))
  else next (http.set_header (http.Set_ OrgIDHeaderName orgID (http.header r)) (http.set_OrgID (Some orgID) r)).

(** [AuthOrgMiddleware] *)
Record AuthOrgMiddleware : Type := mkAuthOrg {
  ao_OrgExternalID : http.Request -> option string;
  ao_UserIDHeader : string;
  ao_FeatureFlagsHeader : string;
  ao_RequireFeatureFlags : list string;
  ao_AuthorizeFor : AuthorizedAction }.

Definition AuthOrg_Wrap (a : AuthOrgMiddleware) : Middleware W := fun next r =>
  match ao_OrgExternalID a r with
  | None => ret (http.WriteHeader 400)
  | Some orgExternalID =>
      match http.Cookie sessions.AuthCookieName r with
      | None => ret (http.WriteHeader 401)
      | Some authCookie =>
          asking (LookupOrgRequest authCookie orgExternalID (ao_AuthorizeFor a)) (fun response =>
            if negb (featureflag.HasFeatureAllFlags (ao_RequireFeatureFlags a) (lo_FeatureFlags response))
            then ret (http.WriteHeader 401)
            else
              let r := http.add_header (ao_UserIDHeader a) (lo_UserID response) r in
              let r := http.add_header (ao_FeatureFlagsHeader a) (strings.Join (lo_FeatureFlags response) " ") r in
              finishRequest next r (lo_OrganizationID response))
      end
  end.

(** [AuthProbeMiddleware] *)
Record AuthProbeMiddleware : Type := mkAuthProbe {
  ap_FeatureFlagsHeader : string;
  ap_RequireFeatureFlags : list string;
  ap_AuthorizeFor : AuthorizedAction }.

Definition AuthProbe_Wrap (a : AuthProbeMiddleware) : Middleware W := fun next r =>
  match tokens.ExtractToken (http.header_of "Authorization" r) (http.BasicAuth r) with
  | None => ret (http.WriteHeader 401)
  | Some token =>
      if negb (utf8.Valid token) then ret (http.WriteHeader 401)
      else asking (LookupUsingTokenRequest token (ap_AuthorizeFor a)) (fun response =>
        if negb (featureflag.HasFeatureAllFlags (ap_RequireFeatureFlags a) (lt_FeatureFlags response))
        then ret (http.WriteHeader 401)
        else
          let r := http.add_header (ap_FeatureFlagsHeader a) (strings.Join (lt_FeatureFlags response) " ") r in
          finishRequest next r (lt_OrganizationID response))
  end.

(** [AuthAdminMiddleware] *)
Definition AuthAdmin_Wrap : Middleware W := fun next r =>
  match http.Cookie sessions.AuthCookieName r with
  | None => ret (http.WriteHeader 401)
  | Some authCookie => asking (LookupAdminRequest authCookie) (fun AdminID => finishRequest next r AdminID)
  end.

(** [AuthUserMiddleware] *)
Definition AuthUser_Wrap (UserIDHeader : string) : Middleware W := fun next r =>
  match http.Cookie sessions.AuthCookieName r with
  | None => ret (http.WriteHeader 401)
  | Some authCookie =>
      asking (LookupUserRequest authCookie) (fun UserID => next (http.add_header UserIDHeader UserID r))
  end.

(** [AuthSecretMiddleware] *)
Definition AuthSecret_Wrap (Secret : string) : Middleware W := fun next r =>
  let secret := http.values_get (http.Query r) "secret" in
  if decide (Secret = EmptyString \/ secret <> Secret) then ret (http.Error "Unauthorized" 401)
  else next r.

(** [WebhooksMiddleware]: the signature of a webhook is that of its integration. *)
Definition signature (r : http.Request) (webhook : Webhook) : option http.Response :=
  if decide (w_IntegrationType webhook = GithubPushIntegrationType) then
    if decide (w_SecretSigningKey webhook = EmptyString) then Some (http.Error "The GitHub signing key is missing." 500)
    else match http.Body r with
         | inl err => Some (http.Error ("Could not read request body: " +:+ err) 400)
         | inr _ =>
             if ValidatePayload r (w_SecretSigningKey webhook) then None
             else Some (http.Error "The GitHub signature header is invalid." 401)
         end
  else if decide (w_IntegrationType webhook = GitlabPushIntegrationType) then
    if decide (w_SecretSigningKey webhook = EmptyString) then Some (http.Error "The Gitlab shared secret is missing" 500)
    else if decide (http.header_of "X-Gitlab-Token" r = w_SecretSigningKey webhook) then None
    else Some (http.Error "The Gitlab token does not match" 401)
  else None.

Definition Webhooks_Wrap (IntegrationTypeHeader : string) : Middleware W := fun next r =>
  let secretID := default EmptyString (http.Vars r !! "secretID") in
  asking (LookupOrganizationWebhookUsingSecretIDRequest secretID) (fun webhook =>
    match signature r webhook with
    | Some refusal => ret refusal
    | None =>
        let finish :=
          finishRequest next (http.add_header IntegrationTypeHeader (w_IntegrationType webhook) r) (w_OrganizationID webhook) in
        match w_FirstSeenAt webhook with
        | None => asking (SetOrganizationWebhookFirstSeenAtRequest secretID) (fun _ => finish)
        | Some _ => finish
        end
    end).

(** [UserPermissionsMiddleware]: the requests that need a permission, by a search in the text of
    their URL. *)
Definition guarded_paths : list (list regexp.Rx * list string * string) :=
  let control path := [regexp.Lit "/api/control/"; regexp.AnyText; regexp.Lit "/"; regexp.AnyText] ++ path in
  [ ([regexp.Lit "/api/prom/configs/rules"], ["POST"], permission.UpdateAlertingSettings);
    (control [regexp.Lit "/host_exec"], ["POST"], permission.OpenHostShell);
    (control [regexp.Lit "/docker_exec_container"], ["POST"], permission.OpenContainerShell);
    (control [regexp.Lit "/docker_attach_container"], ["POST"], permission.AttachToContainer);
    (control [regexp.Lit "/docker_"; regexp.OneOf ["pause"; "unpause"]; regexp.Lit "_container"], ["POST"], permission.PauseContainer);
    (control [regexp.Lit "/docker_restart_container"], ["POST"], permission.RestartContainer);
    (control [regexp.Lit "/docker_stop_container"], ["POST"], permission.StopContainer);
    (control [regexp.Lit "/kubernetes_get_logs"], ["POST"], permission.ViewPodLogs);
    (control [regexp.Lit "/kubernetes_scale_"; regexp.OneOf ["up"; "down"]], ["POST"], permission.UpdateReplicaCount);
    (control [regexp.Lit "/kubernetes_delete_pod"], ["POST"], permission.DeletePod);
    ([regexp.Lit "/api/flux/v9/update-manifests"], ["POST"], permission.DeployImage);
    ([regexp.Lit "/api/flux/v6/update-images"], ["POST"], permission.DeployImage);
    ([regexp.Lit "/api/flux/v6/policies"], ["PATCH"], permission.UpdateDeploymentPolicy);
    ([regexp.Lit "/api/notification/config/"; regexp.AnyText], ["POST"; "PUT"], permission.UpdateNotificationSettings) ].

Definition needs (r : http.Request) (p : list regexp.Rx * list string * string) : bool :=
  let '(path, methods, _) := p in
  bool_decide (http.Method r ∈ methods) && regexp.MatchString path (http.URL_String r).

Fixpoint check_paths (UserIDHeader : string) (next : Handler W) (r : http.Request)
    (l : list (list regexp.Rx * list string * string)) : H http.Response :=
  match l with
  | [] => next r
  | p :: l' =>
      if needs r p then
        asking (RequireOrgMemberPermissionToRequest (default EmptyString (http.Vars r !! "orgExternalID"))
                  (http.header_of UserIDHeader r) p.2)
          (fun _ => check_paths UserIDHeader next r l')
      else check_paths UserIDHeader next r l'
  end.
Definition UserPermissions_Wrap (UserIDHeader : string) : Middleware W := fun next r =>
  check_paths UserIDHeader next r guarded_paths.

(** [ScopeCensorMiddleware], with [url.Values]: [Set], and [Encode], which sorts by key. *)
Definition values_set (name value : string) (q : list (string * string)) : list (string * string) :=
  filter (fun kv => kv.1 <> name) q ++ [(name, value)].
Definition Encode (q : list (string * string)) : string :=
  strings.Join ((fun kv : string * string => url.QueryEscape kv.1 +:+ "=" +:+ url.QueryEscape kv.2) <$>
    sort.Sort (fun a b : string * string => String.ltb a.1 b.1) q) "&".

Definition censored (r : http.Request) : http.Request :=
  let q := values_set "hideEnvironmentVariables" "true" (values_set "hideCommandLineArguments" "true" (http.Query r)) in
  http.set_query q (Encode q) r.

Definition ScopeCensor_Wrap (UserIDHeader : string) : Middleware W := fun next r =>
  do res <- try (client _ (RequireOrgMemberPermissionToRequest (default EmptyString (http.Vars r !! "orgExternalID"))
                             (http.header_of UserIDHeader r) permission.ViewToken));
  match res with
  | inl _ => next (censored r)
  | inr _ => next r
  end.

End middleware.

(** * Tokens of users (token_injector.go) *)

(** [APIError] or any other error. *)
Inductive TokenError : Type :=
  | APIError (StatusCode : Z) (Body : string)
  | OtherError (text : string).
Definition TokenError_Error (e : TokenError) : string :=
  match e with APIError code body => pretty code +:+ " (" +:+ body +:+ ")" | OtherError text => text end.

(** What the admin page of a token answers: nothing, a status with a body, or a body that
    decodes to a token. *)
Inductive TokenReply : Type :=
  | NoTokenReply (err : string)
  | BadStatus (StatusCode : Z) (Body : string)
  | TokenBody (decoded : string + string).

Section token.
Context {W : Type}.
Variable client_Do : string -> TokenReply.

(** [doTokenRequest], [decodeToken], [TokenForUser] *)
Definition decodeToken (reply : TokenReply) : TokenError + string :=
  match reply with
  | NoTokenReply err => inl (OtherError err)
  | BadStatus code body => inl (APIError code body)
  | TokenBody (inl err) => inl (OtherError err)
  | TokenBody (inr tok) =>
      if decide (tok = EmptyString) then inl (OtherError "GH integration - empty token") else inr tok
  end.
Definition TokenForUser (UserIDHeader : string) (r : http.Request) (provider : string) : TokenError + string :=
  let userID := http.header_of UserIDHeader r in
  if decide (userID = EmptyString) then inl (OtherError "GH integration - invalid request")
  else decodeToken (client_Do ("/admin/users/users/" +:+ userID +:+ "/logins/" +:+ provider +:+ "/token")).

(** [GHIntegrationMiddleware]: the text of the error is a format. *)
Definition GHIntegration_Wrap (UserIDHeader : string) : Middleware W := fun next r =>
  match TokenForUser UserIDHeader r "github" with
  | inl err =>
      ret (http.mkResponse (match err with APIError code _ => code | OtherError _ => 422 end) ∅
             (format.Sprintf (TokenError_Error err)))
  | inr tok => next (http.set_header (http.Set_ "Githubtoken" tok (http.header r)) r)
  end.

End token.
