(* ===== verification/Caching.v ===== *)
(** The caching client of the users service (users/client/cache.go): answers of the server,
    refusals of authentication and of payment included, are given again until they expire.
    The LRU caches (github.com/bluele/gcache) are a parameter with their laws. *)
From Stdlib Require Import ZArith Lia Ascii String.
From stdpp Require Import base tactics option gmap strings list pretty.
From S2P Require Import Prelude GoStd Users MemDB UsersDB Sessions UsersServer UsersClient Http Middleware.

(** * Caches *)

(** A cache of values by key: [Get] may forget and reorder entries, [Set] may evict some. *)
Class GCache (C K V : Type) := {
  cache_Get : time.Time -> K -> C -> option V * C;
  cache_Set : time.Time -> K -> V -> C -> C;
}.

(** [holds c k v t]: the cache holds the value [v] for the key [k], set at the instant [t]. *)
Class LawfulGCache (C K V : Type) (Expiration : time.Duration) `{GCache C K V} := {
  holds : C -> K -> V -> time.Time -> Prop;
  holds_Get : forall now k c v c', cache_Get now k c = (Some v, c') ->
    exists t, holds c k v t /\ now - t <= Expiration;
  holds_after_Get : forall now k c k' v t, holds (cache_Get now k c).2 k' v t -> holds c k' v t;
  holds_after_Set : forall now k v c k' v' t, holds (cache_Set now k v c) k' v' t ->
    (k' = k /\ v' = v /\ t = now) \/ holds c k' v' t;
}.

(** * The client *)

Section client.
Context {W OrgC ProbeC UserC : Type}.
Context `{GCache OrgC (string * string * AuthorizedAction) (error + LookupOrgResponse)}.
Context `{GCache ProbeC (string * AuthorizedAction) (error + LookupUsingTokenResponse)}.
Context `{GCache UserC string User}.

(** [cachingClient]: the state of the client it embeds, its caches, its clock. *)
Record cachingClient : Type := mkCachingClient {
  embedded : W;
  orgCredCache : option OrgC;
  probeCredCache : option ProbeC;
  userCache : option UserC;
  cc_clock : nat -> time.Time;
  cc_ticks : nat }.

Definition set_embedded (w : W) (c : cachingClient) : cachingClient :=
  mkCachingClient w (orgCredCache c) (probeCredCache c) (userCache c) (cc_clock c) (cc_ticks c).
Definition set_orgCredCache (x : OrgC) (c : cachingClient) : cachingClient :=
  mkCachingClient (embedded c) (Some x) (probeCredCache c) (userCache c) (cc_clock c) (cc_ticks c).
Definition set_probeCredCache (x : ProbeC) (c : cachingClient) : cachingClient :=
  mkCachingClient (embedded c) (orgCredCache c) (Some x) (userCache c) (cc_clock c) (cc_ticks c).
Definition set_userCache (x : UserC) (c : cachingClient) : cachingClient :=
  mkCachingClient (embedded c) (orgCredCache c) (probeCredCache c) (Some x) (cc_clock c) (cc_ticks c).

Abbreviation CC := (M cachingClient error).

Definition cc_Now : CC time.Time := fun c =>
  (Ret (cc_clock c (cc_ticks c)),
   mkCachingClient (embedded c) (orgCredCache c) (probeCredCache c) (userCache c) (cc_clock c) (Datatypes.S (cc_ticks c))).

Variable client : UsersClient W.
Definition remote {A} (call : ClientCall A) : CC A := zoom embedded set_embedded (client A call).

(** [isErrorCachable] *)
Definition isErrorCachable (err : error) : bool :=
  match err with GRPCError code _ => (code =? 401) || (code =? 402) | _ => false end.
Definition cachable {A} (r : error + A) : bool := match r with inl err => isErrorCachable err | inr _ => true end.

(** What a result stands for. *)
Definition outcome_of {A} (r : error + A) : outcome error A := match r with inl err => Err err | inr a => Ret a end.

(** A cache, and how the results of a call are kept in it: what is set for a result, if
    anything, and the result a value stands for. *)
Section through.
Context {C K V A : Type} `{GCache C K V}.
Variables (get : cachingClient -> option C) (set : C -> cachingClient -> cachingClient).
Variables (keep : error + A -> option V) (result : V -> error + A).

Definition remember (key : K) (v : V) : CC unit :=
  do cache <- gets get;
  do now <- cc_Now;
  match cache with Some cache => modify (set (cache_Set now key v cache)) | None => ret tt end.

(** A call that may be answered from the cache: the key is the request. *)
Definition through (key : K) (call : ClientCall A) : CC A :=
  do cache <- gets get;
  match cache with
  | None => remote call
  | Some cache =>
      do now <- cc_Now;
      let '(found, cache') := cache_Get now key cache in
      modify (set cache') ;;;
      match found with
      | Some v => fun s => (outcome_of (result v), s)
      | None =>
          do r <- try (remote call);
          match keep r with Some v => remember key v | None => ret tt end ;;;
          (fun s => (outcome_of r, s))
      end
  end.
End through.

(** [LookupOrg], [LookupUsingToken]: successes and some errors are kept. *)
Definition keep_cachable {A} (r : error + A) : option (error + A) := if cachable r then Some r else None.

Definition caching_LookupOrg (cookie e : string) (action : AuthorizedAction) : CC LookupOrgResponse :=
  through orgCredCache set_orgCredCache keep_cachable id (cookie, e, action) (LookupOrgRequest cookie e action).
Definition caching_LookupUsingToken (token : string) (action : AuthorizedAction) : CC LookupUsingTokenResponse :=
  through probeCredCache set_probeCredCache keep_cachable id (token, action) (LookupUsingTokenRequest token action).

(** [GetUser]: errors are not kept. *)
Definition keep_success {A} (r : error + A) : option A := match r with inl _ => None | inr a => Some a end.
Definition caching_GetUser (userID : string) : CC User :=
  through userCache set_userCache keep_success inr userID (GetUserRequest userID).

(** The other calls are those of the embedded client. *)
Definition caching_client : UsersClient cachingClient := fun A c =>
  match c in ClientCall A return CC A with
  | LookupOrgRequest cookie e action => caching_LookupOrg cookie e action
  | LookupUsingTokenRequest token action => caching_LookupUsingToken token action
  | GetUserRequest userID => caching_GetUser userID
  | LookupAdminRequest cookie => remote (LookupAdminRequest cookie)
  | LookupUserRequest cookie => remote (LookupUserRequest cookie)
  | GetOrganizationRequest ref => remote (GetOrganizationRequest ref)
  | LookupOrganizationWebhookUsingSecretIDRequest secretID => remote (LookupOrganizationWebhookUsingSecretIDRequest secretID)
  | SetOrganizationWebhookFirstSeenAtRequest secretID => remote (SetOrganizationWebhookFirstSeenAtRequest secretID)
  | RequireOrgMemberPermissionToRequest e userID p => remote (RequireOrgMemberPermissionToRequest e userID p)
  end.

End client.
Arguments cachingClient : clear implicits.
