(* ===== verification/CachingSpec.v ===== *)
(** What the caching client answers: what the server answered to the same request, at most an
    expiration ago. *)
From Stdlib Require Import ZArith Lia Ascii String.
From stdpp Require Import base tactics option gmap strings list pretty.
From S2P Require Import Prelude GoStd Users MemDB UsersDB Sample Sessions UsersServer MemLawful UsersClient Http Middleware Caching.

Section spec.
Context {W OrgC ProbeC UserC : Type} (org_exp probe_exp user_exp : time.Duration).
Context `{LawfulGCache OrgC (string * string * AuthorizedAction) (error + LookupOrgResponse) org_exp}.
Context `{LawfulGCache ProbeC (string * AuthorizedAction) (error + LookupUsingTokenResponse) probe_exp}.
Context `{LawfulGCache UserC string User user_exp}.
Variable client : UsersClient W.
Abbreviation State := (cachingClient W OrgC ProbeC UserC).
Implicit Types (s : State).

(** The three caches are places of the state that the calls of the embedded client and the
    clock leave alone. *)
Class Place {C : Type} (get : State -> option C) (set : C -> State -> State) : Prop := {
  place_get : forall x s, get (set x s) = Some x;
  place_keeps : forall x s, embedded (set x s) = embedded s /\ cc_clock (set x s) = cc_clock s /\ cc_ticks (set x s) = cc_ticks s;
  place_embedded : forall w s, get (set_embedded w s) = get s;
  place_now : forall s, get (cc_Now s).2 = get s;
}.
#[local] Instance place_org : Place orgCredCache set_orgCredCache.
Proof. by constructor. Qed.
#[local] Instance place_probe : Place probeCredCache set_probeCredCache.
Proof. by constructor. Qed.
#[local] Instance place_user : Place userCache set_userCache.
Proof. by constructor. Qed.

(** The next two readings of the clock. *)
Definition now s : time.Time := cc_clock s (cc_ticks s).
Definition later s : time.Time := cc_clock s (S (cc_ticks s)).

Section through.
Context {C K V A : Type} (e : time.Duration) `{LawfulGCache C K V e}.
Context (get : State -> option C) (set : C -> State -> State) (Hp : Place get set).
Context (keep : error + A -> option V) (result : V -> error + A) (keep_result : forall r v, keep r = Some v -> result v = r).

Lemma remember_run key v s c : get s = Some c ->
  remember get set key v s = (Ret tt, set (cache_Set (now s) key v c) (cc_Now s).2).
Proof. intros Hc. unfold remember, bind, gets, cc_Now, modify. simpl. by rewrite Hc. Qed.

(** What a call through a cache answers, and what the cache then holds. *)
Lemma through_run key (call : ClientCall A) s :
  let o := (client A call (embedded s)).1 in
  let '(o', s') := through client get set keep result key call s in
  (o' = o \/ exists c v t, get s = Some c /\ holds c key v t /\ now s - t <= e /\ o' = outcome_of (result v)) /\
  (forall c' k v t, get s' = Some c' -> holds c' k v t ->
     (exists c, get s = Some c /\ holds c k v t) \/ (k = key /\ o = outcome_of (result v) /\ t = later s)).
Proof using Hp keep_result.
  cbv zeta. unfold through, gets, bind at 1. simpl.
  destruct (get s) as [c|] eqn:Hc.
  2:{ unfold remote, zoom. destruct (client A call (embedded s)) as [o w]. split; [by left|].
      intros c' k v t. by rewrite (place_embedded (Place:=Hp)), Hc. }
  unfold cc_Now at 1, bind at 1. simpl. set (s1 := mkCachingClient _ _ _ _ _ _).
  change (cc_clock s (cc_ticks s)) with (now s).
  destruct (cache_Get (now s) key c) as [found c1] eqn:Hg.
  unfold bind at 1, modify. simpl. set (s2 := set c1 s1).
  assert (Hold : forall k v t, holds c1 k v t -> holds c k v t).
  { intros k v t. pose proof (holds_after_Get (now s) key c k v t) as Hx. by rewrite Hg in Hx. }
  destruct found as [v|]; simpl.
  - split.
    + right. destruct (holds_Get _ _ _ _ _ Hg) as (t & Ht & Hexp). by exists c, v, t.
    + intros c' k v' t. unfold s2. rewrite (place_get (Place:=Hp)). intros [= <-] Hh. left. exists c. auto.
  - destruct (place_keeps (Place:=Hp) c1 s1) as (He & Hclock & Hticks). fold s2 in He, Hclock, Hticks.
    unfold bind at 1, try, remote, zoom. rewrite He. change (embedded s1) with (embedded s).
    destruct (client A call (embedded s)) as [o w]. simpl. set (s3 := set_embedded w s2).
    assert (Hs3 : get s3 = Some c1) by (unfold s3, s2; by rewrite (place_embedded (Place:=Hp)), (place_get (Place:=Hp))).
    assert (Hnow : now s3 = later s) by (unfold now, later, s3; simpl; by rewrite Hclock, Hticks).
    assert (Hkept : forall r, (match keep r with Some v => remember get set key v | None => ret tt end ;;; (fun s => (outcome_of r, s))) s3
      = (outcome_of r, match keep r with Some v => set (cache_Set (later s) key v c1) (cc_Now s3).2 | None => s3 end)).
    { intros r. destruct (keep r) as [v|]; [|done]. unfold bind. rewrite (remember_run key v s3 c1 Hs3). by rewrite Hnow. }
    assert (Hholds : forall r c' k v t,
      get (match keep r with Some v => set (cache_Set (later s) key v c1) (cc_Now s3).2 | None => s3 end) = Some c' ->
      holds c' k v t -> (exists c0, Some c = Some c0 /\ holds c0 k v t) \/ (k = key /\ outcome_of r = outcome_of (result v) /\ t = later s)).
    { intros r c' k v t. destruct (keep r) as [v0|] eqn:Hk; [rewrite (place_get (Place:=Hp))|rewrite Hs3]; intros [= <-] Hh;
        [apply holds_after_Set in Hh as [(-> & -> & ->)|Hh]|].
      - right. by rewrite (keep_result _ _ Hk).
      - left. exists c. auto.
      - left. exists c. auto. }
    destruct o as [a|err| | |]; simpl.
    + specialize (Hkept (inr a)). simpl in Hkept. rewrite Hkept. split; [by left|]. apply (Hholds (inr a)).
    + specialize (Hkept (inl err)). simpl in Hkept. rewrite Hkept. split; [by left|]. apply (Hholds (inl err)).
    + split; [by left|]. intros c' k v t. rewrite Hs3. intros [= <-] Hh. left. exists c. auto.
    + split; [by left|]. intros c' k v t. rewrite Hs3. intros [= <-] Hh. left. exists c. auto.
    + split; [by left|]. intros c' k v t. rewrite Hs3. intros [= <-] Hh. left. exists c. auto.
Qed.

Lemma through_keeps {X} (f : State -> X) key (call : ClientCall A) s :
  (forall x s, f (set x s) = f s) -> (forall w s, f (set_embedded w s) = f s) -> (forall s, f (cc_Now s).2 = f s) ->
  f (through client get set keep result key call s).2 = f s.
Proof.
  intros Hset Hemb Hnow.
  assert (Hrem : forall k v s, f (remember get set k v s).2 = f s).
  { intros k v s1. unfold remember, bind, gets, cc_Now, modify. simpl. pose proof (Hnow s1) as Hn. simpl in Hn.
    destruct (get s1); simpl; by rewrite ?Hset, Hn. }
  assert (Hremote : forall s, f (remote client call s).2 = f s).
  { intros s1. unfold remote, zoom. destruct (client A call (embedded s1)). simpl. apply Hemb. }
  unfold through, gets, bind at 1. simpl. destruct (get s) as [c|]; [|apply Hremote].
  unfold cc_Now, bind at 1. simpl. pose proof (Hnow s) as Hn. simpl in Hn. revert Hn. generalize (mkCachingClient (embedded s)
    (orgCredCache s) (probeCredCache s) (userCache s) (cc_clock s) (S (cc_ticks s))) as s1. intros s1 Hn.
  destruct (cache_Get (cc_clock s (cc_ticks s)) key c) as [found c1]. unfold bind at 1, modify. simpl.
  destruct found as [v|]; simpl; [by rewrite Hset|].
  unfold bind at 1, try. pose proof (Hremote (set c1 s1)) as Hr. rewrite Hset in Hr.
  destruct (remote client call (set c1 s1)) as [[] s2]; simpl in *; try congruence.
  - destruct (keep (inr a)) as [v|]; unfold bind; simpl; [|congruence].
    specialize (Hrem key v s2). destruct (remember get set key v s2) as [[] s3]; simpl in *; congruence.
  - destruct (keep (inl e0)) as [v|]; unfold bind; simpl; [|congruence].
    specialize (Hrem key v s2). destruct (remember get set key v s2) as [[] s3]; simpl in *; congruence.
Qed.

End through.

(** * Histories *)

(** In one of these states the embedded client answers the call like this, and the instant is
    that of the reading of the clock that follows. *)
Definition answered {A} (h : list State) (c : ClientCall A) (o : outcome error A) (t : time.Time) : Prop :=
  exists s0, s0 ∈ h /\ (client A c (embedded s0)).1 = o /\ t = later s0.

Lemma answered_later {A} s h (c : ClientCall A) o t : answered h c o t -> answered (s :: h) c o t.
Proof. intros (s0 & Hin & Hs0). exists s0. split; [by right|done]. Qed.

(** Every value a cache holds was answered. *)
Definition all_answered {C K V A} {e} `{LawfulGCache C K V e} (get : State -> option C) (call_of : K -> ClientCall A)
    (result : V -> error + A) (h : list State) s : Prop :=
  forall c k v t, get s = Some c -> holds c k v t -> answered h (call_of k) (outcome_of (result v)) t.

Section records.
Context {C K V A : Type} {e : time.Duration} `{LawfulGCache C K V e}.
Context (get : State -> option C) (set : C -> State -> State) (Hp : Place get set).
Context (keep : error + A -> option V) (result : V -> error + A) (keep_result : forall r v, keep r = Some v -> result v = r).
Context (call_of : K -> ClientCall A).

Lemma through_records key h s : s ∈ h -> all_answered get call_of result h s ->
  all_answered get call_of result ((through client get set keep result key (call_of key) s).2 :: h)
    (through client get set keep result key (call_of key) s).2.
Proof using Hp keep_result.
  intros Hs Hrec. pose proof (through_run e get set Hp keep result keep_result key (call_of key) s) as Hr.
  destruct (through _ _ _ _ _ _ _ s) as [o' s']. destruct Hr as [_ Hr]. simpl. intros c k v t Hc Hh.
  apply answered_later. destruct (Hr _ _ _ _ Hc Hh) as [(c0 & Hc0 & Hh0)|(-> & Ho & ->)]; [by eapply Hrec|]. by exists s.
Qed.

Lemma through_answers key h s o s' : s ∈ h -> all_answered get call_of result h s ->
  through client get set keep result key (call_of key) s = (o, s') ->
  exists s0, s0 ∈ h /\ (client A (call_of key) (embedded s0)).1 = o /\ (s0 = s \/ now s - later s0 <= e).
Proof using Hp keep_result.
  intros Hs Hrec Hrun. pose proof (through_run e get set Hp keep result keep_result key (call_of key) s) as Hr.
  rewrite Hrun in Hr. destruct Hr as [[->|(c & v & t & Hc & Hh & Hexp & ->)] _].
  - exists s. auto.
  - destruct (Hrec _ _ _ _ Hc Hh) as (s0 & Hs0 & Ho & ->). exists s0. auto.
Qed.

End records.

Lemma all_answered_keeps {C K V A} {e} `{LawfulGCache C K V e} (get : State -> option C) (call_of : K -> ClientCall A)
    (result : V -> error + A) h s s' : get s' = get s -> all_answered get call_of result h s ->
  all_answered get call_of result (s' :: h) s'.
Proof. intros Hg Hrec c k v t. rewrite Hg. intros Hc Hh. by eapply answered_later, Hrec. Qed.

(** The states a caching client has been in, the present one first: it starts with empty
    caches. *)
Definition empty_caches s : Prop :=
  (forall c, orgCredCache s = Some c -> forall k v t, ~ holds c k v t) /\
  (forall c, probeCredCache s = Some c -> forall k v t, ~ holds c k v t) /\
  (forall c, userCache s = Some c -> forall k v t, ~ holds c k v t).

Inductive history : list State -> State -> Prop :=
  | history_start s : empty_caches s -> history [s] s
  | history_call h s A (c : ClientCall A) : history h s ->
      history ((caching_client client A c s).2 :: h) (caching_client client A c s).2.

Definition org_call (k : string * string * AuthorizedAction) := LookupOrgRequest k.1.1 k.1.2 k.2.
Definition probe_call (k : string * AuthorizedAction) := LookupUsingTokenRequest k.1 k.2.

Definition recorded h s : Prop :=
  all_answered orgCredCache org_call id h s /\ all_answered probeCredCache probe_call id h s /\
  all_answered userCache GetUserRequest inr h s.

Lemma keep_cachable_result {A} (r v : error + A) : keep_cachable r = Some v -> id v = r.
Proof. unfold keep_cachable. case_match; [|done]. by intros [= ->]. Qed.
Lemma keep_success_result {A} (r : error + A) v : keep_success r = Some v -> inr v = r.
Proof. destruct r; [done|]. by intros [= ->]. Qed.

Lemma remote_keeps {A X} (f : State -> X) (c : ClientCall A) s :
  (forall w s, f (set_embedded w s) = f s) -> f (remote client c s).2 = f s.
Proof. intros Hf. unfold remote, zoom. destruct (client A c (embedded s)). simpl. apply Hf. Qed.

Lemma call_records h s A (c : ClientCall A) : s ∈ h -> recorded h s ->
  recorded ((caching_client client A c s).2 :: h) (caching_client client A c s).2.
Proof.
  intros Hs (Ho & Hpr & Hu).
  destruct c; cbn [caching_client];
    try (split; [|split]; (eapply all_answered_keeps; [by apply remote_keeps|done])).
  - split; [|split].
    + by apply (through_records orgCredCache set_orgCredCache place_org keep_cachable id keep_cachable_result org_call (Cookie, OrgExternalID, AuthorizeFor)).
    + eapply all_answered_keeps; [by apply through_keeps|done].
    + eapply all_answered_keeps; [by apply through_keeps|done].
  - split; [|split].
    + eapply all_answered_keeps; [by apply through_keeps|done].
    + by apply (through_records probeCredCache set_probeCredCache place_probe keep_cachable id keep_cachable_result probe_call (Token, AuthorizeFor)).
    + eapply all_answered_keeps; [by apply through_keeps|done].
  - split; [|split].
    + eapply all_answered_keeps; [by apply through_keeps|done].
    + eapply all_answered_keeps; [by apply through_keeps|done].
    + by apply (through_records userCache set_userCache place_user keep_success inr keep_success_result GetUserRequest UserID).
Qed.

Lemma history_now h s : history h s -> s ∈ h.
Proof. destruct 1; by left. Qed.

Lemma history_recorded h s : history h s -> recorded h s.
Proof.
  induction 1 as [s (Ho & Hpr & Hu)|h s A c Hh IH].
  - split; [|split]; intros c k v t Hc Hx; exfalso; [by eapply Ho|by eapply Hpr|by eapply Hu].
  - apply call_records; [by apply history_now|done].
Qed.

(** How old the answer to a call may be. *)
Definition expiration {A} (c : ClientCall A) : time.Duration :=
  match c with
  | LookupOrgRequest _ _ _ => org_exp
  | LookupUsingTokenRequest _ _ => probe_exp
  | GetUserRequest _ => user_exp
  | _ => 0
  end.

(** C40: the caching client gives the answer the server gives to the same request, now or in an
    earlier state of its history, in which the answer was received at most one expiration of
    the cache before the request is looked up; a refusal is remembered no longer than that. *)
Theorem caching_client_recent h s A (c : ClientCall A) o s' :
  history h s -> caching_client client A c s = (o, s') ->
  exists s0, s0 ∈ h /\ (client A c (embedded s0)).1 = o /\ (s0 = s \/ now s - later s0 <= expiration c).
Proof.
  intros Hh. pose proof (history_now _ _ Hh) as Hs. destruct (history_recorded _ _ Hh) as (Ho & Hpr & Hu).
  destruct c; cbn [caching_client expiration];
    try (intros Hr; exists s; split; [done|]; split; [|by left]; unfold remote, zoom in Hr;
         destruct (client _ _ (embedded s)); simpl in *; congruence).
  - apply (through_answers orgCredCache set_orgCredCache place_org keep_cachable id keep_cachable_result org_call (Cookie, OrgExternalID, AuthorizeFor)); done.
  - apply (through_answers probeCredCache set_probeCredCache place_probe keep_cachable id keep_cachable_result probe_call (Token, AuthorizeFor)); done.
  - apply (through_answers userCache set_userCache place_user keep_success inr keep_success_result GetUserRequest UserID); done.
Qed.

End spec.

(** * A cache that never evicts *)

Section alist.
Context {K V : Type} `{EqDecision K} (e : time.Duration).

Definition alist : Type := list (K * V * time.Time).

#[export] Instance alist_cache : GCache alist K V := {
  cache_Get now k c :=
    (match List.find (fun x => bool_decide (x.1.1 = k)) c with
     | Some (_, v, t) => if now - t <=? e then Some v else None
     | None => None
     end, c);
  cache_Set now k v c := (k, v, now) :: c;
}.

#[export] Program Instance alist_lawful : LawfulGCache alist K V e := {
  holds c k v t := (k, v, t) ∈ c;
}.
Next Obligation.
  intros now k c v c'. simpl. destruct (List.find _ c) as [[[k' v'] t]|] eqn:Hf; [|done].
  apply List.find_some in Hf as [Hin%list_elem_of_In Hk%bool_decide_eq_true]. simpl in Hk. subst k'.
  destruct (Z.leb_spec (now - t) e); [|done]. intros [= <- _]. by exists t.
Qed.
Next Obligation. done. Qed.
Next Obligation. simpl. intros now k v c k' v' t [[= -> -> ->]|]%elem_of_cons; auto. Qed.

End alist.
Arguments alist : clear implicits.

(** * At a concrete state *)

Import sample.

Definition minute : time.Duration := time.Minute.
#[local] Instance org_cache : GCache (alist (string * string * AuthorizedAction) (error + LookupOrgResponse)) _ _ := alist_cache minute.
#[local] Instance probe_cache : GCache (alist (string * AuthorizedAction) (error + LookupUsingTokenResponse)) _ _ := alist_cache minute.
#[local] Instance user_cache : GCache (alist string User) _ _ := alist_cache minute.
#[local] Instance cached_db : DBImpl DB := memory fuel hash.

Definition server_client : UsersClient (Server DB string) := grpc_client cookies.
Definition Cached : Type := cachingClient (Server DB string) (alist (string * string * AuthorizedAction) (error + LookupOrgResponse))
  (alist (string * AuthorizedAction) (error + LookupUsingTokenResponse)) (alist string User).
Definition cold : Cached :=
  mkCachingClient server (Some []) (Some []) (Some []) (fun n => Z.of_nat n * time.Second) 0.
Definition asked := LookupOrgRequest "ada" "own-org-01" INSTANCE_DATA_ACCESS.
Definition warm : Cached := (caching_client server_client _ asked cold).2.

Lemma caching_client_recent_witness :
  (caching_client server_client _ asked warm).1 = Ret (mkLookupOrgResponse "0" "0" []) /\
  exists s0, s0 ∈ [warm; cold] /\ (server_client _ asked (embedded s0)).1 = Ret (mkLookupOrgResponse "0" "0" []) /\
    (s0 = warm \/ now warm - later s0 <= minute).
Proof.
  assert (Hcold : empty_caches minute minute minute cold).
  { split; [|split]; intros c [= <-] k v t Hin; by apply not_elem_of_nil in Hin. }
  pose proof (history_call minute minute minute server_client [cold] cold _ asked
    (history_start minute minute minute server_client cold Hcold)) as Hh. change (history minute minute minute server_client [warm; cold] warm) in Hh.
  assert (Hr : (caching_client server_client _ asked warm).1 = Ret (mkLookupOrgResponse "0" "0" [])) by (vm_compute; reflexivity).
  split; [exact Hr|].
  exact (caching_client_recent minute minute minute server_client [warm; cold] warm _ asked _ _ Hh
    (eq_trans (surjective_pairing _) (f_equal (fun o => (o, (caching_client server_client _ asked warm).2)) Hr))).
Defined.
