(* ===== verification/Rounding.v ===== *)
(** How binary64 rounds: a representable lower bound of the exact result is a lower bound of the
    rounded one, and integers of at most 53 bits are exact. *)
From Stdlib Require Import ZArith Lia Floats.SpecFloat.
From stdpp Require Import base tactics.
From S2P Require Import Prelude GoStd Trial.

Module rounding.
Import float64.

(** * Values

    A number [m * 2^e] is compared through the integer [m * 2^(e + bias)]. *)
Definition bias : Z := 1100.
Definition scaled (m : positive) (e : Z) : Z := Zpos m * 2 ^ (e + bias).

(** The normal numbers the computations stay in, with a lower bound or an exact value. *)
Definition normal (m : positive) (e : Z) : Prop := digits m = prec /\ -1000 <= e <= 900.
Definition at_least (N : Z) (x : spec_float) : Prop := exists m e, x = S754_finite false m e /\ normal m e /\ N <= scaled m e.
Definition exactly (N : Z) (x : spec_float) : Prop := exists m e, x = S754_finite false m e /\ normal m e /\ scaled m e = N.

Lemma exactly_at_least N x : exactly N x -> at_least N x.
Proof. intros (m & e & -> & Hn & <-). by exists m, e. Qed.

Lemma pow2_pos n : 0 <= n -> 0 < 2 ^ n.
Proof. intros. by apply Z.pow_pos_nonneg. Qed.

(** The exponent of the larger of two normal numbers is not the smaller. *)
Lemma exponent_le m e m' e' : normal m e -> normal m' e' -> scaled m e <= scaled m' e' -> e <= e'.
Proof.
  intros [Hm He] [Hm' He'] Hle. apply Z.nlt_ge. intros Hlt. revert Hle. apply Z.nle_gt. unfold scaled, bias, prec in *.
  pose proof (digits_bounds m) as [Hl _]. pose proof (digits_bounds m') as [_ Hu]. rewrite Hm in Hl. rewrite Hm' in Hu.
  pose proof (pow2_pos (e' + 1100) ltac:(lia)) as HP. replace (e + 1100) with (1 + (e - e' - 1) + (e' + 1100)) by lia.
  rewrite (Z.pow_add_r 2 _ (e' + 1100)), (Z.pow_add_r 2 1) by lia. set (P := 2 ^ (e' + 1100)) in *.
  pose proof (pow2_pos (e - e' - 1) ltac:(lia)) as HQ. set (Q := 2 ^ (e - e' - 1)) in *.
  change (2 ^ (53 - 1)) with 4503599627370496 in Hl. change (2 ^ 53) with 9007199254740992 in Hu. change (2 ^ 1) with 2.
  assert (Zpos m' < Zpos m * (2 * Q)) by nia. nia.
Qed.

Lemma SFleb_scaled N N' x y : exactly N x -> at_least N' y -> N <= N' -> SFleb x y = true.
Proof.
  intros (m & e & -> & Hn & <-) (m' & e' & -> & Hn' & Hle) HN. unfold SFleb, SFcompare.
  pose proof (exponent_le m e m' e' Hn Hn' ltac:(lia)) as He.
  destruct (Z.compare_spec e e') as [->|Hlt|]; [|done|lia].
  change (Pos.compare_cont Eq m m') with (Pos.compare m m'). destruct Hn as [_ Hb].
  pose proof (pow2_pos (e' + bias) ltac:(unfold bias; lia)). unfold scaled in *.
  destruct (Pos.compare_spec m m'); [done|done|]. exfalso. nia.
Qed.

(** * Shifting *)

Lemma shr_1_div mrs : 0 <= shr_m mrs -> shr_m (shr_1 mrs) = shr_m mrs / 2.
Proof.
  destruct mrs as [[|[p|p|]|p] r s]; simpl; intros H; try done; [|].
  - rewrite (Pos2Z.inj_xI p). apply (Z.div_unique _ _ _ 1); lia.
  - rewrite (Pos2Z.inj_xO p). apply (Z.div_unique _ _ _ 0); lia.
Qed.

Lemma iter_shr_div n mrs : 0 <= shr_m mrs -> shr_m (iter_pos shr_1 n mrs) = shr_m mrs / 2 ^ Zpos n.
Proof.
  revert mrs. induction n as [n IH|n IH|]; intros mrs Hm; cbn [iter_pos].
  - assert (0 <= shr_m (shr_1 mrs)) by (rewrite shr_1_div by done; apply Z.div_pos; lia).
    rewrite IH, IH, shr_1_div by (rewrite ?IH; try apply Z.div_pos; lia).
    rewrite !Z.div_div by (try apply pow2_pos; lia). f_equal. rewrite (Pos2Z.inj_xI n).
    replace (2 * Zpos n + 1) with (1 + Zpos n + Zpos n) by lia. rewrite !Z.pow_add_r by lia. lia.
  - rewrite IH, IH by (rewrite ?IH; try apply Z.div_pos; lia).
    rewrite !Z.div_div by (try apply pow2_pos; lia). f_equal. rewrite (Pos2Z.inj_xO n).
    replace (2 * Zpos n) with (Zpos n + Zpos n) by lia. by rewrite Z.pow_add_r by lia.
  - by apply shr_1_div.
Qed.

Lemma shr_div mrs e n : 0 <= shr_m mrs -> 0 <= n -> shr_m (shr mrs e n).1 = shr_m mrs / 2 ^ n.
Proof. intros Hm Hn. destruct n as [|n|n]; simpl; [by rewrite Z.div_1_r|by apply iter_shr_div|lia]. Qed.

(** * Rounding *)

Lemma round_bounds z l : z <= round_nearest_even z l <= z + 1.
Proof. destruct l as [|[]]; simpl; repeat case_match; lia. Qed.

(** The two shifts of a rounding: what is cut off first, and the carry of the rounding. *)
Lemma round_aux_shape m e l : prec <= digits m -> -900 <= digits m + e <= 900 ->
  exists m' e', binary_round_aux prec emax false (Zpos m) e l = S754_finite false m' e' /\ normal m' e' /\
    let n := digits m - prec in
    2 ^ 52 <= Zpos m / 2 ^ n /\
    scaled m' e' = round_nearest_even (Zpos m / 2 ^ n) (loc_of_shr_record (shr (shr_record_of_loc (Zpos m) l) e n).1) * 2 ^ (e + n + bias).
Proof.
  intros Hm HD. unfold binary_round_aux, shr_fexp. simpl Zdigits2. set (n := digits m - prec).
  replace (fexp prec emax (digits m + e) - e) with n by (unfold fexp, emin, n, prec, emax in *; lia).
  pose proof (shr_div (shr_record_of_loc (Zpos m) l) e n) as Hdiv. pose proof (shr_digits (shr_record_of_loc (Zpos m) l) e n) as Hdig.
  rewrite shr_record_of_loc_m in Hdiv, Hdig. rewrite digits_of_pos in Hdig.
  destruct Hdig as (Hpos & Hd & He); [lia|unfold n, prec in *; lia|]. specialize (Hdiv ltac:(lia) ltac:(unfold n; lia)).
  destruct (shr (shr_record_of_loc (Zpos m) l) e n) as [mrs1 e1]. simpl fst in *. simpl snd in *.
  rewrite Hdiv. rewrite Hdiv in Hpos, Hd. set (m1 := Zpos m / 2 ^ n) in *. set (l1 := loc_of_shr_record mrs1).
  assert (He1 : e1 = e + n) by (unfold n in *; lia). clear Hdiv He. subst e1.
  assert (Hm1 : digits_of m1 = prec) by (unfold n in Hd; lia).
  assert (Hb : 2 ^ 52 <= m1 < 2 ^ 53).
  { destruct m1 as [|p|p]; try lia. rewrite digits_of_pos in Hm1. pose proof (digits_bounds p) as Hp. by rewrite Hm1 in Hp. }
  pose proof (round_bounds m1 l1) as Hr. set (z := round_nearest_even m1 l1) in *.
  assert (Hz : digits_of z = prec \/ (z = 2 ^ 53 /\ digits_of z = prec + 1)).
  { destruct (Z.eq_dec z (2 ^ 53)) as [->|Hne]; [by right|]. left. destruct z as [|p|p]; try lia.
    rewrite digits_of_pos. apply digits_unique; unfold prec; lia. }
  set (n2 := fexp prec emax (Zdigits2 z + (e + n)) - (e + n)).
  assert (Hn2 : n2 = digits_of z - prec) by (unfold n2, fexp, emin, digits_of in *; unfold n, prec, emax in *; lia).
  pose proof (shr_div (shr_record_of_loc z loc_Exact) (e + n) n2) as Hdiv2.
  pose proof (shr_digits (shr_record_of_loc z loc_Exact) (e + n) n2) as Hdig2. rewrite shr_record_of_loc_m in Hdiv2, Hdig2.
  destruct Hdig2 as (Hpos2 & Hd2 & He2); [lia|unfold prec in *; lia|]. specialize (Hdiv2 ltac:(lia) ltac:(unfold prec in *; lia)).
  destruct (shr (shr_record_of_loc z loc_Exact) (e + n) n2) as [mrs2 e2]. simpl fst in *. simpl snd in *.
  destruct (shr_m mrs2) as [|p|p]; try lia. rewrite digits_of_pos in Hd2.
  rewrite (proj2 (Z.leb_le e2 (emax - prec))) by (unfold n, prec, emax in *; lia).
  exists p, e2. split; [done|]. split; [split; unfold n, prec in *; lia|]. split; [lia|]. unfold scaled. rewrite Hdiv2.
  destruct Hz as [Hz|[Hz Hz']].
  - assert (n2 = 0) as -> by lia. rewrite Z.pow_0_r, Z.div_1_r. f_equal. f_equal. lia.
  - assert (n2 = 1) as -> by lia. rewrite Hz. change (2 ^ 53 / 2 ^ 1) with (2 ^ 52).
    replace (e2 + bias) with (1 + (e + n + bias)) by lia. rewrite (Z.pow_add_r 2 1) by (unfold n, bias, prec in *; lia).
    change (2 ^ 53) with (2 ^ 52 * 2). change (2 ^ 1) with 2. lia.
Qed.

(** A bound [K * 2^g] with a [K] of at most 53 bits. *)
Lemma floor_bound K g m e : 0 < K < 2 ^ 53 -> 0 <= g -> 0 <= e -> 2 ^ 52 <= m -> forall M d, 0 < d -> m = M / d ->
  K * 2 ^ g * d <= M * 2 ^ e -> K * 2 ^ g <= m * 2 ^ e.
Proof.
  intros HK Hg He Hm M d Hd -> HM. destruct (Z_le_gt_dec e g) as [Hle|Hgt].
  - replace g with (g - e + e) in * by lia. rewrite Z.pow_add_r in * by lia. pose proof (pow2_pos e He).
    assert (K * 2 ^ (g - e) <= M / d); [|nia]. apply Z.div_le_lower_bound; [done|]. nia.
  - replace e with (g + (1 + (e - g - 1))) by lia. rewrite !Z.pow_add_r by lia. pose proof (pow2_pos g Hg).
    pose proof (pow2_pos (e - g - 1) ltac:(lia)). change (2 ^ 53) with (2 ^ 52 * 2) in HK. change (2 ^ 1) with 2.
    assert (K <= M / d * (2 * 2 ^ (e - g - 1))) by nia. nia.
Qed.

Lemma round_aux_at_least K g m e l : prec <= digits m -> -900 <= digits m + e <= 900 -> 0 < K < 2 ^ 53 -> 0 <= g ->
  -1100 <= e -> K * 2 ^ g <= scaled m e -> at_least (K * 2 ^ g) (binary_round_aux prec emax false (Zpos m) e l).
Proof.
  intros Hm HD HK Hg He Hle. destruct (round_aux_shape m e l Hm HD) as (m' & e' & -> & Hn & Hq & Hs). simpl in Hs, Hq.
  exists m', e'. split; [done|]. split; [done|]. rewrite Hs. set (n := digits m - prec) in *.
  pose proof (round_bounds (Zpos m / 2 ^ n) (loc_of_shr_record (shr (shr_record_of_loc (Zpos m) l) e n).1)) as Hr.
  assert (K * 2 ^ g <= Zpos m / 2 ^ n * 2 ^ (e + n + bias)).
  { apply (floor_bound K g _ (e + n + bias) HK Hg ltac:(unfold bias, n, prec in *; lia) Hq (Zpos m) (2 ^ n)); [apply pow2_pos; unfold n; lia|done|].
    replace (e + n + bias) with (e + bias + n) by lia. rewrite Z.pow_add_r by (unfold bias, n in *; lia). unfold scaled in Hle.
    pose proof (pow2_pos n ltac:(unfold n; lia)). nia. }
  pose proof (pow2_pos (e + n + bias) ltac:(unfold bias, n, prec in *; lia)). nia.
Qed.

(** * Exact integers *)

Lemma shr_exact p n e : iter_pos shr_1 n (Build_shr_record (Zpos (Pos.iter xO p n)) false false) = Build_shr_record (Zpos p) false false /\
  (shr (shr_record_of_loc (Zpos (Pos.iter xO p n)) loc_Exact) e (Zpos n)).1 = Build_shr_record (Zpos p) false false.
Proof.
  assert (H : forall n p, iter_pos shr_1 n (Build_shr_record (Zpos (Pos.iter xO p n)) false false) = Build_shr_record (Zpos p) false false).
  { clear. intros n. induction n as [n IH|n IH|]; intros p; simpl; [|by rewrite IH, IH|done].
    by rewrite IH, IH. }
  split; [apply H|]. apply H.
Qed.

Lemma iter_xO p n : Zpos (Pos.iter xO p n) = Zpos p * 2 ^ Zpos n.
Proof.
  induction n as [|n IH] using Pos.peano_ind; [simpl; lia|]. rewrite Pos.iter_succ, Pos2Z.inj_xO, IH, Pos2Z.inj_succ, Z.pow_succ_r by lia. lia.
Qed.

(** [m = k * 2^j] with [k] of at most 53 bits is rounded to itself. *)
Lemma round_aux_exact m e k j : prec <= digits m -> -900 <= digits m + e <= 900 -> 0 <= j ->
  Zpos m = Zpos k * 2 ^ j -> digits k <= prec -> -1100 <= e ->
  exactly (scaled m e) (binary_round_aux prec emax false (Zpos m) e loc_Exact).
Proof.
  intros Hm HD Hj Hmk Hk He. destruct (round_aux_shape m e loc_Exact Hm HD) as (m' & e' & -> & Hn & Hq & Hs). simpl in Hs, Hq.
  exists m', e'. split; [done|]. split; [done|]. rewrite Hs. set (n := digits m - prec) in *.
  assert (Hdig : digits m = digits k + j).
  { destruct j as [|j|j]; [|rewrite <- iter_xO in Hmk; injection Hmk as ->; apply shl_digits|lia].
    rewrite Z.pow_0_r in Hmk. replace m with k by lia. lia. }
  assert (Hdvd : exists r, m = match n with Zpos d => Pos.iter xO r d | _ => r end /\ Zpos r = Zpos k * 2 ^ (j - n)).
  { assert (0 < Zpos k * 2 ^ (j - n)) by (pose proof (pow2_pos (j - n) ltac:(unfold n; lia)); nia).
    exists (Z.to_pos (Zpos k * 2 ^ (j - n))). rewrite Z2Pos.id by done. split; [|done].
    replace j with (j - n + n) in Hmk by lia. rewrite Z.pow_add_r in Hmk by (unfold n; lia).
    destruct n as [|d|d] eqn:Hn'; [|apply Pos2Z.inj; rewrite iter_xO, Z2Pos.id by done; lia|unfold n in Hn'; lia].
    apply Pos2Z.inj. rewrite Z2Pos.id by done. rewrite Z.pow_0_r in Hmk. lia. }
  destruct Hdvd as (r & Hr & Hrk). destruct n as [|d|d] eqn:Hn'; [| |unfold n in Hn'; lia].
  - simpl. rewrite Z.div_1_r. unfold scaled. f_equal. f_equal. lia.
  - rewrite Hr. pose proof (proj2 (shr_exact r d e)) as Hx. cbn [shr_record_of_loc] in Hx. rewrite Hx. cbn [loc_of_shr_record round_nearest_even]. unfold scaled. rewrite iter_xO.
    rewrite Z.div_mul by (pose proof (pow2_pos (Zpos d)); lia). replace (e + Zpos d + bias) with (Zpos d + (e + bias)) by lia.
    rewrite (Z.pow_add_r 2 (Zpos d)) by (unfold bias; lia). lia.
Qed.

Lemma binary_round_exact m e k j : -900 <= digits m + e <= 900 -> 0 <= j -> Zpos m = Zpos k * 2 ^ j -> digits k <= prec ->
  -1000 <= e -> exactly (scaled m e) (binary_round prec emax false m e).
Proof.
  intros HD Hj Hmk Hk He. unfold binary_round, shl_align.
  assert (Hf : fexp prec emax (digits m + e) = digits m + e - prec) by (unfold fexp, emin, prec, emax in *; lia).
  rewrite Hf. destruct (digits m + e - prec - e) as [|d|d] eqn:Hs.
  - eapply round_aux_exact; eauto; lia.
  - eapply round_aux_exact; eauto; lia.
  - pose proof (shl_digits d m) as Hd. assert (Hsc : scaled (Pos.iter xO m d) (digits m + e - prec) = scaled m e).
    { unfold scaled. rewrite iter_xO. replace (e + bias) with (Zpos d + (digits m + e - prec + bias)) by lia.
      rewrite (Z.pow_add_r 2 (Zpos d)) by (unfold bias, prec in *; lia). lia. }
    rewrite <- Hsc. apply (round_aux_exact _ _ m (Zpos d)); try lia; [apply iter_xO|unfold prec in *; lia].
Qed.

Definition of_Z (z : Z) : Z := z * 2 ^ bias.

Lemma normalize_exact z k j s : 0 < z -> z = k * 2 ^ j -> 0 <= j <= 100 -> 0 < k < 2 ^ 53 ->
  exactly (of_Z k) (binary_normalize prec emax z (- j) s).
Proof.
  intros Hz Hzk Hj Hk. destruct z as [|m|m]; try lia. destruct k as [|k|k]; try lia. cbn [binary_normalize].
  assert (Hd : digits k <= prec) by (apply digits_le; unfold prec; lia).
  assert (Hdm : digits m = digits k + j).
  { destruct j as [|j|j]; [|rewrite <- iter_xO in Hzk; injection Hzk as ->; apply shl_digits|lia].
    rewrite Z.pow_0_r in Hzk. replace m with k by lia. lia. }
  replace (of_Z (Zpos k)) with (scaled m (- j)).
  - eapply (binary_round_exact m (- j) k j); unfold prec in *; try lia; done.
  - unfold scaled, of_Z. rewrite Hzk. replace bias with (j + (- j + bias)) at 2 by lia. rewrite (Z.pow_add_r 2 j) by (unfold bias; lia). lia.
Qed.

Lemma of_int_exact z : 0 < z < 2 ^ 53 -> exactly (of_Z z) (of_int z).
Proof. intros Hz. apply (normalize_exact z z 0); lia. Qed.

(** * Operations *)

Lemma shl_align_scaled m e e' : e' <= e -> exists m', shl_align m e e' = (m', e') /\ Zpos m' = Zpos m * 2 ^ (e - e').
Proof.
  intros He. unfold shl_align. destruct (e' - e) as [|d|d] eqn:Hd; try lia.
  - exists m. replace (e - e') with 0 by lia. rewrite Z.pow_0_r. split; [f_equal|]; lia.
  - exists (Pos.iter xO m d). split; [done|]. rewrite iter_xO. do 2 f_equal. lia.
Qed.

(** An integer and one more. *)
Lemma add_1_exact z : 0 <= z < 2 ^ 52 -> exactly (of_Z (z + 1)) (add (of_int z) (of_int 1)).
Proof.
  intros Hz. destruct (Z.eq_dec z 0) as [->|Hne]; [apply of_int_exact; lia|].
  destruct (of_int_exact z ltac:(lia)) as (m & e & -> & [Hm He] & Hs).
  change (of_int 1) with (S754_finite false (2 ^ 52) (-52)). unfold add, SFadd. cbv zeta.
  assert (Hee : -52 <= e).
  { apply (exponent_le (2 ^ 52)%positive (-52) m e); [by split|by split|]. rewrite Hs. unfold scaled, of_Z.
    replace bias with (52 + (-52 + bias)) at 2 by lia. rewrite (Z.pow_add_r 2 52) by (unfold bias; lia).
    pose proof (pow2_pos (-52 + bias) ltac:(unfold bias; lia)). change (Zpos (2 ^ 52)) with (2 ^ 52). nia. }
  rewrite Z.min_r by lia. destruct (shl_align_scaled m e (-52) Hee) as (a & -> & Ha).
  change (shl_align (2 ^ 52) (-52) (-52)) with ((2 ^ 52)%positive, -52). cbn [cond_Zopp fst].
  assert (Hz52 : Zpos a = z * 2 ^ 52).
  { rewrite Ha. unfold scaled, of_Z in Hs. replace (e + bias) with (e - -52 + (bias - 52)) in Hs by lia.
    replace bias with (52 + (bias - 52)) in Hs at 2 by lia. rewrite !Z.pow_add_r in Hs by (unfold bias; lia).
    pose proof (pow2_pos (bias - 52) ltac:(unfold bias; lia)). nia. }
  change (-52) with (- (52)). apply (normalize_exact _ (z + 1) 52); [lia| |lia|lia].
  rewrite Hz52. change (Zpos (2 ^ 52)) with (2 ^ 52). lia.
Qed.

(** A quotient of integers is at least any representable number it is at least exactly. *)
Lemma div_at_least a b K g : 0 < a < 2 ^ 53 -> 0 < b < 2 ^ 53 -> 0 < K < 2 ^ 53 -> 0 <= g -> K * 2 ^ g * b <= of_Z a ->
  exists m e, div (of_int a) (of_int b) = S754_finite false m e /\ normal m e /\ K * 2 ^ g <= scaled m e /\ e <= 60.
Proof.
  intros Ha Hb HK Hg HKb.
  pose proof (div_between 1 54 1 54 _ _ (of_int_between a 53 Ha ltac:(lia)) (of_int_between b 53 Hb ltac:(lia)) ltac:(lia) ltac:(lia)) as Hup.
  destruct (of_int_exact a Ha) as (m & e & Hx & [Hm He] & Hs). destruct (of_int_exact b Hb) as (m' & e' & Hy & [Hm' He'] & Hs').
  assert (Hbound : forall z, 0 < z < 2 ^ 53 -> forall m e, of_int z = S754_finite false m e -> digits m = prec -> -52 <= e <= 1).
  { intros z Hz m0 e0 Hz0 Hd. destruct (of_int_between z 53 Hz ltac:(lia)) as (m1 & e1 & Hz1 & Hd1).
    rewrite Hz0 in Hz1. injection Hz1 as <- <-. unfold prec in *. lia. }
  pose proof (Hbound a Ha m e Hx Hm) as Hea. pose proof (Hbound b Hb m' e' Hy Hm') as Heb. clear Hbound.
  assert (Hat : at_least (K * 2 ^ g) (div (of_int a) (of_int b))).
  { rewrite Hx, Hy. unfold div, SFdiv, SFdiv_core_binary. simpl Zdigits2. cbv zeta.
    set (D := digits m + e - (digits m' + e')).
    assert (Hf : fexp prec emax D = D - prec) by (unfold fexp, emin, D, prec, emax in *; lia). rewrite Hf.
    set (e'' := Z.min (D - prec) (e - e')). set (s := e - e' - e'').
    assert (Hs0 : 0 <= s <= 53) by (unfold s, e'', D, prec in *; lia).
    assert (HM : match s with Zpos _ => Z.shiftl (Zpos m) s | Z0 => Zpos m | Zneg _ => Z0 end = Zpos m * 2 ^ s).
    { destruct s; try lia. by rewrite Z.shiftl_mul_pow2. }
    rewrite HM. destruct (div_digits m m' s) as (r & Hr & Hd); [lia|unfold s, e'', D, prec in *; lia|].
    destruct (Z.div_eucl (Zpos m * 2 ^ s) (Zpos m')) as [q rem] eqn:Hq.
    assert (q = Zpos r) as -> by (rewrite <- Hr; unfold Z.div; by rewrite Hq). cbn [xorb].
    assert (Hr53 : prec <= digits r) by (unfold s, e'', D, prec in *; lia).
    apply (round_aux_at_least K g); try done; [unfold s, e'', D, prec in *; lia|unfold s, e'', D, prec in *; lia|].
    unfold scaled. apply (floor_bound K g (Zpos r) (e'' + bias) HK Hg ltac:(unfold bias, e'', D, prec in *; lia)) with (M := Zpos m * 2 ^ s) (d := Zpos m'); [| |done|].
    - pose proof (digits_bounds r) as [Hl _]. pose proof (Z.pow_le_mono_r 2 52 (digits r - 1) ltac:(lia) ltac:(unfold prec in *; lia)). lia.
    - done.
    - assert (He2 : e'' + bias + e' + s = e + bias) by (unfold s; lia).
      assert (Hgoal : K * 2 ^ g * Zpos m' * 2 ^ (e' + bias) <= Zpos m * 2 ^ s * 2 ^ (e'' + bias) * 2 ^ (e' + bias)).
      { rewrite <- !Z.mul_assoc, <- !Z.pow_add_r by (unfold bias, e'', D, prec in *; lia).
        replace (s + (e'' + bias + (e' + bias))) with (e + bias + bias) by lia. rewrite (Z.pow_add_r 2 (e + bias)) by (unfold bias; lia).
        unfold scaled, of_Z in *. rewrite Z.mul_assoc, Hs', (Z.mul_assoc (Zpos m)), Hs.
        rewrite !Z.mul_assoc. apply Z.mul_le_mono_nonneg_r; [unfold bias; lia|]. lia. }
      pose proof (pow2_pos (e' + bias) ltac:(unfold bias; lia)). nia. }
  destruct Hat as (mr & er & Hdiv & Hn & Hle). destruct Hup as (mu & eu & Hdiv' & Hu). rewrite Hdiv in Hdiv'. injection Hdiv' as <- <-.
  exists mr, er. split; [done|]. split; [done|]. split; [done|]. destruct Hn as [Hn _]. unfold prec in *. lia.
Qed.

(** A product with a factor of at least one. *)
Lemma mul_at_least m e m' e' K g : digits m = prec -> -52 <= e <= 100 -> normal m' e' -> -200 <= e' <= 200 ->
  0 < K < 2 ^ 53 -> 0 <= g -> K * 2 ^ g <= scaled m' e' ->
  at_least (K * 2 ^ g) (SFmul prec emax (S754_finite false m e) (S754_finite false m' e')).
Proof.
  intros Hm He [Hm' _] He' HK Hg Hle. cbn [SFmul xorb].
  pose proof (digits_bounds m) as [Hl Hu]. pose proof (digits_bounds m') as [Hl' Hu']. rewrite Hm in Hl, Hu. rewrite Hm' in Hl', Hu'.
  unfold prec in *. change (2 ^ (53 - 1)) with (2 ^ 52) in *.
  assert (Hd : 104 < digits (m * m')) by (apply digits_ge; rewrite Pos2Z.inj_mul; change (2 ^ 104) with (2 ^ 52 * 2 ^ 52); nia).
  assert (Hd2 : digits (m * m') <= 106) by (apply digits_le; [lia|]; rewrite Pos2Z.inj_mul; change (2 ^ 106) with (2 ^ 53 * 2 ^ 53); nia).
  apply round_aux_at_least; unfold prec; try lia. etrans; [exact Hle|]. unfold scaled. rewrite Pos2Z.inj_mul.
  replace (e + e' + bias) with (e + 52 + (e' + bias - 52)) by lia. replace (e' + bias) with (52 + (e' + bias - 52)) at 1 by lia.
  rewrite !Z.pow_add_r by (unfold bias; lia). pose proof (pow2_pos (e' + bias - 52) ltac:(unfold bias; lia)).
  pose proof (pow2_pos (e + 52) ltac:(lia)). set (P := 2 ^ (e' + bias - 52)) in *. set (Q := 2 ^ (e + 52)) in *.
  transitivity (Zpos m' * (2 ^ 52 * P)); [lia|]. transitivity (Zpos m' * (Zpos m * Q * P)); [|lia].
  apply Z.mul_le_mono_nonneg_l; [lia|]. apply Z.mul_le_mono_nonneg_r; nia.
Qed.

(** Rounding up passes the next integer. *)
Lemma Ceil_at_least x N q : at_least N x -> 0 <= q < 2 ^ 52 -> of_Z q < N -> at_least (of_Z (q + 1)) (Ceil x).
Proof.
  intros (m & e & -> & [Hm He] & Hle) Hq HN. simpl. destruct (Z.leb_spec 0 e) as [He0|He0].
  - exists m, e. split; [done|]. split; [done|]. unfold scaled, of_Z in *. rewrite (Z.pow_add_r 2 e) in * by (unfold bias; lia).
    pose proof (pow2_pos bias ltac:(done)) as Hb. set (B := 2 ^ bias) in *. set (V := 2 ^ e) in *.
    assert (q < Zpos m * V) by nia. rewrite Z.mul_assoc. apply Z.mul_le_mono_nonneg_r; lia.
  - set (z := - (- Zpos m / 2 ^ (- e))). pose proof (pow2_pos (- e) ltac:(lia)) as Hp.
    assert (Hmq : q * 2 ^ (- e) < Zpos m).
    { unfold scaled, of_Z in *. replace bias with (- e + (e + bias)) in HN at 1 by lia. rewrite (Z.pow_add_r 2 (- e)) in HN by (unfold bias; lia).
      pose proof (pow2_pos (e + bias) ltac:(unfold bias; lia)). nia. }
    assert (Hz : q + 1 <= z).
    { unfold z. assert (- Zpos m / 2 ^ (- e) < - q); [|lia]. apply Z.div_lt_upper_bound; [done|]. nia. }
    assert (Hz2 : z <= 2 ^ 52).
    { unfold z. assert (- 2 ^ 52 <= - Zpos m / 2 ^ (- e)); [|lia]. apply Z.div_le_lower_bound; [done|].
      pose proof (digits_bounds m) as [_ Hu]. rewrite Hm in Hu. unfold prec in *.
      pose proof (Z.pow_le_mono_r 2 1 (- e) ltac:(lia) ltac:(lia)). change (2 ^ 53) with (2 ^ 52 * 2) in Hu. change (2 ^ 1) with 2 in *. nia. }
    destruct (normalize_exact z z 0 false) as (mz & ez & Heq & Hn & Hs); try lia. change (- 0) with 0 in Heq. change (cond_Zopp false (Zpos m)) with (Zpos m).
    exists mz, ez. split; [exact Heq|]. split; [done|]. rewrite Hs. unfold of_Z. pose proof (pow2_pos bias ltac:(done)). nia.
Qed.

End rounding.
