(* ===== verification/Balance.v ===== *)
(** The load balancer of the edge proxy (authfe/balance): consistent hashing with bounded
    loads, and the wrapper that follows the addresses service discovery reports. *)
From Stdlib Require Import ZArith Lia Ascii String Floats.SpecFloat.
From stdpp Require Import base tactics option gmap strings list pretty.
From S2P Require Import Prelude GoStd Users Trial.

(** * hash/crc32 *)

Module crc32.

Definition poly : Z := 0xedb88320.

(** One bit, one byte (least significant bit first), a text. *)
Definition shift (crc : Z) : Z := if Z.testbit crc 0 then Z.lxor (Z.shiftr crc 1) poly else Z.shiftr crc 1.
Definition update_byte (crc : Z) (b : ascii) : Z := Nat.iter 8 shift (Z.lxor crc (Z.of_nat (nat_of_ascii b))).
Fixpoint update_all (crc : Z) (s : string) : Z :=
  match s with EmptyString => crc | String b s' => update_all (update_byte crc b) s' end.
Definition ChecksumIEEE (s : string) : Z := Z.lxor (update_all 0xffffffff s) 0xffffffff.

Example check_value : ChecksumIEEE "123456789" = 0xcbf43926.
Proof. vm_compute. reflexivity. Qed.

End crc32.

Module balance.

(** * address_endpoint.go *)

Record addressEndpoint : Type := mkEndpoint { address : string }.
#[export] Instance addressEndpoint_eq_dec : EqDecision addressEndpoint.
Proof. solve_decision. Defined.
Definition Key (e : addressEndpoint) : string := address e.
Definition HostAndPort (e : addressEndpoint) : string := address e.

(** * algo_consistent.go *)

Definition defaultReplicationCount : Z := 256.

Record endpointInfo : Type := mkInfo { endpoint : addressEndpoint; load : Z }.

(** [Consistent]: the map from hashes to pointers, and what the pointers point to. The mutex is
    taken for the whole of each operation, so an operation is one step. *)
Record Consistent : Type := mkConsistent {
  replicas : Z;
  numEndpoints : Z;
  loadFactor : spec_float;
  totalLoad : Z;
  keys : list Z;
  endpoints : gmap Z nat;
  infos : list endpointInfo;
}.

Definition set_loads (total : Z) (infos_ : list endpointInfo) (c : Consistent) : Consistent :=
  mkConsistent (replicas c) (numEndpoints c) (loadFactor c) total (keys c) (endpoints c) infos_.
Definition set_ring (n : Z) (total : Z) (ks : list Z) (es : gmap Z nat) (infos_ : list endpointInfo) (c : Consistent) : Consistent :=
  mkConsistent (replicas c) n (loadFactor c) total ks es infos_.

(** [sort.Ints], and [sort.Search] over a sorted slice: the first index that satisfies a
    predicate. *)
Definition Ints : list Z -> list Z := sort.Sort Z.ltb.
Fixpoint Search (f : Z -> bool) (l : list Z) : nat :=
  match l with [] => O | k :: l' => if f k then O else S (Search f l') end.

(** A float64 that is zero, and a comparison with 1.0. *)
Definition float_is_zero (x : spec_float) : bool := float64.is_zero x.
Definition mul : spec_float -> spec_float -> spec_float := SFmul float64.prec float64.emax.

Section consistent.
Variable hash : string -> Z.

Abbreviation C := (M Consistent error).

(** [NewConsistent] *)
Definition NewConsistent (ReplicationCount : Z) (LoadFactor : spec_float) : option Consistent :=
  if negb (float_is_zero LoadFactor) && SFleb LoadFactor (float64.of_int 1) then None
  else Some (mkConsistent (if ReplicationCount =? 0 then defaultReplicationCount else ReplicationCount) 0 LoadFactor 0 [] ∅ []).

Definition isEmpty (c : Consistent) : bool := bool_decide (length (keys c) = 0%nat).

Definition replicaHash (key : string) (i : Z) : Z := hash (pretty i +:+ key).

(** [info]: a pointer, or nil. *)
Definition info (key : string) (c : Consistent) : option nat := endpoints c !! replicaHash key 0.

(** [AddEndpoints] *)
Definition replica_range (c : Consistent) : list Z := seqZ 0 (replicas c).
Definition add_endpoint (c : Consistent) (e : addressEndpoint) : Consistent :=
  let p := length (infos c) in
  let hashes := replicaHash (Key e) <$> replica_range c in
  set_ring (numEndpoints c + 1) (totalLoad c) (keys c ++ hashes)
    (foldl (fun m h => <[h := p]> m) (endpoints c) hashes) (infos c ++ [mkInfo e 0]) c.
Definition sort_keys (c : Consistent) : Consistent :=
  set_ring (numEndpoints c) (totalLoad c) (Ints (keys c)) (endpoints c) (infos c) c.
Definition AddEndpoints (es : list addressEndpoint) (c : Consistent) : Consistent :=
  sort_keys (foldl add_endpoint c es).

(** [deleteFromSlice]: the index after the loop is that of the first occurrence, or the last
    index when there is none. *)
Definition deleteFromSlice (s : list Z) (h : Z) : list Z :=
  let i := Nat.min (Search (Z.eqb h) s) (length s - 1) in
  if decide (i = length s) then s else take (length s - 1) (<[i := List.last s 0]> s).

(** [RemoveEndpoints] *)
Definition load_of (p : nat) (c : Consistent) : Z := from_option load 0 (infos c !! p).
Definition remove_hash (km : list Z * gmap Z nat) (h : Z) : list Z * gmap Z nat :=
  (deleteFromSlice km.1 h, delete h km.2).
Definition remove_endpoint (c : Consistent) (e : addressEndpoint) : Consistent :=
  match info (Key e) c with
  | None => c
  | Some p =>
      let km := foldl remove_hash (keys c, endpoints c) (replicaHash (Key e) <$> replica_range c) in
      set_ring (numEndpoints c - 1) (totalLoad c - load_of p c) km.1 km.2 (infos c) c
  end.
Definition RemoveEndpoints (es : list addressEndpoint) (c : Consistent) : Consistent :=
  sort_keys (foldl remove_endpoint c es).

(** [loadOK], in binary64 *)
Definition loadOK (totalLoad numEndpoints endpointLoad : Z) (factor : spec_float) : bool :=
  let averageLoad := float64.div (float64.of_int (totalLoad + 1)) (float64.of_int numEndpoints) in
  SFleb (float64.add (float64.of_int endpointLoad) (float64.of_int 1)) (float64.Ceil (mul factor averageLoad)).

(** [c.endpoints[c.keys[idx]]], which must not be nil. *)
Definition info_at (idx : nat) (c : Consistent) : option nat :=
  k ← keys c !! idx; endpoints c !! k.

(** The loop of [Get]. *)
Fixpoint search_load (fuel : nat) (idx : nat) : C nat :=
  match fuel with
  | O => out_of_fuel
  | S fuel' =>
      do p <- gets (info_at idx);
      do p <- deref p;
      do ok <- gets (fun c => loadOK (totalLoad c) (numEndpoints c) (load_of p c) (loadFactor c));
      if ok : bool then ret p
      else
        do n <- gets (fun c => length (keys c));
        search_load fuel' (if (n <=? S idx)%nat then O else S idx)
  end.

(** [info.load += d; c.totalLoad += d] *)
Definition add_load (d : Z) (p : nat) (c : Consistent) : Consistent :=
  set_loads (totalLoad c + d) (alter (fun i => mkInfo (endpoint i) (load i + d)) p (infos c)) c.

Definition endpoint_at (p : nat) : C addressEndpoint :=
  do i <- gets (fun c => infos c !! p); do i <- deref i; ret (endpoint i).

(** [Get] *)
Definition Get (fuel : nat) (ks : list string) : C (option addressEndpoint) :=
  match ks with
  | [key] =>
      do empty <- gets isEmpty;
      if empty : bool then ret None
      else
        do idx <- gets (fun c => Search (Z.leb (hash key)) (keys c));
        do n <- gets (fun c => length (keys c));
        let idx := if (idx =? n)%nat then O else idx in
        do factor <- gets loadFactor;
        if float_is_zero factor then
          do p <- gets (info_at idx);
          do p <- deref p;
          do e <- endpoint_at p; ret (Some e)
        else
          do p <- search_load fuel idx;
          modify (add_load 1 p) ;;;
          do e <- endpoint_at p; ret (Some e)
  | _ => panic
  end.

(** [Put] *)
Definition Put (e : addressEndpoint) (c : Consistent) : Consistent :=
  if float_is_zero (loadFactor c) then c
  else match info (Key e) c with
       | None => c
       | Some p => add_load (-1) p c
       end.

(** * consistent.go *)

Definition ErrNoEndpoints : error := ErrMsg "no endpoints".

(** [sd.Event] of go-kit: an error, or the instances. *)
Definition Event : Type := string + list string.

Record consistentWrapper : Type := mkWrapper { cache : gmap string addressEndpoint; cw_c : Consistent }.

Context `{GoRange}.

(** [update] *)
Definition stale (instances : list string) (cw : gmap string addressEndpoint) : list (string * addressEndpoint) :=
  filter (fun kv => kv.1 ∉ instances) (go_range cw).
Definition add_instance (acc : gmap string addressEndpoint * list addressEndpoint) (instance : string)
    : gmap string addressEndpoint * list addressEndpoint :=
  match acc.1 !! instance with
  | Some _ => acc
  | None => (<[instance := mkEndpoint instance]> acc.1, acc.2 ++ [mkEndpoint instance])
  end.
Definition update (event : Event) (cw : consistentWrapper) : consistentWrapper :=
  match event with
  | inl _ => cw
  | inr instances =>
      let removals := stale instances (cache cw) in
      let kept := foldl (fun m kv => delete kv.1 m) (cache cw) removals in
      let c := RemoveEndpoints removals.*2 (cw_c cw) in
      let '(cache', additions) := foldl add_instance (kept, []) instances in
      mkWrapper cache' (AddEndpoints additions c)
  end.

Definition set_cw (c : Consistent) (cw : consistentWrapper) : consistentWrapper := mkWrapper (cache cw) c.

(** [consistentWrapper.Get], [consistentWrapper.Put] *)
Definition wrapper_Get (fuel : nat) (key : string) : M consistentWrapper error addressEndpoint :=
  do e <- zoom cw_c set_cw (Get fuel [key]);
  or_else e ErrNoEndpoints.
Definition wrapper_Put (e : addressEndpoint) (cw : consistentWrapper) : consistentWrapper := set_cw (Put e (cw_c cw)) cw.

End consistent.

(** [NewConsistentWrapper]: the default hash and replication; without a balancer when the load
    factor is not one. *)
Definition NewConsistentWrapper (loadFactor : spec_float) : option consistentWrapper :=
  mkWrapper ∅ <$> NewConsistent 0 loadFactor.

End balance.
