(* ===== verification/BalanceSpec.v ===== *)
(** The ring of the consistent balancer: its invariant, that few keys move when endpoints come
    and go, that a request finds an endpoint that is not overloaded, and what goes wrong
    when an address comes back while requests to it are in flight. *)
From Stdlib Require Import ZArith Lia Ascii String Floats.SpecFloat Sorting.Sorted.
From stdpp Require Import base tactics option gmap strings list pretty sorting.
From S2P Require Import Prelude GoStd Users Trial Rounding Balance.
Import balance.

(** * Slices *)

Lemma Ints_perm l : Ints l ≡ₚ l.
Proof. apply sort.Sort_perm. Qed.

Lemma Ints_sorted l : StronglySorted Z.le (Ints l).
Proof.
  pose proof (sort.Sort_sorted Z.ltb) as H. specialize (H ltac:(intros x y ?%Z.ltb_lt; apply Z.ltb_ge; lia)
    ltac:(intros x y z ?%Z.ltb_ge ?%Z.ltb_ge; apply Z.ltb_ge; lia) l).
  fold (Ints l) in H. induction H as [|x l' Hs IH Hx]; constructor; [done|].
  eapply Forall_impl; [exact Hx|]. simpl. intros y ?%Z.ltb_ge. done.
Qed.

Lemma Search_app (f : Z -> bool) l1 k l2 : Forall (fun x => f x = false) l1 -> f k = true -> Search f (l1 ++ k :: l2) = length l1.
Proof. intros Hl1 Hk. induction Hl1 as [|x l1 Hx _ IH]; simpl; [by rewrite Hk|by rewrite Hx, IH]. Qed.

Lemma Search_spec (f : Z -> bool) l :
  (Forall (fun x => f x = false) l /\ Search f l = length l) \/
  exists l1 k l2, l = l1 ++ k :: l2 /\ Forall (fun x => f x = false) l1 /\ f k = true /\ Search f l = length l1.
Proof.
  induction l as [|x l IH]; [by left|]. destruct (f x) eqn:Hx.
  - right. exists [], x, l. simpl. by rewrite Hx.
  - simpl. rewrite Hx. destruct IH as [[Hl ->]|(l1 & k & l2 & -> & Hl1 & Hk & ->)]; [left; by split; [constructor|]|].
    right. exists (x :: l1), k, l2. split; [done|]. by split; [constructor|].
Qed.

Lemma deleteFromSlice_perm s h : h ∈ s -> h :: deleteFromSlice s h ≡ₚ s.
Proof.
  intros Hin. unfold deleteFromSlice. destruct (Search_spec (Z.eqb h) s) as [[Hno _]|(l1 & k & l2 & -> & _ & Hk & ->)].
  { rewrite Forall_forall in Hno. specialize (Hno h Hin). by rewrite Z.eqb_refl in Hno. }
  apply Z.eqb_eq in Hk. subst k. rewrite length_app. simpl length. rewrite Nat.min_l by lia.
  rewrite decide_False by lia. replace (length l1 + S (length l2) - 1)%nat with (length l1 + length l2)%nat by lia.
  rewrite insert_app_r_alt, Nat.sub_diag by lia. simpl.
  destruct l2 as [|y l2 _] using rev_ind.
  - rewrite Nat.add_0_r, take_app_length. by rewrite Permutation_cons_append.
  - assert (HL : List.last (l1 ++ h :: l2 ++ [y]) 0 = y) by (rewrite app_comm_cons, app_assoc; apply List.last_last).
    rewrite HL, length_app. simpl. replace (length l1 + (length l2 + 1))%nat with (length (l1 ++ y :: l2)) by (rewrite length_app; simpl; lia).
    assert (HE : l1 ++ y :: l2 ++ [y] = (l1 ++ y :: l2) ++ [y]) by (by rewrite <- app_assoc).
    rewrite HE, take_app_length, <- (Permutation_middle l1 (l2 ++ [y]) h). constructor.
    by rewrite <- Permutation_cons_append.
Qed.

Lemma remove_hashes hs ks rest m : ks ≡ₚ hs ++ rest ->
  (foldl remove_hash (ks, m) hs).1 ≡ₚ rest /\
  forall k, (foldl remove_hash (ks, m) hs).2 !! k = if decide (k ∈ hs) then None else m !! k.
Proof.
  revert ks m. induction hs as [|h hs IH]; intros ks m Hks; cbn [foldl remove_hash fst snd].
  { split; [done|]. intros k. by rewrite decide_False by apply not_elem_of_nil. }
  change (remove_hash (ks, m) h) with (deleteFromSlice ks h, delete h m).
  destruct (IH (deleteFromSlice ks h) (delete h m)) as [H1 H2].
  { apply (Permutation_cons_inv (a:=h)). rewrite deleteFromSlice_perm; [done|]. rewrite Hks. by left. }
  split; [done|]. intros k. rewrite H2. destruct (decide (k ∈ hs)) as [Hk|Hk].
  - by rewrite decide_True by by right.
  - destruct (decide (k = h)) as [->|Hne].
    + rewrite decide_True by by left. apply lookup_delete_eq.
    + rewrite decide_False by set_solver. by rewrite lookup_delete_ne.
Qed.

Lemma insert_hashes (p : nat) hs (m : gmap Z nat) k :
  foldl (fun m h => <[h := p]> m) m hs !! k = if decide (k ∈ hs) then Some p else m !! k.
Proof.
  revert m. induction hs as [|h hs IH]; intros m; cbn [foldl]; [by rewrite decide_False by apply not_elem_of_nil|].
  rewrite IH. destruct (decide (k ∈ hs)) as [Hk|Hk].
  - by rewrite decide_True by by right.
  - destruct (decide (k = h)) as [->|Hne].
    + rewrite decide_True by by left. apply lookup_insert_eq.
    + rewrite decide_False by set_solver. by rewrite lookup_insert_ne.
Qed.

(** * The ring *)

Section ring.
Variable hash : string -> Z.
Implicit Types (c : Consistent) (e : addressEndpoint) (E U : list addressEndpoint).

Definition hashes (r : Z) e : list Z := replicaHash hash (Key e) <$> seqZ 0 r.
Definition all_hashes (r : Z) E : list Z := E ≫= hashes r.

(** No two endpoints of a set have a replica in common. *)
Definition collision_free (r : Z) U : Prop :=
  forall e e' h, e ∈ U -> e' ∈ U -> h ∈ hashes r e -> h ∈ hashes r e' -> e = e'.

(** The requests in flight of an endpoint, and of all of them. *)
Definition load_at c e : Z := from_option (fun p => load_of p c) 0 (info hash (Key e) c).
Definition total c E : Z := foldr (fun e acc => load_at c e + acc) 0 E.

(** The endpoints [E], drawn from [U], are on the ring. *)
Record ring U c E : Prop := {
  ring_replicas : 0 < replicas c;
  ring_free : collision_free (replicas c) U;
  ring_within : E ⊆ U;
  ring_NoDup : NoDup E;
  ring_keys : keys c ≡ₚ all_hashes (replicas c) E;
  ring_owned : forall e, e ∈ E -> exists p i, infos c !! p = Some i /\ endpoint i = e /\
    forall h, h ∈ hashes (replicas c) e -> endpoints c !! h = Some p;
  ring_only : forall h, h ∉ all_hashes (replicas c) E -> endpoints c !! h = None;
  ring_number : numEndpoints c = Z.of_nat (length E);
  ring_total : totalLoad c = total c E;
}.

Lemma first_hash r e : 0 < r -> replicaHash hash (Key e) 0 ∈ hashes r e.
Proof. intros Hr. apply list_elem_of_fmap. exists 0. split; [done|]. apply elem_of_seqZ. lia. Qed.

Lemma elem_of_all_hashes r E h : h ∈ all_hashes r E <-> exists e, e ∈ E /\ h ∈ hashes r e.
Proof. unfold all_hashes. rewrite list_elem_of_bind. firstorder. Qed.

Lemma total_perm c E E' : E ≡ₚ E' -> total c E = total c E'.
Proof.
  intros HE. unfold total. induction HE as [|e E1 E2 _ IH|e e' E0|E1 E2 E3 _ IH1 _ IH2]; simpl; lia.
Qed.

Lemma total_ext c c' E : (forall e, e ∈ E -> load_at c' e = load_at c e) -> total c' E = total c E.
Proof.
  unfold total. induction E as [|e E IH]; intros H; simpl; [done|]. rewrite H by by left. f_equal. apply IH.
  intros e' He'. apply H. by right.
Qed.

Lemma ring_perm U c E E' : E ≡ₚ E' -> ring U c E -> ring U c E'.
Proof.
  intros HE [Hr Hf Hw Hn Hk Ho Hl Hc Ht]. constructor; try done.
  - by rewrite <- HE.
  - by rewrite <- HE.
  - rewrite Hk. unfold all_hashes. by rewrite HE.
  - intros e. rewrite <- HE. apply Ho.
  - intros h Hh. apply Hl. revert Hh. unfold all_hashes. by rewrite HE.
  - by rewrite <- HE.
  - by rewrite Ht, (total_perm _ _ _ HE).
Qed.

Lemma ring_info U c E e : ring U c E -> e ∈ E ->
  exists p i, info hash (Key e) c = Some p /\ infos c !! p = Some i /\ endpoint i = e.
Proof.
  intros HR He. destruct (ring_owned _ _ _ HR e He) as (p & i & Hp & Hi & Hh). exists p, i. split; [|done].
  apply Hh, first_hash, HR.
Qed.

Lemma ring_absent U c E e : ring U c E -> e ∈ U -> e ∉ E -> info hash (Key e) c = None.
Proof.
  intros HR HU He. apply (ring_only _ _ _ HR). rewrite elem_of_all_hashes. intros (e' & He' & Hh). apply He.
  assert (e = e') as ->; [|done]. eapply (ring_free _ _ _ HR); [done|by apply HR|apply first_hash, HR|done].
Qed.

(** The pointer of an endpoint is its own. *)
Lemma ring_pointer U c E e e' p : ring U c E -> e ∈ E -> e' ∈ E ->
  info hash (Key e) c = Some p -> info hash (Key e') c = Some p -> e = e'.
Proof.
  intros HR He He' Hp Hp'. destruct (ring_info _ _ _ _ HR He) as (q & i & Hq & Hi & <-).
  destruct (ring_info _ _ _ _ HR He') as (q' & i' & Hq' & Hi' & <-). congruence.
Qed.

Lemma ring_sort U c E : ring U c E -> ring U (sort_keys c) E /\ StronglySorted Z.le (keys (sort_keys c)).
Proof.
  intros [Hr Hf Hw Hn Hk Ho Hl Hc Ht]. split; [|apply Ints_sorted]. constructor; try done. simpl. by rewrite Ints_perm.
Qed.

(** ** Endpoints that come and go *)

Lemma ring_add U c E e : ring U c E -> e ∈ U -> e ∉ E -> ring U (add_endpoint hash c e) (e :: E).
Proof.
  intros HR HU He. pose proof HR as [Hr Hf Hw Hn Hk Ho Hl Hc Ht].
  assert (Hkeep : forall e' h, e' ∈ E -> h ∈ hashes (replicas c) e' -> h ∉ hashes (replicas c) e).
  { intros e' h He' Hh Hh'. apply He. assert (e = e') as -> by (eapply Hf; eauto). done. }
  assert (Hlook : forall h, endpoints (add_endpoint hash c e) !! h =
    if decide (h ∈ hashes (replicas c) e) then Some (length (infos c)) else endpoints c !! h) by (intros h; apply insert_hashes).
  constructor; try done.
  - set_solver.
  - by constructor.
  - simpl. rewrite Hk. unfold all_hashes. simpl. by rewrite (comm (++)).
  - intros e' [->|He']%elem_of_cons.
    + exists (length (infos c)), (mkInfo e 0). split; [by apply list_lookup_middle|]. split; [done|].
      intros h Hh. rewrite Hlook. by rewrite decide_True.
    + destruct (Ho e' He') as (p & i & Hp & Hi & Hh). exists p, i. split; [by apply lookup_app_l_Some|]. split; [done|].
      intros h Hin. rewrite Hlook, decide_False by eauto. by apply Hh.
  - intros h Hh. rewrite elem_of_all_hashes in Hh. rewrite Hlook, decide_False by (contradict Hh; exists e; split; [by left|done]).
    apply Hl. rewrite elem_of_all_hashes. intros (e' & He' & Hin). apply Hh. exists e'. split; [by right|done].
  - simpl. rewrite Hc. lia.
  - change (totalLoad (add_endpoint hash c e)) with (totalLoad c). rewrite Ht.
    assert (H0 : load_at (add_endpoint hash c e) e = 0).
    { unfold load_at, info. rewrite Hlook, decide_True by by apply first_hash. unfold load_of. simpl. by rewrite list_lookup_middle. }
    unfold total at 2. simpl. rewrite H0. fold (total (add_endpoint hash c e) E). simpl. symmetry. apply total_ext.
    intros e' He'. destruct (Ho e' He') as (p & i & Hp & _ & Hh). pose proof (Hh _ (first_hash _ e' Hr)) as Hfirst.
    unfold load_at, info. rewrite Hlook, decide_False by (eapply Hkeep; [done|by apply first_hash]). rewrite Hfirst.
    unfold load_of. simpl. by rewrite lookup_app_l by (eapply lookup_lt_Some; eauto).
Qed.

Lemma ring_remove U c E e : ring U c (e :: E) -> ring U (remove_endpoint hash c e) E.
Proof.
  intros HR. pose proof HR as [Hr Hf Hw Hn Hk Ho Hl Hc Ht]. inversion Hn as [|? ? He HnE]; subst.
  destruct (ring_info _ _ _ e HR ltac:(by left)) as (p & i & Hp & Hi & Hie).
  unfold remove_endpoint. rewrite Hp. destruct (remove_hashes (hashes (replicas c) e) (keys c) (all_hashes (replicas c) E) (endpoints c)) as [Hks Hmap].
  { rewrite Hk. done. }
  change (replicaHash hash (Key e) <$> replica_range c) with (hashes (replicas c) e).
  set (km := foldl remove_hash (keys c, endpoints c) (hashes (replicas c) e)) in *.
  assert (Hkeep : forall e' h, e' ∈ E -> h ∈ hashes (replicas c) e' -> h ∉ hashes (replicas c) e).
  { intros e' h He' Hh Hh'. apply He. assert (e = e') as ->; [|done]. eapply Hf; [| |done|done]; apply Hw; [by left|by right]. }
  constructor; try done.
  - set_solver.
  - intros e' He'. destruct (Ho e' ltac:(by right)) as (p' & i' & Hp' & Hi' & Hh'). exists p', i'. split; [done|]. split; [done|].
    intros h Hh. simpl. rewrite Hmap, decide_False by eauto. by apply Hh'.
  - intros h Hh. simpl. rewrite Hmap. case_decide as Hd; [done|]. apply Hl. unfold all_hashes. simpl. rewrite elem_of_app. naive_solver.
  - simpl. rewrite Hc. simpl. lia.
  - simpl. rewrite Ht. unfold total at 1. simpl. fold (total c E). assert (load_at c e = load_of p c) as ->.
    { unfold load_at. by rewrite Hp. }
    enough (total (set_ring (numEndpoints c - 1) (load_of p c + total c E - load_of p c) km.1 km.2 (infos c) c) E = total c E) as -> by lia.
    apply total_ext. intros e' He'. unfold load_at, info. simpl. rewrite Hmap, decide_False by (eapply Hkeep; [done|by apply first_hash]). done.
Qed.

(** ** Loads *)

Lemma load_of_alter c d p q : load_of p (add_load d q c) =
  load_of p c + (if bool_decide (p = q /\ is_Some (infos c !! p)) then d else 0).
Proof.
  unfold load_of, add_load. simpl. destruct (decide (p = q)) as [->|Hne].
  - rewrite list_lookup_alter_eq. destruct (infos c !! q) as [i|]; simpl.
    + rewrite bool_decide_eq_true_2 by (split; [done|by eexists]). done.
    + rewrite bool_decide_eq_false_2 by (intros [_ [? ?]]; done). done.
  - rewrite list_lookup_alter_ne by done. rewrite bool_decide_eq_false_2 by naive_solver. lia.
Qed.

Lemma total_add_load U c E e p d : ring U c E -> e ∈ E -> info hash (Key e) c = Some p ->
  forall E', E' ⊆ E -> NoDup E' -> total (add_load d p c) E' = total c E' + (if decide (e ∈ E') then d else 0).
Proof.
  intros HR He Hp. destruct (ring_info _ _ _ e HR He) as (p' & i & Hp' & Hi & Hie). assert (p' = p) as -> by congruence.
  induction E' as [|e' E' IH]; intros Hsub Hn; [by rewrite decide_False by apply not_elem_of_nil|].
  inversion Hn as [|? ? Hne HnE]; subst. unfold total. simpl. fold (total (add_load d p c) E') (total c E').
  rewrite IH by (done || set_solver). assert (Hload : load_at (add_load d p c) e' = load_at c e' + if decide (endpoint i = e') then d else 0).
  { unfold load_at. change (info hash (Key e') (add_load d p c)) with (info hash (Key e') c).
    destruct (ring_info _ _ _ e' HR) as (q & j & Hq & Hj & Hje); [apply Hsub; by left|]. rewrite Hq. simpl. rewrite load_of_alter.
    f_equal. destruct (decide (endpoint i = e')) as [<-|Hdiff].
    - assert (q = p) as -> by congruence. rewrite bool_decide_eq_true_2; [done|]. split; [done|by eexists].
    - rewrite bool_decide_eq_false_2; [done|]. intros [-> _]. apply Hdiff. subst e'. congruence. }
  rewrite Hload. destruct (decide (endpoint i = e')) as [<-|Hdiff].
  - rewrite decide_False by done. rewrite decide_True by by left. lia.
  - destruct (decide (endpoint i ∈ E')); [rewrite decide_True by by right|rewrite decide_False by set_solver]; lia.
Qed.

Lemma ring_add_load U c E e p d : ring U c E -> e ∈ E -> info hash (Key e) c = Some p -> ring U (add_load d p c) E.
Proof.
  intros HR He Hp. pose proof HR as [Hr Hf Hw Hn Hk Ho Hl Hc Ht]. constructor; try done.
  - intros e' He'. destruct (Ho e' He') as (q & i & Hq & Hi & Hh). destruct (decide (p = q)) as [->|Hne].
    + exists q, (mkInfo (endpoint i) (load i + d)). split; [|done]. simpl. by rewrite list_lookup_alter_eq, Hq.
    + exists q, i. split; [|done]. simpl. by rewrite list_lookup_alter_ne.
  - rewrite (total_add_load _ _ _ _ _ d HR He Hp E) by done. rewrite decide_True by done. simpl. lia.
Qed.

End ring.

(** * Clockwise *)

(** [k] is the first of the keys from the position [h] on, around the ring. *)
Definition clockwise (ks : list Z) (h k : Z) : Prop :=
  k ∈ ks /\ ((h <= k /\ forall k', k' ∈ ks -> h <= k' -> k <= k') \/ (forall k', k' ∈ ks -> k' < h /\ k <= k')).

Lemma clockwise_unique ks h k k' : clockwise ks h k -> clockwise ks h k' -> k = k'.
Proof.
  intros [Hk H] [Hk' H']. destruct H as [[Hh H]|H], H' as [[Hh' H']|H'].
  - specialize (H k' Hk' Hh'). specialize (H' k Hk Hh). lia.
  - destruct (H' k Hk). lia.
  - destruct (H k' Hk'). lia.
  - destruct (H k' Hk'), (H' k Hk). lia.
Qed.

Lemma clockwise_subset ks ks' h k : clockwise ks h k -> ks' ⊆ ks -> k ∈ ks' -> clockwise ks' h k.
Proof. intros [_ [[Hh H]|H]] Hsub Hk; (split; [done|]); [left|right]; auto. Qed.

Definition start_index (ks : list Z) (h : Z) : nat :=
  let idx := Search (Z.leb h) ks in if (idx =? length ks)%nat then O else idx.

Lemma start_clockwise ks h : StronglySorted Z.le ks -> ks <> [] -> exists k, ks !! start_index ks h = Some k /\ clockwise ks h k.
Proof.
  intros Hs Hne. unfold start_index. destruct (Search_spec (Z.leb h) ks) as [[Hno ->]|(l1 & k & l2 & -> & Hl1 & Hk & ->)].
  - rewrite Nat.eqb_refl. destruct ks as [|k ks]; [done|]. exists k. split; [done|]. split; [by left|]. right.
    inversion Hs as [|? ? _ Hall]; subst. rewrite Forall_forall in Hno, Hall. intros k' Hk'. split; [by apply Z.leb_gt, Hno|].
    apply elem_of_cons in Hk' as [->|Hk']; [lia|by apply Hall].
  - rewrite length_app. simpl. rewrite (proj2 (Nat.eqb_neq _ _)) by lia. exists k. split; [by apply list_lookup_middle|].
    split; [set_solver|]. left. split; [by apply Z.leb_le|]. rewrite Forall_forall in Hl1. intros k' [Hk'|[->|Hk']%elem_of_cons]%elem_of_app Hle.
    + specialize (Hl1 k' Hk'). simpl in Hl1. apply Z.leb_gt in Hl1. lia.
    + lia.
    + apply StronglySorted_app in Hs as (_ & _ & Hs). inversion Hs as [|? ? _ Hall]; subst. rewrite Forall_forall in Hall. by apply Hall.
Qed.

Section get.
Variable hash : string -> Z.
Implicit Types (c : Consistent) (e : addressEndpoint) (E U : list addressEndpoint).

Lemma ring_isEmpty U c E : ring hash U c E -> isEmpty c = bool_decide (E = []).
Proof.
  intros HR. unfold isEmpty. apply bool_decide_ext. rewrite (ring_keys _ _ _ _ HR). destruct E as [|e E]; [done|].
  split; [|done]. unfold all_hashes. simpl. rewrite length_app. unfold hashes. rewrite length_fmap, length_seqZ.
  pose proof (ring_replicas _ _ _ _ HR). lia.
Qed.

(** Every index of the ring is that of an endpoint. *)
Lemma ring_at U c E i k : ring hash U c E -> keys c !! i = Some k ->
  exists e p j, e ∈ E /\ k ∈ hashes hash (replicas c) e /\ info_at i c = Some p /\
    info hash (Key e) c = Some p /\ infos c !! p = Some j /\ endpoint j = e.
Proof.
  intros HR Hi. assert (Hk : k ∈ all_hashes hash (replicas c) E).
  { rewrite <- (ring_keys _ _ _ _ HR). by eapply list_elem_of_lookup_2. }
  apply elem_of_all_hashes in Hk as (e & He & Hk). destruct (ring_owned _ _ _ _ HR e He) as (p & j & Hp & Hj & Hh).
  exists e, p, j. split; [done|]. split; [done|]. split; [unfold info_at; rewrite Hi; simpl; by apply Hh|]. split; [|done].
  apply Hh, first_hash, HR.
Qed.

(** Without bounded loads, [Get] returns the endpoint of the first key clockwise. *)
Lemma Get_plain U c E fuel key : ring hash U c E -> StronglySorted Z.le (keys c) -> E <> [] -> float_is_zero (loadFactor c) = true ->
  exists e k, e ∈ E /\ k ∈ hashes hash (replicas c) e /\ clockwise (all_hashes hash (replicas c) E) (hash key) k /\
    Get hash fuel [key] c = (Ret (Some e), c).
Proof.
  intros HR Hs HE Hz. assert (Hne : keys c <> []).
  { intros H0. pose proof (ring_isEmpty _ _ _ HR) as He. unfold isEmpty in He. rewrite H0 in He. simpl in He.
    rewrite (bool_decide_eq_false_2 _ HE) in He. done. }
  destruct (start_clockwise (keys c) (hash key) Hs Hne) as (k & Hk & Hcw).
  destruct (ring_at _ _ _ _ _ HR Hk) as (e & p & j & He & Hke & Hat & _ & Hj & Hje). exists e, k. split; [done|]. split; [done|]. split.
  - assert (Hsub : forall x, x ∈ all_hashes hash (replicas c) E <-> x ∈ keys c) by (intros x; by rewrite (ring_keys _ _ _ _ HR)).
    eapply clockwise_subset; [exact Hcw|intros x; apply Hsub|by apply Hsub, Hcw].
  - unfold Get, bind, gets. rewrite (ring_isEmpty _ _ _ HR), bool_decide_eq_false_2 by done.
    fold (start_index (keys c) (hash key)). rewrite Hz, Hat. simpl. unfold endpoint_at, bind, gets. rewrite Hj. simpl. by rewrite Hje.
Qed.

Lemma Get_none U c fuel key : ring hash U c [] -> Get hash fuel [key] c = (Ret None, c).
Proof. intros HR. unfold Get, bind, gets. by rewrite (ring_isEmpty _ _ _ HR). Qed.

(** Two endpoints that own the same first key. *)
Lemma same_owner U c E E' h e e' k k' : ring hash U c E -> E' ⊆ E -> e ∈ E' -> e' ∈ E' ->
  k ∈ hashes hash (replicas c) e -> clockwise (all_hashes hash (replicas c) E) h k ->
  k' ∈ hashes hash (replicas c) e' -> clockwise (all_hashes hash (replicas c) E') h k' -> e' = e.
Proof.
  intros HR Hsub He He' Hk Hcw Hk' Hcw'. assert (k' = k) as ->.
  { eapply clockwise_unique; [exact Hcw'|]. eapply clockwise_subset; [exact Hcw| |].
    - intros x. rewrite !elem_of_all_hashes. naive_solver.
    - apply elem_of_all_hashes. by exists e. }
  eapply (ring_free _ _ _ _ HR); [| |done|done]; apply (ring_within _ _ _ _ HR), Hsub; done.
Qed.

(** * Reachable states *)

Definition present e c : Prop := is_Some (info hash (Key e) c).

(** The states of a balancer, from the empty one: endpoints of [U] are added when they are not
    there, removed, taken for requests and put back. *)
Inductive reachable U : Consistent -> Prop :=
  | reachable_new n factor c : NewConsistent n factor = Some c -> 0 < replicas c -> collision_free hash (replicas c) U -> reachable U c
  | reachable_add c es : reachable U c -> es ⊆ U -> NoDup es -> (forall e, e ∈ es -> ~ present e c) -> reachable U (AddEndpoints hash es c)
  | reachable_remove c es : reachable U c -> es ⊆ U -> reachable U (RemoveEndpoints hash es c)
  | reachable_get c fuel ks : reachable U c -> reachable U (Get hash fuel ks c).2
  | reachable_put c e : reachable U c -> e ∈ U -> reachable U (Put hash e c).

Lemma adds_ring U c E es : ring hash U c E -> es ⊆ U -> NoDup es -> (forall e, e ∈ es -> e ∉ E) ->
  exists E', (forall e, e ∈ E' <-> e ∈ es \/ e ∈ E) /\ ring hash U (foldl (add_endpoint hash) c es) E'.
Proof.
  revert c E. induction es as [|e es IH]; intros c E HR HU Hn Hno; [exists E; set_solver|]. inversion Hn as [|? ? He Hes]; subst.
  destruct (IH (add_endpoint hash c e) (e :: E)) as (E' & HE' & HR').
  - apply ring_add; [done|apply HU; by left|apply Hno; by left].
  - set_solver.
  - done.
  - set_solver.
  - exists E'. split; [|done]. intros e'. rewrite HE'. set_solver.
Qed.

Lemma without_perm E e : NoDup E -> e ∈ E -> E ≡ₚ e :: filter (fun x => x <> e) E.
Proof.
  intros Hn He. apply NoDup_Permutation; [done| |].
  - constructor; [|by apply NoDup_filter]. rewrite list_elem_of_filter. naive_solver.
  - intros x. rewrite elem_of_cons, list_elem_of_filter. destruct (decide (x = e)); naive_solver.
Qed.

Lemma remove_ring U c E e : ring hash U c E -> e ∈ U ->
  exists E', (forall x, x ∈ E' <-> x ∈ E /\ x <> e) /\ ring hash U (remove_endpoint hash c e) E'.
Proof.
  intros HR HU. destruct (decide (e ∈ E)) as [He|He].
  - exists (filter (fun x => x <> e) E). split; [intros x; rewrite list_elem_of_filter; naive_solver|].
    apply ring_remove. eapply ring_perm; [|exact HR]. apply without_perm; [apply HR|done].
  - exists E. split; [naive_solver|]. unfold remove_endpoint. by rewrite (ring_absent _ _ _ _ _ HR).
Qed.

Lemma removes_ring U c E es : ring hash U c E -> es ⊆ U ->
  exists E', (forall x, x ∈ E' <-> x ∈ E /\ x ∉ es) /\ ring hash U (foldl (remove_endpoint hash) c es) E'.
Proof.
  revert c E. induction es as [|e es IH]; intros c E HR HU; [exists E; set_solver|].
  destruct (remove_ring U c E e HR) as (E1 & HE1 & HR1); [apply HU; by left|].
  destruct (IH _ _ HR1) as (E' & HE' & HR'); [set_solver|]. exists E'. split; [|done]. intros x. rewrite HE', HE1. set_solver.
Qed.

Lemma AddEndpoints_ring U c E es : ring hash U c E -> es ⊆ U -> NoDup es -> (forall e, e ∈ es -> e ∉ E) ->
  exists E', (forall e, e ∈ E' <-> e ∈ es \/ e ∈ E) /\ ring hash U (AddEndpoints hash es c) E' /\ StronglySorted Z.le (keys (AddEndpoints hash es c)).
Proof. intros HR HU Hn Hno. destruct (adds_ring U c E es HR HU Hn Hno) as (E' & HE' & HR'). exists E'. split; [done|]. by apply ring_sort. Qed.

Lemma RemoveEndpoints_ring U c E es : ring hash U c E -> es ⊆ U ->
  exists E', (forall x, x ∈ E' <-> x ∈ E /\ x ∉ es) /\ ring hash U (RemoveEndpoints hash es c) E' /\ StronglySorted Z.le (keys (RemoveEndpoints hash es c)).
Proof. intros HR HU. destruct (removes_ring U c E es HR HU) as (E' & HE' & HR'). exists E'. split; [done|]. by apply ring_sort. Qed.

(** The ring holds the present endpoints. *)
Lemma ring_present U c E e : ring hash U c E -> e ∈ U -> present e c <-> e ∈ E.
Proof.
  intros HR HU. split.
  - intros [p Hp]. destruct (decide (e ∈ E)) as [|He]; [done|]. by rewrite (ring_absent _ _ _ _ _ HR HU He) in Hp.
  - intros He. destruct (ring_info _ _ _ _ _ HR He) as (p & i & Hp & _). by exists p.
Qed.

(** [Get] adds to the load of one endpoint at most. *)
Lemma search_load_at U c E fuel i : ring hash U c E -> (search_load fuel i c).2 = c /\
  forall p, (search_load fuel i c).1 = Ret p -> exists e, e ∈ E /\ info hash (Key e) c = Some p.
Proof.
  intros HR. revert i. induction fuel as [|fuel IH]; intros i; [done|]. cbn [search_load]. unfold bind, gets.
  destruct (info_at i c) as [p|] eqn:Hp; [|done]. simpl. destruct (loadOK _ _ _ _); [|apply IH]. split; [done|]. intros q [= <-].
  unfold info_at in Hp. destruct (keys c !! i) as [k|] eqn:Hk; [|done].
  destruct (ring_at _ _ _ _ _ HR Hk) as (e & p' & j & He & _ & Hat & Hinfo & _). exists e. split; [done|].
  unfold info_at in Hat. rewrite Hk in Hat. simpl in *. congruence.
Qed.

Lemma Get_state U c E fuel ks : ring hash U c E ->
  (Get hash fuel ks c).2 = c \/ exists e p, e ∈ E /\ info hash (Key e) c = Some p /\ (Get hash fuel ks c).2 = add_load 1 p c.
Proof.
  intros HR. unfold Get. destruct ks as [|key [|]]; [by left| |by left]. unfold bind, gets. destruct (isEmpty c); [by left|].
  set (idx := if (_ =? _)%nat then O else _). destruct (float_is_zero _).
  - left. destruct (info_at idx c) as [p|]; [|done]. simpl. unfold endpoint_at, bind, gets. by destruct (infos c !! p).
  - destruct (search_load_at U c E fuel idx HR) as [Hs Hp]. destruct (search_load fuel idx c) as [[p|err| | |] c']; simpl in Hs; subst c'; try by left.
    destruct (Hp p eq_refl) as (e & He & Hinfo). right. exists e, p. split; [done|]. split; [done|]. simpl.
    unfold endpoint_at, bind, gets. simpl. by destruct (alter _ _ _ !! p).
Qed.

Lemma reachable_ring U c : reachable U c -> exists E, ring hash U c E /\ StronglySorted Z.le (keys c).
Proof.
  induction 1 as [n factor c Hc Hr Hf|c es _ (E & HR & _) HU Hn Hno|c es _ (E & HR & _) HU|c fuel ks _ (E & HR & Hs)|c e _ (E & HR & Hs) HU].
  - exists []. unfold NewConsistent in Hc. destruct (_ && _); [done|]. injection Hc as <-. split; [|constructor].
    constructor; try done; try (intros e He; by apply not_elem_of_nil in He). constructor.
  - destruct (AddEndpoints_ring U c E es HR HU Hn) as (E' & _ & HR'); [|by exists E'].
    intros e He HeE. apply (Hno e He). apply (ring_present _ _ _ _ HR); auto.
  - destruct (RemoveEndpoints_ring U c E es HR HU) as (E' & _ & HR'). by exists E'.
  - exists E. destruct (Get_state U c E fuel ks HR) as [->|(e & p & He & Hp & ->)]; [done|]. split; [|done]. by eapply ring_add_load.
  - exists E. unfold Put. destruct (float_is_zero _); [done|]. destruct (info hash (Key e) c) as [p|] eqn:Hp; [|done].
    assert (e ∈ E) by (apply (ring_present _ _ _ _ HR HU); by exists p). split; [|done]. by eapply ring_add_load.
Qed.

(** Without bounded loads, who gets a key: nobody or the endpoint of the first key clockwise. *)
Lemma Get_cases U c E fuel key : ring hash U c E -> StronglySorted Z.le (keys c) -> float_is_zero (loadFactor c) = true ->
  (E = [] /\ Get hash fuel [key] c = (Ret None, c)) \/ exists e k, e ∈ E /\ k ∈ hashes hash (replicas c) e /\
    clockwise (all_hashes hash (replicas c) E) (hash key) k /\ Get hash fuel [key] c = (Ret (Some e), c).
Proof.
  intros HR Hs Hz. destruct (decide (E = [])) as [->|HE]; [left; split; [done|by eapply Get_none]|right; by apply (Get_plain U)].
Qed.

(** The endpoint of a key on a ring is its endpoint on every smaller ring it is on. *)
Lemma owner_kept U c c' E E' fuel key e : ring hash U c E -> ring hash U c' E' ->
  StronglySorted Z.le (keys c) -> StronglySorted Z.le (keys c') ->
  float_is_zero (loadFactor c) = true -> float_is_zero (loadFactor c') = true -> replicas c' = replicas c ->
  E' ⊆ E -> (Get hash fuel [key] c).1 = Ret (Some e) -> e ∈ E' -> (Get hash fuel [key] c').1 = Ret (Some e).
Proof.
  intros HR HR' Hs Hs' Hz Hz' Hr Hsub Hg He.
  destruct (Get_cases U c E fuel key HR Hs Hz) as [[_ Hc]|(e0 & k & He0 & Hk & Hcw & Hc)]; rewrite Hc in Hg; [done|]. injection Hg as ->.
  destruct (Get_cases U c' E' fuel key HR' Hs' Hz') as [[-> _]|(e' & k' & He' & Hk' & Hcw' & ->)]; [by apply not_elem_of_nil in He|].
  rewrite Hr in Hk', Hcw'. simpl. do 2 f_equal. by eapply (same_owner U c E E').
Qed.

Lemma removes_config es c : loadFactor (RemoveEndpoints hash es c) = loadFactor c /\ replicas (RemoveEndpoints hash es c) = replicas c.
Proof.
  unfold RemoveEndpoints. cbn. revert c. induction es as [|e es IH]; intros c; [done|]. cbn. rewrite (proj1 (IH _)), (proj2 (IH _)). unfold remove_endpoint. by case_match.
Qed.
Lemma adds_config es c : loadFactor (AddEndpoints hash es c) = loadFactor c /\ replicas (AddEndpoints hash es c) = replicas c.
Proof. unfold AddEndpoints. cbn. revert c. induction es as [|e es IH]; intros c; [done|]. cbn. by rewrite (proj1 (IH _)), (proj2 (IH _)). Qed.

(** C37: consistency, for endpoints without collisions: no two of those that the balancer is ever given have replicas with the
    same hash. In every state that a balancer without bounded loads then reaches, when endpoints are removed a key keeps its
    endpoint unless that endpoint is one of them, and when endpoints that are not there are added it keeps its endpoint or gets
    one of the new ones; a key has an endpoint whenever there is one. With a collision this is false: replicas of
    11.0.0.1:80 and 1.0.0.1:80 have the same hash, and [colliding_endpoints_panic] shows that [Get] then dereferences nil. *)
Theorem Get_consistent U c fuel key es :
  reachable U c -> float_is_zero (loadFactor c) = true -> es ⊆ U ->
  (exists oe, Get hash fuel [key] c = (Ret oe, c) /\ (oe = None -> forall e, e ∈ U -> ~ present e c)) /\
  (let removed := RemoveEndpoints hash es c in
   forall e, (Get hash fuel [key] c).1 = Ret (Some e) -> e ∉ es -> (Get hash fuel [key] removed).1 = Ret (Some e)) /\
  (NoDup es -> (forall e, e ∈ es -> ~ present e c) -> let added := AddEndpoints hash es c in
   forall e, (Get hash fuel [key] added).1 = Ret (Some e) -> e ∉ es -> (Get hash fuel [key] c).1 = Ret (Some e)).
Proof.
  intros Hreach Hz HU. destruct (reachable_ring U c Hreach) as (E & HR & Hs). split; [|cbv zeta; split].
  - destruct (Get_cases U c E fuel key HR Hs Hz) as [[-> Hg]|(e & k & _ & _ & _ & Hg)]; rewrite Hg; [|by exists (Some e)].
    exists None. split; [done|]. intros _ e HeU Hp. apply (ring_present _ _ _ _ HR HeU) in Hp. by apply not_elem_of_nil in Hp.
  - intros e Hg He. destruct (RemoveEndpoints_ring U c E es HR HU) as (E' & HE' & HR' & Hs'). destruct (removes_config es c) as [Hz' Hr'].
    assert (HeE : e ∈ E).
    { destruct (Get_cases U c E fuel key HR Hs Hz) as [[_ Hc]|(e0 & k & He0 & _ & _ & Hc)]; rewrite Hc in Hg; [done|]. by injection Hg as ->. }
    eapply (owner_kept U c _ E E'); try done; [by rewrite Hz'|intros x Hx; by apply HE' in Hx as [? _]|by apply HE'].
  - intros Hn Hno e Hg He. destruct (AddEndpoints_ring U c E es HR HU Hn) as (E' & HE' & HR' & Hs').
    { intros x Hx HxE. apply (Hno x Hx). apply (ring_present _ _ _ _ HR); auto. }
    destruct (adds_config es c) as [Hz' Hr']. assert (HeE : e ∈ E).
    { destruct (Get_cases U _ E' fuel key HR' Hs') as [[_ Hc]|(e0 & k & He0 & _ & _ & Hc)]; [by rewrite Hz'|by rewrite Hc in Hg|].
      rewrite Hc in Hg. injection Hg as ->. apply HE' in He0 as [?|?]; done. }
    eapply (owner_kept U _ c E' E); try done; [by rewrite Hz'|intros x Hx; apply HE'; by right].
Qed.

End get.

(** * Bounded loads *)

Import rounding float64.

(** The load factors of at least one: what [NewConsistent] accepts, below 2^153. *)
Definition bounding (factor : spec_float) : Prop := exists m e, factor = S754_finite false m e /\ digits m = prec /\ -52 <= e <= 100.

(** The computation of [loadOK] in binary64 accepts an endpoint whose load is not above the average. *)
Lemma loadOK_below T n L factor : bounding factor -> 0 <= T < 2 ^ 32 -> 0 < n <= 2 ^ 16 -> 0 <= L -> L * n <= T ->
  loadOK T n L factor = true.
Proof.
  intros (m & e & -> & Hm & He) HT Hn HL HLn. unfold loadOK. set (q := T / n).
  assert (Hq : 0 <= q <= T /\ q * n <= T < (q + 1) * n).
  { unfold q. pose proof (Z.div_mod T n ltac:(lia)) as Hd. pose proof (Z.mod_pos_bound T n ltac:(lia)). pose proof (Z.div_pos T n ltac:(lia) ltac:(lia)). nia. }
  assert (HLq : L <= q) by nia. set (K := q * 2 ^ 16 + 1).
  assert (HK : K * 2 ^ (bias - 16) * n <= of_Z (T + 1)).
  { unfold of_Z. replace bias with (16 + (bias - 16)) at 2 by lia. rewrite (Z.pow_add_r 2 16) by (unfold bias; lia).
    pose proof (pow2_pos (bias - 16) ltac:(unfold bias; lia)). assert (K * n <= (T + 1) * 2 ^ 16) by (unfold K; nia). nia. }
  destruct (div_at_least (T + 1) n K (bias - 16)) as (m' & e' & -> & Hn' & Hle & He'); [lia|lia|unfold K; lia|unfold bias; lia|done|].
  assert (HofK : of_Z q < K * 2 ^ (bias - 16)).
  { unfold of_Z. replace bias with (16 + (bias - 16)) at 1 by lia. rewrite (Z.pow_add_r 2 16) by (unfold bias; lia).
    pose proof (pow2_pos (bias - 16) ltac:(unfold bias; lia)). unfold K. nia. }
  assert (Hlow : -200 <= e').
  { apply Z.nlt_ge. intros Hlt. pose proof Hn' as [Hd' _]. pose proof (digits_bounds m') as [_ Hu]. rewrite Hd' in Hu.
    unfold scaled in Hle. pose proof (Z.pow_le_mono_r 2 (e' + bias) (bias - 200) ltac:(lia) ltac:(lia)) as Hp. pose proof (pow2_pos (e' + bias) ltac:(destruct Hn'; unfold bias; lia)).
    assert (K * 2 ^ (bias - 16) < 2 ^ 53 * 2 ^ (bias - 200)) as Hbad by (unfold prec in *; nia). apply Z.nle_gt in Hbad. apply Hbad.
    rewrite <- Z.pow_add_r by (unfold bias; lia). pose proof (Z.pow_le_mono_r 2 (53 + (bias - 200)) (bias - 16) ltac:(lia) ltac:(lia)).
    assert (1 <= K) by (unfold K; lia). pose proof (pow2_pos (bias - 16) ltac:(unfold bias; lia)). nia. }
  apply (SFleb_scaled (of_Z (L + 1)) (of_Z (q + 1))).
  - apply add_1_exact. lia.
  - eapply Ceil_at_least; [apply (mul_at_least _ _ _ _ K (bias - 16)); try done; unfold K, bias; lia|lia|done].
  - unfold of_Z. apply Z.mul_le_mono_nonneg_r; [by apply Z.lt_le_incl, pow2_pos|lia].
Qed.

Section bounded.
Variable hash : string -> Z.
Implicit Types (c : Consistent) (e : addressEndpoint) (E U : list addressEndpoint).

(** The index reached after [j] steps of the loop, and the decision of the loop there. *)
Definition step_index c (i j : nat) : nat := (i + j) mod length (keys c).
Definition overloaded c (i : nat) : bool :=
  match info_at i c with
  | Some p => negb (loadOK (totalLoad c) (numEndpoints c) (load_of p c) (loadFactor c))
  | None => false
  end.

Lemma overloaded_true c i : overloaded c i = true ->
  exists p, info_at i c = Some p /\ loadOK (totalLoad c) (numEndpoints c) (load_of p c) (loadFactor c) = false.
Proof. unfold overloaded. destruct (info_at i c) as [p|]; [|done]. intros H%negb_true_iff. by exists p. Qed.

Lemma next_index c i : (i < length (keys c))%nat ->
  (if (length (keys c) <=? S i)%nat then O else S i) = step_index c i 1 /\ (step_index c i 1 < length (keys c))%nat.
Proof.
  intros Hi. unfold step_index. split; [|apply Nat.mod_upper_bound; lia]. destruct (Nat.leb_spec (length (keys c)) (S i)).
  - replace (i + 1)%nat with (length (keys c)) by lia. by rewrite Nat.Div0.mod_same.
  - rewrite Nat.mod_small; lia.
Qed.

Lemma step_index_S c i j : step_index c (step_index c i 1) j = step_index c i (S j).
Proof. unfold step_index. rewrite Nat.Div0.add_mod_idemp_l. f_equal. lia. Qed.

(** The loop returns the first pointer that is not overloaded. *)
Lemma search_load_finds c fuel i j p : (i < length (keys c))%nat -> (j < fuel)%nat ->
  (forall k, (k < j)%nat -> overloaded c (step_index c i k) = true) -> info_at (step_index c i j) c = Some p ->
  loadOK (totalLoad c) (numEndpoints c) (load_of p c) (loadFactor c) = true -> search_load fuel i c = (Ret p, c).
Proof.
  revert i j. induction fuel as [|fuel IH]; intros i j Hi Hj Hover Hp Hok; [lia|]. cbn [search_load]. unfold bind, gets.
  assert (H0 : step_index c i 0 = i) by (unfold step_index; rewrite Nat.add_0_r; by apply Nat.mod_small).
  destruct j as [|j].
  - rewrite H0 in Hp. rewrite Hp. simpl. by rewrite Hok.
  - destruct (overloaded_true _ _ (Hover 0%nat ltac:(lia))) as (p0 & Hp0 & Hno). rewrite H0 in Hp0. rewrite Hp0. simpl. rewrite Hno.
    destruct (next_index c i Hi) as [-> Hlt]. apply (IH _ j); [done|lia| |by rewrite step_index_S|done].
    intros k Hk. rewrite step_index_S. apply Hover. lia.
Qed.

(** It never returns when all are. *)
Lemma search_load_hangs c fuel i : (i < length (keys c))%nat ->
  (forall k, (k < length (keys c))%nat -> overloaded c k = true) -> search_load fuel i c = (OutOfFuel, c).
Proof.
  revert i. induction fuel as [|fuel IH]; intros i Hi Hover; [done|]. cbn [search_load]. unfold bind, gets.
  destruct (overloaded_true _ _ (Hover i Hi)) as (p & -> & Hno). simpl. rewrite Hno. destruct (next_index c i Hi) as [-> Hlt]. by apply IH.
Qed.

(** Some endpoint is not above the average. *)
Lemma below_average c E : E <> [] -> exists e, e ∈ E /\ load_at hash c e * Z.of_nat (length E) <= total hash c E.
Proof.
  intros HE. assert (H : exists e, e ∈ E /\ forall e', e' ∈ E -> load_at hash c e <= load_at hash c e').
  { induction E as [|e E IH]; [done|]. destruct (decide (E = [])) as [->|Hne]; [exists e; set_solver|].
    destruct (IH Hne) as (e0 & He0 & Hmin). destruct (Z_le_gt_dec (load_at hash c e) (load_at hash c e0)).
    - exists e. split; [by left|]. intros e' [->|He']%elem_of_cons; [lia|]. specialize (Hmin e' He'). lia.
    - exists e0. split; [by right|]. intros e' [->|He']%elem_of_cons; [lia|by apply Hmin]. }
  destruct H as (e & He & Hmin). exists e. split; [done|]. clear He HE.
  assert (forall E', E' ⊆ E -> load_at hash c e * Z.of_nat (length E') <= total hash c E'); [|auto].
  induction E' as [|e' E' IH]; intros Hsub; simpl; [lia|]. specialize (Hmin e' ltac:(apply Hsub; by left)).
  specialize (IH ltac:(set_solver)). lia.
Qed.

(** The least index that satisfies a decidable property. *)
Lemma least_index (P : nat -> Prop) `{!forall i, Decision (P i)} n : P n -> exists j, (j <= n)%nat /\ P j /\ forall k, (k < j)%nat -> ~ P k.
Proof.
  induction n as [n IH] using lt_wf_ind. intros Hn. destruct (decide (Exists P (seq 0 n))) as [(k & [_ Hk]%elem_of_seq & HPk)%Exists_exists|Hno].
  - destruct (IH k Hk HPk) as (j & Hj & HPj & Hmin). exists j. split; [lia|done].
  - exists n. split; [lia|]. split; [done|]. intros k Hk HPk. apply Hno, Exists_exists. exists k. split; [|done]. apply elem_of_seq. lia.
Qed.

(** A position within one turn whose endpoint is not overloaded, the first one. *)
Lemma first_position U c E start : ring hash U c E -> E <> [] -> (start < length (keys c))%nat -> bounding (loadFactor c) ->
  (forall e, e ∈ E -> 0 <= load_at hash c e) -> totalLoad c < 2 ^ 32 -> numEndpoints c <= 2 ^ 16 ->
  exists j, (j < length (keys c))%nat /\ overloaded c (step_index c start j) = false /\
    forall k, (k < j)%nat -> overloaded c (step_index c start k) = true.
Proof.
  intros HR HE Hstart Hf Hpos HT Hn. destruct (below_average c E HE) as (e0 & He0 & Havg).
  destruct (ring_owned _ _ _ _ HR e0 He0) as (p & i & Hp & Hi & Hh).
  pose proof (first_hash hash (replicas c) e0 (ring_replicas _ _ _ _ HR)) as Hk. set (k := replicaHash hash (Key e0) 0) in *.
  assert (exists i0, keys c !! i0 = Some k) as [i0 Hi0].
  { apply list_elem_of_lookup. rewrite (ring_keys _ _ _ _ HR). apply elem_of_all_hashes. by exists e0. }
  pose proof (lookup_lt_Some _ _ _ Hi0) as Hlt.
  assert (Hfree : overloaded c i0 = false).
  { unfold overloaded, info_at. rewrite Hi0. simpl. rewrite (Hh k Hk). apply negb_false_iff.
    assert (load_of p c = load_at hash c e0) as ->.
    { unfold load_at, info. fold k. by rewrite (Hh k Hk). }
    rewrite (ring_number _ _ _ _ HR) in *. apply loadOK_below; [done| | |by apply Hpos|by rewrite (ring_total _ _ _ _ HR)].
    - split; [|done]. rewrite (ring_total _ _ _ _ HR). specialize (Hpos e0 He0). nia.
    - destruct E; [done|]. simpl in *. lia. }
  set (len := length (keys c)) in *. assert (Hj0 : step_index c start ((i0 + len - start) mod len) = i0).
  { unfold step_index. fold len. rewrite Nat.Div0.add_mod_idemp_r. replace (start + (i0 + len - start))%nat with (i0 + 1 * len)%nat by lia.
    rewrite Nat.Div0.mod_add. by apply Nat.mod_small. }
  destruct (least_index (fun j => overloaded c (step_index c start j) = false) ((i0 + len - start) mod len)) as (j & Hj & Hgood & Hmin).
  { by rewrite Hj0. }
  exists j. split; [|split; [done|]].
  - eapply Nat.le_lt_trans; [exact Hj|]. apply Nat.mod_upper_bound. lia.
  - intros k' Hk'. apply not_false_iff_true, (Hmin k' Hk').
Qed.

Lemma start_index_lt ks h : StronglySorted Z.le ks -> ks <> [] -> (start_index ks h < length ks)%nat.
Proof. intros Hs Hne. destruct (start_clockwise ks h Hs Hne) as (k & Hk & _). by eapply lookup_lt_Some. Qed.

Lemma load_at_add U c E e p : ring hash U c E -> e ∈ E -> info hash (Key e) c = Some p ->
  load_at hash (add_load 1 p c) e = load_at hash c e + 1.
Proof.
  intros HR He Hp. pose proof (total_add_load hash U c E e p 1 HR He Hp [e]) as H. rewrite decide_True in H by by left.
  simpl in H. rewrite !Z.add_0_r in H. apply H; [set_solver|]. apply NoDup_singleton.
Qed.

(** C38: with bounded loads, [Get] finds an endpoint, for endpoints without collisions: no two of those that the balancer is
    ever given have replicas with the same hash (with a collision it may dereference nil, as [colliding_endpoints_panic] shows),
    and for a load factor of at least one and below 2^153. In every state of the balancer with an endpoint, with no negative
    load, with less than 2^32 requests in flight and at most 2^16 endpoints, the loop of [Get] ends within one turn of the ring,
    at the first position clockwise whose endpoint the load test accepts (some endpoint is not above the average, and the test
    computed in binary64 accepts it), and counts the request there. *)
Theorem Get_bounded U c key :
  reachable hash U c -> bounding (loadFactor c) -> keys c <> [] ->
  (forall e, e ∈ U -> present hash e c -> 0 <= load_at hash c e) -> totalLoad c < 2 ^ 32 -> numEndpoints c <= 2 ^ 16 ->
  exists e p j, e ∈ U /\ info hash (Key e) c = Some p /\
    let at_ k := step_index c (start_index (keys c) (hash key)) k in
    info_at (at_ j) c = Some p /\ (forall k, (k < j)%nat -> overloaded c (at_ k) = true) /\
    loadOK (totalLoad c) (numEndpoints c) (load_at hash c e) (loadFactor c) = true /\
    Get hash (length (keys c)) [key] c = (Ret (Some e), add_load 1 p c) /\
    totalLoad (add_load 1 p c) = totalLoad c + 1 /\ load_at hash (add_load 1 p c) e = load_at hash c e + 1.
Proof.
  intros Hreach Hf Hne Hpos HT Hn. destruct (reachable_ring hash U c Hreach) as (E & HR & Hs).
  assert (HE : E <> []) by (intros ->; pose proof (ring_keys _ _ _ _ HR) as H0; by apply Permutation_nil_r in H0).
  pose proof (start_index_lt (keys c) (hash key) Hs Hne) as Hstart. set (start := start_index (keys c) (hash key)) in *.
  destruct (first_position U c E start HR HE Hstart Hf) as (j & Hj & Hgood & Hmin); [|done|done|].
  { intros e He. assert (e ∈ U) by (by apply (ring_within _ _ _ _ HR)). apply Hpos; [done|]. by apply (ring_present _ _ _ _ _ HR). }
  assert (Hidx : (step_index c start j < length (keys c))%nat) by (apply Nat.mod_upper_bound; lia).
  apply lookup_lt_is_Some in Hidx as [k Hk]. destruct (ring_at _ _ _ _ _ _ HR Hk) as (e & p & i & He & _ & Hat & Hinfo & Hi & Hie).
  exists e, p, j. split; [by apply (ring_within _ _ _ _ HR)|]. split; [done|]. cbv zeta. split; [done|]. split; [done|].
  assert (Hok : loadOK (totalLoad c) (numEndpoints c) (load_of p c) (loadFactor c) = true).
  { unfold overloaded in Hgood. rewrite Hat in Hgood. by apply negb_false_iff. }
  assert (Hload : load_at hash c e = load_of p c) by (unfold load_at; by rewrite Hinfo). rewrite Hload at 1. split; [done|].
  split; [|split; [done|by eapply load_at_add]].
  unfold Get, bind, gets. rewrite (ring_isEmpty _ _ _ _ HR), bool_decide_eq_false_2 by done. fold (start_index (keys c) (hash key)). fold start.
  assert (float_is_zero (loadFactor c) = false) as -> by (destruct Hf as (m & x & -> & _); done).
  rewrite (search_load_finds c _ start j p Hstart Hj Hmin Hat Hok). simpl. unfold endpoint_at, bind, gets. simpl.
  rewrite list_lookup_alter_eq, Hi. simpl. by rewrite Hie.
Qed.

(** No request is served once every endpoint is overloaded. *)
Lemma wrapper_hangs cw fuel key : isEmpty (cw_c cw) = false -> float_is_zero (loadFactor (cw_c cw)) = false ->
  StronglySorted Z.le (keys (cw_c cw)) -> (forall k, (k < length (keys (cw_c cw)))%nat -> overloaded (cw_c cw) k = true) ->
  (wrapper_Get hash fuel key cw).1 = OutOfFuel.
Proof.
  intros He Hz Hs Hover. assert (Hne : keys (cw_c cw) <> []) by (intros H0; unfold isEmpty in He; by rewrite H0 in He).
  pose proof (start_index_lt (keys (cw_c cw)) (hash key) Hs Hne) as Hlt. unfold start_index in Hlt.
  unfold wrapper_Get, bind at 1, zoom, Get, bind, gets. rewrite He, Hz. by rewrite (search_load_hangs _ fuel _ Hlt Hover).
Qed.

End bounded.

(** * The wrapper *)

(** What service discovery reports is what is on the ring. *)
Section wrapper.
Variable hash : string -> Z.
Context `{GoRange}.
Implicit Types (U : list addressEndpoint) (cw : consistentWrapper).

(** The cache holds the endpoints of the ring, by address. *)
Definition wrapped U cw : Prop := reachable hash U (cw_c cw) /\
  (forall a e, cache cw !! a = Some e -> e = mkEndpoint a /\ e ∈ U) /\
  (forall e, e ∈ U -> present hash e (cw_c cw) <-> is_Some (cache cw !! address e)).

Lemma additions instances m acc : (forall e, e ∈ acc -> is_Some (m !! address e)) -> NoDup acc -> (forall a e, m !! a = Some e -> e = mkEndpoint a) ->
  let r := foldl add_instance (m, acc) instances in
  (forall a, r.1 !! a = if decide (a ∈ instances) then Some (mkEndpoint a) else m !! a) /\
  NoDup r.2 /\ (forall e, e ∈ r.2 <-> e ∈ acc \/ (address e ∈ instances /\ m !! address e = None)).
Proof.
  cbv zeta. revert m acc. induction instances as [|a instances IH]; intros m acc Hacc Hn Hm; cbn [foldl].
  { split; [intros a; by rewrite decide_False by apply not_elem_of_nil|]. split; [done|]. intros e. set_solver. }
  unfold add_instance at 2 4 6. cbn [fst snd]. destruct (m !! a) as [e0|] eqn:Ha.
  - destruct (IH m acc Hacc Hn Hm) as (H1 & H2 & H3). split; [|split; [done|]].
    + intros a'. rewrite H1. destruct (decide (a' ∈ instances)) as [Hi|Hi]; [by rewrite decide_True by by right|].
      destruct (decide (a' = a)) as [->|Hne]; [rewrite decide_True by by left|by rewrite decide_False by set_solver].
      by rewrite Ha, (Hm _ _ Ha).
    + intros e. rewrite H3, elem_of_cons. split; [naive_solver|]. intros [?|[[Heq|?] Hnone]]; [by left|congruence|by right].
  - destruct (IH (<[a := mkEndpoint a]> m) (acc ++ [mkEndpoint a])) as (H1 & H2 & H3).
    + intros e [He| ->%list_elem_of_singleton]%elem_of_app; simpl; [|rewrite lookup_insert_eq; by eexists].
      destruct (decide (address e = a)) as [->|Hne]; [rewrite lookup_insert_eq; by eexists|]. rewrite lookup_insert_ne by done. by apply Hacc.
    + apply NoDup_app. split; [done|]. split; [|apply NoDup_singleton]. intros e He ->%list_elem_of_singleton.
      destruct (Hacc _ He) as [? ?]. simpl in *. congruence.
    + intros a' e. destruct (decide (a' = a)) as [->|Hne]; [rewrite lookup_insert_eq; congruence|]. rewrite lookup_insert_ne by done. apply Hm.
    + split; [|split; [done|]].
      * intros a'. rewrite H1. destruct (decide (a' ∈ instances)) as [Hi|Hi]; [by rewrite decide_True by by right|].
        destruct (decide (a' = a)) as [->|Hne].
        -- rewrite decide_True by by left. apply lookup_insert_eq.
        -- rewrite decide_False by set_solver. by rewrite lookup_insert_ne.
      * intros e. rewrite H3, elem_of_app, list_elem_of_singleton, elem_of_cons. destruct (decide (address e = a)) as [<-|Hne].
        -- rewrite lookup_insert_eq. destruct e as [x]. simpl in *. naive_solver.
        -- rewrite lookup_insert_ne by done. split; [|naive_solver]. intros [[?| ->]|?]; [by left|done|naive_solver].
Qed.

Lemma present_remove U c es e : reachable hash U c -> es ⊆ U -> e ∈ U ->
  present hash e (RemoveEndpoints hash es c) <-> present hash e c /\ e ∉ es.
Proof.
  intros Hreach HU He. destruct (reachable_ring hash U c Hreach) as (E & HR & _).
  destruct (RemoveEndpoints_ring hash U c E es HR HU) as (E' & HE' & HR' & _).
  by rewrite (ring_present _ _ _ _ _ HR' He), (ring_present _ _ _ _ _ HR He), HE'.
Qed.

Lemma present_add U c es e : reachable hash U c -> es ⊆ U -> NoDup es -> (forall e, e ∈ es -> ~ present hash e c) -> e ∈ U ->
  present hash e (AddEndpoints hash es c) <-> e ∈ es \/ present hash e c.
Proof.
  intros Hreach HU Hn Hno He. destruct (reachable_ring hash U c Hreach) as (E & HR & _).
  destruct (AddEndpoints_ring hash U c E es HR HU Hn) as (E' & HE' & HR' & _).
  { intros x Hx HxE. apply (Hno x Hx). apply (ring_present _ _ _ _ _ HR); auto. }
  by rewrite (ring_present _ _ _ _ _ HR' He), (ring_present _ _ _ _ _ HR He), HE'.
Qed.

Lemma kept_lookup (l : list (string * addressEndpoint)) m a :
  foldl (fun m kv => delete kv.1 m) m l !! a = if decide (a ∈ l.*1) then None else (m : gmap string addressEndpoint) !! a.
Proof.
  revert m. induction l as [|[k v] l IH]; intros m; [by rewrite decide_False by apply not_elem_of_nil|]. cbn [foldl fmap list_fmap fst].
  rewrite IH. destruct (decide (a ∈ l.*1)) as [Hi|Hi]; [by rewrite decide_True by by right|].
  destruct (decide (a = k)) as [->|Hne].
  - rewrite decide_True by by left. apply lookup_delete_eq.
  - rewrite decide_False by set_solver. by rewrite lookup_delete_ne.
Qed.

Lemma elem_of_stale instances m a e : (a, e) ∈ stale instances m <-> m !! a = Some e /\ a ∉ instances.
Proof. unfold stale. rewrite list_elem_of_filter, elem_of_go_range. simpl. naive_solver. Qed.

(** What service discovery reports is what requests are balanced over. Whatever the order
    in which the map of the wrapper is ranged over, after an event with a list of instances,
    repeated ones included, the endpoints on the ring are exactly those of the list, and the state of the wrapper is
    consistent again; an event with an error changes nothing. *)
Theorem update_spec U cw event :
  wrapped U cw -> (forall instances a, event = inr instances -> a ∈ instances -> mkEndpoint a ∈ U) ->
  wrapped U (update hash event cw) /\
  (forall err, event = inl err -> update hash event cw = cw) /\
  (forall instances e, event = inr instances -> e ∈ U -> present hash e (cw_c (update hash event cw)) <-> address e ∈ instances).
Proof.
  intros (Hreach & Hcache & Hpres) Hin. destruct event as [err|instances]; [split; [done|]; by split|].
  unfold update. set (removals := stale instances (cache cw)). set (kept := foldl _ _ removals).
  assert (Hkept : forall a, kept !! a = if decide (a ∈ instances) then cache cw !! a else None).
  { intros a. unfold kept. rewrite kept_lookup. destruct (decide (a ∈ removals.*1)) as [Hr|Hr].
    - apply list_elem_of_fmap in Hr as ([a' e] & -> & [_ Hno]%elem_of_stale). by rewrite decide_False.
    - destruct (decide (a ∈ instances)) as [|Hno]; [done|]. destruct (cache cw !! a) as [e|] eqn:Ha; [|done].
      destruct Hr. apply list_elem_of_fmap. exists (a, e). split; [done|]. by apply elem_of_stale. }
  assert (Hrem : forall e, e ∈ removals.*2 <-> cache cw !! address e = Some e /\ address e ∉ instances).
  { intros e. rewrite list_elem_of_fmap. split.
    - intros ([a e'] & -> & [Ha Hno]%elem_of_stale). simpl. destruct (Hcache _ _ Ha) as [-> _]. done.
    - intros Hh. exists (address e, e). split; [done|]. by apply elem_of_stale. }
  assert (HremU : removals.*2 ⊆ U) by (intros e [He _]%Hrem; by apply (Hcache _ _ He)).
  destruct (additions instances kept []) as (H1 & H2 & H3).
  { intros e He. by apply not_elem_of_nil in He. }
  { constructor. }
  { intros a e. rewrite Hkept. case_decide; [|done]. intros Ha. apply (Hcache _ _ Ha). }
  destruct (foldl add_instance (kept, []) instances) as [cache' adds]. cbn [fst snd cw_c cache] in *.
  assert (HaddU : adds ⊆ U) by (intros [x] [He|[Hi _]]%H3; [by apply not_elem_of_nil in He|by apply (Hin instances)]).
  assert (HR1 : reachable hash U (RemoveEndpoints hash removals.*2 (cw_c cw))) by by apply reachable_remove.
  assert (Hafter : forall e, e ∈ U -> present hash e (RemoveEndpoints hash removals.*2 (cw_c cw)) <-> is_Some (cache cw !! address e) /\ address e ∈ instances).
  { intros e He. rewrite (present_remove U), Hpres, Hrem by done. split; [|naive_solver]. intros [[e' Ha] Hno]. split; [by eexists|].
    destruct (decide (address e ∈ instances)) as [|Hn]; [done|]. destruct Hno. split; [|done]. rewrite Ha. f_equal.
    destruct (Hcache _ _ Ha) as [-> _]. by destruct e. }
  assert (Hnew : forall e, e ∈ adds -> ~ present hash e (RemoveEndpoints hash removals.*2 (cw_c cw))).
  { intros e He. rewrite (Hafter e) by by apply HaddU. apply H3 in He as [He|[Hi Hno]]; [by apply not_elem_of_nil in He|].
    rewrite Hkept, decide_True in Hno by done. rewrite Hno. intros [[? ?] _]. done. }
  assert (Hfinal : forall e, e ∈ U -> present hash e (AddEndpoints hash adds (RemoveEndpoints hash removals.*2 (cw_c cw))) <-> address e ∈ instances).
  { intros e He. rewrite (present_add U) by done. rewrite (Hafter e He), H3, Hkept. destruct (decide (address e ∈ instances)) as [Hi|Hi].
    - destruct (cache cw !! address e); [|naive_solver]. split; [done|]. intros _. right. split; [by eexists|done].
    - split; [|done]. intros [[He0|[? _]]|[_ ?]]; [by apply not_elem_of_nil in He0|done|done]. }
  split; [|split; [done|by intros ? e [= <-] He; apply Hfinal]]. split; [by apply reachable_add|]. split.
  - intros a e. rewrite H1. destruct (decide (a ∈ instances)) as [Hi|Hi]; [intros [= <-]; split; [done|by apply (Hin instances)]|].
    rewrite Hkept, decide_False by done. done.
  - intros e He. rewrite (Hfinal e He), H1. destruct (decide (address e ∈ instances)) as [Hi|Hi]; [split; [by eexists|done]|].
    rewrite Hkept, decide_False by done. split; [done|]. by intros [? ?].
Qed.

End wrapper.

(** * At concrete states *)

Module sample_balance.

#[export] Existing Instance list_range.

Definition hash : string -> Z := crc32.ChecksumIEEE.
Definition five_quarters : spec_float := div (of_int 5) (of_int 4).
Definition one_backend : addressEndpoint := mkEndpoint "10.0.0.1:80".
Definition other_backend : addressEndpoint := mkEndpoint "10.0.0.2:80".
Definition both : list addressEndpoint := [one_backend; other_backend].

Definition empty_ring (r : Z) (factor : spec_float) : Consistent := mkConsistent r 0 factor 0 [] ∅ [].
Definition wrapper : consistentWrapper := mkWrapper ∅ (empty_ring defaultReplicationCount five_quarters).

Lemma NoDup_collision_free r U : NoDup (all_hashes hash r U) -> collision_free hash r U.
Proof.
  induction U as [|e0 U IH]; intros Hn e e' h He He'; [by apply not_elem_of_nil in He|].
  unfold all_hashes in Hn. simpl in Hn. apply NoDup_app in Hn as (_ & Hdis & Hn). intros Hh Hh'.
  assert (Hno : forall x, x ∈ U -> h ∈ hashes hash r x -> h ∉ hashes hash r e0).
  { intros x Hx Hhx Hh0. apply (Hdis h Hh0). apply elem_of_all_hashes. by exists x. }
  apply elem_of_cons in He as [->|He], He' as [->|He']; [done| | |by apply (IH Hn e e' h)]; exfalso; eapply Hno; eauto.
Qed.

Lemma both_free r : r = 4 \/ r = defaultReplicationCount -> collision_free hash r both.
Proof. intros [-> | ->]; apply NoDup_collision_free, (bool_decide_unpack _); vm_compute; exact I. Qed.

(** A balancer without bounded loads, with both endpoints. *)
Definition two_plain : Consistent := AddEndpoints hash both (empty_ring 4 (S754_zero false)).

Lemma absent_at_first r factor e : ~ present hash e (empty_ring r factor).
Proof. intros [p Hp]. done. Qed.

Lemma two_plain_reachable : reachable hash both two_plain.
Proof.
  apply reachable_add.
  - apply (reachable_new _ _ 4 (S754_zero false)); [done|done|]. apply both_free. by left.
  - done.
  - apply (bool_decide_unpack _). vm_compute. exact I.
  - intros e _. apply absent_at_first.
Qed.

(** The first endpoint leaves: the keys of the second one stay. *)
Lemma Get_consistent_witness : reachable hash both two_plain /\ float_is_zero (loadFactor two_plain) = true /\ [one_backend] ⊆ both /\
  (Get hash 0 ["2"] two_plain).1 = Ret (Some other_backend) /\
  (Get hash 0 ["2"] (RemoveEndpoints hash [one_backend] two_plain)).1 = Ret (Some other_backend).
Proof.
  assert (Hg : (Get hash 0 ["2"] two_plain).1 = Ret (Some other_backend)) by (vm_compute; reflexivity).
  assert (Hsub : [one_backend] ⊆ both) by (intros e ->%list_elem_of_singleton; by left).
  split; [exact two_plain_reachable|]. split; [done|]. split; [exact Hsub|]. split; [exact Hg|].
  apply (proj1 (proj2 (Get_consistent hash both two_plain 0 "2" [one_backend] two_plain_reachable eq_refl Hsub)) other_backend Hg).
  intros H%list_elem_of_singleton. discriminate H.
Defined.

(** A balancer with bounded loads whose first endpoint serves two requests. *)
Definition two_bounded : Consistent := AddEndpoints hash both (empty_ring 4 five_quarters).
Definition busy : Consistent := (Get hash 8 ["2"] (Get hash 8 ["2"] two_bounded).2).2.

Lemma busy_reachable : reachable hash both busy.
Proof.
  apply reachable_get, reachable_get, reachable_add.
  - apply (reachable_new _ _ 4 five_quarters); [vm_compute; reflexivity|done|]. apply both_free. by left.
  - done.
  - apply (bool_decide_unpack _). vm_compute. exact I.
  - intros e _. apply absent_at_first.
Qed.

Lemma Get_bounded_witness : reachable hash both busy /\ bounding (loadFactor busy) /\ keys busy <> [] /\
  (forall e, e ∈ both -> present hash e busy -> 0 <= load_at hash busy e) /\ totalLoad busy < 2 ^ 32 /\ numEndpoints busy <= 2 ^ 16 /\
  exists e, (Get hash (length (keys busy)) ["2"] busy).1 = Ret (Some e).
Proof.
  assert (Hf : bounding (loadFactor busy)) by (do 2 eexists; vm_compute; repeat split; discriminate).
  assert (Hne : keys busy <> []) by (vm_compute; discriminate).
  assert (Hpos : forall e, e ∈ both -> present hash e busy -> 0 <= load_at hash busy e).
  { intros e He _. unfold both in He. repeat (apply elem_of_cons in He as [->|He]; [vm_compute; discriminate|]). exfalso. exact (not_elem_of_nil _ He). }
  assert (HT : totalLoad busy < 2 ^ 32) by (vm_compute; reflexivity). assert (Hn : numEndpoints busy <= 2 ^ 16) by (vm_compute; discriminate).
  split; [exact busy_reachable|]. split; [exact Hf|]. split; [exact Hne|]. split; [exact Hpos|]. split; [exact HT|]. split; [exact Hn|].
  destruct (Get_bounded hash both busy "2" busy_reachable Hf Hne Hpos HT Hn) as (e & p & j & _ & _ & H). cbv zeta in H.
  destruct H as (_ & _ & _ & Hg & _). exists e. rewrite Hg. reflexivity.
Defined.

(** The wrapper hears of one endpoint, twice, then of the other. *)
Lemma wrapper_start : wrapped hash both wrapper.
Proof.
  split; [|split].
  - apply (reachable_new _ _ 0 five_quarters); [vm_compute; reflexivity|done|]. apply both_free. by right.
  - intros a e. done.
  - intros e _. split; [intros H; by apply absent_at_first in H|]. by intros [? ?].
Qed.

Lemma update_spec_witness : wrapped hash both wrapper /\
  present hash one_backend (cw_c (update hash (inr ["10.0.0.1:80"; "10.0.0.1:80"]) wrapper)) /\
  ~ present hash other_backend (cw_c (update hash (inr ["10.0.0.1:80"; "10.0.0.1:80"]) wrapper)).
Proof.
  assert (Hin : forall instances a, (inr ["10.0.0.1:80"; "10.0.0.1:80"] : balance.Event) = inr instances -> a ∈ instances -> mkEndpoint a ∈ both).
  { intros instances a [= <-] Ha. repeat (apply elem_of_cons in Ha as [->|Ha]; [by left|]). exfalso. exact (not_elem_of_nil _ Ha). }
  destruct (update_spec hash both wrapper (inr ["10.0.0.1:80"; "10.0.0.1:80"]) wrapper_start Hin) as (_ & _ & H).
  split; [exact wrapper_start|]. split.
  - apply (H _ one_backend eq_refl); by left.
  - intros Hp. apply (H _ other_backend eq_refl) in Hp; [|right; by left]. vm_compute in Hp.
    repeat (apply elem_of_cons in Hp as [Hp|Hp]; [discriminate Hp|]). exfalso. exact (not_elem_of_nil _ Hp).
Defined.

(** ** An address that comes back *)

(** Five requests are in flight when the address disappears from one answer of service
    discovery; they end after it is back. *)
Definition five_requests (cw : consistentWrapper) : consistentWrapper :=
  Nat.iter 5 (fun cw => (wrapper_Get hash 256 "42" cw).2) cw.
Definition returned : consistentWrapper :=
  let cw := five_requests (update hash (inr ["10.0.0.1:80"]) wrapper) in
  let cw := update hash (inr ["10.0.0.1:80"]) (update hash (inr []) cw) in
  Nat.iter 5 (wrapper_Put hash one_backend) cw.

(** An endpoint that disappears and comes back while it serves five requests ends up with
    a load of minus five when they end, and from then on, with a load factor of 1.25, no request
    is ever given an endpoint: the loop of [Get] never ends, for any key, and it holds the mutex of the balancer. *)
Theorem returning_endpoint_hangs key fuel :
  load_at hash (cw_c returned) one_backend = -5 /\ present hash one_backend (cw_c returned) /\
  (wrapper_Get hash fuel key returned).1 = OutOfFuel.
Proof.
  split; [vm_compute; reflexivity|]. split; [exists 1%nat; vm_compute; reflexivity|].
  assert (Hover : forall k, (k < length (keys (cw_c returned)))%nat -> overloaded (cw_c returned) k = true).
  { assert (H : forallb (overloaded (cw_c returned)) (seq 0 (length (keys (cw_c returned)))) = true) by (vm_compute; reflexivity).
    intros k Hk. exact (proj1 (List.forallb_forall _ _) H k (proj2 (List.in_seq _ _ _) (conj (Nat.le_0_l k) Hk))). }
  assert (He : isEmpty (cw_c returned) = false) by (vm_compute; reflexivity).
  assert (Hz : float_is_zero (loadFactor (cw_c returned)) = false) by (vm_compute; reflexivity).
  assert (Hk : Ints (keys (cw_c returned)) = keys (cw_c returned)) by (vm_compute; reflexivity).
  pose proof (eq_ind _ (StronglySorted Z.le) (Ints_sorted (keys (cw_c returned))) _ Hk) as Hs.
  exact (wrapper_hangs hash returned fuel key He Hz Hs Hover).
Qed.

(** Eleven and one before two addresses: "1" before "11.0.0.1:80" and "11" before "1.0.0.1:80" are
    the same text, so that the two endpoints share replicas; when the first is removed, the key
    it leaves on the ring has no endpoint and [Get] dereferences nil. *)
Lemma colliding_endpoints_panic :
  let cw := update hash (inr ["1.0.0.1:80"]) (update hash (inr ["1.0.0.1:80"; "11.0.0.1:80"]) wrapper) in
  replicaHash hash "11.0.0.1:80" 1 = replicaHash hash "1.0.0.1:80" 11 /\ (wrapper_Get hash 256 "1" cw).1 = Panic.
Proof. split; vm_compute; reflexivity. Qed.

End sample_balance.
