(* ===== verification/Authfe.v ===== *)
(** The edge proxy (authfe): events, proxies and the kinds of routes, the routes and their middleware, and the table of
    routes with the router that picks one. *)
From Stdlib Require Import ZArith Lia Ascii String.
From stdpp Require Import base tactics option gmap strings list pretty.
From S2P Require Import Prelude GoStd Users Sessions UsersServer UsersClient Http Api Balance Middleware.

(** * Constants (main.go) *)

Definition sessionCookieKey : string := "_weaveclientid".
Definition userIDHeader : string := UserIDHeaderName.
Definition featureFlagsHeader : string := "X-FeatureFlags".
Definition probeIDHeader : string := "X-Scope-Probe-ID".
Definition probeVersionHeader : string := "X-Scope-Probe-Version".
Definition maxAnalyticsPayloadSize : nat := 16384.
Definition maxBufferedEvents : nat := 1000.
Definition MarketplaceTokenParam : string := "x-gcp-marketplace-token".

(** * Events (event.go) *)

Record Event : Type := mkEvent {
  ev_ID : string; ev_SessionID : string; ev_Product : string; ev_Version : string; ev_UserAgent : string;
  ev_ClientID : string; ev_OrganizationID : string; ev_UserID : string; ev_IPAddress : string; ev_Values : string }.

(** * Proxies (config.go, proxy.go) *)

(** How a proxy finds the address of a request: the address of its configuration, consistent
    hashing, or the next address of a round robin. *)
Inductive Balancer : Type := NoBalancer | ConsistentBalancer | RoundRobin.
#[export] Instance Balancer_eq_dec : EqDecision Balancer.
Proof. solve_decision. Defined.

Record proxyConfig : Type := mkProxyConfig {
  pc_hostAndPort : string; pc_protocol : string; pc_readOnly : bool; pc_balancer : Balancer }.

Definition readOnlyMethods : list string := ["GET"; "HEAD"; "OPTIONS"].

(** A request handed to the transport: the proxy, the address, and the request. *)
Record Forwarded : Type := mkForwarded { fw_proxy : string; fw_address : string; fw_request : http.Request }.

(** The process: the users client, the balancers of the proxies, the channel of events, and
    what was forwarded. *)
Record Edge (W : Type) : Type := mkEdge {
  ed_users : W;
  ed_balancers : gmap string balance.consistentWrapper;
  ed_stopped : bool;
  ed_events : list Event;
  ed_discarded : nat;
  ed_forwarded : list Forwarded }.
Arguments mkEdge {W}.
Arguments ed_users {W}. Arguments ed_balancers {W}. Arguments ed_stopped {W}.
Arguments ed_events {W}. Arguments ed_discarded {W}. Arguments ed_forwarded {W}.

Section edge.
Context {W : Type}.
Abbreviation Edge := (Edge W).
Abbreviation H := (M Edge error).

Definition set_ed_users (w : W) (s : Edge) : Edge :=
  mkEdge w (ed_balancers s) (ed_stopped s) (ed_events s) (ed_discarded s) (ed_forwarded s).
Definition set_balancers (b : gmap string balance.consistentWrapper) (s : Edge) : Edge :=
  mkEdge (ed_users s) b (ed_stopped s) (ed_events s) (ed_discarded s) (ed_forwarded s).
Definition set_events (l : list Event) (n : nat) (s : Edge) : Edge :=
  mkEdge (ed_users s) (ed_balancers s) (ed_stopped s) l n (ed_forwarded s).
Definition add_forwarded (f : Forwarded) (s : Edge) : Edge :=
  mkEdge (ed_users s) (ed_balancers s) (ed_stopped s) (ed_events s) (ed_discarded s) (ed_forwarded s ++ [f]).

(** The users client, the reply of an address to a request, and the next address of a round
    robin or its error, after a number of requests. *)
Variable client : UsersClient W.
Variable backend : string -> http.Request -> http.Response.
Variable next_endpoint : string -> nat -> option string.
Definition edge_client : UsersClient Edge := fun A c => zoom ed_users set_ed_users (client A c).

(** [LogEvent]: a closed or a full channel discards the event. *)
Definition LogEvent (ev : Event) : H unit :=
  do stopped <- gets ed_stopped;
  do events <- gets ed_events;
  do discarded <- gets ed_discarded;
  if stopped : bool then ret tt
  else if (length events <? maxBufferedEvents)%nat then modify (set_events (events ++ [ev]) discarded)
  else modify (set_events events (S discarded)).

(** [HTTPEventLogger] *)
Definition HTTPEventExtractor : Type := http.Request -> H (option Event).
Definition HTTPEventLogger_Wrap (Extractor : HTTPEventExtractor) : Middleware Edge := fun next r =>
  do event <- Extractor r;
  match event with Some ev => LogEvent ev | None => ret tt end ;;;
  next r.

(** The balancer of a proxy; the loop of its [Get] is given one turn of the ring. *)
Definition fuel_of (cw : balance.consistentWrapper) : nat := length (balance.keys (balance.cw_c cw)).
Definition balancer_Get (name key : string) : H string :=
  do b <- gets (fun s => ed_balancers s !! name);
  do cw <- deref b;
  do e <- zoom (fun s => default cw (ed_balancers s !! name)) (fun cw s => set_balancers (<[name := cw]> (ed_balancers s)) s)
            (balance.wrapper_Get crc32.ChecksumIEEE (fuel_of cw) key);
  ret (balance.HostAndPort e).
Definition balancer_Put (name hostAndPort : string) : H unit :=
  modify (fun s => match ed_balancers s !! name with
                   | Some cw => set_balancers (<[name := balance.wrapper_Put crc32.ChecksumIEEE (balance.mkEndpoint hostAndPort) cw]> (ed_balancers s)) s
                   | None => s
                   end).

(** [middleware.IsWSHandshakeRequest] *)
Definition IsWSHandshakeRequest (r : http.Request) : bool :=
  bool_decide (strings.ToLower (http.header_of "Upgrade" r) = "websocket") &&
  existsb (fun part => bool_decide (strings.TrimSpace part = "upgrade")) (strings.Split (strings.ToLower (http.header_of "Connection" r)) ",").

(** The headers that [httputil.ReverseProxy] sends on (Go 1.17): without those that the Connection header names, in any case of
    letters, and without those of the connection itself, and with the address of the client. *)
Definition tokens_of (values : list string) : list string := strings.TrimSpace <$> (values ≫= fun f => strings.Split f ",").
Definition delete_name (h : http.Header) (name : string) : http.Header := filter (fun kv => strings.ToLower kv.1 <> strings.ToLower name) h.
Definition removeConnectionHeaders (h : http.Header) : http.Header :=
  foldl (fun h f => if decide (f = EmptyString) then h else delete_name h f) h (tokens_of (default [] (h !! "Connection"))).
Definition hopHeaders : list string :=
  [ "Connection"; "Proxy-Connection"; "Keep-Alive"; "Proxy-Authenticate"; "Proxy-Authorization"; "Te"; "Trailer"; "Transfer-Encoding"; "Upgrade" ].
Definition contains_token (values : list string) (token : string) : bool :=
  existsb (fun t => bool_decide (strings.ToLower t = strings.ToLower token)) (tokens_of values).
Definition outgoing_header (clientIP : string) (h : http.Header) : http.Header :=
  let reqUpType := if contains_token (default [] (h !! "Connection")) "Upgrade" then strings.ToLower (http.Get h "Upgrade") else EmptyString in
  let out := foldl delete_name (removeConnectionHeaders h) hopHeaders in
  let out := if contains_token (default [] (h !! "Te")) "trailers" then http.Set_ "Te" "trailers" out else out in
  let out := if decide (reqUpType = EmptyString) then out else http.Set_ "Upgrade" reqUpType (http.Set_ "Connection" "Upgrade" out) in
  http.Set_ "X-Forwarded-For" (strings.Join (default [] (out !! "X-Forwarded-For") ++ [clientIP]) ", ") out.

(** The request as it is sent to the address: websocket handshakes as they are, other requests by the reverse proxy. *)
Definition set_Host (host : string) (r : http.Request) : http.Request :=
  http.mkRequest (http.Method r) host (http.EscapedPath r) (http.Path r) (http.Query r) (http.RawQuery r) (http.RequestURI r) (http.header r)
    (http.cookies r) (http.BasicAuth r) (http.Vars r) (http.OrgID r) (http.PostForm r) (http.RemoteHost r) (http.Body r).
Definition sent_request (hostAndPort : string) (r : http.Request) : http.Request :=
  let r := set_Host hostAndPort (http.add_header "X-Forwarded-Host" (http.Host r) r) in
  if IsWSHandshakeRequest r then r else http.set_header (outgoing_header (http.RemoteHost r) (http.header r)) r.
Definition forward (name hostAndPort : string) (r : http.Request) : H http.Response :=
  let r := sent_request hostAndPort r in
  modify (add_forwarded (mkForwarded name hostAndPort r)) ;;;
  ret (backend hostAndPort r).

(** [httpProxy.ServeHTTP] of the service of a name, for requests and websockets alike; a [mock] proxy answers its name. *)
Definition proxy (name : string) (p : proxyConfig) : Handler Edge := fun r =>
  if decide (pc_protocol p = "mock") then ret (http.mkResponse 200 ∅ name)
  else if decide (pc_hostAndPort p = EmptyString /\ pc_balancer p = NoBalancer) then ret (http.WriteHeader 501)
  else if pc_readOnly p && negb (bool_decide (http.Method r ∈ readOnlyMethods)) then ret (http.WriteHeader 503)
  else match pc_balancer p with
  | NoBalancer => forward name (pc_hostAndPort p) r
  | ConsistentBalancer =>
      do hostAndPort <- try (balancer_Get name (http.header_of OrgIDHeaderName r));
      match hostAndPort with
      | inl _ => ret (http.WriteHeader 500)
      | inr hostAndPort =>
          do response <- forward name hostAndPort r;
          balancer_Put name hostAndPort ;;;
          ret response
      end
  | RoundRobin =>
      do n <- gets (fun s => length (ed_forwarded s));
      match next_endpoint name n with
      | None => ret (http.WriteHeader 500)
      | Some hostAndPort => forward name hostAndPort r
      end
  end.

(** * What is logged (logger.go) *)

Definition ifEmpty (a b : string) : string := if decide (a <> EmptyString) then a else b.
Definition UserAgent (r : http.Request) : string := http.header_of "User-Agent" r.

Definition newLauncherServiceLogger : HTTPEventExtractor := fun r =>
  let externalID := http.values_get (http.Query r) "instanceID" in
  do orgID <- (if decide (externalID = EmptyString) then ret EmptyString
               else do response <- try (edge_client _ (GetOrganizationRequest (RefExternalID externalID)));
                    ret (match response with inl _ => EmptyString | inr o => o_ID o end));
  ret (Some (mkEvent (http.Path r) EmptyString "launcher-service" EmptyString (UserAgent r) EmptyString orgID EmptyString (http.RemoteHost r) EmptyString)).

Definition newProbeRequestLogger : HTTPEventExtractor := fun r =>
  ret (match http.OrgID r with
       | None => None
       | Some orgID =>
           Some (mkEvent (http.Path r) EmptyString "scope-probe" (http.header_of probeVersionHeader r) (UserAgent r)
                   (http.header_of probeIDHeader r) orgID EmptyString (http.RemoteHost r) EmptyString)
       end).

Definition newUIRequestLogger (userIDHeader : string) : HTTPEventExtractor := fun r =>
  ret (Some (mkEvent (http.Path r) (default EmptyString (http.Cookie sessionCookieKey r)) "scope-ui" EmptyString (UserAgent r) EmptyString
               (default EmptyString (http.OrgID r)) (http.header_of userIDHeader r) (http.RemoteHost r) EmptyString)).

(** What an [io.LimitedReader] lets through. *)
Definition newAnalyticsLogger (userIDHeader : string) : HTTPEventExtractor := fun r =>
  ret (match http.Body r with
       | inl _ => None
       | inr body =>
           Some (mkEvent (http.Path r) (default EmptyString (http.Cookie sessionCookieKey r)) "scope-ui" EmptyString (UserAgent r) EmptyString
                   EmptyString (http.header_of userIDHeader r) (http.RemoteHost r) (substring 0 maxAnalyticsPayloadSize body))
       end).

(** [strings.Repeat] of a negative count panics: the secret of a webhook is cut to 8 characters
    before. *)
Definition stars (n : nat) : string := String.string_of_list_ascii (repeat "*"%char n).
Definition newWebhooksLogger (webhooksIntegrationTypeHeader : string) : HTTPEventExtractor := fun r =>
  match strings.Split (http.Path r) "/"%char with
  | a :: b :: secret :: rest =>
      let l := Nat.min 8 (String.length secret) in
      let url := strings.Join (a :: b :: (substring 0 l secret +:+ stars (32 - l)) :: rest) "/" in
      ret (Some (mkEvent url EmptyString "webhooks" EmptyString (UserAgent r) EmptyString (default EmptyString (http.OrgID r)) EmptyString
                   (http.RemoteHost r) (http.header_of webhooksIntegrationTypeHeader r)))
  | _ => panic
  end.

End edge.

(** * Path rewriting (weaveworks/common/middleware) *)

Module rewrite.

(** The first occurrence of a text: what precedes it and what follows. *)
Fixpoint cut_text (sub s : string) : option (string * string) :=
  if strings.HasPrefix s sub then Some (EmptyString, strings.drop (String.length sub) s)
  else match s with
       | EmptyString => None
       | String c s' => match cut_text sub s' with Some (a, b) => Some (String c a, b) | None => None end
       end.

(** The substitutions of the code, on texts without newlines: the organization prefix removed;
    everything put under [/ui], or removed; what follows the first [/demo/] put at the root; a leading text removed; a
    text put before. *)
Definition drop_org (s : string) : string :=
  if strings.HasPrefix s "/api/app/" then
    let '(org, rest) := mux.segment (strings.drop 9 s) in
    if decide (org = EmptyString) then s else rest
  else s.
Definition under_ui (s : string) : string := "/ui" +:+ s.
Definition erase (s : string) : string := EmptyString.
Definition drop_demo (s : string) : string :=
  match cut_text "/demo/" s with Some (before, after) => before +:+ "/" +:+ after | None => s end.
Definition drop_prefix (prefix s : string) : string := strings.TrimPrefix s prefix.
Definition put_prefix (prefix s : string) : string := prefix +:+ s.

Example rewritten :
  drop_org "/api/app/foo-bar-01/api/report?x=1" = "/api/report?x=1" /\ drop_org "/api/app/" = "/api/app/"
  /\ drop_demo "/demo/x/demo/y" = "/x/demo/y" /\ drop_prefix "/admin/scope" "/admin/scope/api" = "/api".
Proof. vm_compute. repeat split. Qed.

End rewrite.

(** [strings.HasSuffix] *)
Definition HasSuffix (s suffix : string) : bool :=
  (String.length suffix <=? String.length s)%nat &&
  bool_decide (substring (String.length s - String.length suffix) (String.length suffix) s = suffix).

Section routes.
Context {W : Type}.
Abbreviation Edge := (Edge W).
Abbreviation H := (M Edge error).

(** * routing_utils.go *)

(** A route of the router: a host, the template of a path or of a prefix, methods. *)
Record Route : Type := mkRoute {
  rt_host : option string;
  rt_path : option (bool * string);
  rt_methods : option (list string);
  rt_handler : Handler Edge }.

Inductive PrefixRoutable : Type :=
  | Prefix (prefix : string) (handler : Handler Edge)
  | PrefixMethods (prefix : string) (methods : list string) (handler : Handler Edge).

(** [Handler], [AbsolutePrefix], [MatchPathPrefix] *)
Definition route_Handler (p : PrefixRoutable) : Handler Edge :=
  match p with Prefix _ h => h | PrefixMethods _ _ h => h end.
Definition AbsolutePrefix (parentPrefix : string) (p : PrefixRoutable) : string :=
  filepath.Join parentPrefix (match p with Prefix prefix _ => prefix | PrefixMethods prefix _ _ => prefix end).
Definition MatchPathPrefix (parentPrefix : string) (p : PrefixRoutable) (handler : Handler Edge) : Route :=
  mkRoute None (Some (true, AbsolutePrefix parentPrefix p))
    (match p with Prefix _ _ => None | PrefixMethods _ methods _ => Some methods end) handler.

Inductive Routable : Type :=
  | Path (path : string) (handler : Handler Edge)
  | PathMethods (path : string) (methods : list string) (handler : Handler Edge)
  | MiddlewarePrefix (prefix : string) (routes : list PrefixRoutable) (mid : option (Middleware Edge))
  | HostnameSpecific (hostname : string) (routes : list PrefixRoutable) (mid : option (Middleware Edge)).

Definition RegisterRoutes (r : Routable) : list Route :=
  match r with
  | Path path handler => [mkRoute None (Some (false, path)) None handler]
  | PathMethods path methods handler => [mkRoute None (Some (false, path)) (Some methods) handler]
  | MiddlewarePrefix prefix routes mid =>
      (fun p => MatchPathPrefix prefix p (default Identity mid (route_Handler p))) <$> routes
  | HostnameSpecific hostname routes mid =>
      (fun p => mkRoute (Some hostname) None None (default Identity mid (route_Handler p))) <$> routes
  end.
Definition AbsolutePrefixes (r : Routable) : list string :=
  match r with MiddlewarePrefix prefix routes _ => filepath.Clean ∘ AbsolutePrefix prefix <$> routes | _ => [] end.

(** * The router (gorilla/mux) *)

(** [getHost]: without the port. *)
Definition getHost (r : http.Request) : string :=
  match strings.cut ":"%char (http.Host r) with Some (host, _) => host | None => http.Host r end.

Inductive Matched : Type := NoMatch | MethodMismatch | MatchedVars (vars : gmap string string).
Definition route_Match (rt : Route) (r : http.Request) : Matched :=
  let host_ok := match rt_host rt with None => true | Some h => bool_decide (getHost r = h) end in
  let vars := match rt_path rt with None => Some ∅ | Some (prefix, tpl) => mux.Match prefix tpl (http.Path r) end in
  match vars with
  | Some vars =>
      if negb host_ok then NoMatch
      else match rt_methods rt with
           | Some methods => if bool_decide (http.Method r ∈ methods) then MatchedVars vars else MethodMismatch
           | None => MatchedVars vars
           end
  | None => NoMatch
  end.

(** The first route that matches; a mismatch of methods is remembered. *)
Fixpoint serve_routes (l : list Route) (mismatch : bool) (r : http.Request) : H http.Response :=
  match l with
  | [] => ret (if mismatch then http.WriteHeader 405 else http.Error "404 page not found" 404)
  | rt :: l' =>
      match route_Match rt r with
      | NoMatch => serve_routes l' mismatch r
      | MethodMismatch => serve_routes l' true r
      | MatchedVars vars => rt_handler rt (http.set_vars vars r)
      end
  end.

(** * Middleware *)

(** [middleware.PathRewrite]: of the path as sent; a path that does not decode is refused. *)
Definition PathRewrite (rewrite : string -> string) : Middleware Edge := fun next r =>
  let raw := rewrite (http.EscapedPath r) in
  match urlpath.PathUnescape raw with
  | None => ret (http.WriteHeader 500)
  | Some path => next (http.set_path raw path (rewrite (http.RequestURI r)) r)
  end.
Definition trimPrefix (prefix : string) (handler : Handler Edge) : Handler Edge := PathRewrite (rewrite.drop_prefix prefix) handler.
Definition addPrefix (prefix : string) (handler : Handler Edge) : Handler Edge := PathRewrite (rewrite.put_prefix prefix) handler.

(** A header of the response that is there before the handler writes its own. *)
Definition with_header (name value : string) (resp : http.Response) : http.Response :=
  http.mkResponse (http.StatusCode resp)
    (<[name := value :: default [] (http.resp_header resp !! name)]> (http.resp_header resp)) (http.resp_body resp).
Definition without_header (name : string) (resp : http.Response) : http.Response :=
  http.mkResponse (http.StatusCode resp) (delete name (http.resp_header resp)) (http.resp_body resp).

Definition HeaderAdder (headers : list (string * string)) : Middleware Edge := fun next r =>
  do resp <- next r;
  ret (foldr (fun kv resp => with_header kv.1 kv.2 resp) resp headers).

Definition noCacheOnRoot : Middleware Edge := fun next r =>
  do resp <- next r;
  ret (if decide (http.Path r = "/") then with_header "Cache-Control" "no-cache" resp else resp).

(** [middleware.ErrorHandler] *)
Definition ErrorHandler (code : Z) (handler : Handler Edge) : Middleware Edge := fun next r =>
  do resp <- next r;
  if http.StatusCode resp =? code then handler r else ret resp.

(** [stripSetCookieHeader] *)
Definition stripSetCookieHeader (prefixes : list string) : Middleware Edge := fun next r =>
  if existsb (strings.HasPrefix (http.Path r)) prefixes then
    do resp <- next r; ret (without_header "Set-Cookie" resp)
  else next r.

Definition isSafeMethod (method : string) : bool := bool_decide (method = "GET") || bool_decide (method = "HEAD").

(** [originCheckerMiddleware]; [url_Host] is the host of a URL that parses. *)
Section origin.
Variable url_Host : string -> option string.
Variables (allowedOrigin : string) (allowedOriginSuffixes : list string).

Definition headerMatchesTarget (headerName : string) (r : http.Request) : bool :=
  let headerValue := http.header_of headerName r in
  if decide (headerValue = EmptyString) then true
  else match url_Host headerValue with
       | None => false
       | Some host =>
           (bool_decide (allowedOrigin <> EmptyString) && bool_decide (host = allowedOrigin))
           || existsb (HasSuffix host) allowedOriginSuffixes
       end.
Definition originChecker : Middleware Edge := fun next =>
  if decide (allowedOrigin = EmptyString /\ allowedOriginSuffixes = []) then next
  else fun r =>
    if isSafeMethod (http.Method r) || (headerMatchesTarget "Origin" r && headerMatchesTarget "Referer" r)
    then next r else ret (http.WriteHeader 403).
End origin.

(** [AuthHeaderStrippingMiddleware]: a header whose first value is empty stays. *)
Definition removeHeader (headerName : string) (r : http.Request) : http.Request :=
  if decide (http.header_of headerName r = EmptyString) then r
  else http.set_header (http.Del headerName (http.header r)) r.
Definition AuthHeaderStripping : Middleware Edge := fun next r =>
  next (removeHeader UserIDHeaderName (removeHeader OrgIDHeaderName r)).

(** [csrfTokenVerifier], around nosurf, whose reason to refuse a request is a parameter. *)
Section csrf.
Variable nosurf_Reason : http.Request -> option string.

(** The exempted prefixes: a text, a choice of texts before one, or an organization. *)
Inductive Exempt : Type := ExemptText (s : string) | ExemptLogin | ExemptOrg.

Fixpoint no_newline (s : string) : bool :=
  match s with EmptyString => true | String c s' => negb (Ascii.eqb c regexp.newline) && no_newline s' end.
Definition org_char (c : ascii) : bool :=
  strings.is_digit c || strings.between 97 122 c || strings.between 65 90 c || Ascii.eqb c "_"%char || Ascii.eqb c "-"%char.
Fixpoint drop_org_chars (s : string) : string :=
  match s with String c s' => if org_char c then drop_org_chars s' else s | EmptyString => EmptyString end.
Definition starts (text path : string) : bool :=
  strings.HasPrefix path text && no_newline (strings.drop (String.length text) path).
Definition IsExempt (e : Exempt) (path : string) : bool :=
  match e with
  | ExemptText s => starts s path
  | ExemptLogin => starts "/subscribe-via/gcp" path || starts "/login-via/gcp" path
  | ExemptOrg =>
      strings.HasPrefix path "/api/app/" &&
      (let rest := strings.drop 9 path in
       let after := drop_org_chars rest in
       (String.length after <? String.length rest)%nat && starts "/api/prom/alertmanager" after)
  end.
Definition nosurf_safeMethods : list string := ["GET"; "HEAD"; "OPTIONS"; "TRACE"].
Definition csrfTokenVerifier (exemptPrefixes : list Exempt) : Middleware Edge := fun next r =>
  if bool_decide (http.Method r ∈ nosurf_safeMethods) || existsb (fun e => IsExempt e (http.Path r)) exemptPrefixes then next r
  else match nosurf_Reason r with
       | Some reason => ret (http.Error ("CSRF token mismatch: " +:+ reason) 400)
       | None => next r
       end.
End csrf.

End routes.

(** [Config], as far as the routes depend on it; the proxies go by the names of their flags. *)
Record Config : Type := mkConfig {
  c_apiInfo : string;
  c_externalUI : bool;
  c_gcpWebhookSecret : string;
  c_hstsMaxAge : Z;
  c_redirectHTTPS : bool;
  c_sendCSPHeader : bool;
  c_targetOrigin : string;
  c_allowedOriginSuffixes : list string;
  c_launcherServiceExternalHost : string;
  c_eventLogger : bool;
  c_proxies : string -> proxyConfig }.

Section table.
Context {W : Type}.
Abbreviation Edge := (Edge W).
Abbreviation H := (M Edge error).
Variable client : UsersClient W.
Variable backend : string -> http.Request -> http.Response.
Variable next_endpoint : string -> nat -> option string.
(** The signature of a webhook, the replies of the token page, the host of a URL, the reason of
    nosurf to refuse a request, the body of the admin page, and JSON. *)
Variable ValidatePayload : http.Request -> string -> bool.
Variable client_Do : string -> TokenReply.
Variable url_Host : string -> option string.
Variable nosurf_Reason : http.Request -> option string.
Variable adminRoot_page : string.
Variable Marshal_apiInfo : string -> string -> string.
Variable c : Config.

Definition host (name : string) : Handler Edge := proxy backend next_endpoint name (c_proxies c name).

(** [parseAPIInfo], [apiInfo.ServeHTTP] *)
Definition parseAPIInfo (info : string) : string * string :=
  match strings.cut ":"%char info with Some (id, version) => (id, version) | None => (info, "unknown") end.
Definition apiInfo : Handler Edge := fun r =>
  let '(id, version) := parseAPIInfo (c_apiInfo c) in ret (http.mkResponse 200 ∅ (Marshal_apiInfo id version)).

Definition redirect (dest : string) : Handler Edge := fun r => ret (http.Redirect dest 302).
Definition noopHandler : Handler Edge := fun r => ret (http.WriteHeader 204).
Definition adminRoot : Handler Edge := fun r => ret (http.mkResponse 200 {["Content-Type" := ["text/html"]]} adminRoot_page).

(** [redirectWithQuery]: the form of the request, at most 16 KiB of it. *)
Definition ParseForm (r : http.Request) : option (list (string * string)) :=
  match http.Body r with
  | inl _ => None
  | inr body => if (String.length body <=? 16384)%nat then Some (http.PostForm r) else None
  end.
Definition redirectWithQuery : Handler Edge := fun r =>
  if decide (http.header_of "Content-Type" r <> "application/x-www-form-urlencoded") then ret (http.WriteHeader 400)
  else match ParseForm r with
       | None => ret (http.WriteHeader 500)
       | Some form =>
           let gcpToken := http.values_get form MarketplaceTokenParam in
           if decide (gcpToken = EmptyString) then ret (http.WriteHeader 400)
           else ret (http.Redirect (http.Path r +:+ "?" +:+ Encode (http.Query r ++ [(MarketplaceTokenParam, gcpToken)])) 302)
       end.

(** The loggers, when there is a place to log to. *)
Definition logger (extractor : @HTTPEventExtractor W) : Middleware Edge :=
  if c_eventLogger c then HTTPEventLogger_Wrap extractor else Identity.
Definition launcherServiceLogger : Middleware Edge := logger (newLauncherServiceLogger client).
Definition probeHTTPlogger : Middleware Edge := logger newProbeRequestLogger.
Definition uiHTTPlogger : Middleware Edge := logger (newUIRequestLogger userIDHeader).
Definition analyticsLogger : Middleware Edge := logger (newAnalyticsLogger userIDHeader).
Definition webhooksLogger : Middleware Edge := logger (newWebhooksLogger WebhooksIntegrationTypeHeader).

(** The middleware that authenticates. *)
Definition ec : UsersClient Edge := edge_client client.
Definition org_var (r : http.Request) : option string := http.Vars r !! "orgExternalID".
Definition authUserOrgDataAccessMiddleware : Middleware Edge :=
  AuthOrg_Wrap ec (mkAuthOrg org_var userIDHeader featureFlagsHeader [] INSTANCE_DATA_ACCESS).
Definition billingAuthMiddleware : Middleware Edge :=
  AuthOrg_Wrap ec (mkAuthOrg org_var userIDHeader featureFlagsHeader [featureflag.Billing] OTHER).
Definition authUserMiddleware : Middleware Edge := AuthUser_Wrap ec userIDHeader.
Definition webhooksMiddleware : Middleware Edge := Webhooks_Wrap ec ValidatePayload WebhooksIntegrationTypeHeader.
Definition fluxGHTokenMiddleware : Middleware Edge := GHIntegration_Wrap client_Do userIDHeader.
Definition gcpWebhookSecretMiddleware : Middleware Edge := AuthSecret_Wrap (c_gcpWebhookSecret c).
Definition scopeCensorMiddleware : Middleware Edge := ScopeCensor_Wrap ec userIDHeader.
Definition userPermissionsMiddleware : Middleware Edge := UserPermissions_Wrap ec userIDHeader.
Definition authProbe (action : AuthorizedAction) : Middleware Edge := AuthProbe_Wrap ec (mkAuthProbe featureFlagsHeader [] action).

(** * The routes *)

Definition dataUploadRoutes : Routable :=
  MiddlewarePrefix "/api"
    [ Prefix "/report" (host "collection");
      Prefix "/prom/push" (host "prom-distributor");
      Prefix "/net/peer" (host "peer-discovery");
      PrefixMethods "/flux" ["POST"; "PATCH"] (host "flux");
      PrefixMethods "/prom/alertmanager/alerts" ["POST"] (host "prom-alertmanager");
      PrefixMethods "/prom/alertmanager/v1/alerts" ["POST"] (host "prom-alertmanager");
      PrefixMethods "/notification/external/events" ["POST"] (host "notification-events") ]
    (Some (Merge [authProbe INSTANCE_DATA_UPLOAD; probeHTTPlogger])).

Definition dataAccessRoutes : Routable :=
  MiddlewarePrefix "/api"
    [ Prefix "/control" (host "control");
      Prefix "/pipe" (host "pipe");
      Prefix "/flux" (host "flux");
      Prefix "/prom/alertmanager" (host "prom-alertmanager");
      Prefix "/prom/configs" (host "prom-configs");
      Prefix "/prom" (host "prom-querier") ]
    (Some (Merge [authProbe INSTANCE_DATA_ACCESS; probeHTTPlogger])).

Definition appRoutes : Routable :=
  MiddlewarePrefix "/api/app/{orgExternalID}"
    [ Prefix "/api/report" (scopeCensorMiddleware (host "query"));
      Prefix "/api/topology" (scopeCensorMiddleware (host "query"));
      Prefix "/api/control" (host "control");
      Prefix "/api/pipe" (host "pipe");
      Prefix "/api/flux/{flux_vsn}/integrations/github" (fluxGHTokenMiddleware (host "flux"));
      Prefix "/api/flux" (host "flux");
      Prefix "/api/prom/alertmanager" (host "prom-alertmanager");
      Prefix "/api/prom/configs" (host "prom-configs");
      Prefix "/api/prom/notebooks" (host "notebooks");
      Prefix "/api/prom" (host "prom-querier");
      Prefix "/api/net/peer" (host "peer-discovery");
      Prefix "/api/notification/config" (host "notification-events");
      PrefixMethods "/api/notification/events" ["GET"] (host "notification-events");
      PrefixMethods "/api/notification/events" ["POST"] (host "notification-events");
      PrefixMethods "/api/notification/testevent" ["POST"] (host "notification-events");
      Prefix "/api/notification/sender" (host "notification-sender");
      Prefix "/api/gcp/users" (host "gcp-service");
      Prefix "/api/dashboard" (host "dashboard");
      Prefix "/api" (host "query");
      Prefix "/" (Merge [noCacheOnRoot; PathRewrite rewrite.under_ui] (host "query")) ]
    (Some (Merge [authUserOrgDataAccessMiddleware; userPermissionsMiddleware; PathRewrite rewrite.drop_org; uiHTTPlogger])).

Definition billingRoutes : Routable :=
  MiddlewarePrefix "/api/billing/{orgExternalID}" [ Prefix "/" (host "billing-api") ]
    (Some (Merge [billingAuthMiddleware; uiHTTPlogger])).

Definition gcpRoutes : list Routable :=
  [ MiddlewarePrefix "/api/users/gcp/sso/login" [ Prefix "/" (host "users") ] (Some uiHTTPlogger);
    MiddlewarePrefix "/api/gcp-launcher/webhook" [ Prefix "/" (host "gcp-launcher-webhook") ]
      (Some (Merge [gcpWebhookSecretMiddleware; PathRewrite rewrite.erase; uiHTTPlogger]));
    PathMethods "/{action:subscribe|login}-via/gcp" ["POST"] (uiHTTPlogger redirectWithQuery);
    Path "/api/ui/analytics" (Merge [authUserMiddleware; analyticsLogger] noopHandler) ].

Definition webhookRoutes : list Routable :=
  [ MiddlewarePrefix "/api/flux/{flux_vsn}/integrations"
      [ PrefixMethods "/dockerhub/image" ["POST"] (host "flux");
        PrefixMethods "/quay/image" ["POST"] (host "flux") ] None;
    Path "/webhooks/{secretID}/" (Merge [webhooksLogger; webhooksMiddleware] (host "flux")) ].

Definition atlantisRoutes : Routable :=
  MiddlewarePrefix "/" [ Prefix "/admin/corp-atlantis/events" (trimPrefix "/admin/corp-atlantis" (host "corp-atlantis")) ] (Some uiHTTPlogger).

Definition to_login : Handler Edge := fun r => ret (http.Redirect ("/login?" +:+ Encode [("next", http.RequestURI r)]) 302).
Definition adminMiddleware : Middleware Edge := Merge [ErrorHandler 401 to_login; AuthAdmin_Wrap ec].
Definition adminRoutes : Routable :=
  MiddlewarePrefix "/admin"
    [ Prefix "/grafana" (trimPrefix "/admin/grafana" (host "grafana"));
      Prefix "/dev-grafana" (trimPrefix "/admin/dev-grafana" (host "dev-grafana"));
      Prefix "/wkp-ui-grafana" (trimPrefix "/admin/wkp-ui-grafana" (host "wkp-ui-grafana"));
      Prefix "/prod-grafana" (trimPrefix "/admin/prod-grafana" (host "prod-grafana"));
      Prefix "/scope" (trimPrefix "/admin/scope" (host "scope"));
      Prefix "/users" (host "users");
      Prefix "/billing.csv" (host "billing-api");
      Prefix "/billing/organizations" (trimPrefix "/admin/billing/organizations" (host "billing-api"));
      Prefix "/billing/aggregator" (trimPrefix "/admin/billing/aggregator" (host "billing-aggregator"));
      Prefix "/billing/enforcer" (trimPrefix "/admin/billing/enforcer" (host "billing-enforcer"));
      Prefix "/billing/uploader" (trimPrefix "/admin/billing/uploader" (host "billing-uploader"));
      Prefix "/billing/invoice-verify" (host "billing-api");
      Prefix "/kubediff" (trimPrefix "/admin/kubediff" (host "kubediff"));
      Prefix "/terradiff" (trimPrefix "/admin/terradiff" (host "terradiff"));
      Prefix "/ansiblediff" (trimPrefix "/admin/ansiblediff" (host "ansiblediff"));
      Prefix "/alertmanager" (host "alertmanager");
      Prefix "/prometheus" (host "prometheus");
      Prefix "/kubedash" (trimPrefix "/admin/kubedash" (host "kubedash"));
      Prefix "/compare-images" (trimPrefix "/admin/compare-images" (host "compare-images"));
      Prefix "/compare-revisions" (trimPrefix "/admin/compare-revisions" (host "compare-revisions"));
      Prefix "/cortex/alertmanager/status" (trimPrefix "/admin/cortex/alertmanager" (host "prom-alertmanager"));
      Prefix "/cortex/ring" (trimPrefix "/admin/cortex" (host "prom-distributor"));
      Prefix "/cortex/ruler_ring" (trimPrefix "/admin/cortex" (host "prom-ruler"));
      Prefix "/cortex/all_user_stats" (trimPrefix "/admin/cortex" (host "prom-distributor"));
      Prefix "/loki" (trimPrefix "/admin/loki" (host "loki"));
      Prefix "/jaeger" (host "jaeger");
      Prefix "/conprof" (trimPrefix "/admin/conprof" (host "conprof"));
      Prefix "/kibana" (trimPrefix "/admin/kibana" (host "kibana"));
      Prefix "/elasticsearch" (trimPrefix "/admin/elasticsearch" (host "elasticsearch"));
      Prefix "/esh" (trimPrefix "/admin/esh" (host "esh"));
      Prefix "/corp-atlantis" (trimPrefix "/admin/corp-atlantis" (host "corp-atlantis"));
      Prefix "/corp-terradiff" (trimPrefix "/admin/corp-terradiff" (host "corp-terradiff"));
      Prefix "/corpdiff" (trimPrefix "/admin/corpdiff" (host "corpdiff"));
      Prefix "/" adminRoot ]
    (Some adminMiddleware).

Definition uiServerHandler : Handler Edge :=
  if c_externalUI c then host "ui-server" else addPrefix "/internal" (host "ui-server").
Definition openRoutes : Routable :=
  MiddlewarePrefix "/"
    [ Prefix "/api/users" (host "users");
      Prefix "/launch/k8s" (host "launch-generator");
      Prefix "/k8s" (host "launch-generator");
      Prefix "/demo" (PathRewrite rewrite.drop_demo (host "demo"));
      Prefix "/api/ui/metrics" (host "ui-metrics");
      Prefix "/service-ui-kicker" (host "service-ui-kicker");
      Prefix "/" (noCacheOnRoot uiServerHandler) ]
    (Some uiHTTPlogger).

Definition launcherRoutes : Routable :=
  HostnameSpecific (c_launcherServiceExternalHost c) [ Prefix "/" (host "launcher-service") ] (Some launcherServiceLogger).

Definition all_routes : list Routable :=
  [ launcherRoutes; Path "/demo" (redirect "/demo/"); Path "/api" apiInfo; appRoutes; billingRoutes ]
  ++ gcpRoutes ++ webhookRoutes ++ [ dataUploadRoutes; dataAccessRoutes; atlantisRoutes; adminRoutes; openRoutes ].
Definition router : Handler Edge := serve_routes (all_routes ≫= RegisterRoutes) false.

(** * Around the router *)

Definition csrfExemptPrefixes : list Exempt :=
  (ExemptText <$> AbsolutePrefixes dataUploadRoutes) ++ (ExemptText <$> AbsolutePrefixes dataAccessRoutes) ++
  (ExemptText <$> ["/admin/alertmanager"; "/service-ui-kicker"; "/api/ui/metrics"; "/api/gcp-launcher/webhook"]) ++
  [ExemptLogin; ExemptOrg] ++
  (ExemptText <$> ["/api/users/signup_webhook"; "/api/users/org/platform_version"; "/webhooks";
     "/admin/corp-atlantis"; "/admin/grafana"; "/admin/dev-grafana"; "/admin/prod-grafana"; "/admin/kibana"]).
Definition stripSetCookieHeaderPrefixes : list string := ["/admin/grafana"; "/admin/dev-grafana"; "/admin/prod-grafana"; "/admin/kibana"].

Definition extraHeaders : list (string * string) :=
  [ ("X-Frame-Options", "SAMEORIGIN"); ("X-Xss-Protection", "1; mode=block"); ("X-Content-Type-Options", "nosniff");
    ("Referrer-Policy", "origin-when-cross-origin") ]
  ++ (if c_sendCSPHeader c then [("Content-Security-Policy", "default-src https: 'unsafe-inline'")] else [])
  ++ (if c_redirectHTTPS c && (0 <? c_hstsMaxAge c)
      then [("Strict-Transport-Security", "max-age=" +:+ pretty (c_hstsMaxAge c) +:+ "; includeSubDomains")] else []).
Definition commonMiddleWare : Middleware Edge := HeaderAdder extraHeaders.

(** [routes], without the tracing of requests and the rewriting of HTML responses. *)
Definition routes : Handler Edge :=
  Merge [ AuthHeaderStripping;
          originChecker url_Host (c_targetOrigin c) (c_allowedOriginSuffixes c);
          stripSetCookieHeader stripSetCookieHeaderPrefixes;
          csrfTokenVerifier nosurf_Reason csrfExemptPrefixes;
          commonMiddleWare ] router.

End table.
