(* ===== verification/AuthfeSpec.v ===== *)
(** Who the edge proxy speaks for: a request it forwards carries the organization that the
    users service gave for the credentials of the client's request, or none, and then it goes to a service that
    authenticates requests itself. *)
From Stdlib Require Import ZArith Lia Ascii String.
From stdpp Require Import base tactics option gmap strings list pretty.
From S2P Require Import Prelude GoStd Users Sessions UsersServer UsersClient Http Api Balance Middleware Authfe.

(** * Computations that forward requests *)

Section sends.
Context {W : Type}.
Implicit Types (Q : Forwarded -> Prop) (s : Edge W).

(** At most [n] requests are forwarded, all of them in [Q]. *)
Definition sends Q (n : nat) {A} (m : M (Edge W) error A) : Prop :=
  forall s, exists l, ed_forwarded (m s).2 = ed_forwarded s ++ l /\ (length l <= n)%nat /\ Forall Q l.
Definition quiet {A} (m : M (Edge W) error A) : Prop := forall s, ed_forwarded (m s).2 = ed_forwarded s.

Lemma quiet_sends Q n {A} (m : M (Edge W) error A) : quiet m -> sends Q n m.
Proof. intros Hm s. exists []. rewrite Hm, app_nil_r. split; [done|]. split; [simpl; lia|constructor]. Qed.

Lemma edge_quiet_ret {A} (a : A) : quiet (ret a).
Proof. done. Qed.
Lemma edge_quiet_gets {A} (f : Edge W -> A) : quiet (gets f).
Proof. done. Qed.
Lemma quiet_panic {A} : quiet (panic : M (Edge W) error A).
Proof. done. Qed.
Lemma quiet_deref {A} (p : option A) : quiet (deref p).
Proof. by destruct p. Qed.
Lemma edge_quiet_or_else {A} (p : option A) e : quiet (or_else p e).
Proof. by destruct p. Qed.
Lemma edge_quiet_bind {A B} (m : M (Edge W) error A) (k : A -> M (Edge W) error B) : quiet m -> (forall a, quiet (k a)) -> quiet (bind m k).
Proof. intros Hm Hk s. unfold bind. specialize (Hm s). destruct (m s) as [[] s']; simpl in *; try done. by rewrite Hk. Qed.
Lemma quiet_try {A} (m : M (Edge W) error A) : quiet m -> quiet (try m).
Proof. intros Hm s. unfold try. specialize (Hm s). by destruct (m s) as [[] s']. Qed.
Lemma quiet_zoom {S A} (get : Edge W -> S) put (m : M S error A) : (forall x s, ed_forwarded (put x s) = ed_forwarded s) -> quiet (zoom get put m).
Proof. intros Hp s. unfold zoom. destruct (m (get s)). apply Hp. Qed.

(** What comes after a quiet step may use what the step returned. *)
Lemma sends_after Q n {A B} (m : M (Edge W) error A) (k : A -> M (Edge W) error B) :
  quiet m -> (forall a s, (m s).1 = Ret a -> sends Q n (k a)) -> sends Q n (bind m k).
Proof.
  intros Hm Hk s. unfold bind. specialize (Hm s). pose proof (fun a => Hk a s) as Hk'.
  destruct (m s) as [[a|e| | |] s']; simpl in *;
    try (exists []; rewrite app_nil_r; split; [done|]; split; [simpl; lia|constructor]).
  destruct (Hk' a eq_refl s') as (l & Hl & Hn & HQ). exists l. by rewrite Hl, Hm.
Qed.

Lemma sends_before Q n {A B} (m : M (Edge W) error A) (k : A -> M (Edge W) error B) :
  sends Q n m -> (forall a, quiet (k a)) -> sends Q n (bind m k).
Proof.
  intros Hm Hk s. unfold bind. destruct (Hm s) as (l & Hl & Hn & HQ). exists l. destruct (m s) as [[a|e| | |] s']; simpl in *; try done.
  by rewrite Hk.
Qed.
End sends.

(** * Credentials *)

Section spec.
Context {W : Type}.
Variable client : UsersClient W.
Variable backend : string -> http.Request -> http.Response.
Variable next_endpoint : string -> nat -> option string.
Variable ValidatePayload : http.Request -> string -> bool.
Variable client_Do : string -> TokenReply.
Variable url_Host : string -> option string.
Variable nosurf_Reason : http.Request -> option string.
Variable adminRoot_page : string.
Variable Marshal_apiInfo : string -> string -> string.
Variable c : Config.

(** The request as the client sent it. *)
Variable r0 : http.Request.
Abbreviation Host := (@host W backend next_endpoint c).
Implicit Types (r : http.Request) (h next : Handler (Edge W)) (phi : string -> Prop).

(** The external id that follows a prefix of the path. *)
Definition org_in_path (prefix e : string) : Prop :=
  strings.HasPrefix (http.Path r0) prefix = true /\ e = (mux.segment (strings.drop (String.length prefix) (http.Path r0))).1.

(** The organizations the users service answers for the session, the token or the secret of the
    request; an administrator's requests carry her own identifier. *)
Inductive vouched : string -> Prop :=
  | vouched_session prefix action e cookie w resp :
      (prefix, action) ∈ [("/api/app/", INSTANCE_DATA_ACCESS); ("/api/billing/", OTHER)] -> org_in_path prefix e ->
      http.Cookie sessions.AuthCookieName r0 = Some cookie ->
      (client _ (LookupOrgRequest cookie e action) w).1 = Ret resp -> vouched (lo_OrganizationID resp)
  | vouched_token action token w resp :
      action ∈ [INSTANCE_DATA_UPLOAD; INSTANCE_DATA_ACCESS] ->
      tokens.ExtractToken (http.header_of "Authorization" r0) (http.BasicAuth r0) = Some token ->
      (client _ (LookupUsingTokenRequest token action) w).1 = Ret resp -> vouched (lt_OrganizationID resp)
  | vouched_admin cookie w id :
      http.Cookie sessions.AuthCookieName r0 = Some cookie ->
      (client _ (LookupAdminRequest cookie) w).1 = Ret id -> vouched id
  | vouched_webhook secretID w webhook :
      mux.Match false "/webhooks/{secretID}/" (http.Path r0) = Some {["secretID" := secretID]} ->
      (client _ (LookupOrganizationWebhookUsingSecretIDRequest secretID) w).1 = Ret webhook -> vouched (w_OrganizationID webhook).

(** The services that are reached without an organization. *)
Definition public_services : list string :=
  [ "launcher-service"; "users"; "gcp-launcher-webhook"; "flux"; "corp-atlantis"; "launch-generator"; "demo"; "ui-metrics";
    "service-ui-kicker"; "ui-server" ].

Definition org_of r : string := http.header_of OrgIDHeaderName r.
(** The Connection header of the client's request names a header, and the request does not open a websocket. *)
Definition names_in_Connection (name : string) : Prop := IsWSHandshakeRequest r0 = false /\
  exists t, t ∈ tokens_of (default [] (http.header r0 !! "Connection")) /\ strings.ToLower t = strings.ToLower name.
Definition good (f : Forwarded) : Prop :=
  vouched (org_of (fw_request f)) \/
  (org_of (fw_request f) = EmptyString /\ (fw_proxy f ∈ public_services \/ names_in_Connection OrgIDHeaderName)).

(** What the middleware keeps of the request. *)
Definition kept_names : list string := ["Authorization"; "Connection"; "Upgrade"].
Record kept r : Prop := {
  kept_header : forall name, name ∈ kept_names -> http.header r !! name = http.header r0 !! name;
  kept_cookies : http.cookies r = http.cookies r0;
  kept_basic : http.BasicAuth r = http.BasicAuth r0;
}.

Definition safe phi h : Prop := forall r, kept r -> phi (org_of r) -> sends good 1 (h r).
Definition anonymous (org : string) : Prop := org = EmptyString.

(** ** Headers *)

Lemma kept_header_of name r : name ∈ kept_names -> kept r -> http.header_of name r = http.header_of name r0.
Proof. intros Hn Hk. unfold http.header_of, http.Get. by rewrite (kept_header r Hk). Qed.
Lemma kept_insert name v r r' : bool_decide (name ∈ kept_names) = false -> http.header r' = <[name := v]> (http.header r) ->
  http.cookies r' = http.cookies r -> http.BasicAuth r' = http.BasicAuth r -> kept r -> kept r'.
Proof.
  intros Hname%bool_decide_eq_false Hh Hc Hb Hk. constructor; [|by rewrite Hc, kept_cookies|by rewrite Hb, kept_basic].
  intros n Hn. rewrite Hh, lookup_insert_ne; [by apply kept_header|]. intros ->. done.
Qed.
Lemma kept_add name v r : bool_decide (name ∈ kept_names) = false -> kept r -> kept (http.add_header name v r).
Proof. intros Hn. by eapply kept_insert. Qed.
Lemma org_add name v r : name <> OrgIDHeaderName -> org_of (http.add_header name v r) = org_of r.
Proof. intros Hne. by apply http.Get_Add_ne. Qed.

(** * The proxies *)

Lemma balancer_Get_quiet name key : quiet (@balancer_Get W name key).
Proof.
  unfold balancer_Get. apply edge_quiet_bind; [apply edge_quiet_gets|]. intros b. apply edge_quiet_bind; [apply quiet_deref|]. intros cw.
  apply edge_quiet_bind; [|intros; apply edge_quiet_ret]. by apply quiet_zoom.
Qed.
Lemma balancer_Put_quiet name a : quiet (@balancer_Put W name a).
Proof. intros s. unfold balancer_Put, modify. simpl. by destruct (ed_balancers s !! name). Qed.

(** The reverse proxy takes away only what the Connection header names and the headers of the connection. *)
Lemma delete_names_lookup l : forall (h : http.Header) name, foldl delete_name h l !! name =
  (if bool_decide (strings.ToLower name ∈ strings.ToLower <$> l) then None else h !! name).
Proof.
  induction l as [|x l IH]; intros h name; [done|]. cbn [foldl fmap list_fmap]. rewrite IH. unfold delete_name.
  destruct (decide (strings.ToLower name = strings.ToLower x)) as [E|E].
  - rewrite (bool_decide_true (_ ∈ _ :: _)) by (rewrite E; apply list_elem_of_here). case_bool_decide; [done|]. by apply map_lookup_filter_None_2; right; intros v _ Hv.
  - destruct (decide (strings.ToLower name ∈ strings.ToLower <$> l)) as [Hin|Hin].
    + rewrite !bool_decide_true; [done|by apply list_elem_of_further|done].
    + rewrite !bool_decide_false; [|by intros [?|?]%elem_of_cons|done]. destruct (h !! name) as [v|] eqn:Hv.
      * by apply map_lookup_filter_Some_2.
      * apply map_lookup_filter_None_2. by left.
Qed.
Lemma removeConnectionHeaders_lookup (h : http.Header) name : name <> EmptyString -> removeConnectionHeaders h !! name =
  (if bool_decide (strings.ToLower name ∈ strings.ToLower <$> tokens_of (default [] (h !! "Connection"))) then None else h !! name).
Proof.
  intros Hne. unfold removeConnectionHeaders. set (l := tokens_of _). clearbody l. revert h. induction l as [|x l IH]; intros h; [done|]. cbn [foldl fmap list_fmap].
  rewrite IH. destruct (decide (x = EmptyString)) as [Hx|Hx].
  - subst x. destruct (decide (strings.ToLower name ∈ strings.ToLower <$> l)) as [Hin|Hin]; [by rewrite !bool_decide_true by (done || by apply list_elem_of_further)|].
    rewrite !bool_decide_false; [done| |done]. intros [E|?]%elem_of_cons; [|done]. by destruct name.
  - pose proof (delete_names_lookup (x :: l) h name) as Hd. cbn [foldl fmap list_fmap] in Hd. rewrite delete_names_lookup in Hd. exact Hd.
Qed.
Lemma outgoing_org ip (h : http.Header) : http.Get (outgoing_header ip h) OrgIDHeaderName = http.Get h OrgIDHeaderName \/
  (http.Get (outgoing_header ip h) OrgIDHeaderName = EmptyString /\
   exists t, t ∈ tokens_of (default [] (h !! "Connection")) /\ strings.ToLower t = strings.ToLower OrgIDHeaderName).
Proof.
  unfold outgoing_header. set (out := foldl delete_name _ _). rewrite http.Get_Set_ne by done. set (out2 := if contains_token _ "trailers" then _ else _).
  assert (H1 : http.Get out2 OrgIDHeaderName = http.Get out OrgIDHeaderName) by (unfold out2; case_match; [by apply http.Get_Set_ne|done]).
  assert (H2 : forall P (H : Decision P) u, http.Get (if decide P then out2 else http.Set_ "Upgrade" u (http.Set_ "Connection" "Upgrade" out2)) OrgIDHeaderName = http.Get out2 OrgIDHeaderName)
    by (intros P H u; case_decide; [done|by rewrite !http.Get_Set_ne]).
  rewrite H2, H1. unfold http.Get, out. rewrite delete_names_lookup, bool_decide_false by (by apply (bool_decide_unpack _)). rewrite removeConnectionHeaders_lookup by done.
  case_bool_decide as Hin; [right|by left]. split; [done|]. apply list_elem_of_fmap in Hin as (t & Ht & Hin). by exists t.
Qed.

Lemma forward_sends name a r : kept r -> vouched (org_of r) \/ (org_of r = EmptyString /\ name ∈ public_services) ->
  sends good 1 (@forward W backend name a r).
Proof.
  intros Hk Hg s. exists [mkForwarded name a (sent_request a r)]. split; [done|]. split; [done|]. constructor; [|constructor].
  set (r1 := set_Host a (http.add_header "X-Forwarded-Host" (http.Host r) r)).
  assert (Hk1 : kept r1) by (by eapply (kept_insert "X-Forwarded-Host")). assert (Ho1 : org_of r1 = org_of r) by (unfold org_of, r1; by apply http.Get_Add_ne).
  unfold good. cbn [fw_request fw_proxy]. unfold sent_request. fold r1. destruct (IsWSHandshakeRequest r1) eqn:Hws; [rewrite Ho1; naive_solver|].
  change (org_of (http.set_header ?h r1)) with (http.Get h OrgIDHeaderName). destruct (outgoing_org (http.RemoteHost r1) (http.header r1)) as [E|[E (t & Ht & Hlow)]]; rewrite E.
  - change (http.Get (http.header r1) OrgIDHeaderName) with (org_of r1). rewrite Ho1. naive_solver.
  - right. split; [done|]. right. rewrite (kept_header r1 Hk1) in Ht by (right; by left). split; [|by exists t].
    rewrite <- Hws. unfold IsWSHandshakeRequest. by rewrite !(kept_header_of _ r1) by (done || by apply (bool_decide_unpack _)).
Qed.

Lemma host_sends name r : kept r -> vouched (org_of r) \/ (org_of r = EmptyString /\ name ∈ public_services) ->
  sends good 1 (Host name r).
Proof.
  intros Hk Hg. assert (Hf : forall a, sends good 1 (@forward W backend name a r)) by (intros a; by apply forward_sends).
  unfold host, proxy. case_decide; [by apply quiet_sends|]. case_decide; [by apply quiet_sends|]. case_match; [by apply quiet_sends|].
  destruct (pc_balancer _).
  - apply Hf.
  - apply sends_after; [apply quiet_try, balancer_Get_quiet|]. intros [e|a] s _; [by apply quiet_sends|].
    apply sends_before; [apply Hf|]. intros resp. apply edge_quiet_bind; [apply balancer_Put_quiet|done].
  - apply sends_after; [done|]. intros n s _. destruct (next_endpoint _ n); [apply Hf|by apply quiet_sends].
Qed.

Lemma host_vouched name : safe vouched (Host name).
Proof. intros r Hk Hv. apply host_sends; [done|by left]. Qed.
Lemma host_public name : name ∈ public_services -> safe anonymous (Host name).
Proof. intros Hn r Hk Ha. apply host_sends; [done|by right]. Qed.

(** * Middleware that keeps the organization *)

Lemma ec_quiet {A} (call : ClientCall A) : quiet (ec client A call).
Proof. by apply quiet_zoom. Qed.

Lemma asking_sends {A} (call : ClientCall A) k :
  (forall a w, (client A call w).1 = Ret a -> sends good 1 (k a)) -> sends good 1 (asking (ec client) call k).
Proof.
  intros Hk. unfold asking. apply sends_after; [apply quiet_try, ec_quiet|]. intros [err|a] s Hs; [by apply quiet_sends|].
  apply (Hk a (ed_users s)). unfold try, ec, edge_client, zoom in Hs. destruct (client A call (ed_users s)) as [[] w]; simpl in Hs; by simplify_eq.
Qed.

Lemma PathRewrite_safe phi f next : safe phi next -> safe phi (PathRewrite f next).
Proof. intros Hn r [Hh Hc Hb] Hp. unfold PathRewrite. destruct (urlpath.PathUnescape _); [by apply Hn|by apply quiet_sends]. Qed.

Lemma LogEvent_quiet ev : quiet (@LogEvent W ev).
Proof. unfold LogEvent. repeat (apply edge_quiet_bind; [apply edge_quiet_gets|intros ?]). by repeat case_match. Qed.

Lemma logger_quiet_safe phi ex next : (forall r, quiet (ex r)) -> safe phi next -> safe phi (@logger W c ex next).
Proof.
  intros Hex Hn r Hk Hp. unfold logger. destruct (c_eventLogger c); [|by apply Hn]. unfold HTTPEventLogger_Wrap.
  apply sends_after; [apply Hex|]. intros ev s _. apply sends_after; [|intros; by apply Hn].
  by destruct ev as [ev|]; [apply LogEvent_quiet|].
Qed.

Lemma launcher_quiet r : quiet (newLauncherServiceLogger client r).
Proof.
  unfold newLauncherServiceLogger. apply edge_quiet_bind; [|done]. case_decide; [done|]. apply edge_quiet_bind; [apply quiet_try, ec_quiet|done].
Qed.
Lemma webhooks_quiet name r : quiet (@newWebhooksLogger W name r).
Proof. unfold newWebhooksLogger. by repeat case_match. Qed.

Lemma check_paths_safe phi l next r : safe phi next -> kept r -> phi (org_of r) -> sends good 1 (check_paths (ec client) userIDHeader next r l).
Proof.
  intros Hn Hk Hp. induction l as [|p l IH]; [by apply Hn|]. cbn [check_paths]. destruct (needs r p); [|done].
  by apply asking_sends.
Qed.
Lemma UserPermissions_safe phi next : safe phi next -> safe phi (UserPermissions_Wrap (ec client) userIDHeader next).
Proof. intros Hn r Hk Hp. by eapply check_paths_safe. Qed.

Lemma ScopeCensor_safe phi next : safe phi next -> safe phi (ScopeCensor_Wrap (ec client) userIDHeader next).
Proof.
  intros Hn r Hk Hp. unfold ScopeCensor_Wrap. apply sends_after; [apply quiet_try, ec_quiet|]. intros [e|u] s _; [|by apply Hn].
  apply Hn; [|done]. by destruct Hk.
Qed.

Lemma GHIntegration_safe phi next : safe phi next -> safe phi (GHIntegration_Wrap client_Do userIDHeader next).
Proof.
  intros Hn r Hk Hp. unfold GHIntegration_Wrap. destruct (TokenForUser _ _ _ _); [by apply quiet_sends|]. apply Hn.
  - by eapply (kept_insert "Githubtoken").
  - unfold org_of, http.header_of, http.set_header. simpl. by rewrite http.Get_Set_ne.
Qed.

Lemma noCacheOnRoot_safe phi next : safe phi next -> safe phi (noCacheOnRoot next).
Proof. intros Hn r Hk Hp. unfold noCacheOnRoot. apply sends_before; [by apply Hn|]. intros a. by case_decide. Qed.

Lemma ErrorHandler_safe phi code hd next : (forall r, quiet (hd r)) -> safe phi next -> safe phi (ErrorHandler code hd next).
Proof. intros Hh Hn r Hk Hp. unfold ErrorHandler. apply sends_before; [by apply Hn|]. intros a. case_match; [apply Hh|done]. Qed.

Lemma AuthSecret_safe phi secret next : safe phi next -> safe phi (AuthSecret_Wrap secret next).
Proof. intros Hn r Hk Hp. unfold AuthSecret_Wrap. case_decide; [by apply quiet_sends|by apply Hn]. Qed.

Lemma AuthUser_safe phi next : safe phi next -> safe phi (AuthUser_Wrap (ec client) userIDHeader next).
Proof.
  intros Hn r Hk Hp. unfold AuthUser_Wrap. destruct (http.Cookie _ r); [|by apply quiet_sends]. apply asking_sends. intros id w _.
  apply Hn; [by apply kept_add|by rewrite org_add].
Qed.

Lemma quiet_safe phi h : (forall r, quiet (h r)) -> safe phi h.
Proof. intros Hh r _ _. apply quiet_sends, Hh. Qed.

(** * Middleware that authenticates *)

Lemma finishRequest_sends next r id : safe vouched next -> kept r -> org_of r = EmptyString -> vouched id -> sends good 1 (finishRequest next r id).
Proof.
  intros Hn Hk Ho Hv. unfold finishRequest. case_decide; [by apply quiet_sends|]. apply Hn.
  - by eapply (kept_insert OrgIDHeaderName).
  - unfold org_of, http.header_of, http.set_header, http.set_OrgID. simpl. by rewrite http.Get_Set.
Qed.

Lemma Cookie_kept name r : kept r -> http.Cookie name r = http.Cookie name r0.
Proof. intros [_ Hc _]. unfold http.Cookie. by rewrite Hc. Qed.

Lemma AuthOrg_sends a prefix next r : safe vouched next -> (prefix, ao_AuthorizeFor a) ∈ [("/api/app/", INSTANCE_DATA_ACCESS); ("/api/billing/", OTHER)] ->
  ao_UserIDHeader a = userIDHeader -> ao_FeatureFlagsHeader a = featureFlagsHeader -> ao_OrgExternalID a = org_var ->
  kept r -> org_of r = EmptyString -> (forall e, org_var r = Some e -> org_in_path prefix e) -> sends good 1 (AuthOrg_Wrap (ec client) a next r).
Proof.
  intros Hn Hin Hu Hff Ho Hk Hempty Hpath. unfold AuthOrg_Wrap. rewrite Ho. destruct (org_var r) as [e|] eqn:He; [|by apply quiet_sends].
  rewrite (Cookie_kept _ r Hk). destruct (http.Cookie _ r0) as [cookie|] eqn:Hcookie; [|by apply quiet_sends]. apply asking_sends.
  intros resp w Hresp. case_match; [by apply quiet_sends|]. rewrite Hu, Hff. apply finishRequest_sends; [done| | |].
  - by apply kept_add, kept_add.
  - by rewrite !org_add.
  - eapply vouched_session; eauto.
Qed.

Lemma AuthProbe_safe action next : action ∈ [INSTANCE_DATA_UPLOAD; INSTANCE_DATA_ACCESS] -> safe vouched next -> safe anonymous (authProbe client action next).
Proof.
  intros Hin Hn r Hk Hempty. unfold authProbe, AuthProbe_Wrap. rewrite (kept_header_of "Authorization" r) by (done || by left). rewrite (kept_basic r Hk).
  destruct (tokens.ExtractToken _ _) as [token|] eqn:Ht; [|by apply quiet_sends]. case_match; [by apply quiet_sends|]. apply asking_sends.
  intros resp w Hresp. case_match; [by apply quiet_sends|]. apply finishRequest_sends; [done|by apply kept_add|by rewrite org_add|].
  eapply vouched_token; eauto.
Qed.

Lemma AuthAdmin_safe next : safe vouched next -> safe anonymous (AuthAdmin_Wrap (ec client) next).
Proof.
  intros Hn r Hk Hempty. unfold AuthAdmin_Wrap. rewrite (Cookie_kept _ r Hk). destruct (http.Cookie _ r0) as [cookie|] eqn:Hc; [|by apply quiet_sends].
  apply asking_sends. intros id w Hid. apply finishRequest_sends; try done. by eapply vouched_admin.
Qed.

Lemma Webhooks_sends next r secretID : safe vouched next -> kept r -> org_of r = EmptyString ->
  http.Vars r = {["secretID" := secretID]} -> mux.Match false "/webhooks/{secretID}/" (http.Path r0) = Some {["secretID" := secretID]} ->
  sends good 1 (webhooksMiddleware client ValidatePayload next r).
Proof.
  intros Hn Hk Hempty Hv Hm. unfold webhooksMiddleware, Webhooks_Wrap. rewrite Hv, lookup_singleton_eq. simpl. apply asking_sends.
  intros webhook w Hw. destruct (signature _ r webhook); [by apply quiet_sends|].
  assert (Hfin : sends good 1 (finishRequest next (http.add_header WebhooksIntegrationTypeHeader (w_IntegrationType webhook) r) (w_OrganizationID webhook))).
  { apply finishRequest_sends; [done|by apply kept_add|by rewrite org_add|]. by eapply vouched_webhook. }
  destruct (w_FirstSeenAt webhook); [done|]. by apply asking_sends.
Qed.

(** * The routes *)

Definition item_names (items : list mux.Item) : list string :=
  items ≫= fun i => match i with mux.TLit _ => [] | mux.TVar n => [n] | mux.TAlt n _ => [n] end.

Lemma match_items_keeps b items name : name ∉ item_names items ->
  forall vars path vars', mux.match_items b items vars path = Some vars' -> vars' !! name = vars !! name.
Proof.
  induction items as [|i items IH]; intros Hn vars path vars' Hm; cbn [mux.match_items] in Hm.
  { case_match; simplify_eq. done. }
  unfold item_names in Hn. simpl in Hn. rewrite not_elem_of_app in Hn. destruct Hn as [Hi Hn]. destruct i as [l|n|n alts].
  - case_match; [|done]. by eapply IH.
  - destruct (mux.segment path) as [v path']. case_decide; [done|]. rewrite (IH Hn _ _ _ Hm), lookup_insert_ne; [done|]. set_solver.
  - induction alts as [|v alts IHa]; [done|]. destruct (if strings.HasPrefix path v then _ else _) as [vs|] eqn:Hv; [|by apply IHa].
    simplify_eq. case_match; [|done]. rewrite (IH Hn _ _ _ Hv), lookup_insert_ne; [done|]. set_solver.
Qed.

(** The organization of a template is the segment of the path after its text. *)
Lemma Match_org b tpl prefix rest vars e :
  mux.parse tpl = mux.TLit prefix :: mux.TVar "orgExternalID" :: rest -> "orgExternalID" ∉ item_names rest ->
  mux.Match b tpl (http.Path r0) = Some vars -> vars !! "orgExternalID" = Some e -> org_in_path prefix e.
Proof.
  intros Hp Hn Hm He. unfold mux.Match in Hm. rewrite Hp in Hm. cbn [mux.match_items] in Hm.
  destruct (strings.HasPrefix (http.Path r0) prefix) eqn:Hpre; [|done].
  destruct (mux.segment (strings.drop (String.length prefix) (http.Path r0))) as [v path'] eqn:Hseg. case_decide; [done|].
  rewrite (match_items_keeps _ _ _ Hn _ _ _ Hm), lookup_insert_eq in He. injection He as <-. split; [done|]. by rewrite Hseg.
Qed.

(** A route that the router may give the client's request to. *)
Definition route_safe (rt : @Route W) : Prop := forall r vars, kept r -> http.Path r = http.Path r0 -> org_of r = EmptyString ->
  route_Match rt r = MatchedVars vars -> sends good 1 (rt_handler rt (http.set_vars vars r)).

Lemma kept_vars vars r : kept r -> kept (http.set_vars vars r).
Proof. by intros [Hc Ha Hb]. Qed.

Lemma plain_safe hst path methods h : safe anonymous h -> route_safe (mkRoute hst path methods h).
Proof. intros Hh r vars Hk _ Ho _. apply Hh; [by apply kept_vars|done]. Qed.

Lemma prefix_safe prefix l mid : Forall (fun p => safe anonymous (default Identity mid (route_Handler p))) l ->
  Forall route_safe (RegisterRoutes (MiddlewarePrefix prefix l mid)).
Proof. intros Hl. simpl. apply Forall_fmap. eapply Forall_impl; [exact Hl|]. intros p Hp. by apply plain_safe. Qed.

(** Routes under an organization: every template starts with the same text and the organization. *)
Definition org_template (text : string) (tpl : string) : bool :=
  match mux.parse tpl with
  | mux.TLit l :: mux.TVar n :: rest => bool_decide (l = text) && bool_decide (n = "orgExternalID") && bool_decide ("orgExternalID" ∉ item_names rest)
  | _ => false
  end.

Lemma org_routes_safe prefix text a rest l :
  (text, ao_AuthorizeFor a) ∈ [("/api/app/", INSTANCE_DATA_ACCESS); ("/api/billing/", OTHER)] ->
  ao_UserIDHeader a = userIDHeader -> ao_FeatureFlagsHeader a = featureFlagsHeader -> ao_OrgExternalID a = org_var ->
  forallb (fun p => org_template text (AbsolutePrefix prefix p)) l = true ->
  Forall (fun p => safe vouched (rest (route_Handler p))) l ->
  Forall route_safe (RegisterRoutes (MiddlewarePrefix prefix l (Some (fun h => AuthOrg_Wrap (ec client) a (rest h))))).
Proof.
  intros Hin Hu Hf Ho Htpl Hl. simpl. apply Forall_fmap, Forall_forall. intros p Hp. rewrite Forall_forall in Hl.
  rewrite forallb_forall in Htpl. specialize (Htpl p (proj1 (list_elem_of_In _ _) Hp)). intros r vars Hk Hpath Hempty Hm. simpl.
  apply (AuthOrg_sends a text); try done; [by apply Hl|by apply kept_vars|]. intros e He. unfold org_template in Htpl.
  destruct (mux.parse (AbsolutePrefix prefix p)) as [|[tx| |] [|[|n|] items]] eqn:Hparse; try done.
  apply andb_true_iff in Htpl as [[->%bool_decide_eq_true ->%bool_decide_eq_true]%andb_true_iff Hn%bool_decide_eq_true].
  eapply (Match_org true (AbsolutePrefix prefix p)); [exact Hparse|exact Hn| |exact He].
  unfold route_Match in Hm. simpl in Hm. rewrite Hpath in Hm. destruct (mux.Match _ _ _) as [vs|]; [|done].
  repeat case_match; by simplify_eq.
Qed.

Lemma logger_safe phi ex next : (forall r, quiet (ex r)) -> safe phi next -> safe phi (@logger W c ex next).
Proof. apply logger_quiet_safe. Qed.
Lemma ui_safe phi next : safe phi next -> safe phi (@uiHTTPlogger W c next).
Proof. by apply logger_quiet_safe. Qed.
Lemma probe_safe phi next : safe phi next -> safe phi (@probeHTTPlogger W c next).
Proof. apply logger_quiet_safe. intros r. apply edge_quiet_ret. Qed.
Lemma trimPrefix_safe phi p h : safe phi h -> safe phi (trimPrefix p h).
Proof. apply PathRewrite_safe. Qed.

Create HintDb safe.
Hint Resolve host_vouched host_public ui_safe probe_safe trimPrefix_safe PathRewrite_safe noCacheOnRoot_safe
  ScopeCensor_safe GHIntegration_safe UserPermissions_safe : safe.
Ltac each_route := repeat (apply Forall_cons; split); try (apply Forall_nil; exact I); simpl.

Lemma app_safe : Forall route_safe (RegisterRoutes (appRoutes client backend next_endpoint client_Do c)).
Proof.
  apply (org_routes_safe _ "/api/app/" _ (fun h => userPermissionsMiddleware client (PathRewrite rewrite.drop_org (uiHTTPlogger c h)))); try done.
  - by left.
  - each_route; apply UserPermissions_safe, PathRewrite_safe, ui_safe; unfold scopeCensorMiddleware, fluxGHTokenMiddleware; simpl; eauto with safe.
Qed.

Lemma billing_safe : Forall route_safe (RegisterRoutes (billingRoutes client backend next_endpoint c)).
Proof.
  apply (org_routes_safe _ "/api/billing/" _ (uiHTTPlogger c)); try done.
  - right. by left.
  - each_route. auto with safe.
Qed.

Lemma upload_safe : Forall route_safe (RegisterRoutes (dataUploadRoutes client backend next_endpoint c)).
Proof. apply prefix_safe. each_route; apply AuthProbe_safe; auto with safe; by left. Qed.
Lemma access_safe : Forall route_safe (RegisterRoutes (dataAccessRoutes client backend next_endpoint c)).
Proof. apply prefix_safe. each_route; apply AuthProbe_safe; auto with safe; right; by left. Qed.

Ltac public := apply host_public; apply (bool_decide_unpack _); exact I.

Lemma atlantis_safe : Forall route_safe (RegisterRoutes (@atlantisRoutes W backend next_endpoint c)).
Proof. apply prefix_safe. each_route. apply ui_safe, trimPrefix_safe. public. Qed.

Lemma admin_safe : Forall route_safe (RegisterRoutes (adminRoutes client backend next_endpoint adminRoot_page c)).
Proof.
  apply prefix_safe. each_route; (apply ErrorHandler_safe; [intros r; apply edge_quiet_ret|]); apply AuthAdmin_safe; auto with safe.
  apply quiet_safe. intros r. apply edge_quiet_ret.
Qed.

Lemma open_safe : Forall route_safe (RegisterRoutes (@openRoutes W backend next_endpoint c)).
Proof.
  apply prefix_safe. each_route; apply ui_safe; try public.
  - apply PathRewrite_safe. public.
  - apply noCacheOnRoot_safe. unfold uiServerHandler, addPrefix. destruct (c_externalUI c); [|apply PathRewrite_safe]; public.
Qed.

Lemma launcher_safe : Forall route_safe (RegisterRoutes (launcherRoutes client backend next_endpoint c)).
Proof. simpl. each_route. apply plain_safe, logger_quiet_safe; [apply launcher_quiet|]. public. Qed.

Lemma gcp_safe : Forall route_safe (gcpRoutes client backend next_endpoint c ≫= RegisterRoutes).
Proof.
  simpl. each_route; apply plain_safe; simpl.
  - apply ui_safe. public.
  - apply AuthSecret_safe, PathRewrite_safe, ui_safe. public.
  - apply ui_safe, quiet_safe. intros r. unfold redirectWithQuery. by repeat case_match.
  - apply AuthUser_safe, logger_quiet_safe; [|apply quiet_safe]; intros r; apply edge_quiet_ret.
Qed.

(** The variables of the webhook route. *)
Lemma webhook_vars path vars : mux.Match false "/webhooks/{secretID}/" path = Some vars ->
  exists secretID, vars = {["secretID" := secretID]}.
Proof.
  unfold mux.Match. change (mux.parse "/webhooks/{secretID}/") with [mux.TLit "/webhooks/"; mux.TVar "secretID"; mux.TLit "/"].
  cbn [mux.match_items]. case_match; [|done]. destruct (mux.segment _) as [v path']. case_decide; [done|]. case_match; [|done].
  case_match; [|done]. intros [= <-]. by exists v.
Qed.

Lemma webhooks_safe : Forall route_safe (webhookRoutes client backend next_endpoint ValidatePayload c ≫= RegisterRoutes).
Proof.
  simpl. each_route; [apply plain_safe; public|apply plain_safe; public|]. intros r vars Hk Hpath Hempty Hm. simpl.
  unfold route_Match in Hm. simpl in Hm. destruct (mux.Match false _ (http.Path r)) as [vs|] eqn:Hv; [|done]. injection Hm as ->.
  destruct (webhook_vars _ _ Hv) as [secretID ->]. rewrite Hpath in Hv.
  assert (Hin : sends good 1 (webhooksMiddleware client ValidatePayload (Host "flux") (http.set_vars {["secretID" := secretID]} r))).
  { by apply (Webhooks_sends _ _ secretID (host_vouched "flux")); [apply kept_vars| | |]. }
  unfold webhooksLogger, logger. destruct (c_eventLogger c); [|exact Hin]. unfold HTTPEventLogger_Wrap.
  apply sends_after; [apply webhooks_quiet|]. intros ev s _. apply sends_after; [|done]. by destruct ev as [ev|]; [apply LogEvent_quiet|].
Qed.

Lemma router_sends r : kept r -> http.Path r = http.Path r0 -> org_of r = EmptyString ->
  sends good 1 (router client backend next_endpoint ValidatePayload client_Do adminRoot_page Marshal_apiInfo c r).
Proof.
  intros Hk Hpath Hempty. unfold router.
  assert (Hall : Forall route_safe (all_routes client backend next_endpoint ValidatePayload client_Do adminRoot_page Marshal_apiInfo c ≫= RegisterRoutes)).
  { apply Forall_bind. unfold all_routes. rewrite !Forall_app.
    split; [|split; [|split]].
    - constructor; [apply launcher_safe|]. constructor; [apply Forall_singleton, plain_safe, quiet_safe; done|].
      constructor; [apply Forall_singleton, plain_safe, quiet_safe; intros r'; unfold apiInfo; by destruct (parseAPIInfo _)|].
      constructor; [apply app_safe|]. constructor; [apply billing_safe|constructor].
    - apply Forall_bind, gcp_safe.
    - apply Forall_bind, webhooks_safe.
    - constructor; [apply upload_safe|]. constructor; [apply access_safe|]. constructor; [apply atlantis_safe|].
      constructor; [apply admin_safe|]. constructor; [apply open_safe|constructor]. }
  generalize false. induction Hall as [|rt l Hrt _ IH]; intros mismatch; cbn [serve_routes]; [by apply quiet_sends|].
  destruct (route_Match rt r) eqn:Hm; [apply IH|apply IH|]. by apply Hrt.
Qed.

(** * Around the router *)

Lemma stripped_request : let r := removeHeader UserIDHeaderName (removeHeader OrgIDHeaderName r0) in
  kept r /\ http.Path r = http.Path r0 /\ org_of r = EmptyString.
Proof.
  cbv zeta. assert (Hdel : forall n name r, n ∉ kept_names -> name ∈ kept_names -> http.header (removeHeader n r) !! name = http.header r !! name).
  { intros n name r Hn Hname. unfold removeHeader. case_decide; [done|]. unfold http.set_header, http.Del. simpl. rewrite lookup_delete_ne; [done|]. by intros ->. }
  assert (Hsame : forall n r, http.cookies (removeHeader n r) = http.cookies r /\ http.BasicAuth (removeHeader n r) = http.BasicAuth r /\
    http.Path (removeHeader n r) = http.Path r) by (intros n r; unfold removeHeader; by case_decide).
  assert (Hempty : forall n r, http.header_of n (removeHeader n r) = EmptyString).
  { intros n r. unfold removeHeader. case_decide; [done|]. unfold http.header_of, http.Get, http.set_header, http.Del. simpl. by rewrite lookup_delete_eq. }
  split; [constructor|split].
  - intros name Hname. by rewrite !Hdel by (done || by apply (bool_decide_unpack _)).
  - by rewrite !(proj1 (Hsame _ _)).
  - by rewrite !(proj1 (proj2 (Hsame _ _))).
  - by rewrite !(proj2 (proj2 (Hsame _ _))).
  - unfold org_of. unfold removeHeader at 1. case_decide; [apply Hempty|]. unfold http.header_of, http.Get, http.set_header, http.Del. simpl.
    rewrite lookup_delete_ne by done. apply Hempty.
Qed.

Lemma around_sends r : kept r -> http.Path r = http.Path r0 -> org_of r = EmptyString ->
  sends good 1 (originChecker url_Host (c_targetOrigin c) (c_allowedOriginSuffixes c)
    (stripSetCookieHeader stripSetCookieHeaderPrefixes (csrfTokenVerifier nosurf_Reason (csrfExemptPrefixes client backend next_endpoint c)
      (commonMiddleWare c (router client backend next_endpoint ValidatePayload client_Do adminRoot_page Marshal_apiInfo c)))) r).
Proof.
  intros Hk Hpath Hempty. pose proof (router_sends r Hk Hpath Hempty) as Hrouter. set (h := router _ _ _ _ _ _ _ c) in *.
  assert (Hcommon : sends good 1 (commonMiddleWare c h r)).
  { unfold commonMiddleWare, HeaderAdder. apply sends_before; [exact Hrouter|]. intros a. apply edge_quiet_ret. }
  assert (Hcsrf : sends good 1 (csrfTokenVerifier nosurf_Reason (csrfExemptPrefixes client backend next_endpoint c) (commonMiddleWare c h) r)).
  { unfold csrfTokenVerifier. case_match; [exact Hcommon|]. case_match; [by apply quiet_sends|exact Hcommon]. }
  assert (Hstrip : sends good 1 (stripSetCookieHeader stripSetCookieHeaderPrefixes
    (csrfTokenVerifier nosurf_Reason (csrfExemptPrefixes client backend next_endpoint c) (commonMiddleWare c h)) r)).
  { unfold stripSetCookieHeader. case_match; [|exact Hcsrf]. apply sends_before; [exact Hcsrf|]. intros a. apply edge_quiet_ret. }
  unfold originChecker. case_decide; [exact Hstrip|]. case_match; [exact Hstrip|by apply quiet_sends].
Qed.

(** C39: a request that the edge proxy forwards never speaks for an organization but the one the users service gave for the
    credentials that came with it, whatever headers the client sent: at most one request is forwarded, and the organization in
    its header, when there is one, is that of the client's session (looked up for the organization in the path and for access
    to data, or for billing), token or webhook secret, or the identifier of an administrator. A request without an organization
    only goes to the services that are public or do their own authentication, unless the client took its organization off: the
    reverse proxy drops the headers that the Connection header of a request names, the one of the organization included, after
    it was put in. *)
Theorem forwarded_org_vouched s :
  let server := routes client backend next_endpoint ValidatePayload client_Do url_Host nosurf_Reason adminRoot_page Marshal_apiInfo c in
  exists l, ed_forwarded (server r0 s).2 = ed_forwarded s ++ l /\ (length l <= 1)%nat /\
    forall f, f ∈ l -> vouched (http.header_of OrgIDHeaderName (fw_request f)) \/
      (http.header_of OrgIDHeaderName (fw_request f) = EmptyString /\
       (fw_proxy f ∈ public_services \/ names_in_Connection OrgIDHeaderName)).
Proof.
  cbv zeta. unfold routes. cbn [Merge fold_right].
  set (r := removeHeader UserIDHeaderName (removeHeader OrgIDHeaderName r0)).
  assert (Hr : kept r /\ http.Path r = http.Path r0 /\ org_of r = EmptyString) by apply stripped_request.
  destruct Hr as (Hk & Hpath & Hempty).
  destruct (around_sends r Hk Hpath Hempty s) as (l & Hl & Hn & HQ). exists l. split; [exact Hl|]. split; [done|].
  intros f Hf. rewrite Forall_forall in HQ. apply (HQ f Hf).
Qed.

End spec.

(** * A client that takes its organization off *)

Module sample_edge.
Definition client : UsersClient unit := fun A call =>
  match call in ClientCall A return M unit error A with
  | LookupUsingTokenRequest _ _ => ret (mkLookupUsingTokenResponse "1" [])
  | _ => throw (ErrMsg "not asked")
  end.
Definition config : Config :=
  mkConfig "api" false "secret" 0 false false EmptyString [] EmptyString false (fun name => mkProxyConfig (name +:+ ":80") "http" false NoBalancer).
Definition request (connection : list string) : http.Request :=
  http.mkRequest "GET" "cloud.weave.works" "/api/report" "/api/report" [] EmptyString "/api/report"
    (list_to_map [("Authorization", ["Scope-Probe token=t"]); ("Connection", connection)]) [] None ∅ None [] "10.0.0.1" (inr EmptyString).
Definition forwarded (connection : list string) : list (string * string) :=
  (fun f => (fw_proxy f, http.header_of OrgIDHeaderName (fw_request f))) <$>
  ed_forwarded (routes client (fun _ _ => http.WriteHeader 200) (fun _ _ => None) (fun _ _ => true) (fun _ => NoTokenReply "none") (fun _ => None) (fun _ => None)
                  EmptyString (fun _ _ => EmptyString) config (request connection) (mkEdge tt ∅ false [] 0 [])).2.

Lemma organization_taken_off : forwarded ["keep-alive"] = [("collection", "1")] /\ forwarded ["keep-alive, x-scope-orgid"] = [("collection", EmptyString)] /\
  "collection" ∉ public_services.
Proof. split; [vm_compute; reflexivity|]. split; [vm_compute; reflexivity|]. by apply (bool_decide_unpack _). Qed.
End sample_edge.
