(* ===== verification/Decorators.v ===== *)
(** The decorators of the users databases (users/db/timed.go, users/db/traced.go): one that
    measures each call, one that writes each call to the debug log, and the database that
    [MustNew] (users/db/db.go) makes of an implementation with both. *)
From Stdlib Require Import ZArith Lia Ascii String.
From stdpp Require Import base tactics option gmap strings list pretty.
From S2P Require Import Prelude GoStd Users Filter MemDB MemTeam MemOrg MemUser UsersDB.

(** * Timing *)

(** The database and what the histogram has observed: the method and the status code. *)
Record Timed (S : Type) : Type := mkTimed { tm_d : S; tm_observed : list (string * string) }.
Arguments mkTimed {S}. Arguments tm_d {S}. Arguments tm_observed {S}.

(** [timed.errorCode] *)
Definition errorCode (err : option error) : string :=
  match err with
  | None => "200"
  | Some err =>
      if decide (err = ErrNotFound) then "404"
      else if decide (err = ErrEmailIsTaken) then "400"
      else if decide (err = ErrInvalidAuthenticationData) then "401"
      else "500"
  end.

Section timed.
Context {S : Type} `{DBImpl S}.

(** [timed.timeRequest]: the observation follows the call, and a call that does not return has none. *)
Definition timeRequest {A} (method : string) (f : M S error A) : M (Timed S) error A := fun s =>
  let '(o, d) := f (tm_d s) in
  let observe err := mkTimed d (tm_observed s ++ [(method, errorCode err)]) in
  match o with
  | Ret a => (Ret a, observe None)
  | Err e => (Err e, observe (Some e))
  | o => (o, mkTimed d (tm_observed s))
  end.

Definition timed_CreateUser (email : string) (details : option UserUpdate) :=
  timeRequest "CreateUser" (call (CallCreateUser email details)).
Definition timed_UpdateUser (userID : string) (update : UserUpdate) :=
  timeRequest "UpdateUser" (call (CallUpdateUser userID update)).
Definition timed_DeleteUser (userID actingID : string) := timeRequest "DeleteUser" (call (CallDeleteUser userID actingID)).
Definition timed_FindUserByID (id : string) := timeRequest "FindUserByID" (call (CallFindUserByID id)).
Definition timed_FindUserByEmail (email : string) := timeRequest "FindUserByEmail" (call (CallFindUserByEmail email)).
Definition timed_FindUserByLogin (provider id : string) := timeRequest "FindUserByLogin" (call (CallFindUserByLogin provider id)).
Definition timed_UserIsMemberOf (userID orgExternalID : string) :=
  timeRequest "UserIsMemberOf" (call (CallUserIsMemberOf userID orgExternalID)).
Definition timed_AddLoginToUser (userID provider id session : string) :=
  timeRequest "AddLoginToUser" (call (CallAddLoginToUser userID provider id session)).
Definition timed_GetLogin (provider id : string) := timeRequest "GetLogin" (call (CallGetLogin provider id)).
Definition timed_DetachLoginFromUser (userID provider : string) :=
  timeRequest "DetachLoginFromUser" (call (CallDetachLoginFromUser userID provider)).
Definition timed_InviteUserToTeam (email teamExternalID roleID : string) :=
  timeRequest "InviteUserToTeam" (call (CallInviteUserToTeam email teamExternalID roleID)).
Definition timed_RemoveUserFromOrganization (orgExternalID email : string) :=
  timeRequest "RemoveUserFromOrganization" (call (CallRemoveUserFromOrganization orgExternalID email)).
Definition timed_RemoveUserFromTeam (userID teamID : string) :=
  timeRequest "RemoveUserFromTeam" (call (CallRemoveUserFromTeam userID teamID)).
Definition timed_ListUsers (f : filter.Filter) (page : Z) := timeRequest "ListUsers" (call (CallListUsers f page)).
Definition timed_ListOrganizations (f : filter.Filter) (page : Z) :=
  timeRequest "ListOrganizations" (call (CallListOrganizations f page)).
Definition timed_ListAllOrganizations (f : filter.Filter) (orderBy : string) (page : Z) :=
  timeRequest "ListAllOrganizations" (call (CallListAllOrganizations f orderBy page)).
Definition timed_ListOrganizationUsers (orgExternalID : string) (includeDeletedOrgs excludeNewUsers : bool) :=
  timeRequest "ListOrganizationUsers" (call (CallListOrganizationUsers orgExternalID includeDeletedOrgs excludeNewUsers)).
Definition timed_ListOrganizationsInTeam (teamID : string) :=
  timeRequest "ListOrganizaitonsInTeam" (call (CallListOrganizationsInTeam teamID)).
Definition timed_ListOrganizationsForUserIDs (userIDs : list string) :=
  timeRequest "ListOrganizationsForUserIDs" (call (CallListOrganizationsForUserIDs userIDs)).
Definition timed_ListAllOrganizationsForUserIDs (orderBy : string) (userIDs : list string) :=
  timeRequest "ListAllOrganizationsForUserIDs" (call (CallListAllOrganizationsForUserIDs orderBy userIDs)).
Definition timed_ListLoginsForUserIDs (userIDs : list string) :=
  timeRequest "ListLoginsForUserIDs" (call (CallListLoginsForUserIDs userIDs)).
Definition timed_SetUserAdmin (id : string) (value : bool) := timeRequest "SetUserAdmin" (call (CallSetUserAdmin id value)).
Definition timed_SetUserToken (id token : string) := timeRequest "SetUserToken" (call (CallSetUserToken id token)).
Definition timed_SetUserLastLoginAt (id : string) := timeRequest "SetUserLastLoginAt" (call (CallSetUserLastLoginAt id)).
Definition timed_GenerateOrganizationExternalID :=
  timeRequest "GenerateOrganizationExternalID" (call CallGenerateOrganizationExternalID).
Definition timed_FindUncleanedOrgIDs := timeRequest "FindUncleanedOrgIDs" (call CallFindUncleanedOrgIDs).
Definition timed_FindOrganizationByProbeToken (probeToken : string) :=
  timeRequest "FindOrganizationByProbeToken" (call (CallFindOrganizationByProbeToken probeToken)).
Definition timed_FindOrganizationByID (externalID : string) :=
  timeRequest "FindOrganizationByID" (call (CallFindOrganizationByID externalID)).
Definition timed_FindOrganizationByGCPExternalAccountID (externalAccountID : string) :=
  timeRequest "FindOrganizationByGCPExternalAccountID" (call (CallFindOrganizationByGCPExternalAccountID externalAccountID)).
Definition timed_FindOrganizationByInternalID (internalID : string) :=
  timeRequest "FindOrganizationByInternalID" (call (CallFindOrganizationByInternalID internalID)).
Definition timed_UpdateOrganization (externalID : string) (update : OrgWriteView) :=
  timeRequest "UpdateOrganization" (call (CallUpdateOrganization externalID update)).
Definition timed_OrganizationExists (externalID : string) :=
  timeRequest "OrganizationExists" (call (CallOrganizationExists externalID)).
Definition timed_ExternalIDUsed (externalID : string) := timeRequest "ExternalIDUsed" (call (CallExternalIDUsed externalID)).
Definition timed_GetOrganizationName (externalID : string) :=
  timeRequest "GetOrganizationName" (call (CallGetOrganizationName externalID)).
Definition timed_DeleteOrganization (externalID actingID : string) :=
  timeRequest "DeleteOrganization" (call (CallDeleteOrganization externalID actingID)).
Definition timed_AddFeatureFlag (externalID featureFlag : string) :=
  timeRequest "AddFeatureFlag" (call (CallAddFeatureFlag externalID featureFlag)).
Definition timed_SetOrganizationCleanup (internalID : string) (value : bool) :=
  timeRequest "SetOrganizationCleanup" (call (CallSetOrganizationCleanup internalID value)).
Definition timed_SetFeatureFlags (externalID : string) (featureFlags : list string) :=
  timeRequest "SetFeatureFlags" (call (CallSetFeatureFlags externalID featureFlags)).
Definition timed_SetOrganizationRefuseDataAccess (externalID : string) (value : bool) :=
  timeRequest "SetOrganizationRefuseDataAccess" (call (CallSetOrganizationRefuseDataAccess externalID value)).
Definition timed_SetOrganizationRefuseDataUpload (externalID : string) (value : bool) :=
  timeRequest "SetOrganizationRefuseDataUpload" (call (CallSetOrganizationRefuseDataUpload externalID value)).
Definition timed_SetOrganizationRefuseDataReason (externalID reason : string) :=
  timeRequest "SetOrganizationRefuseDataReason" (call (CallSetOrganizationRefuseDataReason externalID reason)).
Definition timed_SetOrganizationFirstSeenConnectedAt (externalID : string) (value : option time.Time) :=
  timeRequest "SetOrganizationFirstSeenConnectedAt" (call (CallSetOrganizationFirstSeenConnectedAt externalID value)).
Definition timed_SetOrganizationFirstSeenFluxConnectedAt (externalID : string) (value : option time.Time) :=
  timeRequest "SetOrganizationFirstSeenFluxConnectedAt" (call (CallSetOrganizationFirstSeenFluxConnectedAt externalID value)).
Definition timed_SetOrganizationFirstSeenNetConnectedAt (externalID : string) (value : option time.Time) :=
  timeRequest "SetOrganizationFirstSeenNetConnectedAt" (call (CallSetOrganizationFirstSeenNetConnectedAt externalID value)).
Definition timed_SetOrganizationFirstSeenPromConnectedAt (externalID : string) (value : option time.Time) :=
  timeRequest "SetOrganizationFirstSeenPromConnectedAt" (call (CallSetOrganizationFirstSeenPromConnectedAt externalID value)).
Definition timed_SetOrganizationFirstSeenScopeConnectedAt (externalID : string) (value : option time.Time) :=
  timeRequest "SetOrganizationFirstSeenScopeConnectedAt" (call (CallSetOrganizationFirstSeenScopeConnectedAt externalID value)).
Definition timed_SetOrganizationZuoraAccount (externalID number : string) (createdAt : option time.Time) :=
  timeRequest "SetOrganizationZuoraAccount" (call (CallSetOrganizationZuoraAccount externalID number createdAt)).
Definition timed_SetOrganizationPlatformVersion (externalID platformVersion : string) :=
  timeRequest "SetOrganizationPlatformVersion" (call (CallSetOrganizationPlatformVersion externalID platformVersion)).
Definition timed_SetLastSentWeeklyReportAt (externalID : string) (sentAt : option time.Time) :=
  timeRequest "SetLastSentWeeklyReportAt" (call (CallSetLastSentWeeklyReportAt externalID sentAt)).
Definition timed_MoveOrganizationToTeam (externalID teamExternalID teamName userID : string) :=
  timeRequest "MoveOrganizationToTeam" (call (CallMoveOrganizationToTeam externalID teamExternalID teamName userID)).
Definition timed_CreateOrganizationWithGCP (ownerID externalAccountID : string) (trialExpiresAt : time.Time) :=
  timeRequest "CreateOrganizationWithGCP" (call (CallCreateOrganizationWithGCP ownerID externalAccountID trialExpiresAt)).
Definition timed_FindGCP (externalAccountID : string) := timeRequest "FindGCP" (call (CallFindGCP externalAccountID)).
Definition timed_UpdateGCP (externalAccountID consumerID subscriptionName subscriptionLevel subscriptionStatus : string) :=
  timeRequest "UpdateGCP" (call (CallUpdateGCP externalAccountID consumerID subscriptionName subscriptionLevel subscriptionStatus)).
Definition timed_SetOrganizationGCP (externalID externalAccountID : string) :=
  timeRequest "SetOrganizationGCP" (call (CallSetOrganizationGCP externalID externalAccountID)).
Definition timed_ListTeams (page : Z) := timeRequest "ListTeams" (call (CallListTeams page)).
Definition timed_ListAllTeams (f : filter.Filter) (orderBy : string) (page : Z) :=
  timeRequest "ListAllTeams" (call (CallListAllTeams f orderBy page)).
Definition timed_ListTeamsForUserID (userID : string) := timeRequest "ListTeamsForUserID" (call (CallListTeamsForUserID userID)).
Definition timed_ListTeamUsersWithRoles (teamID : string) :=
  timeRequest "ListTeamUsersWithRoles" (call (CallListTeamUsersWithRoles teamID)).
Definition timed_ListTeamUsers (teamID : string) := timeRequest "ListTeamUsers" (call (CallListTeamUsers teamID)).
Definition timed_ListRoles := timeRequest "ListRoles" (call CallListRoles).
Definition timed_ListPermissionsForRoleID (roleID : string) :=
  timeRequest "ListPermissionsForRoleID" (call (CallListPermissionsForRoleID roleID)).
Definition timed_GetUserRoleInTeam (userID teamID : string) :=
  timeRequest "GetUserRoleInTeam" (call (CallGetUserRoleInTeam userID teamID)).
Definition timed_UpdateUserRoleInTeam (userID teamID roleID : string) :=
  timeRequest "UpdateUserRoleInTeam" (call (CallUpdateUserRoleInTeam userID teamID roleID)).
Definition timed_FindTeamByExternalID (externalID : string) :=
  timeRequest "FindTeamByExternalID" (call (CallFindTeamByExternalID externalID)).
Definition timed_FindTeamByInternalID (internalID : string) :=
  timeRequest "FindTeamByInternalID" (call (CallFindTeamByInternalID internalID)).
Definition timed_CreateTeam (name : string) := timeRequest "CreateTeam" (call (CallCreateTeam name)).
Definition timed_AddUserToTeam (userID teamID roleID : string) :=
  timeRequest "AddUserToTeam" (call (CallAddUserToTeam userID teamID roleID)).
Definition timed_DeleteTeam (teamID : string) := timeRequest "DeleteTeam" (call (CallDeleteTeam teamID)).
Definition timed_CreateOrganizationWithTeam (ownerID externalID name token teamExternalID teamName : string) (trialExpiresAt : time.Time) :=
  timeRequest "CreateOrganizationWithTeam" (call (CallCreateOrganizationWithTeam ownerID externalID name token teamExternalID teamName trialExpiresAt)).
Definition timed_ListOrganizationWebhooks (orgExternalID : string) :=
  timeRequest "ListOrganizationWebhooks" (call (CallListOrganizationWebhooks orgExternalID)).
Definition timed_CreateOrganizationWebhook (orgExternalID integrationType : string) :=
  timeRequest "CreateOrganizationWebhook" (call (CallCreateOrganizationWebhook orgExternalID integrationType)).
Definition timed_DeleteOrganizationWebhook (orgExternalID secretID : string) :=
  timeRequest "DeleteOrganizationWebhook" (call (CallDeleteOrganizationWebhook orgExternalID secretID)).
Definition timed_FindOrganizationWebhookBySecretID (secretID : string) :=
  timeRequest "FindOrganizationWebhookBySecretID" (call (CallFindOrganizationWebhookBySecretID secretID)).
Definition timed_SetOrganizationWebhookFirstSeenAt (secretID : string) :=
  timeRequest "SetOrganizationWebhookFirstSeenAt" (call (CallSetOrganizationWebhookFirstSeenAt secretID)).
Definition timed_GetSummary := timeRequest "GetSummary" (call CallGetSummary).
Definition timed_ListTeamMemberships := timeRequest "ListTeamMemberships" (call CallListTeamMemberships).

Definition timed : DBImpl (Timed S) := fun A c =>
  match c in DBCall A return M (Timed S) error A with
  | CallCreateUser email details => timed_CreateUser email details
  | CallUpdateUser userID update => timed_UpdateUser userID update
  | CallDeleteUser userID actingID => timed_DeleteUser userID actingID
  | CallFindUserByID id => timed_FindUserByID id
  | CallFindUserByEmail email => timed_FindUserByEmail email
  | CallFindUserByLogin provider id => timed_FindUserByLogin provider id
  | CallUserIsMemberOf userID orgExternalID => timed_UserIsMemberOf userID orgExternalID
  | CallAddLoginToUser userID provider id session => timed_AddLoginToUser userID provider id session
  | CallGetLogin provider id => timed_GetLogin provider id
  | CallDetachLoginFromUser userID provider => timed_DetachLoginFromUser userID provider
  | CallInviteUserToTeam email teamExternalID roleID => timed_InviteUserToTeam email teamExternalID roleID
  | CallRemoveUserFromOrganization orgExternalID email => timed_RemoveUserFromOrganization orgExternalID email
  | CallRemoveUserFromTeam userID teamID => timed_RemoveUserFromTeam userID teamID
  | CallListUsers f page => timed_ListUsers f page
  | CallListOrganizations f page => timed_ListOrganizations f page
  | CallListAllOrganizations f orderBy page => timed_ListAllOrganizations f orderBy page
  | CallListOrganizationUsers orgExternalID includeDeletedOrgs excludeNewUsers => timed_ListOrganizationUsers orgExternalID includeDeletedOrgs excludeNewUsers
  | CallListOrganizationsInTeam teamID => timed_ListOrganizationsInTeam teamID
  | CallListOrganizationsForUserIDs userIDs => timed_ListOrganizationsForUserIDs userIDs
  | CallListAllOrganizationsForUserIDs orderBy userIDs => timed_ListAllOrganizationsForUserIDs orderBy userIDs
  | CallListLoginsForUserIDs userIDs => timed_ListLoginsForUserIDs userIDs
  | CallSetUserAdmin id value => timed_SetUserAdmin id value
  | CallSetUserToken id token => timed_SetUserToken id token
  | CallSetUserLastLoginAt id => timed_SetUserLastLoginAt id
  | CallGenerateOrganizationExternalID => timed_GenerateOrganizationExternalID
  | CallFindUncleanedOrgIDs => timed_FindUncleanedOrgIDs
  | CallFindOrganizationByProbeToken probeToken => timed_FindOrganizationByProbeToken probeToken
  | CallFindOrganizationByID externalID => timed_FindOrganizationByID externalID
  | CallFindOrganizationByGCPExternalAccountID externalAccountID => timed_FindOrganizationByGCPExternalAccountID externalAccountID
  | CallFindOrganizationByInternalID internalID => timed_FindOrganizationByInternalID internalID
  | CallUpdateOrganization externalID update => timed_UpdateOrganization externalID update
  | CallOrganizationExists externalID => timed_OrganizationExists externalID
  | CallExternalIDUsed externalID => timed_ExternalIDUsed externalID
  | CallGetOrganizationName externalID => timed_GetOrganizationName externalID
  | CallDeleteOrganization externalID actingID => timed_DeleteOrganization externalID actingID
  | CallAddFeatureFlag externalID featureFlag => timed_AddFeatureFlag externalID featureFlag
  | CallSetOrganizationCleanup internalID value => timed_SetOrganizationCleanup internalID value
  | CallSetFeatureFlags externalID featureFlags => timed_SetFeatureFlags externalID featureFlags
  | CallSetOrganizationRefuseDataAccess externalID value => timed_SetOrganizationRefuseDataAccess externalID value
  | CallSetOrganizationRefuseDataUpload externalID value => timed_SetOrganizationRefuseDataUpload externalID value
  | CallSetOrganizationRefuseDataReason externalID reason => timed_SetOrganizationRefuseDataReason externalID reason
  | CallSetOrganizationFirstSeenConnectedAt externalID value => timed_SetOrganizationFirstSeenConnectedAt externalID value
  | CallSetOrganizationFirstSeenFluxConnectedAt externalID value => timed_SetOrganizationFirstSeenFluxConnectedAt externalID value
  | CallSetOrganizationFirstSeenNetConnectedAt externalID value => timed_SetOrganizationFirstSeenNetConnectedAt externalID value
  | CallSetOrganizationFirstSeenPromConnectedAt externalID value => timed_SetOrganizationFirstSeenPromConnectedAt externalID value
  | CallSetOrganizationFirstSeenScopeConnectedAt externalID value => timed_SetOrganizationFirstSeenScopeConnectedAt externalID value
  | CallSetOrganizationZuoraAccount externalID number createdAt => timed_SetOrganizationZuoraAccount externalID number createdAt
  | CallSetOrganizationPlatformVersion externalID platformVersion => timed_SetOrganizationPlatformVersion externalID platformVersion
  | CallSetLastSentWeeklyReportAt externalID sentAt => timed_SetLastSentWeeklyReportAt externalID sentAt
  | CallMoveOrganizationToTeam externalID teamExternalID teamName userID => timed_MoveOrganizationToTeam externalID teamExternalID teamName userID
  | CallCreateOrganizationWithGCP ownerID externalAccountID trialExpiresAt => timed_CreateOrganizationWithGCP ownerID externalAccountID trialExpiresAt
  | CallFindGCP externalAccountID => timed_FindGCP externalAccountID
  | CallUpdateGCP externalAccountID consumerID subscriptionName subscriptionLevel subscriptionStatus => timed_UpdateGCP externalAccountID consumerID subscriptionName subscriptionLevel subscriptionStatus
  | CallSetOrganizationGCP externalID externalAccountID => timed_SetOrganizationGCP externalID externalAccountID
  | CallListTeams page => timed_ListTeams page
  | CallListAllTeams f orderBy page => timed_ListAllTeams f orderBy page
  | CallListTeamsForUserID userID => timed_ListTeamsForUserID userID
  | CallListTeamUsersWithRoles teamID => timed_ListTeamUsersWithRoles teamID
  | CallListTeamUsers teamID => timed_ListTeamUsers teamID
  | CallListRoles => timed_ListRoles
  | CallListPermissionsForRoleID roleID => timed_ListPermissionsForRoleID roleID
  | CallGetUserRoleInTeam userID teamID => timed_GetUserRoleInTeam userID teamID
  | CallUpdateUserRoleInTeam userID teamID roleID => timed_UpdateUserRoleInTeam userID teamID roleID
  | CallFindTeamByExternalID externalID => timed_FindTeamByExternalID externalID
  | CallFindTeamByInternalID internalID => timed_FindTeamByInternalID internalID
  | CallCreateTeam name => timed_CreateTeam name
  | CallAddUserToTeam userID teamID roleID => timed_AddUserToTeam userID teamID roleID
  | CallDeleteTeam teamID => timed_DeleteTeam teamID
  | CallCreateOrganizationWithTeam ownerID externalID name token teamExternalID teamName trialExpiresAt => timed_CreateOrganizationWithTeam ownerID externalID name token teamExternalID teamName trialExpiresAt
  | CallListOrganizationWebhooks orgExternalID => timed_ListOrganizationWebhooks orgExternalID
  | CallCreateOrganizationWebhook orgExternalID integrationType => timed_CreateOrganizationWebhook orgExternalID integrationType
  | CallDeleteOrganizationWebhook orgExternalID secretID => timed_DeleteOrganizationWebhook orgExternalID secretID
  | CallFindOrganizationWebhookBySecretID secretID => timed_FindOrganizationWebhookBySecretID secretID
  | CallSetOrganizationWebhookFirstSeenAt secretID => timed_SetOrganizationWebhookFirstSeenAt secretID
  | CallGetSummary => timed_GetSummary
  | CallListTeamMemberships => timed_ListTeamMemberships
  end.

End timed.

(** * Tracing *)

(** What is printed: values of the arguments and results. *)
Inductive Value : Type :=
  | TNil
  | TString (s : string)
  | TBool (b : bool)
  | TUint (n : Z)
  | TStrings (l : list string)
  | TTime (t : option time.Time)
  | TUserUpdate (u : option UserUpdate)
  | TOrgWriteView (u : OrgWriteView)
  | TOrganization (o : Organization)
  | TError (e : error).

Record Traced (S : Type) : Type := mkTraced { tr_d : S; tr_log : list (string * list Value) }.
Arguments mkTraced {S}. Arguments tr_d {S}. Arguments tr_log {S}.

(** The results in a deferred closure: the organization and the error, or the error alone. *)
Definition result_of (o : outcome error Organization) : list Value :=
  match o with Ret org => [TOrganization org; TNil] | Err e => [TNil; TError e] | _ => [TNil; TNil] end.
Definition error_of {A} (o : outcome error A) : list Value :=
  match o with Err e => [TError e] | _ => [TNil] end.

Section traced.
Context {S : Type} `{DBImpl S}.

(** [traced.trace] *)
Definition trace (name : string) (args : list Value) (s : Traced S) : Traced S :=
  mkTraced (tr_d s) (tr_log s ++ [(name, args)]).

(** A deferred closure runs when the call returns or panics. *)
Definition deferred_after {A} (name : string) (args : outcome error A -> list Value) (f : M S error A) : M (Traced S) error A := fun s =>
  let '(o, d) := f (tr_d s) in
  let s := mkTraced d (tr_log s) in
  match o with
  | Deadlock | OutOfFuel => (o, s)
  | _ => (o, trace name (args o) s)
  end.

(** The arguments of a deferred call are evaluated before the call it waits for, when the
    named results still hold their zero values. *)
Definition deferred {A} (name : string) (args : list Value) (f : M S error A) : M (Traced S) error A :=
  deferred_after name (fun _ => args) f.

Definition traced_CreateUser (email : string) (details : option UserUpdate) :=
  deferred "CreateUser" [TString email; TNil; TNil] (call (CallCreateUser email details)).
Definition traced_UpdateUser (userID : string) (update : UserUpdate) :=
  deferred "UpdateUser" [TString userID; TUserUpdate (Some update); TNil; TNil] (call (CallUpdateUser userID update)).
Definition traced_DeleteUser (userID actingID : string) :=
  deferred "DeleteUser" [TString userID; TString actingID; TNil] (call (CallDeleteUser userID actingID)).
Definition traced_FindUserByID (id : string) := deferred "FindUserByID" [TString id; TNil; TNil] (call (CallFindUserByID id)).
Definition traced_FindUserByEmail (email : string) :=
  deferred "FindUserByEmail" [TString email; TNil; TNil] (call (CallFindUserByEmail email)).
Definition traced_FindUserByLogin (provider id : string) :=
  deferred "FindUserByLogin" [TString provider; TString id; TNil; TNil] (call (CallFindUserByLogin provider id)).
Definition traced_UserIsMemberOf (userID orgExternalID : string) :=
  deferred "UserIsMemberOf" [TString userID; TString orgExternalID; TBool false; TNil] (call (CallUserIsMemberOf userID orgExternalID)).
Definition traced_AddLoginToUser (userID provider id session : string) :=
  deferred "AddLoginToUser" [TString userID; TString provider; TString id; TString session; TNil] (call (CallAddLoginToUser userID provider id session)).
Definition traced_GetLogin (provider id : string) :=
  deferred "GetLogin" [TString provider; TString id; TNil; TNil] (call (CallGetLogin provider id)).
Definition traced_DetachLoginFromUser (userID provider : string) :=
  deferred "DetachLoginFromUser" [TString userID; TString provider; TNil] (call (CallDetachLoginFromUser userID provider)).
Definition traced_InviteUserToTeam (email teamExternalID roleID : string) :=
  deferred "InviteUserToTeam" [TString email; TString teamExternalID; TString roleID; TNil; TBool false; TNil] (call (CallInviteUserToTeam email teamExternalID roleID)).
Definition traced_RemoveUserFromOrganization (orgExternalID email : string) :=
  deferred "RemoveUserFromOrganization" [TString orgExternalID; TString email; TNil] (call (CallRemoveUserFromOrganization orgExternalID email)).
Definition traced_RemoveUserFromTeam (userID teamID : string) :=
  deferred "RemoveUserFromTeam" [TString userID; TString teamID; TNil] (call (CallRemoveUserFromTeam userID teamID)).
Definition traced_ListUsers (f : filter.Filter) (page : Z) :=
  deferred "ListUsers" [TUint page; TNil; TNil] (call (CallListUsers f page)).
Definition traced_ListOrganizations (f : filter.Filter) (page : Z) :=
  deferred "ListOrganizations" [TUint page; TNil; TNil] (call (CallListOrganizations f page)).
Definition traced_ListAllOrganizations (f : filter.Filter) (orderBy : string) (page : Z) :=
  deferred "ListAllOrganizations" [TString orderBy; TUint page; TNil; TNil] (call (CallListAllOrganizations f orderBy page)).
Definition traced_ListOrganizationUsers (orgExternalID : string) (includeDeletedOrgs excludeNewUsers : bool) :=
  deferred "ListOrganizationUsers" [TString orgExternalID; TNil; TNil] (call (CallListOrganizationUsers orgExternalID includeDeletedOrgs excludeNewUsers)).
Definition traced_ListOrganizationsInTeam (teamID : string) :=
  deferred "ListOrganizationsInTeam" [TString teamID] (call (CallListOrganizationsInTeam teamID)).
Definition traced_ListOrganizationsForUserIDs (userIDs : list string) :=
  deferred "ListOrganizationsForUserIDs" [TStrings userIDs; TNil; TNil] (call (CallListOrganizationsForUserIDs userIDs)).
Definition traced_ListAllOrganizationsForUserIDs (orderBy : string) (userIDs : list string) :=
  deferred "ListAllOrganizationsForUserIDs" [TString orderBy; TStrings userIDs; TNil; TNil] (call (CallListAllOrganizationsForUserIDs orderBy userIDs)).
Definition traced_ListLoginsForUserIDs (userIDs : list string) :=
  deferred "ListLoginsForUserIDs" [TStrings userIDs; TNil; TNil] (call (CallListLoginsForUserIDs userIDs)).
Definition traced_SetUserAdmin (id : string) (value : bool) :=
  deferred "SetUserAdmin" [TString id; TBool value; TNil] (call (CallSetUserAdmin id value)).
Definition traced_SetUserToken (id token : string) :=
  deferred "SetUserToken" [TString id; TString token; TNil] (call (CallSetUserToken id token)).
Definition traced_SetUserLastLoginAt (id : string) :=
  deferred "SetUserLastLoginAt" [TString id; TNil] (call (CallSetUserLastLoginAt id)).
Definition traced_GenerateOrganizationExternalID :=
  deferred "GenerateOrganizationExternalID" [TString EmptyString; TNil] (call CallGenerateOrganizationExternalID).
Definition traced_FindUncleanedOrgIDs := deferred "FindUncleanedOrgIDs" [TNil; TNil] (call CallFindUncleanedOrgIDs).
Definition traced_FindOrganizationByProbeToken (probeToken : string) :=
  deferred "FindOrganizationByProbeToken" [TString probeToken; TNil; TNil] (call (CallFindOrganizationByProbeToken probeToken)).
Definition traced_FindOrganizationByID (externalID : string) :=
  deferred "FindOrganizationByID" [TString externalID; TNil; TNil] (call (CallFindOrganizationByID externalID)).
Definition traced_FindOrganizationByGCPExternalAccountID (externalAccountID : string) :=
  deferred "FindOrganizationByGCPExternalAccountID" [TString externalAccountID; TNil; TNil] (call (CallFindOrganizationByGCPExternalAccountID externalAccountID)).
Definition traced_FindOrganizationByInternalID (internalID : string) :=
  deferred "FindOrganizationByInternalID" [TString internalID; TNil; TNil] (call (CallFindOrganizationByInternalID internalID)).
Definition traced_UpdateOrganization (externalID : string) (update : OrgWriteView) :=
  deferred "UpdateOrganization" [TString externalID; TOrgWriteView update; TNil; TNil] (call (CallUpdateOrganization externalID update)).
Definition traced_OrganizationExists (externalID : string) :=
  deferred "OrganizationExists" [TString externalID; TBool false; TNil] (call (CallOrganizationExists externalID)).
Definition traced_ExternalIDUsed (externalID : string) :=
  deferred "ExternalIDUsed" [TString externalID; TBool false; TNil] (call (CallExternalIDUsed externalID)).
Definition traced_GetOrganizationName (externalID : string) :=
  deferred "GetOrganizationName" [TString externalID; TString EmptyString; TNil] (call (CallGetOrganizationName externalID)).
Definition traced_DeleteOrganization (externalID actingID : string) :=
  deferred "DeleteOrganization" [TString externalID; TNil] (call (CallDeleteOrganization externalID actingID)).
Definition traced_AddFeatureFlag (externalID featureFlag : string) :=
  deferred "AddFeatureFlag" [TString externalID; TString featureFlag; TNil] (call (CallAddFeatureFlag externalID featureFlag)).
Definition traced_SetOrganizationCleanup (internalID : string) (value : bool) :=
  deferred "SetOrganizationCleanup" [TString internalID; TNil] (call (CallSetOrganizationCleanup internalID value)).
Definition traced_SetFeatureFlags (externalID : string) (featureFlags : list string) :=
  deferred "SetFeatureFlags" [TString externalID; TStrings featureFlags; TNil] (call (CallSetFeatureFlags externalID featureFlags)).
Definition traced_SetOrganizationRefuseDataAccess (externalID : string) (value : bool) :=
  deferred "SetOrganizationRefuseDataAccess" [TString externalID; TBool value; TNil] (call (CallSetOrganizationRefuseDataAccess externalID value)).
Definition traced_SetOrganizationRefuseDataUpload (externalID : string) (value : bool) :=
  deferred "SetOrganizationRefuseDataUpload" [TString externalID; TBool value; TNil] (call (CallSetOrganizationRefuseDataUpload externalID value)).
Definition traced_SetOrganizationRefuseDataReason (externalID reason : string) :=
  deferred "SetOrganizationRefuseDataReason" [TString externalID; TString reason; TNil] (call (CallSetOrganizationRefuseDataReason externalID reason)).
Definition traced_SetOrganizationFirstSeenConnectedAt (externalID : string) (value : option time.Time) :=
  deferred "SetOrganizationFirstSeenConnectedAt" [TString externalID; TTime value; TNil] (call (CallSetOrganizationFirstSeenConnectedAt externalID value)).
Definition traced_SetOrganizationFirstSeenFluxConnectedAt (externalID : string) (value : option time.Time) :=
  deferred "SetOrganizationFirstSeenFluxConnectedAt" [TString externalID; TTime value; TNil] (call (CallSetOrganizationFirstSeenFluxConnectedAt externalID value)).
Definition traced_SetOrganizationFirstSeenNetConnectedAt (externalID : string) (value : option time.Time) :=
  deferred "SetOrganizationFirstSeenNetConnectedAt" [TString externalID; TTime value; TNil] (call (CallSetOrganizationFirstSeenNetConnectedAt externalID value)).
Definition traced_SetOrganizationFirstSeenPromConnectedAt (externalID : string) (value : option time.Time) :=
  deferred "SetOrganizationFirstSeenPromConnectedAt" [TString externalID; TTime value; TNil] (call (CallSetOrganizationFirstSeenPromConnectedAt externalID value)).
Definition traced_SetOrganizationFirstSeenScopeConnectedAt (externalID : string) (value : option time.Time) :=
  deferred "SetOrganizationFirstSeenScopeConnectedAt" [TString externalID; TTime value; TNil] (call (CallSetOrganizationFirstSeenScopeConnectedAt externalID value)).
Definition traced_SetOrganizationZuoraAccount (externalID number : string) (createdAt : option time.Time) :=
  deferred "SetOrganizationZuoraAccount" [TString externalID; TString number; TTime createdAt; TNil] (call (CallSetOrganizationZuoraAccount externalID number createdAt)).
Definition traced_SetOrganizationPlatformVersion (externalID platformVersion : string) :=
  deferred "SetOrganizationPlatformVersion" [TString externalID; TString platformVersion; TNil] (call (CallSetOrganizationPlatformVersion externalID platformVersion)).
Definition traced_SetLastSentWeeklyReportAt (externalID : string) (sentAt : option time.Time) :=
  deferred "SetLastSentWeeklyReportAt" [TString externalID; TTime sentAt; TNil] (call (CallSetLastSentWeeklyReportAt externalID sentAt)).
Definition traced_MoveOrganizationToTeam (externalID teamExternalID teamName userID : string) :=
  deferred "MoveOrganizationToTeam" [TString externalID; TString teamExternalID; TString teamName; TString userID; TNil] (call (CallMoveOrganizationToTeam externalID teamExternalID teamName userID)).
Definition traced_CreateOrganizationWithGCP (ownerID externalAccountID : string) (trialExpiresAt : time.Time) :=
  deferred_after "CreateOrganizationWithGCP" (fun o => [TString ownerID; TString externalAccountID; TTime (Some trialExpiresAt)] ++ result_of o) (call (CallCreateOrganizationWithGCP ownerID externalAccountID trialExpiresAt)).
Definition traced_FindGCP (externalAccountID : string) :=
  deferred "FindGCP" [TString externalAccountID; TNil; TNil] (call (CallFindGCP externalAccountID)).
Definition traced_UpdateGCP (externalAccountID consumerID subscriptionName subscriptionLevel subscriptionStatus : string) :=
  deferred_after "UpdateGCP" (fun o => [TString externalAccountID; TString consumerID; TString subscriptionName; TString subscriptionLevel; TString subscriptionStatus] ++ error_of o) (call (CallUpdateGCP externalAccountID consumerID subscriptionName subscriptionLevel subscriptionStatus)).
Definition traced_SetOrganizationGCP (externalID externalAccountID : string) :=
  deferred "SetOrganizationGCP" [TString externalID; TString externalAccountID; TNil] (call (CallSetOrganizationGCP externalID externalAccountID)).
Definition traced_ListTeams (page : Z) := deferred "ListTeams" [TNil; TNil] (call (CallListTeams page)).
Definition traced_ListAllTeams (f : filter.Filter) (orderBy : string) (page : Z) :=
  deferred "ListAllTeams" [TString orderBy; TUint page; TNil; TNil] (call (CallListAllTeams f orderBy page)).
Definition traced_ListTeamsForUserID (userID : string) :=
  deferred "ListTeamsForUserID" [TString userID; TNil; TNil] (call (CallListTeamsForUserID userID)).
Definition traced_ListTeamUsersWithRoles (teamID : string) :=
  deferred "ListTeamUsersWithRoles" [TString teamID; TNil; TNil] (call (CallListTeamUsersWithRoles teamID)).
Definition traced_ListTeamUsers (teamID : string) :=
  deferred "ListTeamUsers" [TString teamID; TNil; TNil] (call (CallListTeamUsers teamID)).
Definition traced_ListRoles := deferred "ListRoles" [TNil; TNil] (call CallListRoles).
Definition traced_ListPermissionsForRoleID (roleID : string) :=
  deferred "ListPermissionsForRoleID" [TString roleID; TNil; TNil] (call (CallListPermissionsForRoleID roleID)).
Definition traced_GetUserRoleInTeam (userID teamID : string) :=
  deferred "GetUserRoleInTeam" [TString userID; TString teamID; TNil; TNil] (call (CallGetUserRoleInTeam userID teamID)).
Definition traced_UpdateUserRoleInTeam (userID teamID roleID : string) :=
  deferred "UpdateUserRoleInTeam" [TString userID; TString teamID; TString roleID; TNil] (call (CallUpdateUserRoleInTeam userID teamID roleID)).
Definition traced_FindTeamByExternalID (externalID : string) :=
  deferred "FindTeamByExternalID" [TString externalID; TNil; TNil] (call (CallFindTeamByExternalID externalID)).
Definition traced_FindTeamByInternalID (internalID : string) :=
  deferred "FindTeamByInternalID" [TString internalID; TNil; TNil] (call (CallFindTeamByInternalID internalID)).
Definition traced_CreateTeam (name : string) := deferred "CreateTeam" [TString name; TNil; TNil] (call (CallCreateTeam name)).
Definition traced_AddUserToTeam (userID teamID roleID : string) :=
  deferred "AddUserToTeam" [TString userID; TString teamID; TString roleID; TNil] (call (CallAddUserToTeam userID teamID roleID)).
Definition traced_DeleteTeam (teamID : string) := deferred "DeleteTeam" [TString teamID; TNil] (call (CallDeleteTeam teamID)).
Definition traced_CreateOrganizationWithTeam (ownerID externalID name token teamExternalID teamName : string) (trialExpiresAt : time.Time) :=
  deferred_after "CreateOrganizationWithTeam" (fun o => [TString ownerID; TString externalID; TString name; TString token; TString teamExternalID; TString teamName; TTime (Some trialExpiresAt)] ++ result_of o) (call (CallCreateOrganizationWithTeam ownerID externalID name token teamExternalID teamName trialExpiresAt)).
Definition traced_ListOrganizationWebhooks (orgExternalID : string) :=
  deferred "ListOrganizationWebhooks" [TString orgExternalID; TNil; TNil] (call (CallListOrganizationWebhooks orgExternalID)).
Definition traced_CreateOrganizationWebhook (orgExternalID integrationType : string) :=
  deferred "CreateOrganizationWebhook" [TString orgExternalID; TString integrationType; TNil; TNil] (call (CallCreateOrganizationWebhook orgExternalID integrationType)).
Definition traced_DeleteOrganizationWebhook (orgExternalID secretID : string) :=
  deferred "DeleteOrganizationWebhook" [TString orgExternalID; TString secretID; TNil] (call (CallDeleteOrganizationWebhook orgExternalID secretID)).
Definition traced_FindOrganizationWebhookBySecretID (secretID : string) :=
  deferred "FindOrganizationWebhookBySecretID" [TString secretID; TNil; TNil] (call (CallFindOrganizationWebhookBySecretID secretID)).
Definition traced_SetOrganizationWebhookFirstSeenAt (secretID : string) :=
  deferred "SetOrganizationWebhookFirstSeenAt" [TString secretID; TNil; TNil] (call (CallSetOrganizationWebhookFirstSeenAt secretID)).
Definition traced_GetSummary := deferred "GetSummary" [TNil; TNil] (call CallGetSummary).
Definition traced_ListTeamMemberships := deferred "ListTeamMemberships" [TNil; TNil] (call CallListTeamMemberships).

Definition traced : DBImpl (Traced S) := fun A c =>
  match c in DBCall A return M (Traced S) error A with
  | CallCreateUser email details => traced_CreateUser email details
  | CallUpdateUser userID update => traced_UpdateUser userID update
  | CallDeleteUser userID actingID => traced_DeleteUser userID actingID
  | CallFindUserByID id => traced_FindUserByID id
  | CallFindUserByEmail email => traced_FindUserByEmail email
  | CallFindUserByLogin provider id => traced_FindUserByLogin provider id
  | CallUserIsMemberOf userID orgExternalID => traced_UserIsMemberOf userID orgExternalID
  | CallAddLoginToUser userID provider id session => traced_AddLoginToUser userID provider id session
  | CallGetLogin provider id => traced_GetLogin provider id
  | CallDetachLoginFromUser userID provider => traced_DetachLoginFromUser userID provider
  | CallInviteUserToTeam email teamExternalID roleID => traced_InviteUserToTeam email teamExternalID roleID
  | CallRemoveUserFromOrganization orgExternalID email => traced_RemoveUserFromOrganization orgExternalID email
  | CallRemoveUserFromTeam userID teamID => traced_RemoveUserFromTeam userID teamID
  | CallListUsers f page => traced_ListUsers f page
  | CallListOrganizations f page => traced_ListOrganizations f page
  | CallListAllOrganizations f orderBy page => traced_ListAllOrganizations f orderBy page
  | CallListOrganizationUsers orgExternalID includeDeletedOrgs excludeNewUsers => traced_ListOrganizationUsers orgExternalID includeDeletedOrgs excludeNewUsers
  | CallListOrganizationsInTeam teamID => traced_ListOrganizationsInTeam teamID
  | CallListOrganizationsForUserIDs userIDs => traced_ListOrganizationsForUserIDs userIDs
  | CallListAllOrganizationsForUserIDs orderBy userIDs => traced_ListAllOrganizationsForUserIDs orderBy userIDs
  | CallListLoginsForUserIDs userIDs => traced_ListLoginsForUserIDs userIDs
  | CallSetUserAdmin id value => traced_SetUserAdmin id value
  | CallSetUserToken id token => traced_SetUserToken id token
  | CallSetUserLastLoginAt id => traced_SetUserLastLoginAt id
  | CallGenerateOrganizationExternalID => traced_GenerateOrganizationExternalID
  | CallFindUncleanedOrgIDs => traced_FindUncleanedOrgIDs
  | CallFindOrganizationByProbeToken probeToken => traced_FindOrganizationByProbeToken probeToken
  | CallFindOrganizationByID externalID => traced_FindOrganizationByID externalID
  | CallFindOrganizationByGCPExternalAccountID externalAccountID => traced_FindOrganizationByGCPExternalAccountID externalAccountID
  | CallFindOrganizationByInternalID internalID => traced_FindOrganizationByInternalID internalID
  | CallUpdateOrganization externalID update => traced_UpdateOrganization externalID update
  | CallOrganizationExists externalID => traced_OrganizationExists externalID
  | CallExternalIDUsed externalID => traced_ExternalIDUsed externalID
  | CallGetOrganizationName externalID => traced_GetOrganizationName externalID
  | CallDeleteOrganization externalID actingID => traced_DeleteOrganization externalID actingID
  | CallAddFeatureFlag externalID featureFlag => traced_AddFeatureFlag externalID featureFlag
  | CallSetOrganizationCleanup internalID value => traced_SetOrganizationCleanup internalID value
  | CallSetFeatureFlags externalID featureFlags => traced_SetFeatureFlags externalID featureFlags
  | CallSetOrganizationRefuseDataAccess externalID value => traced_SetOrganizationRefuseDataAccess externalID value
  | CallSetOrganizationRefuseDataUpload externalID value => traced_SetOrganizationRefuseDataUpload externalID value
  | CallSetOrganizationRefuseDataReason externalID reason => traced_SetOrganizationRefuseDataReason externalID reason
  | CallSetOrganizationFirstSeenConnectedAt externalID value => traced_SetOrganizationFirstSeenConnectedAt externalID value
  | CallSetOrganizationFirstSeenFluxConnectedAt externalID value => traced_SetOrganizationFirstSeenFluxConnectedAt externalID value
  | CallSetOrganizationFirstSeenNetConnectedAt externalID value => traced_SetOrganizationFirstSeenNetConnectedAt externalID value
  | CallSetOrganizationFirstSeenPromConnectedAt externalID value => traced_SetOrganizationFirstSeenPromConnectedAt externalID value
  | CallSetOrganizationFirstSeenScopeConnectedAt externalID value => traced_SetOrganizationFirstSeenScopeConnectedAt externalID value
  | CallSetOrganizationZuoraAccount externalID number createdAt => traced_SetOrganizationZuoraAccount externalID number createdAt
  | CallSetOrganizationPlatformVersion externalID platformVersion => traced_SetOrganizationPlatformVersion externalID platformVersion
  | CallSetLastSentWeeklyReportAt externalID sentAt => traced_SetLastSentWeeklyReportAt externalID sentAt
  | CallMoveOrganizationToTeam externalID teamExternalID teamName userID => traced_MoveOrganizationToTeam externalID teamExternalID teamName userID
  | CallCreateOrganizationWithGCP ownerID externalAccountID trialExpiresAt => traced_CreateOrganizationWithGCP ownerID externalAccountID trialExpiresAt
  | CallFindGCP externalAccountID => traced_FindGCP externalAccountID
  | CallUpdateGCP externalAccountID consumerID subscriptionName subscriptionLevel subscriptionStatus => traced_UpdateGCP externalAccountID consumerID subscriptionName subscriptionLevel subscriptionStatus
  | CallSetOrganizationGCP externalID externalAccountID => traced_SetOrganizationGCP externalID externalAccountID
  | CallListTeams page => traced_ListTeams page
  | CallListAllTeams f orderBy page => traced_ListAllTeams f orderBy page
  | CallListTeamsForUserID userID => traced_ListTeamsForUserID userID
  | CallListTeamUsersWithRoles teamID => traced_ListTeamUsersWithRoles teamID
  | CallListTeamUsers teamID => traced_ListTeamUsers teamID
  | CallListRoles => traced_ListRoles
  | CallListPermissionsForRoleID roleID => traced_ListPermissionsForRoleID roleID
  | CallGetUserRoleInTeam userID teamID => traced_GetUserRoleInTeam userID teamID
  | CallUpdateUserRoleInTeam userID teamID roleID => traced_UpdateUserRoleInTeam userID teamID roleID
  | CallFindTeamByExternalID externalID => traced_FindTeamByExternalID externalID
  | CallFindTeamByInternalID internalID => traced_FindTeamByInternalID internalID
  | CallCreateTeam name => traced_CreateTeam name
  | CallAddUserToTeam userID teamID roleID => traced_AddUserToTeam userID teamID roleID
  | CallDeleteTeam teamID => traced_DeleteTeam teamID
  | CallCreateOrganizationWithTeam ownerID externalID name token teamExternalID teamName trialExpiresAt => traced_CreateOrganizationWithTeam ownerID externalID name token teamExternalID teamName trialExpiresAt
  | CallListOrganizationWebhooks orgExternalID => traced_ListOrganizationWebhooks orgExternalID
  | CallCreateOrganizationWebhook orgExternalID integrationType => traced_CreateOrganizationWebhook orgExternalID integrationType
  | CallDeleteOrganizationWebhook orgExternalID secretID => traced_DeleteOrganizationWebhook orgExternalID secretID
  | CallFindOrganizationWebhookBySecretID secretID => traced_FindOrganizationWebhookBySecretID secretID
  | CallSetOrganizationWebhookFirstSeenAt secretID => traced_SetOrganizationWebhookFirstSeenAt secretID
  | CallGetSummary => traced_GetSummary
  | CallListTeamMemberships => traced_ListTeamMemberships
  end.

End traced.

(** * The database of the service *)

(** [MustNew], of an implementation that could be opened. *)
Definition MustNew {S} (d : DBImpl S) : DBImpl (Traced (Timed S)) := traced (H := timed (H := d)).
