(* ===== verification/DecoratorsSpec.v ===== *)
(** The decorated database answers as the database under it: each call, and through the gRPC
    server and the HTTP API, each request; the two logs are the only difference. *)
From Stdlib Require Import ZArith Lia Ascii String.
From stdpp Require Import base tactics option gmap strings list pretty.
From S2P Require Import Prelude GoStd Users Filter MemDB MemTeam MemOrg MemUser UsersDB Sessions UsersServer UsersClient Calendar Entitlement Api ApiTeam ApiOrg ApiUser ApiAdmin ApiRoutes Middleware Decorators.

(** * Computations seen through a function of their state *)

(** [through f m' m]: [m'] does, seen through [f], what [m] does. *)
Definition through {T U A} (f : U -> T) (m' : M U error A) (m : M T error A) : Prop :=
  forall u, m (f u) = ((m' u).1, f (m' u).2).

Create HintDb through.

Section through.
Context {T U : Type} (f : U -> T).

Lemma through_ret {A} (a : A) : through f (ret a) (ret a).
Proof. done. Qed.
Lemma through_throw {A} e : through f (throw e : M U error A) (throw e).
Proof. done. Qed.
Lemma through_panic {A} : through f (panic : M U error A) panic.
Proof. done. Qed.
Lemma through_fuel {A} : through f (out_of_fuel : M U error A) out_of_fuel.
Proof. done. Qed.
Lemma through_gets {A} (g' : U -> A) (g : T -> A) : (forall u, g (f u) = g' u) -> through f (gets g') (gets g).
Proof. intros Hg u. unfold gets. by rewrite Hg. Qed.
Lemma through_modify g' g : (forall u, g (f u) = f (g' u)) -> through f (modify g') (modify g).
Proof. intros Hg u. unfold modify. by rewrite Hg. Qed.
Lemma through_deref {A} (p : option A) : through f (deref p) (deref p).
Proof. by destruct p. Qed.
Lemma through_or_else {A} (p : option A) e : through f (or_else p e) (or_else p e).
Proof. by destruct p. Qed.
Lemma through_bind {A B} (m' : M U error A) m (k' : A -> M U error B) k :
  through f m' m -> (forall a, through f (k' a) (k a)) -> through f (bind m' k') (bind m k).
Proof.
  intros Hm Hk u. unfold bind. rewrite Hm. destruct (m' u) as [[] u'] eqn:E; simpl; try done. apply Hk.
Qed.
Lemma through_try {A} (m' : M U error A) m : through f m' m -> through f (try m') (try m).
Proof. intros Hm u. unfold try. rewrite Hm. by destruct (m' u) as [[] u']. Qed.
Lemma through_for_each {A} (l : list A) b' b : (forall a, through f (b' a) (b a)) -> through f (for_each l b') (for_each l b).
Proof. intros Hb. induction l as [|a l IH]; [apply through_ret|]. by apply through_bind. Qed.
Lemma through_fold {A B} (l : list A) (g' : B -> A -> M U error B) g b :
  (forall b a, through f (g' b a) (g b a)) -> through f (fold_m g' l b) (fold_m g l b).
Proof. intros Hg. revert b. induction l as [|a l IH]; intros b; [apply through_ret|]. by apply through_bind. Qed.
End through.

(** A part of the state, seen through a function of its own. *)
Lemma through_zoom {S T U V A} (f : U -> T) (g : V -> S) (get' : U -> V) (put' : V -> U -> U) (get : T -> S) (put : S -> T -> T)
    (m' : M V error A) (m : M S error A) :
  (forall u, get (f u) = g (get' u)) -> (forall v u, put (g v) (f u) = f (put' v u)) ->
  through g m' m -> through f (zoom get' put' m') (zoom get put m).
Proof. intros Hget Hput Hm u. unfold zoom. rewrite Hget, Hm. destruct (m' (get' u)) as [o v]. simpl. by rewrite Hput. Qed.

#[export] Hint Resolve through_ret through_throw through_panic through_fuel through_deref through_or_else : through.

(** * The decorated database *)

(** The database under the decorators. *)
Definition undecorated {S} (s : Traced (Timed S)) : S := tm_d (tr_d s).

Section decorated.
Context {S : Type} (d : DBImpl S).

Lemma timeRequest_through {A} method (m : M S error A) : through tm_d (timeRequest method m) m.
Proof. intros s. unfold timeRequest. by destruct (m (tm_d s)) as [[] d']. Qed.
Lemma deferred_after_through {A} name args (m : M S error A) : through tr_d (deferred_after name args m) m.
Proof. intros s. unfold deferred_after. by destruct (m (tr_d s)) as [[] d']. Qed.

Lemma timed_through {A} (c : DBCall A) : through tm_d (timed A c) (d A c).
Proof. destruct c; apply timeRequest_through. Qed.
End decorated.

Lemma traced_through {S} (d : DBImpl S) {A} (c : DBCall A) : through tr_d (traced A c) (d A c).
Proof. destruct c; apply deferred_after_through. Qed.

Lemma MustNew_through {S} (d : DBImpl S) {A} (c : DBCall A) : through undecorated (MustNew d A c) (d A c).
Proof.
  intros s. unfold undecorated, MustNew. rewrite (timed_through d c (tr_d s)). 
  pose proof (traced_through (timed (H := d)) c s) as Ht. rewrite Ht. done.
Qed.

(** The names of the methods, and those of the operations in the histogram. *)
Definition method_name {A} (c : DBCall A) : string :=
  match c with
  | CallCreateUser _ _ => "CreateUser"
  | CallUpdateUser _ _ => "UpdateUser"
  | CallDeleteUser _ _ => "DeleteUser"
  | CallFindUserByID _ => "FindUserByID"
  | CallFindUserByEmail _ => "FindUserByEmail"
  | CallFindUserByLogin _ _ => "FindUserByLogin"
  | CallUserIsMemberOf _ _ => "UserIsMemberOf"
  | CallAddLoginToUser _ _ _ _ => "AddLoginToUser"
  | CallGetLogin _ _ => "GetLogin"
  | CallDetachLoginFromUser _ _ => "DetachLoginFromUser"
  | CallInviteUserToTeam _ _ _ => "InviteUserToTeam"
  | CallRemoveUserFromOrganization _ _ => "RemoveUserFromOrganization"
  | CallRemoveUserFromTeam _ _ => "RemoveUserFromTeam"
  | CallListUsers _ _ => "ListUsers"
  | CallListOrganizations _ _ => "ListOrganizations"
  | CallListAllOrganizations _ _ _ => "ListAllOrganizations"
  | CallListOrganizationUsers _ _ _ => "ListOrganizationUsers"
  | CallListOrganizationsInTeam _ => "ListOrganizationsInTeam"
  | CallListOrganizationsForUserIDs _ => "ListOrganizationsForUserIDs"
  | CallListAllOrganizationsForUserIDs _ _ => "ListAllOrganizationsForUserIDs"
  | CallListLoginsForUserIDs _ => "ListLoginsForUserIDs"
  | CallSetUserAdmin _ _ => "SetUserAdmin"
  | CallSetUserToken _ _ => "SetUserToken"
  | CallSetUserLastLoginAt _ => "SetUserLastLoginAt"
  | CallGenerateOrganizationExternalID => "GenerateOrganizationExternalID"
  | CallFindUncleanedOrgIDs => "FindUncleanedOrgIDs"
  | CallFindOrganizationByProbeToken _ => "FindOrganizationByProbeToken"
  | CallFindOrganizationByID _ => "FindOrganizationByID"
  | CallFindOrganizationByGCPExternalAccountID _ => "FindOrganizationByGCPExternalAccountID"
  | CallFindOrganizationByInternalID _ => "FindOrganizationByInternalID"
  | CallUpdateOrganization _ _ => "UpdateOrganization"
  | CallOrganizationExists _ => "OrganizationExists"
  | CallExternalIDUsed _ => "ExternalIDUsed"
  | CallGetOrganizationName _ => "GetOrganizationName"
  | CallDeleteOrganization _ _ => "DeleteOrganization"
  | CallAddFeatureFlag _ _ => "AddFeatureFlag"
  | CallSetOrganizationCleanup _ _ => "SetOrganizationCleanup"
  | CallSetFeatureFlags _ _ => "SetFeatureFlags"
  | CallSetOrganizationRefuseDataAccess _ _ => "SetOrganizationRefuseDataAccess"
  | CallSetOrganizationRefuseDataUpload _ _ => "SetOrganizationRefuseDataUpload"
  | CallSetOrganizationRefuseDataReason _ _ => "SetOrganizationRefuseDataReason"
  | CallSetOrganizationFirstSeenConnectedAt _ _ => "SetOrganizationFirstSeenConnectedAt"
  | CallSetOrganizationFirstSeenFluxConnectedAt _ _ => "SetOrganizationFirstSeenFluxConnectedAt"
  | CallSetOrganizationFirstSeenNetConnectedAt _ _ => "SetOrganizationFirstSeenNetConnectedAt"
  | CallSetOrganizationFirstSeenPromConnectedAt _ _ => "SetOrganizationFirstSeenPromConnectedAt"
  | CallSetOrganizationFirstSeenScopeConnectedAt _ _ => "SetOrganizationFirstSeenScopeConnectedAt"
  | CallSetOrganizationZuoraAccount _ _ _ => "SetOrganizationZuoraAccount"
  | CallSetOrganizationPlatformVersion _ _ => "SetOrganizationPlatformVersion"
  | CallSetLastSentWeeklyReportAt _ _ => "SetLastSentWeeklyReportAt"
  | CallMoveOrganizationToTeam _ _ _ _ => "MoveOrganizationToTeam"
  | CallCreateOrganizationWithGCP _ _ _ => "CreateOrganizationWithGCP"
  | CallFindGCP _ => "FindGCP"
  | CallUpdateGCP _ _ _ _ _ => "UpdateGCP"
  | CallSetOrganizationGCP _ _ => "SetOrganizationGCP"
  | CallListTeams _ => "ListTeams"
  | CallListAllTeams _ _ _ => "ListAllTeams"
  | CallListTeamsForUserID _ => "ListTeamsForUserID"
  | CallListTeamUsersWithRoles _ => "ListTeamUsersWithRoles"
  | CallListTeamUsers _ => "ListTeamUsers"
  | CallListRoles => "ListRoles"
  | CallListPermissionsForRoleID _ => "ListPermissionsForRoleID"
  | CallGetUserRoleInTeam _ _ => "GetUserRoleInTeam"
  | CallUpdateUserRoleInTeam _ _ _ => "UpdateUserRoleInTeam"
  | CallFindTeamByExternalID _ => "FindTeamByExternalID"
  | CallFindTeamByInternalID _ => "FindTeamByInternalID"
  | CallCreateTeam _ => "CreateTeam"
  | CallAddUserToTeam _ _ _ => "AddUserToTeam"
  | CallDeleteTeam _ => "DeleteTeam"
  | CallCreateOrganizationWithTeam _ _ _ _ _ _ _ => "CreateOrganizationWithTeam"
  | CallListOrganizationWebhooks _ => "ListOrganizationWebhooks"
  | CallCreateOrganizationWebhook _ _ => "CreateOrganizationWebhook"
  | CallDeleteOrganizationWebhook _ _ => "DeleteOrganizationWebhook"
  | CallFindOrganizationWebhookBySecretID _ => "FindOrganizationWebhookBySecretID"
  | CallSetOrganizationWebhookFirstSeenAt _ => "SetOrganizationWebhookFirstSeenAt"
  | CallGetSummary => "GetSummary"
  | CallListTeamMemberships => "ListTeamMemberships"
  end.
Definition operation {A} (c : DBCall A) : string :=
  match c with CallListOrganizationsInTeam _ => "ListOrganizaitonsInTeam" | _ => method_name c end.

Lemma timed_observes {S} (d : DBImpl S) {A} (c : DBCall A) s :
  tm_observed (timed A c s).2 = tm_observed s ++
    match (timed A c s).1 with Ret _ => [(operation c, "200")] | Err e => [(operation c, errorCode (Some e))] | _ => [] end.
Proof.
  assert (Hreq : timed A c = timeRequest (operation c) (d A c)) by by destruct c.
  rewrite Hreq. unfold timeRequest. destruct (d A c (tm_d s)) as [[] d']; simpl; by rewrite ?app_nil_r.
Qed.

Lemma traced_logs {S} (d : DBImpl S) {A} (c : DBCall A) s :
  (traced A c s).2 = mkTraced (d A c (tr_d s)).2 (tr_log (traced A c s).2) /\
  exists lines, tr_log (traced A c s).2 = tr_log s ++ lines /\
    lines.*1 = match (traced A c s).1 with Deadlock | OutOfFuel => [] | _ => [method_name c] end.
Proof.
  assert (Hafter : exists args, traced A c = deferred_after (method_name c) args (d A c)) by (destruct c; by eexists).
  destruct Hafter as [args ->]. unfold deferred_after. destruct (d A c (tr_d s)) as [[] d']; simpl; (split; [done|]).
  all: first [by exists [] ; rewrite app_nil_r | by eexists].
Qed.

Lemma MustNew_logs {S} (d : DBImpl S) {A} (c : DBCall A) s : let '(o, s') := MustNew d A c s in
  tm_observed (tr_d s') = tm_observed (tr_d s) ++
    match o with Ret _ => [(operation c, "200")] | Err e => [(operation c, errorCode (Some e))] | _ => [] end /\
  exists lines, tr_log s' = tr_log s ++ lines /\
    lines.*1 = match o with Deadlock | OutOfFuel => [] | _ => [method_name c] end.
Proof.
  destruct (traced_logs (timed (H := d)) c s) as [Hstate Hlines]. pose proof (traced_through (timed (H := d)) c s) as Ht.
  pose proof (timed_observes d c (tr_d s)) as Ho. rewrite Ht in Ho. unfold MustNew. destruct (traced A c s) as [o s']. by split.
Qed.

(** * The server and the HTTP API over it *)

Section api.
Context {S Report : Type} (d : DBImpl S) `{GoRange}.
Abbreviation Above := (Traced (Timed S)).

Definition srv_through (s : Server Above Report) : Server S Report :=
  mkServer (undecorated (srv_db s)) (outbox s) (srv_clock s) (srv_ticks s).
Definition web_through (w : Web Above Report) : Web S Report :=
  mkWeb (srv_through (web_srv w)) (web_calls w) (web_rand w) (web_draws w) (web_http w) (web_posts w).

Lemma db_through {A} (c : DBCall A) : through srv_through (db (H := MustNew d) c) (db (H := d) c).
Proof. apply (through_zoom _ undecorated); [done..|]. apply MustNew_through. Qed.
Lemma on_srv_through {A} (m' : M (Server Above Report) error A) m : through srv_through m' m -> through web_through (on_srv m') (on_srv m).
Proof. by apply through_zoom. Qed.
Lemma on_http_through {A} (m : M sessions.Response error A) : through web_through (on_http m) (on_http m).
Proof. apply (through_zoom _ id); [done..|]. intros u. unfold id. by destruct (m u). Qed.
Lemma on_procurement_through {A} (m : M (list procurement.Post) error A) : through web_through (on_procurement m) (on_procurement m).
Proof. apply (through_zoom _ id); [done..|]. intros u. unfold id. by destruct (m u). Qed.
Lemma now_through : through srv_through srv_Now srv_Now.
Proof. done. Qed.
Lemma rand_through : through web_through Intn100 Intn100.
Proof. done. Qed.
Lemma send_through emailer m : through srv_through (send emailer m) (send emailer m).
Proof. intros s. unfold send. by destruct (emailer m). Qed.
End api.

#[export] Hint Resolve db_through on_srv_through on_http_through on_procurement_through now_through rand_through send_through : through.

Ltac head_of t := match t with ?f _ => head_of f | _ => t end.
Ltac through_step :=
  match goal with
  | |- forall _, _ => intros ?
  | |- through _ (bind _ _) _ => apply through_bind
  | |- through _ (try _) _ => apply through_try
  | |- through _ (for_each _ _) _ => apply through_for_each
  | |- through _ (fold_m _ _ _) _ => apply through_fold
  | |- through _ (on_srv _) _ => apply on_srv_through
  | |- through _ (modify _) _ => apply through_modify; done
  | |- through _ (match ?x with _ => _ end) _ => destruct x
  | |- through _ _ _ => solve [auto 2 with through]
  | |- through _ ?m ?m' => let h := head_of m in let h' := head_of m' in constr_eq h h'; unfold h
  end.
Ltac through_auto := repeat through_step.

Section loops.
Context {S Report : Type}.
Abbreviation Above := (Traced (Timed S)).
Abbreviation srv := (@srv_through S Report).
Abbreviation web := (@web_through S Report).

Lemma has_permission_through p l : through srv (has_permission p l) (has_permission p l).
Proof. induction l as [|x l IH]; simpl; through_auto. Qed.
Lemma lookup_org_loop_through e u action l : through srv (lookup_org_loop e u action l) (lookup_org_loop e u action l).
Proof. induction l as [|x l IH]; simpl; [through_auto|]. destruct (decide _); [|done]. through_auto. Qed.
Lemma find_user_team_through l e : through web (find_user_team l e) (find_user_team l e).
Proof. induction l as [|x l IH]; simpl; through_auto. Qed.
Lemma renderPermissions_through l : through web (renderPermissions l) (renderPermissions l).
Proof. induction l as [|x l IH]; simpl; through_auto. Qed.
End loops.
#[export] Hint Resolve has_permission_through lookup_org_loop_through find_user_team_through renderPermissions_through : through.

Section client.
Context {S Report : Type} (d : DBImpl S) `{GoRange}.
Variable sessions_Decode : string -> error + sessions.Session.

Lemma grpc_through {A} (c : Middleware.ClientCall A) :
  through (@srv_through S Report) (Middleware.grpc_client (H := MustNew d) sessions_Decode A c) (Middleware.grpc_client (H := d) sessions_Decode A c).
Proof. destruct c; cbn [Middleware.grpc_client]; through_auto. Qed.

Variable answer : Effect -> option error.
Variable emailer : Mail Report -> option error.
Variable forceFeatureFlags : list string.
Variable encoder_Decode : time.Time -> string -> error + sessions.Session.
Variable FindBillingAccountByTeamID : string -> error + string.
Variable percentage : Z.
Variable usersSyncClient : bool.
Variables (stripHTML sha1_hex : string -> string).
Variable marketoMunchkinKey : string.
Variable ParseJWT : string -> error + string.
Variable ProviderID : string.
Variable http_list : string -> procurement.Reply (option procurement.APIError * list procurement.Entitlement).
Variable http_post : procurement.Post -> procurement.Reply (option procurement.APIError).

Lemma ServeHTTP_through cookies req :
  through (@web_through S Report)
    (ServeHTTP (H := MustNew d) answer emailer forceFeatureFlags encoder_Decode FindBillingAccountByTeamID percentage usersSyncClient stripHTML sha1_hex marketoMunchkinKey ParseJWT ProviderID http_list http_post cookies req)
    (ServeHTTP (H := d) answer emailer forceFeatureFlags encoder_Decode FindBillingAccountByTeamID percentage usersSyncClient stripHTML sha1_hex marketoMunchkinKey ParseJWT ProviderID http_list http_post cookies req).
Proof.
  unfold ServeHTTP, authenticateUser. cbn [authenticateVia]. apply through_bind; [apply through_try; through_auto|]. intros [err|u]; [through_auto|].
  unfold serve. apply through_bind; [apply through_try|through_auto].
  destruct req; cbn [dispatch]; unfold as_; (apply through_bind; [|through_auto]).
  all: through_auto.
Qed.

(** Requests served one after the other. *)
Fixpoint serve_all {D} (db : DBImpl D) (reqs : list (list sessions.Cookie * Request)) (w : Web D Report) : list (outcome error (Reply Content)) * Web D Report :=
  match reqs with
  | [] => ([], w)
  | (cookies, req) :: reqs =>
      let '(reply, w) := ServeHTTP (H := db) answer emailer forceFeatureFlags encoder_Decode FindBillingAccountByTeamID percentage
        usersSyncClient stripHTML sha1_hex marketoMunchkinKey ParseJWT ProviderID http_list http_post cookies req w in
      let '(replies, w) := serve_all db reqs w in (reply :: replies, w)
  end.

Lemma serve_all_through reqs (w : Web (Traced (Timed S)) Report) :
  serve_all d reqs (web_through w) = ((serve_all (MustNew d) reqs w).1, web_through (serve_all (MustNew d) reqs w).2).
Proof.
  revert w. induction reqs as [|[cookies req] reqs IH]; intros w; [done|]. simpl.
  rewrite ServeHTTP_through. destruct (ServeHTTP (H := MustNew d) _ _ _ _ _ _ _ _ _ _ _ _ _ _ _ _ w) as [o w']. simpl.
  rewrite IH. by destruct (serve_all (MustNew d) reqs w').
Qed.

(** C36: the database of the service, which is the implementation behind the decorators that time and
    trace it, is equivalent to the implementation: every call has the same outcome and the
    same effect, the histogram gets one observation, under the name of the method but for one that is
    misspelt and with the code of the error, when the call returns, the log gets one line, also when
    it panics; and any sequence of requests to the HTTP API of the users
    service gets the same replies, e-mails and effects with either. *)
Theorem MustNew_equivalent :
  (forall A (c : DBCall A) s, let '(o, s') := MustNew d A c s in
    d A c (undecorated s) = (o, undecorated s') /\
    tm_observed (tr_d s') = tm_observed (tr_d s) ++
      match o with
      | Ret _ => [(operation c, "200")]
      | Err e => [(operation c, errorCode (Some e))]
      | _ => []
      end /\
    exists lines, tr_log s' = tr_log s ++ lines /\
      lines.*1 = match o with Deadlock | OutOfFuel => [] | _ => [method_name c] end) /\
  (forall reqs w, serve_all d reqs (web_through w) = ((serve_all (MustNew d) reqs w).1, web_through (serve_all (MustNew d) reqs w).2)).
Proof.
  split; [|intros reqs w; apply serve_all_through]. intros A c s. pose proof (MustNew_through d c s) as Hthrough.
  pose proof (MustNew_logs d c s) as Hlogs. destruct (MustNew d A c s) as [o s']. split; [done|]. exact Hlogs.
Qed.
End client.
