(* ===== verification/Ledger.v ===== *)
(** The database of the billing services (billing-api/db/db.go, billing-api/db/memory.go): the
    interface as a type of calls, and the in-memory implementation. *)
From Stdlib Require Import ZArith Lia Ascii String.
From stdpp Require Import base tactics option gmap strings list pretty.
From S2P Require Import Prelude GoStd Users Calendar.

(** * Data (db.go) *)

Record Aggregate : Type := mkAggregate {
  a_ID : Z;
  a_InstanceID : string;
  a_BucketStart : time.Time;
  a_AmountType : string;
  a_AmountValue : Z;
  a_CreatedAt : time.Time;
  a_UploadID : Z }.
#[export] Instance Aggregate_eq_dec : EqDecision Aggregate.
Proof. solve_decision. Defined.

Definition set_UploadID (id : Z) (a : Aggregate) : Aggregate :=
  mkAggregate (a_ID a) (a_InstanceID a) (a_BucketStart a) (a_AmountType a) (a_AmountValue a) (a_CreatedAt a) id.
Definition set_AmountValue (v : Z) (a : Aggregate) : Aggregate :=
  mkAggregate (a_ID a) (a_InstanceID a) (a_BucketStart a) (a_AmountType a) v (a_CreatedAt a) (a_UploadID a).

Record UsageUpload : Type := mkUsageUpload { uu_ID : Z; uu_Uploader : string }.
Record PostTrialInvoice : Type := mkPostTrialInvoice {
  pt_ExternalID : string; pt_ZuoraAccountNumber : string; pt_UsageImportID : string; pt_CreatedAt : time.Time }.

(** [BillingAccount] of common/billing/grpc/billing.proto *)
Record BillingAccount : Type := mkBillingAccount { ba_ID : Z; ba_CreatedAt : time.Time; ba_DeletedAt : time.Time; ba_Provider : string }.
Definition provider_External : string := "external".
Definition BilledExternally (b : option BillingAccount) : bool :=
  match b with None => false | Some b => bool_decide (ba_Provider b = provider_External) end.

(** The methods of [DB]; [Transaction] is [Ledger_Transaction] below. *)
Inductive LedgerCall : Type -> Type :=
  | CallInsertAggregates (aggregates : list Aggregate) : LedgerCall unit
  | CallGetAggregates (instanceID : string) (from through : time.Time) : LedgerCall (list Aggregate)
  | CallGetAggregatesToUpload (instanceID : string) (from through : time.Time) : LedgerCall (list Aggregate)
  | CallGetAggregatesUploaded (uploadID : Z) : LedgerCall (list Aggregate)
  | CallGetAggregatesFrom (instanceIDs : list string) (from : time.Time) : LedgerCall (list Aggregate)
  | CallInsertUsageUpload (uploader : string) (aggregateIDs : list Z) : LedgerCall Z
  | CallDeleteUsageUpload (uploader : string) (uploadID : Z) : LedgerCall unit
  | CallGetLatestUsageUpload (uploader : string) : LedgerCall (option UsageUpload)
  | CallGetMonthSums (instanceIDs : list string) (from through : time.Time) : LedgerCall (gmap string (list Aggregate))
  | CallInsertPostTrialInvoice (externalID zuoraAccountNumber usageImportID : string) : LedgerCall unit
  | CallGetPostTrialInvoices : LedgerCall (list PostTrialInvoice)
  | CallDeletePostTrialInvoice (usageImportID : string) : LedgerCall unit
  | CallFindBillingAccountByTeamID (teamID : string) : LedgerCall (option BillingAccount)
  | CallSetTeamBillingAccountProvider (teamID providerName : string) : LedgerCall BillingAccount.

Class LedgerImpl (S : Type) := ledger_call : forall {A}, LedgerCall A -> M S error A.

(** * The in-memory implementation (memory.go) *)

(** A [sync.RWMutex], for one goroutine: how many times it is held for reading, and whether
    it is held for writing. *)
Record RWMutex : Type := mkRWMutex { rw_readers : nat; rw_writer : bool }.
Definition unlocked : RWMutex := mkRWMutex 0 false.

Record Ledger : Type := mkLedger {
  l_mtx : RWMutex;
  aggregatesSet : gmap Z Aggregate;
  uploads : list (option UsageUpload);
  postTrialInvoices : gmap string PostTrialInvoice;
  billingAccountsByTeamID : gmap string BillingAccount;
  l_clock : nat -> time.Time;
  l_ticks : nat }.

Definition set_l_mtx (m : RWMutex) (d : Ledger) : Ledger :=
  mkLedger m (aggregatesSet d) (uploads d) (postTrialInvoices d) (billingAccountsByTeamID d) (l_clock d) (l_ticks d).
Definition set_aggregatesSet (m : gmap Z Aggregate) (d : Ledger) : Ledger :=
  mkLedger (l_mtx d) m (uploads d) (postTrialInvoices d) (billingAccountsByTeamID d) (l_clock d) (l_ticks d).
Definition set_uploads (l : list (option UsageUpload)) (d : Ledger) : Ledger :=
  mkLedger (l_mtx d) (aggregatesSet d) l (postTrialInvoices d) (billingAccountsByTeamID d) (l_clock d) (l_ticks d).
Definition set_postTrialInvoices (m : gmap string PostTrialInvoice) (d : Ledger) : Ledger :=
  mkLedger (l_mtx d) (aggregatesSet d) (uploads d) m (billingAccountsByTeamID d) (l_clock d) (l_ticks d).
Definition set_billingAccounts (m : gmap string BillingAccount) (d : Ledger) : Ledger :=
  mkLedger (l_mtx d) (aggregatesSet d) (uploads d) (postTrialInvoices d) m (l_clock d) (l_ticks d).

(** [newMemory] *)
Definition newMemory (clock : nat -> time.Time) : Ledger := mkLedger unlocked ∅ [] ∅ ∅ clock 0.

(** What Go leaves open: the order of a map with integer keys, and what [sort.Slice] makes of
    a slice when the comparison is not an order, as that of [sortAggregates] is not. *)
Class GoOrders := {
  range_int : forall {V : Type}, gmap Z V -> list (Z * V);
  range_int_perm : forall V (m : gmap Z V), range_int m ≡ₚ map_to_list m;
  sort_Slice : forall {A : Type}, (A -> A -> bool) -> list A -> list A;
  sort_Slice_perm : forall A (less : A -> A -> bool) l, sort_Slice less l ≡ₚ l;
}.

(** The orders the examples are run with. *)
Definition list_orders : GoOrders :=
  {| range_int := fun V m => map_to_list m; range_int_perm := fun V m => reflexivity _;
     sort_Slice := fun A less l => sort.Sort less l; sort_Slice_perm := fun A less l => sort.Sort_perm less l |}.

Section memory.
Context `{GoOrders} `{GoRange}.
Abbreviation Op := (M Ledger error).

Definition ledger_Now : Op time.Time := fun d =>
  (Ret (l_clock d (l_ticks d)),
   mkLedger (l_mtx d) (aggregatesSet d) (uploads d) (postTrialInvoices d) (billingAccountsByTeamID d) (l_clock d) (S (l_ticks d))).

(** [mtx.Lock(); defer mtx.Unlock()] and [mtx.RLock(); defer mtx.RUnlock()] *)
Definition with_mutex {A} (enter leave : RWMutex -> RWMutex) (body : Op A) : Op A := fun d =>
  let '(o, d') := body (set_l_mtx (enter (l_mtx d)) d) in
  match o with
  | Deadlock => (Deadlock, d')
  | OutOfFuel => (OutOfFuel, d')
  | _ => (o, set_l_mtx (leave (l_mtx d')) d')
  end.
Definition write_locked {A} (body : Op A) : Op A := fun d =>
  if rw_writer (l_mtx d) || (0 <? rw_readers (l_mtx d))%nat then (Deadlock, d)
  else with_mutex (fun m => mkRWMutex (rw_readers m) true) (fun m => mkRWMutex (rw_readers m) false) body d.
Definition read_locked {A} (body : Op A) : Op A := fun d =>
  if rw_writer (l_mtx d) then (Deadlock, d)
  else with_mutex (fun m => mkRWMutex (S (rw_readers m)) (rw_writer m)) (fun m => mkRWMutex (pred (rw_readers m)) (rw_writer m)) body d.

(** [InsertAggregates]: the records before a duplicate stay. *)
Definition last_id (m : gmap Z Aggregate) : Z := foldl (fun lastid a => if lastid <? a_ID a then a_ID a else lastid) 0 (range_int m).*2.
Fixpoint insert_loop (now : time.Time) (lastid : Z) (l : list Aggregate) : Op unit :=
  match l with
  | [] => ret tt
  | a :: l' =>
      let lastid := lastid + 1 in
      do set <- gets aggregatesSet;
      match set !! lastid with
      | Some _ => throw (ErrMsg "duplicate aggregate")
      | None =>
          modify (set_aggregatesSet (<[lastid := mkAggregate lastid (a_InstanceID a) (a_BucketStart a) (a_AmountType a) (a_AmountValue a) now (a_UploadID a)]> set)) ;;;
          insert_loop now lastid l'
      end
  end.
Definition InsertAggregates (aggregates : list Aggregate) : Op unit := write_locked (
  do now <- ledger_Now;
  do set <- gets aggregatesSet;
  insert_loop now (last_id set) aggregates).

(** [sortAggregates]: each comparison that fails hands over to the next. *)
Definition string_lt (a b : string) : bool := match String.compare a b with Lt => true | _ => false end.
Definition aggregate_less (a b : Aggregate) : bool :=
  time.Before (a_BucketStart a) (a_BucketStart b) || string_lt (a_AmountType a) (a_AmountType b)
  || time.Before (a_CreatedAt a) (a_CreatedAt b) || (a_ID a <? a_ID b).
Definition sortAggregates (l : list Aggregate) : list Aggregate := sort_Slice aggregate_less l.

Definition select (f : Aggregate -> bool) : Op (list Aggregate) :=
  do set <- gets aggregatesSet;
  ret (filter (fun a => f a = true) (range_int set).*2).

Definition in_period (instanceID : string) (from through : time.Time) (a : Aggregate) : bool :=
  negb (time.Before (a_BucketStart a) from || time.After (a_BucketStart a) through) && bool_decide (a_InstanceID a = instanceID).
Definition GetAggregates (instanceID : string) (from through : time.Time) : Op (list Aggregate) := read_locked (
  do result <- select (in_period instanceID from through);
  ret (sortAggregates result)).

(** [GetAggregatesToUpload] takes the lock again in [GetAggregates]. *)
Definition GetAggregatesToUpload (instanceID : string) (from through : time.Time) : Op (list Aggregate) := read_locked (
  do all <- GetAggregates instanceID from through;
  ret (filter (fun a => a_UploadID a = 0) all)).

Definition GetAggregatesUploaded (uploadID : Z) : Op (list Aggregate) := read_locked (
  do result <- select (fun a => a_UploadID a =? uploadID);
  ret (sortAggregates result)).

Definition GetAggregatesFrom (instanceIDs : list string) (from : time.Time) : Op (list Aggregate) := read_locked (
  do result <- select (fun a => bool_decide (a_InstanceID a ∈ instanceIDs) && negb (time.Before (a_BucketStart a) from));
  ret (sortAggregates result)).

(** [GetLatestUsageUpload]: the uploader is not looked at. *)
Definition GetLatestUsageUpload (uploader : string) : Op (option UsageUpload) := read_locked (
  do us <- gets uploads;
  ret (hd None (filter is_Some (rev us)))).

(** [InsertUsageUpload], [DeleteUsageUpload]: the map is written under the lock for reading. *)
Definition zero_aggregate : Aggregate := mkAggregate 0 EmptyString 0 EmptyString 0 0 0.
Definition link_aggregate (uploadID : Z) (set : gmap Z Aggregate) (id : Z) : gmap Z Aggregate :=
  <[id := set_UploadID uploadID (default zero_aggregate (set !! id))]> set.
Definition InsertUsageUpload (uploader : string) (aggregateIDs : list Z) : Op Z := read_locked (
  do us <- gets uploads;
  let uploadID := Z.of_nat (length us) + 1 in
  modify (set_uploads (us ++ [Some (mkUsageUpload uploadID uploader)])) ;;;
  modify (fun d => set_aggregatesSet (foldl (link_aggregate uploadID) (aggregatesSet d) aggregateIDs) d) ;;;
  ret uploadID).
Definition DeleteUsageUpload (uploader : string) (uploadID : Z) : Op unit := read_locked (
  do us <- gets uploads;
  if (uploadID <? 1) || (Z.of_nat (length us) <? uploadID) then panic
  else
    modify (set_uploads (<[Z.to_nat (uploadID - 1) := None]> us)) ;;;
    modify (fun d => set_aggregatesSet ((fun a => if a_UploadID a =? uploadID then set_UploadID 0 a else a) <$> aggregatesSet d) d)).

(** [GetMonthSums] *)
Definition month_start (t : time.Time) : time.Time := civil.Date (civil.Year t) (civil.Month t) 1.
Definition next_month_start (t : time.Time) : time.Time := civil.Date (civil.Year t) (civil.Month t + 1) 1.
Definition flush_sums (instanceID : string) (current : time.Time) (sums : gmap string Z) : list Aggregate :=
  (fun '(amountType, value) => mkAggregate 0 instanceID current amountType value 0 0) <$> go_range sums.
Definition add_sum (sums : gmap string Z) (amountType : string) (value : Z) : gmap string Z :=
  <[amountType := i64_wrap (default 0 (sums !! amountType) + value)]> sums.
Fixpoint month_sums (instanceID : string) (current : time.Time) (sums : gmap string Z) (l : list Aggregate) {struct l} : list Aggregate :=
  match l with
  | [] => flush_sums instanceID current sums
  | a :: l' =>
      if time.Before (next_month_start current) (a_BucketStart a)
      then flush_sums instanceID current sums
           ++ month_sums instanceID (month_start (a_BucketStart a)) (add_sum ∅ (a_AmountType a) (a_AmountValue a)) l'
      else month_sums instanceID current (add_sum sums (a_AmountType a) (a_AmountValue a)) l'
  end.
Definition add_sums (sums : gmap string (list Aggregate)) (instanceID : string) (l : list Aggregate) : gmap string (list Aggregate) :=
  <[instanceID := default [] (sums !! instanceID) ++ l]> sums.
Definition GetMonthSums (instanceIDs : list string) (from through : time.Time) : Op (gmap string (list Aggregate)) := read_locked (
  fold_m (fun (sums : gmap string (list Aggregate)) (instanceID : string) =>
    do aggs <- GetAggregates instanceID from through;
    match aggs with
    | [] => ret sums
    | a :: _ =>
        ret (match month_sums instanceID (month_start (a_BucketStart a)) ∅ aggs with
             | [] => sums
             | l => add_sums sums instanceID l
             end)
    end) instanceIDs (∅ : gmap string (list Aggregate))).

Definition InsertPostTrialInvoice (externalID zuoraAccountNumber usageImportID : string) : Op unit := write_locked (
  do now <- ledger_Now;
  modify (fun d => set_postTrialInvoices (<[usageImportID := mkPostTrialInvoice externalID zuoraAccountNumber usageImportID now]> (postTrialInvoices d)) d)).
Definition GetPostTrialInvoices : Op (list PostTrialInvoice) := read_locked (
  gets (fun d => (go_range (postTrialInvoices d)).*2)).
Definition DeletePostTrialInvoice (usageImportID : string) : Op unit := write_locked (
  modify (fun d => set_postTrialInvoices (delete usageImportID (postTrialInvoices d)) d)).

(** [FindBillingAccountByTeamID]: nil for a team without an account. *)
Definition FindBillingAccountByTeamID (teamID : string) : Op (option BillingAccount) := write_locked (
  gets (fun d => billingAccountsByTeamID d !! teamID)).
(** [SetTeamBillingAccountProvider]: the account of the team is dereferenced. *)
Definition SetTeamBillingAccountProvider (teamID providerName : string) : Op BillingAccount := write_locked (
  let providerName := if decide (providerName <> provider_External) then EmptyString else providerName in
  do account <- gets (fun d => billingAccountsByTeamID d !! teamID);
  do account <- deref account;
  let account := mkBillingAccount (ba_ID account) (ba_CreatedAt account) (ba_DeletedAt account) providerName in
  modify (fun d => set_billingAccounts (<[teamID := account]> (billingAccountsByTeamID d)) d) ;;;
  ret account).

(** [Transaction]: nothing is rolled back. *)
Definition Ledger_Transaction {A} (f : Op A) : Op A := f.

Definition ledger_memory : LedgerImpl Ledger := fun A c =>
  match c in LedgerCall A return Op A with
  | CallInsertAggregates l => InsertAggregates l
  | CallGetAggregates i from through => GetAggregates i from through
  | CallGetAggregatesToUpload i from through => GetAggregatesToUpload i from through
  | CallGetAggregatesUploaded id => GetAggregatesUploaded id
  | CallGetAggregatesFrom ids from => GetAggregatesFrom ids from
  | CallInsertUsageUpload uploader ids => InsertUsageUpload uploader ids
  | CallDeleteUsageUpload uploader id => DeleteUsageUpload uploader id
  | CallGetLatestUsageUpload uploader => GetLatestUsageUpload uploader
  | CallGetMonthSums ids from through => GetMonthSums ids from through
  | CallInsertPostTrialInvoice e n u => InsertPostTrialInvoice e n u
  | CallGetPostTrialInvoices => GetPostTrialInvoices
  | CallDeletePostTrialInvoice u => DeletePostTrialInvoice u
  | CallFindBillingAccountByTeamID t => FindBillingAccountByTeamID t
  | CallSetTeamBillingAccountProvider t p => SetTeamBillingAccountProvider t p
  end.

End memory.
