(* ===== verification/Aggregator.v ===== *)
(** The job of the billing aggregator (billing-aggregator/job/aggregate.go): it takes the usage
    that BigQuery has summed by hour and adds to the database what it does not hold yet. *)
From Stdlib Require Import ZArith Lia Ascii String.
From stdpp Require Import base tactics option gmap strings list pretty.
From S2P Require Import Prelude GoStd Users Ledger.

Definition batchSize : nat := 100.

(** [instanceIDs]: the slice is made with its length and appended to, so that as many empty
    identifiers come first. *)
Definition instanceIDs (aggs : list Aggregate) : list string := replicate (length aggs) EmptyString ++ (a_InstanceID <$> aggs).

(** [key], [asKey], [sumByKey], [subtract] *)
Definition key : Type := string * time.Time * string.
Definition asKey (agg : Aggregate) : key := (a_InstanceID agg, a_BucketStart agg, a_AmountType agg).
Definition sumByKey (aggs : list Aggregate) : gmap key Z :=
  foldl (fun m agg => <[asKey agg := i64_wrap (default 0 (m !! asKey agg) + a_AmountValue agg)]> m) ∅ aggs.
Definition subtract (bqAggs dbAggs : list Aggregate) : list Aggregate :=
  let sums := sumByKey dbAggs in
  foldl (fun aggs bqAgg =>
    let bqAgg := set_AmountValue (i64_wrap (a_AmountValue bqAgg - default 0 (sums !! asKey bqAgg))) bqAgg in
    if 0 <? a_AmountValue bqAgg then aggs ++ [bqAgg] else aggs) [] bqAggs.

Section job.
Context {S : Type} `{LedgerImpl S}.
(** [bigquery.Client.Aggregates] *)
Variable bigquery_Aggregates : time.Time -> error + list Aggregate.

Abbreviation Job := (M S error).

(** One round of the loop. *)
Definition insert_batch (since : time.Time) (bqAggs : list Aggregate) : Job unit :=
  do dbAggs <- ledger_call (CallGetAggregatesFrom (instanceIDs bqAggs) since);
  ledger_call (CallInsertAggregates (subtract bqAggs dbAggs)).

(** [for i := 0; i < len(aggs); i += batchSize] *)
Fixpoint insert_batches (fuel : nat) (since : time.Time) (aggs : list Aggregate) : Job unit :=
  match aggs with
  | [] => ret tt
  | _ =>
      match fuel with
      | O => out_of_fuel
      | Datatypes.S fuel =>
          insert_batch since (take batchSize aggs) ;;;
          insert_batches fuel since (drop batchSize aggs)
      end
  end.

(** [Do], at an instant; without a time to start from, the full hour six hours before. *)
Definition aligned (now : time.Time) (since : option time.Time) : time.Time :=
  match since with
  | None => time.Truncate (time.Add now (-6 * time.Hour)) time.Hour
  | Some since => time.Truncate since time.Hour
  end.
Definition aggregator_Do (now : time.Time) (since : option time.Time) : Job unit :=
  let since := aligned now since in
  match bigquery_Aggregates since with
  | inl err => throw err
  | inr aggs => insert_batches (length aggs) since aggs
  end.
End job.

Example six_hours : aligned (100 * time.Hour + 5) None = 94 * time.Hour.
Proof. vm_compute. reflexivity. Qed.
