(* ===== verification/LedgerSpec.v ===== *)
(** What the billing jobs rely on in the database of the billing services, as a class, and the
    proof that the in-memory implementation keeps to it. *)
From Stdlib Require Import ZArith Lia Ascii String.
From stdpp Require Import base tactics option gmap strings list pretty.
From S2P Require Import Prelude GoStd Users Calendar Ledger.

(** * Amounts of usage *)

(** The usage of the aggregates in [P]. *)
Definition usage (P : Aggregate -> Prop) `{forall a, Decision (P a)} (l : list Aggregate) : Z :=
  foldr (fun a n => (if decide (P a) then a_AmountValue a else 0) + n) 0 l.

Section usage.
Context (P : Aggregate -> Prop) `{forall a, Decision (P a)}.

Lemma usage_app l1 l2 : usage P (l1 ++ l2) = usage P l1 + usage P l2.
Proof. unfold usage. induction l1 as [|a l1 IH]; simpl; [lia|]. rewrite IH. lia. Qed.
#[export] Instance usage_perm : Proper ((≡ₚ) ==> (=)) (usage P).
Proof. unfold usage. intros l1 l2 Hl. induction Hl; simpl; lia. Qed.
Lemma usage_none l : (forall a, a ∈ l -> ~ P a) -> usage P l = 0.
Proof.
  unfold usage. induction l as [|a l IH]; simpl; intros Hno; [done|]. rewrite decide_False by (apply Hno; by left).
  rewrite IH; [done|]. intros b Hb. apply Hno. by right.
Qed.
Lemma usage_filter (f : Aggregate -> Prop) `{forall a, Decision (f a)} l : (forall a, a ∈ l -> P a -> f a) -> usage P (filter f l) = usage P l.
Proof.
  induction l as [|a l IH]; intros Hf; [done|]. rewrite filter_cons. unfold usage in *. simpl.
  assert (IH' : forall b, b ∈ l -> P b -> f b) by (intros b Hb; apply Hf; by right). specialize (IH IH').
  destruct (decide (f a)) as [Ha|Ha]; simpl; [by rewrite IH|].
  rewrite decide_False; [by rewrite IH|]. intros HP. apply Ha, Hf; [by left|done].
Qed.
Lemma usage_ext (Q : Aggregate -> Prop) `{forall a, Decision (Q a)} l : (forall a, a ∈ l -> P a <-> Q a) -> usage P l = usage Q l.
Proof.
  unfold usage. induction l as [|a l IH]; simpl; intros Hiff; [done|]. rewrite IH by (intros b Hb; apply Hiff; by right). f_equal.
  specialize (Hiff a ltac:(by left)). repeat case_decide; tauto.
Qed.
Lemma usage_mono (Q : Aggregate -> Prop) `{forall a, Decision (Q a)} l : Forall (fun a => 0 <= a_AmountValue a) l ->
  (forall a, a ∈ l -> P a -> Q a) -> usage P l <= usage Q l.
Proof.
  unfold usage. induction 1 as [|a l Ha _ IH]; simpl; intros Himp; [done|]. specialize (IH ltac:(intros b Hb; apply Himp; by right)).
  specialize (Himp a ltac:(by left)). repeat case_decide; tauto || lia.
Qed.
Lemma usage_nonneg l : Forall (fun a => 0 <= a_AmountValue a) l -> 0 <= usage P l.
Proof. unfold usage. induction 1 as [|a l Ha _ IH]; simpl; [done|]. case_decide; lia. Qed.
End usage.

(** ** Sums by key, on 64-bit words *)

Lemma i64_wrap_add x y : i64_wrap (i64_wrap x + y) = i64_wrap (x + y).
Proof.
  unfold i64_wrap. replace ((x + 2 ^ 63) mod 2 ^ 64 - 2 ^ 63 + y + 2 ^ 63) with ((x + 2 ^ 63) mod 2 ^ 64 + y) by ring.
  replace (x + y + 2 ^ 63) with (x + 2 ^ 63 + y) by ring. by rewrite Zplus_mod_idemp_l.
Qed.
Lemma i64_wrap_idemp x : i64_wrap (i64_wrap x) = i64_wrap x.
Proof. pose proof (i64_wrap_add x 0) as Hx. by rewrite !Z.add_0_r in Hx. Qed.
Lemma i64_wrap_small x : - 2 ^ 63 <= x < 2 ^ 63 -> i64_wrap x = x.
Proof. intros Hx. unfold i64_wrap. rewrite Z.mod_small; lia. Qed.

Section sum_by.
Context {K : Type} `{Countable K} (f : Aggregate -> K).

Definition sum_by : list Aggregate -> gmap K Z :=
  foldl (fun m a => <[f a := i64_wrap (default 0 (m !! f a) + a_AmountValue a)]> m) ∅.

Lemma usage_cons k a l : usage (fun a => f a = k) (a :: l) = (if decide (f a = k) then a_AmountValue a else 0) + usage (fun a => f a = k) l.
Proof. done. Qed.
Lemma sum_by_lookup k l : default 0 (sum_by l !! k) = i64_wrap (usage (fun a => f a = k) l).
Proof.
  assert (Hgen : forall m : gmap K Z, default 0 (m !! k) = i64_wrap (default 0 (m !! k)) ->
    default 0 (foldl (fun (m : gmap K Z) a => <[f a := i64_wrap (default 0 (m !! f a) + a_AmountValue a)]> m) m l !! k)
    = i64_wrap (default 0 (m !! k) + usage (fun a => f a = k) l)).
  { induction l as [|a l IH]; intros m Hm; cbn [foldl]; [by rewrite Z.add_0_r|]. rewrite usage_cons.
    destruct (decide (f a = k)) as [->|Hne].
    - rewrite IH; rewrite lookup_insert_eq; simpl; [|by rewrite i64_wrap_idemp].
      rewrite i64_wrap_add. f_equal. ring.
    - rewrite IH; rewrite lookup_insert_ne by done; [|done]. f_equal. }
  unfold sum_by. by rewrite Hgen.
Qed.
Lemma sum_by_keys k l : is_Some (sum_by l !! k) <-> k ∈ f <$> l.
Proof.
  assert (Hgen : forall m : gmap K Z, is_Some (foldl (fun (m : gmap K Z) a => <[f a := i64_wrap (default 0 (m !! f a) + a_AmountValue a)]> m) m l !! k)
    <-> is_Some (m !! k) \/ k ∈ f <$> l).
  { induction l as [|a l IH]; intros m; simpl; [rewrite elem_of_nil; tauto|]. rewrite IH, lookup_insert_is_Some', elem_of_cons. intuition auto. }
  unfold sum_by. rewrite Hgen, lookup_empty. split; [intros [[? ?]|?]; done|by right].
Qed.
End sum_by.

(** * The interface *)

(** What an aggregate says, without the fields the database gives it. *)
Definition record_of (a : Aggregate) : string * time.Time * string * Z * Z :=
  (a_InstanceID a, a_BucketStart a, a_AmountType a, a_AmountValue a, a_UploadID a).
Definition entries (m : gmap Z Aggregate) : list Aggregate := (map_to_list m).*2.

(** Aggregates [ids] belong to the upload [uploadID]; those of an upload are released. *)
Definition linked (uploadID : Z) (ids : list Z) (m : gmap Z Aggregate) : gmap Z Aggregate :=
  map_imap (fun id a => Some (if decide (id ∈ ids) then set_UploadID uploadID a else a)) m.
Definition released (uploadID : Z) (m : gmap Z Aggregate) : gmap Z Aggregate :=
  (fun a => if a_UploadID a =? uploadID then set_UploadID 0 a else a) <$> m.

Definition to_upload (instanceID : string) (from through : time.Time) (a : Aggregate) : Prop :=
  a_InstanceID a = instanceID /\ from <= a_BucketStart a < through /\ a_UploadID a = 0.

(** What there is to see of a database: its aggregates, the post-trial invoices, the uploads that
    can be deleted. *)
Class LedgerView (S : Type) := {
  ledger_ok : S -> Prop;
  contents : S -> gmap Z Aggregate;
  invoices : S -> gmap string PostTrialInvoice;
  open_upload : S -> Z -> Prop;
}.

(** Nothing to see has changed. *)
Definition unchanged {S} `{LedgerView S} (s s' : S) : Prop :=
  ledger_ok s' /\ contents s' = contents s /\ invoices s' = invoices s /\ (forall id, open_upload s id -> open_upload s' id).

Class LawfulLedger (S : Type) `{LedgerImpl S} `{LedgerView S} := {
  contents_keyed : forall s id a, ledger_ok s -> contents s !! id = Some a -> a_ID a = id;
  law_GetAggregatesFrom : forall s ids from, ledger_ok s ->
    exists l s', ledger_call (CallGetAggregatesFrom ids from) s = (Ret l, s') /\ unchanged s s' /\
      l ≡ₚ filter (fun a => a_InstanceID a ∈ ids /\ from <= a_BucketStart a) (entries (contents s));
  law_InsertAggregates : forall s l, ledger_ok s -> Forall (fun a => a_UploadID a = 0) l ->
    exists o s', ledger_call (CallInsertAggregates l) s = (o, s') /\ ledger_ok s' /\ invoices s' = invoices s /\
      match o with
      | Ret _ => exists new, contents s' = new ∪ contents s /\ new ##ₘ contents s /\ record_of <$> entries new ≡ₚ record_of <$> l
      | Err _ => contents s' = contents s
      | _ => False
      end;
  law_GetAggregatesToUpload : forall s i from through, ledger_ok s ->
    exists l s', ledger_call (CallGetAggregatesToUpload i from through) s = (Ret l, s') /\ unchanged s s' /\ NoDup (a_ID <$> l) /\
      (forall a, a ∈ l -> contents s !! a_ID a = Some a /\ a_InstanceID a = i /\ from <= a_BucketStart a <= through /\ a_UploadID a = 0) /\
      (forall id a, contents s !! id = Some a -> to_upload i from through a -> a ∈ l);
  law_InsertUsageUpload : forall s u ids, ledger_ok s -> Forall (fun id => is_Some (contents s !! id)) ids ->
    exists o s', ledger_call (CallInsertUsageUpload u ids) s = (o, s') /\ ledger_ok s' /\ invoices s' = invoices s /\
      match o with
      | Ret uploadID => uploadID <> 0 /\ map_Forall (fun _ a => a_UploadID a <> uploadID) (contents s) /\
          open_upload s' uploadID /\ contents s' = linked uploadID ids (contents s)
      | Err _ => contents s' = contents s
      | _ => False
      end;
  law_DeleteUsageUpload : forall s u id, ledger_ok s -> open_upload s id ->
    exists o s', ledger_call (CallDeleteUsageUpload u id) s = (o, s') /\ ledger_ok s' /\ invoices s' = invoices s /\
      match o with
      | Ret _ => contents s' = released id (contents s)
      | Err _ => contents s' = contents s
      | _ => False
      end;
  law_GetPostTrialInvoices : forall s, ledger_ok s ->
    exists l s', ledger_call CallGetPostTrialInvoices s = (Ret l, s') /\ unchanged s s' /\ l ≡ₚ (map_to_list (invoices s)).*2;
  law_DeletePostTrialInvoice : forall s u, ledger_ok s ->
    exists o s', ledger_call (CallDeletePostTrialInvoice u) s = (o, s') /\ ledger_ok s' /\ contents s' = contents s /\
      match o with
      | Ret _ => invoices s' = delete u (invoices s)
      | Err _ => invoices s' = invoices s
      | _ => False
      end;
}.

(** ** Consequences *)

Lemma linked_lookup uploadID ids m id : linked uploadID ids m !! id = (fun a => if decide (id ∈ ids) then set_UploadID uploadID a else a) <$> m !! id.
Proof. unfold linked. rewrite map_lookup_imap. by destruct (m !! id). Qed.

(** Releasing the upload that was just linked undoes it, when what was linked was free. *)
Lemma released_linked uploadID ids m :
  map_Forall (fun _ a => a_UploadID a <> uploadID) m ->
  (forall id a, id ∈ ids -> m !! id = Some a -> a_UploadID a = 0) ->
  released uploadID (linked uploadID ids m) = m.
Proof.
  intros Hfree Hzero. apply map_eq. intros id. unfold released. rewrite lookup_fmap, linked_lookup.
  destruct (m !! id) as [a|] eqn:Ha; simpl; [|done]. f_equal. case_decide as Hin; simpl.
  - rewrite Z.eqb_refl. specialize (Hzero _ _ Hin Ha). destruct a. unfold set_UploadID. simpl in *. by subst.
  - specialize (Hfree _ _ Ha). by rewrite (proj2 (Z.eqb_neq _ _) Hfree).
Qed.

Lemma entries_insert m id a : m !! id = None -> entries (<[id := a]> m) ≡ₚ a :: entries m.
Proof. intros Hid. unfold entries. rewrite map_to_list_insert by done. by rewrite fmap_cons. Qed.
Lemma entries_union m1 m2 : m1 ##ₘ m2 -> entries (m1 ∪ m2) ≡ₚ entries m1 ++ entries m2.
Proof.
  induction m1 as [|id a m1 Hid _ IH] using map_first_key_ind; intros Hd; [by rewrite map_empty_union|].
  apply map_disjoint_insert_l in Hd as [Hid2 Hd]. rewrite <- insert_union_l.
  rewrite entries_insert by by apply lookup_union_None. rewrite (entries_insert m1) by done. simpl. by rewrite IH.
Qed.
Lemma elem_of_entries m a : a ∈ entries m <-> exists id, m !! id = Some a.
Proof.
  unfold entries. rewrite list_elem_of_fmap. setoid_rewrite <- elem_of_map_to_list. split.
  - intros ([id b] & -> & Hb). by exists id.
  - intros (id & Hid). by exists (id, a).
Qed.

Lemma NoDup_fmap_filter {A B} (f : A -> B) (P : A -> Prop) `{forall a, Decision (P a)} l : NoDup (f <$> l) -> NoDup (f <$> filter P l).
Proof.
  induction l as [|a l IH]; intros Hnd; [constructor|]. rewrite filter_cons. apply NoDup_cons in Hnd as [Hnot Hnd].
  case_decide; [|by apply IH]. simpl. constructor; [|by apply IH]. intros (b & Hb & Hin)%list_elem_of_fmap. apply Hnot.
  apply list_elem_of_filter in Hin as [_ Hin]. rewrite Hb. by apply list_elem_of_fmap_2.
Qed.
Lemma NoDup_entries m : (forall id a, m !! id = Some a -> a_ID a = id) -> NoDup (a_ID <$> entries m).
Proof.
  intros Hkey. unfold entries. rewrite <- list_fmap_compose. rewrite (list_fmap_ext _ fst); [apply NoDup_fst_map_to_list|].
  intros i [id a] Hi. simpl. apply Hkey, elem_of_map_to_list. by eapply list_elem_of_lookup_2.
Qed.

(** * The in-memory database *)

Section memory.
Context `{GoOrders} `{GoRange}.
#[local] Instance memory_ledger : LedgerImpl Ledger := ledger_memory.

Record memory_ok (d : Ledger) : Prop := {
  ok_unlocked : l_mtx d = unlocked;
  ok_keyed : forall id a, aggregatesSet d !! id = Some a -> a_ID a = id;
  ok_uploads : forall id a, aggregatesSet d !! id = Some a -> 0 <= a_UploadID a <= Z.of_nat (length (uploads d)) }.

Lemma set_l_mtx_twice m m' d : set_l_mtx m (set_l_mtx m' d) = set_l_mtx m d.
Proof. done. Qed.
Lemma set_l_mtx_same d : set_l_mtx (l_mtx d) d = d.
Proof. by destruct d. Qed.

(** A locked body, from an unlocked database. *)
Lemma read_locked_run {A} (body : M Ledger error A) d (o : outcome error A) d' : l_mtx d = unlocked ->
  body (set_l_mtx (mkRWMutex 1 false) d) = (o, set_l_mtx (mkRWMutex 1 false) d') -> definite o ->
  read_locked body d = (o, set_l_mtx unlocked d').
Proof. intros Hd Hb Ho. unfold read_locked, with_mutex. rewrite Hd. simpl. rewrite Hb. by destruct o. Qed.
Lemma write_locked_run {A} (body : M Ledger error A) d (o : outcome error A) d' : l_mtx d = unlocked ->
  body (set_l_mtx (mkRWMutex 0 true) d) = (o, set_l_mtx (mkRWMutex 0 true) d') -> definite o ->
  write_locked body d = (o, set_l_mtx unlocked d').
Proof. intros Hd Hb Ho. unfold write_locked, with_mutex. rewrite Hd. simpl. rewrite Hb. by destruct o. Qed.

Lemma range_entries (m : gmap Z Aggregate) : (range_int m).*2 ≡ₚ entries m.
Proof. unfold entries. by rewrite range_int_perm. Qed.

Lemma GetAggregatesFrom_run ids from d : memory_ok d ->
  exists l, GetAggregatesFrom ids from d = (Ret l, d) /\ l ≡ₚ filter (fun a => a_InstanceID a ∈ ids /\ from <= a_BucketStart a) (entries (aggregatesSet d)).
Proof.
  intros [Hu _ _]. eexists. split.
  - unfold GetAggregatesFrom. erewrite (read_locked_run _ d _ d) by done. by rewrite <- Hu, set_l_mtx_same.
  - cbn. unfold sortAggregates. rewrite sort_Slice_perm, <- range_entries. rewrite (list_filter_iff _ (fun a => a_InstanceID a ∈ ids /\ from <= a_BucketStart a)); [done|]. intros a.
    rewrite andb_true_iff, bool_decide_eq_true, negb_true_iff. unfold time.Before. by rewrite Z.ltb_ge.
Qed.

Lemma GetAggregatesToUpload_run i from through d : memory_ok d ->
  exists l, GetAggregatesToUpload i from through d = (Ret l, d) /\ NoDup (a_ID <$> l) /\
    (forall a, a ∈ l -> aggregatesSet d !! a_ID a = Some a /\ a_InstanceID a = i /\ from <= a_BucketStart a <= through /\ a_UploadID a = 0) /\
    (forall id a, aggregatesSet d !! id = Some a -> to_upload i from through a -> a ∈ l).
Proof.
  intros [Hu Hkey _]. set (all := sortAggregates (filter (fun a => in_period i from through a = true) (range_int (aggregatesSet d)).*2)).
  assert (Hall : forall a, a ∈ all <-> aggregatesSet d !! a_ID a = Some a /\ in_period i from through a = true).
  { intros a. unfold all, sortAggregates. rewrite sort_Slice_perm, list_elem_of_filter, range_entries, elem_of_entries.
    split; [intros [? [id Hid]]|intros [? ?]; split; [done|by eexists]]. by rewrite (Hkey _ _ Hid). }
  assert (Hperiod : forall a, in_period i from through a = true <-> from <= a_BucketStart a <= through /\ a_InstanceID a = i).
  { intros a. unfold in_period, time.Before, time.After. rewrite andb_true_iff, negb_orb, andb_true_iff, !negb_true_iff, !Z.ltb_ge, bool_decide_eq_true. tauto. }
  exists (filter (fun a => a_UploadID a = 0) all). split; [|split; [|split]].
  - unfold GetAggregatesToUpload. erewrite (read_locked_run _ d _ d) by done. by rewrite <- Hu, set_l_mtx_same.
  - apply NoDup_fmap_filter. unfold all, sortAggregates. rewrite sort_Slice_perm. apply NoDup_fmap_filter.
    rewrite range_entries. by apply NoDup_entries.
  - intros a [Hz Ha]%list_elem_of_filter. apply Hall in Ha as [Ha Hp]. apply Hperiod in Hp as [Hp Hi]. done.
  - intros id a Ha (Hi & Hb & Hz). apply list_elem_of_filter. split; [done|]. apply Hall. rewrite (Hkey _ _ Ha).
    split; [done|]. apply Hperiod. split; [lia|done].
Qed.

(** ** Inserting *)

Lemma last_id_max (m : gmap Z Aggregate) id a : (forall id a, m !! id = Some a -> a_ID a = id) -> m !! id = Some a -> id <= last_id m.
Proof.
  intros Hkey Hid. assert (Hin : a ∈ (range_int m).*2) by (rewrite range_entries; apply elem_of_entries; by exists id).
  rewrite <- (Hkey _ _ Hid). unfold last_id. generalize 0. revert Hin. generalize (range_int m).*2. clear.
  assert (Hge : forall l n, n <= foldl (fun lastid a => if lastid <? a_ID a then a_ID a else lastid) n l).
  { induction l as [|b l IH]; intros n; simpl; [lia|]. etransitivity; [|apply IH]. destruct (Z.ltb_spec n (a_ID b)); lia. }
  induction l as [|b l IH]; intros Hin n; [by apply not_elem_of_nil in Hin|]. simpl. apply elem_of_cons in Hin as [->|Hin]; [|by apply IH].
  etransitivity; [|apply Hge]. destruct (Z.ltb_spec n (a_ID b)); lia.
Qed.

(** The aggregates [l], under the identifiers after [lastid]. *)
Fixpoint inserted (now lastid : Z) (l : list Aggregate) : gmap Z Aggregate :=
  match l with
  | [] => ∅
  | a :: l' => <[lastid + 1 := mkAggregate (lastid + 1) (a_InstanceID a) (a_BucketStart a) (a_AmountType a) (a_AmountValue a) now (a_UploadID a)]>
                 (inserted now (lastid + 1) l')
  end.
Lemma inserted_spec now l : forall n,
  (forall id, id <= n -> inserted now n l !! id = None) /\
  (forall id a, inserted now n l !! id = Some a -> a_ID a = id /\ exists b, b ∈ l /\ a_UploadID a = a_UploadID b) /\
  record_of <$> entries (inserted now n l) ≡ₚ record_of <$> l.
Proof.
  induction l as [|a l IH]; intros n; cbn [inserted]; [split; [done|]; split; [by intros ? ? ?%lookup_empty_Some|]; unfold entries; simpl; by rewrite map_to_list_empty|]. destruct (IH (n + 1)) as (Hnone & Hkey & Hrec).
  split; [|split].
  - intros id Hid. rewrite lookup_insert_ne by lia. apply Hnone. lia.
  - intros id b [[<- <-]|[Hne Hb]]%lookup_insert_Some; [split; [done|]; exists a; split; [by left|done]|].
    destruct (Hkey _ _ Hb) as (? & c & Hc & ?). split; [done|]. exists c. split; [by right|done].
  - rewrite entries_insert by (apply Hnone; lia). simpl. by rewrite Hrec.
Qed.

Lemma insert_loop_run now l : forall n d, (forall id a, aggregatesSet d !! id = Some a -> id <= n) ->
  insert_loop now n l d = (Ret tt, set_aggregatesSet (inserted now n l ∪ aggregatesSet d) d).
Proof.
  induction l as [|a l IH]; intros n d Hmax; cbn [insert_loop inserted]; cbv zeta.
  - rewrite map_empty_union. by destruct d.
  - rewrite (bind_Ret _ _ d (aggregatesSet d) d) by done. destruct (aggregatesSet d !! (n + 1)) eqn:Hn; [specialize (Hmax _ _ Hn); lia|].
    unfold bind at 1, modify at 1. cbv beta iota. rewrite IH.
    + f_equal. unfold set_aggregatesSet. simpl. f_equal. rewrite <- insert_union_l. symmetry. apply insert_union_r.
      apply (inserted_spec now l (n + 1)). lia.
    + intros id b. simpl. intros [[<- _]|[_ Hb]]%lookup_insert_Some; [lia|]. specialize (Hmax _ _ Hb). lia.
Qed.

Lemma InsertAggregates_run l d : memory_ok d -> Forall (fun a => a_UploadID a = 0) l ->
  exists d', InsertAggregates l d = (Ret tt, d') /\ memory_ok d' /\ postTrialInvoices d' = postTrialInvoices d /\
    exists new, aggregatesSet d' = new ∪ aggregatesSet d /\ new ##ₘ aggregatesSet d /\ record_of <$> entries new ≡ₚ record_of <$> l.
Proof.
  intros [Hu Hkey Hup] Hzero. set (now := l_clock d (l_ticks d)). set (n := last_id (aggregatesSet d)).
  destruct (inserted_spec now l n) as (Hnone & Hnew & Hrec).
  assert (Hmax : forall id a, aggregatesSet d !! id = Some a -> id <= n) by (intros id a Ha; by apply (last_id_max _ _ a)).
  eexists. split; [|split; [|split]].
  - unfold InsertAggregates. erewrite write_locked_run; [reflexivity|done| |done].
    unfold bind at 1, ledger_Now. cbv beta iota. rewrite (bind_Ret _ _ _ (aggregatesSet d) _) by done.
    fold n. rewrite (insert_loop_run _ l n) by exact Hmax. unfold now.
    instantiate (1 := mkLedger (l_mtx d) (inserted now n l ∪ aggregatesSet d) (uploads d) (postTrialInvoices d) (billingAccountsByTeamID d) (l_clock d) (S (l_ticks d))). done.
  - split; [done| |]; simpl; intros id a [Ha|[_ Ha]]%lookup_union_Some_raw.
    + by apply (Hnew id a).
    + by apply Hkey.
    + destruct (Hnew _ _ Ha) as (_ & b & Hb & ->). rewrite Forall_forall in Hzero. rewrite (Hzero _ Hb). lia.
    + by apply (Hup id a).
  - done.
  - exists (inserted now n l). split; [done|]. split; [|done]. apply map_disjoint_spec. intros id a b Ha Hb.
    rewrite Hnone in Ha; [done|]. by apply (Hmax _ b).
Qed.

(** ** Uploads *)

Lemma link_lookup uploadID ids m id : Forall (fun id => is_Some (m !! id)) ids ->
  foldl (link_aggregate uploadID) m ids !! id = linked uploadID ids m !! id.
Proof.
  rewrite linked_lookup. revert m. induction ids as [|x ids IH]; intros m Hall; simpl.
  - by destruct (m !! id).
  - apply Forall_cons in Hall as [[b Hb] Hall]. unfold link_aggregate at 2. rewrite Hb. simpl. rewrite IH.
    + destruct (decide (id = x)) as [->|Hne].
      * rewrite lookup_insert_eq, Hb. simpl. rewrite (decide_True (P := x ∈ x :: ids)) by by left. by case_decide.
      * rewrite lookup_insert_ne by done. destruct (m !! id); simpl; [|done].
        destruct (decide (id ∈ ids)) as [Hin|Hin]; [rewrite decide_True; [done|by right]|].
        rewrite decide_False; [done|]. intros [|]%elem_of_cons; done.
    + eapply Forall_impl; [exact Hall|]. intros y [c Hc]. simpl. destruct (decide (y = x)) as [->|]; [rewrite lookup_insert_eq; by eexists|].
      rewrite lookup_insert_ne by done. by exists c.
Qed.

Lemma InsertUsageUpload_run u ids d : memory_ok d -> Forall (fun id => is_Some (aggregatesSet d !! id)) ids ->
  exists uploadID d', InsertUsageUpload u ids d = (Ret uploadID, d') /\ memory_ok d' /\ postTrialInvoices d' = postTrialInvoices d /\
    uploadID <> 0 /\ map_Forall (fun _ a => a_UploadID a <> uploadID) (aggregatesSet d) /\
    1 <= uploadID <= Z.of_nat (length (uploads d')) /\ aggregatesSet d' = linked uploadID ids (aggregatesSet d).
Proof.
  intros [Hu Hkey Hup] Hids. set (uploadID := Z.of_nat (length (uploads d)) + 1).
  assert (Hset : foldl (link_aggregate uploadID) (aggregatesSet d) ids = linked uploadID ids (aggregatesSet d)).
  { apply map_eq. intros id. by apply link_lookup. }
  exists uploadID. eexists. split; [|split; [|split; [|split; [|split; [|split]]]]].
  - unfold InsertUsageUpload. erewrite read_locked_run; [reflexivity|done| |done].
    rewrite (bind_Ret _ _ _ (uploads d) (set_l_mtx (mkRWMutex 1 false) d)) by done. fold uploadID.
    unfold bind, modify. simpl. rewrite Hset.
    instantiate (1 := mkLedger (l_mtx d) (linked uploadID ids (aggregatesSet d)) (uploads d ++ [Some (mkUsageUpload uploadID u)])
      (postTrialInvoices d) (billingAccountsByTeamID d) (l_clock d) (l_ticks d)). done.
  - split; [done| |]; simpl; intros id a; rewrite linked_lookup; destruct (aggregatesSet d !! id) as [b|] eqn:Hb; simpl; try done; intros [= <-].
    + rewrite <- (Hkey _ _ Hb). by case_decide.
    + specialize (Hup _ _ Hb). rewrite length_app. simpl. unfold uploadID. case_decide; simpl; lia.
  - done.
  - unfold uploadID. lia.
  - intros id a Ha. specialize (Hup _ _ Ha). unfold uploadID. lia.
  - simpl. rewrite length_app. simpl. unfold uploadID. lia.
  - done.
Qed.

Lemma DeleteUsageUpload_run u id d : memory_ok d -> 1 <= id <= Z.of_nat (length (uploads d)) ->
  exists d', DeleteUsageUpload u id d = (Ret tt, d') /\ memory_ok d' /\ postTrialInvoices d' = postTrialInvoices d /\
    aggregatesSet d' = released id (aggregatesSet d).
Proof.
  intros [Hu Hkey Hup] Hid. eexists. split; [|split; [|split]].
  - unfold DeleteUsageUpload. erewrite read_locked_run; [reflexivity|done| |done].
    rewrite (bind_Ret _ _ _ (uploads d) (set_l_mtx (mkRWMutex 1 false) d)) by done.
    rewrite (proj2 (Z.ltb_ge id 1)), (proj2 (Z.ltb_ge _ id)) by lia. unfold bind, modify. simpl.
    instantiate (1 := mkLedger (l_mtx d) (released id (aggregatesSet d)) (<[Z.to_nat (id - 1) := None]> (uploads d))
      (postTrialInvoices d) (billingAccountsByTeamID d) (l_clock d) (l_ticks d)). done.
  - split; [done| |]; simpl; intros k a; unfold released; rewrite lookup_fmap; destruct (aggregatesSet d !! k) as [b|] eqn:Hb; simpl; try done; intros [= <-].
    + rewrite <- (Hkey _ _ Hb). by case_match.
    + specialize (Hup _ _ Hb). rewrite length_insert. case_match; simpl; lia.
  - done.
  - done.
Qed.

(** ** The instance *)

#[export] Instance memory_view : LedgerView Ledger := {|
  ledger_ok := memory_ok;
  contents := aggregatesSet;
  invoices := postTrialInvoices;
  open_upload := fun d id => 1 <= id <= Z.of_nat (length (uploads d));
|}.

Lemma unchanged_refl (d : Ledger) : memory_ok d -> unchanged d d.
Proof. by split. Qed.

#[export] Instance memory_lawful_ledger : LawfulLedger Ledger.
Proof.
  split.
  - intros d id a [_ Hkey _]. apply Hkey.
  - intros d ids from Hok. destruct (GetAggregatesFrom_run ids from d Hok) as (l & Hrun & Hl). exists l, d. by split; [|split; [apply unchanged_refl|]].
  - intros d l Hok Hl. destruct (InsertAggregates_run l d Hok Hl) as (d' & Hrun & H1 & H2 & H3). by exists (Ret tt), d'.
  - intros d i from through Hok. destruct (GetAggregatesToUpload_run i from through d Hok) as (l & Hrun & Hl). exists l, d.
    by split; [|split; [apply unchanged_refl|]].
  - intros d u ids Hok Hids. destruct (InsertUsageUpload_run u ids d Hok Hids) as (id & d' & Hrun & H1 & H2 & H3). by exists (Ret id), d'.
  - intros d u id Hok Hid. destruct (DeleteUsageUpload_run u id d Hok Hid) as (d' & Hrun & H1 & H2 & H3). by exists (Ret tt), d'.
  - intros d Hok. pose proof Hok as [Hu _ _]. eexists _, d. split; [|split; [by apply unchanged_refl|]].
    + unfold ledger_call, memory_ledger, ledger_memory, GetPostTrialInvoices. erewrite (read_locked_run _ d _ d) by done. by rewrite <- Hu, set_l_mtx_same.
    + simpl. by rewrite go_range_perm.
  - intros d u [Hu Hkey Hup]. exists (Ret tt), (set_postTrialInvoices (delete u (postTrialInvoices d)) d). split; [|done].
    unfold ledger_call, memory_ledger, ledger_memory, DeletePostTrialInvoice. erewrite (write_locked_run _ d _ (set_postTrialInvoices (delete u (postTrialInvoices d)) d)) by done.
    unfold set_l_mtx, set_postTrialInvoices. simpl. by rewrite <- Hu.
Qed.
End memory.
