(* ===== verification/AggregatorSpec.v ===== *)
(** The aggregator brings the usage in the database up to what BigQuery reports, hour by hour,
    and never counts any of it twice. *)
From Stdlib Require Import ZArith Lia Ascii String.
From stdpp Require Import base tactics option gmap strings list pretty.
From S2P Require Import Prelude GoStd Users Ledger LedgerSpec Aggregator.

(** * Sums by key *)

(** The usage under a key. *)
Definition used (k : key) (l : list Aggregate) : Z := usage (fun a => asKey a = k) l.
Arguments used : simpl never.

Lemma used_cons k a l : used k (a :: l) = (if decide (asKey a = k) then a_AmountValue a else 0) + used k l.
Proof. done. Qed.
Lemma used_app k l1 l2 : used k (l1 ++ l2) = used k l1 + used k l2.
Proof. apply usage_app. Qed.
#[export] Instance used_perm k : Proper ((≡ₚ) ==> (=)) (used k).
Proof. apply usage_perm. Qed.

Lemma sumByKey_spec k l : default 0 (sumByKey l !! k) = i64_wrap (used k l).
Proof. apply (sum_by_lookup asKey). Qed.

(** What a record contributes to a key does not depend on the fields the database gives it. *)
Lemma used_records k l1 l2 : record_of <$> l1 ≡ₚ record_of <$> l2 -> used k l1 = used k l2.
Proof.
  assert (Hfun : forall l, used k l = foldr (fun '(i, b, t, v, _) n => (if decide ((i, b, t) = k) then v else 0) + n) 0 (record_of <$> l)).
  { induction l as [|a l IH]; [done|]. by rewrite used_cons, IH. }
  intros Hp. rewrite !Hfun. revert Hp. generalize (record_of <$> l1), (record_of <$> l2). intros r1 r2 Hp.
  induction Hp as [|[[[[i b] t] v] u] r1 r2 _ IH|[[[[i b] t] v] u] [[[[i' b'] t'] v'] u'] r|r1 r2 r3 _ IH1 _ IH2]; simpl; lia.
Qed.

(** * A batch *)

Definition missing (bqAgg : Aggregate) (sum : Z) : option Aggregate :=
  let bqAgg := set_AmountValue (a_AmountValue bqAgg - sum) bqAgg in if 0 <? a_AmountValue bqAgg then Some bqAgg else None.

(** Amounts as BigQuery gives them, and the usage already stored. *)
Definition is_amount (v : Z) : Prop := 0 <= v < 2 ^ 63.

Lemma subtract_spec bqAggs dbAggs :
  Forall (fun a => is_amount (a_AmountValue a)) bqAggs -> (forall k, is_amount (used k dbAggs)) ->
  subtract bqAggs dbAggs = omap (fun a => missing a (used (asKey a) dbAggs)) bqAggs.
Proof.
  intros Hbq Hdb. unfold subtract. cbv zeta. match goal with |- foldl ?f [] _ = _ => set (g := f) end.
  assert (Hgen : forall acc, foldl g acc bqAggs = acc ++ omap (fun a => missing a (used (asKey a) dbAggs)) bqAggs); [|apply (Hgen [])].
  induction Hbq as [|a l Ha _ IH]; intros acc; simpl; [by rewrite app_nil_r|].
  specialize (Hdb (asKey a)) as Hk. unfold is_amount in *. rewrite IH. unfold g at 1, missing at 2. rewrite sumByKey_spec, (i64_wrap_small (used _ _)) by lia.
  rewrite i64_wrap_small by lia. simpl. case_match; [by rewrite <- app_assoc|done].
Qed.

Lemma used_missing k l sums : NoDup (asKey <$> l) ->
  used k (omap (fun a => missing a (sums (asKey a))) l) = (if decide (k ∈ asKey <$> l) then Z.max 0 (used k l - sums k) else 0).
Proof.
  induction l as [|a l IH]; simpl; intros Hnd; [done|].
  apply NoDup_cons in Hnd as [Hnot Hnd]. specialize (IH Hnd). rewrite used_cons.
  assert (Hrest : asKey a = k -> used k l = 0 /\ used k (omap (fun a => missing a (sums (asKey a))) l) = 0).
  { intros <-. split; [|by rewrite IH, decide_False]. apply usage_none. intros b Hb Hk. apply Hnot. rewrite <- Hk. by apply list_elem_of_fmap_2. }
  assert (Hhead : used k (match missing a (sums (asKey a)) with Some b => b :: omap (fun a => missing a (sums (asKey a))) l | None => omap (fun a => missing a (sums (asKey a))) l end)
    = (if decide (asKey a = k) then Z.max 0 (a_AmountValue a - sums k) else 0) + used k (omap (fun a => missing a (sums (asKey a))) l)).
  { unfold missing at 1. simpl. destruct (Z.ltb_spec 0 (a_AmountValue a - sums (asKey a))) as [Hpos|Hneg]; [rewrite used_cons|].
    - change (asKey (set_AmountValue (a_AmountValue a - sums (asKey a)) a)) with (asKey a). destruct (decide (asKey a = k)) as [<-|]; simpl; lia.
    - destruct (decide (asKey a = k)) as [<-|]; lia. }
  etransitivity; [exact Hhead|]. clear Hhead. change (list_fmap _ _ asKey l) with (asKey <$> l) in *.
  assert (Hcons : k ∈ asKey a :: (asKey <$> l) <-> k = asKey a \/ k ∈ asKey <$> l) by apply elem_of_cons.
  destruct (decide (asKey a = k)) as [Hk|Hk]; destruct (decide (k ∈ asKey a :: (asKey <$> l))) as [Hin|Hin].
  - destruct (Hrest Hk) as [-> ->]. lia.
  - exfalso. apply Hin, Hcons. by left.
  - rewrite IH. rewrite decide_True; [lia|]. apply Hcons in Hin as [->|]; done.
  - rewrite IH. rewrite decide_False; [done|]. intros Hl. apply Hin, Hcons. by right.
Qed.

(** * The job *)

Section job.
Context {S : Type} `{LawfulLedger S}.
Implicit Types s : S.

(** The usage stored under a key. *)
Definition stored s (k : key) : Z := used k (entries (contents s)).
Definition amounts_ok s : Prop := forall k, is_amount (stored s k).

(** Records as BigQuery gives them. *)
Definition reported (since : time.Time) (a : Aggregate) : Prop :=
  is_amount (a_AmountValue a) /\ since <= a_BucketStart a /\ a_UploadID a = 0.

Lemma used_filter_key k (P : key -> Prop) `{forall k, Decision (P k)} l :
  used k (filter (fun a => P (asKey a)) l) = if decide (P k) then used k l else 0.
Proof.
  case_decide as Hk.
  - apply usage_filter. by intros a _ <-.
  - apply usage_none. intros a [Ha _]%list_elem_of_filter <-. done.
Qed.

Lemma stored_max_nodup k l : NoDup (asKey <$> l) -> Forall (fun a => is_amount (a_AmountValue a)) l -> is_amount (used k l).
Proof.
  induction l as [|a l IH]; intros Hnd Hl; [done|]. apply NoDup_cons in Hnd as [Hnot Hnd]. apply Forall_cons in Hl as [Ha Hl].
  rewrite used_cons. case_decide as Hk; [|by rewrite Z.add_0_l; apply IH]. replace (used k l) with 0; [by rewrite Z.add_0_r|].
  symmetry. apply usage_none. intros b Hb Hk'. apply Hnot. rewrite Hk, <- Hk'. by apply list_elem_of_fmap_2.
Qed.

Lemma used_member l a : NoDup (asKey <$> l) -> Forall (fun a => is_amount (a_AmountValue a)) l -> a ∈ l -> a_AmountValue a <= used (asKey a) l.
Proof.
  intros Hnd Hl (l1 & l2 & ->)%list_elem_of_split. rewrite used_app, used_cons, decide_True by done. rewrite fmap_app, fmap_cons in Hnd.
  apply NoDup_app in Hnd as (Hnd1 & _ & Hnd2). apply NoDup_cons in Hnd2 as [_ Hnd2].
  apply Forall_app in Hl as [Ha1 Ha2]. apply Forall_cons in Ha2 as [_ Ha2].
  pose proof (stored_max_nodup (asKey a) l1 Hnd1 Ha1). pose proof (stored_max_nodup (asKey a) l2 Hnd2 Ha2). unfold is_amount in *. lia.
Qed.

Lemma missing_none l sums : NoDup (asKey <$> l) -> Forall (fun a => is_amount (a_AmountValue a)) l ->
  (forall k, k ∈ asKey <$> l -> used k l <= sums k) -> omap (fun a => missing a (sums (asKey a))) l = [].
Proof.
  intros Hnd Hl Hle. apply elem_of_nil_inv. intros b (a & Ha & Hb)%list_elem_of_omap. unfold missing in Hb. cbv zeta in Hb. simpl in Hb.
  pose proof (used_member l a Hnd Hl Ha). specialize (Hle _ (list_elem_of_fmap_2 asKey _ _ Ha)).
  destruct (Z.ltb_spec 0 (a_AmountValue a - sums (asKey a))); [lia|done].
Qed.

Lemma insert_batch_run since l s : ledger_ok s -> amounts_ok s -> NoDup (asKey <$> l) -> Forall (reported since) l ->
  exists o s', insert_batch since l s = (o, s') /\ ledger_ok s' /\ contents s ⊆ contents s' /\
    match o with
    | Ret _ => (forall k, stored s' k = Z.max (stored s k) (used k l)) /\
        ((forall k, used k l <= stored s k) -> contents s' = contents s)
    | Err _ => contents s' = contents s
    | _ => False
    end.
Proof.
  intros Hok Hs Hnd Hl. destruct (law_GetAggregatesFrom s (instanceIDs l) since Hok) as (dbAggs & s0 & Hget & Hsame & Hdb).
  destruct Hsame as (Hok0 & Hc0 & _).
  set (P := fun k : key => k.1.1 ∈ instanceIDs l /\ since <= k.1.2).
  assert (HP : forall k, Decision (P k)) by (intros k; unfold P; apply _).
  assert (Hused : forall k, used k dbAggs = if decide (P k) then stored s k else 0).
  { intros k. rewrite Hdb, (list_filter_iff _ (fun a => P (asKey a))) by done. apply used_filter_key. }
  assert (Hin : forall k, k ∈ asKey <$> l -> P k).
  { intros k (a & -> & Ha)%list_elem_of_fmap. split; simpl.
    - unfold instanceIDs. apply elem_of_app. right. by apply list_elem_of_fmap_2.
    - rewrite Forall_forall in Hl. by apply (Hl a Ha). }
  assert (Hamounts : Forall (fun a => is_amount (a_AmountValue a)) l) by (eapply Forall_impl; [exact Hl|]; by intros a [? _]).
  assert (Hsub : subtract l dbAggs = omap (fun a => missing a (used (asKey a) dbAggs)) l).
  { apply subtract_spec; [done|]. intros k. rewrite Hused. by case_decide. }
  assert (Hk : forall k, used k (subtract l dbAggs) + stored s k = Z.max (stored s k) (used k l)).
  { intros k. rewrite Hsub, (used_missing k l (fun k => used k dbAggs)) by done. rewrite Hused. case_decide as Hkl.
    - rewrite decide_True by by apply Hin. lia.
    - replace (used k l) with 0; [specialize (Hs k); unfold is_amount in Hs; lia|].
      symmetry. apply usage_none. intros a Ha <-. apply Hkl. by apply list_elem_of_fmap_2. }
  destruct (law_InsertAggregates s0 (subtract l dbAggs) Hok0) as (o & s' & Hins & Hok' & _ & Ho).
  { rewrite Hsub. apply Forall_forall. intros b (a & Ha & Hb)%list_elem_of_omap. rewrite Forall_forall in Hl.
    unfold missing in Hb. cbv zeta in Hb. case_match; [|done]. injection Hb as <-. by apply (Hl a Ha). }
  rewrite Hc0 in Ho. exists o, s'. split; [unfold insert_batch; by rewrite (bind_Ret _ _ _ _ _ Hget)|]. split; [done|].
  destruct o as [[]|e| | |]; try done; [|by rewrite Ho]. destruct Ho as (new & Hc & Hd & Hrec). split; [|split].
  - rewrite Hc. by apply map_union_subseteq_r.
  - intros k. unfold stored. rewrite Hc, entries_union by done. rewrite used_app, (used_records k _ _ Hrec). apply Hk.
  - intros Hle. rewrite Hc. replace new with (∅ : gmap Z Aggregate); [by rewrite map_empty_union|].
    assert (Hnone : subtract l dbAggs = []).
    { rewrite Hsub. apply (missing_none l (fun k => used k dbAggs)); [done..|]. intros k Hkl. rewrite Hused, decide_True by by apply Hin. apply Hle. }
    rewrite Hnone in Hrec. apply Permutation_nil_r, fmap_nil_inv in Hrec. unfold entries in Hrec. apply fmap_nil_inv in Hrec.
    symmetry. by apply map_to_list_empty_iff.
Qed.

Lemma used_take_drop n k l : used k l = used k (take n l) + used k (drop n l).
Proof. by rewrite <- used_app, take_drop. Qed.

Lemma used_absent k l : k ∉ asKey <$> l -> used k l = 0.
Proof. intros Hk. apply usage_none. intros a Ha <-. by apply Hk, list_elem_of_fmap_2. Qed.

(** A list of distinct keys, in two parts: each key is in one of them at most. *)
Lemma used_parts since n l : NoDup (asKey <$> l) -> Forall (reported since) l ->
  let l1 := take n l in let l2 := drop n l in
  (NoDup (asKey <$> l1) /\ Forall (reported since) l1) /\ (NoDup (asKey <$> l2) /\ Forall (reported since) l2) /\
  forall k, used k l = Z.max (used k l1) (used k l2) /\ 0 <= used k l1 /\ 0 <= used k l2.
Proof.
  intros Hnd Hl. cbv zeta. rewrite <- (take_drop n l), fmap_app in Hnd. apply NoDup_app in Hnd as (Hnd1 & Hdisj & Hnd2).
  rewrite <- (take_drop n l) in Hl. apply Forall_app in Hl as [Hl1 Hl2]. split; [done|]. split; [done|]. intros k.
  assert (Hpos : forall m, NoDup (asKey <$> m) -> Forall (reported since) m -> 0 <= used k m).
  { intros m Hm Hr. apply stored_max_nodup; [done|]. eapply Forall_impl; [exact Hr|]. by intros a [? _]. }
  pose proof (Hpos _ Hnd1 Hl1). pose proof (Hpos _ Hnd2 Hl2). rewrite (used_take_drop n).
  destruct (decide (k ∈ asKey <$> take n l)) as [Hin|Hout].
  - rewrite (used_absent k (drop n l)) by by apply Hdisj. lia.
  - rewrite (used_absent k (take n l)) in * by done. lia.
Qed.

(** The outcome of inserting [l]: what it reports is stored, or part of it. *)
Definition brought_up_to (l : list Aggregate) s (o : outcome error unit) s' : Prop :=
  ledger_ok s' /\ contents s ⊆ contents s' /\ amounts_ok s' /\ ((forall k, used k l <= stored s k) -> contents s' = contents s) /\
  match o with
  | Ret _ => forall k, stored s' k = Z.max (stored s k) (used k l)
  | Err _ => forall k, stored s k <= stored s' k <= Z.max (stored s k) (used k l)
  | _ => False
  end.

Lemma stored_same s s' : contents s' = contents s -> forall k, stored s' k = stored s k.
Proof. intros Hc k. unfold stored. by rewrite Hc. Qed.

Lemma insert_batches_run since : forall fuel l s, (length l <= fuel)%nat ->
  ledger_ok s -> amounts_ok s -> NoDup (asKey <$> l) -> Forall (reported since) l ->
  exists o s', insert_batches fuel since l s = (o, s') /\ brought_up_to l s o s'.
Proof.
  assert (Hnil : forall s, ledger_ok s -> amounts_ok s -> brought_up_to [] s (Ret tt) s).
  { intros s Hok Hs. split; [done|]. split; [done|]. split; [done|]. split; [done|].
    intros k. specialize (Hs k). unfold is_amount in Hs. unfold used, usage. simpl. lia. }
  induction fuel as [|fuel IH]; intros l s Hfuel Hok Hs Hnd Hl.
  { destruct l; [|simpl in Hfuel; lia]. exists (Ret tt), s. split; [done|by apply Hnil]. }
  destruct (decide (l = [])) as [->|Hne]; [exists (Ret tt), s; split; [done|by apply Hnil]|].
  assert (Hstep : insert_batches (Datatypes.S fuel) since l = (insert_batch since (take batchSize l) ;;; insert_batches fuel since (drop batchSize l))) by by destruct l.
  rewrite Hstep. clear Hstep. destruct (used_parts since batchSize l Hnd Hl) as ([Hnd1 Hl1] & [Hnd2 Hl2] & Hmax).
  destruct (insert_batch_run since (take batchSize l) s Hok Hs Hnd1 Hl1) as (o1 & s1 & Hrun1 & Hok1 & Hsub1 & Ho1).
  destruct o1 as [[]|e| | |]; try done.
  - destruct Ho1 as [Hst1 Hsame1]. rewrite (bind_Ret _ _ _ _ _ Hrun1).
    assert (Hs1 : amounts_ok s1).
    { intros k. rewrite Hst1. specialize (Hs k). assert (Hk : is_amount (used k (take batchSize l))).
      { apply stored_max_nodup; [done|]. eapply Forall_impl; [exact Hl1|]. by intros a [? _]. } unfold is_amount in *. lia. }
    destruct (IH (drop batchSize l) s1) as (o & s' & Hrun & Hok' & Hsub & Hs' & Hsame & Ho); try done.
    { rewrite length_drop. unfold batchSize. destruct l; [done|]. simpl in *. lia. }
    exists o, s'. split; [done|]. split; [done|]. split; [by etransitivity|]. split; [done|]. split.
    + intros Hle. rewrite Hsame, Hsame1; [done| |]; intros k; specialize (Hle k); destruct (Hmax k) as [Hm _]; [lia|]. rewrite Hst1. lia.
    + destruct o; try done; intros k; specialize (Ho k); destruct (Hmax k) as [Hm _]; rewrite Hst1 in Ho; lia.
  - exists (Err e), s1. rewrite (bind_Err _ _ _ _ _ Hrun1). split; [done|]. pose proof (stored_same _ _ Ho1) as Hst.
    split; [done|]. split; [done|]. split; [intros k; rewrite Hst; apply Hs|]. split; [done|].
    intros k. rewrite Hst. destruct (Hmax k). specialize (Hs k). unfold is_amount in Hs. lia.
Qed.

(** C18: the aggregator always ends, and brings the usage in the database up to what BigQuery
    reports: for each instance, hour and type, the total afterwards is the larger of the total
    before and the reported one; nothing that was stored is changed. A run that stops at an error of
    the database has stored part of it, and never more. Running again on the
    same report inserts nothing. *)
Theorem aggregator_Do_spec bigquery now since s aggs :
  bigquery (aligned now since) = inr aggs ->
  ledger_ok s -> (forall k, is_amount (stored s k)) ->
  NoDup (asKey <$> aggs) -> Forall (reported (aligned now since)) aggs ->
  exists o s', aggregator_Do bigquery now since s = (o, s') /\ contents s ⊆ contents s' /\
    match o with
    | Ret _ => (forall k, stored s' k = Z.max (stored s k) (used k aggs)) /\
        forall o2 s2, aggregator_Do bigquery now since s' = (o2, s2) -> contents s2 = contents s'
    | Err _ => forall k, stored s k <= stored s' k <= Z.max (stored s k) (used k aggs)
    | _ => False
    end.
Proof.
  intros Hbq Hok Hs Hnd Hl. unfold aggregator_Do. rewrite Hbq.
  destruct (insert_batches_run _ (length aggs) aggs s ltac:(done) Hok Hs Hnd Hl) as (o & s' & Hrun & Hok' & Hsub & Hs' & _ & Ho).
  exists o, s'. split; [done|]. split; [done|]. destruct o as [[]|e| | |]; try done. split; [done|]. intros o2 s2 Hrun2.
  destruct (insert_batches_run _ (length aggs) aggs s' ltac:(done) Hok' Hs' Hnd Hl) as (o3 & s3 & Hrun3 & _ & _ & _ & Hsame & _).
  rewrite Hrun3 in Hrun2. injection Hrun2 as <- <-. apply Hsame. intros k. rewrite Ho. lia.
Qed.
End job.

(** * The theorem at a concrete state *)

Definition sample_report : list Aggregate :=
  [ mkAggregate 0 "foo" (94 * time.Hour) "node-seconds" 60 0 0; mkAggregate 0 "foo" (95 * time.Hour) "node-seconds" 120 0 0 ].

Lemma aggregator_Do_spec_witness :
  let db := @memory_ledger list_orders list_range in
  let run := @aggregator_Do Ledger db (fun _ => inr sample_report) (100 * time.Hour) None (newMemory (fun _ => 0)) in
  run.1 = Ret tt /\ exists o s', run = (o, s') /\ match o with Ret _ => stored (H0 := memory_view) s' ("foo", 95 * time.Hour, "node-seconds") = 120 | _ => False end.
Proof.
  cbv zeta. split; [vm_compute; reflexivity|].
  destruct (@aggregator_Do_spec Ledger (@memory_ledger list_orders list_range) memory_view (@memory_lawful_ledger list_orders list_range)
    (fun _ => inr sample_report) (100 * time.Hour) None (newMemory (fun _ => 0)) sample_report) as (o & s' & Hrun & _ & Ho).
  - reflexivity.
  - by split.
  - intros k. split; vm_compute; congruence.
  - apply (bool_decide_unpack _). vm_compute. exact I.
  - repeat constructor; vm_compute; congruence.
  - exists o, s'. split; [exact Hrun|]. assert (Hret : o = Ret tt) by exact (eq_trans (eq_sym (f_equal fst Hrun)) ltac:(vm_compute; reflexivity)).
    rewrite Hret in Ho. destruct Ho as [Ho _]. rewrite Hret, Ho. vm_compute. reflexivity.
Defined.
