(* ===== verification/LedgerDecorators.v ===== *)
(** The decorators of the database of the billing services (billing-api/db/timed.go,
    billing-api/db/traced.go), what [New] makes of an implementation with both, and the proof that
    they keep the promises of the database inside. *)
From Stdlib Require Import ZArith Lia Ascii String.
From stdpp Require Import base tactics option gmap strings list pretty.
From S2P Require Import Prelude GoStd Users Calendar Ledger LedgerSpec Decorators DecoratorsSpec.

(** * Timing *)

(** [instrument.ErrorCode], which [CollectedRequest] takes when it is given none. *)
Definition ErrorCode (err : option error) : string := match err with None => "200" | Some _ => "500" end.

Section timed.
Context {S : Type} `{LedgerImpl S}.

(** [timed.timeRequest]: the observation follows the call, and a call that does not return has none. *)
Definition timeLedgerRequest {A} (method : string) (f : M S error A) : M (Timed S) error A := fun s =>
  let '(o, d) := f (tm_d s) in
  let observe err := mkTimed d (tm_observed s ++ [(method, ErrorCode err)]) in
  match o with
  | Ret a => (Ret a, observe None)
  | Err e => (Err e, observe (Some e))
  | o => (o, mkTimed d (tm_observed s))
  end.

Definition timed_InsertAggregates (aggregates : list Aggregate) :=
  timeLedgerRequest "InsertAggregates" (ledger_call (CallInsertAggregates aggregates)).
Definition timed_GetAggregates (instanceID : string) (from through : time.Time) :=
  timeLedgerRequest "GetAggregates" (ledger_call (CallGetAggregates instanceID from through)).
Definition timed_GetAggregatesToUpload (instanceID : string) (from through : time.Time) :=
  timeLedgerRequest "GetAggregatesToUpload" (ledger_call (CallGetAggregatesToUpload instanceID from through)).
Definition timed_GetAggregatesUploaded (uploadID : Z) :=
  timeLedgerRequest "GetAggregatesUploaded" (ledger_call (CallGetAggregatesUploaded uploadID)).
Definition timed_GetAggregatesFrom (instanceIDs : list string) (from : time.Time) :=
  timeLedgerRequest "GetAggregatesFrom" (ledger_call (CallGetAggregatesFrom instanceIDs from)).
Definition timed_GetLatestUsageUpload (uploader : string) :=
  timeLedgerRequest "GetLatestUsageUpload" (ledger_call (CallGetLatestUsageUpload uploader)).
Definition timed_InsertUsageUpload (uploader : string) (aggregateIDs : list Z) :=
  timeLedgerRequest "InsertUsageUpload" (ledger_call (CallInsertUsageUpload uploader aggregateIDs)).
Definition timed_DeleteUsageUpload (uploader : string) (aggregateID : Z) :=
  timeLedgerRequest "DeleteUsageUpload" (ledger_call (CallDeleteUsageUpload uploader aggregateID)).
Definition timed_GetMonthSums (instanceIDs : list string) (from through : time.Time) :=
  timeLedgerRequest "GetMonthSums" (ledger_call (CallGetMonthSums instanceIDs from through)).
Definition timed_InsertPostTrialInvoice (externalID zuoraAccountNumber usageImportID : string) :=
  timeLedgerRequest "InsertPostTrialInvoice" (ledger_call (CallInsertPostTrialInvoice externalID zuoraAccountNumber usageImportID)).
Definition timed_GetPostTrialInvoices :=
  timeLedgerRequest "GetPostTrialInvoices" (ledger_call CallGetPostTrialInvoices).
Definition timed_DeletePostTrialInvoice (usageImportID : string) :=
  timeLedgerRequest "DeletePostTrialInvoice" (ledger_call (CallDeletePostTrialInvoice usageImportID)).
Definition timed_FindBillingAccountByTeamID (teamID : string) :=
  timeLedgerRequest "FindBillingAccountByTeamID" (ledger_call (CallFindBillingAccountByTeamID teamID)).
Definition timed_SetTeamBillingAccountProvider (teamID providerName : string) :=
  timeLedgerRequest "SetTeamBillingAccountProvider" (ledger_call (CallSetTeamBillingAccountProvider teamID providerName)).

Definition timed_ledger : LedgerImpl (Timed S) := fun A c =>
  match c in LedgerCall A return M (Timed S) error A with
  | CallInsertAggregates l => timed_InsertAggregates l
  | CallGetAggregates i from through => timed_GetAggregates i from through
  | CallGetAggregatesToUpload i from through => timed_GetAggregatesToUpload i from through
  | CallGetAggregatesUploaded id => timed_GetAggregatesUploaded id
  | CallGetAggregatesFrom ids from => timed_GetAggregatesFrom ids from
  | CallInsertUsageUpload uploader ids => timed_InsertUsageUpload uploader ids
  | CallDeleteUsageUpload uploader id => timed_DeleteUsageUpload uploader id
  | CallGetLatestUsageUpload uploader => timed_GetLatestUsageUpload uploader
  | CallGetMonthSums ids from through => timed_GetMonthSums ids from through
  | CallInsertPostTrialInvoice externalID number importID => timed_InsertPostTrialInvoice externalID number importID
  | CallGetPostTrialInvoices => timed_GetPostTrialInvoices
  | CallDeletePostTrialInvoice importID => timed_DeletePostTrialInvoice importID
  | CallFindBillingAccountByTeamID teamID => timed_FindBillingAccountByTeamID teamID
  | CallSetTeamBillingAccountProvider teamID name => timed_SetTeamBillingAccountProvider teamID name
  end.
End timed.

(** * Tracing *)

(** What is printed: values of the arguments and results. *)
Inductive LedgerValue : Type :=
  | LNil
  | LString (s : string)
  | LStrings (l : list string)
  | LInt (n : Z)
  | LInts (l : list Z)
  | LTime (t : time.Time)
  | LAggregates (l : list Aggregate)
  | LSums (m : option (gmap string (list Aggregate)))
  | LUpload (u : option UsageUpload)
  | LAccount (a : option BillingAccount)
  | LError (e : error).

(** The database and the lines of the debug log. *)
Record Audited (S : Type) : Type := mkAudited { au_d : S; au_log : list (string * list LedgerValue) }.
Arguments mkAudited {S}. Arguments au_d {S}. Arguments au_log {S}.

(** The results as the deferred closures print them: [zero] is printed when there is an error,
    the value otherwise; then the error. *)
Definition printed {A} (zero : LedgerValue) (value : A -> LedgerValue) (o : outcome error A) : list LedgerValue :=
  match o with
  | Ret a => [value a; LNil]
  | Err e => [zero; LError e]
  | _ => [zero; LNil]
  end.
Definition printed_error (o : outcome error unit) : list LedgerValue := match o with Err e => [LError e] | _ => [LNil] end.
Definition printed_count {A} : outcome error (list A) -> list LedgerValue := printed (LInt 0) (fun l => LInt (Z.of_nat (length l))).

Section traced.
Context {S : Type} `{LedgerImpl S}.

(** [traced.trace] *)
Definition trace_ledger (name : string) (args : list LedgerValue) (s : Audited S) : Audited S :=
  mkAudited (au_d s) (au_log s ++ [(name, args)]).

(** A deferred closure runs when the call returns or panics, and sees the results. *)
Definition defer_trace {A} (name : string) (args : list LedgerValue) (results : outcome error A -> list LedgerValue) (f : M S error A) : M (Audited S) error A := fun s =>
  let '(o, d) := f (au_d s) in
  let s := mkAudited d (au_log s) in
  match o with
  | Deadlock | OutOfFuel => (o, s)
  | _ => (o, trace_ledger name (args ++ results o) s)
  end.

Definition traced_InsertAggregates (aggregates : list Aggregate) :=
  defer_trace "InsertAggregates" [LAggregates aggregates] printed_error (ledger_call (CallInsertAggregates aggregates)).
Definition traced_GetAggregates (instanceID : string) (from through : time.Time) :=
  defer_trace "GetAggregates" [LString instanceID; LTime from; LTime through] printed_count (ledger_call (CallGetAggregates instanceID from through)).
Definition traced_GetAggregatesToUpload (instanceID : string) (from through : time.Time) :=
  defer_trace "GetAggregatesToUpload" [LString instanceID; LTime from; LTime through] printed_count (ledger_call (CallGetAggregatesToUpload instanceID from through)).
Definition traced_GetAggregatesUploaded (uploadID : Z) :=
  defer_trace "GetAggregatesUploaded" [LInt uploadID] printed_count (ledger_call (CallGetAggregatesUploaded uploadID)).
Definition traced_GetAggregatesFrom (instanceIDs : list string) (from : time.Time) :=
  defer_trace "GetAggregatesFrom" [LStrings instanceIDs; LTime from] printed_count (ledger_call (CallGetAggregatesFrom instanceIDs from)).
Definition traced_GetLatestUsageUpload (uploader : string) :=
  defer_trace "GetLatestUsageUpload" [LString uploader] (printed (LUpload None) LUpload) (ledger_call (CallGetLatestUsageUpload uploader)).
Definition traced_InsertUsageUpload (uploader : string) (aggregateIDs : list Z) :=
  defer_trace "InsertUsageUpload" [LString uploader; LInts aggregateIDs] (printed (LInt 0) LInt) (ledger_call (CallInsertUsageUpload uploader aggregateIDs)).
Definition traced_DeleteUsageUpload (uploader : string) (uploadID : Z) :=
  defer_trace "DeleteUsageUpload" [LString uploader; LInt uploadID] printed_error (ledger_call (CallDeleteUsageUpload uploader uploadID)).
Definition traced_GetMonthSums (instanceIDs : list string) (from through : time.Time) :=
  defer_trace "GetMonthSums" [LStrings instanceIDs; LTime from; LTime through] (printed (LSums None) (fun m => LSums (Some m))) (ledger_call (CallGetMonthSums instanceIDs from through)).
Definition traced_InsertPostTrialInvoice (externalID zuoraAccountNumber usageImportID : string) :=
  defer_trace "InsertPostTrialInvoice" [LString externalID; LString zuoraAccountNumber; LString usageImportID] printed_error (ledger_call (CallInsertPostTrialInvoice externalID zuoraAccountNumber usageImportID)).
Definition traced_GetPostTrialInvoices :=
  defer_trace "GetPostTrialInvoices" [] printed_count (ledger_call CallGetPostTrialInvoices).
Definition traced_DeletePostTrialInvoice (usageImportID : string) :=
  defer_trace "DeletePostTrialInvoice" [LString usageImportID] printed_error (ledger_call (CallDeletePostTrialInvoice usageImportID)).
Definition traced_FindBillingAccountByTeamID (teamID : string) :=
  defer_trace "FindBillingAccountByTeamID" [LString teamID] (printed (LAccount None) LAccount) (ledger_call (CallFindBillingAccountByTeamID teamID)).
Definition traced_SetTeamBillingAccountProvider (teamID providerName : string) :=
  defer_trace "SetTeamBillingAccountProvider" [LString teamID; LString providerName] (printed (LAccount None) (fun a => LAccount (Some a))) (ledger_call (CallSetTeamBillingAccountProvider teamID providerName)).

Definition traced_ledger : LedgerImpl (Audited S) := fun A c =>
  match c in LedgerCall A return M (Audited S) error A with
  | CallInsertAggregates l => traced_InsertAggregates l
  | CallGetAggregates i from through => traced_GetAggregates i from through
  | CallGetAggregatesToUpload i from through => traced_GetAggregatesToUpload i from through
  | CallGetAggregatesUploaded id => traced_GetAggregatesUploaded id
  | CallGetAggregatesFrom ids from => traced_GetAggregatesFrom ids from
  | CallInsertUsageUpload uploader ids => traced_InsertUsageUpload uploader ids
  | CallDeleteUsageUpload uploader id => traced_DeleteUsageUpload uploader id
  | CallGetLatestUsageUpload uploader => traced_GetLatestUsageUpload uploader
  | CallGetMonthSums ids from through => traced_GetMonthSums ids from through
  | CallInsertPostTrialInvoice externalID number importID => traced_InsertPostTrialInvoice externalID number importID
  | CallGetPostTrialInvoices => traced_GetPostTrialInvoices
  | CallDeletePostTrialInvoice importID => traced_DeletePostTrialInvoice importID
  | CallFindBillingAccountByTeamID teamID => traced_FindBillingAccountByTeamID teamID
  | CallSetTeamBillingAccountProvider teamID name => traced_SetTeamBillingAccountProvider teamID name
  end.
End traced.

(** [New], of an implementation that could be opened: [traced{timed{d}}]. *)
Definition New_ledger {S} (d : LedgerImpl S) : LedgerImpl (Audited (Timed S)) := traced_ledger (H := timed_ledger (H := d)).

(** * What the decorators keep *)

(** A call to the decorated database is a call to the one inside, and nothing inside can tell. *)
Section decorated.
Context {S : Type} (d : LedgerImpl S).

Lemma timeLedgerRequest_through {A} method (m : M S error A) : through tm_d (timeLedgerRequest method m) m.
Proof. intros s. unfold timeLedgerRequest. by destruct (m (tm_d s)) as [[] ?]. Qed.
Lemma defer_trace_through {A} name args results (m : M S error A) : through au_d (defer_trace name args results m) m.
Proof. intros s. unfold defer_trace. by destruct (m (au_d s)) as [[] ?]. Qed.

Lemma timed_ledger_through {A} (c : LedgerCall A) : through tm_d (timed_ledger A c) (d A c).
Proof. destruct c; apply timeLedgerRequest_through. Qed.
Lemma traced_ledger_through {A} (c : LedgerCall A) : through au_d (traced_ledger A c) (d A c).
Proof. destruct c; apply defer_trace_through. Qed.
End decorated.

Definition undecorated_ledger {S} (s : Audited (Timed S)) : S := tm_d (au_d s).
Lemma New_ledger_through {S} (d : LedgerImpl S) {A} (c : LedgerCall A) : through undecorated_ledger (New_ledger d A c) (d A c).
Proof.
  intros s. unfold undecorated_ledger. rewrite (timed_ledger_through d c (au_d s)).
  by rewrite (traced_ledger_through (timed_ledger (H := d)) c s).
Qed.

(** A database seen through a function keeps every promise of the one it is seen as. *)
Section lawful.
Context {S U : Type} (f : U -> S) {d : LedgerImpl S} {d' : LedgerImpl U} {v : LedgerView S} {L : LawfulLedger S}.
Hypothesis Hthrough : forall A (c : LedgerCall A), through f (d' A c) (d A c).

Definition view_through : LedgerView U := {|
  ledger_ok := fun u => ledger_ok (f u); contents := fun u => contents (f u);
  invoices := fun u => invoices (f u); open_upload := fun u => open_upload (f u) |}.
#[local] Existing Instance view_through.

Lemma run_through {A} (c : LedgerCall A) u o s' : ledger_call c (f u) = (o, s') -> exists u', ledger_call c u = (o, u') /\ f u' = s'.
Proof.
  unfold ledger_call. intros Hrun. pose proof (Hthrough A c u) as Hu. rewrite Hrun in Hu. injection Hu as Ho Hs.
  exists (d' A c u).2. split; [|done]. rewrite Ho. by destruct (d' A c u).
Qed.

Lemma lawful_through : LawfulLedger U.
Proof.
  split; simpl; intros.
  - by eapply contents_keyed.
  - edestruct law_GetAggregatesFrom as (l & s' & Hrun & Hsame & Hl); [done|]. apply run_through in Hrun as (u' & Hrun & <-). by exists l, u'.
  - edestruct law_InsertAggregates as (o & s' & Hrun & Hl); [done..|]. apply run_through in Hrun as (u' & Hrun & <-). by exists o, u'.
  - edestruct law_GetAggregatesToUpload as (l & s' & Hrun & Hsame & Hl); [done|]. apply run_through in Hrun as (u' & Hrun & <-). by exists l, u'.
  - edestruct law_InsertUsageUpload as (o & s' & Hrun & Hl); [done..|]. apply run_through in Hrun as (u' & Hrun & <-). by exists o, u'.
  - edestruct law_DeleteUsageUpload as (o & s' & Hrun & Hl); [done..|]. apply run_through in Hrun as (u' & Hrun & <-). by exists o, u'.
  - edestruct law_GetPostTrialInvoices as (l & s' & Hrun & Hsame & Hl); [done|]. apply run_through in Hrun as (u' & Hrun & <-). by exists l, u'.
  - edestruct law_DeletePostTrialInvoice as (o & s' & Hrun & Hl); [done|]. apply run_through in Hrun as (u' & Hrun & <-). by exists o, u'.
Qed.
End lawful.

(** What [New] makes of a lawful database is one: the theorems on the jobs hold of it. *)
#[export] Instance decorated_view {S} `{LedgerView S} : LedgerView (Audited (Timed S)) := view_through undecorated_ledger.
#[export] Instance decorated_lawful_ledger {S} (d : LedgerImpl S) {v : LedgerView S} {L : LawfulLedger S} :
  @LawfulLedger (Audited (Timed S)) (New_ledger d) decorated_view.
Proof. apply (lawful_through undecorated_ledger (d := d)). intros A c. apply New_ledger_through. Qed.
