(* ===== verification/Zuora.v ===== *)
(** The client of Zuora (common/zuora): the errors of payments, every request with its answer, and what the billing services make
    of them. *)
From Stdlib Require Import ZArith Lia Ascii String Floats.SpecFloat.
From stdpp Require Import base tactics option gmap strings list pretty.
From S2P Require Import Prelude GoStd Users Calendar Formats Entitlement Http Encoding.

(** [StripeDeclineCode] is a string; [StripeError] *)
Record StripeError : Type := mkStripeError { Code : string; Description : string; Action : string }.

Definition ApproveWithID : string := "approve_with_id".
Definition CallIssuer : string := "call_issuer".
Definition CardNotSupported : string := "card_not_supported".
Definition CardVelocityExceeded : string := "card_velocity_exceeded".
Definition CurrencyNotSupported : string := "currency_not_supported".
Definition DoNotHonor : string := "do_not_honor".
Definition DoNotTryAgain : string := "do_not_try_again".
Definition DuplicateTransaction : string := "duplicate_transaction".
Definition ExpiredCard : string := "expired_card".
Definition Fraudulent : string := "fraudulent".
Definition GenericDecline : string := "generic_decline".
Definition IncorrectNumber : string := "incorrect_number".
Definition IncorrectCVC : string := "incorrect_cvc".
Definition IncorrectPin : string := "incorrect_pin".
Definition IncorrectZip : string := "incorrect_zip".
Definition InsufficientFunds : string := "insufficient_funds".
Definition InvalidAccount : string := "invalid_account".
Definition InvalidAmount : string := "invalid_amount".
Definition InvalidCVC : string := "invalid_cvc".
Definition InvalidExpiryYear : string := "invalid_expiry_year".
Definition InvalidNumber : string := "invalid_number".
Definition InvalidPin : string := "invalid_pin".
Definition IssuerNotAvailable : string := "issuer_not_available".
Definition LostCard : string := "lost_card".
Definition NewAccountInformationAvailable : string := "new_account_information_available".
Definition NoActionTaken : string := "no_action_taken".
Definition NotPermitted : string := "not_permitted".
Definition PickupCard : string := "pickup_card".
Definition PinTryExceeded : string := "pin_try_exceeded".
Definition ProcessingError : string := "processing_error".
Definition ReenterTransaction : string := "reenter_transaction".
Definition RestrictedCard : string := "restricted_card".
Definition RevocationOfAllAuthorizations : string := "revocation_of_all_authorizations".
Definition RevocationOfAuthorization : string := "revocation_of_authorization".
Definition SecurityViolation : string := "security_violation".
Definition ServiceNotAllowed : string := "service_not_allowed".
Definition StolenCard : string := "stolen_card".
Definition StopPaymentOrder : string := "stop_payment_order".
Definition TestmodeDecline : string := "testmode_decline".
Definition TransactionNotAllowed : string := "transaction_not_allowed".
Definition TryAgainLater : string := "try_again_later".
Definition WithdrawalCountLimitExceeded : string := "withdrawal_count_limit_exceeded".

(** [StripeError.IsFraudulent] *)
Definition IsFraudulent (e : StripeError) : bool :=
  bool_decide (Code e = Fraudulent) || bool_decide (Code e = LostCard) || bool_decide (Code e = StolenCard).

(** [stripeErrors] *)
Definition stripe_table : list StripeError := [
  mkStripeError ApproveWithID
    "The payment cannot be authorized."
    "Please contact our support team. The payment should be attempted again. If it still cannot be processed, you will need to contact your card issuer.";
  mkStripeError CallIssuer
    "The card has been declined for an unknown reason."
    "Please contact your card issuer for more information.";
  mkStripeError CardNotSupported
    "The card does not support this type of purchase."
    "Please contact your card issuer to make sure their card can be used to make this type of purchase.";
  mkStripeError CardVelocityExceeded
    "The balance or credit limit available on your card has been exceeded."
    "Please contact your card issuer for more information, or use another card.";
  mkStripeError CurrencyNotSupported
    "The card does not support the specified currency."
    "Please check with your card issuer that this card can be used for the type of currency specified.";
  mkStripeError DoNotHonor
    "The card has been declined for an unknown reason."
    "Please contact your card issuer for more information.";
  mkStripeError DoNotTryAgain
    "The card has been declined for an unknown reason."
    "Please contact your card issuer for more information.";
  mkStripeError DuplicateTransaction
    "A transaction with identical amount and credit card information was submitted very recently."
    "Please check to see if a recent payment already exists and contact our support team.";
  mkStripeError ExpiredCard
    "The card has expired."
    "Please use another card.";
  mkStripeError Fraudulent
    "The payment has been declined as Stripe suspects it is fraudulent."
    "Do not report more detailed information to your customer. Instead, present as you would the generic_decline described below.";
  mkStripeError GenericDecline
    "The card has been declined for an unknown reason."
    "Please contact your card issuer for more information.";
  mkStripeError IncorrectNumber
    "The card number is incorrect."
    "Please enter your card number again.";
  mkStripeError IncorrectCVC
    "The CVC number is incorrect."
    "Please enter your card CVC again.";
  mkStripeError IncorrectZip
    "The ZIP/postal code is incorrect."
    "Please enter your card's ZIP/postal code again.";
  mkStripeError InsufficientFunds
    "The card has insufficient funds to complete the purchase."
    "Please use another card.";
  mkStripeError InvalidAccount
    "The card, or account the card is connected to, is invalid."
    "Please contact your card issuer to check that the card is working correctly.";
  mkStripeError InvalidAmount
    "The payment amount is invalid, or exceeds the amount that is allowed."
    "If the amount appears to be correct, please check with your card issuer that you can make purchases of that amount.";
  mkStripeError InvalidCVC
    "The CVC number is incorrect."
    "Please enter your card CVC again.";
  mkStripeError InvalidExpiryYear
    "The expiration year is invalid."
    "Please enter your card's expiration date again.";
  mkStripeError InvalidNumber
    "The card number is incorrect."
    "Please enter your card's number again.";
  mkStripeError IssuerNotAvailable
    "The card issuer could not be reached, so the payment could not be authorized."
    "Please contact our support team. The payment should be attempted again. If it still cannot be processed, you will need to contact your card issuer.";
  mkStripeError LostCard
    "The payment has been declined because the card is reported lost."
    "The specific reason for the decline should not be reported to the customer. Instead, it needs to be presented as a generic decline.";
  mkStripeError NewAccountInformationAvailable
    "The card, or account the card is connected to, is invalid."
    "Please contact your card issuer for more information.";
  mkStripeError NoActionTaken
    "The card has been declined for an unknown reason."
    "Please contact your card issuer for more information.";
  mkStripeError NotPermitted
    "The payment is not permitted."
    "Please contact your card issuer for more information.";
  mkStripeError PickupCard
    "The card cannot be used to make this payment."
    "Please contact your card issuer for more information.";
  mkStripeError ProcessingError
    "An error occurred while processing the card."
    "Please contact our support team. The payment should be attempted again.";
  mkStripeError ReenterTransaction
    "The payment could not be processed by the issuer for an unknown reason."
    "Please contact our support team. The payment should be attempted again. If it still cannot be processed, you will need to contact your card issuer.";
  mkStripeError RestrictedCard
    "The card cannot be used to make this payment."
    "Please contact your card issuer for more information.";
  mkStripeError RevocationOfAllAuthorizations
    "The card has been declined for an unknown reason."
    "Please contact your card issuer for more information.";
  mkStripeError RevocationOfAuthorization
    "The card has been declined for an unknown reason."
    "Please contact your card issuer for more information.";
  mkStripeError SecurityViolation
    "The card has been declined for an unknown reason."
    "Please contact your card issuer for more information.";
  mkStripeError ServiceNotAllowed
    "The card has been declined for an unknown reason."
    "Please contact your card issuer for more information.";
  mkStripeError StolenCard
    "The payment has been declined because the card is reported stolen."
    "The specific reason for the decline should not be reported to the customer. Instead, it needs to be presented as a generic decline.";
  mkStripeError StopPaymentOrder
    "The card has been declined for an unknown reason."
    "Please contact your card issuer for more information.";
  mkStripeError TestmodeDecline
    "A test card number was used."
    "Please use a genuine card to make a payment.";
  mkStripeError TransactionNotAllowed
    "The card has been declined for an unknown reason."
    "Please contact your card issuer for more information.";
  mkStripeError TryAgainLater
    "The card has been declined for an unknown reason."
    "Please contact our support team. The payment should be attempted again. If subsequent payments are declined, you will need to contact your card issuer.";
  mkStripeError WithdrawalCountLimitExceeded
    "The balance or credit limit available on your card has been exceeded."
    "Please contact your card issuer for more information, or use another card."].
Definition stripeErrors : gmap string StripeError := list_to_map ((fun e => (Code e, e)) <$> stripe_table).

(** [GetStripeError]; a key that is missing gives the zero value. *)
Definition zero_stripe_error : StripeError := mkStripeError EmptyString EmptyString EmptyString.
Definition GetStripeError (code : string) : StripeError :=
  match stripeErrors !! code with
  | None => default zero_stripe_error (stripeErrors !! GenericDecline)
  | Some stripeError => if IsFraudulent stripeError then default zero_stripe_error (stripeErrors !! GenericDecline) else stripeError
  end.

(** A customer is never told that a payment was refused because the card was reported. *)
Definition told (e : StripeError) : Prop := IsFraudulent e = false /\ Description e <> EmptyString.
Lemma generic_decline : exists e, stripeErrors !! GenericDecline = Some e /\ told e.
Proof. eexists. split; [vm_compute; reflexivity|]. split; [vm_compute; reflexivity|]. intros H. discriminate H. Qed.
Lemma table_described e code : stripeErrors !! code = Some e -> Description e <> EmptyString.
Proof.
  intros He. assert (Hall : Forall (fun e => Description e <> EmptyString) stripe_table) by (apply (bool_decide_unpack _); vm_compute; exact I).
  rewrite Forall_forall in Hall. apply Hall. apply elem_of_list_to_map_2 in He. apply list_elem_of_fmap in He as (x & Hx & Hin).
  injection Hx as _ ->. exact Hin.
Qed.
Lemma GetStripeError_discreet code : told (GetStripeError code).
Proof.
  destruct generic_decline as (g & Hg & Hdesc). unfold GetStripeError. rewrite Hg. unfold default, id.
  destruct (stripeErrors !! code) as [e|] eqn:He; [|exact Hdesc]. destruct (IsFraudulent e) eqn:Hf; [exact Hdesc|].
  split; [exact Hf|exact (table_described e code He)].
Qed.

Module zuora.

(** * Errors (errors.go, zuora.go) *)

Record Reason : Type := mkReason { rs_Code : Z; rs_Message : string }.
Record genericZuoraResponse : Type := mkGeneric { Success : bool; Reasons : list Reason }.
Definition zero_generic : genericZuoraResponse := mkGeneric false [].

(** The sentinel errors, a response that is returned as an error, an error of the JSON client, and
    errors made with a text. *)
Inductive zerror : Type :=
  | ErrInvalidSubscriptionStatus
  | ErrNoDefaultPaymentMethod
  | ErrorObtainingPaymentMethod
  | ErrNoSubscriptions
  | ErrNotFound
  | ErrInvalidPaymentID
  | ErrTooManyTransactions
  | ErrDuplicateSubscriptions
  | ErrInvalidAccountNumber
  | ResponseError (r : genericZuoraResponse)
  | RequestError (e : procurement.ClientError)
  | TextError (text : string).

Definition SubscriptionActive : string := "active".
Definition SubscriptionInactive : string := "inactive".

Definition errorCodeCategoryNotFound : Z := 40.
(** [hasErrorCodeCategory], [ContainsErrorCode] of a response *)
Definition hasErrorCodeCategory (r : genericZuoraResponse) (cat : Z) : bool :=
  existsb (fun reason => Z.rem (rs_Code reason) 100 =? cat) (Reasons r).
Definition response_ContainsErrorCode (r : genericZuoraResponse) (code : Z) : bool :=
  existsb (fun reason => rs_Code reason =? code) (Reasons r).

(** [(r *genericZuoraResponse) Error()] *)
Definition response_Error (r : genericZuoraResponse) : string :=
  if Success r then "success"
  else match Reasons r with
       | [] => "unknown error"
       | reasons =>
           if hasErrorCodeCategory r errorCodeCategoryNotFound then "not found"
           else strings.Join ((fun x => rs_Message x +:+ " (error code: " +:+ pretty (rs_Code x) +:+ ")") <$> reasons) ", "
       end.

(** [err.Error()] *)
Definition Error (err : zerror) : string :=
  match err with
  | ErrInvalidSubscriptionStatus => "invalid subscription status, should be one of: [" +:+ SubscriptionActive +:+ " " +:+ SubscriptionInactive +:+ "]"
  | ErrNoDefaultPaymentMethod => "no default payment method found"
  | ErrorObtainingPaymentMethod => "error looking up payment method"
  | ErrNoSubscriptions => "no subscriptions"
  | ErrNotFound => "not found"
  | ErrInvalidPaymentID => "invalid zuora payment ID"
  | ErrTooManyTransactions => "too many transactions"
  | ErrDuplicateSubscriptions => "duplicate subscriptions"
  | ErrInvalidAccountNumber => "invalid zuora account number"
  | ResponseError r => response_Error r
  | RequestError e => procurement.ClientError_Error e
  | TextError text => text
  end.

(** [(z *Zuora) ContainsErrorCode]: responses only. *)
Definition ContainsErrorCode (err : zerror) (code : Z) : bool :=
  match err with ResponseError r => response_ContainsErrorCode r code | _ => false end.

Definition ErrRuleRestrictionInRestService : Z := 54000030.
Definition NoInvoiceOnWhichToCollectPayment : string := "There is no invoice on which to collect payment".
Definition ErrInternalErrorInRestService : Z := 54000060.
Definition AmountMustBeAtLeast50Cents : string := "Amount must be at least 50 cents".

Definition NoChargeableUsage (err : zerror) : bool :=
  ContainsErrorCode err ErrRuleRestrictionInRestService && strings.Contains (Error err) NoInvoiceOnWhichToCollectPayment.
Definition ChargeableUsageTooLow (err : zerror) : bool :=
  ContainsErrorCode err ErrInternalErrorInRestService && strings.Contains (Error err) AmountMustBeAtLeast50Cents.

(** * Configuration (config.go) *)

Record Config : Type := mkConfig {
  Username : string; Password : string; Endpoint : string; RestEndpoint : string;
  SuspendPolicy : string; ResumePolicy : string; SubscriptionTermType : string; ProductRatePlanID : string;
  HostedPaymentPageURI : string; cfg_HostedPaymentPageID : string; cfg_PaymentGateway : string; cfg_SupportedCards : string;
  DateFormat : string }.

Definition Validate (c : Config) (requirePlanID : bool) : option zerror :=
  if requirePlanID && bool_decide (ProductRatePlanID c = EmptyString) then Some (TextError "-zuora.product-rate-plan-id cannot be empty") else None.

(** * Data *)

(** ** Accounts (accounts.go) *)

Record Contact : Type := mkContact {
  ct_ID : string; ct_FirstName : string; ct_LastName : string; ct_Address1 : string; ct_Address2 : string; ct_City : string;
  ct_ZipCode : string; ct_State : string; ct_Country : string; ct_WorkEmail : string; ct_WorkPhone : string }.
Definition zero_contact : Contact :=
  mkContact EmptyString EmptyString EmptyString EmptyString EmptyString EmptyString EmptyString EmptyString EmptyString EmptyString EmptyString.

Record RatePlanCharge : Type := mkRatePlanCharge {
  rc_ID : string; rc_ChargeNumber : string; rc_PricingSummary : string; rc_Currency : string; rc_Price : spec_float; rc_Uom : string }.
Record SubscriptionRatePlan : Type := mkSubscriptionRatePlan {
  rp_ProductID : string; rp_ProductRatePlanID : string; RatePlanCharges : list RatePlanCharge }.

Record AccountSubscription : Type := mkAccountSubscription {
  as_SubscriptionNumber : string; as_Currency : string; as_ChargeID : string; as_ChargeNumber : string;
  as_PricingSummary : string; as_Price : spec_float; as_SubscriptionStartDate : string; as_RatePlans : list SubscriptionRatePlan }.
Definition zero_subscription : AccountSubscription :=
  mkAccountSubscription EmptyString EmptyString EmptyString EmptyString EmptyString (S754_zero false) EmptyString [].

Record PaymentStatus : Type := mkPaymentStatus { ps_Status : string; ps_Description : string; ps_Action : string }.
Definition PaymentOK : string := "active".
Definition PaymentError : string := "inactive".

Record Account : Type := mkAccount {
  ac_ZuoraID : string; ac_Number : string; ac_PaymentProviderID : string; ac_SubscriptionStatus : string;
  ac_PaymentStatus : PaymentStatus; ac_Subscription : option AccountSubscription; ac_BillToContact : Contact; ac_BillCycleDay : Z }.

Record Payment : Type := mkPayment { py_ID : string; py_Status : string; py_EffectiveDate : string }.

Record BasicInfo : Type := mkBasicInfo { bi_ZuoraID : string; bi_ID : string; bi_Currency : string; bi_BillCycleDay : Z }.
Record SummarySubscription : Type := mkSummarySubscription { ss_ID : string; ss_Status : string; ss_RatePlans : list SubscriptionRatePlan }.
Record zuoraSummaryResponse : Type := mkSummary {
  sm_response : genericZuoraResponse; sm_BasicInfo : BasicInfo; sm_BillToContact : Contact;
  sm_Subscriptions : list SummarySubscription; sm_Payments : list Payment; sm_Invoices : list string }.

Record subscriptionResponse : Type := mkSubscriptionResponse {
  sr_SubscriptionNumber : string; sr_SubscriptionStartDate : string; sr_RatePlans : list SubscriptionRatePlan }.
Record zuoraSubscriptionResponse : Type := mkSubscriptionsResponse { zs_response : genericZuoraResponse; zs_Subscriptions : list subscriptionResponse }.

Record resumeAccountResponse : Type := mkResumeResponse {
  ra_response : genericZuoraResponse; ra_SubscriptionID : string; ra_ResumeDate : string; ra_TermEndDate : string; ra_TotalDeltaTcv : spec_float }.
Record suspendAccountResponse : Type := mkSuspendResponse { su_resume : resumeAccountResponse; su_SuspendDate : string; su_InvoiceID : string }.

Record accountCreditCard : Type := mkAccountCreditCard { cc_CardType : string; cc_CardNumber : string; cc_ExpirationMonth : Z; cc_ExpirationYear : Z }.
Record subscription : Type := mkSubscription {
  sb_TermType : string; sb_ContractEffectiveDate : string; sb_SubscribeToRatePlans : list string;
  sb_ServiceActivationDate : string; sb_CustomerAcceptanceDate : string }.
Record createAccountRequest : Type := mkCreateAccountRequest {
  ca_AccountNumber : string; ca_Name : string; ca_Currency : string; ca_BillToContact : Contact;
  ca_HpmCreditCardPaymentMethodID : string; ca_CreditCard : option accountCreditCard; ca_Subscription : subscription;
  ca_BillCycleDay : Z; ca_InvoiceCollect : bool }.
Record createAccountResponse : Type := mkCreateAccountResponse { cr_response : genericZuoraResponse; cr_AccountNumber : string; cr_AccountID : string }.

(** ** Payments (payments.go) *)

Record AuthenticationTokens : Type := mkTokens {
  at_response : genericZuoraResponse; at_Signature : string; at_Token : string; at_TenantID : string; at_Key : string;
  at_AccountNumber : string; at_HostedPaymentPageID : string; at_HostedPaymentPageURL : string; at_PaymentGateway : string; at_SupportedCards : string }.
Record CardHolderInfo : Type := mkCardHolder {
  ch_CardHolderName : string; ch_AddressLine1 : string; ch_AddressLine2 : string; ch_City : string; ch_State : string;
  ch_Country : string; ch_Phone : string; ch_Email : string; ch_ZipCode : string }.
Record CreditCard : Type := mkCreditCard {
  cd_ID : string; cd_DefaultPaymentMethod : bool; cd_CardType : string; cd_CardNumber : string;
  cd_ExpirationMonth : Z; cd_ExpirationYear : Z; cd_CardHolderInfo : CardHolderInfo }.
Record paymentMethods : Type := mkPaymentMethods { pm_response : genericZuoraResponse; pm_CreditCards : list CreditCard }.
Record PaidInvoice : Type := mkPaidInvoice { pi_InvoiceID : string; pi_InvoiceNumber : string; pi_AppliedPaymentAmount : spec_float }.
Record PaymentDetails : Type := mkPaymentDetails {
  pd_ID : string; pd_AccountID : string; pd_AccountNumber : string; pd_Type : string; pd_EffectiveDate : string;
  pd_PaymentNumber : string; pd_PaymentMethodID : string; pd_Amount : spec_float; pd_PaidInvoices : list PaidInvoice;
  pd_GatewayTransactionNumber : string; pd_Status : string }.
Record paymentsResponse : Type := mkPaymentsResponse { pr_response : genericZuoraResponse; pr_PaymentDetails : list PaymentDetails }.
Record PaymentTransaction : Type := mkPaymentTransaction {
  ptx_ID : string; ptx_Gateway : string; ptx_GatewayState : string; ptx_GatewayReasonCode : string;
  ptx_GatewayReasonCodeDescription : string; ptx_GatewayTransactionType : string; ptx_PaymentID : string;
  ptx_TransactionDate : string; ptx_TransactionID : string; ptx_RequestString : string; ptx_ResponseString : string }.
Record actionQueryResponse : Type := mkActionQueryResponse { aq_Done : bool; aq_Size : Z; aq_Records : list PaymentTransaction }.

(** ** Usage, invoices, products (usage.go, invoices.go, products.go) *)

Record Usage : Type := mkUsage { us_AccountID : string; us_StartDate : string; us_UnitType : string; us_Quantity : spec_float; us_Status : string }.
Record postUsageResponse : Type := mkPostUsageResponse { pu_response : genericZuoraResponse; pu_CheckImportStatusURL : string }.
Record getUsageResponse : Type := mkGetUsageResponse { gu_Success : bool; gu_Usages : list Usage }.
Record ImportStatusResponse : Type := mkImportStatus { is_response : genericZuoraResponse; is_ImportStatus : string; is_Message : string }.
Definition Completed : string := "Completed".

Record InvoiceItem : Type := mkInvoiceItem {
  ii_ID : string; ii_SubscriptionName : string; ii_ServiceStartDate : string; ii_ServiceEndDate : string;
  ii_ChargeAmount : spec_float; ii_ChargeDescription : string; ii_ChargeName : string; ii_ProductName : string;
  ii_Quantity : spec_float; ii_TaxAmount : spec_float; ii_UnitOfMeasure : string; ii_ChargeDate : string;
  ii_ChargeType : string; ii_ProcessingType : string }.
Record InvoiceFile : Type := mkInvoiceFile { if_ID : string; if_VersionNumber : Z; if_PdfFileURL : string }.
Record Invoice : Type := mkInvoice {
  iv_ID : string; iv_AccountName : string; iv_AccountNumber : string; iv_InvoiceDate : string; iv_InvoiceNumber : string;
  iv_DueDate : string; iv_InvoiceTargetDate : string; iv_Amount : spec_float; iv_Balance : spec_float;
  iv_CreditBalanceAdjustmentAmount : spec_float; iv_Status : string; iv_Body : string;
  iv_InvoiceItems : list InvoiceItem; iv_InvoiceFiles : list InvoiceFile }.
Record invoicesResponse : Type := mkInvoicesResponse { ir_response : genericZuoraResponse; ir_Invoices : list Invoice; ir_NextPage : string }.
Record createInvoiceResponse : Type := mkCreateInvoiceResponse { ci_response : genericZuoraResponse; ci_PaymentID : string }.

Record Pricing : Type := mkPricing { pc_Price : spec_float; pc_Currency : string }.
Record ProductRatePlanCharge : Type := mkProductRatePlanCharge { pg_ID : string; pg_Name : string; pg_UOM : string; pg_Pricing : list Pricing }.
Record ProductRatePlan : Type := mkProductRatePlan {
  pp_ID : string; pp_Status : string; pp_Name : string; ProductRatePlanCharges : list ProductRatePlanCharge }.
Record zuoraProduct : Type := mkProduct { zp_ID : string; zp_Name : string; zp_SKU : string; ProductRatePlans : list ProductRatePlan }.
Record zuoraCatalogResponse : Type := mkCatalog { zc_response : genericZuoraResponse; zc_Products : list zuoraProduct }.
Record zuoraCatalogProductResponse : Type := mkCatalogProduct { zcp_response : genericZuoraResponse; zcp_product : zuoraProduct }.
(** What [ServeFile] uses of a response: its status line, three headers, and what could be read of its body. *)
Record File : Type := mkFile { fl_Status : string; fl_ContentType : string; fl_ContentDisposition : string; fl_ContentLength : string; fl_Body : string }.
Definition RateMap : Type := gmap string (gmap string spec_float).

(** * Requests *)

(** Where the answer of a request is decoded to, with the value it holds before. *)
Inductive Destination : Type -> Type :=
  | NoDestination : Destination unit
  | ToGeneric : Destination genericZuoraResponse
  | ToSummary : Destination zuoraSummaryResponse
  | ToSubscriptions : Destination zuoraSubscriptionResponse
  | ToResume : Destination resumeAccountResponse
  | ToSuspend : Destination suspendAccountResponse
  | ToCreateAccount : Destination createAccountResponse
  | ToTokens (into : AuthenticationTokens) : Destination AuthenticationTokens
  | ToPaymentMethods : Destination paymentMethods
  | ToPayments : Destination paymentsResponse
  | ToActionQuery : Destination actionQueryResponse
  | ToPostUsage : Destination postUsageResponse
  | ToGetUsage : Destination getUsageResponse
  | ToImportStatus : Destination ImportStatusResponse
  | ToInvoices : Destination invoicesResponse
  | ToCreateInvoice : Destination createInvoiceResponse
  | ToCatalog : Destination zuoraCatalogResponse
  | ToProduct : Destination zuoraCatalogProductResponse
  | ToFile : Destination File.

Definition zero_resume : resumeAccountResponse := mkResumeResponse zero_generic EmptyString EmptyString EmptyString (S754_zero false).
Definition zero_tokens : AuthenticationTokens :=
  mkTokens zero_generic EmptyString EmptyString EmptyString EmptyString EmptyString EmptyString EmptyString EmptyString EmptyString.

Definition initial {A} (dest : Destination A) : A :=
  match dest with
  | NoDestination => tt
  | ToGeneric => zero_generic
  | ToSummary => mkSummary zero_generic (mkBasicInfo EmptyString EmptyString EmptyString 0) zero_contact [] [] []
  | ToSubscriptions => mkSubscriptionsResponse zero_generic []
  | ToResume => zero_resume
  | ToSuspend => mkSuspendResponse zero_resume EmptyString EmptyString
  | ToCreateAccount => mkCreateAccountResponse zero_generic EmptyString EmptyString
  | ToTokens into => into
  | ToPaymentMethods => mkPaymentMethods zero_generic []
  | ToPayments => mkPaymentsResponse zero_generic []
  | ToActionQuery => mkActionQueryResponse false 0 []
  | ToPostUsage => mkPostUsageResponse zero_generic EmptyString
  | ToGetUsage => mkGetUsageResponse false []
  | ToImportStatus => mkImportStatus zero_generic EmptyString EmptyString
  | ToInvoices => mkInvoicesResponse zero_generic [] EmptyString
  | ToCreateInvoice => mkCreateInvoiceResponse zero_generic EmptyString
  | ToCatalog => mkCatalog zero_generic []
  | ToProduct => mkCatalogProduct zero_generic (mkProduct EmptyString EmptyString EmptyString [])
  | ToFile => mkFile EmptyString EmptyString EmptyString EmptyString EmptyString
  end.

(** What a request carries: the fields of a JSON object, or a file. *)
Inductive Payload : Type :=
  | NoPayload
  | AuthenticationRequest (URI Method PageID : string)
  | UpdateAccountRequest (BillToContact : Contact)
  | ResumeAccountRequest (policy : string)
  | SuspendAccountRequest (policy : string)
  | CreateAccountRequest (request : createAccountRequest)
  | PaymentUpdateMethod (defaultPaymentMethod : bool)
  | ActionQueryRequest (QueryString : string)
  | CreateInvoiceRequest (AccountKey : string)
  | FormFile (name filename content : string).

Record HTTPRequest : Type := mkHTTPRequest {
  hr_method : string; hr_url : string; hr_headers : list (string * string); hr_payload : Payload }.

(** The service at the other end, what was sent to it, and how long was slept. *)
Record Remote (N : Type) : Type := mkRemote { r_net : N; r_sent : list HTTPRequest; r_slept : list time.Duration }.
Arguments mkRemote {N}. Arguments r_net {N}. Arguments r_sent {N}. Arguments r_slept {N}.

(** * Paths *)

Definition accountsPath : string := "accounts".
Definition accountPath (number : string) : string := accountsPath +:+ "/" +:+ number.
Definition summaryPath (number : string) : string := accountPath number +:+ "/summary".
Definition subscriptionPath (id : string) : string := "subscriptions/" +:+ id.
Definition accountSubscriptionPath (number : string) : string := "subscriptions/accounts/" +:+ number.
Definition suspendPath (id : string) : string := subscriptionPath id +:+ "/suspend".
Definition resumePath (id : string) : string := subscriptionPath id +:+ "/resume".
Definition deletePath (id : string) : string := "object/account/" +:+ id.
Definition deleteURL : string := "https://rest.apisandbox.zuora.com/v1/".
Definition BillCycleDay : Z := 1.
Definition paymentTokenPath : string := "rsa-signatures".
Definition updatePaymentPath (id : string) : string := "payment-methods/credit-cards/" +:+ id.
Definition getPaymentPath (number : string) : string := "payment-methods/credit-cards/accounts/" +:+ number.
Definition getPaymentsPath (number : string) : string := "transactions/payments/accounts/" +:+ number.
Definition actionQueryPath : string := "action/query".
Definition paymentTransactionLogZOQLTemplate (paymentID : string) : string :=
  "SELECT Id, Gateway, GatewayState, GatewayReasonCode, GatewayReasonCodeDescription, GatewayTransactionType, PaymentId, TransactionId, TransactionDate, RequestString, ResponseString FROM PaymentTransactionLog WHERE PaymentId='" +:+ paymentID +:+ "'".
Definition getInvoicesPath (number : string) : string := "transactions/invoices/accounts/" +:+ number.
Definition createInvoicePath : string := "operations/invoice-collect".
Definition postUsagePath : string := "usage".
Definition getUsagePath (number : string) : string := "usage/accounts/" +:+ number.
Definition getImportStatusPath (id : string) : string := "usage/" +:+ id +:+ "/status".
Definition productsPath : string := "catalog/products".
Definition productPath (id : string) : string := "catalog/product/" +:+ id.
Definition weaveCloudSKU : string := "SKU-00000001".
Definition UsageNodeSeconds : string := "node-seconds".

(** [pagingParams], encoded: the keys are sorted. *)
Definition pagingParams (page pageSize : string) : string :=
  "page=" +:+ url.QueryEscape page +:+ "&pageSize=" +:+ url.QueryEscape pageSize.

(** [New]: the endpoint ends with a slash. *)
Definition New (cfg : Config) : Config :=
  if strings.HasSuffix (Endpoint cfg) "/" then cfg
  else mkConfig (Username cfg) (Password cfg) (Endpoint cfg +:+ "/") (RestEndpoint cfg) (SuspendPolicy cfg) (ResumePolicy cfg)
         (SubscriptionTermType cfg) (ProductRatePlanID cfg) (HostedPaymentPageURI cfg) (cfg_HostedPaymentPageID cfg)
         (cfg_PaymentGateway cfg) (cfg_SupportedCards cfg) (DateFormat cfg).

(** [ToZuoraAccountNumber], with the hexadecimal SHA-256 of a text. *)
Definition ToZuoraAccountNumber (sha256_hex : string -> string) (weaveID : string) : string :=
  String.substring 0 32 ("W" +:+ sha256_hex weaveID).

(** [subscriptionStatusMap], [paymentStatusMap] *)
Definition subscriptionStatusMap : gmap string string := list_to_map [
  ("Draft", SubscriptionActive); ("PendingActivation", SubscriptionActive); ("PendingAcceptance", SubscriptionActive);
  ("Active", SubscriptionActive); ("Suspended", SubscriptionInactive); ("Cancelled", SubscriptionInactive); ("Expired", SubscriptionInactive)].
Definition paymentStatusMap : gmap string string := list_to_map [
  ("Draft", PaymentOK); ("Processing", PaymentOK); ("Processed", PaymentOK); ("Error", PaymentError); ("Voided", PaymentOK);
  ("Canceled", PaymentOK); ("Posted", PaymentOK)].

(** [extractNodeSecondsSubscription]: the charges are visited plan by plan. *)
Definition charges (subscriptions : list subscriptionResponse) : list (subscriptionResponse * RatePlanCharge) :=
  sub ← subscriptions; plan ← sr_RatePlans sub; charge ← RatePlanCharges plan; [(sub, charge)].
Fixpoint extract_loop (found : option AccountSubscription) (l : list (subscriptionResponse * RatePlanCharge)) : zerror + option AccountSubscription :=
  match l with
  | [] => inr found
  | (sub, charge) :: l' =>
      if strings.HasSuffix (rc_Uom charge) UsageNodeSeconds
      then match found with
           | Some _ => inl ErrDuplicateSubscriptions
           | None =>
               match ParseDate (sr_SubscriptionStartDate sub) with
               | None => inl ErrNoSubscriptions
               | Some start =>
                   extract_loop (Some (mkAccountSubscription (sr_SubscriptionNumber sub) (rc_Currency charge) (rc_ID charge)
                     (rc_ChargeNumber charge) (rc_PricingSummary charge) (rc_Price charge) (RFC3339 start) (sr_RatePlans sub))) l'
               end
           end
      else extract_loop found l'
  end.
Definition extractNodeSecondsSubscription (subscriptions : list subscriptionResponse) : zerror + option AccountSubscription :=
  extract_loop None (charges subscriptions).

(** The loop of [GetPaymentStatus]: nothing when a payment cannot be read, otherwise the latest
    payment, the status and the date. *)
Fixpoint payments_loop (latestID latestStatus : string) (latestDate : time.Time) (payments : list Payment) : option (string * string) :=
  match payments with
  | [] => Some (latestID, latestStatus)
  | payment :: payments' =>
      match ParseDate (py_EffectiveDate payment) with
      | None => None
      | Some effectiveDate =>
          match paymentStatusMap !! py_Status payment with
          | None => None
          | Some status =>
              if time.IsZero latestDate || time.Before latestDate effectiveDate
              then payments_loop (py_ID payment) status effectiveDate payments'
              else if (latestDate =? effectiveDate) && bool_decide (status = PaymentError)
              then payments_loop latestID PaymentError latestDate payments'
              else payments_loop latestID latestStatus latestDate payments'
          end
      end
  end.

(** [computeActivationAndAcceptanceDate], at an instant *)
Definition computeActivationAndAcceptanceDate (now serviceActivationTime : time.Time) : time.Time * time.Time :=
  let today := time.Truncate now (24 * time.Hour) in
  let serviceActivationDate := time.Truncate serviceActivationTime (24 * time.Hour) in
  (serviceActivationDate, if time.Before today serviceActivationDate then serviceActivationDate else today).
Definition dateFormat : string := "2006-01-02".

(** [extractUsageImportID]: the leftmost match of "/v1/usage/([a-z0-9]*)/status". *)
Fixpoint take_word (s : string) : string * string :=
  match s with
  | EmptyString => (EmptyString, EmptyString)
  | String c s' => if strings.is_lower c || strings.is_digit c then let '(w, r) := take_word s' in (String c w, r) else (EmptyString, s)
  end.
Fixpoint find_usage_id (s : string) : option string :=
  let here :=
    if strings.HasPrefix s "/v1/usage/"
    then let '(id, rest) := take_word (strings.TrimPrefix s "/v1/usage/") in if strings.HasPrefix rest "/status" then Some id else None
    else None in
  match here with
  | Some id => Some id
  | None => match s with EmptyString => None | String _ s' => find_usage_id s' end
  end.
Definition extractUsageImportID (path : string) : zerror + string :=
  match find_usage_id path with
  | Some id => inr id
  | None => inl (TextError ("could not parse usage import status id path: " +:+ path))
  end.

(** [fmt.Sprint] of a status: its response, its status and its message between braces. *)
Definition show_reason (r : Reason) : string := "{" +:+ pretty (rs_Code r) +:+ " " +:+ rs_Message r +:+ "}".
Definition show_status (r : ImportStatusResponse) : string :=
  "{{" +:+ (if Success (is_response r) then "true" else "false") +:+ " [" +:+ strings.Join (show_reason <$> Reasons (is_response r)) " " +:+ "]} "
  +:+ is_ImportStatus r +:+ " " +:+ is_Message r +:+ "}".

(** * The client *)

(** A loop that stops at an error returned by the call. *)
Definition or_throw {S A} (r : zerror + A) : M S zerror A := match r with inl e => throw e | inr a => ret a end.

Section client.
Context {N : Type}.
(** The service: the answer to a request, decoded. *)
Variable network : forall A, Destination A -> HTTPRequest -> N -> procurement.Reply A * N.
Variable sha256_hex : string -> string.
Variable cfg : Config.

Abbreviation Client := (M (Remote N) zerror).

(** [URL], [RestURL] *)
Definition URL (path : string) : string := Endpoint cfg +:+ path.
Definition RestURL (path : string) : string := RestEndpoint cfg +:+ path.

(** [authClient.Do] *)
Definition authenticated (headers : list (string * string)) : list (string * string) :=
  headers ++ [("apiAccessKeyId", Username cfg); ("apiSecretAccessKey", Password cfg)].

(** [JSONClient]: without a destination the body is not read. *)
Definition parse {A} (dest : Destination A) (r : procurement.Reply A) : option procurement.ClientError :=
  match dest, r with
  | NoDestination, procurement.Response status _ _ =>
      if (status <? 200) || (299 <? status) then Some (procurement.HTTPStatusError status) else None
  | _, r => procurement.parseJSON r
  end.
Definition exchange {A} (method url contentType : string) (payload : Payload) (dest : Destination A) : Client (A * option zerror) := fun s =>
  let request := mkHTTPRequest method url (authenticated [("Content-Type", contentType)]) payload in
  let '(reply, n) := network A dest request (r_net s) in
  (Ret (procurement.decoded (initial dest) reply, RequestError <$> parse dest reply), mkRemote n (r_sent s ++ [request]) (r_slept s)).
Definition send {A} (method url contentType : string) (payload : Payload) (dest : Destination A) : Client A :=
  do r <- exchange method url contentType payload dest;
  let '(resp, err) := r in
  match err with Some err => throw err | None => ret resp end.
Definition Get {A} (url : string) (dest : Destination A) : Client A := send "GET" url "application/json" NoPayload dest.
Definition Post {A} (url : string) (data : Payload) (dest : Destination A) : Client A := send "POST" url "application/json" data dest.
Definition Put {A} (url : string) (data : Payload) (dest : Destination A) : Client A := send "PUT" url "application/json" data dest.
Definition Delete {A} (url : string) (dest : Destination A) : Client A := send "DELETE" url "application/json" NoPayload dest.
Definition Upload {A} (url : string) (file : Payload) (dest : Destination A) : Client A := send "POST" url "multipart/form-data" file dest.

(** A response that is not a success is the error. *)
Definition success (r : genericZuoraResponse) : Client unit := if Success r then ret tt else throw (ResponseError r).
Definition account_number (number : string) : Client unit := if decide (number = EmptyString) then throw ErrInvalidAccountNumber else ret tt.

(** ** Payments *)

Definition GetPaymentTransactionLog (paymentID : string) : Client PaymentTransaction :=
  if decide (paymentID = EmptyString) then throw ErrInvalidPaymentID
  else
    do resp <- Post (RestURL actionQueryPath) (ActionQueryRequest (paymentTransactionLogZOQLTemplate paymentID)) ToActionQuery;
    match aq_Records resp with
    | [] => throw ErrNotFound
    | [transaction] => ret transaction
    | _ => throw ErrTooManyTransactions
    end.

(** [getUnderlyingStripePaymentError]: any error is logged, and a generic decline returned. *)
Definition getUnderlyingStripePaymentError (latestID : string) : Client StripeError :=
  do transactionLog <- try (GetPaymentTransactionLog latestID);
  match transactionLog with
  | inl _ => ret (GetStripeError GenericDecline)
  | inr transactionLog => ret (GetStripeError (ptx_GatewayReasonCode transactionLog))
  end.

Definition GetPaymentStatus (payments : list Payment) : Client PaymentStatus :=
  match payments_loop EmptyString PaymentOK 0 payments with
  | None => ret (mkPaymentStatus PaymentError EmptyString EmptyString)
  | Some (latestID, latestStatus) =>
      if decide (latestStatus = PaymentError)
      then
        do stripeError <- getUnderlyingStripePaymentError latestID;
        ret (mkPaymentStatus latestStatus (Description stripeError) (Action stripeError))
      else ret (mkPaymentStatus latestStatus EmptyString EmptyString)
  end.

Definition GetAuthenticationTokens (zuoraAccountNumber : string) : Client AuthenticationTokens :=
  let into := mkTokens zero_generic EmptyString EmptyString EmptyString EmptyString zuoraAccountNumber EmptyString EmptyString EmptyString EmptyString in
  do resp <- Post (URL paymentTokenPath) (AuthenticationRequest (HostedPaymentPageURI cfg) "POST" (cfg_HostedPaymentPageID cfg)) (ToTokens into);
  success (at_response resp) ;;;
  ret (mkTokens (at_response resp) (at_Signature resp) (at_Token resp) (at_TenantID resp) (at_Key resp) (at_AccountNumber resp)
         (cfg_HostedPaymentPageID cfg) (HostedPaymentPageURI cfg) (cfg_PaymentGateway cfg) (cfg_SupportedCards cfg)).

Definition UpdatePaymentMethod (paymentMethodID : string) : Client unit :=
  do resp <- Put (URL (updatePaymentPath paymentMethodID)) (PaymentUpdateMethod true) ToGeneric;
  success resp.

Definition GetPaymentMethod (zuoraAccountNumber : string) : Client CreditCard :=
  account_number zuoraAccountNumber ;;;
  do resp <- Get (URL (getPaymentPath zuoraAccountNumber)) ToPaymentMethods;
  success (pm_response resp) ;;;
  match List.find cd_DefaultPaymentMethod (pm_CreditCards resp) with
  | Some card => ret card
  | None => throw ErrNoDefaultPaymentMethod
  end.

Definition GetPayments (zuoraAccountNumber : string) : Client (list PaymentDetails) :=
  account_number zuoraAccountNumber ;;;
  do resp <- Get (URL (getPaymentsPath zuoraAccountNumber)) ToPayments;
  success (pr_response resp) ;;;
  ret (pr_PaymentDetails resp).

(** ** Accounts *)

Definition getAccountSummary (zuoraID : string) : Client zuoraSummaryResponse := Get (URL (summaryPath zuoraID)) ToSummary.
Definition getAccountSubscription (accountNumber : string) : Client zuoraSubscriptionResponse := Get (URL (accountSubscriptionPath accountNumber)) ToSubscriptions.

(** [GetAccount]: an error of the second request leaves an empty subscription, and an account
    without a charge for node-seconds a nil one. *)
Definition GetAccount (zuoraAccountNumber : string) : Client Account :=
  account_number zuoraAccountNumber ;;;
  do summary <- getAccountSummary zuoraAccountNumber;
  if Success (sm_response summary)
  then
    let subscriptionStatus :=
      match sm_Subscriptions summary with
      | [] => SubscriptionInactive
      | s :: _ => default SubscriptionInactive (subscriptionStatusMap !! ss_Status s)
      end in
    do paymentStatus <- GetPaymentStatus (sm_Payments summary);
    do subscriptionResponse <- try (getAccountSubscription zuoraAccountNumber);
    do subscription <- match subscriptionResponse with
                       | inl _ => ret (Some zero_subscription)
                       | inr resp => or_throw (extractNodeSecondsSubscription (zs_Subscriptions resp))
                       end;
    ret (mkAccount (bi_ZuoraID (sm_BasicInfo summary)) zuoraAccountNumber (bi_ID (sm_BasicInfo summary)) subscriptionStatus paymentStatus
           subscription (sm_BillToContact summary) (bi_BillCycleDay (sm_BasicInfo summary)))
  else throw ErrNotFound.

Definition resumeAccount (subscriptionID : string) : Client unit :=
  do resp <- Put (URL (resumePath subscriptionID)) (ResumeAccountRequest (ResumePolicy cfg)) ToResume;
  success (ra_response resp).
Definition suspendAccount (subscriptionID : string) : Client unit :=
  do resp <- Put (URL (suspendPath subscriptionID)) (SuspendAccountRequest (SuspendPolicy cfg)) ToSuspend;
  success (ra_response (su_resume resp)).

(** [UpdateAccount], of the status and the contact of the account it is given *)
Definition UpdateAccount (zuoraAccountNumber status : string) (contact : Contact) : Client Account :=
  account_number zuoraAccountNumber ;;;
  do currentAccount <- getAccountSummary zuoraAccountNumber;
  match sm_Subscriptions currentAccount with
  | [] => throw ErrNoSubscriptions
  | first :: _ =>
      do resp <- Put (URL (accountPath zuoraAccountNumber)) (UpdateAccountRequest contact) ToGeneric;
      success resp ;;;
      (if decide (status = EmptyString) then ret tt
       else if decide (status = SubscriptionActive) then resumeAccount (ss_ID first)
       else if decide (status = SubscriptionInactive) then suspendAccount (ss_ID first)
       else throw ErrInvalidSubscriptionStatus) ;;;
      GetAccount zuoraAccountNumber
  end.

Definition createAccount (zuoraAccountNumber : string) (request : createAccountRequest) : Client Account :=
  do resp <- Post (URL accountsPath) (CreateAccountRequest request) ToCreateAccount;
  success (cr_response resp) ;;;
  GetAccount zuoraAccountNumber.

Definition new_subscription (now serviceActivationTime : time.Time) : subscription :=
  let '(serviceActivationDate, acceptanceDate) := computeActivationAndAcceptanceDate now serviceActivationTime in
  mkSubscription (SubscriptionTermType cfg) (FormatDate dateFormat serviceActivationDate) [ProductRatePlanID cfg] EmptyString (FormatDate dateFormat acceptanceDate).
Definition CreateAccount (now : time.Time) (orgID : string) (contact : Contact) (currency paymentMethodID : string) (billCycleDay : Z)
    (serviceActivationTime : time.Time) : Client Account :=
  let number := ToZuoraAccountNumber sha256_hex orgID in
  createAccount number (mkCreateAccountRequest number orgID currency contact paymentMethodID None (new_subscription now serviceActivationTime) billCycleDay false).
Definition CreateAccountWithCC (now : time.Time) (orgID : string) (contact : Contact) (currency : string) (billCycleDay : Z)
    (card : accountCreditCard) (serviceActivationTime : time.Time) : Client Account :=
  let number := ToZuoraAccountNumber sha256_hex orgID in
  createAccount number (mkCreateAccountRequest number orgID currency contact EmptyString (Some card) (new_subscription now serviceActivationTime) billCycleDay false).

Definition DeleteAccount (zuoraID : string) : Client unit := Delete (deleteURL +:+ deletePath zuoraID) NoDestination.

(** ** Invoices *)

Definition GetInvoices (zuoraAccountNumber page pageSize : string) : Client (list Invoice) :=
  account_number zuoraAccountNumber ;;;
  do resp <- Get (URL (getInvoicesPath zuoraAccountNumber) +:+ "?" +:+ pagingParams page pageSize) ToInvoices;
  if Success (ir_response resp) then ret (ir_Invoices resp)
  else if hasErrorCodeCategory (ir_response resp) errorCodeCategoryNotFound then throw ErrNotFound
  else throw (ResponseError (ir_response resp)).

Definition CreateInvoice (zuoraAccountNumber : string) : Client string :=
  account_number zuoraAccountNumber ;;;
  do resp <- Post (URL createInvoicePath) (CreateInvoiceRequest zuoraAccountNumber) ToCreateInvoice;
  success (ci_response resp) ;;;
  ret (ci_PaymentID resp).

(** ** Usage *)

Definition GetUsage (zuoraAccountNumber page pageSize : string) : Client (list Usage) :=
  account_number zuoraAccountNumber ;;;
  do resp <- Get (URL (getUsagePath zuoraAccountNumber) +:+ "?" +:+ pagingParams page pageSize) ToGetUsage;
  if gu_Success resp then ret (gu_Usages resp) else throw ErrNotFound.

Definition GetUsageImportStatusURL (usageUploadID : string) : string := URL (getImportStatusPath usageUploadID).

(** [GetUsageImportStatus] returns the response with the error. *)
Definition GetUsageImportStatus (url : string) : Client (ImportStatusResponse * option zerror) :=
  do r <- exchange "GET" url "application/json" NoPayload ToImportStatus;
  let '(resp, err) := r in
  match err with
  | Some err => ret (resp, Some err)
  | None => if Success (is_response resp) then ret (resp, None) else ret (resp, Some (ResponseError (is_response resp)))
  end.

(** [time.Sleep] *)
Definition sleep (d : time.Duration) : Client unit := modify (fun s => mkRemote (r_net s) (r_sent s) (r_slept s ++ [d])).

(** [WaitForImportFinished]: the attempts that are left, from [attempt] on. *)
Definition maxAttempts : nat := 9.
Fixpoint wait_loop (attempts : nat) (attempt : Z) (resp : ImportStatusResponse) (statusURL : string) : Client ImportStatusResponse :=
  match attempts with
  | O => throw (TextError ("usage was not imported within " +:+ pretty attempt +:+ " retries"))
  | S attempts =>
      do r <- GetUsageImportStatus statusURL;
      let '(resp, err) := r in
      if bool_decide (err = None) && negb (bool_decide (is_ImportStatus resp = "Pending") || bool_decide (is_ImportStatus resp = "Processing"))
      then ret resp
      else
        sleep (2 ^ attempt * time.Second) ;;;
        wait_loop attempts (attempt + 1) resp statusURL
  end.
Definition WaitForImportFinished (statusURL : string) : Client ImportStatusResponse :=
  wait_loop maxAttempts 0 (initial ToImportStatus) statusURL.

(** [UploadUsage], of the content of a report; the name of the file is cut after 44 characters. *)
Definition UploadUsage (content id : string) : Client string :=
  let file := FormFile "file" ("u-" +:+ String.substring 0 44 id +:+ ".csv") content in
  do resp <- Upload (URL postUsagePath) file ToPostUsage;
  success (pu_response resp) ;;;
  do importStatusResp <- WaitForImportFinished (pu_CheckImportStatusURL resp);
  if decide (is_ImportStatus importStatusResp = Completed)
  then or_throw (extractUsageImportID (pu_CheckImportStatusURL resp))
  else throw (TextError ("usage import did not succeed: " +:+ show_status importStatusResp +:+ " - from " +:+ pu_CheckImportStatusURL resp)).

(** ** Products *)

(** [GetProductsUnitSet]: whether the answers are a success is not looked at. *)
Definition product_units (p : zuoraProduct) : list string :=
  plan ← ProductRatePlans p; pg_UOM <$> ProductRatePlanCharges plan.
Definition GetProductsUnitSet (productIDs : list string) : Client (gset string) :=
  fold_m (fun (units : gset string) productID =>
    do resp <- Get (URL (productPath productID)) ToProduct;
    ret (units ∪ list_to_set (product_units (zcp_product resp)))) productIDs ∅.

(** [GetCurrentRates]: without products the first is out of range. *)
Definition rates_of (p : zuoraProduct) : RateMap :=
  foldl (fun (rates : RateMap) '(uom, pricing) => <[uom := <[pc_Currency pricing := pc_Price pricing]> (default ∅ (rates !! uom))]> rates) ∅
    (plan ← ProductRatePlans p; charge ← ProductRatePlanCharges plan; pricing ← pg_Pricing charge; [(pg_UOM charge, pricing)]).
Definition GetCurrentRates : Client RateMap :=
  do resp <- Get (URL productsPath) ToCatalog;
  match zc_Products resp with
  | [] => panic
  | first :: _ =>
      let product := default first (List.find (fun p => bool_decide (zp_SKU p = weaveCloudSKU)) (zc_Products resp)) in
      ret (rates_of product)
  end.

(** ** Files (files.go) *)

Definition filesPath (id : string) : string := "files/" +:+ id.
(** [ServeFile]: what is written to the response; an error while the body is copied changes the
    status only if nothing was copied before. *)
Definition file_headers (f : File) : http.Header :=
  http.Set_ "Content-Length" (fl_ContentLength f) (http.Set_ "Content-Disposition" (fl_ContentDisposition f) (http.Set_ "Content-Type" (fl_ContentType f) ∅)).
Definition served (reply : procurement.Reply File) : http.Response :=
  match reply with
  | procurement.NoResponse err => http.Error err 500
  | procurement.Response status copied f =>
      if negb (Z.quot status 100 =? 2) then http.Error (fl_Status f) status
      else
        match copied with
        | None => http.mkResponse 200 (file_headers f) (fl_Body f)
        | Some err =>
            if decide (fl_Body f = EmptyString)
            then http.mkResponse 500 (http.Set_ "Content-Type" "text/plain; charset=utf-8" (file_headers f)) (http.resp_body (http.Error err 500))
            else http.mkResponse 200 (file_headers f) (fl_Body f +:+ http.resp_body (http.Error err 500))
        end
  end.
Definition ServeFile (fileID : string) : Client http.Response := fun s =>
  let request := mkHTTPRequest "GET" (URL (filesPath fileID))
    (authenticated [("Authorization", "Basic " +:+ base64.EncodeToString (Username cfg +:+ ":" +:+ Password cfg))]) NoPayload in
  let '(reply, n) := network File ToFile request (r_net s) in
  (Ret (served reply), mkRemote n (r_sent s ++ [request]) (r_slept s)).
End client.

(** * The interface [Client] *)

(** The methods that send requests; [NoChargeableUsage], [ChargeableUsageTooLow] and
    [ContainsErrorCode] only look at an error. *)
Inductive ClientCall : Type -> Type :=
  | CallGetAuthenticationTokens (zuoraAccountNumber : string) : ClientCall AuthenticationTokens
  | CallGetAccount (zuoraAccountNumber : string) : ClientCall Account
  | CallCreateAccount (orgID : string) (contact : Contact) (currency paymentMethodID : string) (billCycleDay : Z) (serviceActivationTime : time.Time) : ClientCall Account
  | CallUpdateAccount (zuoraAccountNumber status : string) (contact : Contact) : ClientCall Account
  | CallDeleteAccount (zuoraID : string) : ClientCall unit
  | CallGetInvoices (zuoraAccountNumber page pageSize : string) : ClientCall (list Invoice)
  | CallCreateInvoice (zuoraAccountNumber : string) : ClientCall string
  | CallGetPaymentMethod (zuoraAccountNumber : string) : ClientCall CreditCard
  | CallGetPayments (zuoraAccountNumber : string) : ClientCall (list PaymentDetails)
  | CallGetPaymentTransactionLog (paymentID : string) : ClientCall PaymentTransaction
  | CallUpdatePaymentMethod (paymentMethodID : string) : ClientCall unit
  | CallUploadUsage (content id : string) : ClientCall string
  | CallGetUsage (zuoraAccountNumber page pageSize : string) : ClientCall (list Usage)
  | CallGetUsageImportStatus (url : string) : ClientCall (ImportStatusResponse * option zerror)
  | CallGetCurrentRates : ClientCall RateMap
  | CallGetProductsUnitSet (productIDs : list string) : ClientCall (gset string)
  | CallServeFile (fileID : string) : ClientCall http.Response.

Class ClientImpl (S : Type) := {
  client_call : forall {A}, ClientCall A -> M S zerror A;
  GetConfig : S -> Config;
  client_StatusURL : S -> string -> string;
  client_URL : S -> string -> string;
}.

(** [Zuora] implements [Client]; the account that is created depends on the day. *)
Definition zuora_client {N} (network : forall A, Destination A -> HTTPRequest -> N -> procurement.Reply A * N)
    (sha256_hex : string -> string) (clock : Remote N -> time.Time) (cfg : Config) : ClientImpl (Remote N) := {|
  client_call := fun A c =>
    match c in ClientCall A return M (Remote N) zerror A with
    | CallGetAuthenticationTokens n => GetAuthenticationTokens network cfg n
    | CallGetAccount n => GetAccount network cfg n
    | CallCreateAccount org contact currency method day activation =>
        fun s => CreateAccount network sha256_hex cfg (clock s) org contact currency method day activation s
    | CallUpdateAccount n status contact => UpdateAccount network cfg n status contact
    | CallDeleteAccount id => DeleteAccount network cfg id
    | CallGetInvoices n page size => GetInvoices network cfg n page size
    | CallCreateInvoice n => CreateInvoice network cfg n
    | CallGetPaymentMethod n => GetPaymentMethod network cfg n
    | CallGetPayments n => GetPayments network cfg n
    | CallGetPaymentTransactionLog id => GetPaymentTransactionLog network cfg id
    | CallUpdatePaymentMethod id => UpdatePaymentMethod network cfg id
    | CallUploadUsage content id => UploadUsage network cfg content id
    | CallGetUsage n page size => GetUsage network cfg n page size
    | CallGetUsageImportStatus url => GetUsageImportStatus network cfg url
    | CallGetCurrentRates => GetCurrentRates network cfg
    | CallGetProductsUnitSet ids => GetProductsUnitSet network cfg ids
    | CallServeFile id => ServeFile network cfg id
    end;
  GetConfig := fun _ => cfg;
  client_StatusURL := fun _ => GetUsageImportStatusURL cfg;
  client_URL := fun _ => URL cfg |}.

End zuora.
