(* ===== verification/ZuoraSpec.v ===== *)
(** What the Zuora client promises: the payment status of an account is that of the latest
    payments, and an upload of usage ends after a bounded number of requests. *)
From Stdlib Require Import ZArith Lia Ascii String Floats.SpecFloat.
From stdpp Require Import base tactics option gmap strings list pretty.
From S2P Require Import Prelude GoStd Users Calendar Formats Entitlement Zuora.
Import zuora.
#[local] Opaque GetStripeError.

(** * The status of payments *)

Definition readable (p : Payment) : Prop := is_Some (ParseDate (py_EffectiveDate p)) /\ is_Some (paymentStatusMap !! py_Status p).
Definition in_error (p : Payment) : Prop := paymentStatusMap !! py_Status p = Some PaymentError.
Definition payment_date (p : Payment) : Z := default 0 (ParseDate (py_EffectiveDate p)).
(** [p] is one of the latest of [ps]. *)
Definition latest (ps : list Payment) (p : Payment) : Prop := p ∈ ps /\ forall q, q ∈ ps -> payment_date q <= payment_date p.

#[export] Instance readable_dec p : Decision (readable p).
Proof. unfold readable. apply _. Defined.
#[export] Instance in_error_dec p : Decision (in_error p).
Proof. unfold in_error. apply _. Defined.

(** ** Dates with a mark *)

(** One of the latest dates of the list is marked. *)
Definition latest_marked (l : list (Z * bool)) : Prop := exists x, x ∈ l /\ x.2 = true /\ forall y, y ∈ l -> y.1 <= x.1.

(** Two entries are as good as the later one, or as one with both marks. *)
Definition merge (x y : Z * bool) : Z * bool :=
  if x.1 <? y.1 then y else if x.1 =? y.1 then (x.1, x.2 || y.2) else x.
Lemma merge_spec x y : (merge x y).1 = Z.max x.1 y.1 /\
  ((merge x y).2 = true <-> (x.2 = true /\ y.1 <= x.1) \/ (y.2 = true /\ x.1 <= y.1)).
Proof.
  unfold merge. destruct (Z.ltb_spec x.1 y.1); [split; [lia|]; intuition lia|].
  destruct (Z.eqb_spec x.1 y.1); simpl; (split; [lia|]); rewrite ?orb_true_iff; intuition lia.
Qed.
Lemma latest_marked_merge x y l : latest_marked (x :: y :: l) <-> latest_marked (merge x y :: l).
Proof.
  destruct (merge_spec x y) as [Hmax Hmark]. unfold latest_marked. setoid_rewrite elem_of_cons. setoid_rewrite elem_of_cons. split.
  - intros (z & Hz & Hm & Hall). pose proof (Hall x ltac:(by left)). pose proof (Hall y ltac:(by right; left)).
    destruct Hz as [->|[->|Hz]].
    + exists (merge x y). split; [by left|]. split; [apply Hmark; by left|]. intros w [->|Hw]; [lia|]. rewrite Hmax. specialize (Hall w ltac:(by right; right)). lia.
    + exists (merge x y). split; [by left|]. split; [apply Hmark; by right|]. intros w [->|Hw]; [lia|]. rewrite Hmax. specialize (Hall w ltac:(by right; right)). lia.
    + exists z. split; [by right|]. split; [done|]. intros w [->|Hw]; [rewrite Hmax; lia|]. apply Hall. by right; right.
  - intros (z & [->|Hz] & Hm & Hall).
    + apply Hmark in Hm as [[Hm Hle]|[Hm Hle]]; [exists x|exists y]; (split; [auto|]); (split; [done|]);
        intros w [->|[->|Hw]]; try lia; specialize (Hall w ltac:(by right)); lia.
    + exists z. split; [auto|]. split; [done|]. pose proof (Hall (merge x y) ltac:(by left)). intros w [->|[->|Hw]]; [lia|lia|]. apply Hall. by right.
Qed.

(** ** The loop *)

Definition entry (p : Payment) : Z * bool := (payment_date p : Z, bool_decide (in_error p)).

Lemma payments_loop_spec ps : forall id st d, 0 <= d -> (forall p, p ∈ ps -> readable p -> 0 < payment_date p) ->
  match payments_loop id st d ps with
  | None => exists p, p ∈ ps /\ ~ readable p
  | Some (_, st') => Forall readable ps /\ (st' = PaymentError <-> latest_marked ((d, bool_decide (st = PaymentError)) :: (entry <$> ps)))
  end.
Proof.
  induction ps as [|p ps IH]; intros id st d Hd Hpos; cbn [payments_loop fmap list_fmap].
  { split; [constructor|]. unfold latest_marked. setoid_rewrite list_elem_of_singleton. split.
    - intros ->. eexists. split; [done|]. by split; [|intros y ->].
    - intros (x & -> & Hx & _). by apply bool_decide_eq_true in Hx. }
  destruct (ParseDate (py_EffectiveDate p)) as [date|] eqn:Hdate; [|exists p; split; [by left|]; intros [Hx _]; rewrite Hdate in Hx; by destruct Hx].
  destruct (paymentStatusMap !! py_Status p) as [status|] eqn:Hstatus; [|exists p; split; [by left|]; intros [_ Hx]; rewrite Hstatus in Hx; by destruct Hx].
  assert (Hread : readable p) by (split; [rewrite Hdate|rewrite Hstatus]; by eexists).
  assert (Hentry : entry p = (date, bool_decide (status = PaymentError))).
  { unfold entry, payment_date. rewrite Hdate. simpl. f_equal. apply bool_decide_ext. unfold in_error. rewrite Hstatus. split; congruence. }
  assert (Hp0 : 0 < date) by (pose proof (Hpos p ltac:(by left) Hread) as Hx; unfold payment_date in Hx; by rewrite Hdate in Hx).
  assert (Hstep : forall id2 st2 d2, 0 <= d2 -> (d2, bool_decide (st2 = PaymentError)) = merge (d, bool_decide (st = PaymentError)) (date, bool_decide (status = PaymentError)) ->
    match payments_loop id2 st2 d2 ps with
    | None => exists q, q ∈ p :: ps /\ ~ readable q
    | Some (_, st') => Forall readable (p :: ps) /\ (st' = PaymentError <-> latest_marked ((d, bool_decide (st = PaymentError)) :: entry p :: (entry <$> ps)))
    end).
  { intros id2 st2 d2 Hd2 Hm. specialize (IH id2 st2 d2 Hd2 ltac:(intros q Hq; apply Hpos; by right)). destruct (payments_loop id2 st2 d2 ps) as [[id' st']|].
    - destruct IH as [Hall Hst]. split; [by constructor|]. by rewrite latest_marked_merge, Hentry, <- Hm.
    - destruct IH as (q & Hq & Hn). exists q. split; [by right|done]. }
  unfold merge in Hstep. unfold time.IsZero, time.Before. simpl in Hstep.
  destruct (Z.ltb_spec d date) as [Hlt|Hge]; [rewrite orb_true_r; apply Hstep; [lia|done]|].
  destruct (Z.eqb_spec d 0); [lia|]. simpl. destruct (Z.eqb_spec d date) as [->|Hne]; simpl; [|by apply Hstep].
  destruct (decide (status = PaymentError)) as [Hs|Hs].
  - rewrite (bool_decide_eq_true_2 _ Hs) in *. apply Hstep; [lia|by rewrite orb_true_r].
  - rewrite (bool_decide_eq_false_2 _ Hs) in *. apply Hstep; [lia|by rewrite orb_false_r].
Qed.

Lemma latest_marked_payments ps : (forall p, p ∈ ps -> 0 < payment_date p) ->
  (latest_marked ((0, false) :: (entry <$> ps)) <-> exists p, latest ps p /\ in_error p).
Proof.
  intros Hpos. unfold latest_marked, latest. setoid_rewrite elem_of_cons. split.
  - intros (x & [->|Hx] & Hm & Hall); [done|]. apply list_elem_of_fmap in Hx as (p & -> & Hp). exists p. split.
    + split; [done|]. intros q Hq. apply (Hall (entry q)). right. by apply list_elem_of_fmap_2.
    + simpl in Hm. by apply bool_decide_eq_true in Hm.
  - intros (p & [Hp Hall] & He). exists (entry p). split; [right; by apply list_elem_of_fmap_2|]. split; [by apply bool_decide_eq_true|].
    intros y [->|(q & -> & Hq)%list_elem_of_fmap]; simpl; [specialize (Hpos p Hp); lia|by apply Hall].
Qed.

(** * Requests *)

Section requests.
Context {N : Type} (network : forall A, Destination A -> HTTPRequest -> N -> procurement.Reply A * N) (cfg : Config).

(** A computation of the client that comes back, sends at most [n] requests and sleeps for [d] at most. *)
Definition total (l : list time.Duration) : Z := foldr Z.add 0 l.
Definition within (n : nat) (d : Z) {A} (m : M (Remote N) zerror A) : Prop := forall s, exists o s', m s = (o, s') /\ definite o /\
  (length (r_sent s') <= length (r_sent s) + n)%nat /\ total (r_slept s) <= total (r_slept s') <= total (r_slept s) + d.

Lemma within_ret {A} (a : A) : within 0 0 (ret a).
Proof. intros s. exists (Ret a), s. repeat split; simpl; lia. Qed.
Lemma within_throw {A} e : within 0 0 (throw e : M _ _ A).
Proof. intros s. exists (Err e), s. repeat split; simpl; lia. Qed.
Lemma within_bind {A B} n1 d1 n2 d2 (m : M _ _ A) (k : A -> M _ _ B) : 0 <= d2 ->
  within n1 d1 m -> (forall a, within n2 d2 (k a)) -> within (n1 + n2) (d1 + d2) (bind m k).
Proof.
  intros Hd Hm Hk s. destruct (Hm s) as (o & s1 & Hrun & Ho & Hn1 & Hd1). unfold bind. rewrite Hrun.
  destruct o as [a|e| | |]; try done; [|exists (Err e), s1; repeat split; simpl; lia].
  destruct (Hk a s1) as (o & s2 & Hrun2 & Ho2 & Hn2 & Hd2). exists o, s2. repeat split; [done|done|lia..].
Qed.
Lemma within_weaken {A} n d n' d' (m : M _ _ A) : (n <= n')%nat -> d <= d' -> within n d m -> within n' d' m.
Proof. intros Hn Hd Hm s. destruct (Hm s) as (o & s' & Hrun & Ho & H1 & H2). exists o, s'. repeat split; [done|done|lia..]. Qed.
Lemma within_try {A} n d (m : M _ _ A) : within n d m -> within n d (try m).
Proof.
  intros Hm s. destruct (Hm s) as (o & s' & Hrun & Ho & H). unfold try. rewrite Hrun. destruct o as [a|e| | |]; try done.
  - by exists (Ret (inr a)), s'.
  - by exists (Ret (inl e)), s'.
Qed.
Lemma within_success r : within 0 0 (success r).
Proof. unfold success. destruct (Success r); [apply within_ret|apply within_throw]. Qed.
Lemma within_or_throw {A} (r : zerror + A) : within 0 0 (or_throw r).
Proof. destruct r; [apply within_throw|apply within_ret]. Qed.
Lemma total_app l1 l2 : total (l1 ++ l2) = total l1 + total l2.
Proof. unfold total. induction l1; simpl; lia. Qed.
Lemma within_sleep d : 0 <= d -> within 0 d (sleep d).
Proof. intros Hd s. eexists _, _. split; [done|]. repeat split; simpl; rewrite ?total_app; simpl; lia. Qed.
Lemma within_exchange {A} method url ct payload (dest : Destination A) : within 1 0 (exchange network cfg method url ct payload dest).
Proof.
  intros s. unfold exchange. destruct (network A dest _ (r_net s)) as [reply n]. eexists _, _. split; [done|].
  repeat split; simpl; rewrite ?length_app; simpl; lia.
Qed.
Lemma within_send {A} method url ct payload (dest : Destination A) : within 1 0 (send network cfg method url ct payload dest).
Proof.
  apply (within_bind 1 0 0 0); [done|apply within_exchange|]. intros [a [e|]]; [apply within_throw|apply within_ret].
Qed.

Lemma within_GetPaymentTransactionLog id : within 1 0 (GetPaymentTransactionLog network cfg id).
Proof.
  unfold GetPaymentTransactionLog. case_decide; [eapply within_weaken, within_throw; lia|].
  apply (within_bind 1 0 0 0); [done|apply within_send|]. intros resp. destruct (aq_Records resp) as [|? []]; (apply within_throw || apply within_ret).
Qed.
Lemma within_GetPaymentStatus ps : within 1 0 (GetPaymentStatus network cfg ps).
Proof.
  unfold GetPaymentStatus. destruct (payments_loop _ _ _ _) as [[id st]|]; [|eapply within_weaken, within_ret; lia].
  case_decide; [|eapply within_weaken, within_ret; lia]. apply (within_bind 1 0 0 0); [done| |intros a; apply within_ret].
  apply (within_bind 1 0 0 0); [done|by apply within_try, within_GetPaymentTransactionLog|]. intros [e|a]; apply within_ret.
Qed.

Lemma status_cases x st : paymentStatusMap !! x = Some st -> st = PaymentOK \/ st = PaymentError.
Proof.
  intros Hst%elem_of_list_to_map_2. revert Hst. rewrite !elem_of_cons, elem_of_nil.
  intros Hst. repeat destruct Hst as [[= _ ->]|Hst]; auto. destruct Hst.
Qed.
Lemma payments_loop_status ps : forall id st d id' st', st = PaymentOK \/ st = PaymentError ->
  payments_loop id st d ps = Some (id', st') -> st' = PaymentOK \/ st' = PaymentError.
Proof.
  induction ps as [|p ps IH]; intros id st d id' st' Hst; cbn [payments_loop]; [by intros [= _ <-]|].
  destruct (ParseDate _) as [date|]; [|done]. destruct (paymentStatusMap !! _) as [status|] eqn:Hs; [|done].
  apply status_cases in Hs. destruct (_ || _); [by apply IH|]. destruct (_ && _); apply IH; auto.
Qed.

(** The payment status of an account: it is in error exactly when some payment cannot be
    read or one of the latest payments is in error, in whatever order they come; otherwise it is
    active. At most one request is sent, and nothing the service answers makes the call fail. *)
Theorem GetPaymentStatus_spec ps s :
  (forall p, p ∈ ps -> readable p -> 0 < payment_date p) ->
  exists st s', GetPaymentStatus network cfg ps s = (Ret st, s') /\
    (length (r_sent s') <= length (r_sent s) + 1)%nat /\
    (ps_Status st = PaymentError <-> (exists p, p ∈ ps /\ ~ readable p) \/ exists p, latest ps p /\ in_error p) /\
    (ps_Status st <> PaymentError -> st = mkPaymentStatus PaymentOK EmptyString EmptyString).
Proof.
  intros Hpos. destruct (within_GetPaymentStatus ps s) as (o & s' & Hrun & _ & Hsent & _).
  assert (Hst : exists st, o = Ret st /\ (ps_Status st = PaymentError <-> (exists p, p ∈ ps /\ ~ readable p) \/ exists p, latest ps p /\ in_error p) /\
    (ps_Status st <> PaymentError -> st = mkPaymentStatus PaymentOK EmptyString EmptyString)).
  { revert Hrun. unfold GetPaymentStatus. pose proof (payments_loop_spec ps EmptyString PaymentOK 0 ltac:(done) Hpos) as Hloop.
    destruct (payments_loop _ _ _ _) as [[id st]|] eqn:Hl; [|intros [= <- _]; eexists; split; [done|]; simpl; intuition].
    destruct Hloop as [Hall Hloop]. rewrite Forall_forall in Hall. rewrite (bool_decide_eq_false_2 (PaymentOK = PaymentError)) in Hloop by discriminate.
    rewrite latest_marked_payments in Hloop by (intros p Hp; apply Hpos; auto).
    assert (Hiff : st = PaymentError <-> (exists p, p ∈ ps /\ ~ readable p) \/ exists p, latest ps p /\ in_error p).
    { rewrite Hloop. split; [auto|]. intros [(p & Hp & Hn)|?]; [by destruct Hn; apply Hall|done]. }
    case_decide as Hdec.
    - destruct (within_try 1 0 _ (within_GetPaymentTransactionLog id) s) as ([x| | | |] & s1 & Hx & Hd & _); try done.
      + unfold getUnderlyingStripePaymentError, bind. rewrite Hx. destruct x; intros [= <- _]; eexists; (split; [reflexivity|]); cbn [ps_Status]; (split; [exact Hiff|]); intros Hne; destruct (Hne Hdec).
      + exfalso. revert Hx. unfold try. by destruct (GetPaymentTransactionLog _ _ _ _) as [[] ?].
    - intros [= <- _]. eexists. split; [done|]. split; [done|]. intros _. simpl.
      destruct (payments_loop_status _ _ _ _ _ _ (or_introl eq_refl) Hl) as [->|]; done. }
  destruct Hst as (st & -> & Hst). by exists st, s'.
Qed.

(** ** Waiting for an import *)

Lemma within_GetUsageImportStatus url : within 1 0 (GetUsageImportStatus network cfg url).
Proof.
  apply (within_bind 1 0 0 0); [done|apply within_exchange|]. intros [resp [e|]]; [apply within_ret|].
  destruct (Success (is_response resp)); apply within_ret.
Qed.
Lemma within_wait_loop k : forall a resp url, 0 <= a -> within k ((2 ^ (a + Z.of_nat k) - 2 ^ a) * time.Second) (wait_loop network cfg k a resp url).
Proof.
  induction k as [|k IH]; intros a resp url Ha; cbn [wait_loop].
  - eapply within_weaken, within_throw; [lia|]. rewrite Z.add_0_r. lia.
  - pose proof (Z.pow_pos_nonneg 2 a ltac:(lia) Ha) as H2. pose proof (Z.pow_le_mono_r 2 (a + 1) (a + Z.of_nat (S k)) ltac:(lia) ltac:(lia)) as Hmono.
    rewrite Z.pow_add_r in Hmono by lia. assert (Hsec : 0 < time.Second) by done.
    eapply (within_weaken (1 + (0 + k)) (0 + (2 ^ a * time.Second + (2 ^ (a + 1 + Z.of_nat k) - 2 ^ (a + 1)) * time.Second))); [lia| |].
    + replace (a + 1 + Z.of_nat k) with (a + Z.of_nat (S k)) by lia. rewrite (Z.pow_add_r 2 a 1) by lia. lia.
    + pose proof (Z.pow_le_mono_r 2 (a + 1) (a + 1 + Z.of_nat k) ltac:(lia) ltac:(lia)).
      apply within_bind; [nia|apply within_GetUsageImportStatus|]. intros [r err]. destruct (_ && _); [eapply within_weaken, within_ret; [lia|nia]|].
      apply within_bind; [nia|by apply within_sleep; nia|]. intros []. apply IH. lia.
Qed.
Lemma WaitForImportFinished_within url : within 9 (511 * time.Second) (WaitForImportFinished network cfg url).
Proof. unfold WaitForImportFinished. apply (within_wait_loop 9 0). done. Qed.

Lemma wait_loop_finished k : forall a resp url s r s', wait_loop network cfg k a resp url s = (Ret r, s') ->
  Success (is_response r) = true /\ is_ImportStatus r <> "Pending" /\ is_ImportStatus r <> "Processing".
Proof.
  induction k as [|k IH]; intros a resp url s r s'; cbn [wait_loop]; [done|].
  destruct (within_GetUsageImportStatus url s) as (o & s1 & Hrun & _). unfold bind at 1. rewrite Hrun.
  destruct o as [[resp1 err]|e| | |]; try done. destruct (_ && _) eqn:Hdone; [|unfold bind, sleep, modify; apply IH].
  intros [= -> _]. apply andb_true_iff in Hdone as [Herr Hdone]. apply bool_decide_eq_true in Herr. subst err.
  rewrite negb_orb, andb_true_iff, !negb_true_iff, !bool_decide_eq_false in Hdone. split; [|done].
  revert Hrun. unfold GetUsageImportStatus, bind. destruct (exchange _ _ _ _ _ _ _ _) as [[[r0 [e|]]| | | |] s2]; try done.
  destruct (Success (is_response r0)) eqn:Hs; [|done]. by intros [= <- _].
Qed.

(** ** The identifier of an import *)

Definition is_word (id : string) : Prop := strings.all (fun c => strings.is_lower c || strings.is_digit c) id = true.
Lemma take_word_spec s w r : take_word s = (w, r) -> is_word w /\ s = w +:+ r.
Proof.
  revert w r. induction s as [|c s IH]; intros w r; cbn [take_word]; [by intros [= <- <-]|].
  destruct (strings.is_lower c || strings.is_digit c) eqn:Hc; [|by intros [= <- <-]]. destruct (take_word s) as [w1 r1] eqn:Hw.
  destruct (IH _ _ eq_refl) as [Hword ->]. intros [= <- <-]. split; [|done]. unfold is_word. cbn [strings.all]. by rewrite Hc.
Qed.
Lemma prefix_split s1 s2 : strings.HasPrefix s2 s1 = true -> s2 = s1 +:+ strings.TrimPrefix s2 s1.
Proof.
  intros H. unfold strings.TrimPrefix. rewrite H. revert s2 H. unfold strings.HasPrefix. induction s1 as [|c s1 IH]; intros [|c2 s2]; simpl; try done.
  destruct (ascii_dec c c2) as [->|]; [|done]. intros H. unfold String.app in *. simpl. f_equal. by apply IH.
Qed.
Lemma find_usage_id_spec s id : find_usage_id s = Some id -> is_word id /\ exists before after, s = before +:+ "/v1/usage/" +:+ id +:+ "/status" +:+ after.
Proof.
  induction s as [|c s IH]; [done|]. cbn [find_usage_id].
  destruct (strings.HasPrefix (String c s) "/v1/usage/") eqn:Hp.
  - destruct (take_word _) as [w rest] eqn:Hw. destruct (strings.HasPrefix rest "/status") eqn:Hs.
    + intros [= <-]. apply take_word_spec in Hw as [Hword Hw]. split; [done|]. exists EmptyString, (strings.TrimPrefix rest "/status").
      pose proof (prefix_split _ _ Hp) as Hall. rewrite Hw, (prefix_split _ _ Hs) in Hall. exact Hall.
    + intros Hid. destruct (IH Hid) as (Hword & b & a & ->). split; [done|]. by exists (String c b), a.
  - intros Hid. destruct (IH Hid) as (Hword & b & a & ->). split; [done|]. by exists (String c b), a.
Qed.

Lemma within_account_number number : within 0 0 (account_number number).
Proof. unfold account_number. case_decide; [apply within_throw|apply within_ret]. Qed.
Lemma within_CreateInvoice number : within 1 0 (CreateInvoice network cfg number).
Proof.
  apply (within_bind 0 0 1 0); [done|apply within_account_number|]. intros [].
  apply (within_bind 1 0 0 0); [done|apply within_send|]. intros resp.
  apply (within_bind 0 0 0 0); [done|apply within_success|]. intros []. apply within_ret.
Qed.

Lemma within_UploadUsage content id : within 10 (511 * time.Second) (UploadUsage network cfg content id).
Proof.
  apply (within_bind 1 0 9 (511 * time.Second)); [done|apply within_send|]. intros resp.
  apply (within_bind 0 0 9 (511 * time.Second)); [done|apply within_success|]. intros [].
  apply (within_bind 9 (511 * time.Second) 0 0); [done|apply WaitForImportFinished_within|]. intros r.
  case_decide; [apply within_or_throw|apply within_throw].
Qed.

(** An upload of usage always ends: it sends ten requests at most and sleeps for 511 seconds
    at most in all, whatever the service answers. When it succeeds, the service has
    said that the import is completed, and the identifier that is returned is the word of
    lower-case letters and digits that stands in the address of the status. *)
Theorem UploadUsage_spec content id s :
  exists o s', UploadUsage network cfg content id s = (o, s') /\ definite o /\
    (length (r_sent s') <= length (r_sent s) + 10)%nat /\ total (r_slept s') <= total (r_slept s) + 511 * time.Second /\
    forall importID, o = Ret importID -> is_word importID /\
      exists url s1 r, WaitForImportFinished network cfg url s1 = (Ret r, s') /\ Success (is_response r) = true /\ is_ImportStatus r = Completed /\
        exists before after, url = before +:+ "/v1/usage/" +:+ importID +:+ "/status" +:+ after.
Proof.
  destruct (within_UploadUsage content id s) as (o & s' & Hrun & Ho & Hsent & _ & Hslept). exists o, s'.
  split; [done|]. split; [done|]. split; [done|]. split; [done|]. intros importID ->. revert Hrun.
  unfold UploadUsage. cbv zeta. intros Hrun. apply bind_inv_Ret in Hrun as (resp & s1 & _ & Hrun). apply bind_inv_Ret in Hrun as ([] & s2 & _ & Hrun).
  apply bind_inv_Ret in Hrun as (r & s3 & Hwait & Hrun). case_decide as Hc; [|done].
  unfold or_throw, extractUsageImportID in Hrun. destruct (find_usage_id _) as [found|] eqn:Hfind; [|done].
  injection Hrun as <- <-. apply find_usage_id_spec in Hfind as [Hword Hurl]. split; [done|].
  exists (pu_CheckImportStatusURL resp), s2, r. split; [exact Hwait|].
  unfold WaitForImportFinished in Hwait. apply wait_loop_finished in Hwait as [Hs _]. split; [exact Hs|]. split; [exact Hc|exact Hurl].
Qed.
End requests.

(** * The theorem at a concrete account *)

Definition no_network : forall A, Destination A -> HTTPRequest -> unit -> procurement.Reply A * unit :=
  fun A dest r n => (procurement.NoResponse "connection refused", n).
Definition sample_config : Config :=
  mkConfig "user" "secret" "https://zuora.test/v1/" "https://rest.zuora.test/v1/" "Today" "Today" "EVERGREEN" "plan" EmptyString EmptyString "dev" "Visa" EmptyString.
Definition sample_payments : list Payment := [mkPayment "p1" "Processed" "2018-03-01"; mkPayment "p2" "Error" "2018-04-01"; mkPayment "p3" "Posted" "2018-04-01"].

Lemma GetPaymentStatus_spec_witness :
  exists st s', GetPaymentStatus no_network sample_config sample_payments (mkRemote tt [] []) = (Ret st, s') /\ ps_Status st = PaymentError.
Proof.
  destruct (GetPaymentStatus_spec no_network sample_config sample_payments (mkRemote tt [] [])) as (st & s' & Hrun & _ & Hst & _).
  - intros p Hp _. revert p Hp. apply Forall_forall. repeat constructor; vm_compute; reflexivity.
  - exists st, s'. split; [exact Hrun|]. apply Hst. right. exists (mkPayment "p2" "Error" "2018-04-01"). split; [split|].
    + right. left.
    + apply Forall_forall. repeat constructor; vm_compute; congruence.
    + vm_compute. reflexivity.
Defined.

(** The address of the status of an import that the client makes is read back. *)
Example import_address : extractUsageImportID (GetUsageImportStatusURL sample_config "2c92c0955bfe") = inr "2c92c0955bfe".
Proof. vm_compute. reflexivity. Qed.
