(* ===== verification/Report.v ===== *)
(** The usage report that is uploaded to Zuora (common/zuora/report.go). *)
From Stdlib Require Import ZArith Lia Ascii String.
From stdpp Require Import base tactics option gmap strings list pretty.
From S2P Require Import Prelude GoStd Users Calendar Duration Formats Ledger Zuora.
Import zuora.

Record lineEntry : Type := mkLineEntry {
  le_accountID : string; le_unitType : string; le_quantity : string; le_startDate : string; le_endDate : string;
  le_subscriptionID : string; le_chargeID : string; le_description : string }.
Record Report : Type := mkReport { entries : list lineEntry; rp_Config : Config }.

Definition reportHeader : list string := ["ACCOUNT_ID"; "UOM"; "QTY"; "STARTDATE"; "ENDDATE"; "SUBSCRIPTION_ID"; "CHARGE_ID"; "DESCRIPTION"].
Definition toArray (e : lineEntry) : list string :=
  [le_accountID e; le_unitType e; le_quantity e; le_startDate e; le_endDate e; le_subscriptionID e; le_chargeID e; le_description e].

(** [NewReport] *)
Definition with_DateFormat (f : string) (cfg : Config) : Config :=
  mkConfig (Username cfg) (Password cfg) (Endpoint cfg) (RestEndpoint cfg) (SuspendPolicy cfg) (ResumePolicy cfg)
    (SubscriptionTermType cfg) (ProductRatePlanID cfg) (HostedPaymentPageURI cfg) (cfg_HostedPaymentPageID cfg)
    (cfg_PaymentGateway cfg) (cfg_SupportedCards cfg) f.
Definition NewReport (cfg : Config) : Report :=
  mkReport [] (if decide (DateFormat cfg = EmptyString) then with_DateFormat "01/02/2006" cfg else cfg).

(** [ToZuoraFormat] *)
Definition ToZuoraFormat (r : Report) : string :=
  csv_record reportHeader +:+ String.concat EmptyString (csv_record <$> (toArray <$> entries r)).

Definition ConcatEntries (r o : Report) : Report := mkReport (entries r ++ entries o) (rp_Config r).
Definition Size (r : Report) : nat := length (entries r).

(** [strconv.ParseUint(s, 10, 64)] *)
Definition ParseUint (s : string) : option Z :=
  if decide (s = EmptyString) then None
  else n ← strconv.parse_digits 0 s; if n <? 2^64 then Some n else None.

(** The order of the map of sums, which Go leaves open. *)
Class GroupOrder := {
  range_groups : gmap (string * time.Time) Z -> list (string * time.Time * Z);
  range_groups_perm : forall m, range_groups m ≡ₚ map_to_list m;
}.
Definition list_groups : GroupOrder := {| range_groups := map_to_list; range_groups_perm := fun m => reflexivity _ |}.

Section report.
Context `{GroupOrder}.
(** [time.Now], when the entry of that number is described. *)
Variable clock : nat -> time.Time.

Definition generatedByBillingUploader (n : nat) : string := "Generated by billing/uploader on " +:+ RFC3339 (clock n).

Definition description (n : nat) (unitType quantity : string) : string :=
  if decide (unitType <> duration.NodeSeconds) then generatedByBillingUploader n
  else match ParseUint quantity with
       | None => generatedByBillingUploader n
       | Some quantityAsUint =>
           let d := duration.ToMostReadableUnit (duration.Seconds quantityAsUint) in
           if decide (duration.Unit d = duration.NodeSeconds) then generatedByBillingUploader n
           else "Approx. usage: " +:+ duration.String_ d +:+ ". " +:+ generatedByBillingUploader n
       end.

Definition newLineEntry (n : nat) (id unitType quantity startDate endDate subscriptionID chargeID : string) : lineEntry :=
  mkLineEntry id unitType quantity startDate endDate subscriptionID chargeID (description n unitType quantity).

(** [AddLineEntry]: the dates are cut to the day. *)
Definition AddLineEntry (r : Report) (id unitType : string) (units : Z) (startDate endDate : time.Time) (subscriptionID chargeID : string) : Report :=
  let truncatedStart := FormatDate (DateFormat (rp_Config r)) startDate in
  let truncatedEnd := FormatDate (DateFormat (rp_Config r)) endDate in
  mkReport (entries r ++ [newLineEntry (Size r) id unitType (pretty units) truncatedStart truncatedEnd subscriptionID chargeID]) (rp_Config r).

(** [ReportFromAggregates] *)
Definition bucketTime (through : time.Time) (cycleDay : Z) (agg : Aggregate) : time.Time :=
  common_time.MinTime (common_time.EndOfCycle (a_BucketStart agg) cycleDay) (common_time.JustBefore through).
Definition groupKey : Type := string * time.Time.
Definition add_group (through : time.Time) (cycleDay : Z) (groupedSums : gmap groupKey Z) (agg : Aggregate) : gmap groupKey Z :=
  let key := (a_AmountType agg, bucketTime through cycleDay agg) in
  <[key := i64_wrap (default 0 (groupedSums !! key) + a_AmountValue agg)]> groupedSums.

(** One round of the loop over the sums: the first interval that holds the time of the group. *)
Definition add_sum_entry (intervals : list common_time.Interval) (paymentProviderID subscriptionNumber chargeNumber : string)
    (r : Report) (group : groupKey * Z) : Report :=
  let '((amountType, bucket), amountValue) := group in
  match List.find (fun i => common_time.InTimeRange (common_time.From i) (common_time.To i) bucket) intervals with
  | Some interval => AddLineEntry r paymentProviderID amountType amountValue (common_time.From interval) (common_time.To interval) subscriptionNumber chargeNumber
  | None => r
  end.
Definition ReportFromAggregates (config : Config) (aggs : list Aggregate) (paymentProviderID : string) (from through : time.Time)
    (subscriptionNumber chargeNumber : string) (cycleDay : Z) : outcome error Report :=
  let groupedSums := foldl (add_group through cycleDay) ∅ aggs in
  match common_time.MonthlyIntervalsWithinRange from through cycleDay with
  | Ret intervals => Ret (foldl (add_sum_entry intervals paymentProviderID subscriptionNumber chargeNumber) (NewReport config) (range_groups groupedSums))
  | Err e => Err e
  | Panic => Panic
  | Deadlock => Deadlock
  | OutOfFuel => OutOfFuel
  end.
End report.

(** [FilterAggregatesForSubscription]; an account without a subscription is dereferenced. *)
Definition FilterAggregatesForSubscription {S} `{ClientImpl S} (aggs : list Aggregate) (account : Account) : M S zerror (list Aggregate) :=
  do subscription <- deref (ac_Subscription account);
  do units <- client_call (CallGetProductsUnitSet (rp_ProductID <$> as_RatePlans subscription));
  ret (filter (fun a => a_AmountType a ∈ units) aggs).
