(* ===== verification/ReportSpec.v ===== *)
(** What a usage report says: every line is the usage of one kind in one billing cycle, and
    the lines together are all the usage that was given. *)
From Stdlib Require Import ZArith Lia Ascii String Sorting.Sorted.
From stdpp Require Import base tactics option gmap strings list pretty.
From S2P Require Import Prelude GoStd Users Calendar Duration Formats Ledger LedgerSpec Zuora Report.
Import common_time.

(** * Intervals that follow one another *)

Fixpoint chain (start to : Z) (l : list Interval) : Prop :=
  match l with
  | [] => start = to
  | i :: l' => From i = start /\ start < To i /\ chain (To i) to l'
  end.
Definition within_interval (i : Interval) (t : Z) : Prop := From i <= t < To i.
#[export] Instance within_interval_dec i t : Decision (within_interval i t).
Proof. unfold within_interval. apply _. Defined.

Lemma chain_le l : forall start to, chain start to l -> start <= to.
Proof. induction l as [|i l IH]; intros start to; simpl; [lia|]. intros (_ & Hlt & Hc). specialize (IH _ _ Hc). lia. Qed.
Lemma chain_bounds l : forall start to i, chain start to l -> i ∈ l -> start <= From i /\ From i < To i /\ To i <= to.
Proof.
  induction l as [|j l IH]; intros start to i; simpl; [by intros _ ?%not_elem_of_nil|].
  intros (Hf & Hlt & Hc) [->|Hi]%elem_of_cons; [pose proof (chain_le _ _ _ Hc); lia|]. specialize (IH _ _ _ Hc Hi). lia.
Qed.
Lemma chain_apart l : forall start to i j, chain start to l -> i ∈ l -> j ∈ l -> From j <= From i \/ To i <= From j.
Proof.
  induction l as [|k l IH]; intros start to i j; simpl; [by intros _ ?%not_elem_of_nil|].
  intros (Hf & Hlt & Hc) [->|Hi]%elem_of_cons [->|Hj]%elem_of_cons; [lia| | |by eapply IH].
  - pose proof (chain_bounds _ _ _ _ Hc Hj). lia.
  - pose proof (chain_bounds _ _ _ _ Hc Hi). lia.
Qed.
Lemma chain_unique l start to i j t : chain start to l -> i ∈ l -> j ∈ l -> within_interval i t -> within_interval j t -> From i = From j /\ To i = To j.
Proof.
  unfold within_interval. intros Hc Hi Hj Ht1 Ht2. pose proof (chain_apart _ _ _ _ _ Hc Hi Hj). pose proof (chain_apart _ _ _ _ _ Hc Hj Hi).
  assert (From i = From j) by lia. split; [done|]. clear -Hc Hi Hj H1. revert start Hc Hi Hj.
  induction l as [|k l IH]; intros start; simpl; [by intros _ ?%not_elem_of_nil|].
  intros (Hf & Hlt & Hc) [->|Hi]%elem_of_cons [->|Hj]%elem_of_cons; [done| | |by eapply IH].
  - pose proof (chain_bounds _ _ _ _ Hc Hj). lia.
  - pose proof (chain_bounds _ _ _ _ Hc Hi). lia.
Qed.

(** The first interval that holds an instant is the one that holds it. *)
Lemma chain_find l : forall start to t, chain start to l -> start <= t < to ->
  exists i, List.find (fun i => InTimeRange (From i) (To i) t) l = Some i /\ i ∈ l /\ within_interval i t.
Proof.
  induction l as [|i l IH]; intros start to t; simpl; [lia|]. intros (Hf & Hlt & Hc) Ht.
  unfold InTimeRange at 1, time.After, time.Before. destruct (Z.ltb_spec t (From i)); [lia|]. simpl. destruct (Z.ltb_spec t (To i)).
  - exists i. split; [done|]. split; [by left|]. unfold within_interval. lia.
  - destruct (IH _ _ t Hc ltac:(lia)) as (j & Hj & Hin & Hw). exists j. split; [done|]. split; [by right|done].
Qed.

Lemma sorted_chain to l : forall start cuts, From <$> l = start :: cuts -> To <$> l = cuts ++ [to] -> StronglySorted Z.lt (start :: cuts ++ [to]) -> chain start to l.
Proof.
  induction l as [|i l IH]; intros start cuts Hf Ht Hsort; [done|]. injection Hf as Hfi Hf.
  apply StronglySorted_inv in Hsort as [Hsort Hall]. destruct cuts as [|u cuts]; simpl in *.
  - apply fmap_nil_inv in Hf as ->. injection Ht as Ht. inversion Hall; subst. done.
  - injection Ht as Hti Ht. inversion Hall as [|? ? Hlt Hrest]; subst. split; [done|]. split; [done|]. by apply (IH (To i) cuts).
Qed.

(** The interval of an instant ends with its billing cycle, or with the period. *)
Lemma cut_bucket c start to cuts l i a : 1 <= c -> cut_at_cycles c start to cuts l -> i ∈ l -> within_interval i (a_BucketStart a) ->
  bucketTime to c a = To i - 1.
Proof.
  intros Hc (Hf & Ht & Hsort & Hcuts) Hi [Hlo Hhi]. pose proof (sorted_chain _ _ _ _ Hf Ht Hsort) as Hchain.
  destruct (chain_bounds _ _ _ _ Hchain Hi) as (H1 & H2 & H3).
  destruct (NextCycleStart_run (a_BucketStart a) c Hc) as (Hs & Hlater & Hleast). set (next := NextCycleStart _ c) in *.
  assert (Hto : To i = to \/ cycle_start c (To i)).
  { assert (Hin : To i ∈ To <$> l) by by apply list_elem_of_fmap_2. rewrite Ht in Hin.
    apply elem_of_app in Hin as [Hin|Hin%list_elem_of_singleton]; [right; by apply Hcuts|by left]. }
  assert (Hnext : To i <= next).
  { destruct (Z.le_gt_cases (To i) next) as [|Hlt]; [done|]. assert (Hu : next ∈ cuts) by (apply Hcuts; split; [done|lia]).
    assert (Hu' : next ∈ From <$> l) by (rewrite Hf; by right). apply list_elem_of_fmap in Hu' as (j & Hj & Hjl).
    destruct (chain_apart _ _ _ i j Hchain Hi Hjl); lia. }
  unfold bucketTime, EndOfCycle, JustBefore, MinTime, time.Add, time.Before. fold next.
  destruct Hto as [Hto|Hto]; [destruct (Z.ltb_spec (next + -1) (to + -1)); lia|].
  specialize (Hleast _ Hto ltac:(lia)). destruct (Z.ltb_spec (next + -1) (to + -1)); lia.
Qed.

(** * The lines *)

(** What a line says: the kind of usage, the amount, the interval. *)
Definition line : Type := string * Z * Interval.
Definition line_amount (ty : string) (l : line) : Z := let '(ty', n, _) := l in if decide (ty' = ty) then n else 0.

Section report.
Context `{GroupOrder} (clock : nat -> time.Time) (provider subscription charge : string).

Definition add_line (r : Report) (l : line) : Report :=
  let '(ty, n, i) := l in AddLineEntry clock r provider ty n (From i) (To i) subscription charge.
(** The line of a group. *)
Definition line_of (intervals : list Interval) (g : groupKey * Z) : option line :=
  (fun i => (g.1.1, g.2, i)) <$> List.find (fun i => InTimeRange (From i) (To i) g.1.2) intervals.

Lemma add_sum_entry_line intervals r g :
  add_sum_entry clock intervals provider subscription charge r g = match line_of intervals g with Some l => add_line r l | None => r end.
Proof. destruct g as [[ty b] n]. unfold add_sum_entry, line_of. simpl. by destruct (List.find _ intervals). Qed.
Lemma entries_of_groups intervals gs : forall r,
  foldl (add_sum_entry clock intervals provider subscription charge) r gs = foldl add_line r (omap (line_of intervals) gs).
Proof.
  induction gs as [|g gs IH]; intros r; [done|]. cbn [foldl]. rewrite IH, add_sum_entry_line.
  change (omap (line_of intervals) (g :: gs)) with (match line_of intervals g with Some y => y :: omap (line_of intervals) gs | None => omap (line_of intervals) gs end).
  by destruct (line_of intervals g).
Qed.
End report.

(** * The sums *)

(** The usage of one kind in an interval. *)
Definition usage_in (ty : string) (i : Interval) (aggs : list Aggregate) : Z :=
  usage (fun a => a_AmountType a = ty /\ within_interval i (a_BucketStart a)) aggs.

Section sums.
Context (c from through : Z) (cuts : list Z) (l : list Interval) (aggs : list Aggregate).
Hypothesis Hc : 1 <= c.
Hypothesis Hcut : cut_at_cycles c from through cuts l.
Hypothesis Haggs : Forall (fun a => from <= a_BucketStart a < through /\ 0 <= a_AmountValue a) aggs.
Hypothesis Hbound : forall ty, usage (fun a => a_AmountType a = ty) aggs < 2^63.

Definition group_of (a : Aggregate) : groupKey := (a_AmountType a, bucketTime through c a).

Lemma chain_l : chain from through l.
Proof. destruct Hcut as (Hf & Ht & Hsort & _). by apply (sorted_chain _ _ _ cuts). Qed.
Lemma nonneg : Forall (fun a => 0 <= a_AmountValue a) aggs.
Proof. eapply Forall_impl; [exact Haggs|]. by intros a [_ ?]. Qed.

(** The interval of an aggregate. *)
Lemma interval_of a : a ∈ aggs -> exists i, i ∈ l /\ within_interval i (a_BucketStart a) /\ bucketTime through c a = To i - 1.
Proof.
  intros Ha. rewrite Forall_forall in Haggs. destruct (Haggs a Ha) as [Hb _]. destruct (chain_find l _ _ _ chain_l Hb) as (i & _ & Hi & Hw).
  exists i. split; [done|]. split; [done|]. by eapply cut_bucket.
Qed.
Lemma same_group i a ty : i ∈ l -> a ∈ aggs -> group_of a = (ty, To i - 1) <-> a_AmountType a = ty /\ within_interval i (a_BucketStart a).
Proof.
  intros Hi Ha. destruct (interval_of a Ha) as (j & Hj & Hw & Hb). unfold group_of. rewrite Hb.
  destruct (chain_bounds _ _ _ _ chain_l Hi). destruct (chain_bounds _ _ _ _ chain_l Hj). split.
  - intros [= <- Heq]. split; [done|]. destruct (chain_unique l from through i j (To i - 1) chain_l Hi Hj) as [Hf Ht]; [unfold within_interval; lia..|].
    unfold within_interval in *. lia.
  - intros [<- Hwi]. destruct (chain_unique l from through i j _ chain_l Hi Hj Hwi Hw) as [_ ->]. done.
Qed.

(** A group and its line. *)
Lemma group_line k v : sum_by group_of aggs !! k = Some v ->
  exists i, i ∈ l /\ line_of l (k, v) = Some (k.1, v, i) /\ v = usage_in k.1 i aggs /\ v = usage (fun a => group_of a = k) aggs.
Proof.
  intros Hk. assert (Hin : k ∈ group_of <$> aggs) by (apply sum_by_keys; by exists v). apply list_elem_of_fmap in Hin as (a & -> & Ha).
  pose proof (sum_by_lookup group_of (group_of a) aggs) as Hv. rewrite Hk in Hv. simpl in Hv.
  assert (Hle : usage (fun b => group_of b = group_of a) aggs <= usage (fun b => a_AmountType b = a_AmountType a) aggs).
  { apply usage_mono; [apply nonneg|]. intros b _ Hb. by injection Hb as ->. }
  rewrite i64_wrap_small in Hv by (pose proof (usage_nonneg (fun b => group_of b = group_of a) aggs nonneg); specialize (Hbound (a_AmountType a)); lia).
  destruct (interval_of a Ha) as (i & Hi & Hw & Hb). exists i. split; [done|].
  destruct (chain_bounds _ _ _ _ chain_l Hi) as (H1 & H2 & H3).
  destruct (chain_find l from through (To i - 1) chain_l ltac:(lia)) as (j & Hfind & Hj & Hwj).
  assert (Hk' : group_of a = (a_AmountType a, To i - 1)) by (unfold group_of; by rewrite Hb).
  split; [|split; [|done]].
  - unfold line_of. simpl. rewrite Hb, Hfind. simpl. destruct (chain_unique l from through i j (To i - 1) chain_l Hi Hj) as [Hf Ht]; [unfold within_interval; lia|done|].
    by destruct i, j; simpl in *; subst.
  - rewrite Hv. unfold usage_in. apply usage_ext. intros b Hb'. rewrite Hk'. by apply same_group.
Qed.
End sums.

(** ** The sums of the groups are the whole *)

Section partition.
Context {K : Type} `{Countable K} (f : Aggregate -> K) (Q : K -> Prop) `{forall k, Decision (Q k)}.

Lemma one_key (x : K) (v : Z) (ks : list K) : NoDup ks -> x ∈ ks ->
  foldr (fun k n => (if decide (Q k) then if decide (x = k) then v else 0 else 0) + n) 0 ks = if decide (Q x) then v else 0.
Proof.
  assert (Habsent : forall ks, x ∉ ks -> foldr (fun k n => (if decide (Q k) then if decide (x = k) then v else 0 else 0) + n) 0 ks = 0).
  { clear ks. induction ks as [|k ks IH]; simpl; intros Hx; [done|]. apply not_elem_of_cons in Hx as [Hne Hx].
    rewrite IH by done. repeat case_decide; try done; lia. }
  induction 1 as [|k ks Hk Hnd IH]; intros Hx; [by apply not_elem_of_nil in Hx|]. cbn [foldr].
  apply elem_of_cons in Hx as [->|Hx].
  - rewrite (decide_True (P := k = k)) by done. rewrite Habsent by done. case_decide; lia.
  - rewrite IH by done. rewrite (decide_False (P := x = k)) by by intros ->. repeat case_decide; lia.
Qed.

Lemma usage_partition l (ks : list K) : NoDup ks -> (forall a, a ∈ l -> f a ∈ ks) ->
  foldr (fun k n => (if decide (Q k) then usage (fun a => f a = k) l else 0) + n) 0 ks = usage (fun a => Q (f a)) l.
Proof.
  intros Hnd. induction l as [|a l IH]; intros Hall.
  - clear. induction ks as [|k ks IHks]; simpl in *; [done|]. rewrite IHks. case_decide; done.
  - assert (Hsplit : foldr (fun k n => (if decide (Q k) then usage (fun b => f b = k) (a :: l) else 0) + n) 0 ks =
      foldr (fun k n => (if decide (Q k) then if decide (f a = k) then a_AmountValue a else 0 else 0) + n) 0 ks
      + foldr (fun k n => (if decide (Q k) then usage (fun b => f b = k) l else 0) + n) 0 ks).
    { clear. induction ks as [|k ks IHks]; cbn [foldr]; [done|]. rewrite IHks. case_decide; [|lia]. rewrite usage_cons. lia. }
    rewrite Hsplit, IH by (intros b Hb; apply Hall; by right). rewrite one_key; [done..|]. apply Hall. by left.
Qed.
End partition.

Lemma lines_total l ty (F : groupKey -> Z) gs :
  (forall k v, (k, v) ∈ gs -> exists i, line_of l (k, v) = Some (k.1, v, i) /\ v = F k) ->
  foldr (fun x n => line_amount ty x + n) 0 (omap (line_of l) gs) = foldr (fun k n => (if decide (k.1 = ty) then F k else 0) + n) 0 gs.*1.
Proof.
  induction gs as [|[k v] gs IH]; intros Hall; [done|]. destruct (Hall k v ltac:(by left)) as (i & Hl & Hv).
  assert (IH' := IH ltac:(intros k' v' Hk; apply Hall; by right)). cbn [omap list_omap fmap list_fmap foldr]. rewrite Hl. cbn [foldr fst].
  change (list_omap _ _ (line_of l) gs) with (omap (line_of l) gs). rewrite IH', <- Hv. done.
Qed.

(** C21: the report of the usage of an instance over a period, for a cycle day from 1 to 31, usage that is not negative, falls in
    the period and adds up to less than 2^63 for each kind. The report is made without an error; every line is the usage of one
    kind in one interval that lies inside a billing cycle and inside the period, exactly summed, and the lines of each kind add
    up to all the usage of that kind: none is lost or billed twice, whatever the order of the map of sums. *)
Theorem ReportFromAggregates_spec `{GroupOrder} clock config aggs provider from through subscription charge c :
  1 <= c <= 31 -> from < through ->
  Forall (fun a => from <= a_BucketStart a < through /\ 0 <= a_AmountValue a) aggs ->
  (forall ty, usage (fun a => a_AmountType a = ty) aggs < 2^63) ->
  exists lines,
    ReportFromAggregates clock config aggs provider from through subscription charge c
    = Ret (foldl (add_line clock provider subscription charge) (NewReport config) lines) /\
    (forall ty n i, (ty, n, i) ∈ lines -> n = usage_in ty i aggs /\
      from <= From i /\ From i < To i /\ To i <= through /\ forall u, cycle_start c u -> ~ From i < u < To i) /\
    (forall ty, foldr (fun l n => line_amount ty l + n) 0 lines = usage (fun a => a_AmountType a = ty) aggs).
Proof.
  intros Hc Hlt Haggs Hbound. destruct (intervals_loop_run c through _ from [] ltac:(lia) Hlt (days_between from through Hlt)) as (cuts & l & Hrun & Hcut).
  pose proof (chain_l _ _ _ _ _ Hcut) as Hchain.
  pose proof (group_line c from through cuts l aggs ltac:(lia) Hcut Haggs Hbound) as Hline.
  set (G := sum_by (group_of c through) aggs) in *. set (gs := range_groups G).
  assert (Hgs : forall k v, (k, v) ∈ gs <-> G !! k = Some v) by (intros k v; unfold gs; rewrite range_groups_perm; apply elem_of_map_to_list).
  exists (omap (line_of l) gs). split; [|split].
  - unfold ReportFromAggregates, MonthlyIntervalsWithinRange, time.Before. rewrite (proj2 (Z.ltb_lt _ _) Hlt). simpl.
    rewrite (proj2 (Z.ltb_ge c 1)), (proj2 (Z.ltb_ge 31 c)) by lia. simpl. rewrite Hrun. f_equal. apply entries_of_groups.
  - intros ty n i Hin. apply list_elem_of_omap in Hin as ([k v] & Hk & Hl). apply Hgs in Hk.
    destruct (Hline k v Hk) as (j & Hj & Hlj & Hv & _). rewrite Hlj in Hl. injection Hl as <- <- <-. split; [done|].
    destruct (chain_bounds _ _ _ _ Hchain Hj) as (H1 & H2 & H3). split; [done|]. split; [done|]. split; [done|].
    intros u Hu Hbetween. destruct Hcut as (Hf & _ & _ & Hcuts). assert (Hin : u ∈ From <$> l) by (rewrite Hf; right; apply Hcuts; split; [done|lia]).
    apply list_elem_of_fmap in Hin as (x & -> & Hx). destruct (chain_apart _ _ _ j x Hchain Hj Hx); lia.
  - intros ty. transitivity (foldr (fun k n => (if decide (k.1 = ty) then usage (fun a => group_of c through a = k) aggs else 0) + n) 0 gs.*1).
    + assert (Hall : forall k v, (k, v) ∈ gs -> exists i, line_of l (k, v) = Some (k.1, v, i) /\ v = usage (fun a => group_of c through a = k) aggs).
      { intros k v Hk. apply Hgs in Hk. destruct (Hline k v Hk) as (i & _ & Hl & _ & Hv). by exists i. }
      by apply lines_total.
    + rewrite (usage_partition (group_of c through) (fun k => k.1 = ty)); [by apply usage_ext| |].
      * unfold gs. rewrite range_groups_perm. apply NoDup_fst_map_to_list.
      * intros a Ha. assert (Hk : is_Some (G !! group_of c through a)) by (apply sum_by_keys; by apply list_elem_of_fmap_2).
        destruct Hk as [v Hv]. apply Hgs in Hv. apply list_elem_of_fmap. by exists (group_of c through a, v).
Qed.

(** * The theorem at a concrete report *)

Definition sample_usage : list Aggregate :=
  [ mkAggregate 1 "foo" (civil.Date 2018 1 31 + 23 * time.Hour) "node-seconds" 60 0 0;
    mkAggregate 2 "foo" (civil.Date 2018 2 1) "node-seconds" 40 0 0;
    mkAggregate 3 "foo" (civil.Date 2018 2 3) "container-seconds" 7 0 0 ].

Lemma ReportFromAggregates_spec_witness :
  let report := @ReportFromAggregates list_groups (fun _ => civil.Date 2018 3 1) (zuora.mkConfig "" "" "" "" "" "" "" "" "" "" "" "" "") sample_usage
    "P1" (civil.Date 2018 1 31 + 23 * time.Hour) (civil.Date 2018 3 1) "S1" "C1" 1 in
  (le_quantity <$> match report with Ret r => entries r | _ => [] end) = ["7"; "40"; "60"] /\
  exists lines r, report = Ret r /\ foldr (fun l n => line_amount "node-seconds" l + n) 0 lines = 100.
Proof.
  cbv zeta. split; [vm_compute; reflexivity|].
  destruct (@ReportFromAggregates_spec list_groups (fun _ => civil.Date 2018 3 1) (zuora.mkConfig "" "" "" "" "" "" "" "" "" "" "" "" "") sample_usage
    "P1" (civil.Date 2018 1 31 + 23 * time.Hour) (civil.Date 2018 3 1) "S1" "C1" 1) as (lines & Hrun & _ & Htotal).
  - lia.
  - apply Z.ltb_lt. vm_compute. reflexivity.
  - repeat constructor; simpl; try (apply Z.leb_le; vm_compute; reflexivity); apply Z.ltb_lt; vm_compute; reflexivity.
  - intros ty. unfold usage, sample_usage. simpl. repeat case_decide; lia.
  - exists lines. eexists. split; [exact Hrun|]. rewrite Htotal. vm_compute. reflexivity.
Defined.
