(* ===== verification/Uploader.v ===== *)
(** The jobs of the billing uploader (billing-uploader/job): the usage that goes to Zuora or to the
    Google Cloud Platform, and the invoices for usage after a trial. *)
From Stdlib Require Import ZArith Lia Ascii String.
From stdpp Require Import base tactics option gmap strings list pretty.
From S2P Require Import Prelude GoStd Users UsersClient Calendar Formats Entitlement Ledger Zuora Report.

(** * The uploaders (usage/uploader.go) *)

Class Uploader (U : Type) := {
  ID : U -> string;
  Add : Organization -> time.Time -> time.Time -> list Aggregate -> M U error unit;
  Upload : string -> M U error unit;
  Reset : M U error unit;
  IsSupported : Organization -> bool;
  ThroughTime : time.Time -> time.Time;
}.

(** ** Google Cloud Platform (usage/gcp.go) *)

(** [servicecontrol.Operation], with one value of one metric *)
Record Operation : Type := mkOperation {
  op_OperationId : string; op_OperationName : string; op_ConsumerId : string; op_StartTime : string; op_EndTime : string;
  op_MetricName : string; op_Int64Value : Z }.

(** The operations collected, and the ones sent, with the answer: [Report] of the control API. *)
Record GCP : Type := mkGCPUploader { ops : list Operation; reported : list (list Operation * option string) }.

Section gcp.
(** The client of the Service Control API: version 5 UUIDs, and the error of a report, given the
    reports before it. *)
Variable OperationID : string -> string.
Variable control_Report : list (list Operation * option string) -> list Operation -> option string.

Definition gcp_operation (org : Organization) (g : GoogleCloudPlatform) (agg : Aggregate) : Operation :=
  mkOperation (OperationID (pretty (a_ID agg))) "HourlyUsageUpload" (g_ConsumerID g) (RFC3339Nano (a_BucketStart agg))
    (RFC3339Nano (time.Add (a_BucketStart agg) (1 * time.Hour)))
    ("google.weave.works/" +:+ g_SubscriptionLevel g +:+ "_nodes") (a_AmountValue agg).

(** [Add]: an organization without an account is dereferenced at its first aggregate. *)
Definition gcp_Add (org : Organization) (from through : time.Time) (aggs : list Aggregate) : M GCP error unit :=
  for_each aggs (fun agg =>
    if decide (a_AmountType agg <> zuora.UsageNodeSeconds) then ret tt
    else
      do g <- deref (o_GCP org);
      modify (fun u => mkGCPUploader (ops u ++ [gcp_operation org g agg]) (reported u))).

Definition gcp_Upload (id : string) : M GCP error unit := fun u =>
  let err := control_Report (reported u) (ops u) in
  (match err with None => Ret tt | Some text => Err (ErrMsg text) end, mkGCPUploader (ops u) (reported u ++ [(ops u, err)])).

Definition gcp_Reset : M GCP error unit := modify (fun u => mkGCPUploader [] (reported u)).
Definition gcp_IsSupported (org : Organization) : bool :=
  match o_GCP org with
  | None => false
  | Some g => g_Activated g && bool_decide (g_SubscriptionStatus g = procurement.Active)
  end.
Definition gcp_ThroughTime (now : time.Time) : time.Time := time.Truncate now (1 * time.Hour).

Definition gcp_uploader : Uploader GCP := {|
  ID := fun _ => "gcp"; Add := gcp_Add; Upload := gcp_Upload; Reset := gcp_Reset; IsSupported := gcp_IsSupported; ThroughTime := gcp_ThroughTime |}.
End gcp.

(** ** Zuora (usage/zuora.go) *)

(** The client and the report. *)
Record ZuoraUploader (C : Type) : Type := mkZuoraUploader { zu_cl : C; zu_r : Report }.
Arguments mkZuoraUploader {C}. Arguments zu_cl {C}. Arguments zu_r {C}.

(** [errors.Wrap] around a call *)
Definition wrapping {S A} (message : string) (m : M S error A) : M S error A :=
  do r <- try m;
  match r with inl err => throw (Wrap err message) | inr a => ret a end.

Section zuora.
Context {C : Type} `{zuora.ClientImpl C} `{GroupOrder}.
Variable clock : nat -> time.Time.

(** A call of the client; the jobs only look at the text of its errors. *)
Definition via_client {A} (m : M C zuora.zerror A) : M (ZuoraUploader C) error A := fun u =>
  let '(o, c) := m (zu_cl u) in
  (match o with Ret a => Ret a | Err e => Err (ErrMsg (zuora.Error e)) | Panic => Panic | Deadlock => Deadlock | OutOfFuel => OutOfFuel end,
   mkZuoraUploader c (zu_r u)).

Definition minBucketStart (aggs : list Aggregate) : time.Time :=
  foldl (fun l a => if time.IsZero l || time.Before (a_BucketStart a) l then a_BucketStart a else l) 0 aggs.

(** [Add]: the subscription of the account is dereferenced. *)
Definition zuora_Add (org : Organization) (from through : time.Time) (aggs : list Aggregate) : M (ZuoraUploader C) error unit :=
  do account <- wrapping "cannot get Zuora account" (via_client (zuora.client_call (zuora.CallGetAccount (o_ZuoraAccountNumber org))));
  if decide (zuora.ac_PaymentProviderID account = EmptyString) then throw (ErrMsg "account has no Zuora payment provider")
  else
    do subscription <- deref (zuora.ac_Subscription account);
    do aggs <- via_client (FilterAggregatesForSubscription aggs account);
    do cfg <- gets (fun u => zuora.GetConfig (zu_cl u));
    do orgReport <- wrapping "cannot create report" (fun u =>
      (ReportFromAggregates clock cfg aggs (zuora.ac_PaymentProviderID account) (minBucketStart aggs) through
         (zuora.as_SubscriptionNumber subscription) (zuora.as_ChargeNumber subscription) zuora.BillCycleDay, u));
    modify (fun u => mkZuoraUploader (zu_cl u) (ConcatEntries (zu_r u) orgReport)).

Definition zuora_Upload (id : string) : M (ZuoraUploader C) error unit :=
  do r <- gets zu_r;
  via_client (zuora.client_call (zuora.CallUploadUsage (ToZuoraFormat r) id)) ;;;
  ret tt.

Definition zuora_Reset : M (ZuoraUploader C) error unit := modify (fun u => mkZuoraUploader (zu_cl u) (NewReport (zuora.GetConfig (zu_cl u)))).
Definition zuora_IsSupported (org : Organization) : bool := negb (bool_decide (o_ZuoraAccountNumber org = EmptyString)).
Definition zuora_ThroughTime (now : time.Time) : time.Time := time.Truncate now (24 * time.Hour).

(** [NewZuora] *)
Definition NewZuora (client : C) : ZuoraUploader C := mkZuoraUploader client (NewReport (zuora.GetConfig client)).
Definition zuora_uploader : Uploader (ZuoraUploader C) := {|
  ID := fun _ => "zuora"; Add := zuora_Add; Upload := zuora_Upload; Reset := zuora_Reset;
  IsSupported := zuora_IsSupported; ThroughTime := zuora_ThroughTime |}.
End zuora.

(** * Uploading usage (usage.go) *)

Record uploadStats : Type := mkUploadStats {
  st_count : gmap string Z; st_sum : gmap string Z; st_instances : Z; aggregateIDs : list Z }.
Definition no_stats : uploadStats := mkUploadStats ∅ ∅ 0 [].

(** [record] *)
Definition bump (m : gmap string Z) (key : string) (n : Z) : gmap string Z := <[key := i64_wrap (default 0 (m !! key) + n)]> m.
Definition record (us : uploadStats) (aggs : list Aggregate) : uploadStats :=
  mkUploadStats (foldl (fun m agg => bump m (a_AmountType agg) 1) (st_count us) aggs)
    (foldl (fun m agg => bump m (a_AmountType agg) (a_AmountValue agg)) (st_sum us) aggs)
    (st_instances us + 1) (aggregateIDs us ++ (a_ID <$> aggs)).

(** What the jobs work on: the users service, the database, the uploader, and the gauges, which
    are the status and the numbers that were set, latest first. *)
Record Jobs (W L U : Type) : Type := mkJobs { j_users : W; j_db : L; j_uploader : U; j_gauges : list (string * uploadStats) }.
Arguments mkJobs {W L U}. Arguments j_users {W L U}. Arguments j_db {W L U}. Arguments j_uploader {W L U}. Arguments j_gauges {W L U}.

Section usage.
Context {W L U : Type} `{LedgerImpl L} `{Uploader U}.
(** [users.UsersClient.GetBillableOrganizations] *)
Variable users_GetBillableOrganizations : time.Time -> M W error (list Organization).

Abbreviation Job := (M (Jobs W L U) error).

Definition on_users {A} (m : M W error A) : Job A := zoom j_users (fun w s => mkJobs w (j_db s) (j_uploader s) (j_gauges s)) m.
Definition on_db {A} (m : M L error A) : Job A := zoom j_db (fun l s => mkJobs (j_users s) l (j_uploader s) (j_gauges s)) m.
Definition on_uploader {A} (m : M U error A) : Job A := zoom j_uploader (fun u s => mkJobs (j_users s) (j_db s) u (j_gauges s)) m.

(** [set] *)
Definition set_gauges (status : string) (us : uploadStats) : Job unit :=
  modify (fun s => mkJobs (j_users s) (j_db s) (j_uploader s) ((status, us) :: j_gauges s)).

(** One round of the loop over the organizations. *)
Definition collect (earliest through : time.Time) (stats : uploadStats) (org : Organization) : Job uploadStats :=
  if negb (IsSupported org) then ret stats
  else
    let orgFrom := common_time.MaxTime earliest (o_TrialExpiresAt org) in
    if InTrialPeriod org through then ret stats
    else if decide (o_ID org = EmptyString) then ret stats
    else
      do aggs <- wrapping "error querying aggregates database" (on_db (ledger_call (CallGetAggregatesToUpload (o_ID org) orgFrom through)));
      match aggs with
      | [] => ret stats
      | _ =>
          wrapping ("cannot add aggregates to " +:+ o_ExternalID org) (on_uploader (Add org orgFrom through aggs)) ;;;
          ret (record stats aggs)
      end.

(** [upload] *)
Definition upload (aggregateIDs : list Z) (uploadName : string) : Job unit :=
  do id <- gets (fun s => ID (j_uploader s));
  do uploadID <- on_db (ledger_call (CallInsertUsageUpload id aggregateIDs));
  do r <- try (on_uploader (Upload uploadName));
  match r with
  | inr _ => ret tt
  | inl err =>
      wrapping ("cannot delete usage upload entry (id=" +:+ pretty uploadID +:+ ", uploader=" +:+ id +:+ ") after upload failed, you *must* delete this record manually before the next run, and update the aggregates table to unlink records from this upload")
        (on_db (ledger_call (CallDeleteUsageUpload id uploadID))) ;;;
      throw err
  end.

(** [through.Unix()] *)
Definition unix (t : time.Time) : Z := (t - civil.Date 1970 1 1) / time.Second.

(** [Do] *)
Definition through_of (now : time.Time) : time.Time := time.Truncate (ThroughTime now) (1 * time.Hour).
Definition earliest_of (through : time.Time) : time.Time := time.Add through (-7 * 24 * time.Hour).
Definition uploader_Do (now : time.Time) : Job unit :=
  let through := through_of now in
  let earliest := earliest_of through in
  on_uploader Reset ;;;
  do organizations <- on_users (users_GetBillableOrganizations through);
  do stats <- fold_m (collect earliest through) organizations no_stats;
  (if 0 <? st_instances stats
   then
     do r <- try (upload (aggregateIDs stats) (pretty (unix through)));
     match r with
     | inl err => set_gauges "error" stats ;;; throw err
     | inr _ => ret tt
     end
   else ret tt) ;;;
  set_gauges "success" stats.
End usage.

(** * Invoices (invoice.go) *)

(** The users service, the database, the client, and the number of invoices processed. *)
Record Invoicing (W L C : Type) : Type := mkInvoicing { in_users : W; in_db : L; in_zuora : C; invoicesProcessedTotal : Z }.
Arguments mkInvoicing {W L C}. Arguments in_users {W L C}. Arguments in_db {W L C}. Arguments in_zuora {W L C}. Arguments invoicesProcessedTotal {W L C}.

Section invoice.
Context {W L C : Type} `{LedgerImpl L} `{zuora.ClientImpl C}.
(** [users.UsersClient.GetOrganization], by external identifier *)
Variable users_GetOrganization : string -> M W error Organization.

Abbreviation Job := (M (Invoicing W L C) error).

Definition invoice_users {A} (m : M W error A) : Job A := zoom in_users (fun w s => mkInvoicing w (in_db s) (in_zuora s) (invoicesProcessedTotal s)) m.
Definition invoice_db {A} (m : M L error A) : Job A := zoom in_db (fun l s => mkInvoicing (in_users s) l (in_zuora s) (invoicesProcessedTotal s)) m.
(** A call of the client, with its error. *)
Definition invoice_zuora {A} (c : zuora.ClientCall A) : Job (zuora.zerror + A) := fun s =>
  let '(o, cl) := zuora.client_call c (in_zuora s) in
  (match o with Ret a => Ret (inr a) | Err e => Ret (inl e) | Panic => Panic | Deadlock => Deadlock | OutOfFuel => OutOfFuel end,
   mkInvoicing (in_users s) (in_db s) cl (invoicesProcessedTotal s)).

(** The row is deleted, and the invoice counted; an error is logged. *)
Definition finish_invoice (usageImportID : string) : Job unit :=
  do r <- try (invoice_db (ledger_call (CallDeletePostTrialInvoice usageImportID)));
  match r with
  | inl _ => ret tt
  | inr _ => modify (fun s => mkInvoicing (in_users s) (in_db s) (in_zuora s) (invoicesProcessedTotal s + 1))
  end.

(** One round of the loop over the invoices. *)
Definition process_invoice (postTrialInvoice : PostTrialInvoice) : Job unit :=
  let usageImportID := pt_UsageImportID postTrialInvoice in
  do url <- gets (fun s => zuora.client_StatusURL (in_zuora s) usageImportID);
  do status <- invoice_zuora (zuora.CallGetUsageImportStatus url);
  match status with
  | inl _ | inr (_, Some _) => ret tt
  | inr (status, None) =>
      if decide (zuora.is_ImportStatus status <> zuora.Completed) then ret tt
      else
        do org <- try (invoice_users (users_GetOrganization (pt_ExternalID postTrialInvoice)));
        match org with
        | inl _ => ret tt
        | inr org =>
            do paymentID <- invoice_zuora (zuora.CallCreateInvoice (o_ZuoraAccountNumber org));
            match paymentID with
            | inr _ => finish_invoice usageImportID
            | inl err =>
                if zuora.NoChargeableUsage err then finish_invoice usageImportID
                else if zuora.ChargeableUsageTooLow err then finish_invoice usageImportID
                else ret tt
            end
        end
  end.

(** [Do] *)
Definition invoice_Do : Job unit :=
  do postTrialInvoices <- invoice_db (ledger_call CallGetPostTrialInvoices);
  for_each postTrialInvoices process_invoice.
End invoice.
