(* ===== verification/UploaderSpec.v ===== *)
(** The uploader links aggregates to an upload exactly when the upload succeeded, and the invoice job
    forgets an invoice only when there is nothing left to collect. *)
From Stdlib Require Import ZArith Lia Ascii String.
From stdpp Require Import base tactics option gmap strings list pretty.
From S2P Require Import Prelude GoStd Users UsersClient Calendar Formats Entitlement Ledger LedgerSpec Zuora ZuoraSpec Report Uploader.

(** * Collecting usage *)

Section usage.
Context {W L U : Type} `{LI : LedgerImpl L} {V : LedgerView L} {LL : LawfulLedger L} `{UP : Uploader U}.
Variable users_GetBillableOrganizations : time.Time -> M W error (list Organization).

Section collect.
Context (earliest through : time.Time).

Definition from_of (org : Organization) : time.Time := common_time.MaxTime earliest (o_TrialExpiresAt org).
(** The organizations whose usage is looked at. *)
Definition selected (org : Organization) : Prop := IsSupported org = true /\ InTrialPeriod org through = false /\ o_ID org <> EmptyString.
Definition batch : Type := Organization * list Aggregate.

(** The uploader was given the batches, one after the other. *)
Fixpoint added (bs : list batch) (u u' : U) : Prop :=
  match bs with
  | [] => u' = u
  | (org, aggs) :: bs => exists u1, Add org (from_of org) through aggs u = (Ret tt, u1) /\ added bs u1 u'
  end.
Lemma added_app bs1 bs2 u u1 u' : added bs1 u u1 -> added bs2 u1 u' -> added (bs1 ++ bs2) u u'.
Proof.
  revert u. induction bs1 as [|[org aggs] bs1 IH]; intros u; simpl; [by intros ->|]. intros (u2 & Hadd & H1) H2. exists u2. split; [done|]. by apply IH.
Qed.

Definition batch_aggs (bs : list batch) : list Aggregate := concat bs.*2.
Definition batch_ids (bs : list batch) : list Z := a_ID <$> batch_aggs bs.

(** The batches hold the usage of the selected organizations that belongs to no upload, all of
    that of the period, and each of them once. *)
Record collected (orgs : list Organization) (m : gmap Z Aggregate) (bs : list batch) : Prop := {
  collected_orgs : bs.*1 `sublist_of` orgs;
  collected_selected : forall org aggs, (org, aggs) ∈ bs -> selected org /\ NoDup (a_ID <$> aggs) /\
    forall a, a ∈ aggs -> m !! a_ID a = Some a /\ a_InstanceID a = o_ID org /\ from_of org <= a_BucketStart a <= through /\ a_UploadID a = 0;
  collected_all : forall org id a, org ∈ orgs -> selected org -> m !! id = Some a -> to_upload (o_ID org) (from_of org) through a -> a ∈ batch_aggs bs }.

Lemma collected_nil m : collected [] m [].
Proof. split; [done| |]; [by intros ? ? ?%not_elem_of_nil|by intros ? ? ? ?%not_elem_of_nil]. Qed.
Lemma batch_aggs_app bs1 bs2 : batch_aggs (bs1 ++ bs2) = batch_aggs bs1 ++ batch_aggs bs2.
Proof. unfold batch_aggs. by rewrite fmap_app, concat_app. Qed.
Lemma collected_app orgs1 orgs2 m bs1 bs2 : collected orgs1 m bs1 -> collected orgs2 m bs2 -> collected (orgs1 ++ orgs2) m (bs1 ++ bs2).
Proof.
  intros [Ho1 Hs1 Ha1] [Ho2 Hs2 Ha2]. split.
  - rewrite fmap_app. by apply sublist_app.
  - intros org aggs [Hin|Hin]%elem_of_app; [by apply Hs1|by apply Hs2].
  - intros org id a Hin Hsel Hid Hup. rewrite batch_aggs_app, elem_of_app. apply elem_of_app in Hin as [Hin|Hin]; [left|right]; eauto.
Qed.
Lemma elem_of_batch_aggs bs a : a ∈ batch_aggs bs <-> exists org aggs, (org, aggs) ∈ bs /\ a ∈ aggs.
Proof.
  unfold batch_aggs. rewrite list_elem_of_In, in_concat. setoid_rewrite <- list_elem_of_In. split.
  - intros (aggs & ([org l] & -> & Hb)%list_elem_of_fmap & Ha). by exists org, l.
  - intros (org & aggs & Hb & Ha). exists aggs. split; [|done]. apply list_elem_of_fmap. by exists (org, aggs).
Qed.

Lemma collected_stored orgs m bs id : collected orgs m bs -> id ∈ batch_ids bs -> exists a, m !! id = Some a /\ a_UploadID a = 0.
Proof.
  intros [_ Hs _] (a & -> & (org & aggs & Hb & Ha)%elem_of_batch_aggs)%list_elem_of_fmap. destruct (Hs org aggs Hb) as (_ & _ & Hall).
  destruct (Hall a Ha) as (Hm & _ & _ & Hz). by exists a.
Qed.

(** Organizations with different identifiers: no aggregate is given twice. *)
Lemma collected_once orgs m bs : NoDup (o_ID <$> orgs) -> collected orgs m bs -> NoDup (batch_ids bs).
Proof.
  intros Hnd [Ho Hs _]. assert (Hids : NoDup (o_ID <$> bs.*1)) by (eapply sublist_NoDup; [exact Hnd|]; by rewrite Ho).
  clear Ho. induction bs as [|[org aggs] bs IH]; [constructor|]. simpl in Hids. apply NoDup_cons in Hids as [Hnot Hids].
  change (batch_ids ((org, aggs) :: bs)) with (a_ID <$> (aggs ++ batch_aggs bs)). rewrite fmap_app. apply NoDup_app.
  destruct (Hs org aggs ltac:(by left)) as (_ & Hndo & Hall). split; [done|]. split; [|apply IH; [intros o l Hin; apply Hs; by right|done]].
  intros id (a & -> & Ha)%list_elem_of_fmap (b & Hb & (org2 & aggs2 & Hin & Hb2)%elem_of_batch_aggs)%list_elem_of_fmap.
  destruct (Hall a Ha) as (Hma & Hia & _). destruct (Hs org2 aggs2 ltac:(by right)) as (_ & _ & Hall2). destruct (Hall2 b Hb2) as (Hmb & Hib & _).
  rewrite <- Hb, Hma in Hmb. injection Hmb as ->. apply Hnot. rewrite <- Hia, Hib. apply list_elem_of_fmap_2. apply list_elem_of_fmap. by exists (org2, aggs2).
Qed.
End collect.

(** ** The loop *)

Abbreviation Job := (M (Jobs W L U) error).
Abbreviation state := (Jobs W L U).

(** The database is a good one, and looks as it did. *)
Definition same_db (s s' : state) : Prop := unchanged (j_db s) (j_db s').
Lemma unchanged_self (d : L) : ledger_ok d -> unchanged d d.
Proof. by split. Qed.
Lemma unchanged_trans (d1 d2 d3 : L) : unchanged d1 d2 -> unchanged d2 d3 -> unchanged d1 d3.
Proof. intros (_ & Hc1 & Hi1 & Ho1) (Hok & Hc2 & Hi2 & Ho2). split; [done|]. split; [congruence|]. split; [congruence|auto]. Qed.

(** What a step does when it comes back, and that it leaves the database alone. *)
Definition steps {A} (m : Job A) (Q : state -> A -> state -> Prop) : Prop := forall s, ledger_ok (j_db s) ->
  exists o s', m s = (o, s') /\ same_db s s' /\ match o with Ret a => Q s a s' | _ => True end.

Lemma steps_ret {A} (a : A) (Q : state -> A -> state -> Prop) : (forall s, Q s a s) -> steps (ret a) Q.
Proof. intros HQ s Hok. exists (Ret a), s. split; [done|]. split; [by apply unchanged_self|done]. Qed.
Lemma steps_bind {A B} (m : Job A) (k : A -> Job B) Q (R : state -> B -> state -> Prop) :
  steps m Q -> (forall a, steps (k a) (fun s b s' => forall s0, Q s0 a s -> same_db s0 s -> R s0 b s')) -> steps (bind m k) R.
Proof.
  intros Hm Hk s Hok. destruct (Hm s Hok) as (o & s1 & Hrun & Hsame & HQ). unfold bind. rewrite Hrun.
  destruct o as [a|e| | |]; [|by (eexists _, s1; split; [reflexivity|])..]. destruct (Hk a s1) as (o & s2 & Hrun2 & Hsame2 & HR); [apply Hsame|].
  exists o, s2. split; [done|]. split; [by eapply unchanged_trans|]. destruct o; try done. by apply HR.
Qed.
Lemma steps_wrapping {A} message (m : Job A) Q : steps m Q -> steps (wrapping message m) Q.
Proof.
  intros Hm s Hok. destruct (Hm s Hok) as (o & s1 & Hrun & Hsame & HQ). unfold wrapping, bind, try. rewrite Hrun.
  destruct o as [a|e| | |]; by eexists _, s1.
Qed.
Lemma steps_uploader {A} (m : M U error A) : steps (on_uploader m) (fun s a s' => m (j_uploader s) = (Ret a, j_uploader s') /\ j_users s' = j_users s).
Proof.
  intros s Hok. unfold on_uploader, zoom. destruct (m (j_uploader s)) as [o u]. eexists o, _. split; [done|].
  split; [by apply unchanged_self|]. by destruct o.
Qed.
Lemma steps_users {A} (m : M W error A) : steps (on_users m) (fun s a s' => m (j_users s) = (Ret a, j_users s') /\ j_uploader s' = j_uploader s).
Proof.
  intros s Hok. unfold on_users, zoom. destruct (m (j_users s)) as [o w]. eexists o, _. split; [done|].
  split; [by apply unchanged_self|]. by destruct o.
Qed.
Lemma steps_GetAggregatesToUpload i from through : steps (on_db (ledger_call (CallGetAggregatesToUpload i from through)))
  (fun s l s' => j_uploader s' = j_uploader s /\ NoDup (a_ID <$> l) /\
    (forall a, a ∈ l -> contents (j_db s) !! a_ID a = Some a /\ a_InstanceID a = i /\ from <= a_BucketStart a <= through /\ a_UploadID a = 0) /\
    (forall id a, contents (j_db s) !! id = Some a -> to_upload i from through a -> a ∈ l)).
Proof.
  intros s Hok. destruct (law_GetAggregatesToUpload (j_db s) i from through Hok) as (l & d & Hrun & Hsame & Hl).
  unfold on_db, zoom. rewrite Hrun. eexists (Ret l), _. by repeat split; try apply Hsame; try apply Hl.
Qed.

(** The outcome of collecting the usage of [orgs] on top of [stats]. *)
Definition collects (earliest through : time.Time) (orgs : list Organization) (stats : uploadStats) (s : state) (stats' : uploadStats) (s' : state) : Prop :=
  exists bs, added earliest through bs (j_uploader s) (j_uploader s') /\ collected earliest through orgs (contents (j_db s)) bs /\
    aggregateIDs stats' = aggregateIDs stats ++ batch_ids bs /\ st_instances stats' = st_instances stats + Z.of_nat (length bs).

Lemma collects_none earliest through org stats : ~ selected through org -> forall s, collects earliest through [org] stats s stats s.
Proof.
  intros Hno s. exists []. split; [done|]. split; [|split; [by rewrite app_nil_r|simpl; lia]]. split; [apply sublist_nil_l|by intros ? ? ?%not_elem_of_nil|].
  intros o id a ->%list_elem_of_singleton Hsel. by destruct Hno.
Qed.
Lemma collect_steps earliest through stats org : steps (collect earliest through stats org) (collects earliest through [org] stats).
Proof.
  unfold collect. destruct (IsSupported org) eqn:Hsup; simpl; [|apply steps_ret, collects_none; intros (Hs & _); congruence].
  destruct (InTrialPeriod org through) eqn:Htrial; [apply steps_ret, collects_none; intros (_ & Hs & _); congruence|].
  case_decide as Hid; [apply steps_ret, collects_none; by intros (_ & _ & ?)|]. fold (from_of earliest org).
  assert (Hsel : selected through org) by done.
  eapply steps_bind; [apply steps_wrapping, steps_GetAggregatesToUpload|]. intros [|a l].
  - apply steps_ret. intros s s0 (Hu & _ & _ & Hall) (_ & Hc & _). exists []. split; [done|]. split; [|split; [by rewrite app_nil_r|simpl; lia]].
    split; [apply sublist_nil_l|by intros ? ? ?%not_elem_of_nil|]. intros o id b ->%list_elem_of_singleton _ Hb Hup. by apply (Hall id b Hb) in Hup.
  - eapply steps_bind; [apply steps_wrapping, steps_uploader|]. intros []. apply steps_ret.
    intros s s0 (Hadd & _) _ s1 (Hu & Hnd & Hsome & Hall) _. exists [(org, a :: l)]. split; [|split; [|split]].
    + exists (j_uploader s). rewrite <- Hu. by split.
    + split; [done| |].
      * intros o aggs [= -> ->]%list_elem_of_singleton. split; [done|]. by split.
      * intros o id b ->%list_elem_of_singleton _ Hb Hup. unfold batch_aggs. simpl. rewrite app_nil_r. by apply (Hall id b).
    + unfold batch_ids, batch_aggs. simpl. by rewrite app_nil_r.
    + simpl. lia.
Qed.

Lemma collect_all earliest through orgs : forall stats, steps (fold_m (collect earliest through) orgs stats) (collects earliest through orgs stats).
Proof.
  induction orgs as [|org orgs IH]; intros stats; cbn [fold_m].
  - apply steps_ret. intros s. exists []. split; [done|]. split; [apply collected_nil|]. split; [by rewrite app_nil_r|simpl; lia].
  - eapply steps_bind; [apply collect_steps|]. intros stats1 s Hok. destruct (IH stats1 s Hok) as (o & s' & Hrun & Hsame & Ho).
    exists o, s'. split; [done|]. split; [done|]. destruct o as [stats2|e| | |]; try done. intros s0 (bs1 & Hadd1 & Hcol1 & Hids1 & Hn1) (_ & Hc & _).
    destruct Ho as (bs2 & Hadd2 & Hcol2 & Hids2 & Hn2). exists (bs1 ++ bs2). split; [by eapply added_app|]. rewrite Hc in Hcol2. split; [by apply (collected_app _ _ [org])|].
    split; [|rewrite length_app; lia]. rewrite Hids2, Hids1. unfold batch_ids. by rewrite batch_aggs_app, fmap_app, app_assoc.
Qed.

(** ** The upload *)

(** The aggregates [ids] are linked to an upload that is new. *)
Definition linked_to_new (ids : list Z) (m m' : gmap Z Aggregate) : Prop :=
  exists uploadID, uploadID <> 0 /\ map_Forall (fun _ a => a_UploadID a <> uploadID) m /\ m' = linked uploadID ids m.
(** The record of an upload that failed could not be deleted. *)
Definition delete_failed : Prop := exists id uploadID d e d', ledger_call (CallDeleteUsageUpload id uploadID) d = (Err e, d').

Lemma upload_run ids name (s : state) : ledger_ok (j_db s) -> (forall id, id ∈ ids -> exists a, contents (j_db s) !! id = Some a /\ a_UploadID a = 0) ->
  definite (Upload name (j_uploader s)).1 ->
  exists o s', upload ids name s = (o, s') /\ ledger_ok (j_db s') /\
    match o with
    | Ret _ => Upload name (j_uploader s) = (Ret tt, j_uploader s') /\ linked_to_new ids (contents (j_db s)) (contents (j_db s'))
    | Err _ => contents (j_db s') = contents (j_db s) \/ (delete_failed /\ linked_to_new ids (contents (j_db s)) (contents (j_db s')))
    | _ => False
    end.
Proof.
  intros Hok Hids Hdef. unfold upload, bind at 1, gets. set (uid := ID (j_uploader s)).
  destruct (law_InsertUsageUpload (j_db s) uid ids Hok) as (o & d & Hrun & Hokd & _ & Ho).
  { apply Forall_forall. intros id Hid. destruct (Hids id Hid) as (a & Ha & _). by eexists. }
  unfold bind at 1, on_db at 1, zoom at 1. rewrite Hrun. destruct o as [uploadID|e| | |]; try done; [|eexists (Err e), _; split; [done|]; by split; [|left]].
  destruct Ho as (Hne & Hfresh & Hopen & Hc). unfold bind at 1, try, on_uploader, zoom at 1. cbn [j_uploader].
  destruct (Upload name (j_uploader s)) as [[[]|err| | |] u] eqn:Hup; try done.
  - eexists (Ret tt), _. split; [done|]. split; [done|]. split; [done|]. by exists uploadID.
  - cbn [j_db j_users j_uploader j_gauges]. unfold bind at 1, wrapping, bind at 1, try, on_db, zoom. cbn [j_db j_users j_uploader j_gauges].
    destruct (law_DeleteUsageUpload d uid uploadID Hokd Hopen) as (o & d' & Hdel & Hok' & _ & Ho). rewrite Hdel.
    destruct o as [[]|e| | |]; try done; eexists (Err _), _; (split; [reflexivity|]); (split; [exact Hok'|]); cbn [j_db].
    + left. rewrite Ho, Hc. apply released_linked; [done|]. intros id a Hid Ha. destruct (Hids id Hid) as (b & Hb & Hz). rewrite Ha in Hb. by injection Hb as ->.
    + right. split; [by exists uid, uploadID, d, e, d'|]. rewrite Ho. by exists uploadID.
Qed.

Definition stopped {A} (o : outcome error A) : Prop := match o with Ret _ => False | _ => True end.
Lemma steps_then {A B} (m : Job A) (k : A -> Job B) Q (R : outcome error B -> state -> Prop) s : ledger_ok (j_db s) -> steps m Q ->
  (forall o s', same_db s s' -> stopped o -> R o s') ->
  (forall a s1, same_db s s1 -> Q s a s1 -> exists o s', k a s1 = (o, s') /\ R o s') ->
  exists o s', bind m k s = (o, s') /\ R o s'.
Proof.
  intros Hok Hm Hstop Hk. destruct (Hm s Hok) as (o & s1 & Hrun & Hsame & HQ). unfold bind. rewrite Hrun.
  destruct o as [a|e| | |]; [by apply Hk|..]; eexists _, s1; (split; [reflexivity|]); by apply Hstop.
Qed.

(** What a run of the job leaves behind: the period ends at the time the uploader gives, on the hour, and begins a week
    before that. *)
Definition uploaded (now : time.Time) (s : state) (o : outcome error unit) (s' : state) : Prop :=
  let through := time.Truncate (ThroughTime now) time.Hour in
  let earliest := through - 7 * 24 * time.Hour in
  ledger_ok (j_db s') /\
    match o with
    | Ret _ => exists orgs w bs u0 u, users_GetBillableOrganizations through (j_users s) = (Ret orgs, w) /\
        Reset (j_uploader s) = (Ret tt, u0) /\ added earliest through bs u0 u /\
        collected earliest through orgs (contents (j_db s)) bs /\ (NoDup (o_ID <$> orgs) -> NoDup (batch_ids bs)) /\
        if decide (bs = []) then j_uploader s' = u /\ contents (j_db s') = contents (j_db s)
        else Upload (pretty (unix through)) u = (Ret tt, j_uploader s') /\ linked_to_new (batch_ids bs) (contents (j_db s)) (contents (j_db s'))
    | _ => contents (j_db s') = contents (j_db s) \/
        (delete_failed /\ exists ids, (forall id, id ∈ ids -> exists a, contents (j_db s) !! id = Some a /\ a_UploadID a = 0) /\
           linked_to_new ids (contents (j_db s)) (contents (j_db s')))
    end.

Lemma stopped_uploaded now s o s' : same_db s s' -> stopped o -> uploaded now s o s'.
Proof. intros (Hok & Hc & _) Ho. split; [done|]. destruct o as [a|e| | |]; [done|by left..]. Qed.

Lemma uploader_Do_run now (s : state) :
  (forall name u, definite (Upload name u).1) -> ledger_ok (j_db s) ->
  exists o s', uploader_Do users_GetBillableOrganizations now s = (o, s') /\ uploaded now s o s'.
Proof.
  intros Hdef Hok. unfold uploader_Do. set (through := through_of now). set (earliest := earliest_of through).
  assert (Hthrough : time.Truncate (ThroughTime now) time.Hour = through) by done.
  assert (Hearliest : through - 7 * 24 * time.Hour = earliest) by (unfold earliest, earliest_of, time.Add; lia).
  eapply (steps_then _ _ _ (uploaded now s)); [exact Hok|apply steps_uploader|apply stopped_uploaded|]. intros [] s1 Hs1 [Hreset Hw1].
  eapply (steps_then _ _ _ (uploaded now s)); [apply Hs1|apply steps_users| |].
  { intros o s' Hs' Ho. apply stopped_uploaded; [|done]. by eapply unchanged_trans. }
  intros orgs s2 Hs2 [Horgs Hu2]. assert (Hs02 : same_db s s2) by by eapply unchanged_trans.
  eapply (steps_then _ _ _ (uploaded now s)); [apply Hs2|apply collect_all| |].
  { intros o s' Hs' Ho. apply stopped_uploaded; [|done]. by eapply unchanged_trans. }
  intros stats s3 Hs3 (bs & Hadd & Hcol & Hids & Hn). assert (Hs03 : same_db s s3) by by eapply unchanged_trans.
  rewrite Hu2 in Hadd. simpl in Hids, Hn. pose proof Hs02 as (_ & Hc02 & _). pose proof Hs03 as (Hok3 & Hc03 & _). rewrite Hc02 in Hcol.
  assert (Hgot : users_GetBillableOrganizations through (j_users s) = (Ret orgs, j_users s2)) by by rewrite <- Hw1.
  assert (Honce : NoDup (o_ID <$> orgs) -> NoDup (batch_ids bs)) by (intros Hnd; by eapply collected_once).
  rewrite Hids, Hn. destruct (decide (bs = [])) as [->|Hne].
  - eexists (Ret tt), _. split; [reflexivity|]. split; [exact Hok3|]. exists orgs, (j_users s2), [], (j_uploader s1), (j_uploader s3). by rewrite decide_True.
  - rewrite (proj2 (Z.ltb_lt 0 _)) by (destruct bs; [done|simpl; lia]).
    destruct (upload_run (batch_ids bs) (pretty (unix through)) s3 Hok3) as (o & s4 & Hrun & Hok4 & Ho); [|done|].
    { intros id Hid. rewrite Hc03. by eapply collected_stored. }
    rewrite Hc03 in Ho. unfold bind, try. rewrite Hrun. destruct o as [[]|e| | |]; try done; eexists _, _; (split; [reflexivity|]); (split; [exact Hok4|]).
    + exists orgs, (j_users s2), bs, (j_uploader s1), (j_uploader s3). rewrite decide_False by done. do 5 (split; [done|]). exact Ho.
    + destruct Ho as [Ho|[Hdel Ho]]; [by left|]. right. split; [done|]. exists (batch_ids bs). split; [|done].
      intros id Hid. by eapply collected_stored.
Qed.
End usage.

(** ** The two uploaders *)

Lemma gcp_Upload_definite control_Report name u : definite (gcp_Upload control_Report name u).1.
Proof. unfold gcp_Upload. by destruct (control_Report _ _). Qed.

(** The operations for the batches: one for every aggregate of node-seconds, of the account of its organization. *)
Definition gcp_org_ops (OperationID : string -> string) (b : batch) : list Operation :=
  match o_GCP b.1 with
  | Some g => gcp_operation OperationID b.1 g <$> List.filter (fun agg => bool_decide (a_AmountType agg = zuora.UsageNodeSeconds)) b.2
  | None => []
  end.
Definition gcp_ops (OperationID : string -> string) (bs : list batch) : list Operation := concat (gcp_org_ops OperationID <$> bs).

Lemma gcp_Add_run OperationID org g from through aggs u : o_GCP org = Some g ->
  gcp_Add OperationID org from through aggs u = (Ret tt, mkGCPUploader (ops u ++ gcp_org_ops OperationID (org, aggs)) (reported u)).
Proof.
  intros Hg. unfold gcp_Add, gcp_org_ops. simpl. rewrite Hg. revert u. induction aggs as [|agg aggs IH]; intros u; simpl.
  { rewrite app_nil_r. by destruct u. }
  unfold bind. destruct (decide (a_AmountType agg <> zuora.UsageNodeSeconds)) as [Hne|Heq].
  - rewrite bool_decide_eq_false_2 by done. apply IH.
  - apply dec_stable in Heq. rewrite bool_decide_eq_true_2 by done. simpl. unfold modify. rewrite IH. simpl. by rewrite <- app_assoc.
Qed.

Lemma added_gcp OperationID control_Report earliest through bs u u' :
  @added GCP (gcp_uploader OperationID control_Report) earliest through bs u u' -> Forall (fun b : batch => is_Some (o_GCP b.1)) bs ->
  u' = mkGCPUploader (ops u ++ gcp_ops OperationID bs) (reported u).
Proof.
  revert u. induction bs as [|[org aggs] bs IH]; intros u; simpl.
  { intros -> _. rewrite app_nil_r. by destruct u. }
  intros (u1 & Hadd & Hrest) [[g Hg] Hbs]%Forall_cons. rewrite (gcp_Add_run _ _ g) in Hadd by done. injection Hadd as <-.
  rewrite (IH _ Hrest Hbs). unfold gcp_ops. simpl. by rewrite app_assoc.
Qed.

Lemma Truncate_idemp t d : 0 < d -> time.Truncate (time.Truncate t d) d = time.Truncate t d.
Proof.
  intros Hd. unfold time.Truncate. destruct (Z.leb_spec d 0); [lia|].
  pose proof (Z.div_mod t d ltac:(lia)). replace (t - t mod d) with (t / d * d) by lia. rewrite Z.mod_mul by lia. lia.
Qed.
(** The last multiple of a duration up to an instant. *)
Definition last_full (d : time.Duration) (now t : time.Time) : Prop := t <= now < t + d /\ t mod d = 0.
Lemma Truncate_last_full d now : 0 < d -> last_full d now (time.Truncate now d).
Proof.
  intros Hd. unfold last_full, time.Truncate. destruct (Z.leb_spec d 0); [lia|]. pose proof (Z.mod_pos_bound now d Hd).
  split; [lia|]. pose proof (Z.div_mod now d ltac:(lia)). replace (now - now mod d) with (now / d * d) by lia. apply Z.mod_mul. lia.
Qed.

Lemma via_client_definite {C A} (m : M C zuora.zerror A) u : definite (m (zu_cl u)).1 -> definite (via_client m u).1.
Proof. unfold via_client. by destruct (m (zu_cl u)) as [[] ?]. Qed.
Lemma zuora_Upload_definite {C} `{zuora.ClientImpl C} name u :
  (forall content id c, definite (zuora.client_call (zuora.CallUploadUsage content id) c).1) -> definite (zuora_Upload name u).1.
Proof.
  intros Hdef. unfold zuora_Upload, bind, gets. pose proof (via_client_definite (zuora.client_call (zuora.CallUploadUsage (ToZuoraFormat (zu_r u)) name)) u (Hdef _ _ _)) as Hd.
  by destruct (via_client _ u) as [[] u'].
Qed.

(** C19: the uploader. When a run succeeds, the users service has named the organizations, the
    uploader was reset and given, instance by instance, exactly the usage after the trial
    that belongs to no upload, of the week before the time the uploader gives (older usage is never looked at),
    each aggregate once; and if there was any, [Upload] was called
    once after that and succeeded, and exactly these aggregates are linked to a new upload.
    When a run fails or panics, every aggregate is as it was, and
    will be found again by a run within the week, unless the record of the failed upload could not be deleted.
    The uploader for Google sends, for the instances whose account is activated and subscribed, one operation for each
    of these aggregates that is of node-seconds (the others are linked to the upload all the same), in a report that is
    accepted; its period ends at the last full hour, and that of the uploader for Zuora at the last midnight. *)
Theorem uploader_Do_spec :
  (forall W L U `{LI : LedgerImpl L, V : LedgerView L, !LawfulLedger L, UP : Uploader U} (users_GetBillableOrganizations : time.Time -> M W error (list Organization))
     now (s : Jobs W L U),
     (forall name u, definite (Upload name u).1) -> ledger_ok (j_db s) ->
     exists o s', uploader_Do users_GetBillableOrganizations now s = (o, s') /\ uploaded users_GetBillableOrganizations now s o s') /\
  (forall W L `{LI : LedgerImpl L, V : LedgerView L, !LawfulLedger L} (users_GetBillableOrganizations : time.Time -> M W error (list Organization))
     OperationID control_Report now (s s' : Jobs W L GCP), ledger_ok (j_db s) ->
     @uploader_Do W L GCP LI (gcp_uploader OperationID control_Report) users_GetBillableOrganizations now s = (Ret tt, s') ->
     exists through orgs w bs, last_full time.Hour now through /\ users_GetBillableOrganizations through (j_users s) = (Ret orgs, w) /\
       @collected GCP (gcp_uploader OperationID control_Report) (through - 7 * 24 * time.Hour) through orgs (contents (j_db s)) bs /\
       Forall (fun b => exists g, o_GCP b.1 = Some g /\ g_Activated g = true /\ g_SubscriptionStatus g = procurement.Active) bs /\
       reported (j_uploader s') = reported (j_uploader s) ++ (if decide (bs = []) then [] else [(gcp_ops OperationID bs, None)])) /\
  (forall now, last_full (24 * time.Hour) now (time.Truncate (zuora_ThroughTime now) time.Hour)).
Proof.
  split; [intros; by apply uploader_Do_run|]. split.
  - intros W L LI V HL ub OperationID control_Report now s s' Hok Hrun.
    destruct (@uploader_Do_run W L GCP LI V HL (gcp_uploader OperationID control_Report) ub now s) as (o & s1 & Hrun1 & Hup);
      [intros; apply gcp_Upload_definite|done|].
    rewrite Hrun in Hrun1. injection Hrun1 as <- <-. destruct Hup as (_ & orgs & w & bs & u0 & u & Horgs & Hreset & Hadd & Hcol & _ & Hbs).
    set (through := time.Truncate _ _) in *. assert (Ht : through = time.Truncate now time.Hour) by by apply Truncate_idemp.
    assert (Hsup : Forall (fun b : batch => exists g, o_GCP b.1 = Some g /\ g_Activated g = true /\ g_SubscriptionStatus g = procurement.Active) bs).
    { apply Forall_forall. intros [org aggs] Hb. destruct (collected_selected _ _ _ _ _ Hcol org aggs Hb) as ((Hs & _) & _).
      simpl in *. unfold gcp_IsSupported in Hs. destruct (o_GCP org) as [g|]; [|done]. apply andb_true_iff in Hs as [Ha Hst%bool_decide_eq_true].
      by exists g. }
    exists through, orgs, w, bs. split; [rewrite Ht; by apply Truncate_last_full|]. do 3 (split; [done|]).
    apply added_gcp in Hadd; [|eapply Forall_impl; [exact Hsup|]; by intros b (g & -> & _)].
    simpl in Hreset. unfold gcp_Reset, modify in Hreset. injection Hreset as <-. subst u. simpl in Hbs. case_decide.
    + destruct Hbs as [-> _]. simpl. by rewrite app_nil_r.
    + destruct Hbs as [Hbs _]. unfold gcp_Upload in Hbs. simpl in Hbs. destruct (control_Report _ _) eqn:Hr; [done|]. by injection Hbs as <-.
  - intros now. pose proof (Truncate_last_full (24 * time.Hour) now ltac:(done)) as [Hb Hm].
    assert (Hsame : time.Truncate (zuora_ThroughTime now) time.Hour = zuora_ThroughTime now).
    { unfold zuora_ThroughTime. set (t := time.Truncate now _) in *. unfold time.Truncate. replace (time.Hour <=? 0) with false by done.
      pose proof (Z.div_mod t (24 * time.Hour) ltac:(done)). replace (t mod time.Hour) with 0; [lia|].
      replace t with (t / (24 * time.Hour) * 24 * time.Hour) by lia. symmetry. apply Z.mod_mul. done. }
    rewrite Hsame. by split.
Qed.

(** * Invoices *)

Section invoices.
Context {W L C : Type} `{LI : LedgerImpl L} {V : LedgerView L} {LL : LawfulLedger L} `{CI : zuora.ClientImpl C}.
Variable users_GetOrganization : string -> M W error Organization.
Hypothesis status_definite : forall url cl, definite (zuora.client_call (zuora.CallGetUsageImportStatus url) cl).1.
Hypothesis invoice_definite : forall number cl, definite (zuora.client_call (zuora.CallCreateInvoice number) cl).1.
Hypothesis users_definite : forall e w, definite (users_GetOrganization e w).1.

Abbreviation state := (Invoicing W L C).

(** The visit of an invoice from a state to the next: the service was asked for the status of the import of this
    invoice, and it is completed; then for an invoice for the account of its organization, as the users service
    names it; and it has made the invoice, or has said that there is nothing to charge, or too little. *)
Definition settled (p : PostTrialInvoice) (s s' : state) : Prop :=
  exists c status org r,
    zuora.client_call (zuora.CallGetUsageImportStatus (zuora.client_StatusURL (in_zuora s) (pt_UsageImportID p))) (in_zuora s) = (Ret (status, None), c) /\
    zuora.is_ImportStatus status = zuora.Completed /\
    users_GetOrganization (pt_ExternalID p) (in_users s) = (Ret org, in_users s') /\
    zuora.client_call (zuora.CallCreateInvoice (o_ZuoraAccountNumber org)) c = (r, in_zuora s') /\
    match r with Ret _ => True | Err e => zuora.NoChargeableUsage e = true \/ zuora.ChargeableUsageTooLow e = true | _ => False end.
(** It is forgotten then, and counted, unless the database fails to; otherwise the database is not written to. *)
Definition visited (p : PostTrialInvoice) (s s' : state) : Prop :=
  ledger_ok (in_db s') /\ contents (in_db s') = contents (in_db s) /\
  ((settled p s s' /\ invoices (in_db s') = delete (pt_UsageImportID p) (invoices (in_db s)) /\
      invoicesProcessedTotal s' = invoicesProcessedTotal s + 1) \/
   (settled p s s' /\ (exists e, ledger_call (CallDeletePostTrialInvoice (pt_UsageImportID p)) (in_db s) = (Err e, in_db s')) /\
      invoices (in_db s') = invoices (in_db s) /\ invoicesProcessedTotal s' = invoicesProcessedTotal s) \/
   (~ settled p s s' /\ in_db s' = in_db s /\ invoicesProcessedTotal s' = invoicesProcessedTotal s)).
(** The invoices are visited one after the other. *)
Fixpoint all_visited (l : list PostTrialInvoice) (s s' : state) : Prop :=
  match l with
  | [] => s' = s
  | p :: l => exists s1, visited p s s1 /\ all_visited l s1 s'
  end.

Lemma invoice_zuora_run {A} (c : zuora.ClientCall A) (s : state) : definite (zuora.client_call c (in_zuora s)).1 ->
  exists r cl, invoice_zuora (W := W) (L := L) c s = (Ret r, mkInvoicing (in_users s) (in_db s) cl (invoicesProcessedTotal s)) /\
    zuora.client_call c (in_zuora s) = (match r with inl e => Err e | inr a => Ret a end, cl).
Proof.
  intros Hd. unfold invoice_zuora. destruct (zuora.client_call c (in_zuora s)) as [[a|e| | |] cl]; try done.
  - by exists (inr a), cl.
  - by exists (inl e), cl.
Qed.

Lemma finish_invoice_run p (s s1 : state) : ledger_ok (in_db s) -> in_db s1 = in_db s -> invoicesProcessedTotal s1 = invoicesProcessedTotal s ->
  (forall d n, settled p s (mkInvoicing (in_users s1) d (in_zuora s1) n)) ->
  exists s', finish_invoice (W := W) (C := C) (pt_UsageImportID p) s1 = (Ret tt, s') /\ visited p s s'.
Proof.
  intros Hok Hdb Hn Hset. unfold finish_invoice, bind, try, invoice_db, zoom. rewrite Hdb.
  destruct (law_DeletePostTrialInvoice (in_db s) (pt_UsageImportID p) Hok) as (o & d & Hrun & Hok' & Hc' & Ho). rewrite Hrun.
  destruct o as [[]|e| | |]; try done; eexists; (split; [reflexivity|]); (split; [exact Hok'|]); (split; [exact Hc'|]); cbn.
  - left. split; [apply Hset|]. by rewrite Hn.
  - right. left. split; [apply Hset|]. split; [by exists e|done].
Qed.
Lemma kept_visited p (s s' : state) : ledger_ok (in_db s) -> in_db s' = in_db s -> invoicesProcessedTotal s' = invoicesProcessedTotal s ->
  ~ settled p s s' -> visited p s s'.
Proof. intros Hok Hdb Hn Hno. unfold visited. rewrite Hdb. split; [done|]. split; [done|]. by do 2 right. Qed.

Lemma process_invoice_run (s : state) p : ledger_ok (in_db s) ->
  exists s', process_invoice users_GetOrganization p s = (Ret tt, s') /\ visited p s s'.
Proof.
  intros Hok. unfold process_invoice. unfold bind at 1, gets.
  destruct (invoice_zuora_run (zuora.CallGetUsageImportStatus (zuora.client_StatusURL (in_zuora s) (pt_UsageImportID p))) s (status_definite _ _)) as (r & c1 & Hrun & Hcall).
  rewrite (bind_Ret _ _ _ _ _ Hrun). set (s1 := mkInvoicing _ _ _ _).
  destruct r as [e|[status [e|]]];
    [exists s1; (split; [done|]); apply kept_visited; try done; intros (c & st & org & r & Hst & _); congruence..|].
  case_decide as Hdone.
  { exists s1. split; [done|]. apply kept_visited; try done. intros (c & st & org & r & Hst & Hst' & _). congruence. }
  unfold bind at 1, try, invoice_users, zoom. cbn [in_users s1]. pose proof (users_definite (pt_ExternalID p) (in_users s)) as Hd.
  destruct (users_GetOrganization (pt_ExternalID p) (in_users s)) as [[org|e| | |] w] eqn:Horg; try done.
  2: { eexists. split; [reflexivity|]. apply kept_visited; try done. intros (c & st & o & r & _ & _ & Ho & _). congruence. }
  set (s2 := mkInvoicing _ _ _ _).
  destruct (invoice_zuora_run (zuora.CallCreateInvoice (o_ZuoraAccountNumber org)) s2 (invoice_definite _ _)) as (r & c2 & Hrun2 & Hcall2).
  change (in_zuora s2) with c1 in Hcall2.
  rewrite (bind_Ret _ _ _ _ _ Hrun2). set (s3 := mkInvoicing _ _ _ _).
  assert (Hsettled : match r with inr _ => True | inl e => zuora.NoChargeableUsage e = true \/ zuora.ChargeableUsageTooLow e = true end ->
    forall d n, settled p s (mkInvoicing w d c2 n)).
  { intros Hr d n. eexists c1, status, org, _. split; [exact Hcall|]. split; [exact Hdone|]. split; [exact Horg|]. split; [exact Hcall2|]. by destruct r. }
  destruct r as [e|payment]; [|by apply (finish_invoice_run p s s3 Hok), Hsettled].
  destruct (zuora.NoChargeableUsage e) eqn:Hnone; [apply (finish_invoice_run p s s3 Hok); try done; apply Hsettled; by left|].
  destruct (zuora.ChargeableUsageTooLow e) eqn:Hlow; [apply (finish_invoice_run p s s3 Hok); try done; apply Hsettled; by right|].
  exists s3. split; [done|]. apply kept_visited; try done. intros (c & st & o & r & Hst & _ & Ho & Hinv & Hr).
  rewrite Hcall in Hst. rewrite Horg in Ho. injection Hst as _ <-. injection Ho as <-. rewrite Hcall2 in Hinv. injection Hinv as <-.
  destruct Hr; congruence.
Qed.

(** C20: the invoice job. Every run goes through all the invoices of the database, one after the other, and succeeds, whatever the
    service and the users service answer. No aggregate changes, and an invoice is forgotten (unless the database fails to)
    exactly when, at its turn, the service says that the import of its own usage is completed, the users service names its
    organization, and the service makes an invoice for the account of that organization, or says that there is nothing, or
    too little, to charge. *)
Theorem invoice_Do_spec (s : state) : ledger_ok (in_db s) ->
  exists l d s', ledger_call CallGetPostTrialInvoices (in_db s) = (Ret l, d) /\ l ≡ₚ (map_to_list (invoices (in_db s))).*2 /\ unchanged (in_db s) d /\
    invoice_Do users_GetOrganization s = (Ret tt, s') /\
    all_visited l (mkInvoicing (in_users s) d (in_zuora s) (invoicesProcessedTotal s)) s' /\
    contents (in_db s') = contents (in_db s).
Proof.
  intros Hok. destruct (law_GetPostTrialInvoices (in_db s) Hok) as (l & d & Hrun & Hsame & Hl). exists l, d.
  unfold invoice_Do. unfold bind at 1, invoice_db, zoom. rewrite Hrun. set (s1 := mkInvoicing _ _ _ _).
  assert (Hok1 : ledger_ok (in_db s1)) by apply Hsame. assert (Hc1 : contents (in_db s1) = contents (in_db s)) by apply Hsame.
  enough (Hall : exists s', for_each l (process_invoice users_GetOrganization) s1 = (Ret tt, s') /\ all_visited l s1 s' /\ contents (in_db s') = contents (in_db s)).
  { destruct Hall as (s' & Hd & Hv & Hc). by exists s'. }
  clear Hrun Hsame Hl. revert Hok1 Hc1. generalize s1. clear s1. induction l as [|p l IH]; intros s1 Hok1 Hc1; [by exists s1|]. cbn [for_each].
  destruct (process_invoice_run s1 p Hok1) as (s2 & Hrun & Hv). rewrite (bind_Ret _ _ _ _ _ Hrun).
  pose proof Hv as (Hok2 & Hc2 & _). destruct (IH s2 Hok2 ltac:(congruence)) as (s' & Hd & Hall & Hc). exists s'. split; [done|]. split; [|done].
  by exists s2.
Qed.
End invoices.

(** ** The client of Zuora comes back from the calls of the jobs. *)

Section client.
Context {N : Type} (network : forall A, zuora.Destination A -> zuora.HTTPRequest -> N -> procurement.Reply A * N).
Context (sha : string -> string) (clock : zuora.Remote N -> time.Time) (cfg : zuora.Config).
#[local] Instance the_client : zuora.ClientImpl (zuora.Remote N) := zuora.zuora_client network sha clock cfg.

Lemma client_definite n d {A} (m : M (zuora.Remote N) zuora.zerror A) s : within n d m -> definite (m s).1.
Proof. intros Hm. destruct (Hm s) as (o & s' & Hrun & Ho & _). by rewrite Hrun. Qed.
Lemma client_uploads content id s : definite (zuora.client_call (zuora.CallUploadUsage content id) s).1.
Proof. exact (client_definite _ _ _ s (within_UploadUsage network cfg content id)). Qed.
Lemma client_status url s : definite (zuora.client_call (zuora.CallGetUsageImportStatus url) s).1.
Proof. exact (client_definite _ _ _ s (within_GetUsageImportStatus network cfg url)). Qed.
Lemma client_invoices number s : definite (zuora.client_call (zuora.CallCreateInvoice number) s).1.
Proof. exact (client_definite _ _ _ s (within_CreateInvoice network cfg number)). Qed.
End client.

(** * The theorems at concrete states *)

Definition sample_org : Organization :=
  {| o_ID := "foo"; o_ExternalID := "foo-bar-42"; o_Name := "Foo"; o_ProbeToken := EmptyString;
     o_CreatedAt := 0; o_FeatureFlags := []; o_RefuseDataAccess := false; o_RefuseDataUpload := false;
     o_FirstSeenConnectedAt := None; o_Platform := EmptyString; o_Environment := EmptyString; o_TrialExpiresAt := 0;
     o_ZuoraAccountNumber := "W1"; o_ZuoraAccountCreatedAt := None;
     o_TrialPendingExpiryNotifiedAt := None; o_TrialExpiredNotifiedAt := None;
     o_GCP := Some (mkGCP "g1" "E-1" true 0 "project_number:1" "sub" "standard" procurement.Active);
     o_TeamID := EmptyString; o_TeamExternalID := EmptyString; o_DeletedAt := 0; o_Cleanup := false;
     o_FirstSeenFluxConnectedAt := None; o_FirstSeenNetConnectedAt := None;
     o_FirstSeenPromConnectedAt := None; o_FirstSeenScopeConnectedAt := None;
     o_RefuseDataReason := EmptyString; o_LastSentWeeklyReportAt := None;
     o_PlatformVersion := EmptyString; o_DeletedBy := EmptyString |}.

(** Two hours of usage, and an invoice to make. *)
Definition sample_ledger : Ledger :=
  mkLedger unlocked (list_to_map [(1, mkAggregate 1 "foo" (240 * time.Hour) "node-seconds" 60 0 0); (2, mkAggregate 2 "foo" (241 * time.Hour) "node-seconds" 30 0 0)])
    [] {[ "imp1" := mkPostTrialInvoice "foo-bar-42" "W1" "imp1" 0 ]} ∅ (fun _ => 0) 0.
Lemma sample_ledger_ok : memory_ok sample_ledger.
Proof.
  split; [reflexivity| |]; intros id a Ha; apply elem_of_list_to_map_2 in Ha; apply elem_of_cons in Ha as [[= -> ->]|[[= -> ->]|[]%not_elem_of_nil]%elem_of_cons]; simpl; lia.
Qed.

#[local] Instance sample_db : LedgerImpl Ledger := @memory_ledger list_orders list_range.
#[local] Instance sample_gcp : Uploader GCP := gcp_uploader (fun name => name) (fun _ _ => None).
Definition sample_jobs : Jobs unit Ledger GCP := mkJobs tt sample_ledger (mkGCPUploader [] []) [].
Definition one_organization (now : time.Time) : M unit error (list Organization) := ret [sample_org].

Lemma uploader_Do_spec_witness :
  let run := uploader_Do one_organization (244 * time.Hour + 5) sample_jobs in
  (op_OperationId <$> (default ([], None) (hd_error (reported (j_uploader run.2)))).1) = ["1"; "2"] /\
  (exists o s', run = (o, s') /\ uploaded one_organization (244 * time.Hour + 5) sample_jobs o s') /\
  exists bs, reported (j_uploader run.2) = (if decide (bs = []) then [] else [(gcp_ops (fun name => name) bs, None)]) /\
    Forall (fun b => exists g, o_GCP b.1 = Some g /\ g_Activated g = true /\ g_SubscriptionStatus g = procurement.Active) bs.
Proof.
  cbv zeta. destruct uploader_Do_spec as (Hall & Hgcp & _). split; [vm_compute; reflexivity|]. split.
  - destruct (Hall unit Ledger GCP sample_db _ (@memory_lawful_ledger list_orders list_range) sample_gcp one_organization (244 * time.Hour + 5) sample_jobs)
      as (o & s' & Hrun & Ho).
    + intros name u. apply gcp_Upload_definite.
    + apply sample_ledger_ok.
    + exists o, s'. split; [exact Hrun|exact Ho].
  - destruct (Hgcp unit Ledger sample_db _ (@memory_lawful_ledger list_orders list_range) one_organization (fun name => name) (fun _ _ => None)
      (244 * time.Hour + 5) sample_jobs (uploader_Do one_organization (244 * time.Hour + 5) sample_jobs).2) as (t & orgs & w & bs & _ & _ & _ & Hf & Hr).
    + apply sample_ledger_ok.
    + vm_compute. reflexivity.
    + exists bs. split; [exact Hr|exact Hf].
Defined.

(** A service at which every import is completed and every invoice is made. *)
Definition sample_network : forall A, zuora.Destination A -> zuora.HTTPRequest -> unit -> procurement.Reply A * unit := fun A dest r n =>
  (match dest in zuora.Destination A return procurement.Reply A with
   | zuora.ToImportStatus => procurement.Response 200 None (zuora.mkImportStatus (zuora.mkGeneric true []) "Completed" "")
   | zuora.ToCreateInvoice => procurement.Response 200 None (zuora.mkCreateInvoiceResponse (zuora.mkGeneric true []) "P1")
   | _ => procurement.NoResponse "connection refused"
   end, n).
#[local] Instance sample_client : zuora.ClientImpl (zuora.Remote unit) := zuora.zuora_client sample_network (fun s => s) (fun _ => 0) sample_config.
Definition sample_invoicing : Invoicing unit Ledger (zuora.Remote unit) := mkInvoicing tt sample_ledger (zuora.mkRemote tt [] []) 0.

Lemma invoice_Do_spec_witness :
  let run := invoice_Do (fun e => ret sample_org : M unit error Organization) sample_invoicing in
  bool_decide (postTrialInvoices (in_db run.2) = ∅) = true /\
  exists l d s', ledger_call CallGetPostTrialInvoices (in_db sample_invoicing) = (Ret l, d) /\ length l = 1%nat /\ run = (Ret tt, s') /\
    all_visited (fun e => ret sample_org : M unit error Organization) l (mkInvoicing tt d (zuora.mkRemote tt [] []) 0) s'.
Proof.
  cbv zeta. split; [vm_compute; reflexivity|].
  destruct (@invoice_Do_spec unit Ledger (zuora.Remote unit) sample_db _ (@memory_lawful_ledger list_orders list_range) sample_client
    (fun e => ret sample_org : M unit error Organization)) with (s := sample_invoicing) as (l & d & s' & Hl & Hperm & _ & Hrun & Hs & _).
  - intros url cl. apply (client_status sample_network (fun s => s) (fun _ => 0) sample_config).
  - intros number cl. apply (client_invoices sample_network (fun s => s) (fun _ => 0) sample_config).
  - intros e w. exact I.
  - apply sample_ledger_ok.
  - exists l, d, s'. split; [exact Hl|]. split; [rewrite Hperm; reflexivity|]. split; [exact Hrun|exact Hs].
Defined.
