(* ===== verification/BillingApi.v ===== *)
(** The API of the billing service: accounts, payments, usage and invoices (billing-api/routes, billing-api/api,
    billing-api/grpc). *)
From Stdlib Require Import ZArith Lia Ascii String SpecFloat.
From stdpp Require Import base tactics option gmap strings list pretty.
From S2P Require Import Prelude GoStd Users UsersDB Sessions UsersServer UsersClient Calendar Duration Trial Formats Http Encoding Api Ledger Zuora Report.

(** * The users service, as the billing service calls it *)

Inductive UsersCall : Type -> Type :=
  | AskGetOrganization (ID : OrganizationRef) : UsersCall Organization
  | AskRequireOrgMemberPermissionTo (orgExternalID userID permissionID : string) : UsersCall unit
  | AskSetOrganizationZuoraAccount (externalID number : string) : UsersCall unit
  | AskSetOrganizationFlag (externalID flag : string) (value : bool) : UsersCall unit
  | AskInformOrganizationBillingConfigured (externalID : string) : UsersCall unit
  | AskGetSummary : UsersCall (list SummaryEntry)
  | AskGetOrganizations (query : string) (pageNumber : Z) (includeDeleted : bool) : UsersCall (list Organization).

Class UsersService (W : Type) := users_call : forall {A}, UsersCall A -> M W error A.

(** The server of users/grpc, behind its interceptor. *)
Definition users_grpc {S Report} `{DBImpl S} (emailer : Mail Report -> option error) : UsersService (Server S Report) := fun A c =>
  GRPCErrorInterceptor (
    match c in UsersCall A return M (Server S Report) error A with
    | AskGetOrganization ID => GetOrganization ID
    | AskRequireOrgMemberPermissionTo orgExternalID userID permissionID => RequireOrgMemberPermissionTo userID orgExternalID EmptyString permissionID
    | AskSetOrganizationZuoraAccount externalID number => srv_SetOrganizationZuoraAccount externalID number None
    | AskSetOrganizationFlag externalID flag value => SetOrganizationFlag externalID flag value
    | AskInformOrganizationBillingConfigured externalID => InformOrganizationBillingConfigured externalID
    | AskGetSummary => srv_GetSummary
    | AskGetOrganizations query page includeDeleted => GetOrganizations query includeDeleted page
    end).

(** * What a request runs in *)

(** The users service, the database, the Zuora client, the rates that were fetched (the global
    [cachedRates]), the clock. *)
Record Billing (W L C : Type) : Type := mkBilling {
  b_users : W; b_db : L; b_zuora : C; cachedRates : option zuora.RateMap; b_clock : nat -> time.Time; b_ticks : nat }.
Arguments mkBilling {W L C}. Arguments b_users {W L C}. Arguments b_db {W L C}. Arguments b_zuora {W L C}.
Arguments cachedRates {W L C}. Arguments b_clock {W L C}. Arguments b_ticks {W L C}.

(** Errors, by where they come from. *)
Inductive berror : Type :=
  | UsersErr (err : error)
  | DBErr (err : error)
  | ZuoraErr (err : zuora.zerror)
  | TextErr (text : string).
Definition berror_Error (err : berror) : string :=
  match err with
  | UsersErr err | DBErr err => UsersClient.Error err
  | ZuoraErr err => zuora.Error err
  | TextErr text => text
  end.

(** [sql.ErrNoRows] *)
Definition ErrNoRows : error := ErrMsg "sql: no rows in result set".

(** [errorStatusCode] (errors.go) *)
Definition errorStatusCode (err : berror) : Z :=
  match err with
  | ZuoraErr zuora.ErrNotFound | ZuoraErr zuora.ErrNoDefaultPaymentMethod | ZuoraErr zuora.ErrorObtainingPaymentMethod
  | ZuoraErr zuora.ErrInvalidAccountNumber => 404
  | ZuoraErr zuora.ErrInvalidSubscriptionStatus => 400
  | ZuoraErr zuora.ErrNoSubscriptions => 422
  | _ =>
      if match err with DBErr err => bool_decide (err = ErrNoRows) | _ => false end then 404
      else if decide (berror_Error err = zuora.Error zuora.ErrNotFound) then 404 else 500
  end.

(** * The status of an account (billing-api/api/accounts.go) *)

(** [grpc.BillingStatus] (common/billing/grpc/billing.proto) *)
Inductive BillingStatus : Type := UNKNOWN | TRIAL_ACTIVE | TRIAL_EXPIRED | PAYMENT_DUE | PAYMENT_ERROR | SUBSCRIPTION_INACTIVE | ACTIVE.
Definition BillingStatus_String (s : BillingStatus) : string :=
  match s with
  | UNKNOWN => "UNKNOWN" | TRIAL_ACTIVE => "TRIAL_ACTIVE" | TRIAL_EXPIRED => "TRIAL_EXPIRED" | PAYMENT_DUE => "PAYMENT_DUE"
  | PAYMENT_ERROR => "PAYMENT_ERROR" | SUBSCRIPTION_INACTIVE => "SUBSCRIPTION_INACTIVE" | ACTIVE => "ACTIVE"
  end.

(** [api.GetBillingStatus] *)
Definition GetBillingStatus (trialInfo : trial.Trial) (acct : option zuora.Account) : BillingStatus * (string * string) :=
  if 0 <? trial.t_Remaining trialInfo then (TRIAL_ACTIVE, (EmptyString, EmptyString))
  else match acct with
       | None => (TRIAL_EXPIRED, (EmptyString, EmptyString))
       | Some acct =>
           if decide (zuora.ac_SubscriptionStatus acct <> zuora.SubscriptionActive) then (SUBSCRIPTION_INACTIVE, (EmptyString, EmptyString))
           else
             let payment := zuora.ac_PaymentStatus acct in
             if decide (zuora.ps_Status payment <> zuora.PaymentOK) then (PAYMENT_ERROR, (zuora.ps_Description payment, zuora.ps_Action payment))
             else (ACTIVE, (EmptyString, EmptyString))
       end.

(** * Data of the routes *)

(** [createAccountRequest] (routes/accounts.go) *)
Record createAccountRequest : Type := mkCreateAccount {
  WeaveID : string; ca_Currency : string; ca_BillToContact : zuora.Contact; PaymentMethodID : string; SubscriptionPlanID : string }.

Record organizationWithTrial : Type := mkOrganizationWithTrial { ot_ExternalID : string; ot_CreatedAt : time.Time; ot_Trial : trial.Trial }.
Record interim : Type := mkInterim { in_Usage : gmap string string; in_Start : time.Time; in_End : time.Time }.
Record paymentStatus : Type := mkStatus { st_Status : string; st_Description : string; st_Action : string }.
Record accountStatusResponse : Type := mkAccountStatus {
  as_Trial : trial.Trial;
  BillingPeriodStart : string;
  BillingPeriodEnd : string;
  UsageToDate : gmap string string;
  UsagePerDay : gmap string Z;
  ActiveHosts : spec_float;
  as_Status : paymentStatus;
  Interim : option interim;
  EstimatedMonthlyUsage : gmap string string;
  as_Currency : string }.
(** [Usage] (routes/usage.go) *)
Record UsageView : Type := mkUsageView { uv_Start : string; NodeSeconds : Z }.

(** What is rendered as JSON. *)
Inductive Content : Type :=
  | ContentAccount (a : zuora.Account)
  | ContentAccountWithTrial (a : zuora.Account) (user : organizationWithTrial)
  | ContentTrial (t : trial.Trial)
  | ContentStatus (s : accountStatusResponse)
  | ContentInvoices (l : list zuora.Invoice)
  | ContentTokens (t : zuora.AuthenticationTokens)
  | ContentPaymentMethod (m : zuora.CreditCard)
  | ContentUsages (l : list UsageView).

(** A response: a status alone, JSON, an error as JSON, or what was written as it is. *)
Inductive Answer : Type :=
  | AnswerStatus (code : Z)
  | AnswerJSON (code : Z) (content : Content)
  | AnswerError (code : Z) (message : string)
  | AnswerRaw (r : http.Response).

(** [renderError], [render.Error]: none of the errors has metadata. *)
Definition renderError (err : berror) : Answer :=
  let code := errorStatusCode err in
  AnswerError code (if code =? 500 then "An internal server error occurred" else berror_Error err).

(** * Periods (routes/accounts.go) *)

Definition Day : time.Duration := 24 * time.Hour.
Definition dayTimeLayout : string := "2006-01-02".

Definition monthBillDate (billCycleDay month year : Z) : time.Time :=
  let daysInMonth := common_time.DaysIn month year in
  civil.Date year month (if daysInMonth <? billCycleDay then daysInMonth else billCycleDay).

Definition computeBillingPeriod (billCycleDay : Z) (createdAt trialEnd reference : time.Time) : time.Time * time.Time :=
  let today := time.Truncate reference Day in
  let billDateThisMonth := monthBillDate billCycleDay (civil.Month today) (civil.Year today) in
  let '(start, stop) :=
    if time.After billDateThisMonth today
    then (monthBillDate billCycleDay (civil.Month today - 1) (civil.Year today), billDateThisMonth)
    else (billDateThisMonth, monthBillDate billCycleDay (civil.Month today + 1) (civil.Year today)) in
  let trialEndDay := time.Truncate trialEnd Day in
  if time.Before start createdAt then (time.Truncate createdAt Day, stop)
  else if time.Before start trialEnd && time.After stop trialEnd then
    if time.Before reference trialEndDay then (start, trialEndDay) else (trialEndDay, stop)
  else (start, stop).

Definition computeEstimationPeriod (now trialExpiresAt : time.Time) : time.Time * time.Time * Z :=
  let to := time.Truncate now Day in
  let from := time.Add to (-7 * Day) in
  let from := if time.Before trialExpiresAt now then common_time.MaxTime from (time.Truncate (time.Add trialExpiresAt Day) Day) else from in
  (from, to, Z.quot (float64.to_int (trial.Hours (time.Sub to from))) 24).

(** * Sums of usage *)

Definition add_to {K} `{Countable K} (m : gmap K Z) (key : K) (n : Z) : gmap K Z := <[key := i64_wrap (default 0 (m !! key) + n)]> m.

(** [sumAndFilterAggregates]: the sum, by hour, by day. *)
Definition sum_step (acc : Z * gmap Z Z * gmap string Z) (agg : Aggregate) : Z * gmap Z Z * gmap string Z :=
  let '(sum, hourly, daily) := acc in
  if decide (a_AmountType agg = zuora.UsageNodeSeconds)
  then (i64_wrap (sum + a_AmountValue agg), add_to hourly (a_BucketStart agg) (a_AmountValue agg),
        add_to daily (FormatDate dayTimeLayout (a_BucketStart agg)) (a_AmountValue agg))
  else acc.
Definition sumAndFilterAggregates (aggs : list Aggregate) : Z * gmap Z Z * gmap string Z := foldl sum_step (0, ∅, ∅) aggs.

Definition calculatePrices (rates : gmap string spec_float) (quantity : spec_float) : gmap string string :=
  (fun rate => FormatFloat 2 (mul rate quantity)) <$> rates.
Definition calculateAndFormatMonthlyUsages (usage : spec_float) (rates : gmap string spec_float) : gmap string string :=
  (fun rate => FormatFloat 0 (float64.Ceil (mul rate usage))) <$> rates.

(** [estimatedMonthlyUsages]: the usage of the period without today, and an estimate for the rest of it. *)
Definition sum_values (l : list Z) : Z := foldl (fun sum v => i64_wrap (sum + v)) 0 l.
Definition estimated_usage (daily : gmap string Z) (start : time.Time) (estAggs : list Aggregate) (estDays : Z) (reference : time.Time) : spec_float :=
  let today := time.Truncate reference Day in
  let sum := sum_values (map_to_list (delete (FormatDate dayTimeLayout today) daily)).*2 in
  let dayCount := float64.div (trial.Hours (time.Sub today start)) (float64.of_int 24) in
  let daysInMonth := civil.DayOf (common_time.EndOfMonth start) in
  let estSum := sum_values (a_AmountValue <$> List.filter (fun a => bool_decide (a_AmountType a = duration.NodeSeconds)) estAggs) in
  float64.add (float64.of_int sum)
    (float64.div (mul (sub (float64.of_int daysInMonth) dayCount) (float64.of_int estSum)) (float64.of_int estDays)).
Definition estimatedMonthlyUsages (daily : gmap string Z) (start : time.Time) (estAggs : list Aggregate) (estDays : Z)
    (rates : gmap string spec_float) (reference : time.Time) : gmap string string :=
  calculateAndFormatMonthlyUsages (estimated_usage daily start estAggs estDays reference) rates.

(** [billingStatusToAPI], [getBillingStatus] *)
Definition billingStatusToAPI (s : BillingStatus) : option string :=
  match s with
  | TRIAL_ACTIVE => Some "trial" | TRIAL_EXPIRED => Some "trial_expired" | PAYMENT_DUE => Some "payment_due"
  | PAYMENT_ERROR => Some "payment_error" | SUBSCRIPTION_INACTIVE => Some "subscription_inactive" | ACTIVE => Some "active"
  | UNKNOWN => None
  end.
Definition getBillingStatus (trialInfo : trial.Trial) (acct : option zuora.Account) : paymentStatus :=
  let '(grpcStatus, (description, action)) := GetBillingStatus trialInfo acct in
  mkStatus (default (strings.ToLower (BillingStatus_String grpcStatus)) (billingStatusToAPI grpcStatus)) description action.

Section handlers.
Context {W L C : Type} `{UsersService W} `{LedgerImpl L} `{zuora.ClientImpl C} `{GroupOrder}.
(** The decoders of the bodies of requests, and HMAC with SHA-256. *)
Variable decode_createAccount : string -> string + createAccountRequest.
Variable decode_account : string -> string + zuora.Account.
Variable hmac_sha256 : string -> string -> string.
(** [API.HMACSecret] *)
Variable HMACSecret : string.

Abbreviation Api := (M (Billing W L C) berror).

Definition on_users {A} (c : UsersCall A) : Api A := fun s =>
  let '(o, w) := users_call c (b_users s) in
  (match o with Ret a => Ret a | Err e => Err (UsersErr e) | Panic => Panic | Deadlock => Deadlock | OutOfFuel => OutOfFuel end,
   mkBilling w (b_db s) (b_zuora s) (cachedRates s) (b_clock s) (b_ticks s)).
Definition on_db {A} (c : LedgerCall A) : Api A := fun s =>
  let '(o, l) := ledger_call c (b_db s) in
  (match o with Ret a => Ret a | Err e => Err (DBErr e) | Panic => Panic | Deadlock => Deadlock | OutOfFuel => OutOfFuel end,
   mkBilling (b_users s) l (b_zuora s) (cachedRates s) (b_clock s) (b_ticks s)).
Definition via_zuora {A} (m : M C zuora.zerror A) : Api A := fun s =>
  let '(o, c) := m (b_zuora s) in
  (match o with Ret a => Ret a | Err e => Err (ZuoraErr e) | Panic => Panic | Deadlock => Deadlock | OutOfFuel => OutOfFuel end,
   mkBilling (b_users s) (b_db s) c (cachedRates s) (b_clock s) (b_ticks s)).
Definition on_zuora {A} (c : zuora.ClientCall A) : Api A := via_zuora (zuora.client_call c).

(** [time.Now().UTC()] *)
Definition billing_Now : Api time.Time := fun s =>
  (Ret (b_clock s (b_ticks s)), mkBilling (b_users s) (b_db s) (b_zuora s) (cachedRates s) (b_clock s) (Datatypes.S (b_ticks s))).
Definition set_cachedRates (r : zuora.RateMap) : Api unit :=
  modify (fun s => mkBilling (b_users s) (b_db s) (b_zuora s) (Some r) (b_clock s) (b_ticks s)).

Definition or_err {A} (r : berror + A) : Api A := match r with inl e => throw e | inr a => ret a end.
Definition var (name : string) (r : http.Request) : string := default EmptyString (http.Vars r !! name).
(** [json.NewDecoder(r.Body).Decode] *)
Definition Decode {A} (decode : string -> string + A) (r : http.Request) : Api A :=
  match http.Body r with
  | inl text => throw (TextErr text)
  | inr body => match decode body with inl text => throw (TextErr text) | inr a => ret a end
  end.
(** [r.FormValue] *)
Definition FormValue (name : string) (r : http.Request) : string := http.values_get (http.PostForm r ++ http.Query r) name.

(** The error of a handler is what it renders. *)
Definition rendering (m : Api Answer) : Api Answer :=
  do r <- try m;
  match r with inl err => ret (renderError err) | inr a => ret a end.

(** ** Accounts *)

Definition getOrganization (externalID : string) : Api Organization := on_users (AskGetOrganization (RefExternalID externalID)).

Definition require_UpdateBilling (r : http.Request) : Api unit :=
  on_users (AskRequireOrgMemberPermissionTo (var "id" r) (http.header_of "X-Scope-UserID" r) permission.UpdateBilling).

Definition createZuoraAccount (req : createAccountRequest) (org : Organization) : Api zuora.Account :=
  on_zuora (zuora.CallCreateAccount (WeaveID req) (ca_BillToContact req) (ca_Currency req) (PaymentMethodID req) zuora.BillCycleDay (o_TrialExpiresAt org)).

(** [markOrganizationDutiful]: errors are logged. *)
Definition logged {A} (m : Api A) : Api unit := do _ <- try m; ret tt.
Definition markOrganizationDutiful (externalID zuoraAccountNumber : string) : Api unit :=
  logged (on_users (AskSetOrganizationZuoraAccount externalID zuoraAccountNumber)) ;;;
  logged (on_users (AskSetOrganizationFlag externalID orgs.RefuseDataAccess false)) ;;;
  logged (on_users (AskSetOrganizationFlag externalID orgs.RefuseDataUpload false)).

Definition getPostTrialChargeableUsage (orgID : string) (trialExpiry today : time.Time) : Api (list Aggregate) :=
  on_db (CallGetAggregates orgID trialExpiry today).

(** [ReportFromAggregates] reads the clock for the description of each entry. *)
Definition report (config : zuora.Config) (aggs : list Aggregate) (provider : string) (from through : time.Time) (subscription charge : string) (cycleDay : Z) : Api Report :=
  fun s =>
    match ReportFromAggregates (fun n => b_clock s (b_ticks s + n)%nat) config aggs provider from through subscription charge cycleDay with
    | Ret r => (Ret r, mkBilling (b_users s) (b_db s) (b_zuora s) (cachedRates s) (b_clock s) (b_ticks s + Size r)%nat)
    | Err e => (Err (TextErr (UsersClient.Error e)), s)
    | Panic => (Panic, s)
    | Deadlock => (Deadlock, s)
    | OutOfFuel => (OutOfFuel, s)
    end.

Definition uploadUsage (externalID : string) (account : zuora.Account) (aggs : list Aggregate) (trialExpiry today : time.Time) (cycleDay : Z) : Api string :=
  do aggs <- via_zuora (FilterAggregatesForSubscription aggs account);
  do subscription <- deref (zuora.ac_Subscription account);
  do cfg <- gets (fun s => zuora.GetConfig (b_zuora s));
  do report <- report cfg aggs (zuora.ac_PaymentProviderID account) trialExpiry today
                 (zuora.as_SubscriptionNumber subscription) (zuora.as_ChargeNumber subscription) cycleDay;
  on_zuora (zuora.CallUploadUsage (ToZuoraFormat report) ("p-" +:+ externalID)).

Definition FetchAndUploadUsage (account : zuora.Account) (orgID externalID : string) (trialExpiry today : time.Time) (cycleDay : Z) : Api string :=
  do aggs <- getPostTrialChargeableUsage orgID trialExpiry today;
  match aggs with
  | [] => ret EmptyString
  | _ => uploadUsage externalID account aggs trialExpiry today cycleDay
  end.

(** [createAccount], of the body of the request *)
Definition createAccount (r : http.Request) : Api Answer :=
  do req <- Decode decode_createAccount r;
  let externalID := WeaveID req in
  do org <- getOrganization externalID;
  do account <- createZuoraAccount req org;
  markOrganizationDutiful externalID (zuora.ac_Number account) ;;;
  logged (on_users (AskInformOrganizationBillingConfigured externalID)) ;;;
  do now <- billing_Now;
  let today := time.Truncate now Day in
  (if InTrialPeriod org today then ret tt
   else
     do usageImportID <- FetchAndUploadUsage account (o_ID org) externalID (o_TrialExpiresAt org) today zuora.BillCycleDay;
     if decide (usageImportID = EmptyString) then ret tt
     else on_db (CallInsertPostTrialInvoice externalID (zuora.ac_Number account) usageImportID)) ;;;
  ret (AnswerJSON 201 (ContentAccount account)).

Definition CreateAccount (r : http.Request) : Api Answer := rendering (require_UpdateBilling r ;;; createAccount r).

Definition GetAccount (r : http.Request) : Api Answer := rendering (
  do org <- getOrganization (var "id" r);
  do account <- on_zuora (zuora.CallGetAccount (o_ZuoraAccountNumber org));
  do now <- billing_Now;
  ret (AnswerJSON 200 (ContentAccountWithTrial account
    (mkOrganizationWithTrial (o_ExternalID org) (o_CreatedAt org) (trial.Info (o_TrialExpiresAt org) (o_CreatedAt org) now))))).

Definition UpdateAccount (r : http.Request) : Api Answer := rendering (
  require_UpdateBilling r ;;;
  do req <- Decode decode_account r;
  do org <- getOrganization (var "id" r);
  do account <- on_zuora (zuora.CallUpdateAccount (o_ZuoraAccountNumber org) (zuora.ac_SubscriptionStatus req) (zuora.ac_BillToContact req));
  ret (AnswerJSON 200 (ContentAccount account))).

Definition GetAccountTrial (r : http.Request) : Api Answer := rendering (
  do org <- getOrganization (var "id" r);
  do now <- billing_Now;
  ret (AnswerJSON 200 (ContentTrial (trial.Info (o_TrialExpiresAt org) (o_CreatedAt org) now)))).

(** [getDefaultUsageRateInfo]: the rates are the map inside [cachedRates], or nil. *)
Definition getDefaultUsageRateInfo : Api (Z * option (gmap string spec_float)) :=
  do cached <- gets cachedRates;
  do rates <- match cached with
              | Some rates => ret rates
              | None => do rates <- on_zuora zuora.CallGetCurrentRates; set_cachedRates rates ;;; ret rates
              end;
  ret (zuora.BillCycleDay, rates !! zuora.UsageNodeSeconds).

(** [rates[currency] = price]: the map is the one that is cached; a nil map panics. *)
Definition set_rate (currency : string) (price : spec_float) : Api (gmap string spec_float) :=
  do cached <- gets cachedRates;
  let all := default ∅ cached in
  do rates <- deref (all !! zuora.UsageNodeSeconds);
  let rates := <[currency := price]> rates in
  set_cachedRates (<[zuora.UsageNodeSeconds := rates]> all) ;;;
  ret rates.

Definition GetAccountStatus (r : http.Request) : Api Answer := rendering (
  do org <- getOrganization (var "id" r);
  do now <- billing_Now;
  do info <- getDefaultUsageRateInfo;
  let '(billCycleDay, defaultRates) := info in
  do zuoraAcct <- try (on_zuora (zuora.CallGetAccount (o_ZuoraAccountNumber org)));
  do zuoraAcct <- match zuoraAcct with
                  | inr acct => ret (Some acct)
                  | inl (ZuoraErr zuora.ErrNotFound) | inl (ZuoraErr zuora.ErrInvalidAccountNumber) => ret None
                  | inl err => throw err
                  end;
  do account <- match zuoraAcct with
                | None => ret (billCycleDay, EmptyString, default ∅ defaultRates)
                | Some acct =>
                    do subscription <- deref (zuora.ac_Subscription acct);
                    do rates <- set_rate (zuora.as_Currency subscription) (zuora.as_Price subscription);
                    ret (zuora.ac_BillCycleDay acct, zuora.as_Currency subscription, rates)
                end;
  let '(billCycleDay, currency, rates) := account in
  let '(start, stop) := computeBillingPeriod billCycleDay (o_CreatedAt org) (o_TrialExpiresAt org) now in
  do interimPeriod <-
    (if negb (bool_decide (is_Some zuoraAcct)) && negb (InTrialPeriod org start) then
       do interimAggs <- on_db (CallGetAggregates (o_ID org) (o_TrialExpiresAt org) start);
       let '(interimSum, _, _) := sumAndFilterAggregates interimAggs in
       ret (Some (mkInterim (calculatePrices rates (float64.of_int interimSum)) (o_TrialExpiresAt org) start))
     else ret None);
  do aggs <- on_db (CallGetAggregates (o_ID org) start stop);
  let '(sum, hourly, daily) := sumAndFilterAggregates aggs in
  do now' <- billing_Now;
  let bucket := time.Add (time.Truncate now' time.Hour) (-2 * time.Hour) in
  let activeHosts := match hourly !! (bucket : Z) with
                     | Some bucketSeconds => float64.div (float64.of_int bucketSeconds) (float64.of_int 3600)
                     | None => S754_zero false
                     end in
  let trialInfo := trial.Info (o_TrialExpiresAt org) (o_CreatedAt org) now in
  let '(estFrom, estTo, estDays) := computeEstimationPeriod now (o_TrialExpiresAt org) in
  do estAggs <- on_db (CallGetAggregates (o_ID org) estFrom estTo);
  ret (AnswerJSON 200 (ContentStatus {|
    as_Trial := trialInfo;
    BillingPeriodStart := FormatDate dayTimeLayout start;
    BillingPeriodEnd := FormatDate dayTimeLayout stop;
    UsageToDate := calculatePrices rates (float64.of_int sum);
    UsagePerDay := daily;
    ActiveHosts := activeHosts;
    as_Status := getBillingStatus trialInfo zuoraAcct;
    Interim := interimPeriod;
    EstimatedMonthlyUsage := estimatedMonthlyUsages daily start estAggs estDays rates now;
    as_Currency := currency |}))).

(** ** Payments (routes/payments.go) *)

Definition GetAuthToken (r : http.Request) : Api Answer := rendering (
  do org <- getOrganization (var "id" r);
  do account <- on_zuora (zuora.CallGetAuthenticationTokens (o_ZuoraAccountNumber org));
  ret (AnswerJSON 200 (ContentTokens account))).

Definition GetPaymentMethod (r : http.Request) : Api Answer := rendering (
  do org <- getOrganization (var "id" r);
  do method <- on_zuora (zuora.CallGetPaymentMethod (o_ZuoraAccountNumber org));
  ret (AnswerJSON 200 (ContentPaymentMethod method))).

Definition UpdatePaymentMethod (r : http.Request) : Api Answer := rendering (
  require_UpdateBilling r ;;;
  on_zuora (zuora.CallUpdatePaymentMethod (var "payment_id" r)) ;;;
  ret (AnswerStatus 200)).

(** ** Usage (routes/usage.go) *)

Definition parseTime (text : string) : Api time.Time := or_else (ParseRFC3339Nano text) (TextErr "parsing time").

(** [render.Time] *)
Definition render_Time (t : time.Time) : string := if time.IsZero t then EmptyString else RFC3339 t.

Definition GetUsage (r : http.Request) : Api Answer := rendering (
  do through <- billing_Now;
  let from := time.Add through (-24 * time.Hour) in
  do from <- (if decide (FormValue "start" r = EmptyString) then ret from else parseTime (FormValue "start" r));
  do through <- (if decide (FormValue "end" r = EmptyString) then ret through else parseTime (FormValue "end" r));
  do org <- getOrganization (var "id" r);
  do aggs <- on_db (CallGetAggregates (o_ID org) from through);
  ret (AnswerJSON 200 (ContentUsages
    ((fun agg => mkUsageView (render_Time (a_BucketStart agg)) (a_AmountValue agg))
       <$> List.filter (fun agg => bool_decide (a_AmountType agg = zuora.UsageNodeSeconds)) aggs)))).

(** ** Invoices (routes/invoices.go) *)

Definition generateInvoiceMAC (orgID fileID : string) : string := hmac_sha256 HMACSecret (orgID +:+ "/" +:+ fileID).
(** [checkInvoiceMAC], [hmac.Equal] *)
Definition checkInvoiceMAC (orgID fileID messageMAC : string) : bool := bool_decide (messageMAC = generateInvoiceMAC orgID fileID).

(** [extractFileID]: what follows the address of the files of Zuora. *)
Definition extractFileID (prefix url : string) : berror + string :=
  if strings.HasPrefix url prefix then inr (strings.drop (String.length prefix) url)
  else inl (TextErr ("Unable to extract File ID from " +:+ url)).

Definition invoiceFileURL (orgID fileID : string) : string :=
  "/api/billing/" +:+ orgID +:+ "/invoice_file/" +:+ fileID +:+ "?mac=" +:+ url.QueryEscape (base64.EncodeToString (generateInvoiceMAC orgID fileID)).
Definition convertFileURL (prefix orgID zuoraURL : string) : berror + string :=
  match extractFileID prefix zuoraURL with
  | inl err => inl err
  | inr fileID => inr (invoiceFileURL orgID fileID)
  end.

(** [mangleInvoice]: files without an address are left out. *)
Definition set_Body (b : string) (i : zuora.Invoice) : zuora.Invoice :=
  zuora.mkInvoice (zuora.iv_ID i) (zuora.iv_AccountName i) (zuora.iv_AccountNumber i) (zuora.iv_InvoiceDate i) (zuora.iv_InvoiceNumber i)
    (zuora.iv_DueDate i) (zuora.iv_InvoiceTargetDate i) (zuora.iv_Amount i) (zuora.iv_Balance i) (zuora.iv_CreditBalanceAdjustmentAmount i)
    (zuora.iv_Status i) b (zuora.iv_InvoiceItems i) (zuora.iv_InvoiceFiles i).
Definition set_InvoiceFiles (l : list zuora.InvoiceFile) (i : zuora.Invoice) : zuora.Invoice :=
  zuora.mkInvoice (zuora.iv_ID i) (zuora.iv_AccountName i) (zuora.iv_AccountNumber i) (zuora.iv_InvoiceDate i) (zuora.iv_InvoiceNumber i)
    (zuora.iv_DueDate i) (zuora.iv_InvoiceTargetDate i) (zuora.iv_Amount i) (zuora.iv_Balance i) (zuora.iv_CreditBalanceAdjustmentAmount i)
    (zuora.iv_Status i) (zuora.iv_Body i) (zuora.iv_InvoiceItems i) l.
Fixpoint mangle_files (prefix orgID : string) (l : list zuora.InvoiceFile) : berror + list zuora.InvoiceFile :=
  match l with
  | [] => inr []
  | file :: l =>
      if decide (zuora.if_PdfFileURL file = EmptyString) then mangle_files prefix orgID l
      else
        match convertFileURL prefix orgID (zuora.if_PdfFileURL file) with
        | inl err => inl err
        | inr address =>
            match mangle_files prefix orgID l with
            | inl err => inl err
            | inr files => inr (zuora.mkInvoiceFile (zuora.if_ID file) (zuora.if_VersionNumber file) address :: files)
            end
        end
  end.
Definition mangleInvoice (prefix orgID : string) (invoice : zuora.Invoice) : berror + zuora.Invoice :=
  match (if decide (zuora.iv_Body invoice = EmptyString) then inr invoice
         else match convertFileURL prefix orgID (zuora.iv_Body invoice) with inl err => inl err | inr b => inr (set_Body b invoice) end) with
  | inl err => inl err
  | inr invoice =>
      match mangle_files prefix orgID (zuora.iv_InvoiceFiles invoice) with
      | inl err => inl err
      | inr files => inr (set_InvoiceFiles files invoice)
      end
  end.

(** The loop over the invoices: the ones that are posted. *)
Definition InvoiceStatusPosted : string := "Posted".
Fixpoint posted_invoices (prefix externalID : string) (l : list zuora.Invoice) : berror + list zuora.Invoice :=
  match l with
  | [] => inr []
  | invoice :: l =>
      if decide (zuora.iv_Status invoice <> InvoiceStatusPosted) then posted_invoices prefix externalID l
      else
        match mangleInvoice prefix externalID invoice with
        | inl err => inl err
        | inr invoice => match posted_invoices prefix externalID l with inl err => inl err | inr rest => inr (invoice :: rest) end
        end
  end.

Definition InternalServerError : Answer := AnswerRaw (http.Error "Internal Server Error" 500).
Definition GetAccountInvoices (r : http.Request) : Api Answer :=
  let externalID := var "id" r in
  do org <- try (getOrganization externalID);
  match org with
  | inl err => ret (renderError err)
  | inr org =>
      do invoices <- try (on_zuora (zuora.CallGetInvoices (o_ZuoraAccountNumber org) (FormValue "page" r) (FormValue "pageSize" r)));
      do prefix <- gets (fun s => zuora.client_URL (b_zuora s) "files/");
      let render invoices :=
        match posted_invoices prefix externalID invoices with
        | inl _ => InternalServerError
        | inr posted => AnswerJSON 200 (ContentInvoices posted)
        end in
      match invoices with
      | inr invoices => ret (render invoices)
      | inl (ZuoraErr zuora.ErrNotFound) | inl (ZuoraErr zuora.ErrInvalidAccountNumber) => ret (render [])
      | inl _ => ret InternalServerError
      end
  end.

Definition ServeInvoice (r : http.Request) : Api Answer :=
  let orgID := var "id" r in
  let fileID := var "file_id" r in
  let mac := http.values_get (http.Query r) "mac" in
  if decide (fileID = EmptyString) then ret (AnswerRaw (http.Error "empty file" 400))
  else
    match base64.DecodeString mac with
    | None => ret (AnswerRaw (http.Error ("invalid mac " +:+ mac) 400))
    | Some macBytes =>
        if negb (checkInvoiceMAC orgID fileID macBytes) then ret (AnswerRaw (http.Error mac 401))
        else do file <- on_zuora (zuora.CallServeFile fileID); ret (AnswerRaw file)
    end.

(** * The gRPC server (grpc/server.go) *)

Definition server_FindBillingAccountByTeamID (teamID : string) : Api (option BillingAccount) := on_db (CallFindBillingAccountByTeamID teamID).
Definition server_SetTeamBillingAccountProvider (teamID provider : string) : Api BillingAccount := on_db (CallSetTeamBillingAccountProvider teamID provider).

(** [GetInstanceBillingStatus]: the error of [GetAccount] is dropped. *)
Definition GetInstanceBillingStatus (internalID : string) : Api BillingStatus :=
  do org <- on_users (AskGetOrganization (RefInternalID internalID));
  do now <- billing_Now;
  do zuoraAcct <- try (on_zuora (zuora.CallGetAccount (o_ZuoraAccountNumber org)));
  let trialInfo := trial.Info (o_TrialExpiresAt org) (o_CreatedAt org) now in
  ret (GetBillingStatus trialInfo (match zuoraAcct with inr acct => Some acct | inl _ => None end)).1.
End handlers.
