(* ===== verification/BillingAdmin.v ===== *)
(** The administration of the billing service (billing-api/routes/admin.go, invoice_verify.go) and the routes of its
    API (routes/api.go, routes/routes.go). *)
From Stdlib Require Import ZArith Lia Ascii String SpecFloat.
From stdpp Require Import base tactics option gmap strings list pretty.
From S2P Require Import Prelude GoStd Users UsersDB Sessions UsersServer UsersClient Calendar Duration Trial Formats Http Encoding Api Ledger Zuora Report BillingApi.

(** * Sums by month (admin.go) *)

Abbreviation totalSums := (gmap string Z).
Abbreviation monthSums := (gmap Z (gmap string Z)).

Definition nodeUsagePrecision : Z := 1000000.

(** [(d Duration) Seconds()]; [secondsInMonth]: from the last day of the month before. *)
Definition Seconds (d : time.Duration) : spec_float :=
  float64.add (float64.of_int (Z.quot d time.Second)) (float64.div (float64.of_int (Z.rem d time.Second)) (float64.of_int time.Second)).
Definition secondsInMonth (y m : Z) : Z := float64.to_int (Seconds (time.Sub (civil.Date y (m + 1) 0) (civil.Date y m 0))).

(** [processSums]: the sums of an instance, and the types of amounts that occur. *)
Definition add_aggregate (sums : monthSums) (agg : Aggregate) : monthSums :=
  let month := civil.Month (a_BucketStart agg) in
  <[month := add_to (default ∅ (sums !! month)) (a_AmountType agg) (a_AmountValue agg)]> sums.
Definition node_usage (month : Z) (sums : totalSums) : totalSums :=
  <["node-usage" := float64.to_int (mul (float64.div (float64.of_int (default 0 (sums !! "node-seconds"))) (float64.of_int (secondsInMonth 2019 month)))
                                      (float64.of_int nodeUsagePrecision))]> sums.
Definition process_instance (aggs : list Aggregate) : monthSums := map_imap (fun month sums => Some (node_usage month sums)) (foldl add_aggregate ∅ aggs).
Definition processSums (sums : gmap string (list Aggregate)) : gmap string monthSums * gset string :=
  (process_instance <$> sums,
   list_to_set ((map_to_list sums).*2 ≫= fun aggs => "node-usage" :: (a_AmountType <$> aggs))).

(** [processAmountTypes], [amountTypeColor] *)
Definition colors : list string := [
  "#e57373"; "#F06292"; "#BA68C8"; "#9575CD"; "#7986CB"; "#64B5F6"; "#4FC3F7"; "#4DD0E1"; "#4DB6AC"; "#81C784"; "#AED581"; "#DCE775";
  "#FFF176"; "#FFD54F"; "#FFB74D"; "#FF8A65"; "#A1887F"; "#E0E0E0"; "#90A4AE"].
Definition amountTypeColor (amountType : string) : string :=
  match amountType with
  | EmptyString => List.nth 0 colors EmptyString
  | String c _ => List.nth (nat_of_ascii c mod length colors) colors EmptyString
  end.
Definition processAmountTypes (amountTypes : gset string) : list string * gmap string string :=
  (sort.Sort string_lt (elements amountTypes), set_to_map (fun t => (t, amountTypeColor t)) amountTypes).

(** [t.AddDate(0, n, 0)] in UTC: a day past the end of the month is one of the next month. *)
Definition AddMonths (t : time.Time) (n : Z) : time.Time := civil.Date (civil.Year t) (civil.Month t + n) (civil.DayOf t) + t mod civil.Day.

(** [months]: one month after the other, back from [to]; a round goes back by four weeks at least. *)
Fixpoint months_loop (fuel : nat) (from t : time.Time) : option (list Z) :=
  match fuel with
  | O => None
  | S fuel => if time.Before t from then Some [] else cons (civil.Month t) <$> months_loop fuel from (AddMonths t (-1))
  end.
Definition months (from to : time.Time) : option (list Z) := months_loop (Z.to_nat ((to - from) / (28 * civil.Day)) + 2) from to.

Definition sixMonthsAgo (t : time.Time) : time.Time := civil.Date (civil.Year t) (civil.Month t - 6) 1.

Definition isWithinRange (date from to : time.Time) : bool := (time.After date from || (date =? from)) && time.Before date to.

(** [parseRange]: the last day is counted whole. *)
Definition parseRange (fromStr toStr : string) : berror + (time.Time * time.Time) :=
  match ParseDate fromStr, ParseDate toStr with
  | Some from, Some to =>
      let to := time.Add to (24 * time.Hour) in
      if time.After from to then inl (TextErr "from is after to") else inr (from, to)
  | _, _ => inl (TextErr "parsing time")
  end.

(** [extractOrDefaultPage]: of a number that is out of range, the bound. *)
Definition extractOrDefaultPage (pageQueryArg : string) : Z :=
  let page := (strconv.ParseInt 32 pageQueryArg).1 in
  if page <=? 0 then 1 else page.

Definition orgIDs (entries : list SummaryEntry) : list string := s_OrgID <$> entries.
Definition processOrgs (orgs : list Organization) (to : time.Time) : list string * gmap string trial.Trial :=
  (o_ID <$> orgs, foldl (fun m org => <[o_ID org := trial.Info (o_TrialExpiresAt org) (o_CreatedAt org) to]> m) ∅ orgs).

(** ** CSV *)

(** [(m Month) String()] *)
Definition Month_String (m : Z) : string :=
  List.nth (Z.to_nat (m - 1)) ["January"; "February"; "March"; "April"; "May"; "June"; "July"; "August"; "September"; "October"; "November"; "December"] EmptyString.

Definition fixed_header : list string := [
  "TeamExternalID"; "TeamName"; "OrgID"; "OrgExternalID"; "OrgName"; "OrgCreatedAt";
  "Emails"; "FirstSeenConnectedAt"; "Platform"; "Environment";
  "TrialExpiresAt"; "TrialPendingExpiryNotifiedAt"; "TrialExpiredNotifiedAt";
  "BillingEnabled"; "RefuseDataAccess"; "RefuseDataUpload"; "ZuoraAccountNumber"; "ZuoraAccountCreatedAt";
  "GCPAccountExternalID"; "GCPAccountCreatedAt"; "GCPAccountSubscriptionLevel"; "GCPAccountSubscriptionStatus"].
Definition header (months : list Z) (amountTypes : list string) : list string :=
  fixed_header ++ (month ← months; (fun amountType => amountType +:+ " in " +:+ Month_String month) <$> amountTypes).

Definition usages (usage : monthSums) (months : list Z) (amountTypes : list string) : list Z :=
  month ← months; (fun amountType => default 0 (default ∅ (usage !! month) !! amountType)) <$> amountTypes.

Definition toString (t : option time.Time) : string :=
  match t with None => EmptyString | Some t => if time.IsZero t then EmptyString else RFC3339 t end.
Definition FormatBool (b : bool) : string := if b then "true" else "false".
Definition toCSVLine (entry : SummaryEntry) (usages : list Z) : list string :=
  [s_TeamExternalID entry; s_TeamName entry; s_OrgID entry; s_OrgExternalID entry; s_OrgName entry;
   toString (Some (s_OrgCreatedAt entry)); strings.Join (s_Emails entry) " ; "; toString (s_FirstSeenConnectedAt entry);
   s_Platform entry; s_Environment entry; toString (Some (s_TrialExpiresAt entry));
   toString (s_TrialPendingExpiryNotifiedAt entry); toString (s_TrialExpiredNotifiedAt entry);
   FormatBool (s_BillingEnabled entry); FormatBool (s_RefuseDataAccess entry); FormatBool (s_RefuseDataUpload entry);
   s_ZuoraAccountNumber entry; toString (s_ZuoraAccountCreatedAt entry); s_GCPAccountExternalID entry;
   toString (Some (s_GCPAccountCreatedAt entry)); s_GCPAccountSubscriptionLevel entry; s_GCPAccountSubscriptionStatus entry]
  ++ (pretty <$> usages).

(** [renderCSV] *)
Definition renderCSV (csvLines : list (list string)) : http.Response :=
  http.mkResponse 200 {["Content-Type" := ["text/csv"]; "Content-Disposition" := ["attachment;filename=billing.csv"]]}
    (String.concat EmptyString (csv_record <$> csvLines)).

(** * Verification of invoices (invoice_verify.go) *)

(** [FloatEqual], [RoundHalfUp] *)
Definition FloatEqual (lhs rhs : spec_float) : bool := SFltb (SFabs (sub lhs rhs)) (of_ratio 1 1000000).
Definition RoundHalfUp (amount : spec_float) : spec_float :=
  let unit_ := of_ratio 1 100 in
  mul (float64.of_int (float64.to_int (float64.add (float64.div amount unit_) (of_ratio 1 2)))) unit_.

Definition sumAggregates (aggs : list Aggregate) : Z :=
  sum_values (a_AmountValue <$> List.filter (fun agg => bool_decide (a_AmountType agg = zuora.UsageNodeSeconds)) aggs).

(** Why an invoice is not verified: the error of a call, or what does not match. *)
Inductive verifyError : Type :=
  | VerifyErr (prefix : string) (err : berror)
  | QuantitiesDoNotMatch (InvoiceNumber : string) (invoiced used : spec_float)
  | ChargeDoesNotMatch (InvoiceNumber : string) (invoiced charge : spec_float)
  | LocalUsageDoesNotMatch (used localQuantity : spec_float).

(** [minInvoicesDate]: the zero time when there is no item. *)
Definition min_date (min : time.Time) (item : zuora.InvoiceItem) : option time.Time :=
  date ← ParseDate (zuora.ii_ServiceStartDate item);
  Some (if time.IsZero min then date else if time.Before date min then date else min).
Definition minInvoicesDate (invoices : list zuora.Invoice) : option time.Time :=
  foldl (fun min item => min ← min; min_date min item) (Some 0) (invoices ≫= zuora.iv_InvoiceItems).

(** * Pages *)

Record adminPage : Type := mkAdminPage {
  AdminURL : string;
  Organizations : list Organization;
  TrialInfo : gmap string trial.Trial;
  Months : list Z;
  AmountTypes : list string;
  Colors : gmap string string;
  page_sums : gmap string monthSums;
  Page : Z;
  NextPage : Z;
  page_Query : string;
  UsageFrom : string;
  UsageTo : string }.
Inductive verifyResult : Type := NoResult | InstanceIDRequired | NotVerified (err : verifyError) | Verified.
(** What a template is executed on. *)
Inductive Reply : Type :=
  | Plain (a : Answer)
  | AdminHTML (code : Z) (page : adminPage)
  | VerifyHTML (code : Z) (instanceID : string) (result : verifyResult) (csrfToken : string).

(** [renderPage] *)
Definition csrfTokenPlaceholder : string := "$__CSRF_TOKEN_PLACEHOLDER__".
Definition renderPage (status : Z) (instanceID : string) (result : verifyResult) (csrfToken : string) : Reply :=
  VerifyHTML status instanceID result (if decide (csrfToken = EmptyString) then csrfTokenPlaceholder else csrfToken).

Section admin.
Context {W L C : Type} `{UsersService W} `{LedgerImpl L} `{zuora.ClientImpl C}.
(** The pages of usage that are asked for, at most; [Config.AdminURL]. *)
Variable fuel : nat.
Variable cfg_AdminURL : string.

Abbreviation Api := (M (Billing W L C) berror).
Abbreviation Verify := (M (Billing W L C) verifyError).

Definition rendering_page (m : Api Reply) : Api Reply :=
  do r <- try m;
  match r with inl err => ret (Plain (renderError err)) | inr a => ret a end.
Definition terminating {S E A} (r : option A) : M S E A := match r with Some a => ret a | None => out_of_fuel end.

(** [ExportOrgsAndUsageAsCSV] *)
Definition ExportOrgsAndUsageAsCSV (r : http.Request) : Api Reply := rendering_page (
  do range <- or_err (parseRange (http.values_get (http.Query r) "from") (http.values_get (http.Query r) "to"));
  let '(from, to) := range in
  do entries <- on_users AskGetSummary;
  do sums <- on_db (CallGetMonthSums (orgIDs entries) from to);
  let '(instanceMonthSums, amountTypesMap) := processSums sums in
  let '(amountTypes, _) := processAmountTypes amountTypesMap in
  do months <- terminating (months from to);
  ret (Plain (AnswerRaw (renderCSV (header months amountTypes ::
    ((fun entry => toCSVLine entry (usages (default ∅ (instanceMonthSums !! s_OrgID entry)) months amountTypes)) <$> entries)))))).

(** [Admin] *)
Definition Admin (r : http.Request) : Api Reply := rendering_page (
  let query := http.values_get (http.Query r) "query" in
  let page := extractOrDefaultPage (http.values_get (http.Query r) "page") in
  do organizations <- on_users (AskGetOrganizations query page true);
  do to <- billing_Now;
  let from := sixMonthsAgo to in
  let '(ids, trialInfo) := processOrgs organizations to in
  do sums <- on_db (CallGetMonthSums ids from to);
  let '(instanceMonthSums, amountTypesMap) := processSums sums in
  let '(amountTypes, colors) := processAmountTypes amountTypesMap in
  do months <- terminating (months from to);
  do now <- billing_Now;
  ret (AdminHTML 200 (mkAdminPage cfg_AdminURL organizations trialInfo months amountTypes colors instanceMonthSums page (page + 1) query
    (FormatDate dayTimeLayout (sixMonthsAgo now)) (FormatDate dayTimeLayout now)))).

(** [healthcheck] *)
Definition healthcheck (r : http.Request) : Api Reply := ret (Plain (AnswerStatus 200)).

(** ** Verification *)

Definition verifying {A} (prefix : string) (m : Api A) : Verify A := fun s =>
  let '(o, s) := m s in
  (match o with Ret a => Ret a | Err e => Err (VerifyErr prefix e) | Panic => Panic | Deadlock => Deadlock | OutOfFuel => OutOfFuel end, s).
Definition parse_date {A} (r : option A) : Verify A := or_else r (VerifyErr EmptyString (TextErr "parsing time")).

(** [getInvoicesAndCorrespondingUsage]: pages of usage until one is empty or its last record is from
    before the first invoice. *)
Fixpoint usage_loop (fuel : nat) (number : string) (usagePage : Z) (firstInvoiceDate : time.Time) (usages : list zuora.Usage) : Verify (list zuora.Usage) :=
  match fuel with
  | O => out_of_fuel
  | Datatypes.S fuel =>
      do u <- verifying "Failed to fetch usage: " (on_zuora (zuora.CallGetUsage number (pretty usagePage) "40"));
      match List.last (Some <$> u) None with
      | None => ret usages
      | Some lastUsage =>
          let usages := usages ++ u in
          do usageTs <- parse_date (ParseDateTime (zuora.us_StartDate lastUsage));
          if time.Before usageTs firstInvoiceDate then ret usages else usage_loop fuel number (usagePage + 1) firstInvoiceDate usages
      end
  end.
Definition getInvoicesAndCorrespondingUsage (number pageSize : string) : Verify (list zuora.Invoice * list zuora.Usage) :=
  do invoices <- verifying "Failed to fetch invoices: " (on_zuora (zuora.CallGetInvoices number "1" pageSize));
  do firstInvoiceDate <- parse_date (minInvoicesDate invoices);
  do usages <- usage_loop fuel number 1 firstInvoiceDate [];
  ret (invoices, usages).

(** The usage of an item, from its first day through its last. *)
Definition use (startTs endTs : time.Time) (quantity : spec_float) (u : zuora.Usage) : Verify spec_float :=
  do usageStartTs <- parse_date (ParseDateTime (zuora.us_StartDate u));
  if decide (zuora.us_Status u <> "Processed") then ret quantity
  else if decide (zuora.us_UnitType u <> zuora.UsageNodeSeconds) then ret quantity
  else if common_time.InTimeRange startTs endTs usageStartTs then ret (float64.add quantity (zuora.us_Quantity u))
  else ret quantity.

Definition verify_item (orgID : string) (price : spec_float) (usages : list zuora.Usage) (invoice : zuora.Invoice) (item : zuora.InvoiceItem) : Verify unit :=
  do startTs <- parse_date (ParseDate (zuora.ii_ServiceStartDate item));
  do endTs <- parse_date (ParseDate (zuora.ii_ServiceEndDate item));
  let endTs := common_time.BeginningOfNextDay endTs in
  do quantity <- fold_m (use startTs endTs) usages (S754_zero false);
  if negb (SFeqb quantity (zuora.ii_Quantity item)) then throw (QuantitiesDoNotMatch (zuora.iv_InvoiceNumber invoice) (zuora.ii_Quantity item) quantity)
  else
    let charge := RoundHalfUp (mul price quantity) in
    if negb (FloatEqual (zuora.ii_ChargeAmount item) charge) then throw (ChargeDoesNotMatch (zuora.iv_InvoiceNumber invoice) (zuora.ii_ChargeAmount item) charge)
    else
      do aggs <- verifying EmptyString (on_db (CallGetAggregates orgID startTs endTs));
      let localQuantity := float64.of_int (sumAggregates aggs) in
      if negb (SFeqb localQuantity quantity) then throw (LocalUsageDoesNotMatch quantity localQuantity) else ret tt.

(** [assertInvoiceVerified]; an account without a subscription is dereferenced. *)
Definition assertInvoiceVerified (weaveOrgID : string) (numInvoices : Z) : Verify unit :=
  do org <- verifying "Failed to fetch organization: " (getOrganization weaveOrgID);
  let number := o_ZuoraAccountNumber org in
  do fetched <- getInvoicesAndCorrespondingUsage number (pretty numInvoices);
  let '(invoices, usages) := fetched in
  do rates <- verifying EmptyString (on_zuora zuora.CallGetCurrentRates);
  do account <- verifying EmptyString (on_zuora (zuora.CallGetAccount number));
  do subscription <- deref (zuora.ac_Subscription account);
  let price := default (S754_zero false) (default ∅ (rates !! zuora.UsageNodeSeconds) !! zuora.as_Currency subscription) in
  for_each invoices (fun invoice =>
    if bool_decide (zuora.iv_Status invoice = "Posted") || bool_decide (zuora.iv_Status invoice = "Draft")
    then for_each (zuora.iv_InvoiceItems invoice) (verify_item (o_ID org) price usages invoice)
    else ret tt).

(** [InvoiceVerify], [PerformInvoiceVerify] *)
Definition InvoiceVerify (r : http.Request) : Api Reply := ret (renderPage 200 EmptyString NoResult EmptyString).
Definition PerformInvoiceVerify (r : http.Request) : Api Reply := fun s =>
  let instanceID := FormValue "instance_id" r in
  let csrfToken := FormValue "csrf_token" r in
  if decide (instanceID = EmptyString) then (Ret (renderPage 400 instanceID InstanceIDRequired csrfToken), s)
  else
    let instanceID := strings.TrimSpace instanceID in
    let '(o, s) := assertInvoiceVerified instanceID 3 s in
    (match o with
     | Ret _ => Ret (renderPage 200 instanceID Verified csrfToken)
     | Err err => Ret (renderPage 200 instanceID (NotVerified err) csrfToken)
     | Panic => Panic
     | Deadlock => Deadlock
     | OutOfFuel => OutOfFuel
     end, s).
End admin.

(** * Routes (routes.go) *)

Section routes.
Context {W L C : Type} `{UsersService W} `{LedgerImpl L} `{zuora.ClientImpl C} `{GroupOrder}.
Variable decode_createAccount : string -> string + createAccountRequest.
Variable decode_account : string -> string + zuora.Account.
Variable hmac_sha256 : string -> string -> string.
Variables (HMACSecret CORSAllowOrigin cfg_AdminURL : string).
Variable fuel : nat.

Abbreviation Api := (M (Billing W L C) berror).

(** The responses of the handlers, with the headers [corsHandler] sets before. *)
Record Routed : Type := mkRouted { rd_headers : http.Header; rd_reply : Reply }.
Definition cors_headers : http.Header :=
  {["Access-Control-Allow-Origin" := [CORSAllowOrigin];
    "Access-Control-Allow-Methods" := ["GET, POST, OPTIONS"];
    "Access-Control-Allow-Headers" := ["Origin, Content-Type"]]}.
Definition corsHandler (h : http.Request -> Api Reply) (r : http.Request) : Api Routed :=
  if decide (http.Method r = "OPTIONS") then ret (mkRouted cors_headers (Plain (AnswerStatus 200)))
  else do reply <- h r; ret (mkRouted cors_headers reply).

Definition plain (h : http.Request -> Api Answer) (r : http.Request) : Api Reply := do a <- h r; ret (Plain a).

(** [RegisterRoutes] *)
Definition RegisterRoutes : list (string * string * (http.Request -> Api Reply)) := [
  ("GET", "/", Admin cfg_AdminURL);
  ("GET", "/admin/billing.csv", ExportOrgsAndUsageAsCSV);
  ("GET", "/admin/billing/invoice-verify", InvoiceVerify);
  ("POST", "/admin/billing/invoice-verify", PerformInvoiceVerify fuel);
  ("GET", "/api/billing/healthcheck", healthcheck);
  ("POST", "/api/billing/{id}/account", plain (CreateAccount decode_createAccount));
  ("GET", "/api/billing/{id}/account", plain GetAccount);
  ("PATCH", "/api/billing/{id}/account", plain (UpdateAccount decode_account));
  ("GET", "/api/billing/{id}/trial", plain GetAccountTrial);
  ("GET", "/api/billing/{id}/status", plain GetAccountStatus);
  ("GET", "/api/billing/{id}/invoices", plain (GetAccountInvoices hmac_sha256 HMACSecret));
  ("GET", "/api/billing/{id}/invoice_file/{file_id}", plain (ServeInvoice hmac_sha256 HMACSecret));
  ("GET", "/api/billing/{id}/auth_token", plain GetAuthToken);
  ("GET", "/api/billing/{id}/payment", plain GetPaymentMethod);
  ("POST", "/api/billing/{id}/payment/{payment_id}", plain UpdatePaymentMethod);
  ("GET", "/api/billing/{id}/usage", plain GetUsage)].

(** The router: a path that is not clean is redirected, the first route whose path and method match
    handles the request. *)
Fixpoint route (l : list (string * string * (http.Request -> Api Reply))) (mismatch : bool) (r : http.Request) : Api Routed :=
  match l with
  | [] => ret (mkRouted ∅ (Plain (AnswerRaw (if mismatch then http.WriteHeader 405 else http.Error "404 page not found" 404))))
  | (method, path, handler) :: l =>
      match mux.Match false path (http.Path r) with
      | None => route l mismatch r
      | Some vars =>
          if decide (http.Method r = method) then corsHandler handler (http.set_vars vars r)
          else route l true r
      end
  end.
(** [ServeHTTP] of the handler of [New] *)
Definition ServeHTTP (r : http.Request) : Api Routed :=
  let p := cleanPath (http.Path r) in
  if decide (p <> http.Path r)
  then ret (mkRouted ∅ (Plain (AnswerRaw (http.Redirect (http.URL_String (http.set_path (escape_path p) p (http.RequestURI r) r)) 301))))
  else route RegisterRoutes false r.
End routes.
