(* ===== verification/BillingPeriods.v ===== *)
(** The periods of the billing API: the period an account is billed for (computeBillingPeriod of
    billing-api/routes/accounts.go) and the months of a report (months of routes/admin.go). *)
From Stdlib Require Import ZArith Lia Ascii String.
From stdpp Require Import base tactics option gmap strings list.
From S2P Require Import Prelude GoStd Users Calendar Ledger Zuora BillingApi BillingAdmin.
Import civil common_time.

(** * Months before *)

(** The month before, as the calendar numbers it. *)
Definition prev_month (y m : Z) : Z * Z := if m =? 1 then (y - 1, 12) else (y, m - 1).

Lemma prev_month_valid y m : 1 <= m <= 12 -> 1 <= (prev_month y m).2 <= 12.
Proof. unfold prev_month. destruct (Z.eqb_spec m 1); simpl; lia. Qed.
Lemma next_prev_month y m : 1 <= m <= 12 -> next_month (prev_month y m).1 (prev_month y m).2 = (y, m).
Proof.
  unfold prev_month, next_month. destruct (Z.eqb_spec m 1) as [->|]; simpl; [intros _; f_equal; lia|].
  destruct (Z.eqb_spec (m - 1) 12); [lia|]. intros _. f_equal. lia.
Qed.
#[local] Transparent day_number.
Lemma day_number_pred y m d : 1 <= m <= 12 -> day_number y (m - 1) d = day_number (prev_month y m).1 (prev_month y m).2 d.
Proof.
  intros Hm. unfold prev_month. destruct (Z.eqb_spec m 1) as [->|]; [|done]. simpl. unfold day_number. cbv zeta.
  change ((1 - 1 - 1) / 12) with (-1). change ((1 - 1 - 1) mod 12) with 11. change ((12 - 1) / 12) with 0. change ((12 - 1) mod 12) with 11.
  by replace (y - 1 + 0) with (y + -1) by lia.
Qed.
Lemma DaysIn_pred y m : 1 <= m <= 12 -> DaysIn (m - 1) y = days_in (prev_month y m).1 (prev_month y m).2.
Proof.
  intros Hm. unfold prev_month. destruct (Z.eqb_spec m 1) as [->|]; simpl; [|apply DaysIn_month; lia].
  rewrite <- DaysIn_month by lia. unfold DaysIn, Date. do 2 f_equal.
  unfold day_number. cbv zeta. change ((1 - 1 + 1 - 1) / 12) with 0. change ((1 - 1 + 1 - 1) mod 12) with 0.
  change ((12 + 1 - 1) / 12) with 1. change ((12 + 1 - 1) mod 12) with 0. by replace (y + 0) with (y - 1 + 1) by lia.
Qed.

#[local] Opaque day_number.

(** * The billing period *)

Lemma monthBillDate_in_month c y m : 1 <= m <= 12 -> monthBillDate c m y = Date y m (cycle_day c y m).
Proof. intros Hm. unfold monthBillDate, cycle_day. rewrite DaysIn_month by done. f_equal. destruct (Z.ltb_spec (days_in y m) c); lia. Qed.
Lemma monthBillDate_pred c y m : 1 <= m <= 12 ->
  monthBillDate c (m - 1) y = Date (prev_month y m).1 (prev_month y m).2 (cycle_day c (prev_month y m).1 (prev_month y m).2).
Proof.
  intros Hm. unfold monthBillDate, cycle_day, Date. rewrite DaysIn_pred, day_number_pred by done. do 2 f_equal.
  destruct (Z.ltb_spec (days_in (prev_month y m).1 (prev_month y m).2) c); lia.
Qed.
Lemma monthBillDate_succ c y m : 1 <= m <= 12 ->
  monthBillDate c (m + 1) y = Date (next_month y m).1 (next_month y m).2 (cycle_day c (next_month y m).1 (next_month y m).2).
Proof.
  intros Hm. unfold monthBillDate, cycle_day, Date. rewrite DaysIn_succ, day_number_succ by done. do 2 f_equal.
  destruct (Z.ltb_spec (days_in (next_month y m).1 (next_month y m).2) c); lia.
Qed.

(** The cycle after the one that starts in a month starts in the next month. *)
Lemma NextCycleStart_of_month c y m : 1 <= c -> 1 <= m <= 12 ->
  NextCycleStart (Date y m (cycle_day c y m)) c = Date (next_month y m).1 (next_month y m).2 (cycle_day c (next_month y m).1 (next_month y m).2).
Proof.
  intros Hc Hm. pose proof (cycle_day_range c y m Hc Hm) as Hcd.
  destruct (fields_of_day (Date y m (cycle_day c y m)) y m (cycle_day c y m)) as (Hy & Hmo & Hd); [done|done|apply Date_div|].
  rewrite (NextCycleStart_eq _ c y m (cycle_day c y m)) by done. unfold next_cycle_day. rewrite Z.ltb_irrefl. by destruct (next_month y m).
Qed.

Lemma Truncate_Day t : time.Truncate t BillingApi.Day = t / civil.Day * civil.Day.
Proof.
  unfold time.Truncate. change BillingApi.Day with civil.Day. destruct (Z.leb_spec civil.Day 0) as [H|]; [by vm_compute in H|].
  pose proof (Z.div_mod t civil.Day ltac:(done)). lia.
Qed.

(** The cycle an instant is in. *)
Definition cycle_at (c : Z) (t : time.Time) : time.Time * time.Time :=
  let today := time.Truncate t BillingApi.Day in
  let bill := monthBillDate c (Month today) (Year today) in
  if time.After bill today then (monthBillDate c (Month today - 1) (Year today), bill) else (bill, monthBillDate c (Month today + 1) (Year today)).

Lemma cycle_at_spec c t : 1 <= c ->
  let '(start, stop) := cycle_at c t in
  cycle_start c start /\ start <= t < stop /\ stop = NextCycleStart start c.
Proof.
  intros Hc. unfold cycle_at. rewrite Truncate_Day. set (today := t / civil.Day * civil.Day).
  destruct (date_of_time today) as (y & m & d & -> & -> & Hd & Hm & Hdr & Ht).
  assert (Htoday : today / civil.Day = t / civil.Day) by (unfold today; by rewrite Z.div_mul).
  assert (Hle : today <= t < today + civil.Day).
  { unfold today. pose proof (Z.div_mod t civil.Day ltac:(done)). pose proof (Z.mod_pos_bound t civil.Day ltac:(done)). lia. }
  cbv zeta. rewrite monthBillDate_in_month by done. unfold time.After.
  destruct (Z.ltb_spec today (Date y m (cycle_day c y m))) as [Hlt|Hge].
  - pose proof (prev_month_valid y m Hm) as Hmp. rewrite monthBillDate_pred by done.
    pose proof (NextCycleStart_of_month c (prev_month y m).1 _ Hc Hmp) as Hnext. rewrite next_prev_month in Hnext by done. simpl in Hnext.
    destruct (NextCycleStart_run (Date (prev_month y m).1 (prev_month y m).2 (cycle_day c (prev_month y m).1 (prev_month y m).2)) c Hc) as (_ & _ & Hleast).
    split; [by apply cycle_start_Date|]. split; [|done].
    assert (Hday : Date y m (cycle_day c y m) = day_number y m (cycle_day c y m) * civil.Day) by done.
    assert (t < Date y m (cycle_day c y m)).
    { rewrite Hday. apply before_midnight. rewrite <- Htoday. apply before_midnight. by rewrite <- Hday. }
    split; [|done]. assert (Date (prev_month y m).1 (prev_month y m).2 (cycle_day c (prev_month y m).1 (prev_month y m).2) <= today); [|lia].
    unfold Date, today. rewrite <- Htoday, Ht. apply Z.mul_le_mono_nonneg_r; [done|].
    pose proof (day_number_next (prev_month y m).1 (prev_month y m).2 d Hmp) as Hn. rewrite next_prev_month in Hn by done. simpl in Hn. rewrite Hn.
    destruct (prev_month y m) as [y' m']. pose proof (cycle_day_range c y' m' Hc Hmp). rewrite (day_number_in_month _ _ (cycle_day c y' m')).
    cbn [fst snd] in *. lia.
  - rewrite monthBillDate_succ by done. split; [by apply cycle_start_Date|]. rewrite NextCycleStart_of_month by done. split; [|done].
    split; [lia|]. pose proof (next_month_valid y m Hm) as Hmn.
    assert (today < Date (next_month y m).1 (next_month y m).2 (cycle_day c (next_month y m).1 (next_month y m).2)); [|].
    { unfold Date. apply before_midnight. rewrite Ht, day_number_next, (day_number_in_month y m d) by done. pose proof (cycle_day_range c (next_month y m).1 _ Hc Hmn). lia. }
    unfold Date. apply before_midnight. rewrite <- Htoday. by apply before_midnight.
Qed.

Lemma computeBillingPeriod_cycle c createdAt trialEnd reference :
  computeBillingPeriod c createdAt trialEnd reference
  = let '(start, stop) := cycle_at c reference in
    let trialEndDay := time.Truncate trialEnd BillingApi.Day in
    if time.Before start createdAt then (time.Truncate createdAt BillingApi.Day, stop)
    else if time.Before start trialEnd && time.After stop trialEnd then
      if time.Before reference trialEndDay then (start, trialEndDay) else (trialEndDay, stop)
    else (start, stop).
Proof. unfold computeBillingPeriod, cycle_at. cbv zeta. by destruct (time.After _ _). Qed.

(** Midnights against instants. *)
Lemma day_bounds t : t / civil.Day * civil.Day <= t < t / civil.Day * civil.Day + civil.Day.
Proof. pose proof (Z.div_mod t civil.Day ltac:(done)). pose proof (Z.mod_pos_bound t civil.Day ltac:(done)). lia. Qed.
Lemma midnight_le u t : u mod civil.Day = 0 -> u <= t -> u <= t / civil.Day * civil.Day.
Proof. intros Hu Hle. rewrite (midnight u Hu) at 1. apply Z.mul_le_mono_nonneg_r; [done|]. by apply Z.div_le_mono. Qed.
Lemma midnight_lt u t : u mod civil.Day = 0 -> t < u -> t / civil.Day * civil.Day + civil.Day <= u.
Proof.
  intros Hu Hlt. pose proof (midnight u Hu) as Heq. rewrite Heq in Hlt. apply before_midnight in Hlt. rewrite Heq.
  assert (0 < civil.Day) by done. nia.
Qed.

(** C34: let the cycle be the billing cycle the current instant is in. An organization that was created after the cycle began is
    billed from the day it was created to the end of the cycle. For an older one, the cycle is cut at the midnight before the
    trial ends when the trial ends inside the cycle, and the part that the current instant is in is billed; otherwise it is the
    whole cycle. So periods run from midnight to midnight, and those of older organizations never mix days of the trial with
    days after it. When the organization was created by now, the period lies within the cycle and holds the current instant;
    when it is created on a later day (as in accounts_test.go:104), the period begins after the current instant. *)
Theorem computeBillingPeriod_spec c createdAt trialEnd reference : 1 <= c ->
  let '(start, stop) := computeBillingPeriod c createdAt trialEnd reference in
  let created := time.Truncate createdAt BillingApi.Day in
  let trial := time.Truncate trialEnd BillingApi.Day in
  start mod civil.Day = 0 /\ stop mod civil.Day = 0 /\
  exists cycle, let next := NextCycleStart cycle c in
    cycle_start c cycle /\ cycle <= reference < next /\
    (cycle < createdAt -> start = created /\ stop = next) /\
    (createdAt <= cycle -> cycle < trialEnd < next -> reference < trial -> start = cycle /\ stop = trial) /\
    (createdAt <= cycle -> cycle < trialEnd < next -> trial <= reference -> start = trial /\ stop = next) /\
    (createdAt <= cycle -> ~ cycle < trialEnd < next -> start = cycle /\ stop = next) /\
    (createdAt <= cycle -> ~ start < trial < stop) /\
    (createdAt <= reference -> cycle <= start <= reference /\ reference < stop <= next) /\
    (reference < created -> reference < start).
Proof.
  intros Hc. rewrite computeBillingPeriod_cycle. pose proof (cycle_at_spec c reference Hc) as Hcyc.
  destruct (cycle_at c reference) as [start stop] eqn:E. clear E. destruct Hcyc as (Hs & Hin & ->).
  destruct (NextCycleStart_run start c Hc) as ([Hstop _] & _ & _). pose proof Hs as [Hstart _].
  set (next := NextCycleStart start c) in *. cbv zeta. unfold time.Before, time.After.
  pose proof (day_bounds createdAt) as Hbc. pose proof (day_bounds trialEnd) as Hbt. rewrite !Truncate_Day.
  assert (Hmod : forall x, x * civil.Day mod civil.Day = 0) by (intros; by apply Z.mod_mul).
  pose proof (midnight_le start createdAt Hstart) as Hmc. pose proof (midnight_le start trialEnd Hstart) as Hmt.
  pose proof (midnight_lt next trialEnd Hstop) as Hnt. pose proof (midnight_le next trialEnd Hstop) as Hnt'.
  destruct (Z.ltb_spec start createdAt) as [H1|H1]; [specialize (Hmc ltac:(lia))|].
  { split; [apply Hmod|]. split; [done|]. exists start. fold next. split; [done|]. repeat apply conj; try done; intros; lia. }
  destruct (Z.ltb_spec start trialEnd) as [H2|H2], (Z.ltb_spec trialEnd next) as [H3|H3]; cbn [andb].
  1: specialize (Hmt ltac:(lia)); specialize (Hnt H3); destruct (Z.ltb_spec reference (trialEnd / civil.Day * civil.Day)) as [H4|H4].
  3: specialize (Hnt' H3).
  all: (split; [done || apply Hmod|]; split; [done || apply Hmod|]; exists start; fold next; split; [done|]; repeat apply conj; try done; intros; lia).
Qed.

Lemma computeBillingPeriod_spec_witness :
  let createdAt := Date 2017 11 20 in let trialEnd := Date 2018 1 10 + time.Hour in let reference := Date 2018 1 12 + 5 * time.Hour in
  computeBillingPeriod 31 createdAt trialEnd reference = (Date 2018 1 10, Date 2018 1 31) /\
  Date 2018 1 10 <= reference < Date 2018 1 31 /\
  computeBillingPeriod 5 (Date 2017 5 10) (Date 2017 5 7) (Date 2017 5 4) = (Date 2017 5 10, Date 2017 5 5) /\ Date 2017 5 4 < Date 2017 5 10.
Proof.
  cbv zeta. split; [vm_compute; reflexivity|]. split; [|split; [vm_compute; reflexivity|]].
  - pose proof (computeBillingPeriod_spec 31 (Date 2017 11 20) (Date 2018 1 10 + time.Hour) (Date 2018 1 12 + 5 * time.Hour)) as Hspec.
    replace (computeBillingPeriod 31 _ _ _) with (Date 2018 1 10, Date 2018 1 31) in Hspec by (vm_compute; reflexivity).
    destruct Hspec as (_ & _ & cycle & _ & _ & _ & _ & _ & _ & _ & Hin & _); [lia|].
    destruct Hin as [[_ H1] [H2 _]]; [by vm_compute|]. by split.
  - pose proof (computeBillingPeriod_spec 5 (Date 2017 5 10) (Date 2017 5 7) (Date 2017 5 4)) as Hspec.
    replace (computeBillingPeriod 5 _ _ _) with (Date 2017 5 10, Date 2017 5 5) in Hspec by (vm_compute; reflexivity).
    destruct Hspec as (_ & _ & cycle & _ & _ & _ & _ & _ & _ & _ & _ & Hlater); [lia|]. by apply Hlater.
Defined.

(** * The months of a report *)

(** Months, numbered from one calendar year to the next. *)
Definition month_index (t : time.Time) : Z := Year t * 12 + (Month t - 1).

Lemma month_index_mod t : month_index t mod 12 + 1 = Month t.
Proof.
  destruct (date_of_time t) as (y & m & d & _ & Hmo & _ & Hm & _). unfold month_index. rewrite Hmo, (Z.add_comm (Year t * 12)), Z.mod_add, Z.mod_small by lia. lia.
Qed.
Lemma month_index_prev y m : 1 <= m <= 12 -> (prev_month y m).1 * 12 + ((prev_month y m).2 - 1) = y * 12 + (m - 1) - 1.
Proof. unfold prev_month. destruct (Z.eqb_spec m 1); simpl; lia. Qed.

(** A month earlier: in the month before, or, from a day that month does not have, in the same month;
    in any case four weeks back at least. *)
Lemma AddMonths_pred t : let t' := AddMonths t (-1) in
  (month_index t' = month_index t - 1 \/ month_index t' = month_index t) /\ t' <= t - 28 * civil.Day.
Proof.
  cbv zeta. unfold AddMonths, month_index. destruct (date_of_time t) as (y & m & d & -> & -> & -> & Hm & Hd & Ht).
  pose proof (prev_month_valid y m Hm) as Hmp. pose proof (next_prev_month y m Hm) as Hnp.
  pose proof (day_number_next (prev_month y m).1 (prev_month y m).2) as Hnext. rewrite Hnp in Hnext. cbn [fst snd] in Hnext.
  pose proof (days_in_range (prev_month y m).1 _ Hmp) as Hr.
  unfold Date. replace (m + -1) with (m - 1) by lia. rewrite day_number_pred by done.
  set (y' := (prev_month y m).1) in *. set (m' := (prev_month y m).2) in *.
  assert (Hdiv : (day_number y' m' d * civil.Day + t mod civil.Day) / civil.Day = day_number y' m' d).
  { rewrite Z.div_add_l by done. rewrite (Z.div_small (t mod civil.Day)) by (by apply Z.mod_pos_bound). lia. }
  split.
  - destruct (Z_le_gt_dec d (days_in y' m')) as [Hle|Hgt].
    + left. destruct (fields_of_day _ y' m' d Hmp ltac:(lia) Hdiv) as (-> & -> & _). apply (month_index_prev y m Hm).
    + right. destruct (fields_of_day (day_number y' m' d * civil.Day + t mod civil.Day) y m (d - days_in y' m') Hm ltac:(lia)) as (-> & -> & _); [|done].
      rewrite Hdiv, (day_number_in_month y' m' d), (day_number_in_month y m (d - _)). specialize (Hnext 1 Hmp). lia.
  - pose proof (Z.div_mod t civil.Day ltac:(done)) as Hdm. rewrite Ht in Hdm. rewrite (Z.mul_comm civil.Day) in Hdm.
    assert (day_number y' m' d + 28 <= day_number y m d).
    { rewrite (day_number_in_month y' m' d), (day_number_in_month y m d). specialize (Hnext 1 Hmp). lia. }
    assert (0 < civil.Day) by done. nia.
Qed.

(** The first day of a month. *)
Definition first_day (i : Z) : Z := day_number (i / 12) (i mod 12 + 1) 1.
Lemma index_split y m : 1 <= m <= 12 -> (y * 12 + (m - 1)) / 12 = y /\ (y * 12 + (m - 1)) mod 12 + 1 = m.
Proof. intros Hm. rewrite Z.div_add_l, (Z.add_comm (y * 12)), Z.mod_add, Z.div_small, Z.mod_small by lia. lia. Qed.
Lemma first_day_succ i : first_day i + 28 <= first_day (i + 1).
Proof.
  unfold first_day. pose proof (Z.mod_pos_bound i 12 ltac:(done)) as Hb. pose proof (Z.div_mod i 12 ltac:(done)) as Hi.
  set (y := i / 12) in *. set (m := i mod 12 + 1) in *. assert (Hm : 1 <= m <= 12) by lia.
  assert (Hn : (i + 1) / 12 = (next_month y m).1 /\ (i + 1) mod 12 + 1 = (next_month y m).2).
  { unfold next_month. destruct (Z.eqb_spec m 12); cbn [fst snd].
    - replace (i + 1) with ((y + 1) * 12 + (1 - 1)) by lia. apply index_split. lia.
    - replace (i + 1) with (y * 12 + (m + 1 - 1)) by lia. apply index_split. lia. }
  destruct Hn as [-> ->]. rewrite day_number_next by done. pose proof (days_in_range y m Hm). lia.
Qed.
Lemma first_day_mono i j : i <= j -> first_day i <= first_day j.
Proof.
  intros Hij. replace j with (i + (j - i)) by lia. assert (H : 0 <= j - i) by lia. revert H. generalize (j - i). apply natlike_ind; [by rewrite Z.add_0_r|].
  intros k Hk IH. pose proof (first_day_succ (i + k)). rewrite <- Z.add_1_r, Z.add_assoc. lia.
Qed.
Lemma in_its_month t : first_day (month_index t) <= t / civil.Day < first_day (month_index t + 1).
Proof.
  unfold first_day, month_index. destruct (date_of_time t) as (y & m & d & -> & -> & _ & Hm & Hd & ->).
  destruct (index_split y m Hm) as [-> ->]. rewrite (day_number_in_month y m d).
  assert (Hn : (y * 12 + (m - 1) + 1) / 12 = (next_month y m).1 /\ (y * 12 + (m - 1) + 1) mod 12 + 1 = (next_month y m).2).
  { unfold next_month. destruct (Z.eqb_spec m 12); cbn [fst snd].
    - replace (y * 12 + (m - 1) + 1) with ((y + 1) * 12 + (1 - 1)) by lia. apply index_split. lia.
    - replace (y * 12 + (m - 1) + 1) with (y * 12 + (m + 1 - 1)) by lia. apply index_split. lia. }
  destruct Hn as [-> ->]. rewrite day_number_next by done. lia.
Qed.

(** Months against the first instant of a month. *)
Lemma before_month t from : from mod civil.Day = 0 -> DayOf from = 1 -> (t < from <-> month_index t < month_index from).
Proof.
  intros Hmid H1. pose proof (in_its_month t) as Ht. rewrite (midnight from Hmid) at 1. rewrite before_midnight.
  assert (Hf : from / civil.Day = first_day (month_index from)).
  { unfold first_day, month_index. destruct (date_of_time from) as (y & m & d & -> & -> & Hd & Hm & _ & ->). rewrite H1 in Hd. subst d.
    by destruct (index_split y m Hm) as [-> ->]. }
  rewrite Hf. split; intros Hlt.
  - apply Z.nle_gt. intros Hle. pose proof (first_day_mono _ _ Hle). lia.
  - pose proof (first_day_mono (month_index t + 1) (month_index from) ltac:(lia)). lia.
Qed.

(** Enough rounds, of which each goes back by four weeks at least. *)
Definition rounds (from t : time.Time) : Z := Z.max 0 ((t - from) / (28 * civil.Day) + 1) + 1.
Lemma rounds_pred from t : from <= t -> rounds from (AddMonths t (-1)) + 1 <= rounds from t.
Proof.
  intros Hle. destruct (AddMonths_pred t) as [_ Hback]. unfold rounds.
  assert (0 < 28 * civil.Day) by done.
  pose proof (Z.div_pos (t - from) (28 * civil.Day) ltac:(lia) ltac:(done)).
  pose proof (Z.div_le_mono (AddMonths t (-1) - from) (t - from + (-1) * (28 * civil.Day)) (28 * civil.Day) ltac:(done) ltac:(lia)) as Hd.
  rewrite Z.div_add in Hd by done. lia.
Qed.

Lemma months_loop_run fuel from t : rounds from t <= Z.of_nat fuel -> exists l, months_loop fuel from t = Some l /\
  (from mod civil.Day = 0 -> DayOf from = 1 -> forall k, k ∈ l <-> exists i, month_index from <= i <= month_index t /\ k = i mod 12 + 1).
Proof.
  revert t. induction fuel as [|fuel IH]; intros t Hf; [unfold rounds in Hf; lia|]. cbn [months_loop]. unfold time.Before.
  destruct (Z.ltb_spec t from) as [Hlt|Hge].
  - exists []. split; [done|]. intros Hmid H1 k. split; [by intros ?%elem_of_nil|]. intros (i & Hi & _).
    apply (before_month t from Hmid H1) in Hlt. lia.
  - pose proof (rounds_pred from t Hge) as Hr. destruct (IH (AddMonths t (-1)) ltac:(lia)) as (l & -> & Hl). eexists. split; [done|].
    intros Hmid H1 k. pose proof (before_month t from Hmid H1) as Hb. assert (Hfrom : month_index from <= month_index t) by lia.
    rewrite elem_of_cons, (Hl Hmid H1), <- month_index_mod. destruct (AddMonths_pred t) as [[->| ->] _].
    + split; [intros [->|(i & Hi & ->)]; [exists (month_index t)|exists i]; (split; [lia|done])|]. intros (i & Hi & ->).
      destruct (Z.eq_dec i (month_index t)) as [->|]; [by left|]. right. exists i. split; [lia|done].
    + split; [intros [->|(i & Hi & ->)]; [exists (month_index t)|exists i]; (split; [lia|done])|]. intros (i & Hi & ->). right. by exists i.
Qed.

(** The months of a report are found in a bounded number of rounds, and a report that starts with a month has every month
    from that one through the last, and no other. *)
Theorem months_spec from to : exists l, months from to = Some l /\
  (from mod civil.Day = 0 -> DayOf from = 1 -> forall k, k ∈ l <-> exists i, month_index from <= i <= month_index to /\ k = i mod 12 + 1).
Proof. apply months_loop_run. unfold rounds. lia. Qed.

Lemma months_spec_witness :
  months (Date 2017 11 1) (Date 2018 3 31) = Some [3; 3; 2; 1; 12; 11] /\
  exists l, months (Date 2017 11 1) (Date 2018 3 31) = Some l /\ 2 ∈ l.
Proof.
  split; [vm_compute; reflexivity|]. destruct (months_spec (Date 2017 11 1) (Date 2018 3 31)) as (l & Hl & Hin). exists l. split; [done|].
  apply Hin; [vm_compute; reflexivity|vm_compute; reflexivity|]. exists (2018 * 12 + 1). vm_compute. repeat split; discriminate.
Defined.

(** A report that starts later in a month than it ends has no column for its first month. *)
Example first_month_missing : months (Date 2018 1 15) (Date 2018 3 10) = Some [3; 2].
Proof. vm_compute. reflexivity. Qed.
