(* ===== verification/BillingApiSpec.v ===== *)
(** What the billing API promises: who may change an account, which invoices are served, and how the
    sums of usage fit together. *)
From Stdlib Require Import ZArith Lia Ascii String SpecFloat.
From stdpp Require Import base tactics option gmap strings list pretty.
From S2P Require Import Prelude GoStd Users UsersDB Sessions UsersServer UsersClient Calendar Duration Trial Formats Http Encoding Api Ledger LedgerSpec Zuora Report UploaderSpec BillingApi BillingAdmin.

(** * Calls that do not change an account *)

(** The calls of the Zuora client that create or change something there. *)
Definition zuora_writes {A} (c : zuora.ClientCall A) : bool :=
  match c with
  | zuora.CallCreateAccount _ _ _ _ _ _ | zuora.CallUpdateAccount _ _ _ | zuora.CallDeleteAccount _
  | zuora.CallCreateInvoice _ | zuora.CallUpdatePaymentMethod _ | zuora.CallUploadUsage _ _ => true
  | _ => false
  end.
Definition ledger_writes {A} (c : LedgerCall A) : bool :=
  match c with
  | CallInsertAggregates _ | CallInsertUsageUpload _ _ | CallDeleteUsageUpload _ _ | CallInsertPostTrialInvoice _ _ _
  | CallDeletePostTrialInvoice _ | CallSetTeamBillingAccountProvider _ _ => true
  | _ => false
  end.

(** The organization a path of the API names. *)
Definition billed_id (path : string) : string := (mux.segment (strings.drop 13 path)).1.

Create HintDb billing_reads discriminated.

Section reads.
Context {W L C : Type} `{UsersService W} `{LedgerImpl L} `{zuora.ClientImpl C} `{GroupOrder}.
Abbreviation state := (Billing W L C).
Abbreviation Api := (M state berror).

(** Anything the other calls leave alone. *)
Variables (IC : C -> Prop) (IL : L -> Prop).
Hypothesis zuora_kept : forall A (c : zuora.ClientCall A), zuora_writes c = false -> preserves IC (zuora.client_call c).
Hypothesis ledger_kept : forall A (c : LedgerCall A), ledger_writes c = false -> preserves IL (ledger_call c).

Definition kept (s : state) : Prop := IC (b_zuora s) /\ IL (b_db s).

Lemma on_users_kept {A} (c : UsersCall A) : preserves kept (on_users c : Api A).
Proof. intros s Hs. unfold on_users. by destruct (users_call c (b_users s)) as [[] w]. Qed.
Lemma on_db_kept {A} (c : LedgerCall A) : ledger_writes c = false -> preserves kept (on_db c : Api A).
Proof.
  intros Hc s [Hz Hl]. unfold on_db. pose proof (ledger_kept A c Hc (b_db s) Hl) as Hk.
  by destruct (ledger_call c (b_db s)) as [[] l].
Qed.
Lemma via_zuora_kept {A} (m : M C zuora.zerror A) : preserves IC m -> preserves kept (via_zuora m : Api A).
Proof. intros Hm s [Hz Hl]. unfold via_zuora. specialize (Hm (b_zuora s) Hz). by destruct (m (b_zuora s)) as [[] c]. Qed.
Lemma on_zuora_kept {A} (c : zuora.ClientCall A) : zuora_writes c = false -> preserves kept (on_zuora c : Api A).
Proof. intros Hc. by apply via_zuora_kept, zuora_kept. Qed.
Lemma billing_Now_kept : preserves kept (billing_Now : Api time.Time).
Proof. done_step. Qed.
Lemma set_cachedRates_kept r : preserves kept (set_cachedRates r : Api unit).
Proof. done_step. Qed.
Lemma Decode_kept {A} (decode : string -> string + A) r : preserves kept (Decode decode r : Api A).
Proof. unfold Decode. destruct (http.Body r) as [|body]; [apply preserves_throw|]. destruct (decode body); [apply preserves_throw|apply preserves_ret]. Qed.
Lemma rendering_kept m : preserves kept m -> preserves kept (rendering m : Api Answer).
Proof. intros Hm. unfold rendering. apply preserves_bind; [by apply preserves_try|]. intros []; apply preserves_ret. Qed.
Lemma rendering_page_kept m : preserves kept m -> preserves kept (rendering_page m : Api Reply).
Proof. intros Hm. unfold rendering_page. apply preserves_bind; [by apply preserves_try|]. intros []; apply preserves_ret. Qed.
Lemma or_err_kept {A} (r : berror + A) : preserves kept (or_err r : Api A).
Proof. destruct r; [apply preserves_throw|apply preserves_ret]. Qed.
Lemma terminating_kept {E A} (r : option A) : preserves kept (terminating r : M state E A).
Proof. destruct r; [apply preserves_ret|apply preserves_out_of_fuel]. Qed.
Lemma parseTime_kept t : preserves kept (parseTime t : Api time.Time).
Proof. apply preserves_or_else. Qed.
Lemma verifying_kept {A} prefix (m : Api A) : preserves kept m -> preserves kept (verifying prefix m).
Proof. intros Hm s Hs. unfold verifying. specialize (Hm s Hs). by destruct (m s) as [[] s']. Qed.
Lemma parse_date_kept {A} (r : option A) : preserves kept (parse_date r : M state verifyError A).
Proof. apply preserves_or_else. Qed.
Lemma getOrganization_kept id : preserves kept (getOrganization id : Api Organization).
Proof. apply on_users_kept. Qed.
End reads.

#[export] Hint Resolve preserves_ret preserves_throw preserves_panic preserves_out_of_fuel preserves_gets preserves_deref preserves_or_else : billing_reads.
#[export] Hint Resolve on_users_kept billing_Now_kept set_cachedRates_kept Decode_kept or_err_kept terminating_kept parseTime_kept parse_date_kept
  getOrganization_kept : billing_reads.
#[export] Hint Extern 3 (preserves _ (on_db _)) => apply on_db_kept; [assumption|reflexivity] : billing_reads.
#[export] Hint Extern 3 (preserves _ (on_zuora _)) => apply on_zuora_kept; [assumption|reflexivity] : billing_reads.

(** Goes through a handler, one call at a time. *)
Ltac handler_kept :=
  repeat (cbv zeta; first
    [ solve [eauto 1 with billing_reads nocore]
    | apply preserves_bind; [|intro]
    | apply preserves_try
    | apply rendering_kept
    | apply rendering_page_kept
    | apply verifying_kept
    | apply preserves_for_each; intro
    | apply preserves_fold_m; intros ? ?
    | match goal with |- preserves _ (match ?x with _ => _ end) => destruct x end ]).

Section permitted.
Context {W L C : Type} `{UsersService W} `{LedgerImpl L} `{zuora.ClientImpl C} `{GroupOrder}.
Abbreviation state := (Billing W L C).
Abbreviation Api := (M state berror).
Variables (IC : C -> Prop) (IL : L -> Prop).
Hypothesis zuora_kept : forall A (c : zuora.ClientCall A), zuora_writes c = false -> preserves IC (zuora.client_call c).
Hypothesis ledger_kept : forall A (c : LedgerCall A), ledger_writes c = false -> preserves IL (ledger_call c).
Abbreviation kept := (kept (W:=W) IC IL).

Lemma GetAccount_kept r : preserves kept (GetAccount r).
Proof. unfold GetAccount. handler_kept. Qed.
Lemma GetAccountTrial_kept r : preserves kept (GetAccountTrial r).
Proof. unfold GetAccountTrial. handler_kept. Qed.
Lemma getDefaultUsageRateInfo_kept : preserves kept getDefaultUsageRateInfo.
Proof. unfold getDefaultUsageRateInfo. handler_kept. Qed.
Lemma set_rate_kept currency price : preserves kept (set_rate currency price).
Proof. unfold set_rate. handler_kept. Qed.
Hint Resolve getDefaultUsageRateInfo_kept set_rate_kept : billing_reads.
Lemma GetAccountStatus_kept r : preserves kept (GetAccountStatus r).
Proof. unfold GetAccountStatus. handler_kept. Qed.
Lemma GetAuthToken_kept r : preserves kept (GetAuthToken r).
Proof. unfold GetAuthToken. handler_kept. Qed.
Lemma GetPaymentMethod_kept r : preserves kept (GetPaymentMethod r).
Proof. unfold GetPaymentMethod. handler_kept. Qed.
Lemma GetUsage_kept r : preserves kept (BillingApi.GetUsage r).
Proof. unfold BillingApi.GetUsage. handler_kept. Qed.
Lemma GetAccountInvoices_kept hmac secret r : preserves kept (GetAccountInvoices hmac secret r).
Proof. unfold GetAccountInvoices. handler_kept. Qed.
Lemma ServeInvoice_kept hmac secret r : preserves kept (ServeInvoice hmac secret r).
Proof. unfold ServeInvoice. handler_kept. Qed.
Lemma ExportOrgsAndUsageAsCSV_kept r : preserves kept (ExportOrgsAndUsageAsCSV r).
Proof. unfold ExportOrgsAndUsageAsCSV. handler_kept. Qed.
Lemma Admin_kept url r : preserves kept (Admin url r).
Proof. unfold Admin. handler_kept. Qed.
Lemma usage_loop_kept fuel number page first usages : preserves kept (usage_loop fuel number page first usages).
Proof. revert page usages. induction fuel as [|fuel IH]; intros page usages; cbn [usage_loop]; handler_kept. Qed.
Hint Resolve usage_loop_kept : billing_reads.
Lemma assertInvoiceVerified_kept fuel id n : preserves kept (assertInvoiceVerified fuel id n).
Proof. unfold assertInvoiceVerified, getInvoicesAndCorrespondingUsage, verify_item, use. handler_kept. Qed.
Lemma PerformInvoiceVerify_kept fuel r : preserves kept (PerformInvoiceVerify fuel r).
Proof.
  intros s Hs. unfold PerformInvoiceVerify. destruct (decide _); [done|].
  pose proof (assertInvoiceVerified_kept fuel (strings.TrimSpace (FormValue "instance_id" r)) 3 s Hs) as Hk.
  by destruct (assertInvoiceVerified _ _ _ s) as [[] s'].
Qed.

(** ** Requests without the permission *)

(** The permission to change the billing of the organization of the path is not granted. *)
Definition denied (r : http.Request) (s : state) : Prop :=
  is_ret (users_call (AskRequireOrgMemberPermissionTo (billed_id (http.Path r)) (http.header_of "X-Scope-UserID" r) permission.UpdateBilling) (b_users s)).1 = false.

Lemma denied_kept (r : http.Request) (m : Api Answer) s : var "id" r = billed_id (http.Path r) -> denied r s -> kept s ->
  kept (rendering (require_UpdateBilling r ;;; m) s).2.
Proof.
  intros Hid Hd Hs. unfold denied in Hd. unfold rendering, bind, try, require_UpdateBilling, on_users. rewrite Hid.
  by destruct (users_call _ (b_users s)) as [[] w].
Qed.

(** The variable of a route is the organization of the path. *)
Lemma route_id tpl path vars : In tpl ["/api/billing/{id}/account"; "/api/billing/{id}/payment/{payment_id}"] ->
  mux.Match false tpl path = Some vars -> default EmptyString (vars !! "id") = billed_id path.
Proof.
  intros [<-|[<-|[]]]; unfold mux.Match, billed_id.
  - replace (mux.parse _) with [mux.TLit "/api/billing/"; mux.TVar "id"; mux.TLit "/account"] by (vm_compute; reflexivity).
    cbn [mux.match_items]. destruct (strings.HasPrefix path _); [|done]. cbn [String.length]. destruct (mux.segment _) as [v path'] eqn:E.
    cbn [fst]. destruct (decide _); [done|]. repeat case_match; intros; simplify_eq; by rewrite lookup_insert_eq.
  - replace (mux.parse _) with [mux.TLit "/api/billing/"; mux.TVar "id"; mux.TLit "/payment/"; mux.TVar "payment_id"; mux.TLit EmptyString] by (vm_compute; reflexivity).
    cbn [mux.match_items]. destruct (strings.HasPrefix path _); [|done]. cbn [String.length]. destruct (mux.segment _) as [v path'] eqn:E.
    cbn [fst]. destruct (decide _); [done|]. repeat case_match; intros; simplify_eq; (rewrite lookup_insert_ne by done; by rewrite lookup_insert_eq).
Qed.

Variable decode_createAccount : string -> string + createAccountRequest.
Variable decode_account : string -> string + zuora.Account.
Variable hmac_sha256 : string -> string -> string.
Variables (HMACSecret CORSAllowOrigin cfg_AdminURL : string).
Variable fuel : nat.

Lemma plain_kept (h : http.Request -> Api Answer) r s : kept (h r s).2 -> kept (plain h r s).2.
Proof. unfold plain, bind. by destruct (h r s) as [[] s']. Qed.
Lemma corsHandler_kept (h : http.Request -> Api Reply) r s : kept s -> kept (h r s).2 -> kept (corsHandler CORSAllowOrigin h r s).2.
Proof. intros Hs Hh. unfold corsHandler. destruct (decide _); [done|]. unfold bind. by destruct (h r s) as [[] s']. Qed.

Lemma route_kept l mismatch r s : kept s ->
  Forall (fun e => forall vars, mux.Match false e.1.2 (http.Path r) = Some vars -> kept (e.2 (http.set_vars vars r) s).2) l ->
  kept (route CORSAllowOrigin l mismatch r s).2.
Proof.
  intros Hs Hl. revert mismatch. induction Hl as [|[[method path] handler] l Hh _ IH]; intros mismatch; cbn [route]; [done|].
  destruct (mux.Match false path (http.Path r)) as [vars|] eqn:E; [|apply IH]. destruct (decide _); [|apply IH].
  apply corsHandler_kept; [done|]. by apply Hh.
Qed.

Lemma ServeHTTP_kept r s : kept s -> denied r s ->
  kept (ServeHTTP decode_createAccount decode_account hmac_sha256 HMACSecret CORSAllowOrigin cfg_AdminURL fuel r s).2.
Proof.
  intros Hs Hd. unfold ServeHTTP. cbv zeta. destruct (decide _); [done|]. apply route_kept; [done|]. unfold RegisterRoutes.
  repeat (apply List.Forall_cons || apply List.Forall_nil); intros vars Hm; cbn [fst snd] in *;
    try (apply plain_kept); try done;
    try (by first [apply Admin_kept | apply ExportOrgsAndUsageAsCSV_kept | apply PerformInvoiceVerify_kept | apply GetAccount_kept
      | apply GetAccountTrial_kept | apply GetAccountStatus_kept | apply GetAccountInvoices_kept | apply ServeInvoice_kept
      | apply GetAuthToken_kept | apply GetPaymentMethod_kept | apply GetUsage_kept]).
  all: apply denied_kept; [by eapply route_id; [|exact Hm]; simpl; auto|done|done].
Qed.
End permitted.

(** C30: a request of a user who may not change the billing of the organization its path names, whatever
    its method, path and body, changes nothing at Zuora or in the billing database: whatever the
    other calls of the two leave alone is the same after it. *)
Theorem billing_changes_need_permission {W L C} `{UsersService W} `{LedgerImpl L} `{zuora.ClientImpl C} `{GroupOrder}
    (IC : C -> Prop) (IL : L -> Prop) decode_createAccount decode_account hmac_sha256 HMACSecret CORSAllowOrigin cfg_AdminURL fuel
    (r : http.Request) (s : Billing W L C) :
  (forall A (c : zuora.ClientCall A), zuora_writes c = false -> preserves IC (zuora.client_call c)) ->
  (forall A (c : LedgerCall A), ledger_writes c = false -> preserves IL (ledger_call c)) ->
  denied r s -> IC (b_zuora s) -> IL (b_db s) ->
  let s' := (ServeHTTP decode_createAccount decode_account hmac_sha256 HMACSecret CORSAllowOrigin cfg_AdminURL fuel r s).2 in
  IC (b_zuora s') /\ IL (b_db s').
Proof. intros Hz Hl Hd HC HL. exact (ServeHTTP_kept IC IL Hz Hl _ _ _ _ _ _ _ r s (conj HC HL) Hd). Qed.

(** * Invoices *)

Section invoices.
Context {W L C : Type} `{UsersService W} `{LedgerImpl L} `{zuora.ClientImpl C} `{GroupOrder}.
Variable hmac_sha256 : string -> string -> string.
Variable HMACSecret : string.
Abbreviation state := (Billing W L C).

(** What the API shows of an invoice. *)
Definition link_of (prefix orgID address link : string) : Prop :=
  exists fileID, address = prefix +:+ fileID /\ link = invoiceFileURL hmac_sha256 HMACSecret orgID fileID.
Definition shown_invoice (prefix orgID : string) (i j : zuora.Invoice) : Prop :=
  (zuora.iv_Body i = EmptyString /\ zuora.iv_Body j = EmptyString \/ link_of prefix orgID (zuora.iv_Body i) (zuora.iv_Body j)) /\
  Forall2 (fun f g => zuora.if_ID g = zuora.if_ID f /\ zuora.if_VersionNumber g = zuora.if_VersionNumber f /\
                      link_of prefix orgID (zuora.if_PdfFileURL f) (zuora.if_PdfFileURL g))
    (List.filter (fun f => negb (bool_decide (zuora.if_PdfFileURL f = EmptyString))) (zuora.iv_InvoiceFiles i)) (zuora.iv_InvoiceFiles j) /\
  j = set_InvoiceFiles (zuora.iv_InvoiceFiles j) (set_Body (zuora.iv_Body j) i).

Lemma convertFileURL_run prefix orgID address link :
  convertFileURL hmac_sha256 HMACSecret prefix orgID address = inr link -> link_of prefix orgID address link.
Proof.
  unfold convertFileURL, extractFileID. destruct (strings.HasPrefix address prefix) eqn:E; [|done]. intros [= <-].
  apply strings.prefix_inv in E as [fileID ->]. exists fileID. split; [done|]. f_equal.
  pose proof (strings.TrimPrefix_spec prefix fileID) as Ht. unfold strings.TrimPrefix, strings.HasPrefix in Ht. by rewrite strings.prefix_app in Ht.
Qed.
Lemma mangle_files_run prefix orgID l files : mangle_files hmac_sha256 HMACSecret prefix orgID l = inr files ->
  Forall2 (fun f g => zuora.if_ID g = zuora.if_ID f /\ zuora.if_VersionNumber g = zuora.if_VersionNumber f /\
                      link_of prefix orgID (zuora.if_PdfFileURL f) (zuora.if_PdfFileURL g))
    (List.filter (fun f => negb (bool_decide (zuora.if_PdfFileURL f = EmptyString))) l) files.
Proof.
  revert files. induction l as [|f l IH]; intros files; cbn [mangle_files List.filter]; [intros [= <-]; constructor|].
  destruct (decide _) as [He|He].
  - rewrite bool_decide_true by done. apply IH.
  - rewrite bool_decide_false by done. cbn [negb]. destruct (convertFileURL _ _ _ _ _) as [|link] eqn:E; [done|].
    destruct (mangle_files _ _ _ _ l) as [|rest]; [done|]. intros [= <-]. constructor; [|by apply IH]. by split; [|split; [|apply convertFileURL_run]].
Qed.
Lemma mangleInvoice_run prefix orgID i j : mangleInvoice hmac_sha256 HMACSecret prefix orgID i = inr j -> shown_invoice prefix orgID i j.
Proof.
  unfold mangleInvoice. destruct (decide (zuora.iv_Body i = EmptyString)) as [He|He].
  - destruct (mangle_files _ _ _ _ _) as [|files] eqn:E; [done|]. intros [= <-]. apply mangle_files_run in E.
    split; [by left|]. split; [done|]. by destruct i.
  - destruct (convertFileURL _ _ _ _ _) as [|link] eqn:Eb; [done|]. destruct (mangle_files _ _ _ _ _) as [|files] eqn:E; [done|].
    intros [= <-]. apply mangle_files_run in E. apply convertFileURL_run in Eb. split; [by right|]. split; [done|]. by destruct i.
Qed.
Lemma posted_invoices_run prefix orgID l posted : posted_invoices hmac_sha256 HMACSecret prefix orgID l = inr posted ->
  Forall2 (shown_invoice prefix orgID) (List.filter (fun i => bool_decide (zuora.iv_Status i = InvoiceStatusPosted)) l) posted.
Proof.
  revert posted. induction l as [|i l IH]; intros posted; cbn [posted_invoices List.filter]; [intros [= <-]; constructor|].
  destruct (decide _) as [He|He].
  - rewrite bool_decide_false by done. apply IH.
  - rewrite bool_decide_true by (by destruct (decide (zuora.iv_Status i = InvoiceStatusPosted))).
    destruct (mangleInvoice _ _ _ _ i) as [|j] eqn:E; [done|]. destruct (posted_invoices _ _ _ _ l) as [|rest]; [done|].
    intros [= <-]. constructor; [by apply mangleInvoice_run|by apply IH].
Qed.

(** ** Following a link *)

(** The request for a link, unless its path is malformed: the fragment is not sent, the path and the query are decoded. *)
Definition follow (link : string) : option http.Request :=
  let '(sent, _) := default (link, EmptyString) (strings.cut "#"%char link) in
  let '(escaped, raw) := default (sent, EmptyString) (strings.cut "?"%char sent) in
  p ← urlpath.PathUnescape escaped;
  Some (http.mkRequest "GET" EmptyString escaped p (query.ParseQuery raw) raw sent ∅ [] None ∅ None [] EmptyString (inr EmptyString)).

(** A name that stands in a path as it is: one segment of letters, digits, hyphens, underscores, periods and tildes. *)
Record path_name (s : string) : Prop := mkPathName {
  name_chars : strings.all url.unreserved s = true;
  name_nonempty : s <> EmptyString;
  name_not_dots : s <> "." /\ s <> ".." }.

Lemma name_without x s : url.unreserved x = false -> strings.all url.unreserved s = true -> strings.all (fun c => negb (Ascii.eqb c x)) s = true.
Proof. intros Hx. apply query.all_impl. intros c Hc. destruct (Ascii.eqb_spec c x) as [->|]; [congruence|done]. Qed.
Lemma name_not_slash s : strings.all url.unreserved s = true -> strings.all (fun c => negb (Ascii.eqb c "/"%char)) s = true.
Proof. by apply name_without. Qed.
(** Names and slashes. *)
Definition sent_as_it_is (c : ascii) : bool := url.unreserved c || Ascii.eqb c "/"%char.
Lemma sent_without x s : sent_as_it_is x = false -> strings.all sent_as_it_is s = true -> strings.all (fun c => negb (Ascii.eqb c x)) s = true.
Proof. intros Hx. apply query.all_impl. intros c Hc. destruct (Ascii.eqb_spec c x) as [->|]; [congruence|done]. Qed.
Lemma name_sent s : strings.all url.unreserved s = true -> strings.all sent_as_it_is s = true.
Proof. apply query.all_impl. intros c Hc. unfold sent_as_it_is. by rewrite Hc. Qed.
Lemma cut_none sep s : strings.all (fun c => negb (Ascii.eqb c sep)) s = true -> strings.cut sep s = None.
Proof. induction s as [|c s IH]; [done|]. cbn [strings.all strings.cut]. intros [Hc Hs]%andb_prop. destruct (Ascii.eqb c sep); [done|]. by rewrite IH. Qed.
Lemma PathUnescape_same s : strings.all (fun c => negb (Ascii.eqb c "%"%char)) s = true -> urlpath.PathUnescape s = Some s.
Proof. induction s as [|c s IH]; [done|]. cbn [strings.all urlpath.PathUnescape]. intros [Hc Hs]%andb_prop. destruct (Ascii.eqb c "%"%char); [done|]. by rewrite IH. Qed.

Lemma segment_slash s rest : strings.all (fun c => negb (Ascii.eqb c "/"%char)) s = true ->
  mux.segment (s +:+ String "/" rest) = (s, String "/" rest).
Proof.
  induction s as [|c s IH]; [done|]. cbn [strings.all]. intros [Hc Hs]%andb_prop.
  change (String c s +:+ String "/" rest) with (String c (s +:+ String "/" rest)). cbn [mux.segment].
  destruct (Ascii.eqb c "/"%char); [done|]. by rewrite IH.
Qed.
Lemma segment_last s : strings.all (fun c => negb (Ascii.eqb c "/"%char)) s = true -> mux.segment s = (s, EmptyString).
Proof.
  induction s as [|c s IH]; [done|]. cbn [strings.all]. intros [Hc Hs]%andb_prop. cbn [mux.segment].
  destruct (Ascii.eqb c "/"%char); [done|]. by rewrite IH.
Qed.
Lemma split_slash word s rest : strings.all (fun c => negb (Ascii.eqb c "/"%char)) s = true ->
  strings.split_from word "/"%char (s +:+ String "/" rest) = (word +:+ s) :: strings.split_from EmptyString "/"%char rest.
Proof.
  revert word. induction s as [|c s IH]; intros word; cbn [strings.all].
  - intros _. change (EmptyString +:+ String "/" rest) with (String "/" rest). cbn [strings.split_from]. by rewrite string_app_nil_r.
  - intros [Hc Hs]%andb_prop. change (String c s +:+ String "/" rest) with (String c (s +:+ String "/" rest)). cbn [strings.split_from].
    destruct (Ascii.eqb c "/"%char); [done|]. rewrite IH by done. by rewrite string_app_assoc.
Qed.

Definition link_path (orgID fileID : string) : string := "/api/billing/" +:+ orgID +:+ "/invoice_file/" +:+ fileID.

Lemma no_trailing_slash a f : strings.all (fun c => negb (Ascii.eqb c "/"%char)) f = true -> f <> EmptyString -> strings.HasSuffix (a +:+ f) "/" = false.
Proof.
  intros Hf Hne. assert (Hself : strings.HasSuffix f "/" = false).
  { clear Hne. induction f as [|c f IH]; [done|]. cbn [strings.all] in Hf. apply andb_prop in Hf as [Hc Hf]. cbn [strings.HasSuffix]. rewrite IH by done.
    rewrite orb_false_r. apply bool_decide_eq_false. intros [= -> _]. by rewrite Ascii.eqb_refl in Hc. }
  induction a as [|c a IH]; [done|]. change (String c a +:+ f) with (String c (a +:+ f)). cbn [strings.HasSuffix]. rewrite IH, orb_false_r.
  apply bool_decide_eq_false. intros [= _ Ha]. destruct a; [|done]. by destruct f.
Qed.

Lemma push_name acc e : e <> EmptyString -> e <> "." -> e <> ".." -> filepath.push acc e = e :: acc.
Proof. intros. unfold filepath.push. rewrite decide_False by (by intros [|]). by rewrite decide_False. Qed.
Lemma link_path_clean orgID fileID : path_name orgID -> path_name fileID -> cleanPath (link_path orgID fileID) = link_path orgID fileID.
Proof.
  intros [Ho Hone [Ho1 Ho2]] [Hf Hfne [Hf1 Hf2]]. unfold cleanPath. rewrite decide_False by done.
  assert (Hclean : filepath.Clean (link_path orgID fileID) = link_path orgID fileID).
  { unfold filepath.Clean, strings.Split. change (link_path orgID fileID) with
      (EmptyString +:+ String "/" ("api" +:+ String "/" ("billing" +:+ String "/" (orgID +:+ String "/" ("invoice_file" +:+ String "/" fileID))))).
    rewrite !split_slash by (done || by apply name_not_slash). rewrite query.split_none by (by apply name_not_slash).
    change (EmptyString +:+ ?x) with x. cbn [foldl].
    change (filepath.push [] EmptyString) with (@nil string). rewrite !push_name by done. reflexivity. }
  cbv zeta. rewrite Hclean. unfold link_path at 1. rewrite <- !string_app_assoc, no_trailing_slash by (done || by apply name_not_slash). done.
Qed.

(** Templates the path does not match, and the one it does. *)
Lemma match_literal lit path : mux.parse lit = [mux.TLit lit] -> path <> lit -> mux.Match false lit path = None.
Proof.
  intros Hp Hne. unfold mux.Match. rewrite Hp. cbn [mux.match_items orb]. destruct (strings.HasPrefix path lit) eqn:E; [|done].
  apply strings.prefix_inv in E as [t ->]. rewrite bool_decide_false; [done|].
  pose proof (strings.TrimPrefix_spec lit t) as Ht. unfold strings.TrimPrefix, strings.HasPrefix in Ht. rewrite strings.prefix_app in Ht. rewrite Ht.
  intros ->. by rewrite string_app_nil_r in Hne.
Qed.
Lemma match_billing tpl items orgID fileID : path_name orgID -> mux.parse tpl = mux.TLit "/api/billing/" :: mux.TVar "id" :: items ->
  mux.Match false tpl (link_path orgID fileID) = mux.match_items false items {["id" := orgID]} ("/invoice_file/" +:+ fileID).
Proof.
  intros [Ho Hone _] Hp. unfold mux.Match. rewrite Hp. cbn [mux.match_items].
  replace (strings.HasPrefix (link_path orgID fileID) "/api/billing/") with true by (symmetry; apply strings.prefix_app). cbn [String.length].
  change (strings.drop 13 (link_path orgID fileID)) with (orgID +:+ String "/" ("invoice_file/" +:+ fileID)).
  rewrite segment_slash by (by apply name_not_slash). by rewrite decide_False.
Qed.
Lemma match_file orgID fileID : path_name orgID -> path_name fileID ->
  mux.Match false "/api/billing/{id}/invoice_file/{file_id}" (link_path orgID fileID) = Some (<["file_id" := fileID]> {["id" := orgID]}).
Proof.
  intros Ho [Hf Hfne _]. rewrite (match_billing _ [mux.TLit "/invoice_file/"; mux.TVar "file_id"; mux.TLit EmptyString]) by (done || vm_compute; reflexivity).
  cbn [mux.match_items]. 
  replace (strings.HasPrefix ("/invoice_file/" +:+ fileID) "/invoice_file/") with true by (symmetry; apply strings.prefix_app). cbn [String.length].
  change (strings.drop 14 ("/invoice_file/" +:+ fileID)) with fileID. rewrite segment_last by (by apply name_not_slash). by rewrite decide_False.
Qed.

Lemma follow_link orgID fileID : strings.all sent_as_it_is orgID = true -> strings.all sent_as_it_is fileID = true ->
  exists r, follow (invoiceFileURL hmac_sha256 HMACSecret orgID fileID) = Some r /\
  http.Method r = "GET" /\ http.Path r = link_path orgID fileID /\
  http.Query r = [("mac", base64.EncodeToString (generateInvoiceMAC hmac_sha256 HMACSecret orgID fileID))].
Proof.
  intros Ho Hf. unfold follow. set (mac := base64.EncodeToString _).
  assert (Hlink : invoiceFileURL hmac_sha256 HMACSecret orgID fileID = link_path orgID fileID +:+ String "?" ("mac=" +:+ url.QueryEscape mac))
    by (unfold link_path; rewrite !string_app_assoc; reflexivity).
  assert (Hpath : strings.all sent_as_it_is (link_path orgID fileID) = true) by (unfold link_path; by rewrite !query.all_app, Ho, Hf).
  assert (Hno : strings.cut "#"%char (link_path orgID fileID +:+ String "?" ("mac=" +:+ url.QueryEscape mac)) = None).
  { apply cut_none. rewrite query.all_app, sent_without by done. cbn [strings.all andb negb]. change (strings.all ?p ("mac=" +:+ ?t)) with (strings.all p t).
    apply query.plain_not; [do 4 right; by left|apply query.QueryEscape_plain]. }
  rewrite Hlink, Hno. cbn [default from_option id]. rewrite strings.cut_app by (by apply sent_without). cbn [default from_option id].
  rewrite PathUnescape_same by (by apply sent_without). eexists. split; [reflexivity|]. split; [done|]. split; [done|]. apply (query.ParseQuery_one "mac"); done.
Qed.

Lemma ServeInvoice_run orgID fileID mac r (s : state) : var "id" r = orgID -> var "file_id" r = fileID -> fileID <> EmptyString ->
  http.values_get (http.Query r) "mac" = mac -> base64.DecodeString mac = Some (generateInvoiceMAC hmac_sha256 HMACSecret orgID fileID) ->
  ServeInvoice hmac_sha256 HMACSecret r s = (do file <- on_zuora (zuora.CallServeFile fileID); ret (AnswerRaw file)) s.
Proof.
  intros Hid Hfile Hne Hmac Hdec. unfold ServeInvoice. rewrite Hid, Hfile, Hmac, Hdec. rewrite decide_False by done.
  unfold checkInvoiceMAC. by rewrite bool_decide_true.
Qed.

Variable CORSAllowOrigin : string.
Lemma route_skip e l mismatch r (s : state) : mux.Match false e.1.2 (http.Path r) = None ->
  route CORSAllowOrigin (e :: l) mismatch r s = route CORSAllowOrigin l mismatch r s.
Proof. destruct e as [[method path] handler]. cbn [route fst snd]. by intros ->. Qed.
Lemma route_take method path handler l mismatch vars r (s : state) : mux.Match false path (http.Path r) = Some vars -> http.Method r = method ->
  route CORSAllowOrigin ((method, path, handler) :: l) mismatch r s = corsHandler CORSAllowOrigin handler (http.set_vars vars r) s.
Proof. intros Hm Hmethod. cbn [route]. rewrite Hm. by rewrite decide_True. Qed.

Variable decode_createAccount : string -> string + createAccountRequest.
Variable decode_account : string -> string + zuora.Account.
Variable cfg_AdminURL : string.
Variable fuel : nat.

(** The routes before the one of the files do not take the path. *)
Lemma link_not_healthcheck orgID fileID : path_name orgID -> link_path orgID fileID <> "/api/billing/healthcheck".
Proof.
  intros [Ho _ _] He. apply (f_equal (strings.drop 13)) in He. change (strings.drop 13 (link_path orgID fileID)) with (orgID +:+ String "/" ("invoice_file/" +:+ fileID)) in He.
  change (strings.drop 13 "/api/billing/healthcheck") with "healthcheck" in He. apply (f_equal mux.segment) in He.
  rewrite segment_slash in He by (by apply name_not_slash). by vm_compute in He.
Qed.
Lemma match_other tpl what items orgID fileID : path_name orgID -> mux.parse tpl = mux.TLit "/api/billing/" :: mux.TVar "id" :: mux.TLit what :: items ->
  strings.HasPrefix ("/invoice_file/" +:+ fileID) what = false -> mux.Match false tpl (link_path orgID fileID) = None.
Proof. intros Ho Hp Hw. rewrite (match_billing _ (mux.TLit what :: items)) by done. cbn [mux.match_items]. by rewrite Hw. Qed.

Lemma route_to_file orgID fileID r (s : state) : path_name orgID -> path_name fileID -> http.Method r = "GET" -> http.Path r = link_path orgID fileID ->
  ServeHTTP decode_createAccount decode_account hmac_sha256 HMACSecret CORSAllowOrigin cfg_AdminURL fuel r s
  = corsHandler CORSAllowOrigin (plain (ServeInvoice hmac_sha256 HMACSecret)) (http.set_vars (<["file_id" := fileID]> {["id" := orgID]}) r) s.
Proof.
  intros Ho Hf Hm Hp. unfold ServeHTTP. rewrite Hp, link_path_clean by done. cbv zeta. rewrite decide_False by (intros Hne; by apply Hne).
  unfold RegisterRoutes.
  do 4 (rewrite route_skip; [|rewrite Hp; cbn [fst snd]; apply match_literal; [vm_compute; reflexivity|discriminate]]).
  rewrite route_skip by (rewrite Hp; cbn [fst snd]; apply match_literal; [vm_compute; reflexivity|by apply link_not_healthcheck]).
  do 6 (rewrite route_skip; [|by rewrite Hp; cbn [fst snd]; eapply match_other]).
  apply route_take; [rewrite Hp; by apply match_file|done].
Qed.

(** A file in a folder: no route takes the path. *)
Lemma folder_clean orgID folder fileID : path_name orgID -> path_name folder -> path_name fileID ->
  cleanPath (link_path orgID (folder +:+ "/" +:+ fileID)) = link_path orgID (folder +:+ "/" +:+ fileID).
Proof.
  intros [Ho Hone [Ho1 Ho2]] [Hd Hdne [Hd1 Hd2]] [Hf Hfne [Hf1 Hf2]]. unfold cleanPath. rewrite decide_False by done. set (p := link_path _ _).
  assert (Hclean : filepath.Clean p = p).
  { unfold p, filepath.Clean, strings.Split. change (link_path orgID (folder +:+ "/" +:+ fileID)) with
      (EmptyString +:+ String "/" ("api" +:+ String "/" ("billing" +:+ String "/" (orgID +:+ String "/" ("invoice_file" +:+ String "/" (folder +:+ String "/" fileID)))))).
    rewrite !split_slash by (done || by apply name_not_slash). rewrite query.split_none by (by apply name_not_slash).
    change (EmptyString +:+ ?x) with x. cbn [foldl].
    change (filepath.push [] EmptyString) with (@nil string). rewrite !push_name by done. reflexivity. }
  cbv zeta. rewrite Hclean. unfold p at 1, link_path. rewrite <- !string_app_assoc, no_trailing_slash by (done || by apply name_not_slash). done.
Qed.
Lemma match_folder orgID folder fileID : path_name orgID -> path_name folder ->
  mux.Match false "/api/billing/{id}/invoice_file/{file_id}" (link_path orgID (folder +:+ "/" +:+ fileID)) = None.
Proof.
  intros Ho [Hd Hdne _]. rewrite (match_billing _ [mux.TLit "/invoice_file/"; mux.TVar "file_id"; mux.TLit EmptyString]) by (done || vm_compute; reflexivity).
  cbn [mux.match_items]. set (rest := folder +:+ "/" +:+ fileID).
  replace (strings.HasPrefix ("/invoice_file/" +:+ rest) "/invoice_file/") with true by (symmetry; apply strings.prefix_app). cbn [String.length].
  change (strings.drop 14 ("/invoice_file/" +:+ rest)) with rest. unfold rest. change ("/" +:+ fileID) with (String "/" fileID).
  rewrite segment_slash by (by apply name_not_slash). by rewrite decide_False.
Qed.
Lemma route_to_folder orgID folder fileID r (s : state) : path_name orgID -> path_name folder -> path_name fileID ->
  http.Method r = "GET" -> http.Path r = link_path orgID (folder +:+ "/" +:+ fileID) ->
  ServeHTTP decode_createAccount decode_account hmac_sha256 HMACSecret CORSAllowOrigin cfg_AdminURL fuel r s
  = (Ret (mkRouted ∅ (Plain (AnswerRaw (http.Error "404 page not found" 404)))), s).
Proof.
  intros Ho Hd Hf Hm Hp. unfold ServeHTTP. rewrite Hp, folder_clean by done. cbv zeta. rewrite decide_False by (intros Hne; by apply Hne).
  unfold RegisterRoutes.
  do 4 (rewrite route_skip; [|rewrite Hp; cbn [fst snd]; apply match_literal; [vm_compute; reflexivity|discriminate]]).
  rewrite route_skip by (rewrite Hp; cbn [fst snd]; apply match_literal; [vm_compute; reflexivity|by apply link_not_healthcheck]).
  do 6 (rewrite route_skip; [|by rewrite Hp; cbn [fst snd]; eapply match_other]).
  rewrite route_skip by (rewrite Hp; cbn [fst snd]; by apply match_folder).
  do 4 (rewrite route_skip; [|by rewrite Hp; cbn [fst snd]; eapply match_other]). done.
Qed.
End invoices.

(** C31: a link to a file of an invoice that the API hands out leads to that file when the identifiers of the organization and of the
    file are names of letters, digits, hyphens, underscores, periods and tildes: a request for the link passes the router, its
    signature is accepted, and what Zuora answers is served. A file in a folder gets a link as well, but the router has no route
    for it and answers with 404. *)
Theorem invoice_link_served {W L C} `{UsersService W} `{LedgerImpl L} `{zuora.ClientImpl C} `{GroupOrder}
    decode_createAccount decode_account hmac_sha256 HMACSecret CORSAllowOrigin cfg_AdminURL fuel
    prefix orgID fileID (s s' : Billing W L C) file :
  path_name orgID -> path_name fileID -> on_zuora (zuora.CallServeFile fileID) s = (Ret file, s') ->
  (forall link, convertFileURL hmac_sha256 HMACSecret prefix orgID (prefix +:+ fileID) = inr link -> exists r, follow link = Some r /\
     ServeHTTP decode_createAccount decode_account hmac_sha256 HMACSecret CORSAllowOrigin cfg_AdminURL fuel r s
     = (Ret (mkRouted (cors_headers CORSAllowOrigin) (Plain (AnswerRaw file))), s')) /\
  (forall folder, path_name folder -> exists link r,
     convertFileURL hmac_sha256 HMACSecret prefix orgID (prefix +:+ folder +:+ "/" +:+ fileID) = inr link /\ follow link = Some r /\
     ServeHTTP decode_createAccount decode_account hmac_sha256 HMACSecret CORSAllowOrigin cfg_AdminURL fuel r s
     = (Ret (mkRouted ∅ (Plain (AnswerRaw (http.Error "404 page not found" 404)))), s)).
Proof.
  intros Ho Hf Hserve. split.
  - intros link Hlink. apply convertFileURL_run in Hlink as (fileID' & He & ->). apply (inj (String.append prefix)) in He as <-.
    destruct (follow_link hmac_sha256 HMACSecret orgID fileID (name_sent _ (name_chars _ Ho)) (name_sent _ (name_chars _ Hf))) as (r & Hr & Hm & Hp & Hq).
    exists r. split; [done|]. rewrite (route_to_file hmac_sha256 HMACSecret CORSAllowOrigin _ _ _ _ orgID fileID r s Ho Hf Hm Hp). unfold corsHandler.
    change (http.Method (http.set_vars _ r)) with (http.Method r). rewrite Hm, decide_False by done. unfold plain, bind.
    rewrite (ServeInvoice_run hmac_sha256 HMACSecret orgID fileID (base64.EncodeToString (generateInvoiceMAC hmac_sha256 HMACSecret orgID fileID))).
    + unfold bind. by rewrite Hserve.
    + unfold var. cbn [http.Vars http.set_vars]. by rewrite lookup_insert_ne, lookup_singleton_eq.
    + unfold var. cbn [http.Vars http.set_vars]. by rewrite lookup_insert_eq.
    + by destruct Hf.
    + cbn [http.Query http.set_vars]. rewrite Hq. unfold http.values_get. cbn [List.find]. by rewrite bool_decide_true.
    + apply base64.DecodeString_EncodeToString.
  - intros folder Hd. set (fid := folder +:+ "/" +:+ fileID).
    assert (Hfid : strings.all sent_as_it_is fid = true) by (unfold fid; by rewrite !query.all_app, (name_sent folder (name_chars _ Hd)), (name_sent fileID (name_chars _ Hf))).
    destruct (follow_link hmac_sha256 HMACSecret orgID fid (name_sent _ (name_chars _ Ho)) Hfid) as (r & Hr & Hm & Hp & Hq).
    destruct (convertFileURL hmac_sha256 HMACSecret prefix orgID (prefix +:+ fid)) as [e|link] eqn:Hlink.
    { unfold convertFileURL, extractFileID, strings.HasPrefix in Hlink. by rewrite strings.prefix_app in Hlink. }
    apply convertFileURL_run in Hlink as (fileID' & He & ->). apply (inj (String.append prefix)) in He as <-. eexists _, r. split; [reflexivity|]. split; [done|]. by apply (route_to_folder _ _ _ _ _ _ _ orgID folder fileID).
Qed.

(** A file of an invoice is only asked of Zuora for a request that carries the signature of that
    file for the organization of its path; any other request is refused with nothing changed. *)
Theorem ServeInvoice_signed {W L C} `{UsersService W} `{LedgerImpl L} `{zuora.ClientImpl C} hmac_sha256 HMACSecret (r : http.Request) (s : Billing W L C) :
  let fileID := var "file_id" r in
  (base64.DecodeString (http.values_get (http.Query r) "mac") = Some (hmac_sha256 HMACSecret (var "id" r +:+ "/" +:+ fileID)) /\ fileID <> EmptyString /\
   ServeInvoice hmac_sha256 HMACSecret r s = (do file <- on_zuora (zuora.CallServeFile fileID); ret (AnswerRaw file)) s)
  \/ (exists text code, (code = 400 \/ code = 401) /\ ServeInvoice hmac_sha256 HMACSecret r s = (Ret (AnswerRaw (http.Error text code)), s)).
Proof.
  cbv zeta. unfold ServeInvoice. destruct (decide (var "file_id" r = EmptyString)) as [He|He].
  { right. eexists _, 400. by split; [left|]. }
  destruct (base64.DecodeString _) as [bytes|] eqn:E; [|right; eexists _, 400; by split; [left|]].
  unfold checkInvoiceMAC. case_bool_decide as Hb; cbn [negb]; [|right; eexists _, 401; by split; [right|]].
  left. by rewrite Hb.
Qed.

(** An address Zuora gives is one of its files. *)
Definition file_address (prefix address : string) : Prop := strings.HasPrefix address prefix = true.
Definition zuora_addresses (prefix : string) (i : zuora.Invoice) : Prop :=
  (zuora.iv_Body i <> EmptyString -> file_address prefix (zuora.iv_Body i)) /\
  (forall f, In f (zuora.iv_InvoiceFiles i) -> zuora.if_PdfFileURL f <> EmptyString -> file_address prefix (zuora.if_PdfFileURL f)).

Lemma mangle_files_total hmac secret prefix orgID l :
  (forall f, In f l -> zuora.if_PdfFileURL f <> EmptyString -> file_address prefix (zuora.if_PdfFileURL f)) ->
  exists files, mangle_files hmac secret prefix orgID l = inr files.
Proof.
  induction l as [|f l IH]; cbn [mangle_files]; intros Hl; [by eexists|].
  destruct IH as [files ->]; [intros g Hg; apply Hl; by right|]. destruct (decide _) as [He|He]; [by eexists|].
  specialize (Hl f ltac:(by left) He). unfold convertFileURL, extractFileID. rewrite Hl. by eexists.
Qed.
Lemma mangleInvoice_total hmac secret prefix orgID i : zuora_addresses prefix i -> exists j, mangleInvoice hmac secret prefix orgID i = inr j.
Proof.
  intros [Hb Hf]. unfold mangleInvoice. destruct (decide _) as [He|He].
  - destruct (mangle_files_total hmac secret prefix orgID _ Hf) as [files ->]. by eexists.
  - specialize (Hb He). unfold convertFileURL at 1, extractFileID. rewrite Hb. cbn [zuora.iv_InvoiceFiles set_Body].
    destruct (mangle_files_total hmac secret prefix orgID _ Hf) as [files ->]. by eexists.
Qed.
Lemma posted_invoices_total hmac secret prefix orgID l :
  (forall i, In i l -> zuora.iv_Status i = InvoiceStatusPosted -> zuora_addresses prefix i) -> exists posted, posted_invoices hmac secret prefix orgID l = inr posted.
Proof.
  induction l as [|i l IH]; cbn [posted_invoices]; intros Hl; [by eexists|].
  destruct IH as [posted ->]; [intros j Hj; apply Hl; by right|]. destruct (decide _) as [He|He]; [by eexists|].
  destruct (mangleInvoice_total hmac secret prefix orgID i) as [j ->]; [|by eexists]. apply Hl; [by left|by apply dec_stable].
Qed.

(** What a user sees of the invoices Zuora answers with. *)
Definition invoices_shown hmac secret (prefix orgID : string) (l : list zuora.Invoice) (a : Answer) : Prop :=
  (exists posted, a = AnswerJSON 200 (ContentInvoices posted) /\
     Forall2 (shown_invoice hmac secret prefix orgID) (List.filter (fun i => bool_decide (zuora.iv_Status i = InvoiceStatusPosted)) l) posted)
  \/ a = InternalServerError /\ ~ (forall i, In i l -> zuora.iv_Status i = InvoiceStatusPosted -> zuora_addresses prefix i).

(** C32: a user is shown the invoices of the organization in the path, of its own account at Zuora:
    those that are posted, in their order, with their files behind links of this API that are signed for the
    organization; no account means no invoices; any other failure of Zuora, or an address that is not
    one of its files, is an internal error. *)
Theorem GetAccountInvoices_spec {W L C} `{UsersService W} `{LedgerImpl L} `{zuora.ClientImpl C} hmac_sha256 HMACSecret (r : http.Request) (s : Billing W L C) :
  let id := var "id" r in
  match on_users (AskGetOrganization (RefExternalID id)) s with
  | (Ret org, s1) =>
      match on_zuora (zuora.CallGetInvoices (o_ZuoraAccountNumber org) (FormValue "page" r) (FormValue "pageSize" r)) s1 with
      | (Ret l, s2) =>
          exists a, GetAccountInvoices hmac_sha256 HMACSecret r s = (Ret a, s2) /\
            invoices_shown hmac_sha256 HMACSecret (zuora.client_URL (b_zuora s2) "files/") id l a
      | (Err err, s2) =>
          GetAccountInvoices hmac_sha256 HMACSecret r s
          = (Ret (match err with
                  | ZuoraErr zuora.ErrNotFound | ZuoraErr zuora.ErrInvalidAccountNumber => AnswerJSON 200 (ContentInvoices [])
                  | _ => InternalServerError
                  end), s2)
      | (_, s2) => (GetAccountInvoices hmac_sha256 HMACSecret r s).2 = s2
      end
  | (Err err, s1) => GetAccountInvoices hmac_sha256 HMACSecret r s = (Ret (renderError err), s1)
  | (_, s1) => (GetAccountInvoices hmac_sha256 HMACSecret r s).2 = s1
  end.
Proof.
  cbv zeta. destruct (on_users (AskGetOrganization (RefExternalID (var "id" r))) s) as [o s1] eqn:E1.
  destruct o as [org|err| | |]; try (unfold GetAccountInvoices, getOrganization, bind, try; by rewrite E1).
  destruct (on_zuora _ s1) as [o2 s2] eqn:E2.
  destruct o2 as [l|err| | |]; unfold GetAccountInvoices, getOrganization, bind, try, gets; rewrite E1, E2; try done.
  - eexists. split; [done|]. set (prefix := zuora.client_URL (b_zuora s2) "files/").
    destruct (posted_invoices hmac_sha256 HMACSecret prefix (var "id" r) l) as [err|posted] eqn:Ep.
    + right. split; [done|]. intros Hall. destruct (posted_invoices_total hmac_sha256 HMACSecret prefix (var "id" r) l Hall) as [posted Hp]. congruence.
    + left. exists posted. split; [done|]. by apply posted_invoices_run.
  - destruct err as [| |[] |]; reflexivity.
Qed.

(** * Sums of usage *)

(** The sum of the values of a map. *)
Definition total {K} `{Countable K} (m : gmap K Z) : Z := map_fold (fun _ v n => v + n) 0 m.

Lemma total_insert {K} `{Countable K} (m : gmap K Z) k v : total (<[k := v]> m) = total m - default 0 (m !! k) + v.
Proof.
  unfold total. rewrite <- (insert_delete_eq m). rewrite map_fold_insert_L by (try (intros; lia); apply lookup_delete_eq).
  destruct (m !! k) as [w|] eqn:E; cbn [default from_option id].
  - rewrite (map_fold_delete_L _ _ k w m) by (done || intros; lia). lia.
  - rewrite delete_id by done. lia.
Qed.
Lemma total_add_to {K} `{Countable K} (m : gmap K Z) k n : i64_wrap (total (add_to m k n)) = i64_wrap (total m + n).
Proof.
  unfold add_to. rewrite total_insert. rewrite (Z.add_comm (total m - _)), i64_wrap_add. f_equal. lia.
Qed.

(** Node-seconds. *)
Definition counted (aggs : list Aggregate) : list Aggregate := List.filter (fun a => bool_decide (a_AmountType a = zuora.UsageNodeSeconds)) aggs.
Definition day_of (a : Aggregate) : string := FormatDate dayTimeLayout (a_BucketStart a).

Lemma sum_step_counted acc aggs : foldl sum_step acc aggs = foldl sum_step acc (counted aggs).
Proof.
  revert acc. induction aggs as [|a aggs IH]; intros acc; cbn [counted List.filter foldl]; [done|]. rewrite IH.
  case_bool_decide as Ht; [done|]. f_equal. destruct acc as [[sum hourly] daily]. unfold sum_step. by rewrite decide_False.
Qed.
Lemma sum_step_run l sum hourly daily : Forall (fun a => a_AmountType a = zuora.UsageNodeSeconds) l ->
  foldl sum_step (sum, hourly, daily) l =
  (foldl (fun n a => i64_wrap (n + a_AmountValue a)) sum l, foldl (fun m a => add_to m (a_BucketStart a : Z) (a_AmountValue a)) hourly l,
   foldl (fun m a => add_to m (day_of a) (a_AmountValue a)) daily l).
Proof.
  intros Hl. revert sum hourly daily. induction Hl as [|a l Ha _ IH]; intros sum hourly daily; cbn [foldl]; [done|].
  unfold sum_step at 2. rewrite decide_True by done. apply IH.
Qed.
Lemma total_groups {K} `{Countable K} (f : Aggregate -> K) l m sum : i64_wrap (total m) = i64_wrap sum ->
  i64_wrap (total (foldl (fun m a => add_to m (f a) (a_AmountValue a)) m l)) = i64_wrap (foldl (fun n a => i64_wrap (n + a_AmountValue a)) sum l).
Proof.
  revert m sum. induction l as [|a l IH]; intros m sum Hm; cbn [foldl]; [done|]. apply IH. rewrite total_add_to, i64_wrap_idemp.
  by rewrite <- i64_wrap_add, Hm, i64_wrap_add.
Qed.
Lemma sum_run l sum : foldl (fun n a => i64_wrap (n + a_AmountValue a)) (i64_wrap sum) l = i64_wrap (sum + usage (fun _ => True) l).
Proof.
  revert sum. induction l as [|a l IH]; intros sum; cbn [foldl]; [by rewrite Z.add_0_r|]. rewrite i64_wrap_add, IH. f_equal. unfold usage. simpl. lia.
Qed.

Lemma usage_counted (P : Aggregate -> Prop) `{forall a, Decision (P a)} aggs :
  usage P (counted aggs) = usage (fun a => a_AmountType a = zuora.UsageNodeSeconds /\ P a) aggs.
Proof.
  induction aggs as [|a l IH]; [done|]. cbn [counted List.filter]. unfold usage in *. cbn [foldr]. rewrite <- IH. clear IH.
  case_bool_decide as Ht; cbn [foldr]; repeat case_decide; tauto || lia.
Qed.

(** The usage an account is shown counts every record of node-seconds once and nothing else: the sum that is priced, the
    usage of each hour and the usage of each day are those of the records, and the days and the
    hours each add up to the sum, in 64 bits. *)
Theorem sumAndFilterAggregates_spec aggs :
  let '(sum, hourly, daily) := sumAndFilterAggregates aggs in
  sum = i64_wrap (usage (fun a => a_AmountType a = zuora.UsageNodeSeconds) aggs) /\
  (forall h, default 0 (hourly !! h) = i64_wrap (usage (fun a => a_AmountType a = zuora.UsageNodeSeconds /\ a_BucketStart a = h) aggs)) /\
  (forall d, default 0 (daily !! d) = i64_wrap (usage (fun a => a_AmountType a = zuora.UsageNodeSeconds /\ day_of a = d) aggs)) /\
  i64_wrap (total hourly) = sum /\ i64_wrap (total daily) = sum.
Proof.
  unfold sumAndFilterAggregates. rewrite sum_step_counted.
  assert (Hall : Forall (fun a => a_AmountType a = zuora.UsageNodeSeconds) (counted aggs)).
  { apply List.Forall_forall. intros a Ha. apply List.filter_In in Ha as [_ Ha]. by apply bool_decide_eq_true in Ha. }
  rewrite sum_step_run by done.
  assert (Hsum : foldl (fun n a => i64_wrap (n + a_AmountValue a)) 0 (counted aggs) = i64_wrap (usage (fun a => a_AmountType a = zuora.UsageNodeSeconds) aggs)).
  { change 0 with (i64_wrap 0). rewrite sum_run. f_equal. rewrite (usage_counted (fun _ => True)). apply usage_ext. intros; tauto. }
  split; [done|]. split; [intros h; etransitivity; [apply (sum_by_lookup (fun a => a_BucketStart a : Z))|]; f_equal; rewrite usage_counted; apply usage_ext; intros; tauto|].
  split; [intros d; etransitivity; [apply (sum_by_lookup day_of)|]; f_equal; rewrite usage_counted; apply usage_ext; intros; tauto|].
  split; rewrite total_groups with (sum := 0) by done; rewrite Hsum; apply i64_wrap_idemp.
Qed.

(** * The status of an instance *)

(** The status of an instance that other services ask for: the organization is found or its error is returned; a trial
    that goes on decides; after it the account does, and when it cannot be read, for whatever
    reason, the instance counts as one whose trial has expired. *)
Theorem GetInstanceBillingStatus_spec {W L C} `{UsersService W} `{LedgerImpl L} `{zuora.ClientImpl C} internalID (s : Billing W L C) :
  match on_users (AskGetOrganization (RefInternalID internalID)) s with
  | (Ret org, s1) =>
      let now := b_clock s1 (b_ticks s1) in
      let remaining := trial.t_Remaining (trial.Info (o_TrialExpiresAt org) (o_CreatedAt org) now) in
      let s2 := (billing_Now s1).2 in
      match on_zuora (zuora.CallGetAccount (o_ZuoraAccountNumber org)) s2 with
      | (Ret acct, s3) =>
          exists st, GetInstanceBillingStatus internalID s = (Ret st, s3) /\
            (st = TRIAL_ACTIVE <-> 0 < remaining) /\ st <> TRIAL_EXPIRED /\
            (st = ACTIVE <-> remaining <= 0 /\ zuora.ac_SubscriptionStatus acct = zuora.SubscriptionActive /\
                             zuora.ps_Status (zuora.ac_PaymentStatus acct) = zuora.PaymentOK)
      | (Err _, s3) => GetInstanceBillingStatus internalID s = (Ret (if 0 <? remaining then TRIAL_ACTIVE else TRIAL_EXPIRED), s3)
      | (Panic, s3) | (Deadlock, s3) | (OutOfFuel, s3) => (GetInstanceBillingStatus internalID s).2 = s3
      end
  | (Err err, s1) => GetInstanceBillingStatus internalID s = (Err err, s1)
  | (Panic, s1) | (Deadlock, s1) | (OutOfFuel, s1) => (GetInstanceBillingStatus internalID s).2 = s1
  end.
Proof.
  destruct (on_users (AskGetOrganization (RefInternalID internalID)) s) as [o s1] eqn:E1. destruct o as [org|err| | |];
    try (unfold GetInstanceBillingStatus, bind; by rewrite E1).
  cbv zeta. destruct (on_zuora (zuora.CallGetAccount (o_ZuoraAccountNumber org)) (billing_Now s1).2) as [o2 s3] eqn:E2.
  destruct o2 as [acct|err| | |]; unfold GetInstanceBillingStatus, bind, try; rewrite E1; cbn [billing_Now snd] in E2 |- *; rewrite E2; try done.
  - eexists. split; [done|]. cbv zeta. unfold GetBillingStatus.
    destruct (Z.ltb_spec 0 (trial.t_Remaining (trial.Info (o_TrialExpiresAt org) (o_CreatedAt org) (b_clock s1 (b_ticks s1))))) as [Hr|Hr]; cbn [fst].
    { split; [by split|]. split; [discriminate|]. split; [discriminate|]. intros [Hle _]. lia. }
    repeat case_decide; cbn [fst]; (split; [split; [discriminate|lia]|]); (split; [discriminate|]); split; try discriminate; try tauto.
  - cbv zeta. unfold GetBillingStatus. by destruct (_ <? _).
Qed.

(** * A small instance *)

Module sample_billing.

(** Users: "admin" may change the billing of any organization, and every organization is the sample. *)
#[export] Instance users : UsersService unit := fun A c =>
  match c in UsersCall A return M unit error A with
  | AskGetOrganization _ => ret sample_org
  | AskRequireOrgMemberPermissionTo _ userID _ => if decide (userID = "admin") then ret tt else throw (GRPCError 403 "forbidden")
  | AskSetOrganizationZuoraAccount _ _ | AskSetOrganizationFlag _ _ _ | AskInformOrganizationBillingConfigured _ => ret tt
  | AskGetSummary => ret []
  | AskGetOrganizations _ _ _ => ret [sample_org]
  end.

(** A billing service that keeps the accounts that were changed, and serves any file. *)
#[export] Instance client : zuora.ClientImpl (list string) := {|
  zuora.client_call := fun A c =>
    match c in zuora.ClientCall A return M (list string) zuora.zerror A with
    | zuora.CallCreateAccount orgID _ _ _ _ _ => modify (cons orgID) ;;; throw zuora.ErrNotFound
    | zuora.CallUpdateAccount number _ _ => modify (cons number) ;;; throw zuora.ErrNotFound
    | zuora.CallUpdatePaymentMethod id => modify (cons id)
    | zuora.CallServeFile fileID => ret (http.mkResponse 200 ∅ ("file " +:+ fileID))
    | _ => throw zuora.ErrNotFound
    end;
  zuora.GetConfig := fun _ => zuora.mkConfig "" "" "https://zuora/" "" "" "" "" "" "" "" "" "" "";
  zuora.client_StatusURL := fun _ id => id;
  zuora.client_URL := fun _ path => "https://zuora/" +:+ path |}.
#[export] Instance db : LedgerImpl unit := fun A c => throw (ErrMsg "no database").

Definition state : Billing unit unit (list string) := mkBilling tt tt [] None (fun _ => 0) 0.
Definition request (method path userID body : string) : http.Request :=
  http.mkRequest method EmptyString path path [] EmptyString path {["X-Scope-UserID" := [userID]]} [] None ∅ None [] EmptyString (inr body).
Definition mac (key message : string) : string := message +:+ key.
Definition decode_createAccount (body : string) : string + createAccountRequest := inr (mkCreateAccount body "USD" zuora.zero_contact "card" "plan").
Definition decode_account (body : string) : string + zuora.Account :=
  inr (zuora.mkAccount body body body body (zuora.mkPaymentStatus body body body) None zuora.zero_contact 1).
Definition serve : http.Request -> M (Billing unit unit (list string)) berror Routed :=
  @ServeHTTP _ _ _ users db client list_groups decode_createAccount decode_account mac "key" "*" "/admin" 10.

End sample_billing.
Import sample_billing.

(** The administrator changes a payment method, another user does not. *)
Lemma billing_changes_need_permission_witness :
  b_zuora (serve (request "POST" "/api/billing/foo/payment/card-1" "admin" "") state).2 = ["card-1"] /\
  b_zuora (serve (request "POST" "/api/billing/foo/payment/card-1" "mallory" "") state).2 = [].
Proof.
  split; [vm_compute; reflexivity|].
  destruct (@billing_changes_need_permission unit unit (list string) users db client list_groups (fun c => c = []) (fun _ => True)
    decode_createAccount decode_account mac "key" "*" "/admin" 10 (request "POST" "/api/billing/foo/payment/card-1" "mallory" "") state) as [Hz _].
  - intros A c Hc s ->. by destruct c.
  - intros A c _ s _. exact I.
  - vm_compute. reflexivity.
  - reflexivity.
  - exact I.
  - exact Hz.
Defined.

Lemma invoice_link_served_witness :
  (exists r, follow "/api/billing/foo-bar-01/invoice_file/8f0d?mac=Zm9vLWJhci0wMS84ZjBka2V5" = Some r /\
     serve r state = (Ret (mkRouted (cors_headers "*") (Plain (AnswerRaw (http.mkResponse 200 ∅ "file 8f0d")))), state)) /\
  (exists link r, convertFileURL mac "key" "https://zuora/" "foo-bar-01" "https://zuora/files/8f0d" = inr link /\ follow link = Some r /\
     serve r state = (Ret (mkRouted ∅ (Plain (AnswerRaw (http.Error "404 page not found" 404)))), state)).
Proof.
  assert (Hname : forall n, In n ["foo-bar-01"; "8f0d"; "files"] -> path_name n).
  { intros n [<-|[<-|[<-|[]]]]; (split; [vm_compute; reflexivity|discriminate|split; discriminate]). }
  assert (Hserve : on_zuora (zuora.CallServeFile "8f0d") state = (Ret (http.mkResponse 200 ∅ "file 8f0d"), state)) by (vm_compute; reflexivity).
  split.
  - destruct (@invoice_link_served unit unit (list string) users db client list_groups decode_createAccount decode_account mac "key" "*" "/admin" 10
      "https://zuora/files/" "foo-bar-01" "8f0d" state state _ (Hname "foo-bar-01" ltac:(cbn; tauto)) (Hname "8f0d" ltac:(cbn; tauto)) Hserve) as [Hlink _]. apply Hlink. vm_compute. reflexivity.
  - destruct (@invoice_link_served unit unit (list string) users db client list_groups decode_createAccount decode_account mac "key" "*" "/admin" 10
      "https://zuora/" "foo-bar-01" "8f0d" state state _ (Hname "foo-bar-01" ltac:(cbn; tauto)) (Hname "8f0d" ltac:(cbn; tauto)) Hserve) as [_ Hfolder].
    apply (Hfolder "files" (Hname "files" ltac:(cbn; tauto))).
Defined.
