(* ===== verification/BillingVerify.v ===== *)
(** The verification of invoices (billing-api/routes/invoice_verify.go), and the estimate of a
    month's usage (routes/accounts.go). *)
From Stdlib Require Import ZArith Lia Ascii String SpecFloat.
From stdpp Require Import base tactics option gmap strings list pretty.
From S2P Require Import Prelude GoStd Users UsersDB Sessions UsersServer UsersClient Calendar Duration Trial Formats Http Encoding Api Ledger LedgerSpec Zuora Report UploaderSpec BillingApi BillingAdmin BillingApiSpec.

Lemma or_else_inv {S E A} (p : option A) (e : E) (s s' : S) a : or_else p e s = (Ret a, s') -> p = Some a /\ s' = s.
Proof. destruct p; cbn; [|done]. by intros [= -> ->]. Qed.
Lemma verifying_inv {W L C A} prefix (m : M (Billing W L C) berror A) s a s' : verifying prefix m s = (Ret a, s') -> m s = (Ret a, s').
Proof. unfold verifying. by destruct (m s) as [[] s1]; intros [= <- <-]. Qed.

(** The billable usage that Zuora has processed for some days, as it is summed. *)
Definition counts (startTs endTs : time.Time) (u : zuora.Usage) : bool :=
  bool_decide (zuora.us_Status u = "Processed") && bool_decide (zuora.us_UnitType u = zuora.UsageNodeSeconds) &&
  match ParseDateTime (zuora.us_StartDate u) with Some t => common_time.InTimeRange startTs endTs t | None => false end.
Definition processed_usage (startTs endTs : time.Time) (usages : list zuora.Usage) : spec_float :=
  foldl (fun q u => float64.add q (zuora.us_Quantity u)) (S754_zero false) (List.filter (counts startTs endTs) usages).
(** The items that are looked at. *)
Definition billed (invoices : list zuora.Invoice) : list zuora.InvoiceItem :=
  List.filter (fun i => bool_decide (zuora.iv_Status i = "Posted") || bool_decide (zuora.iv_Status i = "Draft")) invoices ≫= zuora.iv_InvoiceItems.
(** Usage in the order of Zuora, newest first. *)
Definition newest_first (usages : list zuora.Usage) : Prop := forall i j u v, i < j -> usages !! Z.to_nat i = Some u -> usages !! Z.to_nat j = Some v -> 0 <= i ->
  exists t t', ParseDateTime (zuora.us_StartDate u) = Some t /\ ParseDateTime (zuora.us_StartDate v) = Some t' /\ t' <= t.

Section verify.
Context {W L C : Type} `{UsersService W} `{LedgerImpl L} `{zuora.ClientImpl C}.
Abbreviation state := (Billing W L C).

(** The pages of usage of an account from one on, read one after the other until one is empty or its last record is from before the
    first day. *)
Inductive usage_pages (number : string) (first : time.Time) : Z -> state -> list zuora.Usage -> state -> Prop :=
  | no_more_usage p s s' : on_zuora (zuora.CallGetUsage number (pretty p) "40") s = (Ret [], s') -> usage_pages number first p s [] s'
  | last_page p s s' u x ts : on_zuora (zuora.CallGetUsage number (pretty p) "40") s = (Ret (u ++ [x]), s') ->
      ParseDateTime (zuora.us_StartDate x) = Some ts -> ts < first -> usage_pages number first p s (u ++ [x]) s'
  | next_page p s s1 s' u x ts usages : on_zuora (zuora.CallGetUsage number (pretty p) "40") s = (Ret (u ++ [x]), s1) ->
      ParseDateTime (zuora.us_StartDate x) = Some ts -> first <= ts -> usage_pages number first (p + 1) s1 usages s' ->
      usage_pages number first p s ((u ++ [x]) ++ usages) s'.

(** An item of an invoice agrees with the usage at Zuora, with the price, and with what the database answers for the days it is for. *)
Definition item_agrees (orgID : string) (price : spec_float) (usages : list zuora.Usage) (item : zuora.InvoiceItem) (s s' : state) : Prop :=
  exists startTs lastDay aggs,
    let endTs := common_time.BeginningOfNextDay lastDay in
    let quantity := processed_usage startTs endTs usages in
    ParseDate (zuora.ii_ServiceStartDate item) = Some startTs /\ ParseDate (zuora.ii_ServiceEndDate item) = Some lastDay /\
    SFeqb quantity (zuora.ii_Quantity item) = true /\
    FloatEqual (zuora.ii_ChargeAmount item) (RoundHalfUp (mul price quantity)) = true /\
    on_db (CallGetAggregates orgID startTs endTs) s = (Ret aggs, s') /\
    SFeqb (float64.of_int (sumAggregates aggs)) quantity = true.
(** All items, one after the other. *)
Inductive items_agree (orgID : string) (price : spec_float) (usages : list zuora.Usage) : list zuora.InvoiceItem -> state -> state -> Prop :=
  | no_items s : items_agree orgID price usages [] s s
  | next_item item l s s1 s' : item_agrees orgID price usages item s s1 -> items_agree orgID price usages l s1 s' -> items_agree orgID price usages (item :: l) s s'.
Lemma items_agree_app orgID price usages l1 l2 s s1 s' : items_agree orgID price usages l1 s s1 -> items_agree orgID price usages l2 s1 s' ->
  items_agree orgID price usages (l1 ++ l2) s s'.
Proof. induction 1; [done|]. intros. econstructor; eauto. Qed.

(** * The loops *)

Lemma use_run startTs endTs q u (s : state) a s' : use startTs endTs q u s = (Ret a, s') ->
  s' = s /\ a = (if counts startTs endTs u then float64.add q (zuora.us_Quantity u) else q).
Proof.
  unfold use, counts, parse_date. intros (t & s1 & Ht & Hrun)%bind_inv_Ret. apply or_else_inv in Ht as [Ht ->]. rewrite Ht.
  case_decide as Hst; [injection Hrun as <- <-; by rewrite bool_decide_false|]. rewrite (bool_decide_true _ Hst).
  case_decide as Hun; [injection Hrun as <- <-; by rewrite bool_decide_false|]. rewrite (bool_decide_true _ Hun).
  cbn. by destruct (common_time.InTimeRange startTs endTs t); injection Hrun as <- <-.
Qed.
Lemma usages_run startTs endTs usages q (s : state) a s' : fold_m (use startTs endTs) usages q s = (Ret a, s') ->
  s' = s /\ a = foldl (fun q u => float64.add q (zuora.us_Quantity u)) q (List.filter (counts startTs endTs) usages).
Proof.
  revert q s. induction usages as [|u usages IH]; intros q s; cbn [fold_m]; [by intros [= -> ->]|].
  intros (q' & s1 & [-> ->]%use_run & [-> ->]%IH)%bind_inv_Ret. split; [done|]. cbn [List.filter]. by destruct (counts startTs endTs u).
Qed.
Lemma verify_item_run orgID price usages invoice item (s s' : state) : verify_item orgID price usages invoice item s = (Ret tt, s') ->
  item_agrees orgID price usages item s s'.
Proof.
  unfold verify_item. intros (startTs & s1 & Hstart & Hrun)%bind_inv_Ret. apply or_else_inv in Hstart as [Hstart ->].
  apply bind_inv_Ret in Hrun as (lastDay & s1 & Hend & Hrun). apply or_else_inv in Hend as [Hend ->]. cbv zeta in Hrun.
  apply bind_inv_Ret in Hrun as (quantity & s1 & [-> ->]%usages_run & Hrun). fold (processed_usage startTs (common_time.BeginningOfNextDay lastDay) usages) in Hrun.
  destruct (SFeqb _ (zuora.ii_Quantity item)) eqn:E1; cbn [negb] in Hrun; [|done].
  destruct (FloatEqual _ _) eqn:E2; cbn [negb] in Hrun; [|done].
  apply bind_inv_Ret in Hrun as (aggs & s2 & Hdb & Hrun). apply verifying_inv in Hdb.
  destruct (SFeqb _ (processed_usage _ _ _)) eqn:E3 in Hrun; cbn [negb] in Hrun; [|done]. injection Hrun as ->. by exists startTs, lastDay, aggs.
Qed.
Lemma items_run orgID price usages invoice l : forall (s s' : state), for_each l (verify_item orgID price usages invoice) s = (Ret tt, s') ->
  items_agree orgID price usages l s s'.
Proof.
  induction l as [|item l IH]; intros s s'; cbn [for_each]; [intros [= ->]; constructor|].
  intros ([] & s1 & Hitem%verify_item_run & Hrest%IH)%bind_inv_Ret. by econstructor.
Qed.
Lemma invoices_run orgID price usages invoices : forall (s s' : state),
  for_each invoices (fun invoice =>
    if bool_decide (zuora.iv_Status invoice = "Posted") || bool_decide (zuora.iv_Status invoice = "Draft")
    then for_each (zuora.iv_InvoiceItems invoice) (verify_item orgID price usages invoice)
    else ret tt) s = (Ret tt, s') -> items_agree orgID price usages (billed invoices) s s'.
Proof.
  unfold billed. induction invoices as [|i invoices IH]; intros s s'; cbn [for_each]; [intros [= ->]; constructor|].
  intros ([] & s1 & Hi & Hrest%IH)%bind_inv_Ret. cbn [List.filter]. destruct (_ || _).
  - apply items_run in Hi. cbn [mbind list_bind]. by eapply items_agree_app.
  - by injection Hi as ->.
Qed.

Lemma usage_loop_run fuel number first : forall p acc (s s' : state) usages, usage_loop fuel number p first acc s = (Ret usages, s') ->
  exists l, usages = acc ++ l /\ usage_pages number first p s l s'.
Proof.
  induction fuel as [|fuel IH]; intros p acc s s' usages; cbn [usage_loop]; [done|].
  intros (u & s1 & Hu%verifying_inv & Hrun)%bind_inv_Ret. destruct u as [|x u _] using rev_ind.
  { cbn in Hrun. injection Hrun as -> ->. exists []. split; [by rewrite app_nil_r|by constructor]. }
  rewrite fmap_app in Hrun. cbn [fmap list_fmap] in Hrun. rewrite last_last in Hrun.
  apply bind_inv_Ret in Hrun as (ts & s2 & Hts & Hrun). apply or_else_inv in Hts as [Hts ->]. unfold time.Before in Hrun. destruct (Z.ltb_spec ts first) as [Hlt|Hge].
  - injection Hrun as <- <-. exists (u ++ [x]). split; [done|]. by eapply last_page.
  - apply IH in Hrun as (l & -> & Hl). exists ((u ++ [x]) ++ l). split; [by rewrite <- !app_assoc|]. by eapply next_page.
Qed.

(** * All of the usage *)

(** Zuora has this usage of an account, and gives it in pages of forty. *)
Definition has_usage (number : string) (all : list zuora.Usage) : Prop := forall p (s s' : state) u, 1 <= p ->
  on_zuora (zuora.CallGetUsage number (pretty p) "40") s = (Ret u, s') -> u = take 40 (drop (Z.to_nat (40 * (p - 1))) all).

(** What was not read is from before the first day. *)
Lemma pages_complete number first all p s usages s' : usage_pages number first p s usages s' -> has_usage number all -> newest_first all -> 1 <= p ->
  exists rest, drop (Z.to_nat (40 * (p - 1))) all = usages ++ rest /\
  forall v, v ∈ rest -> exists t, ParseDateTime (zuora.us_StartDate v) = Some t /\ t < first.
Proof.
  intros Hpages Hall Hsort. induction Hpages as [p s s' Hcall|p s s' u x ts Hcall Hts Hlt|p s s1 s' u x ts usages Hcall Hts Hge Hpages IH]; intros Hp.
  - exists []. apply Hall in Hcall; [|done]. split; [|by intros v ?%elem_of_nil]. destruct (drop _ all); done.
  - apply Hall in Hcall; [|done]. set (from := Z.to_nat (40 * (p - 1))) in *. exists (drop 40 (drop from all)). split; [by rewrite Hcall, take_drop|].
    intros v Hv. apply list_elem_of_lookup in Hv as [j Hj]. rewrite !lookup_drop in Hj.
    assert (Hx : all !! (from + length u)%nat = Some x).
    { rewrite <- lookup_drop, <- (lookup_take_lt _ 40); [rewrite <- Hcall; apply list_lookup_middle; lia|].
      assert (Hl : (length (u ++ [x]) <= 40)%nat) by (rewrite Hcall, length_take; lia). rewrite length_app in Hl. cbn in Hl. lia. }
    assert (Hl : (length (u ++ [x]) <= 40)%nat) by (rewrite Hcall, length_take; lia). rewrite length_app in Hl. cbn in Hl.
    destruct (Hsort (Z.of_nat (from + length u)) (Z.of_nat (from + (40 + j))) x v) as (t & t' & Ht & Ht' & Hle); rewrite ?Nat2Z.id; [lia|done|done|lia|].
    exists t'. split; [done|]. rewrite Hts in Ht. injection Ht as <-. lia.
  - destruct (IH ltac:(lia)) as (rest & Hrest & Hold). exists rest. split; [|done]. apply Hall in Hcall; [|done].
    rewrite <- app_assoc, <- Hrest, Hcall. replace (Z.to_nat (40 * (p + 1 - 1))) with (Z.to_nat (40 * (p - 1)) + 40)%nat by lia.
    by rewrite <- drop_drop, take_drop.
Qed.
Lemma processed_usage_complete startTs endTs first usages rest : first <= startTs ->
  (forall v, v ∈ rest -> exists t, ParseDateTime (zuora.us_StartDate v) = Some t /\ t < first) ->
  processed_usage startTs endTs (usages ++ rest) = processed_usage startTs endTs usages.
Proof.
  intros Hle Hold. unfold processed_usage. rewrite List.filter_app. enough (List.filter (counts startTs endTs) rest = []) as -> by (by rewrite app_nil_r).
  induction rest as [|v rest IH]; [done|]. cbn [List.filter]. destruct (Hold v (list_elem_of_here _ _)) as (t & Ht & Hlt). unfold counts at 1. rewrite Ht.
  unfold common_time.InTimeRange, time.After. rewrite (proj2 (Z.ltb_lt t startTs)) by lia. cbn. rewrite andb_false_r.
  apply IH. intros w Hw. apply Hold. by apply list_elem_of_further.
Qed.
End verify.

(** The first day of all items, when none is the first day of all. *)
Definition min_step (min : option time.Time) (item : zuora.InvoiceItem) : option time.Time := min ← min; min_date min item.
Lemma min_step_None l : foldl min_step None l = None.
Proof. by induction l. Qed.
Lemma min_dates l : forall min first, foldl min_step (Some min) l = Some first ->
  (forall item t, item ∈ l -> ParseDate (zuora.ii_ServiceStartDate item) = Some t -> t <> 0) ->
  (min <> 0 -> first <= min) /\ (forall item t, item ∈ l -> ParseDate (zuora.ii_ServiceStartDate item) = Some t -> first <= t).
Proof.
  induction l as [|x l IH]; intros min first Hfold Hz; cbn in Hfold.
  { injection Hfold as ->. split; [lia|]. intros item t Hin. by apply elem_of_nil in Hin. }
  unfold min_date in Hfold. destruct (ParseDate (zuora.ii_ServiceStartDate x)) as [d|] eqn:Hd; cbn in Hfold; [|by rewrite min_step_None in Hfold].
  assert (Hd0 : d <> 0) by (by apply (Hz x); [apply list_elem_of_here|]). apply IH in Hfold as [Hle Hall]; [|intros item t Hin; apply Hz; by apply list_elem_of_further].
  unfold time.IsZero, time.Before in Hle. split.
  - intros Hmin. rewrite (proj2 (Z.eqb_neq min 0) Hmin) in Hle. destruct (Z.ltb_spec d min); [pose proof (Hle Hd0); lia|by apply Hle].
  - intros item t [->|Hin]%elem_of_cons Ht; [|by eapply Hall]. rewrite Hd in Ht. injection Ht as <-.
    destruct (Z.eqb_spec min 0); [by apply Hle|]. destruct (Z.ltb_spec d min); [by apply Hle|]. pose proof (Hle n). lia.
Qed.
Lemma minInvoicesDate_le invoices first item t : minInvoicesDate invoices = Some first ->
  (forall item t, item ∈ invoices ≫= zuora.iv_InvoiceItems -> ParseDate (zuora.ii_ServiceStartDate item) = Some t -> t <> 0) ->
  item ∈ billed invoices -> ParseDate (zuora.ii_ServiceStartDate item) = Some t -> first <= t.
Proof.
  intros Hfirst Hz Hin. apply (min_dates _ _ _ Hfirst Hz). unfold billed in Hin. apply list_elem_of_bind in Hin as (i & Hitem & Hi). apply list_elem_of_bind.
  exists i. split; [done|]. apply list_elem_of_In in Hi. apply List.filter_In in Hi as [Hi _]. by apply list_elem_of_In.
Qed.

(** C33: an invoice is only called valid when the run went as follows. The last [n] invoices of the account of the organization were
    fetched, and then its usage, page after page, until a page was empty or ended before the first day of all items. Each item of
    the invoices that are posted or drafts bears the quantity Zuora has processed for the days of the item, in node-seconds and
    summed over those pages; it bears, up to a millionth, that quantity at the current rate in the currency of the account,
    rounded; and the billing database answers with the same usage of the organization for those days. When Zuora lists usage
    newest first in pages of forty, as the code relies on, and no item starts on the first day of the year 1, the quantity is the
    one of all the usage of the account, not only of the pages that were read. *)
Theorem assertInvoiceVerified_sound {W L C} `{UsersService W} `{LedgerImpl L} `{zuora.ClientImpl C} fuel id n (s s' : Billing W L C) :
  assertInvoiceVerified fuel id n s = (Ret tt, s') ->
  exists org s1 invoices s2 first usages s3 rates s4 account s5 subscription,
    let number := o_ZuoraAccountNumber org in
    let price := default (S754_zero false) (default ∅ (rates !! zuora.UsageNodeSeconds) !! zuora.as_Currency subscription) in
    getOrganization id s = (Ret org, s1) /\
    on_zuora (zuora.CallGetInvoices number "1" (pretty n)) s1 = (Ret invoices, s2) /\
    minInvoicesDate invoices = Some first /\ usage_pages number first 1 s2 usages s3 /\
    on_zuora zuora.CallGetCurrentRates s3 = (Ret rates, s4) /\
    on_zuora (zuora.CallGetAccount number) s4 = (Ret account, s5) /\ zuora.ac_Subscription account = Some subscription /\
    items_agree (o_ID org) price usages (billed invoices) s5 s' /\
    forall all, has_usage (W:=W) (L:=L) number all -> newest_first all ->
      (forall item t, item ∈ invoices ≫= zuora.iv_InvoiceItems -> ParseDate (zuora.ii_ServiceStartDate item) = Some t -> t <> 0) ->
      forall item startTs endTs, item ∈ billed invoices -> ParseDate (zuora.ii_ServiceStartDate item) = Some startTs ->
        processed_usage startTs endTs usages = processed_usage startTs endTs all.
Proof.
  unfold assertInvoiceVerified. intros (org & s1 & Horg & Hrun)%bind_inv_Ret. apply verifying_inv in Horg. cbv zeta in Hrun.
  apply bind_inv_Ret in Hrun as ([invoices usages] & s2 & Hfetch & Hrun).
  unfold getInvoicesAndCorrespondingUsage in Hfetch. apply bind_inv_Ret in Hfetch as (invoices' & s3 & Hinv & Hfetch). apply verifying_inv in Hinv.
  apply bind_inv_Ret in Hfetch as (first & s4 & Hfirst & Hfetch). apply or_else_inv in Hfirst as [Hfirst ->].
  apply bind_inv_Ret in Hfetch as (usages' & s5 & Hpages & Hfetch). injection Hfetch as -> -> ->.
  apply usage_loop_run in Hpages as (l & -> & Hpages).
  apply bind_inv_Ret in Hrun as (rates & s6 & Hrates%verifying_inv & Hrun). apply bind_inv_Ret in Hrun as (account & s7 & Haccount%verifying_inv & Hrun).
  apply bind_inv_Ret in Hrun as (subscription & s8 & Hsub & Hrun). destruct (zuora.ac_Subscription account) as [sub|] eqn:Esub; [|done]. injection Hsub as -> ->.
  cbv zeta in Hrun. apply invoices_run in Hrun. exists org, s1, invoices, s3, first, l, s2, rates, s6, account, s8, subscription. cbv zeta.
  do 8 (split; [done|]). intros all Hall Hsort Hz item startTs endTs Hin Ht.
  destruct (pages_complete _ _ all _ _ _ _ Hpages Hall Hsort ltac:(lia)) as (rest & Hrest & Hold). cbn in Hrest. rewrite drop_0 in Hrest. rewrite Hrest.
  symmetry. eapply processed_usage_complete; [|exact Hold]. by eapply minInvoicesDate_le.
Qed.

(** An hour of one node, invoiced at a cent a second. *)
Module sample_verify.
Import sample_billing.
Definition item : zuora.InvoiceItem :=
  zuora.mkInvoiceItem "I1" "S1" "2018-01-01" "2018-01-31" (float64.of_int 36) "" "" "" (float64.of_int 3600) (S754_zero false) "node-seconds" "" "" "".
Definition invoice : zuora.Invoice :=
  zuora.mkInvoice "1" "foo" "W1" "2018-02-01" "INV-1" "" "" (float64.of_int 36) (float64.of_int 36) (S754_zero false) "Posted" "" [item] [].
Definition usage_page (page : string) : list zuora.Usage :=
  if decide (page = "1") then [zuora.mkUsage "W1" "2018-01-10 00:00:00" "node-seconds" (float64.of_int 3600) "Processed";
                               zuora.mkUsage "W1" "2017-12-31 00:00:00" "node-seconds" (float64.of_int 60) "Processed"] else [].
Definition account : zuora.Account :=
  zuora.mkAccount "Z1" "W1" "P1" "active" (zuora.mkPaymentStatus "active" "" "")
    (Some (zuora.mkAccountSubscription "S1" "USD" "C1" "C1" "" (of_ratio 1 100) "" [])) zuora.zero_contact 1.
#[local] Instance client : zuora.ClientImpl unit := {|
  zuora.client_call := fun A c =>
    match c in zuora.ClientCall A return M unit zuora.zerror A with
    | zuora.CallGetInvoices _ _ _ => ret [invoice]
    | zuora.CallGetUsage _ page _ => ret (usage_page page)
    | zuora.CallGetCurrentRates => ret {["node-seconds" := {["USD" := of_ratio 1 100]}]}
    | zuora.CallGetAccount _ => ret account
    | _ => throw zuora.ErrNotFound
    end;
  zuora.GetConfig := fun _ => zuora.GetConfig ([] : list string);
  zuora.client_StatusURL := fun _ id => id;
  zuora.client_URL := fun _ path => path |}.
#[local] Instance db : LedgerImpl unit := fun A c =>
  match c in LedgerCall A return M unit error A with
  | CallGetAggregates _ _ _ => ret [mkAggregate 1 "foo" (civil.Date 2018 1 10) "node-seconds" 3600 0 0]
  | _ => throw (ErrMsg "no database")
  end.
Definition state : Billing unit unit unit := mkBilling tt tt tt None (fun _ => 0) 0.

Lemma all_usage number : has_usage (W:=unit) (L:=unit) number (usage_page "1").
Proof.
  intros p s s' u Hp Hcall. assert (u = usage_page (pretty p)) as -> by (cbv [on_zuora via_zuora zuora.client_call client ret] in Hcall; congruence).
  destruct (decide (p = 1)) as [->|Hne]; [reflexivity|]. unfold usage_page. rewrite decide_False by (intros E; apply Hne; by apply (inj pretty)).
  rewrite decide_True by done. rewrite (drop_ge _ (Z.to_nat (40 * (p - 1)))); [done|]. cbn. lia.
Qed.
Lemma usage_newest_first : newest_first (usage_page "1").
Proof.
  intros i j u v Hij Hu Hv Hi. assert (Hj : j < 2) by (apply lookup_lt_Some in Hv; change (length (usage_page "1")) with 2%nat in Hv; lia).
  assert (i = 0) as -> by lia. assert (j = 1) as -> by lia. injection Hu as <-. injection Hv as <-.
  exists (civil.Date 2018 1 10), (civil.Date 2017 12 31). split; [vm_compute; reflexivity|]. split; [vm_compute; reflexivity|]. vm_compute. discriminate.
Qed.

Lemma assertInvoiceVerified_sound_witness :
  assertInvoiceVerified 3 "foo-bar-42" 3 state = (Ret tt, state) /\
  exists usages price s5, items_agree (W:=unit) (L:=unit) (C:=unit) "foo" price usages [item] s5 state /\
    forall endTs, processed_usage (civil.Date 2018 1 1) endTs usages = processed_usage (civil.Date 2018 1 1) endTs (usage_page "1").
Proof.
  assert (Hrun : assertInvoiceVerified 3 "foo-bar-42" 3 state = (Ret tt, state)) by (vm_compute; reflexivity).
  split; [exact Hrun|]. destruct (assertInvoiceVerified_sound 3 "foo-bar-42" 3 state state Hrun) as
    (org & s1 & invoices & s2 & first & usages & s3 & rates & s4 & account & s5 & sub & Horg & Hinv & _ & _ & _ & _ & _ & Hitems & Hall).
  assert (org = sample_org) as -> by (change ((@Ret berror _ sample_org, state) = (Ret org, s1)) in Horg; congruence).
  assert (invoices = [invoice]) as -> by (cbv [on_zuora via_zuora zuora.client_call client ret] in Hinv; congruence).
  assert (Hdate : ParseDate (zuora.ii_ServiceStartDate item) = Some (civil.Date 2018 1 1)) by (vm_compute; reflexivity).
  assert (Hz : forall x t, x ∈ [invoice] ≫= zuora.iv_InvoiceItems -> ParseDate (zuora.ii_ServiceStartDate x) = Some t -> t <> 0).
  { intros x t Hx Ht. change (x ∈ [item]) in Hx. apply list_elem_of_singleton in Hx as ->. rewrite Hdate in Ht. injection Ht as <-. vm_compute. discriminate. }
  assert (Hin : item ∈ billed [invoice]) by apply list_elem_of_here.
  eexists usages, _, s5. split; [exact Hitems|]. intros endTs.
  exact (Hall (usage_page "1") (all_usage _) usage_newest_first Hz item (civil.Date 2018 1 1) endTs Hin Hdate).
Defined.
End sample_verify.

(** * The estimate right after a trial *)

Lemma mul_zero x s : exists z, mul x (S754_zero s) = z /\ (z = S754_nan \/ exists t, z = S754_zero t).
Proof. eexists. split; [done|]. destruct x; cbn; eauto. Qed.
Lemma zero_over_zero z s : z = S754_nan \/ (exists t, z = S754_zero t) -> float64.div z (S754_zero s) = S754_nan.
Proof. by intros [->|[t ->]]. Qed.
Lemma add_nan x : float64.add x S754_nan = S754_nan.
Proof. by destruct x. Qed.
Lemma mul_nan x : mul x S754_nan = S754_nan.
Proof. by destruct x. Qed.

(** On the day after the one a trial ends on, the period the month's usage is estimated from is empty, and,
    without usage in it, the estimate an account is shown is not a number, in every currency. *)
Theorem estimate_after_trial daily start estAggs rates (now trialExpiresAt : time.Time) currency rate :
  trialExpiresAt < now -> time.Truncate (time.Add trialExpiresAt BillingApi.Day) BillingApi.Day = time.Truncate now BillingApi.Day ->
  Forall (fun a => a_AmountType a <> duration.NodeSeconds) estAggs -> rates !! currency = Some rate ->
  let '(_, _, estDays) := computeEstimationPeriod now trialExpiresAt in
  estimatedMonthlyUsages daily start estAggs estDays rates now !! currency = Some "NaN".
Proof.
  intros Hexp Hday Haggs Hrate. unfold computeEstimationPeriod. unfold time.Before at 1. rewrite (proj2 (Z.ltb_lt _ _) Hexp), Hday.
  assert (Hfrom : common_time.MaxTime (time.Add (time.Truncate now BillingApi.Day) (-7 * BillingApi.Day)) (time.Truncate now BillingApi.Day) = time.Truncate now BillingApi.Day).
  { unfold common_time.MaxTime, time.Before, time.Add. destruct (Z.ltb_spec (time.Truncate now BillingApi.Day + -7 * BillingApi.Day) (time.Truncate now BillingApi.Day)) as [|Hge]; [done|].
    exfalso. assert (0 < BillingApi.Day) by reflexivity. lia. }
  rewrite Hfrom. replace (time.Sub (time.Truncate now BillingApi.Day) (time.Truncate now BillingApi.Day)) with 0 by (unfold time.Sub, time.minDuration, time.maxDuration; lia).
  change (Z.quot (float64.to_int (trial.Hours 0)) 24) with 0. unfold estimatedMonthlyUsages, calculateAndFormatMonthlyUsages.
  rewrite lookup_fmap, Hrate. cbn [fmap option_fmap option_map]. f_equal. unfold estimated_usage. cbv zeta.
  assert (Hnone : List.filter (fun a => bool_decide (a_AmountType a = duration.NodeSeconds)) estAggs = []).
  { clear -Haggs. induction Haggs as [|a l Ha _ IH]; [done|]. cbn [List.filter]. by rewrite bool_decide_false. }
  rewrite Hnone. change (float64.of_int (sum_values (a_AmountValue <$> []))) with (S754_zero false). change (float64.of_int 0) with (S754_zero false).
  destruct (mul_zero (sub (float64.of_int (civil.DayOf (common_time.EndOfMonth start))) (float64.div (trial.Hours (time.Sub (time.Truncate now BillingApi.Day) start)) (float64.of_int 24))) false)
    as (z & -> & Hz).
  by rewrite (zero_over_zero z false Hz), add_nan, mul_nan.
Qed.

Lemma estimate_after_trial_witness :
  computeEstimationPeriod (civil.Date 2018 3 2 + 5 * time.Hour) (civil.Date 2018 3 1 + time.Hour) = (civil.Date 2018 3 2, civil.Date 2018 3 2, 0) /\
  estimatedMonthlyUsages ∅ (civil.Date 2018 3 1) [] 0 {["USD" := of_ratio 1 100]} (civil.Date 2018 3 2 + 5 * time.Hour) !! "USD" = Some "NaN".
Proof.
  split; [vm_compute; reflexivity|].
  exact (estimate_after_trial ∅ (civil.Date 2018 3 1) [] {["USD" := of_ratio 1 100]} (civil.Date 2018 3 2 + 5 * time.Hour) (civil.Date 2018 3 1 + time.Hour) "USD" (of_ratio 1 100)
    eq_refl eq_refl (List.Forall_nil _) eq_refl).
Defined.
