(* ===== verification/Json.v ===== *)
(** What the code uses of encoding/json: values, the text Marshal gives for them, Compact, and the parser behind
    Unmarshal.  Text is UTF-8: bytes above 127 are copied as they are. *)
From Stdlib Require Import ZArith Lia Ascii String.
From stdpp Require Import base tactics option gmap strings list pretty.
From S2P Require Import Prelude GoStd Http.

Module json.

(** Numbers are kept as they are written; [Raw] is the text of a [json.RawMessage]. *)
Inductive Value : Type :=
  | Null
  | Bool (b : bool)
  | Num (lit : string)
  | Str (s : string)
  | Arr (l : list Value)
  | Obj (l : list (string * Value))
  | Raw (text : string).

(** * Strings *)

Definition quote_char : ascii := ascii_of_nat 34.
Definition backslash : ascii := ascii_of_nat 92.
Definition code (c : ascii) : nat := nat_of_ascii c.
Definition hex_digit (n : nat) : ascii := ascii_of_nat (if (n <? 10)%nat then 48 + n else 87 + n).

(** [(e *encodeState) string], with escapeHTML *)
Definition is_html (c : ascii) : bool := Ascii.eqb c "<" || Ascii.eqb c ">" || Ascii.eqb c "&".
Definition escape_char (c : ascii) : list ascii :=
  if Ascii.eqb c quote_char then [backslash; quote_char]
  else if Ascii.eqb c backslash then [backslash; backslash]
  else if (code c =? 10)%nat then [backslash; "n"%char]
  else if (code c =? 13)%nat then [backslash; "r"%char]
  else if (code c =? 9)%nat then [backslash; "t"%char]
  else if (code c <? 32)%nat || is_html c
  then [backslash; "u"%char; "0"%char; "0"%char; hex_digit (code c / 16); hex_digit (code c mod 16)]
  else [c].
Definition escape (l : list ascii) : list ascii := flat_map escape_char l.
#[global] Arguments escape : simpl never.
Definition quoted (s : string) : list ascii := quote_char :: escape (String.list_ascii_of_string s) ++ [quote_char].

(** Four hexadecimal digits. *)
Definition hex4 (a b c d : ascii) : option N :=
  a ← urlpath.from_hex a; b ← urlpath.from_hex b; c ← urlpath.from_hex c; d ← urlpath.from_hex d;
  Some (N.of_nat (((a * 16 + b) * 16 + c) * 16 + d)).
(** The UTF-8 encoding of a code point. *)
Definition bytes_of (z : N) : list ascii :=
  let b n := ascii_of_N n in
  if (z <? 128)%N then [b z]
  else if (z <? 2048)%N then [b (192 + z / 64); b (128 + z mod 64)]%N
  else if (z <? 65536)%N then [b (224 + z / 4096); b (128 + z / 64 mod 64); b (128 + z mod 64)]%N
  else [b (240 + z / 262144); b (128 + z / 4096 mod 64); b (128 + z / 64 mod 64); b (128 + z mod 64)]%N.
Definition replacement : list ascii := bytes_of 65533.

Definition unescape_char (c : ascii) : option ascii :=
  if Ascii.eqb c quote_char || Ascii.eqb c backslash || Ascii.eqb c "/" then Some c
  else if Ascii.eqb c "b" then Some (ascii_of_nat 8)
  else if Ascii.eqb c "f" then Some (ascii_of_nat 12)
  else if Ascii.eqb c "n" then Some (ascii_of_nat 10)
  else if Ascii.eqb c "r" then Some (ascii_of_nat 13)
  else if Ascii.eqb c "t" then Some (ascii_of_nat 9)
  else None.

Definition cons_chars (a : list ascii) (r : option (list ascii * list ascii)) : option (list ascii * list ascii) :=
  '(s, rest) ← r; Some (a ++ s, rest).

(** [unquote]: the string up to the closing quote.  Two escapes that are a surrogate pair are one
    character; a surrogate without its other half is replaced. *)
Fixpoint take_string (l : list ascii) : option (list ascii * list ascii) :=
  match l with
  | [] => None
  | c :: l1 =>
      if Ascii.eqb c quote_char then Some ([], l1)
      else if (code c <? 32)%nat then None
      else if Ascii.eqb c backslash then
        match l1 with
        | [] => None
        | e :: l2 =>
            if Ascii.eqb e "u" then
              match l2 with
              | h1 :: h2 :: h3 :: h4 :: l3 =>
                  n ← hex4 h1 h2 h3 h4;
                  if (n <? 55296)%N || (57344 <=? n)%N then cons_chars (bytes_of n) (take_string l3)
                  else
                    match l3 with
                    | b :: u :: k1 :: k2 :: k3 :: k4 :: l4 =>
                        match (if (n <? 56320)%N && Ascii.eqb b backslash && Ascii.eqb u "u" then hex4 k1 k2 k3 k4 else None) with
                        | Some m =>
                            if (56320 <=? m)%N && (m <? 57344)%N
                            then cons_chars (bytes_of (65536 + (n - 55296) * 1024 + (m - 56320))) (take_string l4)
                            else cons_chars replacement (take_string l3)
                        | None => cons_chars replacement (take_string l3)
                        end
                    | _ => cons_chars replacement (take_string l3)
                    end
              | _ => None
              end
            else x ← unescape_char e; cons_chars [x] (take_string l2)
        end
      else cons_chars [c] (take_string l1)
  end.

Lemma escape_char_parsed c l : take_string (escape_char c ++ l) = cons_chars [c] (take_string l).
Proof. destruct c as [[] [] [] [] [] [] [] []]; reflexivity. Qed.
Lemma take_quoted s l : take_string (escape (String.list_ascii_of_string s) ++ quote_char :: l) = Some (String.list_ascii_of_string s, l).
Proof.
  generalize (String.list_ascii_of_string s) as cs. intros cs. induction cs as [|c cs IH]; [done|].
  change (escape (c :: cs)) with (escape_char c ++ escape cs). by rewrite <- app_assoc, escape_char_parsed, IH.
Qed.

(** * Numbers *)

Fixpoint span (f : ascii -> bool) (l : list ascii) : list ascii * list ascii :=
  match l with
  | c :: l' => if f c then let '(a, b) := span f l' in (c :: a, b) else ([], l)
  | [] => ([], [])
  end.
Definition digits1 (l : list ascii) : option (list ascii * list ascii) :=
  let '(d, rest) := span strings.is_digit l in if bool_decide (d = []) then None else Some (d, rest).
Definition sign_of (chars : list ascii) (l : list ascii) : list ascii * list ascii :=
  match l with c :: l' => if existsb (Ascii.eqb c) chars then ([c], l') else ([], l) | [] => ([], []) end.
Definition take_number (l : list ascii) : option (list ascii * list ascii) :=
  let '(s, l) := sign_of ["-"%char] l in
  '(i, l) ← match l with
            | c :: l' => if Ascii.eqb c "0" then Some ([c], l') else digits1 l
            | [] => None
            end;
  '(f, l) ← match l with
            | c :: l' => if Ascii.eqb c "." then '(d, r) ← digits1 l'; Some (c :: d, r) else Some ([], l)
            | [] => Some ([], l)
            end;
  '(e, l) ← match l with
            | c :: l' =>
                if Ascii.eqb c "e" || Ascii.eqb c "E"
                then let '(sg, l') := sign_of ["+"%char; "-"%char] l' in '(d, r) ← digits1 l'; Some (c :: sg ++ d, r)
                else Some ([], l)
            | [] => Some ([], l)
            end;
  Some (s ++ i ++ f ++ e, l).

(** * Values *)

Definition is_space (c : ascii) : bool := (code c =? 32)%nat || (code c =? 9)%nat || (code c =? 10)%nat || (code c =? 13)%nat.
Fixpoint skip (l : list ascii) : list ascii := match l with c :: l' => if is_space c then skip l' else l | [] => [] end.
Definition expect (c : ascii) (l : list ascii) : option (list ascii) :=
  match skip l with x :: l' => if Ascii.eqb x c then Some l' else None | [] => None end.
Definition word (w : string) (l : list ascii) : option (list ascii) :=
  let w := String.list_ascii_of_string w in
  if bool_decide (take (length w) l = w) then Some (drop (length w) l) else None.

Section parser.
Variable value : list ascii -> option (Value * list ascii).

(** The elements of an array after the first, the members of an object after the first. *)
Fixpoint elements (n : nat) (l : list ascii) : option (list Value * list ascii) :=
  match n with
  | O => None
  | S n =>
      '(v, l) ← value l;
      match skip l with
      | c :: l' =>
          if Ascii.eqb c "," then '(vs, r) ← elements n l'; Some (v :: vs, r)
          else if Ascii.eqb c "]" then Some ([v], l') else None
      | [] => None
      end
  end.
Fixpoint members (n : nat) (l : list ascii) : option (list (string * Value) * list ascii) :=
  match n with
  | O => None
  | S n =>
      l ← expect quote_char l;
      '(k, l) ← take_string l;
      l ← expect ":" l;
      '(v, l) ← value l;
      let kv := (String.string_of_list_ascii k, v) in
      match skip l with
      | c :: l' =>
          if Ascii.eqb c "," then '(vs, r) ← members n l'; Some (kv :: vs, r)
          else if Ascii.eqb c "}" then Some ([kv], l') else None
      | [] => None
      end
  end.
End parser.

Fixpoint value (n : nat) (l : list ascii) : option (Value * list ascii) :=
  match n with
  | O => None
  | S n =>
      match skip l with
      | [] => None
      | c :: l' =>
          if Ascii.eqb c quote_char then '(s, r) ← take_string l'; Some (Str (String.string_of_list_ascii s), r)
          else if Ascii.eqb c "[" then
            match skip l' with
            | c' :: r => if Ascii.eqb c' "]" then Some (Arr [], r) else '(vs, r) ← elements (value n) n l'; Some (Arr vs, r)
            | [] => None
            end
          else if Ascii.eqb c "{" then
            match skip l' with
            | c' :: r => if Ascii.eqb c' "}" then Some (Obj [], r) else '(vs, r) ← members (value n) n l'; Some (Obj vs, r)
            | [] => None
            end
          else if Ascii.eqb c "t" then r ← word "true" (c :: l'); Some (Bool true, r)
          else if Ascii.eqb c "f" then r ← word "false" (c :: l'); Some (Bool false, r)
          else if Ascii.eqb c "n" then r ← word "null" (c :: l'); Some (Null, r)
          else '(d, r) ← take_number (c :: l'); Some (Num (String.string_of_list_ascii d), r)
      end
  end.

(** The value a text is; a value takes a character at least, so that the length of the text bounds
    the nesting. *)
Definition Parse (s : string) : option Value :=
  let l := String.list_ascii_of_string s in
  '(v, r) ← value (S (length l)) l;
  if bool_decide (skip r = []) then Some v else None.

(** [json.Compact], as Marshal applies it to a RawMessage: without the space between tokens, the characters of
    HTML escaped. *)
Fixpoint compact_from (in_string escaped : bool) (l : list ascii) : list ascii :=
  match l with
  | [] => []
  | c :: l' =>
      if negb in_string && is_space c then compact_from in_string false l'
      else
        (if is_html c then [backslash; "u"%char; "0"%char; "0"%char; hex_digit (code c / 16); hex_digit (code c mod 16)] else [c])
        ++ compact_from (if in_string then escaped || negb (Ascii.eqb c quote_char) else Ascii.eqb c quote_char)
             (in_string && negb escaped && Ascii.eqb c backslash) l'
  end.
Definition Compact (s : string) : option (list ascii) :=
  match Parse s with
  | Some _ => Some (compact_from false false (String.list_ascii_of_string s))
  | None => None
  end.

Definition chars (s : string) : list ascii := String.list_ascii_of_string s.
Fixpoint joined (l : list (list ascii)) : list ascii :=
  match l with [] => [] | [x] => x | x :: l => x ++ ","%char :: joined l end.

(** [json.Marshal] *)
Fixpoint marshal (v : Value) : option (list ascii) :=
  match v with
  | Null => Some (chars "null")
  | Bool b => Some (chars (if b then "true" else "false"))
  | Num lit => Some (chars lit)
  | Str s => Some (quoted s)
  | Arr l => ls ← mapM marshal l; Some ("["%char :: joined ls ++ ["]"%char])
  | Obj l => ls ← mapM (fun kv => t ← marshal kv.2; Some (quoted kv.1 ++ ":"%char :: t)) l; Some ("{"%char :: joined ls ++ ["}"%char])
  | Raw text => if decide (text = EmptyString) then Some (chars "null") else Compact text
  end.
Definition Marshal (v : Value) : option string := String.string_of_list_ascii <$> marshal v.

(** * What was marshalled is parsed back *)

Fixpoint size (v : Value) : nat :=
  match v with
  | Arr l => S (foldr (fun v n => size v + n) 0 l)
  | Obj l => S (foldr (fun kv n => size kv.2 + n) 0 l)
  | _ => 1
  end%nat.
(** Values without numbers and raw text. *)
Fixpoint plain (v : Value) : bool :=
  match v with
  | Arr l => forallb plain l
  | Obj l => forallb (fun kv => plain kv.2) l
  | Num _ | Raw _ => false
  | _ => true
  end.

Section value_ind.
Variable P : Value -> Prop.
Hypotheses (HNull : P Null) (HBool : forall b, P (Bool b)) (HNum : forall s, P (Num s)) (HStr : forall s, P (Str s)) (HRaw : forall s, P (Raw s)).
Hypothesis HArr : forall l, Forall P l -> P (Arr l).
Hypothesis HObj : forall l, Forall (fun kv => P kv.2) l -> P (Obj l).
Fixpoint Value_ind' (v : Value) : P v.
Proof.
  destruct v as [|b|lit|s|l|l|text]; [done|apply HBool|apply HNum|apply HStr| | |apply HRaw].
  - apply HArr. induction l as [|v l IH]; constructor; [apply Value_ind'|exact IH].
  - apply HObj. induction l as [|[k v] l IH]; constructor; [apply Value_ind'|exact IH].
Defined.
End value_ind.

(** The first character of a text Marshal gives is no space and closes nothing. *)
Lemma marshal_head v l : plain v = true -> marshal v = Some l ->
  exists c l', l = c :: l' /\ is_space c = false /\ Ascii.eqb c "]" = false.
Proof.
  destruct v as [|[]| |s|vs|vs|]; cbn; try done.
  1-4: by intros _ [= <-]; eauto.
  all: intros _ (ls & _ & [= <-])%bind_Some; eauto.
Qed.

Definition member_text (kv : string * Value) : option (list ascii) := t ← marshal kv.2; Some (quoted kv.1 ++ ":"%char :: t).

(** A value is read back with fuel for the length of its text. *)
Definition reads (v : Value) : Prop := forall l rest n, plain v = true -> marshal v = Some l -> (length l < n)%nat -> value n (l ++ rest) = Some (v, rest).

Lemma joined_length x ls : In x ls -> (length x <= length (joined ls))%nat.
Proof.
  induction ls as [|y [|z ls] IH]; [done|by intros [->|[]]|].
  change (joined (y :: z :: ls)) with (y ++ ","%char :: joined (z :: ls)). rewrite length_app. cbn [length].
  intros [->|Hx%IH]; lia.
Qed.

Lemma expect_char c l : is_space c = false -> expect c (c :: l) = Some l.
Proof. intros Hc. unfold expect. cbn [skip]. by rewrite Hc, Ascii.eqb_refl. Qed.

Section steps.
Variable val : list ascii -> option (Value * list ascii).
Lemma elements_more m v l l' : val l = Some (v, ","%char :: l') -> elements val (S m) l = ('(vs, r) ← elements val m l'; Some (v :: vs, r)).
Proof. intros Hv. cbn [elements]. by rewrite Hv. Qed.
Lemma elements_last m v l l' : val l = Some (v, "]"%char :: l') -> elements val (S m) l = Some ([v], l').
Proof. intros Hv. cbn [elements]. by rewrite Hv. Qed.
Lemma members_more m k v l l' : val l = Some (v, ","%char :: l') ->
  members val (S m) (quoted k ++ ":"%char :: l) = ('(vs, r) ← members val m l'; Some ((k, v) :: vs, r)).
Proof.
  intros Hv. unfold quoted. cbn [app members]. rewrite <- app_assoc, (expect_char quote_char) by done. cbn [mbind option_bind app].
  rewrite take_quoted. cbn [mbind option_bind]. rewrite (expect_char ":") by done. cbn [mbind option_bind]. rewrite Hv.
  cbn. by rewrite String.string_of_list_ascii_of_string.
Qed.
Lemma members_last m k v l l' : val l = Some (v, "}"%char :: l') -> members val (S m) (quoted k ++ ":"%char :: l) = Some ([(k, v)], l').
Proof.
  intros Hv. unfold quoted. cbn [app members]. rewrite <- app_assoc, (expect_char quote_char) by done. cbn [mbind option_bind app].
  rewrite take_quoted. cbn [mbind option_bind]. rewrite (expect_char ":") by done. cbn [mbind option_bind]. rewrite Hv.
  cbn. by rewrite String.string_of_list_ascii_of_string.
Qed.
End steps.

Lemma elements_joined n v vs : forall t ts rest m,
  Forall reads (v :: vs) -> forallb plain (v :: vs) = true -> Forall2 (fun v t => marshal v = Some t) (v :: vs) (t :: ts) ->
  (length (joined (t :: ts)) < n)%nat -> (length vs < m)%nat ->
  elements (value n) m (joined (t :: ts) ++ "]"%char :: rest) = Some (v :: vs, rest).
Proof.
  revert v. induction vs as [|w vs IH]; intros v t ts rest [|m] Hr Hp Hm Hn Hlen; try (cbn in Hlen; lia).
  - inversion Hm as [|? ? ? ? Ht Hts]; inversion Hts; subst. inversion Hr as [|? ? Hv _]; subst.
    cbn [forallb] in Hp. rewrite andb_true_r in Hp. apply elements_last, (Hv t _ n Hp Ht Hn).
  - inversion Hm as [|? ? ? ts' Ht Hts]; subst. inversion Hts as [|? t' ? ts'' Ht' Hts']; subst. inversion Hr as [|? ? Hv Hvs]; subst.
    change (joined (t :: t' :: ts'')) with (t ++ ","%char :: joined (t' :: ts'')) in *. rewrite length_app in Hn. cbn [length] in Hn, Hlen.
    apply andb_prop in Hp as [Hp Hps]. rewrite <- app_assoc.
    rewrite (elements_more _ m v _ (joined (t' :: ts'') ++ "]"%char :: rest)) by apply (Hv t _ n Hp Ht ltac:(lia)).
    by rewrite (IH w t' ts'' rest m Hvs Hps Hts ltac:(lia) ltac:(lia)).
Qed.
Lemma members_joined n kv vs : forall t ts rest m,
  Forall (fun kv => reads kv.2) (kv :: vs) -> forallb (fun kv => plain kv.2) (kv :: vs) = true ->
  Forall2 (fun kv t => member_text kv = Some t) (kv :: vs) (t :: ts) ->
  (length (joined (t :: ts)) < n)%nat -> (length vs < m)%nat ->
  members (value n) m (joined (t :: ts) ++ "}"%char :: rest) = Some (kv :: vs, rest).
Proof.
  assert (Htext : forall kv t, member_text kv = Some t -> exists x, marshal kv.2 = Some x /\ t = quoted kv.1 ++ ":"%char :: x).
  { intros kv' t' (x & Hx & [= <-])%bind_Some. eauto. }
  revert kv. induction vs as [|w vs IH]; intros [k v] t ts rest [|m] Hr Hp Hm Hn Hlen; try (cbn in Hlen; lia).
  - inversion Hm as [|? ? ? ? Ht Hts]; inversion Hts; subst. inversion Hr as [|? ? Hv _]; subst. cbn in Hv.
    cbn [forallb] in Hp. rewrite andb_true_r in Hp. destruct (Htext _ _ Ht) as (x & Hx & ->). cbn [joined] in *. rewrite length_app in Hn. cbn [length] in Hn.
    rewrite <- app_assoc. apply members_last, (Hv x _ n Hp Hx). lia.
  - inversion Hm as [|? ? ? ts' Ht Hts]; subst. inversion Hts as [|? t' ? ts'' Ht' Hts']; subst. inversion Hr as [|? ? Hv Hvs]; subst. cbn in Hv.
    change (joined (t :: t' :: ts'')) with (t ++ ","%char :: joined (t' :: ts'')) in *. rewrite length_app in Hn. cbn [length] in Hn, Hlen.
    apply andb_prop in Hp as [Hp Hps]. destruct (Htext _ _ Ht) as (x & Hx & ->). rewrite length_app in Hn. cbn [length] in Hn.
    rewrite <- !app_assoc. cbn [app fst].
    rewrite (members_more _ m k v _ (joined (t' :: ts'') ++ "}"%char :: rest)) by apply (Hv x _ n Hp Hx ltac:(lia)).
    by rewrite (IH w t' ts'' rest m Hvs Hps Hts ltac:(lia) ltac:(lia)).
Qed.

Lemma marshal_nonempty v l : plain v = true -> marshal v = Some l -> (0 < length l)%nat.
Proof. intros Hp Hm. destruct (marshal_head v l Hp Hm) as (c & l' & -> & _). cbn. lia. Qed.
Lemma joined_count (f : list ascii -> Prop) ls : Forall (fun l => 0 < length l)%nat ls -> (length ls <= S (length (joined ls)))%nat.
Proof.
  induction 1 as [|x ls Hx _ IH]; [cbn; lia|]. destruct ls as [|y ls]; [cbn; lia|].
  change (joined (x :: y :: ls)) with (x ++ ","%char :: joined (y :: ls)). rewrite length_app. cbn [length] in *. lia.
Qed.

Lemma texts_nonempty {A} (f : A -> option (list ascii)) (l : list A) ls :
  Forall2 (fun x t => f x = Some t) l ls -> (forall x t, In x l -> f x = Some t -> (0 < length t)%nat) -> Forall (fun t => 0 < length t)%nat ls.
Proof.
  induction 1 as [|x t l ls Hf _ IH]; intros Hall; constructor; [apply (Hall x); [by left|done]|].
  apply IH. intros y u Hy. apply Hall. by right.
Qed.
Lemma value_string n l : value (S n) (quote_char :: l) = ('(s, r) ← take_string l; Some (Str (String.string_of_list_ascii s), r)).
Proof. done. Qed.
Lemma value_array n l rest : value (S n) (("["%char :: l) ++ rest) =
  match skip (l ++ rest) with
  | c :: r => if Ascii.eqb c "]" then Some (Arr [], r) else '(vs, r) ← elements (value n) n (l ++ rest); Some (Arr vs, r)
  | [] => None
  end.
Proof. done. Qed.
Lemma value_object n l rest : value (S n) (("{"%char :: l) ++ rest) =
  match skip (l ++ rest) with
  | c :: r => if Ascii.eqb c "}" then Some (Obj [], r) else '(vs, r) ← members (value n) n (l ++ rest); Some (Obj vs, r)
  | [] => None
  end.
Proof. done. Qed.

Lemma forallb_In {A} (f : A -> bool) l x : forallb f l = true -> In x l -> f x = true.
Proof. intros Hl Hx. by apply (proj1 (forallb_forall f l) Hl). Qed.

Theorem marshal_read v : reads v.
Proof.
  induction v as [|b|lit|s|text|vs IH|vs IH] using Value_ind'; intros t rest [|n] Hp Hm Hn; try lia; try done.
  - by injection Hm as <-.
  - by destruct b; injection Hm as <-.
  - injection Hm as <-. unfold quoted. cbn [app]. rewrite value_string, <- app_assoc. cbn [app]. rewrite take_quoted. cbn. by rewrite String.string_of_list_ascii_of_string.
  - cbn in Hm. apply bind_Some in Hm as (ls & Hls%mapM_Some & [= <-]). destruct vs as [|v vs]; inversion Hls as [|? t ? ts Ht Hts]; subst; [done|].
    cbn [plain] in Hp. assert (Hpv : plain v = true) by (apply (forallb_In plain (v :: vs)); [done|by left]).
    destruct (marshal_head v t Hpv Ht) as (c & t' & -> & Hc & Hb).
    rewrite value_array by done.
    assert (Hskip : exists r, skip ((joined ((c :: t') :: ts) ++ ["]"%char]) ++ rest) = c :: r).
    { destruct ts; cbn; rewrite Hc; eauto. }
    destruct Hskip as [r ->]. cbn [length] in Hn. rewrite length_app in Hn. cbn [length] in Hn.
    assert (Hlen : (length ((c :: t') :: ts) <= S (length (joined ((c :: t') :: ts))))%nat).
    { apply (joined_count (fun _ => True)), (texts_nonempty marshal (v :: vs)); [done|]. intros x tx Hx. apply marshal_nonempty.
      by apply (forallb_In plain (v :: vs)). }
    pose proof (Forall2_length _ _ _ Hts). cbn [length] in Hlen.
    rewrite Hb, <- app_assoc. cbn [app]. rewrite (elements_joined n v vs (c :: t') ts rest n IH Hp Hls ltac:(lia) ltac:(lia)). done.
  - cbn in Hm. apply bind_Some in Hm as (ls & Hls%mapM_Some & [= <-]). destruct vs as [|kv vs]; inversion Hls as [|? t ? ts Ht Hts]; subst; [done|].
    assert (exists t', t = quote_char :: t') as [t' ->] by (apply bind_Some in Ht as (? & _ & [= <-]); eexists; reflexivity).
    rewrite value_object by done.
    assert (Hskip : exists r, skip ((joined ((quote_char :: t') :: ts) ++ ["}"%char]) ++ rest) = quote_char :: r) by (destruct ts; cbn; eauto).
    destruct Hskip as [r ->]. change (Ascii.eqb quote_char "}") with false. cbv iota.
    cbn [length] in Hn. rewrite length_app in Hn. cbn [length] in Hn.
    assert (Hlen : (length ((quote_char :: t') :: ts) <= S (length (joined ((quote_char :: t') :: ts))))%nat).
    { apply (joined_count (fun _ => True)), (texts_nonempty member_text (kv :: vs)); [done|]. intros x tx _ (y & _ & [= <-])%bind_Some. cbn. lia. }
    pose proof (Forall2_length _ _ _ Hts). cbn [length] in Hlen.
    rewrite <- app_assoc. cbn [app]. rewrite (members_joined n kv vs (quote_char :: t') ts rest n IH Hp Hls ltac:(lia) ltac:(lia)). done.
Qed.

(** What was marshalled is parsed back, for values without numbers and raw text. *)
Theorem Parse_Marshal v s : plain v = true -> Marshal v = Some s -> Parse s = Some v.
Proof.
  unfold Marshal, Parse. intros Hp (l & Hm & ->)%fmap_Some. rewrite String.list_ascii_of_string_of_list_ascii.
  assert (Hv : value (S (length l)) (l ++ []) = Some (v, [])) by (apply marshal_read; [done|done|lia]).
  rewrite app_nil_r in Hv. by rewrite Hv.
Qed.
(** Marshal leaves nothing for Compact to change. *)
Lemma compact_escape_char c l : compact_from true false (escape_char c ++ l) = escape_char c ++ compact_from true false l.
Proof. destruct c as [[] [] [] [] [] [] [] []]; reflexivity. Qed.
Lemma compact_quoted s l : compact_from false false (quoted s ++ l) = quoted s ++ compact_from false false l.
Proof.
  unfold quoted. cbn [app]. transitivity (quote_char :: compact_from true false ((escape (String.list_ascii_of_string s) ++ [quote_char]) ++ l)); [done|]. f_equal.
  rewrite <- !app_assoc. cbn [app]. generalize (String.list_ascii_of_string s) as cs. intros cs. induction cs as [|c cs IH]; [done|].
  change (escape (c :: cs)) with (escape_char c ++ escape cs). by rewrite <- !app_assoc, compact_escape_char, IH.
Qed.
Definition compacts (t : list ascii) : Prop := forall l, compact_from false false (t ++ l) = t ++ compact_from false false l.
Lemma compacts_app t u : compacts t -> compacts u -> compacts (t ++ u).
Proof. intros Ht Hu l. by rewrite <- !app_assoc, Ht, Hu. Qed.
Lemma compacts_char c : is_space c || is_html c || Ascii.eqb c quote_char = false -> compacts [c].
Proof.
  intros [[Hs Hh]%orb_false_elim Hq]%orb_false_elim l. cbn [app compact_from negb andb]. by rewrite Hs, Hh, Hq.
Qed.
Lemma compacts_joined ls : Forall compacts ls -> compacts (joined ls).
Proof.
  induction 1 as [|t ls Ht Hls IH]; [by intros l|]. destruct ls as [|u ls]; [done|].
  apply compacts_app; [done|]. apply (compacts_app [","%char] (joined (u :: ls))); [by apply compacts_char|done].
Qed.
Lemma compacts_texts {A} (f : A -> option (list ascii)) (l : list A) ls :
  Forall2 (fun x t => f x = Some t) l ls -> (forall x t, In x l -> f x = Some t -> compacts t) -> Forall compacts ls.
Proof.
  induction 1 as [|x t l ls Hf _ IH]; intros Hall; constructor; [apply (Hall x); [by left|done]|].
  apply IH. intros y u Hy. apply Hall. by right.
Qed.
Lemma marshal_compacts v : forall t, plain v = true -> marshal v = Some t -> compacts t.
Proof.
  induction v as [|b|lit|s|text|vs IH|vs IH] using Value_ind'; intros t Hp Hm; try done.
  - by injection Hm as <-.
  - by destruct b; injection Hm as <-.
  - injection Hm as <-. intros l. apply compact_quoted.
  - cbn in Hm. apply bind_Some in Hm as (ls & Hls%mapM_Some & [= <-]). apply (compacts_app ["["%char]); [by apply compacts_char|].
    apply compacts_app; [|by apply compacts_char]. apply compacts_joined, (compacts_texts marshal vs); [done|]. intros x u Hx.
    apply (proj1 (List.Forall_forall _ _) IH x Hx). by apply (forallb_In plain vs).
  - cbn in Hm. apply bind_Some in Hm as (ls & Hls%mapM_Some & [= <-]). apply (compacts_app ["{"%char]); [by apply compacts_char|].
    apply compacts_app; [|by apply compacts_char]. apply compacts_joined, (compacts_texts member_text vs); [done|]. intros x u Hx Hu.
    apply bind_Some in Hu as (y & Hy & [= <-]). apply (compacts_app (quoted x.1)); [intros l; apply compact_quoted|].
    apply (compacts_app [":"%char]); [by apply compacts_char|]. apply (proj1 (List.Forall_forall _ _) IH x Hx); [|done].
    by apply (forallb_In (fun kv => plain kv.2) vs).
Qed.
Theorem Marshal_compact v s : plain v = true -> Marshal v = Some s -> Marshal (Raw s) = Some s.
Proof.
  intros Hp Hm. pose proof (Parse_Marshal v s Hp Hm) as Hparse. unfold Marshal in *. cbn [marshal]. unfold Compact. rewrite Hparse.
  apply fmap_Some in Hm as (l & Hm & ->). destruct (marshal_head v l Hp Hm) as (c & l' & -> & _). cbn [String.string_of_list_ascii].
  rewrite decide_False by done. change (String c (String.string_of_list_ascii l')) with (String.string_of_list_ascii (c :: l')).
  rewrite String.list_ascii_of_string_of_list_ascii. cbn [fmap option_fmap option_map]. do 2 f_equal.
  pose proof (marshal_compacts v _ Hp Hm []) as Hc. by rewrite !app_nil_r in Hc.
Qed.

Lemma marshal_total v : plain v = true -> exists t, marshal v = Some t.
Proof.
  induction v as [|b|lit|s|text|vs IH|vs IH] using Value_ind'; intros Hp; try done; try (eexists; reflexivity).
  - cbn [plain] in Hp. cbn [marshal]. destruct (mapM_is_Some_2 marshal vs) as [ls ->]; [|eauto].
    apply List.Forall_forall. intros x Hx. apply (proj1 (List.Forall_forall _ _) IH x Hx). by apply (forallb_In plain vs).
  - cbn [plain] in Hp. cbn [marshal]. destruct (mapM_is_Some_2 member_text vs) as [ls Hls]; [|unfold member_text in Hls; rewrite Hls; eauto].
    apply List.Forall_forall. intros x Hx. destruct (proj1 (List.Forall_forall _ _) IH x Hx) as [t Ht]; [by apply (forallb_In (fun kv => plain kv.2) vs)|].
    change (is_Some (member_text x)). unfold member_text. rewrite Ht. eauto.
Qed.
Lemma Marshal_total v : plain v = true -> exists s, Marshal v = Some s.
Proof. intros [t Ht]%marshal_total. unfold Marshal. rewrite Ht. eauto. Qed.

(** * Unmarshal into Go values

    A value is decoded over the old one: null leaves it as it is, and a member is stored into the
    field whose name it has, without regard to case. *)

Definition Decoder (A : Type) : Type := A -> Value -> option A.
Definition string_ : Decoder string := fun old v => match v with Str s => Some s | Null => Some old | _ => None end.
Definition bool_ : Decoder bool := fun old v => match v with Bool b => Some b | Null => Some old | _ => None end.
Definition slice {A} (zero : A) (dec : Decoder A) : Decoder (list A) := fun _ v =>
  match v with Arr l => mapM (dec zero) l | Null => Some [] | _ => None end.
Definition map_ : Decoder (gmap string string) := fun old v =>
  match v with
  | Obj l => foldl (fun m kv => m ← m; s ← string_ EmptyString kv.2; Some (<[kv.1 := s]> m)) (Some old) l
  | Null => Some ∅
  | _ => None
  end.
Definition EqualFold (a b : string) : bool := bool_decide (strings.ToLower a = strings.ToLower b).
Definition field {A} (dec : Decoder A) (name : string) (ms : list (string * Value)) (zero : A) : option A :=
  foldl (fun a kv => a ← a; if EqualFold kv.1 name then dec a kv.2 else Some a) (Some zero) ms.
Definition members_of (v : Value) : option (list (string * Value)) := match v with Obj ms => Some ms | Null => Some [] | _ => None end.

(** * Go values as JSON *)

Definition omit_string (name s : string) : list (string * Value) := if decide (s = EmptyString) then [] else [(name, Str s)].
Definition of_slice {A} (enc : A -> Value) (l : list A) : Value := match l with [] => Null | _ => Arr (enc <$> l) end.
(** The keys of a map are sorted; nil and empty maps are told apart by the caller. *)
Definition of_map (m : gmap string string) : Value :=
  Obj ((fun kv => (kv.1, Str kv.2)) <$> sort.Sort (fun a b => String.ltb a.1 b.1) (map_to_list m)).
Definition omit_map (name : string) (m : gmap string string) : list (string * Value) := if decide (m = ∅) then [] else [(name, of_map m)].

Lemma foldl_map_strings l (m : gmap string string) : NoDup l.*1 -> (forall k, k ∈ l.*1 -> m !! k = None) ->
  foldl (fun m kv => m ← m; s ← string_ EmptyString kv.2; Some (<[kv.1 := s]> m)) (Some m) ((fun kv : string * string => (kv.1, Str kv.2)) <$> l)
  = Some (list_to_map l ∪ m).
Proof.
  revert m. induction l as [|[k s] l IH]; intros m Hnd Hm; cbn [fmap list_fmap foldl]; [f_equal; symmetry; apply (left_id ∅ (∪) m)|].
  cbn in Hnd. apply NoDup_cons in Hnd as [Hk Hnd]. cbn [mbind option_bind string_ fst snd]. rewrite IH; [|done|].
  - f_equal. rewrite list_to_map_cons, <- insert_union_l, insert_union_r; [done|]. by apply not_elem_of_list_to_map.
  - intros j Hj. rewrite lookup_insert_ne by (intros ->; done). apply Hm. by right.
Qed.
Lemma map_of_map m : map_ ∅ (of_map m) = Some m.
Proof.
  unfold of_map, map_. rewrite foldl_map_strings; [|rewrite sort.Sort_perm; apply NoDup_fst_map_to_list|intros; apply lookup_empty].
  f_equal. etransitivity; [apply (right_id ∅ (∪))|]. rewrite <- (list_to_map_to_list m) at 2. symmetry. apply list_to_map_proper; [apply NoDup_fst_map_to_list|].
  symmetry. apply sort.Sort_perm.
Qed.
Lemma forallb_strings (l : list (string * string)) : forallb (fun kv : string * Value => plain kv.2) ((fun kv => (kv.1, Str kv.2)) <$> l) = true.
Proof. by induction l. Qed.
Lemma plain_of_map m : plain (of_map m) = true.
Proof. apply forallb_strings. Qed.
Lemma slice_of_slice {A} (zero : A) dec enc l old : (forall a, dec zero (enc a) = Some a) -> slice zero dec old (of_slice enc l) = Some l.
Proof.
  intros Hd. destruct l as [|a l]; [done|]. cbn [slice of_slice]. generalize (a :: l) as l'. intros l'.
  apply mapM_Some. induction l'; cbn; constructor; auto.
Qed.
Lemma plain_of_slice {A} (enc : A -> Value) l : (forall a, plain (enc a) = true) -> plain (of_slice enc l) = true.
Proof. intros He. destruct l as [|a l]; [done|]. cbn [of_slice plain]. generalize (a :: l). intros l'. induction l' as [|b l' IH]; [done|]. cbn. by rewrite He. Qed.

(** Text with its quotes written as apostrophes. *)
Definition q (s : string) : string := strings.ReplaceChar "'"%char quote_char s.
Example parsed_json :
  Parse (q " {'a' : [1.5e3, -0,'x\u00e9\ud83d\ude00\/'] ,'b':null}") =
    Some (Obj [("a", Arr [Num "1.5e3"; Num "-0"; Str ("x" +:+ String.string_of_list_ascii (ascii_of_nat <$> [195; 169; 240; 159; 152; 128; 47]%nat))]); ("b", Null)])
  /\ Parse "01" = None /\ Parse (q "['a',]") = None /\ Parse (q "{'a':1}x") = None /\ Parse "[ ]" = Some (Arr [])
  /\ String.string_of_list_ascii <$> Compact (q " {'a b' : '<\'> ' }") = Some (q "{'a b':'\u003c\'\u003e '}")
  /\ Marshal (Obj [("k", Str "a<b"); ("raw", Raw " [ 1 ]"); ("nil", Raw "")]) = Some (q "{'k':'a\u003cb','raw':[1],'nil':null}").
Proof. vm_compute. repeat split. Qed.

End json.
