(* ===== verification/Notification.v ===== *)
(** The data of the notification services (notification-eventmanager/types/types.go): events, receivers,
    notifications, the messages of each kind of receiver, and their JSON. *)
From Stdlib Require Import ZArith Lia Ascii String.
From stdpp Require Import base tactics option gmap strings list pretty.
From S2P Require Import Prelude GoStd Formats Http Encoding Json.

Module types.

Definition SyncType : string := "sync".
Definition PolicyType : string := "policy".
Definition DeployType : string := "deploy".
Definition AutoDeployType : string := "auto_deploy".
Definition DeployCommitType : string := "deploy_commit".
Definition AutoDeployCommitType : string := "auto_deploy_commit".
Definition MonitorType : string := "monitor".
Definition UserTestType : string := "user_test".
Definition ConfigChangedType : string := "config_changed".

Definition SlackReceiver : string := "slack".
Definition EmailReceiver : string := "email".
Definition BrowserReceiver : string := "browser".
Definition StackdriverReceiver : string := "stackdriver".
Definition OpsGenieReceiver : string := "opsgenie".
Definition OpsGenieEUReceiver : string := "opsgenie-eu".
Definition PagerDutyReceiver : string := "pagerduty".

(** A [json.RawMessage]; the empty text is the nil one. *)
Definition RawMessage : Type := string.

(** * Alerts *)

Record Alert : Type := mkAlert {
  al_Status : string;
  al_Labels : gmap string string;
  al_Annotations : gmap string string;
  StartsAt : time.Time;
  EndsAt : time.Time;
  GeneratorURL : string }.

Record WebhookAlert : Type := mkWebhookAlert {
  wa_Version : string;
  wa_GroupKey : string;
  wa_Status : string;
  wa_Receiver : string;
  wa_GroupLabels : gmap string string;
  wa_CommonLabels : gmap string string;
  wa_CommonAnnotations : gmap string string;
  wa_ExternalURL : string;
  wa_Alerts : list Alert;
  wa_SettingsURL : string;
  wa_AlertsConfigURL : string;
  wa_WeaveCloudURL : gmap string string }.
Definition set_links (settings alertsConfig : string) (cloud : gmap string string) (wa : WebhookAlert) : WebhookAlert :=
  mkWebhookAlert (wa_Version wa) (wa_GroupKey wa) (wa_Status wa) (wa_Receiver wa) (wa_GroupLabels wa) (wa_CommonLabels wa)
    (wa_CommonAnnotations wa) (wa_ExternalURL wa) (wa_Alerts wa) settings alertsConfig cloud.

Record MonitorData : Type := mkMonitorData {
  md_GroupKey : string;
  md_Status : string;
  md_Receiver : string;
  md_GroupLabels : gmap string string;
  md_CommonLabels : gmap string string;
  md_CommonAnnotations : gmap string string;
  md_Alerts : list Alert }.

(** * Messages

    A nil slice and one without elements are not told apart. *)

Record SlackAttachment : Type := mkAttachment {
  at_Title : string;
  TitleLink : string;
  Pretext : string;
  Fallback : string;
  at_Text : string;
  Author : string;
  at_Color : string;
  MrkdwnIn : list string }.
Definition zero_attachment : SlackAttachment :=
  mkAttachment EmptyString EmptyString EmptyString EmptyString EmptyString EmptyString EmptyString [].

Record SlackMessage : Type := mkSlackMessage {
  Channel : string;
  Username : string;
  sm_Text : string;
  IconEmoji : string;
  IconURL : string;
  LinkNames : bool;
  sm_Attachments : list SlackAttachment }.
Definition slack_text (text : string) : SlackMessage := mkSlackMessage EmptyString EmptyString text EmptyString EmptyString false [].
Definition set_sm_Text (text : string) (m : SlackMessage) : SlackMessage :=
  mkSlackMessage (Channel m) (Username m) text (IconEmoji m) (IconURL m) (LinkNames m) (sm_Attachments m).
Definition set_sm_Attachments (l : list SlackAttachment) (m : SlackMessage) : SlackMessage :=
  mkSlackMessage (Channel m) (Username m) (sm_Text m) (IconEmoji m) (IconURL m) (LinkNames m) l.

Record EmailMessage : Type := mkEmailMessage { Subject : string; Body : string }.

Record BrowserMessage : Type := mkBrowserMessage {
  bm_Type : string; bm_Text : string; bm_Attachments : list SlackAttachment; bm_Timestamp : time.Time }.

Record StackdriverMessage : Type := mkStackdriverMessage {
  sd_Timestamp : time.Time; Payload : RawMessage; sd_Labels : gmap string string }.

Record OpsGenieMessage : Type := mkOpsGenieMessage {
  og_Message : string;
  Alias : string;
  og_Status : string;
  og_Description : string;
  Actions : list string;
  Tags : list string;
  Details : gmap string string;
  Entity : string;
  og_Source : string;
  Priority : string;
  og_User : string;
  Note : string }.

Record Link : Type := mkLink { Href : string; lk_Text : string }.
Record PagerDutyPayload : Type := mkPagerDutyPayload {
  Summary : string;
  pp_Source : string;
  Severity : string;
  pp_Timestamp : time.Time;
  Component : string;
  pp_Group : string;
  pp_Class : string;
  CustomDetails : gmap string string }.
Record PagerDutyMessage : Type := mkPagerDutyMessage {
  RoutingKey : string;
  EventAction : string;
  DedupKey : string;
  pd_Payload : option PagerDutyPayload;
  Links : list (option Link) }.

(** * Events *)

Record Event : Type := mkEvent {
  ev_ID : string;
  ev_Type : string;
  ev_InstanceID : string;
  InstanceName : string;
  ev_Timestamp : time.Time;
  ev_Data : RawMessage;
  Messages : gmap string RawMessage;
  ev_Text : option string;
  Metadata : gmap string string }.
Definition zero_event : Event := mkEvent EmptyString EmptyString EmptyString EmptyString 0 EmptyString ∅ None ∅.
Definition set_ev_ID (id : string) (e : Event) : Event :=
  mkEvent id (ev_Type e) (ev_InstanceID e) (InstanceName e) (ev_Timestamp e) (ev_Data e) (Messages e) (ev_Text e) (Metadata e).
Definition set_ev_Type (ty : string) (e : Event) : Event :=
  mkEvent (ev_ID e) ty (ev_InstanceID e) (InstanceName e) (ev_Timestamp e) (ev_Data e) (Messages e) (ev_Text e) (Metadata e).
Definition set_ev_InstanceID (id : string) (e : Event) : Event :=
  mkEvent (ev_ID e) (ev_Type e) id (InstanceName e) (ev_Timestamp e) (ev_Data e) (Messages e) (ev_Text e) (Metadata e).
Definition set_InstanceName (name : string) (e : Event) : Event :=
  mkEvent (ev_ID e) (ev_Type e) (ev_InstanceID e) name (ev_Timestamp e) (ev_Data e) (Messages e) (ev_Text e) (Metadata e).
Definition set_ev_Timestamp (t : time.Time) (e : Event) : Event :=
  mkEvent (ev_ID e) (ev_Type e) (ev_InstanceID e) (InstanceName e) t (ev_Data e) (Messages e) (ev_Text e) (Metadata e).
Definition set_ev_Data (d : RawMessage) (e : Event) : Event :=
  mkEvent (ev_ID e) (ev_Type e) (ev_InstanceID e) (InstanceName e) (ev_Timestamp e) d (Messages e) (ev_Text e) (Metadata e).
Definition set_Messages (m : gmap string RawMessage) (e : Event) : Event :=
  mkEvent (ev_ID e) (ev_Type e) (ev_InstanceID e) (InstanceName e) (ev_Timestamp e) (ev_Data e) m (ev_Text e) (Metadata e).
Definition set_ev_Text (t : option string) (e : Event) : Event :=
  mkEvent (ev_ID e) (ev_Type e) (ev_InstanceID e) (InstanceName e) (ev_Timestamp e) (ev_Data e) (Messages e) t (Metadata e).
Definition set_Metadata (m : gmap string string) (e : Event) : Event :=
  mkEvent (ev_ID e) (ev_Type e) (ev_InstanceID e) (InstanceName e) (ev_Timestamp e) (ev_Data e) (Messages e) (ev_Text e) m.

(** Slices that may be nil are options. *)
Record EventType : Type := mkEventType {
  et_Name : string;
  DisplayName : string;
  Description : string;
  DefaultReceiverTypes : option (list string);
  HiddenReceiverTypes : option (list string);
  HideUIConfig : bool;
  FeatureFlag : string }.
#[export] Instance EventType_dec : EqDecision EventType.
Proof. solve_decision. Defined.
(** [(e EventType) Equals] *)
Definition Equals (e other : EventType) : bool := bool_decide (e = other).

Record Receiver : Type := mkReceiver {
  rc_ID : string;
  RType : string;
  rc_InstanceID : string;
  AddressData : RawMessage;
  EventTypes : option (list string) }.
Definition set_rc_ID (id : string) (r : Receiver) : Receiver := mkReceiver id (RType r) (rc_InstanceID r) (AddressData r) (EventTypes r).
Definition set_EventTypes (l : option (list string)) (r : Receiver) : Receiver := mkReceiver (rc_ID r) (RType r) (rc_InstanceID r) (AddressData r) l.

Record Notification : Type := mkNotification {
  ReceiverType : string;
  nt_InstanceID : string;
  nt_Address : RawMessage;
  nt_Data : RawMessage;
  nt_Event : Event }.

(** * JSON *)

Import json.

Definition time_json (t : time.Time) : Value := Str (RFC3339Nano t).
Definition Alert_json (a : Alert) : Value :=
  Obj (omit_string "status" (al_Status a) ++ omit_map "labels" (al_Labels a) ++ omit_map "annotations" (al_Annotations a)
       ++ [("startsAt", time_json (StartsAt a)); ("endsAt", time_json (EndsAt a))] ++ omit_string "generatorURL" (GeneratorURL a)).
Definition omit_alerts (l : list Alert) : list (string * Value) := match l with [] => [] | _ => [("alerts", Arr (Alert_json <$> l))] end.
Definition WebhookAlert_json (wa : WebhookAlert) : Value :=
  Obj (omit_string "version" (wa_Version wa) ++ omit_string "groupKey" (wa_GroupKey wa) ++ omit_string "status" (wa_Status wa)
       ++ omit_string "receiver" (wa_Receiver wa) ++ omit_map "groupLabels" (wa_GroupLabels wa) ++ omit_map "commonLabels" (wa_CommonLabels wa)
       ++ omit_map "commonAnnotations" (wa_CommonAnnotations wa) ++ omit_string "externalURL" (wa_ExternalURL wa) ++ omit_alerts (wa_Alerts wa)
       ++ omit_string "settingsURL" (wa_SettingsURL wa) ++ omit_string "alertsConfigURL" (wa_AlertsConfigURL wa) ++ omit_map "weaveCloudURL" (wa_WeaveCloudURL wa)).
Definition MonitorData_json (md : MonitorData) : Value :=
  Obj (omit_string "groupKey" (md_GroupKey md) ++ omit_string "status" (md_Status md) ++ omit_string "receiver" (md_Receiver md)
       ++ omit_map "groupLabels" (md_GroupLabels md) ++ omit_map "commonLabels" (md_CommonLabels md)
       ++ omit_map "commonAnnotations" (md_CommonAnnotations md) ++ omit_alerts (md_Alerts md)).

Definition omit_strings (name : string) (l : list string) : list (string * Value) := match l with [] => [] | _ => [(name, Arr (Str <$> l))] end.
Definition SlackAttachment_json (a : SlackAttachment) : Value :=
  Obj (omit_string "title" (at_Title a) ++ omit_string "title_link" (TitleLink a) ++ omit_string "pretext" (Pretext a)
       ++ omit_string "fallback" (Fallback a) ++ [("text", Str (at_Text a))] ++ omit_string "author_name" (Author a)
       ++ omit_string "color" (at_Color a) ++ omit_strings "mrkdwn_in" (MrkdwnIn a)).
Definition SlackMessage_json (m : SlackMessage) : Value :=
  Obj (omit_string "channel" (Channel m) ++ omit_string "username" (Username m) ++ [("text", Str (sm_Text m))]
       ++ omit_string "icon_emoji" (IconEmoji m) ++ omit_string "icon_url" (IconURL m)
       ++ (if LinkNames m then [("link_names", Bool true)] else []) ++ [("attachments", of_slice SlackAttachment_json (sm_Attachments m))]).
Definition EmailMessage_json (m : EmailMessage) : Value := Obj [("subject", Str (Subject m)); ("body", Str (Body m))].
Definition BrowserMessage_json (m : BrowserMessage) : Value :=
  Obj [("type", Str (bm_Type m)); ("text", Str (bm_Text m)); ("attachments", of_slice SlackAttachment_json (bm_Attachments m));
       ("timestamp", time_json (bm_Timestamp m))].
Definition StackdriverMessage_json (m : StackdriverMessage) : Value :=
  Obj [("Timestamp", time_json (sd_Timestamp m)); ("Payload", Raw (Payload m)); ("Labels", of_map (sd_Labels m))].
Definition OpsGenieMessage_json (m : OpsGenieMessage) : Value :=
  Obj [("Message", Str (og_Message m)); ("Alias", Str (Alias m)); ("Status", Str (og_Status m)); ("Description", Str (og_Description m));
       ("Actions", of_slice Str (Actions m)); ("Tags", of_slice Str (Tags m)); ("Details", of_map (Details m)); ("Entity", Str (Entity m));
       ("Source", Str (og_Source m)); ("Priority", Str (Priority m)); ("User", Str (og_User m)); ("Note", Str (Note m))].
Definition Link_json (l : option Link) : Value :=
  match l with Some l => Obj [("href", Str (Href l)); ("text", Str (lk_Text l))] | None => Null end.
Definition PagerDutyPayload_json (p : PagerDutyPayload) : Value :=
  Obj ([("summary", Str (Summary p)); ("source", Str (pp_Source p)); ("severity", Str (Severity p)); ("timestamp", time_json (pp_Timestamp p))]
       ++ omit_string "component" (Component p) ++ omit_string "group" (pp_Group p) ++ omit_string "class" (pp_Class p)
       ++ omit_map "custom_details" (CustomDetails p)).
Definition PagerDutyMessage_json (m : PagerDutyMessage) : Value :=
  Obj (omit_string "routing_key" (RoutingKey m) ++ [("event_action", Str (EventAction m))] ++ omit_string "dedup_key" (DedupKey m)
       ++ [("payload", match pd_Payload m with Some p => PagerDutyPayload_json p | None => Null end)]
       ++ match Links m with [] => [] | l => [("links", Arr (Link_json <$> l))] end).

(** What the senders read. *)
Definition decode_EmailMessage (s : RawMessage) : option EmailMessage :=
  v ← Parse s; ms ← members_of v;
  subject ← field string_ "subject" ms EmptyString; body ← field string_ "body" ms EmptyString;
  Some (mkEmailMessage subject body).
Definition decode_OpsGenieMessage (s : RawMessage) : option OpsGenieMessage :=
  v ← Parse s; ms ← members_of v;
  let str name := field string_ name ms EmptyString in
  message ← str "Message"; alias ← str "Alias"; status ← str "Status"; description ← str "Description";
  actions ← field (slice EmptyString string_) "Actions" ms []; tags ← field (slice EmptyString string_) "Tags" ms [];
  details ← field map_ "Details" ms ∅; entity ← str "Entity"; source ← str "Source"; priority ← str "Priority"; user ← str "User"; note ← str "Note";
  Some (mkOpsGenieMessage message alias status description actions tags details entity source priority user note).
Definition time_ : Decoder time.Time := fun old v =>
  match v with Str s => ParseRFC3339Nano s | Null => Some old | _ => None end.
Definition link_ : Decoder (option Link) := fun _ v =>
  match v with
  | Null => Some None
  | _ => ms ← members_of v; href ← field string_ "href" ms EmptyString; text ← field string_ "text" ms EmptyString; Some (Some (mkLink href text))
  end.
Definition decode_PagerDutyPayload (v : Value) : option PagerDutyPayload :=
  ms ← members_of v;
  let str name := field string_ name ms EmptyString in
  summary ← str "summary"; source ← str "source"; severity ← str "severity"; timestamp ← field time_ "timestamp" ms 0;
  component ← str "component"; group ← str "group"; class ← str "class"; details ← field map_ "custom_details" ms ∅;
  Some (mkPagerDutyPayload summary source severity timestamp component group class details).
Definition decode_PagerDutyMessage (s : RawMessage) : option PagerDutyMessage :=
  v ← Parse s; ms ← members_of v;
  let str name := field string_ name ms EmptyString in
  routing ← str "routing_key"; action ← str "event_action"; dedup ← str "dedup_key";
  payload ← field (fun _ v => match v with Null => Some None | _ => p ← decode_PagerDutyPayload v; Some (Some p) end) "payload" ms None;
  links ← field (slice None link_) "links" ms [];
  Some (mkPagerDutyMessage routing action dedup payload links).

(** [EventTypesFromFile]: the decoded list, by name; [HiddenReceiverTypes] is never nil. *)
Definition EventTypesFromFile (l : list EventType) : gmap string EventType :=
  foldl (fun result e =>
    let e := mkEventType (et_Name e) (DisplayName e) (Description e) (DefaultReceiverTypes e)
               (Some (default [] (HiddenReceiverTypes e))) (HideUIConfig e) (FeatureFlag e) in
    <[et_Name e := e]> result) ∅ l.

End types.
