(* ===== verification/NotifyDB.v ===== *)
(** The database of the notification services (notification-eventmanager/db/postgres): its tables, the statements of
    each method, transactions, and what a failing statement leaves behind. *)
From Stdlib Require Import ZArith Lia Ascii String.
From stdpp Require Import base tactics option gmap strings list pretty.
From S2P Require Import Prelude GoStd Json Notification.

(** * Tables (db/migrations) *)

Record EventTypeRow : Type := mkEventTypeRow {
  display_name : string;
  description : string;
  default_receiver_types : list string;
  hide_ui_config : bool;
  feature_flag : option string;
  hidden_receiver_types : list string }.
Record ReceiverRow : Type := mkReceiverRow { instance_id : string; receiver_type : string; address_data : string }.
Record EventRow : Type := mkEventRow {
  event_type : string;
  event_instance_id : string;
  timestamp : time.Time;
  messages : gmap string string;
  text : option string;
  data : string;
  metadata : gmap string string }.

Record Tables : Type := mkTables {
  event_types : gmap string EventTypeRow;
  receivers : gmap string ReceiverRow;
  receiver_event_types : gset (string * string);
  events : gmap string EventRow;
  instances_initialized : gset string }.
Definition set_event_types (m : gmap string EventTypeRow) (t : Tables) : Tables :=
  mkTables m (receivers t) (receiver_event_types t) (events t) (instances_initialized t).
Definition set_receivers (m : gmap string ReceiverRow) (t : Tables) : Tables :=
  mkTables (event_types t) m (receiver_event_types t) (events t) (instances_initialized t).
Definition set_receiver_event_types (s : gset (string * string)) (t : Tables) : Tables :=
  mkTables (event_types t) (receivers t) s (events t) (instances_initialized t).
Definition set_events (m : gmap string EventRow) (t : Tables) : Tables :=
  mkTables (event_types t) (receivers t) (receiver_event_types t) m (instances_initialized t).
Definition set_instances_initialized (s : gset string) (t : Tables) : Tables :=
  mkTables (event_types t) (receivers t) (receiver_event_types t) (events t) s.

(** Errors: no row for [Scan], what PostgreSQL or its driver reports, and the errors of the methods. *)
Inductive dberror : Type :=
  | ErrNoRows
  | PQError (text : string)
  | DBError (text : string).
#[export] Instance dberror_dec : EqDecision dberror.
Proof. solve_decision. Defined.

(** The committed tables; which statements fail and why, by their number; the identifiers
    [uuid_generate_v4] gives; what a column keeps of an instant. *)
Record NotifyDB : Type := mkNotifyDB {
  tables : Tables;
  fault : nat -> option string;
  statements : nat;
  uuids : nat -> string;
  n_uuids : nat }.
Definition set_tables (t : Tables) (d : NotifyDB) : NotifyDB := mkNotifyDB t (fault d) (statements d) (uuids d) (n_uuids d).
Definition set_statements (n : nat) (d : NotifyDB) : NotifyDB := mkNotifyDB (tables d) (fault d) n (uuids d) (n_uuids d).
Definition set_n_uuids (n : nat) (d : NotifyDB) : NotifyDB := mkNotifyDB (tables d) (fault d) (statements d) (uuids d) n.

(** * Statements and transactions (postgres.go, utils/instrumenteddb.go)

    A transaction sees what is committed with its own writes on top, and the writes are committed
    together. *)

Definition Op : Type -> Type := M NotifyDB dberror.
Definition Tx : Type -> Type := M (NotifyDB * (Tables -> Tables)) dberror.

(** One statement, which may fail instead. *)
Definition tick : Op unit := fun d =>
  let d' := set_statements (S (statements d)) d in
  match fault d (statements d) with
  | Some text => (Err (PQError text), d')
  | None => (Ret tt, d')
  end.
Definition uuid_generate_v4 : Op string := fun d => (Ret (uuids d (n_uuids d)), set_n_uuids (S (n_uuids d)) d).
(** A call that is not part of the transaction: it runs on a connection of its own. *)
Definition elsewhere {A} (m : Op A) : Tx A := zoom fst (fun d t => (d, t.2)) m.

(** What a statement makes of the tables: an error, or its rows and the new tables. *)
Definition Statement (A : Type) : Type := Tables -> dberror + A * Tables.
Definition select {A} (f : Tables -> A) : Statement A := fun t => inr (f t, t).
Definition update (f : Tables -> Tables) : Statement unit := fun t => inr (tt, f t).

(** A statement outside a transaction is committed at once. *)
Definition run {A} (f : Statement A) : Op A :=
  tick ;;; fun d => match f (tables d) with inl e => (Err e, d) | inr (a, t) => (Ret a, set_tables t d) end.
Definition run_tx {A} (f : Statement A) : Tx A :=
  elsewhere tick ;;;
  fun t =>
    match f (t.2 (tables t.1)) with
    | inl e => (Err e, t)
    | inr (a, _) => (Ret a, (t.1, fun tabs => match f (t.2 tabs) with inr (_, tabs') => tabs' | inl _ => t.2 tabs end))
    end.

Definition instances_initialized_pkey : dberror :=
  PQError "pq: duplicate key value violates unique constraint 'instances_initialized_pkey'".

(** [withTx]: begin, run, commit or roll back, where the error of a second initialization is ignored.
    The result is what the function left in the variables it captures, when it ran, and the error. *)
Definition runTx {A} (f : Tx A) : Op (option (dberror + A) * option dberror) :=
  do begun <- try tick;
  match begun with
  | inl err => ret (None, Some err)
  | inr _ => fun d =>
      match f (d, id) with
      | (Ret a, (d', w)) =>
          (do committed <- try tick;
           match committed with
           | inl err => ret (Some (inr a), Some err)
           | inr _ => modify (fun d => set_tables (w (tables d)) d) ;;; ret (Some (inr a), None)
           end) d'
      | (Err e, (d', _)) => (Ret (Some (inl e), if decide (e = instances_initialized_pkey) then None else Some e), d')
      | (Panic, (d', _)) => (Panic, d')
      | (Deadlock, (d', _)) => (Deadlock, d')
      | (OutOfFuel, (d', _)) => (OutOfFuel, d')
      end
  end.
Definition withTx (f : Tx unit) : Op unit :=
  do r <- runTx f; match r.2 with Some err => throw err | None => ret tt end.

(** The text [json.Marshal] gives for a RawMessage. *)
Definition encoded {S} (raw : types.RawMessage) : M S dberror string :=
  or_else (json.Marshal (json.Raw raw)) (DBError "json: error calling MarshalJSON for type json.RawMessage").

(** * Receivers (receiver.go) *)

Section db.
Context `{GoRange}.
(** The text of an identifier as a uuid, in the form it is stored in. *)
Variable uuid_of : string -> option string.

Definition invalid_uuid : dberror := PQError "pq: invalid input syntax for uuid".
Definition receivers_pkey : dberror := PQError "pq: duplicate key value violates unique constraint 'receivers_pkey'".
Definition events_pkey : dberror := PQError "pq: duplicate key value violates unique constraint 'events_pkey'".
Definition event_types_fkey : dberror := PQError "pq: update or delete on table 'event_types' violates foreign key constraint".

Definition subscriptions_fkey : dberror := PQError "pq: insert or update on table 'receiver_event_types' violates foreign key constraint".
Definition subscriptions_pkey : dberror := PQError "pq: duplicate key value violates unique constraint 'receiver_event_types_pkey'".
Definition events_fkey : dberror := PQError "pq: insert or update on table 'events' violates foreign key constraint".

Definition is_initialized (instanceID : string) : Statement bool := select (fun t => bool_decide (instanceID ∈ instances_initialized t)).
Definition set_initialized (instanceID : string) : Statement unit := fun t =>
  if decide (instanceID ∈ instances_initialized t) then inl instances_initialized_pkey
  else inr (tt, set_instances_initialized ({[instanceID]} ∪ instances_initialized t) t).
Definition insert_receiver (id : string) (row : ReceiverRow) : Statement string := fun t =>
  match receivers t !! id with
  | Some _ => inl receivers_pkey
  | None => inr (id, set_receivers (<[id := row]> (receivers t)) t)
  end.
(** The names of the event types for which a condition holds. *)
Definition types_where (P : string -> EventTypeRow -> bool) (t : Tables) : gset string :=
  dom (filter (fun kv => P kv.1 kv.2) (event_types t)).
Definition subscriptions (id : string) (names : gset string) : gset (string * string) := set_map (fun name => (id, name)) names.
(** Rows put into the event types of receivers: both sides must exist, and a row that is there is an
    error unless conflicts do nothing. *)
Definition references (t : Tables) (p : string * string) : bool := bool_decide (p.1 ∈ dom (receivers t)) && bool_decide (p.2 ∈ dom (event_types t)).
Definition insert_subscriptions (on_conflict_do_nothing : bool) (rows : gset (string * string)) : Statement unit := fun t =>
  if negb (forallb (references t) (elements rows)) then inl subscriptions_fkey
  else if negb on_conflict_do_nothing && negb (bool_decide (rows ∩ receiver_event_types t = ∅)) then inl subscriptions_pkey
  else inr (tt, set_receiver_event_types (receiver_event_types t ∪ rows) t).
Definition set_receiver_defaults (id rtype : string) : Statement unit := fun t =>
  insert_subscriptions false (subscriptions id (types_where (fun _ row => bool_decide (rtype ∈ default_receiver_types row)) t)) t.

(** [createReceiverTX]: only what fails inside the transaction is returned. *)
Definition createReceiverTX (rtype : string) (address : types.RawMessage) (instanceID : string) : Op string :=
  do encodedAddress <- encoded address;
  do r <- runTx (
    do id <- elsewhere uuid_generate_v4;
    do receiverID <- run_tx (insert_receiver id (mkReceiverRow instanceID rtype encodedAddress));
    run_tx (set_receiver_defaults receiverID rtype) ;;;
    ret receiverID);
  match r.1 with
  | Some (inr receiverID) => ret receiverID
  | Some (inl userError) => throw userError
  | None => ret EmptyString
  end.

(** [checkInstanceDefaults]: the first receiver is created by a transaction of its own. *)
Definition checkInstanceDefaults (instanceID : string) : Op unit := withTx (
  do initialized <- run_tx (is_initialized instanceID);
  if initialized : bool then ret tt
  else
    elsewhere (createReceiverTX types.BrowserReceiver "null" instanceID) ;;;
    run_tx (set_initialized instanceID)).

(** The event types of a receiver, in the order [array_agg] gives them. *)
Definition types_of (id : string) (t : Tables) : gset string :=
  set_map snd (filter (fun p : string * string => p.1 = id) (receiver_event_types t)).
Definition array_agg (s : gset string) : list string := (go_range (gset_to_gmap tt s)).*1.
Definition ReceiverFromRow (id : string) (row : ReceiverRow) (names : gset string) : types.Receiver :=
  types.mkReceiver id (receiver_type row) (instance_id row) (address_data row) (Some (array_agg names)).

Definition list_receivers (instanceID : string) : Statement (list types.Receiver) := select (fun t =>
  (fun kv => ReceiverFromRow kv.1 kv.2 (types_of kv.1 t)) <$> filter (fun kv => instance_id kv.2 = instanceID) (go_range (receivers t))).
Definition ListReceivers (instanceID : string) : Op (list types.Receiver) :=
  checkInstanceDefaults instanceID ;;; run (list_receivers instanceID).

Definition CreateReceiver (receiver : types.Receiver) (instanceID : string) : Op string :=
  checkInstanceDefaults instanceID ;;;
  createReceiverTX (types.RType receiver) (types.AddressData receiver) instanceID.

(** The event types are joined from the left, so that the conditions on them leave no row out. *)
Definition get_receiver (receiverID instanceID : string) (featureFlags : list string) (omitHiddenEventTypes : bool) : Statement types.Receiver := fun t =>
  match uuid_of receiverID with
  | None => inl invalid_uuid
  | Some id =>
      match receivers t !! id with
      | Some row => if decide (instance_id row = instanceID) then inr (ReceiverFromRow id row (types_of id t), t) else inl ErrNoRows
      | None => inl ErrNoRows
      end
  end.
Definition GetReceiver (instanceID receiverID : string) (featureFlags : list string) (omitHiddenEventTypes : bool) : Op types.Receiver :=
  checkInstanceDefaults instanceID ;;; run (get_receiver receiverID instanceID featureFlags omitHiddenEventTypes).

Definition receiver_type_of (receiverID instanceID : string) : Statement string := fun t =>
  match uuid_of receiverID with
  | None => inl invalid_uuid
  | Some id =>
      match receivers t !! id with
      | Some row => if decide (instance_id row = instanceID) then inr (receiver_type row, t) else inl ErrNoRows
      | None => inl ErrNoRows
      end
  end.
(** The given names that are not those of event types the receiver may be configured for. *)
Definition configurable (rtype : string) (row : EventTypeRow) : bool :=
  negb (hide_ui_config row) && bool_decide (rtype ∉ hidden_receiver_types row).
Definition bad_types (names : list string) (rtype : string) : Statement (list string) := select (fun t =>
  filter (fun name => name ∉ types_where (fun _ row => configurable rtype row) t) names).
Definition update_address (id address : string) : Statement unit := update (fun t =>
  match receivers t !! id with
  | Some row => set_receivers (<[id := mkReceiverRow (instance_id row) (receiver_type row) address]> (receivers t)) t
  | None => t
  end).
(** The event types that stay: those given, and those the client does not know of. *)
Definition kept_types (names featureFlags : list string) : Tables -> gset string := types_where (fun name row =>
  bool_decide (name ∈ names) || negb (match feature_flag row with None => true | Some flag => bool_decide (flag ∈ featureFlags) end) || hide_ui_config row).
Definition remove_types (id : string) (names featureFlags : list string) : Statement unit := update (fun t =>
  set_receiver_event_types (filter (fun p : string * string => ~ (p.1 = id /\ p.2 ∉ kept_types names featureFlags t)) (receiver_event_types t)) t).
Definition add_types (id : string) (names : list string) : Statement unit := insert_subscriptions true (subscriptions id (list_to_set names)).

Definition UpdateReceiver (receiver : types.Receiver) (instanceID : string) (featureFlags : list string) : Op unit :=
  checkInstanceDefaults instanceID ;;;
  do encodedAddress <- encoded (types.AddressData receiver);
  let names := default [] (types.EventTypes receiver) in
  do r <- runTx (
    do _ <- run_tx (receiver_type_of (types.rc_ID receiver) instanceID);
    do badTypes <- run_tx (bad_types names (types.RType receiver));
    match badTypes with
    | _ :: _ => ret (Some (DBError ("Given event types do not exist or cannot be modified: " +:+ strings.Join badTypes ", ")))
    | [] =>
        let id := default EmptyString (uuid_of (types.rc_ID receiver)) in
        run_tx (update_address id encodedAddress) ;;;
        run_tx (remove_types id names featureFlags) ;;;
        run_tx (add_types id names) ;;;
        ret None
    end);
  match r with
  | (Some (inr (Some userError)), _) => throw userError
  | (_, Some err) => throw err
  | (_, None) => ret tt
  end.

(** Deleting a receiver deletes its event types with it. *)
Definition delete_receiver (receiverID instanceID : string) : Statement Z := fun t =>
  match uuid_of receiverID with
  | None => inl invalid_uuid
  | Some id =>
      match receivers t !! id with
      | Some row =>
          if decide (instance_id row = instanceID)
          then inr (1, set_receiver_event_types (filter (fun p : string * string => p.1 <> id) (receiver_event_types t)) (set_receivers (delete id (receivers t)) t))
          else inr (0, t)
      | None => inr (0, t)
      end
  end.
Definition DeleteReceiver (instanceID receiverID : string) : Op Z :=
  checkInstanceDefaults instanceID ;;; run (delete_receiver receiverID instanceID).

Definition receivers_for_event (instanceID eventType : string) : Statement (list types.Receiver) := select (fun t =>
  (fun kv => ReceiverFromRow kv.1 kv.2 {[eventType]})
  <$> filter (fun kv => instance_id kv.2 = instanceID /\ (kv.1, eventType) ∈ receiver_event_types t) (go_range (receivers t))).
Definition GetReceiversForEvent (event : types.Event) : Op (list types.Receiver) :=
  checkInstanceDefaults (types.ev_InstanceID event) ;;;
  run (receivers_for_event (types.ev_InstanceID event) (types.ev_Type event)).

(** * Events (event.go) *)

Definition feature_flag_of (name : string) : Statement (option string) := fun t =>
  match event_types t !! name with Some row => inr (feature_flag row, t) | None => inl ErrNoRows end.
Definition insert_event (id : string) (row : EventRow) : Statement string := fun t =>
  match events t !! id with
  | Some _ => inl events_pkey
  | None => if decide (event_type row ∉ dom (event_types t)) then inl events_fkey else inr (id, set_events (<[id := row]> (events t)) t)
  end.
Definition encoded_messages {S} (m : gmap string types.RawMessage) : M S dberror (gmap string string) :=
  fold_m (fun acc kv => do raw <- encoded kv.2; ret (<[kv.1 := raw]> acc)) (go_range m) ∅.

(** [CreateEvent]: no event is stored, and no error returned, when the instance lacks the feature
    flag of the type. *)
Definition CreateEvent (event : types.Event) (featureFlags : list string) : Op string :=
  do encodedMessages <- encoded_messages (types.Messages event);
  do r <- runTx (
    do found <- try (run_tx (feature_flag_of (types.ev_Type event)));
    match found with
    | inl ErrNoRows => throw (DBError ("event type " +:+ types.ev_Type event +:+ " does not exist"))
    | inl err => throw err
    | inr wantFlag =>
        let want := default EmptyString wantFlag in
        if decide (want <> EmptyString /\ want ∉ featureFlags) then ret EmptyString
        else
          do encodedData <- encoded (types.ev_Data event);
          do id <- elsewhere uuid_generate_v4;
          run_tx (insert_event id (mkEventRow (types.ev_Type event) (types.ev_InstanceID event) (types.ev_Timestamp event) encodedMessages
                                     (types.ev_Text event) encodedData (types.Metadata event)))
    end);
  match r with
  | (_, Some err) => throw err
  | (Some (inr eventID), None) => ret eventID
  | (_, None) => ret EmptyString
  end.

(** What a column of the type timestamp keeps of an instant. *)
Variable timestamp_column : time.Time -> time.Time.

Definition columns : list string := ["event_id"; "event_type"; "instance_id"; "timestamp"; "data"; "messages"; "text"; "metadata"].
(** [types.EventFromRow] *)
Definition scan_field (id : string) (row : EventRow) (e : types.Event) (f : string) : types.Event :=
  if decide (f = "event_id") then types.set_ev_ID id e
  else if decide (f = "event_type") then types.set_ev_Type (event_type row) e
  else if decide (f = "instance_id") then types.set_ev_InstanceID (event_instance_id row) e
  else if decide (f = "timestamp") then types.set_ev_Timestamp (timestamp_column (timestamp row)) e
  else if decide (f = "data") then types.set_ev_Data (data row) e
  else if decide (f = "messages") then types.set_Messages (messages row) e
  else if decide (f = "text") then types.set_ev_Text (text row) e
  else types.set_Metadata (metadata row) e.
Definition EventFromRow (fields : list string) (id : string) (row : EventRow) : types.Event := foldl (scan_field id row) types.zero_event fields.

Definition selected (instanceID : string) (eventTypes : list string) (before after : time.Time) (row : EventRow) : bool :=
  bool_decide (event_instance_id row = instanceID) && time.Before (timestamp_column (timestamp row)) before
  && time.After (timestamp_column (timestamp row)) after && (bool_decide (eventTypes = []) || bool_decide (event_type row ∈ eventTypes)).
Definition get_events (instanceID : string) (fields eventTypes : list string) (before after : time.Time) (limit offset : Z) : Statement (list types.Event) := fun t =>
  match filter (fun f => f ∉ columns) fields with
  | f :: _ => inl (PQError ("pq: column e." +:+ f +:+ " does not exist"))
  | [] =>
      let rows := filter (fun kv => selected instanceID eventTypes before after kv.2 = true) (go_range (events t)) in
      let ordered := sort.ByDescending (fun kv => timestamp_column (timestamp kv.2)) rows in
      inr ((fun kv => EventFromRow fields kv.1 kv.2) <$> take (Z.to_nat limit) (drop (Z.to_nat offset) ordered), t)
  end.
Definition GetEvents (instanceID : string) (fields eventTypes : list string) (before after : time.Time) (limit offset : Z) : Op (list types.Event) :=
  run (get_events instanceID fields eventTypes before after limit offset).

(** * Event types (eventtype.go) *)

(** [types.EventTypeFromRow] *)
Definition EventTypeFromRow (name : string) (row : EventTypeRow) : types.EventType :=
  types.mkEventType name (display_name row) (description row) (Some (default_receiver_types row)) (Some (hidden_receiver_types row))
    (hide_ui_config row) (default EmptyString (feature_flag row)).
Definition flag_enabled (featureFlags : option (list string)) (row : EventTypeRow) : bool :=
  match featureFlags, feature_flag row with Some flags, Some flag => bool_decide (flag ∈ flags) | _, _ => true end.
Definition list_event_types (featureFlags : option (list string)) : Statement (list types.EventType) := select (fun t =>
  (fun kv => EventTypeFromRow kv.1 kv.2) <$> filter (fun kv => flag_enabled featureFlags kv.2 = true) (go_range (event_types t))).
(** Without a transaction, and within one. *)
Definition ListEventTypes (featureFlags : option (list string)) : Op (list types.EventType) := run (list_event_types featureFlags).
Definition ListEventTypes_tx (featureFlags : option (list string)) : Tx (list types.EventType) := run_tx (list_event_types featureFlags).

Definition not_null : dberror := PQError "pq: null value in column violates not-null constraint".
Definition nullif (s : string) : option string := if decide (s = EmptyString) then None else Some s.
(** The hidden receiver types are left to the default of the column. *)
Definition create_event_type (e : types.EventType) : Statement Z := fun t =>
  match types.DefaultReceiverTypes e with
  | None => inl not_null
  | Some defaults =>
      match event_types t !! types.et_Name e with
      | Some _ => inr (0, t)
      | None => inr (1, set_event_types (<[types.et_Name e := mkEventTypeRow (types.DisplayName e) (types.Description e) defaults
                                                               (types.HideUIConfig e) (nullif (types.FeatureFlag e)) []]> (event_types t)) t)
      end
  end.
Definition subscribe_receivers (name : string) (rtypes : list string) : Statement unit := fun t =>
  insert_subscriptions false (set_map (fun id => (id, name)) (dom (filter (fun kv : string * ReceiverRow => receiver_type kv.2 ∈ rtypes) (receivers t)))) t.
Definition CreateEventType (e : types.EventType) : Tx unit :=
  do affected <- run_tx (create_event_type e);
  if affected =? 0 then throw (DBError "Event type already exists")
  else run_tx (subscribe_receivers (types.et_Name e) (default [] (types.DefaultReceiverTypes e))).

Definition update_event_type (e : types.EventType) : Statement Z := fun t =>
  match event_types t !! types.et_Name e with
  | None => inr (0, t)
  | Some _ =>
      match types.DefaultReceiverTypes e, types.HiddenReceiverTypes e with
      | Some defaults, Some hidden =>
          inr (1, set_event_types (<[types.et_Name e := mkEventTypeRow (types.DisplayName e) (types.Description e) defaults
                                                          (types.HideUIConfig e) (nullif (types.FeatureFlag e)) hidden]> (event_types t)) t)
      | _, _ => inl not_null
      end
  end.
Definition UpdateEventType (e : types.EventType) : Tx unit :=
  do affected <- run_tx (update_event_type e);
  if affected =? 0 then throw (DBError "Event type does not exist") else ret tt.

(** Event types that receivers or events refer to cannot be deleted. *)
Definition delete_event_type (name : string) : Statement Z := fun t =>
  match event_types t !! name with
  | None => inr (0, t)
  | Some _ =>
      if decide (Exists (fun p => p.2 = name) (elements (receiver_event_types t)) \/ Exists (fun kv => event_type kv.2 = name) (map_to_list (events t)))
      then inl event_types_fkey
      else inr (1, set_event_types (delete name (event_types t)) t)
  end.
Definition DeleteEventType (name : string) : Op unit :=
  do affected <- run (delete_event_type name);
  if affected =? 0 then throw (DBError "Event type does not exist") else ret tt.

(** [SyncEventTypes]: types that are new are created, types that changed are updated, and none is deleted. *)
Definition sync_old (eventTypes : gmap string types.EventType) (old : types.EventType) : Tx (gmap string types.EventType) :=
  match eventTypes !! types.et_Name old with
  | Some eventType =>
      (if types.Equals eventType old then ret tt else UpdateEventType eventType) ;;;
      ret (delete (types.et_Name eventType) eventTypes)
  | None => ret eventTypes
  end.
Definition SyncEventTypes (eventTypes : gmap string types.EventType) : Op unit := withTx (
  do oldEventTypes <- ListEventTypes_tx None;
  do eventTypes <- fold_m sync_old oldEventTypes eventTypes;
  for_each (go_range eventTypes) (fun kv => CreateEventType kv.2)).
End db.

(** * The interface (db/db.go) *)

Inductive NotifyCall : Type -> Type :=
  | CallSyncEventTypes (eventTypes : gmap string types.EventType) : NotifyCall unit
  | CallListEventTypes (featureFlags : option (list string)) : NotifyCall (list types.EventType)
  | CallCreateReceiver (receiver : types.Receiver) (instanceID : string) : NotifyCall string
  | CallUpdateReceiver (receiver : types.Receiver) (instanceID : string) (featureFlags : list string) : NotifyCall unit
  | CallDeleteReceiver (instanceID receiverID : string) : NotifyCall Z
  | CallGetReceiver (instanceID receiverID : string) (featureFlags : list string) (omitHiddenEventTypes : bool) : NotifyCall types.Receiver
  | CallGetReceiversForEvent (event : types.Event) : NotifyCall (list types.Receiver)
  | CallListReceivers (instanceID : string) : NotifyCall (list types.Receiver)
  | CallCreateEvent (event : types.Event) (featureFlags : list string) : NotifyCall string
  | CallGetEvents (instanceID : string) (fields eventTypes : list string) (before after : time.Time) (limit offset : Z) : NotifyCall (list types.Event).

Class NotifyImpl (D : Type) := notify_call : forall {A}, NotifyCall A -> M D dberror A.

Definition postgres_impl `{GoRange} (uuid_of : string -> option string) (timestamp_column : time.Time -> time.Time) : NotifyImpl NotifyDB := fun A c =>
  match c in NotifyCall A return M NotifyDB dberror A with
  | CallSyncEventTypes eventTypes => SyncEventTypes eventTypes
  | CallListEventTypes flags => ListEventTypes flags
  | CallCreateReceiver receiver instanceID => CreateReceiver receiver instanceID
  | CallUpdateReceiver receiver instanceID flags => UpdateReceiver uuid_of receiver instanceID flags
  | CallDeleteReceiver instanceID receiverID => DeleteReceiver uuid_of instanceID receiverID
  | CallGetReceiver instanceID receiverID flags omit => GetReceiver uuid_of instanceID receiverID flags omit
  | CallGetReceiversForEvent event => GetReceiversForEvent event
  | CallListReceivers instanceID => ListReceivers instanceID
  | CallCreateEvent event flags => CreateEvent event flags
  | CallGetEvents instanceID fields eventTypes before after limit offset => GetEvents timestamp_column instanceID fields eventTypes before after limit offset
  end.
