(* ===== verification/NotifyRender.v ===== *)
(** The messages of the notification services: notification-eventmanager/eventmanager/render (render.go, template.go,
    slack.go, cortex.go, flux.go). *)
From Stdlib Require Import ZArith Lia Ascii String.
From stdpp Require Import base tactics option gmap strings list pretty.
From S2P Require Import Prelude GoStd Users Calendar Formats Http Json Notification NotifyDB.
Import types.

(** * Text *)

Definition newline : string := String (ascii_of_nat 10) EmptyString.
Definition markdownNewline : string := "  " +:+ newline.
Definition markdownNewParagraph : string := newline +:+ newline.
Definition quote : string := String json.quote_char EmptyString.
Definition ToUpper (s : string) : string := strings.map strings.upper_char s.

(** [strings.Replace(s, old, new, -1)] for an old text of one character. *)
Fixpoint ReplaceAll (old : ascii) (new s : string) : string :=
  match s with
  | EmptyString => EmptyString
  | String c s => (if Ascii.eqb c old then new else String c EmptyString) +:+ ReplaceAll old new s
  end.
(** [escapeHTML] (flux.go) *)
Fixpoint escapeHTML (s : string) : string :=
  match s with
  | EmptyString => EmptyString
  | String c s =>
      (if Ascii.eqb c "&" then "&amp;" else if Ascii.eqb c "<" then "&lt;" else if Ascii.eqb c ">" then "&gt;" else String c EmptyString)
      +:+ escapeHTML s
  end.

(** [t.Format(time.RFC822)], in UTC *)
Definition month_abbreviation (m : Z) : string :=
  List.nth (Z.to_nat (m - 1)) ["Jan"; "Feb"; "Mar"; "Apr"; "May"; "Jun"; "Jul"; "Aug"; "Sep"; "Oct"; "Nov"; "Dec"] EmptyString.
Definition RFC822 (t : time.Time) : string :=
  let seconds := t / time.Second mod 86400 in
  pad 2 (civil.DayOf t) +:+ " " +:+ month_abbreviation (civil.Month t) +:+ " " +:+ pad 2 (civil.Year t mod 100) +:+ " "
  +:+ pad 2 (seconds / 3600) +:+ ":" +:+ pad 2 (seconds / 60 mod 60) +:+ " UTC".

(** The match of [slackURL] at the front of a text: what stands between a less-than sign and the first bar, what
    stands between that bar and the next greater-than sign, which is not empty, and the rest. *)
Definition slackURL_at (s : string) : option (string * string * string) :=
  match s with
  | String c s =>
      if Ascii.eqb c "<" then
        '(url, s) ← strings.cut "|" s;
        '(text, rest) ← strings.cut ">" s;
        if decide (text = EmptyString) then None else Some (url, text, rest)
      else None
  | EmptyString => None
  end.
(** [slackURL.ReplaceAllString(s, "[$2]($1)")]; a match takes a character at least. *)
Fixpoint replace_slackURL (n : nat) (s : string) : string :=
  match n with
  | O => s
  | S n =>
      match slackURL_at s with
      | Some (url, text, rest) => "[" +:+ text +:+ "](" +:+ url +:+ ")" +:+ replace_slackURL n rest
      | None => match s with EmptyString => EmptyString | String c s => String c (replace_slackURL n s) end
      end
  end.

(** * Errors *)

(** Errors, by where they come from; what errors.Wrap adds to them is only logged. *)
Inductive merror : Type :=
  | MUsers (err : error)
  | MDB (err : dberror)
  | MText (text : string).

(** * Data of templates *)

(** The values of the map the e-mail templates are executed with. *)
Inductive EmailValue : Type := EmailText (s : string) | EmailHTML (s : string) | EmailLinks (m : gmap string string).
(** What [executeTempl] is called with. *)
Inductive TemplateData : Type := TemplateAlert (wa : WebhookAlert) | TemplateStrings (l : list string) | TemplateImage (image : string) (services : list string).

(** ** The metadata of flux events, as far as the code reads it *)

Record FluxCommit : Type := mkFluxCommit { fc_Revision : string; fc_Message : string }.
Record ResourceError : Type := mkResourceError { re_ID : string; re_Path : string; re_Error : string }.
Record SyncMetadata : Type := mkSyncMetadata { sy_Commits : list FluxCommit; sy_Errors : list ResourceError }.
Record SyncData : Type := mkSyncData { sy_Metadata : option SyncMetadata; ServiceIDs : list string }.
Record PolicyUpdate : Type := mkPolicyUpdate { pu_Add : gmap string string; pu_Remove : gmap string string }.
(** A result: the text of its error, the images it changed, and how flux prints it. *)
Record UpdateResult : Type := mkUpdateResult { ur_Error : string; ChangedImages : list string; ur_Printed : string }.
(** The specification of a commit: who made it, and the policies when they are what it updates. *)
Record CommitSpec : Type := mkCommitSpec { cs_User : string; cs_Updates : option (gmap string PolicyUpdate) }.
Record CommitData : Type := mkCommitData { cm_ShortRevision : string; cm_Spec : option CommitSpec; cm_Affected : list string }.
Inductive ReleaseSpec : Type :=
  | ReleaseImage (image : string) (services : list string)
  | ReleaseContainers (services : gmap string unit)
  | ReleaseOther (ty : string).
Record ReleaseData : Type := mkReleaseData { rl_Error : string; rl_Result : option UpdateResult; rl_Spec : ReleaseSpec }.
Record AutoReleaseData : Type := mkAutoReleaseData { ar_Error : string; ar_Result : option UpdateResult }.

(** [parsedData] *)
Record parsedData : Type := mkParsedData { pd_Title : string; pd_Text : string; pd_Result : string; pd_Color : string; pd_Error : string }.

(** * Alerts (cortex.go) *)

Definition alertTitle : string := "Alert from Monitor".
Definition alertsLimit : nat := 10.
Definition formatHTML : string := "html".
Definition formatSlack : string := "slack".
Definition formatMarkdown : string := "markdown".
Definition get (m : gmap string string) (k : string) : string := default EmptyString (m !! k).

Definition alertmanagerToPagerDutyStatus : gmap string string := {["resolved" := "resolve"; "firing" := "trigger"]}.

Definition severity (wa : WebhookAlert) : string :=
  match wa_Alerts wa with
  | [] => EmptyString
  | a :: _ =>
      let severity := strings.ToLower (get (wa_CommonLabels wa) "severity") in
      if decide (severity = EmptyString) then strings.ToLower (get (al_Labels a) "severity") else severity
  end.
Definition pagerDutySeverity (s : string) : string :=
  if decide (s ∈ ["critical"; "error"; "warning"; "info"]) then s else "error".

Definition or_first (s t : string) : string := if decide (s = EmptyString) then t else s.
Definition title (wa : WebhookAlert) : string :=
  match wa_Alerts wa with
  | [] => EmptyString
  | a :: _ =>
      let alertname := or_first (get (wa_CommonLabels wa) "alertname") (get (al_Labels a) "alertname") in
      let severity := or_first (ToUpper (get (wa_CommonLabels wa) "severity")) (ToUpper (get (al_Labels a) "severity")) in
      let summary := or_first (get (wa_CommonAnnotations wa) "summary") (get (al_Annotations a) "summary") in
      "(" +:+ alertname +:+ " - " +:+ severity +:+ " " +:+ ToUpper (wa_Status wa) +:+ ") " +:+ summary
  end.

Definition impact (wa : WebhookAlert) (format : string) : string :=
  let imp := get (wa_CommonAnnotations wa) "impact" in
  if decide (imp <> EmptyString) then
    if decide (format = formatHTML) then "<b>Impact</b>: " +:+ imp
    else if decide (format = formatSlack) then "*Impact*: " +:+ imp
    else if decide (format = formatMarkdown) then "**Impact**: " +:+ imp
    else "Impact: " +:+ imp
  else "No impact defined. Please add one or disable this alert.".

Definition detail (wa : WebhookAlert) (format : string) : string :=
  let one al :=
    let d := get (al_Annotations al) "detail" in
    if decide (d = EmptyString) then []
    else if decide (format = formatHTML) then ["<code>" +:+ d +:+ "</code>"]
    else if decide (format = formatSlack \/ format = formatMarkdown) then ["`" +:+ d +:+ "`"]
    else [] in
  strings.Join (al ← take alertsLimit (wa_Alerts wa); one al) newline.

Section alerts.
Context `{GoRange}.

Definition linked (wa : WebhookAlert) : gmap string string :=
  let m := wa_WeaveCloudURL wa in
  let playbook := get (wa_CommonAnnotations wa) "playbookURL" in
  let m := if decide (playbook <> EmptyString) then <["Playbook" := playbook]> m else m in
  let dashboard := get (wa_CommonAnnotations wa) "dashboardURL" in
  if decide (dashboard <> EmptyString) then <["Dashboard" := dashboard]> m else m.
Definition links (wa : WebhookAlert) (format : string) : gmap string string * string :=
  let links := linked wa in
  let each kv : list string :=
    let '(text, url) := kv in
    if decide (format = formatHTML) then ["<a href=" +:+ quote +:+ url +:+ quote +:+ ">" +:+ text +:+ "</a>"]
    else if decide (format = formatSlack) then ["<" +:+ url +:+ "|" +:+ text +:+ ">"]
    else if decide (format = formatMarkdown) then ["[" +:+ text +:+ "](" +:+ url +:+ ")"]
    else [] in
  (links, strings.Join (kv ← go_range links; each kv) " ").

Definition known_annotations : list string := ["summary"; "impact"; "playbookURL"; "dashboardURL"; "detail"].
Definition fallback (wa : WebhookAlert) (format : string) : string :=
  match wa_Alerts wa with
  | [] => EmptyString
  | a :: _ =>
      let fb := filter (fun kv : string * string => kv.1 ∉ known_annotations) (al_Annotations a) in
      let each kv : list string :=
        let '(k, v) := kv in
        if decide (format = formatHTML) then ["<b>" +:+ k +:+ "</b>: " +:+ v]
        else if decide (format = formatSlack) then ["*" +:+ k +:+ "*: " +:+ v]
        else if decide (format = formatMarkdown) then ["**" +:+ k +:+ "**: " +:+ v]
        else [] in
      strings.Join (kv ← go_range fb; each kv) newline
  end.

Definition alertText (wa : WebhookAlert) (format : string) : string :=
  let parts := filter (fun p => p <> EmptyString) [impact wa format; detail wa format; (links wa format).2; fallback wa format] in
  if decide (format = formatHTML) then foldr (fun p rest => "<p>" +:+ p +:+ "</p>" +:+ rest) EmptyString parts
  else if decide (format = formatSlack) then strings.Join parts newline
  else if decide (format = formatMarkdown) then strings.Join parts markdownNewline
  else EmptyString.
End alerts.

(** * Rendering *)

Section render.
Context `{GoRange} {S : Type}.
(** The clock of the program the messages are rendered in. *)
Variable Now : M S merror time.Time.
(** The HTML templates, the Markdown of blackfriday, SHA-256 in hexadecimal. *)
Variable EmbedHTML : string -> string -> string -> gmap string EmailValue -> string.
Variable executeTempl : string -> TemplateData -> option string.
Variable MarkdownBasic : string -> string.
Variable sha256_hex : string -> string.

Abbreviation R := (M S merror).
(** [json.Marshal] *)
Definition Marshal (v : json.Value) : R RawMessage := or_else (json.Marshal v) (MText "cannot marshal").

(** ** slack.go *)

Definition EmailFromSlack (title htmlText etype instanceName eventURL eventURLText settingsURL alertsConfigURL : string) (timestamp : time.Time) : R RawMessage :=
  let emailData : gmap string EmailValue :=
    {["Timestamp" := EmailText (RFC822 timestamp);
      "Text" := EmailHTML htmlText;
      "WeaveCloudURL" := EmailLinks {[eventURLText := eventURL]};
      "SettingsURL" := EmailText settingsURL;
      "AlertsConfigURL:" := EmailText alertsConfigURL]} in
  let body := EmbedHTML "email.html" "wrapper.html" title emailData in
  Marshal (EmailMessage_json (mkEmailMessage (instanceName +:+ " - " +:+ etype) body)).

Definition SlackFromSlack (sm : SlackMessage) (instanceName link : string) : R RawMessage :=
  Marshal (SlackMessage_json (set_sm_Text ("*Instance*: <" +:+ link +:+ "|" +:+ instanceName +:+ ">" +:+ newline +:+ sm_Text sm) sm)).

Definition labels (instanceName etype : string) : gmap string string := {["instance" := instanceName; "event_type" := etype]}.
Definition StackdriverFromSlack (payload : RawMessage) (etype instanceName : string) : R RawMessage :=
  do now <- Now;
  Marshal (StackdriverMessage_json (mkStackdriverMessage now payload (labels instanceName etype))).

Definition link_attachment (linkText link : string) : SlackAttachment :=
  let text := if decide (linkText <> EmptyString) then "[" +:+ linkText +:+ "](" +:+ link +:+ ")" else "<" +:+ link +:+ ">" in
  mkAttachment EmptyString EmptyString EmptyString EmptyString text EmptyString EmptyString [].
Definition BrowserFromSlack (sm : SlackMessage) (etype link linkText : string) : R RawMessage :=
  let attachments := if decide (link <> EmptyString) then sm_Attachments sm ++ [link_attachment linkText link] else sm_Attachments sm in
  do now <- Now;
  Marshal (BrowserMessage_json (mkBrowserMessage etype (sm_Text sm) attachments now)).

Definition OpsGenieFromSlack (htmlMsg etype instanceName : string) : R RawMessage :=
  Marshal (OpsGenieMessage_json (mkOpsGenieMessage (instanceName +:+ " - " +:+ etype) EmptyString EmptyString htmlMsg [] [instanceName; etype]
                                   (labels instanceName etype) "Weave Cloud Monitor" "Weave Cloud" EmptyString EmptyString EmptyString)).

Definition PagerDutyFromSlack (text etype instanceName link linkText : string) : R RawMessage :=
  do now <- Now;
  Marshal (PagerDutyMessage_json (mkPagerDutyMessage EmptyString "trigger" EmptyString
    (Some (mkPagerDutyPayload text "cloud.weave.works" "info" now "Weave Cloud Monitor" EmptyString "test event" (labels instanceName etype)))
    [Some (mkLink link linkText)])).

Definition replaced_line (s : string) : string := if decide (s = EmptyString) then EmptyString else ReplaceAll (ascii_of_nat 10) markdownNewline s +:+ markdownNewline.
Definition GetAllMarkdownText (sm : SlackMessage) (instanceName : string) : string :=
  "Instance: " +:+ instanceName +:+ markdownNewParagraph
  +:+ (if decide (sm_Text sm = EmptyString) then EmptyString else ReplaceAll (ascii_of_nat 10) markdownNewline (sm_Text sm) +:+ markdownNewParagraph)
  +:+ foldr (fun att rest =>
        replaced_line (Pretext att) +:+ replaced_line (at_Title att) +:+ ReplaceAll (ascii_of_nat 10) markdownNewline (at_Text att)
        +:+ markdownNewParagraph +:+ rest) EmptyString (sm_Attachments sm).

Definition SlackMsgToHTML (sm : SlackMessage) (instanceName linkText link : string) : string :=
  let allText := GetAllMarkdownText sm instanceName in
  let linksText := replace_slackURL (String.length allText) allText in
  let html := MarkdownBasic (linksText +:+ markdownNewline +:+ "[" +:+ linkText +:+ "](" +:+ link +:+ ")") in
  ReplaceAll (ascii_of_nat 10) EmptyString html.

(** ** cortex.go *)

Definition firstAlertTimestamp (wa : WebhookAlert) : R time.Time :=
  do t <- Now;
  match wa_Alerts wa with
  | [] => ret t
  | a :: _ => ret (if time.IsZero (StartsAt a) then t else StartsAt a)
  end.
Definition alias (groupKey instance : string) : string := sha256_hex (instance +:+ groupKey).

(** The template of the content, [alertEmailContentTmpl], is known by its name. *)
Definition emailBody (wa : WebhookAlert) : R string :=
  or_else (executeTempl "alertEmailContentTmpl" (TemplateAlert wa)) (MText "cannot execute template").

Definition EmailFromAlert (wa : WebhookAlert) (etype instanceName link : string) : R RawMessage :=
  do text <- emailBody wa;
  do timestamp <- firstAlertTimestamp wa;
  let emailData : gmap string EmailValue :=
    {["Timestamp" := EmailText (RFC822 timestamp);
      "Text" := EmailHTML text;
      "WeaveCloudURL" := EmailLinks (wa_WeaveCloudURL wa);
      "SettingsURL" := EmailText (wa_SettingsURL wa);
      "AlertsConfigURL" := EmailText (wa_AlertsConfigURL wa)]} in
  let body := EmbedHTML "email.html" "wrapper.html" alertTitle emailData in
  Marshal (EmailMessage_json (mkEmailMessage (instanceName +:+ " - " +:+ etype) body)).

Definition alert_attachment (title text color : string) : SlackAttachment :=
  mkAttachment title EmptyString EmptyString EmptyString text EmptyString color [].
Definition SlackFromAlert (wa : WebhookAlert) (etype instanceName link : string) : R RawMessage :=
  let color := if decide (wa_Status wa = "firing") then "danger" else "good" in
  Marshal (SlackMessage_json (set_sm_Attachments [alert_attachment (title wa) (alertText wa formatSlack) color]
                                (slack_text ("*Instance*: <" +:+ link +:+ "|" +:+ instanceName +:+ ">" +:+ newline)))).

Definition BrowserFromAlert (wa : WebhookAlert) (etype : string) : R RawMessage :=
  let text := alertText wa formatMarkdown in
  let color := if decide (wa_Status wa = "resolved") then "good" else "danger" in
  do now <- Now;
  Marshal (BrowserMessage_json (mkBrowserMessage etype text [alert_attachment (title wa) text color] now)).

Definition StackdriverFromAlert (wa : WebhookAlert) (etype instanceName : string) : R RawMessage :=
  do payload <- Marshal (WebhookAlert_json wa);
  do now <- Now;
  Marshal (StackdriverMessage_json (mkStackdriverMessage now payload (labels instanceName etype))).

Definition OpsGenieFromAlert (wa : WebhookAlert) (etype instanceName : string) : R RawMessage :=
  Marshal (OpsGenieMessage_json (mkOpsGenieMessage (title wa) (alias (wa_GroupKey wa) instanceName) (wa_Status wa) (alertText wa formatHTML) []
                                   [instanceName; etype] (labels instanceName etype) "Weave Cloud Monitor" "Weave Cloud" EmptyString EmptyString EmptyString)).

(** [text[:1024]] *)
Definition truncated (text : string) : string := if (1024 <? String.length text)%nat then String.substring 0 1024 text else text.
Definition PagerDutyFromAlert (wa : WebhookAlert) (etype instanceName : string) : R RawMessage :=
  let text := truncated (title wa +:+ " " +:+ impact wa EmptyString) in
  do timestamp <- firstAlertTimestamp wa;
  Marshal (PagerDutyMessage_json (mkPagerDutyMessage EmptyString (get alertmanagerToPagerDutyStatus (wa_Status wa)) (alias (wa_GroupKey wa) instanceName)
    (Some (mkPagerDutyPayload text "cloud.weave.works" (pagerDutySeverity (severity wa)) timestamp "Weave Cloud Monitor" EmptyString (title wa)
             (labels instanceName etype)))
    ((fun kv => Some (mkLink kv.2 kv.1)) <$> go_range (links wa EmptyString).1))).

Definition BuildCortexEvent (wa : WebhookAlert) (etype instanceID instanceName notificationPageLink alertsConfigLink link linkText : string) : R Event :=
  if decide (wa_Alerts wa = []) then throw (MText "event is empty, alerts not found")
  else
    let wa := set_links notificationPageLink alertsConfigLink {[linkText := link]} wa in
    do emailMsg <- EmailFromAlert wa etype instanceName notificationPageLink;
    do slackMsg <- SlackFromAlert wa etype instanceName notificationPageLink;
    do browserMsg <- BrowserFromAlert wa etype;
    do stackdriverMsg <- StackdriverFromAlert wa etype instanceName;
    do opsGenieMsg <- (if decide (etype = MonitorType) then OpsGenieFromAlert wa etype instanceName else ret EmptyString);
    do pagerDutyMsg <- (if decide (etype = MonitorType) then PagerDutyFromAlert wa etype instanceName else ret EmptyString);
    do data <- Marshal (MonitorData_json (mkMonitorData (wa_GroupKey wa) (wa_Status wa) (wa_Receiver wa) (wa_GroupLabels wa) (wa_CommonLabels wa)
                                            (wa_CommonAnnotations wa) (wa_Alerts wa)));
    do timestamp <- firstAlertTimestamp wa;
    ret (mkEvent EmptyString etype instanceID instanceName timestamp data
           {[BrowserReceiver := browserMsg; SlackReceiver := slackMsg; EmailReceiver := emailMsg; StackdriverReceiver := stackdriverMsg;
             OpsGenieReceiver := opsGenieMsg; OpsGenieEUReceiver := opsGenieMsg; PagerDutyReceiver := pagerDutyMsg]} None ∅).

(** ** flux.go *)

Variable resource_name : string -> string.

Definition attachmentSlack (title text color : string) : SlackAttachment :=
  mkAttachment title EmptyString EmptyString EmptyString text EmptyString color ["text"].
Definition attachmentHTML (msg color : string) : string :=
  "<p style=" +:+ quote +:+ "border-left:5px solid " +:+ color +:+ "; background-color: WhiteSmoke; padding: 10px" +:+ quote +:+ ">" +:+ msg +:+ "</p>".

Definition error_attachment (pd : parsedData) : list SlackAttachment :=
  if decide (pd_Error pd = EmptyString) then [] else [attachmentSlack EmptyString (pd_Error pd) "warning"].
Definition result_attachment (pd : parsedData) : list SlackAttachment :=
  if decide (pd_Result pd = EmptyString) then [] else [attachmentSlack EmptyString ("```" +:+ pd_Result pd +:+ "```") (pd_Color pd)].

Definition fluxToSlack (pd : parsedData) (eventURL instanceName : string) : R RawMessage :=
  Marshal (SlackMessage_json (set_sm_Attachments (error_attachment pd ++ result_attachment pd)
    (slack_text ("*Instance*: <" +:+ eventURL +:+ "|" +:+ escapeHTML instanceName +:+ ">" +:+ newline +:+ pd_Text pd)))).
Definition fluxToBrowser (ev : Event) (pd : parsedData) (eventURL eventURLText : string) : R RawMessage :=
  let attachLink := if decide (eventURL = EmptyString) then []
                    else [link_attachment (if decide (eventURLText = EmptyString) then EmptyString else escapeHTML eventURLText) eventURL] in
  Marshal (BrowserMessage_json (mkBrowserMessage (ev_Type ev) (pd_Text pd) (error_attachment pd ++ result_attachment pd ++ attachLink) (ev_Timestamp ev))).
Definition parsedData_json (pd : parsedData) : json.Value :=
  json.Obj [("Title", json.Str (pd_Title pd)); ("Text", json.Str (pd_Text pd)); ("Result", json.Str (pd_Result pd)); ("Color", json.Str (pd_Color pd));
            ("Error", json.Str (pd_Error pd))].
Definition fluxToStackdriver (ev : Event) (pd : parsedData) : R RawMessage :=
  do payload <- Marshal (parsedData_json pd);
  Marshal (StackdriverMessage_json (mkStackdriverMessage (ev_Timestamp ev) payload (labels (InstanceName ev) (ev_Type ev)))).
Definition fluxToEmail (ev : Event) (pd : parsedData) (eventURL eventURLText settingsURL : string) : R RawMessage :=
  let buf := (if decide (pd_Text pd = EmptyString) then EmptyString else "<p>" +:+ pd_Text pd +:+ "</p>")
             +:+ (if decide (pd_Error pd = EmptyString) then EmptyString else attachmentHTML (pd_Error pd) "warning")
             +:+ (if decide (pd_Result pd = EmptyString) then EmptyString else attachmentHTML ("<code>" +:+ pd_Result pd +:+ "<code>") (pd_Color pd)) in
  let emailData : gmap string EmailValue :=
    {["Timestamp" := EmailText (RFC822 (ev_Timestamp ev));
      "Text" := EmailHTML buf;
      "WeaveCloudURL" := EmailLinks {[eventURLText := eventURL]};
      "SettingsURL" := EmailText settingsURL]} in
  let body := EmbedHTML "email.html" "wrapper.html" (pd_Title pd) emailData in
  Marshal (EmailMessage_json (mkEmailMessage (InstanceName ev +:+ " - " +:+ ev_Type ev) body)).
Definition fluxMessages (ev : Event) (pd : parsedData) (eventURL eventURLText settingsURL : string) : R Event :=
  do slackMsg <- fluxToSlack pd eventURL (InstanceName ev);
  do emailMsg <- fluxToEmail ev pd eventURL eventURLText settingsURL;
  do browserMsg <- fluxToBrowser ev pd eventURL eventURLText;
  do stackdriverMsg <- fluxToStackdriver ev pd;
  ret (set_Messages (<[StackdriverReceiver := stackdriverMsg]> (<[BrowserReceiver := browserMsg]> (<[EmailReceiver := emailMsg]>
        (<[SlackReceiver := slackMsg]> (Messages ev))))) ev).

Definition result_text (r : option UpdateResult) : string * string :=
  match r with
  | None => (EmptyString, EmptyString)
  | Some r => (ur_Printed r, if decide (ur_Error r <> EmptyString) then "warning" else "good")
  end.
Definition parseDeployData (data : ReleaseData) : R parsedData :=
  let '(resText, color) := result_text (rl_Result data) in
  let parsed text := mkParsedData "Weave Cloud deploy" text resText color (rl_Error data) in
  match rl_Spec data with
  | ReleaseImage image services =>
      do text <- or_else (executeTempl "releaseImageTemplate" (TemplateImage image services)) (MText "instantiate release image template error");
      ret (parsed text)
  | ReleaseContainers services =>
      do text <- or_else (executeTempl "releaseContainersTemplate" (TemplateStrings (go_range services).*1)) (MText "instantiate release containers template error");
      ret (parsed text)
  | ReleaseOther ty => throw (MText ("unknown deploy data type: " +:+ ty))
  end.
Definition parseAutoDeployData (data : AutoReleaseData) : R parsedData :=
  do text <- or_else (executeTempl "autoReleaseTemplate" (TemplateStrings (match ar_Result data with Some r => ChangedImages r | None => [] end)))
               (MText "instantiate auto release template error");
  let '(resText, color) := result_text (ar_Result data) in
  ret (mkParsedData "Weave Cloud auto deploy" text resText color (ar_Error data)).

Definition shortRevision (rev : string) : string := if (String.length rev <=? 7)%nat then rev else String.substring 0 7 rev.
Definition lines (l : list string) : string := foldr (fun line rest => line +:+ newline +:+ rest) EmptyString l.
Definition resource_lines (l : list string) : string := lines ((fun id => " - " +:+ id) <$> l).
Definition commitDeployText (data : CommitData) : R string :=
  do spec <- deref (cm_Spec data);
  ret (escapeHTML (lines ["Commit: " +:+ cm_ShortRevision data +:+ " (" +:+ cs_User spec +:+ ")"] +:+ resource_lines (cm_Affected data))).
Definition commitAutoDeployText (data : CommitData) : string :=
  escapeHTML (lines ["Commit: " +:+ cm_ShortRevision data] +:+ resource_lines (cm_Affected data)).

Definition getUpdatePolicyMessage (revision resource : string) (upd : PolicyUpdate) (user : string) : string :=
  let about := resource +:+ " (" +:+ revision +:+ ") " in
  let when (m : gmap string string) k (f : string -> string) := match m !! k with Some v => lines [f v] | None => EmptyString end in
  let locked m := get m "locked_msg" +:+ " by " +:+ get m "locked_user" in
  let tagPolicy := "tag." +:+ resource_name resource in
  escapeHTML (
    when (pu_Add upd) "locked" (fun _ => "Lock: " +:+ about +:+ locked (pu_Add upd))
    +:+ when (pu_Remove upd) "locked" (fun _ => "Unlock: " +:+ about +:+ locked (pu_Remove upd))
    +:+ when (pu_Add upd) "automated" (fun _ => "Automate: " +:+ about +:+ "by " +:+ user)
    +:+ when (pu_Remove upd) "automated" (fun _ => "Deautomate: " +:+ about +:+ "by " +:+ user)
    +:+ when (pu_Add upd) tagPolicy (fun tag => "Add tag filter " +:+ tag +:+ " to " +:+ about +:+ "by " +:+ user)
    +:+ when (pu_Remove upd) tagPolicy (fun tag => "Remove tag filter " +:+ tag +:+ " for " +:+ about +:+ "by " +:+ user)).
(** A specification that is not an update of policies makes the assertion of its type panic. *)
Definition getUpdatePolicyText (data : CommitData) : R string :=
  do spec <- deref (cm_Spec data);
  do updates <- deref (cs_Updates spec);
  ret (foldl (fun text kv => text +:+ getUpdatePolicyMessage (cm_ShortRevision data) kv.1 kv.2 (cs_User spec)) EmptyString (go_range updates)).

Definition commitsText (commits : list FluxCommit) : string :=
  escapeHTML (lines ((fun c => shortRevision (fc_Revision c) +:+ " " +:+ fc_Message c) <$> commits)).
Definition serviceIDsText (ss : list string) : list string := sort.Sort String.ltb ss.
Definition last_revision (commits : list FluxCommit) : string := match last commits with Some c => fc_Revision c | None => EmptyString end.
Definition syncEventText (commits : list FluxCommit) (services : list string) : string :=
  let revStr :=
    match commits with
    | [] => "<no revision>"
    | c :: _ =>
        if (length commits <=? 2)%nat then shortRevision (fc_Revision c)
        else shortRevision (last_revision commits) +:+ ".." +:+ shortRevision (fc_Revision c)
    end in
  let svcStr := match serviceIDsText services with [] => "no services changed" | ids => strings.Join ids ", " end in
  escapeHTML ("Sync: " +:+ revStr +:+ ", " +:+ svcStr).
Definition syncErrorText (errs : list ResourceError) : string :=
  escapeHTML (foldr (fun err rest => re_ID err +:+ " (" +:+ re_Path err +:+ ")" +:+ newline +:+ "  " +:+ re_Error err +:+ newline +:+ rest) EmptyString errs).
Definition parseSyncData (data : SyncData) : R parsedData :=
  do metadata <- deref (sy_Metadata data);
  ret (mkParsedData "Weave Cloud sync" (syncEventText (sy_Commits metadata) (ServiceIDs data)) (commitsText (sy_Commits metadata)) "good"
         (syncErrorText (sy_Errors metadata))).

(** ** render.go *)

Variables (decode_release : RawMessage -> option ReleaseData) (decode_autorelease : RawMessage -> option AutoReleaseData)
  (decode_sync : RawMessage -> option SyncData) (decode_commit : RawMessage -> option CommitData).

Definition unmarshal {A} (decode : RawMessage -> option A) (raw : RawMessage) : R A := or_else (decode raw) (MText "unmarshaling data error").
Definition parse_data (ev : Event) : R parsedData :=
  let ty := ev_Type ev in
  if decide (ty = DeployType) then do data <- unmarshal decode_release (ev_Data ev); parseDeployData data
  else if decide (ty = AutoDeployType) then do data <- unmarshal decode_autorelease (ev_Data ev); parseAutoDeployData data
  else if decide (ty = SyncType) then do data <- unmarshal decode_sync (ev_Data ev); parseSyncData data
  else if decide (ty = PolicyType) then
    do data <- unmarshal decode_commit (ev_Data ev);
    do text <- getUpdatePolicyText data;
    ret (mkParsedData "Weave cloud policy change" text EmptyString EmptyString EmptyString)
  else if decide (ty = DeployCommitType) then
    do data <- unmarshal decode_commit (ev_Data ev);
    do text <- commitDeployText data;
    ret (mkParsedData "Weave Cloud deploy commit" text EmptyString EmptyString EmptyString)
  else if decide (ty = AutoDeployCommitType) then
    do data <- unmarshal decode_commit (ev_Data ev);
    ret (mkParsedData "Weave Cloud auto deploy commit" (commitAutoDeployText data) EmptyString EmptyString EmptyString)
  else throw (MText "Unsupported event type").
Definition Data (ev : Event) (eventURL eventURLText settingsURL : string) : R Event :=
  do pd <- parse_data ev;
  fluxMessages ev pd eventURL eventURLText settingsURL.
End render.
