(* ===== verification/NotifyManager.v ===== *)
(** The event manager (notification-eventmanager/eventmanager): receivers, events, the notifications that are put into
    the queue, and the routes. *)
From Stdlib Require Import ZArith Lia Ascii String.
From stdpp Require Import base tactics option gmap strings list pretty.
From S2P Require Import Prelude GoStd Users UsersDB Sessions UsersServer UsersClient Calendar Formats Http Encoding Middleware Json Notification NotifyDB NotifyRender.
Import types.

(** * The users service, as the event manager calls it *)

Inductive NotifyUsersCall : Type -> Type :=
  | AskOrganization (internalID : string) : NotifyUsersCall Organization
  | AskLookupUser (cookie : string) : NotifyUsersCall string
  | AskUser (userID : string) : NotifyUsersCall User.
Class NotifyUsers (W : Type) := ask_users : forall {A}, NotifyUsersCall A -> M W error A.

(** The server of users/grpc, behind its interceptor. *)
Definition notify_users_grpc {S Report} `{DBImpl S} (sessions_Decode : string -> error + sessions.Session) : NotifyUsers (Server S Report) := fun A c =>
  GRPCErrorInterceptor (
    match c in NotifyUsersCall A return M (Server S Report) error A with
    | AskOrganization internalID => GetOrganization (RefInternalID internalID)
    | AskLookupUser cookie => LookupUser sessions_Decode cookie
    | AskUser userID => GetUser userID
    end).

(** * What the event manager runs in *)

(** The users service, the database, the batches the queue took, which batches it refuses, the requests
    the limiter lets through, the clock. *)
Record Manager (W D : Type) : Type := mkManager {
  em_users : W;
  em_DB : D;
  em_queue : list (list Notification);
  em_refused : nat -> bool;
  em_batches : nat;
  em_allow : nat -> bool;
  em_requests : nat;
  em_clock : nat -> time.Time;
  em_ticks : nat }.
Arguments mkManager {W D}. Arguments em_users {W D}. Arguments em_DB {W D}. Arguments em_queue {W D}. Arguments em_refused {W D}.
Arguments em_batches {W D}. Arguments em_allow {W D}. Arguments em_requests {W D}. Arguments em_clock {W D}. Arguments em_ticks {W D}.

(** What is rendered as JSON. *)
Inductive Content : Type :=
  | ContentID (id : string)
  | ContentText (text : string)
  | ContentEventTypes (l : list EventType)
  | ContentReceivers (l : list Receiver)
  | ContentReceiver (r : Receiver)
  | ContentEvents (l : list Event).
(** What a handler returns: a result, which may be nil, and a status; or an error and a status. *)
Definition Result : Type := option Content * Z.
Definition herror : Type := Z * merror.
(** A response: its status and what is rendered, or what was written as it is. *)
Inductive NotifyAnswer : Type := Answered (code : Z) (body : option Content) | Raw (r : http.Response).

(** What the handler of slack webhooks makes of the address of a receiver. *)
Record ParsedURL : Type := mkParsedURL { Scheme : string; url_Host : string; Port : string; url_Path : string }.

Section manager.
Context {W D : Type} `{NotifyUsers W} `{NotifyImpl D} `{GoRange}.
Abbreviation state := (Manager W D).
Abbreviation Em := (M state merror).
Abbreviation H_ := (M state herror).

Definition em_Now {E} : M state E time.Time := fun s =>
  (Ret (em_clock s (em_ticks s)),
   mkManager (em_users s) (em_DB s) (em_queue s) (em_refused s) (em_batches s) (em_allow s) (em_requests s) (em_clock s) (S (em_ticks s))).
Definition with_error {S E F A} (f : E -> F) (m : M S E A) : M S F A := fun s =>
  match m s with
  | (Ret a, s') => (Ret a, s')
  | (Err e, s') => (Err (f e), s')
  | (Panic, s') => (Panic, s')
  | (Deadlock, s') => (Deadlock, s')
  | (OutOfFuel, s') => (OutOfFuel, s')
  end.
(** [x, err := m()], in a context with other errors. *)
Definition attempt {S E F A} (m : M S E A) : M S F (E + A) := fun s =>
  match m s with
  | (Ret a, s') => (Ret (inr a), s')
  | (Err e, s') => (Ret (inl e), s')
  | (Panic, s') => (Panic, s')
  | (Deadlock, s') => (Deadlock, s')
  | (OutOfFuel, s') => (OutOfFuel, s')
  end.
Definition on_users {A} (c : NotifyUsersCall A) : Em A :=
  with_error MUsers (zoom em_users (fun w s =>
    mkManager w (em_DB s) (em_queue s) (em_refused s) (em_batches s) (em_allow s) (em_requests s) (em_clock s) (em_ticks s)) (ask_users c)).
Definition on_db {A} (c : NotifyCall A) : Em A :=
  with_error MDB (zoom em_DB (fun d s =>
    mkManager (em_users s) d (em_queue s) (em_refused s) (em_batches s) (em_allow s) (em_requests s) (em_clock s) (em_ticks s)) (notify_call c)).
(** [em.limiter.Allow()] *)
Definition Allow : M state merror bool := fun s =>
  (Ret (em_allow s (em_requests s)),
   mkManager (em_users s) (em_DB s) (em_queue s) (em_refused s) (em_batches s) (em_allow s) (S (em_requests s)) (em_clock s) (em_ticks s)).

(** * Notifications (notification.go) *)

Definition batchSize : nat := 10.
(** The loop over the notifications; a round takes [batchSize] of them. *)
Fixpoint partition_loop (n batchSize : nat) (notifs : list Notification) (batches : list (list Notification)) : list (list Notification) :=
  match n with
  | O => batches
  | S n =>
      if (batchSize <=? length notifs)%nat then partition_loop n batchSize (drop batchSize notifs) (batches ++ [take batchSize notifs])
      else if decide (notifs = []) then batches else batches ++ [notifs]
  end.
Definition partitionNotifications (notifs : list Notification) (batchSize : nat) : list (list Notification) :=
  partition_loop (S (length notifs)) batchSize notifs [].

(** The text of a notification in the queue is represented by the notification a reader makes of it: its raw
    messages are compacted; one that is no JSON is an error. *)
Definition raw_json (raw : RawMessage) : option RawMessage := json.Marshal (json.Raw raw).
Definition raw_messages (m : gmap string RawMessage) : option (gmap string RawMessage) :=
  foldl (fun acc kv => acc ← acc; raw ← raw_json kv.2; Some (<[kv.1 := raw]> acc)) (Some ∅) (map_to_list m).
Definition notificationToString (n : Notification) : option Notification :=
  address ← raw_json (nt_Address n);
  data ← raw_json (nt_Data n);
  evData ← (if decide (ev_Data (nt_Event n) = EmptyString) then Some EmptyString else raw_json (ev_Data (nt_Event n)));
  messages ← raw_messages (Messages (nt_Event n));
  Some (mkNotification (ReceiverType n) (nt_InstanceID n) address data (set_Messages messages (set_ev_Data evData (nt_Event n)))).
Definition notificationBatchToSendInput (batch : list Notification) : Em (list Notification) :=
  or_else (mapM notificationToString batch) (MText "cannot marshal notification to string").

(** [SendMessageBatch], which a goroutine calls; its error is only logged. *)
Definition SendMessageBatch (entries : list Notification) : Em unit := fun s =>
  let n := em_batches s in
  (Ret tt, mkManager (em_users s) (em_DB s) (if em_refused s n then em_queue s else em_queue s ++ [entries]) (em_refused s) (S n)
             (em_allow s) (em_requests s) (em_clock s) (em_ticks s)).

Definition getNotifications (e : Event) : Em (list Notification) :=
  do receivers <- on_db (CallGetReceiversForEvent e);
  ret ((fun r => mkNotification (RType r) (ev_InstanceID e) (AddressData r) (get (Messages e) (RType r)) e) <$> receivers).
Definition sendNotificationBatchesToQueue (e : Event) : Em unit :=
  do notifs <- getNotifications e;
  for_each (partitionNotifications notifs batchSize) (fun batch =>
    do sendInp <- notificationBatchToSendInput batch;
    SendMessageBatch sendInp).

(** * Events (event.go) *)

Definition MaxEventsList : Z := 10000.
Definition notificationConfigPath : string := "/org/notifications".
Definition alertsConfigPath : string := "/org/alerts".
Definition alertsPage : string := "/monitor/alerts".
Definition alertLinkText : string := "View firing alerts".
Definition deployPage : string := "/deploy/services".
Definition deployLinkText : string := "Weave Cloud Deploy".

Definition storeAndSend (ev : Event) (featureFlags : list string) : Em string :=
  do eventID <- on_db (CallCreateEvent ev featureFlags);
  sendNotificationBatchesToQueue (set_ev_ID eventID ev) ;;;
  ret eventID.

(** What url.Parse makes of the address of Weave Cloud: what stands before its path, and the path. *)
Variable WcURL : option (string * string).
Definition getInstanceLink (externalID resource : string) : Em string :=
  do url <- or_else WcURL (MText "cannot parse Weave Cloud URL");
  ret (url.1 +:+ escape_path (filepath.Clean (strings.Join (filter (fun e => e <> EmptyString) [url.2; externalID; resource]) "/"))).

(** [user.ExtractOrgIDFromHTTPRequest] (weaveworks/common) *)
Definition ErrNoOrgID : merror := MText "no org id".
Definition ExtractOrgID (r : http.Request) : merror + string :=
  let orgID := http.header_of OrgIDHeaderName r in
  if decide (orgID = EmptyString) then inl ErrNoOrgID else inr orgID.

(** An error with the status the handler answers it with. *)
Definition or_code {A} (code : Z) (m : Em A) : H_ A := with_error (fun err => (code, err)) m.
Definition fails {A} (code : Z) (err : merror) : H_ A := throw (code, err).
Definition answer (c : Content) (code : Z) : H_ Result := ret (Some c, code).

Definition is_deploy_type (ty : string) : bool :=
  bool_decide (ty ∈ [SyncType; PolicyType; DeployType; AutoDeployType; DeployCommitType; AutoDeployCommitType]).

(** Rendering, with the clock of the event manager. *)
Variable EmbedHTML : string -> string -> string -> gmap string EmailValue -> string.
Variable executeTempl : string -> TemplateData -> option string.
Variable MarkdownBasic : string -> string.
Variable sha256_hex : string -> string.
Variable resource_name : string -> string.
Variables (decode_release : RawMessage -> option ReleaseData) (decode_autorelease : RawMessage -> option AutoReleaseData)
  (decode_sync : RawMessage -> option SyncData) (decode_commit : RawMessage -> option CommitData).
(** The JSON of requests. *)
Variable decode_event : string -> option Event.
Variable decode_slack : string -> option SlackMessage.
Variable decode_alert : string -> option WebhookAlert.
Variable decode_newReceiver : string -> option (string * RawMessage).
Variable decode_receiver : string -> option Receiver.

Definition EmailFromSlack := NotifyRender.EmailFromSlack (S := state) EmbedHTML.
Definition StackdriverFromSlack := NotifyRender.StackdriverFromSlack (S := state) em_Now.
Definition BrowserFromSlack := NotifyRender.BrowserFromSlack (S := state) em_Now.
Definition PagerDutyFromSlack := NotifyRender.PagerDutyFromSlack (S := state) em_Now.
Definition Data := NotifyRender.Data (S := state) EmbedHTML executeTempl resource_name decode_release decode_autorelease decode_sync decode_commit.
Definition BuildCortexEvent := NotifyRender.BuildCortexEvent (S := state) em_Now EmbedHTML executeTempl sha256_hex.

(** [handleCreateEvent]: the instance is the one of the event, when it names one. *)
Definition handleCreateEvent (r : http.Request) (_ : string) : H_ Result :=
  do instanceID <- (match ExtractOrgID r with inl err => fails 401 err | inr id => ret id end);
  do e <- (match http.Body r with
           | inr body => or_else (decode_event body) (400, MText "cannot decode event")
           | inl err => fails 400 (MText err)
           end);
  let e := if decide (ev_InstanceID e = EmptyString) then set_ev_InstanceID instanceID e else e in
  do e <- (if time.IsZero (ev_Timestamp e) then do now <- em_Now; ret (set_ev_Timestamp now e) else ret e);
  do org <- or_code 500 (on_users (AskOrganization instanceID));
  let e := set_InstanceName (o_Name org) e in
  do notifLink <- or_code 400 (getInstanceLink (o_ExternalID org) notificationConfigPath);
  let '(eventURL, eventURLText) := if is_deploy_type (ev_Type e) then (deployPage, deployLinkText) else (EmptyString, EmptyString) in
  do link <- or_code 400 (getInstanceLink (o_ExternalID org) eventURL);
  do e <- (if decide (ev_Data e = EmptyString) then ret e else or_code 500 (Data e link eventURLText notifLink));
  do eventID <- or_code 500 (storeAndSend e (o_FeatureFlags org));
  answer (ContentID eventID) 200.

Definition read_body (r : http.Request) : H_ string :=
  match http.Body r with inr body => ret body | inl err => fails 400 (MText err) end.
(** The organization of an event of the internal routes, whose identifier is in the path. *)
Definition instance_data (instanceID : string) : H_ Organization :=
  do found <- attempt (on_users (AskOrganization instanceID));
  match found with
  | inr org => ret org
  | inl (MUsers err) => fails (if IsGRPCStatusErrorCode err 404 then 404 else 500 : Z) (MUsers err)
  | inl err => fails 500 err
  end.
Definition path_variable (name : string) (r : http.Request) : H_ string :=
  let v := default EmptyString (http.Vars r !! name) in
  if decide (v = EmptyString) then fails 400 (MText (name +:+ " is empty in request")) else ret v.

(** [buildEvent]: there is no message for PagerDuty. *)
Definition buildEvent (body : string) (sm : SlackMessage) (etype instanceID instanceName notificationPageLink alertsConfigLink link linkText : string) : Em Event :=
  let html := SlackMsgToHTML MarkdownBasic sm instanceName linkText link in
  do timestamp <- em_Now;
  do emailMsg <- EmailFromSlack etype html etype instanceName link linkText notificationPageLink alertsConfigLink timestamp;
  do browserMsg <- BrowserFromSlack sm etype link linkText;
  do stackdriverMsg <- StackdriverFromSlack body etype instanceName;
  do opsGenieMsg <- (if decide (etype = MonitorType) then OpsGenieFromSlack html etype instanceName else ret EmptyString);
  do slackMsg <- SlackFromSlack sm instanceName link;
  ret (mkEvent EmptyString etype instanceID EmptyString timestamp EmptyString
         {[BrowserReceiver := browserMsg; SlackReceiver := slackMsg; EmailReceiver := emailMsg; StackdriverReceiver := stackdriverMsg;
           OpsGenieReceiver := opsGenieMsg; OpsGenieEUReceiver := opsGenieMsg]} None ∅).

Definition handleSlackEvent (r : http.Request) : H_ Result :=
  do eventType <- path_variable "eventType" r;
  do instanceID <- path_variable "instanceID" r;
  do org <- instance_data instanceID;
  do body <- read_body r;
  do sm <- or_else (decode_slack body) (400, MText "cannot unmarshal body");
  do notifLink <- or_code 400 (getInstanceLink (o_ExternalID org) notificationConfigPath);
  do alertsConfigLink <- or_code 400 (getInstanceLink (o_ExternalID org) alertsConfigPath);
  let '(linkText, linkPath) :=
    if decide (eventType = MonitorType) then (alertLinkText, alertsPage)
    else if is_deploy_type eventType then (deployLinkText, deployPage) else (EmptyString, EmptyString) in
  do link <- or_code 400 (getInstanceLink (o_ExternalID org) linkPath);
  do e <- or_code 400 (buildEvent body sm eventType instanceID (o_Name org) notifLink alertsConfigLink link linkText);
  do eventID <- or_code 500 (storeAndSend e (o_FeatureFlags org));
  answer (ContentID eventID) 200.

(** [handleWebhookEvent] (monitor.go): the error for another type wraps nil, and is nil. *)
Definition handleWebhookEvent (r : http.Request) : H_ Result :=
  do eventType <- path_variable "eventType" r;
  do instanceID <- path_variable "instanceID" r;
  do org <- instance_data instanceID;
  do body <- read_body r;
  do wa <- or_else (decode_alert body) (400, MText "cannot unmarshal body");
  do notifLink <- or_code 400 (getInstanceLink (o_ExternalID org) notificationConfigPath);
  do alertsConfigLink <- or_code 400 (getInstanceLink (o_ExternalID org) alertsConfigPath);
  if decide (eventType <> MonitorType) then ret (None, 400)
  else
    do link <- or_code 400 (getInstanceLink (o_ExternalID org) alertsPage);
    do e <- or_code 400 (BuildCortexEvent wa eventType instanceID (o_Name org) notifLink alertsConfigLink link alertLinkText);
    do eventID <- or_code 500 (storeAndSend e (o_FeatureFlags org));
    answer (ContentID eventID) 200.

(** [getFeatureFlags] (http_helpers.go); the name of the header is in canonical form. *)
Definition getFeatureFlags (r : http.Request) : list string :=
  let flagsStr := http.header_of "X-Featureflags" r in
  if decide (flagsStr = EmptyString) then [] else strings.ToLower <$> strings.Split flagsStr " "%char.

(** Errors of the database are returned with the status 0. *)
Definition handleGetEventTypes (r : http.Request) : H_ Result :=
  do result <- or_code 0 (on_db (CallListEventTypes (Some (getFeatureFlags r))));
  answer (ContentEventTypes result) 200.

(** A text with a slice in it, as fmt prints it. *)
Definition slice_text (l : list string) : string := "[" +:+ strings.Join l " " +:+ "]".
Definition formatEventTypeText (rtypeStart rtypeEnd rtype setStart setEnd : string) (enabled disabled : list string) (userEmail : string) : string :=
  "The event types for " +:+ rtypeStart +:+ rtype +:+ rtypeEnd +:+ " were changed by " +:+ userEmail +:+ ":"
  +:+ (if decide (enabled = []) then EmptyString else " enabled " +:+ setStart +:+ slice_text enabled +:+ setEnd)
  +:+ (if decide (disabled = []) then EmptyString
       else (if decide (enabled = []) then EmptyString else " and") +:+ " disabled " +:+ setStart +:+ slice_text disabled +:+ setEnd).

Definition isVisibleEvent (available : list EventType) (name : string) : bool :=
  existsb (fun et => negb (HideUIConfig et) && bool_decide (et_Name et = name)) available.
(** [diff]: the visible types of the old list that the new one still has are crossed out as they are met. *)
Definition cross_out (visibleEvents : list EventType) (acc : gmap string unit * list string) (et : string) : gmap string unit * list string :=
  let '(all, added) := acc in
  match all !! et with
  | Some _ => (delete et all, added)
  | None => (all, if isVisibleEvent visibleEvents et then added ++ [et] else added)
  end.
Definition diff (old new : list string) (visibleEvents : list EventType) : list string * list string :=
  let all : gmap string unit := foldl (fun m et => if isVisibleEvent visibleEvents et then <[et := tt]> m else m) ∅ old in
  let '(all, added) := foldl (cross_out visibleEvents) (all, []) new in
  (added, (go_range all).*1).

Definition event_fields : list string := ["event_id"; "event_type"; "instance_id"; "timestamp"; "messages"; "text"; "data"; "metadata"].
Definition bad (text : string) : H_ Result := answer (ContentText text) 400.
(** An integer of the query: the default when it is missing. *)
Definition query_int (s : string) (zero : Z) : option Z :=
  if decide (s = EmptyString) then Some zero else match strconv.Atoi s with inr n => Some n | inl _ => None end.
Definition query_time (s : string) (zero : time.Time) : option time.Time :=
  if decide (s = EmptyString) then Some zero else ParseRFC3339Nano s.
Definition handleGetEvents (r : http.Request) (instanceID : string) : H_ Result :=
  let param name := http.values_get (http.Query r) name in
  do now <- em_Now;
  match query_int (param "limit") 50 with
  | None => bad "Bad limit value: Not an integer"
  | Some limit =>
  if (limit <? 0) || (MaxEventsList <? limit) then bad ("Bad limit value: Must be between 0 and " +:+ pretty MaxEventsList +:+ " inclusive")
  else match query_int (param "offset") 0 with
  | None => bad "Bad offset value: Not an integer"
  | Some offset =>
  if offset <? 0 then bad "Bad offset value: Must be non-negative"
  else match query_time (param "before") now with
  | None => bad "Bad before value: Not an RFC3339 time"
  | Some before =>
  match query_time (param "after") (civil.Date 1970 1 1) with
  | None => bad "Bad after value:  Not an RFC3339 time"
  | Some after =>
  let eventTypes := if decide (param "event_type" = EmptyString) then [] else strings.Split (param "event_type") ","%char in
  let fields := if decide (param "fields" = EmptyString) then event_fields else strings.Split (param "fields") ","%char in
  match filter (fun f => f ∉ event_fields) fields with
  | nf :: _ => fails 400 (MText (nf +:+ " is an invalid field"))
  | [] =>
      do events <- or_code 0 (on_db (CallGetEvents instanceID fields eventTypes before after limit offset));
      answer (ContentEvents events) 200
  end end end end end.

(** * A changed configuration (configchanged.go) *)

Definition configChangeTitle : string := "Weave Cloud notification config changed".
Definition ConfigChangedData_json (userEmail receiverType : string) (enabled disabled : list string) : json.Value :=
  json.Obj (json.omit_string "user_email" userEmail ++ json.omit_string "receiver_type" receiverType
            ++ omit_strings "enabled" enabled ++ omit_strings "disabled" disabled).
(** The event, with the same text for each kind of receiver: HTML, Markdown, plain, Slack. *)
Definition config_event (org : Organization) (instanceID : string) (eventTime : time.Time) (link html markdown plain slackText : string) (data : json.Value) : Em Event :=
  let instanceName := o_Name org in
  do emailMsg <- EmailFromSlack configChangeTitle html ConfigChangedType instanceName EmptyString EmptyString EmptyString link eventTime;
  do browserMsg <- BrowserFromSlack (slack_text markdown) ConfigChangedType link "Weave Cloud notification";
  do textJSON <- Marshal (json.Str plain);
  do stackdriverMsg <- StackdriverFromSlack textJSON ConfigChangedType instanceName;
  do slackMsg <- SlackFromSlack (slack_text slackText) instanceName link;
  do data <- Marshal data;
  ret (mkEvent EmptyString ConfigChangedType instanceID instanceName eventTime data
         {[EmailReceiver := emailMsg; BrowserReceiver := browserMsg; SlackReceiver := slackMsg; StackdriverReceiver := stackdriverMsg]} None ∅).

Definition sort_Strings (l : option (list string)) : option (list string) := sort.Sort String.ltb <$> l.
Definition createConfigChangedEvent (instanceID : string) (oldReceiver receiver : Receiver) (eventTime : time.Time) (userEmail : string)
    (featureFlags : list string) : Em unit :=
  do org <- on_users (AskOrganization instanceID);
  do link <- getInstanceLink (o_ExternalID org) notificationConfigPath;
  let oldTypes := sort_Strings (EventTypes oldReceiver) in
  let newTypes := sort_Strings (EventTypes receiver) in
  let rtype := RType receiver in
  let fire (ev : Event) : Em unit := do _ <- attempt (E := merror) (storeAndSend ev (o_FeatureFlags org)); ret tt in
  if decide (AddressData oldReceiver <> AddressData receiver) then
    let msg := "The address for <b>" +:+ rtype +:+ "</b> was updated by " +:+ userEmail +:+ "!" in
    do ev <- config_event org instanceID eventTime link msg msg msg ("The address for *" +:+ rtype +:+ "* was updated by " +:+ userEmail +:+ "!")
               (ConfigChangedData_json userEmail rtype [] []);
    fire ev
  else if decide (oldTypes <> newTypes) then
    do visibleEvents <- on_db (CallListEventTypes (Some featureFlags));
    let '(added, removed) := diff (default [] oldTypes) (default [] newTypes) visibleEvents in
    if decide (added = [] /\ removed = []) then ret tt
    else
      do ev <- config_event org instanceID eventTime link
                 (formatEventTypeText "<b>" "</b>" rtype "<i>" "</i>" added removed userEmail)
                 (formatEventTypeText "**" "**" rtype "_" "_" added removed userEmail)
                 (formatEventTypeText EmptyString EmptyString rtype EmptyString EmptyString added removed userEmail)
                 (formatEventTypeText "*" "*" rtype "_" "_" added removed userEmail)
                 (ConfigChangedData_json userEmail rtype added removed);
      fire ev
  else ret tt.

(** * Receivers (receiver.go) *)

(** What url.ParseRequestURI, checkmail and the parser of UUIDs make of a text. *)
Variable ParseRequestURI : string -> option ParsedURL.
Variable ValidateFormat : string -> bool.
Variable uuid_FromString : string -> option string.

Definition is_webhook_char (c : ascii) : bool := strings.is_upper c || strings.is_lower c || strings.is_digit c || Ascii.eqb c "/".
Definition isWebHookPath (p : string) : bool := negb (bool_decide (p = EmptyString)) && strings.all is_webhook_char p.
Definition unmarshal_string (raw : RawMessage) : option string := v ← json.Parse raw; json.string_ EmptyString v.
Definition unmarshal_strings (raw : RawMessage) : option (gmap string string) := v ← json.Parse raw; json.map_ ∅ v.
Definition stackdriver_fields : list string :=
  ["type"; "project_id"; "private_key_id"; "private_key"; "client_email"; "client_id"; "auth_uri"; "token_uri"; "auth_provider_x509_cert_url";
   "client_x509_cert_url"].
(** [isValidAddress]: whether there is no error. *)
Definition isValidAddress (addressData : RawMessage) (rtype : string) : bool :=
  if decide (rtype = SlackReceiver) then
    match unmarshal_string addressData with
    | None => false
    | Some addrStr =>
        match ParseRequestURI addrStr with
        | None => false
        | Some url => bool_decide (Scheme url = "https") && bool_decide (Port url = EmptyString) && bool_decide (url_Host url = "hooks.slack.com")
                      && isWebHookPath (url_Path url)
        end
    end
  else if decide (rtype = EmailReceiver) then
    match unmarshal_string addressData with
    | None => false
    | Some addrStr => forallb ValidateFormat (strings.Split addrStr ","%char)
    end
  else if decide (rtype = BrowserReceiver) then true
  else if decide (rtype = StackdriverReceiver) then
    match unmarshal_strings addressData with
    | None => false
    | Some creds => forallb (fun v => negb (bool_decide (get creds v = EmptyString)
                                            || bool_decide (v = "type") && negb (bool_decide (get creds v = "service_account")))) stackdriver_fields
    end
  else if decide (rtype ∈ [OpsGenieReceiver; OpsGenieEUReceiver; PagerDutyReceiver]) then
    match unmarshal_string addressData with
    | None => false
    | Some key => negb (bool_decide (key = EmptyString))
    end
  else false.

Definition handleListReceivers (r : http.Request) (instanceID : string) : H_ Result :=
  do result <- or_code 0 (on_db (CallListReceivers instanceID));
  answer (ContentReceivers result) 200.

Definition parseBody {A} (decode : string -> option A) (r : http.Request) : option A :=
  match http.Body r with inr body => decode body | inl _ => None end.
Definition handleCreateReceiver (r : http.Request) (instanceID : string) : H_ Result :=
  match parseBody decode_newReceiver r with
  | None => bad "Bad request body"
  | Some (rtype, addressData) =>
      if negb (isValidAddress addressData rtype) then bad "address validation failed"
      else
        do receiverID <- or_code 0 (on_db (CallCreateReceiver (mkReceiver EmptyString rtype EmptyString addressData None) instanceID));
        answer (ContentID receiverID) 200
  end.

Definition handleGetReceiver (r : http.Request) (instanceID receiverID : string) : H_ Result :=
  match uuid_FromString receiverID with
  | None => ret (None, 404)
  | Some _ =>
      do found <- attempt (on_db (CallGetReceiver instanceID receiverID (getFeatureFlags r) false));
      match found with
      | inl (MDB ErrNoRows) => ret (None, 404)
      | inl err => fails 0 err
      | inr result => answer (ContentReceiver result) 200
      end
  end.

Definition extractUserEmail (r : http.Request) : H_ string :=
  match sessions.Extract (http.cookies r) with
  | inl err => fails 401 (MUsers err)
  | inr authCookie =>
      do userID <- or_code 400 (on_users (AskLookupUser authCookie));
      do user <- or_code 400 (on_users (AskUser userID));
      ret (u_Email user)
  end.

(** The event of the change is made by a goroutine, whose errors are only logged. *)
Definition handleUpdateReceiver (r : http.Request) (instanceID receiverID : string) : H_ Result :=
  do eventTime <- em_Now;
  match uuid_FromString receiverID with
  | None => fails 404 (MText "bad identifier")
  | Some _ =>
  match parseBody decode_receiver r with
  | None => bad "Bad request body"
  | Some receiver =>
  if decide ((rc_ID receiver <> EmptyString /\ rc_ID receiver <> receiverID) \/ (rc_ID receiver <> EmptyString /\ rc_InstanceID receiver <> instanceID))
  then bad "Receiver ID and instance ID cannot be modified"
  else if negb (isValidAddress (AddressData receiver) (RType receiver)) then bad "address validation failed"
  else
    let receiver := if decide (rc_ID receiver = EmptyString) then set_rc_ID receiverID receiver else receiver in
    let featureFlags := getFeatureFlags r in
    do found <- attempt (on_db (CallGetReceiver instanceID receiverID featureFlags true));
    match found with
    | inl (MDB ErrNoRows) => fails 404 (MDB ErrNoRows)
    | inl err => fails 500 err
    | inr oldReceiver =>
        if decide (RType oldReceiver <> RType receiver) then fails 0 (MText "Receiver type cannot be modified")
        else
          do updated <- attempt (on_db (CallUpdateReceiver receiver instanceID featureFlags));
          match updated with
          | inl (MDB ErrNoRows) => fails 404 (MDB ErrNoRows)
          | inl err => fails 0 err
          | inr _ =>
              do email <- extractUserEmail r;
              do _ <- attempt (E := merror) (createConfigChangedEvent instanceID oldReceiver receiver eventTime email featureFlags);
              ret (None, 200)
          end
    end
  end end.

Definition handleDeleteReceiver (r : http.Request) (instanceID receiverID : string) : H_ Result :=
  match uuid_FromString receiverID with
  | None => ret (None, 404)
  | Some _ =>
      do affected <- or_code 0 (on_db (CallDeleteReceiver instanceID receiverID));
      ret (None, if affected =? 0 then 404 else 200)
  end.

(** * The test event (usertest.go) *)

Definition userTestTitle : string := "Weave Cloud test event".
Definition UserTestData_json (userEmail : string) : json.Value := json.Obj (json.omit_string "user_email" userEmail).
Definition handleTestEvent (r : http.Request) (instanceID : string) : H_ Result :=
  do timestamp <- em_Now;
  do org <- instance_data instanceID;
  let instanceName := o_Name org in
  do userEmail <- extractUserEmail r;
  do link <- or_code 500 (getInstanceLink (o_ExternalID org) notificationConfigPath);
  let text := "A test event triggered from Weave Cloud by " +:+ userEmail +:+ "!" in
  let htmlText := "A test event triggered from <a href=" +:+ quote +:+ link +:+ quote +:+ ">Weave Cloud</a> by " +:+ userEmail +:+ "!" in
  do testEvent <- or_code 500 (
    do htmlTextJSON <- Marshal (json.Str htmlText);
    do sdMsg <- StackdriverFromSlack htmlTextJSON UserTestType instanceName;
    do emailMsg <- EmailFromSlack userTestTitle htmlText UserTestType instanceName EmptyString EmptyString EmptyString link timestamp;
    do slackMsg <- SlackFromSlack (slack_text text) instanceName link;
    do browserMsg <- BrowserFromSlack (slack_text text) UserTestType link "Weave Cloud notification";
    do opsGenieMsg <- OpsGenieFromSlack htmlText UserTestType instanceName;
    do pagerDutyMsg <- PagerDutyFromSlack text UserTestType instanceName link "Weave Cloud notification";
    do dataBytes <- Marshal (UserTestData_json userEmail);
    ret (mkEvent EmptyString UserTestType instanceID instanceName timestamp dataBytes
           {[EmailReceiver := emailMsg; BrowserReceiver := browserMsg; SlackReceiver := slackMsg; StackdriverReceiver := sdMsg;
             OpsGenieReceiver := opsGenieMsg; OpsGenieEUReceiver := opsGenieMsg; PagerDutyReceiver := pagerDutyMsg]} None ∅));
  do eventID <- or_code 500 (storeAndSend testEvent (o_FeatureFlags org));
  answer (ContentText eventID) 200.

(** * Routes (http_helpers.go, routes.go) *)

Abbreviation Handler := (http.Request -> M state merror NotifyAnswer).

(** [http.ResponseWriter.WriteHeader]: a status that is not of three digits makes it panic. *)
Definition write_header (code : Z) (body : option Content) : M state merror NotifyAnswer :=
  if (code <? 100) || (999 <? code) then panic else ret (Answered code body).
(** [jsonWrapper.ServeHTTP], [toJSON] *)
Definition toJSON (f : http.Request -> H_ Result) : Handler := fun r =>
  do result <- attempt (f r);
  match result with
  | inl (code, _) => write_header code None
  | inr (content, code) => write_header code content
  end.
Definition withInstance (f : http.Request -> string -> H_ Result) : Handler := toJSON (fun r =>
  match ExtractOrgID r with inl err => fails 0 err | inr instanceID => f r instanceID end).
Definition extractItemID (r : http.Request) : H_ string :=
  or_else (http.Vars r !! "id") (0, MText "Missing expected path variable 'id'").
Definition withInstanceAndID (f : http.Request -> string -> string -> H_ Result) : Handler := toJSON (fun r =>
  match ExtractOrgID r with
  | inl err => fails 0 err
  | inr instanceID => do itemID <- extractItemID r; f r instanceID itemID
  end).
Definition rateLimited (next : Handler) : Handler := fun r =>
  do allowed <- Allow;
  if allowed : bool then next r else ret (Answered 429 None).
Definition handleHealthCheck : Handler := fun _ => ret (Answered 200 None).

Definition Register : list (string * string * Handler) := [
  ("GET", "/api/notification/config/eventtypes", toJSON handleGetEventTypes);
  ("GET", "/api/notification/config/receivers", withInstance handleListReceivers);
  ("POST", "/api/notification/config/receivers", withInstance handleCreateReceiver);
  ("GET", "/api/notification/config/receivers/{id}", withInstanceAndID handleGetReceiver);
  ("PUT", "/api/notification/config/receivers/{id}", withInstanceAndID handleUpdateReceiver);
  ("DELETE", "/api/notification/config/receivers/{id}", withInstanceAndID handleDeleteReceiver);
  ("GET", "/api/notification/events", withInstance handleGetEvents);
  ("POST", "/api/notification/testevent", rateLimited (withInstance handleTestEvent));
  ("POST", "/api/notification/events", rateLimited (withInstance handleCreateEvent));
  ("POST", "/api/notification/slack/{instanceID}/{eventType}", rateLimited (toJSON handleSlackEvent));
  ("POST", "/api/notification/webhook/{instanceID}/{eventType}", rateLimited (toJSON handleWebhookEvent));
  ("GET", "/api/notification/events/healthcheck", handleHealthCheck);
  ("POST", "/api/notification/external/events", rateLimited (withInstance handleCreateEvent))].

(** The router: a path that is not clean is redirected, the first route whose path and method match
    handles the request. *)
Fixpoint notify_route (l : list (string * string * Handler)) (mismatch : bool) (r : http.Request) : M state merror NotifyAnswer :=
  match l with
  | [] => ret (Raw (if mismatch then http.WriteHeader 405 else http.Error "404 page not found" 404))
  | (method, path, handler) :: l =>
      match mux.Match false path (http.Path r) with
      | None => notify_route l mismatch r
      | Some vars => if decide (http.Method r = method) then handler (http.set_vars vars r) else notify_route l true r
      end
  end.
Definition notify_ServeHTTP (r : http.Request) : M state merror NotifyAnswer :=
  let p := cleanPath (http.Path r) in
  if decide (p <> http.Path r)
  then ret (Raw (http.Redirect (http.URL_String (http.set_path (escape_path p) p (http.RequestURI r) r)) 301))
  else notify_route Register false r.
End manager.
