(* ===== verification/NotifySender.v ===== *)
(** The sender of notifications (notification-sender): the loop over the queue, and the senders of each kind of receiver. *)
From Stdlib Require Import ZArith Lia Ascii String.
From stdpp Require Import base tactics option gmap strings list pretty.
From S2P Require Import Prelude GoStd Users Formats Http Json Notification NotifyDB NotifyRender NotifyManager.
Import types.

(** * Links in texts (sender.go) *)

(** The text before the first closing bracket that a parenthesis follows, and what stands after both; no newline is crossed. *)
Fixpoint until_bracket (s : string) : option (string * string) :=
  match s with
  | EmptyString => None
  | String c s' =>
      if Ascii.eqb c (ascii_of_nat 10) then None
      else
        match s' with
        | String d rest => if Ascii.eqb c "]" && Ascii.eqb d "(" then Some (EmptyString, rest) else '(a, r) ← until_bracket s'; Some (String c a, r)
        | EmptyString => None
        end
  end.
Fixpoint until_paren (s : string) : option (string * string) :=
  match s with
  | EmptyString => None
  | String c s' =>
      if Ascii.eqb c (ascii_of_nat 10) then None
      else if Ascii.eqb c ")" then Some (EmptyString, s')
      else '(a, r) ← until_paren s'; Some (String c a, r)
  end.
(** The match of [linkRE] at the front of a text, and what stands after it. *)
Definition link_at (s : string) : option (string * string) :=
  match s with
  | String c s' =>
      if Ascii.eqb c "[" then
        '(a, r) ← until_bracket s'; '(b, rest) ← until_paren r;
        Some ("[" +:+ a +:+ "](" +:+ b +:+ ")", rest)
      else None
  | EmptyString => None
  end.
(** The last closing bracket that a parenthesis follows. *)
Fixpoint last_bracket (s : string) : option (string * string) :=
  match s with
  | EmptyString => None
  | String c s' =>
      match last_bracket s' with
      | Some (a, r) => Some (String c a, r)
      | None => match s' with String d rest => if Ascii.eqb c "]" && Ascii.eqb d "(" then Some (EmptyString, rest) else None | EmptyString => None end
      end
  end.
(** [getLinkParts] of a text that [linkRE] matched: the parts of [linkPartsRE]. *)
Definition drop_last (s : string) : string := String.substring 0 (String.length s - 1) s.
Definition getLinkParts (t : string) : option (string * string) :=
  match t with
  | String _ s => '(text, r) ← last_bracket s; Some (text, drop_last r)
  | EmptyString => None
  end.
(** [linkRE.ReplaceAllStringFunc], [linkRE.FindAllString]; a match takes a character at least. *)
Fixpoint replace_links (f : string -> string) (n : nat) (s : string) : string :=
  match n with
  | O => s
  | S n =>
      match link_at s with
      | Some (found, rest) => f found +:+ replace_links f n rest
      | None => match s with EmptyString => EmptyString | String c s => String c (replace_links f n s) end
      end
  end.
Fixpoint find_links (n : nat) (s : string) : list string :=
  match n with
  | O => []
  | S n =>
      match link_at s with
      | Some (found, rest) => found :: find_links n rest
      | None => match s with EmptyString => [] | String _ s => find_links n s end
      end
  end.
Definition getLinksFromText (t : string) : list string := find_links (String.length t) t.

(** [convertLinks] (slack.go) *)
Definition convertLinks (t : string) : string :=
  replace_links (fun found => match getLinkParts found with Some (text, url) => "<" +:+ url +:+ "|" +:+ text +:+ ">" | None => found end)
    (String.length t) t.

(** [strings.Replace(s, old, new, 1)] *)
Fixpoint replace_first (old new s : string) : string :=
  if strings.HasPrefix s old then new +:+ strings.drop (String.length old) s
  else match s with EmptyString => EmptyString | String c s => String c (replace_first old new s) end.
(** [generateLinkCitations] (stackdriver.go) *)
Definition cite (acc : string * gmap string string) (kl : nat * string) : string * gmap string string :=
  let '(annotated, citations) := acc in
  let key := pretty (Z.of_nat kl.1) in
  match getLinkParts kl.2 with
  | Some (text, url) => (replace_first kl.2 (text +:+ "[" +:+ key +:+ "]") annotated, <[key := url]> citations)
  | None => acc
  end.
Definition generateLinkCitations (t : string) : string * gmap string string :=
  let links := getLinksFromText t in
  foldl cite (t, ∅) (combine (seq 0 (length links)) links).

Example links_converted :
  convertLinks "see [Weave [Cloud]](https://cloud.weave.works) or [x](y](z) and [none]" = "see <https://cloud.weave.works|Weave [Cloud]> or <z|x](y> and [none]"
  /\ (generateLinkCitations "[a](u) [a](u) [b](v)").1 = "a[0] a[1] b[2]".
Proof. vm_compute. split; reflexivity. Qed.

(** * What the senders reach *)

(** A [RetriableError] or another. *)
Inductive senderr : Type := RetriableError (text : string) | SendError (text : string).

(** What is logged to Stackdriver: what a message decodes to, or the entry made of an event. *)
Inductive LogEntry : Type := EntryDecoded (raw : RawMessage) | EntryOf (timestamp : time.Time) (text : string) (links labels : gmap string string).
(** The status of a gRPC error, as far as the code tells them apart. *)
Inductive GRPCStatus : Type := Unavailable | Unknown | DataLoss | ResourceExhausted | OtherStatus.
Inductive OpsGenieStatus : Type := StatusDone (success : bool) (text : string) | StatusError (message : string).

Inductive WorldCall : Type -> Type :=
  | DialAndSend (host : string) (port : Z) (username password from replyto : string) (to : list string) (subject body : string) : WorldCall (option string)
  | PostSlack (url body : string) : WorldCall (string + Z * string)
  | PostPagerDuty (body : string) : WorldCall (string + Z * string)
  | OpsGenieClose (url alias apiKey : string) : WorldCall (string + string)
  | OpsGenieCreate (url : string) (alert : RawMessage) (apiKey : string) : WorldCall (string + string)
  | OpsGenieRequestStatus (url requestID apiKey : string) : WorldCall OpsGenieStatus
  | NewLoggingClient (content : RawMessage) (projectID : string) : WorldCall (option string)
  | LogSync (credentials : RawMessage) (logID : string) (entry : LogEntry) : WorldCall (option (option GRPCStatus))
  | Publish (instance : string) (e : Event) : WorldCall (option string)
  | Now_ : WorldCall time.Time
  | Sleep (d : time.Duration) : WorldCall unit.
Class World (W : Type) := world : forall {A}, WorldCall A -> M W senderr A.

Section senders.
Context {W : Type} `{World W}.
Abbreviation Send_ := (M W senderr unit).
Abbreviation Snd := (M W senderr).
Definition send_fail {A} (text : string) : Snd A := throw (SendError text).

Definition useNewNotifSchema (notif : Notification) : bool := match ev_Text (nt_Event notif) with Some _ => true | None => false end.

(** ** E-mail (email.go) *)

(** What url.Parse makes of the address of the mail service. *)
Record MailURI : Type := mkMailURI { mu_Scheme : string; mu_Port : string; mu_Hostname : string; mu_User : option (string * string) }.
Variable parse_mail_uri : string -> option MailURI.
Variable MarkdownBasic : string -> string.

Definition parseAndSend (uri from replyto : string) (addresses : list string) (subject body : string) : Send_ :=
  do u <- or_else (parse_mail_uri uri) (SendError "cannot parse email URI");
  if decide (mu_Scheme u = "smtp") then
    do port <- (if decide (mu_Port u = EmptyString) then ret 587
                else match strconv.Atoi (mu_Port u) with inr port => ret port | inl _ => send_fail "cannot convert port to integer" end);
    let '(username, password) := default (EmptyString, EmptyString) (mu_User u) in
    do sent <- world (DialAndSend (mu_Hostname u) port username password from replyto addresses subject body);
    match sent with Some err => send_fail err | None => ret tt end
  else if decide (mu_Scheme u = "log") then ret tt
  else send_fail ("Unsupported email protocol: " +:+ mu_Scheme u).

(** [generateEmailMessage] *)
Definition generateEmailMessage (e : Event) : Snd EmailMessage :=
  do text <- deref (ev_Text e);
  let msg := "Instance: " +:+ InstanceName e +:+ markdownNewParagraph
             +:+ (if decide (text = EmptyString) then EmptyString else ReplaceAll (ascii_of_nat 10) markdownNewline text +:+ markdownNewParagraph) in
  ret (mkEmailMessage (InstanceName e +:+ " - " +:+ ev_Type e) (MarkdownBasic msg)).

(** What json.Unmarshal makes of an address that is a string. *)
Definition address_string (addr : RawMessage) : Snd string := or_else (unmarshal_string addr) (SendError "cannot unmarshal address").

Definition EmailSender_Send (es_URI es_From es_ReplyTo : string) (addr : RawMessage) (notif : Notification) (_ : string) : Send_ :=
  do addrStr <- address_string addr;
  do notifData <- (if useNewNotifSchema notif then generateEmailMessage (nt_Event notif)
                   else or_else (decode_EmailMessage (nt_Data notif)) (SendError "cannot unmarshal data"));
  if decide (es_URI = EmptyString) then send_fail "cannot create email sender, email URI is empty"
  else parseAndSend es_URI es_From es_ReplyTo (strings.Split addrStr ","%char) (Subject notifData) (Body notifData).

Definition timeout : time.Duration := 5 * time.Minute.
(** [waitForMailService], [ValidateEmailSender]: the waits double, fuel bounds the tries. *)
Fixpoint wait_mail_loop (fuel : nat) (tries : Z) (deadline : time.Time) (uri from replyto : string) : Send_ :=
  match fuel with
  | O => out_of_fuel
  | S fuel =>
      do now <- world Now_;
      if negb (time.Before now deadline) then send_fail "mail service not ready"
      else
        do sent <- try (parseAndSend uri from replyto ["weaveworkstest@gmail.com"] "Email sender validation" from);
        match sent with
        | inr _ => ret tt
        | inl _ =>
            do _ <- world (Sleep (i64_wrap (Z.shiftl time.Second tries)));
            wait_mail_loop fuel (tries + 1) deadline uri from replyto
        end
  end.
Definition waitForMailService (fuel : nat) (uri from replyto : string) : Send_ :=
  do now <- world Now_;
  wait_mail_loop fuel 0 (time.Add now timeout) uri from replyto.
Definition ValidateEmailSender (fuel : nat) (uri from replyto : string) : Send_ := waitForMailService fuel uri from replyto.

(** ** Slack (slack.go) *)

(** The number json prints for the float64 it parses from a text. *)
Variable float_text : string -> option string.
(** A value after a trip through [interface{}]: the keys of objects are sorted, the last of equal keys stays. *)
Definition of_values (l : list (string * json.Value)) : json.Value :=
  json.Obj (sort.Sort (fun a b => String.ltb a.1 b.1) (map_to_list (foldl (fun (m : gmap string json.Value) kv => <[kv.1 := kv.2]> m) ∅ l))).
Fixpoint through_interface (v : json.Value) : option json.Value :=
  match v with
  | json.Num lit => json.Num <$> float_text lit
  | json.Arr l => json.Arr <$> mapM through_interface l
  | json.Obj l => of_values <$> mapM (fun kv => v ← through_interface kv.2; Some (kv.1, v)) l
  | v => Some v
  end.
(** The message with a user name: the text as it is when it has one. *)
Definition named_message (username : string) (data : RawMessage) : option RawMessage :=
  v ← json.Parse data;
  v ← through_interface v;
  ms ← json.members_of v;
  if decide ("username" ∈ ms.*1) then Some data
  else json.Marshal (of_values (ms ++ [("username", json.Str username)])).
Definition generateSlackMessage (e : Event) (username : string) : Snd RawMessage :=
  do text <- deref (ev_Text e);
  or_else (json.Marshal (SlackMessage_json (mkSlackMessage EmptyString username ("*Instance*: " +:+ InstanceName e +:+ newline +:+ convertLinks text)
                                              EmptyString EmptyString false []))) (SendError "cannot marshal").
Definition SlackSender_Send (username : string) (addr : RawMessage) (notif : Notification) (_ : string) : Send_ :=
  do urlStr <- address_string addr;
  do data <- (if useNewNotifSchema notif then generateSlackMessage (nt_Event notif) username else ret (nt_Data notif));
  do data <- or_else (named_message username data) (SendError "cannot unmarshal data");
  do resp <- world (PostSlack urlStr data);
  match resp with
  | inl err => send_fail err
  | inr (code, body) =>
      if (code <? 200) || (300 <=? code) then
        if 500 <=? code then throw (RetriableError "request to slack failed") else send_fail "request to slack failed"
      else if (code =? 200) && bool_decide (String.substring 0 2 body = "ok") then ret tt
      else send_fail "unexpected status code or response is not 'ok'"
  end.

(** ** PagerDuty (pagerduty.go) *)

(** Whether the body of a response decodes to a [Result]. *)
Variable decodes_result : string -> bool.
Definition set_RoutingKey (key : string) (m : PagerDutyMessage) : PagerDutyMessage :=
  mkPagerDutyMessage key (EventAction m) (DedupKey m) (pd_Payload m) (Links m).
Definition PagerDutySender_Send (addr : RawMessage) (notif : Notification) (_ : string) : Send_ :=
  do key <- address_string addr;
  do m <- or_else (decode_PagerDutyMessage (nt_Data notif)) (SendError "cannot unmarshal PagerDuty data");
  do b <- or_else (json.Marshal (PagerDutyMessage_json (set_RoutingKey key m))) (SendError "cannot marshal PagerDuty message");
  do resp <- world (PostPagerDuty b);
  match resp with
  | inl err => send_fail err
  | inr (code, body) =>
      if negb (decodes_result body) then send_fail "Unable to read response from PagerDuty"
      else if code =? 400 then send_fail "bad request"
      else if (code <? 200) || (400 <? code) then throw (RetriableError "request to PagerDuty failed")
      else ret tt
  end.

(** ** OpsGenie (opsgenie.go) *)

(** [codeFromOpsGenieErrror]: the three digits after the last mark in a line of the message, of the first line that has them. *)
Definition response_code : string := "Response Code: ".
Fixpoint last_code (line : string) : option string :=
  match line with
  | EmptyString => None
  | String _ line' =>
      match last_code line' with
      | Some code => Some code
      | None =>
          if strings.HasPrefix line response_code then
            let code := String.substring (String.length response_code) 3 line in
            if (String.length code =? 3)%nat && strings.all strings.is_digit code then Some code else None
          else None
      end
  end.
Definition codeFromOpsGenieErrror (errMsg : string) : string :=
  default EmptyString (foldr (fun line rest => match last_code line with Some code => Some code | None => rest end) None
                         (strings.Split errMsg (ascii_of_nat 10))).
(** Whether a text decodes to a request to create an alert. *)
Variable decodes_alert : RawMessage -> bool.
Fixpoint request_loop (fuel : nat) (tries : Z) (deadline : time.Time) (url reqID apiKey : string) : Send_ :=
  match fuel with
  | O => out_of_fuel
  | S fuel =>
      do now <- world Now_;
      if negb (time.Before now deadline) then send_fail "opsGenie request status is not ready"
      else
        do status <- world (OpsGenieRequestStatus url reqID apiKey);
        match status with
        | StatusDone true _ => ret tt
        | StatusDone false text => send_fail ("request is not successful, error: " +:+ text)
        | StatusError message =>
            if decide (codeFromOpsGenieErrror message ∈ ["404"; "503"; "429"]) then
              do _ <- world (Sleep (i64_wrap (Z.shiftl time.Second tries)));
              request_loop fuel (tries + 1) deadline url reqID apiKey
            else send_fail "cannot get opsGenie request status"
        end
  end.
Definition requestSuccess (fuel : nat) (url reqID apiKey : string) : Send_ :=
  do now <- world Now_;
  request_loop fuel 0 (time.Add now timeout) url reqID apiKey.
Definition OpsGenieSender_Send (fuel : nat) (url : string) (addr : RawMessage) (notif : Notification) (_ : string) : Send_ :=
  do key <- address_string addr;
  do m <- or_else (decode_OpsGenieMessage (nt_Data notif)) (SendError "cannot unmarshal OpsGenie data");
  do requested <-
    (if decide (og_Status m = "resolved") then world (OpsGenieClose url (Alias m) key)
     else if decodes_alert (nt_Data notif) then world (OpsGenieCreate url (nt_Data notif) key)
     else send_fail "cannot unmarshal OpsGenie data");
  match requested with
  | inl err => send_fail err
  | inr reqID => requestSuccess fuel url reqID key
  end.

(** ** Browsers (browser.go) *)

Definition BrowserSender_Send (_ : RawMessage) (notif : Notification) (instance : string) : Send_ :=
  do _ <- or_else (notificationToString notif) (SendError "cannot marshal event for NATS publish");
  do published <- world (Publish instance (nt_Event notif));
  match published with Some err => send_fail err | None => ret tt end.
End senders.

(** ** Stackdriver (stackdriver.go): the clients, by the identifier of their key *)

Record StackdriverSender (W : Type) : Type := mkStackdriver { sds_world : W; Clients : gmap string RawMessage }.
Arguments mkStackdriver {W}. Arguments sds_world {W}. Arguments Clients {W}.

Section stackdriver.
Context {W : Type} `{World W}.
Abbreviation SD := (M (StackdriverSender W) senderr).
Definition sd_world {A} (c : WorldCall A) : SD A := zoom sds_world (fun w s => mkStackdriver w (Clients s)) (world c).
Variable decodes_entry : RawMessage -> bool.

(** A client is represented by the service file it was made from. *)
Definition getClientByServiceFile (content : RawMessage) : SD RawMessage :=
  do creds <- or_else (v ← json.Parse content; ms ← json.members_of v;
                       key ← json.field json.string_ "private_key_id" ms EmptyString;
                       project ← json.field json.string_ "project_id" ms EmptyString; Some (key, project)) (SendError "cannot unmarshal service file content");
  let '(PrivateKeyID, ProjectID) := creds in
  if decide (PrivateKeyID = EmptyString \/ ProjectID = EmptyString) then throw (SendError "private_key_id and project_id cannot be empty in service file")
  else
    do cached <- gets (fun s => Clients s !! PrivateKeyID);
    match cached with
    | Some client => ret client
    | None =>
        do err <- sd_world (NewLoggingClient content ProjectID);
        match err with
        | Some err => throw (SendError err)
        | None => modify (fun s => mkStackdriver (sds_world s) (<[PrivateKeyID := content]> (Clients s))) ;;; ret content
        end
    end.

Definition generateStackDriverMessage (e : Event) : SD LogEntry :=
  do text <- deref (ev_Text e);
  let '(text, links) := generateLinkCitations text in
  ret (EntryOf (ev_Timestamp e) text links {["instance_name" := InstanceName e; "event_type" := ev_Type e]}).

Definition StackdriverSender_Send (LogID : string) (addr : RawMessage) (notif : Notification) (_ : string) : SD unit :=
  do client <- getClientByServiceFile addr;
  do entry <- (if useNewNotifSchema notif then generateStackDriverMessage (nt_Event notif)
               else if decodes_entry (nt_Data notif) then ret (EntryDecoded (nt_Data notif)) else throw (SendError "cannot unmarshal stackdriver data"));
  do logged <- sd_world (LogSync client LogID entry);
  match logged with
  | None => ret tt
  | Some (Some (Unavailable | Unknown | DataLoss | ResourceExhausted)) => throw (RetriableError "internal server error logging to stackdriver")
  | Some _ => throw (SendError "error logging to stackdriver")
  end.
End stackdriver.

(** * The queue (sender.go) *)

(** What a call for a message gives: an error, nothing, the handle of a message; or the context was cancelled. *)
Inductive Received : Type := ReceiveCanceled | ReceiveFailed (text : string) | ReceivedNone | ReceivedMessage (receiptHandle : nat).
(** The text of a message: the one of a notification, or another. *)
Inductive MessageBody : Type := BodyOf (n : Notification) | BodyOther (text : string).

(** The world of the senders, the messages that are not deleted by their handles, what the calls for
    messages give, and which calls to delete one fail. *)
Record SenderState (S : Type) : Type := mkSenderState {
  sq_world : S;
  sq_messages : gmap nat MessageBody;
  sq_received : nat -> Received;
  sq_receives : nat;
  sq_delete_fails : nat -> bool;
  sq_deletes : nat }.
Arguments mkSenderState {S}. Arguments sq_world {S}. Arguments sq_messages {S}. Arguments sq_received {S}. Arguments sq_receives {S}.
Arguments sq_delete_fails {S}. Arguments sq_deletes {S}.

Section sender.
Context {S : Type}.
Definition NotifyHandler : Type := RawMessage -> Notification -> string -> M S senderr unit.
Variable notifyHandlers : gmap string NotifyHandler.
(** What the text of a message decodes to. *)
Variable decode_notification : string -> option Notification.

Inductive qerror : Type := Canceled | QError (text : string).
Abbreviation Sender := (M (SenderState S) qerror).

Definition RegisterNotifier (handlerType : string) (h : NotifyHandler) (m : gmap string NotifyHandler) : gmap string NotifyHandler := <[handlerType := h]> m.
Definition stringToNotification (msg : MessageBody) : option Notification :=
  match msg with BodyOf n => Some n | BodyOther text => decode_notification text end.

(** [ReceiveMessageWithContext]: a message that was deleted is not received again. *)
Definition ReceiveMessage : Sender (Received * option MessageBody) := fun s =>
  let got := sq_received s (sq_receives s) in
  (Ret (got, match got with ReceivedMessage h => sq_messages s !! h | _ => None end),
   mkSenderState (sq_world s) (sq_messages s) (sq_received s) (Datatypes.S (sq_receives s)) (sq_delete_fails s) (sq_deletes s)).
Definition DeleteMessage (receiptHandle : nat) : Sender bool := fun s =>
  let failed := sq_delete_fails s (sq_deletes s) in
  (Ret (negb failed),
   mkSenderState (sq_world s) (if failed then sq_messages s else delete receiptHandle (sq_messages s)) (sq_received s) (sq_receives s)
     (sq_delete_fails s) (Datatypes.S (sq_deletes s))).
Definition handle (h : NotifyHandler) (notif : Notification) : Sender (senderr + unit) := fun s =>
  let '(o, w) := h (nt_Address notif) notif (nt_InstanceID notif) (sq_world s) in
  let s' := mkSenderState w (sq_messages s) (sq_received s) (sq_receives s) (sq_delete_fails s) (sq_deletes s) in
  match o with
  | Ret a => (Ret (inr a), s')
  | Err e => (Ret (inl e), s')
  | Panic => (Panic, s')
  | Deadlock => (Deadlock, s')
  | OutOfFuel => (OutOfFuel, s')
  end.

(** [sendNotification]: the message stays when there is no handler or the error may go away. *)
Definition sendNotification (notif : Notification) (receiptHandle : nat) : Sender unit :=
  match notifyHandlers !! ReceiverType notif with
  | None => throw (QError ("no handler for type " +:+ ReceiverType notif))
  | Some h =>
      do sent <- handle h notif;
      match sent with
      | inl (RetriableError text) => throw (QError text)
      | _ =>
          do deleted <- DeleteMessage receiptHandle;
          if deleted : bool then ret tt else throw (QError "failed to delete message from SQS")
      end
  end.

(** [HandleNotification]: the notification is sent by a goroutine, whose error is only logged. *)
Definition HandleNotification : Sender unit :=
  do out <- ReceiveMessage;
  match out with
  | (ReceiveCanceled, _) => throw Canceled
  | (ReceiveFailed text, _) => throw (QError text)
  | (ReceivedMessage receiptHandle, Some msg) =>
      do notif <- or_else (stringToNotification msg) (QError "cannot unmarshal json string to notification");
      do _ <- attempt (E := qerror) (sendNotification notif receiptHandle);
      ret tt
  | _ => ret tt
  end.

(** [Run], for a number of rounds: it returns when the context is cancelled. *)
Fixpoint Run (fuel : nat) : Sender unit :=
  match fuel with
  | O => out_of_fuel
  | Datatypes.S fuel =>
      do handled <- try HandleNotification;
      match handled with
      | inl Canceled => ret tt
      | _ => Run fuel
      end
  end.
End sender.

(** * The program (cmd/sender/main.go) *)

Section program.
Context {W : Type} `{World W}.
Variable parse_mail_uri : string -> option MailURI.
Variable MarkdownBasic : string -> string.
Variable float_text : string -> option string.
Variable decodes_result : string -> bool.
Variable decodes_alert : RawMessage -> bool.
Variable decodes_entry : RawMessage -> bool.
(** The settings of the command line, and the fuel of the requests to OpsGenie. *)
Variables (emailURI emailFrom emailReplyTo slackFrom stackdriverLogID opsgenieURL opsgenieEUURL : string).
Variable fuel : nat.

(** A sender that has no clients of its own. *)
Definition stateless (send : RawMessage -> Notification -> string -> M W senderr unit) : NotifyHandler (S := StackdriverSender W) := fun addr n instance =>
  zoom sds_world (fun w s => mkStackdriver w (Clients s)) (send addr n instance).
Definition registered : gmap string (NotifyHandler (S := StackdriverSender W)) :=
  RegisterNotifier PagerDutyReceiver (stateless (PagerDutySender_Send decodes_result))
  (RegisterNotifier OpsGenieEUReceiver (stateless (OpsGenieSender_Send decodes_alert fuel opsgenieEUURL))
  (RegisterNotifier OpsGenieReceiver (stateless (OpsGenieSender_Send decodes_alert fuel opsgenieURL))
  (RegisterNotifier StackdriverReceiver (StackdriverSender_Send decodes_entry stackdriverLogID)
  (RegisterNotifier BrowserReceiver (stateless BrowserSender_Send)
  (RegisterNotifier SlackReceiver (stateless (SlackSender_Send float_text slackFrom))
  (RegisterNotifier EmailReceiver (stateless (EmailSender_Send parse_mail_uri MarkdownBasic emailURI emailFrom emailReplyTo)) ∅)))))).
End program.
