(* ===== verification/NotifySpec.v ===== *)
(** The database of the notification services: transactions happen at once or not at all, and what each
    method makes of the tables. *)
From Stdlib Require Import ZArith Lia Ascii String.
From stdpp Require Import base tactics option gmap sets strings list pretty.
From S2P Require Import Prelude GoStd Json Notification NotifyDB.

(** * Transactions against functions on the tables

    A transaction implements a function on the tables when, unless a statement fails, it sees and
    writes what the function gives; nothing is committed before it ends. *)

Definition sbind {A B} (g : Statement A) (k : A -> Statement B) : Statement B := fun t =>
  match g t with inl e => inl e | inr (a, t') => k a t' end.
Definition sret {A} (a : A) : Statement A := fun t => inr (a, t).
Definition sthrow {A} (e : dberror) : Statement A := fun _ => inl e.

(** The failures are those of the statements, and what has failed shows in the list of failures. *)
Definition may_fail (d : NotifyDB) : Prop := exists n text, fault d n = Some text.
Definition same_world (d d' : NotifyDB) : Prop := fault d' = fault d /\ uuids d' = uuids d /\ (n_uuids d <= n_uuids d')%nat.

Lemma same_world_refl d : same_world d d.
Proof. by repeat split. Qed.
Lemma same_world_trans d1 d2 d3 : same_world d1 d2 -> same_world d2 d3 -> same_world d1 d3.
Proof. intros (H1 & H2 & H3) (H4 & H5 & H6). repeat split; [congruence|congruence|lia]. Qed.
Lemma same_world_may_fail d d' : same_world d d' -> may_fail d' -> may_fail d.
Proof. intros (Hf & _) (n & text & H). exists n, text. congruence. Qed.
#[export] Hint Resolve same_world_refl same_world_may_fail : go.

Definition implements {A} (f : Tx A) (g : Statement A) : Prop := forall d w, exists o d' w', f (d, w) = (o, (d', w')) /\
  same_world d d' /\ tables d' = tables d /\ n_uuids d' = n_uuids d /\
  ((may_fail d /\ exists text, o = Err (PQError text)) \/
   match g (w (tables d)) with
   | inl e => o = Err e
   | inr (a, t) => o = Ret a /\ w' (tables d) = t
   end).

Lemma tick_run d : exists o d', tick d = (o, d') /\ same_world d d' /\ tables d' = tables d /\ n_uuids d' = n_uuids d /\
  ((may_fail d /\ exists text, o = Err (PQError text)) \/ o = Ret tt).
Proof.
  unfold tick. destruct (fault d (statements d)) as [text|] eqn:Hf; eexists _, _; (split; [reflexivity|]); repeat split; eauto.
  left. split; [by exists (statements d), text|eauto].
Qed.

Lemma implements_run {A} (g : Statement A) : implements (run_tx g) g.
Proof.
  intros d w. unfold run_tx, bind, elsewhere, zoom. cbn [fst snd].
  destruct (tick_run d) as (o & d' & -> & Hw & Ht & Hn & [[Hmay [text ->]]| ->]).
  - exists (Err (PQError text)), d', w. split; [done|]. eauto 8.
  - cbn [fst snd]. rewrite Ht. destruct (g (w (tables d))) as [e|[a t]] eqn:Hg.
    + exists (Err e), d', w. split; [done|]. eauto 8.
    + eexists (Ret a), d', _. split; [done|]. repeat split; try apply Hw; try done. right. split; [done|]. by rewrite Hg.
Qed.
Lemma implements_ret {A} (a : A) : implements (ret a) (sret a).
Proof. intros d w. eexists _, _, _. split; [reflexivity|]. split; [apply same_world_refl|]. do 2 (split; [done|]). by right. Qed.
Lemma implements_throw {A} e : implements (throw e : Tx A) (sthrow e).
Proof. intros d w. eexists _, _, _. split; [reflexivity|]. split; [apply same_world_refl|]. do 2 (split; [done|]). by right. Qed.
Lemma implements_bind {A B} (f : Tx A) (k : A -> Tx B) g h :
  implements f g -> (forall a, implements (k a) (h a)) -> implements (bind f k) (sbind g h).
Proof.
  intros Hf Hk d w. destruct (Hf d w) as (o & d1 & w1 & Hrun & Hw1 & Ht1 & Hn1 & Ho). unfold bind. rewrite Hrun.
  destruct Ho as [[Hmay [text ->]]|Ho]; [exists (Err (PQError text)), d1, w1; eauto 8|].
  unfold sbind. destruct (g (w (tables d))) as [e|[a t]]; [subst o; exists (Err e), d1, w1; eauto 8|]. destruct Ho as [-> Hwt].
  destruct (Hk a d1 w1) as (o2 & d2 & w2 & Hrun2 & Hw2 & Ht2 & Hn2 & Ho2). exists o2, d2, w2. split; [done|].
  split; [eapply same_world_trans; eauto|]. split; [congruence|]. split; [congruence|]. rewrite Ht1, Hwt in Ho2.
  destruct Ho2 as [[Hmay ?]|Ho2]; [left; eauto using same_world_may_fail|by right].
Qed.
Lemma implements_ext {A} (f : Tx A) g h : implements f g -> (forall t, g t = h t) -> implements f h.
Proof. intros Hf Hgh d w. destruct (Hf d w) as (o & d' & w' & Hrun & Hrest). exists o, d', w'. split; [done|]. by rewrite <- Hgh. Qed.
Lemma implements_or_else {A} (p : option A) e : implements (or_else p e) (match p with Some a => sret a | None => sthrow e end).
Proof. destruct p; [apply implements_ret|apply implements_throw]. Qed.
#[export] Hint Resolve implements_run implements_ret implements_throw implements_bind implements_or_else : go.

(** A method happens at once: the new tables are those of the function, or, when it fails or a statement
    does, the old ones. *)
Definition atomic {A} (m : Op A) (g : Statement A) : Prop := forall d, exists o d', m d = (o, d') /\ same_world d d' /\
  ((may_fail d /\ tables d' = tables d /\ exists text, o = Err (PQError text)) \/
   match g (tables d) with
   | inl e => o = Err e /\ tables d' = tables d
   | inr (a, t) => o = Ret a /\ tables d' = t
   end).

Lemma atomic_run {A} (g : Statement A) : atomic (run g) g.
Proof.
  intros d. unfold run, bind. destruct (tick_run d) as (o & d' & -> & Hw & Ht & Hn & [[Hmay [text ->]]| ->]).
  - exists (Err (PQError text)), d'. split; [done|]. split; [done|]. left. eauto.
  - cbn. rewrite Ht. destruct (g (tables d)) as [e|[a t]]; eexists _, _; (split; [reflexivity|]); (split; [by destruct Hw as (? & ? & ?); repeat split|]); by right.
Qed.

(** Transactions that take [k] new identifiers at least, from the state they start in. *)
Definition implements_at {A} (d : NotifyDB) (k : nat) (f : Tx A) (g : Statement A) : Prop := forall d1 w,
  same_world d d1 -> tables d1 = tables d -> n_uuids d1 = n_uuids d -> exists o d' w', f (d1, w) = (o, (d', w')) /\
  same_world d d' /\ tables d' = tables d /\
  ((may_fail d /\ exists text, o = Err (PQError text)) \/
   match g (w (tables d)) with
   | inl e => o = Err e
   | inr (a, t) => o = Ret a /\ w' (tables d) = t /\ (n_uuids d + k <= n_uuids d')%nat
   end).
Lemma implements_any {A} d (f : Tx A) g : implements f g -> implements_at d 0 f g.
Proof.
  intros Hf d1 w Hw Ht Hn. destruct (Hf d1 w) as (o & d2 & w2 & Hrun & Hw2 & Ht2 & Hn2 & Ho). exists o, d2, w2. split; [done|].
  split; [eapply same_world_trans; eauto|]. split; [congruence|]. rewrite Ht in Ho. destruct Ho as [[? ?]|Ho]; [left; eauto with go|right].
  destruct (g (w (tables d))) as [|[a t]]; [done|]. destruct Ho. split; [done|]. split; [done|lia].
Qed.
Lemma implements_at_bind {A B} d n (f : Tx A) (k : A -> Tx B) g h :
  implements f g -> (forall a, implements_at d n (k a) (h a)) -> implements_at d n (bind f k) (sbind g h).
Proof.
  intros Hf Hk d1 w Hw Ht Hn. destruct (Hf d1 w) as (o & d2 & w2 & Hrun & Hw2 & Ht2 & Hn2 & Ho). unfold bind. rewrite Hrun.
  assert (Hw' : same_world d d2) by (eapply same_world_trans; eauto). rewrite Ht in Ho.
  destruct Ho as [[Hmay [text ->]]|Ho]; [exists (Err (PQError text)), d2, w2; split; [done|]; split; [done|]; split; [congruence|]; left; eauto with go|].
  unfold sbind. destruct (g (w (tables d))) as [e|[a t]]; [subst o; exists (Err e), d2, w2; split; [done|]; split; [done|]; split; [congruence|]; by right|].
  destruct Ho as [-> Hwt]. destruct (Hk a d2 w2 Hw' ltac:(congruence) ltac:(congruence)) as (o3 & d3 & w3 & Hrun3 & Hw3 & Ht3 & Ho3).
  exists o3, d3, w3. by rewrite Hwt in Ho3.
Qed.
Lemma implements_at_uuid {A} d (k : string -> Tx A) g :
  (forall id, implements (k id) (g id)) -> implements_at d 1 (bind (elsewhere uuid_generate_v4) k) (g (uuids d (n_uuids d))).
Proof.
  intros Hk d1 w Hw Ht Hn. unfold bind, elsewhere, zoom. cbn [fst snd uuid_generate_v4]. destruct Hw as (Hf & Hu & Hle).
  destruct (Hk (uuids d1 (n_uuids d1)) (set_n_uuids (S (n_uuids d1)) d1) w) as (o & d2 & w2 & Hrun & Hw2 & Ht2 & Hn2 & Ho).
  exists o, d2, w2. split; [done|]. cbn [tables set_n_uuids fault uuids n_uuids] in *. destruct Hw2 as (Hf2 & Hu2 & Hle2). cbn in Hf2, Hu2, Hle2.
  split; [split; [congruence|split; [congruence|lia]]|]. split; [congruence|]. rewrite Hu, Hn, Ht in Ho.
  destruct Ho as [[(n & text & Hft) ?]|Ho]; [left; split; [|done]; exists n, text; cbn in Hft; congruence|right].
  destruct (g _ _) as [|[a t]]; [done|]. destruct Ho. split; [done|]. split; [done|lia].
Qed.

(** What the closure and [withTx] give when the closure implements a function. *)
Lemma runTx_run {A} (f : Tx A) g d k : implements_at d k f g -> exists r e d', runTx f d = (Ret (r, e), d') /\ same_world d d' /\
  ((may_fail d /\ tables d' = tables d /\
      ((exists text, e = Some (PQError text)) /\ match r with Some (inl e') => exists text, e' = PQError text | _ => True end
       \/ r = Some (inl instances_initialized_pkey) /\ e = None)) \/
   match g (tables d) with
   | inl err => r = Some (inl err) /\ e = (if decide (err = instances_initialized_pkey) then None else Some err) /\ tables d' = tables d
   | inr (a, t) => r = Some (inr a) /\ e = None /\ tables d' = t /\ (n_uuids d + k <= n_uuids d')%nat
   end).
Proof.
  intros Hf. unfold runTx. unfold bind at 1. unfold try at 1.
  destruct (tick_run d) as (o & d1 & -> & Hw1 & Ht1 & Hn1 & [[Hmay [text ->]]| ->]).
  { eexists _, _, d1. split; [reflexivity|]. split; [done|]. left. eauto 8. }
  destruct (Hf d1 id Hw1 Ht1 Hn1) as (o & d2 & w2 & Hrun & Hw2 & Ht2 & Ho). rewrite Hrun. unfold id in Ho. destruct Ho as [[Hmay [text ->]]|Ho].
  - eexists _, _, d2. split; [reflexivity|]. split; [done|]. left. split; [done|]. split; [congruence|].
    destruct (decide (PQError text = instances_initialized_pkey)) as [E|E]; [right; by rewrite E|left; eauto].
  - destruct (g (tables d)) as [e|[a t]].
    { subst o. eexists _, _, d2. split; [reflexivity|]. split; [done|]. right. split; [done|]. split; [done|]. congruence. }
    destruct Ho as (-> & Hwt & Hk). unfold bind at 1, try at 1. destruct (tick_run d2) as (o & d3 & -> & Hw3 & Ht3 & Hn3 & [[Hmay [text ->]]| ->]).
    + eexists _, _, d3. split; [reflexivity|]. split; [eapply same_world_trans; eauto|]. left. split; [eauto with go|].
      split; [congruence|]. left. eauto.
    + eexists _, _, _. split; [reflexivity|]. split; [eapply same_world_trans; [exact Hw2|]; by destruct Hw3 as (? & ? & ?)|]. right.
      split; [done|]. split; [done|]. cbn. rewrite Ht3, Ht2, Hn3. done.
Qed.

(** * Receivers *)

(** The rows that refer to others. *)
Definition refs_ok (t : Tables) : Prop := forall p, p ∈ receiver_event_types t -> p.1 ∈ dom (receivers t) /\ p.2 ∈ dom (event_types t).

Definition default_types (rtype : string) (t : Tables) : gset string :=
  types_where (fun _ row => bool_decide (rtype ∈ default_receiver_types row)) t.
Definition with_receiver (id : string) (row : ReceiverRow) (t : Tables) : Tables :=
  set_receiver_event_types (receiver_event_types t ∪ subscriptions id (default_types (receiver_type row) t)) (set_receivers (<[id := row]> (receivers t)) t).

Lemma types_where_dom P t : types_where P t ⊆ dom (event_types t).
Proof. unfold types_where. apply subseteq_dom, map_filter_subseteq. Qed.
Lemma elem_of_subscriptions p id names : p ∈ subscriptions id names <-> p.1 = id /\ p.2 ∈ names.
Proof. unfold subscriptions. rewrite elem_of_map. destruct p as [i n]. cbn. naive_solver. Qed.

Lemma insert_subscriptions_run (ignore : bool) rows t : (forall p, p ∈ rows -> p.1 ∈ dom (receivers t) /\ p.2 ∈ dom (event_types t)) ->
  (ignore = false -> forall p, p ∈ rows -> p ∉ receiver_event_types t) ->
  insert_subscriptions ignore rows t = inr (tt, set_receiver_event_types (receiver_event_types t ∪ rows) t).
Proof.
  intros Hrows Hnew. unfold insert_subscriptions. rewrite (proj2 (forallb_forall _ _)); cbn [negb].
  - destruct ignore; [done|]. cbn [negb andb]. rewrite bool_decide_true by set_solver. done.
  - intros p Hp%list_elem_of_In%elem_of_elements. unfold references. destruct (Hrows p Hp). by rewrite !bool_decide_true.
Qed.

Definition receiver_statement (id : string) (row : ReceiverRow) : Statement string :=
  sbind (insert_receiver id row) (fun id => sbind (set_receiver_defaults id (receiver_type row)) (fun _ => sret id)).
Lemma receiver_statement_run id row t : refs_ok t -> receivers t !! id = None -> receiver_statement id row t = inr (id, with_receiver id row t).
Proof.
  intros Hrefs Hid. unfold receiver_statement, sbind, insert_receiver. rewrite Hid. unfold set_receiver_defaults.
  rewrite insert_subscriptions_run; [done| |].
  - intros p [-> Hp]%elem_of_subscriptions. cbn. split; [set_solver|]. by apply types_where_dom in Hp.
  - intros _ p [Hp _]%elem_of_subscriptions Hin. apply Hrefs in Hin as [Hin _]. rewrite Hp in Hin. by apply elem_of_dom in Hin as [? ?]; simplify_eq.
Qed.

(** The database answers, new identifiers are new, and rows refer to rows. *)
Record healthy (d : NotifyDB) : Prop := mkHealthy {
  no_fault : forall n, fault d n = None;
  fresh_ids : forall n, (n_uuids d <= n)%nat -> receivers (tables d) !! uuids d n = None;
  distinct_ids : forall n m, uuids d n = uuids d m -> n = m;
  refs : refs_ok (tables d) }.
Lemma may_fail_healthy d : may_fail d -> ~ healthy d.
Proof. intros (n & text & Hf) Hd. by rewrite (no_fault d Hd) in Hf. Qed.
#[export] Hint Resolve may_fail_healthy : go.
Lemma refs_with_receiver id row t : refs_ok t -> refs_ok (with_receiver id row t).
Proof.
  intros Hrefs p. cbn. rewrite elem_of_union, elem_of_subscriptions. intros [Hp|[-> Hp]]; [destruct (Hrefs p Hp); set_solver|].
  split; [set_solver|]. by apply types_where_dom in Hp.
Qed.

Lemma createReceiverTX_run rtype address instanceID d enc : json.Marshal (json.Raw address) = Some enc ->
  exists o d', createReceiverTX rtype address instanceID d = (o, d') /\ same_world d d' /\
  let id := uuids d (n_uuids d) in
  ((~ healthy d /\ tables d' = tables d /\ ((exists text, o = Err (PQError text)) \/ exists id', o = Ret id')) \/
   (o = Ret id /\ tables d' = with_receiver id (mkReceiverRow instanceID rtype enc) (tables d) /\ (n_uuids d < n_uuids d')%nat)).
Proof.
  intros Henc. unfold createReceiverTX, encoded. rewrite Henc. cbn [or_else]. unfold bind at 1, ret at 1. unfold bind at 1.
  set (row := mkReceiverRow instanceID rtype enc).
  destruct (runTx_run (do id <- elsewhere uuid_generate_v4; do receiverID <- run_tx (insert_receiver id row); run_tx (set_receiver_defaults receiverID rtype) ;;; ret receiverID)
              (receiver_statement (uuids d (n_uuids d)) row) d 1) as (r & e & d' & -> & Hw & Hcases).
  { apply (implements_at_uuid d _ (fun id => receiver_statement id row)). intros id. unfold receiver_statement. auto 8 with go. }
  cbn [fst]. destruct Hcases as [(Hmay & Ht & Hr)|Hrun].
  - assert (Hh : ~ healthy d) by auto with go. destruct r as [[e'|id']|]; eexists _, d'; (split; [reflexivity|]); (split; [done|]); left; (split; [done|]); (split; [done|]).
    + left. destruct Hr as [[_ [text ->]]|[[= ->] _]]; eexists; reflexivity.
    + right. by eexists.
    + right. by eexists.
  - destruct (receiver_statement _ row (tables d)) as [err|[id t]] eqn:Hg.
    + destruct Hrun as (-> & -> & Ht). eexists _, d'. split; [reflexivity|]. split; [done|]. left. split.
      { intros Hh. rewrite receiver_statement_run in Hg; [done|apply (refs d Hh)|]. apply (fresh_ids d Hh). lia. }
      split; [done|]. left. unfold receiver_statement, sbind, insert_receiver, set_receiver_defaults, insert_subscriptions, receivers_pkey, subscriptions_fkey, subscriptions_pkey in Hg.
      repeat case_match; simplify_eq; eexists; reflexivity.
    + destruct Hrun as (-> & -> & Ht & Hn). eexists _, d'. split; [reflexivity|]. split; [done|]. right.
      assert (id = uuids d (n_uuids d) /\ t = with_receiver (uuids d (n_uuids d)) row (tables d)) as [-> ->]; [|split; [done|]; split; [exact Ht|lia]].
      unfold receiver_statement, sbind, insert_receiver, set_receiver_defaults, insert_subscriptions, sret in Hg. by repeat case_match; simplify_eq.
Qed.

(** * The defaults of an instance *)

Definition browser_row (instanceID : string) : ReceiverRow := mkReceiverRow instanceID types.BrowserReceiver "null".
Definition mark (instanceID : string) (t : Tables) : Tables := set_instances_initialized ({[instanceID]} ∪ instances_initialized t) t.
Definition initialize (id instanceID : string) (t : Tables) : Tables := mark instanceID (with_receiver id (browser_row instanceID) t).
(** What a call leaves behind: nothing new, the receiver alone, the mark alone, or both. *)
Inductive defaults_of (d : NotifyDB) (instanceID : string) : Tables -> Prop :=
  | defaults_none : defaults_of d instanceID (tables d)
  | defaults_receiver : defaults_of d instanceID (with_receiver (uuids d (n_uuids d)) (browser_row instanceID) (tables d))
  | defaults_mark : instanceID ∉ instances_initialized (tables d) -> defaults_of d instanceID (mark instanceID (tables d))
  | defaults_both : instanceID ∉ instances_initialized (tables d) -> defaults_of d instanceID (initialize (uuids d (n_uuids d)) instanceID (tables d)).
#[export] Hint Constructors defaults_of : go.

Lemma tick_healthy d : healthy d -> tick d = (Ret tt, set_statements (S (statements d)) d).
Proof. intros Hd. unfold tick. by rewrite (no_fault d Hd). Qed.
Lemma healthy_later d d' : healthy d -> same_world d d' -> tables d' = tables d -> healthy d'.
Proof.
  intros [Hf Hfr Hd Hr] (Hf' & Hu & Hn) Ht. constructor; rewrite ?Hf', ?Hu, ?Ht; auto. intros n Hle. apply Hfr. lia.
Qed.
Lemma healthy_mark d d' instanceID : healthy d -> same_world d d' -> tables d' = mark instanceID (tables d) -> healthy d'.
Proof.
  intros [Hf Hfr Hd Hr] (Hf' & Hu & Hn) Ht. constructor; rewrite ?Hf', ?Hu, ?Ht; auto. intros n Hle. apply Hfr. lia.
Qed.
Lemma healthy_with_receiver d d' row : healthy d -> same_world d d' -> (n_uuids d < n_uuids d')%nat ->
  tables d' = with_receiver (uuids d (n_uuids d)) row (tables d) -> healthy d'.
Proof.
  intros [Hf Hfr Hd Hr] (Hf' & Hu & Hn) Hlt Ht. constructor; rewrite ?Hf', ?Hu, ?Ht; auto using refs_with_receiver.
  intros n Hle. cbn. rewrite lookup_insert_ne; [apply Hfr; lia|]. intros E%Hd. lia.
Qed.

Definition default_tables (d : NotifyDB) (instanceID : string) : Tables :=
  if decide (instanceID ∈ instances_initialized (tables d)) then tables d else initialize (uuids d (n_uuids d)) instanceID (tables d).

(** The transaction after the look-up, for an instance that is not initialized. *)
Lemma initialize_run instanceID d : instanceID ∉ instances_initialized (tables d) ->
  exists o d' w', (elsewhere (createReceiverTX types.BrowserReceiver "null" instanceID) ;;; run_tx (set_initialized instanceID)) (d, id) = (o, (d', w')) /\
  same_world d d' /\
  (tables d' = tables d /\ ~ healthy d \/ tables d' = with_receiver (uuids d (n_uuids d)) (browser_row instanceID) (tables d) /\ (healthy d -> healthy d')) /\
  ((~ healthy d /\ exists text, o = Err (PQError text)) \/ o = Ret tt /\ w' (tables d') = mark instanceID (tables d')).
Proof.
  intros Hnew. assert (Hnull : json.Marshal (json.Raw "null") = Some "null") by (vm_compute; reflexivity).
  destruct (createReceiverTX_run types.BrowserReceiver "null" instanceID d "null" Hnull) as (o & d1 & Hrun & Hw & Hcases).
  unfold bind at 1, elsewhere at 1, zoom at 1. cbn [fst snd]. rewrite Hrun.
  assert (Htables : tables d1 = tables d /\ ~ healthy d \/ tables d1 = with_receiver (uuids d (n_uuids d)) (browser_row instanceID) (tables d) /\ (healthy d -> healthy d1)).
  { destruct Hcases as [(? & ? & _)|(_ & Ht & Hlt)]; [by left|right]. split; [done|]. intros Hd. by eapply healthy_with_receiver. }
  assert (Ho : (~ healthy d /\ exists text, o = Err (PQError text)) \/ exists id, o = Ret id).
  { destruct Hcases as [(Hh & _ & [?|?])|(? & _)]; [by left|by right|right; by eexists]. }
  destruct Ho as [[Hh [text ->]]|[id' ->]]; [exists (Err (PQError text)), d1, id; split; [done|]; eauto 8|].
  destruct (implements_run (set_initialized instanceID) d1 id) as (o2 & d2 & w2 & Hrun2 & Hw2 & Ht2 & Hn2 & Ho2). rewrite Hrun2.
  exists o2, d2, w2. split; [done|]. split; [eapply same_world_trans; eauto|]. split.
  { destruct Htables as [[Ht Hh]|[Ht Hh]]; [left; split; [congruence|done]|right; split; [congruence|intros Hd; apply (healthy_later d1); auto]]. }
  assert (Hnew1 : instanceID ∉ instances_initialized (tables d1)) by (by destruct Htables as [[-> _]|[-> _]]).
  destruct Ho2 as [[Hmay Htext]|Ho2]; [left; split; [|done]; eauto using same_world_may_fail with go|right].
  unfold id, set_initialized in Ho2. rewrite decide_False in Ho2 by done. destruct Ho2 as [-> Hwt]. split; [done|]. rewrite Ht2. done.
Qed.

Lemma checkInstanceDefaults_run instanceID d : exists o d', checkInstanceDefaults instanceID d = (o, d') /\ same_world d d' /\
  defaults_of d instanceID (tables d') /\ (o = Ret tt \/ (~ healthy d /\ exists text, o = Err (PQError text))) /\
  (healthy d -> tables d' = default_tables d instanceID /\ healthy d').
Proof.
  unfold checkInstanceDefaults, withTx, runTx, default_tables. unfold bind at 1 2, try at 1.
  destruct (tick_run d) as (o & d1 & -> & Hw1 & Ht1 & Hn1 & [[Hmay [text ->]]| ->]).
  { exists (Err (PQError text)), d1. split; [done|]. split; [done|]. rewrite Ht1. split; [constructor|]. apply may_fail_healthy in Hmay. split; [eauto|done]. }
  cbn [snd]. unfold bind at 1, run_tx at 1. unfold bind at 1, elsewhere at 1, zoom at 1. cbn [fst snd].
  destruct (tick_run d1) as (o & d2 & -> & Hw2 & Ht2 & Hn2 & [[Hmay [text ->]]| ->]).
  { apply (same_world_may_fail _ _ Hw1), may_fail_healthy in Hmay. rewrite <- Ht1, <- Ht2.
    assert (Hw : same_world d d2) by (eapply same_world_trans; eauto). destruct (decide (PQError text = instances_initialized_pkey)).
    - exists (Ret tt), d2. split; [done|]. split; [done|]. rewrite Ht2, Ht1. split; [constructor|]. split; [by left|done].
    - exists (Err (PQError text)), d2. split; [done|]. split; [done|]. rewrite Ht2, Ht1. split; [constructor|]. split; [eauto|done]. }
  cbn [is_initialized select fst snd]. unfold id at 1. rewrite Ht2, Ht1.
  assert (Hw : same_world d d2) by (eapply same_world_trans; eauto). destruct (decide (instanceID ∈ instances_initialized (tables d))) as [Hin|Hnew].
  - rewrite bool_decide_true by done. cbn [ret]. unfold bind at 1, try at 1.
    destruct (tick_run d2) as (o & d3 & -> & Hw3 & Ht3 & Hn3 & [[Hmay [text ->]]| ->]).
    + apply (same_world_may_fail _ _ Hw), may_fail_healthy in Hmay. exists (Err (PQError text)), d3. split; [done|].
      split; [eapply same_world_trans; eauto|]. rewrite Ht3, Ht2, Ht1. split; [constructor|]. split; [eauto|done].
    + assert (Hw' : same_world d d3) by (eapply same_world_trans; eauto).
      eexists (Ret tt), (set_tables (tables d) d3). split; [cbn; unfold id; by rewrite Ht3, Ht2, Ht1|]. split; [exact Hw'|].
      split; [exact (defaults_none _ _)|]. split; [by left|]. intros Hd. split; [done|]. by apply (healthy_later d).
  - rewrite bool_decide_false by done. cbv iota.
    destruct (initialize_run instanceID d2) as (o & d3 & w3 & Hrun & Hw3 & Htables & Ho); [by rewrite Ht2, Ht1|].
    change (d2, fun tabs : Tables => id tabs) with (d2, @id Tables). rewrite Hrun. clear Hrun.
    assert (Hw' : same_world d d3) by (eapply same_world_trans; eauto).
    assert (Hd2 : healthy d -> healthy d2) by (intros Hd; apply (healthy_later d); [done|done|congruence]).
    assert (Hn : uuids d2 (n_uuids d2) = uuids d (n_uuids d)) by (destruct Hw as (_ & -> & _); congruence). rewrite Hn, Ht2, Ht1 in Htables.
    assert (Hdef : defaults_of d instanceID (tables d3)) by (destruct Htables as [[-> _]|[-> _]]; auto with go).
    destruct Ho as [[Hh [text ->]]|[-> Hwt]].
    { assert (~ healthy d) by tauto. destruct (decide (PQError text = instances_initialized_pkey)); eexists _, d3; (split; [reflexivity|]);
        do 2 (split; [done|]); (split; [eauto|done]). }
    unfold bind at 1, try at 1. destruct (tick_run d3) as (o & d4 & -> & Hw4 & Ht4 & Hn4 & [[Hmay [text ->]]| ->]).
    { apply (same_world_may_fail _ _ Hw'), may_fail_healthy in Hmay. exists (Err (PQError text)), d4. split; [done|].
      split; [eapply same_world_trans; eauto|]. rewrite Ht4. split; [done|]. split; [eauto|done]. }
    assert (Hw4' : same_world d d4) by (eapply same_world_trans; eauto). eexists (Ret tt), (set_tables (mark instanceID (tables d3)) d4).
    split; [cbn; by rewrite Ht4, Hwt|]. split; [exact Hw4'|]. cbn [tables set_tables].
    split; [destruct Htables as [[-> _]|[-> _]]; auto with go|]. split; [by left|]. intros Hd. destruct Htables as [[_ Hh]|[Ht Hh]]; [tauto|].
    split; [by rewrite Ht|]. apply (healthy_mark d3 _ instanceID); [auto|exact Hw4|done].
Qed.
Lemma refs_defaults d instanceID t : refs_ok (tables d) -> defaults_of d instanceID t -> refs_ok t.
Proof. intros Hrefs []; [done| |exact Hrefs|]; by apply refs_with_receiver. Qed.

(** * What an update makes of a receiver *)

(** Subscriptions the client does not know of: to types that are not shown, or whose flag it lacks. *)
Definition unseen (featureFlags : list string) (t : Tables) (name : string) : bool :=
  match event_types t !! name with
  | Some row => hide_ui_config row || match feature_flag row with Some flag => bool_decide (flag ∉ featureFlags) | None => false end
  | None => false
  end.
(** The event types a receiver of the given type may be saved with. *)
Definition offered (rtype : string) (t : Tables) (name : string) : bool :=
  match event_types t !! name with Some row => configurable rtype row | None => false end.

Definition saved (id : string) (row : ReceiverRow) (names featureFlags : list string) (t : Tables) : Tables :=
  set_receiver_event_types
    (filter (fun p : string * string => p.1 <> id) (receiver_event_types t)
     ∪ subscriptions id (list_to_set names ∪ filter (fun name => unseen featureFlags t name = true) (types_of id t)))
    (set_receivers (<[id := row]> (receivers t)) t).

Definition save_receiver (uuid_of : string -> option string) (receiver : types.Receiver) (address instanceID : string) (featureFlags : list string) : Statement unit := fun t =>
  let names := default [] (types.EventTypes receiver) in
  match uuid_of (types.rc_ID receiver) with
  | None => inl invalid_uuid
  | Some id =>
      match receivers t !! id with
      | None => inl ErrNoRows
      | Some row =>
          if negb (bool_decide (instance_id row = instanceID)) then inl ErrNoRows
          else match filter (fun name => offered (types.RType receiver) t name = false) names with
          | [] => inr (tt, saved id (mkReceiverRow instanceID (receiver_type row) address) names featureFlags t)
          | bad => inl (DBError ("Given event types do not exist or cannot be modified: " +:+ strings.Join bad ", "))
          end
      end
  end.

Lemma elem_of_types_where P t name : name ∈ types_where P t <-> exists row, event_types t !! name = Some row /\ P name row = true.
Proof.
  unfold types_where. rewrite elem_of_dom. split.
  - intros [row [Hrow HP]%map_lookup_filter_Some]. exists row. split; [done|]. cbn in HP. by destruct (P name row).
  - intros (row & Hrow & HP). exists row. apply map_lookup_filter_Some. split; [done|]. cbn. by rewrite HP.
Qed.
Lemma elem_of_types_of id t name : name ∈ types_of id t <-> (id, name) ∈ receiver_event_types t.
Proof.
  unfold types_of. rewrite elem_of_map. setoid_rewrite elem_of_filter. split; [intros ([i n] & -> & <- & Hp); done|].
  intros Hp. by exists (id, name).
Qed.
Lemma offered_spec rtype t name : offered rtype t name = true <-> name ∈ types_where (fun _ row => configurable rtype row) t.
Proof. rewrite elem_of_types_where. unfold offered. destruct (event_types t !! name) as [row|]; naive_solver. Qed.
Lemma kept_types_spec names flags t name : name ∈ kept_types names flags t <->
  name ∈ dom (event_types t) /\ (name ∈ names \/ unseen flags t name = true).
Proof.
  unfold kept_types, unseen. rewrite elem_of_types_where, elem_of_dom. destruct (event_types t !! name) as [row|]; [|naive_solver].
  assert (Hrow : (exists row', Some row = Some row' /\ bool_decide (name ∈ names)
      || negb match feature_flag row' with Some flag => bool_decide (flag ∈ flags) | None => true end || hide_ui_config row' = true)
    <-> bool_decide (name ∈ names) || negb match feature_flag row with Some flag => bool_decide (flag ∈ flags) | None => true end || hide_ui_config row = true) by naive_solver.
  rewrite Hrow, !orb_true_iff, bool_decide_eq_true. destruct (feature_flag row) as [flag|]; cbn; [rewrite bool_decide_not|]; naive_solver.
Qed.

(** The statements of an update, one after the other. *)
Definition update_statement (uuid_of : string -> option string) (receiver : types.Receiver) (address instanceID : string) (featureFlags : list string) : Statement (option dberror) :=
  let names := default [] (types.EventTypes receiver) in
  sbind (receiver_type_of uuid_of (types.rc_ID receiver) instanceID) (fun _ =>
  sbind (bad_types names (types.RType receiver)) (fun bad =>
  match bad with
  | _ :: _ => sret (Some (DBError ("Given event types do not exist or cannot be modified: " +:+ strings.Join bad ", ")))
  | [] =>
      let id := default EmptyString (uuid_of (types.rc_ID receiver)) in
      sbind (update_address id address) (fun _ => sbind (remove_types id names featureFlags) (fun _ => sbind (add_types id names) (fun _ => sret None)))
  end)).

Lemma saved_eq id row address names flags t : refs_ok t -> receivers t !! id = Some row -> (forall name, name ∈ names -> name ∈ dom (event_types t)) ->
  exists t1 t2, update_address id address t = inr (tt, t1) /\ remove_types id names flags t1 = inr (tt, t2) /\
  add_types id names t2 = inr (tt, saved id (mkReceiverRow (instance_id row) (receiver_type row) address) names flags t).
Proof.
  intros Hrefs Hrow Hnames. eexists _, _. split; [reflexivity|]. split; [reflexivity|]. rewrite Hrow. unfold add_types.
  rewrite insert_subscriptions_run; [| |done].
  - do 2 f_equal. unfold saved, set_receiver_event_types, set_receivers. cbn. f_equal. apply set_eq. intros [i name].
    rewrite !elem_of_union, !elem_of_filter, !elem_of_subscriptions, elem_of_union, elem_of_filter, !elem_of_list_to_set, elem_of_types_of, kept_types_spec.
    cbn. repeat match goal with |- context [unseen flags ?t' name] => progress change (unseen flags t' name) with (unseen flags t name) end.
    generalize (unseen flags t name). intros u. destruct (decide (i = id)) as [->|Hi]; [|naive_solver].
    assert ((id, name) ∈ receiver_event_types t -> name ∈ dom (event_types t)) by (intros Hp; by apply Hrefs in Hp as []).
    destruct (decide (name ∈ names)), (decide (name ∈ dom (event_types t))), u; naive_solver.
  - intros p [-> Hp]%elem_of_subscriptions. cbn. rewrite elem_of_list_to_set in Hp. split; [set_solver|auto].
Qed.

Lemma update_statement_run uuid_of receiver address instanceID flags t : refs_ok t ->
  match save_receiver uuid_of receiver address instanceID flags t with
  | inr (_, t') => update_statement uuid_of receiver address instanceID flags t = inr (None, t')
  | inl e => update_statement uuid_of receiver address instanceID flags t = inl e \/ update_statement uuid_of receiver address instanceID flags t = inr (Some e, t)
  end.
Proof.
  intros Hrefs. unfold save_receiver, update_statement, sbind, receiver_type_of, bad_types, NotifyDB.select. destruct (uuid_of _) as [id|]; [|by left].
  destruct (receivers t !! id) as [row|] eqn:Hrow; [|by left]. destruct (decide (instance_id row = instanceID)) as [Hinst|Hinst]; cycle 1.
  { rewrite bool_decide_false by done. by left. }
  rewrite bool_decide_true by done. cbn [negb].
  set (names := default [] _).
  assert (filter (fun name => name ∉ types_where (fun _ row => configurable (types.RType receiver) row) t) names =
    filter (fun name => offered (types.RType receiver) t name = false) names) as ->.
  { apply list_filter_iff. intros name. rewrite <- offered_spec. destruct (offered _ _ _); naive_solver. }
  destruct (filter _ names) as [|bad l] eqn:Hbad; [|by right]. change (default EmptyString (Some id)) with id.
  destruct (saved_eq id row address names flags t Hrefs Hrow) as (t1 & t2 & H1 & H2 & H3).
  { intros name Hname. destruct (offered (types.RType receiver) t name) eqn:Ho; [by apply offered_spec, types_where_dom in Ho|].
    assert (Hin : name ∈ filter (fun name => offered (types.RType receiver) t name = false) names) by (by apply list_elem_of_filter).
    rewrite Hbad in Hin. by apply elem_of_nil in Hin. }
  by rewrite H1, H2, H3, Hinst.
Qed.

Section updates.
Context `{GoRange}.
Variable uuid_of : string -> option string.

(** The transaction of an update, from tables whose rows refer to rows. *)
Lemma update_transaction receiver address instanceID flags :
  implements (
    do _ <- run_tx (receiver_type_of uuid_of (types.rc_ID receiver) instanceID);
    do badTypes <- run_tx (bad_types (default [] (types.EventTypes receiver)) (types.RType receiver));
    match badTypes with
    | _ :: _ => ret (Some (DBError ("Given event types do not exist or cannot be modified: " +:+ strings.Join badTypes ", ")))
    | [] =>
        run_tx (update_address (default EmptyString (uuid_of (types.rc_ID receiver))) address) ;;;
        run_tx (remove_types (default EmptyString (uuid_of (types.rc_ID receiver))) (default [] (types.EventTypes receiver)) flags) ;;;
        run_tx (add_types (default EmptyString (uuid_of (types.rc_ID receiver))) (default [] (types.EventTypes receiver))) ;;;
        ret None
    end) (update_statement uuid_of receiver address instanceID flags).
Proof.
  apply implements_bind; [apply implements_run|intros _]. apply implements_bind; [apply implements_run|intros [|bad l]]; [|apply implements_ret].
  auto 8 with go.
Qed.

Lemma UpdateReceiver_run receiver address instanceID flags d : refs_ok (tables d) ->
  json.Marshal (json.Raw (types.AddressData receiver)) = Some address ->
  exists o d' t0, UpdateReceiver uuid_of receiver instanceID flags d = (o, d') /\ defaults_of d instanceID t0 /\
  let save := save_receiver uuid_of receiver address instanceID flags t0 in
  (tables d' = t0 \/ o = Ret tt /\ save = inr (tt, tables d')) /\
  (healthy d -> t0 = default_tables d instanceID /\
     match save with inl e => o = Err e /\ tables d' = t0 | inr (_, t) => o = Ret tt /\ tables d' = t end).
Proof.
  intros Hrefs Haddr. destruct (checkInstanceDefaults_run instanceID d) as (o & d1 & Hrun & Hw & Hdef & Ho & Hh).
  unfold UpdateReceiver. unfold bind at 1. rewrite Hrun. destruct Ho as [-> |(Hnh & text & ->)]; cycle 1.
  { eexists _, d1, (tables d1). split; [reflexivity|]. split; [done|]. cbv zeta. split; [by left|done]. }
  unfold encoded. rewrite Haddr. cbn [or_else]. unfold bind at 1, ret at 1. cbv zeta.
  destruct (runTx_run _ _ d1 0 (implements_any d1 _ _ (update_transaction receiver address instanceID flags))) as (r & e & d2 & Hrun2 & Hw2 & Hcases).
  unfold bind at 1. rewrite Hrun2. clear Hrun Hrun2.
  assert (Hrefs1 : refs_ok (tables d1)) by (by eapply refs_defaults). pose proof (update_statement_run uuid_of receiver address instanceID flags (tables d1) Hrefs1) as Hsave.
  destruct Hcases as [(Hmay & Ht & Hres)|Hcases].
  - assert (Hnh : ~ healthy d) by (intros Hd; destruct (Hh Hd) as [_ Hd1]; by apply may_fail_healthy in Hmay).
    destruct r as [[|[|]]|], e; eexists _, d2, (tables d1); (split; [reflexivity|]); (split; [done|]); (split; [by left; rewrite Ht|done]).
  - destruct (save_receiver _ _ _ _ _ _) as [err|[[] t]] eqn:Hs; [destruct Hsave as [Hsave|Hsave]|]; rewrite Hsave in Hcases;
      [destruct Hcases as (-> & -> & Ht); rewrite decide_False by (intros ->; revert Hs; unfold save_receiver; by repeat case_match)
      |destruct Hcases as (-> & -> & Ht & _)|destruct Hcases as (-> & -> & Ht & _)];
      eexists _, d2, (tables d1); (split; [reflexivity|]); (split; [done|]); rewrite Hs.
    1, 2: split; [by left|intros Hd; by destruct (Hh Hd)].
    split; [right; by rewrite Ht|intros Hd; by destruct (Hh Hd)].
Qed.

(** A receiver of the instance: the type it is stored with has no say. *)
Lemma save_receiver_own receiver address instanceID flags id row t :
  uuid_of (types.rc_ID receiver) = Some id -> receivers t !! id = Some row -> instance_id row = instanceID ->
  let names := default [] (types.EventTypes receiver) in
  if decide (Forall (fun name => offered (types.RType receiver) t name = true) names)
  then save_receiver uuid_of receiver address instanceID flags t = inr (tt, saved id (mkReceiverRow instanceID (receiver_type row) address) names flags t)
  else exists e, save_receiver uuid_of receiver address instanceID flags t = inl e.
Proof.
  intros Hid Hrow Hinst names. unfold save_receiver. fold names. rewrite Hid, Hrow, bool_decide_eq_true_2 by done. cbn [negb].
  destruct (filter _ names) as [|bad l] eqn:Hbad.
  - rewrite decide_True; [done|]. apply Forall_forall. intros name Hname. destruct (offered _ _ name) eqn:Ho; [done|].
    assert (Hin : name ∈ filter (fun name => offered (types.RType receiver) t name = false) names) by by apply list_elem_of_filter.
    rewrite Hbad in Hin. by apply elem_of_nil in Hin.
  - rewrite decide_False; [eauto|]. intros Hall. assert (Hin : bad ∈ bad :: l) by apply list_elem_of_here. rewrite <- Hbad in Hin.
    apply list_elem_of_filter in Hin as [Hno Hin]. rewrite Forall_forall in Hall. by rewrite Hall in Hno.
Qed.

(** C22: an update of a receiver either happens as a whole or not at all. Unless a statement fails it is the function
    [save_receiver] of the tables, after the defaults of the instance: the address is replaced, the subscriptions become the
    given ones and those the client cannot see, the other receivers keep theirs, and a receiver that is not one of the instance
    or an event type that is not offered for the type that the client sends is an error that changes nothing. That type is not
    compared with the one the receiver has (contrary to the comment at receiver.go:190 and to api.md): the receiver keeps its
    own, and an update of it happens exactly when the event types are offered for the one that was sent. *)
Theorem UpdateReceiver_saves receiver address instanceID flags d : refs_ok (tables d) ->
  json.Marshal (json.Raw (types.AddressData receiver)) = Some address ->
  exists o d' t0, UpdateReceiver uuid_of receiver instanceID flags d = (o, d') /\ defaults_of d instanceID t0 /\
  let save := save_receiver uuid_of receiver address instanceID flags t0 in
  let names := default [] (types.EventTypes receiver) in
  (tables d' = t0 \/ o = Ret tt /\ save = inr (tt, tables d')) /\
  (healthy d -> t0 = default_tables d instanceID /\
     match save with inl e => o = Err e /\ tables d' = t0 | inr (_, t) => o = Ret tt /\ tables d' = t end /\
     forall id row, uuid_of (types.rc_ID receiver) = Some id -> receivers t0 !! id = Some row -> instance_id row = instanceID ->
       if decide (Forall (fun name => offered (types.RType receiver) t0 name = true) names)
       then o = Ret tt /\ tables d' = saved id (mkReceiverRow instanceID (receiver_type row) address) names flags t0
       else (exists e, o = Err e) /\ tables d' = t0).
Proof.
  intros Hrefs Haddr. destruct (UpdateReceiver_run receiver address instanceID flags d Hrefs Haddr) as (o & d' & t0 & Hrun & Hdef & Hsave & Hh).
  exists o, d', t0. do 2 (split; [done|]). cbv zeta in *. split; [done|]. intros Hd. destruct (Hh Hd) as [Ht Hres]. do 2 (split; [done|]).
  intros id row Hid Hrow Hinst. pose proof (save_receiver_own receiver address instanceID flags id row t0 Hid Hrow Hinst) as Hown. cbv zeta in Hown.
  destruct (decide _).
  - by rewrite Hown in Hres.
  - destruct Hown as [e He]. rewrite He in Hres. destruct Hres. eauto.
Qed.

Lemma default_tables_initialized d instanceID : instanceID ∈ instances_initialized (default_tables d instanceID).
Proof. unfold default_tables. case_decide; [done|]. cbn. set_solver. Qed.
Lemma checkInstanceDefaults_healthy instanceID d : healthy d ->
  exists d', checkInstanceDefaults instanceID d = (Ret tt, d') /\ tables d' = default_tables d instanceID /\ healthy d'.
Proof.
  intros Hd. destruct (checkInstanceDefaults_run instanceID d) as (o & d' & -> & _ & _ & [->|[? _]] & Hh); [|done]. destruct (Hh Hd). eauto.
Qed.
Lemma run_healthy {A} (f : Statement A) d a t : healthy d -> f (tables d) = inr (a, t) -> exists d', run f d = (Ret a, d') /\ tables d' = t /\ same_world d d'.
Proof.
  intros Hd Hf. destruct (atomic_run f d) as (o & d' & -> & Hw & [[Hmay _]|Hrun]); [by apply may_fail_healthy in Hmay|].
  rewrite Hf in Hrun. destruct Hrun as [-> Ht]. eauto.
Qed.
Lemma healthy_default_again d instanceID : instanceID ∈ instances_initialized (tables d) -> default_tables d instanceID = tables d.
Proof. intros Hin. unfold default_tables. by rewrite decide_True. Qed.

Lemma array_agg_elem (names : gset string) name : name ∈ array_agg names <-> name ∈ names.
Proof.
  unfold array_agg. rewrite list_elem_of_fmap. split.
  - intros ([k []] & -> & Hk%elem_of_go_range). by apply lookup_gset_to_gmap_Some in Hk as [? _].
  - intros Hn. exists (name, tt). split; [done|]. apply elem_of_go_range. by apply lookup_gset_to_gmap_Some.
Qed.

Lemma saved_same id row flags t : receivers t !! id = Some row -> saved id row (array_agg (types_of id t)) flags t = t.
Proof.
  intros Hrow. destruct t as [et rs ret_ ev ini]. unfold saved, set_receiver_event_types, set_receivers. cbn in *. f_equal; [by apply insert_id|].
  apply set_eq. intros [i name]. rewrite elem_of_union, elem_of_filter, elem_of_subscriptions, elem_of_union, elem_of_list_to_set, elem_of_filter, array_agg_elem, elem_of_types_of.
  cbn. destruct (decide (i = id)) as [->|Hi]; naive_solver.
Qed.

(** C28: what [GetReceiver] gives can be saved again only when every subscription of the receiver is one it may be configured
    for, and it then changes nothing: the feature flags and the choice to omit hidden types make no difference to what is read,
    so that a client that saves a receiver with a hidden subscription as it was read is refused. *)
Theorem GetReceiver_saved_back receiverID id row instanceID flags flags' omit d : healthy d ->
  uuid_of receiverID = Some id -> uuid_of id = Some id ->
  receivers (default_tables d instanceID) !! id = Some row -> instance_id row = instanceID ->
  json.Marshal (json.Raw (address_data row)) = Some (address_data row) ->
  exists receiver d1, GetReceiver uuid_of instanceID receiverID flags omit d = (Ret receiver, d1) /\ tables d1 = default_tables d instanceID /\
  exists o d2, UpdateReceiver uuid_of receiver instanceID flags' d1 = (o, d2) /\ tables d2 = default_tables d instanceID /\
  (o = Ret tt <-> forall name, name ∈ types_of id (tables d1) -> offered (receiver_type row) (tables d1) name = true).
Proof.
  intros Hd Hid Hcanon Hrow Hinst Haddr. destruct (checkInstanceDefaults_healthy instanceID d Hd) as (d1 & Hdef & Ht1 & Hd1).
  set (t := default_tables d instanceID) in *. set (receiver := ReceiverFromRow id row (types_of id t)).
  destruct (run_healthy (get_receiver uuid_of receiverID instanceID flags omit) d1 receiver t Hd1) as (d2 & Hget & Ht2 & Hw2).
  { unfold get_receiver. rewrite Hid, Ht1, Hrow, decide_True by done. done. }
  exists receiver, d2. split; [unfold GetReceiver, bind; by rewrite Hdef, Hget|]. split; [done|].
  assert (Hd2 : healthy d2) by (apply (healthy_later d1); [done|done|congruence]).
  destruct (UpdateReceiver_run receiver (address_data row) instanceID flags' d2 (refs d2 Hd2) Haddr) as (o & d3 & t0 & -> & _ & _ & Hh).
  destruct (Hh Hd2) as [-> Hsave]. rewrite healthy_default_again in Hsave by (rewrite Ht2; apply default_tables_initialized). rewrite Ht2 in *.
  exists o, d3. split; [done|]. unfold save_receiver in Hsave. cbn [receiver ReceiverFromRow types.rc_ID types.RType types.EventTypes] in Hsave.
  change (default [] (Some (array_agg (types_of id t)))) with (array_agg (types_of id t)) in Hsave. rewrite Hcanon, Hrow, bool_decide_true in Hsave by done.
  cbn [negb] in Hsave. destruct (filter _ _) as [|bad l] eqn:Hbad; destruct Hsave as [-> Ht3].
  - split; [|split; [intros _ name Hname|done]].
    + rewrite Ht3. rewrite <- Hinst. by destruct row; apply saved_same.
    + destruct (offered (receiver_type row) t name) eqn:Ho; [done|]. apply array_agg_elem in Hname.
      assert (Hin : name ∈ filter (fun name => offered (receiver_type row) t name = false) (array_agg (types_of id t))) by (by apply list_elem_of_filter).
      rewrite Hbad in Hin. by apply elem_of_nil in Hin.
  - split; [done|]. split; [done|]. intros Hall. assert (Hin : bad ∈ bad :: l) by apply list_elem_of_here. rewrite <- Hbad in Hin.
    apply list_elem_of_filter in Hin as [Hno Hin%array_agg_elem]. by rewrite Hall in Hno.
Qed.
End updates.

(** * A database with one instance *)

Module sample_db.
Definition deploy : EventTypeRow := mkEventTypeRow "Deploy" "A deployment" ["browser"; "slack"] false None ["email"].
Definition secret : EventTypeRow := mkEventTypeRow "Secret" "Not shown" [] true None [].
Definition beta : EventTypeRow := mkEventTypeRow "Beta" "Behind a flag" ["slack"] false (Some "beta_events") [].
Definition slack : ReceiverRow := mkReceiverRow "i1" types.SlackReceiver "null".
Definition sample_tables : Tables := mkTables
  (list_to_map [("deploy", deploy); ("secret", secret); ("beta", beta)]) (list_to_map [("r1", slack)])
  (list_to_set [("r1", "deploy"); ("r1", "secret"); ("r1", "beta")]) ∅ {["i1"]}.
Definition sample_uuid (n : nat) : string := "uuid-" +:+ pretty n.
Definition sample : NotifyDB := mkNotifyDB sample_tables (fun _ => None) 0 sample_uuid 0.
(** Any text but the empty one is an identifier, as it is. *)
Definition sample_uuid_of (text : string) : option string := if decide (text = EmptyString) then None else Some text.

Lemma sample_refs : refs_ok sample_tables.
Proof. intros p. cbn [receiver_event_types sample_tables]. rewrite elem_of_list_to_set, !elem_of_cons, elem_of_nil. intros [->|[->|[->|[]]]]; split; by apply elem_of_dom. Qed.
Lemma sample_healthy : healthy sample.
Proof.
  split; [done| | |apply sample_refs].
  - intros n _. cbn. rewrite lookup_insert_ne; [done|discriminate].
  - intros n m Hnm. cbn in Hnm. unfold sample_uuid in Hnm. apply (inj (String.append "uuid-")) in Hnm. by apply (inj pretty).
Qed.

(** The beta type, which the client does not see, stays; the other two are replaced by what is given. *)
Definition sample_receiver : types.Receiver := types.mkReceiver "r1" types.SlackReceiver "i1" "{}" (Some ["deploy"]).
Lemma sample_saved : exists d', (UpdateReceiver sample_uuid_of sample_receiver "i1" [] sample) = (Ret tt, d') /\
  types_of "r1" (tables d') = {["deploy"; "secret"; "beta"]} /\ receivers (tables d') !! "r1" = Some (mkReceiverRow "i1" types.SlackReceiver "{}").
Proof. eexists. split; [vm_compute; reflexivity|]. split; vm_compute; reflexivity. Qed.

(** The receiver of the instance is of Slack; as one for e-mail it cannot be subscribed to deployments, which that type hides,
    but it can as one of the browser. *)
Definition as_type (rtype : string) : types.Receiver := types.mkReceiver "r1" rtype "i1" "{}" (Some ["deploy"]).
Lemma UpdateReceiver_saves_witness :
  (exists e, (UpdateReceiver sample_uuid_of (as_type types.EmailReceiver) "i1" [] sample).1 = Err e) /\
  exists d', UpdateReceiver sample_uuid_of (as_type types.BrowserReceiver) "i1" [] sample = (Ret tt, d') /\
    receivers (tables d') !! "r1" = Some (mkReceiverRow "i1" types.SlackReceiver "{}").
Proof.
  split; [eexists; vm_compute; reflexivity|].
  destruct (UpdateReceiver_saves sample_uuid_of (as_type types.BrowserReceiver) "{}" "i1" [] sample sample_refs) as (o & d' & t0 & Hrun & _ & _ & Hh);
    [vm_compute; reflexivity|].
  destruct (Hh sample_healthy) as (-> & _ & Hown). specialize (Hown "r1" slack eq_refl eq_refl eq_refl). rewrite decide_True in Hown.
  - destruct Hown as [-> Ht]. exists d'. split; [exact Hrun|]. rewrite Ht. vm_compute. reflexivity.
  - apply Forall_singleton. vm_compute. reflexivity.
Defined.

(** What is read of the receiver cannot be saved: it is subscribed to a type that is hidden. *)
Lemma GetReceiver_saved_back_witness :
  exists receiver d1, @GetReceiver list_range sample_uuid_of "i1" "r1" [] true sample = (Ret receiver, d1) /\ tables d1 = default_tables sample "i1" /\
  exists o d2, UpdateReceiver sample_uuid_of receiver "i1" [] d1 = (o, d2) /\ tables d2 = default_tables sample "i1" /\
  (o = Ret tt <-> forall name, name ∈ types_of "r1" (tables d1) -> offered (receiver_type slack) (tables d1) name = true).
Proof.
  apply (@GetReceiver_saved_back list_range sample_uuid_of "r1" "r1" slack "i1" [] [] true sample sample_healthy); try reflexivity;
    vm_compute; reflexivity.
Defined.
End sample_db.
