(* ===== verification/NotifyTables.v ===== *)
(** What the notification database keeps: the event types after the service has started, and the defaults of an instance when
    several calls initialize it at once. *)
From Stdlib Require Import ZArith Lia Ascii String.
From stdpp Require Import base tactics option gmap sets strings list pretty infinite relations.
From S2P Require Import Prelude GoStd Json Notification NotifyDB NotifySpec.

(** * Loops of statements *)

Fixpoint sfold {A B} (g : B -> A -> Statement B) (l : list A) (b : B) : Statement B :=
  match l with [] => sret b | x :: l => sbind (g b x) (fun b => sfold g l b) end.
Fixpoint sfor_each {A} (g : A -> Statement unit) (l : list A) : Statement unit :=
  match l with [] => sret tt | x :: l => sbind (g x) (fun _ => sfor_each g l) end.
Lemma implements_fold_m {A B} (f : B -> A -> Tx B) g l b : (forall b x, implements (f b x) (g b x)) -> implements (fold_m f l b) (sfold g l b).
Proof. intros Hf. revert b. induction l as [|x l IH]; intros b; cbn; [apply implements_ret|]. by apply implements_bind. Qed.
Lemma implements_for_each {A} (f : A -> Tx unit) g l : (forall x, implements (f x) (g x)) -> implements (for_each l f) (sfor_each g l).
Proof. intros Hf. induction l as [|x l IH]; cbn; [apply implements_ret|]. by apply implements_bind. Qed.

(** * What is written for an event type *)

(** An event type that can be stored under a name: it is its name, and neither list is nil. *)
Definition complete (name : string) (e : types.EventType) : Prop :=
  types.et_Name e = name /\ is_Some (types.DefaultReceiverTypes e) /\ is_Some (types.HiddenReceiverTypes e).
(** What [EventTypesFromFile] gives: the names are right and hidden receiver types are there. *)
Definition loaded (eventTypes : gmap string types.EventType) : Prop := forall name e, eventTypes !! name = Some e ->
  types.et_Name e = name /\ is_Some (types.HiddenReceiverTypes e).
(** Every type of the file says which receivers it is for by default. *)
Definition with_defaults (eventTypes : gmap string types.EventType) : Prop := forall name e, eventTypes !! name = Some e -> is_Some (types.DefaultReceiverTypes e).
Definition without_hidden (e : types.EventType) : types.EventType :=
  types.mkEventType (types.et_Name e) (types.DisplayName e) (types.Description e) (types.DefaultReceiverTypes e) (Some []) (types.HideUIConfig e) (types.FeatureFlag e).
(** The table holds an event type. *)
Definition holds (t : Tables) (name : string) (e : types.EventType) : Prop :=
  exists row, event_types t !! name = Some row /\ EventTypeFromRow name row = e.

Lemma EventTypesFromFile_loaded file : loaded (types.EventTypesFromFile file).
Proof.
  unfold types.EventTypesFromFile. set (put := fun result e => _).
  enough (forall m, loaded m -> loaded (foldl put m file)) as H by (apply H; intros name e He; by rewrite lookup_empty in He).
  induction file as [|x file IH]; intros m Hm; cbn; [done|]. apply IH. intros name e [[<- <-]|[_ He]]%lookup_insert_Some; [|by apply Hm].
  split; [done|by eexists].
Qed.
Lemma loaded_complete eventTypes name e : loaded eventTypes -> eventTypes !! name = Some e -> is_Some (types.DefaultReceiverTypes e) -> complete name e.
Proof. intros Hl He Hd. by destruct (Hl name e He). Qed.

Lemma nullif_default flag : default EmptyString (nullif flag) = flag.
Proof. unfold nullif. by case_decide. Qed.

Section sync.
Context `{GoRange}.

Definition update_one (e : types.EventType) : Statement unit :=
  sbind (update_event_type e) (fun n => if n =? 0 then sthrow (DBError "Event type does not exist") else sret tt).
Definition sync_one (eventTypes : gmap string types.EventType) (old : types.EventType) : Statement (gmap string types.EventType) :=
  match eventTypes !! types.et_Name old with
  | Some e => sbind (if types.Equals e old then sret tt else update_one e) (fun _ => sret (delete (types.et_Name e) eventTypes))
  | None => sret eventTypes
  end.
Definition create_one (e : types.EventType) : Statement unit :=
  sbind (create_event_type e) (fun n =>
    if n =? 0 then sthrow (DBError "Event type already exists") else subscribe_receivers (types.et_Name e) (default [] (types.DefaultReceiverTypes e))).
Definition sync_statement (eventTypes : gmap string types.EventType) : Statement unit :=
  sbind (list_event_types None) (fun old => sbind (sfold sync_one old eventTypes) (fun rest => sfor_each (fun kv => create_one kv.2) (go_range rest))).

Lemma implements_sync eventTypes : implements (
  do oldEventTypes <- ListEventTypes_tx None;
  do eventTypes <- fold_m sync_old oldEventTypes eventTypes;
  for_each (go_range eventTypes) (fun kv => CreateEventType kv.2)) (sync_statement eventTypes).
Proof.
  apply implements_bind; [apply implements_run|intros old]. apply implements_bind.
  - apply implements_fold_m. intros b x. unfold sync_old, sync_one. destruct (b !! _) as [e|]; [|apply implements_ret].
    apply implements_bind; [|intros; apply implements_ret]. destruct (types.Equals e x); [apply implements_ret|].
    apply implements_bind; [apply implements_run|intros n]. destruct (n =? 0); [apply implements_throw|apply implements_ret].
  - intros rest. apply implements_for_each. intros [k e]. apply implements_bind; [apply implements_run|intros n].
    destruct (n =? 0); [apply implements_throw|apply implements_run].
Qed.

(** * Types that are there *)

Lemma update_one_run t name e row : event_types t !! name = Some row -> types.et_Name e = name ->
  is_Some (types.DefaultReceiverTypes e) -> is_Some (types.HiddenReceiverTypes e) ->
  exists row', update_one e t = inr (tt, set_event_types (<[name := row']> (event_types t)) t) /\ EventTypeFromRow name row' = e.
Proof.
  intros Hrow <- [defaults Hdefaults] [hidden Hhidden]. unfold update_one, sbind, update_event_type. rewrite Hrow, Hdefaults, Hhidden. cbn.
  eexists. split; [reflexivity|]. unfold EventTypeFromRow. cbn. rewrite nullif_default, <- Hdefaults, <- Hhidden. by destruct e.
Qed.

(** Tables that differ in their event types only. *)
Definition same_but_types (t t' : Tables) : Prop := exists types, t' = set_event_types types t.
Lemma same_but_types_refl t : same_but_types t t.
Proof. exists (event_types t). by destruct t. Qed.
Lemma same_but_types_trans t1 t2 t3 : same_but_types t1 t2 -> same_but_types t2 t3 -> same_but_types t1 t3.
Proof. intros [m1 ->] [m2 ->]. by exists m2. Qed.

Lemma sync_one_run t eventTypes old : (forall e, eventTypes !! types.et_Name old = Some e -> complete (types.et_Name old) e) -> holds t (types.et_Name old) old ->
  exists t', sync_one eventTypes old t = inr (delete (types.et_Name old) eventTypes, t') /\ same_but_types t t' /\
  (forall e, eventTypes !! types.et_Name old = Some e -> holds t' (types.et_Name old) e) /\
  (forall name, name <> types.et_Name old \/ eventTypes !! name = None -> event_types t' !! name = event_types t !! name).
Proof.
  intros Hc (row & Hrow & Hold). unfold sync_one. destruct (eventTypes !! types.et_Name old) as [e|] eqn:He; cycle 1.
  { exists t. split; [by rewrite delete_id|]. split; [apply same_but_types_refl|]. done. }
  destruct (Hc _ eq_refl) as (Hname & Hd & Hh). rewrite Hname. unfold types.Equals. destruct (types.EventType_dec e old) as [->|Hne].
  { rewrite bool_decide_true by done. exists t. split; [done|]. split; [apply same_but_types_refl|]. split; [intros ? [= ->]; by exists row|done]. }
  rewrite bool_decide_false by done. destruct (update_one_run t (types.et_Name old) e row Hrow Hname Hd Hh) as (row' & Hrun & Hrow').
  eexists. split; [unfold sbind at 1; by rewrite Hrun|]. split; [by eexists|]. split.
  - intros e' [= <-]. exists row'. split; [cbn; by rewrite lookup_insert_eq|done].
  - intros name Hor. cbn. rewrite lookup_insert_ne; [done|]. intros <-. destruct Hor; [done|congruence].
Qed.

Lemma sync_all_run l : forall t eventTypes, (forall name e, name ∈ types.et_Name <$> l -> eventTypes !! name = Some e -> complete name e) ->
  NoDup (types.et_Name <$> l) ->
  (forall old, old ∈ l -> holds t (types.et_Name old) old) ->
  exists rest t', sfold sync_one l eventTypes t = inr (rest, t') /\ same_but_types t t' /\
  (forall name, rest !! name = if decide (name ∈ types.et_Name <$> l) then None else eventTypes !! name) /\
  (forall name e, name ∈ types.et_Name <$> l -> eventTypes !! name = Some e -> holds t' name e) /\
  (forall name, name ∉ types.et_Name <$> l \/ eventTypes !! name = None -> event_types t' !! name = event_types t !! name).
Proof.
  induction l as [|old l IH]; intros t eventTypes Hc Hnodup Hold; cbn.
  { exists eventTypes, t. split; [done|]. split; [apply same_but_types_refl|]. split; [done|]. split; [|done]. intros name e Hin. by apply elem_of_nil in Hin. }
  apply NoDup_cons in Hnodup as [Hnew Hnodup].
  destruct (sync_one_run t eventTypes old (fun e => Hc _ e (list_elem_of_here _ _)) (Hold old (list_elem_of_here _ _))) as (t1 & Hrun & Hsame & Hheld & Hothers).
  destruct (IH t1 (delete (types.et_Name old) eventTypes)) as (rest & t2 & Hrun2 & Hsame2 & Hrest & Hheld2 & Hothers2).
  - intros name e Hin [_ He]%lookup_delete_Some. apply Hc; [by apply list_elem_of_further|done].
  - done.
  - intros o Ho. destruct (Hold o (list_elem_of_further _ _ _ Ho)) as (row & Hrow & Heq). exists row. split; [|done].
    rewrite Hothers; [done|]. left. intros E. apply Hnew. rewrite <- E. by apply list_elem_of_fmap_2.
  - exists rest, t2. unfold sbind. rewrite Hrun. split; [done|]. split; [by eapply same_but_types_trans|]. split; [|split].
    + intros name. rewrite Hrest. destruct (decide (name = types.et_Name old)) as [->|Hne].
      * rewrite (decide_True _ _ (list_elem_of_here _ _)). case_decide; [done|]. by rewrite lookup_delete_eq.
      * rewrite lookup_delete_ne by done. repeat case_decide; [done| | |done]; rewrite elem_of_cons in *; naive_solver.
    + intros name e [->|Hin]%elem_of_cons He.
      * destruct (Hheld e He) as (row & Hrow & Heq). exists row. split; [|done]. rewrite Hothers2; [done|by left].
      * apply Hheld2; [done|]. rewrite lookup_delete_ne; [done|]. intros E. apply Hnew. by rewrite E.
    + intros name Hor. rewrite Hothers2, Hothers; [done| |].
      * destruct Hor as [Hnin|]; [left; intros ->; apply Hnin, list_elem_of_here|by right].
      * destruct Hor as [Hnin|Hnone]; [left; intros Hin; apply Hnin; by apply list_elem_of_further|right]. rewrite lookup_delete_None. by right.
Qed.

(** * Types that are new *)

Definition created_row (e : types.EventType) : EventTypeRow :=
  mkEventTypeRow (types.DisplayName e) (types.Description e) (default [] (types.DefaultReceiverTypes e)) (types.HideUIConfig e) (nullif (types.FeatureFlag e)) [].
(** The receivers whose type is a default of the event type are subscribed to it. *)
Definition subscribed (t : Tables) (e : types.EventType) : gset (string * string) :=
  set_map (fun id => (id, types.et_Name e)) (dom (filter (fun kv : string * ReceiverRow => receiver_type kv.2 ∈ default [] (types.DefaultReceiverTypes e)) (receivers t))).
Definition created (t : Tables) (e : types.EventType) : Tables :=
  set_receiver_event_types (receiver_event_types t ∪ subscribed t e) (set_event_types (<[types.et_Name e := created_row e]> (event_types t)) t).

Lemma elem_of_subscribed t e id name : (id, name) ∈ subscribed t e <->
  name = types.et_Name e /\ exists row, receivers t !! id = Some row /\ receiver_type row ∈ default [] (types.DefaultReceiverTypes e).
Proof.
  unfold subscribed. rewrite elem_of_map. setoid_rewrite elem_of_dom. unfold is_Some. setoid_rewrite map_lookup_filter_Some. naive_solver.
Qed.

Lemma create_one_run t e : refs_ok t -> event_types t !! types.et_Name e = None -> is_Some (types.DefaultReceiverTypes e) ->
  create_one e t = inr (tt, created t e) /\ refs_ok (created t e).
Proof.
  intros Hrefs Hnew [defaults Hd]. assert (Hin : forall p, p ∈ subscribed t e -> p.1 ∈ dom (receivers t) /\ p.2 ∈ dom (<[types.et_Name e := created_row e]> (event_types t))).
  { intros [id name] (-> & row & Hrow & _)%elem_of_subscribed. cbn. split; [by apply elem_of_dom|set_solver]. }
  split.
  - unfold create_one, sbind, create_event_type. rewrite Hd, Hnew. cbn. unfold subscribe_receivers, created, created_row. rewrite Hd.
    rewrite insert_subscriptions_run; [unfold subscribed; by rewrite Hd| |].
    + intros p Hp. unfold subscribed, created_row in Hin. rewrite Hd in Hin. by apply Hin.
    + intros _ p Hp Hold. apply Hrefs in Hold as [_ Hold]. unfold subscribed in Hin. apply elem_of_map in Hp as (id & -> & _). cbn in Hold.
      by apply not_elem_of_dom in Hnew.
  - intros p [Hp|Hp]%elem_of_union; [|by apply Hin]. destruct (Hrefs p Hp). cbn. set_solver.
Qed.

Lemma holds_created t e : is_Some (types.DefaultReceiverTypes e) -> holds (created t e) (types.et_Name e) (without_hidden e).
Proof.
  intros [defaults Hd]. exists (created_row e). split; [cbn; by rewrite lookup_insert_eq|]. unfold EventTypeFromRow, without_hidden, created_row.
  cbn. by rewrite nullif_default, Hd.
Qed.

Lemma create_all_run (l : list (string * types.EventType)) : forall t, refs_ok t -> NoDup l.*1 ->
  (forall k e, (k, e) ∈ l -> types.et_Name e = k /\ is_Some (types.DefaultReceiverTypes e) /\ event_types t !! k = None) ->
  exists t', sfor_each (fun kv => create_one kv.2) l t = inr (tt, t') /\ refs_ok t' /\
  receivers t' = receivers t /\ events t' = events t /\ instances_initialized t' = instances_initialized t /\
  (forall name e, (name, e) ∈ l -> holds t' name (without_hidden e)) /\
  (forall name, name ∉ l.*1 -> event_types t' !! name = event_types t !! name) /\
  (forall p, p ∈ receiver_event_types t' <-> p ∈ receiver_event_types t \/ exists e, (p.2, e) ∈ l /\ p ∈ subscribed t e).
Proof.
  induction l as [|[k e] l IH]; intros t Hrefs Hnodup Hl; cbn.
  { exists t. do 5 (split; [done|]). split; [intros ? ? Hin; by apply elem_of_nil in Hin|]. split; [done|]. intros p. split; [by left|].
    intros [?|(? & Hin & _)]; [done|]. by apply elem_of_nil in Hin. }
  apply NoDup_cons in Hnodup as [Hk Hnodup]. destruct (Hl k e (list_elem_of_here _ _)) as (Hname & Hd & Hnew).
  destruct (create_one_run t e Hrefs) as [Hrun Hrefs1]; [by rewrite Hname|done|].
  destruct (IH (created t e) Hrefs1 Hnodup) as (t' & Hrun' & Hrefs' & Hrc & Hev & Hini & Hheld & Hothers & Hsubs).
  { intros k' e' Hin. destruct (Hl k' e' (list_elem_of_further _ _ _ Hin)) as (Hn' & Hd' & Hnew'). split; [done|]. split; [done|]. cbn.
    rewrite lookup_insert_ne; [done|]. rewrite Hname. intros ->. apply Hk, (list_elem_of_fmap_2 fst _ _ Hin). }
  exists t'. unfold sbind. rewrite Hrun. split; [done|]. split; [done|]. do 3 (split; [done|]). split; [|split].
  - intros name e' [[= -> ->]|Hin]%elem_of_cons; [|by apply Hheld]. destruct (holds_created t e Hd) as (row & Hrow & Heq). rewrite Hname in Hrow, Heq.
    exists row. split; [|done]. by rewrite Hothers.
  - intros name Hnin. rewrite Hothers by (intros ?; apply Hnin; by apply list_elem_of_further). cbn. rewrite lookup_insert_ne; [done|].
    rewrite Hname. intros ->. apply Hnin, list_elem_of_here.
  - intros [id name]. rewrite Hsubs. cbn. rewrite elem_of_union. split.
    + intros [[Hp|Hp]|(e' & Hin & Hp)]; [by left| |].
      * right. exists e. split; [|done]. apply elem_of_subscribed in Hp as [-> _]. rewrite Hname. apply list_elem_of_here.
      * right. exists e'. split; [by apply list_elem_of_further|done].
    + intros [Hp|(e' & [[= -> ->]|Hin]%elem_of_cons & Hp)]; [by left; left|by left; right|]. right. by exists e'.
Qed.

(** * The service starts *)

Lemma withTx_healthy (f : Tx unit) g d t : healthy d -> implements f g -> g (tables d) = inr (tt, t) ->
  exists d', withTx f d = (Ret tt, d') /\ tables d' = t /\ same_world d d'.
Proof.
  intros Hd Hf Hg. destruct (runTx_run f g d 0 (implements_any d _ _ Hf)) as (r & e & d' & Hrun & Hw & Hcases).
  destruct Hcases as [(Hmay & _)|Hcases]; [by apply may_fail_healthy in Hmay|]. rewrite Hg in Hcases. destruct Hcases as (-> & -> & Ht & _).
  exists d'. unfold withTx, bind. by rewrite Hrun.
Qed.
Lemma filter_all {A} (P : A -> Prop) `{!forall x, Decision (P x)} (l : list A) : (forall x, P x) -> filter P l = l.
Proof. intros HP. induction l as [|x l IH]; [done|]. rewrite filter_cons_True by done. by rewrite IH. Qed.
Lemma holds_name t name e : holds t name e -> types.et_Name e = name.
Proof. by intros (row & _ & <-). Qed.

(** What a synchronization leaves: the types of the file as they are in it, except that the hidden receiver types of new ones are
    lost; other types as they were; the new types among the subscriptions of the receivers they are a default of. *)
Record synchronized (eventTypes : gmap string types.EventType) (t t' : Tables) : Prop := mkSynchronized {
  sync_file : forall name e, eventTypes !! name = Some e -> holds t' name (if decide (name ∈ dom (event_types t)) then e else without_hidden e);
  sync_others : forall name, eventTypes !! name = None -> event_types t' !! name = event_types t !! name;
  sync_subscriptions : forall p, p ∈ receiver_event_types t' <-> p ∈ receiver_event_types t \/
    exists e, eventTypes !! p.2 = Some e /\ p.2 ∉ dom (event_types t) /\ p ∈ subscribed t e;
  sync_receivers : receivers t' = receivers t;
  sync_events : events t' = events t;
  sync_instances : instances_initialized t' = instances_initialized t }.

(** The types that are stored, as [ListEventTypes] reads them. *)
Definition stored (t : Tables) : list types.EventType :=
  (fun kv => EventTypeFromRow kv.1 kv.2) <$> filter (fun kv => flag_enabled None kv.2 = true) (go_range (event_types t)).
Lemma stored_names t : types.et_Name <$> stored t = (go_range (event_types t)).*1.
Proof. unfold stored. rewrite filter_all by done. rewrite <- list_fmap_compose. apply list_fmap_ext. by intros _ [name row] _. Qed.
Lemma elem_of_stored_names t name : name ∈ types.et_Name <$> stored t <-> name ∈ dom (event_types t).
Proof.
  rewrite stored_names, list_elem_of_fmap, elem_of_dom. split.
  - intros ([k row] & -> & Hin%elem_of_go_range). by exists row.
  - intros [row Hrow]. exists (name, row). split; [done|]. by apply elem_of_go_range.
Qed.
Lemma stored_NoDup t : NoDup (types.et_Name <$> stored t).
Proof. rewrite stored_names. apply NoDup_go_range_keys. Qed.
Lemma stored_holds t old : old ∈ stored t -> holds t (types.et_Name old) old.
Proof.
  intros ([name row] & -> & Hin)%list_elem_of_fmap. apply list_elem_of_filter in Hin as [_ Hin%elem_of_go_range]. by exists row.
Qed.

Lemma sync_statement_run eventTypes t : loaded eventTypes -> with_defaults eventTypes -> refs_ok t ->
  exists t', sync_statement eventTypes t = inr (tt, t') /\ refs_ok t' /\ synchronized eventTypes t t'.
Proof.
  intros Hl Hwd Hrefs. assert (Hc : forall name e, eventTypes !! name = Some e -> complete name e) by eauto using loaded_complete.
  unfold sync_statement, sbind at 1, list_event_types, NotifyDB.select. fold (stored t). set (old := stored t).
  assert (Hdom := elem_of_stored_names t). fold old in Hdom.
  destruct (sync_all_run old t eventTypes (fun name e _ => Hc name e) (stored_NoDup t) (stored_holds t)) as (rest & t1 & Hrun & [types1 Hsame] & Hrest & Hheld & Hothers).
  assert (Hrest' : forall name e, rest !! name = Some e -> eventTypes !! name = Some e /\ name ∉ dom (event_types t)).
  { intros name e. rewrite Hrest. case_decide as Hin; [done|]. by rewrite Hdom in Hin. }
  assert (Hkept : forall name, name ∈ dom (event_types t) -> name ∈ dom (event_types t1)).
  { intros name Hin. apply elem_of_dom. destruct (eventTypes !! name) as [e|] eqn:He.
    - destruct (Hheld name e) as (row & Hrow & _); [by apply Hdom|done|]. by exists row.
    - rewrite Hothers by (by right). by apply elem_of_dom. }
  destruct (create_all_run (go_range rest) t1) as (t2 & Hrun2 & Hrefs2 & Hrc & Hev & Hini & Hheld2 & Hothers2 & Hsubs).
  { intros p Hp. subst t1. destruct (Hrefs p Hp). split; [done|auto]. }
  { apply NoDup_go_range_keys. }
  { intros k e [He Hk]%elem_of_go_range%Hrest'. destruct (Hc k e He) as (Hn & Hd & _). split; [done|]. split; [done|].
    rewrite Hothers; [by apply not_elem_of_dom|]. left. by rewrite Hdom. }
  assert (Hkeys : forall name, name ∈ (go_range rest).*1 <-> is_Some (rest !! name)).
  { intros name. rewrite list_elem_of_fmap. split; [intros ([k e] & -> & Hin%elem_of_go_range); by exists e|].
    intros [e He]. exists (name, e). split; [done|]. by apply elem_of_go_range. }
  exists t2. unfold sbind. rewrite Hrun. split; [done|]. split; [done|]. subst t1. constructor; try done.
  - intros name e He. case_decide as Hin.
    + destruct (Hheld name e) as (row & Hrow & Heq); [by apply Hdom|done|]. exists row. split; [|done]. rewrite Hothers2; [done|].
      rewrite Hkeys, Hrest, decide_True by (by apply Hdom). by intros [].
    + apply Hheld2, elem_of_go_range. rewrite Hrest, decide_False; [done|]. by rewrite Hdom.
  - intros name Hnone. rewrite Hothers2, Hothers; [done|by right|]. rewrite Hkeys, Hrest, Hnone. case_decide; by intros [].
  - intros p. rewrite Hsubs. cbn. apply or_iff_compat_l. split.
    + intros (e & [He Hn]%elem_of_go_range%Hrest' & Hp). by exists e.
    + intros (e & He & Hn & Hp). exists e. split; [|done]. apply elem_of_go_range. rewrite Hrest, decide_False; [done|]. by rewrite Hdom.
Qed.

Lemma SyncEventTypes_run eventTypes d : loaded eventTypes -> with_defaults eventTypes -> healthy d ->
  exists d', SyncEventTypes eventTypes d = (Ret tt, d') /\ healthy d' /\ synchronized eventTypes (tables d) (tables d').
Proof.
  intros Hl Hwd Hd. destruct (sync_statement_run eventTypes (tables d) Hl Hwd (refs d Hd)) as (t & Hrun & Hrefs & Hsync).
  destruct (withTx_healthy _ _ d t Hd (implements_sync eventTypes) Hrun) as (d' & Hsync_run & Ht & (Hf & Hu & Hn)). exists d'. split; [exact Hsync_run|]. rewrite Ht.
  split; [|done]. constructor; rewrite ?Hf, ?Hu, ?Ht; [apply no_fault, Hd| |apply distinct_ids, Hd|done].
  intros n Hle. rewrite (sync_receivers _ _ _ Hsync). apply fresh_ids; [done|lia].
Qed.

(** * A file that leaves default receiver types out *)

Lemma sfold_app {A B} (g : B -> A -> Statement B) l1 l2 b t : sfold g (l1 ++ l2) b t = sbind (sfold g l1 b) (sfold g l2) t.
Proof.
  revert b t. unfold sbind. induction l1 as [|x l1 IH]; intros b t; [done|]. cbn. unfold sbind. destruct (g b x t) as [e|[b' t']]; [done|apply IH].
Qed.
Lemma sfor_each_app {A} (g : A -> Statement unit) l1 l2 t : sfor_each g (l1 ++ l2) t = sbind (sfor_each g l1) (fun _ => sfor_each g l2) t.
Proof.
  revert t. unfold sbind. induction l1 as [|x l1 IH]; intros t; [done|]. cbn. unfold sbind. destruct (g x t) as [e|[[] t']]; [done|apply IH].
Qed.
(** The first element with a property. *)
Lemma first_with {A} (P : A -> Prop) `{!forall x, Decision (P x)} l : Exists P l -> exists l1 x l2, l = l1 ++ x :: l2 /\ P x /\ Forall (fun y => ~ P y) l1.
Proof.
  induction l as [|x l IH]; [by intros ?%Exists_nil|]. intros He. destruct (decide (P x)) as [Hx|Hx]; [by exists [], x, l|].
  apply Exists_cons in He as [?|(l1 & y & l2 & -> & Hy & Hl1)%IH]; [done|]. exists (x :: l1), y, l2. split; [done|]. split; [done|]. by constructor.
Qed.

Lemma sync_one_fails t eventTypes old e : eventTypes !! types.et_Name old = Some e -> types.et_Name e = types.et_Name old ->
  types.DefaultReceiverTypes e = None -> holds t (types.et_Name old) old -> sync_one eventTypes old t = inl not_null.
Proof.
  intros He Hname Hno (row & Hrow & Hold). unfold sync_one. rewrite He. unfold types.Equals. rewrite bool_decide_false.
  { unfold update_one, sbind, update_event_type. by rewrite Hname, Hrow, Hno. }
  intros ->. rewrite <- Hold in Hno. done.
Qed.

(** A type among those that are stored, when the ones before it are complete. *)
Definition lacks (eventTypes : gmap string types.EventType) (old : types.EventType) : bool :=
  match eventTypes !! types.et_Name old with Some e => bool_decide (types.DefaultReceiverTypes e = None) | None => false end.
Lemma sync_all_fails t eventTypes l : loaded eventTypes -> NoDup (types.et_Name <$> l) -> (forall old, old ∈ l -> holds t (types.et_Name old) old) ->
  Exists (fun old => lacks eventTypes old = true) l -> sfold sync_one l eventTypes t = inl not_null.
Proof.
  intros Hl Hnodup Hold (l1 & x & l2 & -> & Hx & Hl1)%first_with; [|apply _]. rewrite fmap_app, fmap_cons in Hnodup. apply NoDup_app in Hnodup as (Hnd1 & Hnx & _).
  destruct (sync_all_run l1 t eventTypes) as (rest & t1 & Hrun & _ & Hrest & _ & Hothers); [|done|by intros; apply Hold, elem_of_app; left|].
  { intros name e (old & -> & Hin)%list_elem_of_fmap He. apply loaded_complete with eventTypes; [done|done|].
    rewrite Forall_forall in Hl1. specialize (Hl1 old Hin). unfold lacks in Hl1. rewrite He in Hl1. destruct (types.DefaultReceiverTypes e) as [ds|] eqn:Hds; [by eexists|].
    by rewrite bool_decide_true in Hl1. }
  rewrite sfold_app. unfold sbind. rewrite Hrun. cbn [sfold]. unfold sbind.
  assert (Hnew : types.et_Name x ∉ types.et_Name <$> l1) by (intros Hin; apply (Hnx _ Hin), list_elem_of_here).
  unfold lacks in Hx. destruct (eventTypes !! types.et_Name x) as [e|] eqn:He; [|done]. apply bool_decide_eq_true in Hx.
  rewrite (sync_one_fails t1 rest x e); [done| |by apply (Hl _ _ He)|done|].
  - rewrite Hrest. by rewrite decide_False.
  - destruct (Hold x) as (row & Hrow & Heq); [apply elem_of_app; right; apply list_elem_of_here|]. exists row. split; [|done].
    rewrite Hothers; [done|by left].
Qed.
Lemma create_all_fails t (l : list (string * types.EventType)) : refs_ok t -> NoDup l.*1 ->
  (forall k e, (k, e) ∈ l -> types.et_Name e = k /\ event_types t !! k = None) ->
  Exists (fun kv => types.DefaultReceiverTypes kv.2 = None) l -> sfor_each (fun kv => create_one kv.2) l t = inl not_null.
Proof.
  intros Hrefs Hnodup Hl (l1 & [k e] & l2 & -> & Hx & Hl1)%first_with; [|apply _]. rewrite fmap_app in Hnodup. apply NoDup_app in Hnodup as (Hnd1 & _ & _).
  destruct (create_all_run l1 t Hrefs Hnd1) as (t1 & Hrun & _).
  { intros k' e' Hin. destruct (Hl k' e') as [Hn' Hnew']; [apply elem_of_app; by left|]. split; [done|]. split; [|done].
    rewrite Forall_forall in Hl1. specialize (Hl1 _ Hin). cbn in Hl1. destruct (types.DefaultReceiverTypes e'); [by eexists|done]. }
  rewrite sfor_each_app. unfold sbind. rewrite Hrun. cbn [sfor_each]. unfold sbind, create_one, sbind, create_event_type. cbn [snd].
  cbn in Hx. by rewrite Hx.
Qed.

Lemma sync_statement_fails eventTypes t name e : loaded eventTypes -> refs_ok t -> eventTypes !! name = Some e -> types.DefaultReceiverTypes e = None ->
  sync_statement eventTypes t = inl not_null.
Proof.
  intros Hl Hrefs He Hno. unfold sync_statement, sbind at 1, list_event_types, NotifyDB.select. fold (stored t).
  destruct (decide (Exists (fun old => lacks eventTypes old = true) (stored t))) as [Hex|Hex].
  { unfold sbind. by rewrite (sync_all_fails t eventTypes (stored t) Hl (stored_NoDup t) (stored_holds t) Hex). }
  assert (Hgood : forall n x, n ∈ types.et_Name <$> stored t -> eventTypes !! n = Some x -> complete n x).
  { intros n x (old & -> & Hin)%list_elem_of_fmap Hx. apply loaded_complete with eventTypes; [done|done|].
    destruct (types.DefaultReceiverTypes x) as [ds|] eqn:Hds; [by eexists|]. destruct Hex. apply Exists_exists. exists old. split; [done|].
    unfold lacks. rewrite Hx. by apply bool_decide_eq_true. }
  destruct (sync_all_run (stored t) t eventTypes Hgood (stored_NoDup t) (stored_holds t)) as (rest & t1 & Hrun & [types1 Hsame] & Hrest & Hheld & Hothers).
  assert (Hnew : name ∉ types.et_Name <$> stored t) by (intros Hin; destruct (Hgood name e Hin He) as (_ & [? ?] & _); congruence).
  assert (Hkept : forall n, n ∈ dom (event_types t) -> n ∈ dom (event_types t1)).
  { intros n Hin. apply elem_of_dom. destruct (eventTypes !! n) as [x|] eqn:Hx.
    - destruct (Hheld n x) as (row & Hrow & _); [by apply elem_of_stored_names|done|]. by exists row.
    - rewrite Hothers by (by right). by apply elem_of_dom. }
  unfold sbind. rewrite Hrun. apply create_all_fails.
  - intros p Hp. subst t1. destruct (Hrefs p Hp). split; [done|auto].
  - apply NoDup_go_range_keys.
  - intros k x Hin%elem_of_go_range. rewrite Hrest in Hin. case_decide as Hk; [done|]. split; [by apply (Hl k x Hin)|].
    rewrite Hothers by (by left). apply not_elem_of_dom. by rewrite <- elem_of_stored_names.
  - apply Exists_exists. exists (name, e). split; [|done]. apply elem_of_go_range. rewrite Hrest. by rewrite decide_False.
Qed.
Lemma withTx_fails (f : Tx unit) g d err : healthy d -> implements f g -> g (tables d) = inl err -> err <> instances_initialized_pkey ->
  exists d', withTx f d = (Err err, d') /\ tables d' = tables d.
Proof.
  intros Hd Hf Hg Hne. destruct (runTx_run f g d 0 (implements_any d _ _ Hf)) as (r & e & d' & Hrun & Hw & Hcases).
  destruct Hcases as [(Hmay & _)|Hcases]; [by apply may_fail_healthy in Hmay|]. rewrite Hg in Hcases. destruct Hcases as (-> & -> & Ht).
  rewrite decide_False in Hrun by done. exists d'. unfold withTx, bind. by rewrite Hrun.
Qed.

(** C26: the service reads its event types from a file when it starts. When every type of the file gives its default receiver
    types, one start leaves every type of the file in the database as it is in the file, but for the hidden receiver types of
    those that were not there, which stay empty until the next start; two starts leave them all as they are in the file. Types
    that are not in the file stay, receivers stay, and nothing but the new types is added to what receivers subscribe to. When a
    type of the file leaves its default receiver types out, the start fails and the database is as it was: only hidden receiver
    types that are left out are read as none. *)
Theorem SyncEventTypes_restarted file d : healthy d -> let eventTypes := types.EventTypesFromFile file in
  (with_defaults eventTypes -> exists d1 d2, SyncEventTypes eventTypes d = (Ret tt, d1) /\ SyncEventTypes eventTypes d1 = (Ret tt, d2) /\
     synchronized eventTypes (tables d) (tables d1) /\
     (forall name e, eventTypes !! name = Some e -> holds (tables d2) name e) /\
     (forall name, eventTypes !! name = None -> event_types (tables d2) !! name = event_types (tables d) !! name) /\
     receivers (tables d2) = receivers (tables d) /\ receiver_event_types (tables d2) = receiver_event_types (tables d1)) /\
  (forall name e, eventTypes !! name = Some e -> types.DefaultReceiverTypes e = None ->
     exists d', SyncEventTypes eventTypes d = (Err not_null, d') /\ tables d' = tables d).
Proof.
  intros Hd eventTypes. assert (Hl : loaded eventTypes) by apply EventTypesFromFile_loaded. split; cycle 1.
  { intros name e He Hno. eapply withTx_fails; [done|apply implements_sync|exact (sync_statement_fails eventTypes _ name e Hl (refs d Hd) He Hno)|done]. }
  intros Hwd. destruct (SyncEventTypes_run eventTypes d Hl Hwd Hd) as (d1 & Hrun1 & Hd1 & Hsync1).
  destruct (SyncEventTypes_run eventTypes d1 Hl Hwd Hd1) as (d2 & Hrun2 & _ & Hsync2). exists d1, d2. split; [done|]. split; [done|]. split; [done|].
  assert (Hthere : forall name e, eventTypes !! name = Some e -> name ∈ dom (event_types (tables d1))).
  { intros name e He. destruct (sync_file _ _ _ Hsync1 name e He) as (row & Hrow & _). by apply elem_of_dom. }
  split; [|split; [|split]].
  - intros name e He. pose proof (sync_file _ _ _ Hsync2 name e He) as Hheld. by rewrite decide_True in Hheld by eauto.
  - intros name Hnone. rewrite (sync_others _ _ _ Hsync2), (sync_others _ _ _ Hsync1); done.
  - by rewrite (sync_receivers _ _ _ Hsync2), (sync_receivers _ _ _ Hsync1).
  - apply set_eq. intros p. rewrite (sync_subscriptions _ _ _ Hsync2). split; [|by left]. intros [?|(e & He & Hn & _)]; [done|]. destruct Hn. eauto.
Qed.
End sync.

(** * A file with a type that is there and one that is new *)

Module sample_sync.
Definition deploy : types.EventType := types.mkEventType "deploy" "Deploys" "A deployment" (Some ["slack"]) (Some ["email"; "pagerduty"]) false "".
Definition sync : types.EventType := types.mkEventType "sync" "Sync" "A synchronization" (Some ["slack"]) (Some ["email"]) false "".
Definition file : list types.EventType := [deploy; sync].
(** The second type does not say which receivers it is for. *)
Definition bare : types.EventType := types.mkEventType "policy" "Policies" "A policy" None None false "".

Lemma file_defaults : with_defaults (types.EventTypesFromFile file).
Proof.
  intros name e. unfold types.EventTypesFromFile, file. cbn. rewrite !lookup_insert_Some, lookup_empty. intros [[<- <-]|[_ [[<- <-]|[_ ?]]]]; [| |done]; by eexists.
Qed.
(** The new type loses its hidden receiver types, and the Slack receiver is subscribed to it. *)
Lemma synchronized_once : exists d1, @SyncEventTypes list_range (types.EventTypesFromFile file) sample_db.sample = (Ret tt, d1) /\
  hidden_receiver_types <$> event_types (tables d1) !! "sync" = Some [] /\ hidden_receiver_types <$> event_types (tables d1) !! "deploy" = Some ["email"; "pagerduty"] /\
  ("r1", "sync") ∈ receiver_event_types (tables d1).
Proof. eexists. split; [vm_compute; reflexivity|]. split; [vm_compute; reflexivity|]. split; [vm_compute; reflexivity|]. by apply (bool_decide_unpack _). Qed.

Lemma SyncEventTypes_restarted_witness :
  (exists d1 d2, @SyncEventTypes list_range (types.EventTypesFromFile file) sample_db.sample = (Ret tt, d1) /\
     @SyncEventTypes list_range (types.EventTypesFromFile file) d1 = (Ret tt, d2) /\
     (forall name e, types.EventTypesFromFile file !! name = Some e -> holds (tables d2) name e)) /\
  (exists d', @SyncEventTypes list_range (types.EventTypesFromFile [deploy; bare]) sample_db.sample = (Err not_null, d') /\ tables d' = sample_db.sample_tables).
Proof.
  split.
  - destruct (@SyncEventTypes_restarted list_range file sample_db.sample sample_db.sample_healthy) as [Hok _].
    destruct (Hok file_defaults) as (d1 & d2 & H1 & H2 & _ & Hheld & _). exists d1, d2. exact (conj H1 (conj H2 Hheld)).
  - destruct (@SyncEventTypes_restarted list_range [deploy; bare] sample_db.sample sample_db.sample_healthy) as [_ Hfails].
    apply (Hfails "policy" (types.mkEventType "policy" "Policies" "A policy" None (Some []) false "")); [vm_compute; reflexivity|reflexivity].
Defined.
End sample_sync.

(** * Calls in progress

    A call is what it has still to do: one unit after the other, each of which happens at once, with the units of other calls in
    between. The units of [checkInstanceDefaults] are those of its transactions: its look-up, the transaction that creates the
    receiver and commits on its own, and the mark with its commit, which waits for another one that is not committed. *)

Inductive Prog : Type :=
  | Stop (o : outcome dberror unit)
  | Once {A : Type} (m : Op A) (k : A -> Prog).
Definition next {A} (k : A -> Prog) (o : outcome dberror A) : Prog :=
  match o with Ret a => k a | Err e => Stop (Err e) | Panic => Stop Panic | Deadlock => Stop Deadlock | OutOfFuel => Stop OutOfFuel end.
Definition unit_of (p : Prog) (d : NotifyDB) : option (Prog * NotifyDB) :=
  match p with Stop _ => None | Once m k => Some (next k (m d).1, (m d).2) end.
(** Alone, a call does one unit after the other. *)
Fixpoint run_alone (p : Prog) : Op unit := match p with Stop o => fun d => (o, d) | Once m k => bind m (fun a => run_alone (k a)) end.
Inductive pool_step : list Prog * NotifyDB -> list Prog * NotifyDB -> Prop :=
  | one_unit ps p qs d p' d' : unit_of p d = Some (p', d') -> pool_step (ps ++ p :: qs, d) (ps ++ p' :: qs, d').

(** The end of [withTx], after its function. *)
Definition ending (f : Tx unit) : Op unit := fun d =>
  match f (d, id) with
  | (Ret _, (d', w)) => (tick ;;; modify (fun d => set_tables (w (tables d)) d)) d'
  | (Err e, (d', _)) => (if decide (e = instances_initialized_pkey) then Ret tt else Err e, d')
  | (Panic, (d', _)) => (Panic, d')
  | (Deadlock, (d', _)) => (Deadlock, d')
  | (OutOfFuel, (d', _)) => (OutOfFuel, d')
  end.

Section concurrent.
Context (instanceID : string).

Definition marking : Prog := Once (ending (run_tx (set_initialized instanceID))) (fun _ => Stop (Ret tt)).
Definition creating : Prog := Once (createReceiverTX types.BrowserReceiver "null" instanceID) (fun _ => marking).
Definition leaving : Prog := Once (ending (ret tt)) (fun _ => Stop (Ret tt)).
Definition initializing : Prog := Once (tick ;;; run (is_initialized instanceID)) (fun initialized => if initialized : bool then leaving else creating).

(** [checkInstanceDefaults] does these units, one after the other. *)
Lemma initializing_alone d : healthy d -> checkInstanceDefaults instanceID d = run_alone initializing d.
Proof.
  intros Hd. pose proof (no_fault d Hd) as Hf. assert (Htick : forall d', fault d' = fault d -> tick d' = (Ret tt, set_statements (S (statements d')) d')) by (intros d' E; unfold tick; by rewrite E, Hf).
  cbn [run_alone initializing]. unfold checkInstanceDefaults, withTx, runTx, run_tx, run, elsewhere, zoom, bind, try, ret.
  rewrite (Htick d eq_refl). cbn [fst snd]. set (d1 := set_statements _ d). rewrite (Htick d1 eq_refl). set (d2 := set_statements _ d1). cbn [fst snd is_initialized NotifyDB.select].
  change (set_tables (tables d2) d2) with d2. unfold id at 1.
  destruct (bool_decide (instanceID ∈ instances_initialized (tables d2))); cbn [run_alone leaving creating marking]; unfold bind, ending, ret; cbn [fst snd].
  - unfold bind. rewrite (Htick d2 eq_refl). reflexivity.
  - destruct (createReceiverTX_run types.BrowserReceiver "null" instanceID d2 "null") as (o & d3 & Hrun & (Hf3 & _) & Hcases); [by vm_compute|].
    destruct Hcases as [(Hsick & _)|(-> & _ & _)]; [by destruct Hsick; apply (healthy_later d)|].
    rewrite Hrun. cbn [fst snd]. unfold run_tx, elsewhere, zoom, bind. cbn [fst snd]. rewrite (Htick d3 Hf3). cbn [fst snd]. unfold id.
    destruct (set_initialized instanceID (tables (set_statements (S (statements d3)) d3))) as [e|[[] t]] eqn:Hset; cbn [fst snd].
    + by destruct (decide (e = instances_initialized_pkey)).
    + rewrite (Htick (set_statements _ d3)) by done. reflexivity.
Qed.

(** * The phases of a call *)

Inductive call : Type := Begun | Seen | Unmarked | Created | Finished (creator : bool).
Definition prog_of (c : call) : Prog :=
  match c with Begun => initializing | Seen => leaving | Unmarked => creating | Created => marking | Finished _ => Stop (Ret tt) end.
(** What the unit of a phase does to the tables. *)
Inductive effect : call -> Tables -> call -> Tables -> Prop :=
  | effect_seen t : instanceID ∈ instances_initialized t -> effect Begun t Seen t
  | effect_unmarked t : instanceID ∉ instances_initialized t -> effect Begun t Unmarked t
  | effect_left t : effect Seen t (Finished false) t
  | effect_created t id : receivers t !! id = None -> effect Unmarked t Created (with_receiver id (browser_row instanceID) t)
  | effect_marked t : instanceID ∉ instances_initialized t -> effect Created t (Finished true) (mark instanceID t)
  | effect_again t : instanceID ∈ instances_initialized t -> effect Created t (Finished true) t.

Lemma run_healthy_tick {A} (f : Statement A) d a t : healthy d -> f (tables d) = inr (a, t) ->
  run f d = (Ret a, set_tables t (set_statements (S (statements d)) d)).
Proof. intros Hd Hf. unfold run, bind. rewrite (tick_healthy d Hd). cbn [tables set_statements]. by rewrite Hf. Qed.
Lemma healthy_tick d : healthy d -> healthy (set_statements (S (statements d)) d).
Proof. intros Hd. by apply (healthy_later d). Qed.

Lemma unit_effect c d : healthy d -> (forall b, c <> Finished b) ->
  exists c' d', unit_of (prog_of c) d = Some (prog_of c', d') /\ healthy d' /\ effect c (tables d) c' (tables d').
Proof.
  intros Hd Hc. pose proof (healthy_tick d Hd) as Hd1. destruct c as [| | | |b]; [| | | |by destruct (Hc b)]; cbn [prog_of unit_of initializing leaving creating marking].
  - unfold bind at 1 2. rewrite (tick_healthy d Hd). rewrite (run_healthy_tick (is_initialized instanceID) _ (bool_decide (instanceID ∈ instances_initialized (tables d))) (tables d) Hd1) by done.
    cbn [fst snd next]. destruct (decide (instanceID ∈ instances_initialized (tables d))) as [Hin|Hin]; [rewrite bool_decide_true by done; exists Seen|rewrite bool_decide_false by done; exists Unmarked];
      (eexists; split; [reflexivity|]; split; [by apply (healthy_later d)|by constructor]).
  - unfold ending, ret, bind. rewrite (tick_healthy d Hd). exists (Finished false). eexists. split; [reflexivity|]. split; [by apply (healthy_later d)|constructor].
  - destruct (createReceiverTX_run types.BrowserReceiver "null" instanceID d "null") as (o & d1 & Hrun & Hw & [(Hsick & _)|(-> & Ht & Hlt)]); [by vm_compute|done|].
    rewrite Hrun. exists Created, d1. split; [done|]. split; [by eapply healthy_with_receiver|]. rewrite Ht. constructor. by apply fresh_ids.
  - unfold ending, run_tx, elsewhere, zoom, bind. cbn [fst snd]. rewrite (tick_healthy d Hd). cbn [fst snd]. unfold id, set_initialized. cbn [tables set_statements].
    exists (Finished true). destruct (decide (instanceID ∈ instances_initialized (tables d))) as [Hin|Hin].
    + eexists. split; [reflexivity|]. split; [done|by constructor].
    + rewrite (tick_healthy _ Hd1). cbn. rewrite decide_False by done. eexists. split; [reflexivity|]. split; [by apply (healthy_mark d _ instanceID)|by constructor].
Qed.

(** Units of the calls in some phases, as phases. *)
Lemma pool_effect cs d P d' : healthy d -> pool_step (prog_of <$> cs, d) (P, d') -> healthy d' /\
  exists ps c qs c', cs = ps ++ c :: qs /\ P = prog_of <$> ps ++ c' :: qs /\ effect c (tables d) c' (tables d').
Proof.
  intros Hd Hstep. inversion Hstep as [pps p pqs d1 p' d1' Hunit Heq Heq']; subst.
  symmetry in Heq. apply fmap_app_inv in Heq as (ps & cs2 & -> & Hcs2 & ->). symmetry in Hcs2. apply fmap_cons_inv in Hcs2 as (c & qs & -> & -> & ->).
  assert (Hc : forall b, c <> Finished b) by (intros b ->; done).
  destruct (unit_effect c d Hd Hc) as (c' & d2 & Hunit' & Hd2 & Heff). rewrite Hunit' in Hunit. simplify_eq.
  split; [done|]. exists ps, c, qs, c'. split; [done|]. by rewrite fmap_app, fmap_cons.
Qed.

(** * How many receivers there are *)

Definition creator (c : call) : bool := match c with Created | Finished true => true | _ => false end.
(** Calls that know of a mark. *)
Definition late (c : call) : bool := match c with Seen | Finished _ => true | _ => false end.
Definition creators (calls : list call) : nat := length (filter (fun c => creator c = true) calls).
(** The units a call has left at most. *)
Definition left_over (c : call) : nat := match c with Begun => 3 | Unmarked => 2 | Seen | Created => 1 | Finished _ => 0 end.
Definition units_left (calls : list call) : nat := foldr (fun c n => (left_over c + n)%nat) 0%nat calls.

(** The browser receivers of an instance. *)
Definition browsers (t : Tables) : nat :=
  size (filter (fun kv => instance_id kv.2 = instanceID /\ receiver_type kv.2 = types.BrowserReceiver) (receivers t)).

(** Each call that has created added one, and the mark stands for a call that has. *)
Record calls_ok (n : nat) (calls : list call) (t : Tables) : Prop := mkCallsOk {
  calls_length : length calls = n;
  calls_created : browsers t = creators calls;
  calls_marked : instanceID ∈ instances_initialized t -> Finished true ∈ calls;
  calls_late : forall c, c ∈ calls -> late c = true -> instanceID ∈ instances_initialized t }.

Lemma creators_middle ps c qs : creators (ps ++ c :: qs) = (creators ps + (if creator c then 1 else 0) + creators qs)%nat.
Proof. unfold creators. rewrite filter_app, filter_cons, !length_app. case_decide; destruct (creator c); simplify_eq; cbn; lia. Qed.
Lemma units_left_middle ps c qs : units_left (ps ++ c :: qs) = (units_left ps + left_over c + units_left qs)%nat.
Proof. unfold units_left. induction ps as [|x ps IH]; cbn; [lia|]. rewrite IH. lia. Qed.
Lemma creators_le calls : (creators calls <= length calls)%nat.
Proof. apply length_filter. Qed.
Lemma creators_finished calls : Finished true ∈ calls -> (1 <= creators calls)%nat.
Proof. intros (ps & qs & ->)%list_elem_of_split. rewrite creators_middle. cbn. lia. Qed.
Lemma creators_all calls : (forall c, c ∈ calls -> creator c = true) -> creators calls = length calls.
Proof.
  intros Hall. unfold creators. induction calls as [|c calls IH]; [done|]. rewrite filter_cons_True by (apply Hall, list_elem_of_here). cbn.
  by rewrite IH by (intros x Hx; apply Hall; by apply list_elem_of_further).
Qed.

Lemma browsers_created id t : receivers t !! id = None -> browsers (with_receiver id (browser_row instanceID) t) = S (browsers t).
Proof.
  intros Hid. unfold browsers. cbn. rewrite map_filter_insert_True by done. apply map_size_insert_None.
  apply map_lookup_filter_None. by left.
Qed.

(** A unit changes one call; the others are where they were. *)
Lemma elem_of_middle {A} (x : A) ps c qs : x ∈ ps ++ c :: qs <-> x = c \/ x ∈ ps ++ qs.
Proof. rewrite !elem_of_app, elem_of_cons. tauto. Qed.

Lemma calls_ok_effect n ps c qs c' t t' : effect c t c' t' -> calls_ok n (ps ++ c :: qs) t -> calls_ok n (ps ++ c' :: qs) t'.
Proof.
  intros Heff [Hlen Hcreated Hmarked Hlate]. rewrite creators_middle in Hcreated.
  assert (Hlen' : length (ps ++ c' :: qs) = n) by (rewrite length_app in *; exact Hlen).
  assert (Hold : forall x, x ∈ ps ++ qs -> late x = true -> instanceID ∈ instances_initialized t) by (intros x Hx; apply Hlate, elem_of_middle; by right).
  assert (Hin : instanceID ∈ instances_initialized t -> c = Finished true \/ Finished true ∈ ps ++ qs) by (intros [E|?]%Hmarked%elem_of_middle; [by left|by right]).
  destruct Heff as [t Hm|t Hm|t|t id Hid|t Hm|t Hm]; split; rewrite ?creators_middle, ?browsers_created by done; cbn [creator] in *; try done; try lia.
  all: try (intros x; rewrite elem_of_middle; intros [->|Hx] Hx'; try done; try (by apply (Hold x)); cbn; set_solver).
  all: rewrite elem_of_middle; auto. all: try (intros Hi; destruct (Hin Hi); [done|by right]).
Qed.
Lemma units_left_effect ps c qs c' t t' : effect c t c' t' -> (units_left (ps ++ c' :: qs) < units_left (ps ++ c :: qs))%nat.
Proof. intros Heff. rewrite !units_left_middle. destruct Heff; cbn; lia. Qed.
(** Calls that have read before the mark create and mark. *)
Definition forward (c : call) : bool := match c with Unmarked | Created | Finished true => true | _ => false end.
Lemma forward_effect c t c' t' : effect c t c' t' -> forward c = true -> forward c' = true.
Proof. by destruct 1. Qed.

(** A pool of calls in some phases. *)
Definition in_phases (good : list call -> Prop) (n : nat) (s : list Prog * NotifyDB) : Prop :=
  exists cs, s.1 = prog_of <$> cs /\ healthy s.2 /\ calls_ok n cs (tables s.2) /\ good cs.
Lemma in_phases_step good n s s' : (forall ps c qs t c' t', effect c t c' t' -> good (ps ++ c :: qs) -> good (ps ++ c' :: qs)) ->
  pool_step s s' -> in_phases good n s -> in_phases good n s'.
Proof.
  intros Hgood Hstep (cs & Hs & Hd & Hok & Hcs). destruct s as [P d], s' as [P' d']. cbn [fst snd] in *. subst P.
  destruct (pool_effect cs d P' d' Hd Hstep) as (Hd' & ps & c & qs & c' & -> & -> & Heff). exists (ps ++ c' :: qs). cbn [fst snd].
  split; [done|]. split; [done|]. split; [by eapply calls_ok_effect|by eapply Hgood].
Qed.
Lemma in_phases_steps good n s s' : (forall ps c qs t c' t', effect c t c' t' -> good (ps ++ c :: qs) -> good (ps ++ c' :: qs)) ->
  rtc pool_step s s' -> in_phases good n s -> in_phases good n s'.
Proof. intros Hgood. induction 1; eauto using in_phases_step. Qed.
Lemma in_phases_begun n d : healthy d -> instanceID ∉ instances_initialized (tables d) -> browsers (tables d) = 0%nat ->
  in_phases (fun _ => True) n (replicate n initializing, d).
Proof.
  intros Hd Hnew Hnone. exists (replicate n Begun). cbn [fst snd]. rewrite fmap_replicate. do 2 (split; [done|]). split; [|done].
  split; [apply length_replicate|rewrite Hnone; unfold creators; by induction n|done|]. by intros c [-> _]%elem_of_replicate.
Qed.
Lemma nsteps_bounded m cs d s : healthy d -> nsteps pool_step m (prog_of <$> cs, d) s -> (m <= units_left cs)%nat.
Proof.
  revert cs d. induction m as [|m IH]; intros cs d Hd Hsteps; [lia|]. inversion Hsteps as [|? ? [P d1] ? Hstep Hrest]; subst.
  destruct (pool_effect cs d P d1 Hd Hstep) as (Hd1 & ps & c & qs & c' & -> & -> & Heff). apply IH in Hrest; [|done].
  pose proof (units_left_effect ps c qs _ _ _ Heff). lia.
Qed.
(** Stopped, or not yet. *)
Lemma pool_goes_on cs d : healthy d -> (exists s', pool_step (prog_of <$> cs, d) s') \/ Forall (fun c => exists b, c = Finished b) cs.
Proof.
  intros Hd. destruct (decide (Forall (fun c => left_over c = 0%nat) cs)) as [Hall|Hex].
  { right. apply (Forall_impl _ _ _ Hall). intros [| | | |b] Hc; try done. by exists b. }
  left. apply not_Forall_Exists in Hex; [|apply _]. apply Exists_exists in Hex as (c & (ps & qs & ->)%list_elem_of_split & Hc).
  destruct (unit_effect c d Hd) as (c' & d' & Hunit & _); [intros b ->; by apply Hc|]. eexists. rewrite fmap_app, fmap_cons. by apply one_unit.
Qed.
Lemma all_stopped cs : Forall (fun c => exists b, c = Finished b) cs -> prog_of <$> cs = replicate (length cs) (Stop (Ret tt)).
Proof. induction 1 as [|c cs [b ->] _ IH]; [done|]. rewrite fmap_cons, IH. done. Qed.

(** * Runs *)

(** A phase of some calls, one after the other. *)
Lemma all_units (c c' : call) k : forall (I : nat -> NotifyDB -> Prop) pre post,
  (forall i d, I i d -> exists d', unit_of (prog_of c) d = Some (prog_of c', d') /\ I (S i) d') ->
  forall d, I 0%nat d -> exists d', rtc pool_step (pre ++ replicate k (prog_of c) ++ post, d) (pre ++ replicate k (prog_of c') ++ post, d') /\ I k d'.
Proof.
  induction k as [|k IH]; intros I pre post Hone d Hd; [by exists d|]. destruct (Hone 0%nat d Hd) as (d1 & Hunit & Hd1).
  destruct (IH (fun i => I (S i)) (pre ++ [prog_of c']) post (fun i => Hone (S i)) d1 Hd1) as (d2 & Hrun & Hd2). exists d2. split; [|done].
  cbn. eapply rtc_l; [by apply one_unit|]. by rewrite <- !app_assoc in Hrun.
Qed.
(** One unit, with what it does. *)
Lemma unit_then c c' d : healthy d -> (forall b, c <> Finished b) -> (forall x t, effect c (tables d) x t -> x = c') ->
  exists d', unit_of (prog_of c) d = Some (prog_of c', d') /\ healthy d' /\ effect c (tables d) c' (tables d').
Proof. intros Hd Hc Hx. destruct (unit_effect c d Hd Hc) as (x & d' & Hunit & Hd' & Heff). pose proof (Hx _ _ Heff). subst x. by exists d'. Qed.

Lemma created_effect t c' t' : effect Unmarked t c' t' -> browsers t' = S (browsers t).
Proof. inversion 1; subst. by apply browsers_created. Qed.
Lemma marked_effect t c' t' : effect Created t c' t' -> browsers t' = browsers t /\ instanceID ∈ instances_initialized t'.
Proof. inversion 1; subst; (split; [done|]); cbn; [set_solver|done]. Qed.

Lemma some_create k m d : healthy d -> instanceID ∉ instances_initialized (tables d) -> browsers (tables d) = 0%nat -> (0 < k)%nat ->
  exists d', rtc pool_step (replicate (k + m) initializing, d) (replicate (k + m) (Stop (Ret tt)), d') /\ browsers (tables d') = k.
Proof.
  intros Hd Hnew Hnone Hk. rewrite !replicate_add.
  destruct (all_units Begun Unmarked k (fun _ d' => healthy d' /\ tables d' = tables d) [] (replicate m initializing)) with (d := d) as (d1 & Hrun1 & Hd1 & Ht1); [|done|].
  { intros _ d' [Hd' Ht']. destruct (unit_then Begun Unmarked d') as (d2 & Hu & Hd2 & He); [done|done| |].
    { intros x t He. inversion He; subst; [congruence|done]. }
    exists d2. split; [done|]. split; [done|]. inversion He; congruence. }
  destruct (all_units Unmarked Created k (fun i d' => healthy d' /\ browsers (tables d') = i) [] (replicate m initializing))
    with (d := d1) as (d2 & Hrun2 & Hd2 & Hb2); [|by rewrite Ht1|].
  { intros i d' [Hd' Hb']. destruct (unit_then Unmarked Created d') as (d2 & Hu & Hd2 & He); [done|done|by intros x t He; inversion He|].
    exists d2. split; [done|]. split; [done|]. apply created_effect in He. congruence. }
  destruct (all_units Created (Finished true) k (fun i d' => healthy d' /\ browsers (tables d') = k /\ ((0 < i)%nat -> instanceID ∈ instances_initialized (tables d')))
    [] (replicate m initializing)) with (d := d2) as (d3 & Hrun3 & Hd3 & Hb3 & Hm3); [|split; [done|split; [done|lia]]|].
  { intros i d' (Hd' & Hb' & _). destruct (unit_then Created (Finished true) d') as (d3 & Hu & Hd3 & He); [done|done|by intros x t He; inversion He|].
    exists d3. split; [done|]. split; [done|]. apply marked_effect in He as [He ?]. by rewrite He. }
  specialize (Hm3 Hk). destruct (all_units Begun Seen m (fun _ d' => healthy d' /\ tables d' = tables d3) (replicate k (Stop (Ret tt))) []) with (d := d3)
    as (d4 & Hrun4 & Hd4 & Ht4); [|done|].
  { intros _ d' [Hd' Ht']. destruct (unit_then Begun Seen d') as (d4 & Hu & Hd4 & He); [done|done| |].
    { intros x t He. inversion He; subst; [done|congruence]. }
    exists d4. split; [done|]. split; [done|]. inversion He; congruence. }
  destruct (all_units Seen (Finished false) m (fun _ d' => healthy d' /\ tables d' = tables d3) (replicate k (Stop (Ret tt))) []) with (d := d4)
    as (d5 & Hrun5 & Hd5 & Ht5); [|done|].
  { intros _ d' [Hd' Ht']. destruct (unit_then Seen (Finished false) d') as (d5 & Hu & Hd5 & He); [done|done|by intros x t He; inversion He|].
    exists d5. split; [done|]. split; [done|]. inversion He; congruence. }
  exists d5. split; [|by rewrite Ht5]. rewrite !app_nil_r in Hrun4, Hrun5. cbn [app prog_of] in *. etrans; [exact Hrun1|]. etrans; [exact Hrun2|].
  etrans; [exact Hrun3|]. by etrans.
Qed.
Lemma all_create n d P d1 d' : healthy d -> instanceID ∉ instances_initialized (tables d) -> browsers (tables d) = 0%nat ->
  rtc pool_step (replicate n initializing, d) (P, d1) -> initializing ∉ P -> instanceID ∉ instances_initialized (tables d1) ->
  rtc pool_step (P, d1) (replicate n (Stop (Ret tt)), d') -> browsers (tables d') = n.
Proof.
  intros Hd Hnew Hnone Hrun1 Hread Hnew1 Hrun2.
  destruct (in_phases_steps _ n _ _ (fun _ _ _ _ _ _ _ _ => I) Hrun1 (in_phases_begun n d Hd Hnew Hnone)) as (cs & HP & Hd1 & Hok & _). cbn [fst snd] in *. subst P.
  destruct (fun H1 => in_phases_steps (fun cs => Forall (fun c => forward c = true) cs) n _ _ H1 Hrun2) as (cs' & Hstop & _ & [Hlen Hcreated _ _] & Hfwd).
  { intros ps c qs t c' t' Heff. rewrite !Forall_app, !Forall_cons. intros (? & ? & ?). split; [done|]. split; [by eapply forward_effect|done]. }
  { exists cs. do 3 (split; [done|]). apply Forall_forall. intros c Hin. destruct (late c) eqn:Hc; [by destruct Hnew1; eapply calls_late|].
    destruct c; try done. destruct Hread. by apply list_elem_of_fmap_2' with Begun. }
  cbn [fst snd] in *. rewrite Hcreated, creators_all; [done|]. intros c Hin. rewrite Forall_forall in Hfwd. specialize (Hfwd c Hin).
  assert (Hp : prog_of c ∈ replicate n (Stop (Ret tt))) by (rewrite Hstop; by apply list_elem_of_fmap_2). apply elem_of_replicate in Hp as [Hp _].
  by destruct c.
Qed.
End concurrent.

(** C27: [n] calls initialize an instance at once; each is what [checkInstanceDefaults] does, unit by unit. They never stand
    still, end after at most 3 * [n] units, all of them with success, and the instance is marked. It ends with at least one
    browser receiver and never more than there were calls, but with any number in between, because the receivers are not created
    by the transactions that mark: with [n] of them whenever every call has looked before the first one marks. *)
Theorem concurrent_defaults instanceID n d : healthy d -> instanceID ∉ instances_initialized (tables d) -> browsers instanceID (tables d) = 0%nat -> (0 < n)%nat ->
  (forall d', healthy d' -> checkInstanceDefaults instanceID d' = run_alone (initializing instanceID) d') /\
  (forall P d', rtc pool_step (replicate n (initializing instanceID), d) (P, d') ->
     (exists s', pool_step (P, d') s') \/
     (P = replicate n (Stop (Ret tt)) /\ instanceID ∈ instances_initialized (tables d') /\ (1 <= browsers instanceID (tables d') <= n)%nat)) /\
  (forall m s', nsteps pool_step m (replicate n (initializing instanceID), d) s' -> (m <= 3 * n)%nat) /\
  (forall k, (1 <= k <= n)%nat -> exists d', rtc pool_step (replicate n (initializing instanceID), d) (replicate n (Stop (Ret tt)), d') /\
     browsers instanceID (tables d') = k) /\
  (forall P d1 d', rtc pool_step (replicate n (initializing instanceID), d) (P, d1) -> initializing instanceID ∉ P ->
     instanceID ∉ instances_initialized (tables d1) -> rtc pool_step (P, d1) (replicate n (Stop (Ret tt)), d') -> browsers instanceID (tables d') = n).
Proof.
  intros Hd Hnew Hnone Hn. split; [apply initializing_alone|]. split; [|split; [|split]].
  - intros P d' Hrun. destruct (in_phases_steps instanceID _ n _ _ (fun _ _ _ _ _ _ _ _ => I) Hrun (in_phases_begun instanceID n d Hd Hnew Hnone))
      as (cs & HP & Hd' & [Hlen Hcreated Hmarked Hlate] & _). cbn [fst snd] in *. subst P.
    destruct (pool_goes_on instanceID cs d' Hd') as [Hgo|Hall]; [by left|right]. rewrite (all_stopped instanceID cs Hall), Hlen. split; [done|].
    assert (Hm : instanceID ∈ instances_initialized (tables d')).
    { destruct cs as [|c cs]; [cbn in Hlen; lia|]. apply Forall_cons in Hall as [[b ->] _]. by apply (Hlate (Finished b)); [apply list_elem_of_here|]. }
    split; [done|]. rewrite Hcreated, <- Hlen. split; [by apply creators_finished, Hmarked|apply creators_le].
  - intros m s' Hsteps. change (initializing instanceID) with (prog_of instanceID Begun) in Hsteps. rewrite <- fmap_replicate in Hsteps. apply (nsteps_bounded instanceID) in Hsteps; [|done].
    enough (units_left (replicate n Begun) = 3 * n)%nat by lia. clear. induction n as [|n IH]; [done|]. change (units_left (replicate (S n) Begun)) with (3 + units_left (replicate n Begun))%nat. lia.
  - intros k [H1 Hk]. replace n with (k + (n - k))%nat by lia. by apply some_create.
  - intros P d1 d'. by apply all_create.
Qed.

Lemma concurrent_defaults_witness :
  healthy sample_db.sample /\ "i2" ∉ instances_initialized (tables sample_db.sample) /\
  (forall k, (1 <= k <= 2)%nat -> exists d', rtc pool_step (replicate 2 (initializing "i2"), sample_db.sample) (replicate 2 (Stop (Ret tt)), d') /\
     browsers "i2" (tables d') = k).
Proof.
  assert (Hnew : "i2" ∉ instances_initialized (tables sample_db.sample)) by (by apply (bool_decide_unpack _)).
  split; [exact sample_db.sample_healthy|]. split; [exact Hnew|].
  apply (concurrent_defaults "i2" 2 sample_db.sample sample_db.sample_healthy Hnew); [reflexivity|lia].
Defined.
