(* ===== verification/NotifyManagerSpec.v ===== *)
(** What the event manager puts into the queue for an event, and the differences it finds between the event
    types of receivers. *)
From Stdlib Require Import ZArith Lia Ascii String.
From stdpp Require Import base tactics option gmap sets strings list pretty.
From S2P Require Import Prelude GoStd Users UsersDB Http Middleware Json Notification NotifyDB NotifyRender NotifyManager NotifySpec.
Import types.

(** * Batches *)

Lemma partition_loop_spec k notifs : forall n batches, (0 < k)%nat -> (length notifs < n)%nat ->
  exists rest, partition_loop n k notifs batches = batches ++ rest /\ concat rest = notifs /\ Forall (fun b => 1 <= length b <= k)%nat rest.
Proof.
  intros n. revert notifs. induction n as [|n IH]; intros notifs batches Hk Hn; [lia|]. cbn. destruct (Nat.leb_spec k (length notifs)) as [Hle|Hlt].
  - destruct (IH (drop k notifs) (batches ++ [take k notifs]) Hk) as (rest & -> & Hconcat & Hall); [rewrite length_drop; lia|].
    exists (take k notifs :: rest). rewrite <- app_assoc. split; [done|]. split; [cbn; rewrite Hconcat; apply take_drop|].
    constructor; [rewrite length_take; lia|done].
  - destruct notifs as [|x notifs]; [exists []; by rewrite app_nil_r|]. exists [x :: notifs]. split; [done|]. split; [apply app_nil_r|].
    constructor; [cbn in *; lia|done].
Qed.
Lemma partitionNotifications_spec notifs k : (0 < k)%nat ->
  concat (partitionNotifications notifs k) = notifs /\ Forall (fun b => 1 <= length b <= k)%nat (partitionNotifications notifs k).
Proof.
  intros Hk. unfold partitionNotifications. destruct (partition_loop_spec k notifs (S (length notifs)) [] Hk) as (rest & -> & ?); [lia|done].
Qed.

Lemma mapM_app_inv {A B} (f : A -> option B) l1 l2 r : mapM f (l1 ++ l2) = Some r ->
  exists r1 r2, mapM f l1 = Some r1 /\ mapM f l2 = Some r2 /\ r = r1 ++ r2.
Proof.
  revert r. induction l1 as [|x l1 IH]; intros r; cbn; [by intros ->; exists [], r|]. intros Hr. destruct (f x) as [y|]; [|done]. cbn in *.
  destruct (mapM f (l1 ++ l2)) as [r'|]; [|done]. destruct (IH r' eq_refl) as (r1 & r2 & -> & H2 & ->). injection Hr as <-. by exists (y :: r1), r2.
Qed.
(** The batches as they are in the queue. *)
Lemma mapM_concat {A B} (f : A -> option B) (ll : list (list A)) r : mapM f (concat ll) = Some r ->
  exists rr, mapM (mapM f) ll = Some rr /\ concat rr = r.
Proof.
  revert r. induction ll as [|l ll IH]; intros r; cbn; [intros [= <-]; by exists []|]. intros (r1 & r2 & H1 & H2 & ->)%mapM_app_inv.
  destruct (IH r2 H2) as (rr & Hrr & <-). rewrite H1. cbn. rewrite Hrr. cbn. by exists (r1 :: rr).
Qed.

(** * What is stored of an event *)

(** An event whose messages and data are JSON. *)
Definition json_messages (m : gmap string RawMessage) : Prop := forall k raw, m !! k = Some raw -> is_Some (json.Marshal (json.Raw raw)).
Lemma encoded_messages_run `{GoRange} {S} m : json_messages m -> exists m', forall s : S, encoded_messages m s = (Ret m', s).
Proof.
  intros Hm. unfold encoded_messages. assert (Hall : forall kv, kv ∈ go_range m -> is_Some (json.Marshal (json.Raw kv.2))).
  { intros [k raw] Hin%elem_of_go_range. by apply (Hm k). }
  generalize (∅ : gmap string string). induction (go_range m) as [|[k raw] l IH]; intros acc; [by exists acc|].
  destruct (Hall (k, raw)) as [enc Henc]; [apply list_elem_of_here|]. destruct (IH (fun kv Hin => Hall kv (list_elem_of_further _ _ _ Hin)) (<[k := enc]> acc)) as [m' Hm'].
  exists m'. intros s. cbn [fold_m fst snd] in *. unfold bind at 1 2, encoded. rewrite Henc. apply Hm'.
Qed.

(** The instance lacks the feature flag that events of the type need. *)
Definition lacks_flag (row : EventTypeRow) (featureFlags : list string) : bool :=
  match feature_flag row with Some flag => bool_decide (flag <> EmptyString) && bool_decide (flag ∉ featureFlags) | None => false end.

(** Statements and transactions when no statement fails. *)
Definition calm (d : NotifyDB) : Prop := forall n, fault d n = None.
Definition step (d : NotifyDB) : NotifyDB := set_statements (S (statements d)) d.
Lemma run_tx_calm {A} (f : Statement A) d w a t : calm d -> f (w (tables d)) = inr (a, t) ->
  exists w', run_tx f (d, w) = (Ret a, (step d, w')) /\ w' (tables d) = t.
Proof.
  intros Hd Hf. unfold run_tx, bind, elsewhere, zoom, tick. cbn [fst snd]. rewrite Hd. cbn [fst snd tables set_statements]. rewrite Hf.
  eexists. split; [done|]. cbn. by rewrite Hf.
Qed.
Lemma runTx_calm {A} (f : Tx A) d a d' w : calm d -> calm d' -> f (step d, id) = (Ret a, (d', w)) ->
  runTx f d = (Ret (Some (inr a), None), set_tables (w (tables d')) (step d')).
Proof. intros Hd Hd' Hf. unfold runTx, bind, try, tick. rewrite Hd. fold (step d). rewrite Hf, Hd'. done. Qed.

Lemma CreateEvent_run `{GoRange} ev flags d row enc : healthy d -> event_types (tables d) !! ev_Type ev = Some row ->
  json_messages (Messages ev) -> json.Marshal (json.Raw (ev_Data ev)) = Some enc -> events (tables d) !! uuids d (n_uuids d) = None ->
  exists d', same_world d d' /\
  if lacks_flag row flags then CreateEvent ev flags d = (Ret EmptyString, d') /\ tables d' = tables d
  else CreateEvent ev flags d = (Ret (uuids d (n_uuids d)), d') /\
       exists msgs, tables d' = set_events (<[uuids d (n_uuids d) := mkEventRow (ev_Type ev) (ev_InstanceID ev) (ev_Timestamp ev) msgs (ev_Text ev) enc (Metadata ev)]>
                                   (events (tables d))) (tables d).
Proof.
  intros Hd Hrow Hm Henc Hfresh. destruct (encoded_messages_run (S := NotifyDB) (Messages ev) Hm) as [msgs Hmsgs].
  assert (Hcalm : forall d', fault d' = fault d -> calm d') by (intros d' Hf n; rewrite Hf; apply Hd).
  destruct (run_tx_calm (feature_flag_of (ev_Type ev)) (step d) id (feature_flag row) (tables d)) as (w1 & Hflag & Hw1);
    [by apply Hcalm|unfold feature_flag_of; cbn; by rewrite Hrow|]. cbn [tables set_statements step] in Hw1.
  assert (Hlacks : lacks_flag row flags = bool_decide (default EmptyString (feature_flag row) <> EmptyString /\ default EmptyString (feature_flag row) ∉ flags)).
  { unfold lacks_flag. destruct (feature_flag row) as [flag|]; cbn; [by rewrite bool_decide_and|]. by rewrite bool_decide_false by naive_solver. }
  destruct (lacks_flag row flags).
  - symmetry in Hlacks. apply bool_decide_eq_true in Hlacks. eexists. split; [|split].
    2: { unfold CreateEvent. unfold bind at 1. rewrite Hmsgs. unfold bind at 1.
         erewrite runTx_calm; [reflexivity|by apply Hcalm| |]; cycle 1.
         { unfold bind, try. rewrite Hflag. cbn [fst snd]. rewrite decide_True by done. reflexivity. }
         by apply Hcalm. }
    + repeat split; cbn; lia.
    + exact Hw1.
  - symmetry in Hlacks. apply bool_decide_eq_false in Hlacks. set (uuid := uuids d (n_uuids d)) in *.
    set (new := mkEventRow (ev_Type ev) (ev_InstanceID ev) (ev_Timestamp ev) msgs (ev_Text ev) enc (Metadata ev)).
    set (d1 := set_n_uuids (S (n_uuids d)) (step (step d))).
    destruct (run_tx_calm (insert_event uuid new) d1 w1 uuid (set_events (<[uuid := new]> (events (tables d))) (tables d))) as (w2 & Hins & Hw2);
      [by apply Hcalm| |].
    { unfold insert_event. change (tables d1) with (tables d). rewrite Hw1, Hfresh, decide_False; [done|]. cbn. rewrite elem_of_dom, Hrow. eauto. }
    change (tables d1) with (tables d) in Hw2. eexists. split; [|split].
    2: { unfold CreateEvent. unfold bind at 1. rewrite Hmsgs. unfold bind at 1.
         erewrite runTx_calm; [reflexivity|by apply Hcalm| |]; cycle 1.
         { unfold bind, try. rewrite Hflag. cbn [fst snd]. rewrite decide_False by done. unfold encoded. rewrite Henc. cbn [or_else ret].
           unfold elsewhere, zoom. cbn [fst snd uuid_generate_v4]. exact Hins. }
         by apply Hcalm. }
    + repeat split; cbn; lia.
    + exists msgs. exact Hw2.
Qed.

(** * The queue *)

(** The batches that the queue does not refuse. *)
Fixpoint accepted {A} (refused : nat -> bool) (n : nat) (batches : list (list A)) : list (list A) :=
  match batches with
  | [] => []
  | b :: batches => (if refused n then [] else [b]) ++ accepted refused (S n) batches
  end.

Section queue.
Context {W : Type} `{GoRange}.
Variable uuid_of : string -> option string.
Variable timestamp_column : time.Time -> time.Time.
#[local] Instance stored_in_postgres : NotifyImpl NotifyDB := postgres_impl uuid_of timestamp_column.
Abbreviation state := (Manager W NotifyDB).

(** The event manager with another database and a longer queue. *)
Definition sent (d : NotifyDB) (batches : list (list Notification)) (s : state) : state :=
  mkManager (em_users s) d (em_queue s ++ accepted (em_refused s) (em_batches s) batches) (em_refused s) (em_batches s + length batches)
    (em_allow s) (em_requests s) (em_clock s) (em_ticks s).

Lemma send_batches (batches : list (list Notification)) : forall entries s, mapM (mapM notificationToString) batches = Some entries ->
  for_each batches (fun batch => do sendInp <- notificationBatchToSendInput batch; SendMessageBatch sendInp) s = (Ret tt, sent (em_DB s) entries s).
Proof.
  induction batches as [|b batches IH]; intros entries s; cbn.
  { intros [= <-]. unfold sent, ret. cbn. rewrite app_nil_r, Nat.add_0_r. by destruct s. }
  intros Hentries. destruct (mapM notificationToString b) as [e|] eqn:Hb; [|done]. cbn in Hentries.
  destruct (mapM (mapM notificationToString) batches) as [es|] eqn:Hes; [|done]. injection Hentries as <-.
  unfold bind at 1 2, notificationBatchToSendInput at 1. rewrite Hb. cbn. rewrite (IH es _ eq_refl). unfold sent. cbn.
  rewrite Nat.add_succ_r. do 2 f_equal. by destruct (em_refused s (em_batches s)); cbn; rewrite <- ?app_assoc.
Qed.

(** The notifications of an event: one for each receiver of the instance that is subscribed to its type. *)
Definition notifications (e : Event) (t : Tables) : list Notification :=
  (fun kv => mkNotification (receiver_type kv.2) (ev_InstanceID e) (address_data kv.2) (get (Messages e) (receiver_type kv.2)) e)
  <$> filter (fun kv => instance_id kv.2 = ev_InstanceID e /\ (kv.1, ev_Type e) ∈ receiver_event_types t) (go_range (receivers t)).

Lemma sent_sent d d' batches batches' s : sent d' batches' (sent d batches s) = sent d' (batches ++ batches') s.
Proof.
  unfold sent. cbn. rewrite length_app, Nat.add_assoc, <- app_assoc. do 2 f_equal. generalize (em_batches s).
  induction batches as [|b batches IH]; intros n; cbn; [by rewrite Nat.add_0_r|]. by rewrite <- app_assoc, <- (IH (S n)), Nat.add_succ_comm.
Qed.

Lemma getNotifications_run e s : healthy (em_DB s) ->
  exists d', getNotifications e s = (Ret (notifications e (default_tables (em_DB s) (ev_InstanceID e))), sent d' [] s) /\
  healthy d' /\ tables d' = default_tables (em_DB s) (ev_InstanceID e).
Proof.
  intros Hd. destruct (checkInstanceDefaults_healthy (ev_InstanceID e) (em_DB s) Hd) as (d1 & Hdef & Ht1 & Hd1).
  destruct (run_healthy (receivers_for_event (ev_InstanceID e) (ev_Type e)) d1 _ (tables d1) Hd1 eq_refl) as (d2 & Hrun & Ht2 & Hw).
  exists d2. split; [|split; [apply (healthy_later d1); [done|done|congruence]|congruence]].
  unfold getNotifications, on_db, zoom, with_error, bind, notify_call, stored_in_postgres. cbn [postgres_impl].
  unfold GetReceiversForEvent, bind. rewrite Hdef, Hrun. unfold notifications, sent. rewrite <- Ht1, <- list_fmap_compose. cbn.
  by rewrite app_nil_r, Nat.add_0_r.
Qed.

Lemma notify_run e entries s : healthy (em_DB s) ->
  mapM notificationToString (notifications e (default_tables (em_DB s) (ev_InstanceID e))) = Some entries ->
  exists d' batches, sendNotificationBatchesToQueue e s = (Ret tt, sent d' batches s) /\ healthy d' /\
  tables d' = default_tables (em_DB s) (ev_InstanceID e) /\ concat batches = entries /\ Forall (fun b => 1 <= length b <= batchSize)%nat batches.
Proof.
  intros Hd Hentries. destruct (getNotifications_run e s Hd) as (d' & Hget & Hd' & Ht). set (notifs := notifications _ _) in *.
  destruct (partitionNotifications_spec notifs batchSize) as [Hconcat Hall]; [unfold batchSize; lia|].
  rewrite <- Hconcat in Hentries. apply mapM_concat in Hentries as (batches & Hbatches & <-). exists d', batches.
  split; [unfold sendNotificationBatchesToQueue; unfold bind at 1; rewrite Hget, (send_batches _ batches) by done; by rewrite sent_sent|].
  do 3 (split; [done|]). apply mapM_Some in Hbatches. apply Forall_forall. intros b [i Hb]%list_elem_of_lookup.
  destruct (Forall2_lookup_r _ _ _ _ _ Hbatches Hb) as (a & Ha & Hab). rewrite <- (Forall2_length _ _ _ (proj1 (mapM_Some _ _ _) Hab)). rewrite Forall_forall in Hall.
  apply Hall, list_elem_of_lookup. by exists i.
Qed.

Lemma notifications_events e t m : notifications e (set_events m t) = notifications e t.
Proof. done. Qed.

(** C23: an event of an instance is put into the queue once for every receiver of the instance that is subscribed to its type and
    for no other, in batches of ten at most, of which the queue keeps those it does not refuse. The event is stored under a new
    identifier first, but when the instance lacks the feature flag of the type nothing is stored, the identifier is empty, and
    the receivers are notified nevertheless. *)
Theorem storeAndSend_notifies ev flags s row entries :
  let d := em_DB s in
  let id := if lacks_flag row flags then EmptyString else uuids d (n_uuids d) in
  healthy d -> ev_InstanceID ev ∈ instances_initialized (tables d) ->
  event_types (tables d) !! ev_Type ev = Some row -> json_messages (Messages ev) -> is_Some (json.Marshal (json.Raw (ev_Data ev))) ->
  events (tables d) !! uuids d (n_uuids d) = None ->
  mapM notificationToString (notifications (set_ev_ID id ev) (tables d)) = Some entries ->
  exists d' batches, storeAndSend ev flags s = (Ret id, sent d' batches s) /\
  concat batches = entries /\ Forall (fun b => 1 <= length b <= batchSize)%nat batches /\
  (if lacks_flag row flags then tables d' = tables d
   else exists row, event_type row = ev_Type ev /\ event_instance_id row = ev_InstanceID ev /\ tables d' = set_events (<[id := row]> (events (tables d))) (tables d)).
Proof.
  intros d id Hd Hini Hrow Hm [enc Henc] Hfresh Hentries. destruct (CreateEvent_run ev flags d row enc Hd Hrow Hm Henc Hfresh) as (d1 & Hw & Hcases).
  assert (Hcreate : CreateEvent ev flags d = (Ret id, d1)) by (unfold id; destruct (lacks_flag row flags); apply Hcases).
  assert (Hstored : if lacks_flag row flags then tables d1 = tables d
    else exists row, event_type row = ev_Type ev /\ event_instance_id row = ev_InstanceID ev /\ tables d1 = set_events (<[id := row]> (events (tables d))) (tables d)).
  { unfold id. destruct (lacks_flag row flags); [apply Hcases|]. destruct Hcases as [_ [msgs Ht]]. eexists. split; [|split; [|exact Ht]]; done. }
  assert (exists m, tables d1 = set_events m (tables d)) as [m Ht].
  { destruct (lacks_flag row flags); [exists (events (tables d)); rewrite Hstored; by destruct (tables d)|]. destruct Hstored as (? & _ & _ & ?). eauto. }
  assert (Hd1 : healthy d1).
  { destruct Hw as (Hf & Hu & Hn). destruct Hd as [Hf0 Hfr Hdi Hr]. constructor; rewrite ?Hf, ?Hu, ?Ht; try done. intros n Hle. apply Hfr. lia. }
  assert (Hsame : default_tables d1 (ev_InstanceID (set_ev_ID id ev)) = tables d1) by (apply healthy_default_again; by rewrite Ht).
  destruct (notify_run (set_ev_ID id ev) entries (sent d1 [] s) Hd1) as (d2 & batches & Hrun & _ & Ht2 & Hconcat & Hall).
  { cbn [em_DB sent]. by rewrite Hsame, Ht, notifications_events. }
  exists d2, batches. cbn [em_DB sent] in Ht2. rewrite Hsame in Ht2. rewrite sent_sent in Hrun.
  split; [|split; [done|split; [done|by rewrite Ht2]]]. unfold storeAndSend. unfold bind at 1, on_db, with_error, zoom.
  unfold notify_call, stored_in_postgres. cbn [postgres_impl]. fold d. rewrite Hcreate.
  replace (mkManager _ _ _ _ _ _ _ _ _) with (sent d1 [] s) by (unfold sent; cbn; by rewrite app_nil_r, Nat.add_0_r).
  unfold stored_in_postgres in Hrun. unfold bind. by rewrite Hrun.
Qed.
End queue.

(** * Differences of event types *)

Section differences.
Context `{GoRange}.
Variable visibleEvents : list EventType.
Abbreviation visible := (isVisibleEvent visibleEvents).

Lemma visible_set (old : list string) : forall m name,
  (foldl (fun m et => if visible et then <[et := tt]> m else m) m old : gmap string unit) !! name <> None <->
  m !! name <> None \/ visible name = true /\ name ∈ old.
Proof.
  induction old as [|et old IH]; intros m name; cbn [foldl]; [rewrite elem_of_nil; tauto|]. rewrite IH, elem_of_cons.
  destruct (visible et) eqn:Hv; [|destruct (decide (name = et)) as [->|]; naive_solver congruence].
  destruct (decide (name = et)) as [->|Hne]; [rewrite lookup_insert_eq; naive_solver|rewrite lookup_insert_ne by done; naive_solver].
Qed.
Lemma crossed_out new : forall all added, NoDup new ->
  let r := foldl (cross_out visibleEvents) (all, added) new in
  (forall name, r.1 !! name <> None <-> all !! name <> None /\ name ∉ new) /\
  (forall name, name ∈ r.2 <-> name ∈ added \/ visible name = true /\ name ∈ new /\ all !! name = None).
Proof.
  induction new as [|et new IH]; intros all added Hnodup; cbn [foldl]; [split; intros name; rewrite elem_of_nil; naive_solver|].
  apply NoDup_cons in Hnodup as [Het Hnodup]. unfold cross_out at 2 4. destruct (all !! et) as [[]|] eqn:Hall.
  - destruct (IH (delete et all) added Hnodup) as [H1 H2]. split; intros name; [rewrite H1|rewrite H2]; rewrite elem_of_cons;
      (destruct (decide (name = et)) as [->|Hne]; [rewrite lookup_delete_eq, ?Hall|rewrite lookup_delete_ne by done]); naive_solver.
  - destruct (IH all (if visible et then added ++ [et] else added) Hnodup) as [H1 H2]. split; intros name; [rewrite H1|rewrite H2]; rewrite elem_of_cons.
    + destruct (decide (name = et)) as [->|Hne]; [rewrite Hall|]; naive_solver.
    + destruct (visible et) eqn:Hv; [rewrite elem_of_app, list_elem_of_singleton|];
        (destruct (decide (name = et)) as [->|Hne]; [rewrite ?Hall|]); naive_solver congruence.
Qed.

(** The event types that a change of a receiver is reported to have enabled are the visible ones that it was not subscribed to
    before, and those it is reported to have disabled are the visible ones that it no longer is subscribed to, when no type is
    given twice. *)
Lemma diff_spec old new name : NoDup new ->
  (name ∈ (diff old new visibleEvents).1 <-> visible name = true /\ name ∈ new /\ name ∉ old) /\
  (name ∈ (diff old new visibleEvents).2 <-> visible name = true /\ name ∈ old /\ name ∉ new).
Proof.
  intros Hnodup. unfold diff. set (all := foldl _ ∅ old). destruct (crossed_out new all [] Hnodup) as [H1 H2].
  assert (Hall : forall name, all !! name <> None <-> visible name = true /\ name ∈ old).
  { intros k. unfold all. rewrite visible_set, lookup_empty. naive_solver. }
  destruct (foldl (cross_out visibleEvents) (all, []) new) as [left added] eqn:E. cbn [fst snd] in *. split.
  - rewrite H2, elem_of_nil. specialize (Hall name). destruct (all !! name); naive_solver.
  - assert (Hkeys : name ∈ (go_range left).*1 <-> left !! name <> None).
    { rewrite list_elem_of_fmap. split; [intros ([k []] & -> & Hin%elem_of_go_range); cbn; by rewrite Hin|].
      destruct (left !! name) as [[]|] eqn:Hl; [|done]. intros _. exists (name, tt). split; [done|]. by apply elem_of_go_range. }
    rewrite Hkeys, H1, Hall. naive_solver.
Qed.
End differences.

Module sample_events.
Definition sample_manager : Manager unit NotifyDB := mkManager tt sample_db.sample [] (fun _ => false) 0 (fun _ => true) 0 (fun _ => 0) 0.
(** An event of a type whose flag the instance lacks. *)
Definition sample_event : Event := mkEvent EmptyString "beta" "i1" "Instance" 0 "{}" {[SlackReceiver := "{}"]} None ∅.
Abbreviation sample_send := (@storeAndSend unit NotifyDB (@postgres_impl list_range sample_db.sample_uuid_of id)).
Definition sample_notifications : list Notification := @notifications list_range sample_event sample_db.sample_tables.

(** Nothing is stored, and a Slack notification without the identifier of an event is sent. *)
Lemma sent_without_flag : exists s', sample_send sample_event [] sample_manager = (Ret EmptyString, s') /\
  events (tables (em_DB s')) = ∅ /\ map (map (fun n => ev_ID (nt_Event n))) (em_queue s') = [[EmptyString]].
Proof. eexists. split; [vm_compute; reflexivity|]. split; vm_compute; reflexivity. Qed.

Lemma storeAndSend_notifies_witness :
  exists d' batches, sample_send sample_event [] sample_manager = (Ret EmptyString, sent d' batches sample_manager) /\
  concat batches = sample_notifications /\ Forall (fun b => 1 <= length b <= batchSize)%nat batches /\ tables d' = sample_db.sample_tables.
Proof.
  apply (@storeAndSend_notifies unit list_range sample_db.sample_uuid_of id sample_event [] sample_manager sample_db.beta sample_notifications sample_db.sample_healthy).
  - by apply (bool_decide_unpack _).
  - vm_compute. reflexivity.
  - intros k raw Hk. cbn [Messages sample_event] in Hk. apply lookup_singleton_Some in Hk as [<- <-]. by eexists.
  - by eexists.
  - vm_compute. reflexivity.
  - vm_compute. reflexivity.
Defined.

Definition sample_visible : list EventType := (fun name => mkEventType name name EmptyString (Some []) (Some []) false EmptyString) <$> ["deploy"; "sync"; "beta"].
Lemma sample_diff : NoDup ["deploy"; "beta"] /\
  ("beta" ∈ (@diff list_range ["deploy"; "sync"] ["deploy"; "beta"] sample_visible).1 <->
     isVisibleEvent sample_visible "beta" = true /\ "beta" ∈ ["deploy"; "beta"] /\ "beta" ∉ ["deploy"; "sync"]).
Proof.
  assert (Hnodup : NoDup ["deploy"; "beta"]) by (by apply (bool_decide_unpack _)). split; [done|].
  apply (@diff_spec list_range sample_visible ["deploy"; "sync"] ["deploy"; "beta"] "beta" Hnodup).
Defined.
(** A type that is given twice is reported as enabled, although it was there. *)
Lemma diff_twice : @diff list_range ["deploy"] ["deploy"; "deploy"] sample_visible = (["deploy"], []).
Proof. vm_compute. reflexivity. Qed.
End sample_events.
