(* ===== verification/NotifySenderSpec.v ===== *)
(** Messages leave the queue when they were handled, and what is rendered of an alert is what the senders read. *)
From Stdlib Require Import ZArith Lia Ascii String.
From stdpp Require Import base tactics option gmap strings list pretty.
From S2P Require Import Prelude GoStd LedgerSpec Http Json Notification NotifyDB NotifyRender NotifyManager NotifySender.
Import types.

(** * The queue *)

Section queue.
Context {S : Type}.
Variable notifyHandlers : gmap string (NotifyHandler (S := S)).
Variable decode_notification : string -> option Notification.
Abbreviation receive := (HandleNotification notifyHandlers decode_notification).
Abbreviation loop := (Run notifyHandlers decode_notification).

(** The handler of its kind of receiver took the notification, or failed for good. *)
Definition settled (n : Notification) : Prop := exists h w o w', notifyHandlers !! ReceiverType n = Some h /\
  h (nt_Address n) n (nt_InstanceID n) w = (o, w') /\ (o = Ret tt \/ exists text, o = Err (SendError text)).

(** What may happen to the messages: one whose notification is settled may leave. *)
Definition only_settled (m m' : gmap nat MessageBody) : Prop := m' ⊆ m /\
  forall handle msg, m !! handle = Some msg -> m' !! handle = None -> exists n, stringToNotification decode_notification msg = Some n /\ settled n.
Lemma only_settled_refl m : only_settled m m.
Proof. split; [done|congruence]. Qed.
Lemma only_settled_trans m1 m2 m3 : only_settled m1 m2 -> only_settled m2 m3 -> only_settled m1 m3.
Proof.
  intros [H12 S12] [H23 S23]. split; [by etrans|]. intros handle msg H1 H3. destruct (m2 !! handle) as [msg'|] eqn:H2; [|eauto].
  pose proof (lookup_weaken _ _ _ _ H2 H12). simplify_eq. eauto.
Qed.

Definition queue_of (s : SenderState S) : gmap nat MessageBody := sq_messages s.

Lemma sendNotification_settles n handle msg s : queue_of s !! handle = Some msg -> stringToNotification decode_notification msg = Some n ->
  only_settled (queue_of s) (queue_of (sendNotification notifyHandlers n handle s).2).
Proof.
  intros Hmsg Hn. unfold sendNotification. destruct (notifyHandlers !! ReceiverType n) as [h|] eqn:Hh; [|apply only_settled_refl].
  unfold bind at 1, NotifySender.handle. destruct (h (nt_Address n) n (nt_InstanceID n) (sq_world s)) as [o w'] eqn:Hrun.
  assert (Hleave : settled n -> only_settled (queue_of s) (delete handle (queue_of s))).
  { intros Hs. split; [apply delete_subseteq|]. intros k m Hk Hgone. destruct (decide (k = handle)) as [->|Hne]; [|by rewrite lookup_delete_ne in Hgone by done; congruence].
    simplify_eq. by exists n. }
  destruct o as [[]|[text|text]| | |]; try apply only_settled_refl.
  all: unfold bind, DeleteMessage; cbn; unfold queue_of in *; destruct (sq_delete_fails s (sq_deletes s)); cbn; try apply only_settled_refl;
    apply Hleave; exists h, (sq_world s); eexists _, w'; (split; [done|]); (split; [exact Hrun|]); eauto.
Qed.

Lemma HandleNotification_settles s : only_settled (queue_of s) (queue_of (receive s).2).
Proof.
  unfold HandleNotification, bind at 1, ReceiveMessage. destruct (sq_received s (sq_receives s)) as [|text| |handle] eqn:Hgot; try apply only_settled_refl.
  destruct (sq_messages s !! handle) as [msg|] eqn:Hmsg; [|apply only_settled_refl]. unfold bind at 1, or_else.
  destruct (stringToNotification decode_notification msg) as [n|] eqn:Hn; [|apply only_settled_refl]. cbn [ret].
  set (s1 := mkSenderState _ _ _ _ _ _). pose proof (sendNotification_settles n handle msg s1 Hmsg Hn) as Hsend.
  unfold bind, attempt. change (queue_of s) with (queue_of s1). by destruct (sendNotification notifyHandlers n handle s1) as [[] s2].
Qed.
Lemma Run_settles fuel : forall s, only_settled (queue_of s) (queue_of (loop fuel s).2).
Proof.
  induction fuel as [|fuel IH]; intros s; [apply only_settled_refl|]. cbn [Run]. unfold bind, try. pose proof (HandleNotification_settles s) as Hstep.
  destruct (receive s) as [[a|[|text]| | |] s1]; cbn in *; try done; eapply only_settled_trans; eauto.
Qed.

(** C24: however long the sender runs, whatever fails and whatever it receives, a message leaves the queue only when the handler of
    its kind of receiver was called with its notification and returned without an error, or with one that is not worth another try;
    the sender adds no message, and changes none. *)
Theorem queue_keeps_unsettled fuel s : sq_messages (loop fuel s).2 ⊆ sq_messages s /\
  forall handle msg, sq_messages s !! handle = Some msg ->
  sq_messages (loop fuel s).2 !! handle = Some msg \/
  sq_messages (loop fuel s).2 !! handle = None /\ exists n, stringToNotification decode_notification msg = Some n /\ settled n.
Proof.
  destruct (Run_settles fuel s) as [Hsub Hsettled]. unfold queue_of in *. split; [exact Hsub|]. intros handle msg Hmsg. destruct (sq_messages (loop fuel s).2 !! handle) as [msg'|] eqn:Hend.
  - left. pose proof (lookup_weaken _ _ _ _ Hend Hsub). congruence.
  - right. split; [done|]. by apply (Hsettled handle).
Qed.

(** * The end of the loop *)

(** Handlers return, with an error or without. *)
Definition handlers_return : Prop := forall rtype h addr n inst w, notifyHandlers !! rtype = Some h -> exists o w',
  h addr n inst w = (o, w') /\ definite o.

Ltac returned := eexists _, _; split; [reflexivity|]; split; [reflexivity|]; split; [reflexivity|]; cbn; eauto.
Lemma receive_count s : handlers_return -> exists o s', receive s = (o, s') /\ sq_received s' = sq_received s /\ sq_receives s' = Datatypes.S (sq_receives s) /\
  match sq_received s (sq_receives s) with ReceiveCanceled => o = Err Canceled | _ => o = Ret tt \/ exists text, o = Err (QError text) end.
Proof.
  intros Hret. unfold HandleNotification. unfold bind at 1, ReceiveMessage.
  destruct (sq_received s (sq_receives s)) as [|text| |handle] eqn:Hgot; try (returned; done).
  destruct (sq_messages s !! handle) as [msg|]; [|returned; eauto]. unfold bind at 1, or_else.
  destruct (stringToNotification decode_notification msg) as [n|]; [|returned; eauto]. cbn [ret].
  unfold bind at 1, attempt, sendNotification. destruct (notifyHandlers !! ReceiverType n) as [h|] eqn:Hh; [|returned; eauto].
  destruct (Hret _ h (nt_Address n) n (nt_InstanceID n) (sq_world s) Hh) as (o & w' & Hrun & Ho).
  unfold bind at 1, NotifySender.handle. cbn [sq_world sq_messages]. rewrite Hrun.
  destruct o as [[]|[text|text]| | |]; try done; unfold bind, DeleteMessage; cbn; try (returned; done);
    destruct (sq_delete_fails s (sq_deletes s)); cbn; returned; eauto.
Qed.

(** When the handlers return, [k + 1] rounds are enough if the call for a message after [k] others finds the context cancelled. *)
Lemma Run_until_cancelled k s : handlers_return -> sq_received s (sq_receives s + k) = ReceiveCanceled ->
  exists s', loop (Datatypes.S k) s = (Ret tt, s').
Proof.
  intros Hret. revert s. induction k as [|k IH]; intros s Hcancel; destruct (receive_count s Hret) as (o & s' & Hrun & Hr & Hn & Ho).
  - rewrite Nat.add_0_r in Hcancel. rewrite Hcancel in Ho. subst o. exists s'. cbn [Run]. unfold bind, try. by rewrite Hrun.
  - assert (o = Err Canceled \/ o = Ret tt \/ exists text, o = Err (QError text)) as [->|Ho'] by (destruct (sq_received s (sq_receives s)); auto).
    { exists s'. cbn [Run]. unfold bind, try. by rewrite Hrun. }
    destruct (IH s') as [s2 Hs2]; [rewrite Hr, Hn, <- Hcancel; f_equal; lia|]. exists s2. rewrite <- Hs2.
    destruct Ho' as [->|[text ->]]; cbn [Run]; unfold bind at 1, try at 1; by rewrite Hrun.
Qed.
End queue.

(** * The senders return *)

Section returning.
Context {S E : Type}.
Definition returns {A} (m : M S E A) : Prop := forall s, definite (m s).1.
Lemma returns_ret {A} (a : A) : returns (ret a).
Proof. done. Qed.
Lemma returns_throw {A} e : returns (throw e : M S E A).
Proof. done. Qed.
Lemma returns_or_else {A} (p : option A) e : returns (or_else p e : M S E A).
Proof. by destruct p. Qed.
Lemma returns_bind {A B} (m : M S E A) (k : A -> M S E B) : returns m -> (forall a, returns (k a)) -> returns (bind m k).
Proof. intros Hm Hk s. specialize (Hm s). unfold bind. destruct (m s) as [[] s']; try done. apply Hk. Qed.
Lemma returns_gets {A} (f : S -> A) : returns (gets f).
Proof. done. Qed.
Lemma returns_modify f : returns (modify f : M S E unit).
Proof. done. Qed.
End returning.
Lemma returns_zoom {S T E A} get put (m : M S E A) : returns m -> returns (zoom (T := T) get put m).
Proof. intros Hm t. unfold zoom. specialize (Hm (get t)). by destruct (m (get t)). Qed.
#[export] Hint Resolve returns_ret returns_throw returns_or_else returns_gets returns_modify returns_zoom : go.
Ltac returns_step :=
  match goal with
  | |- returns (bind _ _) => apply returns_bind; [|intros]
  | |- returns (if ?b then _ else _) => destruct b eqn:?
  | |- returns (let '(_, _) := ?x in _) => destruct x
  | |- returns (match ?x with _ => _ end) => destruct x
  | |- returns _ => solve [eauto with go]
  end.
Ltac returning := repeat returns_step.

(** The services answer, if only with an error, and time passes: no call sets the clock back, and a pause takes the time it is
    for. *)
Class TimelyWorld (W : Type) `{World W} (clock : W -> time.Time) : Prop := {
  call_returns : forall A (c : WorldCall A) w, exists a w', world c w = (Ret a, w') /\ clock w <= clock w';
  now_returns : forall w t w', world Now_ w = (Ret t, w') -> clock w <= t <= clock w';
  sleep_returns : forall w d w', world (Sleep d) w = (Ret tt, w') -> clock w + d <= clock w' }.

Section timely.
Context {W : Type} `{TimelyWorld W}.
Lemma returns_world {A} (c : WorldCall A) : returns (world c).
Proof. intros w. destruct (call_returns A c w) as (a & w' & -> & _). done. Qed.
#[local] Hint Resolve returns_world : go.

(** Before the try [k] the waits have taken [2^k - 1] seconds. *)
Lemma request_loop_returns m k url reqID apiKey start w : (m + k = 10)%nat -> (0 < m)%nat ->
  start + (2 ^ Z.of_nat k - 1) * time.Second <= clock w ->
  definite (request_loop m (Z.of_nat k) (start + timeout) url reqID apiKey w).1.
Proof.
  revert k w. induction m as [|m IH]; intros k w Hk Hm Hclock; [lia|]. cbn [request_loop]. unfold bind at 1.
  destruct (call_returns _ Now_ w) as (now & w1 & Hnow & Hle1). rewrite Hnow. apply now_returns in Hnow. unfold time.Before.
  destruct (Z.ltb_spec now (start + timeout)) as [Hbefore|Hafter]; [|done]. cbn [negb]. unfold bind at 1.
  destruct (call_returns _ (OpsGenieRequestStatus url reqID apiKey) w1) as (status & w2 & Hstatus & Hle2). rewrite Hstatus.
  destruct status as [[] text|message]; [done..|]. case_decide; [|done]. unfold bind at 1.
  destruct (call_returns _ (Sleep (i64_wrap (Z.shiftl time.Second (Z.of_nat k)))) w2) as ([] & w3 & Hsleep & _). rewrite Hsleep. apply sleep_returns in Hsleep.
  assert (Hk9 : (k < 9)%nat).
  { destruct (decide (k < 9)%nat) as [?|Hge]; [done|]. assert (k = 9%nat) as -> by lia. exfalso. revert Hclock Hnow Hbefore. unfold timeout, time.Minute.
    change (2 ^ Z.of_nat 9 - 1) with 511. unfold time.Second. lia. }
  assert (Hpow : 2 ^ Z.of_nat (Datatypes.S k) = 2 * 2 ^ Z.of_nat k) by (rewrite Nat2Z.inj_succ, Z.pow_succ_r by lia; done).
  assert (Hshift : i64_wrap (Z.shiftl time.Second (Z.of_nat k)) = time.Second * 2 ^ Z.of_nat k).
  { rewrite Z.shiftl_mul_pow2 by lia. assert (2 ^ Z.of_nat k <= 2 ^ 9) by (apply Z.pow_le_mono_r; lia).
    assert (0 < 2 ^ Z.of_nat k) by (apply Z.pow_pos_nonneg; lia). apply i64_wrap_small. unfold time.Second. lia. }
  rewrite Hshift in Hsleep. replace (Z.of_nat k + 1) with (Z.of_nat (Datatypes.S k)) by lia. apply IH; [lia|lia|]. rewrite Hpow. lia.
Qed.
Lemma requestSuccess_returns url reqID apiKey : returns (requestSuccess 10 url reqID apiKey).
Proof.
  intros w. unfold requestSuccess. unfold bind at 1. destruct (call_returns _ Now_ w) as (now & w1 & Hnow & Hle). rewrite Hnow.
  apply now_returns in Hnow. apply (request_loop_returns 10 0); [done|lia|cbn; lia].
Qed.
#[local] Hint Resolve requestSuccess_returns : go.

Variable parse_mail_uri : string -> option MailURI.
Variable MarkdownBasic : string -> string.
Variable float_text : string -> option string.
Variable decodes_result : string -> bool.
Variable decodes_alert : RawMessage -> bool.
Variable decodes_entry : RawMessage -> bool.
Variables (emailURI emailFrom emailReplyTo slackFrom stackdriverLogID opsgenieURL opsgenieEUURL : string).

Lemma returns_address_string addr : returns (address_string (W := W) addr).
Proof. apply returns_or_else. Qed.
Lemma returns_deref {S E A} (a : A) : returns (deref (S := S) (E := E) (Some a)).
Proof. apply returns_ret. Qed.
Lemma useNewNotifSchema_text n : useNewNotifSchema n = true -> exists text, ev_Text (nt_Event n) = Some text.
Proof. unfold useNewNotifSchema. destruct (ev_Text (nt_Event n)); [by eexists|done]. Qed.
(** A message made from the text of the event, which is only asked for when the event has one. *)
Lemma returns_schema {S E A} (m m' : M S E A) n : ((exists text, ev_Text (nt_Event n) = Some text) -> returns m) -> returns m' ->
  returns (if useNewNotifSchema n then m else m').
Proof. intros Hm Hm'. destruct (useNewNotifSchema n) eqn:Hn; [by apply Hm, useNewNotifSchema_text|done]. Qed.
#[local] Hint Resolve returns_address_string returns_deref : go.

Lemma Email_returns addr n i : returns (EmailSender_Send parse_mail_uri MarkdownBasic emailURI emailFrom emailReplyTo addr n i).
Proof.
  unfold EmailSender_Send. apply returns_bind; [returning|intros]. apply returns_bind.
  - apply returns_schema; [|returning]. intros [text Htext]. unfold generateEmailMessage. rewrite Htext. returning.
  - intros m. unfold parseAndSend, send_fail. returning.
Qed.
Lemma Slack_returns addr n i : returns (SlackSender_Send float_text slackFrom addr n i).
Proof.
  unfold SlackSender_Send. apply returns_bind; [returning|intros]. apply returns_bind.
  - apply returns_schema; [|returning]. intros [text Htext]. unfold generateSlackMessage. rewrite Htext. returning.
  - intros m. unfold send_fail. returning.
Qed.
Lemma PagerDuty_returns addr n i : returns (PagerDutySender_Send decodes_result addr n i).
Proof. unfold PagerDutySender_Send, send_fail. returning. Qed.
Lemma OpsGenie_returns url addr n i : returns (OpsGenieSender_Send decodes_alert 10 url addr n i).
Proof. unfold OpsGenieSender_Send, send_fail. returning. Qed.
Lemma Browser_returns addr n i : returns (BrowserSender_Send addr n i).
Proof. unfold BrowserSender_Send, send_fail. returning. Qed.
Lemma Stackdriver_returns addr n i : returns (StackdriverSender_Send decodes_entry stackdriverLogID addr n i).
Proof.
  unfold StackdriverSender_Send. apply returns_bind; [unfold getClientByServiceFile, sd_world; returning|intros]. apply returns_bind.
  - apply returns_schema; [|returning]. intros [text Htext]. unfold generateStackDriverMessage. rewrite Htext. returning.
  - intros m. unfold sd_world. returning.
Qed.

(** Each of the senders that the program registers returns, whatever the notification holds: none dereferences the text of an event
    that has none, and the requests to OpsGenie, which wait twice as long after each try, are given up when five minutes have
    passed. *)
Abbreviation program := (registered parse_mail_uri MarkdownBasic float_text decodes_result decodes_alert decodes_entry emailURI emailFrom emailReplyTo
  slackFrom stackdriverLogID opsgenieURL opsgenieEUURL).
Lemma registered_handlers_return : handlers_return (program 10).
Proof.
  intros rtype h addr n inst w. unfold registered, RegisterNotifier. rewrite !lookup_insert_Some, lookup_empty.
  assert (Hreturns : forall m : M (StackdriverSender W) senderr unit, returns m -> exists o w', m w = (o, w') /\ definite o).
  { intros m Hm. destruct (m w) as [o w'] eqn:E. exists o, w'. split; [done|]. specialize (Hm w). by rewrite E in Hm. }
  pose proof PagerDuty_returns. pose proof OpsGenie_returns. pose proof Stackdriver_returns. pose proof Browser_returns. pose proof Slack_returns.
  pose proof Email_returns. intros Hh. apply Hreturns. unfold stateless in Hh. intuition (subst; auto with go); done.
Qed.

(** C29: the sender stops when its context is cancelled: with the senders that the program registers, if the call for a message after
    [k] others finds the context cancelled, then [k + 1] rounds of the loop, and ten tries for each request to OpsGenie, are enough
    for [Run] to return without an error, whatever messages it received before and whatever failed. *)
Theorem sender_stops decode_notification k s : sq_received s (sq_receives s + k) = ReceiveCanceled ->
  exists s', Run (program 10) decode_notification (Datatypes.S k) s = (Ret tt, s').
Proof. apply Run_until_cancelled, registered_handlers_return. Qed.
End timely.

(** * What is rendered is what is read *)

Section read_back.
Import json.
Lemma EmailMessage_back m raw : json.Marshal (EmailMessage_json m) = Some raw -> json.Marshal (Raw raw) = Some raw /\ decode_EmailMessage raw = Some m.
Proof.
  intros Hm. split; [by apply (Marshal_compact (EmailMessage_json m))|]. unfold decode_EmailMessage. rewrite (Parse_Marshal (EmailMessage_json m) raw eq_refl Hm).
  by destruct m.
Qed.
(** A field is the member that has its name. *)
Lemma field_eq {A} (dec : Decoder A) name k v ms zero :
  field dec name ((k, v) :: ms) zero = if EqualFold k name then (a ← dec zero v; field dec name ms a) else field dec name ms zero.
Proof.
  unfold field. cbn [foldl mbind option_bind fst snd]. destruct (EqualFold k name); [|done]. destruct (dec zero v); [done|]. by induction ms.
Qed.
Ltac read_fields := rewrite !field_eq;
  repeat match goal with |- context [EqualFold ?a ?b] => let r := eval vm_compute in (EqualFold a b) in change (EqualFold a b) with r end; cbv iota;
  cbn [string_ mbind option_bind].
Lemma OpsGenieMessage_back m raw : json.Marshal (OpsGenieMessage_json m) = Some raw -> json.Marshal (Raw raw) = Some raw /\ decode_OpsGenieMessage raw = Some m.
Proof.
  intros Hm. assert (Hplain : plain (OpsGenieMessage_json m) = true).
  { unfold OpsGenieMessage_json. cbn [plain forallb snd andb]. by rewrite !plain_of_slice, plain_of_map. }
  split; [by apply (Marshal_compact (OpsGenieMessage_json m))|]. unfold decode_OpsGenieMessage. rewrite (Parse_Marshal _ _ Hplain Hm).
  unfold OpsGenieMessage_json. cbn [members_of mbind option_bind]. read_fields.
  rewrite !slice_of_slice, map_of_map by done. by destruct m.
Qed.
End read_back.

Section alerts.
Context `{GoRange} {S : Type} (Now : M S merror time.Time).
Variable EmbedHTML : string -> string -> string -> gmap string EmailValue -> string.
Variable executeTempl : string -> TemplateData -> option string.
Variable sha256_hex : string -> string.
Abbreviation build := (NotifyRender.BuildCortexEvent Now EmbedHTML executeTempl sha256_hex).

(** The e-mail and the OpsGenie message that an alert is to be told with. *)
Definition email_of (wa : WebhookAlert) (text : string) (timestamp : time.Time) (instanceName : string) : EmailMessage :=
  mkEmailMessage (instanceName +:+ " - " +:+ MonitorType) (EmbedHTML "email.html" "wrapper.html" alertTitle
    {["Timestamp" := EmailText (RFC822 timestamp); "Text" := EmailHTML text; "WeaveCloudURL" := EmailLinks (wa_WeaveCloudURL wa);
      "SettingsURL" := EmailText (wa_SettingsURL wa); "AlertsConfigURL" := EmailText (wa_AlertsConfigURL wa)]}).
Definition opsgenie_of (wa : WebhookAlert) (instanceName : string) : OpsGenieMessage :=
  mkOpsGenieMessage (title wa) (alias sha256_hex (wa_GroupKey wa) instanceName) (wa_Status wa) (alertText wa formatHTML) []
    [instanceName; MonitorType] (labels instanceName MonitorType) "Weave Cloud Monitor" "Weave Cloud" EmptyString EmptyString EmptyString.

Lemma bind_Ret_inv {A B} (m : M S merror A) (k : A -> M S merror B) s b s' : bind m k s = (Ret b, s') ->
  exists a s1, m s = (Ret a, s1) /\ k a s1 = (Ret b, s').
Proof. unfold bind. destruct (m s) as [[] s1]; try done. eauto. Qed.
Lemma Marshal_Ret v s raw s' : NotifyRender.Marshal v s = ((Ret raw : outcome merror _), s' : S) -> json.Marshal v = Some raw.
Proof. unfold NotifyRender.Marshal. by destruct (json.Marshal v) as [r|]; [intros [= ->]|]. Qed.

(** The messages of the event of an alert. *)
Lemma build_messages wa instanceID instanceName notifLink configLink link linkText s e s' :
  build wa MonitorType instanceID instanceName notifLink configLink link linkText s = (Ret e, s') ->
  let wa := set_links notifLink configLink {[linkText := link]} wa in
  ev_Text e = None /\ ev_Type e = MonitorType /\
  (exists text timestamp, executeTempl "alertEmailContentTmpl" (TemplateAlert wa) = Some text /\
     json.Marshal (EmailMessage_json (email_of wa text timestamp instanceName)) = Some (NotifyRender.get (Messages e) EmailReceiver)) /\
  json.Marshal (OpsGenieMessage_json (opsgenie_of wa instanceName)) = Some (NotifyRender.get (Messages e) OpsGenieReceiver) /\
  NotifyRender.get (Messages e) OpsGenieEUReceiver = NotifyRender.get (Messages e) OpsGenieReceiver.
Proof.
  unfold NotifyRender.BuildCortexEvent. destruct (decide (wa_Alerts wa = [])); [done|]. cbv zeta. set (wa' := set_links _ _ _ wa).
  intros (email & s1 & Hemail & Hrest)%bind_Ret_inv. do 3 apply bind_Ret_inv in Hrest as (? & ? & _ & Hrest).
  apply bind_Ret_inv in Hrest as (ops & s2 & Hops & Hrest). do 3 apply bind_Ret_inv in Hrest as (? & ? & _ & Hrest).
  injection Hrest as <- <-. cbn [ev_Text ev_Type Messages]. split; [done|]. split; [done|].
  rewrite decide_True in Hops by done. apply Marshal_Ret in Hops. unfold NotifyRender.EmailFromAlert in Hemail.
  apply bind_Ret_inv in Hemail as (text & s3 & Htext & Hemail). apply bind_Ret_inv in Hemail as (timestamp & s4 & _ & Hemail%Marshal_Ret).
  split; [|split; [exact Hops|done]]. exists text, timestamp. split; [|exact Hemail].
  unfold emailBody, or_else in Htext. clear - Htext. destruct (executeTempl _ (TemplateAlert wa')) as [t|]; [|discriminate].
  unfold ret in Htext. congruence.
Qed.
End alerts.

Section told.
Context `{GoRange} {S : Type} (Now : M S merror time.Time) {W : Type} `{World W}.
Variable EmbedHTML : string -> string -> string -> gmap string EmailValue -> string.
Variable executeTempl : string -> TemplateData -> option string.
Variable sha256_hex : string -> string.
Variable parse_mail_uri : string -> option MailURI.
Variable MarkdownBasic : string -> string.

Lemma string_address s raw : json.Marshal (json.Str s) = Some raw -> json.Marshal (json.Raw raw) = Some raw /\ unmarshal_string raw = Some s.
Proof.
  intros Hs. split; [by apply (json.Marshal_compact (json.Str s))|]. unfold unmarshal_string. by rewrite (json.Parse_Marshal (json.Str s) raw eq_refl Hs).
Qed.
(** A notification is in the queue as it was made, when its address and data are compact JSON. *)
Lemma in_queue n n' : notificationToString n = Some n' -> json.Marshal (json.Raw (nt_Address n)) = Some (nt_Address n) ->
  json.Marshal (json.Raw (nt_Data n)) = Some (nt_Data n) ->
  nt_Address n' = nt_Address n /\ nt_Data n' = nt_Data n /\ nt_InstanceID n' = nt_InstanceID n /\ ev_Text (nt_Event n') = ev_Text (nt_Event n).
Proof.
  unfold notificationToString, raw_json. intros Hn Haddr Hdata. rewrite Haddr, Hdata in Hn. cbn [mbind option_bind] in Hn.
  apply bind_Some in Hn as (? & _ & Hn). apply bind_Some in Hn as (? & _ & Hn). by injection Hn as <-.
Qed.

Variable decodes_alert : RawMessage -> bool.

(** What the sender does with the answer to a request to OpsGenie. *)
Definition await_opsgenie (fuel : nat) (url key : string) (requested : string + string) : M W senderr unit :=
  match requested with inl err => send_fail err | inr reqID => requestSuccess fuel url reqID key end.

(** C25: what an alert says reaches whoever it is for: when the event manager renders the notification of an alert, an e-mail
    notification that went through the queue makes the e-mail sender send the subject and the body that were rendered, to the
    addresses of the receiver, with the links to the settings; and an OpsGenie notification that did makes the OpsGenie sender
    create, with the message that was rendered, an alert under an alias that only depends on the group of the alert and on the name of the
    instance, or, for an alert that is resolved, close the one under that alias (under another, if the instance was renamed in between). *)
Theorem alert_told wa instanceID instanceName notifLink configLink link linkText s e s' addresses address uri from replyto instance n n' :
  NotifyRender.BuildCortexEvent Now EmbedHTML executeTempl sha256_hex wa MonitorType instanceID instanceName notifLink configLink link linkText s = (Ret e, s') ->
  json.Marshal (json.Str addresses) = Some address -> uri <> EmptyString ->
  nt_Event n = e -> nt_Address n = address -> notificationToString n = Some n' ->
  let shown := set_links notifLink configLink {[linkText := link]} wa in
  (nt_Data n = NotifyRender.get (Messages e) EmailReceiver -> exists text timestamp, executeTempl "alertEmailContentTmpl" (TemplateAlert shown) = Some text /\
     let m := email_of EmbedHTML shown text timestamp instanceName in
     forall w, EmailSender_Send parse_mail_uri MarkdownBasic uri from replyto (nt_Address n') n' instance w
       = parseAndSend parse_mail_uri uri from replyto (strings.Split addresses ","%char) (Subject m) (Body m) w) /\
  (nt_Data n = NotifyRender.get (Messages e) OpsGenieReceiver -> let incident := sha256_hex (instanceName +:+ wa_GroupKey wa) in
     (exists m, decode_OpsGenieMessage (nt_Data n') = Some m /\ m = opsgenie_of sha256_hex shown instanceName /\ Alias m = incident) /\
     forall fuel url w, OpsGenieSender_Send decodes_alert fuel url (nt_Address n') n' instance w
       = (if decide (wa_Status wa = "resolved")
          then do requested <- world (OpsGenieClose url incident addresses); await_opsgenie fuel url addresses requested
          else if decodes_alert (nt_Data n')
          then do requested <- world (OpsGenieCreate url (nt_Data n') addresses); await_opsgenie fuel url addresses requested
          else send_fail "cannot unmarshal OpsGenie data") w).
Proof.
  intros Hbuild Haddress Huri <- <- Hqueue. destruct (build_messages _ _ _ _ _ _ _ _ _ _ _ _ _ _ Hbuild) as (Htext & _ & (text & timestamp & Htempl & Hmail) & Hops & _).
  destruct (string_address _ _ Haddress) as [Haddr Hun]. cbv zeta. split; intros Hdata.
  - exists text, timestamp. split; [exact Htempl|]. cbv zeta. intros w. apply EmailMessage_back in Hmail as [Hcompact Hback]. rewrite <- Hdata in Hcompact, Hback.
    destruct (in_queue n n' Hqueue Haddr Hcompact) as (Ha & Hd & _ & Ht). unfold EmailSender_Send, address_string, useNewNotifSchema.
    rewrite Ha, Hun, Ht, Htext, Hd, Hback. unfold bind, or_else, ret. by rewrite decide_False.
  - apply OpsGenieMessage_back in Hops as [Hcompact Hback]. rewrite <- Hdata in Hcompact, Hback.
    destruct (in_queue n n' Hqueue Haddr Hcompact) as (Ha & Hd & _). rewrite Ha, Hd. split; [by eexists|]. intros fuel url w.
    unfold OpsGenieSender_Send, address_string. rewrite Hun, Hd, Hback. unfold bind, or_else, ret. cbn [og_Status Alias opsgenie_of].
    change (wa_Status (set_links _ _ _ wa)) with (wa_Status wa). destruct (decide _); [done|]. by destruct (decodes_alert _).
Qed.
End told.

(** * A world that takes whatever it is given *)

Module sample_world.
(** The clock is all there is. *)
#[export] Instance quiet : World time.Time := fun A c =>
  match c in WorldCall A return M time.Time senderr A with
  | DialAndSend _ _ _ _ _ _ _ _ _ => ret None
  | PostSlack _ _ => ret (inr (200, "ok"))
  | PostPagerDuty _ => ret (inr (202, "{}"))
  | OpsGenieClose _ _ _ | OpsGenieCreate _ _ _ => ret (inr "request")
  | OpsGenieRequestStatus _ _ _ => ret (StatusError "Response Code: 404")
  | NewLoggingClient _ _ => ret None
  | LogSync _ _ _ => ret None
  | Publish _ _ => ret None
  | Now_ => fun t => (Ret t, t)
  | Sleep d => fun t => (Ret tt, t + Z.max 0 d)
  end.
#[export] Instance quiet_timely : TimelyWorld time.Time id.
Proof.
  split; unfold id.
  - intros A c w. destruct c; by eexists _, _; split; [reflexivity|lia].
  - intros w t w' [= <- <-]. lia.
  - intros w d w' [= <-]. lia.
Qed.
(** OpsGenie never knows of the request: the sender gives up at the tenth try. *)
Lemma gives_up : requestSuccess 10 "url" "request" "key" 0 = (Err (SendError "opsGenie request status is not ready"), 511 * time.Second).
Proof. vm_compute. reflexivity. Qed.

Definition sample_mail (uri : string) : option MailURI := Some (mkMailURI "smtp" "25" "mail" None).
Definition sample_handlers : gmap string (NotifyHandler (S := StackdriverSender time.Time)) :=
  registered sample_mail id (fun s => Some s) (fun _ => true) (fun _ => true) (fun _ => true) "smtp://mail" "from" "replyto" "Weave Cloud" "WeaveCloud" "us" "eu" 10.
(** A queue with an e-mail notification, which is received once before the context is cancelled. *)
Definition sample_notification : Notification :=
  mkNotification EmailReceiver "i1" (json.q "'a@weave.works'") (json.q "{'subject':'s','body':'b'}") zero_event.
Definition sample_sender : SenderState (StackdriverSender time.Time) :=
  mkSenderState (mkStackdriver 0 ∅) {[1%nat := BodyOf sample_notification]} (fun k => if (k =? 0)%nat then ReceivedMessage 1 else ReceiveCanceled) 0 (fun _ => false) 0.
Lemma sample_delivered : exists s', Run sample_handlers (fun _ => None) 2 sample_sender = (Ret tt, s') /\ sq_messages s' !! 1%nat = None.
Proof. eexists. split; [vm_compute; reflexivity|]. vm_compute. reflexivity. Qed.

Lemma queue_keeps_unsettled_witness : sq_messages sample_sender !! 1%nat = Some (BodyOf sample_notification) /\
  sq_messages (Run sample_handlers (fun _ => None) 2 sample_sender).2 ⊆ sq_messages sample_sender /\
  (sq_messages (Run sample_handlers (fun _ => None) 2 sample_sender).2 !! 1%nat = Some (BodyOf sample_notification) \/
   sq_messages (Run sample_handlers (fun _ => None) 2 sample_sender).2 !! 1%nat = None /\
   exists n, stringToNotification (fun _ => None) (BodyOf sample_notification) = Some n /\ settled sample_handlers n).
Proof.
  split; [reflexivity|]. destruct (queue_keeps_unsettled sample_handlers (fun _ => None) 2 sample_sender) as [Hsub Hall].
  split; [exact Hsub|]. apply (Hall 1%nat (BodyOf sample_notification)). reflexivity.
Defined.
Lemma sender_stops_witness : sq_received sample_sender 1 = ReceiveCanceled /\
  exists s', Run sample_handlers (fun _ => None) 2 sample_sender = (Ret tt, s').
Proof.
  split; [reflexivity|]. apply (@sender_stops time.Time quiet id quiet_timely sample_mail id (fun s => Some s) (fun _ => true) (fun _ => true) (fun _ => true)
    "smtp://mail" "from" "replyto" "Weave Cloud" "WeaveCloud" "us" "eu" (fun _ => None) 1 sample_sender). reflexivity.
Defined.

(** An alert that is rendered with trivial templates. *)
Definition sample_alert : WebhookAlert := mkWebhookAlert "4" "group" "resolved" "receiver" ∅ ∅ ∅ EmptyString
  [mkAlert "resolved" {["alertname" := "Down"]} ∅ 1 2 EmptyString] EmptyString EmptyString ∅.
Definition sample_html (_ _ _ : string) (_ : gmap string EmailValue) : string := "<html>".
Definition sample_build := @NotifyRender.BuildCortexEvent list_range unit (ret 5) sample_html (fun _ _ => Some "text") id sample_alert MonitorType "i1" "Instance" "n" "c" "l" "t" tt.
Definition sample_event : Event := match sample_build with (Ret e, _) => e | _ => zero_event end.
Definition sample_email : Notification :=
  mkNotification EmailReceiver "i1" (json.q "'a@weave.works'") (NotifyRender.get (Messages sample_event) EmailReceiver) sample_event.
Definition sample_queued : Notification := default sample_email (notificationToString sample_email).

Definition sample_ops : Notification :=
  mkNotification OpsGenieReceiver "i1" (json.q "'a@weave.works'") (NotifyRender.get (Messages sample_event) OpsGenieReceiver) sample_event.
Definition sample_ops_queued : Notification := default sample_ops (notificationToString sample_ops).

Lemma alert_told_witness :
  (exists text timestamp,
    let wa := set_links "n" "c" {["t" := "l"]} sample_alert in
    let m := email_of sample_html wa text timestamp "Instance" in
    forall w, EmailSender_Send sample_mail id "smtp://mail" "from" "replyto" (nt_Address sample_queued) sample_queued "i1" w
      = parseAndSend sample_mail "smtp://mail" "from" "replyto" (strings.Split "a@weave.works" ","%char) (Subject m) (Body m) w) /\
  forall w, OpsGenieSender_Send (fun _ => true) 10 "eu" (nt_Address sample_ops_queued) sample_ops_queued "i1" w
    = bind (world (OpsGenieClose "eu" "Instancegroup" "a@weave.works")) (await_opsgenie 10 "eu" "a@weave.works") w.
Proof.
  pose proof (fun n n' => @alert_told list_range unit (ret 5) time.Time quiet sample_html (fun _ _ => Some "text") id sample_mail id (fun _ => true) sample_alert "i1"
    "Instance" "n" "c" "l" "t" tt sample_event tt "a@weave.works" (json.q "'a@weave.works'") "smtp://mail" "from" "replyto" "i1" n n') as Htold.
  split.
  - destruct (Htold sample_email sample_queued) as [Hmail _]; [vm_compute; reflexivity|vm_compute; reflexivity|discriminate|reflexivity|reflexivity|vm_compute; reflexivity|].
    destruct (Hmail eq_refl) as (text & timestamp & _ & Hsend). exists text, timestamp. exact Hsend.
  - destruct (Htold sample_ops sample_ops_queued) as [_ Hops]; [vm_compute; reflexivity|vm_compute; reflexivity|discriminate|reflexivity|reflexivity|vm_compute; reflexivity|].
    destruct (Hops eq_refl) as [_ Hsend]. exact (Hsend 10%nat "eu").
Defined.
End sample_world.
