(* ===== verification/Postgres.v ===== *)
(** The PostgreSQL users database (users/db/postgres): the tables with their constraints, connections and
    transactions, and the conditions the list filters become in a query. The statements and the methods are in
    [PostgresDB]. *)
From Stdlib Require Import ZArith Lia Ascii String.
From stdpp Require Import base tactics option gmap strings list pretty.
From S2P Require Import Prelude GoStd Users Filter MemDB.

Module postgres.

(** Sets one field of a record, given its eta-expansion. *)
Ltac set_column eta proj v r :=
  let e := eval cbv beta delta [eta] in (eta r) in
  match eval pattern proj in e with
  | ?g _ => let t := eval cbv beta in (g v) in exact t
  end.

(** * Tables (db/migrations)

    A row is kept under its primary key, which is a sequence number as text. Columns that every statement
    sets are not options although some of them may be null. *)

Record UserRow : Type := mkUserRow {
  users_email : string;
  users_company : string;
  users_name : string;
  users_token : option string;
  users_token_created_at : option time.Time;
  users_approved_at : option time.Time;
  users_created_at : time.Time;
  users_admin : bool;
  users_first_login_at : option time.Time;
  users_last_login_at : option time.Time;
  users_first_name : string;
  users_last_name : string;
  users_deleted_at : option time.Time }.

Record LoginRow : Type := mkLoginRow {
  logins_user_id : string;
  logins_provider : string;
  logins_provider_id : string;
  logins_session : option string;
  logins_created_at : time.Time;
  logins_deleted_at : option time.Time }.

Record OrgRow : Type := mkOrgRow {
  organizations_external_id : string;
  organizations_name : string;
  organizations_probe_token : string;
  organizations_created_at : time.Time;
  organizations_deleted_at : option time.Time;
  organizations_deleted_by : option string;
  organizations_feature_flags : list string;
  organizations_refuse_data_access : bool;
  organizations_refuse_data_upload : bool;
  organizations_refuse_data_reason : option string;
  organizations_first_seen_connected_at : option time.Time;
  organizations_platform : option string;
  organizations_environment : option string;
  organizations_zuora_account_number : option string;
  organizations_zuora_account_created_at : option time.Time;
  organizations_trial_expires_at : time.Time;
  organizations_trial_pending_expiry_notified_at : option time.Time;
  organizations_trial_expired_notified_at : option time.Time;
  organizations_gcp_account_id : option string;
  organizations_team_id : string;
  organizations_cleanup : bool;
  organizations_first_seen_flux_connected_at : option time.Time;
  organizations_first_seen_net_connected_at : option time.Time;
  organizations_first_seen_prom_connected_at : option time.Time;
  organizations_first_seen_scope_connected_at : option time.Time;
  organizations_last_sent_weekly_report_at : option time.Time;
  organizations_platform_version : string }.

Record GCPRow : Type := mkGCPRow {
  gcp_accounts_external_account_id : string;
  gcp_accounts_activated : bool;
  gcp_accounts_created_at : time.Time;
  gcp_accounts_consumer_id : option string;
  gcp_accounts_subscription_name : option string;
  gcp_accounts_subscription_level : option string;
  gcp_accounts_subscription_status : option string }.

Record TeamRow : Type := mkTeamRow {
  teams_external_id : string;
  teams_name : string;
  teams_zuora_account_number : option string;
  teams_zuora_account_created_at : option time.Time;
  teams_trial_expires_at : time.Time;
  teams_trial_pending_expiry_notified_at : option time.Time;
  teams_trial_expired_notified_at : option time.Time;
  teams_created_at : time.Time;
  teams_deleted_at : option time.Time }.

Record MembershipRow : Type := mkMembershipRow {
  team_memberships_user_id : string;
  team_memberships_team_id : string;
  team_memberships_role_id : string;
  team_memberships_deleted_at : option time.Time }.

Record WebhookRow : Type := mkWebhookRow {
  webhooks_organization_id : string;
  webhooks_integration_type : string;
  webhooks_secret_id : string;
  webhooks_secret_signing_key : string;
  webhooks_created_at : time.Time;
  webhooks_deleted_at : option time.Time;
  webhooks_first_seen_at : option time.Time }.

(** A role or a permission. *)
Record NamedRow : Type := mkNamedRow {
  row_name : string;
  row_description : string;
  row_created_at : time.Time;
  row_deleted_at : option time.Time }.
Record RolePermissionRow : Type := mkRolePermissionRow {
  roles_permissions_role_id : string;
  roles_permissions_permission_id : string;
  roles_permissions_deleted_at : option time.Time }.

Record Tables : Type := mkTables {
  users : gmap string UserRow;
  logins : gmap string LoginRow;
  organizations : gmap string OrgRow;
  gcp_accounts : gmap string GCPRow;
  teams : gmap string TeamRow;
  team_memberships : gmap string MembershipRow;
  webhooks : gmap string WebhookRow;
  roles : gmap string NamedRow;
  permissions : gmap string NamedRow;
  roles_permissions : gmap string RolePermissionRow }.

Definition eta_tables (t : Tables) : Tables :=
  mkTables (users t) (logins t) (organizations t) (gcp_accounts t) (teams t) (team_memberships t) (webhooks t)
    (roles t) (permissions t) (roles_permissions t).
Definition set_users (v : gmap string UserRow) (t : Tables) : Tables := ltac:(set_column eta_tables (users t) v t).
Definition set_logins (v : gmap string LoginRow) (t : Tables) : Tables := ltac:(set_column eta_tables (logins t) v t).
Definition set_organizations (v : gmap string OrgRow) (t : Tables) : Tables := ltac:(set_column eta_tables (organizations t) v t).
Definition set_gcp_accounts (v : gmap string GCPRow) (t : Tables) : Tables := ltac:(set_column eta_tables (gcp_accounts t) v t).
Definition set_teams (v : gmap string TeamRow) (t : Tables) : Tables := ltac:(set_column eta_tables (teams t) v t).
Definition set_team_memberships (v : gmap string MembershipRow) (t : Tables) : Tables := ltac:(set_column eta_tables (team_memberships t) v t).
Definition set_webhooks (v : gmap string WebhookRow) (t : Tables) : Tables := ltac:(set_column eta_tables (webhooks t) v t).

Definition is_null {A} (v : option A) : bool := match v with None => true | Some _ => false end.

(** * Constraints

    Unique indexes over the rows for which the key is given, and foreign keys. *)

Definition keys {R K} (key : R -> option K) (m : gmap string R) : list K := omap (fun kv => key kv.2) (map_to_list m).
Definition unique_index {R K} `{EqDecision K} (key : R -> option K) (m : gmap string R) : bool := bool_decide (NoDup (keys key m)).
Definition foreign_key {R T} (column : R -> string) (m : gmap string R) (target : gmap string T) : bool :=
  forallb (fun kv => bool_decide (is_Some (target !! column kv.2))) (map_to_list m).

Definition when_live {R K} (deleted_at : R -> option time.Time) (key : R -> K) (r : R) : option K :=
  if is_null (deleted_at r) then Some (key r) else None.
Definition subscription_name_key (r : GCPRow) : option string :=
  match gcp_accounts_subscription_name r with Some n => if decide (n = EmptyString) then None else Some n | None => None end.

(** The error of a violated constraint carries its name. *)
Definition duplicate_key (index : string) : error := PqError "23505" ("duplicate key value violates unique constraint " +:+ index).
Definition no_such_key (constraint : string) : error := PqError "23503" ("insert or update violates foreign key constraint " +:+ constraint).

Definition constraints (t : Tables) : list (error * bool) := [
  (duplicate_key "users_lower_email_idx", unique_index (when_live users_deleted_at (fun r => strings.ToLower (users_email r))) (users t));
  (duplicate_key "logins_provider_provider_id_idx",
    unique_index (when_live logins_deleted_at (fun r => (logins_provider r, logins_provider_id r))) (logins t));
  (duplicate_key "organizations_lower_external_id_idx",
    unique_index (when_live organizations_deleted_at (fun r => strings.ToLower (organizations_external_id r))) (organizations t));
  (duplicate_key "organizations_probe_token_idx", unique_index (when_live organizations_deleted_at organizations_probe_token) (organizations t));
  (duplicate_key "gcp_subscriptions_account_id_idx", unique_index (fun r => Some (gcp_accounts_external_account_id r)) (gcp_accounts t));
  (duplicate_key "gcp_accounts_subscription_name_idx", unique_index subscription_name_key (gcp_accounts t));
  (duplicate_key "teams_lower_external_id", unique_index (fun r => Some (strings.ToLower (teams_external_id r))) (teams t));
  (duplicate_key "team_memberships_user_id_team_id_idx",
    unique_index (when_live team_memberships_deleted_at (fun r => (team_memberships_user_id r, team_memberships_team_id r))) (team_memberships t));
  (duplicate_key "webhooks_organization_id_type_secret_id",
    unique_index (when_live webhooks_deleted_at (fun r => (webhooks_organization_id r, webhooks_integration_type r, webhooks_secret_id r))) (webhooks t));
  (no_such_key "organizations_team_id_fkey", foreign_key organizations_team_id (organizations t) (teams t));
  (no_such_key "team_memberships_user_id_fkey", foreign_key team_memberships_user_id (team_memberships t) (users t));
  (no_such_key "team_memberships_team_id_fkey", foreign_key team_memberships_team_id (team_memberships t) (teams t));
  (no_such_key "team_memberships_role_id_fkey", foreign_key team_memberships_role_id (team_memberships t) (roles t));
  (no_such_key "webhooks_organization_id_fkey", foreign_key webhooks_organization_id (webhooks t) (organizations t)) ].
Definition violated (t : Tables) : option error := fst <$> List.find (fun c => negb c.2) (constraints t).

(** * The server and its connections *)

(** A transaction: the time [now()] gives in it, the tables it sees once it has written, and whether a statement
    of it has failed. *)
Record Txn : Type := mkTxn { started : time.Time; view : option Tables; aborted : bool }.

(** The committed tables, the open transactions, each on a connection of its own, the sequences of the primary keys,
    what becomes of the next statements (later ones succeed), the clock of the server, what Go code reads from its
    surroundings, and of the pool ([New]): how many connections it may open, any number unless that is positive, and
    how many of them other calls hold on to. *)
Record Server : Type := mkServer {
  committed : Tables;
  txns : list Txn;
  sequences : gmap string Z;
  faults : list (option error);
  server_clock : nat -> time.Time;
  asked : nat;
  env : Env;
  max_open_conns : Z;
  others : nat }.
Definition eta_server (s : Server) : Server :=
  mkServer (committed s) (txns s) (sequences s) (faults s) (server_clock s) (asked s) (env s) (max_open_conns s) (others s).
Definition set_committed (v : Tables) (s : Server) : Server := ltac:(set_column eta_server (committed s) v s).
Definition set_txns (v : list Txn) (s : Server) : Server := ltac:(set_column eta_server (txns s) v s).
Definition set_sequences (v : gmap string Z) (s : Server) : Server := ltac:(set_column eta_server (sequences s) v s).
Definition set_faults (v : list (option error)) (s : Server) : Server := ltac:(set_column eta_server (faults s) v s).
Definition set_asked (v : nat) (s : Server) : Server := ltac:(set_column eta_server (asked s) v s).
Definition set_env (v : Env) (s : Server) : Server := ltac:(set_column eta_server (env s) v s).

Definition Op : Type -> Type := M Server error.

(** [dbProxy]: the pool of connections, or a transaction. *)
Inductive DB : Type := SqlDB | SqlTx (k : nat).
#[export] Instance DB_dec : EqDecision DB.
Proof. solve_decision. Defined.

Definition ErrNoRows : error := ErrMsg "sql: no rows in result set".
Definition ErrTxDone : error := ErrMsg "sql: transaction has already been committed or rolled back".
Definition ErrInFailedTransaction : error := ErrMsg "pq: Could not complete operation in a failed transaction".
Definition in_failed_transaction : error := PqError "25P02" "current transaction is aborted, commands ignored until end of transaction block".

Definition set_txn (k : nat) (f : Txn -> Txn) (s : Server) : Server := set_txns (alter f k (txns s)) s.
Definition abort (d : DB) (s : Server) : Server :=
  match d with SqlDB => s | SqlTx k => set_txn k (fun x => mkTxn (started x) (view x) true) s end.
Definition wrote (x : Txn) : bool := negb (is_null (view x)).
(** The transaction of another connection has written. *)
Definition blocked (d : DB) (s : Server) : bool :=
  match d with SqlDB => existsb wrote (txns s) | SqlTx k => existsb wrote (delete k (txns s)) end.

(** Every statement may fail instead, for instance because the connection broke. *)
Definition tick (d : DB) : Op unit := fun s =>
  match faults s with
  | [] => (Ret tt, s)
  | None :: rest => (Ret tt, set_faults rest s)
  | Some e :: rest => (Err e, abort d (set_faults rest s))
  end.

(** A statement outside a transaction, and the start of one, wait for a connection of the pool: for ever (the context
    of the call does not end) when those that other calls do not hold are all of transactions of this goroutine. *)
Definition full (s : Server) : bool :=
  (0 <? max_open_conns s) && (max_open_conns s <=? Z.of_nat (others s + length (txns s))).
Definition acquire (d : DB) : Op unit := fun s =>
  match d with SqlDB => if full s then (Deadlock, s) else (Ret tt, s) | SqlTx _ => (Ret tt, s) end.
Definition send (d : DB) : Op unit := acquire d ;;; tick d.

(** The tables a connection sees. *)
Definition sees (d : DB) (s : Server) : error + Tables :=
  match d with
  | SqlDB => inr (committed s)
  | SqlTx k =>
      match txns s !! k with
      | None => inl ErrTxDone
      | Some x => if aborted x then inl in_failed_transaction else inr (default (committed s) (view x))
      end
  end.
(** [now()]: in a transaction the time it began at. *)
Definition server_now : Op time.Time := fun s => (Ret (server_clock s (asked s)), set_asked (S (asked s)) s).
Definition now_in (d : DB) : Op time.Time :=
  match d with SqlDB => server_now | SqlTx k => gets (fun s => default 0 (started <$> txns s !! k)) end.
Definition keep (d : DB) (t : Tables) (s : Server) : Server :=
  match d with SqlDB => set_committed t s | SqlTx k => set_txn k (fun x => mkTxn (started x) (Some t) (aborted x)) s end.

(** A query: the rows, or the error the server reports. *)
Definition query {A} (d : DB) (f : Tables -> error + A) : Op A :=
  send d ;;; fun s =>
  match sees d s with
  | inl e => (Err e, s)
  | inr t => match f t with inl e => (Err e, abort d s) | inr a => (Ret a, s) end
  end.
Definition select {A} (d : DB) (f : Tables -> A) : Op A := query d (fun t => inr (f t)).

(** A statement that writes. It waits for the transactions of other connections that have written, which is for
    ever when they are of the same goroutine: any of them, whatever its rows. *)
Definition Statement (A : Type) : Type := time.Time -> Tables -> error + A * Tables.
Definition checked {A} (r : error + A * Tables) : error + A * Tables :=
  match r with
  | inl e => inl e
  | inr (a, t) => match violated t with Some e => inl e | None => inr (a, t) end
  end.
Definition execute {A} (d : DB) (f : Statement A) : Op A := do now <- now_in d; fun s =>
  match sees d s with
  | inl e => (Err e, s)
  | inr t =>
      if blocked d s then (Deadlock, s)
      else match checked (f now t) with inl e => (Err e, abort d s) | inr (a, t') => (Ret a, keep d t' s) end
  end.
Definition exec {A} (d : DB) (f : Statement A) : Op A := send d ;;; execute d f.
(** An insertion takes the next number of the sequence, which it does not give back. *)
Definition nextval (sequence : string) : Op string := fun s =>
  let n := default 1 (sequences s !! sequence) in (Ret (pretty n), set_sequences (<[sequence := n + 1]> (sequences s)) s).
Definition insert {A} (d : DB) (sequence : string) (f : string -> Statement A) : Op A :=
  send d ;;; do id <- nextval sequence; execute d (f id).

(** [Transaction]: begin, run, and commit or roll back; a transaction inside a transaction is the same one. *)
Definition begin : Op nat := do now <- server_now; fun s =>
  (Ret (length (txns s)), set_txns (txns s ++ [mkTxn now None false]) s).
Definition close (k : nat) (s : Server) : Server := set_txns (take k (txns s)) s.
Definition commit (k : nat) : Op unit := fun s =>
  match txns s !! k with
  | None => (Err ErrTxDone, s)
  | Some x => if aborted x then (Err ErrInFailedTransaction, close k s)
              else (Ret tt, close k (match view x with Some t => set_committed t s | None => s end))
  end.
Definition Transaction {A} (d : DB) (f : DB -> Op A) : Op A :=
  match d with
  | SqlTx _ => f d
  | SqlDB =>
      send SqlDB ;;;
      do k <- begin;
      do r <- try (f (SqlTx k));
      match r with
      | inl err => modify (close k) ;;; throw err
      | inr a =>
          do committing <- try (tick SqlDB);
          match committing with
          | inl err => modify (close k) ;;; throw err
          | inr _ => commit k ;;; ret a
          end
      end
  end.

(** * Queries and updates of one table *)

Section tables.
Context `{GoRange}.

(** The rows a condition holds for; the order in which a query gives them is by the time they were created, the
    newest first. *)
Definition rows {R} (P : string -> R -> bool) (m : gmap string R) : list (string * R) :=
  List.filter (fun kv => P kv.1 kv.2) (go_range m).
Definition newest_first {R} (created_at : R -> time.Time) : list (string * R) -> list (string * R) :=
  sort.ByDescending (fun kv => created_at kv.2).
Definition oldest_first {R} (created_at : R -> time.Time) : list (string * R) -> list (string * R) :=
  sort.ByDescending (fun kv => - created_at kv.2).
(** [QueryRow]: the first row. *)
Definition QueryRow {A} (d : DB) (f : Tables -> list A) : Op A := do l <- select d f; or_else (hd_error l) ErrNoRows.

Definition update_rows {R} (P : string -> R -> bool) (f : R -> R) (m : gmap string R) : gmap string R :=
  map_imap (fun id r => Some (if P id r then f r else r)) m.
Definition affected {R} (P : string -> R -> bool) (m : gmap string R) : Z := Z.of_nat (length (rows P m)).

End tables.

(** * Conditions of the list filters

    A condition is evaluated in the logic of SQL, where what is compared with null is unknown. *)

Definition and3 (a b : option bool) : option bool :=
  match a, b with
  | Some false, _ | _, Some false => Some false
  | Some true, Some true => Some true
  | _, _ => None
  end.
Definition or3 (a b : option bool) : option bool :=
  match a, b with
  | Some true, _ | _, Some true => Some true
  | Some false, Some false => Some false
  | _, _ => None
  end.

Inductive value : Type :=
  | VBool (v : option bool)
  | VText (v : option string)
  | VTexts (v : list string)
  | VTime (v : option time.Time).
Definition null_value (v : value) : bool :=
  match v with VBool v => is_null v | VText v => is_null v | VTexts _ => false | VTime v => is_null v end.

(** [LIKE]: a percent sign matches any text, an underscore any character, and a backslash takes the next
    character as it is. *)
Fixpoint like (pattern s : string) : bool :=
  match pattern with
  | EmptyString => bool_decide (s = EmptyString)
  | String c pattern' =>
      if Ascii.eqb c "%"%char then
        (fix any s := like pattern' s || match s with EmptyString => false | String _ s' => any s' end) s
      else if Ascii.eqb c "\"%char then
        match pattern', s with
        | String c' pattern'', String a s' => Ascii.eqb c' a && like pattern'' s'
        | _, _ => false
        end
      else match s with
           | EmptyString => false
           | String a s' => (Ascii.eqb c "_"%char || Ascii.eqb c a) && like pattern' s'
           end
  end.

Section conditions.
(** What a column of the type timestamp with time zone keeps of an instant. *)
Variable timestamptz : time.Time -> time.Time.
(** The columns of the row, by their names in the condition. *)
Variable column : string -> option value.

Inductive relation : Type := Equal | Differs | Less | LessOrEqual | Greater.
Definition related (r : relation) (c : comparison) : bool :=
  match r, c with
  | Equal, Eq | LessOrEqual, Eq | Differs, Lt | Differs, Gt | Less, Lt | LessOrEqual, Lt | Greater, Gt => true
  | _, _ => false
  end.
(** Only what the filters compare: instants by order, texts and booleans for equality. *)
Definition compare_equal (r : relation) (b : bool) : option bool :=
  match r with Equal => Some b | Differs => Some (negb b) | _ => None end.
Definition compared (r : relation) (v : value) (a : filter.arg) : option (option bool) :=
  match v, a with
  | VTime v, filter.ATime t => Some (v ≫= fun x => Some (related r (x ?= timestamptz t)))
  | VText v, filter.AString s => Some (v ≫= fun x => compare_equal r (bool_decide (x = s)))
  | VBool v, filter.ABool b => Some (v ≫= fun x => compare_equal r (Bool.eqb x b))
  | _, _ => None
  end.
Definition listed (v : value) (l : list string) : option (option bool) :=
  match v with VText v => Some (foldr or3 (Some false) ((fun s => v ≫= fun x => Some (bool_decide (x = s))) <$> l)) | _ => None end.

(** What a text stands for where it is put between others: the values of the operands of its outermost [OR]s; the
    empty text has none. [AND] binds stronger, so that it takes the operands next to it. *)
Definition text : Type := list (option bool).
Fixpoint and_text (a b : text) : text :=
  match a with
  | [] => b
  | [x] => match b with [] => [x] | y :: b' => and3 x y :: b' end
  | x :: a' => x :: and_text a' b
  end.
Definition or_text : text -> text -> text := app.
Definition value_of (t : text) : option bool := foldr or3 (Some false) t.
Definition parens (t : text) : text := match t with [] => [] | _ => [value_of t] end.

Definition compare_with (r : relation) (col : string) (a : filter.arg) : option text :=
  v ← column col;
  match a with
  | filter.ANil => match r with Equal => Some [Some (null_value v)] | Differs => Some [Some (negb (null_value v))] | _ => None end
  | filter.AStrings l => match r with Equal => x ← listed v l; Some [x] | _ => None end
  | _ => x ← compared r v a; Some [x]
  end.
Definition like_lower_column (col : string) (lower : bool) (a : filter.arg) : option text :=
  v ← column col;
  match v, a with
  | VText v, filter.AString pattern => Some [v ≫= fun x => Some (like pattern (if lower then strings.ToLower x else x))]
  | _, _ => None
  end.
Definition element_of (a : filter.arg) (col : string) : option text :=
  v ← column col;
  match v, a with VTexts l, filter.AString s => Some [Some (bool_decide (s ∈ l))] | _, _ => None end.

(** The texts the filters give to [squirrel.Expr]; another one is not known to the server. *)
Definition expression (sql : string) (args : list filter.arg) : option text :=
  match args with
  | [] => if decide (sql = "organizations.zuora_account_number IS NOT NULL")
          then compare_with Differs "organizations.zuora_account_number" filter.ANil else None
  | [a] =>
      if decide (sql = "gcp_accounts.activated AND gcp_accounts.subscription_status = ?") then
        x ← compare_with Equal "gcp_accounts.activated" (filter.ABool true);
        y ← compare_with Equal "gcp_accounts.subscription_status" a; Some (and_text x y)
      else if decide (sql = "gcp_accounts.activated = false OR gcp_accounts.subscription_status <> ?") then
        x ← compare_with Equal "gcp_accounts.activated" (filter.ABool false);
        y ← compare_with Differs "gcp_accounts.subscription_status" a; Some (or_text x y)
      else if decide (sql = "?=ANY(organizations.feature_flags)") then element_of a "organizations.feature_flags"
      else if decide (sql = "lower(organizations.name) LIKE ?") then like_lower_column "organizations.name" true a
      else if decide (sql = "organizations.probe_token = ?") then compare_with Equal "organizations.probe_token" a
      else if decide (sql = "organizations.platform_version LIKE ?") then like_lower_column "organizations.platform_version" false a
      else if decide (sql = "lower(users.email) LIKE ?") then like_lower_column "users.email" true a
      else if decide (sql = "lower(teams.name) LIKE ?") then like_lower_column "teams.name" true a
      else None
  | _ => None
  end.

(** [ToSql]: parentheses around the elements of a conjunction or a disjunction together, not around each; an
    element with the empty text is left out. *)
Fixpoint ToSql (q : filter.Sqlizer) : option text :=
  let fix all (l : list filter.Sqlizer) : option (list text) :=
    match l with [] => Some [] | q :: l' => x ← ToSql q; xs ← all l'; Some (x :: xs) end in
  match q with
  | filter.SqlAnd l => xs ← all l; Some (parens (foldr and_text [] xs))
  | filter.SqlOr l => xs ← all l; Some (parens (foldr or_text [] xs))
  | filter.SqlEq col a => compare_with Equal col a
  | filter.SqlNotEq col a => compare_with Differs col a
  | filter.SqlLt col a => compare_with Less col a
  | filter.SqlLtOrEq col a => compare_with LessOrEqual col a
  | filter.SqlGt col a => compare_with Greater col a
  | filter.SqlExpr sql args => expression sql args
  end.

(** The parts of a [WHERE] clause are put after each other; a query without a condition selects every row. *)
Definition holds (t : text) : bool := match t with [] => true | _ => bool_decide (value_of t = Some true) end.

End conditions.

End postgres.
