(* ===== verification/PostgresDB.v ===== *)
(** The methods of the PostgreSQL users database (users/db/postgres: user.go, organization.go, team.go, webhook.go,
    role.go, permission.go): the statement each of them sends, and the implementation of the interface they make. *)
From Stdlib Require Import ZArith Lia Ascii String.
From stdpp Require Import base tactics option gmap strings list pretty.
From S2P Require Import Prelude GoStd Users Filter MemDB MemTeam MemOrg MemUser UsersDB Postgres.

Module postgres.
Export Postgres.postgres.

Section db.
Context `{GoRange} (fuel : nat).
(** [bcrypt.GenerateFromPassword], and the cost it is given. *)
Variable bcrypt_generate : string -> Z -> error + string.
Variable PasswordHashingCost : Z.
(** What a column of the type timestamp with time zone keeps of an instant, and one of the type jsonb of a text. *)
Variable timestamptz : time.Time -> time.Time.
Variable jsonb : string -> option string.
(** What an order that a client gives makes of rows. *)
Variable order_by : forall {R}, string -> list (string * R) -> list (string * R).

(** * What Go code reads from its surroundings *)

Definition read_env {A} (f : Env -> nat -> A) : Op A := fun s =>
  (Ret (f (env s) (ticks (env s))), set_env (MemDB.tick (env s)) s).
Definition externalids_Generate : Op string := read_env gen_id.
Definition tokens_Generate : Op string :=
  do t <- read_env gen_token;
  or_else t (ErrMsg "crypto/rand: read error").
(** [Now]: to the microsecond. *)
Definition time_Now : Op time.Time := read_env clock.
Definition Now : Op time.Time := do now <- time_Now; ret (time.Truncate now 1000).

Definition no_rows_as (e : error) {A} (m : Op A) : Op A :=
  do r <- try m;
  match r with inr a => ret a | inl err => throw (if decide (err = ErrNoRows) then e else err) end.

(** * Updates and insertions *)

Definition stamp (t : option time.Time) : option time.Time := timestamptz <$> t.
Definition live {R} (deleted_at : R -> option time.Time) (r : R) : bool := is_null (deleted_at r).
Definition eqs (a b : string) : bool := bool_decide (a = b).

Definition update_users (P : string -> UserRow -> bool) (f : UserRow -> UserRow) : Statement Z := fun _ t =>
  inr (affected P (users t), set_users (update_rows P f (users t)) t).
Definition update_logins (P : string -> LoginRow -> bool) (f : LoginRow -> LoginRow) : Statement unit := fun _ t =>
  inr (tt, set_logins (update_rows P f (logins t)) t).
Definition update_organizations (P : string -> OrgRow -> bool) (f : OrgRow -> OrgRow) : Statement Z := fun _ t =>
  inr (affected P (organizations t), set_organizations (update_rows P f (organizations t)) t).
Definition update_gcp_accounts (P : string -> GCPRow -> bool) (f : GCPRow -> GCPRow) : Statement unit := fun _ t =>
  inr (tt, set_gcp_accounts (update_rows P f (gcp_accounts t)) t).
Definition update_teams (P : string -> TeamRow -> bool) (f : time.Time -> TeamRow -> TeamRow) : Statement unit := fun now t =>
  inr (tt, set_teams (update_rows P (f now) (teams t)) t).
Definition update_team_memberships (P : string -> MembershipRow -> bool) (f : time.Time -> MembershipRow -> MembershipRow) : Statement unit := fun now t =>
  inr (tt, set_team_memberships (update_rows P (f now) (team_memberships t)) t).
Definition update_webhooks (P : string -> WebhookRow -> bool) (f : WebhookRow -> WebhookRow) : Statement (list (string * WebhookRow)) := fun _ t =>
  inr ((fun kv => (kv.1, f kv.2)) <$> rows P (webhooks t), set_webhooks (update_rows P f (webhooks t)) t).

(** A row under a new key. *)
Definition insert_row {R} (pkey : string) (get : Tables -> gmap string R) (set : gmap string R -> Tables -> Tables) (id : string) (r : R) (t : Tables) : error + Tables :=
  match get t !! id with
  | Some _ => inl (duplicate_key pkey)
  | None => inr (set (<[id := r]> (get t)) t)
  end.
Definition returning {A} (a : A) (r : error + Tables) : error + A * Tables := match r with inl e => inl e | inr t => inr (a, t) end.
Definition value_too_long : error := PqError "22001" "value too long for type character varying(100)".
Definition too_long (name : string) : bool := (100 <? String.length name)%nat.

(** * Users (user.go) *)

Definition set_users_profile (company name first_name last_name : option string) (r : UserRow) : UserRow :=
  mkUserRow (users_email r) (default (users_company r) company) (default (users_name r) name) (users_token r) (users_token_created_at r)
    (users_approved_at r) (users_created_at r) (users_admin r) (users_first_login_at r) (users_last_login_at r)
    (default (users_first_name r) first_name) (default (users_last_name r) last_name) (users_deleted_at r).
Definition set_users_token (token : string) (at_ : time.Time) (r : UserRow) : UserRow :=
  mkUserRow (users_email r) (users_company r) (users_name r) (Some token) (Some at_)
    (users_approved_at r) (users_created_at r) (users_admin r) (users_first_login_at r) (users_last_login_at r)
    (users_first_name r) (users_last_name r) (users_deleted_at r).
Definition set_users_admin (admin : bool) (r : UserRow) : UserRow :=
  mkUserRow (users_email r) (users_company r) (users_name r) (users_token r) (users_token_created_at r)
    (users_approved_at r) (users_created_at r) admin (users_first_login_at r) (users_last_login_at r)
    (users_first_name r) (users_last_name r) (users_deleted_at r).
Definition set_users_logins_at (first last : option time.Time) (r : UserRow) : UserRow :=
  mkUserRow (users_email r) (users_company r) (users_name r) (users_token r) (users_token_created_at r)
    (users_approved_at r) (users_created_at r) (users_admin r) first last
    (users_first_name r) (users_last_name r) (users_deleted_at r).
Definition set_users_deleted_at (at_ : time.Time) (r : UserRow) : UserRow :=
  mkUserRow (users_email r) (users_company r) (users_name r) (users_token r) (users_token_created_at r)
    (users_approved_at r) (users_created_at r) (users_admin r) (users_first_login_at r) (users_last_login_at r)
    (users_first_name r) (users_last_name r) (Some at_).

Definition null_string (s : option string) : string := default EmptyString s.
Definition null_time (t : option time.Time) : time.Time := default 0 t.

(** [scanUser], [usersQuery] *)
Definition scanUser (kv : string * UserRow) : User :=
  let '(id, r) := kv in
  mkUser id (users_email r) (null_string (users_token r)) (null_time (users_token_created_at r)) (null_time (users_first_login_at r))
    (users_created_at r) (users_admin r) (null_time (users_last_login_at r)) (users_company r) (users_name r) (users_first_name r) (users_last_name r).
Definition live_user (r : UserRow) : bool := live users_deleted_at r.
Definition usersQuery (P : string -> UserRow -> bool) (t : Tables) : list (string * UserRow) :=
  newest_first users_created_at (rows (fun id r => live_user r && P id r) (users t)).
(** The same with rows joined to it: a user comes once for each of them. *)
Definition usersQuery_join {B} (joined : string -> UserRow -> list B) (t : Tables) : list (string * UserRow * B) :=
  sort.ByDescending (fun x => users_created_at x.1.2)
    (flat_map (fun kv => (fun b => (kv, b)) <$> joined kv.1 kv.2) (rows (fun _ => live_user) (users t))).

Definition find_user (d : DB) (f : Tables -> list (string * UserRow)) : Op User :=
  no_rows_as ErrNotFound (do row <- QueryRow d f; ret (scanUser row)).
Definition FindUserByID (d : DB) (id : string) : Op User := find_user d (usersQuery (fun i _ => eqs i id)).
Definition FindUserByEmail (d : DB) (email : string) : Op User :=
  find_user d (usersQuery (fun _ r => eqs (strings.ToLower (users_email r)) (strings.ToLower email))).
Definition live_login (provider providerID : string) (r : LoginRow) : bool :=
  live logins_deleted_at r && eqs (logins_provider r) provider && eqs (logins_provider_id r) providerID.
Definition FindUserByLogin (d : DB) (provider providerID : string) : Op User :=
  find_user d (fun t => (usersQuery_join (fun id _ => rows (fun _ l => live_login provider providerID l && eqs (logins_user_id l) id) (logins t)) t).*1).

Definition insert_user (email : string) (u : User) (id : string) : Statement string := fun _ t =>
  returning id (insert_row "users_pkey" users set_users id
    (mkUserRow (strings.ToLower email) (u_Company u) (u_Name u) None None (Some (timestamptz (u_CreatedAt u))) (timestamptz (u_CreatedAt u)) false
       None None (u_FirstName u) (u_LastName u) None) t).
Definition new_user (id email : string) (now : time.Time) (details : option UserUpdate) : User :=
  let detail (f : UserUpdate -> string) := match details with Some x => f x | None => EmptyString end in
  mkUser id email EmptyString 0 0 now false 0 (detail uu_Company) (detail uu_Name) (detail uu_FirstName) (detail uu_LastName).
Definition CreateUser (d : DB) (email : string) (details : option UserUpdate) : Op User :=
  do now <- Now;
  let u := new_user EmptyString email now details in
  do id <- no_rows_as ErrNotFound (insert d "users_id_seq" (insert_user email u));
  ret (new_user id email now details).

Definition no_set_clause : error := ErrMsg "update statements must have at least one Set clause".
Definition given (s : string) : option string := if decide (s = EmptyString) then None else Some s.
Definition set_if_given (old new : string) : string := if decide (new = EmptyString) then old else new.
Definition UpdateUser (d : DB) (userID : string) (update : UserUpdate) : Op (option User) :=
  do user <- FindUserByID d userID;
  let user := mkUser (u_ID user) (u_Email user) (u_Token user) (u_TokenCreatedAt user) (u_FirstLoginAt user) (u_CreatedAt user) (u_Admin user)
    (u_LastLoginAt user) (set_if_given (u_Company user) (uu_Company update)) (set_if_given (u_Name user) (uu_Name update))
    (set_if_given (u_FirstName user) (uu_FirstName update)) (set_if_given (u_LastName user) (uu_LastName update)) in
  Transaction d (fun tx =>
    match given (uu_Company update), given (uu_Name update), given (uu_FirstName update), given (uu_LastName update) with
    | None, None, None, None => throw no_set_clause
    | company, name, first_name, last_name =>
        do _ <- exec tx (update_users (fun id _ => eqs id userID) (set_users_profile company name first_name last_name)); ret tt
    end) ;;;
  ret (Some user).

(** * Logins *)

Definition scanLogin (kv : string * LoginRow) : Login :=
  let r := kv.2 in mkLogin (logins_user_id r) (logins_provider r) (logins_provider_id r) (null_string (logins_session r)) (logins_created_at r).
Definition invalid_json : error := PqError "22P02" "invalid input syntax for type json".
(** The session, which is left as it is, or null, unless one is given. *)
Definition session_value (session : string) : error + option string :=
  if decide (session = EmptyString) then inr None
  else match jsonb session with Some s => inr (Some s) | None => inl invalid_json end.
Definition update_session (userID provider providerID session : string) : Statement unit := fun now t =>
  match session_value session with
  | inl e => inl e
  | inr s => update_logins (fun _ r => eqs (logins_user_id r) userID && eqs (logins_provider r) provider && eqs (logins_provider_id r) providerID)
      (fun r => mkLoginRow (logins_user_id r) (logins_provider r) (logins_provider_id r)
                  (match s with Some s => Some s | None => logins_session r end) (logins_created_at r) (logins_deleted_at r)) now t
  end.
Definition insert_login (userID provider providerID session : string) (now : time.Time) (id : string) : Statement unit := fun _ t =>
  match session_value session with
  | inl e => inl e
  | inr s => returning tt (insert_row "logins_pkey" logins set_logins id (mkLoginRow userID provider providerID s (timestamptz now) None) t)
  end.
Definition AddLoginToUser (d : DB) (userID provider providerID session : string) : Op unit :=
  do now <- Now;
  Transaction d (fun tx =>
    do existing <- try (FindUserByLogin tx provider providerID);
    match existing with
    | inr existing =>
        if decide (u_ID existing <> userID) then throw (AlreadyAttachedError (u_ID existing) (u_Email existing))
        else exec tx (update_session userID provider providerID session)
    | inl err =>
        if decide (err = ErrNotFound) then insert tx "logins_id_seq" (insert_login userID provider providerID session now)
        else throw err
    end).

Definition loginsQuery (P : LoginRow -> bool) (t : Tables) : list (string * LoginRow) :=
  sort.Sort (fun a b => String.ltb (logins_provider a.2) (logins_provider b.2)) (rows (fun _ r => P r && live logins_deleted_at r) (logins t)).
Definition GetLogin (d : DB) (provider providerID : string) : Op Login :=
  no_rows_as ErrNotFound (do row <- QueryRow d (loginsQuery (fun r => eqs (logins_provider r) provider && eqs (logins_provider_id r) providerID));
                          ret (scanLogin row)).
Definition ListLoginsForUserIDs (d : DB) (userIDs : list string) : Op (list Login) :=
  do l <- select d (loginsQuery (fun r => bool_decide (logins_user_id r ∈ userIDs))); ret (scanLogin <$> l).
Definition DetachLoginFromUser (d : DB) (userID provider : string) : Op unit :=
  do now <- Now;
  exec d (update_logins (fun _ r => eqs (logins_user_id r) userID && eqs (logins_provider r) provider && live logins_deleted_at r)
    (fun r => mkLoginRow (logins_user_id r) (logins_provider r) (logins_provider_id r) (logins_session r) (logins_created_at r) (Some (timestamptz now)))).

(** * Flags and times of users *)

Definition is_live_user (id : string) : string -> UserRow -> bool := fun i r => eqs i id && live_user r.
(** [result.RowsAffected()] has to be one. *)
Definition one_row (m : Op Z) : Op unit := do count <- m; if count =? 1 then ret tt else throw ErrNotFound.
Definition SetUserAdmin (d : DB) (id : string) (value : bool) : Op unit :=
  one_row (exec d (update_users (is_live_user id) (set_users_admin value))).
Definition SetUserToken (d : DB) (id token : string) : Op unit :=
  do hashed <- (if decide (token = EmptyString) then ret EmptyString
                else match bcrypt_generate token PasswordHashingCost with inl err => throw err | inr h => ret h end);
  do now <- Now;
  one_row (exec d (update_users (is_live_user id) (set_users_token hashed (timestamptz now)))).
(** The statement returns the time of the first login. *)
Definition update_last_login (id : string) (now : time.Time) : Statement (list (option time.Time)) := fun _ t =>
  inr ((fun kv => users_first_login_at kv.2) <$> rows (is_live_user id) (users t),
       set_users (update_rows (is_live_user id) (fun r => set_users_logins_at (users_first_login_at r) (Some (timestamptz now)) r) (users t)) t).
Definition SetUserLastLoginAt (d : DB) (id : string) : Op unit :=
  do now <- Now;
  Transaction d (fun tx =>
    do returned <- exec tx (update_last_login id now);
    do firstLoginAt <- or_else (hd_error returned) ErrNoRows;
    match firstLoginAt with
    | Some _ => ret tt
    | None => one_row (exec tx (update_users (fun i r => is_live_user id i r && is_null (users_first_login_at r))
                (fun r => set_users_logins_at (Some (timestamptz now)) (users_last_login_at r) r)))
    end).

(** * Lists with a filter *)

Definition column_of (l : list (string * value)) (name : string) : option value := snd <$> List.find (fun c => eqs c.1 name) l.
Definition undefined_column : error := PqError "42703" "column does not exist".
(** Names and types of columns are looked up whether or not there is a row. *)
Definition where_ {R} (columns : string * R -> list (string * value)) (zero : R) (first : string * R -> text) (f : filter.Filter)
    (l : list (string * R)) : error + list (string * R) :=
  match ToSql timestamptz (column_of (columns (EmptyString, zero))) (filter.Where f) with
  | None => inl undefined_column
  | Some _ => inr (List.filter (fun kv =>
      match ToSql timestamptz (column_of (columns kv)) (filter.Where f) with Some x => holds (and_text (first kv) x) | None => false end) l)
  end.
(** [Limit], [Offset] *)
Definition page_of {A} (page : Z) (l : list A) : list A :=
  if 0 <? page then take (Z.to_nat filter.ResultsPerPage) (drop (Z.to_nat ((page - 1) * filter.ResultsPerPage)) l) else l.
Definition map_rows {A B} (f : A -> B) (r : error + A) : error + B := match r with inl e => inl e | inr a => inr (f a) end.

Definition user_columns (kv : string * UserRow) : list (string * value) := [
  ("users.id", VText (Some kv.1)); ("users.email", VText (Some (users_email kv.2)));
  ("last_login_at", VTime (users_last_login_at kv.2)); ("users.admin", VBool (Some (users_admin kv.2))) ].
Definition zero_user_row : UserRow := mkUserRow EmptyString EmptyString EmptyString None None None 0 false None None EmptyString EmptyString None.
Definition ListUsers (d : DB) (f : filter.Filter) (page : Z) : Op (list User) :=
  do l <- query d (fun t => map_rows (page_of page ∘ newest_first users_created_at)
    (where_ user_columns zero_user_row (fun kv => [Some (live_user kv.2)]) f (go_range (users t))));
  ret (scanUser <$> l).

(** * Teams (team.go) *)

Definition scanTeam (kv : string * TeamRow) : Team :=
  let '(id, r) := kv in
  mkTeam id (teams_name r) (teams_external_id r) (null_string (teams_zuora_account_number r)) (teams_zuora_account_created_at r)
    (teams_trial_expires_at r) (teams_trial_pending_expiry_notified_at r) (teams_trial_expired_notified_at r) (teams_created_at r) None.
Definition live_team (r : TeamRow) : bool := live teams_deleted_at r.
Definition live_membership (r : MembershipRow) : bool := live team_memberships_deleted_at r.
(** [teamsQuery]; the condition that the team is not deleted is in [teamsQueryHelper], whatever is asked for. *)
Definition teamsQuery (P : string -> TeamRow -> bool) (t : Tables) : list (string * TeamRow) :=
  newest_first teams_created_at (rows (fun id r => live_team r && P id r) (teams t)).
Definition memberships (P : MembershipRow -> bool) (t : Tables) : list (string * MembershipRow) :=
  rows (fun _ m => live_membership m && P m) (team_memberships t).

Definition ListTeamsForUserID (d : DB) (userID : string) : Op (list Team) :=
  do l <- select d (fun t => sort.ByDescending (fun kv => teams_created_at kv.2)
    (flat_map (fun kv => (fun _ => kv) <$> memberships (fun m => eqs (team_memberships_team_id m) kv.1 && eqs (team_memberships_user_id m) userID) t)
      (rows (fun _ => live_team) (teams t))));
  ret (scanTeam <$> l).
Definition page_of_teams (page : Z) : list (string * TeamRow) -> list Team := fun l => scanTeam <$> page_of page l.
Definition ListTeams (d : DB) (page : Z) : Op (list Team) :=
  do l <- select d (teamsQuery (fun _ _ => true)); ret (page_of_teams page l).
Definition team_columns (kv : string * TeamRow) : list (string * value) := [
  ("teams.id", VText (Some kv.1)); ("teams.external_id", VText (Some (teams_external_id kv.2))); ("teams.name", VText (Some (teams_name kv.2))) ].
Definition zero_team_row : TeamRow := mkTeamRow EmptyString EmptyString None None 0 None None 0 None.
(** [OrderBy], where the empty order is the one by default. *)
Definition ordered {R} (created_at : R -> time.Time) (orderBy : string) : list (string * R) -> list (string * R) :=
  if decide (orderBy = EmptyString) then newest_first created_at else order_by orderBy.
Definition ListAllTeams (d : DB) (f : filter.Filter) (orderBy : string) (page : Z) : Op (list Team) :=
  do l <- query d (fun t => map_rows (ordered teams_created_at orderBy)
    (where_ team_columns zero_team_row (fun kv => [Some (live_team kv.2)]) f (go_range (teams t))));
  ret (page_of_teams page l).

(** The roles of members; the description is not read. *)
Definition live_role (r : NamedRow) : bool := live row_deleted_at r.
Definition ListTeamUsersWithRoles (d : DB) (teamID : string) : Op (list UserWithRole) :=
  do l <- select d (fun t => usersQuery_join (fun id _ =>
      flat_map (fun m => match roles t !! team_memberships_role_id m.2 with
                         | Some role => if live_role role then [(team_memberships_role_id m.2, role)] else []
                         | None => [] end)
        (memberships (fun m => eqs (team_memberships_user_id m) id && eqs (team_memberships_team_id m) teamID) t)) t);
  ret ((fun x => mkUserWithRole (scanUser x.1) (mkRole x.2.1 (row_name x.2.2) EmptyString)) <$> l).
Definition team_users (teamID : string) (t : Tables) : list (string * UserRow) :=
  (usersQuery_join (fun id _ => memberships (fun m => eqs (team_memberships_user_id m) id && eqs (team_memberships_team_id m) teamID) t) t).*1.
Definition ListTeamUsers (d : DB) (teamID : string) : Op (list User) :=
  do l <- select d (team_users teamID); ret (scanUser <$> l).
Definition ListTeamMemberships (d : DB) : Op (list TeamMembership) :=
  do l <- select d (memberships (fun _ => true));
  ret ((fun kv => mkTeamMembership (team_memberships_user_id kv.2) (team_memberships_team_id kv.2) (team_memberships_role_id kv.2)) <$> l).

Definition teamExternalIDUsed (d : DB) (externalID : string) : Op bool :=
  select d (fun t => negb (bool_decide (rows (fun _ r => eqs (teams_external_id r) (strings.ToLower externalID)) (teams t) = []))).
Fixpoint generate_team_loop (n : nat) (tx : DB) : Op string :=
  match n with
  | O => out_of_fuel
  | S n' =>
      do externalID <- externalids_Generate;
      do used <- teamExternalIDUsed tx externalID;
      if used : bool then generate_team_loop n' tx else ret externalID
  end.
Definition generateTeamExternalID (d : DB) : Op string := Transaction d (generate_team_loop fuel).

(** The time the team is created at is that of the server. *)
Definition team_name_check : error := PqError "23514" "new row for relation teams violates check constraint teams_name_check".
Definition insert_team (externalID name : string) (expires : time.Time) (id : string) : Statement (string * time.Time) := fun now t =>
  if too_long name then inl value_too_long
  else if eqs name EmptyString then inl team_name_check
  else returning (id, now) (insert_row "teams_pkey" teams set_teams id
    (mkTeamRow (strings.ToLower externalID) name None None (timestamptz expires) None None now None) t).
Definition CreateTeam (d : DB) (name : string) : Op Team :=
  if decide (name = EmptyString) then throw (ErrMsg "team name cannot be blank")
  else
    do now <- Now;
    let TrialExpiresAt := time.Add now TrialDuration in
    Transaction d (fun tx =>
      do externalID <- generateTeamExternalID tx;
      do ' (id, created) <- insert tx "teams_id_seq" (insert_team externalID name TrialExpiresAt);
      ret (mkTeam id EmptyString externalID EmptyString None TrialExpiresAt None None created None)).

Definition UserIsMemberOfTeam (d : DB) (userID teamID : string) : Op bool :=
  select d (fun t => negb (bool_decide (memberships (fun m => eqs (team_memberships_user_id m) userID && eqs (team_memberships_team_id m) teamID) t = []))).
Definition insert_membership (userID teamID roleID id : string) : Statement unit := fun _ t =>
  returning tt (insert_row "team_memberships_pkey" team_memberships set_team_memberships id (mkMembershipRow userID teamID roleID None) t).
Definition AddUserToTeam (d : DB) (userID teamID roleID : string) : Op unit :=
  do exists_ <- UserIsMemberOfTeam d userID teamID;
  if exists_ : bool then ret tt
  else
    do r <- try (insert d "team_memberships_id_seq" (insert_membership userID teamID roleID));
    match r with
    | inr _ => ret tt
    | inl err => if decide (err = duplicate_key "team_memberships_user_id_team_id_idx") then ret tt else throw err
    end.
Definition CreateTeamAsUser (d : DB) (name userID : string) : Op Team :=
  do team <- CreateTeam d name;
  AddUserToTeam d userID (t_ID team) AdminRoleID ;;;
  ret team.

Definition live_org (r : OrgRow) : bool := live organizations_deleted_at r.
Definition teamHasOrganizations (d : DB) (teamID : string) : Op bool :=
  select d (fun t => match teams t !! teamID with
    | Some team => live_team team && negb (bool_decide (rows (fun _ o => live_org o && eqs (organizations_team_id o) teamID) (organizations t) = []))
    | None => false end).
Definition delete_membership (now : time.Time) (m : MembershipRow) : MembershipRow :=
  mkMembershipRow (team_memberships_user_id m) (team_memberships_team_id m) (team_memberships_role_id m) (Some now).
Definition delete_team (now : time.Time) (r : TeamRow) : TeamRow :=
  mkTeamRow (teams_external_id r) (teams_name r) (teams_zuora_account_number r) (teams_zuora_account_created_at r) (teams_trial_expires_at r)
    (teams_trial_pending_expiry_notified_at r) (teams_trial_expired_notified_at r) (teams_created_at r) (Some now).
(** Memberships that were removed before are removed again. *)
Definition DeleteTeam (d : DB) (teamID : string) : Op unit :=
  do has <- teamHasOrganizations d teamID;
  if has : bool then throw ErrForbidden
  else
    exec d (update_team_memberships (fun _ m => eqs (team_memberships_team_id m) teamID) delete_membership) ;;;
    exec d (update_teams (fun id _ => eqs id teamID) delete_team).

Definition GetUserRoleInTeam (d : DB) (userID teamID : string) : Op Role :=
  no_rows_as ErrNotFound (
    do role <- QueryRow d (fun t => oldest_first row_created_at (flat_map (fun kv => (fun _ => kv) <$>
        memberships (fun m => eqs (team_memberships_role_id m) kv.1 && eqs (team_memberships_user_id m) userID && eqs (team_memberships_team_id m) teamID) t)
      (rows (fun _ => live_role) (roles t))));
    ret (mkRole role.1 (row_name role.2) (row_description role.2))).
Definition UpdateUserRoleInTeam (d : DB) (userID teamID roleID : string) : Op unit :=
  exec d (update_team_memberships
    (fun _ m => eqs (team_memberships_user_id m) userID && eqs (team_memberships_team_id m) teamID && live_membership m)
    (fun _ m => mkMembershipRow (team_memberships_user_id m) (team_memberships_team_id m) roleID (team_memberships_deleted_at m))).
Definition RemoveUserFromTeam (d : DB) (userID teamID : string) : Op unit :=
  exec d (update_team_memberships (fun _ m => eqs (team_memberships_user_id m) userID && eqs (team_memberships_team_id m) teamID) delete_membership).

Definition find_team (d : DB) (P : string -> TeamRow -> bool) : Op Team :=
  no_rows_as ErrNotFound (do row <- QueryRow d (teamsQuery P); ret (scanTeam row)).
Definition FindTeamByExternalID (d : DB) (externalID : string) : Op Team :=
  find_team d (fun _ r => eqs (strings.ToLower (teams_external_id r)) (strings.ToLower externalID)).
Definition FindTeamByInternalID (d : DB) (internalID : string) : Op Team := find_team d (fun id _ => eqs id internalID).

Definition getTeamUserIsPartOf (d : DB) (userID teamExternalID : string) : Op Team :=
  if decide (teamExternalID = EmptyString) then throw (ErrMsg "teamExternalID must be provided")
  else
    do teams <- ListTeamsForUserID d userID;
    or_else (List.find (fun team => eqs (t_ExternalID team) teamExternalID) teams) ErrNotFound.
Definition ensureUserIsPartOfTeamByName (d : DB) (userID teamName : string) : Op Team :=
  if decide (teamName = EmptyString) then throw (ErrMsg "teamName must be provided")
  else
    do teams <- ListTeamsForUserID d userID;
    match List.find (fun team => eqs (strings.ToLower (t_Name team)) (strings.ToLower teamName)) teams with
    | Some team => ret team
    | None => CreateTeamAsUser d teamName userID
    end.

(** [InviteUserToTeam] (user.go) *)
Definition InviteUserToTeam (d : DB) (email teamExternalID roleID : string) : Op (User * bool) :=
  Transaction d (fun tx =>
    do found <- try (FindUserByEmail tx email);
    do ' (u, userCreated) <- match found with
      | inr u => ret (u, false)
      | inl err => if decide (err = ErrNotFound) then do u <- CreateUser tx email None; ret (u, true) else throw err
      end;
    do team <- FindTeamByExternalID tx teamExternalID;
    AddUserToTeam tx (u_ID u) (t_ID team) roleID ;;;
    ret (u, userCreated)).

(** * Roles and permissions (role.go, permission.go) *)

Definition ListRoles (d : DB) : Op (list Role) :=
  do l <- select d (fun t => oldest_first row_created_at (rows (fun _ => live_role) (roles t)));
  ret ((fun kv => mkRole kv.1 (row_name kv.2) (row_description kv.2)) <$> l).
Definition ListPermissionsForRoleID (d : DB) (roleID : string) : Op (list Permission) :=
  do l <- select d (fun t => oldest_first row_created_at (flat_map (fun kv => (fun _ => kv) <$>
      rows (fun _ rp => eqs (roles_permissions_permission_id rp) kv.1 && live roles_permissions_deleted_at rp && eqs (roles_permissions_role_id rp) roleID)
        (roles_permissions t))
    (rows (fun _ p => live row_deleted_at p) (permissions t))));
  ret ((fun kv => mkPermission kv.1 (row_name kv.2) (row_description kv.2)) <$> l).

(** * Organizations (organization.go) *)

Definition org_gcp (t : Tables) (r : OrgRow) : option (string * GCPRow) :=
  id ← organizations_gcp_account_id r; g ← gcp_accounts t !! id; Some (id, g).
Definition org_team (t : Tables) (r : OrgRow) : option TeamRow :=
  team ← teams t !! organizations_team_id r; if live_team team then Some team else None.

(** [scanOrganization]: the row with its GCP account and its team; an account that is not there is an empty one. *)
Definition scanGCP (t : Tables) (id : string) : GoogleCloudPlatform :=
  match gcp_accounts t !! id with
  | Some g => mkGCP id (gcp_accounts_external_account_id g) (gcp_accounts_activated g) (gcp_accounts_created_at g)
                (null_string (gcp_accounts_consumer_id g)) (null_string (gcp_accounts_subscription_name g))
                (null_string (gcp_accounts_subscription_level g)) (null_string (gcp_accounts_subscription_status g))
  | None => mkGCP id EmptyString false 0 EmptyString EmptyString EmptyString EmptyString
  end.
Definition scanOrganization (t : Tables) (kv : string * OrgRow) : Organization :=
  let '(id, r) := kv in
  {| o_ID := id; o_ExternalID := organizations_external_id r; o_Name := organizations_name r; o_ProbeToken := organizations_probe_token r;
     o_CreatedAt := organizations_created_at r; o_FeatureFlags := organizations_feature_flags r;
     o_RefuseDataAccess := organizations_refuse_data_access r; o_RefuseDataUpload := organizations_refuse_data_upload r;
     o_FirstSeenConnectedAt := organizations_first_seen_connected_at r; o_Platform := null_string (organizations_platform r);
     o_Environment := null_string (organizations_environment r); o_TrialExpiresAt := organizations_trial_expires_at r;
     o_ZuoraAccountNumber := null_string (organizations_zuora_account_number r);
     o_ZuoraAccountCreatedAt := organizations_zuora_account_created_at r;
     o_TrialPendingExpiryNotifiedAt := organizations_trial_pending_expiry_notified_at r;
     o_TrialExpiredNotifiedAt := organizations_trial_expired_notified_at r;
     o_GCP := scanGCP t <$> organizations_gcp_account_id r;
     o_TeamID := organizations_team_id r; o_TeamExternalID := null_string (teams_external_id <$> org_team t r);
     o_DeletedAt := null_time (organizations_deleted_at r); o_Cleanup := false;
     o_FirstSeenFluxConnectedAt := organizations_first_seen_flux_connected_at r;
     o_FirstSeenNetConnectedAt := organizations_first_seen_net_connected_at r;
     o_FirstSeenPromConnectedAt := organizations_first_seen_prom_connected_at r;
     o_FirstSeenScopeConnectedAt := organizations_first_seen_scope_connected_at r;
     o_RefuseDataReason := null_string (organizations_refuse_data_reason r);
     o_LastSentWeeklyReportAt := organizations_last_sent_weekly_report_at r;
     o_PlatformVersion := organizations_platform_version r; o_DeletedBy := null_string (organizations_deleted_by r) |}.

(** [organizationsQuery], scanned *)
Definition organizations_where (P : string -> OrgRow -> bool) (t : Tables) : list (string * OrgRow) :=
  newest_first organizations_created_at (rows (fun id r => live_org r && P id r) (organizations t)).
Definition organizationsQuery (P : string -> OrgRow -> bool) (t : Tables) : list Organization :=
  scanOrganization t <$> organizations_where P t.

Definition org_columns (t : Tables) (kv : string * OrgRow) : list (string * value) :=
  let '(id, r) := kv in [
  ("organizations.id", VText (Some id)); ("organizations.external_id", VText (Some (organizations_external_id r)));
  ("organizations.name", VText (Some (organizations_name r))); ("organizations.probe_token", VText (Some (organizations_probe_token r)));
  ("organizations.feature_flags", VTexts (organizations_feature_flags r)); ("organizations.platform_version", VText (Some (organizations_platform_version r)));
  ("organizations.zuora_account_number", VText (organizations_zuora_account_number r));
  ("organizations.trial_expires_at", VTime (Some (organizations_trial_expires_at r)));
  ("organizations.last_sent_weekly_report_at", VTime (organizations_last_sent_weekly_report_at r));
  ("first_seen_prom_connected_at", VTime (organizations_first_seen_prom_connected_at r));
  ("gcp_account_id", VText (organizations_gcp_account_id r));
  ("gcp_accounts.activated", VBool (gcp_accounts_activated ∘ snd <$> org_gcp t r));
  ("gcp_accounts.subscription_status", VText (g ← org_gcp t r; gcp_accounts_subscription_status g.2));
  ("teams.id", VText ((fun _ => organizations_team_id r) <$> org_team t r)); ("teams.external_id", VText (teams_external_id <$> org_team t r));
  ("teams.name", VText (teams_name <$> org_team t r)) ].
Definition zero_org_row : OrgRow :=
  mkOrgRow EmptyString EmptyString EmptyString 0 None None [] false false None None None None None None 0 None None None EmptyString false
    None None None None None EmptyString.

Definition ListOrganizations (d : DB) (f : filter.Filter) (page : Z) : Op (list Organization) :=
  query d (fun t => map_rows (fun l => scanOrganization t <$> page_of page (newest_first organizations_created_at l))
    (where_ (org_columns t) zero_org_row (fun kv => [Some (live_org kv.2)]) f (go_range (organizations t)))).
Definition ListAllOrganizations (d : DB) (f : filter.Filter) (orderBy : string) (page : Z) : Op (list Organization) :=
  query d (fun t => map_rows (fun l => scanOrganization t <$> page_of page (ordered organizations_created_at orderBy l))
    (where_ (org_columns t) zero_org_row (fun _ => []) f (go_range (organizations t)))).
Definition ListOrganizationsInTeam (d : DB) (teamID : string) : Op (list Organization) :=
  select d (organizationsQuery (fun _ r => eqs (organizations_team_id r) teamID)).

(** An organization comes once for each membership of one of the users in its team. *)
Definition listOrganizationsForUserIDs (d : DB) (userIDs : list string) (includeDeletedOrgs : bool) (orderBy : string) : Op (list Organization) :=
  select d (fun t => scanOrganization t <$> ordered organizations_created_at orderBy
    (flat_map (fun kv => (fun _ => kv) <$>
        memberships (fun m => eqs (team_memberships_team_id m) (organizations_team_id kv.2) && bool_decide (team_memberships_user_id m ∈ userIDs)) t)
      (rows (fun _ r => includeDeletedOrgs || live_org r) (organizations t)))).
Definition ListOrganizationsForUserIDs (d : DB) (userIDs : list string) : Op (list Organization) :=
  listOrganizationsForUserIDs d userIDs false EmptyString.
Definition ListAllOrganizationsForUserIDs (d : DB) (orderBy : string) (userIDs : list string) : Op (list Organization) :=
  listOrganizationsForUserIDs d userIDs true orderBy.

Definition UserIsMemberOf (d : DB) (userID orgExternalID : string) : Op bool :=
  do l <- select d (fun t => flat_map (fun kv => memberships (fun m =>
      eqs (team_memberships_team_id m) (organizations_team_id kv.2) && eqs (team_memberships_user_id m) userID) t)
    (organizations_where (fun _ r => eqs (organizations_external_id r) orgExternalID) t));
  ret (negb (bool_decide (l = []))).
Definition ListOrganizationUsers (d : DB) (orgExternalID : string) (includeDeletedOrgs excludeNewUsers : bool) : Op (list User) :=
  do l <- select d (fun t => usersQuery_join (fun id u =>
      if excludeNewUsers && is_null (users_first_login_at u) then []
      else flat_map (fun m => rows (fun _ r => eqs (organizations_team_id r) (team_memberships_team_id m.2) && eqs (organizations_external_id r) orgExternalID
                                                 && (includeDeletedOrgs || live_org r)) (organizations t))
             (memberships (fun m => eqs (team_memberships_user_id m) id) t)) t);
  ret (scanUser <$> l.*1).
Definition FindUncleanedOrgIDs (d : DB) : Op (list string) :=
  do l <- select d (fun t => rows (fun _ r => negb (organizations_cleanup r) && (negb (live_org r) || organizations_refuse_data_upload r)) (organizations t));
  ret l.*1.

Definition find_organization (d : DB) (P : string -> OrgRow -> bool) : Op Organization := QueryRow d (organizationsQuery P).
Definition FindOrganizationByProbeToken (d : DB) (probeToken : string) : Op Organization :=
  no_rows_as ErrNotFound (find_organization d (fun _ r => eqs (organizations_probe_token r) probeToken)).
Definition FindOrganizationByID (d : DB) (externalID : string) : Op Organization :=
  no_rows_as ErrNotFound (find_organization d (fun _ r => eqs (organizations_external_id r) externalID)).
Definition FindOrganizationByInternalID (d : DB) (internalID : string) : Op Organization :=
  no_rows_as ErrNotFound (find_organization d (fun id _ => eqs id internalID)).
Definition FindGCP (d : DB) (externalAccountID : string) : Op GoogleCloudPlatform :=
  no_rows_as ErrNotFound (QueryRow d (fun t =>
    (fun kv => scanGCP t kv.1) <$> rows (fun _ g => eqs (gcp_accounts_external_account_id g) externalAccountID) (gcp_accounts t))).
(** An account that no live organization has is [sql.ErrNoRows]. *)
Definition FindOrganizationByGCPExternalAccountID (d : DB) (externalAccountID : string) : Op Organization :=
  do gcp <- FindGCP d externalAccountID;
  find_organization d (fun _ r => bool_decide (organizations_gcp_account_id r = Some (g_ID gcp))).

Definition has_external_id (externalID : string) (r : OrgRow) : bool := eqs (organizations_external_id r) (strings.ToLower externalID).
Definition exists_org (P : OrgRow -> bool) (t : Tables) : bool := negb (bool_decide (rows (fun _ => P) (organizations t) = [])).
Definition OrganizationExists (d : DB) (externalID : string) : Op bool :=
  select d (exists_org (fun r => has_external_id externalID r && live_org r)).
Definition ExternalIDUsed (d : DB) (externalID : string) : Op bool := select d (exists_org (has_external_id externalID)).
Definition GetOrganizationName (d : DB) (externalID : string) : Op string :=
  QueryRow d (fun t => (fun kv => organizations_name kv.2) <$> rows (fun _ r => has_external_id externalID r && live_org r) (organizations t)).

Fixpoint generate_organization_loop (n : nat) (tx : DB) : Op string :=
  match n with
  | O => out_of_fuel
  | S n' =>
      do externalID <- externalids_Generate;
      do used <- ExternalIDUsed tx externalID;
      if used : bool then generate_organization_loop n' tx else ret externalID
  end.
Definition GenerateOrganizationExternalID (d : DB) : Op string := Transaction d (generate_organization_loop fuel).

(** ** Updates of one column *)

Definition eta_org_row (r : OrgRow) : OrgRow :=
  mkOrgRow (organizations_external_id r) (organizations_name r) (organizations_probe_token r) (organizations_created_at r) (organizations_deleted_at r)
    (organizations_deleted_by r) (organizations_feature_flags r) (organizations_refuse_data_access r) (organizations_refuse_data_upload r)
    (organizations_refuse_data_reason r) (organizations_first_seen_connected_at r) (organizations_platform r) (organizations_environment r)
    (organizations_zuora_account_number r) (organizations_zuora_account_created_at r) (organizations_trial_expires_at r)
    (organizations_trial_pending_expiry_notified_at r) (organizations_trial_expired_notified_at r) (organizations_gcp_account_id r)
    (organizations_team_id r) (organizations_cleanup r) (organizations_first_seen_flux_connected_at r) (organizations_first_seen_net_connected_at r)
    (organizations_first_seen_prom_connected_at r) (organizations_first_seen_scope_connected_at r) (organizations_last_sent_weekly_report_at r)
    (organizations_platform_version r).
Definition set_name (v : string) (r : OrgRow) : OrgRow := ltac:(set_column eta_org_row (organizations_name r) v r).
Definition set_platform (v : string) (r : OrgRow) : OrgRow := ltac:(set_column eta_org_row (organizations_platform r) (Some v) r).
Definition set_environment (v : string) (r : OrgRow) : OrgRow := ltac:(set_column eta_org_row (organizations_environment r) (Some v) r).
Definition set_trial_expires_at (v : time.Time) (r : OrgRow) : OrgRow := ltac:(set_column eta_org_row (organizations_trial_expires_at r) v r).
Definition set_trial_pending (v : option time.Time) (r : OrgRow) : OrgRow := ltac:(set_column eta_org_row (organizations_trial_pending_expiry_notified_at r) v r).
Definition set_trial_expired (v : option time.Time) (r : OrgRow) : OrgRow := ltac:(set_column eta_org_row (organizations_trial_expired_notified_at r) v r).
Definition set_team_id (v : string) (r : OrgRow) : OrgRow := ltac:(set_column eta_org_row (organizations_team_id r) v r).
Definition set_deleted_at (v : option time.Time) (r : OrgRow) : OrgRow := ltac:(set_column eta_org_row (organizations_deleted_at r) v r).
Definition set_deleted_by (v : option string) (r : OrgRow) : OrgRow := ltac:(set_column eta_org_row (organizations_deleted_by r) v r).
Definition set_feature_flags (v : list string) (r : OrgRow) : OrgRow := ltac:(set_column eta_org_row (organizations_feature_flags r) v r).
Definition set_cleanup (v : bool) (r : OrgRow) : OrgRow := ltac:(set_column eta_org_row (organizations_cleanup r) v r).
Definition set_refuse_data_access (v : bool) (r : OrgRow) : OrgRow := ltac:(set_column eta_org_row (organizations_refuse_data_access r) v r).
Definition set_refuse_data_upload (v : bool) (r : OrgRow) : OrgRow := ltac:(set_column eta_org_row (organizations_refuse_data_upload r) v r).
Definition set_refuse_data_reason (v : string) (r : OrgRow) : OrgRow := ltac:(set_column eta_org_row (organizations_refuse_data_reason r) (Some v) r).
Definition set_first_seen (v : option time.Time) (r : OrgRow) : OrgRow := ltac:(set_column eta_org_row (organizations_first_seen_connected_at r) v r).
Definition set_first_seen_flux (v : option time.Time) (r : OrgRow) : OrgRow := ltac:(set_column eta_org_row (organizations_first_seen_flux_connected_at r) v r).
Definition set_first_seen_net (v : option time.Time) (r : OrgRow) : OrgRow := ltac:(set_column eta_org_row (organizations_first_seen_net_connected_at r) v r).
Definition set_first_seen_prom (v : option time.Time) (r : OrgRow) : OrgRow := ltac:(set_column eta_org_row (organizations_first_seen_prom_connected_at r) v r).
Definition set_first_seen_scope (v : option time.Time) (r : OrgRow) : OrgRow := ltac:(set_column eta_org_row (organizations_first_seen_scope_connected_at r) v r).
Definition set_zuora_number (v : string) (r : OrgRow) : OrgRow := ltac:(set_column eta_org_row (organizations_zuora_account_number r) (Some v) r).
Definition set_zuora_created_at (v : option time.Time) (r : OrgRow) : OrgRow := ltac:(set_column eta_org_row (organizations_zuora_account_created_at r) v r).
Definition set_platform_version (v : string) (r : OrgRow) : OrgRow := ltac:(set_column eta_org_row (organizations_platform_version r) v r).
Definition set_last_sent (v : option time.Time) (r : OrgRow) : OrgRow := ltac:(set_column eta_org_row (organizations_last_sent_weekly_report_at r) v r).
Definition set_gcp_account_id (v : option string) (r : OrgRow) : OrgRow := ltac:(set_column eta_org_row (organizations_gcp_account_id r) v r).

(** An update is no error when there is no such organization. *)
Definition update_org (d : DB) (P : string -> OrgRow -> bool) (f : OrgRow -> OrgRow) : Op unit :=
  do _ <- exec d (update_organizations P f); ret tt.
Definition is_live_org (externalID : string) : string -> OrgRow -> bool := fun _ r => has_external_id externalID r && live_org r.
Definition DeleteOrganization (d : DB) (externalID actingID : string) : Op unit :=
  do now <- Now;
  update_org d (is_live_org externalID) (fun r => set_deleted_by (Some actingID) (set_deleted_at (Some (timestamptz now)) r)).
Definition AddFeatureFlag (d : DB) (externalID featureFlag : string) : Op unit :=
  update_org d (fun _ => has_external_id externalID) (fun r => set_feature_flags (organizations_feature_flags r ++ [featureFlag]) r).
Definition SetFeatureFlags (d : DB) (externalID : string) (featureFlags : list string) : Op unit :=
  update_org d (fun _ => has_external_id externalID) (set_feature_flags featureFlags).
Definition SetOrganizationCleanup (d : DB) (internalID : string) (value : bool) : Op unit :=
  update_org d (fun id _ => eqs id (strings.ToLower internalID)) (set_cleanup value).
Definition SetOrganizationRefuseDataAccess (d : DB) (externalID : string) (value : bool) : Op unit :=
  update_org d (is_live_org externalID) (set_refuse_data_access value).
Definition SetOrganizationRefuseDataUpload (d : DB) (externalID : string) (value : bool) : Op unit :=
  update_org d (is_live_org externalID) (set_refuse_data_upload value).
Definition SetOrganizationRefuseDataReason (d : DB) (externalID reason : string) : Op unit :=
  update_org d (is_live_org externalID) (set_refuse_data_reason reason).
Definition SetOrganizationFirstSeenConnectedAt (d : DB) (externalID : string) (value : option time.Time) : Op unit :=
  update_org d (is_live_org externalID) (set_first_seen (stamp value)).
(** [setOrganizationAgentFirstSeenConnectedAt] *)
Definition SetOrganizationFirstSeenFluxConnectedAt (d : DB) (externalID : string) (value : option time.Time) : Op unit :=
  update_org d (is_live_org externalID) (set_first_seen_flux (stamp value)).
Definition SetOrganizationFirstSeenNetConnectedAt (d : DB) (externalID : string) (value : option time.Time) : Op unit :=
  update_org d (is_live_org externalID) (set_first_seen_net (stamp value)).
Definition SetOrganizationFirstSeenPromConnectedAt (d : DB) (externalID : string) (value : option time.Time) : Op unit :=
  update_org d (is_live_org externalID) (set_first_seen_prom (stamp value)).
Definition SetOrganizationFirstSeenScopeConnectedAt (d : DB) (externalID : string) (value : option time.Time) : Op unit :=
  update_org d (is_live_org externalID) (set_first_seen_scope (stamp value)).
Definition SetOrganizationZuoraAccount (d : DB) (externalID number : string) (createdAt : option time.Time) : Op unit :=
  update_org d (is_live_org externalID) (fun r => set_zuora_created_at (stamp createdAt) (set_zuora_number number r)).
Definition SetOrganizationPlatformVersion (d : DB) (externalID platformVersion : string) : Op unit :=
  update_org d (is_live_org externalID) (set_platform_version platformVersion).
Definition SetLastSentWeeklyReportAt (d : DB) (externalID : string) (sentAt : option time.Time) : Op unit :=
  update_org d (is_live_org externalID) (set_last_sent (stamp sentAt)).

(** [UpdateOrganization]: the fields to set, on the record that is validated and on the row. *)
Definition when_some {A R} (v : option A) (f : A -> R -> R) (r : R) : R := match v with Some a => f a r | None => r end.
Definition org_update (u : OrgWriteView) (o : Organization) : Organization :=
  let o := when_some (ow_Name u) Users.set_Name o in
  let o := when_some (ow_Platform u) Users.set_Platform o in
  let o := when_some (ow_Environment u) Users.set_Environment o in
  let o := when_some (ow_TrialExpiresAt u) Users.set_TrialExpiresAt o in
  let o := when_some (ow_TrialPendingExpiryNotifiedAt u) (fun t => set_TrialPendingExpiryNotifiedAt (ZeroTimeIsNil t)) o in
  when_some (ow_TrialExpiredNotifiedAt u) (fun t => set_TrialExpiredNotifiedAt (ZeroTimeIsNil t)) o.
Definition row_update (u : OrgWriteView) (r : OrgRow) : OrgRow :=
  let r := when_some (ow_Name u) set_name r in
  let r := when_some (ow_Platform u) set_platform r in
  let r := when_some (ow_Environment u) set_environment r in
  let r := when_some (ow_TrialExpiresAt u) (fun t => set_trial_expires_at (timestamptz t)) r in
  let r := when_some (ow_TrialPendingExpiryNotifiedAt u) (fun t => set_trial_pending (stamp (ZeroTimeIsNil t))) r in
  when_some (ow_TrialExpiredNotifiedAt u) (fun t => set_trial_expired (stamp (ZeroTimeIsNil t))) r.
Definition sets_nothing (u : OrgWriteView) : bool :=
  is_null (ow_Name u) && is_null (ow_Platform u) && is_null (ow_Environment u) && is_null (ow_TrialExpiresAt u)
  && is_null (ow_TrialPendingExpiryNotifiedAt u) && is_null (ow_TrialExpiredNotifiedAt u).
Definition name_too_long (u : OrgWriteView) : bool := match ow_Name u with Some name => too_long name | None => false end.
Definition update_organization (externalID : string) (u : OrgWriteView) : Statement Z := fun now t =>
  if name_too_long u && exists_org (fun r => is_live_org externalID EmptyString r) t then inl value_too_long
  else update_organizations (is_live_org externalID) (row_update u) now t.
Definition UpdateOrganization (d : DB) (externalID : string) (u : OrgWriteView) : Op Organization :=
  do org <- FindOrganizationByID d externalID;
  let org := org_update u org in
  if sets_nothing u then ret org
  else match Valid org with
       | Some err => throw err
       | None => one_row (exec d (update_organization externalID u)) ;;; ret org
       end.
Definition MoveOrganizationToTeam (d : DB) (externalID teamExternalID teamName userID : string) : Op unit :=
  do team <- (if decide (teamName = EmptyString) then FindTeamByExternalID d teamExternalID else CreateTeamAsUser d teamName userID);
  update_org d (fun _ => has_external_id externalID) (set_team_id (t_ID team)).

(** ** Creation *)

Definition new_organization (id externalID name probeToken : string) (now trialExpiresAt : time.Time) (teamID : string) : Organization :=
  {| o_ID := id; o_ExternalID := externalID; o_Name := name; o_ProbeToken := probeToken; o_CreatedAt := now; o_FeatureFlags := [];
     o_RefuseDataAccess := false; o_RefuseDataUpload := false; o_FirstSeenConnectedAt := None; o_Platform := EmptyString;
     o_Environment := EmptyString; o_TrialExpiresAt := trialExpiresAt; o_ZuoraAccountNumber := EmptyString; o_ZuoraAccountCreatedAt := None;
     o_TrialPendingExpiryNotifiedAt := None; o_TrialExpiredNotifiedAt := None; o_GCP := None; o_TeamID := teamID; o_TeamExternalID := EmptyString;
     o_DeletedAt := 0; o_Cleanup := false; o_FirstSeenFluxConnectedAt := None; o_FirstSeenNetConnectedAt := None;
     o_FirstSeenPromConnectedAt := None; o_FirstSeenScopeConnectedAt := None; o_RefuseDataReason := EmptyString;
     o_LastSentWeeklyReportAt := None; o_PlatformVersion := EmptyString; o_DeletedBy := EmptyString |}.
Definition new_org_row (o : Organization) : OrgRow :=
  mkOrgRow (strings.ToLower (o_ExternalID o)) (o_Name o) (o_ProbeToken o) (timestamptz (o_CreatedAt o)) None None [] false false None None None None None None
    (timestamptz (o_TrialExpiresAt o)) None None None (o_TeamID o) false None None None None None EmptyString.
Definition insert_organization (o : Organization) (id : string) : Statement string := fun _ t =>
  if too_long (o_Name o) then inl value_too_long
  else returning id (insert_row "organizations_pkey" organizations set_organizations id (new_org_row o) t).

(** A probe token no live organization has: the one that is given, or new ones until one is free. *)
Fixpoint token_loop (n : nat) (tx : DB) (token : string) : Op string :=
  match n with
  | O => out_of_fuel
  | S n' =>
      do t <- (if decide (token = EmptyString) then tokens_Generate else ret token);
      do exists_ <- select tx (exists_org (fun r => eqs (organizations_probe_token r) t && live_org r));
      if exists_ : bool then if decide (token = EmptyString) then token_loop n' tx token else throw ErrOrgTokenIsTaken
      else ret t
  end.
Definition createOrganization (d : DB) (ownerID externalID name token teamID : string) (trialExpiresAt : time.Time) : Op Organization :=
  do now <- Now;
  match Valid (new_organization EmptyString externalID name EmptyString now trialExpiresAt teamID) with
  | Some err => throw err
  | None =>
      Transaction d (fun tx =>
        do used <- ExternalIDUsed tx externalID;
        if used : bool then throw ErrOrgExternalIDIsTaken
        else
          do t <- token_loop fuel tx token;
          do id <- insert tx "organizations_id_seq" (insert_organization (new_organization EmptyString externalID name t now trialExpiresAt teamID));
          ret (new_organization id externalID name t now trialExpiresAt teamID))
  end.

(** [CreateOrganizationWithTeam]: the team is looked up and created through [d]. *)
Definition CreateOrganizationWithTeam (d : DB) (ownerID externalID name token teamExternalID teamName : string) (trialExpiresAt : time.Time) : Op Organization :=
  Transaction d (fun tx =>
    do team <- (if decide (teamExternalID <> EmptyString) then getTeamUserIsPartOf d ownerID teamExternalID
                else if decide (teamName <> EmptyString) then ensureUserIsPartOfTeamByName d ownerID teamName
                else throw (ErrMsg ("team should not be nil: " +:+ teamExternalID +:+ ", " +:+ teamName)));
    do org <- createOrganization tx ownerID externalID name token (t_ID team) trialExpiresAt;
    ret (set_TeamExternalID (t_ExternalID team) org)).

(** ** GCP accounts *)

Definition insert_gcp (externalAccountID : string) (now : time.Time) (id : string) : Statement string := fun _ t =>
  returning id (insert_row "gcp_accounts_pkey" gcp_accounts set_gcp_accounts id
    (mkGCPRow externalAccountID false (timestamptz now) None None None None) t).
Definition createGCP (d : DB) (externalAccountID : string) : Op GoogleCloudPlatform :=
  do now <- Now;
  do id <- insert d "gcp_accounts_id_seq" (insert_gcp externalAccountID now);
  ret (mkGCP id externalAccountID false now EmptyString EmptyString EmptyString EmptyString).
Definition UpdateGCP (d : DB) (externalAccountID consumerID subscriptionName subscriptionLevel subscriptionStatus : string) : Op unit :=
  exec d (update_gcp_accounts (fun _ g => eqs (gcp_accounts_external_account_id g) externalAccountID)
    (fun g => mkGCPRow (gcp_accounts_external_account_id g) true (gcp_accounts_created_at g) (Some consumerID) (Some subscriptionName)
                (Some subscriptionLevel) (Some subscriptionStatus))).
(** [SetOrganizationGCP]: the account is attached through [d]. *)
Definition SetOrganizationGCP (d : DB) (externalID externalAccountID : string) : Op unit :=
  Transaction d (fun tx =>
    do gcp <- FindGCP d externalAccountID;
    update_org d (fun _ r => eqs (organizations_external_id r) externalID && live_org r) (set_gcp_account_id (Some (g_ID gcp))) ;;;
    do now <- Now;
    UpdateOrganization tx externalID (mkOrgWriteView None (Some "kubernetes") (Some "gke") (Some now) None None None None) ;;;
    AddFeatureFlag tx externalID featureflag.Billing).
Definition CreateOrganizationWithGCP (d : DB) (ownerID externalAccountID : string) (trialExpiresAt : time.Time) : Op Organization :=
  Transaction d (fun tx =>
    do externalID <- GenerateOrganizationExternalID tx;
    do org <- CreateOrganizationWithTeam tx ownerID externalID (DefaultOrganizationName externalID) EmptyString EmptyString
                (DefaultTeamName externalID) trialExpiresAt;
    do gcp <- createGCP tx externalAccountID;
    SetOrganizationGCP tx externalID externalAccountID ;;;
    ret (set_GCP (Some gcp) org)).

(** [RemoveUserFromOrganization]; [DeleteUser] (user.go), where every statement goes through [d]. *)
Definition RemoveUserFromOrganization (d : DB) (orgExternalID email : string) : Op unit :=
  Transaction d (fun tx =>
    do user <- FindUserByEmail tx email;
    do org <- FindOrganizationByID tx orgExternalID;
    RemoveUserFromTeam tx (u_ID user) (o_TeamID org)).
Definition sole_member_teams (userID : string) (t : Tables) : list string :=
  (rows (fun id team => live_team team
      && negb (bool_decide (memberships (fun m => eqs (team_memberships_user_id m) userID && eqs (team_memberships_team_id m) id) t = []))
      && bool_decide (length (memberships (fun m => eqs (team_memberships_team_id m) id) t) = 1%nat)) (teams t)).*1.
Definition DeleteUser (d : DB) (userID actingID : string) : Op unit :=
  do deleted <- Now;
  Transaction d (fun _ =>
    do ids <- select d (sole_member_teams userID);
    for_each ids (fun id =>
      do orgs <- ListOrganizationsInTeam d id;
      for_each orgs (fun org => DeleteOrganization d (o_ExternalID org) actingID) ;;;
      DeleteTeam d id) ;;;
    exec d (update_team_memberships (fun _ m => eqs (team_memberships_user_id m) userID && live_membership m)
      (fun _ => delete_membership (timestamptz deleted))) ;;;
    (do _ <- exec d (update_users (is_live_user userID) (set_users_deleted_at (timestamptz deleted))); ret tt)).

(** * Summary *)

Definition ascending : list string -> list string := sort.Sort String.ltb.
Definition scanSummaryEntry (t : Tables) (id : string) (r : OrgRow) (team : TeamRow) (emails : list string) : SummaryEntry :=
  let gcp := snd <$> org_gcp t r in
  {| s_TeamExternalID := teams_external_id team; s_TeamName := teams_name team; s_OrgID := id; s_OrgExternalID := organizations_external_id r;
     s_OrgName := organizations_name r; s_Emails := emails; s_OrgCreatedAt := organizations_created_at r;
     s_FirstSeenConnectedAt := organizations_first_seen_connected_at r; s_Platform := null_string (organizations_platform r);
     s_Environment := null_string (organizations_environment r); s_TrialExpiresAt := organizations_trial_expires_at r;
     s_TrialPendingExpiryNotifiedAt := organizations_trial_pending_expiry_notified_at r;
     s_TrialExpiredNotifiedAt := organizations_trial_expired_notified_at r;
     s_BillingEnabled := bool_decide ("billing" ∈ organizations_feature_flags r);
     s_RefuseDataAccess := organizations_refuse_data_access r; s_RefuseDataUpload := organizations_refuse_data_upload r;
     s_ZuoraAccountNumber := null_string (organizations_zuora_account_number r); s_ZuoraAccountCreatedAt := organizations_zuora_account_created_at r;
     s_GCPAccountExternalID := null_string (gcp_accounts_external_account_id <$> gcp); s_GCPAccountCreatedAt := null_time (gcp_accounts_created_at <$> gcp);
     s_GCPAccountSubscriptionLevel := null_string (g ← gcp; gcp_accounts_subscription_level g);
     s_GCPAccountSubscriptionStatus := null_string (g ← gcp; gcp_accounts_subscription_status g) |}.
(** An organization without a user in its team is left out. *)
Definition summary_of (t : Tables) (kv : string * OrgRow) : list SummaryEntry :=
  match org_team t kv.2 with
  | None => []
  | Some team =>
      match remove_dups ((fun u => users_email u.2) <$> (team_users (organizations_team_id kv.2) t)) with
      | [] => []
      | emails => [scanSummaryEntry t kv.1 kv.2 team (ascending emails)]
      end
  end.
Definition GetSummary (d : DB) : Op (list SummaryEntry) :=
  select d (fun t => flat_map (summary_of t) (organizations_where (fun _ _ => true) t)).

(** * Webhooks (webhook.go) *)

Definition scanWebhook (kv : string * WebhookRow) : Webhook :=
  let '(id, w) := kv in
  mkWebhook id (webhooks_organization_id w) (webhooks_integration_type w) (webhooks_secret_id w) (webhooks_secret_signing_key w)
    (webhooks_created_at w) (webhooks_deleted_at w) (webhooks_first_seen_at w).
Definition live_webhook (w : WebhookRow) : bool := live webhooks_deleted_at w.
Definition webhooksQuery (P : WebhookRow -> bool) (t : Tables) : list (string * WebhookRow) :=
  sort.Sort (fun a b => (webhooks_created_at a.2 <? webhooks_created_at b.2)
                        || (webhooks_created_at a.2 =? webhooks_created_at b.2) && String.ltb a.1 b.1)
    (rows (fun _ w => live_webhook w && P w) (webhooks t)).
Definition ListOrganizationWebhooks (d : DB) (orgExternalID : string) : Op (list Webhook) :=
  do l <- select d (fun t => webhooksQuery (fun w => match organizations t !! webhooks_organization_id w with
                                                     | Some r => eqs (organizations_external_id r) orgExternalID | None => false end) t);
  ret (scanWebhook <$> l).
Definition insert_webhook (orgID integrationType secretID secretSigningKey id : string) : Statement (string * time.Time) := fun now t =>
  returning (id, now) (insert_row "webhooks_pkey" webhooks set_webhooks id
    (mkWebhookRow orgID integrationType secretID secretSigningKey now None None) t).
Definition CreateOrganizationWebhook (d : DB) (orgExternalID integrationType : string) : Op Webhook :=
  do secretID <- tokens_Generate;
  do secretSigningKey <- (if decide (integrationType = GithubPushIntegrationType) then tokens_Generate else ret EmptyString);
  do org <- FindOrganizationByID d orgExternalID;
  do ' (id, created) <- no_rows_as ErrNotFound (insert d "webhooks_id_seq" (insert_webhook (o_ID org) integrationType secretID secretSigningKey));
  ret (mkWebhook id (o_ID org) integrationType secretID secretSigningKey created None None).
Definition DeleteOrganizationWebhook (d : DB) (orgExternalID secretID : string) : Op unit :=
  do org <- FindOrganizationByID d orgExternalID;
  do deletedAt <- Now;
  do _ <- exec d (update_webhooks (fun _ w => eqs (webhooks_organization_id w) (o_ID org) && eqs (webhooks_secret_id w) secretID && live_webhook w)
    (fun w => mkWebhookRow (webhooks_organization_id w) (webhooks_integration_type w) (webhooks_secret_id w) (webhooks_secret_signing_key w)
                (webhooks_created_at w) (Some (timestamptz deletedAt)) (webhooks_first_seen_at w)));
  ret tt.
Definition FindOrganizationWebhookBySecretID (d : DB) (secretID : string) : Op Webhook :=
  do row <- QueryRow d (webhooksQuery (fun w => eqs (webhooks_secret_id w) secretID)); ret (scanWebhook row).
(** Webhooks that are deleted are set too. *)
Definition SetOrganizationWebhookFirstSeenAt (d : DB) (secretID : string) : Op time.Time :=
  do now <- time_Now;
  do l <- exec d (update_webhooks (fun _ w => eqs (webhooks_secret_id w) secretID)
    (fun w => mkWebhookRow (webhooks_organization_id w) (webhooks_integration_type w) (webhooks_secret_id w) (webhooks_secret_signing_key w)
                (webhooks_created_at w) (webhooks_deleted_at w) (Some (timestamptz now))));
  do row <- or_else (hd_error l) ErrNoRows;
  ret (null_time (webhooks_first_seen_at row.2)).

(** * The interface (users/db/db.go)

    The methods on a connection; clients have the pool. *)
Definition method (d : DB) {A} (c : DBCall A) : Op A :=
  match c in DBCall A return Op A with
  | CallCreateUser email details => CreateUser d email details
  | CallUpdateUser userID update => UpdateUser d userID update
  | CallDeleteUser userID actingID => DeleteUser d userID actingID
  | CallFindUserByID id => FindUserByID d id
  | CallFindUserByEmail email => FindUserByEmail d email
  | CallFindUserByLogin provider id => FindUserByLogin d provider id
  | CallUserIsMemberOf userID orgExternalID => UserIsMemberOf d userID orgExternalID
  | CallAddLoginToUser userID provider id session => AddLoginToUser d userID provider id session
  | CallGetLogin provider id => GetLogin d provider id
  | CallDetachLoginFromUser userID provider => DetachLoginFromUser d userID provider
  | CallInviteUserToTeam email teamExternalID roleID => InviteUserToTeam d email teamExternalID roleID
  | CallRemoveUserFromOrganization orgExternalID email => RemoveUserFromOrganization d orgExternalID email
  | CallRemoveUserFromTeam userID teamID => RemoveUserFromTeam d userID teamID
  | CallListUsers f page => ListUsers d f page
  | CallListOrganizations f page => ListOrganizations d f page
  | CallListAllOrganizations f orderBy page => ListAllOrganizations d f orderBy page
  | CallListOrganizationUsers orgExternalID deleted new => ListOrganizationUsers d orgExternalID deleted new
  | CallListOrganizationsInTeam teamID => ListOrganizationsInTeam d teamID
  | CallListOrganizationsForUserIDs userIDs => ListOrganizationsForUserIDs d userIDs
  | CallListAllOrganizationsForUserIDs orderBy userIDs => ListAllOrganizationsForUserIDs d orderBy userIDs
  | CallListLoginsForUserIDs userIDs => ListLoginsForUserIDs d userIDs
  | CallSetUserAdmin id value => SetUserAdmin d id value
  | CallSetUserToken id token => SetUserToken d id token
  | CallSetUserLastLoginAt id => SetUserLastLoginAt d id
  | CallGenerateOrganizationExternalID => GenerateOrganizationExternalID d
  | CallFindUncleanedOrgIDs => FindUncleanedOrgIDs d
  | CallFindOrganizationByProbeToken probeToken => FindOrganizationByProbeToken d probeToken
  | CallFindOrganizationByID externalID => FindOrganizationByID d externalID
  | CallFindOrganizationByGCPExternalAccountID a => FindOrganizationByGCPExternalAccountID d a
  | CallFindOrganizationByInternalID internalID => FindOrganizationByInternalID d internalID
  | CallUpdateOrganization externalID update => UpdateOrganization d externalID update
  | CallOrganizationExists externalID => OrganizationExists d externalID
  | CallExternalIDUsed externalID => ExternalIDUsed d externalID
  | CallGetOrganizationName externalID => GetOrganizationName d externalID
  | CallDeleteOrganization externalID actingID => DeleteOrganization d externalID actingID
  | CallAddFeatureFlag externalID featureFlag => AddFeatureFlag d externalID featureFlag
  | CallSetOrganizationCleanup internalID value => SetOrganizationCleanup d internalID value
  | CallSetFeatureFlags externalID featureFlags => SetFeatureFlags d externalID featureFlags
  | CallSetOrganizationRefuseDataAccess externalID value => SetOrganizationRefuseDataAccess d externalID value
  | CallSetOrganizationRefuseDataUpload externalID value => SetOrganizationRefuseDataUpload d externalID value
  | CallSetOrganizationRefuseDataReason externalID reason => SetOrganizationRefuseDataReason d externalID reason
  | CallSetOrganizationFirstSeenConnectedAt externalID value => SetOrganizationFirstSeenConnectedAt d externalID value
  | CallSetOrganizationFirstSeenFluxConnectedAt externalID value => SetOrganizationFirstSeenFluxConnectedAt d externalID value
  | CallSetOrganizationFirstSeenNetConnectedAt externalID value => SetOrganizationFirstSeenNetConnectedAt d externalID value
  | CallSetOrganizationFirstSeenPromConnectedAt externalID value => SetOrganizationFirstSeenPromConnectedAt d externalID value
  | CallSetOrganizationFirstSeenScopeConnectedAt externalID value => SetOrganizationFirstSeenScopeConnectedAt d externalID value
  | CallSetOrganizationZuoraAccount externalID number createdAt => SetOrganizationZuoraAccount d externalID number createdAt
  | CallSetOrganizationPlatformVersion externalID v => SetOrganizationPlatformVersion d externalID v
  | CallSetLastSentWeeklyReportAt externalID sentAt => SetLastSentWeeklyReportAt d externalID sentAt
  | CallMoveOrganizationToTeam externalID te tn userID => MoveOrganizationToTeam d externalID te tn userID
  | CallCreateOrganizationWithGCP ownerID a expires => CreateOrganizationWithGCP d ownerID a expires
  | CallFindGCP a => FindGCP d a
  | CallUpdateGCP a consumerID name level status => UpdateGCP d a consumerID name level status
  | CallSetOrganizationGCP externalID a => SetOrganizationGCP d externalID a
  | CallListTeams page => ListTeams d page
  | CallListAllTeams f orderBy page => ListAllTeams d f orderBy page
  | CallListTeamsForUserID userID => do l <- ListTeamsForUserID d userID; ret (Some <$> l)
  | CallListTeamUsersWithRoles teamID => ListTeamUsersWithRoles d teamID
  | CallListTeamUsers teamID => ListTeamUsers d teamID
  | CallListRoles => ListRoles d
  | CallListPermissionsForRoleID roleID => do l <- ListPermissionsForRoleID d roleID; ret (Some <$> l)
  | CallGetUserRoleInTeam userID teamID => do role <- GetUserRoleInTeam d userID teamID; ret (Some role)
  | CallUpdateUserRoleInTeam userID teamID roleID => UpdateUserRoleInTeam d userID teamID roleID
  | CallFindTeamByExternalID externalID => FindTeamByExternalID d externalID
  | CallFindTeamByInternalID internalID => FindTeamByInternalID d internalID
  | CallCreateTeam name => CreateTeam d name
  | CallAddUserToTeam userID teamID roleID => AddUserToTeam d userID teamID roleID
  | CallDeleteTeam teamID => DeleteTeam d teamID
  | CallCreateOrganizationWithTeam ownerID externalID name token te tn expires =>
      CreateOrganizationWithTeam d ownerID externalID name token te tn expires
  | CallListOrganizationWebhooks orgExternalID => ListOrganizationWebhooks d orgExternalID
  | CallCreateOrganizationWebhook orgExternalID t => CreateOrganizationWebhook d orgExternalID t
  | CallDeleteOrganizationWebhook orgExternalID secretID => DeleteOrganizationWebhook d orgExternalID secretID
  | CallFindOrganizationWebhookBySecretID secretID => FindOrganizationWebhookBySecretID d secretID
  | CallSetOrganizationWebhookFirstSeenAt secretID => SetOrganizationWebhookFirstSeenAt d secretID
  | CallGetSummary => GetSummary d
  | CallListTeamMemberships => ListTeamMemberships d
  end.
Definition postgres : DBImpl Server := fun A c => method SqlDB c.

End db.
End postgres.
