(* ===== verification/PostgresSpec.v ===== *)
(** The PostgreSQL users database: its constraints hold whatever fails, its transactions are not waited for, which
    failed calls change nothing, and that it is a database as the server expects it. *)
From Stdlib Require Import ZArith Lia Ascii String.
From stdpp Require Import base tactics option gmap strings list pretty.
From S2P Require Import Prelude GoStd Users Filter MemDB MemTeam MemOrg MemUser UsersDB Postgres PostgresDB.
Import PostgresDB.postgres.

(** * Calls on a connection

    While a connection is used, nobody else's transaction has written; the constraints hold of the committed tables
    and of what every transaction sees. *)

Create HintDb pg.

Definition sound (t : Tables) : Prop := violated t = None.
Record wf (s : Server) : Prop := {
  wf_committed : sound (committed s);
  wf_views : Forall (fun x => forall t, view x = Some t -> sound t) (txns s) }.
Definition connected (d : postgres.DB) (s : Server) : Prop :=
  blocked d s = false /\ match d with SqlDB => True | SqlTx k => (k < length (txns s))%nat end.
(** Some connections of the pool are free. *)
Definition room (n : nat) (s : Server) : Prop :=
  0 < max_open_conns s -> Z.of_nat (others s + length (txns s) + n) <= max_open_conns s.
(** What a call leaves as it is: the pool the open transactions, a transaction everything else. *)
Definition pool_of (s : Server) : Z * nat := (max_open_conns s, others s).
Definition frame (d : postgres.DB) (s s' : Server) : Prop :=
  pool_of s' = pool_of s /\
  match d with
  | SqlDB => txns s' = txns s
  | SqlTx k => committed s' = committed s /\ length (txns s') = length (txns s) /\ delete k (txns s') = delete k (txns s)
  end.
Definition comes_back {A} (o : outcome error A) : Prop := definite o \/ o = OutOfFuel.
(** Given that many free connections, a call comes back; a transaction has its own. *)
Definition safe_with {A} (n : nat) (d : postgres.DB) (m : postgres.Op A) : Prop := forall s, wf s -> connected d s ->
  (room n s -> comes_back (m s).1) /\ wf (m s).2 /\ (definite (m s).1 -> frame d s (m s).2).
Definition need (d : postgres.DB) : nat := match d with SqlDB => 1 | SqlTx _ => 0 end.
Abbreviation safe d := (safe_with (need d) d).
Arguments need : simpl never.

Lemma frame_refl d s : frame d s s.
Proof. by destruct d. Qed.
Lemma frame_trans d s1 s2 s3 : frame d s1 s2 -> frame d s2 s3 -> frame d s1 s3.
Proof. unfold frame. intros [? Hd] [? Hd']. split; [congruence|]. destruct d; naive_solver congruence. Qed.
Lemma frame_connected d s s' : frame d s s' -> connected d s -> connected d s'.
Proof.
  unfold frame, connected. intros [_ Hd]. destruct d; simpl; [by rewrite Hd|]. destruct Hd as (_ & -> & Hdel). intros [Hb Hk]. by rewrite Hdel.
Qed.
Lemma frame_room d s s' n : frame d s s' -> room n s -> room n s'.
Proof.
  unfold frame, room, pool_of. intros [[= -> ->] Hd]. enough (length (txns s') = length (txns s)) as -> by done.
  destruct d; [by rewrite Hd|by destruct Hd as (_ & ? & _)].
Qed.
Lemma room_less m n s : room n s -> (m <= n)%nat -> room m s.
Proof. unfold room. intros Hr Hmn Hpos. specialize (Hr Hpos). lia. Qed.
#[export] Hint Resolve frame_refl : pg.

Lemma safe_less {A} n n' d (m : postgres.Op A) : safe_with n d m -> (n <= n')%nat -> safe_with n' d m.
Proof. intros Hm Hn s Hs Hc. destruct (Hm s Hs Hc) as (Ho & Hr). split; [|done]. intros Hroom. by apply Ho, (room_less n n'). Qed.
Lemma safe_bind {A B} n d (m : postgres.Op A) (k : A -> postgres.Op B) :
  safe_with n d m -> (forall a, safe_with n d (k a)) -> safe_with n d (bind m k).
Proof.
  intros Hm Hk s Hs Hc. destruct (Hm s Hs Hc) as (Ho & Hs' & Hf). unfold bind. destruct (m s) as [[a|e| | |] s'] eqn:E; simpl in *;
    [|by split; [intros Hr; destruct (Ho Hr) as [[]|[=]]; by (left + right)|split; [done|]; intros Hd; by apply Hf]..].
  specialize (Hf I). destruct (Hk a s' Hs' (frame_connected _ _ _ Hf Hc)) as (Ho2 & Hs2 & Hf2).
  split; [intros Hr; apply Ho2; by apply (frame_room d s)|]. split; [done|]. intros Hd. eapply frame_trans; eauto.
Qed.
Lemma safe_try {A} n d (m : postgres.Op A) : safe_with n d m -> safe_with n d (try m).
Proof.
  intros Hm s Hs Hc. destruct (Hm s Hs Hc) as (Ho & Hs' & Hf). unfold try. destruct (m s) as [[] s'] eqn:E; simpl in *;
    (split; [intros Hr; destruct (Ho Hr) as [[]|[=]]; by (left + right)|split; [done|]; intros Hd; by apply Hf]).
Qed.

(** Calls that read the surroundings, or take an identifier. *)
Definition local {A} (m : postgres.Op A) : Prop := forall s, comes_back (m s).1 /\ committed (m s).2 = committed s /\ txns (m s).2 = txns s /\ pool_of (m s).2 = pool_of s.
Lemma safe_local {A} n d (m : postgres.Op A) : local m -> safe_with n d m.
Proof.
  intros Hm s [Hs Hv] _. destruct (Hm s) as (Ho & Hc & Ht & Hp). split; [done|]. split; [split; [by rewrite Hc|by rewrite Ht]|].
  intros _. split; [done|]. destruct d; simpl; [done|]. by rewrite Hc, Ht.
Qed.
Lemma safe_ret {A} n d (a : A) : safe_with n d (ret a).
Proof. apply safe_local. intros s. split; [by left|done]. Qed.
Lemma safe_throw {A} n d e : safe_with n d (throw e : postgres.Op A).
Proof. apply safe_local. intros s. split; [by left|done]. Qed.
Lemma safe_out_of_fuel {A} n d : safe_with n d (out_of_fuel : postgres.Op A).
Proof. apply safe_local. intros s. split; [by right|done]. Qed.
Lemma safe_or_else {A} n d (p : option A) e : safe_with n d (or_else p e).
Proof. destruct p; [apply safe_ret|apply safe_throw]. Qed.
Lemma safe_read_env {A} n d (f : Env -> nat -> A) : safe_with n d (postgres.read_env f).
Proof. apply safe_local. intros s. split; [by left|done]. Qed.
Lemma safe_nextval n d seq : safe_with n d (nextval seq).
Proof. apply safe_local. intros s. split; [by left|done]. Qed.
Lemma safe_now_in n d d' : safe_with n d (now_in d').
Proof. apply safe_local. intros s. destruct d'; (split; [by left|done]). Qed.
#[export] Hint Resolve safe_ret safe_throw safe_out_of_fuel safe_or_else safe_read_env safe_nextval safe_now_in safe_bind safe_try : pg.

Lemma safe_for_each {A} n d (l : list A) (body : A -> postgres.Op unit) : (forall x, safe_with n d (body x)) -> safe_with n d (for_each l body).
Proof. intros Hb. induction l as [|x l IH]; simpl; auto with pg. Qed.
Lemma safe_no_rows_as {A} n d e (m : postgres.Op A) : safe_with n d m -> safe_with n d (no_rows_as e m).
Proof. intros Hm. apply safe_bind; [by apply safe_try|]. intros []; auto with pg. Qed.
Lemma safe_one_row n d m : safe_with n d m -> safe_with n d (one_row m).
Proof. intros Hm. apply safe_bind; [done|]. intros x. destruct (x =? 1); auto with pg. Qed.
#[export] Hint Resolve safe_for_each safe_no_rows_as safe_one_row : pg.

(** ** Statements *)

Lemma delete_alter_list {A} (f : A -> A) k (l : list A) : delete k (alter f k l) = delete k l.
Proof. revert k. induction l as [|x l IH]; intros [|k]; simpl; [done..|]. unfold alter in IH. f_equal. apply IH. Qed.
Lemma Forall_alter_list {A} (P : A -> Prop) (f : A -> A) k (l : list A) : Forall P l -> (forall x, P x -> P (f x)) -> Forall P (alter f k l).
Proof.
  intros Hl Hf. revert k. induction Hl as [|x l Hx Hl IH]; intros [|k]; try (by constructor); constructor; auto; apply IH.
Qed.
Lemma set_txn_wf k f s : wf s -> (forall x, (forall t, view x = Some t -> sound t) -> forall t, view (f x) = Some t -> sound t) -> wf (set_txn k f s).
Proof. intros [Hc Hv] Hf. split; [done|]. simpl. apply Forall_alter_list; [done|]. intros x Hx t. by apply Hf. Qed.
Lemma set_txn_frame k f s : frame (SqlTx k) s (set_txn k f s).
Proof. split; [done|]. split; [done|]. simpl. by rewrite length_alter, delete_alter_list. Qed.
Lemma abort_wf d s : wf s -> wf (abort d s).
Proof. intros Hs. destruct d; [done|]. apply set_txn_wf; [done|]. done. Qed.
Lemma abort_frame d s : frame d s (abort d s).
Proof. destruct d; [done|]. apply set_txn_frame. Qed.
#[export] Hint Resolve abort_wf abort_frame : pg.

Lemma tick_safe d s : wf s -> definite (tick d s).1 /\ wf (tick d s).2 /\ frame d s (tick d s).2.
Proof.
  intros Hs. unfold tick. destruct (faults s) as [|[e|] rest]; simpl.
  - auto with pg.
  - split; [done|]. split; [apply abort_wf; by destruct Hs|]. eapply frame_trans; [|apply abort_frame]. by destruct d.
  - split; [done|]. split; [by destruct Hs|]. by destruct d.
Qed.
Lemma safe_tick n d : safe_with n d (tick d).
Proof. intros s Hs _. destruct (tick_safe d s Hs) as (Ho & Hs' & Hf). split; [by left|]. auto. Qed.
Lemma room_full n s : room (S n) s -> full s = false.
Proof. unfold room, full. intros Hr. apply andb_false_iff. destruct (Z.ltb_spec 0 (max_open_conns s)); [right|by left].
  specialize (Hr ltac:(done)). apply Z.leb_gt. lia.
Qed.
Lemma safe_send d : safe d (send d).
Proof.
  apply safe_bind; [|intros _; apply safe_tick]. intros s Hs _. destruct d; simpl; [|by split; [by left|auto with pg]].
  destruct (full s) eqn:Hf; [|by split; [by left|auto with pg]]. split; [|done]. intros Hr. by rewrite (room_full _ _ Hr) in Hf.
Qed.
Lemma unchanged {A} n d s (e : error) : wf s ->
  (room n s -> comes_back (Err e : outcome error A)) /\ wf (abort d s) /\ (definite (Err e : outcome error A) -> frame d s (abort d s)).
Proof. split; [by left|]. auto with pg. Qed.
Lemma same_state {A} n d s (o : outcome error A) : wf s -> definite o -> (room n s -> comes_back o) /\ wf s /\ (definite o -> frame d s s).
Proof. split; [by left|]. auto with pg. Qed.
Lemma safe_query {A} d (f : Tables -> error + A) : safe d (query d f).
Proof.
  apply safe_bind; [apply safe_send|]. intros _ s Hs _. destruct (sees d s) as [e|t]; [by apply same_state|].
  destruct (f t); [by apply unchanged|by apply same_state].
Qed.
Lemma safe_select {A} d (f : Tables -> A) : safe d (select d f).
Proof. apply safe_query. Qed.
Lemma safe_QueryRow {A} d (f : Tables -> list A) : safe d (QueryRow d f).
Proof. apply safe_bind; [apply safe_select|]. auto with pg. Qed.

Lemma checked_sound {A} (r : error + A * Tables) a t : checked r = inr (a, t) -> sound t.
Proof. unfold checked, sound. destruct r as [|[a' t']]; [done|]. destruct (violated t') eqn:E; [done|]. intros [= <- <-]. done. Qed.
Lemma keep_wf d t s : wf s -> sound t -> wf (keep d t s).
Proof.
  intros Hs Ht. destruct d; [by destruct Hs|]. apply set_txn_wf; [done|]. simpl. intros x _ t' [= <-]. done.
Qed.
Lemma keep_frame d t s : frame d s (keep d t s).
Proof. destruct d; [done|]. apply set_txn_frame. Qed.
Lemma safe_execute {A} n d (f : Statement A) : safe_with n d (execute d f).
Proof.
  apply safe_bind; [apply safe_now_in|]. intros now s Hs [Hb Hk]. destruct (sees d s) as [e|t]; [by apply same_state|].
  rewrite Hb. destruct (checked (f now t)) as [e|[a t']] eqn:E; simpl.
  - by apply unchanged.
  - split; [by left|]. split; [apply keep_wf; [done|by eapply checked_sound]|]. intros _. apply keep_frame.
Qed.
Lemma safe_exec {A} d (f : Statement A) : safe d (exec d f).
Proof. apply safe_bind; [apply safe_send|]. intros _. apply safe_execute. Qed.
Lemma safe_insert {A} d seq (f : string -> Statement A) : safe d (insert d seq f).
Proof. apply safe_bind; [apply safe_send|]. intros _. apply safe_bind; [apply safe_nextval|]. intros id. apply safe_execute. Qed.
#[export] Hint Resolve safe_tick safe_query safe_select safe_QueryRow safe_exec safe_insert : pg.

(** ** Transactions *)

(** What may run in a transaction that is open and, at first, unwritten: calls on the pool, given a connection of it,
    and then calls in the transaction. *)
Definition inside {A} (n k : nat) (m : postgres.Op A) : Prop := forall s, wf s -> connected SqlDB s -> (k < length (txns s))%nat ->
  (room n s -> comes_back (m s).1) /\ wf (m s).2 /\
  (definite (m s).1 -> pool_of (m s).2 = pool_of s /\ length (txns (m s).2) = length (txns s) /\ delete k (txns (m s).2) = delete k (txns s)).

Lemma connected_tx k s : connected SqlDB s -> (k < length (txns s))%nat -> connected (SqlTx k) s.
Proof.
  intros [Hb _] Hk. split; [|done]. simpl in *. apply not_true_is_false. intros (x & Hx & Hw)%existsb_exists.
  enough (existsb wrote (txns s) = true) by congruence. apply existsb_exists. exists x. split; [|done].
  apply list_elem_of_In. apply list_elem_of_In in Hx. by apply (sublist_subseteq (delete k (txns s)) (txns s) (sublist_delete _ _)).
Qed.
Lemma inside_tx {A} n k (m : postgres.Op A) : safe_with n (SqlTx k) m -> inside n k m.
Proof.
  intros Hm s Hs Hc Hk. destruct (Hm s Hs (connected_tx k s Hc Hk)) as (Ho & Hs' & Hf). split; [done|]. split; [done|].
  intros Hd. by destruct (Hf Hd) as (Hp & _ & Hl & Hdel).
Qed.
Lemma inside_db {A B} n k (m : postgres.Op A) (f : A -> postgres.Op B) :
  safe_with n SqlDB m -> (forall a, inside n k (f a)) -> inside n k (bind m f).
Proof.
  intros Hm Hf s Hs Hc Hk. destruct (Hm s Hs Hc) as (Ho & Hs' & Hfr). unfold bind. destruct (m s) as [[a|e| | |] s'] eqn:E; simpl in *;
    [|by split; [intros Hr; destruct (Ho Hr) as [[]|[=]]; by (left + right)|split; [done|]; intros Hd; destruct (Hfr Hd) as [? ->]]..].
  specialize (Hfr I). pose proof (frame_room SqlDB s s' n Hfr) as Hroom. pose proof Hfr as [Hp Ht].
  destruct (Hf a s' Hs') as (Ho2 & Hs2 & Hf2); [by apply (frame_connected SqlDB s)|by rewrite Ht|].
  split; [auto|]. split; [done|]. intros Hd. destruct (Hf2 Hd) as (Hp2 & Hl2 & Hd2). rewrite <- Ht. split; [congruence|done].
Qed.

Lemma close_wf k s : wf s -> wf (close k s).
Proof. intros [Hc Hv]. split; [done|]. simpl. by apply Forall_take. Qed.
Lemma take_of_delete {A} k (l l' : list A) x : length l' = S k -> k = length l -> delete k l' = delete k (l ++ [x]) -> take k l' = l.
Proof.
  intros Hl -> Hdel. rewrite !delete_take_drop in Hdel. rewrite take_app_length in Hdel.
  rewrite drop_ge in Hdel by lia. rewrite (drop_ge (l ++ [x])) in Hdel by (rewrite length_app; simpl; lia).
  by rewrite !app_nil_r in Hdel.
Qed.
Definition begun (s : Server) : Server :=
  set_txns (txns s ++ [mkTxn (server_clock s (asked s)) None false]) (set_asked (S (asked s)) s).
Lemma begin_run s : begin s = (Ret (length (txns s)), begun s).
Proof. done. Qed.
Lemma begun_wf s : wf s -> wf (begun s).
Proof. intros [Hc Hv]. split; [done|]. simpl. apply Forall_app. split; [done|]. apply Forall_singleton. done. Qed.
Lemma begun_connected s : connected SqlDB s -> connected SqlDB (begun s).
Proof. intros [Hb _]. split; [|done]. simpl in *. rewrite existsb_app, Hb. done. Qed.
Lemma begun_length s : length (txns (begun s)) = S (length (txns s)).
Proof. simpl. rewrite length_app. simpl. lia. Qed.
Lemma begun_room n s : room (S n) s -> room n (begun s).
Proof. unfold room. rewrite begun_length. simpl. intros Hr Hpos. specialize (Hr Hpos). lia. Qed.

(** The transaction has ended, and nothing is left of it but what it committed. *)
Definition ended {A} (n : nat) (s : Server) (r : outcome error A * Server) : Prop :=
  (room n s -> comes_back r.1) /\ wf r.2 /\ (definite r.1 -> frame SqlDB s r.2).
Lemma commit_ended {A} k s s2 s3 (a : A) : wf s3 -> txns (close k s3) = txns s -> pool_of s3 = pool_of s -> txns s3 = txns s2 ->
  (k < length (txns s2))%nat -> forall n, ended n s ((commit k ;;; ret a) s3).
Proof.
  intros Hs3 Hclose Hp Ht Hk n. unfold bind, commit. destruct (txns s3 !! k) as [x|] eqn:Hx.
  2: { apply lookup_ge_None in Hx. rewrite Ht in Hx. lia. }
  assert (Hframe : forall s4, committed s4 = committed s4 -> txns s4 = txns s3 -> pool_of s4 = pool_of s3 -> frame SqlDB s (close k s4)).
  { intros s4 _ Ht4 Hp4. split; [by rewrite <- Hp, <- Hp4|]. rewrite <- Hclose. simpl. by rewrite Ht4. }
  destruct (aborted x); [split; [by left|]; split; [by apply close_wf|]; intros _; by apply Hframe|].
  split; [by left|]. split; [|intros _; destruct (view x); by apply Hframe].
  apply (close_wf k). destruct (view x) as [t|] eqn:Hv; [|done]. destruct Hs3 as [Hc3 Hv3]. split; [|done]. cbn.
  rewrite Forall_lookup in Hv3. exact (Hv3 k x Hx t Hv).
Qed.
Lemma safe_begun {A} n (f : postgres.DB -> postgres.Op A) s : wf s -> connected SqlDB s -> (forall k, inside n k (f (SqlTx k))) ->
  ended (S n) s ((do k <- begin;
            do r <- try (f (SqlTx k));
            match r with
            | inl err => modify (close k) ;;; throw err
            | inr a => do committing <- try (tick SqlDB);
                       match committing with inl err => modify (close k) ;;; throw err | inr _ => commit k ;;; ret a end
            end) s).
Proof.
  intros Hs Hc Hf. rewrite (bind_Ret begin _ _ _ _ (begin_run s)). set (k := length (txns s)).
  destruct (Hf k (begun s) (begun_wf s Hs) (begun_connected s Hc)) as (Ho & Hs2 & Hfr); [rewrite begun_length; lia|].
  pose proof (fun Hr => Ho (begun_room n s Hr)) as Hback. clear Ho. unfold bind at 1, try at 1.
  destruct (f (SqlTx k) (begun s)) as [[a|e| | |] s2] eqn:E; cbn [fst snd] in Hback, Hs2, Hfr;
    try (by split; [intros Hr; destruct (Hback Hr) as [[]|[=]]; by right|]).
  - destruct (Hfr I) as (Hp & Hl & Hdel). rewrite begun_length in Hl.
    assert (Htake : forall s3, txns s3 = txns s2 -> txns (close k s3) = txns s).
    { intros s3 Ht. simpl. rewrite Ht. eapply take_of_delete; [exact Hl|done|exact Hdel]. }
    unfold bind at 1, try at 1. destruct (tick_safe SqlDB s2 Hs2) as (Ho3 & Hs3 & Hp3 & Ht3).
    assert (Hp' : forall s3, pool_of s3 = pool_of s2 -> pool_of s3 = pool_of s) by (intros s3 ->; exact Hp).
    destruct (tick SqlDB s2) as [[u|e| | |] s3] eqn:E3; try done; cbn [fst snd] in *.
    + apply commit_ended with s2; [done|by apply Htake|by apply Hp'|done|lia].
    + split; [by left|]. split; [by apply close_wf|]. intros _. split; [by apply (Hp' s3)|by apply Htake].
  - split; [by left|]. split; [by apply close_wf|]. intros _. destruct (Hfr I) as (Hp & Hl & Hdel). rewrite begun_length in Hl.
    split; [exact Hp|]. simpl. eapply take_of_delete; [exact Hl|done|exact Hdel].
Qed.

Lemma safe_Transaction_in {A} n d (f : postgres.DB -> postgres.Op A) :
  (d = SqlDB -> forall k, inside n k (f (SqlTx k))) -> (forall k, d = SqlTx k -> safe_with (S n) d (f d)) -> safe_with (S n) d (Transaction d f).
Proof.
  intros Hdb Htx. destruct d as [|k]; [|by apply Htx with k]. specialize (Hdb eq_refl).
  apply safe_bind; [apply safe_less with 1%nat; [apply (safe_send SqlDB)|lia]|]. intros _ s Hs Hc. by apply safe_begun.
Qed.
Lemma safe_Transaction {A} d (f : postgres.DB -> postgres.Op A) : (forall k, safe (SqlTx k) (f (SqlTx k))) -> safe d (Transaction d f).
Proof. intros Hf. destruct d; [|apply Hf]. apply (safe_Transaction_in 0); [intros _ k; apply inside_tx, Hf|by intros]. Qed.
#[export] Hint Resolve safe_Transaction : pg.

(** ** The methods *)

Ltac safely := repeat match goal with
  | |- safe_with _ _ (bind _ _) => apply safe_bind; [|intros]
  | |- safe_with _ _ (Transaction _ _) => apply safe_Transaction; intros
  | |- safe_with _ _ (match ?x with _ => _ end) => destruct x
  | |- safe_with _ _ (for_each _ _) => apply safe_for_each; intros
  | |- safe_with _ _ (no_rows_as _ _) => apply safe_no_rows_as
  | |- safe_with _ _ (one_row _) => apply safe_one_row
  | |- safe_with _ _ (try _) => apply safe_try
  | |- safe_with _ _ _ => solve [auto with pg]
  end.

(** The bodies of the methods without a lemma of their own. *)
Ltac open_methods :=
  unfold postgres.UpdateUser, postgres.UserIsMemberOf, postgres.AddLoginToUser, postgres.GetLogin, postgres.DetachLoginFromUser, postgres.InviteUserToTeam,
    postgres.RemoveUserFromOrganization, postgres.RemoveUserFromTeam, postgres.ListUsers, postgres.ListOrganizations, postgres.ListAllOrganizations,
    postgres.ListOrganizationUsers, postgres.ListOrganizationsForUserIDs, postgres.ListAllOrganizationsForUserIDs, postgres.ListLoginsForUserIDs,
    postgres.SetUserAdmin, postgres.SetUserToken, postgres.SetUserLastLoginAt, postgres.GenerateOrganizationExternalID, postgres.FindUncleanedOrgIDs,
    postgres.FindOrganizationByProbeToken, postgres.FindOrganizationByGCPExternalAccountID, postgres.FindOrganizationByInternalID,
    postgres.OrganizationExists, postgres.ExternalIDUsed, postgres.GetOrganizationName, postgres.AddFeatureFlag, postgres.SetOrganizationCleanup,
    postgres.SetFeatureFlags, postgres.SetOrganizationRefuseDataAccess, postgres.SetOrganizationRefuseDataUpload,
    postgres.SetOrganizationRefuseDataReason, postgres.SetOrganizationFirstSeenConnectedAt, postgres.SetOrganizationFirstSeenFluxConnectedAt,
    postgres.SetOrganizationFirstSeenNetConnectedAt, postgres.SetOrganizationFirstSeenPromConnectedAt, postgres.SetOrganizationFirstSeenScopeConnectedAt,
    postgres.SetOrganizationZuoraAccount, postgres.SetOrganizationPlatformVersion, postgres.SetLastSentWeeklyReportAt, postgres.MoveOrganizationToTeam,
    postgres.CreateOrganizationWithGCP, postgres.UpdateGCP, postgres.ListTeams, postgres.ListAllTeams, postgres.ListTeamsForUserID,
    postgres.ListTeamUsersWithRoles, postgres.ListTeamUsers, postgres.ListRoles, postgres.ListPermissionsForRoleID, postgres.GetUserRoleInTeam,
    postgres.UpdateUserRoleInTeam, postgres.FindTeamByInternalID, postgres.ListOrganizationWebhooks, postgres.CreateOrganizationWebhook,
    postgres.DeleteOrganizationWebhook, postgres.FindOrganizationWebhookBySecretID, postgres.SetOrganizationWebhookFirstSeenAt, postgres.GetSummary,
    postgres.ListTeamMemberships.

Section methods.
Context `{GoRange} (fuel : nat) (bcrypt_generate : string -> Z -> error + string) (cost : Z)
  (timestamptz : time.Time -> time.Time) (jsonb : string -> option string)
  (order_by : forall {R}, string -> list (string * R) -> list (string * R)).

Lemma safe_Now n d : safe_with n d postgres.Now.
Proof. unfold postgres.Now, time_Now. safely. Qed.
Lemma safe_tokens_Generate n d : safe_with n d postgres.tokens_Generate.
Proof. unfold postgres.tokens_Generate. safely. Qed.
Lemma safe_externalids_Generate n d : safe_with n d postgres.externalids_Generate.
Proof. apply safe_read_env. Qed.
#[local] Hint Resolve safe_Now safe_tokens_Generate safe_externalids_Generate : pg.
Lemma safe_find_user d f : safe d (find_user d f).
Proof. unfold find_user. safely. Qed.
Lemma safe_FindUserByID d id : safe d (postgres.FindUserByID d id).
Proof. apply safe_find_user. Qed.
Lemma safe_FindUserByEmail d id : safe d (postgres.FindUserByEmail d id).
Proof. apply safe_find_user. Qed.
Lemma safe_FindUserByLogin d p id : safe d (postgres.FindUserByLogin d p id).
Proof. apply safe_find_user. Qed.
Lemma safe_CreateUser d email details : safe d (postgres.CreateUser timestamptz d email details).
Proof. unfold postgres.CreateUser. safely. Qed.
Lemma safe_find_team d P : safe d (find_team d P).
Proof. unfold find_team. safely. Qed.
Lemma safe_FindTeamByExternalID d e : safe d (postgres.FindTeamByExternalID d e).
Proof. apply safe_find_team. Qed.
Lemma safe_UserIsMemberOfTeam d u t : safe d (UserIsMemberOfTeam d u t).
Proof. apply safe_select. Qed.
#[local] Hint Resolve safe_find_user safe_FindUserByID safe_FindUserByEmail safe_FindUserByLogin safe_CreateUser safe_find_team
  safe_FindTeamByExternalID safe_UserIsMemberOfTeam : pg.
Lemma safe_AddUserToTeam d u t r : safe d (postgres.AddUserToTeam d u t r).
Proof. unfold postgres.AddUserToTeam. safely. Qed.
Lemma safe_generate_team_loop n k : safe (SqlTx k) (generate_team_loop n (SqlTx k)).
Proof. induction n; simpl; unfold teamExternalIDUsed; safely. Qed.
Lemma safe_generate_organization_loop n k : safe (SqlTx k) (generate_organization_loop n (SqlTx k)).
Proof. induction n; simpl; unfold postgres.ExternalIDUsed; safely. Qed.
Lemma safe_token_loop n k token : safe (SqlTx k) (token_loop n (SqlTx k) token).
Proof. induction n; simpl; safely. Qed.
#[local] Hint Resolve safe_AddUserToTeam safe_generate_team_loop safe_generate_organization_loop safe_token_loop : pg.
Lemma safe_CreateTeam d name : safe d (postgres.CreateTeam fuel timestamptz d name).
Proof. unfold postgres.CreateTeam, generateTeamExternalID. safely. Qed.
#[local] Hint Resolve safe_CreateTeam : pg.
Lemma safe_CreateTeamAsUser d name u : safe d (postgres.CreateTeamAsUser fuel timestamptz d name u).
Proof. unfold postgres.CreateTeamAsUser. safely. Qed.
#[local] Hint Resolve safe_CreateTeamAsUser : pg.
Lemma safe_getTeamUserIsPartOf d u e : safe d (postgres.getTeamUserIsPartOf d u e).
Proof. unfold postgres.getTeamUserIsPartOf, postgres.ListTeamsForUserID. safely. Qed.
Lemma safe_ensureUserIsPartOfTeamByName d u e : safe d (postgres.ensureUserIsPartOfTeamByName fuel timestamptz d u e).
Proof. unfold postgres.ensureUserIsPartOfTeamByName, postgres.ListTeamsForUserID. safely. Qed.
Lemma safe_createOrganization d o e n tk tm x : safe d (createOrganization fuel timestamptz d o e n tk tm x).
Proof. unfold createOrganization, postgres.ExternalIDUsed. safely. Qed.
Lemma safe_FindOrganizationByID d e : safe d (postgres.FindOrganizationByID d e).
Proof. unfold postgres.FindOrganizationByID, find_organization. safely. Qed.
Lemma safe_FindGCP d e : safe d (postgres.FindGCP d e).
Proof. unfold postgres.FindGCP. safely. Qed.
Lemma safe_update_org d P f : safe d (update_org d P f).
Proof. unfold update_org. safely. Qed.
#[local] Hint Resolve safe_getTeamUserIsPartOf safe_ensureUserIsPartOfTeamByName safe_createOrganization safe_FindOrganizationByID safe_FindGCP
  safe_update_org : pg.
Lemma safe_UpdateOrganization d e u : safe d (postgres.UpdateOrganization timestamptz d e u).
Proof. unfold postgres.UpdateOrganization. safely. Qed.
Lemma safe_DeleteOrganization d e u : safe d (postgres.DeleteOrganization timestamptz d e u).
Proof. unfold postgres.DeleteOrganization. safely. Qed.
Lemma safe_DeleteTeam d t : safe d (postgres.DeleteTeam d t).
Proof. unfold postgres.DeleteTeam, teamHasOrganizations. safely. Qed.
Lemma safe_ListOrganizationsInTeam d t : safe d (postgres.ListOrganizationsInTeam d t).
Proof. apply safe_select. Qed.
#[local] Hint Resolve safe_UpdateOrganization safe_DeleteOrganization safe_DeleteTeam safe_ListOrganizationsInTeam : pg.

(** Where the closure uses the pool: everything it does there comes before what it writes itself, and it takes a
    second connection. *)
Lemma safe_pool {A B} n k (m : postgres.Op A) (f : A -> postgres.Op B) :
  safe SqlDB m -> (forall a, inside (S n) k (f a)) -> inside (S n) k (bind m f).
Proof. intros Hm. apply inside_db, safe_less with (need SqlDB); [done|unfold need; lia]. Qed.
Lemma safe_own {A} n k (m : postgres.Op A) : safe (SqlTx k) m -> inside n k m.
Proof. intros Hm. apply inside_tx, safe_less with (need (SqlTx k)); [done|unfold need; lia]. Qed.
Lemma safe_twice {A} d (f : postgres.DB -> postgres.Op A) :
  (d = SqlDB -> forall k, inside 1 k (f (SqlTx k))) -> (forall k, d = SqlTx k -> safe d (f d)) -> safe_with (2 * need d) d (Transaction d f).
Proof.
  intros Hdb Htx. destruct d as [|k]; [|by apply (Htx k)]. apply (safe_Transaction_in 1); [done|by intros].
Qed.
(** A transaction needs no other connection, however often it would take one. *)
Lemma safe_in_tx {A} k (m : postgres.Op A) : safe_with (2 * need (SqlTx k)) (SqlTx k) m -> safe (SqlTx k) m.
Proof. done. Qed.
Lemma safe_CreateOrganizationWithTeam d o e n tk te tn x : safe_with (2 * need d) d (postgres.CreateOrganizationWithTeam fuel timestamptz d o e n tk te tn x).
Proof.
  apply safe_twice.
  - intros -> k. apply safe_pool; [safely|]. intros team. apply safe_own. safely.
  - intros k ->. safely.
Qed.
Lemma safe_SetOrganizationGCP d e a : safe_with (2 * need d) d (postgres.SetOrganizationGCP timestamptz d e a).
Proof.
  apply safe_twice.
  - intros -> k. apply safe_pool; [safely|]. intros gcp. apply safe_pool; [safely|]. intros _. apply safe_own. unfold postgres.AddFeatureFlag. safely.
  - intros k ->. unfold postgres.AddFeatureFlag. safely.
Qed.
Definition delete_user (d : postgres.DB) (userID actingID : string) (deleted : time.Time) : postgres.Op unit :=
  do ids <- select d (sole_member_teams userID);
  for_each ids (fun id =>
    do orgs <- postgres.ListOrganizationsInTeam d id;
    for_each orgs (fun org => postgres.DeleteOrganization timestamptz d (o_ExternalID org) actingID) ;;;
    postgres.DeleteTeam d id) ;;;
  exec d (update_team_memberships (fun _ m => eqs (team_memberships_user_id m) userID && live_membership m)
    (fun _ => delete_membership (timestamptz deleted))) ;;;
  (do _ <- exec d (update_users (is_live_user userID) (set_users_deleted_at (timestamptz deleted))); ret tt).
Lemma safe_delete_user d u a now : safe d (delete_user d u a now).
Proof. unfold delete_user. safely. Qed.
Lemma inside_done {A} n k (m : postgres.Op A) : safe_with n SqlDB m -> inside n k m.
Proof.
  intros Hm s Hs Hc Hk. destruct (Hm s Hs Hc) as (Ho & Hs' & Hf). split; [done|]. split; [done|]. intros Hd.
  by destruct (Hf Hd) as [Hp ->].
Qed.
Lemma safe_DeleteUser d u a : safe_with (2 * need d) d (postgres.DeleteUser timestamptz d u a).
Proof.
  unfold postgres.DeleteUser. apply safe_bind; [apply safe_Now|]. intros now. apply safe_twice.
  - intros -> k. apply inside_done, (safe_delete_user SqlDB).
  - intros k ->. apply (safe_delete_user (SqlTx k)).
Qed.

#[local] Hint Resolve safe_in_tx safe_CreateOrganizationWithTeam safe_SetOrganizationGCP safe_DeleteUser : pg.

(** How many connections a call takes. *)
Definition connections {A} (c : DBCall A) : nat :=
  match c with CallDeleteUser _ _ | CallSetOrganizationGCP _ _ | CallCreateOrganizationWithTeam _ _ _ _ _ _ _ => 2 | _ => 1 end.

Abbreviation pg := (postgres fuel bcrypt_generate cost timestamptz jsonb (@order_by)).
Lemma method_safe A (c : DBCall A) : safe_with (connections c) SqlDB (pg A c).
Proof.
  destruct c; cbn [connections]; unfold postgres.postgres; cbn [method];
    try first [apply (safe_CreateOrganizationWithTeam SqlDB) | apply (safe_SetOrganizationGCP SqlDB) | apply (safe_DeleteUser SqlDB)]; change 1%nat with (need SqlDB);
    open_methods;
    unfold postgres.listOrganizationsForUserIDs, find_organization, generateTeamExternalID; safely;
    unfold postgres.GenerateOrganizationExternalID, createGCP, time_Now; safely.
Qed.

(** * Constraints *)

Definition unique_key {R K} (key : R -> option K) (m : gmap string R) : Prop :=
  forall i j r r' k, m !! i = Some r -> m !! j = Some r' -> key r = Some k -> key r' = Some k -> i = j.
Definition refers {R T} (column : R -> string) (m : gmap string R) (target : gmap string T) : Prop :=
  forall i r, m !! i = Some r -> is_Some (target !! column r).

Lemma NoDup_omap {A B} (f : A -> option B) (l : list A) : NoDup l -> (NoDup (omap f l) <->
  forall x y b, x ∈ l -> y ∈ l -> f x = Some b -> f y = Some b -> x = y).
Proof.
  induction 1 as [|a l Ha Hl IH]; [split; [intros _ x y b []%not_elem_of_nil|intros _; constructor]|].
  simpl. destruct (f a) as [b|] eqn:Hf.
  - rewrite NoDup_cons, IH, list_elem_of_omap. split.
    + intros [Hn Huniq] x y b' [->|Hx]%elem_of_cons [->|Hy]%elem_of_cons Hfx Hfy; [done| | |by eapply Huniq].
      * destruct Hn. exists y. split; [done|congruence].
      * destruct Hn. exists x. split; [done|congruence].
    + intros Huniq. split.
      * intros (x & Hx & Hfx). enough (a = x) by (subst; done). by apply (Huniq a x b); [left|right| |].
      * intros x y b' Hx Hy. apply Huniq; by right.
  - rewrite IH. split.
    + intros Huniq x y b [->|Hx]%elem_of_cons [->|Hy]%elem_of_cons Hfx Hfy; [done|congruence|congruence|by eapply Huniq].
    + intros Huniq x y b Hx Hy. apply Huniq; by right.
Qed.
Lemma unique_index_spec {R K} `{EqDecision K} (key : R -> option K) (m : gmap string R) : unique_index key m = true <-> unique_key key m.
Proof.
  unfold unique_index, keys. rewrite bool_decide_eq_true, NoDup_omap by apply NoDup_map_to_list. split.
  - intros Huniq i j r r' k Hi Hj Hk Hk'. apply elem_of_map_to_list in Hi, Hj. pose proof (Huniq _ _ k Hi Hj Hk Hk'). congruence.
  - intros Huniq [i r] [j r'] k Hi%elem_of_map_to_list Hj%elem_of_map_to_list Hk Hk'. simpl in *. assert (i = j) as -> by by eapply Huniq. congruence.
Qed.
Lemma foreign_key_spec {R T} (column : R -> string) (m : gmap string R) (target : gmap string T) :
  foreign_key column m target = true <-> refers column m target.
Proof.
  unfold foreign_key. rewrite forallb_forall. split.
  - intros Hf i r Hi. apply elem_of_map_to_list, list_elem_of_In, Hf, bool_decide_eq_true in Hi. done.
  - intros Hf [i r] Hi%list_elem_of_In%elem_of_map_to_list. apply bool_decide_eq_true. by apply Hf in Hi.
Qed.

(** The unique indexes and the references of the tables. *)
Record well_formed (t : Tables) : Prop := mkWellFormed {
  unique_emails : unique_key (when_live users_deleted_at (fun r => strings.ToLower (users_email r))) (users t);
  unique_logins : unique_key (when_live logins_deleted_at (fun r => (logins_provider r, logins_provider_id r))) (logins t);
  unique_external_ids : unique_key (when_live organizations_deleted_at (fun r => strings.ToLower (organizations_external_id r))) (organizations t);
  unique_probe_tokens : unique_key (when_live organizations_deleted_at organizations_probe_token) (organizations t);
  unique_accounts : unique_key (fun r => Some (gcp_accounts_external_account_id r)) (gcp_accounts t);
  unique_subscriptions : unique_key subscription_name_key (gcp_accounts t);
  unique_team_external_ids : unique_key (fun r => Some (strings.ToLower (teams_external_id r))) (teams t);
  unique_memberships :
    unique_key (when_live team_memberships_deleted_at (fun r => (team_memberships_user_id r, team_memberships_team_id r))) (team_memberships t);
  unique_webhooks :
    unique_key (when_live webhooks_deleted_at (fun r => (webhooks_organization_id r, webhooks_integration_type r, webhooks_secret_id r))) (webhooks t);
  organization_teams : refers organizations_team_id (organizations t) (teams t);
  membership_users : refers team_memberships_user_id (team_memberships t) (users t);
  membership_teams : refers team_memberships_team_id (team_memberships t) (teams t);
  membership_roles : refers team_memberships_role_id (team_memberships t) (roles t);
  webhook_organizations : refers webhooks_organization_id (webhooks t) (organizations t) }.

Lemma violated_None (t : Tables) : violated t = None <-> Forall (fun c : error * bool => c.2 = true) (constraints t).
Proof.
  unfold violated. rewrite fmap_None. rewrite Forall_forall. split.
  - intros Hf c Hc. pose proof (List.find_none _ _ Hf c) as Hn. apply list_elem_of_In in Hc. by apply negb_false_iff, Hn.
  - intros Hall. destruct (List.find _ _) eqn:Hf; [|done]. apply List.find_some in Hf as [Hin Hn]. apply list_elem_of_In, Hall in Hin. by rewrite Hin in Hn.
Qed.
Lemma sound_iff (t : Tables) : sound t <-> well_formed t.
Proof.
  unfold sound. rewrite violated_None. unfold constraints. rewrite !Forall_cons, Forall_nil. cbn [snd].
  rewrite !unique_index_spec, !foreign_key_spec. split; [intros (? & ? & ? & ? & ? & ? & ? & ? & ? & ? & ? & ? & ? & ? & _); by constructor|].
  intros []. done.
Qed.
Lemma wf_closed s : txns s = [] -> (wf s <-> well_formed (committed s)).
Proof.
  intros Ht. rewrite <- sound_iff. split; [by intros []|]. intros Hs. split; [done|]. rewrite Ht. constructor.
Qed.
Lemma connected_closed s : txns s = [] -> connected SqlDB s.
Proof. intros Ht. unfold connected. simpl. by rewrite Ht. Qed.

(** ** Identifiers in lower case

    The queries compare identifiers with the lower case of what they are given. No constraint says that those
    stored are in lower case: the statements keep it so. *)

Definition in_lower_case (s : string) : Prop := strings.ToLower s = s.
Record lower_ids (t : Tables) : Prop := mkLowerIDs {
  lower_emails : map_Forall (fun _ r => in_lower_case (users_email r)) (users t);
  lower_organizations : map_Forall (fun _ r => in_lower_case (organizations_external_id r)) (organizations t);
  lower_teams : map_Forall (fun _ r => in_lower_case (teams_external_id r)) (teams t) }.
Definition keeping {A} (f : Statement A) : Prop := forall now t a t', lower_ids t -> f now t = inr (a, t') -> lower_ids t'.
Definition lowered (s : Server) : Prop := lower_ids (committed s) /\ Forall (fun x => forall t, view x = Some t -> lower_ids t) (txns s).
Definition lowers {A} (m : postgres.Op A) : Prop := forall s, lowered s -> lowered (m s).2.

Lemma lowers_bind {A B} (m : postgres.Op A) (k : A -> postgres.Op B) : lowers m -> (forall a, lowers (k a)) -> lowers (bind m k).
Proof. intros Hm Hk s Hs. specialize (Hm s Hs). unfold bind. destruct (m s) as [[] s']; simpl in *; try done. by apply Hk. Qed.
Lemma lowers_try {A} (m : postgres.Op A) : lowers m -> lowers (try m).
Proof. intros Hm s Hs. specialize (Hm s Hs). unfold try. by destruct (m s) as [[] s']. Qed.
Lemma lowers_local {A} (m : postgres.Op A) : local m -> lowers m.
Proof. intros Hm s [Hc Hv]. destruct (Hm s) as (_ & Hc' & Ht & _). split; [by rewrite Hc'|by rewrite Ht]. Qed.
Lemma lowers_ret {A} (a : A) : lowers (ret a).
Proof. by intros s. Qed.
Lemma lowers_throw {A} e : lowers (throw e : postgres.Op A).
Proof. by intros s. Qed.
Lemma lowers_out_of_fuel {A} : lowers (out_of_fuel : postgres.Op A).
Proof. by intros s. Qed.
Lemma lowers_or_else {A} (p : option A) e : lowers (or_else p e).
Proof. destruct p; [apply lowers_ret|apply lowers_throw]. Qed.
Lemma lowers_read_env {A} (f : Env -> nat -> A) : lowers (postgres.read_env f).
Proof. apply lowers_local. intros s. split; [by left|done]. Qed.
Lemma lowers_nextval seq : lowers (nextval seq).
Proof. apply lowers_local. intros s. split; [by left|done]. Qed.
Lemma lowers_now_in d : lowers (now_in d).
Proof. apply lowers_local. intros s. destruct d; (split; [by left|done]). Qed.
#[local] Hint Resolve lowers_ret lowers_throw lowers_out_of_fuel lowers_or_else lowers_read_env lowers_nextval lowers_now_in lowers_bind lowers_try : pg.
Lemma lowers_for_each {A} (l : list A) (body : A -> postgres.Op unit) : (forall x, lowers (body x)) -> lowers (for_each l body).
Proof. intros Hb. induction l as [|x l IH]; simpl; auto with pg. Qed.
Lemma lowers_no_rows_as {A} e (m : postgres.Op A) : lowers m -> lowers (no_rows_as e m).
Proof. intros Hm. apply lowers_bind; [by apply lowers_try|]. intros []; auto with pg. Qed.
Lemma lowers_one_row m : lowers m -> lowers (one_row m).
Proof. intros Hm. apply lowers_bind; [done|]. intros x. destruct (x =? 1); auto with pg. Qed.

Lemma lowered_set_txn k f s : lowered s -> (forall x t, view (f x) = Some t -> view x = Some t \/ lower_ids t) -> lowered (set_txn k f s).
Proof.
  intros [Hc Hv] Hf. split; [done|]. simpl. apply Forall_alter_list; [done|]. intros x Hx t Ht. destruct (Hf x t Ht); [by apply Hx|done].
Qed.
Lemma lowered_abort d s : lowered s -> lowered (abort d s).
Proof. intros Hs. destruct d; [done|]. apply lowered_set_txn; [done|]. by left. Qed.
Lemma lowered_close k s : lowered s -> lowered (close k s).
Proof. intros [Hc Hv]. split; [done|]. by apply Forall_take. Qed.
Lemma lowers_tick d : lowers (tick d).
Proof.
  intros s Hs. unfold tick. destruct (faults s) as [|[e|] rest]; simpl; [done| |by destruct Hs].
  apply lowered_abort. by destruct Hs.
Qed.
Lemma lowers_send d : lowers (send d).
Proof. apply lowers_bind; [|intros _; apply lowers_tick]. intros s Hs. destruct d; simpl; [by destruct (full s)|done]. Qed.
Lemma lowers_query {A} d (f : Tables -> error + A) : lowers (query d f).
Proof.
  apply lowers_bind; [apply lowers_send|]. intros _ s Hs. destruct (sees d s) as [|t]; [done|]. destruct (f t); [by apply lowered_abort|done].
Qed.
Lemma lowers_select {A} d (f : Tables -> A) : lowers (select d f).
Proof. apply lowers_query. Qed.
Lemma lowers_QueryRow {A} d (f : Tables -> list A) : lowers (QueryRow d f).
Proof. apply lowers_bind; [apply lowers_select|]. auto with pg. Qed.
Lemma sees_lowered d s t : lowered s -> sees d s = inr t -> lower_ids t.
Proof.
  intros [Hc Hv]. destruct d as [|k]; simpl; [by intros [= <-]|]. destruct (txns s !! k) as [x|] eqn:Hx; [|done].
  destruct (aborted x); [done|]. intros [= <-]. destruct (view x) as [t|] eqn:Ht; [|done]. rewrite Forall_lookup in Hv. by apply (Hv k x).
Qed.
Lemma lowers_execute {A} d (f : Statement A) : keeping f -> lowers (execute d f).
Proof.
  intros Hf. apply lowers_bind; [apply lowers_now_in|]. intros now s Hs. destruct (sees d s) as [|t] eqn:Ht; [done|].
  destruct (blocked d s); [done|]. unfold checked. destruct (f now t) as [|[a t']] eqn:E; [by apply lowered_abort|].
  destruct (violated t'); [by apply lowered_abort|]. apply sees_lowered in Ht; [|done]. pose proof (Hf _ _ _ _ Ht E) as Ht'.
  destruct d as [|k]; [by destruct Hs|]. apply lowered_set_txn; [done|]. intros x t2 [= <-]. by right.
Qed.
Lemma lowers_exec {A} d (f : Statement A) : keeping f -> lowers (exec d f).
Proof. intros Hf. apply lowers_bind; [apply lowers_send|]. intros _. by apply lowers_execute. Qed.
Lemma lowers_insert {A} d seq (f : string -> Statement A) : (forall id, keeping (f id)) -> lowers (insert d seq f).
Proof.
  intros Hf. apply lowers_bind; [apply lowers_send|]. intros _. apply lowers_bind; [apply lowers_nextval|]. intros id. by apply lowers_execute.
Qed.
Lemma lowers_Transaction {A} d (f : postgres.DB -> postgres.Op A) : (forall d', lowers (f d')) -> lowers (Transaction d f).
Proof.
  intros Hf. destruct d as [|k]; [|apply Hf]. apply lowers_bind; [apply lowers_send|]. intros _.
  apply lowers_bind; [intros s [Hc Hv]; split; [done|]; simpl; apply Forall_app; by rewrite Forall_singleton|]. intros k.
  apply lowers_bind; [by apply lowers_try|]. intros [err|a].
  - apply lowers_bind; [intros s Hs; by apply lowered_close|]. auto with pg.
  - apply lowers_bind; [apply lowers_try, lowers_tick|]. intros [err|].
    + apply lowers_bind; [intros s Hs; by apply lowered_close|]. auto with pg.
    + apply lowers_bind; [|auto with pg]. intros s [Hc Hv]. unfold commit. destruct (txns s !! k) as [x|] eqn:Hx; [|done].
      destruct (aborted x); [by apply lowered_close|]. apply lowered_close. destruct (view x) as [t|] eqn:Ht; [|done].
      split; [|done]. simpl. rewrite Forall_lookup in Hv. by apply (Hv k x).
Qed.

(** *** What each statement writes *)

Lemma update_rows_Forall {R} (Q : R -> Prop) (P : string -> R -> bool) (f : R -> R) (m : gmap string R) :
  (forall r, Q r -> Q (f r)) -> map_Forall (fun _ => Q) m -> map_Forall (fun _ => Q) (update_rows P f m).
Proof.
  intros Hf Hm i r. unfold update_rows. rewrite map_lookup_imap. destruct (m !! i) as [r0|] eqn:Hi; simpl; [|done].
  intros [= <-]. specialize (Hm _ _ Hi). case_match; auto.
Qed.
Lemma insert_row_Forall {R} (Q : R -> Prop) pkey (get : Tables -> gmap string R) set id r t t' :
  insert_row pkey get set id r t = inr t' -> Q r -> map_Forall (fun _ => Q) (get t) -> exists m, t' = set m t /\ map_Forall (fun _ => Q) m.
Proof.
  unfold insert_row. destruct (get t !! id); [done|]. intros [= <-] Hr Hm. eexists. split; [done|]. by apply map_Forall_insert_2.
Qed.

Lemma keeping_users P f : (forall r, users_email (f r) = users_email r) -> keeping (update_users P f).
Proof.
  intros Hf now t a t' [Hu Ho Hl] [= _ <-]. split; [|done..]. apply (update_rows_Forall (fun r => in_lower_case (users_email r))); [|done].
  intros r. by rewrite Hf.
Qed.
Lemma keeping_organizations P f : (forall r, organizations_external_id (f r) = organizations_external_id r) -> keeping (update_organizations P f).
Proof.
  intros Hf now t a t' [Hu Ho Hl] [= _ <-]. split; [done| |done].
  apply (update_rows_Forall (fun r => in_lower_case (organizations_external_id r))); [|done]. intros r. by rewrite Hf.
Qed.
Lemma keeping_teams P f : (forall now r, teams_external_id (f now r) = teams_external_id r) -> keeping (update_teams P f).
Proof.
  intros Hf now t a t' [Hu Ho Hl] [= _ <-]. split; [done..|]. apply (update_rows_Forall (fun r => in_lower_case (teams_external_id r))); [|done].
  intros r. by rewrite Hf.
Qed.
Lemma keeping_update_organization e u : keeping (update_organization timestamptz e u).
Proof.
  intros now t a t' Ht. unfold update_organization. destruct (name_too_long u && _); [done|]. intros Hrun.
  refine (keeping_organizations _ _ _ _ _ _ _ Ht Hrun). intros r. unfold row_update, postgres.when_some.
  destruct u as [[] [] [] [] ? ? [] []]; reflexivity.
Qed.
Lemma keeping_last_login id now : keeping (update_last_login timestamptz id now).
Proof.
  intros now' t a t' [Hu Ho Hl] [= _ <-]. split; [|done..]. by apply (update_rows_Forall (fun r => in_lower_case (users_email r))).
Qed.
(** The others leave the three tables alone. *)
Definition ids (t : Tables) := (users t, organizations t, teams t).
Lemma keeping_ids {A} (f : Statement A) : (forall now t a t', f now t = inr (a, t') -> ids t' = ids t) -> keeping f.
Proof. intros Hf now t a t' [Hu Ho Hl] Hrun. injection (Hf _ _ _ _ Hrun) as Hu' Ho' Hl'. by split; rewrite ?Hu', ?Ho', ?Hl'. Qed.
Lemma keeping_memberships P f : keeping (update_team_memberships P f).
Proof. by apply keeping_ids; intros now t a t' [= _ <-]. Qed.
Lemma keeping_logins P f : keeping (update_logins P f).
Proof. by apply keeping_ids; intros now t a t' [= _ <-]. Qed.
Lemma keeping_gcp_accounts P f : keeping (update_gcp_accounts P f).
Proof. by apply keeping_ids; intros now t a t' [= _ <-]. Qed.
Lemma keeping_webhooks P f : keeping (update_webhooks P f).
Proof. by apply keeping_ids; intros now t a t' [= _ <-]. Qed.
Lemma keeping_session u p i x : keeping (update_session jsonb u p i x).
Proof. apply keeping_ids. intros now t a t'. unfold update_session. destruct (session_value jsonb x); [done|]. by intros [= _ <-]. Qed.
Lemma keeping_returning {A} (a : A) f : (forall t t', lower_ids t -> f t = inr t' -> lower_ids t') -> keeping (fun _ t => returning a (f t)).
Proof. intros Hf now t x t' Ht. unfold returning. destruct (f t) eqn:E; [done|]. intros [= _ <-]. by eapply Hf. Qed.

Lemma keeping_insert_user email u id : keeping (insert_user timestamptz email u id).
Proof.
  apply keeping_returning. intros t t' [Hu Ho Hl] Hrun.
  destruct (insert_row_Forall (fun r => in_lower_case (users_email r)) _ _ _ _ _ _ _ Hrun (strings.ToLower_idemp _) Hu) as (m & -> & Hm). done.
Qed.
Lemma keeping_insert_organization o id : keeping (insert_organization timestamptz o id).
Proof.
  intros now t a t' [Hu Ho Hl]. unfold insert_organization. destruct (too_long _); [done|]. unfold returning.
  destruct (insert_row _ _ _ _ _ t) as [|t2] eqn:Hrun; [done|]. intros [= _ <-].
  destruct (insert_row_Forall (fun r => in_lower_case (organizations_external_id r)) _ _ _ _ _ _ _ Hrun (strings.ToLower_idemp _) Ho) as (m & -> & Hm). done.
Qed.
Lemma keeping_insert_team e n x id : keeping (insert_team timestamptz e n x id).
Proof.
  intros now t a t' [Hu Ho Hl]. unfold insert_team. destruct (too_long _); [done|]. destruct (eqs n EmptyString); [done|]. unfold returning.
  destruct (insert_row _ _ _ _ _ t) as [|t2] eqn:Hrun; [done|]. intros [= _ <-].
  destruct (insert_row_Forall (fun r => in_lower_case (teams_external_id r)) _ _ _ _ _ _ _ Hrun (strings.ToLower_idemp _) Hl) as (m & -> & Hm). done.
Qed.
Lemma insert_row_ids {R} pkey (get : Tables -> gmap string R) set id r t t' :
  (forall m, ids (set m t) = ids t) -> insert_row pkey get set id r t = inr t' -> ids t' = ids t.
Proof. intros Hs. unfold insert_row. destruct (get t !! id); [done|]. by intros [= <-]. Qed.
Lemma keeping_insert_other {A R} (a : A) pkey (get : Tables -> gmap string R) set id r :
  (forall m t, ids (set m t) = ids t) -> keeping (fun _ t => returning a (insert_row pkey get set id r t)).
Proof.
  intros Hs. apply keeping_ids. intros now t x t'. unfold returning. destruct (insert_row _ _ _ _ _ t) eqn:E; [done|]. intros [= _ <-].
  by eapply insert_row_ids.
Qed.
Lemma keeping_insert_login u p i x now id : keeping (insert_login timestamptz jsonb u p i x now id).
Proof.
  unfold insert_login. intros n t a t' Ht. destruct (session_value jsonb x); [done|]. by apply (keeping_insert_other tt "logins_pkey" logins set_logins).
Qed.
Lemma keeping_insert_membership u tm r id : keeping (insert_membership u tm r id).
Proof. by apply keeping_insert_other. Qed.
Lemma keeping_insert_gcp e now id : keeping (insert_gcp timestamptz e now id).
Proof. by apply keeping_insert_other. Qed.
Lemma keeping_insert_webhook o i a b id : keeping (insert_webhook o i a b id).
Proof. intros now. by apply (keeping_insert_other (id, now) "webhooks_pkey" webhooks set_webhooks). Qed.
#[local] Hint Resolve keeping_update_organization keeping_last_login keeping_memberships keeping_logins keeping_gcp_accounts keeping_webhooks
  keeping_session keeping_insert_user keeping_insert_organization keeping_insert_team keeping_insert_login keeping_insert_membership
  keeping_insert_gcp keeping_insert_webhook : pg.

Ltac lowering := repeat match goal with
  | |- lowers (bind _ _) => apply lowers_bind; [|intros]
  | |- lowers (Transaction _ _) => apply lowers_Transaction; intros
  | |- lowers (match ?x with _ => _ end) => destruct x
  | |- lowers (for_each _ _) => apply lowers_for_each; intros
  | |- lowers (no_rows_as _ _) => apply lowers_no_rows_as
  | |- lowers (one_row _) => apply lowers_one_row
  | |- lowers (try _) => apply lowers_try
  | |- lowers (query _ _) => apply lowers_query
  | |- lowers (select _ _) => apply lowers_select
  | |- lowers (QueryRow _ _) => apply lowers_QueryRow
  | |- lowers (exec _ _) => apply lowers_exec
  | |- lowers (insert _ _ _) => apply lowers_insert; intros
  | |- keeping (update_users _ _) => apply keeping_users; done
  | |- keeping (update_organizations _ _) => apply keeping_organizations; done
  | |- keeping (update_teams _ _) => apply keeping_teams; done
  | |- keeping _ => solve [auto with pg]
  | |- lowers _ => solve [auto with pg]
  end.

Lemma lowers_externalids_Generate : lowers postgres.externalids_Generate.
Proof. apply lowers_read_env. Qed.
#[local] Hint Resolve lowers_externalids_Generate : pg.
Lemma lowers_generate_team_loop n d : lowers (generate_team_loop n d).
Proof. induction n; simpl; unfold teamExternalIDUsed; lowering. Qed.
Lemma lowers_generate_organization_loop n d : lowers (generate_organization_loop n d).
Proof. induction n; simpl; unfold postgres.ExternalIDUsed; lowering. Qed.
Lemma lowers_tokens_Generate : lowers postgres.tokens_Generate.
Proof. unfold postgres.tokens_Generate. lowering. Qed.
#[local] Hint Resolve lowers_generate_team_loop lowers_generate_organization_loop lowers_tokens_Generate : pg.
Lemma lowers_token_loop n d token : lowers (token_loop n d token).
Proof. induction n; simpl; lowering. Qed.
Lemma lowers_update_org d P f : (forall r, organizations_external_id (f r) = organizations_external_id r) -> lowers (update_org d P f).
Proof. intros Hf. unfold update_org. apply lowers_bind; [|intros; apply lowers_ret]. by apply lowers_exec, keeping_organizations. Qed.
#[local] Hint Resolve lowers_token_loop : pg.
#[local] Hint Extern 1 (lowers (update_org _ _ _)) => apply lowers_update_org; done : pg.
Ltac open_helpers :=
  unfold postgres.CreateUser, postgres.CreateTeam, generateTeamExternalID, postgres.CreateTeamAsUser, postgres.AddUserToTeam,
    postgres.getTeamUserIsPartOf, postgres.ensureUserIsPartOfTeamByName, createOrganization, postgres.ExternalIDUsed,
    postgres.ListTeamsForUserID, postgres.FindUserByID, postgres.FindUserByEmail, postgres.FindUserByLogin, find_user,
    postgres.FindTeamByExternalID, find_team, UserIsMemberOfTeam, postgres.FindOrganizationByID, find_organization, postgres.FindGCP,
    postgres.UpdateOrganization, postgres.DeleteOrganization, postgres.DeleteTeam, teamHasOrganizations, postgres.ListOrganizationsInTeam,
    postgres.CreateOrganizationWithTeam, postgres.SetOrganizationGCP, postgres.AddFeatureFlag, postgres.DeleteUser, createGCP,
    postgres.listOrganizationsForUserIDs, postgres.GenerateOrganizationExternalID, postgres.Now, time_Now.
Lemma method_lowers A (c : DBCall A) : lowers (pg A c).
Proof. destruct c; unfold postgres.postgres; cbn [method]; open_methods; do 4 (open_helpers; lowering). Qed.

Lemma postgres_keeps A (c : DBCall A) s : txns s = [] -> well_formed (committed s) ->
  (room (connections c) s -> comes_back (pg A c s).1) /\ well_formed (committed (pg A c s).2) /\
  (lower_ids (committed s) -> lower_ids (committed (pg A c s).2)) /\ (definite (pg A c s).1 -> txns (pg A c s).2 = []).
Proof.
  intros Ht Hw. destruct (method_safe A c s) as (Ho & [Hs' _] & Hf); [by apply wf_closed|by apply connected_closed|].
  split; [done|]. split; [by apply sound_iff|]. split; [|intros Hd; rewrite <- Ht; by destruct (Hf Hd)].
  intros Hl. by apply method_lowers; split; [|rewrite Ht; constructor].
Qed.

(** ** A pool with one connection left *)

Definition last_connection (s : Server) : Prop := max_open_conns s = Z.of_nat (others s) + 1.
Lemma last_send s : last_connection s -> txns s = [] -> faults s = [] -> send SqlDB s = (Ret tt, s).
Proof.
  intros Hl Ht Hf. unfold send, bind, acquire. replace (full s) with false; [unfold tick; by rewrite Hf|].
  unfold full. rewrite Ht. symmetry. apply andb_false_iff. right. apply Z.leb_gt. unfold last_connection in Hl. simpl. lia.
Qed.
Lemma begun_send s : last_connection s -> txns s = [] -> send SqlDB (begun s) = (Deadlock, begun s).
Proof.
  intros Hl Ht. unfold send, bind, acquire. replace (full (begun s)) with true; [done|]. unfold full. simpl. rewrite Ht. simpl. symmetry. apply andb_true_iff. rewrite Z.ltb_lt, Z.leb_le. unfold last_connection in Hl. lia.
Qed.
Lemma waits_in_Transaction {A} (f : postgres.DB -> postgres.Op A) s : last_connection s -> txns s = [] -> faults s = [] ->
  (f (SqlTx 0) (begun s)).1 = Deadlock -> (Transaction SqlDB f s).1 = Deadlock.
Proof.
  intros Hl Ht Hf Hd. unfold Transaction. rewrite (bind_Ret _ _ _ _ _ (last_send s Hl Ht Hf)), (bind_Ret begin _ _ _ _ (begin_run s)), Ht.
  unfold bind at 1, try. simpl length. by destruct (f (SqlTx 0) (begun s)) as [[] ?].
Qed.
Lemma bind_Deadlock {A B} (m : postgres.Op A) (k : A -> postgres.Op B) s : (m s).1 = Deadlock -> (bind m k s).1 = Deadlock.
Proof. unfold bind. by destruct (m s) as [[] ?]. Qed.
Lemma try_Deadlock {A} (m : postgres.Op A) s : (m s).1 = Deadlock -> (try m s).1 = Deadlock.
Proof. unfold try. by destruct (m s) as [[] ?]. Qed.
Lemma query_waits {A} (f : Tables -> error + A) s : last_connection s -> txns s = [] -> (query SqlDB f (begun s)).1 = Deadlock.
Proof. intros Hl Ht. apply bind_Deadlock. by rewrite begun_send. Qed.

(** These start a transaction and then send a query on another connection. *)
Definition needs_two {A} (c : DBCall A) : Prop :=
  match c with
  | CallDeleteUser _ _ | CallSetOrganizationGCP _ _ => True
  | CallCreateOrganizationWithTeam _ _ _ _ te tn _ => te <> EmptyString \/ tn <> EmptyString
  | _ => False
  end.
Lemma second_connection A (c : DBCall A) s : last_connection s -> txns s = [] -> faults s = [] -> needs_two c -> (pg A c s).1 = Deadlock.
Proof.
  intros Hl Ht Hf. destruct c; try done; unfold postgres.postgres; cbn [method needs_two]; intros Hn.
  - unfold postgres.DeleteUser. erewrite (bind_Ret postgres.Now); [|reflexivity].
    apply waits_in_Transaction; try done. apply bind_Deadlock. by apply query_waits.
  - apply waits_in_Transaction; try done. apply bind_Deadlock. 
    unfold postgres.FindGCP. apply bind_Deadlock, try_Deadlock, bind_Deadlock. by apply query_waits.
  - apply waits_in_Transaction; try done. apply bind_Deadlock. destruct (decide (teamExternalID <> EmptyString)) as [He|He].
    + unfold postgres.getTeamUserIsPartOf. destruct (decide _); [done|]. apply bind_Deadlock, bind_Deadlock. by apply query_waits.
    + destruct Hn as [|Hn]; [done|]. destruct (decide (teamName <> EmptyString)); [|done].
      unfold postgres.ensureUserIsPartOfTeamByName. destruct (decide _); [done|]. apply bind_Deadlock, bind_Deadlock. by apply query_waits.
Qed.

(** C6: Every method of the PostgreSQL users database, from tables whose unique indexes and references hold, leaves
    tables for which they hold, with the e-mail addresses of users and the external ids of organizations and teams in
    lower case if they were (which no constraint asks for), and no transaction open, whatever statements fail. It
    returns (unless its loop for a free identifier is cut short) if the pool has the connections it takes: its transactions
    never wait for a lock of another connection of their own. It takes one, but for three methods that take two: these
    begin a transaction and send statements on another connection, so that they wait for as long as others keep theirs when one
    is left of the limit (max_open_conns). *)
Theorem postgres_well_formed A (c : DBCall A) s : txns s = [] -> well_formed (committed s) ->
  (room (connections c) s -> comes_back (pg A c s).1) /\ well_formed (committed (pg A c s).2) /\
  (lower_ids (committed s) -> lower_ids (committed (pg A c s).2)) /\ (definite (pg A c s).1 -> txns (pg A c s).2 = []) /\
  (last_connection s -> faults s = [] -> needs_two c -> (pg A c s).1 = Deadlock).
Proof.
  intros Ht Hw. destruct (postgres_keeps A c s Ht Hw) as (Ho & Hw' & Hl & Hd). do 4 (split; [done|]).
  intros Hlast Hf. by apply second_connection.
Qed.

(** * Calls that fail *)

Definition reads {A} (m : postgres.Op A) : Prop := forall s, committed (m s).2 = committed s.
Lemma reads_bind {A B} (m : postgres.Op A) (k : A -> postgres.Op B) : reads m -> (forall a, reads (k a)) -> reads (bind m k).
Proof. intros Hm Hk s. unfold bind. specialize (Hm s). destruct (m s) as [[] s']; simpl in *; try done. by rewrite Hk. Qed.
Lemma reads_try {A} (m : postgres.Op A) : reads m -> reads (try m).
Proof. intros Hm s. unfold try. specialize (Hm s). by destruct (m s) as [[] s']. Qed.
Lemma reads_local {A} (m : postgres.Op A) : local m -> reads m.
Proof. intros Hm s. apply Hm. Qed.
Lemma reads_ret {A} (a : A) : reads (ret a).
Proof. done. Qed.
Lemma reads_throw {A} e : reads (throw e : postgres.Op A).
Proof. done. Qed.
Lemma reads_or_else {A} (p : option A) e : reads (or_else p e).
Proof. by destruct p. Qed.
Lemma reads_tick : reads (tick SqlDB).
Proof. intros s. unfold tick. by destruct (faults s) as [|[]]. Qed.
Lemma reads_send : reads (send SqlDB).
Proof. apply reads_bind; [|intros _; apply reads_tick]. intros s. simpl. by destruct (full s). Qed.
Lemma reads_query {A} (f : Tables -> error + A) : reads (query SqlDB f).
Proof. apply reads_bind; [apply reads_send|]. intros _ s. simpl. by destruct (f (committed s)). Qed.
Lemma reads_select {A} (f : Tables -> A) : reads (select SqlDB f).
Proof. apply reads_query. Qed.
Lemma reads_QueryRow {A} (f : Tables -> list A) : reads (QueryRow SqlDB f).
Proof. apply reads_bind; [apply reads_select|intros; apply reads_or_else]. Qed.
Lemma reads_no_rows_as {A} e (m : postgres.Op A) : reads m -> reads (no_rows_as e m).
Proof. intros Hm. apply reads_bind; [by apply reads_try|]. by intros []. Qed.
Lemma reads_Now : reads postgres.Now.
Proof. done. Qed.
Lemma reads_tokens_Generate : reads postgres.tokens_Generate.
Proof. apply reads_bind; [done|]. intros. apply reads_or_else. Qed.

(** An error changes nothing that is committed. *)
Definition undone {A} (m : postgres.Op A) : Prop := forall s e s', wf s -> connected SqlDB s -> m s = (Err e, s') -> committed s' = committed s.
Lemma undone_reads {A} (m : postgres.Op A) : reads m -> undone m.
Proof. intros Hm s e s' _ _ Hrun. specialize (Hm s). by rewrite Hrun in Hm. Qed.
Lemma undone_bind {A B} n (m : postgres.Op A) (k : A -> postgres.Op B) :
  reads m -> safe_with n SqlDB m -> (forall a, undone (k a)) -> undone (bind m k).
Proof.
  intros Hr Hm Hk s e s'' Hs Hc. unfold bind. specialize (Hr s). destruct (Hm s Hs Hc) as (_ & Hs' & Hf).
  destruct (m s) as [[a|x| | |] s']; simpl in *; try done.
  - intros Hrun. rewrite <- Hr. apply (Hk a s' e s''); [done| |done]. apply (frame_connected SqlDB s); [by apply Hf|done].
  - intros [= _ <-]. done.
Qed.
(** What comes after the last change does not fail. *)
Lemma undone_then {A B} (m : postgres.Op A) (f : A -> B) : undone m -> undone (bind m (fun a => ret (f a))).
Proof. intros Hm s e s' Hs Hc. unfold bind. destruct (m s) as [[] s1] eqn:E; try done. intros [= <- <-]. by eapply Hm. Qed.
Lemma undone_no_rows_as {A} e (m : postgres.Op A) : undone m -> undone (no_rows_as e m).
Proof.
  intros Hm s x s' Hs Hc. unfold no_rows_as, bind, try. destruct (m s) as [[] s1] eqn:E; try done. intros [= _ <-]. by eapply Hm.
Qed.
Lemma undone_execute {A} (f : Statement A) : undone (execute SqlDB f).
Proof.
  intros s e s' _ _. unfold execute, bind. simpl. destruct (existsb wrote (txns s)); [done|].
  destruct (checked _) as [|[a t]]; [|done]. by intros [= _ <-].
Qed.
Lemma undone_exec {A} (f : Statement A) : undone (exec SqlDB f).
Proof. apply (undone_bind (need SqlDB)); [apply reads_send|apply safe_send|]. intros _. apply undone_execute. Qed.
Lemma undone_insert {A} seq (f : string -> Statement A) : undone (insert SqlDB seq f).
Proof.
  apply (undone_bind (need SqlDB)); [apply reads_send|apply safe_send|]. intros _. apply (undone_bind 0); [done|apply safe_nextval|].
  intros id. apply undone_execute.
Qed.
Lemma undone_Transaction {A} (f : postgres.DB -> postgres.Op A) : (forall k, safe (SqlTx k) (f (SqlTx k))) -> undone (Transaction SqlDB f).
Proof.
  intros Hf. apply (undone_bind (need SqlDB)); [apply reads_send|apply safe_send|]. intros _ s e s' Hs Hc.
  rewrite (bind_Ret begin _ _ _ _ (begin_run s)). set (k := length (txns s)).
  destruct (Hf k (begun s) (begun_wf s Hs)) as (_ & Hs2 & Hfr); [apply connected_tx; [by apply begun_connected|rewrite begun_length; unfold k; lia]|].
  unfold bind at 1, try at 1.
  destruct (f (SqlTx k) (begun s)) as [[a|x| | |] s2]; try done; cbn [fst snd] in Hs2, Hfr; destruct (Hfr I) as (_ & Hcom & _); change (committed (begun s)) with (committed s) in Hcom.
  - unfold bind at 1, try at 1. pose proof (reads_tick s2) as Ht. destruct (tick SqlDB s2) as [[u|y| | |] s3]; try done; cbn [snd] in Ht.
    + unfold bind at 1, commit. destruct (txns s3 !! k) as [z|]; [destruct (aborted z)|]; cbn; intros Hrun; simplify_eq; cbn; congruence.
    + intros [= _ <-]. cbn. congruence.
  - intros [= _ <-]. cbn. congruence.
Qed.

(** ** Counts of rows *)

Lemma elem_of_rows {R} (P : string -> R -> bool) (m : gmap string R) kv : kv ∈ rows P m <-> m !! kv.1 = Some kv.2 /\ P kv.1 kv.2 = true.
Proof.
  unfold rows. rewrite list_elem_of_In, List.filter_In, <- list_elem_of_In. destruct kv as [k v]. by rewrite elem_of_go_range.
Qed.
Lemma update_rows_none {R} (P : string -> R -> bool) (f : R -> R) (m : gmap string R) : rows P m = [] -> update_rows P f m = m.
Proof.
  intros Hr. apply map_eq. intros i. unfold update_rows. rewrite map_lookup_imap. destruct (m !! i) as [r|] eqn:Hi; simpl; [|done].
  destruct (P i r) eqn:HP; [|done]. assert (Hin : (i, r) ∈ rows P m) by by apply elem_of_rows. rewrite Hr in Hin. by apply not_elem_of_nil in Hin.
Qed.
Lemma affected_le_1 {R} (P : string -> R -> bool) (m : gmap string R) :
  (forall i j r r', m !! i = Some r -> m !! j = Some r' -> P i r = true -> P j r' = true -> i = j) -> affected P m <= 1.
Proof.
  intros Huniq. unfold affected. assert (Hnd : NoDup (rows P m)) by apply NoDup_ListNoDup, List.NoDup_filter, NoDup_ListNoDup, (NoDup_fmap_1 fst), NoDup_go_range_keys.
  destruct (rows P m) as [|x [|y l]] eqn:Hr; [simpl; lia..|]. exfalso.
  assert (Hx : x ∈ rows P m) by (rewrite Hr; left). assert (Hy : y ∈ rows P m) by (rewrite Hr; right; left).
  apply elem_of_rows in Hx as [Hx HPx], Hy as [Hy HPy]. pose proof (Huniq _ _ _ _ Hx Hy HPx HPy) as He.
  assert (x = y) as -> by (destruct x, y; simpl in *; congruence). rewrite NoDup_cons in Hnd. destruct Hnd as [Hn _]. apply Hn. left.
Qed.

Lemma exec_Ret {A} (f : Statement A) s a s' : exec SqlDB f s = (Ret a, s') -> wf s ->
  exists now t, f now (committed s) = inr (a, t) /\ committed s' = t.
Proof.
  intros Hrun Hs. apply bind_inv_Ret in Hrun as ([] & s1 & Htick & Hrun). pose proof (reads_send s) as Hr. rewrite Htick in Hr. cbn in Hr.
  unfold execute in Hrun. apply bind_inv_Ret in Hrun as (now & s2 & Hnow & Hrun). injection Hnow as Hnow Hs2.
  cbn [sees] in Hrun. destruct (blocked SqlDB s2); [done|]. unfold checked in Hrun. assert (Hc2 : committed s2 = committed s) by (subst s2; done).
  rewrite Hc2 in Hrun. exists now. destruct (f now (committed s)) as [|[a' t]]; [done|]. destruct (violated t); [done|].
  injection Hrun as <- <-. by exists t.
Qed.
Lemma undone_one_row (f : Statement Z) :
  (forall now t n t', well_formed t -> f now t = inr (n, t') -> n = 1 \/ t' = t) -> undone (one_row (exec SqlDB f)).
Proof.
  intros Hf s e s'' Hs Hc. unfold one_row, bind. destruct (exec SqlDB f s) as [[n|x| | |] s'] eqn:E; try done.
  - destruct (exec_Ret _ _ _ _ E Hs) as (now & t & Hrun & Hc'). destruct (Z.eqb_spec n 1) as [|Hn]; [done|].
    intros [= _ <-]. destruct (Hf _ _ _ _ (proj1 (sound_iff _) (wf_committed _ Hs)) Hrun) as [|Ht]; [done|congruence].
  - intros [= _ <-]. by eapply undone_exec.
Qed.
Lemma affected_one {R} (P : string -> R -> bool) f (m : gmap string R) :
  (forall i j r r', m !! i = Some r -> m !! j = Some r' -> P i r = true -> P j r' = true -> i = j) -> affected P m = 1 \/ update_rows P f m = m.
Proof.
  intros Huniq%affected_le_1. destruct (rows P m) as [|x l] eqn:Hr; [right; by apply update_rows_none|].
  left. unfold affected in *. rewrite Hr in *. cbn in *. lia.
Qed.
Lemma undone_update_user id f : undone (one_row (exec SqlDB (update_users (is_live_user id) f))).
Proof.
  apply undone_one_row. intros _ t n t' _ [= <- <-]. destruct (affected_one (is_live_user id) f (users t)) as [|Hr]; [|by left|right].
  - unfold is_live_user, eqs. intros i j r r' _ _ [Hi _]%andb_true_iff [Hj _]%andb_true_iff. apply bool_decide_eq_true in Hi, Hj. congruence.
  - rewrite Hr. by destruct t.
Qed.
Lemma is_live_org_unique t e i j r r' : well_formed t -> organizations t !! i = Some r -> organizations t !! j = Some r' ->
  is_live_org e i r = true -> is_live_org e j r' = true -> i = j.
Proof.
  intros Hw Hi Hj [Hei Hli]%andb_true_iff [Hej Hlj]%andb_true_iff. unfold has_external_id, eqs in *. rewrite bool_decide_eq_true in Hei, Hej.
  eapply (unique_external_ids t Hw i j r r' (strings.ToLower (strings.ToLower e))); try done;
    unfold when_live; unfold live_org, live in Hli, Hlj; [by rewrite Hli, Hei|by rewrite Hlj, Hej].
Qed.
Lemma undone_update_organization e u : undone (one_row (exec SqlDB (update_organization timestamptz e u))).
Proof.
  apply undone_one_row. intros now t n t' Hw. unfold update_organization. destruct (name_too_long u && _); [done|].
  intros [= <- <-]. destruct (affected_one (is_live_org e) (row_update timestamptz u) (organizations t)) as [|Hr]; [|by left|right].
  - intros i j r r'. by apply is_live_org_unique.
  - rewrite Hr. by destruct t.
Qed.

(** The calls that are one statement, or one transaction in which everything happens. *)
Definition transactional {A} (c : DBCall A) : bool :=
  match c with
  | CallDeleteUser _ _ | CallMoveOrganizationToTeam _ _ _ _ | CallSetOrganizationGCP _ _ | CallDeleteTeam _
  | CallCreateOrganizationWithTeam _ _ _ _ _ _ _ => false
  | _ => true
  end.


Ltac reading := repeat match goal with
  | |- reads (bind _ _) => apply reads_bind; [|intros]
  | |- reads (match ?x with _ => _ end) => destruct x
  | |- reads (no_rows_as _ _) => apply reads_no_rows_as
  | |- reads (try _) => apply reads_try
  | |- reads _ => first [apply reads_query | apply reads_select | apply reads_QueryRow | apply reads_or_else | apply reads_Now
                        | apply reads_tokens_Generate | done | solve [auto with pg]]
  end.
Ltac undoing := repeat match goal with
  | |- undone (bind (exec _ _) (fun _ => ret _)) => apply undone_then, undone_exec
  | |- undone (bind (Transaction _ _) (fun _ => ret _)) => apply undone_then
  | |- undone (bind _ _) => apply (undone_bind (need SqlDB)); [reading|safely|intros]
  | |- undone (match ?x with _ => _ end) => destruct x
  | |- undone (Transaction _ _) => apply undone_Transaction; intros; safely
  | |- undone (exec _ _) => apply undone_exec
  | |- undone (insert _ _ _) => apply undone_insert
  | |- undone _ => solve [apply undone_reads; reading | apply undone_update_user | apply undone_update_organization]
  end.
Lemma reads_find_user f : reads (find_user SqlDB f).
Proof. unfold find_user. reading. Qed.
Lemma reads_FindUserByID id : reads (postgres.FindUserByID SqlDB id).
Proof. apply reads_find_user. Qed.
Lemma reads_find_team P : reads (find_team SqlDB P).
Proof. unfold find_team. reading. Qed.
Lemma reads_FindGCP a : reads (postgres.FindGCP SqlDB a).
Proof. unfold postgres.FindGCP. reading. Qed.
Lemma reads_FindOrganizationByID e : reads (postgres.FindOrganizationByID SqlDB e).
Proof. unfold postgres.FindOrganizationByID, find_organization. reading. Qed.
#[local] Hint Resolve reads_FindUserByID reads_FindGCP reads_FindOrganizationByID : pg.
Lemma safe_createGCP d a : safe d (createGCP timestamptz d a).
Proof. unfold createGCP. safely. Qed.
#[local] Hint Resolve safe_createGCP : pg.
Lemma undone_CreateOrganizationWebhook e i : undone (postgres.CreateOrganizationWebhook SqlDB e i).
Proof.
  unfold postgres.CreateOrganizationWebhook. apply (undone_bind (need SqlDB)); [reading|safely|]. intros secretID.
  apply (undone_bind (need SqlDB)); [reading|safely|]. intros key. apply (undone_bind (need SqlDB)); [reading|safely|]. intros o.
  intros s e' s' Hs Hc. unfold bind. destruct (no_rows_as _ _ s) as [[[id at_]|x| | |] s1] eqn:E; try done.
  intros [= _ <-]. by eapply (undone_no_rows_as _ _ (undone_insert _ _)).
Qed.
Lemma undone_CreateUser email details : undone (postgres.CreateUser timestamptz SqlDB email details).
Proof.
  unfold postgres.CreateUser. apply (undone_bind (need SqlDB)); [apply reads_Now|apply safe_Now|]. intros now.
  apply undone_then, undone_no_rows_as, undone_insert.
Qed.
Lemma undone_AddUserToTeam u t r : undone (postgres.AddUserToTeam SqlDB u t r).
Proof.
  unfold postgres.AddUserToTeam. apply (undone_bind (need SqlDB)); [unfold UserIsMemberOfTeam; reading|apply safe_UserIsMemberOfTeam|].
  intros [|]; [by apply undone_reads|]. intros s e s' Hs Hc. unfold bind, try.
  destruct (insert SqlDB _ _ s) as [[a|x| | |] s1] eqn:E; try done. destruct (decide _); [done|]. intros [= _ <-]. by eapply undone_insert.
Qed.
Lemma undone_UpdateOrganization e u : undone (postgres.UpdateOrganization timestamptz SqlDB e u).
Proof.
  unfold postgres.UpdateOrganization. apply (undone_bind (need SqlDB)); [apply reads_FindOrganizationByID|apply safe_FindOrganizationByID|]. intros o.
  destruct (sets_nothing u); [by apply undone_reads|]. destruct (Valid _); [by apply undone_reads|].
  apply (undone_then _ (fun _ => org_update u o)), undone_update_organization.
Qed.
Lemma undone_SetOrganizationWebhookFirstSeenAt secretID : undone (postgres.SetOrganizationWebhookFirstSeenAt timestamptz SqlDB secretID).
Proof.
  unfold postgres.SetOrganizationWebhookFirstSeenAt. apply (undone_bind (need SqlDB)); [done|unfold time_Now; safely|]. intros now s e s' Hs Hc. unfold bind.
  destruct (exec SqlDB _ s) as [[l|x| | |] s1] eqn:E; try done.
  - destruct (exec_Ret _ _ _ _ E Hs) as (now' & t & Hrun & Ht). destruct l as [|row l]; [|done]. intros [= _ <-].
    injection Hrun as Hnil <-. apply fmap_nil_inv in Hnil. rewrite Ht. rewrite update_rows_none by done. by destruct (committed s).
  - intros [= _ <-]. by eapply undone_exec.
Qed.
Lemma undone_method A (c : DBCall A) : transactional c = true -> undone (pg A c).
Proof.
  destruct c; intros Hc; try done; clear Hc; unfold postgres.postgres; cbn [method];
    try first [apply undone_CreateUser | apply undone_AddUserToTeam | apply undone_UpdateOrganization | apply undone_SetOrganizationWebhookFirstSeenAt
      | apply undone_CreateOrganizationWebhook | apply undone_reads; first [apply reads_find_user | apply reads_find_team | solve [auto with pg]]];
    open_methods;
    unfold postgres.listOrganizationsForUserIDs, find_organization, update_org, postgres.DeleteOrganization, postgres.CreateTeam, update_org,
      postgres.GenerateOrganizationExternalID, generateTeamExternalID;
    undoing.
Qed.

End methods.

(** * A database to run on *)

Module pg_sample.
#[export] Existing Instance list_range.

(** Columns keep instants to the microsecond. *)
Definition round_half (t : time.Time) : time.Time := (t + 500) / 1000 * 1000.
Abbreviation pg := (postgres 10 (fun token _ => inr ("hash of " +:+ token)) 10 round_half Some (fun _ _ l => l)).

Definition roles0 : gmap string NamedRow :=
  list_to_map [("admin", mkNamedRow "Admin" "Can do everything" 0 None); ("viewer", mkNamedRow "Viewer" "Can read" 0 None)].
Definition env0 : Env :=
  mkEnv (fun n => 1000000 * Z.of_nat n + 7) (fun n => "gen-id-" +:+ pretty (n mod 7)%nat) (fun n => Some ("token-" +:+ pretty n)) 0.
Definition s0 : Server := mkServer (mkTables ∅ ∅ ∅ ∅ ∅ ∅ ∅ roles0 ∅ ∅) [] ∅ [] (fun n => 1000 * Z.of_nat n) 0 env0 0 0.
Definition after {A} (c : DBCall A) (s : Server) : Server := (pg A c s).2.
Definition answer {A} (c : DBCall A) (s : Server) : outcome error A := (pg A c s).1.

(** A user with an organization, and an account of the marketplace whose organization is deleted. *)
Definition s1 : Server := after (CallCreateUser "Jo@example.com" None) s0.
Definition s2 : Server := after (CallCreateOrganizationWithTeam "1" "My-Org" "My Org" "probe-1" "" "Team A" 5000000) s1.
Definition s3 : Server := after (CallDeleteOrganization "gen-id-4" "1") (after (CallCreateOrganizationWithGCP "1" "E-1" 5000000) s2).

(** The n-th statement from now fails. *)
Definition broken : error := ErrMsg "driver: bad connection".
Definition failing (n : nat) (s : Server) : Server := set_faults (replicate n None ++ [Some broken]) s.
Definition leaves_a_change {A} (c : DBCall A) (s : Server) : Prop :=
  exists e, answer c s = Err e /\ committed (after c s) <> committed s.

Ltac a_change e f := exists e; split; [vm_compute; reflexivity|]; intros Hsame; apply (f_equal f) in Hsame; revert Hsame; vm_compute; discriminate.

Lemma s3_closed : txns s3 = [].
Proof. reflexivity. Qed.
Lemma s3_well_formed : well_formed (committed s3).
Proof. apply sound_iff. vm_compute. reflexivity. Qed.
Lemma s3_lower : lower_ids (committed s3).
Proof. split; apply (bool_decide_unpack _); vm_compute; exact I. Qed.
Definition s4 : Server := failing 15 s3.
(** The entitlement of the account is cancelled. *)
Definition s5 : Server := after (CallUpdateGCP "E-1" "consumer" "subscription" "standard" "ENTITLEMENT_CANCELLED") s3.
(** The same with a limit on the connections of the pool. *)
Definition with_limit (n : Z) (s : Server) : Server :=
  mkServer (committed s) (txns s) (sequences s) (faults s) (server_clock s) (asked s) (env s) n (others s).
Lemma with_limit_closed n s : txns s = [] -> txns (with_limit n s) = [].
Proof. done. Qed.
Lemma with_limit_committed n s : committed (with_limit n s) = committed s.
Proof. done. Qed.
Lemma limited_well_formed n : well_formed (committed (with_limit n s3)).
Proof. rewrite with_limit_committed. exact s3_well_formed. Qed.
Lemma limited_lower n : lower_ids (committed (with_limit n s3)).
Proof. rewrite with_limit_committed. exact s3_lower. Qed.
Lemma s4_well_formed : well_formed (committed s4).
Proof. apply sound_iff. vm_compute. reflexivity. Qed.
Lemma after_Err {A} (c : DBCall A) s e : (pg A c s).1 = Err e -> pg A c s = (Err e, after c s).
Proof. intros <-. apply surjective_pairing. Qed.
End pg_sample.

(** With two connections the user is deleted; with one the method waits for the second. *)
Lemma postgres_well_formed_witness :
  comes_back (pg_sample.answer (CallDeleteUser "1" "1") (pg_sample.with_limit 2 pg_sample.s3)) /\
  well_formed (committed (pg_sample.after (CallDeleteUser "1" "1") (pg_sample.with_limit 2 pg_sample.s3))) /\
  lower_ids (committed (pg_sample.after (CallDeleteUser "1" "1") (pg_sample.with_limit 2 pg_sample.s3))) /\
  pg_sample.answer (CallDeleteUser "1" "1") (pg_sample.with_limit 1 pg_sample.s3) = Deadlock.
Proof.
  pose proof (fun n => @postgres_well_formed list_range 10 (fun token _ => inr ("hash of " +:+ token)) 10 pg_sample.round_half Some (fun _ _ l => l) _ (CallDeleteUser "1" "1")
    (pg_sample.with_limit n pg_sample.s3) (pg_sample.with_limit_closed n _ pg_sample.s3_closed) (pg_sample.limited_well_formed n)) as Hall.
  destruct (Hall 2) as (Hback & Hw & Hlow & _). destruct (Hall 1) as (_ & _ & _ & _ & Hone).
  split; [apply Hback; intros _; vm_compute; discriminate|]. split; [exact Hw|].
  split; [exact (Hlow (pg_sample.limited_lower 2))|]. apply Hone; [reflexivity|vm_compute; reflexivity|exact I].
Defined.

(** C7: A call that fails, whatever statement it fails at, has changed nothing, if it is one statement or a
    transaction in which everything happens. The five others can fail with a part of their changes made: an
    organization of a user that is not deleted is, a team is created for an organization that is not moved or not
    created (which takes no failing statement, but a token that is taken), an account is attached to an
    organization without its flag, and the members of a team that is not deleted are removed. *)
Theorem failed_calls :
  (forall `{GoRange} fuel bcrypt_generate cost timestamptz jsonb order_by A (c : DBCall A) s e s',
     txns s = [] -> well_formed (committed s) -> transactional c = true ->
     postgres fuel bcrypt_generate cost timestamptz jsonb order_by A c s = (Err e, s') -> committed s' = committed s) /\
  (pg_sample.leaves_a_change (CallDeleteUser "1" "1") (pg_sample.failing 4 pg_sample.s3) /\
   pg_sample.leaves_a_change (CallMoveOrganizationToTeam "my-org" "" "Team B" "1") (pg_sample.failing 6 pg_sample.s3) /\
   pg_sample.leaves_a_change (CallCreateOrganizationWithTeam "1" "other-org" "Other" "probe-1" "" "Team C" 5000000) pg_sample.s3 /\
   pg_sample.leaves_a_change (CallSetOrganizationGCP "my-org" "E-1") (pg_sample.failing 4 pg_sample.s3) /\
   pg_sample.leaves_a_change (CallDeleteTeam "2") (pg_sample.failing 2 pg_sample.s3)).
Proof.
  split.
  - intros R fuel bg cost ts jsonb ob A c s e s' Ht Hw Hc Hrun.
    eapply undone_method; [exact Hc|by apply wf_closed|by apply connected_closed|exact Hrun].
  - split_and!.
    + pg_sample.a_change pg_sample.broken (fun t => size (filter (fun kv => live_org kv.2 = true) (organizations t))).
    + pg_sample.a_change pg_sample.broken (fun t => size (teams t)).
    + pg_sample.a_change ErrOrgTokenIsTaken (fun t => size (teams t)).
    + pg_sample.a_change pg_sample.broken (fun t => size (filter (fun kv => is_null (organizations_gcp_account_id kv.2) = true) (organizations t))).
    + pg_sample.a_change pg_sample.broken (fun t => size (filter (fun kv => live_membership kv.2 = true) (team_memberships t))).
Qed.
Lemma failed_calls_witness :
  committed (pg_sample.after (CallCreateOrganizationWithGCP "1" "E-2" 5000000) pg_sample.s4) = committed pg_sample.s4.
Proof.
  refine (proj1 failed_calls list_range _ _ _ _ _ _ _ _ _ pg_sample.broken _ _ pg_sample.s4_well_formed _ (pg_sample.after_Err _ _ _ _));
    vm_compute; reflexivity.
Defined.
