(* ===== verification/ApiTeamSpec.v ===== *)
(** Changing the members of a team through the users HTTP API never leaves it without an
    administrator, over the in-memory database; over PostgreSQL, which finds addresses in any case, it can. *)
From Stdlib Require Import ZArith Lia Ascii String.
From stdpp Require Import base tactics option gmap strings list pretty.
From S2P Require Import Prelude GoStd Users Filter MemDB MemTeam MemOrg MemUser UsersDB MemInv MemSafety MemTeamSpec Sample MemDelete MemOrgSpec MemUserSpec Sessions UsersServer ServerSpec MemLawful UsersClient Entitlement Api ApiTeam ApiOrg ApiUser ApiRoutes ApiSpec Postgres PostgresDB PostgresSpec.

Section steps.
Context `{GoRange} (fuel : nat) (bcrypt_generate : string -> Z -> error + string) {Report : Type}.
#[local] Instance members_db : DBImpl DB := memory_db fuel bcrypt_generate.
Abbreviation Api := (M (Web DB Report) error).
Implicit Types (w : Web DB Report) (u : User).

(** A step that leaves everything as it is, then the rest. *)
Lemma after_read {A B} (P : Web DB Report -> Prop) w (m : Api A) (k : A -> Api B) :
  (m w).2 = w -> P w -> (forall a, m w = (Ret a, w) -> P (k a w).2) -> P (bind m k w).2.
Proof.
  intros Hm Hw Hk. unfold bind. destruct (m w) as [[] w'] eqn:Hr; simpl in *; subst; auto.
Qed.

Lemma after_write {A B} (P : Web DB Report -> Prop) w (c : DBCall A) o d (k : A -> Api B) :
  call c (web_db w) = (o, d) -> P (set_web_srv (set_srv_db d (web_srv w)) w) ->
  (forall a w', P w' -> P (k a w').2) -> P (bind (adb c) k w).2.
Proof.
  intros Hc Hw Hk. unfold bind, members_db. rewrite (adb_run fuel bcrypt_generate c w o d Hc). destruct o; auto.
Qed.

Lemma find_user_run email w x : ready w -> adb (CallFindUserByEmail email) w = (Ret x, w) ->
  users (web_db w) !! u_ID x = Some x /\ u_Email x = email.
Proof.
  intros Hw (d1 & Hr & _)%adb_Ret%locked_Ret. unfold findUserByEmail, bind, gets in Hr. simpl in Hr.
  apply or_else_Ret in Hr as [(k & Hk & He%bool_decide_eq_true)%first_match_Some _].
  destruct Hw as [((Hkey & _) & _) _]. pose proof (Hkey _ _ Hk) as Hid. simpl in Hid. by rewrite Hid.
Qed.

Lemma GetUserRoleInTeam_run id t w r : ready w -> adb (CallGetUserRoleInTeam id t) w = (Ret r, w) ->
  exists rid, memberships_of (web_db w) id !! t = Some rid /\ r = roles (web_db w) !! rid.
Proof.
  intros Hw Hr%adb_Ret. unfold call, members_db, memory_db, memory, GetUserRoleInTeam, bind, gets in Hr. simpl in Hr.
  destruct (memberships_of (web_db w) id !! t) as [rid|]; [|done]. simpl in Hr. injection Hr as <-. by exists rid.
Qed.

Definition has_admin_in t w : Prop := has_admin (web_db w) t.

Lemma serve_state {V} (m : Api (Reply V)) w : (serve m w).2 = (m w).2.
Proof. unfold serve, bind, try. by destruct (m w) as [[] w']. Qed.
Lemma as_state {V} (f : V -> Content) (m : Api (Reply V)) w : (as_ f m w).2 = (m w).2.
Proof. unfold as_, bind. by destruct (m w) as [[] w']. Qed.

(** ** Removing a member *)

Lemma memberships_after_removal d id t0 id' :
  memberships_of (RemoveUserFromTeam id t0 d).2 id' = if decide (id' = id) then delete t0 (memberships_of d id') else memberships_of d id'.
Proof.
  unfold memberships_of. simpl. case_decide as Hid; [subst|by rewrite lookup_alter_ne].
  rewrite lookup_alter_eq. by destruct (teamMemberships d !! id).
Qed.

Lemma removal_keeps d id t0 t :
  (t = t0 -> is_admin d t id -> exists id', id' <> id /\ is_admin d t id') -> has_admin d t ->
  has_admin (RemoveUserFromTeam id t0 d).2 t.
Proof.
  intros Hother [a Ha]. unfold has_admin, is_admin in *. setoid_rewrite memberships_after_removal.
  destruct (decide (t = t0)) as [->|Hne].
  - destruct (decide (a = id)) as [->|Hne].
    + destruct (Hother eq_refl Ha) as (id' & Hid & Ha'). exists id'. by rewrite decide_False.
    + exists a. by rewrite decide_False.
  - exists a. case_decide; [|done]. by rewrite lookup_delete_ne.
Qed.

(** Two different administrators are listed when the number is not one. *)
Lemma another_admin d t l m : catalogue d -> (forall m, m ∈ l -> member_with d t m) ->
  NoDup ((fun m => u_ID (ur_User m)) <$> l) -> m ∈ l -> r_ID (ur_Role m) = AdminRoleID -> admins l <> 1%nat ->
  exists id', id' <> u_ID (ur_User m) /\ is_admin d t id'.
Proof.
  intros Hc Hl Hnd Hm Hr Hn. unfold admins in Hn.
  assert (Hin : m ∈ filter (fun m => r_ID (ur_Role m) = AdminRoleID) l) by by apply list_elem_of_filter.
  assert (Hex : exists m', m' ∈ filter (fun m => r_ID (ur_Role m) = AdminRoleID) l /\ u_ID (ur_User m') <> u_ID (ur_User m)).
  { assert (Hnd' : NoDup ((fun m => u_ID (ur_User m)) <$> filter (fun m => r_ID (ur_Role m) = AdminRoleID) l)).
    { eapply sublist_NoDup; [exact Hnd|]. apply fmap_sublist, sublist_filter. }
    destruct (filter _ l) as [|m1 [|m2 ms]]; [by apply not_elem_of_nil in Hin|done|].
    simpl in Hnd'. apply NoDup_cons in Hnd' as [Hm1 _]. rewrite not_elem_of_cons in Hm1.
    destruct (decide (u_ID (ur_User m1) = u_ID (ur_User m))) as [He|He].
    - exists m2. split; [by do 2 constructor|]. rewrite <- He. intros Heq. by destruct Hm1 as [[] _].
    - exists m1. split; [by left|done]. }
  destruct Hex as (m' & [Hr' Hm']%list_elem_of_filter & Hne). exists (u_ID (ur_User m')). split; [done|].
  destruct (Hl _ Hm') as (rid & Hmem & Hrole & _). unfold is_admin. by rewrite Hmem, (admin_role d rid _ Hc Hrole Hr').
Qed.

Lemma removeUserFromTeam_keeps_admin u te email w t : ready w ->
  has_admin_in t w -> has_admin_in t (removeUserFromTeam u te email w).2.
Proof.
  intros Hw Ha. apply (after_read (has_admin_in t)); [by apply userCanAccessTeam_keeps|done|]. intros tm _.
  apply (after_read (has_admin_in t)); [by apply adb_read|done|]. intros x Hx%find_user_run; [|done].
  apply (after_read (has_admin_in t)); [by apply adb_read|done|]. intros ms Hms.
  destruct (decide (length ms = 1%nat)); [done|].
  apply (after_read (has_admin_in t)); [by apply adb_read|done|]. intros r (rid & Hrid & ->)%GetUserRoleInTeam_run; [|done].
  destruct (roles (web_db w) !! rid) as [r|] eqn:Hr; [|done].
  apply (after_read (has_admin_in t)); [done|done|]. intros r' [= <-].
  destruct (decide (r_ID r = AdminRoleID /\ admins ms = 1%nat)) as [|Hn]; [done|].
  apply (after_read (has_admin_in t)); [by case_decide; [|apply RequireTeamPermission_keeps]|done|]. intros [] _.
  eapply (after_write (has_admin_in t)); [apply surjective_pairing| |done].
  unfold has_admin_in. apply removal_keeps; [|exact Ha]. intros -> Hadm.
  destruct Hw as [Hd Hm]. apply adb_Ret, ListTeamUsersWithRoles_run in Hms as (_ & Hl & Hnd & Hall); [|done].
  destruct (Hall _ _ Hrid) as (m & Hin & Hid). rewrite <- Hid. destruct Hd as ((Hkey & _ & Hc) & _).
  assert (Hrole : ur_Role m = r).
  { destruct (Hl _ Hin) as (rid' & Hmem & Hrole & _). rewrite Hid, Hrid in Hmem. injection Hmem as <-.
    rewrite Hr in Hrole. by injection Hrole. }
  assert (Hra : r_ID r = AdminRoleID).
  { destruct Hc as (Hroles & _). unfold is_admin in Hadm. rewrite Hrid in Hadm. injection Hadm as ->.
    rewrite Hroles in Hr. vm_compute in Hr. by injection Hr as <-. }
  eapply another_admin; [done|exact Hl|done|done|by rewrite Hrole|]. naive_solver.
Qed.

(** ** Changing a role *)

Lemma role_change_keeps d id t0 rid t :
  (t = t0 -> exists id', id' <> id /\ is_admin d t id') -> has_admin d t -> has_admin (UpdateUserRoleInTeam id t0 rid d).2 t.
Proof.
  intros Hother [a Ha]. unfold UpdateUserRoleInTeam, bind, gets. simpl. case_decide; [|by exists a]. simpl.
  assert (Hex : exists a, (a <> id \/ t <> t0) /\ is_admin d t a).
  { destruct (decide (t = t0)) as [->|]; [|by exists a; eauto]. destruct (Hother eq_refl) as (id' & ? & ?). exists id'; eauto. }
  destruct Hex as (a' & Hne & Ha'). exists a'. unfold is_admin, memberships_of in *. simpl.
  destruct (decide (a' = id)) as [->|]; [|by rewrite lookup_insert_ne].
  rewrite lookup_insert_eq. simpl. destruct Hne; [done|]. by rewrite lookup_insert_ne.
Qed.

Lemma updateUserRoleInTeam_keeps_admin u te email body w t : ready w -> unique_team_ids (web_db w) ->
  users (web_db w) !! u_ID u = Some u ->
  has_admin_in t w -> has_admin_in t (updateUserRoleInTeam u te email body w).2.
Proof.
  intros Hw Huniq Hu Ha. apply (after_read (has_admin_in t)); [by apply userCanAccessTeam_keeps|done|].
  intros tm Htm%userCanAccessTeam_allowed; [|done]. destruct Htm as (_ & Htm & He).
  apply (after_read (has_admin_in t)); [by apply adb_read|done|]. intros x (Hx & Hemail)%find_user_run; [|done].
  apply (after_read (has_admin_in t)); [by destruct body|done|]. intros rid _.
  destruct (decide (email = u_Email u)) as [|Hne]; [done|].
  apply (after_read (has_admin_in t)); [by apply RequireTeamPermission_keeps|done|].
  intros [] (t2 & Ht2 & He2 & role & Hrole & ids & Hg & Hin)%RequireTeamPermission_allowed; [|done].
  pose proof (only_admins_update_roles _ _ Hg Hin) as ->.
  eapply (after_write (has_admin_in t)); [apply surjective_pairing| |done].
  unfold has_admin_in. apply role_change_keeps; [|exact Ha]. intros ->. exists (u_ID u). split.
  - intros Hid. rewrite Hid, Hx in Hu. injection Hu as ->. by rewrite Hemail in Hne.
  - by rewrite (Huniq tm t2) by congruence.
Qed.

End steps.

(** * Requests *)

Section requests.
Context `{GoRange} (fuel : nat) (bcrypt_generate : string -> Z -> error + string) {Report : Type}.
#[local] Instance members_api_db : DBImpl DB := db_of_memory fuel bcrypt_generate.
Variable answer : Effect -> option error.
Variable emailer : Mail Report -> option error.
Variable forceFeatureFlags : list string.
Variable encoder_Decode : time.Time -> string -> error + sessions.Session.
Variable FindBillingAccountByTeamID : string -> error + string.
Variable percentage : Z.
Variable usersSyncClient : bool.
Variables (stripHTML sha1_hex : string -> string).
Variable marketoMunchkinKey : string.
Variable ParseJWT : string -> error + string.
Variable ProviderID : string.
Variable http_list : string -> procurement.Reply (option procurement.APIError * list procurement.Entitlement).
Variable http_post : procurement.Post -> procurement.Reply (option procurement.APIError).
Implicit Types (w : Web DB Report).

#[local] Notation ServeHTTP := (ServeHTTP (S:=DB) answer emailer forceFeatureFlags encoder_Decode
  FindBillingAccountByTeamID percentage usersSyncClient stripHTML sha1_hex marketoMunchkinKey ParseJWT
  ProviderID http_list http_post).

(** The requests that change the role of a member, or remove one. *)
Definition on_members (req : Request) : Prop :=
  match req with api_users_team_update_role _ _ _ | api_users_team_remove_user _ _ => True | _ => False end.

(** C2: over the in-memory database, if no two teams have the same external id, no request to change the role of
    a member or to remove one, whoever makes it, takes the last administrator of any team: a team that has one
    before it has one after it. (Over PostgreSQL one does, see [demotes_herself]: the handler compares addresses
    exactly, and that database finds them in any case.) *)
Theorem team_keeps_admin cookies req w t : ready w -> unique_team_ids (web_db w) -> on_members req ->
  has_admin (web_db w) t -> has_admin (web_db (ServeHTTP cookies req w).2) t.
Proof.
  intros Hw Huniq Hreq Ha.
  destruct (ServeHTTP_run fuel bcrypt_generate answer emailer forceFeatureFlags encoder_Decode FindBillingAccountByTeamID
    percentage usersSyncClient stripHTML sha1_hex marketoMunchkinKey ParseJWT ProviderID http_list http_post cookies req w Hw)
    as (h & _ & [(u & (s & _ & _ & Hu) & Hr)|[Hr _]]); unfold members_api_db; rewrite Hr; [|exact Ha].
  rewrite serve_state. destruct req; try done; unfold dispatch; rewrite as_state.
  - by apply (removeUserFromTeam_keeps_admin fuel bcrypt_generate u teamExternalID userEmail (set_web_http h w)).
  - by apply (updateUserRoleInTeam_keeps_admin fuel bcrypt_generate u teamExternalID userEmail body (set_web_http h w)).
Qed.

End requests.

(** * At a concrete state *)

Import sample sample_api.

Lemma sample_team_ids : unique_team_ids (web_db web).
Proof.
  assert (Hk : map_Forall (fun _ t => map_Forall (fun _ t' => t_ExternalID t = t_ExternalID t' -> t_ID t = t_ID t') (teams (web_db web))) (teams (web_db web))).
  { apply (bool_decide_unpack _). vm_compute. exact I. }
  intros t t' Ht Ht'. by apply (Hk _ _ Ht _ _ Ht').
Qed.

Definition team_ext : string := from_option t_ExternalID EmptyString (teams sample.d !! "1").

Lemma team_keeps_admin_witness :
  (serve_sample "0" (api_users_team_remove_user team_ext "ada@example.org")).1 = Ret (ErrorReply 403 "forbidden" None) /\
  has_admin (web_db (serve_sample "0" (api_users_team_remove_user team_ext "ada@example.org")).2) "1".
Proof.
  split; [vm_compute; reflexivity|].
  apply (team_keeps_admin fuel hash fine no_mail [] decode no_account 50 true same same EmptyString no_jwt "provider"
    list_nothing post_nothing (jar "0") (api_users_team_remove_user team_ext "ada@example.org") web "1" web_ready sample_team_ids I).
  exists "0". vm_compute. reflexivity.
Defined.

(** * Over PostgreSQL

    The only administrator of a team names herself with an address in another case: the handler, which refuses
    to change the role of its caller, does not recognize her, and the database does. *)

Module in_postgres.
Import PostgresDB.postgres.

#[local] Instance api_db : DBImpl postgres.Server := pg_sample.pg.
(** The role of administrators grants the permission to change roles. *)
Definition granting (t : Tables) : Tables :=
  mkTables (postgres.users t) (logins t) (postgres.organizations t) (gcp_accounts t) (teams t) (team_memberships t) (webhooks t) (roles t)
    {[ permission.UpdateTeamMemberRole := mkNamedRow "Team.member.update" EmptyString 0 None ]}
    {[ "1" := mkRolePermissionRow "admin" permission.UpdateTeamMemberRole None ]}.
Definition one_admin : postgres.Server := set_committed (granting (committed pg_sample.s2)) pg_sample.s2.
Definition jo : User := default (mkUser EmptyString EmptyString EmptyString 0 0 0 false 0 EmptyString EmptyString EmptyString EmptyString)
  (match pg_sample.answer (CallFindUserByID "1") one_admin with Ret u => Some u | _ => None end).
Definition server : UsersServer.Server postgres.Server string := UsersServer.mkServer one_admin [] (fun _ => 9) 0.
Definition web : Web postgres.Server string := mkWeb server [] (fun _ => 7) 0 (sessions.mkResponse env0 []) [].
Definition admins_of (s : postgres.Server) : list string :=
  (fun kv => team_memberships_user_id kv.2) <$> List.filter (fun kv => bool_decide (team_memberships_role_id kv.2 = AdminRoleID) && live_membership kv.2)
    (map_to_list (team_memberships (committed s))).

Lemma demotes_herself :
  admins_of one_admin = ["1"] /\ u_Email jo = "jo@example.com" /\
  (updateUserRoleInTeam jo "gen-id-2" "jo@example.com" (inr "viewer") web).1 = Err ErrForbidden /\
  (updateUserRoleInTeam jo "gen-id-2" "Jo@example.com" (inr "viewer") web).1 = Ret (Status 204) /\
  admins_of (srv_db (web_srv (updateUserRoleInTeam jo "gen-id-2" "Jo@example.com" (inr "viewer") web).2)) = [].
Proof. vm_compute. repeat split. Qed.

End in_postgres.
