(* ===== verification/PostgresLawful.v ===== *)
(** The PostgreSQL users database as the users service sees it: the conditions the list filters become select what
    the matchers select, and the look-ups keep what the server relies on, so that the server's theorems hold of
    the two together. *)
From Stdlib Require Import ZArith Lia Ascii String.
From stdpp Require Import base tactics option gmap strings list pretty.
From S2P Require Import Prelude GoStd Users Filter MemDB MemTeam MemOrg MemUser UsersDB MemInv MemSafety Sample MemDelete MemOrgSpec MemUserSpec Sessions UsersServer ServerSpec MemLawful Postgres PostgresDB PostgresSpec.
Import PostgresDB.postgres.

(** * Filters in SQL *)

Lemma bool_ext (a b : bool) : (a = true <-> b = true) -> a = b.
Proof. destruct a, b; naive_solver. Qed.

Section conditions.
Variable timestamptz : time.Time -> time.Time.

Lemma or3_true a b : or3 a b = Some true <-> a = Some true \/ b = Some true.
Proof. destruct a as [[]|], b as [[]|]; naive_solver. Qed.
Lemma and3_true a b : and3 a b = Some true <-> a = Some true /\ b = Some true.
Proof. destruct a as [[]|], b as [[]|]; naive_solver. Qed.
Lemma value_of_true x : value_of x = Some true <-> Some true ∈ x.
Proof.
  induction x as [|v x IH]; [split; [done|by intros ?%elem_of_nil]|]. simpl. rewrite or3_true, IH, elem_of_cons. naive_solver.
Qed.

(** The texts of the filters stand between parentheses, or are one comparison. *)
Definition single (x : text) : Prop := (length x <= 1)%nat.
Definition true_text (x : text) : Prop := x = [] \/ x = [Some true].
Lemma and_text_single x y : single x -> single y ->
  single (and_text x y) /\ (and_text x y = [] <-> x = [] /\ y = []) /\ (true_text (and_text x y) <-> true_text x /\ true_text y).
Proof.
  unfold single, true_text. destruct x as [|a [|]], y as [|b [|]]; simpl; intros; try lia; (split; [lia|]); (split; [naive_solver|]); [naive_solver..|].
  pose proof (and3_true a b). split.
  - intros [|[= Ht]]; [done|]. apply H1 in Ht as [-> ->]. naive_solver.
  - intros [[|[= ->]] [|[= ->]]]; try done. by right.
Qed.
Lemma fold_and_text (xs : list text) : Forall single xs ->
  single (foldr and_text [] xs) /\ (foldr and_text [] xs = [] <-> Forall (fun x => x = []) xs) /\ (true_text (foldr and_text [] xs) <-> Forall true_text xs).
Proof.
  induction 1 as [|x xs Hx Hxs (IHs & IHe & IHt)]; simpl.
  - split; [simpl; unfold single; simpl; lia|]. split; [by split; [constructor|]|]. split; [constructor|by left].
  - destruct (and_text_single x (foldr and_text [] xs) Hx IHs) as (Hs & He & Ht). split; [done|].
    rewrite !Forall_cons, <- IHe, <- IHt. done.
Qed.
Lemma parens_single x : single (parens x).
Proof. destruct x; unfold single; simpl; lia. Qed.
Lemma parens_true x : true_text (parens x) <-> x = [] \/ Some true ∈ x.
Proof.
  unfold true_text. destruct x as [|a x]; [simpl; naive_solver|]. rewrite <- (value_of_true (a :: x)). cbn [parens].
  split; (intros [|Hv]; [done|right]); [by injection Hv|by f_equal].
Qed.
Lemma parens_of_single x : single x -> parens x = x \/ exists a, x = [a] /\ parens x = [or3 a (Some false)].
Proof. destruct x as [|a [|]]; unfold single; simpl; [by left| |lia]. intros _. right. by exists a. Qed.
Lemma fold_or_text (xs : list text) : foldr or_text [] xs = concat xs.
Proof. induction xs; simpl; [done|]. unfold or_text. by f_equal. Qed.

(** ** One row *)

Context `{GoRange}.
Variables (t : Tables) (id : string) (r : OrgRow).
Hypothesis account_given : organizations_zuora_account_number r <> Some EmptyString.

Let column := column_of (org_columns t (id, r)).
Let o := scanOrganization t (id, r).

(** What a filter becomes for the row: one text, which is empty when the filter has no text. *)
Definition agrees (f : filter.Filter) : Prop := exists x, ToSql timestamptz column (filter.Where f) = Some x /\ single x /\
  (x = [] <-> filter.empty_text f = true) /\ (true_text x <-> filter.sat_org (filter.at_resolution timestamptz f) o).

Lemma agrees_leaf f v : ToSql timestamptz column (filter.Where f) = Some [v] -> filter.empty_text f = false ->
  (v = Some true <-> filter.sat_org (filter.at_resolution timestamptz f) o) -> agrees f.
Proof.
  intros Hv He Hs. exists [v]. split; [done|]. split; [unfold single; simpl; lia|]. rewrite He. split; [done|]. rewrite <- Hs.
  unfold true_text. split; [intros [|Hx]; [done|by injection Hx]|intros ->; by right].
Qed.
Lemma flag_iff (a b : bool) : a = b -> (Some a = Some true <-> Some b = Some true).
Proof. by intros ->. Qed.
Lemma related_Less x y : related Less (x ?= y) = (x <? y).
Proof. unfold Z.ltb. by destruct (x ?= y). Qed.
Lemma related_Greater x y : related Greater (x ?= y) = (y <? x).
Proof. rewrite (Z.compare_antisym y x). unfold Z.ltb. by destruct (y ?= x). Qed.

Lemma agrees_GCPSubscription : agrees (filter.GCPSubscription true).
Proof.
  eapply agrees_leaf; [reflexivity|done|]. rewrite and3_true. unfold filter.sat_org, o. cbn [filter.at_resolution filter.MatchesOrg].
  rewrite (inj_iff Some). unfold filter.gcp_active. cbn [scanOrganization o_GCP]. unfold scanGCP, org_gcp.
  destruct (organizations_gcp_account_id r) as [g|]; simpl; [|naive_solver].
  destruct (gcp_accounts t !! g) as [[a b c d e f st]|]; simpl; [|naive_solver].
  destruct b, st as [s|]; simpl; try naive_solver; rewrite ?(inj_iff Some); try naive_solver.
Qed.

Definition texts (l : list filter.Filter) : option (list text) :=
  (fix all (l : list filter.Sqlizer) : option (list text) :=
     match l with [] => Some [] | q :: l' => x ← ToSql timestamptz column q; xs ← all l'; Some (x :: xs) end) (List.map filter.Where l).
Lemma texts_agree l : Forall agrees l -> exists xs, texts l = Some xs /\ Forall single xs /\
  Forall2 (fun f x => (x = [] <-> filter.empty_text f = true) /\ (true_text x <-> filter.sat_org (filter.at_resolution timestamptz f) o)) l xs.
Proof.
  unfold texts. induction 1 as [|f l (x & Hx & Hs & He & Ht) _ (xs & Hxs & Hss & Hall)]; [exists []; by split_and!|].
  exists (x :: xs). simpl. rewrite Hx. simpl. rewrite Hxs. simpl. split_and!; [done|by constructor|by constructor].
Qed.
Lemma Forall2_to_Forall {A B} (P : A -> B -> Prop) (Q : A -> Prop) (R : B -> Prop) l l' :
  Forall2 P l l' -> (forall a b, P a b -> (R b <-> Q a)) -> (Forall R l' <-> Forall Q l).
Proof. intros Hl HP. induction Hl as [|a b l l' Hab Hl IH]; [done|]. by rewrite !Forall_cons, IH, (HP a b Hab). Qed.
Lemma Forall2_to_Exists {A B} (P : A -> B -> Prop) (Q : A -> Prop) (R : B -> Prop) l l' :
  Forall2 P l l' -> (forall a b, P a b -> (R b <-> Q a)) -> (Exists R l' <-> Exists Q l).
Proof. intros Hl HP. induction Hl as [|a b l l' Hab Hl IH]; [by rewrite !Exists_nil|]. by rewrite !Exists_cons, IH, (HP a b Hab). Qed.
Lemma forallb_Forall {A} (p : A -> bool) l : forallb p l = true <-> Forall (fun a => p a = true) l.
Proof. rewrite forallb_forall, Forall_forall. by setoid_rewrite list_elem_of_In. Qed.
Lemma true_single x : single x -> (true_text x <-> x = [] \/ Some true ∈ x).
Proof.
  unfold single, true_text. destruct x as [|a [|]]; simpl; intros; try lia; [naive_solver|]. rewrite list_elem_of_singleton. naive_solver.
Qed.

Lemma agrees_and fs : Forall agrees fs -> agrees (filter.AndFilter fs).
Proof.
  intros (xs & Hxs & Hs & Hall)%texts_agree. exists (parens (foldr and_text [] xs)). split.
  { cbn [filter.Where ToSql]. fold (texts fs). by rewrite Hxs. }
  destruct (fold_and_text xs Hs) as (Hsg & He & Ht). split; [apply parens_single|]. split.
  - cbn [filter.empty_text]. rewrite forallb_Forall, <- (Forall2_to_Forall _ _ (fun x => x = []) _ _ Hall (fun f x H => proj1 H)), <- He.
    by destruct (foldr and_text [] xs).
  - rewrite parens_true, <- true_single, Ht by done. unfold filter.sat_org. cbn [filter.at_resolution].
    change (Forall true_text xs <-> filter.sat_org (filter.And (List.map (filter.at_resolution timestamptz) fs)) o).
    rewrite filter.sat_and. change (List.map ?f ?l) with (f <$> l). rewrite Forall_fmap.
    exact (Forall2_to_Forall _ _ true_text _ _ Hall (fun f x H => proj2 H)).
Qed.
Lemma agrees_or fs : Forall agrees fs -> fs <> [] -> Forall (fun f => filter.empty_text f = false) fs ->
  forallb filter.org_filter (List.map (filter.at_resolution timestamptz) fs) = true -> agrees (filter.OrFilter fs).
Proof.
  intros (xs & Hxs & Hs & Hall)%texts_agree Hne Hfull Hwf. exists (parens (foldr or_text [] xs)). split.
  { cbn [filter.Where ToSql]. fold (texts fs). by rewrite Hxs. }
  assert (Hnil : Forall (fun x => x <> []) xs).
  { apply (Forall2_to_Forall _ (fun f => filter.empty_text f = false) _ _ _ Hall); [|done]. intros f x [He _]. rewrite He. by destruct (filter.empty_text f). }
  rewrite fold_or_text. assert (Hc : concat xs <> []). { destruct Hall as [|f x fs' xs' _ _]; [done|]. apply Forall_cons_1 in Hnil as [Hx _]. by destruct x. }
  split; [apply parens_single|]. split.
  - cbn [filter.empty_text]. split; [by destruct (concat xs)|]. intros Hemp. exfalso.
    rewrite forallb_Forall in Hemp. destruct fs as [|f fs]; [done|]. apply Forall_cons_1 in Hemp as [He _], Hfull as [Hf _]. congruence.
  - rewrite parens_true. change (concat xs = [] \/ Some true ∈ concat xs <-> filter.sat_org (filter.Or (List.map (filter.at_resolution timestamptz) fs)) o).
    rewrite filter.sat_or by done. change (List.map ?f ?l) with (f <$> l). rewrite Exists_fmap. unfold compose.
    rewrite <- (Forall2_to_Exists _ _ true_text _ _ Hall (fun f x H => proj2 H)).
    transitivity (Some true ∈ concat xs); [naive_solver|]. rewrite list_elem_of_In, in_concat, Exists_exists. split.
    + intros (x & Hx & Htrue). exists x. rewrite list_elem_of_In. split; [done|]. rewrite Forall_forall in Hs. apply true_single; [|right; by apply list_elem_of_In].
      apply Hs. by apply list_elem_of_In.
    + intros (x & Hx & Htrue). exists x. rewrite <- !list_elem_of_In. split; [done|]. rewrite Forall_forall in Hs, Hnil.
      apply true_single in Htrue as [->|]; [by destruct (Hnil _ Hx)|done|by apply Hs].
Qed.

Lemma agrees_null col v f : column col = Some v -> ToSql timestamptz column (filter.Where f) = compare_with timestamptz column Equal col filter.ANil ->
  filter.empty_text f = false -> filter.MatchesOrg (filter.at_resolution timestamptz f) o = Some (null_value v) -> agrees f.
Proof.
  intros Hc Hw He Hm. apply (agrees_leaf f (Some (null_value v))); [by rewrite Hw; unfold compare_with; rewrite Hc|done|].
  unfold filter.sat_org. by rewrite Hm.
Qed.
Lemma agrees_not_null col v f : column col = Some v -> ToSql timestamptz column (filter.Where f) = compare_with timestamptz column Differs col filter.ANil ->
  filter.empty_text f = false -> filter.MatchesOrg (filter.at_resolution timestamptz f) o = Some (negb (null_value v)) -> agrees f.
Proof.
  intros Hc Hw He Hm. apply (agrees_leaf f (Some (negb (null_value v)))); [by rewrite Hw; unfold compare_with; rewrite Hc|done|].
  unfold filter.sat_org. by rewrite Hm.
Qed.
Lemma no_account : filter.empty_str (o_ZuoraAccountNumber o) = is_null (organizations_zuora_account_number r).
Proof.
  unfold filter.empty_str, o. cbn [scanOrganization o_ZuoraAccountNumber]. revert account_given.
  destruct (organizations_zuora_account_number r) as [n|]; simpl; intros Hn; [|done]. apply bool_decide_eq_false. congruence.
Qed.
Lemma agrees_ZuoraAccount z : agrees (filter.ZuoraAccount z).
Proof.
  destruct z; [apply (agrees_not_null "organizations.zuora_account_number" (VText (organizations_zuora_account_number r)))|apply (agrees_null "organizations.zuora_account_number" (VText (organizations_zuora_account_number r)))]; try reflexivity.
  - change (Some (negb (filter.empty_str (o_ZuoraAccountNumber o))) = Some (negb (is_null (organizations_zuora_account_number r)))). by rewrite no_account.
  - change (Some (filter.empty_str (o_ZuoraAccountNumber o)) = Some (is_null (organizations_zuora_account_number r))). by rewrite no_account.
Qed.
Lemma agrees_GCP g : agrees (filter.GCP g).
Proof.
  destruct g; [apply (agrees_not_null "gcp_account_id" (VText (organizations_gcp_account_id r)))|apply (agrees_null "gcp_account_id" (VText (organizations_gcp_account_id r)))]; try reflexivity;
    cbn; by destruct (organizations_gcp_account_id r).
Qed.
Lemma agrees_SeenPromConnected b : agrees (filter.SeenPromConnected b).
Proof. destruct b; [apply (agrees_not_null "first_seen_prom_connected_at" (VTime (organizations_first_seen_prom_connected_at r)))|apply (agrees_null "first_seen_prom_connected_at" (VTime (organizations_first_seen_prom_connected_at r)))]; reflexivity. Qed.
Lemma agrees_TrialExpiredBy t' : agrees (filter.TrialExpiredBy t').
Proof. eapply agrees_leaf; [reflexivity|done|]. unfold filter.sat_org. cbn -[Z.compare Z.ltb]. apply flag_iff, related_Less. Qed.
Lemma agrees_TrialActiveAt t' : agrees (filter.TrialActiveAt t').
Proof. eapply agrees_leaf; [reflexivity|done|]. unfold filter.sat_org. cbn -[Z.compare Z.ltb]. apply flag_iff, related_Greater. Qed.
Lemma agrees_LastSentWeeklyReportBefore t' : agrees (filter.LastSentWeeklyReportBefore t').
Proof.
  eapply agrees_leaf; [reflexivity|done|]. unfold filter.sat_org. cbn -[Z.compare Z.ltb].
  destruct (organizations_last_sent_weekly_report_at r) as [x|]; [|done]. cbn -[Z.compare Z.ltb].
  unfold time.Before, Z.ltb. by destruct (x ?= timestamptz t').
Qed.
Lemma agrees_HasFeatureFlag f : agrees (filter.HasFeatureFlag f).
Proof.
  eapply agrees_leaf; [reflexivity|done|]. unfold filter.sat_org. cbn [filter.at_resolution filter.MatchesOrg]. apply flag_iff. unfold o_HasFeatureFlag, o. cbn.
  apply bool_ext. rewrite bool_decide_eq_true, existsb_exists. setoid_rewrite <- list_elem_of_In.
  setoid_rewrite bool_decide_eq_true. naive_solver.
Qed.
Lemma agrees_ID i : agrees (filter.ID i).
Proof. eapply agrees_leaf; reflexivity. Qed.
Lemma agrees_ExternalID e : agrees (filter.ExternalID e).
Proof. eapply agrees_leaf; reflexivity. Qed.
#[local] Hint Resolve agrees_GCPSubscription agrees_ZuoraAccount agrees_GCP agrees_SeenPromConnected agrees_TrialExpiredBy agrees_TrialActiveAt
  agrees_LastSentWeeklyReportBefore agrees_HasFeatureFlag agrees_ID agrees_ExternalID : pg.

Lemma all_agree fs : Forall (fun f => filter.portable f = true -> agrees f) fs -> forallb filter.portable fs = true -> Forall agrees fs.
Proof. rewrite forallb_Forall, !Forall_forall. auto. Qed.
Lemma at_resolution_org f : filter.org_filter f = true -> filter.org_filter (filter.at_resolution timestamptz f) = true.
Proof.
  assert (Hall : forall fs, Forall (fun f => filter.org_filter f = true -> filter.org_filter (filter.at_resolution timestamptz f) = true) fs ->
    forallb filter.org_filter fs = true -> forallb filter.org_filter (List.map (filter.at_resolution timestamptz) fs) = true).
  { intros fs. rewrite !forallb_Forall, !Forall_forall. intros IH Hp x (y & <- & Hy)%list_elem_of_In%in_map_iff. apply list_elem_of_In in Hy. auto. }
  induction f as [fs IH|fs IH|f Ha Ho] using filter.Filter_nested_ind; [by apply Hall..|].
  destruct f; try done; [by destruct (Ha fs)|by destruct (Ho fs)].
Qed.
Lemma portable_agrees f : filter.portable f = true -> agrees f.
Proof.
  induction f as [fs IH|fs IH|f Ha Ho] using filter.Filter_nested_ind; intros Hp.
  - by apply agrees_and, all_agree.
  - simpl in Hp. apply andb_true_iff in Hp as [[Hp Hne]%andb_true_iff Hfull]. apply agrees_or; [by apply all_agree|by destruct fs| |].
    + rewrite forallb_Forall in Hfull. eapply Forall_impl; [exact Hfull|]. by intros f ->%negb_true_iff.
    + rewrite !forallb_Forall in Hp |- *. rewrite Forall_forall in *. intros x (y & <- & Hy)%list_elem_of_In%in_map_iff.
      apply list_elem_of_In in Hy. by apply at_resolution_org, filter.portable_org, Hp.
  - destruct f as [fs|fs|z|g|[]| | | | | | | | | | | | | | | | | |]; try done; auto with pg; [by destruct (Ha fs)|by destruct (Ho fs)].
Qed.
End conditions.

(** * Queries when nothing fails *)

Lemma holds_single (b : bool) x : single x -> holds (and_text [Some b] x) = true <-> b = true /\ true_text x.
Proof.
  unfold single, true_text. destruct x as [|[v|] [|]]; simpl; intros Hl; try lia; destruct b; try destruct v; simpl; split; intros; try naive_solver.
Qed.
Lemma List_filter_ext {A} (p q : A -> bool) l : (forall x, x ∈ l -> p x = q x) -> List.filter p l = List.filter q l.
Proof.
  induction l as [|x l IH]; intros Hpq; simpl; [done|]. rewrite (Hpq x) by by left. rewrite IH by (intros; apply Hpq; by right). done.
Qed.

Lemma tick_quiet d s : faults s = [] -> tick d s = (Ret tt, s).
Proof. unfold tick. by intros ->. Qed.
(** A statement outside a transaction gets a connection, and is answered. *)
Definition quiet (s : Server) : Prop := faults s = [] /\ full s = false.
Lemma send_quiet s : quiet s -> send SqlDB s = (Ret tt, s).
Proof. intros [Hf Hp]. unfold send, bind, acquire. rewrite Hp. by apply tick_quiet. Qed.
Lemma query_quiet {A} (f : Tables -> error + A) s a : quiet s -> f (committed s) = inr a -> query SqlDB f s = (Ret a, s).
Proof. intros Hf Ha. unfold query. rewrite (bind_Ret _ _ _ _ _ (send_quiet _ Hf)). simpl. by rewrite Ha. Qed.
Lemma select_quiet {A} (f : Tables -> A) s : quiet s -> select SqlDB f s = (Ret (f (committed s)), s).
Proof. intros Hf. by apply query_quiet. Qed.
Lemma QueryRow_quiet {A} (f : Tables -> list A) s : quiet s ->
  QueryRow SqlDB f s = (match hd_error (f (committed s)) with Some a => Ret a | None => Err ErrNoRows end, s).
Proof.
  intros Hf. unfold QueryRow. rewrite (bind_Ret _ _ _ _ _ (select_quiet f s Hf)). by destruct (hd_error _).
Qed.
Lemma no_rows_as_Ret {A} e (m : postgres.Op A) s a s' : m s = (Ret a, s') -> no_rows_as e m s = (Ret a, s').
Proof. intros Hm. unfold no_rows_as, bind, try. by rewrite Hm. Qed.
Lemma no_rows_as_none {A} e (m : postgres.Op A) s s' : m s = (Err ErrNoRows, s') -> no_rows_as e m s = (Err e, s').
Proof. intros Hm. unfold no_rows_as, bind, try. by rewrite Hm. Qed.

(** A statement on the pool; [asked] is advanced by its [now()]. *)
Definition advanced (s : Server) : Server := set_asked (S (asked s)) s.
Lemma exec_quiet {A} (f : Statement A) s : quiet s -> txns s = [] ->
  exec SqlDB f s = match checked (f (server_clock s (asked s)) (committed s)) with
                   | inl e => (Err e, advanced s)
                   | inr (a, t) => (Ret a, set_committed t (advanced s))
                   end.
Proof.
  intros Hf Ht. unfold exec, execute. rewrite (bind_Ret _ _ _ _ _ (send_quiet _ Hf)). unfold bind. simpl. rewrite Ht. simpl.
  by destruct (checked _) as [|[a t]].
Qed.

(** The organizations a query shows. *)
Definition live_row (t : Tables) (o : Organization) : Prop :=
  exists id r, organizations t !! id = Some r /\ live_org r = true /\ o = scanOrganization t (id, r).
Lemma elem_of_organizationsQuery `{GoRange} (P : string -> OrgRow -> bool) t o :
  o ∈ organizationsQuery P t <-> exists id r, organizations t !! id = Some r /\ live_org r = true /\ P id r = true /\ o = scanOrganization t (id, r).
Proof.
  unfold organizationsQuery, organizations_where, newest_first. rewrite list_elem_of_fmap. setoid_rewrite sort.elem_of_ByDescending. split.
  - intros ([id r] & -> & Hin). apply elem_of_rows in Hin as [Hr [Hl HP]%andb_true_iff]. by exists id, r.
  - intros (id & r & Hr & Hl & HP & ->). exists (id, r). split; [done|]. apply elem_of_rows. split; [done|]. simpl. by rewrite Hl, HP.
Qed.
(** A look-up by a column gives a row with that value, or there is none. *)
Lemma find_organization_quiet `{GoRange} (column : OrgRow -> string) (shown : Organization -> string) v s :
  quiet s -> (forall t id r, shown (scanOrganization t (id, r)) = column r) ->
  (exists o, no_rows_as ErrNotFound (find_organization SqlDB (fun _ r => eqs (column r) v)) s = (Ret o, s) /\ live_row (committed s) o /\ shown o = v) \/
  (no_rows_as ErrNotFound (find_organization SqlDB (fun _ r => eqs (column r) v)) s = (Err ErrNotFound, s) /\
   forall o, live_row (committed s) o -> shown o <> v).
Proof.
  intros Hf Hshown. unfold find_organization. pose proof (QueryRow_quiet (organizationsQuery (fun _ r => eqs (column r) v)) s Hf) as Hq.
  pose proof (elem_of_organizationsQuery (fun _ r => eqs (column r) v) (committed s)) as Hin.
  destruct (organizationsQuery _ (committed s)) as [|o l].
  - right. split; [by apply no_rows_as_none|]. intros o (id & r & Hr & Hl & ->). rewrite Hshown. intros Hv.
    apply (not_elem_of_nil (scanOrganization (committed s) (id, r))), Hin. exists id, r. split_and!; [done..| |done]. by apply bool_decide_eq_true.
  - left. exists o. split; [by apply no_rows_as_Ret|]. destruct (proj1 (Hin o) (list_elem_of_here _ _)) as (id & r & Hr & Hl & Hv%bool_decide_eq_true & ->).
    split; [by exists id, r|]. by rewrite Hshown.
Qed.

(** * Lists of organizations *)

Section lists.
Context `{GoRange} (fuel : nat) (bcrypt_generate : string -> Z -> error + string) (cost : Z)
  (timestamptz : time.Time -> time.Time) (jsonb : string -> option string)
  (order_by : forall {R}, string -> list (string * R) -> list (string * R)).

(** Accounts of organizations are set to a number, and external ids are stored in lower case. *)
Definition account_numbers (t : Tables) : Prop := map_Forall (fun _ r => organizations_zuora_account_number r <> Some EmptyString) (organizations t).

Definition matching (f : filter.Filter) (t : Tables) (kv : string * OrgRow) : bool :=
  live_org kv.2 && bool_decide (filter.MatchesOrg (filter.at_resolution timestamptz f) (scanOrganization t kv) = Some true).
Lemma where_matching t f : account_numbers t -> filter.portable f = true ->
  where_ timestamptz (org_columns t) zero_org_row (fun kv => [Some (live_org kv.2)]) f (go_range (organizations t))
  = inr (List.filter (matching f t) (go_range (organizations t))).
Proof.
  intros Hacc Hf. unfold where_.
  destruct (portable_agrees timestamptz t EmptyString zero_org_row ltac:(discriminate) f Hf) as (x0 & -> & _). f_equal.
  apply List_filter_ext. intros [id r] Hr%elem_of_go_range.
  destruct (portable_agrees timestamptz t id r (Hacc _ _ Hr) f Hf) as (x & -> & Hs & _ & Ht).
  apply bool_ext. unfold matching. cbn beta. rewrite holds_single by done. rewrite Ht, andb_true_iff, bool_decide_eq_true. done.
Qed.
Lemma ListOrganizations_quiet f page s : quiet s -> account_numbers (committed s) -> filter.portable f = true ->
  postgres.ListOrganizations timestamptz SqlDB f page s
  = (Ret (scanOrganization (committed s) <$> page_of page (newest_first organizations_created_at
       (List.filter (matching f (committed s)) (go_range (organizations (committed s)))))), s).
Proof. intros Hf Hacc Hp. apply query_quiet; [done|]. by rewrite where_matching. Qed.
Lemma elem_of_matching f t o :
  o ∈ scanOrganization t <$> page_of 0 (newest_first organizations_created_at (List.filter (matching f t) (go_range (organizations t)))) <->
  live_row t o /\ filter.sat_org (filter.at_resolution timestamptz f) o.
Proof.
  unfold page_of, newest_first. change (0 <? 0) with false. cbn match. rewrite list_elem_of_fmap. setoid_rewrite sort.elem_of_ByDescending. split.
  - intros ([id r] & -> & Hin). rewrite list_elem_of_In, List.filter_In, <- list_elem_of_In, elem_of_go_range in Hin.
    destruct Hin as [Hr [Hl Hm%bool_decide_eq_true]%andb_true_iff]. split; [by exists id, r|done].
  - intros [(id & r & Hr & Hl & ->) Hm]. exists (id, r). split; [done|]. rewrite list_elem_of_In, List.filter_In, <- list_elem_of_In, elem_of_go_range.
    split; [done|]. unfold matching. simpl in *. rewrite Hl. by apply bool_decide_eq_true.
Qed.
End lists.

(** C8: The condition a list filter becomes in SQL selects what the in-memory matcher of the filter selects, with
    its instants as the column keeps them: for filters in which the two mean the same, a list is the page of the
    live organizations that match, the newest first. The condition for a subscription that is not active is not
    one of them: its OR is not between parentheses, so that deleted organizations are listed. *)
Theorem ListOrganizations_in_SQL :
  (forall `{GoRange} fuel bcrypt_generate cost timestamptz jsonb order_by f page s,
     quiet s -> account_numbers (committed s) -> filter.portable f = true ->
     let t := committed s in
     let matches (kv : string * OrgRow) := filter.MatchesOrg (filter.at_resolution timestamptz f) (scanOrganization t kv) in
     postgres fuel bcrypt_generate cost timestamptz jsonb order_by _ (CallListOrganizations f page) s
     = (Ret (scanOrganization t <$> page_of page (newest_first organizations_created_at
          (List.filter (fun kv => live_org kv.2 && bool_decide (matches kv = Some true)) (go_range (organizations t))))), s)) /\
  exists o, pg_sample.answer (CallListOrganizations (filter.GCPSubscription false) 0) pg_sample.s5 = Ret [o] /\ o_DeletedAt o <> 0.
Proof.
  split; [intros; by apply ListOrganizations_quiet|]. eexists. split; [vm_compute; reflexivity|]. vm_compute. discriminate.
Qed.
Definition without_account : filter.Filter := filter.And [filter.ZuoraAccount false; filter.TrialActiveAt 5000].
Lemma ListOrganizations_in_SQL_witness : exists o,
  pg_sample.answer (CallListOrganizations without_account 1) pg_sample.s3 = Ret [o] /\ o_ExternalID o = "my-org".
Proof.
  unfold pg_sample.answer. rewrite (proj1 ListOrganizations_in_SQL _ _ _ _ _ _ _ without_account 1 pg_sample.s3).
  - eexists. split; [vm_compute; reflexivity|]. reflexivity.
  - split; vm_compute; reflexivity.
  - apply (bool_decide_eq_true_1 _). vm_compute. reflexivity.
  - reflexivity.
Defined.

(** * What the server relies on *)

Section lawful.
Context `{GoRange} (fuel : nat) (bcrypt_generate : string -> Z -> error + string) (cost : Z)
  (timestamptz : time.Time -> time.Time) (jsonb : string -> option string)
  (order_by : forall {R}, string -> list (string * R) -> list (string * R)).
Abbreviation pg := (postgres fuel bcrypt_generate cost timestamptz jsonb (@order_by)).

Definition lower_org_ids (t : Tables) : Prop :=
  map_Forall (fun _ r => strings.ToLower (organizations_external_id r) = organizations_external_id r) (organizations t).
Record postgres_ok (s : Server) : Prop := mkOk {
  ok_closed : txns s = [];
  ok_quiet : quiet s;
  ok_well_formed : well_formed (committed s);
  ok_accounts : account_numbers (committed s);
  ok_lower_ids : lower_org_ids (committed s) }.
Definition member_row (t : Tables) (userID teamID : string) : Prop :=
  exists id m, team_memberships t !! id = Some m /\ live_membership m = true /\ team_memberships_user_id m = userID /\ team_memberships_team_id m = teamID.

(** A key that the rows of two organizations have in common. *)
Lemma live_row_unique {K} (key : OrgRow -> K) (t : Tables) o o' (shown : Organization -> K) :
  unique_key (when_live organizations_deleted_at key) (organizations t) -> (forall id r, key r = shown (scanOrganization t (id, r))) ->
  live_row t o -> live_row t o' -> shown o = shown o' -> o = o'.
Proof.
  intros Huniq Hkey (i & r & Hr & Hl & ->) (j & r' & Hr' & Hl' & ->) Hs. rewrite <- !Hkey in Hs.
  assert (i = j) as ->.
  { apply (Huniq i j r r' (key r)); try done; unfold when_live; unfold live_org, live in Hl, Hl'; [by rewrite Hl|by rewrite Hl', Hs]. }
  congruence.
Qed.

Lemma elem_of_memberships P t x : x ∈ memberships P t <-> team_memberships t !! x.1 = Some x.2 /\ live_membership x.2 = true /\ P x.2 = true.
Proof. unfold memberships. by rewrite elem_of_rows, andb_true_iff. Qed.
Lemma elem_of_flat_map {A B} (f : A -> list B) l y : y ∈ flat_map f l <-> exists x, x ∈ l /\ y ∈ f x.
Proof. rewrite list_elem_of_In, in_flat_map. by setoid_rewrite list_elem_of_In. Qed.
Lemma ListOrganizationsForUserIDs_members (us : list string) t o :
  o ∈ scanOrganization t <$> ordered (@order_by) organizations_created_at EmptyString
    (flat_map (fun kv => (fun _ => kv) <$>
        memberships (fun m => eqs (team_memberships_team_id m) (organizations_team_id kv.2) && bool_decide (team_memberships_user_id m ∈ us)) t)
      (rows (fun _ r => false || live_org r) (organizations t))) <->
  live_row t o /\ exists u, u ∈ us /\ member_row t u (o_TeamID o).
Proof.
  unfold ordered. rewrite decide_True by done. unfold newest_first. rewrite list_elem_of_fmap. setoid_rewrite sort.elem_of_ByDescending.
  setoid_rewrite elem_of_flat_map. setoid_rewrite elem_of_rows. setoid_rewrite list_elem_of_fmap. setoid_rewrite elem_of_memberships.
  setoid_rewrite andb_true_iff. unfold eqs. setoid_rewrite bool_decide_eq_true. split.
  - intros (kv & -> & [id r] & [Hr Hl] & [i m] & -> & Hm & Hlm & Ht & Hu). split; [by exists id, r|].
    exists (team_memberships_user_id m). split; [done|]. by exists i, m.
  - intros [(id & r & Hr & Hl & ->) (u & Hu & i & m & Hm & Hlm & <- & Ht)]. exists (id, r). split; [done|]. exists (id, r). split; [done|]. by exists (i, m).
Qed.

(** ** An organization's weekly report *)

Definition sent_row (sent : option time.Time) : OrgRow -> OrgRow := set_last_sent (stamp timestamptz sent).
Lemma is_live_org_same_id t e id r : lower_org_ids t -> organizations t !! id = Some r -> live_org r = true ->
  is_live_org e id r = same_id (organizations_external_id r) e.
Proof.
  intros Hlow Hr Hl. unfold is_live_org, has_external_id, eqs, same_id. by rewrite Hl, andb_true_r, (Hlow _ _ Hr).
Qed.
Lemma live_update t e sent o : let t' := set_organizations (update_rows (is_live_org e) (sent_row sent) (organizations t)) t in
  live_row t' o <-> exists id r, organizations t !! id = Some r /\ live_org r = true /\
    o = if is_live_org e id r then set_LastSentWeeklyReportAt (stamp timestamptz sent) (scanOrganization t (id, r)) else scanOrganization t (id, r).
Proof.
  intros t'. unfold live_row, t'. cbn [organizations set_organizations]. unfold update_rows. setoid_rewrite map_lookup_imap. split.
  - intros (id & r' & Hr' & Hl & ->). destruct (organizations t !! id) as [r|] eqn:Hr; [|done]. simpl in Hr'. exists id, r.
    destruct (is_live_org e id r); injection Hr' as <-; by split_and!.
  - intros (id & r & Hr & Hl & ->). exists id. rewrite Hr. simpl. eexists. split; [done|]. by destruct (is_live_org e id r).
Qed.
Lemma is_live_org_unique_row t e i j r r' : well_formed t -> organizations t !! i = Some r -> organizations t !! j = Some r' ->
  is_live_org e i r = true -> is_live_org e j r' = true -> i = j.
Proof. apply is_live_org_unique. Qed.
Lemma scan_id t id r : o_ID (scanOrganization t (id, r)) = id.
Proof. done. Qed.
Lemma SetLastSent_run e sent s s' : postgres_ok s -> pg _ (CallSetLastSentWeeklyReportAt e sent) s = (Ret tt, s') ->
  postgres_ok s' /\
  committed s' = set_organizations (update_rows (is_live_org e) (sent_row sent) (organizations (committed s))) (committed s).
Proof.
  intros [Ht Hf Hw Ha Hlow]. unfold postgres.postgres, method, postgres.SetLastSentWeeklyReportAt, update_org.
  set (f := update_organizations _ _). unfold bind. rewrite (exec_quiet f) by done.
  destruct (checked _) as [|[n t]] eqn:Hc; [done|]. intros [= <-]. pose proof (checked_sound _ _ _ Hc) as Hsound.
  assert (Ht' : t = set_organizations (update_rows (is_live_org e) (sent_row sent) (organizations (committed s))) (committed s)).
  { unfold checked, f, update_organizations in Hc. destruct (violated _); [done|]. by injection Hc as _ <-. }
  split; [|done]. split; try done; [by apply sound_iff| |]; subst t; simpl; unfold update_rows, account_numbers, lower_org_ids; simpl;
    intros id r'; rewrite map_lookup_imap; destruct (organizations (committed s) !! id) as [r|] eqn:Hr; try done; simpl;
    destruct (is_live_org e id r); intros [= <-]; first [exact (Ha _ _ Hr)|exact (Hlow _ _ Hr)].
Qed.

#[export, program] Instance postgres_lawful : @LawfulDB Server (postgres fuel bcrypt_generate cost timestamptz jsonb (@order_by)) := {|
  ok := postgres_ok;
  ServerSpec.live s := live_row (committed s);
  member s := member_row (committed s);
  stored _ := timestamptz;
|}.
Next Obligation.
  intros s o o' Hs Ho Ho' He%bool_decide_eq_true.
  by apply (live_row_unique (fun r => strings.ToLower (organizations_external_id r)) (committed s) o o' (fun o => strings.ToLower (o_ExternalID o)) (unique_external_ids _ (ok_well_formed _ Hs))).
Qed.
Next Obligation.
  intros s o o' Hs Ho Ho' He.
  by apply (live_row_unique organizations_probe_token (committed s) o o' o_ProbeToken (unique_probe_tokens _ (ok_well_formed _ Hs))).
Qed.
Next Obligation.
  intros s us Hs. eexists. split; [apply select_quiet, Hs|]. intros o. apply ListOrganizationsForUserIDs_members.
Qed.
Next Obligation.
  intros s f Hs Hf. eexists. split; [apply ListOrganizations_quiet; [apply Hs|apply Hs|done]|]. intros o. apply elem_of_matching.
Qed.
Next Obligation. intros s t Hs. apply (find_organization_quiet organizations_probe_token o_ProbeToken); [apply Hs|done]. Qed.
Next Obligation. intros s e Hs. apply (find_organization_quiet organizations_external_id o_ExternalID); [apply Hs|done]. Qed.
Next Obligation.
  intros s e sent Hs s' Hrun. destruct (SetLastSent_run e sent s s' Hs Hrun) as [Hs' Hc]. split; [done|]. rewrite Hc. clear Hrun Hs' Hc s'.
  set (t := committed s). pose proof (live_update t e sent) as Hup. cbn zeta in Hup.
  destruct (rows (is_live_org e) (organizations t)) as [|[id r] l] eqn:Hrows.
  - right. intros o (id & r & Hr & Hl & ->). destruct (same_id _ e) eqn:He; [|done]. exfalso. apply (not_elem_of_nil (id, r)). rewrite <- Hrows.
    apply elem_of_rows. split; [done|]. rewrite <- He. apply (is_live_org_same_id t); try done; apply Hs.
  - left. assert (Hin : (id, r) ∈ rows (is_live_org e) (organizations t)) by (rewrite Hrows; left). apply elem_of_rows in Hin as [Hr Hlive]. simpl in Hr, Hlive.
    assert (Hl : live_org r = true) by (unfold is_live_org in Hlive; by apply andb_true_iff in Hlive as [_ ?]).
    exists (scanOrganization t (id, r)). split; [by exists id, r|]. split; [rewrite <- Hlive; symmetry; apply (is_live_org_same_id t); try done; apply Hs|].
    intros o. rewrite Hup. split.
    + intros (j & r' & Hr' & Hl' & Ho). destruct (is_live_org e j r') eqn:Hlive'.
      * left. assert (id = j) as <- by (apply (is_live_org_unique_row t e id j r r'); try done; apply Hs).
        assert (r' = r) as -> by congruence. done.
      * right. subst o. split; [by exists j, r'|]. intros Heq%(f_equal o_ID). rewrite !scan_id in Heq. congruence.
    + intros [->|[(j & r' & Hr' & Hl' & ->) Hne]]; [exists id, r; by rewrite Hlive|]. exists j, r'. split; [done|]. split; [done|].
      destruct (is_live_org e j r') eqn:Hlive'; [|done]. exfalso. apply Hne.
      assert (id = j) as <- by (apply (is_live_org_unique_row t e id j r r'); try done; apply Hs). congruence.
Qed.
Next Obligation.
  intros s e b b' Hs. unfold call, postgres.postgres, method, postgres.ListOrganizationUsers. by rewrite (bind_Ret _ _ _ _ _ (select_quiet _ s (ok_quiet _ Hs))).
Qed.
End lawful.

(** * Two databases that show the same *)

Section two.
Context {S1 S2 Report : Type} `{LawfulDB S1} `{LawfulDB S2}.

(** The same organizations and members, and the same instants kept. *)
Record show_the_same (d1 : S1) (d2 : S2) : Prop := mkShowTheSame {
  same_live : forall o, ServerSpec.live d1 o <-> ServerSpec.live d2 o;
  same_members : forall u t, member d1 u t <-> member d2 u t }.
Definition same_elements (r1 r2 : outcome error (list Organization)) : Prop :=
  exists l1 l2, r1 = Ret l1 /\ r2 = Ret l2 /\ forall o, o ∈ l1 <-> o ∈ l2.

Section states.
Variables (s1 : UsersServer.Server S1 Report) (s2 : UsersServer.Server S2 Report).
Hypothesis ok1 : ok (srv_db s1).
Hypothesis ok2 : ok (srv_db s2).
Hypothesis same : show_the_same (srv_db s1) (srv_db s2).

Lemma same_LookupOrg decode cookie e action : (LookupOrg decode cookie e action s1).1 = (LookupOrg decode cookie e action s2).1.
Proof using ok1 ok2 same.
  destruct (LookupOrg_run decode cookie e action s1 ok1) as [Hbad1 Hin1]. destruct (LookupOrg_run decode cookie e action s2 ok2) as [Hbad2 Hin2].
  destruct (decode cookie) as [err|session] eqn:Hd; [by rewrite (Hbad1 err eq_refl), (Hbad2 err eq_refl)|].
  destruct (Hin1 session eq_refl) as [Hfound1 Hno1]. destruct (Hin2 session eq_refl) as [Hfound2 Hno2]. set (u := sessions.UserID session) in *.
  destruct (law_ListOrganizationsForUserIDs (srv_db s1) [u] ok1) as (l & _ & Hmem). setoid_rewrite list_elem_of_singleton in Hmem.
  destruct (decide (Exists (fun o => same_id (o_ExternalID o) e = true) l)) as [Hex|Hno].
  - apply Exists_exists in Hex as (o & Ho & He). apply Hmem in Ho as (Ho & u' & -> & Hm).
    rewrite (Hfound1 o Ho Hm He), (Hfound2 o); [done|by apply (same_live _ _ same)|by apply (same_members _ _ same)|done].
  - assert (Hnone : forall o, ServerSpec.live (srv_db s1) o -> member (srv_db s1) u (o_TeamID o) -> same_id (o_ExternalID o) e = false).
    { intros o Ho Hm. apply not_true_is_false. intros He. apply Hno, Exists_exists. exists o. split; [|done]. apply Hmem. split; [done|]. by exists u. }
    rewrite (Hno1 Hnone), Hno2; [done|]. intros o Ho Hm. apply Hnone; [by apply (same_live _ _ same)|by apply (same_members _ _ same)].
Qed.
Lemma same_LookupUsingToken token action : (LookupUsingToken token action s1).1 = (LookupUsingToken token action s2).1.
Proof using ok1 ok2 same.
  destruct (LookupUsingToken_run token action s1 ok1) as [Hin1 Hno1]. destruct (LookupUsingToken_run token action s2 ok2) as [Hin2 Hno2].
  destruct (law_FindOrganizationByProbeToken (srv_db s1) token ok1) as [(o & _ & Ho & Ht)|[_ Hno]].
  - rewrite (Hin1 o Ho Ht), (Hin2 o); [done|by apply (same_live _ _ same)|done].
  - rewrite (Hno1 Hno), Hno2; [done|]. intros o Ho. apply Hno. by apply (same_live _ _ same).
Qed.
Lemma same_list f : filter.portable f = true ->
  filter.at_resolution (stored (srv_db s1)) f = filter.at_resolution (stored (srv_db s2)) f ->
  same_elements (db (CallListOrganizations f 0) s1).1 (db (CallListOrganizations f 0) s2).1.
Proof using ok1 ok2 same.
  intros Hf Hres. destruct (law_ListOrganizations (srv_db s1) f ok1 Hf) as (l1 & Hl1 & Hm1). destruct (law_ListOrganizations (srv_db s2) f ok2 Hf) as (l2 & Hl2 & Hm2).
  exists l1, l2. rewrite (db_reads _ _ _ Hl1), (db_reads _ _ _ Hl2). split; [done|]. split; [done|]. intros o. by rewrite Hm1, Hm2, Hres, (same_live _ _ same).
Qed.
End states.

(** C9: The server does not tell two implementations of the users database apart, if they keep the promises of the
    interface and show the same organizations and members: it lets the same users and the same probes through, with
    the same answers and the same errors, and finds the same organizations billable, on trial, delinquent and ready
    for a report, at any instant that the two keep alike. *)
Theorem databases_alike (s1 : UsersServer.Server S1 Report) (s2 : UsersServer.Server S2 Report) : ok (srv_db s1) -> ok (srv_db s2) -> show_the_same (srv_db s1) (srv_db s2) ->
  (forall decode cookie e action, (LookupOrg decode cookie e action s1).1 = (LookupOrg decode cookie e action s2).1) /\
  (forall token action, (LookupUsingToken token action s1).1 = (LookupUsingToken token action s2).1) /\
  (forall now, stored (srv_db s1) now = stored (srv_db s2) now ->
     same_elements (GetDelinquentOrganizations now s1).1 (GetDelinquentOrganizations now s2).1 /\
     same_elements (GetBillableOrganizations now s1).1 (GetBillableOrganizations now s2).1 /\
     same_elements (GetTrialOrganizations now s1).1 (GetTrialOrganizations now s2).1) /\
  (forall flags now, stored (srv_db s1) (endOfSameDayLastWeek now) = stored (srv_db s2) (endOfSameDayLastWeek now) ->
     same_elements (GetOrganizationsReadyForWeeklyReport flags now s1).1 (GetOrganizationsReadyForWeeklyReport flags now s2).1).
Proof.
  intros ok1 ok2 same. split; [by intros; apply same_LookupOrg|]. split; [by intros; apply same_LookupUsingToken|]. split.
  - intros now Hnow. split_and!; apply same_list; try done; simpl; by rewrite Hnow.
  - intros flags now Hnow. apply same_list; try done; unfold ready_for_report; [by destruct (featureFlagIsForced _ _)|].
    simpl. rewrite Hnow. by destruct (featureFlagIsForced _ _).
Qed.
End two.

(** * The same calls on the two databases *)

Module both.
#[export] Existing Instance list_range.
Definition env1 : Env := mkEnv (fun _ => time.Hour) (fun _ => "quiet-river") (fun n => Some ("token-" +:+ pretty n)) 0.
Definition two_calls {S} (impl : DBImpl S) (s : S) : S :=
  (impl _ (CallCreateOrganizationWithTeam "0" "own-org-01" "Own" "probe" EmptyString "Team" 5000)
    (impl _ (CallCreateUser "ada@example.org" None) s).2).2.
Definition in_memory : MemDB.DB := two_calls (memory 5 sample.hash) (New 14 env1).
Definition from_zero : gmap string Z :=
  list_to_map ((fun n => (n, 0)) <$> ["users_id_seq"; "teams_id_seq"; "organizations_id_seq"; "team_memberships_id_seq"]).
Definition in_postgres : postgres.Server :=
  two_calls pg_sample.pg (postgres.mkServer (committed pg_sample.s0) [] from_zero [] (fun _ => time.Hour) 0 env1 0 0).
Definition shown : Organization := set_TeamExternalID "quiet-river" (new_organization "0" "own-org-01" "Own" "probe" time.Hour 5000 "0").

Lemma only {V} (m : gmap string V) k v : m = {[k := v]} -> forall k' v', m !! k' = Some v' <-> k' = k /\ v' = v.
Proof. intros -> k' v'. rewrite lookup_singleton_Some. naive_solver. Qed.
(** Stores with one organization and one member. *)
Lemma one_memory_live d c o0 : MemDB.organizations d = {["0" := c]} -> load_org d c = o0 -> forall o, memory_live d o <-> o = o0.
Proof. intros Hm Hc o. unfold memory_live. setoid_rewrite (only _ _ _ Hm). naive_solver. Qed.
Lemma one_live_row t r o0 : postgres.organizations t = {["0" := r]} -> live_org r = true -> scanOrganization t ("0", r) = o0 ->
  forall o, live_row t o <-> o = o0.
Proof. intros Hm Hl Hr o. unfold live_row. setoid_rewrite (only _ _ _ Hm). naive_solver. Qed.
Lemma one_memory_member d r : teamMemberships d = {["0" := {["0" := r]}]} -> forall u t, is_Some (memberships_of d u !! t) <-> u = "0" /\ t = "0".
Proof.
  intros Hm u t. unfold memberships_of. rewrite Hm. destruct (decide (u = "0")) as [->|Hu].
  - rewrite lookup_singleton_eq. cbn [default]. unfold is_Some. setoid_rewrite lookup_singleton_Some. naive_solver.
  - rewrite lookup_singleton_ne by done. simpl. rewrite lookup_empty. unfold is_Some. naive_solver.
Qed.
Lemma one_member_row t m : team_memberships t = {["0" := m]} -> live_membership m = true ->
  team_memberships_user_id m = "0" -> team_memberships_team_id m = "0" -> forall u tm, member_row t u tm <-> u = "0" /\ tm = "0".
Proof. intros Hm Hl Hu Ht u tm. unfold member_row. setoid_rewrite (only _ _ _ Hm). naive_solver. Qed.
Lemma in_memory_live o : memory_live in_memory o <-> o = shown.
Proof. eapply one_memory_live; vm_compute; reflexivity. Qed.
Lemma in_postgres_live o : live_row (committed in_postgres) o <-> o = shown.
Proof. eapply one_live_row; vm_compute; reflexivity. Qed.
Lemma in_memory_member u t : is_Some (memberships_of in_memory u !! t) <-> u = "0" /\ t = "0".
Proof. eapply one_memory_member; vm_compute; reflexivity. Qed.
Lemma in_postgres_member u t : member_row (committed in_postgres) u t <-> u = "0" /\ t = "0".
Proof. eapply one_member_row; vm_compute; reflexivity. Qed.

#[local] Instance memory_db : DBImpl MemDB.DB := memory 5 sample.hash.
#[local] Instance memory_db_lawful : LawfulDB MemDB.DB := memory_lawful 5 sample.hash.
#[local] Instance postgres_db : DBImpl postgres.Server := pg_sample.pg.
#[local] Instance postgres_db_lawful : LawfulDB postgres.Server := postgres_lawful _ _ _ _ _ _.
Definition server_in_memory : UsersServer.Server MemDB.DB string := UsersServer.mkServer in_memory [] (fun _ => 9) 0.
Definition server_in_postgres : UsersServer.Server postgres.Server string := UsersServer.mkServer in_postgres [] (fun _ => 9) 0.

Lemma in_memory_ok : ok (srv_db server_in_memory).
Proof.
  split; [|vm_compute; reflexivity]. apply (reachable_Inv 5 sample.hash 14 env1).
  exact (rtc_l _ _ _ _ (sample.step_run _ (CallCreateUser "ada@example.org" None) _)
    (rtc_once _ _ (sample.step_run _ (CallCreateOrganizationWithTeam "0" "own-org-01" "Own" "probe" EmptyString "Team" 5000) _))).
Qed.
Lemma in_postgres_ok : ok (srv_db server_in_postgres).
Proof.
  split; [reflexivity|split; vm_compute; reflexivity| | |]; [apply sound_iff; vm_compute; reflexivity|apply (bool_decide_eq_true_1 _); vm_compute; reflexivity..].
Qed.
Lemma both_show : show_the_same (srv_db server_in_memory) (srv_db server_in_postgres).
Proof.
  split.
  - intros o. exact (iff_trans (in_memory_live o) (iff_sym (in_postgres_live o))).
  - intros u t. exact (iff_trans (in_memory_member u t) (iff_sym (in_postgres_member u t))).
Qed.
Lemma databases_alike_witness :
  (LookupOrg MemLawful.cookies "ada" "Own-Org-01" INSTANCE_DATA_ACCESS server_in_postgres).1
  = Ret (mkLookupOrgResponse "0" "0" []).
Proof.
  rewrite <- (proj1 (databases_alike server_in_memory server_in_postgres in_memory_ok in_postgres_ok both_show)).
  vm_compute. reflexivity.
Defined.
End both.
